(* ===== verification/_CoqProject ===== *)
-Q . S2P
Prelude.v
GoStr.v
GoJson.v
GoNet.v
GoNetFacts.v
GoCIDR.v
LinkApi.v
LinkVxlan.v
LinkFilter.v
LinkHandlers.v
LinkEffects.v
LinkRoutes.v
LinkCaches.v
LinkDevices.v
LinkJson.v
LinkManager.v
LinkCorrect.v
LinkStable.v
LinkController.v
AgentDiff.v
AgentNetwork.v
AgentManager.v
AgentCorrect.v
AgentController.v
SchedPolicy.v
SchedVolume.v
DaemonApi.v
DaemonNode.v
DaemonRolling.v
DaemonSync.v
Calls.v
DaemonHistory.v
DaemonStatus.v
DaemonEvents.v
PodApi.v
PodExpand.v
PodEnv.v
LeafManager.v
PodFit.v
NodeResources.v
PodProg.v
PodStorage.v
PodControllers.v
PodSafety.v
PodProgress.v
LeafStatus.v
LeafNodes.v
ClusterManager.v
LeafVolumes.v
Tables.v
McsApi.v
McsExport.v
McsImport.v
SvcSync.v
ObjectSync.v
FleetApi.v
FleetSpread.v
FleetDistribute.v
FleetMirror.v
FleetPods.v
HubNodes.v
HubPoolNames.v
HubPools.v
HubClusters.v
HubCidrs.v
KernelTables.v
KernelLinks.v
KernelLoads.v
KernelReadBack.v
KernelAgent.v
ProxyRequest.v
ProxyStore.v
SetupApi.v
OperatorAddons.v
CtlJoin.v
CtlInstall.v
CtlNetMap.v
CtlVerify.v
CtlFloater.v
QueueWorker.v
