(* ===== verification/Prelude.v ===== *)
(** Kosmos: a verification library.

Kosmos (src/pkg) joins Kubernetes clusters. Its parts:

- ClusterLink connects the networks of the clusters. A network manager
  (clusterlink/network-manager) calculates, from the Cluster and ClusterNode objects,
  the devices, routes, forwarding and neighbour entries and iptables rules of every
  node and stores them as NodeConfig objects; an agent on each node
  (clusterlink/agent-manager, clusterlink/network) brings the kernel to the NodeConfig
  of its node.
- ClusterTree (clustertree) presents whole clusters as leaf nodes of a host cluster: a
  cluster controller starts, for every Cluster object, the controllers that keep its
  nodes, and carries the pods scheduled to these nodes, with what they need, into the
  leaf cluster and their status back. Its daemon set extension runs daemon sets over
  host and leaf clusters.
- The scheduler plugins (scheduler/lifted) decide which pods may go to leaf nodes: by
  distribution policy, by taint, and by the volumes of the pod.
- Controllers of clusters, nodes, CIDRs and Calico pools and the elector
  (clusterlink/controllers, clusterlink/elector) feed ClusterLink; an operator
  (clusterlink/clusterlink-operator) and the command line (kosmosctl) install the above; a
  proxy (clusterlink/proxy) shows resources of all clusters.

** Files

Foundations.
- Prelude: outcomes (a Go call returns or panics), loops, notations, the tactics
  [breflect] and [destr_match], the hint databases [kosmos] and [kosmos_str], and
  generic lemmas.
- GoStr, GoJson: the parts of strings and encoding/json that ClusterTree uses.
- GoNet, GoNetFacts, GoCIDR: Go's package net on bytes, as ClusterLink uses it:
  parsing and printing of addresses and networks, masks, containment.

ClusterLink, network manager.
- LinkApi: the objects (apis/kosmos/v1alpha1) and their Compare methods.
- LinkVxlan: helpers/network.go and utils/net/network.go, the addresses of tunnels.
- LinkFilter: helpers/filter.go and ExcludeInvalidItems, with the invariant
  [filter_ok] it establishes.
- LinkHandlers: every handler of the chain (handlers/*.go) over a [Context] that has
  the filter and the results; the order of Go maps and the random bytes of MAC
  addresses are arguments ([range], [rand]).
- LinkEffects, LinkDevices, LinkRoutes, LinkCaches: the effect of the handlers, as
  what each appends to every node, against the topology.
- LinkJson: encoding/json and the sorters, for the order of the results.
- LinkManager, LinkCorrect, LinkStable: CalculateNetworkConfigs and its properties.
- LinkController: controller.go, Reconcile over a store whose calls may fail.

ClusterLink, agent.
- AgentDiff, AgentNetwork, AgentManager, AgentCorrect: network_manager.go of the
  agent over the class [NetWork]; adapter.go over the single kernel operations
  ([KernelOps]), whose laws ([KernelLaws]) give those of the interface
  ([NetWorkLaws]); an in-memory kernel satisfies them.
- AgentController: agent_controller.go with its debouncer and timer as a state
  machine, and auto_detect_controller.go.
- KernelTables: network/iptables.go, env.go and network/iptables, the chains and rules of
  the agent over the class [Basic] of iptables commands with its laws ([BasicLaws]), and
  the kernel settings with their watch dog.
- KernelLinks: network/device.go, ip.go, route.go, neigh.go, arp.go and fdb.go over the
  class [Netlink] of netlink calls.
- KernelLoads: the laws of the calls ([NetlinkLaws]) and what the loaders show of the kernel.
- KernelReadBack: what is loaded after a write; a kernel in memory that keeps the laws.
- KernelAgent: the agent's synchronisation over these operations.

ClusterLink, controllers of the control plane (clusterlink/controllers, elector).
- HubNodes: node_controller.go, the ClusterNodes of a cluster, and the election of its
  gateway (elector.go, utils/role).
- HubPoolNames, HubPools: calicoippool, the Calico pools of other clusters over the class
  [PoolClient] of the two backends.
- HubClusters: cluster_controller.go and helper.go, the CIDRs in the status of a cluster.
- HubCidrs: nodecidr with its adapters, the pod CIDRs of nodes.

Scheduler.
- SchedPolicy: leafnode_distribution_policy.go, leafnode_tainttoleration.go,
  helpers/tainttoleration.go.
- SchedVolume: leafnode_volume_binding.go; the listers, the matching of volumes and
  the volume binder are the classes [Storage], [VolumeDeps] and [VolumeBinder], with
  the laws [VolumeLaws].

Daemon sets (clustertree/cluster-manager/extensions/daemonset).
- DaemonApi: utils.go, the objects, which nodes run a pod, the order of pods.
- DaemonNode: podsShouldBeOnNode.
- DaemonRolling: update.go, the rolling update up to its decision.
- DaemonSync: syncNodes with slow start and expectations, manage, rollingUpdate.
- DaemonHistory: update.go, the controller revisions over a server whose calls may fail
  ([World], the monad [M] and its rule [runs]).
- DaemonStatus: the status of a set and one round, syncDaemonSet.
- DaemonEvents: the event handlers and what they do to expectations and queue.

Leaf clusters (clustertree/cluster-manager).
- PodApi: pods, nodes, volumes and claims as the controllers see them.
- LeafManager: leaf_resource_manager.go and leaf_client_resource_manager.go, the
  registries of leaf clusters.
- PodExpand, PodEnv: utils/lifted/expand.go and env.go, the environment of a pod.
- PodFit: utils/podutils and utils/k8s.go, the pod for a leaf cluster.
- NodeResources: utils/resources.go and leaf_model_handler.go, free resources.
- PodProg: controllers as programs that call API servers ([prog]), their runs ([exec])
  and the rule [wp] about all runs.
- PodStorage, PodControllers: root_pod_controller.go and leaf_pod_controller.go.
- PodSafety, PodProgress: their properties.
- LeafStatus, LeafNodes: the nodes of leaf clusters, their health, status and leases.
- ClusterManager: cluster_controller.go.
- LeafVolumes: the reconcilers of volumes and claims (controllers/pv, controllers/pvc).

Services and objects across clusters (clustertree/cluster-manager/controllers).
- Calls, Tables: controllers as functions on the contents of servers whose calls may fail
  (the monad [M] and its rule [runs]); tables of objects with their operations, laws
  ([TableLaws]) and rules.
- McsApi, McsExport, McsImport: mcs/*.go, exports on the host and imports in leaf clusters.
- SvcSync: svc/*.go, the plain copies of services and endpoint slices.
- ObjectSync: common_controller.go, the copies of config maps and secrets.

Daemon sets over clusters (clustertree/cluster-manager/extensions/daemonset).
- FleetApi: the objects, servers and caches.
- FleetSpread: daemonset_controller.go, a kosmos DaemonSet and its shadow sets.
- FleetDistribute: distribute_controller.go, shadow sets and the sets of members.
- FleetMirror: daemonset_mirror_controller.go, native sets that ask to be mirrored.
- FleetPods: pod_reflect_controller.go, the pods of members on the host.

Proxy (clusterlink/proxy).
- ProxyRequest: utils/lifted/requestinfo.go, the chain of delegates and Connect.
- ProxyStore: the store over a dynamic client, the caches of the proxy and the controller
  that brings them to the ResourceCaches; MultiNamespace of utils/utils.go.

Setting up clusters.
- SetupApi: the API servers as sites ([Site]), the calls of the operator that create or
  update, and programs of creations and deletions as lists of changes ([edits]).
- OperatorAddons: clusterlink-operator, its controller and the five installers.
- CtlJoin: kosmosctl join and unjoin.
- CtlInstall: kosmosctl install and uninstall; CtlVerify: util/verify.go, the wait for pods
  and deployments.
- CtlNetMap, CtlFloater: kosmosctl/floater, addresses between networks and the check of
  connectivity.

Queues of keys (utils).
- QueueWorker: utils/lifted/worker.go, utils/controllers and their rate limiter as steps of
  workers and clients that interleave ([pool_exec]); utils/keys.

** What the theorems show

Network manager. The calculation returns a configuration for every valid node
([calculate_total]) with exactly the specified routes ([calculate_routes]), devices
([calculate_devices]) and rules ([calculate_iptables]); both ends of a tunnel know each
other and no other entries exist ([calculate_tunnels], [calculate_entries_sound]); no
route covers the node's own networks ([calculate_own_network]). The result does not
depend on the order of maps ([calculate_order_independent]) and is a fixed point once
stored ([calculate_stable]). The one way to panic is characterised
([calculate_panics]). Addresses: [GenerateVxlanIP_spec], [GenerateVxlanIP_no_panic],
[Intersect_spec]. The controller stores exactly the calculation
([reconcile_complete]), is safe under failing calls ([reconcile_failures]) and stable
([reconcile_stable]).

Agent. Two successful rounds bring the kernel to the configuration
([agent_converges]), one if no device has to go ([agent_converges_once]); failures are
recorded ([agent_failure_recorded]); the last configuration wins ([agent_last_wins]);
formatting and detection are idempotent ([formatNodeConfig_idem], [AutoDetect_stable]).
The chains of the agent are set up without touching other rules ([chains_linked]); what
is loaded after a rule, a device, a route or an entry was added or deleted
([iptables_read_back], [devices_read_back], [routes_read_back], [neighbours_read_back]);
settings are restored ([setting_restored]); and a successful synchronisation over these
operations brings the kernel to the configuration ([kernel_synced]).
[agent_stale_status], [agent_resurrects], [agent_one_round_loses],
[agent_empty_component_differs] and [GetInterfaceName_substring] describe where the code
does less than it means to.

Controllers of ClusterLink. The ClusterNodes of a cluster ([nodes_mirrored]) and its one
gateway ([gateway_elected]); the status of a cluster ([cluster_published]); the pod CIDRs of
a node ([cidrs_follow_event]); the pools of other clusters ([pools_reconciled],
[pools_cleaned]) and their names ([pool_name_read_back]). The examples beside them show the
names that collide, the swapped and inverted tests and the events that are dropped.

Scheduler. The filters admit exactly the specified nodes ([Distribution_Filter_spec],
[matchDistributionPolicy_spec], [Taint_Filter_spec]); volumes found on a leaf node are
there, of its cluster and bound once ([FindPodKosmosVolumes_sound]); claims stay with
their cluster ([Filter_keeps_cluster]); the shared data of a cycle does not depend on
the order of the nodes ([Filter_all_order]); binding finds what the reservation left
([PreBind_after_Reserve]).

Daemon sets. Which nodes run a pod ([daemon_node_spec]); which pods a node keeps
([node_keeps_one], [node_surges]) and what a round over all nodes does
([manage_prunes]); the limits of a rolling update
([rolling_plain_limit], [rolling_surge_limit]); the calls made, their failures and the
expectations they leave ([syncNodes_spec]). One revision is current ([history_current])
and only unused ones are cleaned up ([history_cleaned]); the stored counters are
consistent ([status_stored]); a round waits for what it has asked for and observes the
generation only then ([sync_waits]); the events of pods account for exactly that
([pods_accounted]); [conditions_same].

Pods of leaf clusters. Whatever the servers answer, the controllers write only pods of
theirs, from what was read ([root_reconcile_safe]), and a finished reconciliation has
done its work ([reconcile_finished]); the converted pod ([FitPod_spec],
[GetUpdatedPod_idem]), its environment ([container_env], [Expand_spec],
[Expand_print]), the owners of shared objects ([AddResourceClusters_spec]) and the
errors of its volumes ([volumes_joined]).

Leaf nodes. The registry refines a relation of nodes and clusters ([leaf_node_found]);
free resources ([resources_spec]); when a node goes offline ([offline_spec]) and what
is written ([status_written]); the life of a cluster ([cluster_lifecycle]); the volumes
written ([volume_writes]).

Services across clusters. What a finished reconciliation of an export ([export_synced]), of a
service that asks for exports ([auto_mcs_done]) and of an import ([import_synced]) has done;
the copies of services and slices reach every connected cluster whatever happens to the
others ([service_spread], [slice_spread]); config maps and secrets ([objects_synced]). The
examples beside them show where updates are lost, objects leak or the code panics.

Daemon sets over clusters. The shadow sets and the sums of their counters ([fleet_spread]);
the sets of members and the order of their deletion ([shadow_distributed],
[cluster_distributed]); mirrors ([set_mirrored]); reflected pods ([pod_reflected]).

Proxy. The path of a resource reads back as what it was made of, and the request goes to the
cache exactly when it is a read of a cached resource ([request_routed]); what reads show of
the cached namespaces ([store_reads]); after a synchronisation the caches are those asked
for and the others were stopped ([caches_synced]).

Setting up clusters. What a reconciliation of the operator installs, removes and leaves
([operator_reconciled]); join followed by unjoin ([join_unjoin]); what an installation makes
and keeps ([module_installed]) and an uninstallation takes away ([module_uninstalled]); when
a wait for pods ends ([pods_awaited]); the pings of a check and what it leaves
([network_checked]); an address moved to another network ([address_mapped]). The examples
beside them show secrets, accounts and CRDs that stay, flags without effect and panics.

Queues of keys. No two workers have the same key and retries are limited
([workers_exclusive]); a key that is added is not lost ([work_kept]); a key that always fails
is tried sixteen times and dropped ([attempts_bounded]), with delays in between
([retry_waits]); one worker by itself does what the code says ([worker_solo]); keys read back
([key_read_back]).

** Modelling choices

A Go call that can panic returns an [outcome]; one that returns an error returns a
[result] or an option of the error. A pointer is an option, a nil slice is told from an
empty one where the code does. Bytes and words are Z with the wrap-around written out
where they are combined; counters of pods and nodes are far below the width of int and
are Z or nat. Go maps are [gmap]; where the order of a map matters it is an argument.
A controller that calls API servers is either a program over calls that may be answered
in any way ([PodProg.prog]) or a function on the contents of a server whose calls may
fail ([LinkController.World], and over [Calls] the states [DaemonHistory.World], [Mesh],
[Vault], [Fleet], [Yard], [Site] and those of the Hub files). An object whose contents no
program reads is its template with the values given to it ([SetupApi.content]); rendering a
template may fail ([Generate]). Where a controller changes the objects of an informer's cache,
the cache is part of the state ([Fleet]).

Fuel: [GoNet.parse_groups] and [GoNet.best_run] count the eight groups of an IPv6
address, which bound the loops of the source as well; [GoJson.read_members] gets the
length of the text; [DaemonSync.batches] gets the number of pods to create, which is
enough since every batch creates at least one ([batches_spec]); retries on conflict get
the five attempts of the client library, the status of a daemon set the two of the
source, and a poll as many as the time allows ([PollBudget], [CtlVerify.checks], any
number). [CtlJoin.delete_cluster], a loop without a limit in the source, gets two more than
the finalizers, enough when each wait releases one ([join_unjoin]); [ProxyStore.process_key]
ends within the sixteen tries of the queue ([process_key_ends]).
[PodExpand.expand_loop] is by well-founded recursion. Other recursion is structural.

** What is not modelled

The packages netlink and go-iptables (parameters with their documented behaviour), log
output, recorded events and metrics, the registration with informers and the controller
runtime, the clock of the queues and their token bucket, the making of clients from Calico's configuration. The
contents of the pods that [syncNodes] creates and the claiming of pods and revisions (a
parameter). The lease that decides which node elects the gateway. The watch cache of the
API server library behind the proxy. The making of clients from kubeconfigs and flags. The
commands image, logs, get, rsmigrate and the analysis of node configurations, and the streams
of node-server: they move bytes between clients of other libraries. Generated and vendored
code. The texts of manifests are data.

Next: the analysis of node configurations over the output of a command. *)
From stdpp Require Export base gmap strings list sorting pretty option.
From Stdlib Require Export ZArith Lia Ascii.

(** * Outcomes: a Go call returns a value or panics *)

Inductive outcome (A : Type) : Type :=
  | Ret (a : A)
  | Panic.
Arguments Ret {A} a.
Arguments Panic {A}.

#[export] Instance outcome_ret : MRet outcome := fun A a => Ret a.
#[export] Instance outcome_bind : MBind outcome := fun A B f m =>
  match m with Ret a => f a | Panic => Panic end.

(** A Go call that returns a value and an [error]: [inl] carries the value and
[inr] the error message. *)
Abbreviation result A := (A + string)%type.

(** A read of an API object: the object, "not found", or another error. *)
Inductive got (A : Type) := Found (a : A) | NotFound (err : string) | Failed (err : string).
Arguments Found {A} a.
Arguments NotFound {A} err.
Arguments Failed {A} err.

Declare Scope kosmos_scope.
Delimit Scope kosmos_scope with kosmos.
Open Scope kosmos_scope.

(** String equality as the code tests it. *)
Notation "s =s t" := (bool_decide (s = t)) (at level 70, no associativity) : kosmos_scope.

(** [len(s) == 0] *)
Definition str_empty (s : string) : bool :=
  match s with EmptyString => true | _ => false end.

(** Loops: [for _, x := range l] over a state, which may panic. *)
Fixpoint foldM {S A : Type} (f : S -> A -> outcome S) (l : list A) (s : S) : outcome S :=
  match l with
  | [] => Ret s
  | x :: l' => match f s x with Ret s' => foldM f l' s' | Panic => Panic end
  end.

(** [filter_map]: the loops that collect some results. *)
Fixpoint collect {A B : Type} (f : A -> option B) (l : list A) : list B :=
  match l with
  | [] => []
  | x :: l' => match f x with Some y => y :: collect f l' | None => collect f l' end
  end.

(** [for _, x := range l { if p(x) { return true } }; return false] *)
Definition any {A : Type} (p : A -> bool) (l : list A) : bool := existsb p l.

(** The first element that satisfies [p]. *)
Fixpoint first {A : Type} (p : A -> bool) (l : list A) : option A :=
  match l with
  | [] => None
  | x :: l' => if p x then Some x else first p l'
  end.

(** * Tactics *)

Ltac destr_match :=
  match goal with
  | |- context [match ?x with _ => _ end] => destruct x eqn:?
  | H : context [match ?x with _ => _ end] |- _ => destruct x eqn:?
  end.

(** Turns boolean facts of the context into propositions. *)
Ltac breflect :=
  repeat match goal with
  | H : andb _ _ = true |- _ => apply andb_true_iff in H as [? ?]
  | H : andb _ _ = false |- _ => apply andb_false_iff in H
  | H : orb _ _ = true |- _ => apply orb_true_iff in H
  | H : orb _ _ = false |- _ => apply orb_false_iff in H as [? ?]
  | H : negb _ = true |- _ => apply negb_true_iff in H
  | H : negb _ = false |- _ => apply negb_false_iff in H
  | H : bool_decide _ = true |- _ => apply bool_decide_eq_true in H
  | H : bool_decide _ = false |- _ => apply bool_decide_eq_false in H
  | H : Z.ltb _ _ = true |- _ => apply Z.ltb_lt in H
  | H : Z.ltb _ _ = false |- _ => apply Z.ltb_ge in H
  | H : Z.leb _ _ = true |- _ => apply Z.leb_le in H
  | H : Z.leb _ _ = false |- _ => apply Z.leb_gt in H
  | H : Z.eqb _ _ = true |- _ => apply Z.eqb_eq in H
  | H : Z.eqb _ _ = false |- _ => apply Z.eqb_neq in H
  end.

Create HintDb kosmos.
Create HintDb kosmos_str.

(** * Generic lemmas *)

Lemma str_empty_true s : str_empty s = true <-> s = EmptyString.
Proof. destruct s; simpl; split; congruence. Qed.

Lemma str_empty_false s : str_empty s = false <-> s <> EmptyString.
Proof. destruct s; simpl; split; congruence. Qed.

Lemma foldM_app {S A} (f : S -> A -> outcome S) l1 l2 s :
  foldM f (l1 ++ l2) s =
  match foldM f l1 s with Ret s' => foldM f l2 s' | Panic => Panic end.
Proof. revert s; induction l1 as [|x l1 IH]; intros s; simpl; [done|]. by destruct (f s x). Qed.

(** The rule for a loop: an invariant of the state that every iteration keeps
without a panic. *)
Lemma foldM_inv {S A} (P : S -> Prop) (f : S -> A -> outcome S) l s :
  (forall s x, x ∈ l -> P s -> exists s', f s x = Ret s' /\ P s') ->
  P s -> exists s', foldM f l s = Ret s' /\ P s'.
Proof.
  revert s. induction l as [|x l IH]; intros s Hf Hs; simpl; [by exists s|].
  destruct (Hf s x) as (s' & -> & Hs'); [by left | done |].
  apply IH; [| done]. intros s0 y Hy. apply Hf. by right.
Qed.

(** The same for partial correctness. *)
Lemma foldM_post {S A} (P : S -> Prop) (f : S -> A -> outcome S) l s s' :
  foldM f l s = Ret s' ->
  (forall s x s', x ∈ l -> P s -> f s x = Ret s' -> P s') ->
  P s -> P s'.
Proof.
  revert s. induction l as [|x l IH]; intros s; simpl; [congruence|].
  destruct (f s x) as [s1|] eqn:E; [|done]. intros Hl Hf Hs.
  eapply IH; [done | | eapply Hf; [by left| done | done] ].
  intros s0 y s2 Hy. apply Hf. by right.
Qed.

(** The rule that keeps track of the elements already visited. *)
Lemma foldM_prefix {S A} (P : list A -> S -> Prop) (f : S -> A -> outcome S) l s :
  P [] s ->
  (forall pre x s, x ∈ l -> P pre s -> exists s', f s x = Ret s' /\ P (pre ++ [x]) s') ->
  exists s', foldM f l s = Ret s' /\ P l s'.
Proof.
  intros H0 Hf. assert (G : forall l2 pre s, (forall x, x ∈ l2 -> x ∈ l) -> P pre s ->
    exists s', foldM f l2 s = Ret s' /\ P (pre ++ l2) s').
  { induction l2 as [|x l2 IH]; intros pre s0 Hl Hs; simpl; [exists s0; by rewrite app_nil_r|].
    destruct (Hf pre x s0) as (s1 & -> & H1); [apply Hl; by left|done|].
    destruct (IH (pre ++ [x]) s1) as (s2 & E & H2); [intros y Hy; apply Hl; by right|done|].
    exists s2. by rewrite <- app_assoc in H2. }
  by apply (G l []).
Qed.

Lemma elem_of_collect {A B} (f : A -> option B) l y :
  y ∈ collect f l <-> exists x, x ∈ l /\ f x = Some y.
Proof.
  induction l as [|x l IH]; simpl; [set_solver|].
  destruct (f x) eqn:E; set_solver.
Qed.

Lemma collect_app {A B} (f : A -> option B) l1 l2 :
  collect f (l1 ++ l2) = collect f l1 ++ collect f l2.
Proof. induction l1 as [|x l1 IH]; simpl; [done|]. destruct (f x); by rewrite ?IH. Qed.

Lemma collect_length {A B} (f : A -> option B) l : length (collect f l) <= length l.
Proof. induction l as [|x l IH]; simpl; [done|]. destruct (f x); simpl; lia. Qed.

Lemma filter_lengths {A} (p : A -> bool) l :
  length (List.filter p l) + length (List.filter (fun x => negb (p x)) l) = length l.
Proof. induction l as [|x l IH]; simpl; [done|]. destruct (p x); simpl; lia. Qed.

Lemma any_true {A} (p : A -> bool) l : any p l = true <-> exists x, x ∈ l /\ p x = true.
Proof.
  unfold any. rewrite existsb_exists. setoid_rewrite <- list_elem_of_In. done.
Qed.

Lemma any_false {A} (p : A -> bool) l : any p l = false <-> forall x, x ∈ l -> p x = false.
Proof.
  rewrite <- not_true_iff_false, any_true. split.
  - intros H x Hx. destruct (p x) eqn:E; [|done]. destruct H. eauto.
  - intros H (x & Hx & E). rewrite H in E; done.
Qed.

Lemma first_Some {A} (p : A -> bool) l x : first p l = Some x -> x ∈ l /\ p x = true.
Proof.
  induction l as [|y l IH]; simpl; [done|]. destruct (p y) eqn:E.
  - intros [= ->]. split; [by left | done].
  - intros [? ?]%IH. split; [by right | done].
Qed.

Lemma first_None {A} (p : A -> bool) l : first p l = None <-> forall x, x ∈ l -> p x = false.
Proof.
  induction l as [|y l IH]; simpl; [set_solver|]. destruct (p y) eqn:E.
  - split; [done|]. intros H. rewrite H in E; [done | by left].
  - rewrite IH. set_solver.
Qed.

Lemma first_is_Some {A} (p : A -> bool) l x :
  x ∈ l -> p x = true -> exists y, first p l = Some y.
Proof.
  intros Hx Hp. destruct (first p l) eqn:E; [eauto|].
  pose proof (proj1 (first_None p l) E x Hx). congruence.
Qed.

#[export] Hint Resolve first_is_Some : kosmos.

Lemma elem_concat_map {A B} (g : A -> list B) l y : y ∈ concat (map g l) <-> exists x, x ∈ l /\ y ∈ g x.
Proof.
  induction l as [|x l IH]; simpl; [set_solver|]. rewrite elem_of_app, IH. set_solver.
Qed.

Lemma map_flat_map {A B C} (g : B -> C) (h : A -> list B) l :
  map g (flat_map h l) = flat_map (fun x => map g (h x)) l.
Proof. induction l as [|x l IH]; [done|]. simpl. by rewrite map_app, IH. Qed.

(** A loop that only appends to an accumulator. *)
Lemma foldM_append {A B} (g : A -> list B) (h : list B -> A -> outcome (list B)) l acc :
  (forall acc x, x ∈ l -> h acc x = Ret (acc ++ g x)) ->
  foldM h l acc = Ret (acc ++ flat_map g l).
Proof.
  revert acc. induction l as [|x l IH]; intros acc H; simpl; [by rewrite app_nil_r|].
  rewrite H by by left. rewrite IH, <- app_assoc; [done|]. intros acc' y Hy. apply H. by right.
Qed.

(** ** Strings *)

Lemma str_app_nil_r s : s +:+ EmptyString = s.
Proof. induction s as [|c s IH]; [done|]. unfold String.app in *; simpl. by rewrite IH. Qed.

Lemma str_app_assoc s t u : (s +:+ t) +:+ u = s +:+ (t +:+ u).
Proof. induction s as [|c s IH]; [done|]. unfold String.app in *; simpl. by rewrite IH. Qed.

Lemma str_app_cons c s t : String c s +:+ t = String c (s +:+ t).
Proof. done. Qed.

Lemma str_app_nil_l s : EmptyString +:+ s = s.
Proof. done. Qed.

#[export] Hint Rewrite str_app_nil_r str_app_nil_l str_app_assoc str_app_cons : kosmos_str.

(** ** Bits *)

Lemma testbit_above b k n : (0 <= b < 2 ^ k)%Z -> (0 <= k <= n)%Z -> Z.testbit b n = false.
Proof.
  intros Hb Hk. rewrite <- (Z.mod_small b (2 ^ k)) by lia. apply Z.mod_pow2_bits_high. lia.
Qed.

(** Joining a high part and a low part that do not overlap. *)
Lemma lor_shiftl_add a b k : (0 <= k)%Z -> (0 <= b < 2 ^ k)%Z ->
  Z.lor (Z.shiftl a k) b = (a * 2 ^ k + b)%Z.
Proof.
  intros Hk Hb. rewrite <- Z.shiftl_mul_pow2 by done.
  assert (Hd : Z.land (Z.shiftl a k) b = 0%Z).
  { apply Z.bits_inj'. intros n Hn. rewrite Z.land_spec, Z.bits_0.
    destruct (Z.ltb_spec n k).
    - rewrite Z.shiftl_spec_low by lia. done.
    - rewrite (testbit_above b k n) by lia. apply andb_false_r. }
  rewrite Z.add_nocarry_lxor, Z.lxor_lor; done.
Qed.

(** ** Pointers and loops that may panic *)

(** Dereferencing a pointer; nil panics. *)
Definition deref {A : Type} (p : option A) : outcome A :=
  match p with Some a => Ret a | None => Panic end.

(** [for _, x := range l { if p(x) { results = append(results, x) } }] *)
Fixpoint filterM {A : Type} (p : A -> outcome bool) (l : list A) : outcome (list A) :=
  match l with
  | [] => Ret []
  | x :: l' =>
      match p x with
      | Panic => Panic
      | Ret b => match filterM p l' with
                 | Panic => Panic
                 | Ret r => Ret (if b then x :: r else r)
                 end
      end
  end.

Lemma filterM_pure {A} (p : A -> outcome bool) (q : A -> bool) l :
  (forall x, x ∈ l -> p x = Ret (q x)) -> filterM p l = Ret (List.filter q l).
Proof.
  induction l as [|x l IH]; intros H; simpl; [done|].
  rewrite (H x) by by left. rewrite IH; [by destruct (q x)|]. intros y Hy. apply H. by right.
Qed.

(** A loop whose iterations never panic is a fold. *)
Lemma foldM_pure {S A} (f : S -> A -> outcome S) (g : S -> A -> S) l s :
  (forall s x, x ∈ l -> f s x = Ret (g s x)) -> foldM f l s = Ret (fold_left g l s).
Proof.
  revert s; induction l as [|x l IH]; intros s H; simpl; [done|].
  rewrite (H s x) by by left. apply IH. intros s' y Hy. apply H. by right.
Qed.

Lemma list_filter_spec {A} (q : A -> bool) l x : x ∈ List.filter q l <-> x ∈ l /\ q x = true.
Proof. rewrite !list_elem_of_In. apply filter_In. Qed.
