(* ===== verification/GoStr.v ===== *)
(** Go's package strings, as the pod and scheduler code uses it. A Go string is a
sequence of bytes, as [string] is; indices count bytes. The case conversions are those
of ASCII, which is what the names of Kubernetes objects consist of. *)
From S2P Require Import Prelude.

(** [strings.HasPrefix], [strings.Contains] and [strings.TrimPrefix]. *)
Fixpoint HasPrefix (s prefix : string) : bool :=
  match prefix, s with
  | EmptyString, _ => true
  | String c p', String d s' => bool_decide (c = d) && HasPrefix s' p'
  | _, _ => false
  end.

Fixpoint Contains_str (s sub : string) : bool :=
  HasPrefix s sub || match s with EmptyString => false | String _ s' => Contains_str s' sub end.

Fixpoint drop_prefix (s prefix : string) : string :=
  match prefix, s with
  | EmptyString, _ => s
  | String _ p', String _ s' => drop_prefix s' p'
  | _, _ => s
  end.

Definition TrimPrefix (s prefix : string) : string :=
  if HasPrefix s prefix then drop_prefix s prefix else s.

(** [%q] on the names of objects, which have no character to escape. *)
Definition quote (s : string) : string :=
  String (ascii_of_nat 34) (s +:+ String (ascii_of_nat 34) EmptyString).

(** ** Slices *)

Fixpoint str_take (n : nat) (s : string) : string :=
  match n, s with
  | S n', String c s' => String c (str_take n' s')
  | _, _ => EmptyString
  end.

Fixpoint str_drop (n : nat) (s : string) : string :=
  match n, s with
  | 0, _ => s
  | S n', String _ s' => str_drop n' s'
  | S _, EmptyString => EmptyString
  end.

(** [s[i:j]], which panics unless [i <= j <= len(s)]. *)
Definition slice (s : string) (i j : nat) : outcome string :=
  if (i <=? j) && (j <=? String.length s) then Ret (str_take (j - i) (str_drop i s)) else Panic.

(** [s[i:]] *)
Definition slice_from (s : string) (i : nat) : outcome string := slice s i (String.length s).

(** [s[i]] *)
Definition str_at (s : string) (i : nat) : outcome ascii := deref (String.get i s).

(** ** Suffixes, cutting, joining *)

Fixpoint HasSuffix (s suffix : string) : bool :=
  (s =s suffix) || match s with EmptyString => false | String _ s' => HasSuffix s' suffix end.

Definition TrimSuffix (s suffix : string) : string :=
  if HasSuffix s suffix then str_take (String.length s - String.length suffix) s else s.

(** What is before and after the first [sep]: [strings.SplitN(s, sep, 2)], if it gives
two parts. *)
Fixpoint cut (sep s : string) : option (string * string) :=
  if HasPrefix s sep then Some (EmptyString, drop_prefix s sep)
  else match s with
       | EmptyString => None
       | String c s' => match cut sep s' with
                        | Some (a, b) => Some (String c a, b)
                        | None => None
                        end
       end.

(** [strings.Split(s, sep)] for a separator of one byte. *)
Fixpoint Split (sep : ascii) (s : string) : list string :=
  match s with
  | EmptyString => [EmptyString]
  | String c s' =>
      if bool_decide (c = sep) then EmptyString :: Split sep s'
      else match Split sep s' with
           | [] => [String c EmptyString]
           | p :: ps => String c p :: ps
           end
  end.

(** [strings.Join(l, sep)] *)
Fixpoint Join (sep : string) (l : list string) : string :=
  match l with
  | [] => EmptyString
  | [x] => x
  | x :: l' => x +:+ sep +:+ Join sep l'
  end.

(** [strings.Replace(s, old, new, -1)] for single bytes. *)
Fixpoint Replace (old new : ascii) (s : string) : string :=
  match s with
  | EmptyString => EmptyString
  | String c s' => String (if bool_decide (c = old) then new else c) (Replace old new s')
  end.

Fixpoint str_map (f : ascii -> ascii) (s : string) : string :=
  match s with EmptyString => EmptyString | String c s' => String (f c) (str_map f s') end.

Definition upper (c : ascii) : ascii :=
  let n := nat_of_ascii c in if (97 <=? n) && (n <=? 122) then ascii_of_nat (n - 32) else c.
Definition lower (c : ascii) : ascii :=
  let n := nat_of_ascii c in if (65 <=? n) && (n <=? 90) then ascii_of_nat (n + 32) else c.

Definition ToUpper : string -> string := str_map upper.
Definition ToLower : string -> string := str_map lower.

(** * Facts *)

Lemma str_take_drop n s : str_take n s +:+ str_drop n s = s.
Proof.
  revert n. induction s as [|c s IH]; intros [|n]; [done..|]. simpl.
  rewrite str_app_cons. by rewrite IH.
Qed.

Lemma str_drop_drop n m s : str_drop n (str_drop m s) = str_drop (m + n) s.
Proof. revert s. induction m as [|m IH]; intros [|c s]; [done..| by destruct n |]. simpl. apply IH. Qed.

Lemma str_drop_length n s : String.length (str_drop n s) = String.length s - n.
Proof. revert s. induction n as [|n IH]; intros [|c s]; [done..|]. simpl. apply IH. Qed.

Lemma str_take_length n s : String.length (str_take n s) = Nat.min n (String.length s).
Proof. revert s. induction n as [|n IH]; intros [|c s]; [done..|]. simpl. by rewrite IH. Qed.

Lemma str_take_all n s : String.length s <= n -> str_take n s = s.
Proof.
  revert s. induction n as [|n IH]; intros [|c s] H; simpl in *; [done|lia|done|].
  by rewrite IH by lia.
Qed.

Lemma str_drop_all n s : String.length s <= n -> str_drop n s = EmptyString.
Proof. revert s. induction n as [|n IH]; intros [|c s] H; simpl in *; [done|lia|done|]. apply IH. lia. Qed.

Lemma str_get_drop n s : String.get n s = match str_drop n s with String c _ => Some c | EmptyString => None end.
Proof. revert s. induction n as [|n IH]; intros [|c s]; [done..|]. simpl. apply IH. Qed.

Lemma str_drop_cons n s c r : str_drop n s = String c r -> str_drop (S n) s = r.
Proof. intros H. rewrite <- (Nat.add_1_r n), <- str_drop_drop, H. done. Qed.

Lemma str_length_app s t : String.length (s +:+ t) = String.length s + String.length t.
Proof. induction s as [|c s IH]; [done|]. rewrite str_app_cons. simpl. by rewrite IH. Qed.

Lemma str_take_app s t : str_take (String.length s) (s +:+ t) = s.
Proof. induction s as [|c s IH]; [done|]. rewrite str_app_cons. simpl. by rewrite IH. Qed.

Lemma str_drop_app s t : str_drop (String.length s) (s +:+ t) = t.
Proof. induction s as [|c s IH]; [done|]. rewrite str_app_cons. simpl. by rewrite IH. Qed.

Lemma str_take_add n m s : str_take (n + m) s = str_take n s +:+ str_take m (str_drop n s).
Proof.
  revert s. induction n as [|n IH]; intros [|c s]; simpl; [done..| by destruct m |].
  rewrite str_app_cons. by rewrite IH.
Qed.

Lemma HasPrefix_app s t : HasPrefix (s +:+ t) s = true.
Proof. induction s as [|c s IH]; [by destruct t|]. rewrite str_app_cons. simpl. by rewrite IH, bool_decide_true. Qed.

Lemma drop_prefix_app s t : drop_prefix (s +:+ t) s = t.
Proof. induction s as [|c s IH]; [by destruct t|]. rewrite str_app_cons. simpl. done. Qed.

Lemma TrimPrefix_app s t : TrimPrefix (s +:+ t) s = t.
Proof. unfold TrimPrefix. by rewrite HasPrefix_app, drop_prefix_app. Qed.

Lemma HasPrefix_true s p : HasPrefix s p = true -> s = p +:+ TrimPrefix s p.
Proof.
  intros H. unfold TrimPrefix. rewrite H. revert s H. induction p as [|c p IH]; intros [|d s]; simpl; [done..|].
  intros H. breflect. subst. rewrite str_app_cons. f_equal. by apply IH.
Qed.

#[export] Hint Rewrite str_take_drop str_drop_drop str_drop_length str_take_length str_length_app
  str_take_app str_drop_app HasPrefix_app TrimPrefix_app : kosmos_str.

(** ** Splitting and joining *)

Lemma Split_cons sep s : exists p ps, Split sep s = p :: ps.
Proof.
  induction s as [|c s IH]; simpl; [eauto|]. case_bool_decide; [eauto|]. destruct IH as (p & ps & ->). eauto.
Qed.

Lemma Split_no_sep sep s : sep ∉ String.list_ascii_of_string s -> Split sep s = [s].
Proof.
  induction s as [|c s IH]; simpl; [done|]. intros H. rewrite bool_decide_false by set_solver.
  rewrite IH by set_solver. done.
Qed.

Lemma Split_app sep s t : sep ∉ String.list_ascii_of_string s -> Split sep (s +:+ String sep t) = s :: Split sep t.
Proof.
  induction s as [|c s IH]; intros H; [simpl; by rewrite bool_decide_true|].
  rewrite str_app_cons. simpl in *. rewrite bool_decide_false by set_solver. rewrite IH by set_solver. done.
Qed.

(** Joining and splitting again; an empty list reads as one empty part. *)
Lemma Split_Join sep l : l <> [] -> Forall (fun s => sep ∉ String.list_ascii_of_string s) l ->
  Split sep (Join (String sep EmptyString) l) = l.
Proof.
  induction l as [|x l IH]; intros Hne Hf; [done|]. apply Forall_cons_iff in Hf as [Hx Hf].
  destruct l as [|y l]; [by apply Split_no_sep|].
  assert (E : Join (String sep EmptyString) (x :: y :: l) = x +:+ String sep (Join (String sep EmptyString) (y :: l))) by done.
  rewrite E, Split_app by done. by rewrite IH.
Qed.

Lemma Split_parts sep s : Forall (fun p => sep ∉ String.list_ascii_of_string p) (Split sep s).
Proof.
  induction s as [|c s IH]; simpl; [repeat constructor; set_solver|]. case_bool_decide as Hc.
  - constructor; [set_solver|done].
  - destruct (Split sep s) as [|p ps]; [by repeat constructor; set_solver|].
    apply Forall_cons_iff in IH as [Hp Hps]. constructor; [simpl; set_solver|done].
Qed.

Lemma Join_Split sep s : Join (String sep EmptyString) (Split sep s) = s.
Proof.
  induction s as [|c s IH]; simpl; [done|]. case_bool_decide as Hc.
  - subst c. destruct (Split_cons sep s) as (p & ps & E). rewrite E in *. by rewrite <- IH.
  - destruct (Split_cons sep s) as (p & ps & E). rewrite E in *. rewrite <- IH. destruct ps as [|q ps]; [done|]. apply str_app_cons.
Qed.

(** ** [strconv.Quote], the verb [%q]: bytes from 128 on belong to printable characters and
are kept. *)

Definition hex_digit (n : nat) : ascii := ascii_of_nat (if n <? 10 then 48 + n else 87 + n).

Definition quote_byte (c : ascii) : string :=
  let backslash := ascii_of_nat 92 in
  let esc d := String backslash (String d EmptyString) in
  match nat_of_ascii c with
  | 34 => esc (ascii_of_nat 34)
  | 92 => esc backslash
  | 7 => esc "a"%char | 8 => esc "b"%char | 12 => esc "f"%char | 10 => esc "n"%char
  | 13 => esc "r"%char | 9 => esc "t"%char | 11 => esc "v"%char
  | n => if (n <? 32) || (n =? 127)
         then String backslash (String "x" (String (hex_digit (n / 16)) (String (hex_digit (n mod 16)) EmptyString)))
         else String c EmptyString
  end.

Fixpoint quote_bytes (s : string) : string :=
  match s with EmptyString => EmptyString | String c s' => quote_byte c +:+ quote_bytes s' end.

Definition Quote (s : string) : string := quote (quote_bytes s).
