(* ===== verification/GoJson.v ===== *)
(** Go's [encoding/json], as the code uses it: the text of strings, integers, slices,
objects (HTML escaping on, invalid UTF-8 replaced) and of maps of strings, and the
reading of such a map. *)
From S2P Require Import Prelude GoStr.

(** * Strings *)

Definition code (c : ascii) : N := Ascii.N_of_ascii c.
Definition between (lo hi : N) (c : ascii) : bool := N.leb lo (code c) && N.leb (code c) hi.

Definition hex (n : N) : ascii :=
  if N.ltb n 10 then Ascii.ascii_of_N (48 + n) else Ascii.ascii_of_N (87 + n).

(** [htmlSafeSet]: printable ASCII and DEL, without the quote, the backslash and the HTML
characters. *)
Definition htmlSafe (c : ascii) : bool :=
  between 32 127 c && negb (bool_decide (c ∈ ["034"%char; "\"%char; "&"%char; "<"%char; ">"%char])).

Definition escape_ascii (c : ascii) : string :=
  if htmlSafe c then String c ""
  else if (code c =? 92)%N || (code c =? 34)%N then String "\" (String c "")
  else if (code c =? 10)%N then "\n"
  else if (code c =? 13)%N then "\r"
  else if (code c =? 9)%N then "\t"
  else "\u00" +:+ String (hex (N.shiftr (code c) 4)) (String (hex (N.land (code c) 15)) "").

(** The range of the second byte after the first byte of a rune of three or four
bytes ([utf8.acceptRanges]). *)
Definition second_ok (c0 c1 : ascii) : bool :=
  if (code c0 =? 224)%N then between 160 191 c1
  else if (code c0 =? 237)%N then between 128 159 c1
  else if (code c0 =? 240)%N then between 144 191 c1
  else if (code c0 =? 244)%N then between 128 143 c1
  else between 128 191 c1.

Definition cont (c : ascii) : bool := between 128 191 c.

(** U+2028 and U+2029 are escaped, every other valid rune is copied. *)
Definition escape3 (c0 c1 c2 : ascii) : string :=
  if (code c0 =? 226)%N && (code c1 =? 128)%N && ((code c2 =? 168)%N || (code c2 =? 169)%N)
  then "\u202" +:+ String (hex (N.land (code c2) 15)) ""
  else String c0 (String c1 (String c2 "")).

Definition replacement : string := "\ufffd".

Fixpoint escape (s : string) : string :=
  match s with
  | EmptyString => ""
  | String c0 s1 =>
      if between 0 127 c0 then escape_ascii c0 +:+ escape s1
      else
        match s1 with
        | EmptyString => replacement
        | String c1 s2 =>
            if between 194 223 c0 then
              if cont c1 then String c0 (String c1 "") +:+ escape s2 else replacement +:+ escape s1
            else if between 224 239 c0 then
              match s2 with
              | String c2 s3 =>
                  if second_ok c0 c1 && cont c2 then escape3 c0 c1 c2 +:+ escape s3
                  else replacement +:+ escape s1
              | EmptyString => replacement +:+ escape s1
              end
            else if between 240 244 c0 then
              match s2 with
              | String c2 (String c3 s4) =>
                  if second_ok c0 c1 && cont c2 && cont c3
                  then String c0 (String c1 (String c2 (String c3 ""))) +:+ escape s4
                  else replacement +:+ escape s1
              | _ => replacement +:+ escape s1
              end
            else replacement +:+ escape s1
        end
  end.

Definition dquote : string := String "034" "".
Definition json_string (s : string) : string := dquote +:+ escape s +:+ dquote.

(** * Objects *)

(** [json.Marshal] of the types used here never fails: they hold strings, integers
and slices of such. *)
Class Marshal (A : Type) := marshal : A -> string.

#[export] Instance marshal_string : Marshal string := json_string.
#[export] Instance marshal_int : Marshal Z := fun z => pretty z.

Definition field (name value : string) : string := json_string name +:+ ":" +:+ value.

Fixpoint commas (l : list string) : string :=
  match l with
  | [] => ""
  | [x] => x
  | x :: l' => x +:+ "," +:+ commas l'
  end.

Definition object (fields : list string) : string := "{" +:+ commas fields +:+ "}".
#[export] Instance marshal_list {A} `{Marshal A} : Marshal (list A) := fun l => "[" +:+ commas (map marshal l) +:+ "]".

(** * Maps of strings *)

(** [json.Marshal] of a map[string]string: the keys in order. *)
#[export] Instance marshal_map : Marshal (gmap string string) := fun m =>
  object (map (fun k => field k (marshal (default "" (m !! k)))) (merge_sort String.le (map fst (map_to_list m)))).

(** ** Reading *)

Definition hex_value (c : ascii) : option N :=
  if between 48 57 c then Some (code c - 48)%N
  else if between 97 102 c then Some (code c - 87)%N
  else if between 65 70 c then Some (code c - 55)%N
  else None.

Definition hex4 (a b c d : ascii) : option N :=
  match hex_value a, hex_value b, hex_value c, hex_value d with
  | Some a, Some b, Some c, Some d => Some (a * 4096 + b * 256 + c * 16 + d)%N
  | _, _, _, _ => None
  end.

Definition byte (n : N) : ascii := Ascii.ascii_of_N n.

(** The UTF-8 encoding of a rune. *)
Definition utf8 (r : N) : string :=
  if (r <? 128)%N then String (byte r) ""
  else if (r <? 2048)%N then String (byte (192 + r / 64)) (String (byte (128 + r mod 64)) "")
  else if (r <? 65536)%N then
    String (byte (224 + r / 4096)) (String (byte (128 + r / 64 mod 64)) (String (byte (128 + r mod 64)) ""))
  else String (byte (240 + r / 262144)) (String (byte (128 + r / 4096 mod 64))
         (String (byte (128 + r / 64 mod 64)) (String (byte (128 + r mod 64)) ""))).

Definition RuneError : string := utf8 65533.

Definition before (p : string) (r : option (string * string)) : option (string * string) :=
  match r with Some (s, rest) => Some (p +:+ s, rest) | None => None end.

Definition simple_escape (c : ascii) : option ascii :=
  if bool_decide (c ∈ ["034"%char; "\"%char; "/"%char]) then Some c
  else if bool_decide (c = "b"%char) then Some (byte 8)
  else if bool_decide (c = "f"%char) then Some (byte 12)
  else if bool_decide (c = "n"%char) then Some (byte 10)
  else if bool_decide (c = "r"%char) then Some (byte 13)
  else if bool_decide (c = "t"%char) then Some (byte 9)
  else None.

Definition surrogate (r : N) : bool := (55296 <=? r)%N && (r <? 57344)%N.
Definition surrogate_pair (r1 r2 : N) : option N :=
  if (55296 <=? r1)%N && (r1 <? 56320)%N && (56320 <=? r2)%N && (r2 <? 57344)%N
  then Some ((r1 - 55296) * 1024 + (r2 - 56320) + 65536)%N else None.

(** The rest of a string literal after its opening quote: its value, and what follows. *)
Fixpoint unquote (s : string) : option (string * string) :=
  match s with
  | EmptyString => None
  | String c0 s1 =>
      if bool_decide (c0 = "034"%char) then Some ("", s1)
      else if bool_decide (c0 = "\"%char) then
        match s1 with
        | String "u" (String a (String b (String c (String d s3)))) =>
            match hex4 a b c d with
            | None => None
            | Some r =>
                if surrogate r then
                  match s3 with
                  | String "\" (String "u" (String a' (String b' (String c' (String d' s4))))) =>
                      match hex4 a' b' c' d' ≫= surrogate_pair r with
                      | Some r' => before (utf8 r') (unquote s4)
                      | None => before RuneError (unquote s3)
                      end
                  | _ => before RuneError (unquote s3)
                  end
                else before (utf8 r) (unquote s3)
            end
        | String e s2 =>
            match simple_escape e with Some c => before (String c "") (unquote s2) | None => None end
        | EmptyString => None
        end
      else if between 0 31 c0 then None
      else if between 32 127 c0 then before (String c0 "") (unquote s1)
      else
        match s1 with
        | String c1 s2 =>
            if between 194 223 c0 && cont c1 then before (String c0 (String c1 "")) (unquote s2)
            else
              match s2 with
              | String c2 s3 =>
                  if between 224 239 c0 && second_ok c0 c1 && cont c2
                  then before (String c0 (String c1 (String c2 ""))) (unquote s3)
                  else
                    match s3 with
                    | String c3 s4 =>
                        if between 240 244 c0 && second_ok c0 c1 && cont c2 && cont c3
                        then before (String c0 (String c1 (String c2 (String c3 "")))) (unquote s4)
                        else before RuneError (unquote s1)
                    | EmptyString => before RuneError (unquote s1)
                    end
              | EmptyString => before RuneError (unquote s1)
              end
        | EmptyString => None
        end
  end.

Fixpoint skip_space (s : string) : string :=
  match s with
  | String c s' => if bool_decide (c ∈ [byte 32; byte 9; byte 10; byte 13]) then skip_space s' else s
  | EmptyString => s
  end.

(** A value of the map: a string, or null, which reads as the empty string. *)
Definition read_value (s : string) : option (string * string) :=
  match s with
  | String "034" s' => unquote s'
  | String "n" (String "u" (String "l" (String "l" s'))) => Some ("", s')
  | _ => None
  end.

(** The members of an object, from a key on. *)
Fixpoint read_members (fuel : nat) (s : string) (m : gmap string string) : option (gmap string string * string) :=
  match fuel, s with
  | S fuel', String "034" s0 =>
      match unquote s0 with
      | Some (k, s1) =>
          match skip_space s1 with
          | String ":" s2 =>
              match read_value (skip_space s2) with
              | Some (v, s3) =>
                  match skip_space s3 with
                  | String "," s4 => read_members fuel' (skip_space s4) (<[k := v]> m)
                  | String "}" s4 => Some (<[k := v]> m, s4)
                  | _ => None
                  end
              | None => None
              end
          | _ => None
          end
      | None => None
      end
  | _, _ => None
  end.

Definition read_object (s : string) : option (gmap string string * string) :=
  match s with
  | String "{" s1 =>
      match skip_space s1 with
      | String "}" s2 => Some (∅, s2)
      | s2 => read_members (String.length s2) s2 ∅
      end
  | String "n" (String "u" (String "l" (String "l" s1))) => Some (∅, s1)
  | _ => None
  end.

(** [json.Unmarshal] into an empty map[string]string. Every other text gives an error: it
is no JSON value, or a value of another type. *)
Definition unmarshal_map (s : string) : option (gmap string string) :=
  match read_object (skip_space s) with
  | Some (m, rest) => match skip_space rest with EmptyString => Some m | _ => None end
  | None => None
  end.

(** ** The round trip on ASCII strings *)

Fixpoint is_ascii (s : string) : bool :=
  match s with EmptyString => true | String c s' => between 0 127 c && is_ascii s' end.

Lemma unquote_escape_ascii c s : between 0 127 c = true ->
  unquote (escape_ascii c +:+ s) = before (String c "") (unquote s).
Proof.
  destruct c as [[] [] [] [] [] [] [] []]; vm_compute between; intros H; try done; clear H; try reflexivity.
Qed.

Lemma before_app p q r : before p (before q r) = before (p +:+ q) r.
Proof. destruct r as [[]|]; simpl; [by rewrite str_app_assoc|done]. Qed.

Lemma unquote_escape s rest : is_ascii s = true -> unquote (escape s +:+ dquote +:+ rest) = Some (s, rest).
Proof.
  induction s as [|c s IH]; intros Hs; [done|]. simpl in Hs. apply andb_prop in Hs as [Hc Hs].
  simpl escape. rewrite Hc, str_app_assoc, unquote_escape_ascii, IH by done. done.
Qed.

Lemma unquote_json_string s rest : is_ascii s = true ->
  json_string s +:+ rest = String "034" (escape s +:+ dquote +:+ rest) /\
  unquote (escape s +:+ dquote +:+ rest) = Some (s, rest).
Proof. intros Hs. split; [unfold json_string, dquote; by autorewrite with kosmos_str|by apply unquote_escape]. Qed.

(** The text of one member and what is read of it. *)
Lemma read_member fuel k v rest m : is_ascii k = true -> is_ascii v = true ->
  read_members (S fuel) (field k (marshal v) +:+ rest) m =
  match skip_space rest with
  | String "," s4 => read_members fuel (skip_space s4) (<[k := v]> m)
  | String "}" s4 => Some (<[k := v]> m, s4)
  | _ => None
  end.
Proof.
  intros Hk Hv. unfold field, marshal, marshal_string. rewrite !str_app_assoc.
  destruct (unquote_json_string k (":" +:+ json_string v +:+ rest) Hk) as [-> Ek]. cbn [read_members]. rewrite Ek.
  destruct (unquote_json_string v rest Hv) as [Ev1 Ev2]. simpl skip_space at 1. cbn iota.
  change ("" +:+ json_string v +:+ rest) with (json_string v +:+ rest). rewrite Ev1.
  simpl skip_space at 1. unfold read_value. by rewrite Ev2.
Qed.

Definition kv_ascii (kv : string * string) : Prop := is_ascii kv.1 = true /\ is_ascii kv.2 = true.
Definition json_members (l : list (string * string)) : string := commas (map (fun kv => field kv.1 (marshal kv.2)) l).

Lemma field_starts k v rest : exists s, field k v +:+ rest = String "034" s.
Proof. unfold field, json_string, dquote. eexists. by autorewrite with kosmos_str. Qed.

Lemma read_members_ok l : l <> [] -> Forall kv_ascii l -> forall fuel m, length l <= fuel ->
  read_members fuel (json_members l +:+ "}") m = Some (fold_left (fun m kv => <[kv.1 := kv.2]> m) l m, "").
Proof.
  induction l as [|[k v] l IH]; [done|]. intros _ Ha [|fuel] m Hf; [simpl in Hf; lia|].
  apply Forall_cons_iff in Ha as [[Hk Hv] Ha]. simpl in Hk, Hv, Hf. destruct l as [|kv l].
  - unfold json_members. cbn [map commas fst snd]. by rewrite read_member.
  - assert (E : json_members ((k, v) :: kv :: l) = field k (marshal v) +:+ "," +:+ json_members (kv :: l)) by done.
    rewrite E, !str_app_assoc, read_member by done. cbn [skip_space].
    replace (skip_space ("," +:+ json_members (kv :: l) +:+ "}")) with (String "," (json_members (kv :: l) +:+ "}")) by done.
    cbn iota. assert (S : skip_space (json_members (kv :: l) +:+ "}") = json_members (kv :: l) +:+ "}").
    { destruct l; unfold json_members; cbn [map commas]; rewrite ?str_app_assoc;
        match goal with |- context [field ?a ?b +:+ ?r] => destruct (field_starts a b r) as [s' ->] end; done. }
    rewrite S. apply (IH ltac:(done) Ha fuel). simpl in *. lia.
Qed.

Lemma members_length l : length l <= String.length (json_members l).
Proof.
  induction l as [|[k v] l IH]; [simpl; lia|]. assert (P : forall a b, 1 <= String.length (field a b)).
  { intros a b. unfold field, json_string, dquote. simpl. lia. }
  destruct l as [|kv l]; unfold json_members in *; cbn [map commas fst snd] in *; simpl length in *.
  - apply P.
  - rewrite !str_length_app. specialize (P k (marshal v)). simpl (String.length ","). lia.
Qed.

Lemma marshal_map_members (m : gmap string string) :
  marshal m = "{" +:+ json_members (map (fun k => (k, default "" (m !! k))) (merge_sort String.le (map fst (map_to_list m)))) +:+ "}".
Proof. unfold marshal, marshal_map, object, json_members. by rewrite map_map. Qed.

(** A map is what its members in any order say. *)
Lemma fold_members (m : gmap string string) ks : ks ≡ₚ map fst (map_to_list m) ->
  fold_left (fun m kv => <[kv.1 := kv.2]> m) (map (fun k => (k, default "" (m !! k))) ks) ∅ = m.
Proof.
  intros Hp. apply map_eq. intros i.
  assert (G : forall ks (m0 : gmap string string), fold_left (fun m kv => <[kv.1 := kv.2]> m) (map (fun k => (k, default "" (m !! k))) ks) m0 !! i =
    if decide (i ∈ ks) then Some (default "" (m !! i)) else m0 !! i).
  { clear. induction ks as [|k ks IH]; intros m0; [by rewrite decide_False by set_solver|]. simpl. rewrite IH.
    destruct (decide (i ∈ ks)); [by rewrite decide_True by set_solver|].
    destruct (decide (k = i)) as [->|]; [rewrite decide_True by set_solver; apply lookup_insert_eq|].
    rewrite decide_False by set_solver. by apply lookup_insert_ne. }
  rewrite G, lookup_empty. destruct (m !! i) as [v|] eqn:E.
  - rewrite decide_True; [done|]. rewrite Hp. apply list_elem_of_fmap. exists (i, v). split; [done|]. by apply elem_of_map_to_list.
  - rewrite decide_False; [done|]. rewrite Hp. intros ([j v] & -> & Hj)%list_elem_of_fmap.
    apply elem_of_map_to_list in Hj. simpl in E. congruence.
Qed.

Definition map_ascii (m : gmap string string) : Prop := map_Forall (fun k v => is_ascii k = true /\ is_ascii v = true) m.

Lemma unmarshal_marshal_map (m : gmap string string) : map_ascii m -> unmarshal_map (marshal m) = Some m.
Proof.
  intros Ha. rewrite marshal_map_members. set (ks := merge_sort String.le (map fst (map_to_list m))).
  assert (Hp : ks ≡ₚ map fst (map_to_list m)) by apply merge_sort_Permutation.
  pose proof (fold_members m ks Hp) as Hm. set (l := map _ ks) in *.
  assert (Hl : Forall kv_ascii l).
  { apply Forall_forall. intros kv Hkv. apply list_elem_of_In, list_elem_of_fmap in Hkv as (k & -> & Hk).
    rewrite Hp in Hk. apply list_elem_of_fmap in Hk as ([k' v] & -> & Hkv). apply elem_of_map_to_list in Hkv.
    unfold kv_ascii. simpl. rewrite Hkv. by apply Ha. }
  clearbody l. rewrite <- Hm. destruct (decide (l = [])) as [->|Hne]; [done|]. clear Hm Ha Hp.
  unfold unmarshal_map. assert (S : skip_space ("{" +:+ json_members l +:+ "}") = String "{" (json_members l +:+ "}")) by done.
  rewrite S. assert (R : exists s, json_members l +:+ "}" = String "034" s).
  { destruct l as [|kv [|kv' l]]; [done|..]; unfold json_members; cbn [map commas]; rewrite ?str_app_assoc; apply field_starts. }
  assert (O : read_object (String "{" (json_members l +:+ "}")) =
              read_members (String.length (json_members l +:+ "}")) (json_members l +:+ "}") ∅).
  { destruct R as [s R]. by rewrite R. }
  rewrite O.
    rewrite read_members_ok; [done|done|done|]. pose proof (members_length l). rewrite str_length_app. lia.
Qed.
