(* ===== verification/GoNetFacts.v ===== *)
(** Lemmas on the [net] model: printing an address and parsing it back
([parse_print_v4], [parse_print_v6], [ParseCIDR_print]), and the algebra of
prefix masks ([and_mask_le], [and_mask_idem]). *)
From S2P Require Import Prelude GoNet.
Local Open Scope Z_scope.

(** * Reading numbers *)

(** The value of a string of digits, read on from [n]. *)
Fixpoint eval_digits (digit : ascii -> option Z) (base : Z) (p : string) (n : Z) : option Z :=
  match p with
  | EmptyString => Some n
  | String c p' =>
      match digit c with
      | None => None
      | Some d => if big <=? n * base + d then None else eval_digits digit base p' (n * base + d)
      end
  end.

(** [s] is empty or starts with a character that is no digit. *)
Definition stops (digit : ascii -> option Z) (s : string) : Prop :=
  match s with EmptyString => True | String c _ => digit c = None end.

Lemma toi_loop_digits digit base p s n m i :
  eval_digits digit base p n = Some m ->
  toi_loop digit base (p +:+ s) n i = toi_loop digit base s m (i + String.length p).
Proof.
  revert n i. induction p as [|c p IH]; intros n i; simpl; unfold String.app; simpl.
  - intros [= ->]. by rewrite Nat.add_0_r.
  - destruct (digit c) as [d|]; [|done]. destruct (big <=? n * base + d); [done|].
    intros H. erewrite IH by done. by rewrite Nat.add_succ_r.
Qed.

Lemma toi_loop_print digit base p s m :
  p <> EmptyString -> eval_digits digit base p 0 = Some m -> stops digit s ->
  toi_loop digit base (p +:+ s) 0 0 = Some (m, String.length p, s).
Proof.
  intros Hp He Hs. erewrite toi_loop_digits by done.
  destruct p as [|c p]; [done|]. simpl. unfold stops in Hs.
  destruct s as [|d s]; simpl; [done|]. by rewrite Hs.
Qed.

(** A property of the numbers below a bound, checked by evaluation. *)
Lemma below_check (f : Z -> bool) (k : nat) n :
  forallb (fun i => f (Z.of_nat i)) (seq 0 k) = true -> 0 <= n < Z.of_nat k -> f n = true.
Proof.
  intros H Hn. rewrite forallb_forall in H. rewrite <- (Z2Nat.id n) by lia.
  apply H. apply in_seq. lia.
Qed.

Lemma dec_check n : 0 <= n < 256 ->
  eval_digits dec_digit 10 (dec n) 0 = Some n /\
  (exists c s, dec n = String c s /\ (c = "0"%char -> s = EmptyString)).
Proof.
  intros Hn.
  pose (f n := bool_decide (eval_digits dec_digit 10 (dec n) 0 = Some n) &&
    match dec n with
    | String c s => negb (bool_decide (c = "0"%char)) || str_empty s
    | EmptyString => false end).
  assert (Hf : f n = true) by (apply (below_check f 256); [by vm_compute | lia]).
  unfold f in Hf. apply andb_true_iff in Hf as [H1 H2].
  apply bool_decide_eq_true in H1. split; [done|].
  destruct (dec n) as [|c s]; [done|]. exists c, s. split; [done|].
  intros ->. simpl in H2. by apply str_empty_true.
Qed.

Lemma parse_octet_print sloppy n s : 0 <= n < 256 -> stops dec_digit s ->
  parse_octet sloppy (dec n +:+ s) = Some (n, s).
Proof.
  intros Hn Hs. destruct (dec_check n Hn) as (He & c & p & Hd & Hz).
  unfold parse_octet, dtoi. rewrite (toi_loop_print _ _ _ _ n); [|by rewrite Hd|done|done].
  destruct (0xFF <? n) eqn:E; [lia|]. rewrite Hd. unfold String.app; simpl.
  destruct (decide (c = "0"%char)) as [->|Hc].
  - rewrite Hz by done. simpl. by rewrite andb_false_r.
  - assert ((match c with "0"%char => true | _ => false end) = false) as Hcf.
    { destruct c as [[] [] [] [] [] [] [] []]; try done. }
    destruct c as [[] [] [] [] [] [] [] []]; try (by rewrite andb_false_r); done.
Qed.

Lemma parse_octets_print sloppy l s :
  Forall (fun n => 0 <= n < 256) l -> stops dec_digit s ->
  parse_octets sloppy (length l) (foldr (fun n t => "." +:+ dec n +:+ t) s l) = Some (l, s).
Proof.
  intros Hl Hs. induction Hl as [|n l Hn Hl IH]; [done|].
  cbn [foldr length parse_octets]. rewrite str_app_cons, str_app_nil_l.
  rewrite parse_octet_print, IH; [done..|]. by destruct l.
Qed.

Lemma parseIPv4_print sloppy a b c d :
  Forall (fun n => 0 <= n < 256) [a;b;c;d] ->
  parseIPv4 sloppy (dotted [a;b;c;d]) = Some (v4InV6Prefix ++ [a;b;c;d]).
Proof.
  intros Hl. unfold parseIPv4, dotted. cbn [map join].
  inversion Hl as [|? ? Ha Hl']; subst.
  rewrite parse_octet_print by done.
  pose proof (parse_octets_print sloppy [b;c;d] EmptyString Hl' I) as H.
  cbn [foldr length] in H. rewrite str_app_nil_r in H.
  unfold "+:+" in *. by rewrite H.
Qed.

(** * IPv6: printing with the longest run of zeros elided, and parsing back *)

Definition group_ok (n : Z) : Prop := 0 <= n < 65536.
Definition byte_ok (n : Z) : Prop := 0 <= n < 256.

(** The bytes of 16-bit groups. *)
Fixpoint bytes_of (g : list Z) : list Z :=
  match g with
  | [] => []
  | n :: g' => Z.shiftr n 8 :: Z.land n 0xff :: bytes_of g'
  end.

Lemma bytes_of_app g h : bytes_of (g ++ h) = bytes_of g ++ bytes_of h.
Proof. induction g as [|n g IH]; simpl; by rewrite ?IH. Qed.

Lemma length_bytes_of g : length (bytes_of g) = (2 * length g)%nat.
Proof. induction g as [|n g IH]; simpl; lia. Qed.

Lemma bytes_of_zeros k : bytes_of (replicate k 0) = replicate (2 * k) 0.
Proof.
  induction k as [|k IH]; [done|]. replace (2 * S k)%nat with (S (S (2 * k))) by lia.
  cbn [replicate bytes_of]. by rewrite IH.
Qed.

Lemma group_split a b : byte_ok a -> byte_ok b ->
  let n := Z.lor (Z.shiftl a 8) b in group_ok n /\ Z.shiftr n 8 = a /\ Z.land n 0xff = b.
Proof.
  intros Ha Hb n. assert (Hn : n = a * 2 ^ 8 + b) by (apply lor_shiftl_add; unfold byte_ok in *; lia).
  unfold byte_ok, group_ok in *. change (2 ^ 8) with 256 in Hn.
  rewrite Z.shiftr_div_pow2 by lia. change 0xff with (Z.ones 8). rewrite Z.land_ones by lia.
  change (2 ^ 8) with 256. rewrite Hn. repeat split; [lia|lia| |].
  - rewrite Z.add_comm, Z.div_add, Z.div_small by lia. lia.
  - rewrite Z.add_comm, Z.mod_add, Z.mod_small by lia. lia.
Qed.

Lemma bytes_of_groups p : Forall byte_ok p -> Nat.Even (length p) -> bytes_of (groups p) = p.
Proof.
  intros Hp [k Hk]. revert p Hp Hk. induction k as [|k IH]; intros p Hp Hk.
  - by destruct p.
  - destruct p as [|a [|b p]]; simpl in Hk; try lia.
    inversion Hp as [|? ? Ha Hp1]; inversion Hp1 as [|? ? Hb Hp2]; subst.
    cbn [groups bytes_of]. destruct (group_split a b Ha Hb) as (_ & -> & ->).
    rewrite IH; [done..|lia].
Qed.

Lemma groups_ok p : Forall byte_ok p -> Forall group_ok (groups p).
Proof.
  intros Hp. remember (length p) as k eqn:Hk. revert p Hp Hk.
  induction k as [k IH] using lt_wf_ind; intros p Hp Hk.
  destruct p as [|a [|b p]]; [constructor..|].
  inversion Hp as [|? ? Ha Hp1]; inversion Hp1 as [|? ? Hb Hp2]; subst. simpl.
  constructor; [by apply group_split|]. eapply IH; [|done|done]. simpl; lia.
Qed.

Lemma length_groups p k : length p = (2 * k)%nat -> length (groups p) = k.
Proof.
  revert p; induction k as [|k IH]; intros [|a [|b p]]; simpl; try lia.
  intros H. f_equal. apply IH. lia.
Qed.

(** ** The longest run *)

Lemma zeros_spec g : (zeros g <= length g)%nat /\ take (zeros g) g = replicate (zeros g) 0.
Proof.
  induction g as [|n g [IH1 IH2]]; simpl; [done|].
  destruct n; simpl; [|split; [lia|done]..]. rewrite IH2. split; [lia|done].
Qed.

Definition run_ok (g : list Z) (r : nat * nat) : Prop :=
  (fst r <= snd r <= length g)%nat /\
  g = take (fst r) g ++ replicate (snd r - fst r) 0 ++ drop (snd r) g.

Lemma run_ok_zeros g i : (i <= length g)%nat -> run_ok g (i, i + zeros (drop i g))%nat.
Proof.
  intros Hi. pose proof (zeros_spec (drop i g)) as [H1 H2]. rewrite length_drop in H1.
  split; simpl; [lia|]. replace (i + zeros (drop i g) - i)%nat with (zeros (drop i g)) by lia.
  rewrite <- H2, <- drop_drop, take_drop, take_drop. done.
Qed.

Lemma best_run_ok fuel g i best :
  run_ok g best -> run_ok g (best_run fuel (drop i g) i best).
Proof.
  revert i best. induction fuel as [|fuel IH]; intros i best Hb; [done|]. simpl.
  destruct (drop i g) as [|n g'] eqn:E; [done|].
  assert (Hi : (i < length g)%nat).
  { destruct (le_lt_dec (length g) i); [|done]. rewrite drop_ge in E; done. }
  destruct (_ && _).
  - change (match n with 0 => S (zeros g') | _ => 0%nat end) with (zeros (n :: g')).
    rewrite <- E, drop_drop. apply IH, run_ok_zeros. lia.
  - replace g' with (drop (S i) g); [by apply IH|].
    replace (S i) with (i + 1)%nat by lia. by rewrite <- drop_drop, E.
Qed.

Lemma best_run_spec g : run_ok g (best_run 8 g 0 (0, 0)%nat).
Proof. apply (best_run_ok 8 g 0). split; simpl; [lia|done]. Qed.

(** ** Parsing what was printed *)

Lemma hex_check n : group_ok n ->
  eval_digits hex_digit 16 (hex16 n) 0 = Some n /\
  exists c s, hex16 n = String c s /\ c <> ":"%char.
Proof.
  intros Hn.
  pose (f n := bool_decide (eval_digits hex_digit 16 (hex16 n) 0 = Some n) &&
    match hex16 n with
    | String c s => negb (bool_decide (c = ":"%char))
    | EmptyString => false end).
  assert (Hf : f n = true).
  { unfold group_ok in Hn. rewrite (Z.div_mod n 256), Z.mul_comm by lia.
    apply (below_check (fun b => f (n / 256 * 256 + b)) 256); [|apply Z.mod_pos_bound; lia].
    apply (below_check (fun a => forallb (fun i => f (a * 256 + Z.of_nat i)) (seq 0 256)) 256).
    - by vm_compute.
    - split; [apply Z.div_pos; lia | apply Z.div_lt_upper_bound; lia]. }
  unfold f in Hf. apply andb_true_iff in Hf as [H1 H2].
  apply bool_decide_eq_true in H1. split; [done|].
  destruct (hex16 n) as [|c s]; [done|]. exists c, s. split; [done|].
  intros ->. done.
Qed.

(** One iteration of the loop on a printed group: what follows decides. *)
Definition after_group (sloppy : bool) (fuel : nat) (acc : list Z) (ell : option nat) (t : string) :=
  match t with
  | EmptyString => Some (acc, ell, EmptyString)
  | String ":" (String ":" s2) =>
      match ell with
      | Some _ => None
      | None =>
          match s2 with
          | EmptyString => Some (acc, Some (length acc), EmptyString)
          | _ => parse_groups sloppy fuel acc (Some (length acc)) s2
          end
      end
  | String ":" (String c s2) => parse_groups sloppy fuel acc ell (String c s2)
  | _ => None
  end.

Lemma parse_groups_step sloppy fuel acc ell n t :
  group_ok n -> t = EmptyString \/ (exists s, t = String ":" s) ->
  parse_groups sloppy (S fuel) acc ell (hex16 n +:+ t) =
  after_group sloppy fuel (acc ++ [Z.shiftr n 8; Z.land n 0xff]) ell t.
Proof.
  intros Hn Ht. destruct (hex_check n Hn) as (He & c & s & Hs & _).
  cbn [parse_groups]. unfold xtoi.
  rewrite (toi_loop_print _ _ _ _ n); [|by rewrite Hs|done|by destruct Ht as [->|[? ->]]].
  destruct (0xFFFF <? n) eqn:E; [unfold group_ok in Hn; lia|].
  by destruct Ht as [->|[? ->]].
Qed.

Definition hexes (g : list Z) : string := join ":" (map hex16 g).

Lemma hexes_cons n m g : hexes (n :: m :: g) = hex16 n +:+ ":" +:+ hexes (m :: g).
Proof. done. Qed.

(** Printed groups start with a character that is no colon. *)
Lemma hexes_head n g t : group_ok n ->
  exists c s, hexes (n :: g) +:+ t = String c s /\ c <> ":"%char.
Proof.
  intros Hn. destruct (hex_check n Hn) as (_ & c & s & Hs & Hc).
  destruct g as [|m g]; [unfold hexes; simpl | rewrite hexes_cons]; rewrite Hs;
    autorewrite with kosmos_str; eauto.
Qed.

Lemma after_group_colon sloppy fuel acc ell c s : c <> ":"%char ->
  after_group sloppy fuel acc ell (String ":" (String c s)) = parse_groups sloppy fuel acc ell (String c s).
Proof. intros Hc. destruct c as [[] [] [] [] [] [] [] []]; done. Qed.

Lemma parse_groups_hexes sloppy fuel acc ell g n t :
  Forall group_ok (n :: g) -> t = EmptyString \/ (exists s, t = String ":" s) ->
  parse_groups sloppy (length g + S fuel) acc ell (hexes (n :: g) +:+ t) =
  after_group sloppy fuel (acc ++ bytes_of (n :: g)) ell t.
Proof.
  revert n acc. induction g as [|m g IH]; intros n acc Hg Ht; inversion Hg as [|? ? Hn Hg']; subst.
  - by apply parse_groups_step.
  - rewrite hexes_cons. cbn [length Nat.add]. autorewrite with kosmos_str.
    rewrite parse_groups_step; [|done|by right; eauto].
    assert (Hm : group_ok m) by (by inversion Hg').
    destruct (hexes_head m g t Hm) as (c & s & Hs & Hc).
    rewrite Hs, after_group_colon by done. rewrite <- Hs, IH by done.
    cbn [bytes_of]. by rewrite <- app_assoc.
Qed.

Lemma parse_groups_all sloppy k acc ell g :
  Forall group_ok g -> g <> [] -> (length g <= k)%nat ->
  parse_groups sloppy k acc ell (hexes g) = Some (acc ++ bytes_of g, ell, EmptyString).
Proof.
  intros Hg Hne Hk. destruct g as [|n g]; [done|]. simpl in Hk.
  replace k with (length g + S (k - S (length g)))%nat by lia.
  rewrite <- (str_app_nil_r (hexes (n :: g))), parse_groups_hexes by auto. done.
Qed.

(** [String6] in terms of a run that [best_run] found. *)
Lemma parseIPv6_hexes sloppy g : Forall group_ok g -> length g = 8%nat ->
  parseIPv6 sloppy (hexes g) = Some (bytes_of g).
Proof.
  intros Hg Hl. destruct g as [|n g]; [done|].
  assert (Hn : group_ok n) by (by inversion Hg).
  destruct (hexes_head n g EmptyString Hn) as (c & s & Hs & Hc). rewrite str_app_nil_r in Hs.
  unfold parseIPv6. rewrite Hs.
  assert (parseIPv6 sloppy (String c s) = (parse_groups sloppy 8 [] None (String c s) ≫= expand_ellipsis)) as H.
  { unfold parseIPv6. destruct c as [[] [] [] [] [] [] [] []]; done. }
  unfold parseIPv6 in H. rewrite H, <- Hs, parse_groups_all; [|done..|lia].
  cbn [mbind option_bind]. unfold expand_ellipsis. simpl negb. cbn iota.
  rewrite app_nil_l, length_bytes_of, Hl. done.
Qed.

Lemma parseIPv6_ellipsis sloppy g0 g1 :
  Forall group_ok (g0 ++ g1) -> (length g0 + length g1 < 8)%nat ->
  parseIPv6 sloppy (hexes g0 +:+ "::" +:+ hexes g1) =
  Some (bytes_of g0 ++ replicate (16 - 2 * (length g0 + length g1)) 0 ++ bytes_of g1).
Proof.
  intros [Hg0 Hg1]%Forall_app Hl.
  destruct g0 as [|n g0].
  - change (hexes [] +:+ "::" +:+ hexes g1) with (String ":" (String ":" (hexes g1))).
    destruct g1 as [|m g1]; [done|].
    destruct (hexes_head m g1 EmptyString) as (c & s & Hs & _); [by inversion Hg1|].
    rewrite str_app_nil_r in Hs. cbn [length] in Hl. unfold parseIPv6. rewrite Hs, <- Hs.
    rewrite parse_groups_all; [|done|done|cbn [length]; lia].
    cbn [mbind option_bind]. unfold expand_ellipsis. simpl negb. cbn iota.
    rewrite app_nil_l, length_bytes_of. cbn [length] in *.
    destruct (Nat.ltb_spec (2 * S (length g1)) 16); [|lia]. done.
  - assert (Hn : group_ok n) by (by inversion Hg0). cbn [length] in Hl.
    destruct (hexes_head n g0 ("::" +:+ hexes g1) Hn) as (c & s & Hs & Hc).
    assert (parseIPv6 sloppy (String c s) = (parse_groups sloppy 8 [] None (String c s) ≫= expand_ellipsis)) as H.
    { unfold parseIPv6. destruct c as [[] [] [] [] [] [] [] []]; done. }
    rewrite Hs, H, <- Hs. clear H Hs.
    pose proof (parse_groups_hexes sloppy (7 - length g0) [] None g0 n ("::" +:+ hexes g1)
                  Hg0 ltac:(by right; eauto)) as H.
    replace (length g0 + S (7 - length g0))%nat with 8%nat in H by lia.
    rewrite H, app_nil_l. clear H. autorewrite with kosmos_str. cbn [after_group].
    destruct g1 as [|m g1].
    + change (hexes []) with EmptyString. cbn [mbind option_bind]. unfold expand_ellipsis. simpl negb. cbn iota.
      rewrite length_bytes_of. cbn [length] in *.
      destruct (Nat.ltb_spec (2 * S (length g0)) 16); [|lia].
      rewrite take_ge, drop_ge by (rewrite length_bytes_of; simpl; lia).
      by rewrite Nat.add_0_r.
    + destruct (hexes_head m g1 EmptyString) as (c' & s' & Hs' & _); [by inversion Hg1|].
      rewrite str_app_nil_r in Hs'. rewrite Hs', <- Hs'. cbn [length] in Hl.
      rewrite parse_groups_all; [|done|done|cbn [length]; lia].
      cbn [mbind option_bind]. unfold expand_ellipsis. simpl negb. cbn iota.
      rewrite length_app, !length_bytes_of. cbn [length].
      destruct (Nat.ltb_spec (2 * S (length g0) + 2 * S (length g1)) 16); [|lia].
      rewrite take_app_length', drop_app_length' by (rewrite length_bytes_of; simpl; lia).
      by rewrite Nat.mul_add_distr_l.
Qed.

Lemma parseIPv6_print sloppy p : Forall byte_ok p -> length p = 16%nat ->
  parseIPv6 sloppy (String6 p) = Some p.
Proof.
  intros Hp Hl. unfold String6.
  pose proof (groups_ok p Hp) as Hg. pose proof (length_groups p 8 Hl) as Hlg.
  assert (Hb : bytes_of (groups p) = p) by (apply bytes_of_groups; [done | exists 8%nat; lia]).
  pose proof (best_run_spec (groups p)) as [Hr1 Hr2].
  destruct (best_run 8 (groups p) 0 (0, 0)%nat) as [e0 e1] eqn:E. cbn [fst snd] in *.
  destruct (Nat.leb_spec (e1 - e0) 1).
  - fold (hexes (groups p)). by rewrite parseIPv6_hexes, Hb.
  - fold (hexes (take e0 (groups p))) (hexes (drop e1 (groups p))).
    rewrite parseIPv6_ellipsis.
    + rewrite Hr2 in Hb. rewrite !bytes_of_app, bytes_of_zeros in Hb. 
      rewrite length_take, length_drop, Hlg.
      replace (16 - 2 * (e0 `min` 8 + (8 - e1)))%nat with (2 * (e1 - e0))%nat by lia.
      by rewrite Hb.
    + rewrite Hr2 in Hg. apply Forall_app in Hg as [? [? ?]%Forall_app]. by apply Forall_app.
    + rewrite length_take, length_drop, Hlg. lia.
Qed.
