(* ===== verification/GoCIDR.v ===== *)
(** CIDR strings and prefix masks: a network that was printed parses back
([ParseCIDR_print4], [ParseCIDR_print6]), every parsed network is well formed
([ParseCIDR_wf]), and two networks share an address exactly when one contains
the base address of the other ([contains_base_iff]). *)
From S2P Require Import Prelude GoNet GoNetFacts.
Local Open Scope Z_scope.

(** * Characters that do not occur *)

Fixpoint lacks (c : ascii) (s : string) : bool :=
  match s with
  | EmptyString => true
  | String d s' => negb (bool_decide (d = c)) && lacks c s'
  end.

Lemma lacks_app c s t : lacks c (s +:+ t) = lacks c s && lacks c t.
Proof. induction s as [|d s IH]; [done|]. rewrite str_app_cons. simpl. by rewrite IH, andb_assoc. Qed.

Lemma lacks_join c sep l : lacks c sep = true -> Forall (fun s => lacks c s = true) l ->
  lacks c (join sep l) = true.
Proof.
  intros Hs Hl. induction Hl as [|x l Hx Hl IH]; [done|].
  destruct l as [|y l]; [done|]. cbn [join] in *. by rewrite !lacks_app, Hx, Hs, IH.
Qed.

Lemma split_slash_app s t : lacks "/" s = true -> split_slash (s +:+ String "/" t) = Some (s, t).
Proof.
  induction s as [|c s IH]; [done|]. rewrite str_app_cons. cbn [lacks split_slash].
  intros [Hc Hs]%andb_true_iff. apply negb_true_iff in Hc. by rewrite Hc, (IH Hs).
Qed.

Lemma dec_lacks n : 0 <= n < 256 -> lacks "/" (dec n) = true.
Proof. intros Hn. apply (below_check (fun n => lacks "/" (dec n)) 256); [by vm_compute | lia]. Qed.

(** A string of hexadecimal digits holds neither a dot nor a slash. *)
Lemma digits_lack c p n m : hex_digit c = None ->
  eval_digits hex_digit 16 p n = Some m -> lacks c p = true.
Proof.
  intros Hc. revert n. induction p as [|d p IH]; intros n; simpl; [done|].
  destruct (hex_digit d) eqn:Hd; [|done]. destruct (big <=? _); [done|].
  intros H. apply IH in H. rewrite H, andb_true_r.
  apply negb_true_iff, bool_decide_eq_false. intros ->. congruence.
Qed.

Lemma hexes_lack c g : hex_digit c = None -> c <> ":"%char -> Forall group_ok g ->
  lacks c (hexes g) = true.
Proof.
  intros Hc Hc' Hg. apply lacks_join.
  - simpl. rewrite andb_true_r. apply negb_true_iff, bool_decide_eq_false. congruence.
  - apply Forall_fmap. eapply List.Forall_impl; [|exact Hg]. intros n Hn. unfold compose.
    destruct (hex_check n Hn) as [He _]. by eapply digits_lack.
Qed.

Lemma String6_lacks c p : hex_digit c = None -> c <> ":"%char -> Forall byte_ok p ->
  lacks c (String6 p) = true.
Proof.
  intros Hc Hc' Hp. pose proof (groups_ok p Hp) as Hg. unfold String6.
  destruct (best_run 8 (groups p) 0 (0, 0)%nat) as [e0 e1].
  destruct (Nat.leb _ _); [by apply hexes_lack|].
  fold (hexes (take e0 (groups p))) (hexes (drop e1 (groups p))).
  rewrite !lacks_app, !hexes_lack by (done || by apply Forall_take || by apply Forall_drop).
  simpl. rewrite andb_true_r. apply andb_true_iff. split; [|apply andb_true_iff; split; [|done]];
    apply negb_true_iff, bool_decide_eq_false; congruence.
Qed.

(** [parseIPv4] needs a dot. *)
Lemma toi_loop_suffix digit base s n i m k rest :
  toi_loop digit base s n i = Some (m, k, rest) -> exists p, s = p +:+ rest.
Proof.
  revert n i. induction s as [|c s IH]; intros n i; simpl.
  - destruct (Nat.eqb i 0); [done|]. intros [= -> -> <-]. by exists EmptyString.
  - destruct (digit c).
    + destruct (big <=? _); [done|]. intros [p ->]%IH. by exists (String c p).
    + destruct (Nat.eqb i 0); [done|]. intros [= -> -> <-]. by exists EmptyString.
Qed.

Lemma parse_octet_suffix sloppy s n rest :
  parse_octet sloppy s = Some (n, rest) -> exists p, s = p +:+ rest.
Proof.
  unfold parse_octet, dtoi. destruct (toi_loop _ _ s 0 0) as [[[m c] r]|] eqn:E; [|done].
  apply toi_loop_suffix in E as [p ->]. destruct (0xFF <? m); [done|].
  destruct (_ && _ && _); [done|]. intros [= -> ->]. by exists p.
Qed.

Lemma parseIPv4_dot sloppy s ip : parseIPv4 sloppy s = Some ip -> lacks "." s = false.
Proof.
  unfold parseIPv4. destruct (parse_octet sloppy s) as [[n rest]|] eqn:E; [|done].
  apply parse_octet_suffix in E as [p ->]. intros H.
  rewrite lacks_app. apply andb_false_iff. right.
  destruct rest as [|d rest]; [done|].
  destruct (decide (d = "."%char)) as [->|Hd]; [done|].
  exfalso. destruct d as [[] [] [] [] [] [] [] []]; done.
Qed.

(** * Printing a network and parsing it *)

Lemma length_CIDRMask n k : length (CIDRMask n k) = k.
Proof. revert n; induction k as [|k IH]; intros n; simpl; by rewrite ?IH. Qed.

Lemma IP_Mask_v4 a n : length a = 4%nat ->
  IP_Mask (v4InV6Prefix ++ a) (CIDRMask n 4) = and_bytes a (CIDRMask n 4).
Proof. intros Ha. by destruct a as [|x [|y [|z [|w [|]]]]]. Qed.

Lemma IP_Mask_v6 a n : length a = 16%nat ->
  IP_Mask a (CIDRMask n 16) = and_bytes a (CIDRMask n 16).
Proof.
  intros Ha. unfold IP_Mask. rewrite length_CIDRMask, Ha. cbn -[and_bytes CIDRMask length].
  rewrite length_CIDRMask. change (16 =? 4)%nat with false. cbn [andb]. by rewrite Ha.
Qed.

Lemma simpleMaskLength_CIDRMask k n : k = 4%nat \/ k = 16%nat -> (n <= 8 * k)%nat ->
  simpleMaskLength (CIDRMask n k) = Some n.
Proof.
  pose (f k n := bool_decide (simpleMaskLength (CIDRMask (Z.to_nat n) k) = Some (Z.to_nat n))).
  intros [-> | ->] Hn; rewrite <- (Nat2Z.id n); eapply bool_decide_eq_true_1.
  - apply (below_check (f 4%nat) 33); [by vm_compute | lia].
  - apply (below_check (f 16%nat) 129); [by vm_compute | lia].
Qed.

Lemma dtoi_print n : 0 <= n < 256 -> exists k, dtoi (dec n) = Some (n, k, EmptyString).
Proof.
  intros Hn. destruct (dec_check n Hn) as (He & c & s & Hs & _). unfold dtoi.
  rewrite <- (str_app_nil_r (dec n)), (toi_loop_print _ _ _ _ n); [eauto|by rewrite Hs|done|done].
Qed.

Lemma dotted_lacks p : Forall byte_ok p -> lacks "/" (dotted p) = true.
Proof.
  intros Hp. apply lacks_join; [done|]. apply Forall_fmap.
  eapply List.Forall_impl; [|exact Hp]. intros n Hn. by apply dec_lacks.
Qed.

Lemma ParseCIDR_print4 sloppy ip n : Forall byte_ok ip -> length ip = 4%nat -> (n <= 32)%nat ->
  ParseCIDR_gen sloppy (dotted ip +:+ "/" +:+ dec (Z.of_nat n)) =
  Some (v4InV6Prefix ++ ip, mkIPNet (and_bytes ip (CIDRMask n 4)) (CIDRMask n 4)).
Proof.
  intros Hip Hl Hn. destruct ip as [|a [|b [|c [|d [|]]]]]; try done.
  unfold ParseCIDR_gen. rewrite str_app_cons, split_slash_app by by apply dotted_lacks.
  rewrite parseIPv4_print by done. rewrite str_app_nil_l.
  destruct (dtoi_print (Z.of_nat n)) as [k ->]; [lia|].
  destruct (Z.ltb_spec (8 * Z.of_nat 4) (Z.of_nat n)); [lia|].
  by rewrite Nat2Z.id, IP_Mask_v4.
Qed.

Lemma ParseCIDR_print6 sloppy ip n : Forall byte_ok ip -> length ip = 16%nat -> (n <= 128)%nat ->
  ParseCIDR_gen sloppy (String6 ip +:+ "/" +:+ dec (Z.of_nat n)) =
  Some (ip, mkIPNet (and_bytes ip (CIDRMask n 16)) (CIDRMask n 16)).
Proof.
  intros Hip Hl Hn.
  unfold ParseCIDR_gen. rewrite str_app_cons, split_slash_app by by apply String6_lacks.
  destruct (parseIPv4 sloppy (String6 ip)) eqn:E4.
  { apply parseIPv4_dot in E4. by rewrite String6_lacks in E4. }
  rewrite parseIPv6_print by done. rewrite str_app_nil_l.
  destruct (dtoi_print (Z.of_nat n)) as [k ->]; [lia|].
  destruct (Z.ltb_spec (8 * Z.of_nat 16) (Z.of_nat n)); [lia|].
  by rewrite Nat2Z.id, IP_Mask_v6.
Qed.

(** * Prefix masks *)

Lemma mask_byte_check n m : (n <= 8)%nat -> (m <= 8)%nat ->
  byte_ok (mask_byte n) /\ Z.land (mask_byte n) (mask_byte m) = mask_byte (n `min` m).
Proof.
  intros Hn Hm.
  assert (forallb (fun n => forallb (fun m => (0 <=? mask_byte n) && (mask_byte n <? 256) &&
    Z.eqb (Z.land (mask_byte n) (mask_byte m)) (mask_byte (n `min` m))) (seq 0 9)) (seq 0 9) = true) as H
    by by vm_compute.
  rewrite forallb_forall in H. specialize (H n ltac:(apply in_seq; lia)). cbv beta in H.
  rewrite forallb_forall in H. specialize (H m ltac:(apply in_seq; lia)). cbv beta in H.
  breflect. unfold byte_ok. lia.
Qed.

Lemma mask_byte_min n : mask_byte n = mask_byte (n `min` 8).
Proof.
  unfold mask_byte. destruct (Nat.leb_spec 8 n), (Nat.leb_spec 8 (n `min` 8)); try lia.
  by rewrite Nat.min_l by lia.
Qed.

Lemma mask_byte_land n m : Z.land (mask_byte n) (mask_byte m) = mask_byte (n `min` m).
Proof.
  rewrite (mask_byte_min n), (mask_byte_min m), (mask_byte_min (n `min` m)).
  destruct (mask_byte_check (n `min` 8) (m `min` 8)) as [_ ->]; [lia..|].
  by replace (n `min` 8 `min` (m `min` 8))%nat with (n `min` m `min` 8)%nat by lia.
Qed.

Lemma byte_land a b : byte_ok a -> byte_ok b -> byte_ok (Z.land a b).
Proof.
  unfold byte_ok. intros Ha Hb. split; [apply Z.land_nonneg; lia|].
  rewrite <- (Z.mod_small a 256) by lia. change 256 with (2 ^ 8). rewrite <- Z.land_ones by lia.
  rewrite <- Z.land_assoc, (Z.land_comm (Z.ones 8)), Z.land_assoc, Z.land_ones by lia.
  apply Z.mod_pos_bound. lia.
Qed.

Lemma length_and_bytes a b : length (and_bytes a b) = (length a `min` length b)%nat.
Proof. revert b; induction a as [|x a IH]; intros [|y b]; simpl; by rewrite ?IH. Qed.

Lemma CIDRMask_ok n k : Forall byte_ok (CIDRMask n k).
Proof.
  revert n; induction k as [|k IH]; intros n; simpl; constructor; [|done].
  rewrite mask_byte_min. by apply (mask_byte_check _ 0); lia.
Qed.

Lemma and_bytes_ok a b : Forall byte_ok a -> Forall byte_ok b -> Forall byte_ok (and_bytes a b).
Proof.
  intros Ha. revert b. induction Ha as [|x a Hx Ha IH]; intros [|y b] Hb; simpl; try constructor.
  - inversion Hb; subst. by apply byte_land.
  - inversion Hb; subst. by apply IH.
Qed.

(** Masking with a longer prefix first changes nothing. *)
Lemma and_mask_le n m k a : (n <= m)%nat ->
  and_bytes (and_bytes a (CIDRMask m k)) (CIDRMask n k) = and_bytes a (CIDRMask n k).
Proof.
  revert n m a; induction k as [|k IH]; intros n m [|x a] Hnm; simpl; try done.
  rewrite <- Z.land_assoc, mask_byte_land, IH, Nat.min_r by lia. done.
Qed.

Lemma and_mask_idem n k a :
  and_bytes (and_bytes a (CIDRMask n k)) (CIDRMask n k) = and_bytes a (CIDRMask n k).
Proof. by apply and_mask_le. Qed.

Lemma drop_CIDRMask j n k : drop j (CIDRMask n k) = CIDRMask (n - 8 * j) (k - j).
Proof.
  revert n k; induction j as [|j IH]; intros n k.
  - rewrite Nat.mul_0_r, !Nat.sub_0_r. done.
  - destruct k as [|k]; [done|]. cbn [CIDRMask drop]. rewrite IH. simpl. f_equal. lia.
Qed.

Lemma drop_and_bytes j a b : drop j (and_bytes a b) = and_bytes (drop j a) (drop j b).
Proof.
  revert a b; induction j as [|j IH]; intros [|x a] [|y b]; simpl;
    try done. by destruct (drop j a).
Qed.

(** * Parsed networks are well formed *)

Lemma toi_loop_nonneg digit base s n i m k rest :
  (forall c d, digit c = Some d -> 0 <= d) -> 0 <= base -> 0 <= n ->
  toi_loop digit base s n i = Some (m, k, rest) -> 0 <= m.
Proof.
  intros Hd Hb. revert n i. induction s as [|c s IH]; intros n i Hn; simpl.
  - destruct (Nat.eqb i 0); [done|]. by intros [= <- _ _].
  - destruct (digit c) as [d|] eqn:E.
    + destruct (big <=? _); [done|]. apply IH. specialize (Hd _ _ E). nia.
    + destruct (Nat.eqb i 0); [done|]. by intros [= <- _ _].
Qed.

Lemma dec_digit_nonneg c d : dec_digit c = Some d -> 0 <= d.
Proof. unfold dec_digit. repeat case_match; intros; simplify_eq; breflect; lia. Qed.

Lemma hex_digit_nonneg c d : hex_digit c = Some d -> 0 <= d.
Proof. unfold hex_digit. repeat case_match; intros; simplify_eq; breflect; lia. Qed.

Lemma parse_octet_ok sloppy s n rest : parse_octet sloppy s = Some (n, rest) -> byte_ok n.
Proof.
  unfold parse_octet, dtoi. destruct (toi_loop _ _ s 0 0) as [[[m c] r]|] eqn:E; [|done].
  apply toi_loop_nonneg in E; [|apply dec_digit_nonneg|lia..].
  destruct (Z.ltb_spec 0xFF m); [done|]. destruct (_ && _ && _); [done|].
  intros [= <- _]. unfold byte_ok. lia.
Qed.

Lemma parse_octets_ok sloppy k s l rest :
  parse_octets sloppy k s = Some (l, rest) -> length l = k /\ Forall byte_ok l.
Proof.
  revert s l. induction k as [|k IH]; intros s l; simpl.
  - intros [= <- _]. by split.
  - destruct s as [|c s]; [done|]. intros H.
    assert (exists n r l', parse_octet sloppy s = Some (n, r) /\
              parse_octets sloppy k r = Some (l', rest) /\ l = n :: l') as (n & r & l' & Ho & Hos & ->).
    { destruct c as [[] [] [] [] [] [] [] []]; try done.
      destruct (parse_octet sloppy s) as [[n r]|] eqn:E1; [|done].
      destruct (parse_octets sloppy k r) as [[l' r']|] eqn:E2; [|done]. naive_solver. }
    apply IH in Hos as [Hl Hok]. split; [simpl; lia|]. constructor; [by eapply parse_octet_ok|done].
Qed.

Lemma parseIPv4_ok sloppy s ip : parseIPv4 sloppy s = Some ip ->
  exists a, ip = v4InV6Prefix ++ a /\ length a = 4%nat /\ Forall byte_ok a.
Proof.
  unfold parseIPv4. destruct (parse_octet sloppy s) as [[n rest]|] eqn:E; [|done].
  destruct (parse_octets sloppy 3 rest) as [[l r]|] eqn:E2; [|done].
  destruct r; [|done]. intros [= <-]. apply parse_octets_ok in E2 as [? ?].
  exists (n :: l). repeat split; [simpl; lia|]. constructor; [by eapply parse_octet_ok|done].
Qed.

Lemma group_bytes_ok n : group_ok n -> Forall byte_ok [Z.shiftr n 8; Z.land n 0xff].
Proof.
  intros Hn. unfold group_ok in Hn. repeat constructor.
  - apply Z.shiftr_nonneg. lia.
  - rewrite Z.shiftr_div_pow2 by lia. apply Z.div_lt_upper_bound; lia.
  - apply Z.land_nonneg. lia.
  - change 0xff with (Z.ones 8). rewrite Z.land_ones by lia. apply Z.mod_pos_bound. lia.
Qed.

Definition groups_fit (acc : list Z) : Prop := (length acc <= 16)%nat /\ Forall byte_ok acc.

Lemma parse_groups_ok sloppy fuel acc ell s acc' ell' s' :
  parse_groups sloppy fuel acc ell s = Some (acc', ell', s') ->
  (length acc + 2 * fuel <= 16)%nat -> Forall byte_ok acc -> groups_fit acc'.
Proof.
  revert acc ell s. induction fuel as [|fuel IH]; intros acc ell s H Hl Hacc.
  { cbn in H. simplify_eq. split; [lia|done]. }
  cbn [parse_groups] in H.
  destruct (xtoi s) as [[[n c] rest]|] eqn:Ex; [|done].
  apply toi_loop_nonneg in Ex; [|apply hex_digit_nonneg|lia..].
  destruct (Z.ltb_spec 0xFFFF n); [done|].
  assert (Hacc' : Forall byte_ok (acc ++ [Z.shiftr n 8; Z.land n 0xff])).
  { apply Forall_app_2; [done|]. apply group_bytes_ok. unfold group_ok. lia. }
  assert (Hl' : (length (acc ++ [Z.shiftr n 8; Z.land n 0xff]) + 2 * fuel <= 16)%nat).
  { rewrite length_app. simpl. lia. }
  assert (Hdone : groups_fit (acc ++ [Z.shiftr n 8; Z.land n 0xff])).
  { split; [lia|done]. }
  destruct rest as [|d rest]; [by simplify_eq|].
  destruct (decide (d = "."%char)) as [->|Hdot].
  { destruct (_ && _); [done|]. destruct (Nat.ltb_spec 16 (length acc + 4)); [done|].
    destruct (parseIPv4 sloppy s) as [ip4|] eqn:E4; [|done]. simplify_eq.
    apply parseIPv4_ok in E4 as (a & -> & Ha & Hok).
    rewrite drop_app_length' by done. split; [rewrite length_app; lia|].
    by apply Forall_app_2. }
  assert (H' : after_group sloppy fuel (acc ++ [Z.shiftr n 8; Z.land n 0xff]) ell (String d rest)
               = Some (acc', ell', s')).
  { rewrite <- H. destruct d as [[] [] [] [] [] [] [] []]; done. }
  clear H. destruct (decide (d = ":"%char)) as [->|Hcol]; last first.
  { exfalso. destruct d as [[] [] [] [] [] [] [] []]; done. }
  destruct rest as [|c2 rest]; [done|].
  destruct (decide (c2 = ":"%char)) as [->|Hc2].
  - cbn in H'. destruct ell; [done|]. destruct rest; [by simplify_eq|].
    eapply IH; [exact H'|done|done].
  - rewrite after_group_colon in H' by done. eapply IH; [exact H'|done|done].
Qed.

Lemma expand_ok acc ell s ip :
  groups_fit acc -> expand_ellipsis (acc, ell, s) = Some ip -> length ip = 16%nat /\ Forall byte_ok ip.
Proof.
  intros [Hl Hok]. unfold expand_ellipsis. destruct (negb (str_empty s)); [done|].
  destruct (Nat.ltb_spec (length acc) 16).
  - destruct ell as [e|]; [|done]. intros [= <-].
    rewrite !length_app, length_replicate, length_take, length_drop. split; [lia|].
    repeat apply Forall_app_2; [by apply Forall_take| |by apply Forall_drop].
    apply Forall_replicate. unfold byte_ok. lia.
  - destruct ell; [done|]. intros [= <-]. split; [lia|done].
Qed.

Lemma parseIPv6_ok sloppy s ip :
  parseIPv6 sloppy s = Some ip -> length ip = 16%nat /\ Forall byte_ok ip.
Proof.
  intros H. assert (ip = replicate 16 0 \/ exists ell s', parse_groups sloppy 8 [] ell s' ≫= expand_ellipsis = Some ip)
    as [-> | (ell & s' & H')].
  { unfold parseIPv6 in H. repeat case_match; simplify_eq; eauto. }
  - split; [done|]. apply Forall_replicate. unfold byte_ok. lia.
  - destruct (parse_groups sloppy 8 [] ell s') as [[[acc e] r]|] eqn:E; [|done].
    cbn in H'. eapply expand_ok; [|exact H']. eapply parse_groups_ok; [exact E|simpl; lia|constructor].
Qed.

(** A parsed address: 16 bytes. *)
Definition addr_ok (ip : IP) : Prop := length ip = 16%nat /\ Forall byte_ok ip.

(** A parsed network: an IPv4 network of 4 bytes or an IPv6 network of 16 bytes,
its base address masked by its prefix. *)
Inductive net_ok : IPNet -> Prop :=
  | net_ok_v4 a n : length a = 4%nat -> Forall byte_ok a -> (n <= 32)%nat ->
      net_ok (mkIPNet (and_bytes a (CIDRMask n 4)) (CIDRMask n 4))
  | net_ok_v6 a n : length a = 16%nat -> Forall byte_ok a -> (n <= 128)%nat ->
      net_ok (mkIPNet (and_bytes a (CIDRMask n 16)) (CIDRMask n 16)).

Lemma ParseCIDR_wf sloppy s ip net :
  ParseCIDR_gen sloppy s = Some (ip, net) -> addr_ok ip /\ net_ok net.
Proof.
  unfold ParseCIDR_gen. destruct (split_slash s) as [[addr mask]|]; [|done].
  destruct (parseIPv4 sloppy addr) as [ip4|] eqn:E4.
  - apply parseIPv4_ok in E4 as (a & -> & Ha & Hok).
    destruct (dtoi mask) as [[[n k] r]|] eqn:Ed; [|done]. destruct r; [|done].
    apply toi_loop_nonneg in Ed; [|apply dec_digit_nonneg|lia..].
    destruct (Z.ltb_spec (8 * Z.of_nat 4) n); [done|].
    rewrite IP_Mask_v4 by done.
    remember (CIDRMask (Z.to_nat n) 4) as m eqn:Hm. intros [= <- <-]. split.
    + split; [simpl; lia|]. by repeat constructor.
    + subst m. apply net_ok_v4; [done|done|lia].
  - destruct (parseIPv6 sloppy addr) as [ip6|] eqn:E6; [|done].
    apply parseIPv6_ok in E6 as [Hl Hok].
    destruct (dtoi mask) as [[[n k] r]|] eqn:Ed; [|done]. destruct r; [|done].
    apply toi_loop_nonneg in Ed; [|apply dec_digit_nonneg|lia..].
    destruct (Z.ltb_spec (8 * Z.of_nat 16) n); [done|].
    rewrite IP_Mask_v6 by done.
    remember (CIDRMask (Z.to_nat n) 16) as m eqn:Hm. intros [= <- <-]. split; [done|].
    subst m. apply net_ok_v6; [done|done|lia].
Qed.

(** * Networks that share an address *)

(** What [networkNumberAndMask] gives for a parsed network. *)
Lemma networkNumberAndMask_ok net : net_ok net ->
  exists nn n k, networkNumberAndMask net = Some (nn, CIDRMask n k) /\
    length nn = k /\ and_bytes nn (CIDRMask n k) = nn /\
    nn = match To4 (net_IP net) with Some x => x | None => net_IP net end.
Proof.
  intros [a n Ha Hok Hn|a n Ha Hok Hn]; unfold networkNumberAndMask; cbn [net_IP net_Mask].
  - unfold To4. rewrite length_and_bytes, length_CIDRMask, Ha. cbn -[and_bytes CIDRMask length].
    rewrite length_and_bytes, length_CIDRMask, Ha. cbn -[and_bytes CIDRMask length].
    eexists _, n, 4%nat. split; [done|]. rewrite length_and_bytes, length_CIDRMask, Ha.
    by rewrite and_mask_idem.
  - unfold To4. rewrite length_and_bytes, length_CIDRMask, Ha. cbn -[and_bytes CIDRMask length].
    destruct (bool_decide (take 12 (and_bytes a (CIDRMask n 16)) = v4InV6Prefix)).
    + rewrite length_drop, length_and_bytes, length_CIDRMask, Ha. cbn -[and_bytes CIDRMask length].
      rewrite drop_CIDRMask. eexists _, (n - 96)%nat, 4%nat. split; [done|].
      rewrite length_drop, length_and_bytes, length_CIDRMask, Ha.
      rewrite drop_and_bytes, drop_CIDRMask. by rewrite and_mask_idem.
    + rewrite length_and_bytes, length_CIDRMask, Ha. cbn -[and_bytes CIDRMask length].
      eexists _, n, 16%nat. split; [done|].
      rewrite length_and_bytes, length_CIDRMask, Ha. by rewrite and_mask_idem.
Qed.

(** Two parsed networks have an address in common exactly when one of them
contains the base address of the other. *)
Lemma contains_base_iff net1 net2 : net_ok net1 -> net_ok net2 ->
  Contains net1 (net_IP net2) || Contains net2 (net_IP net1) = true <->
  exists ip, Contains net1 ip = true /\ Contains net2 ip = true.
Proof.
  intros H1%networkNumberAndMask_ok H2%networkNumberAndMask_ok.
  destruct H1 as (nn1 & n1 & k1 & E1 & L1 & M1 & B1).
  destruct H2 as (nn2 & n2 & k2 & E2 & L2 & M2 & B2).
  unfold Contains. rewrite E1, E2. rewrite <- B1, <- B2. rewrite L1, L2.
  split.
  - intros [[H%Nat.eqb_eq Hb%bool_decide_eq_true]%andb_true_iff|
            [H%Nat.eqb_eq Hb%bool_decide_eq_true]%andb_true_iff]%orb_true_iff.
    + exists (net_IP net2). rewrite <- B2, L2. rewrite H, Nat.eqb_refl.
      rewrite bool_decide_eq_true_2 by (by subst). by rewrite bool_decide_eq_true_2.
    + exists (net_IP net1). rewrite <- B1, L1. rewrite H, Nat.eqb_refl.
      rewrite bool_decide_eq_true_2 by done. by rewrite bool_decide_eq_true_2 by (by subst).
  - intros (ip & Hc1 & Hc2). remember (match To4 ip with Some x => x | None => ip end) as x eqn:Hx.
    breflect. repeat match goal with H : Nat.eqb _ _ = true |- _ => apply Nat.eqb_eq in H end.
    assert (k1 = k2) as <- by congruence. rewrite Nat.eqb_refl. simpl.
    assert (Hn1 : nn1 = and_bytes x (CIDRMask n1 k1)) by congruence.
    assert (Hn2 : nn2 = and_bytes x (CIDRMask n2 k1)) by congruence.
    rewrite M1, M2. apply orb_true_iff.
    destruct (Nat.le_ge_cases n1 n2); [left|right]; apply bool_decide_eq_true.
    + by rewrite Hn1, Hn2, and_mask_le.
    + by rewrite Hn1, Hn2, and_mask_le.
Qed.
