(* ===== verification/LinkApi.v ===== *)
(** The data of ClusterLink: the types of [pkg/apis/kosmos/v1alpha1]
(nodeconfig_types.go, clusternode_types.go, cluster_types.go, constants.go), the
constants of [pkg/constants/network.go] and the node configuration of the
handlers ([network-manager/handlers/nodeconfig.go]). *)
From S2P Require Import Prelude.

(** A Go slice whose nil-ness the code tests: [None] is nil. *)
Abbreviation slice A := (option (list A)).

Definition elems {A} (s : slice A) : list A := match s with None => [] | Some l => l end.

(** * Constants *)

Definition NetworkTypeP2P : string := "p2p".
Definition NetWorkTypeGateWay : string := "gateway".
Definition IPFamilyTypeALL : string := "all".
Definition IPFamilyTypeIPV4 : string := "ipv4".
Definition IPFamilyTypeIPV6 : string := "ipv6".
Definition RoleGateway : string := "gateway".
Definition VxlanDevice : string := "vxlan".

Definition VXLAN_BRIDGE_NAME : string := "vx-bridge".
Definition VXLAN_LOCAL_NAME : string := "vx-local".
Definition VXLAN_BRIDGE_NAME_6 : string := "vx-bridge-6".
Definition VXLAN_LOCAL_NAME_6 : string := "vx-local-6".
Definition VXLAN_BRIDGE_ID : Z := 54.
Definition VXLAN_BRIDGE_PORT : Z := 4876.
Definition VXLAN_LOCAL_ID : Z := 55.
Definition VXLAN_LOCAL_PORT : Z := 4877.
Definition VXLAN_BRIDGE_ID_6 : Z := 64.
Definition VXLAN_BRIDGE_PORT_6 : Z := 4866.
Definition VXLAN_LOCAL_ID_6 : Z := 65.
Definition VXLAN_LOCAL_PORT_6 : Z := 4867.
Definition ALL_ZERO_MAC : string := "00:00:00:00:00:00".
Definition IPTablesPreRoutingChain : string := "PREROUTING".
Definition IPTablesPostRoutingChain : string := "POSTROUTING".

(** * NodeConfig *)

Record Device := mkDevice {
  dev_Type : string; dev_Name : string; dev_Addr : string; dev_Mac : string;
  dev_BindDev : string; dev_ID : Z; dev_Port : Z }.

Record Route := mkRoute { rt_CIDR : string; rt_Gw : string; rt_Dev : string }.

Record Iptables := mkIptables { ipt_Table : string; ipt_Chain : string; ipt_Rule : string }.

Record Fdb := mkFdb { fdb_IP : string; fdb_Mac : string; fdb_Dev : string }.

Record Arp := mkArp { arp_IP : string; arp_Mac : string; arp_Dev : string }.

#[export] Instance Device_eq_dec : EqDecision Device.
Proof. solve_decision. Defined.
#[export] Instance Route_eq_dec : EqDecision Route.
Proof. solve_decision. Defined.
#[export] Instance Iptables_eq_dec : EqDecision Iptables.
Proof. solve_decision. Defined.
#[export] Instance Fdb_eq_dec : EqDecision Fdb.
Proof. solve_decision. Defined.
#[export] Instance Arp_eq_dec : EqDecision Arp.
Proof. solve_decision. Defined.

Definition Device_Compare (d v : Device) : bool :=
  (dev_Type d =s dev_Type v) && (dev_Name d =s dev_Name v) && (dev_Addr d =s dev_Addr v) &&
  (dev_Mac d =s dev_Mac v) && (dev_BindDev d =s dev_BindDev v) &&
  Z.eqb (dev_ID d) (dev_ID v) && Z.eqb (dev_Port d) (dev_Port v).

Definition Route_Compare (r v : Route) : bool :=
  (rt_CIDR r =s rt_CIDR v) && (rt_Gw r =s rt_Gw v) && (rt_Dev r =s rt_Dev v).

Definition Iptables_Compare (i v : Iptables) : bool :=
  (ipt_Table i =s ipt_Table v) && (ipt_Chain i =s ipt_Chain v) && (ipt_Rule i =s ipt_Rule v).

Definition Fdb_Compare (f v : Fdb) : bool :=
  (fdb_IP f =s fdb_IP v) && (fdb_Mac f =s fdb_Mac v) && (fdb_Dev f =s fdb_Dev v).

Definition Arp_Compare (a v : Arp) : bool :=
  (arp_IP a =s arp_IP v) && (arp_Mac a =s arp_Mac v) && (arp_Dev a =s arp_Dev v).

(** [v1alpha1.NodeConfigSpec]. *)
Record NodeConfigSpec := mkSpec {
  spec_Devices : slice Device; spec_Routes : slice Route; spec_Iptables : slice Iptables;
  spec_Fdbs : slice Fdb; spec_Arps : slice Arp }.

#[export] Instance NodeConfigSpec_eq_dec : EqDecision NodeConfigSpec.
Proof. solve_decision. Defined.

Definition emptySpec : NodeConfigSpec := mkSpec None None None None None.

(** [v1alpha1.NodeConfig]: the name, the annotations and the spec. *)
Record NodeConfigObj := mkNodeConfigObj {
  nco_Name : string; nco_Annotations : gmap string string; nco_Spec : NodeConfigSpec }.

(** * ClusterNode *)

Record ClusterNode := mkClusterNode {
  cn_Name : string;
  cn_ClusterName : string; cn_NodeName : string; cn_PodCIDRs : list string;
  cn_IP : string; cn_IP6 : string; cn_Roles : list string; cn_InterfaceName : string }.

(** [strings.EqualFold] on an ASCII string [s] none of whose letters has a
case-folding partner outside ASCII (true of "gateway", the only role). *)
Definition lower (c : ascii) : ascii :=
  let n := Ascii.nat_of_ascii c in
  if (Nat.leb 65 n) && (Nat.leb n 90) then Ascii.ascii_of_nat (n + 32) else c.

Fixpoint EqualFold (s t : string) : bool :=
  match s, t with
  | EmptyString, EmptyString => true
  | String a s', String b t' => bool_decide (lower a = lower b) && EqualFold s' t'
  | _, _ => false
  end.

Definition hasRole (roles : list string) (r : string) : bool :=
  any (fun role => EqualFold r role) roles.

Definition ClusterNode_IsGateway (c : ClusterNode) : bool := hasRole (cn_Roles c) RoleGateway.

(** * Cluster *)

Record VxlanCIDRs := mkVxlanCIDRs { vx_IP : string; vx_IP6 : string }.

Record NICNodeNames := mkNIC { nic_InterfaceName : string; nic_NodeName : list string }.

Record ClusterLinkOptions := mkLinkOptions {
  lo_Enable : bool; lo_CNI : string; lo_NetworkType : string; lo_IPFamily : string;
  lo_UseIPPool : bool; lo_LocalCIDRs : VxlanCIDRs; lo_BridgeCIDRs : VxlanCIDRs;
  lo_NICNodeNames : list NICNodeNames; lo_DefaultNICName : string;
  lo_GlobalCIDRsMap : gmap string string; lo_AutodetectionMethod : string }.

(** [v1alpha1.Cluster] as far as ClusterLink reads it. *)
Record Cluster := mkCluster {
  c_Name : string;
  c_ClusterLinkOptions : option ClusterLinkOptions;
  c_PodCIDRs : list string;
  c_ServiceCIDRs : list string }.

Definition Cluster_IsP2P (c : Cluster) : bool :=
  match c_ClusterLinkOptions c with
  | None => false
  | Some o => lo_NetworkType o =s NetworkTypeP2P
  end.

Definition Cluster_IsGateway (c : Cluster) : bool :=
  match c_ClusterLinkOptions c with
  | None => false
  | Some o => lo_NetworkType o =s NetWorkTypeGateWay
  end.

(** * The configuration the handlers compute *)

Record NodeConfig := mkNodeConfig {
  nc_Devices : list Device; nc_Routes : list Route; nc_Iptables : list Iptables;
  nc_Fdbs : list Fdb; nc_Arps : list Arp }.

Definition emptyNodeConfig : NodeConfig := mkNodeConfig [] [] [] [] [].

(** Slices grown by [append] from nil: empty exactly when nil. *)
Definition to_slice {A} (l : list A) : slice A := match l with [] => None | _ => Some l end.

Definition ConvertToNodeConfigSpec (c : NodeConfig) : NodeConfigSpec :=
  mkSpec (to_slice (nc_Devices c)) (to_slice (nc_Routes c)) (to_slice (nc_Iptables c))
         (to_slice (nc_Fdbs c)) (to_slice (nc_Arps c)).

(** * Lemmas *)

Lemma elems_to_slice {A} (l : list A) : elems (to_slice l) = l.
Proof. by destruct l. Qed.

(** The [Compare] methods decide equality of all the fields. *)
Class Comparable (A : Type) := {
  compare : A -> A -> bool;
  compare_eq : forall x y, compare x y = true <-> x = y }.

Ltac solve_compare :=
  split; [intros; breflect; by subst
         | injection 1; intros; subst; rewrite !bool_decide_eq_true_2, ?Z.eqb_refl by done; done].

#[export, refine] Instance Device_comparable : Comparable Device := {| compare := Device_Compare |}.
Proof. intros [] []. unfold Device_Compare; simpl. solve_compare. Defined.
#[export, refine] Instance Route_comparable : Comparable Route := {| compare := Route_Compare |}.
Proof. intros [] []. unfold Route_Compare; simpl. solve_compare. Defined.
#[export, refine] Instance Iptables_comparable : Comparable Iptables := {| compare := Iptables_Compare |}.
Proof. intros [] []. unfold Iptables_Compare; simpl. solve_compare. Defined.
#[export, refine] Instance Fdb_comparable : Comparable Fdb := {| compare := Fdb_Compare |}.
Proof. intros [] []. unfold Fdb_Compare; simpl. solve_compare. Defined.
#[export, refine] Instance Arp_comparable : Comparable Arp := {| compare := Arp_Compare |}.
Proof. intros [] []. unfold Arp_Compare; simpl. solve_compare. Defined.
