(* ===== verification/LinkVxlan.v ===== *)
(** Addresses of the VXLAN devices: [pkg/clusterlink/network-manager/helpers/network.go]
and [pkg/utils/net/network.go].  The address of a device is the network part of
the configured CIDR followed by the host part of the node's own address
([vxlan_addr], the reference definition); [GenerateVxlanIP] computes it without
a panic, for IPv4 on 32-bit words and for IPv6 on bytes, and the string it
returns parses back to it. *)
From S2P Require Import Prelude GoNet GoNetFacts GoCIDR LinkApi.
Local Open Scope Z_scope.

(** * Definitions *)

Inductive IPType := IPV4 | IPV6 | IPUnknown.

#[export] Instance IPType_eq_dec : EqDecision IPType.
Proof. solve_decision. Defined.

(** The first of ['.'] and [':'] decides; [IPUnknown] is the code's [-1]. *)
Fixpoint GetIPType (s : string) : IPType :=
  match s with
  | EmptyString => IPUnknown
  | String "." _ => IPV4
  | String ":" _ => IPV6
  | String _ s' => GetIPType s'
  end.

(** utils.IsIPv6, the same loop. *)
Definition IsIPv6 (s : string) : bool := bool_decide (GetIPType s = IPV6).

(** [utils.net.Intersect]: an unparsable network is taken to intersect. *)
Definition Intersect (net1 net2 : string) : bool :=
  match ParseCIDR net1, ParseCIDR net2 with
  | Some (_, ipNet1), Some (_, ipNet2) =>
      Contains ipNet1 (net_IP ipNet2) || Contains ipNet2 (net_IP ipNet1)
  | _, _ => true
  end.

(** [GenerateMac] on the six random bytes [buf]; [None] is a failed read. *)
Definition GenerateMac (rand : option (list Z)) : list Z :=
  match rand with
  | None => []
  | Some buf => Z.land (Z.lor (nth 0 buf 0) 2) 0xfe :: take 5 (drop 1 buf)
  end.

(** [net.HardwareAddr.String] *)
Definition Mac_String (mac : list Z) : string :=
  join ":" (map (fun b => String (nibble (Z.shiftr b 4)) (String (nibble (Z.land b 15)) EmptyString)) mac).

(** [binary.BigEndian.Uint32] and [PutUint32]; reading fewer than four bytes
panics. *)
Definition Uint32 (b : list Z) : outcome Z :=
  match b with
  | b0 :: b1 :: b2 :: b3 :: _ =>
      Ret (Z.lor (Z.lor (Z.lor b3 (Z.shiftl b2 8)) (Z.shiftl b1 16)) (Z.shiftl b0 24))
  | _ => Panic
  end.

Definition PutUint32 (v : Z) : list Z :=
  [Z.shiftr v 24; Z.land (Z.shiftr v 16) 0xff; Z.land (Z.shiftr v 8) 0xff; Z.land v 0xff].

(** Shifts on [uint32]. *)
Definition shl32 (x : Z) (k : Z) : Z := (Z.shiftl x k) mod 2 ^ 32.
Definition shr32 (x : Z) (k : Z) : Z := Z.shiftr x k.

(** [IPMask.Size]: the number of leading ones, [0] for a mask that is no prefix. *)
Definition Mask_Size (m : list Z) : nat := default 0%nat (simpleMaskLength m).

Definition changeIPNetIPV4 (ip : IP) (destNet : IPNet) : outcome IPNet :=
  let ipBytes := default [] (To4 ip) in
  let destNetBytes := default [] (To4 (net_IP destNet)) in
  let maskSize := Z.of_nat (Mask_Size (net_Mask destNet)) in
  ipBits ← Uint32 ipBytes;
  destNetBits ← Uint32 destNetBytes;
  let v := Z.lor (shl32 (shr32 destNetBits (32 - maskSize)) (32 - maskSize))
                 (shr32 (shl32 ipBits maskSize) maskSize) in
  Ret (mkIPNet (PutUint32 v) (net_Mask destNet)).

(** The loop of [changeIPNetIPV6]; an index past the mask or the network panics. *)
Fixpoint merge_bytes (ip mask dest : list Z) : outcome (list Z) :=
  match ip with
  | [] => Ret []
  | x :: ip' =>
      match mask, dest with
      | m :: mask', d :: dest' =>
          rest ← merge_bytes ip' mask' dest';
          Ret (Z.lor (Z.land (Z.lxor m 0xff) x) (Z.land d m) :: rest)
      | _, _ => Panic
      end
  end.

Definition changeIPNetIPV6 (ip : IP) (destNet : IPNet) : outcome IPNet :=
  targetIP ← merge_bytes ip (net_Mask destNet) (net_IP destNet);
  Ret (mkIPNet targetIP (net_Mask destNet)).

Definition GenerateVxlanIP (underlayIP destNetString : string) : outcome (result string) :=
  if negb (bool_decide (GetIPType underlayIP = GetIPType destNetString)) then
    Ret (inr ("GenerateVxLocalIP, different ip types: " +:+ underlayIP +:+ ", " +:+ destNetString))
  else match ParseIP underlayIP with
  | None => Ret (inr ("GenerateVxLocalIP, parse underlay ip: " +:+ underlayIP +:+ " error"))
  | Some ip =>
      match ParseCIDR destNetString with
      | None => Ret (inr ("GenerateVxLocalIP, parse destNetString: " +:+ destNetString +:+
                          " with error invalid CIDR address: " +:+ destNetString))
      | Some (_, destNet) =>
          newIP ← (if bool_decide (GetIPType underlayIP = IPV4) then changeIPNetIPV4 ip destNet
                   else changeIPNetIPV6 ip destNet);
          Ret (inl (IPNet_String newIP))
      end
  end.

(** [BuildVxlanDevice]: [None] is the nil pointer it returns on an unknown name or
on an error of [GenerateVxlanIP]. *)
Definition BuildVxlanDevice (rand : option (list Z)) (devName underlayIP destNetString bindDev : string)
    : outcome (option Device) :=
  let ids :=
    if devName =s VXLAN_BRIDGE_NAME then Some (VXLAN_BRIDGE_NAME, VXLAN_BRIDGE_ID, VXLAN_BRIDGE_PORT)
    else if devName =s VXLAN_BRIDGE_NAME_6 then Some (VXLAN_BRIDGE_NAME_6, VXLAN_BRIDGE_ID_6, VXLAN_BRIDGE_PORT_6)
    else if devName =s VXLAN_LOCAL_NAME then Some (VXLAN_LOCAL_NAME, VXLAN_LOCAL_ID, VXLAN_LOCAL_PORT)
    else if devName =s VXLAN_LOCAL_NAME_6 then Some (VXLAN_LOCAL_NAME_6, VXLAN_LOCAL_ID_6, VXLAN_LOCAL_PORT_6)
    else None in
  match ids with
  | None => Ret None
  | Some (name, id, port) =>
      r ← GenerateVxlanIP underlayIP destNetString;
      match r with
      | inr _ => Ret None
      | inl addr =>
          Ret (Some (mkDevice VxlanDevice name addr (Mac_String (GenerateMac rand)) bindDev id port))
      end
  end.

(** ** Reference definitions *)

(** The number whose big-endian bytes are [b]. *)
Fixpoint be (b : list Z) : Z :=
  match b with
  | [] => 0
  | x :: b' => x * 2 ^ (8 * Z.of_nat (length b')) + be b'
  end.

(** The address of a device: the first [n] of [bits] bits from the network, the
others from the node. *)
Definition vxlan_addr (bits n : Z) (net ip : Z) : Z :=
  net / 2 ^ (bits - n) * 2 ^ (bits - n) + ip mod 2 ^ (bits - n).

(** * Big-endian numbers *)

Lemma be_bound b : Forall byte_ok b -> 0 <= be b < 2 ^ (8 * Z.of_nat (length b)).
Proof.
  induction 1 as [|x b Hx Hb IH]; [done|]. cbn [be length]. unfold byte_ok in Hx.
  replace (8 * Z.of_nat (S (length b))) with (8 + 8 * Z.of_nat (length b)) by lia.
  rewrite Z.pow_add_r by lia. change (2 ^ 8) with 256. nia.
Qed.

Lemma be_inj a b : length a = length b -> Forall byte_ok a -> Forall byte_ok b -> be a = be b -> a = b.
Proof.
  intros Hl Ha. revert b Hl. induction Ha as [|x a Hx Ha IH]; intros [|y b] Hl Hb; simpl in Hl; try done.
  inversion Hb as [|? ? Hy Hb']; subst. cbn [be]. injection Hl as Hl. rewrite Hl.
  pose proof (be_bound a Ha) as Ba. pose proof (be_bound b Hb') as Bb. rewrite Hl in Ba.
  intros E. assert (x = y) as -> by nia. f_equal. apply IH; [done|done|nia].
Qed.

Lemma mask_byte_div n a : (n <= 8)%nat -> byte_ok a ->
  Z.land a (mask_byte n) = a / 2 ^ (8 - Z.of_nat n) * 2 ^ (8 - Z.of_nat n).
Proof.
  intros Hn Ha.
  pose (f n a := Z.eqb (Z.land a (mask_byte n)) (a / 2 ^ (8 - Z.of_nat n) * 2 ^ (8 - Z.of_nat n))).
  assert (forallb (fun n => forallb (fun a => f n (Z.of_nat a)) (seq 0 256)) (seq 0 9) = true) as H
    by by vm_compute.
  rewrite forallb_forall in H. specialize (H n ltac:(apply in_seq; lia)). cbv beta in H.
  apply (below_check (f n) 256 a) in H; [|unfold byte_ok in Ha; lia]. unfold f in H. lia.
Qed.

Lemma div_mul_high x y k j : 0 <= j <= k ->
  (x * 2 ^ k + y) / 2 ^ j * 2 ^ j = x * 2 ^ k + y / 2 ^ j * 2 ^ j.
Proof.
  intros Hj. replace k with ((k - j) + j) at 1 2 by lia. rewrite Z.pow_add_r, Z.mul_assoc by lia.
  rewrite Z.div_add_l by (apply Z.pow_nonzero; lia). ring.
Qed.

(** Masking with a prefix of [n] bits clears the low bits. *)
Lemma be_and_mask a n : Forall byte_ok a -> (n <= 8 * length a)%nat ->
  be (and_bytes a (CIDRMask n (length a))) =
  be a / 2 ^ (8 * Z.of_nat (length a) - Z.of_nat n) * 2 ^ (8 * Z.of_nat (length a) - Z.of_nat n).
Proof.
  intros Ha. revert n. induction Ha as [|x a Hx Ha IH]; intros n Hn; [done|].
  cbn [length and_bytes CIDRMask be] in *. rewrite length_and_bytes, length_CIDRMask, Nat.min_id.
  pose proof (be_bound a Ha) as Hb. destruct (Nat.le_gt_cases 8 n).
  - rewrite IH by lia. rewrite mask_byte_min, Nat.min_r, mask_byte_div by lia || done.
    replace (8 - Z.of_nat 8) with 0 by lia. rewrite Z.pow_0_r, Z.div_1_r, Z.mul_1_r.
    replace (8 * Z.of_nat (S (length a)) - Z.of_nat n)
      with (8 * Z.of_nat (length a) - Z.of_nat (n - 8)) by lia.
    by rewrite div_mul_high by lia.
  - rewrite IH by lia. rewrite mask_byte_div by lia || done.
    replace (n - 8)%nat with 0%nat by lia. rewrite Z.sub_0_r, (Z.div_small (be a)), Z.mul_0_l, Z.add_0_r by lia.
    replace (8 * Z.of_nat (S (length a)) - Z.of_nat n)
      with (8 * Z.of_nat (length a) + (8 - Z.of_nat n)) by lia.
    rewrite Z.pow_add_r by lia. rewrite <- Z.div_div by lia.
    rewrite Z.div_add_l, (Z.div_small (be a)), Z.add_0_r by lia. ring.
Qed.

Lemma Uint32_be b : Forall byte_ok b -> length b = 4%nat -> Uint32 b = Ret (be b).
Proof.
  intros Hb Hl. destruct b as [|b0 [|b1 [|b2 [|b3 [|]]]]]; try done.
  repeat match goal with H : Forall _ (_ :: _) |- _ => inversion H; clear H; subst end.
  unfold byte_ok in *. unfold Uint32. f_equal.
  rewrite (Z.lor_comm b3), (lor_shiftl_add b2 b3 8) by lia.
  rewrite (Z.lor_comm _ (Z.shiftl b1 16)), (lor_shiftl_add b1 _ 16) by lia.
  rewrite (Z.lor_comm _ (Z.shiftl b0 24)), (lor_shiftl_add b0 _ 24) by lia.
  cbn [be length]. change (2 ^ (8 * Z.of_nat 3)) with (2 ^ 24).
  change (2 ^ (8 * Z.of_nat 2)) with (2 ^ 16). change (2 ^ (8 * Z.of_nat 1)) with (2 ^ 8).
  change (2 ^ (8 * Z.of_nat 0)) with 1. lia.
Qed.

Lemma PutUint32_be v : 0 <= v < 2 ^ 32 ->
  be (PutUint32 v) = v /\ Forall byte_ok (PutUint32 v) /\ length (PutUint32 v) = 4%nat.
Proof.
  intros Hv. unfold PutUint32. change 0xff with (Z.ones 8). rewrite !Z.land_ones by lia.
  rewrite !Z.shiftr_div_pow2 by lia. split; [|split; [|done]].
  - cbn [be length]. change (2 ^ (8 * Z.of_nat 3)) with (2 ^ 24).
    change (2 ^ (8 * Z.of_nat 2)) with (2 ^ 16). change (2 ^ (8 * Z.of_nat 1)) with (2 ^ 8).
    change (2 ^ (8 * Z.of_nat 0)) with 1.
    pose proof (Z.div_mod v (2 ^ 8)). pose proof (Z.div_mod (v / 2 ^ 8) (2 ^ 8)).
    pose proof (Z.div_mod (v / 2 ^ 16) (2 ^ 8)).
    rewrite Z.div_div in * by lia. change (2 ^ 8 * 2 ^ 8) with (2 ^ 16) in *.
    change (2 ^ 16 * 2 ^ 8) with (2 ^ 24) in *. lia.
  - unfold byte_ok. repeat constructor;
      first [apply Z.mod_pos_bound; lia | apply Z.div_pos; lia | apply Z.div_lt_upper_bound; lia].
Qed.

(** * The two merges compute [vxlan_addr] *)

Lemma vxlan_addr_bound bits n net ip :
  0 <= n <= bits -> 0 <= net < 2 ^ bits -> 0 <= vxlan_addr bits n net ip < 2 ^ bits.
Proof.
  intros Hn Hnet. unfold vxlan_addr.
  assert (Hp : 2 ^ bits = 2 ^ n * 2 ^ (bits - n)) by (rewrite <- Z.pow_add_r by lia; f_equal; lia).
  assert (0 < 2 ^ (bits - n)) by (apply Z.pow_pos_nonneg; lia).
  pose proof (Z.mod_pos_bound ip (2 ^ (bits - n)) ltac:(lia)).
  assert (0 <= net / 2 ^ (bits - n)) by (apply Z.div_pos; lia).
  assert (net / 2 ^ (bits - n) < 2 ^ n) by (apply Z.div_lt_upper_bound; lia). nia.
Qed.

(** The network part and the host part of the merged address. *)
Lemma vxlan_addr_net bits n net ip : 0 <= n <= bits ->
  vxlan_addr bits n net ip / 2 ^ (bits - n) = net / 2 ^ (bits - n).
Proof.
  intros Hn. unfold vxlan_addr. assert (0 < 2 ^ (bits - n)) by (apply Z.pow_pos_nonneg; lia).
  rewrite Z.div_add_l, (Z.div_small (ip mod _)) by (lia || by apply Z.mod_pos_bound). lia.
Qed.

Lemma vxlan_addr_host bits n net ip : 0 <= n <= bits ->
  vxlan_addr bits n net ip mod 2 ^ (bits - n) = ip mod 2 ^ (bits - n).
Proof.
  intros Hn. unfold vxlan_addr. assert (0 < 2 ^ (bits - n)) by (apply Z.pow_pos_nonneg; lia).
  rewrite Z.add_comm, Z.mod_add, Z.mod_mod by lia. done.
Qed.

Lemma word_merge d i n : 0 <= d < 2 ^ 32 -> 0 <= i < 2 ^ 32 -> 0 <= n <= 32 ->
  Z.lor (shl32 (shr32 d (32 - n)) (32 - n)) (shr32 (shl32 i n) n) = vxlan_addr 32 n d i.
Proof.
  intros Hd Hi Hn. unfold shl32, shr32, vxlan_addr.
  assert (Hp : 2 ^ 32 = 2 ^ (32 - n) * 2 ^ n) by (rewrite <- Z.pow_add_r by lia; f_equal; lia).
  assert (0 < 2 ^ n) by (apply Z.pow_pos_nonneg; lia).
  assert (0 < 2 ^ (32 - n)) by (apply Z.pow_pos_nonneg; lia).
  rewrite !Z.shiftr_div_pow2, (Z.shiftl_mul_pow2 i) by lia.
  assert (Hh : i * 2 ^ n mod 2 ^ 32 / 2 ^ n = i mod 2 ^ (32 - n)).
  { rewrite Hp, Z.mul_mod_distr_r, Z.div_mul by lia. done. }
  rewrite Hh. rewrite (Z.mod_small (Z.shiftl _ _)).
  - apply lor_shiftl_add; [lia|]. by apply Z.mod_pos_bound.
  - rewrite Z.shiftl_mul_pow2 by lia. split.
    + apply Z.mul_nonneg_nonneg; [apply Z.div_pos|]; lia.
    + pose proof (Z.mul_div_le d (2 ^ (32 - n)) ltac:(lia)). lia.
Qed.

Lemma byte_bits a : 0 <= a -> (forall k, 8 <= k -> Z.testbit a k = false) -> byte_ok a.
Proof.
  intros Ha Hb. assert (a = a mod 2 ^ 8) as ->; [|apply Z.mod_pos_bound; lia].
  apply Z.bits_inj'. intros k Hk. destruct (Z.ltb_spec k 8).
  - by rewrite Z.mod_pow2_bits_low by lia.
  - rewrite Z.mod_pow2_bits_high by lia. by apply Hb.
Qed.

Lemma byte_lor a b : byte_ok a -> byte_ok b -> byte_ok (Z.lor a b).
Proof.
  unfold byte_ok at 1 2. intros. apply byte_bits; [apply Z.lor_nonneg; lia|].
  intros k Hk. by rewrite Z.lor_spec, !(testbit_above _ 8) by lia.
Qed.

Lemma byte_lxor a b : byte_ok a -> byte_ok b -> byte_ok (Z.lxor a b).
Proof.
  unfold byte_ok at 1 2. intros. apply byte_bits; [apply Z.lxor_nonneg; lia|].
  intros k Hk. by rewrite Z.lxor_spec, !(testbit_above _ 8) by lia.
Qed.

Lemma lor_byte_add m x d : byte_ok m -> byte_ok x ->
  Z.lor (Z.land (Z.lxor m 0xff) x) (Z.land d m) = (x - Z.land x m) + Z.land d m.
Proof.
  intros Hm Hx.
  assert (Hd : Z.land (Z.land (Z.lxor m 0xff) x) (Z.land d m) = 0).
  { apply Z.bits_inj'. intros k Hk. rewrite !Z.land_spec, Z.lxor_spec, Z.bits_0.
    unfold byte_ok in *. destruct (Z.ltb_spec k 8).
    - change 0xff with (Z.ones 8). rewrite Z.ones_spec_low by lia.
      destruct (Z.testbit m k), (Z.testbit x k), (Z.testbit d k); done.
    - rewrite (testbit_above m 8) by lia. rewrite !andb_false_r. done. }
  rewrite <- Z.lxor_lor, <- Z.add_nocarry_lxor by done. f_equal.
  assert (Hs : Z.land (Z.land (Z.lxor m 0xff) x) (Z.land x m) = 0).
  { apply Z.bits_inj'. intros k Hk. rewrite !Z.land_spec, Z.lxor_spec, Z.bits_0.
    unfold byte_ok in *. destruct (Z.ltb_spec k 8).
    - change 0xff with (Z.ones 8). rewrite Z.ones_spec_low by lia.
      destruct (Z.testbit m k), (Z.testbit x k); done.
    - rewrite (testbit_above x 8) by lia. rewrite !andb_false_r. done. }
  assert (Ht : Z.land (Z.lxor m 0xff) x + Z.land x m = x).
  { rewrite Z.add_nocarry_lxor, Z.lxor_lor by done. apply Z.bits_inj'. intros k Hk.
    rewrite Z.lor_spec, !Z.land_spec, Z.lxor_spec. unfold byte_ok in *. destruct (Z.ltb_spec k 8).
    - change 0xff with (Z.ones 8). rewrite Z.ones_spec_low by lia.
      destruct (Z.testbit m k), (Z.testbit x k); done.
    - rewrite (testbit_above x 8) by lia. rewrite !andb_false_r. done. }
  lia.
Qed.

Lemma merge_bytes_be ip m d : length ip = length m -> length ip = length d ->
  Forall byte_ok ip -> Forall byte_ok m -> Forall byte_ok d ->
  exists t, merge_bytes ip m d = Ret t /\ length t = length ip /\ Forall byte_ok t /\
    be t = be ip - be (and_bytes ip m) + be (and_bytes d m).
Proof.
  intros Hm Hd Hip. revert m d Hm Hd. induction Hip as [|x ip Hx Hip IH]; intros [|y m] [|z d] Hlm Hld Hm Hd;
    simpl in Hlm, Hld; try done; [by exists []|].
  inversion Hm as [|? ? Hy Hm']; inversion Hd as [|? ? Hz Hd']; subst.
  destruct (IH m d) as (t & Et & Hlt & Hokt & Hbe); [lia..|done|done|].
  cbn [merge_bytes]. rewrite Et. cbn [mbind outcome_bind].
  eexists. split; [done|]. split; [simpl; lia|]. split.
  - constructor; [|done]. by apply byte_lor; apply byte_land; [apply byte_lxor| |..].
  - cbn [be and_bytes]. rewrite lor_byte_add, Hbe, Hlt by done.
    rewrite !length_and_bytes. replace (length m) with (length ip) by lia.
    replace (length d) with (length ip) by lia. rewrite Nat.min_id. ring.
Qed.

(** * Address families *)

Lemma GetIPType_hex c s : hex_digit c <> None -> GetIPType (String c s) = GetIPType s.
Proof. intros Hc. destruct c as [[] [] [] [] [] [] [] []]; done. Qed.

Lemma toi_loop_type digit base s n i m k rest :
  (forall c d, digit c = Some d -> hex_digit c <> None) ->
  toi_loop digit base s n i = Some (m, k, rest) -> GetIPType s = GetIPType rest.
Proof.
  intros Hd. revert n i. induction s as [|c s IH]; intros n i; cbn [toi_loop].
  - destruct (Nat.eqb i 0); [done|]. by intros [= _ _ <-].
  - destruct (digit c) eqn:E.
    + destruct (big <=? _); [done|]. intros H%IH. rewrite GetIPType_hex by eauto. done.
    + destruct (Nat.eqb i 0); [done|]. by intros [= _ _ <-].
Qed.

Lemma dec_is_hex c d : dec_digit c = Some d -> hex_digit c <> None.
Proof. unfold dec_digit, hex_digit. by destruct (_ && _). Qed.

Lemma parseIPv4_type sloppy s ip : parseIPv4 sloppy s = Some ip -> GetIPType s = IPV4.
Proof.
  unfold parseIPv4, parse_octet, dtoi. destruct (toi_loop _ _ s 0 0) as [[[m c] r]|] eqn:E; [|done].
  apply toi_loop_type in E as ->; [|by apply dec_is_hex].
  destruct (0xFF <? m); [done|]. destruct (_ && _ && _); [done|].
  destruct r as [|d r]; [done|]. destruct d as [[] [] [] [] [] [] [] []]; done.
Qed.

Lemma parseIPv6_type sloppy s ip : parseIPv6 sloppy s = Some ip -> GetIPType s = IPV6.
Proof.
  intros H. assert (GetIPType s = IPV6 \/ parse_groups sloppy 8 [] None s ≫= expand_ellipsis = Some ip)
    as [?|Hp]; [|done|].
  { unfold parseIPv6 in H. repeat case_match; simplify_eq; auto. }
  clear H. assert (exists fuel, parse_groups sloppy (S fuel) [] None s ≫= expand_ellipsis = Some ip)
    as [fuel Hp'] by (by exists 7%nat). clear Hp. rename Hp' into Hp.
  cbn [parse_groups] in Hp. unfold xtoi in Hp.
  destruct (toi_loop _ _ s 0 0) as [[[m c] r]|] eqn:E; [|done].
  apply toi_loop_type in E as ->; [|by intros ? ? ->].
  destruct (0xFFFF <? m); [done|].
  destruct r as [|d r]; [done|]. destruct d as [[] [] [] [] [] [] [] []]; done.
Qed.

Lemma GetIPType_app s t : GetIPType s <> IPUnknown -> GetIPType (s +:+ t) = GetIPType s.
Proof.
  induction s as [|c s IH]; [done|]. rewrite str_app_cons.
  destruct (decide (c = "."%char)) as [->|Hd]; [done|].
  destruct (decide (c = ":"%char)) as [->|Hc]; [done|].
  assert (forall u, GetIPType (String c u) = GetIPType u) as E.
  { intros u. destruct c as [[] [] [] [] [] [] [] []]; done. }
  rewrite !E. done.
Qed.

Lemma split_slash_Some s a b : split_slash s = Some (a, b) -> s = a +:+ String "/" b.
Proof.
  revert a. induction s as [|c s IH]; intros a; cbn [split_slash]; [done|].
  destruct (bool_decide (c = "/"%char)) eqn:E.
  - apply bool_decide_eq_true in E as ->. by intros [= <- <-].
  - destruct (split_slash s) as [[a' b']|]; [|done]. intros [= <- <-]. rewrite (IH a') by done. done.
Qed.

(** The family of a parsed network is the one [GetIPType] reads off the string. *)
Lemma ParseCIDR_type sloppy s ip net : ParseCIDR_gen sloppy s = Some (ip, net) ->
  (GetIPType s = IPV4 /\ exists a n, length a = 4%nat /\ Forall byte_ok a /\ (n <= 32)%nat /\
     ip = v4InV6Prefix ++ a /\ net = mkIPNet (and_bytes a (CIDRMask n 4)) (CIDRMask n 4)) \/
  (GetIPType s = IPV6 /\ exists n, length ip = 16%nat /\ Forall byte_ok ip /\ (n <= 128)%nat /\
     net = mkIPNet (and_bytes ip (CIDRMask n 16)) (CIDRMask n 16)).
Proof.
  unfold ParseCIDR_gen. destruct (split_slash s) as [[addr mask]|] eqn:Es; [|done].
  apply split_slash_Some in Es as ->.
  destruct (parseIPv4 sloppy addr) as [ip4|] eqn:E4.
  - left. rewrite GetIPType_app by (erewrite parseIPv4_type by done; done).
    split; [by eapply parseIPv4_type|]. apply parseIPv4_ok in E4 as (a & -> & Ha & Hok).
    destruct (dtoi mask) as [[[n k] r]|] eqn:Ed; [|done]. destruct r; [|done].
    apply toi_loop_nonneg in Ed; [|apply dec_digit_nonneg|lia..].
    destruct (Z.ltb_spec (8 * Z.of_nat 4) n); [done|]. rewrite IP_Mask_v4 in * by done.
    exists a, (Z.to_nat n). remember (CIDRMask (Z.to_nat n) 4) as m. simplify_eq.
    repeat split; try done; lia.
  - destruct (parseIPv6 sloppy addr) as [ip6|] eqn:E6; [|done]. right.
    rewrite GetIPType_app by (erewrite parseIPv6_type by done; done).
    split; [by eapply parseIPv6_type|]. apply parseIPv6_ok in E6 as [Hl Hok].
    destruct (dtoi mask) as [[[n k] r]|] eqn:Ed; [|done]. destruct r; [|done].
    apply toi_loop_nonneg in Ed; [|apply dec_digit_nonneg|lia..].
    destruct (Z.ltb_spec (8 * Z.of_nat 16) n); [done|]. rewrite IP_Mask_v6 in * by done.
    exists (Z.to_nat n). remember (CIDRMask (Z.to_nat n) 16) as m. simplify_eq.
    repeat split; try done; lia.
Qed.

Lemma ParseIP_scan_type r s : ParseIP_scan r s =
  match GetIPType r with
  | IPV4 => parseIPv4 false s
  | IPV6 => parseIPv6 false s
  | IPUnknown => None
  end.
Proof.
  induction r as [|c r IH]; [done|].
  destruct (decide (c = "."%char)) as [->|Hd]; [done|].
  destruct (decide (c = ":"%char)) as [->|Hc]; [done|].
  cbn [ParseIP_scan GetIPType]. rewrite IH. destruct c as [[] [] [] [] [] [] [] []]; done.
Qed.

(** * The generated addresses *)

Lemma masked_net_be a n : Forall byte_ok a -> (n <= 8 * length a)%nat ->
  let net := and_bytes a (CIDRMask n (length a)) in
  forall x, Forall byte_ok x -> length x = length a ->
  be x / 2 ^ (8 * Z.of_nat (length a) - Z.of_nat n) = be net / 2 ^ (8 * Z.of_nat (length a) - Z.of_nat n) ->
  and_bytes x (CIDRMask n (length a)) = net.
Proof.
  intros Ha Hn net x Hx Hl E.
  assert (Forall byte_ok net) as Hnet by (apply and_bytes_ok; [done|apply CIDRMask_ok]).
  assert (length net = length a) as Hln by (unfold net; rewrite length_and_bytes, length_CIDRMask; lia).
  assert (net = and_bytes net (CIDRMask n (length a))) as -> by (unfold net; by rewrite and_mask_idem).
  apply be_inj; rewrite ?length_and_bytes, ?length_CIDRMask; try lia;
    try (apply and_bytes_ok; [done|apply CIDRMask_ok]).
  pose proof (be_and_mask x n Hx ltac:(lia)) as E1. pose proof (be_and_mask net n Hnet ltac:(lia)) as E2.
  rewrite Hl in E1. rewrite Hln in E2. rewrite E1, E2, E. done.
Qed.

Lemma changeIPNetIPV4_spec a i n : length a = 4%nat -> Forall byte_ok a ->
  length i = 4%nat -> Forall byte_ok i -> (n <= 32)%nat ->
  exists x, changeIPNetIPV4 (v4InV6Prefix ++ i) (mkIPNet (and_bytes a (CIDRMask n 4)) (CIDRMask n 4))
            = Ret (mkIPNet x (CIDRMask n 4)) /\ length x = 4%nat /\ Forall byte_ok x /\
    be x = vxlan_addr 32 (Z.of_nat n) (be (and_bytes a (CIDRMask n 4))) (be i).
Proof.
  intros La Ha Li Hi Hn. set (d := and_bytes a (CIDRMask n 4)).
  assert (Ld : length d = 4%nat) by (unfold d; rewrite length_and_bytes, length_CIDRMask, La; done).
  assert (Hd : Forall byte_ok d) by (apply and_bytes_ok; [done|apply CIDRMask_ok]).
  unfold changeIPNetIPV4. cbn [net_IP net_Mask]. unfold Mask_Size.
  rewrite simpleMaskLength_CIDRMask by (auto || lia). cbn [default id].
  assert (To4 (v4InV6Prefix ++ i) = Some i) as -> by (by destruct i as [|? [|? [|? [|? [|]]]]]).
  assert (To4 d = Some d) as -> by (unfold To4; by rewrite Ld).
  cbn [default id]. rewrite !Uint32_be by done. cbn [mbind outcome_bind].
  pose proof (be_bound d Hd) as Bd. pose proof (be_bound i Hi) as Bi. rewrite Ld in Bd. rewrite Li in Bi.
  change (8 * Z.of_nat 4) with 32 in *. rewrite word_merge by lia.
  destruct (PutUint32_be (vxlan_addr 32 (Z.of_nat n) (be d) (be i))) as (H1 & H2 & H3);
    [apply vxlan_addr_bound; lia|]. eauto.
Qed.

Lemma changeIPNetIPV6_spec a i n : length a = 16%nat -> Forall byte_ok a ->
  length i = 16%nat -> Forall byte_ok i -> (n <= 128)%nat ->
  exists x, changeIPNetIPV6 i (mkIPNet (and_bytes a (CIDRMask n 16)) (CIDRMask n 16))
            = Ret (mkIPNet x (CIDRMask n 16)) /\ length x = 16%nat /\ Forall byte_ok x /\
    be x = vxlan_addr 128 (Z.of_nat n) (be (and_bytes a (CIDRMask n 16))) (be i).
Proof.
  intros La Ha Li Hi Hn. set (d := and_bytes a (CIDRMask n 16)).
  assert (Ld : length d = 16%nat) by (unfold d; rewrite length_and_bytes, length_CIDRMask, La; done).
  assert (Hd : Forall byte_ok d) by (apply and_bytes_ok; [done|apply CIDRMask_ok]).
  unfold changeIPNetIPV6. cbn [net_IP net_Mask].
  destruct (merge_bytes_be i (CIDRMask n 16) d) as (x & -> & Lx & Hx & Hbe);
    [by rewrite length_CIDRMask|by rewrite Ld|done|apply CIDRMask_ok|done|].
  cbn [mbind outcome_bind]. exists x. repeat split; [lia|done|].
  rewrite Hbe. pose proof (be_and_mask i n Hi ltac:(lia)) as Ei. pose proof (be_and_mask d n Hd ltac:(lia)) as Ed.
  rewrite Li in Ei. rewrite Ld in Ed. rewrite Ei, Ed. change (8 * Z.of_nat 16) with 128.
  unfold vxlan_addr. rewrite Z.mod_eq by (apply Z.pow_nonzero; lia). lia.
Qed.

(** Printing the merged address and parsing it back. *)
Lemma print_parse4 x n : length x = 4%nat -> Forall byte_ok x -> (n <= 32)%nat ->
  ParseCIDR (IPNet_String (mkIPNet x (CIDRMask n 4))) =
  Some (v4InV6Prefix ++ x, mkIPNet (and_bytes x (CIDRMask n 4)) (CIDRMask n 4)).
Proof.
  intros Lx Hx Hn. unfold IPNet_String, networkNumberAndMask. cbn [net_IP net_Mask].
  assert (To4 x = Some x) as -> by (unfold To4; by rewrite Lx).
  rewrite length_CIDRMask, Lx. cbn -[CIDRMask simpleMaskLength ParseCIDR IP_String].
  rewrite simpleMaskLength_CIDRMask by (auto || lia).
  assert (IP_String x = dotted x) as ->.
  { destruct x; [done|]. unfold IP_String, To4. by rewrite Lx. }
  by apply ParseCIDR_print4.
Qed.

Lemma print_parse6 x n : length x = 16%nat -> Forall byte_ok x -> (n <= 128)%nat ->
  exists net', ParseCIDR (IPNet_String (mkIPNet x (CIDRMask n 16))) = Some (x, net') /\
    (To4 x = None -> net' = mkIPNet (and_bytes x (CIDRMask n 16)) (CIDRMask n 16)).
Proof.
  intros Lx Hx Hn. unfold IPNet_String, networkNumberAndMask. cbn [net_IP net_Mask].
  destruct (To4 x) as [y|] eqn:E.
  - unfold To4 in E. rewrite Lx in E. change (16 =? 4)%nat with false in E. change (16 =? 16)%nat with true in E.
    cbn [andb] in E. destruct (bool_decide (take 12 x = v4InV6Prefix)) eqn:E2; [|done].
    apply bool_decide_eq_true in E2. injection E as <-.
    rewrite length_CIDRMask, length_drop, Lx. cbn -[CIDRMask simpleMaskLength ParseCIDR IP_String drop].
    rewrite drop_CIDRMask, simpleMaskLength_CIDRMask by (auto || lia).
    assert (length (drop 12 x) = 4%nat) as Ly by (rewrite length_drop; lia).
    assert (IP_String (drop 12 x) = dotted (drop 12 x)) as ->.
    { destruct (drop 12 x); [done|]. unfold IP_String, To4. by rewrite Ly. }
    unfold ParseCIDR. rewrite ParseCIDR_print4; [|by apply Forall_drop|done|lia].
    assert (v4InV6Prefix ++ drop 12 x = x) as -> by (rewrite <- E2; apply take_drop).
    eexists. by split.
  - rewrite Lx, length_CIDRMask. cbn -[CIDRMask simpleMaskLength ParseCIDR IP_String].
    rewrite Lx. cbn -[CIDRMask simpleMaskLength ParseCIDR IP_String].
    rewrite simpleMaskLength_CIDRMask by (auto || lia).
    assert (IP_String x = String6 x) as ->.
    { unfold IP_String. rewrite E, Lx. by destruct x. }
    unfold ParseCIDR. rewrite ParseCIDR_print6 by done. eauto.
Qed.

(** The bytes of an address that take part in a network with [k]-byte masks. *)
Definition addr_bytes (k : nat) (ip : IP) : list Z := drop (16 - k) ip.

Lemma GenerateVxlanIP_merges u d ip ip0 net :
  GetIPType u = GetIPType d -> ParseIP u = Some ip -> ParseCIDR d = Some (ip0, net) ->
  exists addr x net' n,
    GenerateVxlanIP u d = Ret (inl addr) /\ ParseCIDR addr = Some (x, net') /\
    let k := length (net_Mask net) in
    simpleMaskLength (net_Mask net) = Some n /\
    be (addr_bytes k x) =
      vxlan_addr (8 * Z.of_nat k) (Z.of_nat n) (be (net_IP net)) (be (addr_bytes k ip)) /\
    (k = 4%nat \/ To4 x = None -> net' = net).
Proof.
  intros Ht Hu Hd. unfold GenerateVxlanIP. rewrite bool_decide_eq_true_2 by done. cbn [negb].
  rewrite Hu, Hd. unfold ParseIP in Hu. rewrite ParseIP_scan_type in Hu. rewrite Ht in *.
  apply ParseCIDR_type in Hd as [(Ed & a & n & La & Ha & Hn & -> & ->)|(Ed & n & La & Ha & Hn & ->)];
    rewrite Ed in *; cbn [net_IP net_Mask]; rewrite length_CIDRMask.
  - rewrite bool_decide_eq_true_2 by done. apply parseIPv4_ok in Hu as (i & -> & Li & Hi).
    destruct (changeIPNetIPV4_spec a i n La Ha Li Hi Hn) as (x & -> & Lx & Hx & Hbe).
    cbn [mbind outcome_bind]. eexists _, _, _, n. split; [done|]. rewrite print_parse4 by done.
    split; [done|]. split; [apply simpleMaskLength_CIDRMask; auto|]. split; [done|]. intros _. f_equal.
    pose proof (masked_net_be a n Ha ltac:(lia) x Hx ltac:(lia)) as E. rewrite La in E. apply E.
    rewrite Hbe. apply (vxlan_addr_net 32). lia.
  - rewrite bool_decide_eq_false_2 by done. apply parseIPv6_ok in Hu as [Li Hi].
    destruct (changeIPNetIPV6_spec ip0 ip n La Ha Li Hi Hn) as (x & -> & Lx & Hx & Hbe).
    cbn [mbind outcome_bind]. destruct (print_parse6 x n Lx Hx Hn) as (net' & Hp & Hnet').
    eexists _, _, net', n. split; [done|]. rewrite Hp.
    split; [done|]. split; [apply simpleMaskLength_CIDRMask; auto|]. split; [done|].
    intros [?|H4]; [done|]. rewrite (Hnet' H4). f_equal.
    pose proof (masked_net_be ip0 n Ha ltac:(lia) x Hx ltac:(lia)) as E. rewrite La in E. apply E.
    rewrite Hbe. apply (vxlan_addr_net 128). lia.
Qed.

Lemma GenerateVxlanIP_total u d : exists r, GenerateVxlanIP u d = Ret r.
Proof.
  destruct (decide (GetIPType u = GetIPType d)) as [Ht|Ht].
  - destruct (ParseIP u) as [ip|] eqn:Hu, (ParseCIDR d) as [[ip0 net]|] eqn:Hd.
    1: { destruct (GenerateVxlanIP_merges u d ip ip0 net Ht Hu Hd) as (? & ? & ? & ? & -> & _). eauto. }
    all: unfold GenerateVxlanIP; rewrite bool_decide_eq_true_2 by done; rewrite Hu, ?Hd; eauto.
  - unfold GenerateVxlanIP. rewrite bool_decide_eq_false_2 by done. eauto.
Qed.

Lemma GenerateVxlanIP_parses u d addr : GenerateVxlanIP u d = Ret (inl addr) ->
  exists x net, ParseCIDR addr = Some (x, net).
Proof.
  intros H. assert (Ht : GetIPType u = GetIPType d).
  { unfold GenerateVxlanIP in H. destruct (bool_decide (GetIPType u = GetIPType d)) eqn:E; [by breflect|done]. }
  destruct (ParseIP u) as [ip|] eqn:Hu, (ParseCIDR d) as [[ip0 net]|] eqn:Hd.
  1: { destruct (GenerateVxlanIP_merges u d ip ip0 net Ht Hu Hd) as (a & x & n' & ? & E & Hp & _).
       rewrite E in H. injection H as ->. eauto. }
  all: unfold GenerateVxlanIP in H; rewrite bool_decide_eq_true_2, Hu, ?Hd in H by done; done.
Qed.

Lemma Intersect_iff s1 s2 :
  Intersect s1 s2 = true <->
  ParseCIDR s1 = None \/ ParseCIDR s2 = None \/
  exists ip1 net1 ip2 net2 ip, ParseCIDR s1 = Some (ip1, net1) /\ ParseCIDR s2 = Some (ip2, net2) /\
    Contains net1 ip = true /\ Contains net2 ip = true.
Proof.
  unfold Intersect. destruct (ParseCIDR s1) as [[ip1 net1]|] eqn:E1; [|naive_solver].
  destruct (ParseCIDR s2) as [[ip2 net2]|] eqn:E2; [|naive_solver].
  apply ParseCIDR_wf in E1 as [_ H1]. apply ParseCIDR_wf in E2 as [_ H2].
  rewrite (contains_base_iff net1 net2 H1 H2). naive_solver.
Qed.

(** Whenever the node's address and the configured CIDR parse and are of one
family, [GenerateVxlanIP] returns an address whose network bits are those of the
CIDR and whose host bits are those of the node's address, printed so that
[ParseCIDR] reads it back; the network read back is the configured one (for
every address but an IPv4-mapped IPv6 one, which Go prints in dotted form). *)
Theorem GenerateVxlanIP_spec u d ip ip0 net :
  GetIPType u = GetIPType d -> ParseIP u = Some ip -> ParseCIDR d = Some (ip0, net) ->
  exists addr x net' n,
    GenerateVxlanIP u d = Ret (inl addr) /\ ParseCIDR addr = Some (x, net') /\
    let k := length (net_Mask net) in
    simpleMaskLength (net_Mask net) = Some n /\
    be (addr_bytes k x) =
      vxlan_addr (8 * Z.of_nat k) (Z.of_nat n) (be (net_IP net)) (be (addr_bytes k ip)) /\
    (k = 4%nat \/ To4 x = None -> net' = net).
Proof. apply GenerateVxlanIP_merges. Qed.

Lemma GenerateVxlanIP_spec_witness :
  exists addr x net' n,
    GenerateVxlanIP "100.10.10.1" "210.0.0.0/8" = Ret (inl addr) /\ ParseCIDR addr = Some (x, net') /\
    simpleMaskLength [255;0;0;0] = Some n /\
    be (addr_bytes 4 x) = vxlan_addr 32 (Z.of_nat n) (be [210;0;0;0]) (be [100;10;10;1]) /\
    (4%nat = 4%nat \/ To4 x = None -> net' = mkIPNet [210;0;0;0] [255;0;0;0]).
Proof.
  exact (GenerateVxlanIP_spec "100.10.10.1" "210.0.0.0/8" [0;0;0;0;0;0;0;0;0;0;255;255;100;10;10;1]
    [0;0;0;0;0;0;0;0;0;0;255;255;210;0;0;0] (mkIPNet [210;0;0;0] [255;0;0;0])
    ltac:(vm_compute; reflexivity) ltac:(vm_compute; reflexivity) ltac:(vm_compute; reflexivity)).
Defined.

(** [GenerateVxlanIP] never panics, whatever strings it is given: the byte
slices it reads words from always have the length it expects. *)
Theorem GenerateVxlanIP_no_panic u d : exists r, GenerateVxlanIP u d = Ret r.
Proof. apply GenerateVxlanIP_total. Qed.

(** C40: two CIDR strings intersect for the code exactly when one does not parse
or some address belongs to both networks. *)
Theorem Intersect_spec s1 s2 :
  Intersect s1 s2 = true <->
  ParseCIDR s1 = None \/ ParseCIDR s2 = None \/
  exists ip1 net1 ip2 net2 ip, ParseCIDR s1 = Some (ip1, net1) /\ ParseCIDR s2 = Some (ip2, net2) /\
    Contains net1 ip = true /\ Contains net2 ip = true.
Proof. apply Intersect_iff. Qed.
