(* ===== verification/LinkFilter.v ===== *)
(** The filter over the cluster objects of one calculation:
[pkg/clusterlink/network-manager/helpers/filter.go], and the selection of the
valid objects, [ExcludeInvalidItems] of network_manager.go, which establishes
the invariant [filter_ok] the handlers rely on. *)
From S2P Require Import Prelude LinkApi.

Record Filter := mkFilter {
  f_clusterNodes : list ClusterNode;
  f_clusters : list Cluster;
  f_nodeConfigs : list NodeConfigObj;
  f_clustersMap : gmap string Cluster }.

(** * Operations *)

(** Later clusters of the same name win. *)
Definition buildClustersMap (clusters : list Cluster) : gmap string Cluster :=
  fold_left (fun m c => <[c_Name c := c]> m) clusters ∅.

Definition NewFilter (clusters : list Cluster) (clusterNodes : list ClusterNode)
    (nodeConfigs : list NodeConfigObj) : Filter :=
  mkFilter clusterNodes clusters nodeConfigs (buildClustersMap clusters).

Definition GetClusterByName (f : Filter) (name : string) : option Cluster := f_clustersMap f !! name.

Definition GetGatewayNodeByClusterName (f : Filter) (clusterName : string) : option ClusterNode :=
  first (fun node => (cn_ClusterName node =s clusterName) && ClusterNode_IsGateway node) (f_clusterNodes f).

Definition GetGatewayNodes (f : Filter) : list ClusterNode :=
  collect (fun cluster => GetGatewayNodeByClusterName f (c_Name cluster)) (f_clusters f).

Definition GetInternalNodes (f : Filter) : outcome (list ClusterNode) :=
  filterM (fun node =>
    cluster ← deref (GetClusterByName f (cn_ClusterName node));
    Ret (Cluster_IsGateway cluster && negb (ClusterNode_IsGateway node))) (f_clusterNodes f).

Definition GetEndpointNodes (f : Filter) : outcome (list ClusterNode) :=
  filterM (fun node =>
    cluster ← deref (GetClusterByName f (cn_ClusterName node));
    Ret (Cluster_IsP2P cluster && negb (ClusterNode_IsGateway node))) (f_clusterNodes f).

Definition GetClusterNodes (f : Filter) : list ClusterNode := f_clusterNodes f.

Definition GetInternalNodesByClusterName (f : Filter) (clusterName : string) : outcome (list ClusterNode) :=
  filterM (fun node =>
    cluster ← deref (GetClusterByName f (cn_ClusterName node));
    if Cluster_IsP2P cluster then Ret false
    else Ret ((cn_ClusterName node =s clusterName) && negb (ClusterNode_IsGateway node)))
    (f_clusterNodes f).

Definition GetAllNodesByClusterName (f : Filter) (name : string) : list ClusterNode :=
  List.filter (fun node => cn_ClusterName node =s name) (f_clusterNodes f).

Definition GetAllNodesExceptCluster (f : Filter) (name : string) : list ClusterNode :=
  List.filter (fun node => negb (cn_ClusterName node =s name)) (f_clusterNodes f).

Definition GetGatewayClusterNodes (f : Filter) : list ClusterNode :=
  flat_map (fun cluster => if Cluster_IsGateway cluster then GetAllNodesByClusterName f (c_Name cluster) else [])
           (f_clusters f).

Definition SupportIPv4 (f : Filter) (node : ClusterNode) : outcome bool :=
  cluster ← deref (GetClusterByName f (cn_ClusterName node));
  o ← deref (c_ClusterLinkOptions cluster);
  Ret ((lo_IPFamily o =s IPFamilyTypeALL) || (lo_IPFamily o =s IPFamilyTypeIPV4)).

Definition SupportIPv6 (f : Filter) (node : ClusterNode) : outcome bool :=
  cluster ← deref (GetClusterByName f (cn_ClusterName node));
  o ← deref (c_ClusterLinkOptions cluster);
  Ret ((lo_IPFamily o =s IPFamilyTypeALL) || (lo_IPFamily o =s IPFamilyTypeIPV6)).

(** The first configuration of that name is the only one searched. *)
Definition GetDeviceFromNodeConfig (f : Filter) (nodeName devName : string) : option Device :=
  config ← first (fun config => nco_Name config =s nodeName) (f_nodeConfigs f);
  first (fun dev => dev_Name dev =s devName) (elems (spec_Devices (nco_Spec config))).

(** [ExcludeInvalidItems]: the clusters with ClusterLink enabled, and the nodes of
those clusters that have a name, an interface and an address of every family
the cluster supports. *)
Definition cluster_valid (c : Cluster) : bool :=
  match c_ClusterLinkOptions c with None => false | Some o => lo_Enable o end.

Definition node_valid (clustersMap : gmap string Cluster) (cn : ClusterNode) : bool :=
  if str_empty (cn_ClusterName cn) then false
  else if str_empty (cn_InterfaceName cn) then false
  else match clustersMap !! cn_ClusterName cn with
  | None => false
  | Some c =>
      match c_ClusterLinkOptions c with
      | None => false
      | Some o =>
          let supportIPv4 := (lo_IPFamily o =s IPFamilyTypeALL) || (lo_IPFamily o =s IPFamilyTypeIPV4) in
          let supportIPv6 := (lo_IPFamily o =s IPFamilyTypeALL) || (lo_IPFamily o =s IPFamilyTypeIPV6) in
          if supportIPv4 && str_empty (cn_IP cn) then false
          else if supportIPv6 && str_empty (cn_IP6 cn) then false
          else true
      end
  end.

Definition ExcludeInvalidItems (clusters : list Cluster) (clusterNodes : list ClusterNode)
    : list Cluster * list ClusterNode :=
  let cs := List.filter cluster_valid clusters in
  (cs, List.filter (node_valid (buildClustersMap cs)) clusterNodes).

(** * The invariant *)

(** The options of the cluster a node belongs to. *)
Definition opts_of (f : Filter) (n : ClusterNode) : option ClusterLinkOptions :=
  c ← GetClusterByName f (cn_ClusterName n); c_ClusterLinkOptions c.

(** Every node belongs to a cluster of the filter with ClusterLink options, and
the clusters of the list are those of the map. *)
Definition filter_ok (f : Filter) : Prop :=
  (forall n, n ∈ f_clusterNodes f ->
     exists c o, GetClusterByName f (cn_ClusterName n) = Some c /\ c_ClusterLinkOptions c = Some o) /\
  (forall name c, GetClusterByName f name = Some c -> c_Name c = name /\ c ∈ f_clusters f).

Lemma buildClustersMap_snoc cs c : buildClustersMap (cs ++ [c]) = <[c_Name c := c]> (buildClustersMap cs).
Proof. unfold buildClustersMap. by rewrite fold_left_app. Qed.

Lemma buildClustersMap_Some cs name c :
  buildClustersMap cs !! name = Some c -> c_Name c = name /\ c ∈ cs.
Proof.
  induction cs as [|x cs IH] using rev_ind; [done|].
  rewrite buildClustersMap_snoc. destruct (decide (c_Name x = name)) as [<-|Hne].
  - rewrite lookup_insert_eq. intros [= ->]. set_solver.
  - rewrite lookup_insert_ne by done. intros H%IH. set_solver.
Qed.

Lemma ExcludeInvalidItems_filter_ok clusters nodes configs cs cns :
  ExcludeInvalidItems clusters nodes = (cs, cns) -> filter_ok (NewFilter cs cns configs).
Proof.
  intros [= <- <-]. unfold filter_ok, GetClusterByName; simpl. split.
  - intros n [_ Hv]%list_filter_spec. unfold node_valid in Hv.
    destruct (str_empty _); [done|]. destruct (str_empty _); [done|].
    destruct (_ !! _) as [c|]; [|done]. destruct (c_ClusterLinkOptions c) eqn:E; [|done]. eauto.
  - apply buildClustersMap_Some.
Qed.

(** ** Mode and family of a node, for a filter that is well formed *)

Definition node_cluster (f : Filter) (n : ClusterNode) : Cluster :=
  default (mkCluster "" None [] []) (GetClusterByName f (cn_ClusterName n)).

Definition node_opts (f : Filter) (n : ClusterNode) : ClusterLinkOptions :=
  default (mkLinkOptions false "" "" "" false (mkVxlanCIDRs "" "") (mkVxlanCIDRs "" "") [] "" ∅ "")
          (opts_of f n).

Definition supports4 (o : ClusterLinkOptions) : bool :=
  (lo_IPFamily o =s IPFamilyTypeALL) || (lo_IPFamily o =s IPFamilyTypeIPV4).
Definition supports6 (o : ClusterLinkOptions) : bool :=
  (lo_IPFamily o =s IPFamilyTypeALL) || (lo_IPFamily o =s IPFamilyTypeIPV6).

Section Ok.
Context (f : Filter) (Hf : filter_ok f).

Lemma get_cluster n : n ∈ f_clusterNodes f ->
  GetClusterByName f (cn_ClusterName n) = Some (node_cluster f n) /\
  c_ClusterLinkOptions (node_cluster f n) = Some (node_opts f n).
Proof.
  intros Hn. destruct (proj1 Hf n Hn) as (c & o & Hc & Ho).
  unfold node_cluster, node_opts, opts_of. rewrite Hc. simpl. by rewrite Ho.
Qed.

Lemma GetInternalNodes_ok :
  GetInternalNodes f =
  Ret (List.filter (fun n => Cluster_IsGateway (node_cluster f n) && negb (ClusterNode_IsGateway n)) (f_clusterNodes f)).
Proof. apply filterM_pure. intros n Hn. by rewrite (proj1 (get_cluster n Hn)). Qed.

Lemma GetEndpointNodes_ok :
  GetEndpointNodes f =
  Ret (List.filter (fun n => Cluster_IsP2P (node_cluster f n) && negb (ClusterNode_IsGateway n)) (f_clusterNodes f)).
Proof. apply filterM_pure. intros n Hn. by rewrite (proj1 (get_cluster n Hn)). Qed.

Lemma GetInternalNodesByClusterName_ok name :
  GetInternalNodesByClusterName f name =
  Ret (List.filter (fun n => negb (Cluster_IsP2P (node_cluster f n)) && ((cn_ClusterName n =s name) &&
         negb (ClusterNode_IsGateway n))) (f_clusterNodes f)).
Proof.
  apply filterM_pure. intros n Hn. rewrite (proj1 (get_cluster n Hn)). cbn.
  by destruct (Cluster_IsP2P _).
Qed.

Lemma SupportIPv4_ok n : n ∈ f_clusterNodes f -> SupportIPv4 f n = Ret (supports4 (node_opts f n)).
Proof.
  intros Hn. destruct (get_cluster n Hn) as [Hc Ho]. unfold SupportIPv4.
  rewrite Hc. cbn. by rewrite Ho.
Qed.

Lemma SupportIPv6_ok n : n ∈ f_clusterNodes f -> SupportIPv6 f n = Ret (supports6 (node_opts f n)).
Proof.
  intros Hn. destruct (get_cluster n Hn) as [Hc Ho]. unfold SupportIPv6.
  rewrite Hc. cbn. by rewrite Ho.
Qed.

Lemma GetGatewayNodeByClusterName_Some name g :
  GetGatewayNodeByClusterName f name = Some g ->
  g ∈ f_clusterNodes f /\ cn_ClusterName g = name /\ ClusterNode_IsGateway g = true.
Proof.
  intros [Hg Hp]%first_Some. breflect. done.
Qed.

Lemma GetGatewayNodes_elem g : g ∈ GetGatewayNodes f -> g ∈ f_clusterNodes f /\ ClusterNode_IsGateway g = true.
Proof.
  intros (c & _ & Hg)%elem_of_collect. apply GetGatewayNodeByClusterName_Some in Hg. naive_solver.
Qed.

Lemma GetGatewayClusterNodes_elem n : n ∈ GetGatewayClusterNodes f -> n ∈ f_clusterNodes f.
Proof.
  unfold GetGatewayClusterNodes. rewrite list_elem_of_In, in_flat_map.
  intros (c & _ & Hn). destruct (Cluster_IsGateway c); [|done].
  apply list_elem_of_In, list_filter_spec in Hn. naive_solver.
Qed.

End Ok.

#[export] Hint Resolve GetGatewayClusterNodes_elem : kosmos.
