(* ===== verification/LinkHandlers.v ===== *)
(** The chain of handlers that calculates the network configuration of every
node: [pkg/clusterlink/network-manager/handlers].  Each handler's [Do] is a
definition over the [Context] (the filter and the results, keyed by node name);
a nil dereference is a [Panic].  Go iterates over a map in an unspecified order
and [GenerateMac] reads random bytes: both are arguments ([range], [rand]). *)
From S2P Require Import Prelude GoNet LinkApi LinkVxlan LinkFilter.

Record Context := mkContext {
  ctx_Filter : Filter;
  ctx_Results : gmap string NodeConfig;
  ctx_draws : nat }.   (* the number of MAC addresses generated so far *)

(** * Updates of the results *)

Definition set_Results (c : Context) (r : gmap string NodeConfig) : Context :=
  mkContext (ctx_Filter c) r (ctx_draws c).

(** [c.Results[name].X = append(c.Results[name].X, xs...)]; a missing entry is a
nil pointer. *)
Definition update (g : NodeConfig -> NodeConfig) (name : string) (c : Context) : outcome Context :=
  nc ← deref (ctx_Results c !! name);
  Ret (set_Results c (<[name := g nc]> (ctx_Results c))).

Definition add_Devices (l : list Device) (n : NodeConfig) : NodeConfig :=
  mkNodeConfig (nc_Devices n ++ l) (nc_Routes n) (nc_Iptables n) (nc_Fdbs n) (nc_Arps n).
Definition add_Routes (l : list Route) (n : NodeConfig) : NodeConfig :=
  mkNodeConfig (nc_Devices n) (nc_Routes n ++ l) (nc_Iptables n) (nc_Fdbs n) (nc_Arps n).
Definition add_Iptables (l : list Iptables) (n : NodeConfig) : NodeConfig :=
  mkNodeConfig (nc_Devices n) (nc_Routes n) (nc_Iptables n ++ l) (nc_Fdbs n) (nc_Arps n).
Definition add_Fdbs (l : list Fdb) (n : NodeConfig) : NodeConfig :=
  mkNodeConfig (nc_Devices n) (nc_Routes n) (nc_Iptables n) (nc_Fdbs n ++ l) (nc_Arps n).
Definition add_Arps (l : list Arp) (n : NodeConfig) : NodeConfig :=
  mkNodeConfig (nc_Devices n) (nc_Routes n) (nc_Iptables n) (nc_Fdbs n) (nc_Arps n ++ l).

(** [Context.GetDeviceFromResults] *)
Definition GetDeviceFromResults (c : Context) (nodeName devName : string) : option Device :=
  config ← ctx_Results c !! nodeName;
  first (fun dev => dev_Name dev =s devName) (nc_Devices config).

(** * The handlers *)

(** [handlers.Handler]: the context and the error it returns. *)
Definition Handler : Type := Context -> outcome (Context * option string).

(** [Next.Run] along the chain that [SetNext] builds. *)
Fixpoint Run (chain : list Handler) (c : Context) : outcome (Context * option string) :=
  match chain with
  | [] => Ret (c, None)
  | h :: chain' =>
      r ← h c;
      match snd r with
      | Some err => Ret (fst r, Some err)
      | None => Run chain' (fst r)
      end
  end.

Definition nil_err (m : outcome Context) : outcome (Context * option string) :=
  c ← m; Ret (c, None).

Section Handlers.
Context (rand : nat -> option (list Z)) (range : gmap string string -> list (string * string)).

Definition InitNodes_Do : Handler := fun c =>
  nil_err (Ret (set_Results c
    (fold_left (fun m n => <[cn_Name n := emptyNodeConfig]> m) (GetClusterNodes (ctx_Filter c)) ∅))).

(** The four [createVx...] functions: the device is built from the node's
address; a device the node already has keeps its MAC address. *)
Definition createVx (devName underlayIP cidr : string) (c : Context) (clusterNode : ClusterNode)
    : outcome (Context * option Device) :=
  let devOld := GetDeviceFromNodeConfig (ctx_Filter c) (cn_Name clusterNode) devName in
  dev ← BuildVxlanDevice (rand (ctx_draws c)) devName underlayIP cidr (cn_InterfaceName clusterNode);
  let c := match dev with
           | Some _ => mkContext (ctx_Filter c) (ctx_Results c) (S (ctx_draws c))
           | None => c
           end in
  match devOld with
  | Some old =>
      if negb (str_empty (dev_Mac old)) then
        d ← deref dev;
        Ret (c, Some (mkDevice (dev_Type d) (dev_Name d) (dev_Addr d) (dev_Mac old)
                               (dev_BindDev d) (dev_ID d) (dev_Port d)))
      else Ret (c, dev)
  | None => Ret (c, dev)
  end.

(** [if need { dev := create(); if dev != nil { append } }] *)
Definition add_device (need : outcome bool) (create : Context -> ClusterNode -> outcome (Context * option Device))
    (c : Context) (node : ClusterNode) : outcome Context :=
  b ← need;
  if (b : bool) then
    r ← create c node;
    match snd r with
    | Some dev => update (add_Devices [dev]) (cn_Name node) (fst r)
    | None => Ret (fst r)
    end
  else Ret c.

Definition needToCreate (support : outcome bool) (ip cidr : string) : outcome bool :=
  s ← support; Ret (s && negb (str_empty ip) && negb (str_empty cidr)).

Definition VxLocalNetwork_Do : Handler := fun c =>
  nil_err (foldM (fun c node =>
    let f := ctx_Filter c in
    cluster ← deref (GetClusterByName f (cn_ClusterName node));
    o ← deref (c_ClusterLinkOptions cluster);
    c ← add_device (needToCreate (SupportIPv4 f node) (cn_IP node) (vx_IP (lo_LocalCIDRs o)))
          (createVx VXLAN_LOCAL_NAME (cn_IP node) (vx_IP (lo_LocalCIDRs o))) c node;
    add_device (needToCreate (SupportIPv6 f node) (cn_IP6 node) (vx_IP6 (lo_LocalCIDRs o)))
          (createVx VXLAN_LOCAL_NAME_6 (cn_IP6 node) (vx_IP6 (lo_LocalCIDRs o))) c node)
    (GetGatewayClusterNodes (ctx_Filter c)) c).

(** [append(gwNodes, epNodes...)], the nodes that have a bridge. *)
Definition bridge_nodes (f : Filter) : outcome (list ClusterNode) :=
  epNodes ← GetEndpointNodes f; Ret (GetGatewayNodes f ++ epNodes).

Definition VxBridgeNetwork_Do : Handler := fun c =>
  nodes ← bridge_nodes (ctx_Filter c);
  nil_err (foldM (fun c node =>
    let f := ctx_Filter c in
    cluster ← deref (GetClusterByName f (cn_ClusterName node));
    o ← deref (c_ClusterLinkOptions cluster);
    c ← add_device (needToCreate (SupportIPv4 f node) (cn_IP node) (vx_IP (lo_BridgeCIDRs o)))
          (createVx VXLAN_BRIDGE_NAME (cn_IP node) (vx_IP (lo_BridgeCIDRs o))) c node;
    add_device (needToCreate (SupportIPv6 f node) (cn_IP6 node) (vx_IP6 (lo_BridgeCIDRs o)))
          (createVx VXLAN_BRIDGE_NAME_6 (cn_IP6 node) (vx_IP6 (lo_BridgeCIDRs o))) c node)
    nodes c).

(** ** Routes *)

Definition convertIPFamilyTypeToIPType (familyType : string) : IPType :=
  if familyType =s IPFamilyTypeIPV4 then IPV4 else IPV6.

Definition FilterByIPFamily (cidrs : list string) (familyType : string) : list string :=
  if familyType =s IPFamilyTypeALL then cidrs
  else List.filter (fun cidr => bool_decide (GetIPType cidr = convertIPFamilyTypeToIPType familyType)) cidrs.

Definition ConvertToGlobalCIDRs (cidrs : list string) (globalCIDRMap : gmap string string) : list string :=
  if Nat.eqb (size globalCIDRMap) 0 then cidrs
  else map (fun cidr => match globalCIDRMap !! cidr with Some dst => dst | None => cidr end) cidrs.

Definition ifCIDRConflictWithSelf (selfCIDRs : list string) (tarCIDR : string) : bool :=
  any (fun cidr => Intersect cidr tarCIDR) selfCIDRs.

Definition SupportIPType (cluster : Cluster) (ipType : IPType) : outcome bool :=
  o ← deref (c_ClusterLinkOptions cluster);
  Ret (if lo_IPFamily o =s IPFamilyTypeALL then true
       else bool_decide (convertIPFamilyTypeToIPType (lo_IPFamily o) = ipType)).

Definition vxBridge_name (t : IPType) : string :=
  match t with IPV6 => VXLAN_BRIDGE_NAME_6 | IPV4 => VXLAN_BRIDGE_NAME | IPUnknown => "" end.
Definition vxLocal_name (t : IPType) : string :=
  match t with IPV6 => VXLAN_LOCAL_NAME_6 | IPV4 => VXLAN_LOCAL_NAME | IPUnknown => "" end.

(** The body of the inner loop of [BuildRoutes]: the route to [cidr] that node [n]
gets, [None] when the loop continues without one. *)
Definition route_of (ctx : Context) (cidr : string) (targetIP : IP) (n : ClusterNode)
    : outcome (option Route) :=
  let ipType := GetIPType cidr in
  srcCluster ← deref (GetClusterByName (ctx_Filter ctx) (cn_ClusterName n));
  supported ← SupportIPType srcCluster ipType;
  if negb supported then Ret None
  else if ifCIDRConflictWithSelf (c_PodCIDRs srcCluster ++ c_ServiceCIDRs srcCluster) cidr then Ret None
  else if ClusterNode_IsGateway n || Cluster_IsP2P srcCluster then
    Ret (Some (mkRoute cidr (IP_String targetIP) (vxBridge_name ipType)))
  else match GetGatewayNodeByClusterName (ctx_Filter ctx) (cn_ClusterName n) with
  | None => Ret None
  | Some gw =>
      match GetDeviceFromResults ctx (cn_Name gw) (vxLocal_name ipType) with
      | None => Ret None
      | Some gwDev =>
          match ParseCIDR (dev_Addr gwDev) with
          | None => Ret None
          | Some (gwIP, _) => Ret (Some (mkRoute cidr (IP_String gwIP) (vxLocal_name ipType)))
          end
      end
  end.

Definition BuildRoutes (ctx : Context) (target : ClusterNode) (cidrs : list string) : outcome Context :=
  let otherClusterNodes := GetAllNodesExceptCluster (ctx_Filter ctx) (cn_ClusterName target) in
  foldM (fun ctx cidr =>
    match GetDeviceFromResults ctx (cn_Name target) (vxBridge_name (GetIPType cidr)) with
    | None => Ret ctx
    | Some targetDev =>
        match ParseCIDR (dev_Addr targetDev) with
        | None => Ret ctx
        | Some (targetIP, _) =>
            foldM (fun ctx n =>
              r ← route_of ctx cidr targetIP n;
              match r with
              | None => Ret ctx
              | Some r => update (add_Routes [r]) (cn_Name n) ctx
              end) otherClusterNodes ctx
        end
    end) cidrs ctx.

Definition ServiceRoutes_Do : Handler := fun c =>
  nil_err (foldM (fun c target =>
    cluster ← deref (GetClusterByName (ctx_Filter c) (cn_ClusterName target));
    o ← deref (c_ClusterLinkOptions cluster);
    let serviceCIDRs := FilterByIPFamily (c_ServiceCIDRs cluster) (lo_IPFamily o) in
    let serviceCIDRs := ConvertToGlobalCIDRs serviceCIDRs (lo_GlobalCIDRsMap o) in
    BuildRoutes c target serviceCIDRs)
    (GetGatewayNodes (ctx_Filter c)) c).

Definition PodRoutes_Do : Handler := fun c =>
  nodes ← bridge_nodes (ctx_Filter c);
  nil_err (foldM (fun c target =>
    cluster ← deref (GetClusterByName (ctx_Filter c) (cn_ClusterName target));
    o ← deref (c_ClusterLinkOptions cluster);
    let podCIDRs := if Cluster_IsP2P cluster then cn_PodCIDRs target else c_PodCIDRs cluster in
    let podCIDRs := FilterByIPFamily podCIDRs (lo_IPFamily o) in
    let podCIDRs := ConvertToGlobalCIDRs podCIDRs (lo_GlobalCIDRsMap o) in
    BuildRoutes c target podCIDRs)
    nodes c).

(** ** Forwarding and neighbour entries *)

Definition getSupportIPTypes (node : ClusterNode) (c : Context) : outcome (list string) :=
  supportIPv4 ← SupportIPv4 (ctx_Filter c) node;
  supportIPv6 ← SupportIPv6 (ctx_Filter c) node;
  Ret ((if (supportIPv4 : bool) then [IPFamilyTypeIPV4] else []) ++
       (if (supportIPv6 : bool) then [IPFamilyTypeIPV6] else [])).

(** [buildVxLocalCachesByNode]: [None] stands for a non-nil error. *)
Definition buildVxLocalCachesByNode (c : Context) (ipType : string) (node : ClusterNode)
    : option (list Fdb * list Arp) :=
  let '(devName, hostIP) :=
    if ipType =s IPFamilyTypeIPV4 then (VXLAN_LOCAL_NAME, cn_IP node)
    else if ipType =s IPFamilyTypeIPV6 then (VXLAN_LOCAL_NAME_6, cn_IP6 node)
    else ("", "") in
  dev ← GetDeviceFromResults c (cn_Name node) devName;
  '(devIP, _) ← ParseCIDR (dev_Addr dev);
  Some ([mkFdb hostIP ALL_ZERO_MAC devName; mkFdb hostIP (dev_Mac dev) devName],
        [mkArp (IP_String devIP) (dev_Mac dev) devName]).

Definition add_caches (name : string) (fdb : list Fdb) (arp : list Arp) (c : Context) : outcome Context :=
  c ← update (add_Fdbs fdb) name c;
  update (add_Arps arp) name c.

Definition VxLocalMacCache_Do : Handler := fun c =>
  nodes ← GetInternalNodes (ctx_Filter c);
  c ← foldM (fun c node =>
    ipTypes ← getSupportIPTypes node c;
    match GetGatewayNodeByClusterName (ctx_Filter c) (cn_ClusterName node) with
    | None => Ret c
    | Some gw =>
        foldM (fun c ipType =>
          match buildVxLocalCachesByNode c ipType gw with
          | None => Ret c
          | Some (fdb, arp) => add_caches (cn_Name node) fdb arp c
          end) ipTypes c
    end) nodes c;
  nil_err (foldM (fun c src =>
    ipTypes ← getSupportIPTypes src c;
    internalNodes ← GetInternalNodesByClusterName (ctx_Filter c) (cn_ClusterName src);
    let caches := collect (fun p => buildVxLocalCachesByNode c (snd p) (fst p))
                    (flat_map (fun tar => map (fun ipType => (tar, ipType)) ipTypes) internalNodes) in
    add_caches (cn_Name src) (concat (map fst caches)) (concat (map snd caches)) c)
    (GetGatewayNodes (ctx_Filter c)) c).

(** The entries for one peer [tar] and one address family. The forwarding entries
stay when the address of the peer's device does not parse. *)
Definition bridge_caches (c : Context) (tar : ClusterNode) (ipType : string) : list Fdb * list Arp :=
  let '(tarDevName, tarIP) :=
    if ipType =s IPFamilyTypeIPV4 then (VXLAN_BRIDGE_NAME, cn_IP tar)
    else if ipType =s IPFamilyTypeIPV6 then (VXLAN_BRIDGE_NAME_6, cn_IP6 tar)
    else ("", "") in
  match GetDeviceFromResults c (cn_Name tar) tarDevName with
  | None => ([], [])
  | Some tarDev =>
      ([mkFdb tarIP ALL_ZERO_MAC tarDevName; mkFdb tarIP (dev_Mac tarDev) tarDevName],
       match ParseCIDR (dev_Addr tarDev) with
       | None => []
       | Some (tarDevIP, _) => [mkArp (IP_String tarDevIP) (dev_Mac tarDev) tarDevName]
       end)
  end.

Definition VxBridgeMacCache_Do : Handler := fun c =>
  nodes ← bridge_nodes (ctx_Filter c);
  nil_err (foldM (fun c src =>
    sIPv4 ← SupportIPv4 (ctx_Filter c) src;
    sIPv6 ← SupportIPv6 (ctx_Filter c) src;
    caches ← foldM (fun acc tar =>
      if cn_Name src =s cn_Name tar then Ret acc
      else
        tIPv4 ← SupportIPv4 (ctx_Filter c) tar;
        tIPv6 ← SupportIPv6 (ctx_Filter c) tar;
        let ipTypes := (if (sIPv4 && tIPv4 : bool) then [IPFamilyTypeIPV4] else []) ++
                       (if (sIPv6 && tIPv6 : bool) then [IPFamilyTypeIPV6] else []) in
        Ret (acc ++ map (bridge_caches c tar) ipTypes)) nodes [];
    add_caches (cn_Name src) (concat (map fst caches)) (concat (map snd caches)) c) nodes c).

(** ** Iptables *)

Definition masquerade_rules (local bridge vxBridge : string) : list Iptables :=
  [mkIptables "nat" IPTablesPostRoutingChain ("-s " +:+ local +:+ " -o " +:+ vxBridge +:+ " -j MASQUERADE");
   mkIptables "nat" IPTablesPostRoutingChain ("-s " +:+ bridge +:+ " -j MASQUERADE")].

Definition HostNetwork_Do : Handler := fun c =>
  nil_err (foldM (fun c n =>
    let f := ctx_Filter c in
    cluster ← deref (GetClusterByName f (cn_ClusterName n));
    if Cluster_IsP2P cluster then Ret c
    else
      s4 ← SupportIPv4 f n;
      s6 ← SupportIPv6 f n;
      o ← deref (c_ClusterLinkOptions cluster);
      c ← (if (s4 : bool) then
             update (add_Iptables (masquerade_rules (vx_IP (lo_LocalCIDRs o)) (vx_IP (lo_BridgeCIDRs o))
                                     VXLAN_BRIDGE_NAME)) (cn_Name n) c
           else Ret c);
      if (s6 : bool) then
        update (add_Iptables (masquerade_rules (vx_IP6 (lo_LocalCIDRs o)) (vx_IP6 (lo_BridgeCIDRs o))
                                VXLAN_BRIDGE_NAME_6)) (cn_Name n) c
      else Ret c)
    (GetGatewayNodes (ctx_Filter c)) c).

(** The rules for one entry of [GlobalCIDRsMap]. *)
Definition global_rules (src dst : string) : list Iptables :=
  let vxBridge := vxBridge_name (GetIPType src) in
  mkIptables "nat" IPTablesPreRoutingChain
    ("-d " +:+ dst +:+ " -i " +:+ vxBridge +:+ " -j NETMAP --to " +:+ src) ::
  match ParseCIDR dst with
  | None => []
  | Some (_, dstIP) =>
      [mkIptables "nat" IPTablesPostRoutingChain
         ("-s " +:+ src +:+ " -o " +:+ vxBridge +:+ " -j SNAT --to-source " +:+ IP_String (net_IP dstIP))]
  end.

Definition GlobalMap_Do : Handler := fun c =>
  nodes ← bridge_nodes (ctx_Filter c);
  nil_err (foldM (fun c n =>
    cluster ← deref (GetClusterByName (ctx_Filter c) (cn_ClusterName n));
    o ← deref (c_ClusterLinkOptions cluster);
    foldM (fun c sd => update (add_Iptables (global_rules (fst sd) (snd sd))) (cn_Name n) c)
          (range (lo_GlobalCIDRsMap o)) c) nodes c).

(** The chain of [CalculateNetworkConfigs]. *)
Definition handler_chain : list Handler :=
  [InitNodes_Do; VxLocalNetwork_Do; VxBridgeNetwork_Do; ServiceRoutes_Do; PodRoutes_Do;
   VxLocalMacCache_Do; VxBridgeMacCache_Do; HostNetwork_Do; GlobalMap_Do].

End Handlers.
