(* ===== verification/LinkEffects.v ===== *)
(** The effect of the handlers that follow the device handlers, as a calculus: a
handler appends to the configurations of some nodes and reads only the filter
and the devices, so its effect is a [delta], what it appends to every node, and
the effect of a loop is the sum of the effects of its iterations. *)
From S2P Require Import Prelude GoNet LinkApi LinkVxlan LinkFilter LinkHandlers.

(** * Appending configurations *)

Definition nc_app (a b : NodeConfig) : NodeConfig :=
  mkNodeConfig (nc_Devices a ++ nc_Devices b) (nc_Routes a ++ nc_Routes b)
    (nc_Iptables a ++ nc_Iptables b) (nc_Fdbs a ++ nc_Fdbs b) (nc_Arps a ++ nc_Arps b).

Lemma nc_app_nil_r a : nc_app a emptyNodeConfig = a.
Proof. destruct a. unfold nc_app; simpl. by rewrite !app_nil_r. Qed.

Lemma nc_app_nil_l a : nc_app emptyNodeConfig a = a.
Proof. by destruct a. Qed.

Lemma nc_app_assoc a b c : nc_app a (nc_app b c) = nc_app (nc_app a b) c.
Proof. unfold nc_app; simpl. by rewrite !app_assoc. Qed.

(** What is appended to each node, by name. *)
Definition delta : Type := string -> NodeConfig.

Definition d_none : delta := fun _ => emptyNodeConfig.
Definition d_at (name : string) (d : NodeConfig) : delta :=
  fun k => if decide (k = name) then d else emptyNodeConfig.
Definition d_app (d1 d2 : delta) : delta := fun k => nc_app (d1 k) (d2 k).
Definition d_sum {A} (d : A -> delta) (l : list A) : delta :=
  fun k => foldr nc_app emptyNodeConfig (map (fun x => d x k) l).

(** No handler of this kind adds a device. *)
Definition no_dev (d : delta) : Prop := forall k, nc_Devices (d k) = [].

Definition d_routes (l : list Route) : NodeConfig := mkNodeConfig [] l [] [] [].
Definition d_iptables (l : list Iptables) : NodeConfig := mkNodeConfig [] [] l [] [].
Definition d_caches (f : list Fdb) (a : list Arp) : NodeConfig := mkNodeConfig [] [] [] f a.

Lemma no_dev_none : no_dev d_none. Proof. done. Qed.
Lemma no_dev_app d1 d2 : no_dev d1 -> no_dev d2 -> no_dev (d_app d1 d2).
Proof. intros H1 H2 k. simpl. by rewrite H1, H2. Qed.
Lemma no_dev_at name d : nc_Devices d = [] -> no_dev (d_at name d).
Proof. intros H k. unfold d_at. by case_decide. Qed.
Lemma no_dev_sum {A} (d : A -> delta) l : (forall x, x ∈ l -> no_dev (d x)) -> no_dev (d_sum d l).
Proof.
  intros H k. unfold d_sum. induction l as [|x l IH]; [done|]. simpl.
  rewrite (H x) by by left. rewrite IH; [done|]. intros y Hy. apply H. by right.
Qed.
#[export] Hint Resolve no_dev_none no_dev_app no_dev_at no_dev_sum : kosmos.

(** Membership in a component of a sum. *)
Class Component {B : Type} (proj : NodeConfig -> list B) : Prop := {
  comp_app : forall a b, proj (nc_app a b) = proj a ++ proj b;
  comp_empty : proj emptyNodeConfig = [] }.
#[export] Instance Component_Devices : Component nc_Devices. Proof. done. Qed.
#[export] Instance Component_Routes : Component nc_Routes. Proof. done. Qed.
#[export] Instance Component_Iptables : Component nc_Iptables. Proof. done. Qed.
#[export] Instance Component_Fdbs : Component nc_Fdbs. Proof. done. Qed.
#[export] Instance Component_Arps : Component nc_Arps. Proof. done. Qed.

Lemma elem_d_sum `{Component B proj} {A} (d : A -> delta) l k y :
  y ∈ proj (d_sum d l k) <-> exists x, x ∈ l /\ y ∈ proj (d x k).
Proof.
  unfold d_sum. induction l as [|x l IH]; simpl.
  - rewrite comp_empty. split; [by intros ?%elem_of_nil | intros (? & ?%elem_of_nil & _); done].
  - rewrite comp_app, elem_of_app, IH. setoid_rewrite elem_of_cons. naive_solver.
Qed.

Lemma elem_d_app `{Component B proj} d1 d2 k y :
  y ∈ proj (d_app d1 d2 k) <-> y ∈ proj (d1 k) \/ y ∈ proj (d2 k).
Proof. unfold d_app. by rewrite comp_app, elem_of_app. Qed.

Lemma elem_d_at `{Component B proj} name d k y :
  y ∈ proj (d_at name d k) <-> k = name /\ y ∈ proj d.
Proof.
  unfold d_at. case_decide; [naive_solver|]. rewrite comp_empty.
  split; [by intros ?%elem_of_nil | naive_solver].
Qed.

(** A component an effect leaves alone. *)
Definition silent {B} (proj : NodeConfig -> list B) (d : delta) : Prop := forall k, proj (d k) = [].

Lemma silent_none `{Component B proj} : silent proj d_none.
Proof. intros k. apply comp_empty. Qed.
Lemma silent_app `{Component B proj} d1 d2 : silent proj d1 -> silent proj d2 -> silent proj (d_app d1 d2).
Proof. intros H1 H2 k. unfold d_app. by rewrite comp_app, H1, H2. Qed.
Lemma silent_at `{Component B proj} name d : proj d = [] -> silent proj (d_at name d).
Proof. intros E k. unfold d_at. case_decide; [done|apply comp_empty]. Qed.
Lemma silent_sum `{Component B proj} {A} (d : A -> delta) l : (forall x, silent proj (d x)) -> silent proj (d_sum d l).
Proof.
  intros Hd k. unfold d_sum. induction l as [|x l IH]; simpl; [apply comp_empty|].
  by rewrite comp_app, Hd, IH.
Qed.
#[export] Hint Resolve silent_none silent_app silent_at silent_sum : kosmos.

(** * Contexts that the reading side cannot tell apart *)

Definition view (c c' : Context) : Prop :=
  ctx_Filter c' = ctx_Filter c /\ ctx_draws c' = ctx_draws c /\
  forall k, nc_Devices <$> ctx_Results c' !! k = nc_Devices <$> ctx_Results c !! k.

#[export] Instance view_equiv : Equivalence view.
Proof.
  split.
  - intros c. by repeat split.
  - intros c c' (H1 & H2 & H3). by repeat split.
  - intros c1 c2 c3 (H1 & H2 & H3) (H4 & H5 & H6). repeat split; [congruence..|].
    intros k. by rewrite H6.
Qed.

Lemma view_dom c c' k : view c c' -> is_Some (ctx_Results c !! k) -> is_Some (ctx_Results c' !! k).
Proof.
  intros (_ & _ & H) [x Hx]. specialize (H k). rewrite Hx in H. simpl in H.
  destruct (ctx_Results c' !! k); [eauto|done].
Qed.

#[export] Instance GetDeviceFromResults_proper : Proper (view ==> (=) ==> (=) ==> (=)) GetDeviceFromResults.
Proof.
  intros c c' (_ & _ & H) k ? <- d ? <-. unfold GetDeviceFromResults. specialize (H k).
  destruct (ctx_Results c !! k), (ctx_Results c' !! k); simpl in *; congruence.
Qed.

(** [applies d c c']: [c'] is [c] with [d] appended. *)
Definition applies (d : delta) (c c' : Context) : Prop :=
  ctx_Filter c' = ctx_Filter c /\ ctx_draws c' = ctx_draws c /\
  forall k, ctx_Results c' !! k = (fun nc => nc_app nc (d k)) <$> ctx_Results c !! k.

Lemma applies_view d c c' : no_dev d -> applies d c c' -> view c c'.
Proof.
  intros Hd (H1 & H2 & H3). repeat split; [done..|]. intros k. rewrite H3.
  destruct (ctx_Results c !! k); [|done]. simpl. by rewrite Hd, app_nil_r.
Qed.

Lemma applies_none c : applies d_none c c.
Proof.
  repeat split. intros k. unfold d_none. destruct (ctx_Results c !! k); [|done].
  simpl. by rewrite nc_app_nil_r.
Qed.

Lemma applies_app d1 d2 c1 c2 c3 :
  applies d1 c1 c2 -> applies d2 c2 c3 -> applies (d_app d1 d2) c1 c3.
Proof.
  intros (F1 & D1 & H1) (F2 & D2 & H2). repeat split; [congruence..|].
  intros k. rewrite H2, H1. destruct (ctx_Results c1 !! k); [|done]. simpl.
  by rewrite <- nc_app_assoc.
Qed.

Lemma applies_ext d d' c c' : (forall k, d k = d' k) -> applies d c c' -> applies d' c c'.
Proof. intros E (H1 & H2 & H3). repeat split; [done..|]. intros k. by rewrite <- E. Qed.

(** [runs m d c]: [m] returns [c] with [d] appended. *)
Definition runs (m : outcome Context) (d : delta) (c : Context) : Prop :=
  exists c', m = Ret c' /\ applies d c c'.

Lemma runs_ret c : runs (Ret c) d_none c.
Proof. exists c. split; [done|apply applies_none]. Qed.

Lemma runs_update g d name c :
  (forall nc, g nc = nc_app nc d) -> is_Some (ctx_Results c !! name) ->
  runs (update g name c) (d_at name d) c.
Proof.
  intros Hg [nc Hnc]. unfold update. rewrite Hnc. eexists. split; [done|].
  repeat split. intros k. simpl. unfold d_at. case_decide; subst.
  - by rewrite lookup_insert_eq, Hnc, Hg.
  - rewrite lookup_insert_ne by done. destruct (ctx_Results c !! k); simpl; by rewrite ?nc_app_nil_r.
Qed.

Lemma runs_bind m f d1 d2 c :
  runs m d1 c -> no_dev d1 -> (forall c', view c c' -> runs (f c') d2 c') ->
  runs (m ≫= f) (d_app d1 d2) c.
Proof.
  intros (c1 & -> & H1) Hd Hf. destruct (Hf c1) as (c2 & H2 & H3); [by eapply applies_view|].
  exists c2. split; [done|]. by eapply applies_app.
Qed.

Lemma runs_foldM {A} (f : Context -> A -> outcome Context) (d : A -> delta) l c :
  (forall x, x ∈ l -> no_dev (d x)) ->
  (forall x c', x ∈ l -> view c c' -> runs (f c' x) (d x) c') ->
  runs (foldM f l c) (d_sum d l) c.
Proof.
  revert c. induction l as [|x l IH]; intros c Hd Hf; [apply runs_ret|]. simpl.
  destruct (Hf x c) as (c1 & E1 & H1); [by left|done|]. rewrite E1.
  assert (view c c1) as V1 by (eapply applies_view; [apply Hd; by left|done]).
  destruct (IH c1) as (c2 & E2 & H2).
  - intros y Hy. apply Hd. by right.
  - intros y c' Hy V. apply Hf; [by right|]. by transitivity c1.
  - exists c2. split; [done|].
    eapply applies_ext; [|by eapply applies_app]. done.
Qed.

Lemma runs_nil_err m d c : runs m d c -> exists c', nil_err m = Ret (c', None) /\ applies d c c'.
Proof. intros (c' & -> & H). exists c'. done. Qed.

Lemma runs_ext m d d' c : (forall k, d k = d' k) -> runs m d c -> runs m d' c.
Proof. intros E (c' & -> & H). exists c'. split; [done|]. by eapply applies_ext. Qed.

(** * Chains of such handlers *)

(** [ok] is the condition on the context under which the handler does not panic. *)
Class Effect (ok : Context -> Prop) (h : Handler) (d : Context -> delta) : Prop := {
  effect_runs : forall c, ok c -> exists c', h c = Ret (c', None) /\ applies (d c) c c';
  effect_view : forall c c' k, view c c' -> d c k = d c' k;
  effect_no_dev : forall c, no_dev (d c) }.

Definition d_seq (ds : list (Context -> delta)) (c : Context) : delta := d_sum (fun d => d c) ds.

Lemma Run_effects ok hs ds c :
  (forall c c', view c c' -> ok c -> ok c') -> Forall2 (Effect ok) hs ds -> ok c ->
  exists c', Run hs c = Ret (c', None) /\ applies (d_seq ds c) c c'.
Proof.
  intros Hok Hf. revert c. induction Hf as [|h d hs ds He Hf IH]; intros c Hc.
  - exists c. split; [done|apply applies_none].
  - destruct (effect_runs c Hc) as (c1 & E1 & H1). cbn [Run]. rewrite E1. cbn [mbind outcome_bind snd fst].
    assert (V : view c c1) by (eapply applies_view; [apply effect_no_dev|done]).
    destruct (IH c1) as (c2 & E2 & H2); [by eapply Hok|]. exists c2. split; [done|].
    eapply applies_ext; [|by eapply applies_app]. intros k. unfold d_app, d_seq, d_sum. simpl. f_equal.
    f_equal. apply map_ext_in. intros d' Hd'%list_elem_of_In.
    apply list_elem_of_lookup in Hd' as [i Hi]. destruct (Forall2_lookup_r _ _ _ _ _ Hf Hi) as (h' & _ & He').
    symmetry. by apply effect_view.
Qed.
