(* ===== verification/LinkRoutes.v ===== *)
(** The routes: what [ServiceRoutes] and [PodRoutes] add
(handlers/svc_routes.go, handlers/pod_routes.go), against the specification
[routed] of the routes a node should have. *)
From S2P Require Import Prelude GoNet LinkApi LinkVxlan LinkFilter LinkHandlers LinkEffects.

(** * Specification *)

(** A well-formed context: its filter is, and every node has a configuration. *)
Definition ctx_ok (c : Context) : Prop :=
  filter_ok (ctx_Filter c) /\
  forall n, n ∈ f_clusterNodes (ctx_Filter c) -> is_Some (ctx_Results c !! cn_Name n).

(** The CIDRs of a target as other clusters see them. *)
Definition global_cidrs (o : ClusterLinkOptions) (cidrs : list string) : list string :=
  ConvertToGlobalCIDRs (FilterByIPFamily cidrs (lo_IPFamily o)) (lo_GlobalCIDRsMap o).

Definition pod_cidrs (f : Filter) (target : ClusterNode) : list string :=
  if Cluster_IsP2P (node_cluster f target) then cn_PodCIDRs target else c_PodCIDRs (node_cluster f target).

Definition endpoint_nodes (f : Filter) : list ClusterNode :=
  List.filter (fun n => Cluster_IsP2P (node_cluster f n) && negb (ClusterNode_IsGateway n)) (f_clusterNodes f).

(** [target] is announced as the way to [cidr]: a gateway for the services of its
cluster, a gateway or an endpoint for pods. *)
Inductive advertises (f : Filter) (target : ClusterNode) (cidr : string) : Prop :=
  | adv_service : target ∈ GetGatewayNodes f ->
      cidr ∈ global_cidrs (node_opts f target) (c_ServiceCIDRs (node_cluster f target)) ->
      advertises f target cidr
  | adv_pod : target ∈ GetGatewayNodes f ++ endpoint_nodes f ->
      cidr ∈ global_cidrs (node_opts f target) (pod_cidrs f target) ->
      advertises f target cidr.

(** The address of a device of a node. *)
Definition device_ip (c : Context) (node : ClusterNode) (devName : string) : option IP :=
  dev ← GetDeviceFromResults c (cn_Name node) devName;
  fst <$> ParseCIDR (dev_Addr dev).

Definition family_ok (o : ClusterLinkOptions) (t : IPType) : bool :=
  if lo_IPFamily o =s IPFamilyTypeALL then true
  else bool_decide (convertIPFamilyTypeToIPType (lo_IPFamily o) = t).

(** The networks of the node's own cluster. *)
Definition own_cidrs (f : Filter) (n : ClusterNode) : list string :=
  c_PodCIDRs (node_cluster f n) ++ c_ServiceCIDRs (node_cluster f n).

(** The nodes that send traffic to other clusters themselves. *)
Definition bridged (f : Filter) (n : ClusterNode) : bool :=
  ClusterNode_IsGateway n || Cluster_IsP2P (node_cluster f n).

(** The routes node [n] should have, [ip_of] giving the address of a device of a
node: to every CIDR announced by a node of another
cluster that its own cluster can carry and that overlaps none of its own
networks; through the bridge of the announcing node when [n] has a bridge, and
otherwise through the local device of its cluster's gateway. *)
Inductive routed (f : Filter) (ip_of : ClusterNode -> string -> option IP) (n : ClusterNode) : Route -> Prop :=
  | routed_bridge target cidr ip :
      advertises f target cidr -> cn_ClusterName n <> cn_ClusterName target ->
      family_ok (node_opts f n) (GetIPType cidr) = true ->
      (forall own, own ∈ own_cidrs f n -> Intersect own cidr = false) ->
      ip_of target (vxBridge_name (GetIPType cidr)) = Some ip ->
      bridged f n = true ->
      routed f ip_of n (mkRoute cidr (IP_String ip) (vxBridge_name (GetIPType cidr)))
  | routed_local target cidr ip gw gwip :
      advertises f target cidr -> cn_ClusterName n <> cn_ClusterName target ->
      family_ok (node_opts f n) (GetIPType cidr) = true ->
      (forall own, own ∈ own_cidrs f n -> Intersect own cidr = false) ->
      ip_of target (vxBridge_name (GetIPType cidr)) = Some ip ->
      bridged f n = false ->
      GetGatewayNodeByClusterName f (cn_ClusterName n) = Some gw ->
      ip_of gw (vxLocal_name (GetIPType cidr)) = Some gwip ->
      routed f ip_of n (mkRoute cidr (IP_String gwip) (vxLocal_name (GetIPType cidr))).

(** * The routes of the code, without the panics *)

Definition route_spec (c : Context) (cidr : string) (targetIP : IP) (n : ClusterNode) : option Route :=
  let f := ctx_Filter c in
  let ipType := GetIPType cidr in
  if negb (family_ok (node_opts f n) ipType) then None
  else if ifCIDRConflictWithSelf (own_cidrs f n) cidr then None
  else if bridged f n then Some (mkRoute cidr (IP_String targetIP) (vxBridge_name ipType))
  else gw ← GetGatewayNodeByClusterName f (cn_ClusterName n);
       gwIP ← device_ip c gw (vxLocal_name ipType);
       Some (mkRoute cidr (IP_String gwIP) (vxLocal_name ipType)).

Lemma view_ok c c' : view c c' -> ctx_ok c -> ctx_ok c'.
Proof.
  intros V [Hf Hr]. pose proof V as (E & _ & _). split; rewrite E; [done|].
  intros n Hn. eapply view_dom; [done|]. by apply Hr.
Qed.

#[export] Instance device_ip_proper : Proper (view ==> (=) ==> (=) ==> (=)) device_ip.
Proof. intros c c' V n ? <- d ? <-. unfold device_ip. by rewrite V. Qed.

#[export] Instance route_spec_proper : Proper (view ==> (=) ==> (=) ==> (=) ==> (=)) route_spec.
Proof.
  intros c c' V cidr ? <- ip ? <- n ? <-. unfold route_spec.
  pose proof V as (E & _ & _). rewrite E.
  destruct (negb _); [done|]. destruct (ifCIDRConflictWithSelf _ _); [done|].
  destruct (bridged _ _); [done|]. destruct (GetGatewayNodeByClusterName _ _) as [gw|]; [|done].
  simpl. by rewrite V.
Qed.

Section Routes.
Context (c : Context) (Hc : ctx_ok c).
Abbreviation f := (ctx_Filter c).

Lemma route_of_ok cidr ip n : n ∈ f_clusterNodes f ->
  route_of c cidr ip n = Ret (route_spec c cidr ip n).
Proof.
  intros Hn. destruct (get_cluster f (proj1 Hc) n Hn) as [Hcl Ho].
  unfold route_of, route_spec, SupportIPType. rewrite Hcl. cbn. rewrite Ho. cbn.
  unfold family_ok, own_cidrs, bridged. destruct (negb _); [done|].
  destruct (ifCIDRConflictWithSelf _ _); [done|]. destruct (_ || _); [done|].
  destruct (GetGatewayNodeByClusterName _ _) as [gw|]; [|done]. cbn.
  unfold device_ip. destruct (GetDeviceFromResults _ _ _) as [d|]; [|done]. cbn.
  by destruct (ParseCIDR (dev_Addr d)) as [[? ?]|].
Qed.
End Routes.

(** What [BuildRoutes] appends. *)
Definition d_route (c : Context) (cidr : string) (ip : IP) (n : ClusterNode) : delta :=
  match route_spec c cidr ip n with
  | None => d_none
  | Some r => d_at (cn_Name n) (d_routes [r])
  end.

Definition d_cidr (c : Context) (target : ClusterNode) (cidr : string) : delta :=
  match device_ip c target (vxBridge_name (GetIPType cidr)) with
  | None => d_none
  | Some ip => d_sum (d_route c cidr ip) (GetAllNodesExceptCluster (ctx_Filter c) (cn_ClusterName target))
  end.

Definition d_build (c : Context) (target : ClusterNode) (cidrs : list string) : delta :=
  d_sum (d_cidr c target) cidrs.

Lemma no_dev_route c cidr ip n : no_dev (d_route c cidr ip n).
Proof. unfold d_route. destruct (route_spec _ _ _ _); auto with kosmos. Qed.
Lemma no_dev_cidr c target cidr : no_dev (d_cidr c target cidr).
Proof. unfold d_cidr. destruct (device_ip _ _ _); auto using no_dev_route with kosmos. Qed.
Lemma no_dev_build c target cidrs : no_dev (d_build c target cidrs).
Proof. unfold d_build. auto using no_dev_cidr with kosmos. Qed.
#[export] Hint Resolve no_dev_route no_dev_cidr no_dev_build : kosmos.

Lemma except_elem f name n : n ∈ GetAllNodesExceptCluster f name <->
  n ∈ f_clusterNodes f /\ cn_ClusterName n <> name.
Proof.
  unfold GetAllNodesExceptCluster. rewrite list_filter_spec, negb_true_iff.
  by rewrite bool_decide_eq_false.
Qed.

Lemma BuildRoutes_runs c target cidrs : ctx_ok c ->
  runs (BuildRoutes c target cidrs) (d_build c target cidrs) c.
Proof.
  intros Hc. apply runs_foldM; [auto with kosmos|]. intros cidr c1 _ V1.
  unfold d_cidr, device_ip. rewrite V1.
  destruct (GetDeviceFromResults c1 _ _) as [d|]; [|apply runs_ret]. cbn.
  destruct (ParseCIDR (dev_Addr d)) as [[ip ?]|]; [|apply runs_ret]. cbn.
  apply runs_foldM; [auto with kosmos|]. intros n c2 [Hn _]%except_elem V2.
  assert (V : view c c2) by (by transitivity c1).
  assert (ctx_ok c2) as Hc2 by (by eapply view_ok).
  pose proof V as (E & _ & _). rewrite route_of_ok by (done || by rewrite E). cbn.
  unfold d_route. rewrite V. destruct (route_spec c2 cidr ip n); [|apply runs_ret].
  apply runs_update; [|apply Hc2; by rewrite E].
  intros nc. unfold add_Routes, nc_app; simpl. by rewrite !app_nil_r.
Qed.

Lemma elem_d_build c target cidrs k r :
  r ∈ nc_Routes (d_build c target cidrs k) <->
  exists cidr ip n, cidr ∈ cidrs /\ device_ip c target (vxBridge_name (GetIPType cidr)) = Some ip /\
    n ∈ f_clusterNodes (ctx_Filter c) /\ cn_ClusterName n <> cn_ClusterName target /\
    cn_Name n = k /\ route_spec c cidr ip n = Some r.
Proof.
  unfold d_build. rewrite elem_d_sum. unfold d_cidr. split.
  - intros (cidr & Hcidr & H). destruct (device_ip _ _ _) as [ip|] eqn:Ei; [|by apply elem_of_nil in H].
    apply elem_d_sum in H as (n & [Hn Hne]%except_elem & H). unfold d_route in H.
    destruct (route_spec c cidr ip n) as [r'|] eqn:Er; [|by apply elem_of_nil in H].
    apply elem_d_at in H as [-> ->%list_elem_of_singleton]. naive_solver.
  - intros (cidr & ip & n & Hcidr & Ei & Hn & Hne & <- & Er). exists cidr. split; [done|].
    rewrite Ei. apply elem_d_sum. exists n. rewrite except_elem. split; [done|].
    unfold d_route. rewrite Er. apply elem_d_at. simpl. by rewrite list_elem_of_singleton.
Qed.

(** * The two handlers *)

Definition d_service (c : Context) : delta :=
  let f := ctx_Filter c in
  d_sum (fun t => d_build c t (global_cidrs (node_opts f t) (c_ServiceCIDRs (node_cluster f t)))) (GetGatewayNodes f).

Definition d_pod (c : Context) : delta :=
  let f := ctx_Filter c in
  d_sum (fun t => d_build c t (global_cidrs (node_opts f t) (pod_cidrs f t))) (GetGatewayNodes f ++ endpoint_nodes f).

Lemma d_build_view c c' target cidrs k : view c c' -> d_build c target cidrs k = d_build c' target cidrs k.
Proof.
  intros V. pose proof V as (E & _ & _). unfold d_build, d_sum. f_equal. apply map_ext. intros cidr.
  unfold d_cidr. rewrite (device_ip_proper c c' V target _ eq_refl _ _ eq_refl), E.
  destruct (device_ip c' _ _) as [ip|]; [|done]. unfold d_sum. f_equal. apply map_ext. intros n.
  unfold d_route. by rewrite (route_spec_proper c c' V cidr _ eq_refl ip _ eq_refl n _ eq_refl).
Qed.

Lemma bridge_nodes_ok f : filter_ok f -> bridge_nodes f = Ret (GetGatewayNodes f ++ endpoint_nodes f).
Proof. intros Hf. unfold bridge_nodes. by rewrite GetEndpointNodes_ok. Qed.

Lemma bridge_nodes_elem f n : n ∈ GetGatewayNodes f ++ endpoint_nodes f -> n ∈ f_clusterNodes f.
Proof.
  intros [[? _]%GetGatewayNodes_elem|[? _]%list_filter_spec]%elem_of_app; done.
Qed.

Lemma ServiceRoutes_runs c : ctx_ok c ->
  exists c', ServiceRoutes_Do c = Ret (c', None) /\ applies (d_service c) c c'.
Proof.
  intros Hc. apply runs_nil_err, runs_foldM; [auto with kosmos|].
  intros t c' [Ht _]%GetGatewayNodes_elem V. pose proof V as (E & _ & _).
  destruct (get_cluster _ (proj1 Hc) t Ht) as [Hcl Ho]. rewrite E, Hcl. cbn. rewrite Ho. cbn.
  eapply runs_ext; [|apply BuildRoutes_runs; by eapply view_ok]. intros k. symmetry. by apply d_build_view.
Qed.

Lemma PodRoutes_runs c : ctx_ok c ->
  exists c', PodRoutes_Do c = Ret (c', None) /\ applies (d_pod c) c c'.
Proof.
  intros Hc. unfold PodRoutes_Do. rewrite bridge_nodes_ok by apply Hc. cbn [mbind outcome_bind].
  apply runs_nil_err, runs_foldM; [auto with kosmos|].
  intros t c' Ht%bridge_nodes_elem V. pose proof V as (E & _ & _).
  destruct (get_cluster _ (proj1 Hc) t Ht) as [Hcl Ho]. rewrite E, Hcl. cbn. rewrite Ho. cbn.
  eapply runs_ext; [|apply BuildRoutes_runs; by eapply view_ok]. intros k. symmetry. by apply d_build_view.
Qed.

Lemma no_dev_service c : no_dev (d_service c). Proof. unfold d_service. auto with kosmos. Qed.
Lemma no_dev_pod c : no_dev (d_pod c). Proof. unfold d_pod. auto with kosmos. Qed.
#[export] Hint Resolve no_dev_service no_dev_pod : kosmos.

(** Both handlers together add exactly the routes of the specification. *)
Lemma routes_of_handlers c k r :
  r ∈ nc_Routes (d_app (d_service c) (d_pod c) k) <->
  exists n, n ∈ f_clusterNodes (ctx_Filter c) /\ cn_Name n = k /\ routed (ctx_Filter c) (device_ip c) n r.
Proof.
  set (f := ctx_Filter c).
  assert (Hs : r ∈ nc_Routes (d_app (d_service c) (d_pod c) k) <->
    exists target cidr ip n, advertises f target cidr /\
      device_ip c target (vxBridge_name (GetIPType cidr)) = Some ip /\
      n ∈ f_clusterNodes f /\ cn_ClusterName n <> cn_ClusterName target /\
      cn_Name n = k /\ route_spec c cidr ip n = Some r).
  { rewrite elem_d_app. unfold d_service, d_pod. rewrite !elem_d_sum. setoid_rewrite elem_d_build.
    split.
    - intros [(t & Ht & cidr & ip & n & Hc & H)|(t & Ht & cidr & ip & n & Hc & H)];
        exists t, cidr, ip, n; (split; [|done]); [by apply adv_service|by apply adv_pod].
    - intros (t & cidr & ip & n & [Ht Hc|Ht Hc] & H); [left|right]; exists t; split; eauto 10. }
  rewrite Hs. split.
  - intros (t & cidr & ip & n & Ha & Hip & Hn & Hne & Hk & Hr). exists n. split; [done|]. split; [done|].
    unfold route_spec in Hr. fold f in Hr.
    destruct (family_ok (node_opts f n) (GetIPType cidr)) eqn:Ef; [|done]. simpl in Hr.
    destruct (ifCIDRConflictWithSelf (own_cidrs f n) cidr) eqn:Ei; [done|].
    assert (Hi : forall own, own ∈ own_cidrs f n -> Intersect own cidr = false) by (by apply any_false).
    destruct (bridged f n) eqn:Eb.
    + injection Hr as <-. eapply routed_bridge; eauto.
    + destruct (GetGatewayNodeByClusterName f (cn_ClusterName n)) as [gw|] eqn:Eg; [|done]. simpl in Hr.
      destruct (device_ip c gw _) as [gwip|] eqn:Egi; [|done]. injection Hr as <-.
      eapply routed_local; eauto.
  - intros (n & Hn & Hk & Hr). inversion Hr as
      [t cidr ip Ha Hne Ef Hi Hip Eb|t cidr ip gw gwip Ha Hne Ef Hi Hip Eb Eg Egi]; subst r;
      exists t, cidr, ip, n; repeat (split; [done|]); unfold route_spec; fold f; fold f in Ef, Eb, Hi;
      rewrite Ef; simpl; apply any_false in Hi; unfold ifCIDRConflictWithSelf; rewrite Hi, Eb; [done|].
    fold f in Eg. rewrite Eg. simpl. by rewrite Egi.
Qed.

(** The specification only reads the addresses of the nodes of the filter. *)
Lemma advertises_elem f target cidr : advertises f target cidr -> target ∈ f_clusterNodes f.
Proof. intros [[H _]%GetGatewayNodes_elem _|H%bridge_nodes_elem _]; done. Qed.

Lemma routed_ext f ip1 ip2 n r :
  (forall t d, t ∈ f_clusterNodes f -> ip1 t d = ip2 t d) -> routed f ip1 n r -> routed f ip2 n r.
Proof.
  intros H [t cidr ip Ha Hne Ef Hi Hip Eb|t cidr ip gw gwip Ha Hne Ef Hi Hip Eb Eg Egi];
    pose proof (advertises_elem _ _ _ Ha); rewrite H in Hip by done.
  - by eapply routed_bridge.
  - pose proof (GetGatewayNodeByClusterName_Some _ _ _ Eg) as (? & _ & _).
    rewrite H in Egi by done. by eapply routed_local.
Qed.
