(* ===== verification/LinkCaches.v ===== *)
(** The forwarding and neighbour entries and the iptables rules: what
[VxLocalMacCache], [VxBridgeMacCache], [HostNetwork] and [GlobalMap] add
(handlers/vxlocal_mac_cache.go, vxbridge_mac_cache.go, host_network.go,
globalmap.go), against the tunnels the topology asks for. *)
From S2P Require Import Prelude GoNet LinkApi LinkVxlan LinkFilter LinkHandlers LinkEffects LinkRoutes.

(** * Specification *)

Definition supports (o : ClusterLinkOptions) (t : string) : bool :=
  if t =s IPFamilyTypeIPV4 then supports4 o
  else if t =s IPFamilyTypeIPV6 then supports6 o else false.

Inductive overlay := Local | Bridge.

Definition device_name (v : overlay) (t : string) : string :=
  match v with
  | Local => if t =s IPFamilyTypeIPV4 then VXLAN_LOCAL_NAME else VXLAN_LOCAL_NAME_6
  | Bridge => if t =s IPFamilyTypeIPV4 then VXLAN_BRIDGE_NAME else VXLAN_BRIDGE_NAME_6
  end.

Definition host_ip (n : ClusterNode) (t : string) : string :=
  if t =s IPFamilyTypeIPV4 then cn_IP n else cn_IP6 n.

Definition internal_nodes (f : Filter) : list ClusterNode :=
  List.filter (fun n => Cluster_IsGateway (node_cluster f n) && negb (ClusterNode_IsGateway n)) (f_clusterNodes f).

(** The tunnels of family [t]: in a gateway cluster between the gateway and the
other nodes, and between any two nodes that have a bridge. *)
Inductive tunnel (f : Filter) : overlay -> string -> ClusterNode -> ClusterNode -> Prop :=
  | tunnel_up t n gw : n ∈ internal_nodes f ->
      GetGatewayNodeByClusterName f (cn_ClusterName n) = Some gw ->
      supports (node_opts f n) t = true -> tunnel f Local t n gw
  | tunnel_down t gw n : gw ∈ GetGatewayNodes f -> n ∈ f_clusterNodes f ->
      cn_ClusterName n = cn_ClusterName gw -> ClusterNode_IsGateway n = false ->
      Cluster_IsP2P (node_cluster f n) = false ->
      supports (node_opts f gw) t = true -> tunnel f Local t gw n
  | tunnel_bridge t src tar : src ∈ GetGatewayNodes f ++ endpoint_nodes f ->
      tar ∈ GetGatewayNodes f ++ endpoint_nodes f -> cn_Name src <> cn_Name tar ->
      supports (node_opts f src) t = true -> supports (node_opts f tar) t = true ->
      tunnel f Bridge t src tar.

(** The entries a node needs for the far end of a tunnel. A local tunnel has none
when the address of the far device does not parse. *)
Inductive forwards (c : Context) (n : ClusterNode) : Fdb -> Prop :=
  | forwards_entry v t tar dev mac : tunnel (ctx_Filter c) v t n tar ->
      GetDeviceFromResults c (cn_Name tar) (device_name v t) = Some dev ->
      (v = Local -> is_Some (ParseCIDR (dev_Addr dev))) ->
      mac = ALL_ZERO_MAC \/ mac = dev_Mac dev ->
      forwards c n (mkFdb (host_ip tar t) mac (device_name v t)).

Inductive resolves (c : Context) (n : ClusterNode) : Arp -> Prop :=
  | resolves_entry v t tar dev ip net : tunnel (ctx_Filter c) v t n tar ->
      GetDeviceFromResults c (cn_Name tar) (device_name v t) = Some dev ->
      ParseCIDR (dev_Addr dev) = Some (ip, net) ->
      resolves c n (mkArp (IP_String ip) (dev_Mac dev) (device_name v t)).

(** * Shared parts of the two handlers *)

Definition families (o : ClusterLinkOptions) : list string :=
  (if supports4 o then [IPFamilyTypeIPV4] else []) ++ (if supports6 o then [IPFamilyTypeIPV6] else []).

Lemma families_elem o t : t ∈ families o <-> supports o t = true.
Proof.
  unfold families, supports. split.
  - destruct (supports4 o) eqn:E4, (supports6 o) eqn:E6; simpl;
      rewrite ?elem_of_cons, ?elem_of_nil; intros H; repeat destruct H as [->|H]; done.
  - destruct (bool_decide (t = IPFamilyTypeIPV4)) eqn:E; [apply bool_decide_eq_true in E as ->; intros ->; set_solver|].
    destruct (bool_decide (t = IPFamilyTypeIPV6)) eqn:E'; [apply bool_decide_eq_true in E' as ->; intros ->; set_solver|done].
Qed.

Lemma families_cases o t : t ∈ families o -> t = IPFamilyTypeIPV4 \/ t = IPFamilyTypeIPV6.
Proof. rewrite families_elem. unfold supports. destr_match; breflect; auto. destr_match; breflect; auto; done. Qed.

Lemma getSupportIPTypes_ok c n : filter_ok (ctx_Filter c) -> n ∈ f_clusterNodes (ctx_Filter c) ->
  getSupportIPTypes n c = Ret (families (node_opts (ctx_Filter c) n)).
Proof. intros Hf Hn. unfold getSupportIPTypes. by rewrite SupportIPv4_ok, SupportIPv6_ok. Qed.

Lemma add_caches_runs name fdb arp c : is_Some (ctx_Results c !! name) ->
  runs (add_caches name fdb arp c) (d_at name (d_caches fdb arp)) c.
Proof.
  intros Hc. eapply runs_ext; [|apply (runs_bind _ _ (d_at name (d_caches fdb [])) (d_at name (d_caches [] arp)))].
  - intros k. unfold d_app, d_at. case_decide; [|done]. unfold nc_app; simpl. by rewrite app_nil_r.
  - apply runs_update; [|done]. intros nc. unfold nc_app; simpl. by rewrite !app_nil_r.
  - by apply no_dev_at.
  - intros c' V. apply runs_update; [|by eapply view_dom].
    intros nc. unfold nc_app; simpl. by rewrite !app_nil_r.
Qed.

(** The two entries towards a device, and the neighbour entry. *)
Definition peer_fdbs (v : overlay) (t : string) (tar : ClusterNode) (dev : Device) : list Fdb :=
  [mkFdb (host_ip tar t) ALL_ZERO_MAC (device_name v t); mkFdb (host_ip tar t) (dev_Mac dev) (device_name v t)].
Definition peer_arps (v : overlay) (t : string) (dev : Device) : list Arp :=
  match ParseCIDR (dev_Addr dev) with
  | None => []
  | Some (ip, _) => [mkArp (IP_String ip) (dev_Mac dev) (device_name v t)]
  end.

Definition peer_caches (c : Context) (v : overlay) (t : string) (tar : ClusterNode) : list Fdb * list Arp :=
  match GetDeviceFromResults c (cn_Name tar) (device_name v t) with
  | None => ([], [])
  | Some dev =>
      match v, ParseCIDR (dev_Addr dev) with
      | Local, None => ([], [])
      | _, _ => (peer_fdbs v t tar dev, peer_arps v t dev)
      end
  end.

#[export] Instance peer_caches_proper : Proper (view ==> (=) ==> (=) ==> (=) ==> (=)) peer_caches.
Proof. intros c c' V v ? <- t ? <- tar ? <-. unfold peer_caches. by rewrite V. Qed.

Lemma local_caches c t node : t = IPFamilyTypeIPV4 \/ t = IPFamilyTypeIPV6 ->
  default ([], []) (buildVxLocalCachesByNode c t node) = peer_caches c Local t node.
Proof.
  intros Ht. unfold buildVxLocalCachesByNode, peer_caches, peer_fdbs, peer_arps.
  destruct Ht as [-> | ->]; simpl; destruct (GetDeviceFromResults c _ _) as [d|]; try done; simpl;
    destruct (ParseCIDR (dev_Addr d)) as [[ip ?]|]; done.
Qed.

Lemma bridge_caches_ok c t node : t = IPFamilyTypeIPV4 \/ t = IPFamilyTypeIPV6 ->
  bridge_caches c node t = peer_caches c Bridge t node.
Proof.
  intros Ht. unfold bridge_caches, peer_caches, peer_fdbs, peer_arps.
  destruct Ht as [-> | ->]; simpl; destruct (GetDeviceFromResults c _ _) as [d|]; try done; simpl;
    destruct (ParseCIDR (dev_Addr d)) as [[ip ?]|]; done.
Qed.

Lemma elem_peer_fdb c v t tar e : e ∈ fst (peer_caches c v t tar) <->
  exists dev mac, GetDeviceFromResults c (cn_Name tar) (device_name v t) = Some dev /\
    (v = Local -> is_Some (ParseCIDR (dev_Addr dev))) /\ (mac = ALL_ZERO_MAC \/ mac = dev_Mac dev) /\
    e = mkFdb (host_ip tar t) mac (device_name v t).
Proof.
  unfold peer_caches. destruct (GetDeviceFromResults c _ _) as [dev|]; [|set_solver].
  destruct (ParseCIDR (dev_Addr dev)) as [[ip net]|] eqn:E, v; simpl; unfold peer_fdbs;
    rewrite ?elem_of_cons, ?elem_of_nil.
  all: split; [|intros (? & ? & [= <-] & Hp & [-> | ->] & ->); rewrite ?E in Hp; auto;
                 by destruct (Hp eq_refl)].
  all: first [done|intros [->|[->|[]]];
    [exists dev, ALL_ZERO_MAC|exists dev, (dev_Mac dev)]; rewrite ?E; naive_solver].
Qed.

Lemma elem_peer_arp c v t tar e : e ∈ snd (peer_caches c v t tar) <->
  exists dev ip net, GetDeviceFromResults c (cn_Name tar) (device_name v t) = Some dev /\
    ParseCIDR (dev_Addr dev) = Some (ip, net) /\
    e = mkArp (IP_String ip) (dev_Mac dev) (device_name v t).
Proof.
  unfold peer_caches. destruct (GetDeviceFromResults c _ _) as [dev|]; [|set_solver].
  unfold peer_arps. destruct (ParseCIDR (dev_Addr dev)) as [[ip net]|] eqn:E, v; simpl;
    rewrite ?list_elem_of_singleton, ?elem_of_nil.
  all: split; [intros H; try done; subst; eexists _, _, _; by rewrite ?E|].
  all: intros (? & ? & ? & [= <-] & Hp & ->); rewrite E in Hp; by simplify_eq.
Qed.

(** What a list of peers contributes, in the sums the handlers append. *)
Definition d_peers (c : Context) (v : overlay) (name : string) (ps : list (ClusterNode * string)) : delta :=
  let caches := map (fun p => peer_caches c v (snd p) (fst p)) ps in
  d_at name (d_caches (concat (map fst caches)) (concat (map snd caches))).

Lemma no_dev_peers c v name ps : no_dev (d_peers c v name ps).
Proof. by apply no_dev_at. Qed.
#[export] Hint Resolve no_dev_peers : kosmos.

Lemma d_peers_view c c' v name ps k : view c c' -> d_peers c v name ps k = d_peers c' v name ps k.
Proof.
  intros V. unfold d_peers. f_equal. f_equal; f_equal; f_equal; apply map_ext; intros p;
    by rewrite (peer_caches_proper c c' V v _ eq_refl _ _ eq_refl _ _ eq_refl).
Qed.

Lemma elem_peers_fdb c v name ps k e : e ∈ nc_Fdbs (d_peers c v name ps k) <->
  k = name /\ exists p, p ∈ ps /\ e ∈ fst (peer_caches c v (snd p) (fst p)).
Proof. unfold d_peers. rewrite elem_d_at. simpl. by rewrite map_map, elem_concat_map. Qed.

Lemma elem_peers_arp c v name ps k e : e ∈ nc_Arps (d_peers c v name ps k) <->
  k = name /\ exists p, p ∈ ps /\ e ∈ snd (peer_caches c v (snd p) (fst p)).
Proof. unfold d_peers. rewrite elem_d_at. simpl. by rewrite map_map, elem_concat_map. Qed.

(** * The local overlay *)

Definition local_peers (f : Filter) (gw : ClusterNode) : list (ClusterNode * string) :=
  flat_map (fun tar => map (fun t => (tar, t)) (families (node_opts f gw)))
    (List.filter (fun n => negb (Cluster_IsP2P (node_cluster f n)) &&
       ((cn_ClusterName n =s cn_ClusterName gw) && negb (ClusterNode_IsGateway n))) (f_clusterNodes f)).

Definition d_up (c : Context) (n : ClusterNode) : delta :=
  let f := ctx_Filter c in
  match GetGatewayNodeByClusterName f (cn_ClusterName n) with
  | None => d_none
  | Some gw => d_sum (fun t => d_peers c Local (cn_Name n) [(gw, t)]) (families (node_opts f n))
  end.

Definition d_local (c : Context) : delta :=
  let f := ctx_Filter c in
  d_app (d_sum (d_up c) (internal_nodes f))
        (d_sum (fun gw => d_peers c Local (cn_Name gw) (local_peers f gw)) (GetGatewayNodes f)).

Lemma no_dev_up c n : no_dev (d_up c n).
Proof. unfold d_up. destruct (GetGatewayNodeByClusterName _ _); auto with kosmos. Qed.
#[export] Hint Resolve no_dev_up : kosmos.
Lemma no_dev_local c : no_dev (d_local c). Proof. unfold d_local. auto with kosmos. Qed.

Lemma collect_default {A} (g : A -> option (list Fdb * list Arp)) l :
  concat (map fst (collect g l)) = concat (map fst (map (fun x => default ([], []) (g x)) l)) /\
  concat (map snd (collect g l)) = concat (map snd (map (fun x => default ([], []) (g x)) l)).
Proof.
  induction l as [|x l [IH1 IH2]]; [done|]. simpl. destruct (g x); simpl; rewrite IH1, IH2; done.
Qed.

Lemma up_runs c c' n : ctx_ok c -> view c c' -> n ∈ internal_nodes (ctx_Filter c) ->
  runs (ipTypes ← getSupportIPTypes n c';
        match GetGatewayNodeByClusterName (ctx_Filter c') (cn_ClusterName n) with
        | None => Ret c'
        | Some gw =>
            foldM (fun c ipType =>
              match buildVxLocalCachesByNode c ipType gw with
              | None => Ret c
              | Some (fdb, arp) => add_caches (cn_Name n) fdb arp c
              end) ipTypes c'
        end) (d_up c n) c'.
Proof.
  intros Hc V [Hn _]%list_filter_spec. pose proof V as (E & _ & _).
  rewrite getSupportIPTypes_ok by (rewrite E; done || apply Hc). cbn [mbind outcome_bind].
  unfold d_up. rewrite E. destruct (GetGatewayNodeByClusterName _ _) as [gw|]; [|apply runs_ret].
  apply runs_foldM; [auto with kosmos|]. intros t c2 Ht%families_cases V2.
  assert (V' : view c c2) by (by transitivity c').
  eapply runs_ext; [intros k; symmetry; by apply d_peers_view|].
  pose proof (local_caches c2 t gw Ht) as El. unfold d_peers. simpl. rewrite <- El, !app_nil_r.
  destruct (buildVxLocalCachesByNode c2 t gw) as [[fdb arp]|]; simpl.
  - apply add_caches_runs. eapply view_dom; [done|]. by apply Hc.
  - eapply runs_ext; [|apply runs_ret]. intros k. unfold d_at. by case_decide.
Qed.

Lemma down_runs c c' gw : ctx_ok c -> view c c' -> gw ∈ GetGatewayNodes (ctx_Filter c) ->
  runs (ipTypes ← getSupportIPTypes gw c';
        internalNodes ← GetInternalNodesByClusterName (ctx_Filter c') (cn_ClusterName gw);
        let caches := collect (fun p => buildVxLocalCachesByNode c' (snd p) (fst p))
                    (flat_map (fun tar => map (fun ipType => (tar, ipType)) ipTypes) internalNodes) in
        add_caches (cn_Name gw) (concat (map fst caches)) (concat (map snd caches)) c')
       (d_peers c Local (cn_Name gw) (local_peers (ctx_Filter c) gw)) c'.
Proof.
  intros Hc V [Hn _]%GetGatewayNodes_elem. pose proof V as (E & _ & _).
  rewrite getSupportIPTypes_ok by (rewrite E; done || apply Hc). cbn [mbind outcome_bind].
  rewrite GetInternalNodesByClusterName_ok by (rewrite E; apply Hc). cbn [mbind outcome_bind].
  rewrite E. fold (local_peers (ctx_Filter c) gw). set (ps := local_peers _ _).
  assert (Hps : forall p, p ∈ ps -> snd p = IPFamilyTypeIPV4 \/ snd p = IPFamilyTypeIPV6).
  { intros p. unfold ps, local_peers. rewrite list_elem_of_In, in_flat_map.
    intros (tar & _ & (t & <- & Ht)%in_map_iff). apply list_elem_of_In, families_cases in Ht. done. }
  destruct (collect_default (fun p => buildVxLocalCachesByNode c' (snd p) (fst p)) ps) as [-> ->].
  replace (map (fun x => default ([], []) (buildVxLocalCachesByNode c' (snd x) (fst x))) ps)
    with (map (fun p => peer_caches c' Local (snd p) (fst p)) ps).
  - eapply runs_ext; [intros k; symmetry; by apply d_peers_view|].
    apply add_caches_runs. eapply view_dom; [done|]. by apply Hc.
  - apply map_ext_in. intros p Hp%list_elem_of_In%Hps. symmetry. by apply local_caches.
Qed.

Lemma VxLocalMacCache_runs c : ctx_ok c ->
  exists c', VxLocalMacCache_Do c = Ret (c', None) /\ applies (d_local c) c c'.
Proof.
  intros Hc. unfold VxLocalMacCache_Do. rewrite GetInternalNodes_ok by apply Hc. cbn [mbind outcome_bind].
  fold (internal_nodes (ctx_Filter c)).
  set (up := foldM _ (internal_nodes _) c).
  destruct (runs_foldM _ (d_up c) (internal_nodes (ctx_Filter c)) c (fun n _ => no_dev_up c n)
              (fun n c' Hn V => up_runs c c' n Hc V Hn)) as (c1 & E1 & H1).
  assert (up = Ret c1) as -> by exact E1. cbn [mbind outcome_bind].
  assert (V1 : view c c1) by (eapply applies_view; [|done]; auto with kosmos).
  pose proof V1 as (E & _ & _). rewrite E.
  destruct (runs_foldM _ (fun gw => d_peers c Local (cn_Name gw) (local_peers (ctx_Filter c) gw))
     (GetGatewayNodes (ctx_Filter c)) c1 (fun gw _ => no_dev_peers _ _ _ _)
     (fun gw c' Hn V => down_runs c c' gw Hc (transitivity V1 V) Hn)) as (c2 & E2 & H2).
  exists c2. split; [|by eapply applies_app].
  by refine (f_equal (fun m => nil_err m) E2).
Qed.

(** * The bridge overlay *)

Definition bridge_peers (f : Filter) (src : ClusterNode) : list (ClusterNode * string) :=
  flat_map (fun tar =>
    if cn_Name src =s cn_Name tar then []
    else map (fun t => (tar, t))
           ((if supports4 (node_opts f src) && supports4 (node_opts f tar) then [IPFamilyTypeIPV4] else []) ++
            (if supports6 (node_opts f src) && supports6 (node_opts f tar) then [IPFamilyTypeIPV6] else [])))
    (GetGatewayNodes f ++ endpoint_nodes f).

Definition d_bridge (c : Context) : delta :=
  let f := ctx_Filter c in
  d_sum (fun src => d_peers c Bridge (cn_Name src) (bridge_peers f src)) (GetGatewayNodes f ++ endpoint_nodes f).

Lemma no_dev_bridge c : no_dev (d_bridge c). Proof. unfold d_bridge. auto with kosmos. Qed.
#[export] Hint Resolve no_dev_local no_dev_bridge : kosmos.

Lemma bridge_src_runs c c' src : ctx_ok c -> view c c' ->
  src ∈ GetGatewayNodes (ctx_Filter c) ++ endpoint_nodes (ctx_Filter c) ->
  runs (sIPv4 ← SupportIPv4 (ctx_Filter c') src;
        sIPv6 ← SupportIPv6 (ctx_Filter c') src;
        caches ← foldM (fun acc tar =>
          if cn_Name src =s cn_Name tar then Ret acc
          else
            tIPv4 ← SupportIPv4 (ctx_Filter c') tar;
            tIPv6 ← SupportIPv6 (ctx_Filter c') tar;
            let ipTypes := (if (sIPv4 && tIPv4 : bool) then [IPFamilyTypeIPV4] else []) ++
                           (if (sIPv6 && tIPv6 : bool) then [IPFamilyTypeIPV6] else []) in
            Ret (acc ++ map (bridge_caches c' tar) ipTypes))
          (GetGatewayNodes (ctx_Filter c) ++ endpoint_nodes (ctx_Filter c)) [];
        add_caches (cn_Name src) (concat (map fst caches)) (concat (map snd caches)) c')
       (d_peers c Bridge (cn_Name src) (bridge_peers (ctx_Filter c) src)) c'.
Proof.
  intros Hc V Hs%bridge_nodes_elem. pose proof V as (E & _ & _). rewrite E.
  rewrite SupportIPv4_ok, SupportIPv6_ok by (done || apply Hc). cbn [mbind outcome_bind].
  set (f := ctx_Filter c). set (nodes := GetGatewayNodes f ++ endpoint_nodes f).
  set (o := node_opts f src).
  rewrite (foldM_append (fun tar => map (fun p => peer_caches c Bridge (snd p) (fst p))
    (if cn_Name src =s cn_Name tar then [] else map (fun t => (tar, t))
      ((if supports4 o && supports4 (node_opts f tar) then [IPFamilyTypeIPV4] else []) ++
       (if supports6 o && supports6 (node_opts f tar) then [IPFamilyTypeIPV6] else []))))).
  - cbn [mbind outcome_bind app]. rewrite <- map_flat_map.
    apply add_caches_runs. eapply view_dom; [done|]. by apply Hc.
  - intros acc tar Ht%bridge_nodes_elem. destruct (bool_decide (cn_Name src = cn_Name tar)); [by rewrite app_nil_r|].
    rewrite SupportIPv4_ok, SupportIPv6_ok by (done || apply Hc). cbn [mbind outcome_bind].
    f_equal. f_equal. rewrite map_map. apply map_ext_in. intros t Ht'. simpl.
    rewrite V. apply bridge_caches_ok. destruct (_ && _), (_ && _); simpl in Ht'; naive_solver.
Qed.

Lemma VxBridgeMacCache_runs c : ctx_ok c ->
  exists c', VxBridgeMacCache_Do c = Ret (c', None) /\ applies (d_bridge c) c c'.
Proof.
  intros Hc. unfold VxBridgeMacCache_Do. rewrite bridge_nodes_ok by apply Hc. cbn [mbind outcome_bind].
  apply runs_nil_err.
  exact (runs_foldM _ (fun src => d_peers c Bridge (cn_Name src) (bridge_peers (ctx_Filter c) src)) _ c
    (fun src _ => no_dev_peers _ _ _ _) (fun src c' Hs V => bridge_src_runs c c' src Hc V Hs)).
Qed.

(** * The entries are those of the specification *)

Lemma elem_local_peers f gw p : filter_ok f -> p ∈ local_peers f gw <->
  fst p ∈ f_clusterNodes f /\ cn_ClusterName (fst p) = cn_ClusterName gw /\
  ClusterNode_IsGateway (fst p) = false /\ Cluster_IsP2P (node_cluster f (fst p)) = false /\
  supports (node_opts f gw) (snd p) = true.
Proof.
  intros Hf. destruct p as [tar t]. unfold local_peers. rewrite list_elem_of_In, in_flat_map. simpl.
  setoid_rewrite in_map_iff. setoid_rewrite <- list_elem_of_In. split.
  - intros (n & [Hn Hp]%list_filter_spec & (t' & [= <- <-] & Ht%families_elem)). breflect. done.
  - intros (Hn & Hc & Hg & Hp & Ht). exists tar. rewrite list_filter_spec, Hp, Hg.
    rewrite bool_decide_eq_true_2 by done. split; [done|]. exists t. by rewrite families_elem.
Qed.

Lemma elem_bridge_peers f src p : p ∈ bridge_peers f src <->
  fst p ∈ GetGatewayNodes f ++ endpoint_nodes f /\ cn_Name src <> cn_Name (fst p) /\
  supports (node_opts f src) (snd p) = true /\ supports (node_opts f (fst p)) (snd p) = true.
Proof.
  destruct p as [tar t]. unfold bridge_peers. rewrite list_elem_of_In, in_flat_map. simpl. split.
  - intros (n & Hn%list_elem_of_In & Hp). destruct (bool_decide (cn_Name src = cn_Name n)) eqn:E; [done|].
    breflect. apply in_map_iff in Hp as (t' & [= <- <-] & Ht%list_elem_of_In).
    split; [done|]. split; [done|].
    rewrite <- !families_elem. unfold families.
    destruct (supports4 (node_opts f src)), (supports4 (node_opts f n)),
      (supports6 (node_opts f src)), (supports6 (node_opts f n)); set_solver.
  - intros (Hn & Hne & Hs & Ht). exists tar. split; [by apply list_elem_of_In|].
    rewrite bool_decide_eq_false_2 by done. apply in_map_iff. exists t. split; [done|].
    apply list_elem_of_In. rewrite <- !families_elem in *. unfold families in *.
    destruct (supports4 (node_opts f src)), (supports4 (node_opts f tar)),
      (supports6 (node_opts f src)), (supports6 (node_opts f tar)); set_solver.
Qed.

(** The nodes the two cache handlers give entries for, and the peers. *)
Lemma elem_caches_peer c k (P : overlay -> string -> ClusterNode -> Prop) :
  filter_ok (ctx_Filter c) ->
  let f := ctx_Filter c in
  ((exists n t gw, n ∈ internal_nodes f /\ k = cn_Name n /\ t ∈ families (node_opts f n) /\
      GetGatewayNodeByClusterName f (cn_ClusterName n) = Some gw /\ P Local t gw) \/
   (exists gw p, gw ∈ GetGatewayNodes f /\ k = cn_Name gw /\ p ∈ local_peers f gw /\ P Local (snd p) (fst p)) \/
   (exists src p, src ∈ GetGatewayNodes f ++ endpoint_nodes f /\ k = cn_Name src /\
      p ∈ bridge_peers f src /\ P Bridge (snd p) (fst p))) <->
  exists n v t tar, n ∈ f_clusterNodes f /\ cn_Name n = k /\ tunnel f v t n tar /\ P v t tar.
Proof.
  intros Hf f. split.
  - intros [(n & t & gw & Hn & -> & Ht & Hg & HP)|[(gw & p & Hg & -> & Hp & HP)|(src & p & Hs & -> & Hp & HP)]].
    + exists n, Local, t, gw. pose proof Hn as [? _]%list_filter_spec. apply families_elem in Ht.
      eauto using tunnel_up.
    + exists gw, Local, (snd p), (fst p). pose proof (GetGatewayNodes_elem _ _ Hg) as [? _].
      apply elem_local_peers in Hp as (? & ? & ? & ? & ?); [|done]. eauto 10 using tunnel_down.
    + exists src, Bridge, (snd p), (fst p). pose proof (bridge_nodes_elem _ _ Hs).
      apply elem_bridge_peers in Hp as (? & ? & ? & ?). eauto 10 using tunnel_bridge.
  - intros (n & v & t & tar & Hn & <- & [t' n' gw H1 H2 H3|t' gw n' H1 H2 H3 H4 H5 H6|t' src tar' H1 H2 H3 H4 H5] & HP).
    + left. exists n', t', gw. by rewrite families_elem.
    + right; left. exists gw, (n', t'). by rewrite elem_local_peers.
    + right; right. exists src, (tar', t'). by rewrite elem_bridge_peers.
Qed.

(** Unfolds membership in the sums of the two handlers. *)
Lemma elem_caches {B} (proj : NodeConfig -> list B) (sel : list Fdb * list Arp -> list B) c k e :
  Component proj ->
  (forall v name ps, e ∈ proj (d_peers c v name ps k) <->
     k = name /\ exists p, p ∈ ps /\ e ∈ sel (peer_caches c v (snd p) (fst p))) ->
  filter_ok (ctx_Filter c) ->
  e ∈ proj (d_app (d_local c) (d_bridge c) k) <->
  exists n v t tar, n ∈ f_clusterNodes (ctx_Filter c) /\ cn_Name n = k /\
    tunnel (ctx_Filter c) v t n tar /\ e ∈ sel (peer_caches c v t tar).
Proof.
  intros Hcomp Hp Hf. rewrite <- (elem_caches_peer c k (fun v t tar => e ∈ sel (peer_caches c v t tar)) Hf).
  unfold d_local, d_bridge. rewrite !elem_d_app, !elem_d_sum. setoid_rewrite Hp.
  assert (Hup : forall n, e ∈ proj (d_up c n k) <-> exists t gw, k = cn_Name n /\
    t ∈ families (node_opts (ctx_Filter c) n) /\
    GetGatewayNodeByClusterName (ctx_Filter c) (cn_ClusterName n) = Some gw /\
    e ∈ sel (peer_caches c Local t gw)).
  { intros n. unfold d_up. destruct (GetGatewayNodeByClusterName _ _) as [gw|].
    - rewrite elem_d_sum. setoid_rewrite Hp. setoid_rewrite list_elem_of_singleton. split.
      + intros (t & Ht & -> & p & -> & He). eauto 10.
      + intros (t & ? & -> & Ht & [= <-] & He). exists t. split; [done|]. split; [done|]. by exists (gw, t).
    - unfold d_none. rewrite comp_empty, elem_of_nil. naive_solver. }
  setoid_rewrite Hup. split.
  - intros [[(n & Hn & t & gw & H)|(gw & Hg & -> & p & H)]|(src & Hs & -> & p & H)];
      [left; naive_solver|right; left; naive_solver|right; right; naive_solver].
  - intros [(n & t & gw & Hn & H)|[(gw & p & Hg & -> & H)|(src & p & Hs & -> & H)]];
      [left; left; naive_solver|left; right; naive_solver|right; naive_solver].
Qed.

Lemma fdbs_of_handlers c k e : filter_ok (ctx_Filter c) ->
  e ∈ nc_Fdbs (d_app (d_local c) (d_bridge c) k) <->
  exists n, n ∈ f_clusterNodes (ctx_Filter c) /\ cn_Name n = k /\ forwards c n e.
Proof.
  intros Hf. rewrite (elem_caches nc_Fdbs fst); [|apply _|intros; apply elem_peers_fdb|done].
  setoid_rewrite elem_peer_fdb. split.
  - intros (n & v & t & tar & Hn & Hk & Ht & dev & mac & Hd & Hp & Hm & ->). exists n. eauto using forwards_entry.
  - intros (n & Hn & Hk & [v t tar dev mac Ht Hd Hp Hm]). exists n, v, t, tar. eauto 10.
Qed.

Lemma arps_of_handlers c k e : filter_ok (ctx_Filter c) ->
  e ∈ nc_Arps (d_app (d_local c) (d_bridge c) k) <->
  exists n, n ∈ f_clusterNodes (ctx_Filter c) /\ cn_Name n = k /\ resolves c n e.
Proof.
  intros Hf. rewrite (elem_caches nc_Arps snd); [|apply _|intros; apply elem_peers_arp|done].
  setoid_rewrite elem_peer_arp. split.
  - intros (n & v & t & tar & Hn & Hk & Ht & dev & ip & net & Hd & Hp & ->). exists n. eauto using resolves_entry.
  - intros (n & Hn & Hk & [v t tar dev ip net Ht Hd Hp]). exists n, v, t, tar. eauto 10.
Qed.

(** * Iptables *)

Definition host_rules (o : ClusterLinkOptions) : list Iptables :=
  (if supports4 o then masquerade_rules (vx_IP (lo_LocalCIDRs o)) (vx_IP (lo_BridgeCIDRs o)) VXLAN_BRIDGE_NAME else []) ++
  (if supports6 o then masquerade_rules (vx_IP6 (lo_LocalCIDRs o)) (vx_IP6 (lo_BridgeCIDRs o)) VXLAN_BRIDGE_NAME_6 else []).

Definition d_host (c : Context) : delta :=
  let f := ctx_Filter c in
  d_sum (fun n => if Cluster_IsP2P (node_cluster f n) then d_none
                  else d_at (cn_Name n) (d_iptables (host_rules (node_opts f n)))) (GetGatewayNodes f).

Section Range.
Context (range : gmap string string -> list (string * string)).

Definition d_global (c : Context) : delta :=
  let f := ctx_Filter c in
  d_sum (fun n => d_sum (fun sd => d_at (cn_Name n) (d_iptables (global_rules (fst sd) (snd sd))))
                        (range (lo_GlobalCIDRsMap (node_opts f n)))) (GetGatewayNodes f ++ endpoint_nodes f).

Lemma no_dev_host c : no_dev (d_host c).
Proof. apply no_dev_sum. intros n _. destruct (Cluster_IsP2P _); auto with kosmos. Qed.
Lemma no_dev_global c : no_dev (d_global c).
Proof. unfold d_global. auto with kosmos. Qed.

Lemma iptables_runs l name c : is_Some (ctx_Results c !! name) ->
  runs (update (add_Iptables l) name c) (d_at name (d_iptables l)) c.
Proof.
  intros Hc. apply runs_update; [|done]. intros nc. unfold nc_app; simpl. by rewrite !app_nil_r.
Qed.

Lemma HostNetwork_runs c : ctx_ok c ->
  exists c', HostNetwork_Do c = Ret (c', None) /\ applies (d_host c) c c'.
Proof.
  intros Hc. apply runs_nil_err, runs_foldM; [intros n _; destruct (Cluster_IsP2P _); auto with kosmos|].
  intros n c' [Hn _]%GetGatewayNodes_elem V. pose proof V as (E & _ & _).
  destruct (get_cluster _ (proj1 Hc) n Hn) as [Hcl Ho]. cbv zeta. rewrite E, Hcl. cbn [mbind outcome_bind deref].
  destruct (Cluster_IsP2P _); [apply runs_ret|].
  rewrite SupportIPv4_ok, SupportIPv6_ok by (done || apply Hc). cbn [mbind outcome_bind].
  rewrite Ho. cbn [mbind outcome_bind deref]. set (o := node_opts _ n).
  assert (Hs : is_Some (ctx_Results c' !! cn_Name n)) by (eapply view_dom; [done|by apply Hc]).
  eapply runs_ext; [|apply (runs_bind _ _
    (if supports4 o then d_at (cn_Name n) (d_iptables (masquerade_rules (vx_IP (lo_LocalCIDRs o)) (vx_IP (lo_BridgeCIDRs o)) VXLAN_BRIDGE_NAME)) else d_none)
    (if supports6 o then d_at (cn_Name n) (d_iptables (masquerade_rules (vx_IP6 (lo_LocalCIDRs o)) (vx_IP6 (lo_BridgeCIDRs o)) VXLAN_BRIDGE_NAME_6)) else d_none))].
  - intros k. unfold host_rules, d_app, d_at. destruct (supports4 o), (supports6 o); by case_decide.
  - destruct (supports4 o); [by apply iptables_runs|apply runs_ret].
  - destruct (supports4 o); auto with kosmos.
  - intros c2 V2. destruct (supports6 o); [|apply runs_ret]. apply iptables_runs. by eapply view_dom.
Qed.

Lemma GlobalMap_runs c : ctx_ok c ->
  exists c', GlobalMap_Do range c = Ret (c', None) /\ applies (d_global c) c c'.
Proof.
  intros Hc. unfold GlobalMap_Do. rewrite bridge_nodes_ok by apply Hc. cbn [mbind outcome_bind].
  apply runs_nil_err, runs_foldM; [auto with kosmos|].
  intros n c' Hn%bridge_nodes_elem V. pose proof V as (E & _ & _).
  destruct (get_cluster _ (proj1 Hc) n Hn) as [Hcl Ho]. rewrite E, Hcl. cbn [mbind outcome_bind deref].
  rewrite Ho. cbn [mbind outcome_bind deref]. apply runs_foldM; [auto with kosmos|].
  intros sd c2 _ V2. apply iptables_runs. eapply view_dom; [done|]. eapply view_dom; [done|]. by apply Hc.
Qed.

(** The rules of the specification: a gateway outside P2P mode masquerades both
overlays, and every node with a bridge maps its cluster's global CIDRs. *)
Inductive translates (f : Filter) (n : ClusterNode) : Iptables -> Prop :=
  | translates_host r : n ∈ GetGatewayNodes f -> Cluster_IsP2P (node_cluster f n) = false ->
      r ∈ host_rules (node_opts f n) -> translates f n r
  | translates_global r src dst : n ∈ GetGatewayNodes f ++ endpoint_nodes f ->
      lo_GlobalCIDRsMap (node_opts f n) !! src = Some dst ->
      r ∈ global_rules src dst -> translates f n r.

Lemma iptables_of_handlers c k r :
  (forall m, Permutation (range m) (map_to_list m)) ->
  r ∈ nc_Iptables (d_app (d_host c) (d_global c) k) <->
  exists n, n ∈ f_clusterNodes (ctx_Filter c) /\ cn_Name n = k /\ translates (ctx_Filter c) n r.
Proof.
  intros Hr. rewrite elem_d_app. unfold d_host, d_global. rewrite !elem_d_sum.
  setoid_rewrite elem_d_sum. setoid_rewrite elem_d_at. setoid_rewrite Hr.
  setoid_rewrite elem_of_map_to_list'. split.
  - intros [(n & Hn & H)|(n & Hn & (s & d) & Hs & -> & H)]; exists n.
    + pose proof (GetGatewayNodes_elem _ _ Hn) as [? _].
      destruct (Cluster_IsP2P _) eqn:E; [by apply elem_of_nil in H|].
      apply elem_d_at in H as [-> H]. eauto using translates_host.
    + pose proof (bridge_nodes_elem _ _ Hn). eauto using translates_global.
  - intros (n & Hn & <- & [r' Hg Hp Hin|r' s d Hg Hs Hin]); [left|right].
    + exists n. split; [done|]. rewrite Hp. by apply elem_d_at.
    + exists n. split; [done|]. exists (s, d). eauto.
Qed.
End Range.
#[export] Hint Resolve no_dev_host no_dev_global : kosmos.
