(* ===== verification/LinkDevices.v ===== *)
(** The devices: what [InitNodes], [VxLocalNetwork] and [VxBridgeNetwork] leave
in the results (handlers/init_nodes.go, vxlocal_network.go, vxbridge_network.go),
against the devices the topology asks for. *)
From S2P Require Import Prelude GoNet LinkApi LinkVxlan LinkFilter LinkHandlers LinkEffects LinkRoutes LinkCaches.

(** * Specification *)

Definition overlay_cidr (o : ClusterLinkOptions) (v : overlay) (t : string) : string :=
  let cidrs := match v with Local => lo_LocalCIDRs o | Bridge => lo_BridgeCIDRs o end in
  if t =s IPFamilyTypeIPV4 then vx_IP cidrs else vx_IP6 cidrs.

Definition device_id (v : overlay) (t : string) : Z :=
  match v with
  | Local => if t =s IPFamilyTypeIPV4 then VXLAN_LOCAL_ID else VXLAN_LOCAL_ID_6
  | Bridge => if t =s IPFamilyTypeIPV4 then VXLAN_BRIDGE_ID else VXLAN_BRIDGE_ID_6
  end.
Definition device_port (v : overlay) (t : string) : Z :=
  match v with
  | Local => if t =s IPFamilyTypeIPV4 then VXLAN_LOCAL_PORT else VXLAN_LOCAL_PORT_6
  | Bridge => if t =s IPFamilyTypeIPV4 then VXLAN_BRIDGE_PORT else VXLAN_BRIDGE_PORT_6
  end.

(** The nodes of an overlay: all nodes of a gateway cluster have a local device,
gateways and endpoints a bridge. *)
Definition members (f : Filter) (v : overlay) : list ClusterNode :=
  match v with
  | Local => GetGatewayClusterNodes f
  | Bridge => GetGatewayNodes f ++ endpoint_nodes f
  end.

Definition wanted (f : Filter) (v : overlay) (t : string) (n : ClusterNode) : Prop :=
  n ∈ members f v /\ supports (node_opts f n) t = true /\ host_ip n t <> "" /\
  overlay_cidr (node_opts f n) v t <> "".

#[export] Instance ClusterNode_eq_dec : EqDecision ClusterNode.
Proof. solve_decision. Defined.
#[export] Instance overlay_eq_dec : EqDecision overlay.
Proof. solve_decision. Defined.
#[export] Instance wanted_dec f v t n : Decision (wanted f v t n).
Proof. unfold wanted. apply _. Defined.

(** The address the device gets. *)
Definition device_addr (f : Filter) (v : overlay) (t : string) (n : ClusterNode) : outcome (result string) :=
  GenerateVxlanIP (host_ip n t) (overlay_cidr (node_opts f n) v t).

(** The MAC address recorded for a device, when there is one. *)
Definition old_mac (f : Filter) (n : ClusterNode) (name : string) : option string :=
  old ← GetDeviceFromNodeConfig f (cn_Name n) name;
  if str_empty (dev_Mac old) then None else Some (dev_Mac old).

(** The device [createVx...] dereferences exists: a device that is recorded with a
MAC address can be built again. *)
Definition rebuildable (f : Filter) : Prop :=
  forall v t n, wanted f v t n -> is_Some (old_mac f n (device_name v t)) ->
  exists addr, device_addr f v t n = Ret (inl addr).

Section Devices.
Context (rand : nat -> option (list Z)).

(** A recorded MAC address is kept, otherwise one is generated. *)
Definition mac_for (f : Filter) (n : ClusterNode) (name mac : string) : Prop :=
  match old_mac f n name with
  | Some m => mac = m
  | None => exists i, mac = Mac_String (GenerateMac (rand i))
  end.

Definition device_of (f : Filter) (v : overlay) (t : string) (n : ClusterNode) (dev : Device) : Prop :=
  exists addr mac, device_addr f v t n = Ret (inl addr) /\ mac_for f n (device_name v t) mac /\
    dev = mkDevice VxlanDevice (device_name v t) addr mac (cn_InterfaceName n) (device_id v t) (device_port v t).

(** * One device *)

Lemma BuildVxlanDevice_ok r v t u d b :
  BuildVxlanDevice r (device_name v t) u d b =
  (a ← GenerateVxlanIP u d;
   match a with
   | inr _ => Ret None
   | inl addr => Ret (Some (mkDevice VxlanDevice (device_name v t) addr (Mac_String (GenerateMac r)) b
                              (device_id v t) (device_port v t)))
   end).
Proof.
  unfold BuildVxlanDevice, device_name, device_id, device_port.
  destruct v; destruct (bool_decide (t = IPFamilyTypeIPV4)); reflexivity.
Qed.

Lemma createVx_ok c v t n :
  let f := ctx_Filter c in
  (is_Some (old_mac f n (device_name v t)) -> exists addr, device_addr f v t n = Ret (inl addr)) ->
  exists c' r, createVx rand (device_name v t) (host_ip n t) (overlay_cidr (node_opts f n) v t) c n = Ret (c', r) /\
    ctx_Filter c' = f /\ ctx_Results c' = ctx_Results c /\
    match r with
    | Some dev => device_of f v t n dev
    | None => exists err, device_addr f v t n = Ret (inr err)
    end.
Proof.
  intros f Hb. unfold createVx. rewrite BuildVxlanDevice_ok. fold f. fold (device_addr f v t n).
  assert (exists r, device_addr f v t n = Ret r) as [[addr|err] Ha] by apply GenerateVxlanIP_total.
  - rewrite Ha. cbn [mbind outcome_bind].
    assert (Hm : forall mac, mac_for f n (device_name v t) mac -> device_of f v t n (mkDevice VxlanDevice
      (device_name v t) addr mac (cn_InterfaceName n) (device_id v t) (device_port v t))).
    { intros mac Hmac. by exists addr, mac. }
    unfold mac_for, old_mac in Hm. destruct (GetDeviceFromNodeConfig f _ _) as [old|]; simpl in *.
    + destruct (str_empty (dev_Mac old)); simpl in *; eexists _, _; (split; [reflexivity|]); eauto 10.
    + eexists _, _; split; [reflexivity|]; eauto 10.
  - rewrite Ha. cbn [mbind outcome_bind]. unfold old_mac in Hb.
    destruct (GetDeviceFromNodeConfig f _ _) as [old|]; simpl in *; [|by eexists _, _; split; [reflexivity|]; eauto].
    destruct (str_empty (dev_Mac old)); simpl in *; [by eexists _, _; split; [reflexivity|]; eauto|].
    destruct Hb as [a Hb]; [eauto|]. rewrite Ha in Hb. done.
Qed.

(** * The loops *)

Definition job : Type := overlay * string * ClusterNode.

(** After the jobs [js]: the devices are those of the jobs, and nothing else. *)
Record devices_inv (f : Filter) (js : list job) (c : Context) : Prop := {
  di_filter : ctx_Filter c = f;
  di_dom : forall k, is_Some (ctx_Results c !! k) <-> exists n, n ∈ f_clusterNodes f /\ cn_Name n = k;
  di_only : forall k nc, ctx_Results c !! k = Some nc -> nc = mkNodeConfig (nc_Devices nc) [] [] [] [];
  di_sound : forall k nc dev, ctx_Results c !! k = Some nc -> dev ∈ nc_Devices nc ->
    exists v t n, (v, t, n) ∈ js /\ cn_Name n = k /\ wanted f v t n /\ device_of f v t n dev;
  di_complete : forall v t n addr, (v, t, n) ∈ js -> wanted f v t n -> device_addr f v t n = Ret (inl addr) ->
    exists nc dev, ctx_Results c !! cn_Name n = Some nc /\ dev ∈ nc_Devices nc /\ device_of f v t n dev }.

(** The rules an invariant of the loops needs: a job that adds nothing, and a job
that adds its device. *)
Class JobInv (f : Filter) (I : list job -> Context -> Prop) : Prop := {
  ji_filter : forall js c, I js c -> ctx_Filter c = f;
  ji_dom : forall js c n, I js c -> n ∈ f_clusterNodes f -> is_Some (ctx_Results c !! cn_Name n);
  ji_skip : forall js v t n c c', I js c -> ctx_Filter c' = f -> ctx_Results c' = ctx_Results c ->
    (wanted f v t n -> forall addr, device_addr f v t n <> Ret (inl addr)) -> I (js ++ [(v, t, n)]) c';
  ji_add : forall js v t n c c' dev, I js c -> ctx_Filter c' = f -> wanted f v t n -> device_of f v t n dev ->
    (exists nc, ctx_Results c !! cn_Name n = Some nc /\
       ctx_Results c' = <[cn_Name n := add_Devices [dev] nc]> (ctx_Results c)) -> I (js ++ [(v, t, n)]) c' }.

Lemma devices_inv_skip f js v t n c c' : devices_inv f js c ->
  ctx_Filter c' = f -> ctx_Results c' = ctx_Results c ->
  (wanted f v t n -> forall addr, device_addr f v t n <> Ret (inl addr)) ->
  devices_inv f (js ++ [(v, t, n)]) c'.
Proof.
  intros [H1 H2 H3 H4 H5] Hf Hr Hn. split; rewrite ?Hr; [done..| |].
  - intros k nc dev Hk Hd. destruct (H4 k nc dev Hk Hd) as (v' & t' & n' & Hj & ?).
    exists v', t', n'. rewrite elem_of_app. eauto.
  - intros v' t' n' addr [Hj|Hj]%elem_of_app Hw Ha; [eauto|].
    apply list_elem_of_singleton in Hj. simplify_eq. by destruct (Hn Hw addr).
Qed.

Lemma devices_inv_add f js v t n c c' dev : devices_inv f js c ->
  ctx_Filter c' = f -> wanted f v t n -> device_of f v t n dev ->
  (exists nc, ctx_Results c !! cn_Name n = Some nc /\
     ctx_Results c' = <[cn_Name n := add_Devices [dev] nc]> (ctx_Results c)) ->
  devices_inv f (js ++ [(v, t, n)]) c'.
Proof.
  intros [H1 H2 H3 H4 H5] Hf Hw Hd (nc & Hnc & Hr). split; [done|..]; rewrite ?Hr.
  - intros k. rewrite <- H2. destruct (decide (cn_Name n = k)) as [<-|Hne].
    + rewrite lookup_insert_eq, Hnc. split; eauto.
    + by rewrite lookup_insert_ne.
  - intros k nc'. destruct (decide (cn_Name n = k)) as [<-|Hne].
    + rewrite lookup_insert_eq. intros [= <-]. rewrite (H3 _ _ Hnc). done.
    + rewrite lookup_insert_ne by done. apply H3.
  - intros k nc' dev'. destruct (decide (cn_Name n = k)) as [<-|Hne].
    + rewrite lookup_insert_eq. intros [= <-]. simpl. intros [Hin|Hin]%elem_of_app.
      * destruct (H4 _ _ _ Hnc Hin) as (v' & t' & n' & Hj & ?). exists v', t', n'. rewrite elem_of_app. eauto.
      * apply list_elem_of_singleton in Hin as ->. exists v, t, n. rewrite elem_of_app, list_elem_of_singleton. eauto.
    + rewrite lookup_insert_ne by done. intros Hk Hin.
      destruct (H4 _ _ _ Hk Hin) as (v' & t' & n' & Hj & ?). exists v', t', n'. rewrite elem_of_app. eauto.
  - intros v' t' n' addr Hj Hw' Ha.
    assert (Hold : (exists nc' dev', ctx_Results c !! cn_Name n' = Some nc' /\ dev' ∈ nc_Devices nc' /\
       device_of f v' t' n' dev') \/ (v', t', n') = (v, t, n)).
    { apply elem_of_app in Hj as [Hj|Hj%list_elem_of_singleton]; [left; eauto|by right]. }
    destruct Hold as [(nc' & dev' & Hk & Hin & Hdev)|[= -> -> ->]].
    + destruct (decide (cn_Name n = cn_Name n')) as [E|Hne].
      * rewrite <- E, lookup_insert_eq. rewrite <- E in Hk. rewrite Hnc in Hk. injection Hk as ->.
        eexists _, dev'. split; [done|]. split; [|done]. simpl. apply elem_of_app. by left.
      * rewrite lookup_insert_ne by done. eauto.
    + rewrite lookup_insert_eq. eexists _, dev. split; [done|]. split; [|done]. simpl. set_solver.
Qed.

#[export] Instance devices_inv_job f : JobInv f (devices_inv f).
Proof.
  split; [intros js c H; apply H|intros js c n H Hn; apply (di_dom _ _ _ H); eauto
         |apply devices_inv_skip|apply devices_inv_add].
Qed.

Section Loop.
Context (f : Filter) (Hrb : rebuildable f) (Hf : filter_ok f).
Context (I : list job -> Context -> Prop) {HI : JobInv f I}.

(** One call of [add_device]. *)
Lemma add_device_ok js v t n c need :
  n ∈ members f v -> n ∈ f_clusterNodes f -> I js c ->
  need = Ret (supports (node_opts f n) t) ->
  exists c', add_device (needToCreate need (host_ip n t) (overlay_cidr (node_opts f n) v t))
      (createVx rand (device_name v t) (host_ip n t) (overlay_cidr (node_opts f n) v t)) c n = Ret c' /\
    I (js ++ [(v, t, n)]) c'.
Proof.
  intros Hm Hn Hinv ->. unfold add_device, needToCreate. cbn [mbind outcome_bind].
  pose proof (ji_filter _ _ Hinv) as Ef.
  destruct (supports (node_opts f n) t && negb (str_empty (host_ip n t)) &&
            negb (str_empty (overlay_cidr (node_opts f n) v t))) eqn:E.
  - assert (Hw : wanted f v t n).
    { breflect. rewrite str_empty_false in *. by split_and!. }
    destruct (createVx_ok c v t n) as (c1 & r & Hc & Hf1 & Hr1 & Hd); rewrite Ef in *;
      [by apply Hrb|]. rewrite Hc. cbn [mbind outcome_bind fst snd].
    destruct r as [dev|].
    + destruct (ji_dom _ _ n Hinv Hn) as [nc Hnc]. unfold update. rewrite Hr1, Hnc. cbn. eexists. split; [done|].
      eapply ji_add; [done|done|done|done|]. exists nc. simpl. by rewrite ?Hr1.
    + destruct Hd as [err Ha]. exists c1. split; [done|].
      eapply ji_skip; [done|done|done|]. intros _ addr Ha'. by rewrite Ha in Ha'.
  - exists c. split; [done|]. eapply ji_skip; [done|done|done|]. intros (_ & H1 & H2 & H3).
    rewrite <- str_empty_false in *. rewrite H1, H2, H3 in E. done.
Qed.

Definition jobs (v : overlay) (nodes : list ClusterNode) : list job :=
  flat_map (fun n => [(v, IPFamilyTypeIPV4, n); (v, IPFamilyTypeIPV6, n)]) nodes.

(** The body of both loops. *)
Lemma network_step js v n c : n ∈ members f v -> n ∈ f_clusterNodes f -> I js c ->
  exists c', (c1 ← add_device (needToCreate (SupportIPv4 f n) (host_ip n IPFamilyTypeIPV4) (overlay_cidr (node_opts f n) v IPFamilyTypeIPV4))
            (createVx rand (device_name v IPFamilyTypeIPV4) (host_ip n IPFamilyTypeIPV4) (overlay_cidr (node_opts f n) v IPFamilyTypeIPV4)) c n;
          add_device (needToCreate (SupportIPv6 f n) (host_ip n IPFamilyTypeIPV6) (overlay_cidr (node_opts f n) v IPFamilyTypeIPV6))
            (createVx rand (device_name v IPFamilyTypeIPV6) (host_ip n IPFamilyTypeIPV6) (overlay_cidr (node_opts f n) v IPFamilyTypeIPV6)) c1 n) = Ret c' /\
    I (js ++ jobs v [n]) c'.
Proof.
  intros Hm Hn Hinv.
  destruct (add_device_ok js v IPFamilyTypeIPV4 n c (SupportIPv4 f n)) as (c1 & -> & H1);
    [done..|by rewrite SupportIPv4_ok|]. cbn [mbind outcome_bind].
  destruct (add_device_ok (js ++ [(v, IPFamilyTypeIPV4, n)]) v IPFamilyTypeIPV6 n c1 (SupportIPv6 f n))
    as (c2 & E2 & H2); [done..|by rewrite SupportIPv6_ok|].
  exists c2. split; [done|]. by rewrite <- app_assoc in H2.
Qed.

Lemma network_loop js v (body : Context -> ClusterNode -> outcome Context) nodes c :
  (forall n, n ∈ nodes -> n ∈ members f v /\ n ∈ f_clusterNodes f) ->
  (forall c n, body c n =
    (cluster ← deref (GetClusterByName (ctx_Filter c) (cn_ClusterName n));
     o ← deref (c_ClusterLinkOptions cluster);
     c1 ← add_device (needToCreate (SupportIPv4 (ctx_Filter c) n) (host_ip n IPFamilyTypeIPV4) (overlay_cidr o v IPFamilyTypeIPV4))
            (createVx rand (device_name v IPFamilyTypeIPV4) (host_ip n IPFamilyTypeIPV4) (overlay_cidr o v IPFamilyTypeIPV4)) c n;
     add_device (needToCreate (SupportIPv6 (ctx_Filter c) n) (host_ip n IPFamilyTypeIPV6) (overlay_cidr o v IPFamilyTypeIPV6))
            (createVx rand (device_name v IPFamilyTypeIPV6) (host_ip n IPFamilyTypeIPV6) (overlay_cidr o v IPFamilyTypeIPV6)) c1 n)) ->
  I js c ->
  exists c', foldM body nodes c = Ret c' /\ I (js ++ jobs v nodes) c'.
Proof.
  intros Hnodes Hbody Hinv.
  apply (foldM_prefix (fun pre c => I (js ++ jobs v pre) c)); [by rewrite app_nil_r|].
  intros pre n c1 Hn H1. destruct (Hnodes n Hn) as [Hm Hn']. rewrite Hbody, (ji_filter _ _ H1).
  destruct (get_cluster f Hf n Hn') as [Hc Ho]. rewrite Hc. cbn [mbind outcome_bind deref]. rewrite Ho.
  cbn [mbind outcome_bind deref].
  destruct (network_step (js ++ jobs v pre) v n c1 Hm Hn' H1) as (c2 & E & H2).
  exists c2. split; [exact E|]. unfold jobs in *. by rewrite flat_map_app, app_assoc.
Qed.

Lemma VxLocalNetwork_ok js c : I js c ->
  exists c', VxLocalNetwork_Do rand c = Ret (c', None) /\ I (js ++ jobs Local (members f Local)) c'.
Proof.
  intros Hinv. unfold VxLocalNetwork_Do. rewrite (ji_filter _ _ Hinv).
  destruct (network_loop js Local _ (members f Local) c
    (fun n Hn => conj Hn (GetGatewayClusterNodes_elem f n Hn)) (fun c n => eq_refl) Hinv) as (c' & E & H').
  exists c'. split; [exact (f_equal nil_err E)|done].
Qed.

Lemma VxBridgeNetwork_ok js c : I js c ->
  exists c', VxBridgeNetwork_Do rand c = Ret (c', None) /\ I (js ++ jobs Bridge (members f Bridge)) c'.
Proof.
  intros Hinv. unfold VxBridgeNetwork_Do. rewrite (ji_filter _ _ Hinv), bridge_nodes_ok by done.
  destruct (network_loop js Bridge _ (members f Bridge) c
    (fun n Hn => conj Hn (bridge_nodes_elem f n Hn)) (fun c n => eq_refl) Hinv) as (c' & E & H').
  exists c'. split; [exact (f_equal nil_err E)|done].
Qed.

End Loop.

Lemma InitNodes_ok c : exists c', InitNodes_Do c = Ret (c', None) /\ devices_inv (ctx_Filter c) [] c'.
Proof.
  eexists. split; [reflexivity|]. set (f := ctx_Filter c). set (init := fold_left _ _ _).
  assert (Hi : forall k nc, init !! k = Some nc <->
    nc = emptyNodeConfig /\ exists n, n ∈ f_clusterNodes f /\ cn_Name n = k).
  { unfold init, GetClusterNodes. fold f. generalize (f_clusterNodes f). intros l k nc.
    induction l as [|n l IH] using rev_ind; [set_solver|]. rewrite fold_left_app. simpl.
    destruct (decide (cn_Name n = k)) as [<-|Hne].
    - rewrite lookup_insert_eq. split; [intros [= <-]; split; [done|exists n; set_solver]|by intros [-> _]].
    - rewrite lookup_insert_ne by done. rewrite IH. set_solver. }
  split; simpl; [done|..].
  - intros k. split; [intros [nc H%Hi]; tauto|]. intros Hn. exists emptyNodeConfig. by apply Hi.
  - intros k nc [-> _]%Hi. done.
  - intros k nc dev [-> _]%Hi Hd. by apply elem_of_nil in Hd.
  - intros v t n addr Hj. by apply elem_of_nil in Hj.
Qed.

(** ** The exact lists of devices *)

Definition key (j : job) : string * string := (cn_Name (snd j), device_name (fst (fst j)) (snd (fst j))).

(** The device of a job, [M] giving the MAC address of each device of each node. *)
Definition job_device (f : Filter) (M : string -> string -> string) (j : job) : option Device :=
  let '(v, t, n) := j in
  if decide (wanted f v t n) then
    match device_addr f v t n with
    | Ret (inl addr) => Some (mkDevice VxlanDevice (device_name v t) addr (M (cn_Name n) (device_name v t))
                               (cn_InterfaceName n) (device_id v t) (device_port v t))
    | _ => None
    end
  else None.

Definition devices_list (f : Filter) (M : string -> string -> string) (k : string) (js : list job) : list Device :=
  collect (fun j => if decide (cn_Name (snd j) = k) then job_device f M j else None) js.

Record devices_exact (f : Filter) (js : list job) (c : Context) : Prop := {
  de_filter : ctx_Filter c = f;
  de_dom : forall n, n ∈ f_clusterNodes f -> is_Some (ctx_Results c !! cn_Name n);
  de_list : NoDup (map key js) -> exists M,
    (forall v t n addr, (v, t, n) ∈ js -> wanted f v t n -> device_addr f v t n = Ret (inl addr) ->
       mac_for f n (device_name v t) (M (cn_Name n) (device_name v t))) /\
    (forall k nc, ctx_Results c !! k = Some nc -> nc = mkNodeConfig (devices_list f M k js) [] [] [] []) }.

Lemma devices_list_snoc f M k js j :
  devices_list f M k (js ++ [j]) =
  devices_list f M k js ++ (if decide (cn_Name (snd j) = k) then option_list (job_device f M j) else []).
Proof.
  unfold devices_list. rewrite collect_app. f_equal. simpl. case_decide; [|done]. by destruct (job_device f M j).
Qed.

Lemma devices_list_ext f f' M M' k js :
  (forall j, j ∈ js -> cn_Name (snd j) = k -> job_device f M j = job_device f' M' j) ->
  devices_list f M k js = devices_list f' M' k js.
Proof.
  intros H. unfold devices_list. induction js as [|j js IH]; [done|]. simpl.
  rewrite IH by (intros j' Hj'; apply H; by right). case_decide; [|done]. by rewrite H by (done || by left).
Qed.

Lemma devices_exact_skip f js v t n c c' : devices_exact f js c ->
  ctx_Filter c' = f -> ctx_Results c' = ctx_Results c ->
  (wanted f v t n -> forall addr, device_addr f v t n <> Ret (inl addr)) ->
  devices_exact f (js ++ [(v, t, n)]) c'.
Proof.
  intros [H1 H2 H3] Hf Hr Hn. split; rewrite ?Hr; [done..|]. rewrite map_app, list.NoDup_app. intros (Hd & _ & _).
  destruct (H3 Hd) as (M & Hm & Hl). exists M. split.
  - intros v' t' n' addr [Hj|[= -> -> ->]%list_elem_of_singleton]%elem_of_app Hw Ha; [eauto|]. by destruct (Hn Hw addr).
  - intros k nc Hk. rewrite (Hl k nc Hk). f_equal. rewrite devices_list_snoc. unfold job_device.
    case_decide; [|by rewrite app_nil_r]. case_decide as Hw; [|by rewrite app_nil_r].
    destruct (device_addr f v t n) as [[addr|]|] eqn:E; [by destruct (Hn Hw addr)|by rewrite app_nil_r..].
Qed.

Definition set_mac (M : string -> string -> string) (k name mac : string) : string -> string -> string :=
  fun k' name' => if decide ((k', name') = (k, name)) then mac else M k' name'.

Lemma set_mac_fresh f M k name mac j : key j <> (k, name) -> job_device f (set_mac M k name mac) j = job_device f M j.
Proof.
  destruct j as [[v t] n]. unfold key, job_device, set_mac. simpl. intros Hne.
  case_decide; [|done]. destruct (device_addr f v t n) as [[addr|]|]; [|done..]. by rewrite decide_False.
Qed.

Lemma devices_exact_add f js v t n c c' dev : devices_exact f js c ->
  ctx_Filter c' = f -> wanted f v t n -> device_of f v t n dev ->
  (exists nc, ctx_Results c !! cn_Name n = Some nc /\
     ctx_Results c' = <[cn_Name n := add_Devices [dev] nc]> (ctx_Results c)) ->
  devices_exact f (js ++ [(v, t, n)]) c'.
Proof.
  intros [H1 H2 H3] Hf Hw (addr & mac & Ha & Hmac & ->) (nc & Hnc & Hr). split; [done|..]; rewrite ?Hr.
  { intros n' Hn'. destruct (decide (cn_Name n = cn_Name n')) as [->|Hne];
      [rewrite lookup_insert_eq; eauto|rewrite lookup_insert_ne by done; eauto]. }
  rewrite map_app, list.NoDup_app. intros (Hnd & Hdis & _). destruct (H3 Hnd) as (M & Hm & Hl).
  assert (Hfresh : forall j, j ∈ js -> key j <> (cn_Name n, device_name v t)).
  { intros j Hj E. apply (Hdis (key j)); [by apply list_elem_of_fmap_2|]. rewrite E. by left. }
  exists (set_mac M (cn_Name n) (device_name v t) mac).
  assert (Hold : forall k, devices_list f (set_mac M (cn_Name n) (device_name v t) mac) k js = devices_list f M k js).
  { intros k. apply devices_list_ext. intros j Hj _. apply set_mac_fresh. by apply Hfresh. }
  split.
  - intros v' t' n' addr' [Hj|[= -> -> ->]%list_elem_of_singleton]%elem_of_app Hw' Ha'.
    + unfold set_mac. rewrite decide_False by exact (Hfresh _ Hj). eauto.
    + unfold set_mac. by rewrite decide_True.
  - intros k nc'. rewrite devices_list_snoc, Hold. simpl. destruct (decide (cn_Name n = k)) as [<-|Hne].
    + rewrite lookup_insert_eq. intros [= <-]. rewrite (Hl _ _ Hnc). rewrite decide_True by done. rewrite Ha.
      unfold add_Devices, set_mac. simpl. by rewrite decide_True.
    + rewrite lookup_insert_ne by done. intros Hk. by rewrite app_nil_r, (Hl _ _ Hk).
Qed.

#[export] Instance devices_exact_job f : JobInv f (devices_exact f).
Proof.
  split; [intros js c H; apply H|intros js c n H Hn; by apply (de_dom _ _ _ H)
         |apply devices_exact_skip|apply devices_exact_add].
Qed.

#[export] Instance JobInv_and f I1 I2 : JobInv f I1 -> JobInv f I2 -> JobInv f (fun js c => I1 js c /\ I2 js c).
Proof.
  intros HI1 HI2. split.
  - intros js c [H _]. exact (ji_filter js c H).
  - intros js c n [H _]. exact (ji_dom js c n H).
  - intros js v t n c c' [Ha Hb] H1 H2 H3.
    exact (conj (ji_skip js v t n c c' Ha H1 H2 H3) (ji_skip js v t n c c' Hb H1 H2 H3)).
  - intros js v t n c c' dev [Ha Hb] H1 H2 H3 H4.
    exact (conj (ji_add js v t n c c' dev Ha H1 H2 H3 H4) (ji_add js v t n c c' dev Hb H1 H2 H3 H4)).
Qed.

Lemma InitNodes_exact c : exists c', InitNodes_Do c = Ret (c', None) /\
  devices_inv (ctx_Filter c) [] c' /\ devices_exact (ctx_Filter c) [] c'.
Proof.
  destruct (InitNodes_ok c) as (c' & E & H). exists c'. split; [done|]. split; [done|].
  split; [apply H|intros n Hn; apply (di_dom _ _ _ H); eauto|]. intros _. exists (fun _ _ => "").
  split; [by intros v t n addr Hj%elem_of_nil|]. intros k nc Hk.
  assert (nc_Devices nc = []) as E0.
  { destruct (nc_Devices nc) as [|d l] eqn:Ed; [done|].
    destruct (di_sound _ _ _ H k nc d Hk) as (? & ? & ? & Hj & _); [rewrite Ed; by left|]. by apply elem_of_nil in Hj. }
  rewrite (di_only _ _ _ H k nc Hk), E0. done.
Qed.

Definition all_jobs (f : Filter) : list job := jobs Local (members f Local) ++ jobs Bridge (members f Bridge).

Lemma all_jobs_elem f v t n : wanted f v t n -> (v, t, n) ∈ all_jobs f.
Proof.
  intros (Hm & Hs & _). rewrite <- families_elem in Hs. apply families_cases in Hs.
  unfold all_jobs, jobs. rewrite elem_of_app, !list_elem_of_In, !in_flat_map.
  destruct v; [left|right]; exists n; rewrite <- list_elem_of_In; (split; [done|]);
    destruct Hs as [-> | ->]; simpl; auto.
Qed.

Lemma devices_inv_ctx_ok f js c : filter_ok f -> devices_inv f js c -> ctx_ok c.
Proof.
  intros Hf H. split; rewrite (di_filter _ _ _ H); [done|]. intros n Hn.
  apply (di_dom _ _ _ H). eauto.
Qed.

End Devices.
