(* ===== verification/LinkJson.v ===== *)
(** Serialisation and order of the configurations: [NodeConfig.ToString],
[Manager.GetConfigsString] and the sorters of helpers/sort.go, and [NodeConfig.Sort] of
handlers/nodeconfig.go. *)
From S2P Require Import Prelude GoJson LinkApi.

(** * Objects *)

#[export] Instance Device_marshal : Marshal Device := fun d =>
  object [field "type" (marshal (dev_Type d)); field "name" (marshal (dev_Name d));
          field "addr" (marshal (dev_Addr d)); field "mac" (marshal (dev_Mac d));
          field "bindDev" (marshal (dev_BindDev d)); field "id" (marshal (dev_ID d));
          field "port" (marshal (dev_Port d))].
#[export] Instance Route_marshal : Marshal Route := fun r =>
  object [field "cidr" (marshal (rt_CIDR r)); field "gw" (marshal (rt_Gw r)); field "dev" (marshal (rt_Dev r))].
#[export] Instance Iptables_marshal : Marshal Iptables := fun i =>
  object [field "table" (marshal (ipt_Table i)); field "chain" (marshal (ipt_Chain i)); field "rule" (marshal (ipt_Rule i))].
#[export] Instance Fdb_marshal : Marshal Fdb := fun f =>
  object [field "ip" (marshal (fdb_IP f)); field "mac" (marshal (fdb_Mac f)); field "dev" (marshal (fdb_Dev f))].
#[export] Instance Arp_marshal : Marshal Arp := fun a =>
  object [field "ip" (marshal (arp_IP a)); field "mac" (marshal (arp_Mac a)); field "dev" (marshal (arp_Dev a))].

(** A slice tagged [omitempty]. *)
Definition omitempty {A} `{Marshal A} (name : string) (l : list A) : list string :=
  match l with [] => [] | _ => [field name (marshal l)] end.

#[export] Instance NodeConfig_marshal : Marshal NodeConfig := fun c =>
  object (omitempty "devices" (nc_Devices c) ++ omitempty "routes" (nc_Routes c) ++
          omitempty "iptables" (nc_Iptables c) ++ omitempty "fdbs" (nc_Fdbs c) ++ omitempty "arps" (nc_Arps c)).
#[export] Instance NodeConfigSpec_marshal : Marshal NodeConfigSpec := fun s =>
  object (omitempty "devices" (elems (spec_Devices s)) ++ omitempty "routes" (elems (spec_Routes s)) ++
          omitempty "iptables" (elems (spec_Iptables s)) ++ omitempty "fdbs" (elems (spec_Fdbs s)) ++
          omitempty "arps" (elems (spec_Arps s))).

(** [NodeConfig.ToString] *)
Definition ToString (c : NodeConfig) : string := marshal c.

(** * Sorting *)

(** [Less] of the sorters is "the text is greater": [sort.Sort] puts the texts in
descending order.  It leaves the order of elements with the same text open. *)
Definition Less {A} `{Marshal A} (x y : A) : bool := negb (String.leb (marshal x) (marshal y)).

Definition not_after {A} `{Marshal A} (x y : A) : Prop := Less y x = false.
#[export] Instance not_after_dec {A} `{Marshal A} : RelDecision (not_after (A:=A)).
Proof. intros x y. unfold not_after. apply _. Defined.

Definition sort_Sort {A} `{Marshal A} (l : list A) : list A := merge_sort not_after l.

Definition Sort (c : NodeConfig) : NodeConfig :=
  mkNodeConfig (sort_Sort (nc_Devices c)) (sort_Sort (nc_Routes c)) (sort_Sort (nc_Iptables c))
               (sort_Sort (nc_Fdbs c)) (sort_Sort (nc_Arps c)).

(** * Facts *)

Lemma String_leb_le s t : String.leb s t = true <-> String.le s t.
Proof. unfold String.le. by rewrite <- Is_true_true. Qed.

Section Sorting.
Context {A : Type} `{Marshal A}.

Lemma not_after_le (x y : A) : not_after x y <-> String.le (marshal y) (marshal x).
Proof. unfold not_after, Less. rewrite negb_false_iff. apply String_leb_le. Qed.

#[export] Instance not_after_trans : Transitive (not_after (A:=A)).
Proof. intros x y z. rewrite !not_after_le. intros H1 H2. by transitivity (marshal y). Qed.
#[export] Instance not_after_total : Total (not_after (A:=A)).
Proof. intros x y. rewrite !not_after_le. apply (total String.le). Qed.

Lemma sort_Sort_perm (l : list A) : sort_Sort l ≡ₚ l.
Proof. apply merge_sort_Permutation. Qed.

Lemma sort_Sort_sorted (l : list A) : Sorted not_after (sort_Sort l).
Proof. apply Sorted_merge_sort. apply _. Qed.

#[local] Instance flip_le_anti : AntiSymm (=) (flip String.le).
Proof. intros s t H1 H2. by apply (anti_symm String.le). Qed.
#[local] Instance flip_le_trans : Transitive (flip String.le).
Proof. intros s t u H1 H2. unfold flip in *. by transitivity t. Qed.

(** Any two sorted arrangements of the same elements print alike: the text does
not depend on the sorting algorithm nor on the order before it. *)
Lemma sorted_map (l : list A) : Sorted not_after l -> Sorted (flip String.le) (map marshal l).
Proof.
  intros S%Sorted_StronglySorted; [|apply _]. apply StronglySorted_Sorted.
  induction S as [|x l Hs IH Hx]; simpl; [constructor|]. constructor; [done|].
  apply Forall_map. eapply List.Forall_impl; [|done]. intros y. by rewrite not_after_le.
Qed.

Lemma sorted_text (l1 l2 : list A) :
  Sorted not_after l1 -> Sorted not_after l2 -> l1 ≡ₚ l2 -> map marshal l1 = map marshal l2.
Proof.
  intros S1 S2 Hp. apply (Sorted_unique (flip String.le)); [by apply sorted_map..|].
  by apply Permutation_map.
Qed.

Lemma sort_Sort_text (l1 l2 : list A) : l1 ≡ₚ l2 -> map marshal (sort_Sort l1) = map marshal (sort_Sort l2).
Proof.
  intros Hp. apply sorted_text; [apply sort_Sort_sorted..|]. by rewrite !sort_Sort_perm.
Qed.

Lemma marshal_list_map (l1 l2 : list A) : map marshal l1 = map marshal l2 -> marshal l1 = marshal l2.
Proof. intros E. unfold marshal, marshal_list. by rewrite E. Qed.

Lemma omitempty_map name (l1 l2 : list A) : map marshal l1 = map marshal l2 -> omitempty name l1 = omitempty name l2.
Proof.
  intros E. pose proof (marshal_list_map _ _ E) as E'.
  destruct l1, l2; simpl in *; try done. by rewrite E'.
Qed.
End Sorting.

(** Configurations with the same elements, in whatever order. *)
Definition nc_perm (a b : NodeConfig) : Prop :=
  nc_Devices a ≡ₚ nc_Devices b /\ nc_Routes a ≡ₚ nc_Routes b /\ nc_Iptables a ≡ₚ nc_Iptables b /\
  nc_Fdbs a ≡ₚ nc_Fdbs b /\ nc_Arps a ≡ₚ nc_Arps b.

#[export] Instance nc_perm_equiv : Equivalence nc_perm.
Proof.
  split.
  - intros a. by repeat split.
  - intros a b (?&?&?&?&?). by repeat split.
  - intros a b c (?&?&?&?&?) (?&?&?&?&?). repeat split; by etransitivity.
Qed.

Lemma Sort_perm c : nc_perm (Sort c) c.
Proof. repeat split; apply sort_Sort_perm. Qed.

#[export] Instance Sort_text_proper : Proper (nc_perm ==> (=)) (fun c => ToString (Sort c)).
Proof.
  intros a b (H1 & H2 & H3 & H4 & H5). unfold ToString, marshal, NodeConfig_marshal, Sort. simpl.
  by rewrite (omitempty_map "devices" _ _ (sort_Sort_text _ _ H1)),
    (omitempty_map "routes" _ _ (sort_Sort_text _ _ H2)),
    (omitempty_map "iptables" _ _ (sort_Sort_text _ _ H3)),
    (omitempty_map "fdbs" _ _ (sort_Sort_text _ _ H4)),
    (omitempty_map "arps" _ _ (sort_Sort_text _ _ H5)).
Qed.
