(* ===== verification/LinkManager.v ===== *)
(** The network manager: [CalculateNetworkConfigs] of
clusterlink/network-manager/network_manager.go, from the objects of the API
server to the sorted configurations of the nodes, with the properties of the
whole calculation. *)
From S2P Require Import Prelude GoNet LinkApi LinkVxlan LinkFilter LinkHandlers LinkEffects LinkRoutes LinkCaches LinkDevices GoJson LinkJson.

(** * Definitions *)

Definition SortConfigs (configs : gmap string NodeConfig) : gmap string NodeConfig := Sort <$> configs.

Section Calculate.
Context (rand : nat -> option (list Z)) (range : gmap string string -> list (string * string)).

Definition CalculateNetworkConfigs (clusters : list Cluster) (clusterNodes : list ClusterNode)
    (nodeConfigs : list NodeConfigObj) : outcome (result (gmap string NodeConfig)) :=
  let '(cs, cns) := ExcludeInvalidItems clusters clusterNodes in
  let c := mkContext (NewFilter cs cns nodeConfigs) ∅ 0 in
  r ← Run (handler_chain rand range) c;
  match snd r with
  | Some err => Ret (inr ("filed to calculate network config, err: " +:+ err))
  | None => Ret (inl (SortConfigs (ctx_Results (fst r))))
  end.
End Calculate.

(** * The effects of the six last handlers, in sequence *)

#[export] Instance ServiceRoutes_effect : Effect ctx_ok ServiceRoutes_Do d_service.
Proof.
  split; [apply ServiceRoutes_runs| |auto with kosmos]. intros c c' k V. pose proof V as (E & _ & _).
  unfold d_service, d_sum. rewrite E. f_equal. apply map_ext. intros t. by apply d_build_view.
Qed.

#[export] Instance PodRoutes_effect : Effect ctx_ok PodRoutes_Do d_pod.
Proof.
  split; [apply PodRoutes_runs| |auto with kosmos]. intros c c' k V. pose proof V as (E & _ & _).
  unfold d_pod, d_sum. rewrite E. f_equal. apply map_ext. intros t. by apply d_build_view.
Qed.

#[export] Instance VxLocalMacCache_effect : Effect ctx_ok VxLocalMacCache_Do d_local.
Proof.
  split; [apply VxLocalMacCache_runs| |auto with kosmos]. intros c c' k V. pose proof V as (E & _ & _).
  unfold d_local, d_app, d_sum. rewrite E. f_equal; f_equal; apply map_ext; intros n.
  - unfold d_up. rewrite E. destruct (GetGatewayNodeByClusterName _ _); [|done].
    unfold d_sum. f_equal. apply map_ext. intros t. by apply d_peers_view.
  - by apply d_peers_view.
Qed.

#[export] Instance VxBridgeMacCache_effect : Effect ctx_ok VxBridgeMacCache_Do d_bridge.
Proof.
  split; [apply VxBridgeMacCache_runs| |auto with kosmos]. intros c c' k V. pose proof V as (E & _ & _).
  unfold d_bridge, d_sum. rewrite E. f_equal. apply map_ext. intros n. by apply d_peers_view.
Qed.

#[export] Instance HostNetwork_effect : Effect ctx_ok HostNetwork_Do d_host.
Proof.
  split; [apply HostNetwork_runs| |auto with kosmos]. intros c c' k (E & _ & _).
  unfold d_host. by rewrite E.
Qed.

#[export] Instance GlobalMap_effect range : Effect ctx_ok (GlobalMap_Do range) (d_global range).
Proof.
  split; [apply GlobalMap_runs| |auto with kosmos]. intros c c' k (E & _ & _).
  unfold d_global. by rewrite E.
Qed.

(** ** The components they touch *)

Lemma silent_build {B} (proj : NodeConfig -> list B) `{!Component proj} c t cidrs :
  (forall l, proj (d_routes l) = []) -> silent proj (d_build c t cidrs).
Proof.
  intros H. apply silent_sum. intros cidr. unfold d_cidr. destruct (device_ip _ _ _); [|apply silent_none].
  apply silent_sum. intros n. unfold d_route. destruct (route_spec _ _ _ _); [by apply silent_at|apply silent_none].
Qed.

Lemma silent_service {B} (proj : NodeConfig -> list B) `{!Component proj} c :
  (forall l, proj (d_routes l) = []) -> silent proj (d_service c).
Proof. intros H. apply silent_sum. intros t. by apply silent_build. Qed.
Lemma silent_pod {B} (proj : NodeConfig -> list B) `{!Component proj} c :
  (forall l, proj (d_routes l) = []) -> silent proj (d_pod c).
Proof. intros H. apply silent_sum. intros t. by apply silent_build. Qed.
Lemma silent_local {B} (proj : NodeConfig -> list B) `{!Component proj} c :
  (forall a b, proj (d_caches a b) = []) -> silent proj (d_local c).
Proof.
  intros H. apply silent_app; apply silent_sum; intros n; [|by apply silent_at].
  unfold d_up. destruct (GetGatewayNodeByClusterName _ _); [|apply silent_none].
  apply silent_sum. intros t. by apply silent_at.
Qed.
Lemma silent_bridge {B} (proj : NodeConfig -> list B) `{!Component proj} c :
  (forall a b, proj (d_caches a b) = []) -> silent proj (d_bridge c).
Proof. intros H. apply silent_sum. intros n. by apply silent_at. Qed.
Lemma silent_host {B} (proj : NodeConfig -> list B) `{!Component proj} c :
  (forall l, proj (d_iptables l) = []) -> silent proj (d_host c).
Proof. intros H. apply silent_sum. intros n. destruct (Cluster_IsP2P _); [apply silent_none|by apply silent_at]. Qed.
Lemma silent_global {B} (proj : NodeConfig -> list B) `{!Component proj} range c :
  (forall l, proj (d_iptables l) = []) -> silent proj (d_global range c).
Proof. intros H. apply silent_sum. intros n. apply silent_sum. intros sd. by apply silent_at. Qed.

Definition effects (range : gmap string string -> list (string * string)) : list (Context -> delta) :=
  [d_service; d_pod; d_local; d_bridge; d_host; d_global range].

Ltac unfold_sum := unfold d_sum at 1; cbn [map foldr]; rewrite !comp_app, comp_empty.

Lemma routes_of_effects range c k : nc_Routes (d_seq (effects range) c k) = nc_Routes (d_app (d_service c) (d_pod c) k).
Proof.
  unfold d_seq, d_app, effects. unfold_sum.
  rewrite (silent_local nc_Routes), (silent_bridge nc_Routes), (silent_host nc_Routes),
    (silent_global nc_Routes) by done. by rewrite !app_nil_r.
Qed.
Lemma fdbs_of_effects range c k : nc_Fdbs (d_seq (effects range) c k) = nc_Fdbs (d_app (d_local c) (d_bridge c) k).
Proof.
  unfold d_seq, d_app, effects. unfold_sum.
  rewrite (silent_service nc_Fdbs), (silent_pod nc_Fdbs), (silent_host nc_Fdbs),
    (silent_global nc_Fdbs) by done. by rewrite !app_nil_r.
Qed.
Lemma arps_of_effects range c k : nc_Arps (d_seq (effects range) c k) = nc_Arps (d_app (d_local c) (d_bridge c) k).
Proof.
  unfold d_seq, d_app, effects. unfold_sum.
  rewrite (silent_service nc_Arps), (silent_pod nc_Arps), (silent_host nc_Arps),
    (silent_global nc_Arps) by done. by rewrite !app_nil_r.
Qed.
Lemma iptables_of_effects range c k :
  nc_Iptables (d_seq (effects range) c k) = nc_Iptables (d_app (d_host c) (d_global range c) k).
Proof.
  unfold d_seq, d_app, effects. unfold_sum.
  rewrite (silent_service nc_Iptables), (silent_pod nc_Iptables), (silent_local nc_Iptables),
    (silent_bridge nc_Iptables) by done. by rewrite !app_nil_r.
Qed.
Lemma devices_of_effects range c k : nc_Devices (d_seq (effects range) c k) = [].
Proof.
  unfold d_seq, effects. unfold_sum.
  by rewrite (silent_service nc_Devices), (silent_pod nc_Devices), (silent_local nc_Devices),
    (silent_bridge nc_Devices), (silent_host nc_Devices), (silent_global nc_Devices).
Qed.

(** * The whole calculation *)

(** The filter of a calculation: the valid clusters and nodes. *)
Definition calc_filter (clusters : list Cluster) (nodes : list ClusterNode) (configs : list NodeConfigObj) : Filter :=
  let '(cs, cns) := ExcludeInvalidItems clusters nodes in NewFilter cs cns configs.

Lemma calc_filter_ok clusters nodes configs : filter_ok (calc_filter clusters nodes configs).
Proof.
  unfold calc_filter. destruct (ExcludeInvalidItems _ _) eqn:E. by eapply ExcludeInvalidItems_filter_ok.
Qed.

Lemma calc_filter_nodes clusters nodes configs n :
  n ∈ f_clusterNodes (calc_filter clusters nodes configs) -> n ∈ nodes.
Proof. unfold calc_filter, ExcludeInvalidItems. simpl. by intros [? _]%list_filter_spec. Qed.

(** [out] is the sorted result of the handlers after the devices of [c]. *)
Definition computed (range : gmap string string -> list (string * string)) (c : Context)
    (out : gmap string NodeConfig) : Prop :=
  forall k, out !! k = (fun nc => Sort (nc_app nc (d_seq (effects range) c k))) <$> ctx_Results c !! k.

Lemma calculation rand clusters nodes configs :
  let f := calc_filter clusters nodes configs in
  rebuildable f ->
  exists c, (devices_inv rand f (all_jobs f) c /\ devices_exact rand f (all_jobs f) c) /\ forall range, exists out,
    CalculateNetworkConfigs rand range clusters nodes configs = Ret (inl out) /\ computed range c out.
Proof.
  intros f Hrb. unfold CalculateNetworkConfigs. pose proof (calc_filter_ok clusters nodes configs) as Hf.
  fold f in Hf. unfold f, calc_filter in *. destruct (ExcludeInvalidItems clusters nodes) as [cs cns].
  set (f' := NewFilter cs cns configs) in *. unfold handler_chain.
  destruct (InitNodes_exact rand (mkContext f' ∅ 0)) as (c1 & E1 & H1). cbn [ctx_Filter] in H1.
  destruct (VxLocalNetwork_ok rand f' Hrb Hf (fun js c => devices_inv rand f' js c /\ devices_exact rand f' js c) _ c1 H1) as (c2 & E2 & H2).
  destruct (VxBridgeNetwork_ok rand f' Hrb Hf (fun js c => devices_inv rand f' js c /\ devices_exact rand f' js c) _ c2 H2) as (c3 & E3 & H3).
  change ([] ++ ?x) with x in H3. exists c3. split; [done|]. intros range.
  destruct (Run_effects ctx_ok [ServiceRoutes_Do; PodRoutes_Do; VxLocalMacCache_Do; VxBridgeMacCache_Do;
    HostNetwork_Do; GlobalMap_Do range] (effects range) c3 view_ok
    ltac:(repeat (apply List.Forall2_cons; [apply _|]); apply List.Forall2_nil)
    (devices_inv_ctx_ok rand f' _ c3 Hf (proj1 H3))) as (c4 & E4 & (_ & _ & H4)).
  exists (SortConfigs (ctx_Results c4)). split.
  - cbn [Run]. rewrite E1. cbn [mbind outcome_bind fst snd]. rewrite E2. cbn [mbind outcome_bind fst snd].
    rewrite E3. cbn [mbind outcome_bind fst snd]. cbn [Run] in E4. by rewrite E4.
  - intros k. unfold SortConfigs. rewrite lookup_fmap, H4. by destruct (ctx_Results c3 !! k).
Qed.

(** The components of a computed configuration. *)
Lemma computed_components rand range f js c out k nc :
  devices_inv rand f js c -> computed range c out -> out !! k = Some nc ->
  (exists nc0, ctx_Results c !! k = Some nc0 /\ nc_Devices nc ≡ₚ nc_Devices nc0) /\
  nc_Routes nc ≡ₚ nc_Routes (d_app (d_service c) (d_pod c) k) /\
  nc_Iptables nc ≡ₚ nc_Iptables (d_app (d_host c) (d_global range c) k) /\
  nc_Fdbs nc ≡ₚ nc_Fdbs (d_app (d_local c) (d_bridge c) k) /\
  nc_Arps nc ≡ₚ nc_Arps (d_app (d_local c) (d_bridge c) k).
Proof.
  intros Hd Hc Hk. rewrite Hc in Hk. destruct (ctx_Results c !! k) as [nc0|] eqn:E0; [|done].
  injection Hk as <-. rewrite (di_only _ _ _ _ Hd k nc0 E0).
  rewrite <- (routes_of_effects range), <- iptables_of_effects, <- (fdbs_of_effects range), <- (arps_of_effects range).
  split; [|by repeat split; apply sort_Sort_perm]. exists (mkNodeConfig (nc_Devices nc0) [] [] [] []).
  split; [by rewrite <- (di_only _ _ _ _ Hd k nc0 E0)|].
  etransitivity; [apply sort_Sort_perm|]. cbn [nc_app nc_Devices]. by rewrite devices_of_effects, app_nil_r.
Qed.

(** ** Addresses, from the objects alone *)

Definition overlay_of (name : string) : option (overlay * string) :=
  first (fun vt => device_name (fst vt) (snd vt) =s name)
    [(Local, IPFamilyTypeIPV4); (Local, IPFamilyTypeIPV6); (Bridge, IPFamilyTypeIPV4); (Bridge, IPFamilyTypeIPV6)].

(** The address of the device of that name on node [n], when the topology gives
it one. *)
Definition overlay_ip (f : Filter) (n : ClusterNode) (name : string) : option IP :=
  '(v, t) ← overlay_of name;
  if decide (wanted f v t n) then
    match device_addr f v t n with Ret (inl addr) => fst <$> ParseCIDR addr | _ => None end
  else None.

Lemma wanted_family f v t n : wanted f v t n -> t = IPFamilyTypeIPV4 \/ t = IPFamilyTypeIPV6.
Proof. intros (_ & Hs & _). eapply families_cases. by apply families_elem. Qed.

Lemma overlay_of_name v t : t = IPFamilyTypeIPV4 \/ t = IPFamilyTypeIPV6 -> overlay_of (device_name v t) = Some (v, t).
Proof. intros [-> | ->]; by destruct v. Qed.

Lemma overlay_of_Some name v t : overlay_of name = Some (v, t) -> device_name v t = name.
Proof. intros [_ H]%first_Some. by breflect. Qed.

Definition unique_names (nodes : list ClusterNode) : Prop := NoDup (map cn_Name nodes).

Lemma unique_names_eq nodes n n' : unique_names nodes -> n ∈ nodes -> n' ∈ nodes -> cn_Name n = cn_Name n' -> n = n'.
Proof.
  unfold unique_names. induction nodes as [|x l IH]; simpl; [set_solver|].
  intros HN Hn Hn' E. inversion_clear HN as [|? ? Hx Hl].
  apply elem_of_cons in Hn as [->|Hn]; apply elem_of_cons in Hn' as [->|Hn']; auto.
  - destruct Hx. rewrite E. by apply list_elem_of_fmap_2.
  - destruct Hx. rewrite <- E. by apply list_elem_of_fmap_2.
Qed.

Lemma members_elem f v n : n ∈ members f v -> n ∈ f_clusterNodes f.
Proof. destruct v; [apply GetGatewayClusterNodes_elem|apply bridge_nodes_elem]. Qed.

Section Addresses.
Context (rand : nat -> option (list Z)) (f : Filter) (c : Context).
Context (Hu : unique_names (f_clusterNodes f)) (Hd : devices_inv rand f (all_jobs f) c).

(** The device found under a name is the one the topology asks for. *)
Lemma result_device n name dev : n ∈ f_clusterNodes f ->
  GetDeviceFromResults c (cn_Name n) name = Some dev ->
  exists v t, name = device_name v t /\ wanted f v t n /\ device_of rand f v t n dev.
Proof.
  intros Hn. unfold GetDeviceFromResults. destruct (ctx_Results c !! cn_Name n) as [nc|] eqn:E; [|done].
  simpl. intros [Hin Hname]%first_Some. breflect.
  destruct (di_sound _ _ _ _ Hd _ _ _ E Hin) as (v & t & n' & _ & Hk & Hw & Hdev).
  assert (n' = n) as -> by (eapply unique_names_eq; [done| |done|done]; destruct Hw as [Hm _]; by eapply members_elem).
  exists v, t. split; [|done]. destruct Hdev as (addr & mac & _ & _ & ->). by symmetry.
Qed.

Lemma wanted_device v t n addr : wanted f v t n -> device_addr f v t n = Ret (inl addr) ->
  exists dev, GetDeviceFromResults c (cn_Name n) (device_name v t) = Some dev.
Proof.
  intros Hw Ha. destruct (di_complete _ _ _ _ Hd v t n addr (all_jobs_elem f v t n Hw) Hw Ha)
    as (nc & dev & Hnc & Hin & Hdev). unfold GetDeviceFromResults. rewrite Hnc. simpl.
  eapply first_is_Some; [done|]. destruct Hdev as (? & ? & _ & _ & ->). by apply bool_decide_eq_true_2.
Qed.

Lemma device_ip_overlay n name : n ∈ f_clusterNodes f -> device_ip c n name = overlay_ip f n name.
Proof.
  intros Hn. unfold device_ip, overlay_ip.
  destruct (GetDeviceFromResults c (cn_Name n) name) as [dev|] eqn:E.
  - destruct (result_device n name dev Hn E) as (v & t & -> & Hw & (addr & mac & Ha & _ & ->)).
    rewrite overlay_of_name by (by eapply wanted_family). simpl. by rewrite decide_True, Ha.
  - simpl. destruct (overlay_of name) as [[v t]|] eqn:Eo; [|done]. simpl.
    apply overlay_of_Some in Eo as <-. case_decide as Hw; [|done].
    destruct (device_addr f v t n) as [[addr|]|] eqn:Ha; [|done..].
    destruct (wanted_device v t n addr Hw Ha) as [dev Hdev]. congruence.
Qed.
End Addresses.

Lemma unique_names_filter clusters nodes configs :
  unique_names nodes -> unique_names (f_clusterNodes (calc_filter clusters nodes configs)).
Proof.
  unfold calc_filter, ExcludeInvalidItems, unique_names. simpl. generalize (node_valid (buildClustersMap (List.filter cluster_valid clusters))).
  intros p. induction nodes as [|x l IH]; simpl; [done|]. intros HN. inversion_clear HN as [|? ? Hx Hl].
  destruct (p x); simpl; [|by apply IH]. constructor; [|by apply IH].
  intros (y & Ey & [Hy _]%list_filter_spec)%list_elem_of_fmap. apply Hx. rewrite Ey. by apply list_elem_of_fmap_2.
Qed.

(** ** The shared form of the theorems: one node of one calculation *)

(** [n] is a valid node of the calculation and [nc] the configuration it gets. *)
Definition assigned rand range clusters nodes configs (n : ClusterNode) (nc : NodeConfig) : Prop :=
  n ∈ f_clusterNodes (calc_filter clusters nodes configs) /\
  exists out, CalculateNetworkConfigs rand range clusters nodes configs = Ret (inl out) /\
    out !! cn_Name n = Some nc.

Lemma assigned_ctx rand range clusters nodes configs :
  let f := calc_filter clusters nodes configs in
  rebuildable f ->
  exists c, devices_inv rand f (all_jobs f) c /\
    forall n nc, assigned rand range clusters nodes configs n nc ->
      let k := cn_Name n in
      (exists nc0, ctx_Results c !! k = Some nc0 /\ nc_Devices nc ≡ₚ nc_Devices nc0) /\
      nc_Routes nc ≡ₚ nc_Routes (d_app (d_service c) (d_pod c) k) /\
      nc_Iptables nc ≡ₚ nc_Iptables (d_app (d_host c) (d_global range c) k) /\
      nc_Fdbs nc ≡ₚ nc_Fdbs (d_app (d_local c) (d_bridge c) k) /\
      nc_Arps nc ≡ₚ nc_Arps (d_app (d_local c) (d_bridge c) k).
Proof.
  intros f Hrb. destruct (calculation rand clusters nodes configs Hrb) as (c & [Hd _] & Hc).
  exists c. split; [done|]. intros n nc [Hn (out & E & Hk)]. destruct (Hc range) as (out' & E' & Hout).
  rewrite E in E'. injection E' as <-. by eapply computed_components.
Qed.

(** The far device of a tunnel, as the results have it, is the one of the topology. *)
Lemma tunnel_elem f v t n tar : tunnel f v t n tar ->
  tar ∈ f_clusterNodes f /\ (t = IPFamilyTypeIPV4 \/ t = IPFamilyTypeIPV6).
Proof.
  intros [t' n' gw H1 H2 H3|t' gw n' H1 H2 H3 H4 H5 H6|t' src tar' H1 H2 H3 H4 H5].
  - split; [by eapply GetGatewayNodeByClusterName_Some|]. by eapply families_cases, families_elem.
  - split; [done|]. by eapply families_cases, families_elem.
  - split; [by apply bridge_nodes_elem|]. by eapply families_cases, families_elem.
Qed.

Lemma tunnel_device rand f c v t n tar dev :
  unique_names (f_clusterNodes f) -> devices_inv rand f (all_jobs f) c -> tunnel f v t n tar ->
  GetDeviceFromResults c (cn_Name tar) (device_name v t) = Some dev -> device_of rand f v t tar dev.
Proof.
  intros Hu Hd Ht Hg. destruct (tunnel_elem _ _ _ _ _ Ht) as [Htar Hfam].
  destruct (result_device rand f c Hu Hd tar _ dev Htar Hg) as (v' & t' & Hname & Hw' & Hdo).
  pose proof (overlay_of_name v t Hfam) as E1.
  rewrite Hname, (overlay_of_name v' t' (wanted_family _ _ _ _ Hw')) in E1. by injection E1 as -> ->.
Qed.

(** ** Independence of the order in which Go visits a map *)

Lemma nc_app_perm a b a' b' : nc_perm a a' -> nc_perm b b' -> nc_perm (nc_app a b) (nc_app a' b').
Proof.
  intros (?&?&?&?&?) (?&?&?&?&?). unfold nc_app. repeat split; simpl; by apply Permutation_app.
Qed.

Lemma nc_app_swap a b : nc_perm (nc_app a b) (nc_app b a).
Proof. unfold nc_app. repeat split; simpl; apply Permutation_app_comm. Qed.

Lemma d_sum_perm {A} (d : A -> delta) l1 l2 k : l1 ≡ₚ l2 -> nc_perm (d_sum d l1 k) (d_sum d l2 k).
Proof.
  unfold d_sum. induction 1 as [|x l1 l2 _ IH|x y l|l1 l2 l3 _ IH1 _ IH2]; simpl.
  - done.
  - by apply nc_app_perm.
  - rewrite !nc_app_assoc. apply nc_app_perm; [apply nc_app_swap|done].
  - by etransitivity.
Qed.

Lemma d_sum_ext_perm {A} (d1 d2 : A -> delta) l k :
  (forall x, nc_perm (d1 x k) (d2 x k)) -> nc_perm (d_sum d1 l k) (d_sum d2 l k).
Proof. intros H. unfold d_sum. induction l as [|x l IH]; simpl; [done|]. by apply nc_app_perm. Qed.

Lemma effects_perm range1 range2 c k : (forall m, range1 m ≡ₚ range2 m) ->
  nc_perm (d_seq (effects range1) c k) (d_seq (effects range2) c k).
Proof.
  intros Hr. unfold d_seq, effects, d_sum. cbn [map foldr]. do 5 (apply nc_app_perm; [done|]).
  apply nc_app_perm; [|done]. apply d_sum_ext_perm. intros n. by apply d_sum_perm.
Qed.
