(* ===== verification/LinkCorrect.v ===== *)
(** Correctness of the calculation of the network configurations: the theorems
about [CalculateNetworkConfigs], stated on the objects it is given and the
configurations it returns, with a concrete topology on which they are applied. *)
From S2P Require Import Prelude GoNet LinkApi LinkVxlan LinkFilter LinkHandlers LinkEffects LinkRoutes LinkCaches LinkDevices GoJson LinkJson LinkManager.

(** * A topology: a gateway cluster of two nodes and a peer-to-peer cluster *)

Definition ex_options (mode : string) : ClusterLinkOptions :=
  mkLinkOptions true "calico" mode "ipv4" false (mkVxlanCIDRs "210.0.0.0/8" "") (mkVxlanCIDRs "220.0.0.0/8" "")
    [] "*" ∅ "".

Definition ex_clusters : list Cluster :=
  [mkCluster "east" (Some (ex_options "gateway")) ["10.1.0.0/16"] ["10.2.0.0/16"];
   mkCluster "west" (Some (ex_options "p2p")) ["10.3.0.0/16"] ["10.4.0.0/16"]].

Definition ex_gateway : ClusterNode := mkClusterNode "east-a" "east" "a" ["10.1.0.0/24"] "192.168.1.1" "" ["gateway"] "eth0".
Definition ex_internal : ClusterNode := mkClusterNode "east-b" "east" "b" ["10.1.1.0/24"] "192.168.1.2" "" [] "eth0".
Definition ex_peer : ClusterNode := mkClusterNode "west-a" "west" "a" ["10.3.0.0/24"] "192.168.2.1" "" ["gateway"] "eth0".

Definition ex_nodes : list ClusterNode := [ex_gateway; ex_internal; ex_peer].

Definition ex_rand (i : nat) : option (list Z) := Some [0; 1; 2; 3; 4; Z.of_nat i]%Z.

Definition ex_range (m : gmap string string) : list (string * string) := map_to_list m.

Lemma ex_rebuildable : rebuildable (calc_filter ex_clusters ex_nodes []).
Proof. intros v t n _ [m Hm]. done. Qed.

Lemma ex_unique : unique_names ex_nodes.
Proof. by apply (bool_decide_eq_true_1 (NoDup (map cn_Name ex_nodes))). Qed.

Definition ex_filter : Filter := calc_filter ex_clusters ex_nodes [].

Definition ex_out : gmap string NodeConfig :=
  match CalculateNetworkConfigs ex_rand ex_range ex_clusters ex_nodes [] with Ret (inl out) => out | _ => ∅ end.

Definition ex_config_of (n : ClusterNode) : NodeConfig := default emptyNodeConfig (ex_out !! cn_Name n).

Lemma ex_assigned n : n ∈ ex_nodes -> assigned ex_rand ex_range ex_clusters ex_nodes [] n
  (default emptyNodeConfig (ex_out !! cn_Name n)).
Proof.
  intros Hn. split; [exact Hn|]. exists ex_out. split; [vm_compute; reflexivity|].
  apply elem_of_cons in Hn as [->|Hn]; [vm_compute; reflexivity|].
  apply elem_of_cons in Hn as [->|Hn]; [vm_compute; reflexivity|].
  apply list_elem_of_singleton in Hn as ->. vm_compute; reflexivity.
Qed.

(** * Theorems *)

(** When every recorded device can be built again, the calculation returns,
without a panic or an error, one configuration for every valid node and for no
other name. *)
Theorem calculate_total rand range clusters nodes configs :
  rebuildable (calc_filter clusters nodes configs) ->
  exists out, CalculateNetworkConfigs rand range clusters nodes configs = Ret (inl out) /\
    forall k, is_Some (out !! k) <->
      exists n, n ∈ nodes /\ node_valid (buildClustersMap (List.filter cluster_valid clusters)) n = true /\ cn_Name n = k.
Proof.
  intros Hrb. destruct (calculation rand clusters nodes configs Hrb) as (c & [Hd _] & Hc).
  destruct (Hc range) as (out & E & Hout). exists out. split; [done|]. intros k.
  rewrite Hout, fmap_is_Some, (di_dom _ _ _ _ Hd). unfold calc_filter, ExcludeInvalidItems. simpl.
  setoid_rewrite list_filter_spec. naive_solver.
Qed.

Lemma calculate_total_witness :
  exists out, CalculateNetworkConfigs ex_rand ex_range ex_clusters ex_nodes [] = Ret (inl out) /\
    forall k, is_Some (out !! k) <->
      exists n, n ∈ ex_nodes /\ node_valid (buildClustersMap (List.filter cluster_valid ex_clusters)) n = true /\ cn_Name n = k.
Proof. apply (calculate_total ex_rand ex_range ex_clusters ex_nodes []). apply ex_rebuildable. Defined.

(** C1: the routes of a node are exactly those of the specification [routed]: to
every CIDR announced by a node of another cluster that its cluster carries and
that overlaps none of its own networks, through its own bridge or through the
local device of its gateway, at the addresses the topology assigns. *)
Theorem calculate_routes rand range clusters nodes configs n nc :
  let f := calc_filter clusters nodes configs in
  rebuildable f -> unique_names nodes -> assigned rand range clusters nodes configs n nc ->
  forall r, r ∈ nc_Routes nc <-> routed f (overlay_ip f) n r.
Proof.
  intros f Hrb Hu Ha r. destruct (assigned_ctx rand range clusters nodes configs Hrb) as (c & Hd & Hc).
  destruct (Hc n nc Ha) as (_ & Hr & _). destruct Ha as [Hn _]. fold f in Hn, Hd.
  pose proof (di_filter _ _ _ _ Hd) as Ef.
  assert (Hu' : unique_names (f_clusterNodes f)) by by apply unique_names_filter.
  assert (Hip : forall t d, t ∈ f_clusterNodes f -> device_ip c t d = overlay_ip f t d) by
    (intros t d Ht; by eapply device_ip_overlay).
  rewrite Hr, routes_of_handlers, Ef. split.
  - intros (n' & Hn' & Hk & Hr'). rewrite (unique_names_eq _ n n') by done.
    by apply (routed_ext f (device_ip c)).
  - intros Hr'. exists n. split; [done|]. split; [done|].
    apply (routed_ext f (overlay_ip f)); [|done]. intros t d Ht. by rewrite Hip.
Qed.

Lemma calculate_routes_witness :
  mkRoute "10.3.0.0/24" "210.168.1.1" "vx-local" ∈ nc_Routes (ex_config_of ex_internal) <->
  routed ex_filter (overlay_ip ex_filter) ex_internal (mkRoute "10.3.0.0/24" "210.168.1.1" "vx-local").
Proof.
  apply (calculate_routes ex_rand ex_range ex_clusters ex_nodes [] ex_internal); [apply ex_rebuildable|apply ex_unique|].
  apply (ex_assigned ex_internal). right; left.
Defined.

(** No route diverts traffic of the node's own cluster: an address in a pod or
service network of the cluster is in the network of no route of the node. *)
Theorem calculate_own_network rand range clusters nodes configs n nc r own ip1 onet ip2 rnet ip :
  let f := calc_filter clusters nodes configs in
  rebuildable f -> unique_names nodes -> assigned rand range clusters nodes configs n nc ->
  r ∈ nc_Routes nc -> own ∈ own_cidrs f n ->
  ParseCIDR own = Some (ip1, onet) -> ParseCIDR (rt_CIDR r) = Some (ip2, rnet) ->
  Contains onet ip = true -> Contains rnet ip = false.
Proof.
  intros f Hrb Hu Ha Hr Ho Po Pr Hin. destruct (assigned_ctx rand range clusters nodes configs Hrb) as (c & Hd & Hc).
  destruct (Hc n nc Ha) as (_ & Hrs & _). destruct Ha as [Hn _]. fold f in Hn, Hd.
  pose proof (di_filter _ _ _ _ Hd) as Ef. rewrite Hrs, routes_of_handlers, Ef in Hr.
  destruct Hr as (n' & Hn' & Hk & Hr).
  rewrite (unique_names_eq _ n' n (unique_names_filter clusters nodes configs Hu)) in Hr by done.
  assert (Hi : Intersect own (rt_CIDR r) = false) by (destruct Hr; simpl; eauto).
  apply not_true_iff_false in Hi. rewrite Intersect_iff in Hi. destruct (Contains rnet ip) eqn:E; [|done].
  destruct Hi. right; right. by exists ip1, onet, ip2, rnet, ip.
Qed.

Lemma calculate_own_network_witness :
  Contains (mkIPNet [10; 3; 0; 0]%Z [255; 255; 255; 0]%Z) [10; 1; 7; 7]%Z = false.
Proof.
  refine (calculate_own_network ex_rand ex_range ex_clusters ex_nodes [] ex_internal _
    (mkRoute "10.3.0.0/24" "210.168.1.1" "vx-local") "10.1.0.0/16" _ (mkIPNet [10; 1; 0; 0]%Z [255; 255; 0; 0]%Z)
    _ (mkIPNet [10; 3; 0; 0]%Z [255; 255; 255; 0]%Z) [10; 1; 7; 7]%Z ex_rebuildable ex_unique
    (ex_assigned ex_internal ltac:(right; left)) _ _ _ _ _).
  - apply (bool_decide_eq_true_1 (mkRoute "10.3.0.0/24" "210.168.1.1" "vx-local" ∈
      nc_Routes (default emptyNodeConfig (ex_out !! "east-b")))). vm_compute. reflexivity.
  - left.
  - vm_compute. reflexivity.
  - vm_compute. reflexivity.
  - vm_compute. reflexivity.
Defined.

(** A node has exactly the devices its place in the topology asks for, each at
the address generated from its own address and the overlay's CIDR, and a device
that was recorded with a MAC address keeps it. *)
Theorem calculate_devices rand range clusters nodes configs n nc :
  let f := calc_filter clusters nodes configs in
  rebuildable f -> unique_names nodes -> assigned rand range clusters nodes configs n nc ->
  (forall dev, dev ∈ nc_Devices nc -> exists v t, wanted f v t n /\ device_of rand f v t n dev) /\
  (forall v t addr, wanted f v t n -> device_addr f v t n = Ret (inl addr) ->
     exists dev, dev ∈ nc_Devices nc /\ device_of rand f v t n dev).
Proof.
  intros f Hrb Hu Ha. destruct (assigned_ctx rand range clusters nodes configs Hrb) as (c & Hd & Hc).
  destruct (Hc n nc Ha) as ((nc0 & E0 & Hdev) & _). destruct Ha as [Hn _]. fold f in Hn, Hd. split.
  - intros dev. rewrite Hdev. intros Hin. destruct (di_sound _ _ _ _ Hd _ _ _ E0 Hin) as (v & t & n' & _ & Hk & Hw & Hdo).
    assert (n' = n) as -> by (eapply unique_names_eq;
      [apply (unique_names_filter clusters nodes configs Hu)|eapply members_elem, Hw|done..]). eauto.
  - intros v t addr Hw Hadd.
    destruct (di_complete _ _ _ _ Hd v t n addr (all_jobs_elem f v t n Hw) Hw Hadd) as (nc1 & dev & E1 & Hin & Hdo).
    rewrite E0 in E1. injection E1 as <-. exists dev. by rewrite Hdev.
Qed.

Lemma calculate_devices_witness :
  (forall dev, dev ∈ nc_Devices (ex_config_of ex_gateway) ->
     exists v t, wanted ex_filter v t ex_gateway /\ device_of ex_rand ex_filter v t ex_gateway dev) /\
  (forall v t addr, wanted ex_filter v t ex_gateway -> device_addr ex_filter v t ex_gateway = Ret (inl addr) ->
     exists dev, dev ∈ nc_Devices (ex_config_of ex_gateway) /\ device_of ex_rand ex_filter v t ex_gateway dev).
Proof.
  apply (calculate_devices ex_rand ex_range ex_clusters ex_nodes [] ex_gateway); [apply ex_rebuildable|apply ex_unique|].
  apply (ex_assigned ex_gateway). left.
Defined.

(** Both ends of every tunnel know each other: when node [n] has a tunnel to
[tar] and the far device has an address, [n] forwards to the host of [tar], both
for broadcast and for the MAC address of the device of [tar], and resolves the
device's address to that MAC address. *)
Theorem calculate_tunnels rand range clusters nodes configs n nc v t tar nct addr :
  let f := calc_filter clusters nodes configs in
  rebuildable f -> unique_names nodes ->
  assigned rand range clusters nodes configs n nc -> assigned rand range clusters nodes configs tar nct ->
  tunnel f v t n tar -> wanted f v t tar -> device_addr f v t tar = Ret (inl addr) ->
  exists dev ip net, dev ∈ nc_Devices nct /\ device_of rand f v t tar dev /\
    ParseCIDR addr = Some (ip, net) /\
    mkFdb (host_ip tar t) ALL_ZERO_MAC (device_name v t) ∈ nc_Fdbs nc /\
    mkFdb (host_ip tar t) (dev_Mac dev) (device_name v t) ∈ nc_Fdbs nc /\
    mkArp (IP_String ip) (dev_Mac dev) (device_name v t) ∈ nc_Arps nc.
Proof.
  intros f Hrb Hu Ha Hat Ht Hw Hadd.
  destruct (assigned_ctx rand range clusters nodes configs Hrb) as (c & Hd & Hc). fold f in Hd.
  pose proof (di_filter _ _ _ _ Hd) as Ef. pose proof (calc_filter_ok clusters nodes configs) as Hf. fold f in Hf.
  destruct (Hc n nc Ha) as (_ & _ & _ & Hfdb & Harp). destruct (Hc tar nct Hat) as ((nc0 & E0 & Hdev) & _).
  destruct Ha as [Hn _]. destruct Hat as [Htar _]. fold f in Hn, Htar.
  destruct (wanted_device rand f c Hd v t tar addr Hw Hadd) as [dev Hg].
  assert (Hdo : device_of rand f v t tar dev).
  { eapply tunnel_device; [by apply unique_names_filter|done..]. }
  destruct (GenerateVxlanIP_parses _ _ _ Hadd) as (ip & net & Hp). exists dev, ip, net.
  assert (Ea : dev_Addr dev = addr).
  { destruct Hdo as (a & mac & Ha & _ & ->). simpl. rewrite Hadd in Ha. by injection Ha as ->. }
  split; [|split; [done|split; [done|]]].
  - rewrite Hdev. unfold GetDeviceFromResults in Hg. rewrite E0 in Hg. by apply first_Some in Hg as [? _].
  - assert (Hex : forall mac, mac = ALL_ZERO_MAC \/ mac = dev_Mac dev ->
      mkFdb (host_ip tar t) mac (device_name v t) ∈ nc_Fdbs nc).
    { intros mac Hm. rewrite Hfdb, fdbs_of_handlers, Ef by by rewrite Ef. exists n. split; [done|]. split; [done|].
      eapply forwards_entry; [by rewrite Ef|done| |done]. rewrite Ea, Hp. eauto. }
    split; [by apply Hex; left|]. split; [by apply Hex; right|].
    rewrite Harp, arps_of_handlers, Ef by by rewrite Ef. exists n. split; [done|]. split; [done|].
    eapply resolves_entry; [by rewrite Ef|done|by rewrite Ea].
Qed.

Lemma calculate_tunnels_witness :
  exists dev ip net, dev ∈ nc_Devices (default emptyNodeConfig (ex_out !! "west-a")) /\
    device_of ex_rand (calc_filter ex_clusters ex_nodes []) Bridge "ipv4" ex_peer dev /\
    ParseCIDR "220.168.2.1/8" = Some (ip, net) /\
    mkFdb "192.168.2.1" ALL_ZERO_MAC "vx-bridge" ∈ nc_Fdbs (default emptyNodeConfig (ex_out !! "east-a")) /\
    mkFdb "192.168.2.1" (dev_Mac dev) "vx-bridge" ∈ nc_Fdbs (default emptyNodeConfig (ex_out !! "east-a")) /\
    mkArp (IP_String ip) (dev_Mac dev) "vx-bridge" ∈ nc_Arps (default emptyNodeConfig (ex_out !! "east-a")).
Proof.
  apply (calculate_tunnels ex_rand ex_range ex_clusters ex_nodes [] ex_gateway _ Bridge "ipv4" ex_peer _ "220.168.2.1/8").
  - apply ex_rebuildable.
  - apply ex_unique.
  - apply (ex_assigned ex_gateway). left.
  - apply (ex_assigned ex_peer). right; right; left.
  - apply tunnel_bridge; [left|right; left|vm_compute; congruence|vm_compute; reflexivity|vm_compute; reflexivity].
  - split_and!; [right; left|vm_compute; reflexivity|vm_compute; congruence|vm_compute; congruence].
  - vm_compute. reflexivity.
Defined.

(** The forwarding and neighbour entries of a node are only those of its
tunnels, with the address and the MAC address of a device of the far node. *)
Theorem calculate_entries_sound rand range clusters nodes configs n nc :
  let f := calc_filter clusters nodes configs in
  rebuildable f -> unique_names nodes -> assigned rand range clusters nodes configs n nc ->
  (forall e, e ∈ nc_Fdbs nc -> exists v t tar dev, tunnel f v t n tar /\ device_of rand f v t tar dev /\
     e = mkFdb (host_ip tar t) (fdb_Mac e) (device_name v t) /\ (fdb_Mac e = ALL_ZERO_MAC \/ fdb_Mac e = dev_Mac dev)) /\
  (forall a, a ∈ nc_Arps nc -> exists v t tar dev ip net, tunnel f v t n tar /\ device_of rand f v t tar dev /\
     ParseCIDR (dev_Addr dev) = Some (ip, net) /\ a = mkArp (IP_String ip) (dev_Mac dev) (device_name v t)).
Proof.
  intros f Hrb Hu Ha. destruct (assigned_ctx rand range clusters nodes configs Hrb) as (c & Hd & Hc). fold f in Hd.
  pose proof (di_filter _ _ _ _ Hd) as Ef. pose proof (calc_filter_ok clusters nodes configs) as Hf. fold f in Hf.
  destruct (Hc n nc Ha) as (_ & _ & _ & Hfdb & Harp). destruct Ha as [Hn _]. fold f in Hn.
  pose proof (unique_names_filter clusters nodes configs Hu) as Hu'. fold f in Hu'.
  split; intros e He.
  - rewrite Hfdb, fdbs_of_handlers, Ef in He by by rewrite Ef. destruct He as (n' & Hn' & Hk & [v t tar dev mac Ht Hg Hp Hm]).
    rewrite Ef in Ht. rewrite (unique_names_eq _ n' n Hu') in Ht by done.
    exists v, t, tar, dev. split; [done|]. split; [by eapply tunnel_device|]. done.
  - rewrite Harp, arps_of_handlers, Ef in He by by rewrite Ef. destruct He as (n' & Hn' & Hk & [v t tar dev ip net Ht Hg Hp]).
    rewrite Ef in Ht. rewrite (unique_names_eq _ n' n Hu') in Ht by done.
    exists v, t, tar, dev, ip, net. split; [done|]. split; [by eapply tunnel_device|]. done.
Qed.

Lemma calculate_entries_sound_witness :
  (forall e, e ∈ nc_Fdbs (ex_config_of ex_internal) -> exists v t tar dev,
     tunnel ex_filter v t ex_internal tar /\ device_of ex_rand ex_filter v t tar dev /\
     e = mkFdb (host_ip tar t) (fdb_Mac e) (device_name v t) /\ (fdb_Mac e = ALL_ZERO_MAC \/ fdb_Mac e = dev_Mac dev)) /\
  (forall a, a ∈ nc_Arps (ex_config_of ex_internal) -> exists v t tar dev ip net,
     tunnel ex_filter v t ex_internal tar /\ device_of ex_rand ex_filter v t tar dev /\
     ParseCIDR (dev_Addr dev) = Some (ip, net) /\ a = mkArp (IP_String ip) (dev_Mac dev) (device_name v t)).
Proof.
  apply (calculate_entries_sound ex_rand ex_range ex_clusters ex_nodes [] ex_internal); [apply ex_rebuildable|apply ex_unique|].
  apply (ex_assigned ex_internal). right; left.
Defined.

(** The iptables rules of a node are exactly the address translations of the
specification: masquerading on a gateway that is not in P2P mode, and the
mapping of every global CIDR on the nodes that have a bridge. *)
Theorem calculate_iptables rand range clusters nodes configs n nc :
  let f := calc_filter clusters nodes configs in
  rebuildable f -> unique_names nodes -> (forall m, range m ≡ₚ map_to_list m) ->
  assigned rand range clusters nodes configs n nc ->
  forall r, r ∈ nc_Iptables nc <-> translates f n r.
Proof.
  intros f Hrb Hu Hrange Ha r. destruct (assigned_ctx rand range clusters nodes configs Hrb) as (c & Hd & Hc).
  fold f in Hd. pose proof (di_filter _ _ _ _ Hd) as Ef.
  destruct (Hc n nc Ha) as (_ & _ & Hi & _). destruct Ha as [Hn _]. fold f in Hn.
  rewrite Hi, iptables_of_handlers, Ef by done. split; [|eauto].
  intros (n' & Hn' & Hk & Hr). assert (n' = n) as -> by
    (eapply unique_names_eq; [apply (unique_names_filter clusters nodes configs Hu)|done..]). done.
Qed.

Lemma calculate_iptables_witness :
  mkIptables "nat" "POSTROUTING" "-s 220.0.0.0/8 -j MASQUERADE" ∈ nc_Iptables (ex_config_of ex_gateway) <->
  translates ex_filter ex_gateway (mkIptables "nat" "POSTROUTING" "-s 220.0.0.0/8 -j MASQUERADE").
Proof.
  apply (calculate_iptables ex_rand ex_range ex_clusters ex_nodes [] ex_gateway);
    [apply ex_rebuildable|apply ex_unique|done|]. apply (ex_assigned ex_gateway). left.
Defined.

(** The text of every configuration, the value the API server stores, does
not depend on the order in which Go visits the map of global CIDRs. *)
Theorem calculate_order_independent rand range1 range2 clusters nodes configs :
  rebuildable (calc_filter clusters nodes configs) -> (forall m, range1 m ≡ₚ range2 m) ->
  exists out1 out2, CalculateNetworkConfigs rand range1 clusters nodes configs = Ret (inl out1) /\
    CalculateNetworkConfigs rand range2 clusters nodes configs = Ret (inl out2) /\
    forall k, ToString <$> out1 !! k = ToString <$> out2 !! k.
Proof.
  intros Hrb Hr. destruct (calculation rand clusters nodes configs Hrb) as (c & [Hd _] & Hc).
  destruct (Hc range1) as (out1 & E1 & H1), (Hc range2) as (out2 & E2 & H2).
  exists out1, out2. split; [done|]. split; [done|]. intros k. rewrite H1, H2.
  destruct (ctx_Results c !! k) as [nc|]; [|done]. simpl. f_equal.
  apply Sort_text_proper, nc_app_perm; [done|]. by apply effects_perm.
Qed.

Lemma calculate_order_independent_witness :
  exists out1 out2, CalculateNetworkConfigs ex_rand ex_range ex_clusters ex_nodes [] = Ret (inl out1) /\
    CalculateNetworkConfigs ex_rand (fun m => reverse (map_to_list m)) ex_clusters ex_nodes [] = Ret (inl out2) /\
    forall k, ToString <$> out1 !! k = ToString <$> out2 !! k.
Proof.
  apply (calculate_order_independent ex_rand ex_range (fun m => reverse (map_to_list m)) ex_clusters ex_nodes []).
  - apply ex_rebuildable.
  - intros m. unfold ex_range. by rewrite reverse_Permutation.
Defined.

(** ** The panic *)

(** The gateway recorded a device, and the cluster's local CIDR was then replaced
by one of the other address family. *)
Definition ex_stale_clusters : list Cluster :=
  [mkCluster "east" (Some (mkLinkOptions true "calico" "gateway" "ipv4" false (mkVxlanCIDRs "9480::/16" "")
     (mkVxlanCIDRs "220.0.0.0/8" "") [] "*" ∅ "")) ["10.1.0.0/16"] ["10.2.0.0/16"]].

Definition ex_stale_configs : list NodeConfigObj :=
  [mkNodeConfigObj "east-a" ∅ (mkSpec (Some [mkDevice VxlanDevice VXLAN_LOCAL_NAME "210.168.1.1/8"
     "02:01:02:03:04:05" "eth0" VXLAN_LOCAL_ID VXLAN_LOCAL_PORT]) None None None None)].

(** The condition of the theorems is needed: a device that was recorded with a
MAC address and whose address cannot be generated any more makes the calculation
dereference a nil device, whatever the random bytes and the order of maps. *)
Theorem calculate_panics rand range :
  CalculateNetworkConfigs rand range ex_stale_clusters [ex_gateway] ex_stale_configs = Panic /\
  ~ rebuildable (calc_filter ex_stale_clusters [ex_gateway] ex_stale_configs).
Proof.
  split; [reflexivity|]. intros H. destruct (H Local IPFamilyTypeIPV4 ex_gateway) as [addr Ha].
  - split_and!; [left|reflexivity|done|done].
  - eexists. reflexivity.
  - vm_compute in Ha. done.
Qed.
