(* ===== verification/LinkStable.v ===== *)
(** Stability of the calculation: recalculating after the configurations were
stored gives the same configurations, so agents are not asked to rebuild their
devices. *)
From S2P Require Import Prelude GoNet LinkApi LinkVxlan LinkFilter LinkHandlers LinkEffects LinkRoutes LinkCaches LinkDevices GoJson LinkJson LinkManager LinkCorrect.

(** * Every device of every node is built once *)

Definition unique_clusters (clusters : list Cluster) : Prop := NoDup (map c_Name clusters).

Lemma NoDup_map_filter {A B} (g : A -> B) (p : A -> bool) l : NoDup (map g l) -> NoDup (map g (List.filter p l)).
Proof.
  induction l as [|x l IH]; simpl; [done|]. rewrite list.NoDup_cons. intros [Hx Hl].
  destruct (p x); simpl; [|by apply IH]. apply list.NoDup_cons. split; [|by apply IH].
  intros (y & E & [Hy _]%list_filter_spec)%list_elem_of_fmap. apply Hx. rewrite E. by apply list_elem_of_fmap_2.
Qed.

Lemma NoDup_flat_map {A B} (g : A -> list B) l :
  (forall x, x ∈ l -> NoDup (g x)) -> NoDup l ->
  (forall x y z, x ∈ l -> y ∈ l -> z ∈ g x -> z ∈ g y -> x = y) -> NoDup (flat_map g l).
Proof.
  induction l as [|x l IH]; simpl; [constructor|]. rewrite list.NoDup_cons. intros Hg [Hx Hl] Hd.
  rewrite list.NoDup_app. split; [apply Hg; by left|]. split; [|apply IH; [set_solver|done|set_solver]].
  intros z Hz (y & Hy & Hz')%list_elem_of_In%in_flat_map. apply list_elem_of_In in Hy. apply list_elem_of_In in Hz'.
  destruct Hx. by rewrite (Hd x y z ltac:(left) ltac:(by right) Hz Hz').
Qed.

Lemma NoDup_of_map {A B} (g : A -> B) l : NoDup (map g l) -> NoDup l.
Proof. apply NoDup_fmap_1. Qed.

Lemma NoDup_map_inj {A B} (g : A -> B) l : NoDup l ->
  (forall x y, x ∈ l -> y ∈ l -> g x = g y -> x = y) -> NoDup (map g l).
Proof.
  induction l as [|x l IH]; simpl; [constructor|]. rewrite !list.NoDup_cons. intros [Hx Hl] Hg. split.
  - intros (y & E & Hy)%list_elem_of_fmap. destruct Hx. by rewrite (Hg x y ltac:(left) ltac:(by right) E).
  - apply IH; [done|]. intros y z Hy Hz. apply Hg; by right.
Qed.

Section Unique.
Context (f : Filter) (Hn : unique_names (f_clusterNodes f)) (Hc : unique_clusters (f_clusters f)).

Lemma NoDup_collect {A B} (g : A -> option B) l : NoDup l ->
  (forall x y z, x ∈ l -> y ∈ l -> g x = Some z -> g y = Some z -> x = y) -> NoDup (collect g l).
Proof.
  induction l as [|x l IH]; simpl; [constructor|]. rewrite list.NoDup_cons. intros [Hx Hl] Hd.
  assert (NoDup (collect g l)) by (apply IH; [done|set_solver]). destruct (g x) as [z|] eqn:E; [|done].
  apply list.NoDup_cons. split; [|done]. intros (y & Hy & Ey)%elem_of_collect.
  destruct Hx. by rewrite (Hd x y z ltac:(left) ltac:(by right) E Ey).
Qed.

Lemma unique_clusters_eq c c' : c ∈ f_clusters f -> c' ∈ f_clusters f -> c_Name c = c_Name c' -> c = c'.
Proof.
  revert Hc. unfold unique_clusters. induction (f_clusters f) as [|x l IH]; simpl; [set_solver|].
  rewrite list.NoDup_cons. intros [Hx Hl] [->|H]%elem_of_cons [->|H']%elem_of_cons E; auto.
  - destruct Hx. rewrite E. by apply list_elem_of_fmap_2.
  - destruct Hx. rewrite <- E. by apply list_elem_of_fmap_2.
Qed.

Lemma members_NoDup v : NoDup (members f v).
Proof.
  pose proof (NoDup_of_map _ _ Hn) as Hnn. pose proof (NoDup_of_map _ _ Hc) as Hcc. destruct v; simpl.
  - apply NoDup_flat_map; [|done|].
    + intros c _. destruct (Cluster_IsGateway c); [|constructor].
      apply (NoDup_of_map cn_Name), NoDup_map_filter, Hn.
    + intros c c' n H1 H2. destruct (Cluster_IsGateway c), (Cluster_IsGateway c'); try by intros ?%elem_of_nil.
      { intros [_ E1]%list_filter_spec [_ E2]%list_filter_spec. breflect. apply unique_clusters_eq; congruence. }
      { by intros _ ?%elem_of_nil. }
  - apply list.NoDup_app. split; [|split].
    + apply NoDup_collect; [done|]. intros c c' g H1 H2 (_ & E1 & _)%GetGatewayNodeByClusterName_Some
        (_ & E2 & _)%GetGatewayNodeByClusterName_Some. apply unique_clusters_eq; congruence.
    + intros n [_ Hg]%GetGatewayNodes_elem [_ He]%list_filter_spec. breflect. congruence.
    + apply (NoDup_of_map cn_Name), NoDup_map_filter, Hn.
Qed.

Lemma jobs_key v nodes j : j ∈ jobs v nodes -> snd j ∈ nodes /\ fst (fst j) = v /\
  (snd (fst j) = IPFamilyTypeIPV4 \/ snd (fst j) = IPFamilyTypeIPV6).
Proof.
  intros (n & Hin%list_elem_of_In & Hj)%list_elem_of_In%in_flat_map.
  destruct Hj as [<-|[<-|[]]]; simpl; auto.
Qed.

Lemma all_jobs_NoDup : NoDup (map key (all_jobs f)).
Proof.
  apply NoDup_map_inj.
  - unfold all_jobs. apply list.NoDup_app. split; [|split].
    + apply NoDup_flat_map; [|apply members_NoDup|].
      * intros n _. apply list.NoDup_cons. split; [|apply NoDup_singleton]. by intros ?%list_elem_of_singleton.
      * intros n n' j _ _ Hj Hj'. set_solver.
    + intros j (_ & E1 & _)%jobs_key (_ & E2 & _)%jobs_key. congruence.
    + apply NoDup_flat_map; [|apply members_NoDup|].
      * intros n _. apply list.NoDup_cons. split; [|apply NoDup_singleton]. by intros ?%list_elem_of_singleton.
      * intros n n' j _ _ Hj Hj'. set_solver.
  - assert (Hk : forall j, j ∈ all_jobs f -> snd j ∈ f_clusterNodes f /\
      (snd (fst j) = IPFamilyTypeIPV4 \/ snd (fst j) = IPFamilyTypeIPV6)).
    { intros j [(? & _ & ?)%jobs_key|(? & _ & ?)%jobs_key]%elem_of_app; eauto using members_elem. }
    intros [[v t] n] [[v' t'] n'] [Hj Ht]%Hk [Hj' Ht']%Hk [= En Ed]. simpl in *.
    rewrite (unique_names_eq _ n n') by done. apply (f_equal overlay_of) in Ed.
    rewrite !overlay_of_name in Ed by done. by injection Ed as -> ->.
Qed.
End Unique.

(** * Recalculation *)

(** The devices of [out] are those on record. *)
Definition stored (out : gmap string NodeConfig) (configs : list NodeConfigObj) : Prop :=
  forall k nc, out !! k = Some nc ->
  exists o, first (fun o => nco_Name o =s k) configs = Some o /\
    elems (spec_Devices (nco_Spec o)) = nc_Devices nc.

Lemma Mac_String_nonempty r : r <> None -> Mac_String (GenerateMac r) <> "".
Proof. destruct r as [buf|]; [|done]. intros _. unfold GenerateMac. simpl. by destruct (take 5 _). Qed.

Section Recalculate.
Context (rand1 rand2 : nat -> option (list Z)) (range : gmap string string -> list (string * string)).
Context (clusters : list Cluster) (nodes : list ClusterNode) (configs1 configs2 : list NodeConfigObj).
Abbreviation f1 := (calc_filter clusters nodes configs1).
Abbreviation f2 := (calc_filter clusters nodes configs2).
Context (Hu : unique_names nodes) (Hc : unique_clusters clusters) (Hrand : forall i, rand1 i <> None).

Lemma calc_jobs_NoDup configs : NoDup (map key (all_jobs (calc_filter clusters nodes configs))).
Proof. apply all_jobs_NoDup; [by apply unique_names_filter|]. by apply NoDup_map_filter. Qed.

Section First.
Context (c1 : Context) (out : gmap string NodeConfig) (M : string -> string -> string).
Context (He : devices_exact rand1 f1 (all_jobs f1) c1) (Hout : computed range c1 out) (Hst : stored out configs2).
Context (HM : forall k nc, ctx_Results c1 !! k = Some nc ->
  nc = mkNodeConfig (devices_list f1 M k (all_jobs f1)) [] [] [] []).
Context (Hmac : forall v t n addr, (v, t, n) ∈ all_jobs f1 -> wanted f1 v t n -> device_addr f1 v t n = Ret (inl addr) ->
  mac_for rand1 f1 n (device_name v t) (M (cn_Name n) (device_name v t))).

(** The recorded devices are those of the first calculation. *)
Lemma stored_devices n : n ∈ f_clusterNodes f1 ->
  exists devs, (forall name, GetDeviceFromNodeConfig f2 (cn_Name n) name = first (fun d => dev_Name d =s name) devs) /\
    forall d, d ∈ devs <-> d ∈ devices_list f1 M (cn_Name n) (all_jobs f1).
Proof.
  intros Hn. destruct (de_dom _ _ _ _ He n Hn) as [nc0 Hnc0].
  pose proof (Hout (cn_Name n)) as Ho. rewrite Hnc0 in Ho. simpl in Ho.
  destruct (Hst _ _ Ho) as (o & Eo & Es). eexists. split.
  - intros name. unfold GetDeviceFromNodeConfig. change (f_nodeConfigs f2) with configs2. rewrite Eo.
    cbn [mbind option_bind]. by rewrite Es.
  - intros d. cbn [Sort nc_Devices]. rewrite sort_Sort_perm, (HM _ _ Hnc0). cbn [nc_app nc_Devices].
    by rewrite (devices_of_effects range c1 (cn_Name n)), app_nil_r.
Qed.

Lemma devices_list_elem n d : d ∈ devices_list f1 M (cn_Name n) (all_jobs f1) ->
  n ∈ f_clusterNodes f1 ->
  exists v t addr, wanted f1 v t n /\ device_addr f1 v t n = Ret (inl addr) /\ dev_Name d = device_name v t /\
    dev_Mac d = M (cn_Name n) (device_name v t).
Proof.
  intros ([[v t] n'] & Hj & Hd)%elem_of_collect Hn. case_decide as Ek; [|done]. simpl in Hd, Ek.
  case_decide as Hw; [|done]. destruct (device_addr f1 v t n') as [[a|]|] eqn:Ea; [|done..]. injection Hd as <-.
  assert (n' = n) as -> by (eapply unique_names_eq;
    [apply (unique_names_filter clusters nodes configs1 Hu)|eapply members_elem, Hw|done..]).
  by exists v, t, a.
Qed.

Lemma stored_mac v t n addr : wanted f1 v t n -> device_addr f1 v t n = Ret (inl addr) ->
  old_mac f2 n (device_name v t) = Some (M (cn_Name n) (device_name v t)).
Proof.
  intros Hw Ha. assert (Hn : n ∈ f_clusterNodes f1) by (eapply members_elem, Hw).
  destruct (stored_devices n Hn) as (devs & Hg & Hdevs). unfold old_mac. rewrite Hg.
  assert (Hin : exists dev, dev ∈ devs /\ dev_Name dev = device_name v t).
  { eexists (mkDevice _ _ _ _ _ _ _). rewrite Hdevs. unfold devices_list. rewrite elem_of_collect. split; [|done].
    exists (v, t, n). split; [by apply all_jobs_elem|]. simpl. rewrite !decide_True by done. by rewrite Ha. }
  destruct Hin as (dev & Hin & Hname).
  destruct (first_is_Some (fun d => dev_Name d =s device_name v t) devs dev Hin) as [d Hd];
    [by apply bool_decide_eq_true_2|]. rewrite Hd. apply first_Some in Hd as [Hd Hdn]. breflect.
  apply Hdevs in Hd. destruct (devices_list_elem n d Hd Hn) as (v' & t' & a' & _ & _ & E & Em).
  rewrite <- E, Hdn in Em. simpl. rewrite Em. rewrite (proj2 (str_empty_false _)); [done|].
  pose proof (Hmac v t n addr (all_jobs_elem _ _ _ _ Hw) Hw Ha) as Hm. unfold mac_for, old_mac in Hm.
  destruct (GetDeviceFromNodeConfig f1 _ _) as [old|]; simpl in Hm; [|destruct Hm as [i ->]; by apply Mac_String_nonempty].
  destruct (str_empty (dev_Mac old)) eqn:Ee; [destruct Hm as [i ->]; by apply Mac_String_nonempty|].
  rewrite Hm. by apply str_empty_false.
Qed.

Lemma stored_rebuildable : rebuildable f2.
Proof.
  intros v t n Hw [m Hm]. change (wanted f1 v t n) in Hw. change (device_addr f2 v t n) with (device_addr f1 v t n).
  assert (Hn : n ∈ f_clusterNodes f1) by (eapply members_elem, Hw).
  destruct (stored_devices n Hn) as (devs & Hg & Hdevs). unfold old_mac in Hm. rewrite Hg in Hm.
  destruct (first _ devs) as [d|] eqn:Ed; [|done]. apply first_Some in Ed as [Hd Hdn]. breflect.
  apply Hdevs in Hd. destruct (devices_list_elem n d Hd Hn) as (v' & t' & a' & Hw' & Ha & E & _).
  rewrite Hdn in E. apply (f_equal overlay_of) in E.
  rewrite !overlay_of_name in E by (by eapply wanted_family). injection E as -> ->. eauto.
Qed.
End First.

Lemma recalculate_rebuildable out :
  rebuildable f1 -> CalculateNetworkConfigs rand1 range clusters nodes configs1 = Ret (inl out) ->
  stored out configs2 -> rebuildable f2.
Proof.
  intros Hrb E1 Hst. destruct (calculation rand1 clusters nodes configs1 Hrb) as (c1 & [Hi1 He1] & H1).
  destruct (H1 range) as (out' & E1' & Hout1). rewrite E1 in E1'. injection E1' as <-.
  destruct (de_list _ _ _ _ He1 (calc_jobs_NoDup configs1)) as (M1 & Hm1 & Hl1). by eapply stored_rebuildable.
Qed.

Lemma recalculate out :
  rebuildable f1 -> CalculateNetworkConfigs rand1 range clusters nodes configs1 = Ret (inl out) ->
  stored out configs2 -> CalculateNetworkConfigs rand2 range clusters nodes configs2 = Ret (inl out).
Proof.
  intros Hrb E1 Hst. destruct (calculation rand1 clusters nodes configs1 Hrb) as (c1 & [Hi1 He1] & H1).
  destruct (H1 range) as (out' & E1' & Hout1). rewrite E1 in E1'. injection E1' as <-.
  destruct (de_list _ _ _ _ He1 (calc_jobs_NoDup configs1)) as (M1 & Hm1 & Hl1).
  destruct (calculation rand2 clusters nodes configs2) as (c2 & [Hi2 He2] & H2); [by eapply stored_rebuildable|].
  destruct (H2 range) as (out2 & E2 & Hout2). rewrite E2. f_equal. f_equal.
  destruct (de_list _ _ _ _ He2 (calc_jobs_NoDup configs2)) as (M2 & Hm2 & Hl2).
  assert (Hres : ctx_Results c2 = ctx_Results c1).
  { apply map_eq. intros k.
    destruct (ctx_Results c1 !! k) as [nc1|] eqn:R1, (ctx_Results c2 !! k) as [nc2|] eqn:R2.
    - f_equal. rewrite (Hl1 _ _ R1), (Hl2 _ _ R2). f_equal. apply devices_list_ext.
      intros [[v t] n] Hj _. unfold job_device. change (wanted f2 v t n) with (wanted f1 v t n).
      change (device_addr f2 v t n) with (device_addr f1 v t n). case_decide as Hw; [|by rewrite decide_False].
      rewrite decide_True by done. destruct (device_addr f1 v t n) as [[a|]|] eqn:Ea; [|done..].
      pose proof (Hm2 v t n a Hj Hw Ea) as Hm. unfold mac_for in Hm.
      rewrite (stored_mac c1 out M1 He1 Hout1 Hst Hl1 Hm1 v t n a Hw Ea) in Hm. by rewrite Hm.
    - exfalso. assert (is_Some (ctx_Results c2 !! k)) as [x Hx].
      { apply (di_dom _ _ _ _ Hi2). apply (di_dom _ _ _ _ Hi1). eauto. } congruence.
    - exfalso. assert (is_Some (ctx_Results c1 !! k)) as [x Hx].
      { apply (di_dom _ _ _ _ Hi1). apply (di_dom _ _ _ _ Hi2). eauto. } congruence.
    - done. }
  assert (Heff : forall k, d_seq (effects range) c2 k = d_seq (effects range) c1 k).
  { intros k. pose proof (di_filter _ _ _ _ Hi1) as F1. pose proof (di_filter _ _ _ _ Hi2) as F2.
    destruct c1 as [g1 r1 d1], c2 as [g2 r2 d2]. simpl in F1, F2, Hres. subst. reflexivity. }
  apply map_eq. intros k. rewrite Hout1, Hout2, Hres. by rewrite Heff.
Qed.
End Recalculate.

(** C2: the calculation is stable: once its devices are on record, calculating again,
with any other random bytes, gives the same result, provided the first
calculation could read random bytes for the MAC addresses. *)
Theorem calculate_stable rand1 rand2 range clusters nodes configs1 configs2 out :
  unique_names nodes -> unique_clusters clusters -> (forall i, rand1 i <> None) ->
  rebuildable (calc_filter clusters nodes configs1) ->
  CalculateNetworkConfigs rand1 range clusters nodes configs1 = Ret (inl out) -> stored out configs2 ->
  CalculateNetworkConfigs rand2 range clusters nodes configs2 = Ret (inl out).
Proof. intros Hu Hc Hr Hrb. by apply recalculate. Qed.

Definition ex_stored : list NodeConfigObj :=
  map (fun kv => mkNodeConfigObj (fst kv) ∅ (ConvertToNodeConfigSpec (snd kv))) (map_to_list ex_out).

Lemma ex_stored_ok : stored ex_out ex_stored.
Proof.
  intros k nc Hk. apply elem_of_map_to_list in Hk. revert Hk.
  assert (Hl : Forall (fun kv => exists o, first (fun o => nco_Name o =s fst kv) ex_stored = Some o /\
    elems (spec_Devices (nco_Spec o)) = nc_Devices (snd kv)) (map_to_list ex_out)).
  { unfold ex_stored. set (l := map_to_list ex_out). vm_compute in l. subst l.
    repeat constructor; eexists; split; vm_compute; reflexivity. }
  rewrite Forall_forall in Hl. intros Hk%list_elem_of_In. exact (Hl (k, nc) Hk).
Qed.

Lemma calculate_stable_witness :
  CalculateNetworkConfigs (fun _ => Some [7; 7; 7; 7; 7; 7]%Z) ex_range ex_clusters ex_nodes ex_stored = Ret (inl ex_out).
Proof.
  apply (calculate_stable ex_rand (fun _ => Some [7; 7; 7; 7; 7; 7]%Z) ex_range ex_clusters ex_nodes [] ex_stored ex_out).
  - apply ex_unique.
  - by apply (bool_decide_eq_true_1 (NoDup (map c_Name ex_clusters))).
  - done.
  - apply ex_rebuildable.
  - vm_compute. reflexivity.
  - apply ex_stored_ok.
Defined.
