(* ===== verification/LinkController.v ===== *)
(** The node-config controller: [Reconcile] of
clusterlink/network-manager/controller.go over the objects of the API server.
Every call to the API server may fail ([fault], by the number of the call); the
order in which Go visits a map and the cache lists its objects is a parameter
([order]). *)
From S2P Require Import Prelude GoNet LinkApi LinkVxlan LinkFilter LinkHandlers LinkEffects LinkRoutes LinkCaches LinkDevices GoJson LinkJson LinkManager LinkCorrect LinkStable.

(** * The API server *)

Record Store := mkStore {
  st_nodes : list ClusterNode;
  st_clusters : list Cluster;
  st_configs : gmap string NodeConfigObj }.

Record World := mkWorld { w_store : Store; w_calls : nat }.

Definition tick (w : World) : World := mkWorld (w_store w) (S (w_calls w)).

Definition set_configs (m : gmap string NodeConfigObj) (w : World) : World :=
  mkWorld (mkStore (st_nodes (w_store w)) (st_clusters (w_store w)) m) (w_calls w).

(** [reconcile.Result]: whether the request is queued again after [RequeueTime]. *)
Record ReconcileResult := mkResult { rr_requeue : bool; rr_err : option string }.

(** [equality.Semantic.DeepEqual]: nil and empty slices are the same. *)
Definition spec_equal (a b : NodeConfigSpec) : bool :=
  bool_decide (elems (spec_Devices a) = elems (spec_Devices b) /\ elems (spec_Routes a) = elems (spec_Routes b) /\
    elems (spec_Iptables a) = elems (spec_Iptables b) /\ elems (spec_Fdbs a) = elems (spec_Fdbs b) /\
    elems (spec_Arps a) = elems (spec_Arps b)).

Definition obj_equal (a b : NodeConfigObj) : bool :=
  (nco_Name a =s nco_Name b) && bool_decide (nco_Annotations a = nco_Annotations b) &&
  spec_equal (nco_Spec a) (nco_Spec b).

(** [mutateNodeConfig]: the previous spec becomes the only annotation. *)
Definition mutateNodeConfig (nc : NodeConfigObj) (config : NodeConfig) : NodeConfigObj :=
  let strOld := marshal (nco_Spec nc) in
  mkNodeConfigObj (nco_Name nc) {[ "prev" := strOld ]} (ConvertToNodeConfigSpec config).

Section Controller.
Context (rand : nat -> option (list Z)) (fault : nat -> option string).
Context (order : forall A, gmap string A -> list (string * A)).

(** A call: it fails, or does its work. *)
Definition call {A} (work : World -> A) (w : World) : A + string :=
  match fault (w_calls w) with Some err => inr err | None => inl (work w) end.

Definition Delete (name : string) (w : World) : World * option string :=
  match fault (w_calls w) with
  | Some err => (tick w, Some err)
  | None => (set_configs (delete name (st_configs (w_store w))) (tick w), None)
  end.

Definition Put (nc : NodeConfigObj) (w : World) : World * option string :=
  match fault (w_calls w) with
  | Some err => (tick w, Some err)
  | None => (set_configs (<[nco_Name nc := nc]> (st_configs (w_store w))) (tick w), None)
  end.

(** [controllerutil.CreateOrUpdate] with [mutateNodeConfig]. *)
Definition CreateOrUpdate (name : string) (config : NodeConfig) (w : World) : World * option string :=
  match call (fun w => st_configs (w_store w) !! name) w with
  | inr err => (tick w, Some err)
  | inl None => Put (mutateNodeConfig (mkNodeConfigObj name ∅ emptySpec) config) (tick w)
  | inl (Some existing) =>
      let obj := mutateNodeConfig existing config in
      if obj_equal existing obj then (tick w, None) else Put obj (tick w)
  end.

(** [for i, nc := range nodeConfigList.Items]: a failed deletion is logged. *)
Definition clear_configs (items : list NodeConfigObj) (nodeConfigs : gmap string NodeConfig) (w : World) : World :=
  fold_left (fun w nc => match nodeConfigs !! nco_Name nc with
                         | Some _ => w
                         | None => fst (Delete (nco_Name nc) w)
                         end) items w.

(** [for nodeName, config := range nodeConfigs]: the first error ends the loop. *)
Fixpoint write_configs (l : list (string * NodeConfig)) (w : World) : World * option string :=
  match l with
  | [] => (w, None)
  | (nodeName, config) :: l' =>
      match CreateOrUpdate nodeName config w with
      | (w', Some err) => (w', Some err)
      | (w', None) => write_configs l' w'
      end
  end.

Definition requeue (w : World) (err : option string) : outcome (World * ReconcileResult) :=
  Ret (w, mkResult true err).

Definition Reconcile (w : World) : outcome (World * ReconcileResult) :=
  match call (fun w => st_nodes (w_store w)) w with
  | inr _ => requeue (tick w) None
  | inl nodes =>
  let w := tick w in
  match call (fun w => st_clusters (w_store w)) w with
  | inr _ => requeue (tick w) None
  | inl clusters =>
  let w := tick w in
  match call (fun w => map snd (order _ (st_configs (w_store w)))) w with
  | inr _ => requeue (tick w) None
  | inl items =>
  let w := tick w in
  r ← CalculateNetworkConfigs rand (order string) clusters nodes items;
  match r with
  | inr _ => requeue w None
  | inl nodeConfigs =>
      let w := clear_configs items nodeConfigs w in
      match write_configs (order _ nodeConfigs) w with
      | (w, Some err) => requeue w (Some err)
      | (w, None) => Ret (w, mkResult false None)
      end
  end end end end.

(** [newClusterMapFunc]: a change of a cluster queues its first gateway. *)
Definition newClusterMapFunc (cluster : Cluster) (w : World) : list string :=
  match call (fun w => st_nodes (w_store w)) w with
  | inr _ => []
  | inl nodes =>
      match first (fun node => (cn_ClusterName node =s c_Name cluster) && ClusterNode_IsGateway node) nodes with
      | Some node => [cn_Name node]
      | None => []
      end
  end.

End Controller.

(** * Facts *)

(** Objects are stored under their names, which are unique. *)
Definition store_ok (s : Store) : Prop :=
  unique_names (st_nodes s) /\ unique_clusters (st_clusters s) /\
  forall k o, st_configs s !! k = Some o -> nco_Name o = k.

(** The stored object carries the configuration. *)
Definition carries (o : NodeConfigObj) (nc : NodeConfig) : Prop :=
  spec_equal (nco_Spec o) (ConvertToNodeConfigSpec nc) = true.

(** Only the configurations change. *)
Definition same_topology (w w' : World) : Prop :=
  st_nodes (w_store w') = st_nodes (w_store w) /\ st_clusters (w_store w') = st_clusters (w_store w).

#[export] Instance same_topology_equiv : Equivalence same_topology.
Proof.
  split; [by intros w|by intros w w' [? ?]|].
  intros w1 w2 w3 [E1 E2] [E3 E4]. split; congruence.
Qed.

Definition named (w : World) : Prop := forall k o, st_configs (w_store w) !! k = Some o -> nco_Name o = k.

Lemma spec_equal_refl s : spec_equal s s = true.
Proof. by apply bool_decide_eq_true_2. Qed.

Section Facts.
Context (fault : nat -> option string).

(** What one write does: on success the object carries the configuration, on
failure nothing changed. *)
Lemma CreateOrUpdate_spec name config w w' err :
  named w -> CreateOrUpdate fault name config w = (w', err) ->
  same_topology w w' /\ named w' /\
  (forall k, k <> name -> st_configs (w_store w') !! k = st_configs (w_store w) !! k) /\
  match err with
  | None => exists o, st_configs (w_store w') !! name = Some o /\ carries o config
  | Some _ => w_store w' = w_store w
  end.
Proof.
  intros Hw. unfold CreateOrUpdate, call. destruct (fault (w_calls w)); [by intros [= <- <-]|].
  assert (HPut : forall o, nco_Name o = name -> Put fault (mutateNodeConfig o config) (tick w) = (w', err) ->
    same_topology w w' /\ named w' /\
    (forall k, k <> name -> st_configs (w_store w') !! k = st_configs (w_store w) !! k) /\
    match err with
    | None => exists o, st_configs (w_store w') !! name = Some o /\ carries o config
    | Some _ => w_store w' = w_store w
    end).
  { intros o <-. unfold Put. destruct (fault _); intros [= <- <-]; [done|]. split; [done|]. split_and!.
    - intros k o'. simpl. destruct (decide (nco_Name o = k)) as [<-|Hne];
        [rewrite lookup_insert_eq; by intros [= <-]|rewrite lookup_insert_ne by done; apply Hw].
    - intros k Hk. simpl. by rewrite lookup_insert_ne.
    - eexists. simpl. rewrite lookup_insert_eq. split; [done|]. apply spec_equal_refl. }
  destruct (st_configs (w_store w) !! name) as [existing|] eqn:E; [|by apply HPut].
  destruct (obj_equal existing (mutateNodeConfig existing config)) eqn:Eq; [|apply HPut; by apply Hw].
  intros [= <- <-]. split; [done|]. split; [done|]. split; [done|]. exists existing. split; [done|].
  unfold obj_equal in Eq. breflect. done.
Qed.

Lemma CreateOrUpdate_no_fault name config w : (forall i, fault i = None) ->
  snd (CreateOrUpdate fault name config w) = None.
Proof.
  intros Hf. unfold CreateOrUpdate, call, Put. rewrite Hf. destruct (_ !! name); [|by rewrite Hf].
  destruct (obj_equal _ _); [done|by rewrite Hf].
Qed.

Lemma write_configs_spec l w w' err :
  named w -> NoDup (map fst l) -> write_configs fault l w = (w', err) ->
  same_topology w w' /\ named w' /\
  (forall k, st_configs (w_store w') !! k = st_configs (w_store w) !! k \/
     exists config o, (k, config) ∈ l /\ st_configs (w_store w') !! k = Some o /\ carries o config) /\
  (forall k, k ∉ map fst l -> st_configs (w_store w') !! k = st_configs (w_store w) !! k) /\
  (err = None -> forall k config, (k, config) ∈ l -> exists o, st_configs (w_store w') !! k = Some o /\ carries o config).
Proof.
  revert w. induction l as [|[name config] l IH]; intros w Hw Hnd; simpl.
  { intros [= <- <-]. split_and!; [done|done|by left|done|by intros _ ? ? ?%elem_of_nil]. }
  apply list.NoDup_cons in Hnd as [Hname Hnd].
  destruct (CreateOrUpdate fault name config w) as [w1 e1] eqn:E1.
  destruct (CreateOrUpdate_spec name config w w1 e1 Hw E1) as (Ht1 & Hn1 & Hk1 & Hr1). destruct e1 as [e1|].
  { intros [= <- <-]. rewrite Hr1. split_and!; [done|done|by left|done|done]. }
  intros Hl. destruct (IH w1 Hn1 Hnd Hl) as (Ht2 & Hn2 & Hk2 & Ho2 & Hd2).
  destruct Hr1 as (o1 & Ho1 & Hc1). split_and!; [by etransitivity|done|..].
  - intros k. destruct (decide (k = name)) as [->|Hne].
    + right. exists config, o1. split; [by left|]. by rewrite Ho2.
    + destruct (Hk2 k) as [E|(c & o & Hin & Ho & Hc)]; [left; by rewrite E, Hk1|].
      right. exists c, o. split; [by right|done].
  - intros k [Hne Hk]%not_elem_of_cons. by rewrite Ho2, Hk1.
  - intros He k c [[= -> ->]|Hin]%elem_of_cons; [|by apply Hd2]. exists o1. by rewrite Ho2.
Qed.

Lemma write_configs_no_fault l w : (forall i, fault i = None) -> snd (write_configs fault l w) = None.
Proof.
  intros Hf. revert w. induction l as [|[name config] l IH]; intros w; [done|]. simpl.
  pose proof (CreateOrUpdate_no_fault name config w Hf) as E. destruct (CreateOrUpdate _ _ _ _) as [w1 e1].
  simpl in E. by rewrite E.
Qed.

Lemma clear_configs_spec items out w :
  named w -> let w' := clear_configs fault items out w in
  same_topology w w' /\ named w' /\
  (forall k, st_configs (w_store w') !! k = st_configs (w_store w) !! k \/
     st_configs (w_store w') !! k = None /\ out !! k = None) /\
  ((forall i, fault i = None) -> forall o, o ∈ items -> out !! nco_Name o = None ->
     st_configs (w_store w') !! nco_Name o = None).
Proof.
  unfold clear_configs. revert w. induction items as [|x items IH]; intros w Hw; simpl.
  { split_and!; [done|done|by left|by intros _ ? ?%elem_of_nil]. }
  set (w1 := match out !! nco_Name x with Some _ => w | None => _ end).
  assert (H1 : same_topology w w1 /\ named w1 /\
    (forall k, st_configs (w_store w1) !! k = st_configs (w_store w) !! k \/
       st_configs (w_store w1) !! k = None /\ out !! k = None) /\
    ((forall i, fault i = None) -> out !! nco_Name x = None -> st_configs (w_store w1) !! nco_Name x = None)).
  { unfold w1, Delete. destruct (out !! nco_Name x) eqn:Eo; [split_and!; [done|done|by left|done]|].
    destruct (fault (w_calls w)) eqn:Ef; simpl.
    - split_and!; [done|done|by left|]. intros Hf. by rewrite Hf in Ef.
    - split; [done|]. split_and!.
      + intros k o. simpl. intros [_ Hk]%lookup_delete_Some. by apply Hw.
      + intros k. destruct (decide (k = nco_Name x)) as [->|Hne];
          [right; by rewrite lookup_delete_eq|left; by rewrite lookup_delete_ne].
      + intros _ _. by rewrite lookup_delete_eq. }
  destruct H1 as (Ht1 & Hn1 & Hk1 & Hd1). destruct (IH w1 Hn1) as (Ht2 & Hn2 & Hk2 & Hd2).
  split_and!; [by etransitivity|done|..].
  - intros k. destruct (Hk2 k) as [->|H]; [apply Hk1|by right].
  - intros Hf o [->|Ho]%elem_of_cons He; [|by apply Hd2]. destruct (Hk2 (nco_Name x)) as [->|[H _]]; [|done].
    by apply Hd1.
Qed.
End Facts.

Section Reconciliation.
Context (rand : nat -> option (list Z)) (fault : nat -> option string).
Context (order : forall A, gmap string A -> list (string * A)).
Context (Horder : forall A (m : gmap string A), order A m ≡ₚ map_to_list m).

(** The configurations as the cache lists them. *)
Definition listed (w : World) : list NodeConfigObj := map snd (order _ (st_configs (w_store w))).

Definition world_filter (w : World) : Filter :=
  calc_filter (st_clusters (w_store w)) (st_nodes (w_store w)) (listed w).

Definition world_calculate (w : World) : outcome (result (gmap string NodeConfig)) :=
  CalculateNetworkConfigs rand (order string) (st_clusters (w_store w)) (st_nodes (w_store w)) (listed w).

Lemma order_elem {A} (m : gmap string A) k x : (k, x) ∈ order A m <-> m !! k = Some x.
Proof. rewrite Horder. apply elem_of_map_to_list. Qed.

Lemma order_NoDup {A} (m : gmap string A) : NoDup (map fst (order A m)).
Proof. rewrite Horder. apply NoDup_fst_map_to_list. Qed.

(** A run from [w] to [w'] that calculates [out]: every stored configuration is the old
one, rightly removed or the calculated one; when the run is not queued again all are
written, and without failed calls the stale ones are gone. *)
Definition run_ok (w : World) (out : gmap string NodeConfig) (w' : World) (r : ReconcileResult) : Prop :=
  same_topology w w' /\ named w' /\
  (forall k, st_configs (w_store w') !! k = st_configs (w_store w) !! k \/
     (st_configs (w_store w') !! k = None /\ out !! k = None) \/
     exists config o, out !! k = Some config /\ st_configs (w_store w') !! k = Some o /\ carries o config) /\
  (rr_requeue r = false -> forall k config, out !! k = Some config ->
     exists o, st_configs (w_store w') !! k = Some o /\ carries o config) /\
  ((forall i, fault i = None) -> r = mkResult false None /\
     forall k, out !! k = None -> st_configs (w_store w') !! k = None).

(** A failed read changes nothing. *)
Lemma run_failed w out w' i err : named w -> w_store w' = w_store w -> fault i = Some err -> run_ok w out w' (mkResult true None).
Proof.
  intros Hw Es Hi. unfold run_ok, named, same_topology. rewrite Es.
  split_and!; [done|done|exact Hw|by left|done|]. intros Hf. by rewrite Hf in Hi.
Qed.

(** Every run of [Reconcile], with or without failed calls. *)
Lemma reconcile_run w : named w -> rebuildable (world_filter w) ->
  exists out w' r, world_calculate w = Ret (inl out) /\ Reconcile rand fault order w = Ret (w', r) /\ run_ok w out w' r.
Proof.
  intros Hw Hrb. destruct (calculation rand _ _ _ Hrb) as (c & _ & Hc).
  destruct (Hc (order string)) as (out & E & _). exists out. unfold Reconcile, call.
  assert (Hfail : forall w', w_store w' = w_store w -> forall i err, fault i = Some err ->
    exists w'' r, world_calculate w = Ret (inl out) /\ requeue w' None = Ret (w'', r) /\ run_ok w out w'' r).
  { intros w' Es i err Hi. exists w', (mkResult true None). split_and!; [exact E|done|by eapply run_failed]. }
  destruct (fault (w_calls w)) eqn:F1; [by eapply Hfail|].
  destruct (fault (w_calls (tick w))) eqn:F2; [by eapply Hfail|].
  destruct (fault (w_calls (tick (tick w)))) eqn:F3; [by eapply Hfail|]. clear Hfail.
  cbn [w_store tick]. fold (listed w). rewrite E. cbn [mbind outcome_bind].
  set (w3 := tick (tick (tick w))).
  destruct (clear_configs_spec fault (listed w) out w3) as (Ht1 & Hn1 & Hk1 & Hd1); [exact Hw|].
  set (w4 := clear_configs fault (listed w) out w3) in *.
  destruct (write_configs fault (order NodeConfig out) w4) as [w5 err] eqn:Ew.
  destruct (write_configs_spec fault _ _ _ _ Hn1 (order_NoDup out) Ew) as (Ht2 & Hn2 & Hk2 & Ho2 & Hd2).
  pose proof (fun Hf => write_configs_no_fault fault (order NodeConfig out) w4 Hf) as Hnf. rewrite Ew in Hnf. simpl in Hnf.
  assert (Hsafe : forall k, st_configs (w_store w5) !! k = st_configs (w_store w) !! k \/
       (st_configs (w_store w5) !! k = None /\ out !! k = None) \/
       exists config o, out !! k = Some config /\ st_configs (w_store w5) !! k = Some o /\ carries o config).
  { intros k. destruct (Hk2 k) as [->|(c' & o & Hin%order_elem & Ho & Hca)]; [|right; right; eauto].
    destruct (Hk1 k) as [->|?]; [by left|right; by left]. }
  unfold run_ok. exists w5. destruct err as [err|].
  - exists (mkResult true (Some err)). split_and!; [done|done|by apply (transitivity (x:=w) (y:=w4))|done|done|done|].
    intros Hf. by specialize (Hnf Hf).
  - exists (mkResult false None). split_and!; [done|done|by apply (transitivity (x:=w) (y:=w4))|done|done|..].
    + intros _ k config Hk. apply Hd2; [done|]. by apply order_elem.
    + intros Hf. split; [done|]. intros k Hk. rewrite Ho2.
      * destruct (Hk1 k) as [E4|[E4 _]]; [|done]. rewrite E4.
        destruct (st_configs (w_store w3) !! k) as [o|] eqn:E3; [|done].
        assert (Hname : nco_Name o = k) by (by apply Hw). rewrite <- Hname in Hk. specialize (Hd1 Hf o).
        rewrite Hname in Hd1, Hk. rewrite <- E4. apply Hd1; [|done].
        unfold listed. apply list_elem_of_fmap. exists (k, o). split; [done|]. by apply order_elem.
      * intros ((k' & c') & -> & Hin%order_elem)%list_elem_of_fmap. simpl in Hk. congruence.
Qed.
End Reconciliation.

(** * Theorems *)

(** The store of the example topology, nothing configured yet. *)
Definition ex_world : World := mkWorld (mkStore ex_nodes ex_clusters ∅) 0.
Definition ex_order (A : Type) (m : gmap string A) : list (string * A) := map_to_list m.
Definition no_fault (i : nat) : option string := None.

Lemma ex_world_rebuildable : rebuildable (world_filter ex_order ex_world).
Proof. intros v t n _ [m Hm]. done. Qed.

(** C27: when no call fails, [Reconcile] finishes without queueing the request
again and the stored configurations are exactly those of the calculation: every
valid node's carries the calculated one, and no other is left. *)
Theorem reconcile_complete rand fault order w :
  (forall A (m : gmap string A), order A m ≡ₚ map_to_list m) -> (forall i, fault i = None) ->
  store_ok (w_store w) -> rebuildable (world_filter order w) ->
  exists out w', world_calculate rand order w = Ret (inl out) /\
    Reconcile rand fault order w = Ret (w', mkResult false None) /\ same_topology w w' /\
    forall k, match out !! k with
              | Some config => exists o, st_configs (w_store w') !! k = Some o /\ carries o config
              | None => st_configs (w_store w') !! k = None
              end.
Proof.
  intros Ho Hf (_ & _ & Hw) Hrb.
  destruct (reconcile_run rand fault order Ho w Hw Hrb) as (out & w' & r & E & Er & Ht & Hn & _ & Hd & Hnf).
  destruct (Hnf Hf) as [-> Hdel]. exists out, w'. split_and!; [done..|]. intros k.
  destruct (out !! k) eqn:Ek; [by apply Hd|by apply Hdel].
Qed.

Lemma reconcile_complete_witness :
  exists out w', world_calculate ex_rand ex_order ex_world = Ret (inl out) /\
    Reconcile ex_rand no_fault ex_order ex_world = Ret (w', mkResult false None) /\ same_topology ex_world w' /\
    forall k, match out !! k with
              | Some config => exists o, st_configs (w_store w') !! k = Some o /\ carries o config
              | None => st_configs (w_store w') !! k = None
              end.
Proof.
  apply (reconcile_complete ex_rand no_fault ex_order ex_world); [done|done| |apply ex_world_rebuildable].
  split_and!; [apply ex_unique|by apply (bool_decide_eq_true_1 (NoDup (map c_Name ex_clusters)))|done].
Defined.

(** Whatever calls fail, [Reconcile] returns, and every stored configuration is
the one before, the calculated one, or gone because its node is not valid any
more; when the request is not queued again, every valid node's configuration is
the calculated one. *)
Theorem reconcile_failures rand fault order w :
  (forall A (m : gmap string A), order A m ≡ₚ map_to_list m) ->
  store_ok (w_store w) -> rebuildable (world_filter order w) ->
  exists out w' r, world_calculate rand order w = Ret (inl out) /\ Reconcile rand fault order w = Ret (w', r) /\
    (forall k, st_configs (w_store w') !! k = st_configs (w_store w) !! k \/
       (st_configs (w_store w') !! k = None /\ out !! k = None) \/
       exists config o, out !! k = Some config /\ st_configs (w_store w') !! k = Some o /\ carries o config) /\
    (rr_requeue r = false -> forall k config, out !! k = Some config ->
       exists o, st_configs (w_store w') !! k = Some o /\ carries o config).
Proof.
  intros Ho (_ & _ & Hw) Hrb.
  destruct (reconcile_run rand fault order Ho w Hw Hrb) as (out & w' & r & E & Er & Ht & Hn & Hk & Hd & Hnf).
  by exists out, w', r.
Qed.

Definition ex_fault (i : nat) : option string := if Nat.eqb i 6 then Some "conflict" else None.

Lemma reconcile_failures_witness :
  exists out w' r, world_calculate ex_rand ex_order ex_world = Ret (inl out) /\
    Reconcile ex_rand ex_fault ex_order ex_world = Ret (w', r) /\
    (forall k, st_configs (w_store w') !! k = st_configs (w_store ex_world) !! k \/
       (st_configs (w_store w') !! k = None /\ out !! k = None) \/
       exists config o, out !! k = Some config /\ st_configs (w_store w') !! k = Some o /\ carries o config) /\
    (rr_requeue r = false -> forall k config, out !! k = Some config ->
       exists o, st_configs (w_store w') !! k = Some o /\ carries o config).
Proof.
  apply (reconcile_failures ex_rand ex_fault ex_order ex_world); [done| |apply ex_world_rebuildable].
  split_and!; [apply ex_unique|by apply (bool_decide_eq_true_1 (NoDup (map c_Name ex_clusters)))|done].
Defined.

Lemma spec_equal_trans a b c : spec_equal a b = true -> spec_equal c b = true -> spec_equal a c = true.
Proof.
  unfold spec_equal. intros H1 H2. breflect.
  apply bool_decide_eq_true_2. destruct H1 as (?&?&?&?&?), H2 as (?&?&?&?&?). split_and!; congruence.
Qed.

(** After a complete round the devices are on record. *)
Lemma reconciled_stored order w out :
  (forall A (m : gmap string A), order A m ≡ₚ map_to_list m) -> named w ->
  (forall k config, out !! k = Some config -> exists o, st_configs (w_store w) !! k = Some o /\ carries o config) ->
  stored out (listed order w).
Proof.
  intros Ho Hw Hc k nc Hk. destruct (Hc k nc Hk) as (o & Hst & Hca).
  assert (Hin : forall o', o' ∈ listed order w <-> st_configs (w_store w) !! nco_Name o' = Some o').
  { intros o'. unfold listed. rewrite list_elem_of_fmap. split.
    - intros ((k' & o'') & -> & Hin%(order_elem order Ho)). simpl. by rewrite (Hw _ _ Hin).
    - intros H. exists (nco_Name o', o'). split; [done|]. by apply (order_elem order Ho). }
  destruct (first_is_Some (fun o => nco_Name o =s k) (listed order w) o) as [o' Ho'].
  - apply Hin. by rewrite (Hw _ _ Hst).
  - apply bool_decide_eq_true_2. by apply Hw.
  - exists o'. split; [done|]. apply first_Some in Ho' as [Hin' Hn']. breflect.
    apply Hin in Hin'. rewrite Hn', Hst in Hin'. injection Hin' as <-.
    unfold carries, spec_equal in Hca. breflect. destruct Hca as [-> _]. simpl. apply elems_to_slice.
Qed.

(** Reconciling is stable: a second round without failures, with other random
bytes, leaves the spec of every stored configuration as it is. *)
Theorem reconcile_stable rand1 rand2 fault order w :
  (forall A (m : gmap string A), order A m ≡ₚ map_to_list m) -> (forall i, fault i = None) ->
  (forall i, rand1 i <> None) ->
  store_ok (w_store w) -> rebuildable (world_filter order w) ->
  exists w1 w2, Reconcile rand1 fault order w = Ret (w1, mkResult false None) /\
    Reconcile rand2 fault order w1 = Ret (w2, mkResult false None) /\
    forall k, match st_configs (w_store w1) !! k, st_configs (w_store w2) !! k with
              | Some o1, Some o2 => spec_equal (nco_Spec o1) (nco_Spec o2) = true
              | None, None => True
              | _, _ => False
              end.
Proof.
  intros Ho Hf Hrand (Hu & Hc & Hw) Hrb.
  destruct (reconcile_run rand1 fault order Ho w Hw Hrb) as (out & w1 & r1 & E1 & Er1 & [Tn Tc] & Hn1 & _ & Hd1 & Hnf1).
  destruct (Hnf1 Hf) as [-> Hdel1]. specialize (Hd1 eq_refl).
  pose proof (reconciled_stored order w1 out Ho Hn1 Hd1) as Hst.
  assert (E2 : world_calculate rand2 order w1 = Ret (inl out)).
  { unfold world_calculate. rewrite Tn, Tc. by eapply recalculate. }
  assert (Hrb2 : rebuildable (world_filter order w1)).
  { unfold world_filter. rewrite Tn, Tc. by eapply recalculate_rebuildable. }
  destruct (reconcile_run rand2 fault order Ho w1 Hn1 Hrb2) as (out2 & w2 & r2 & E2' & Er2 & _ & _ & _ & Hd2 & Hnf2).
  rewrite E2 in E2'. injection E2' as <-. destruct (Hnf2 Hf) as [-> Hdel2]. specialize (Hd2 eq_refl).
  exists w1, w2. split_and!; [done|done|]. intros k. destruct (out !! k) as [config|] eqn:Ek.
  - destruct (Hd1 _ _ Ek) as (o1 & -> & C1), (Hd2 _ _ Ek) as (o2 & -> & C2). by eapply spec_equal_trans.
  - by rewrite Hdel1, Hdel2.
Qed.

Lemma reconcile_stable_witness :
  exists w1 w2, Reconcile ex_rand no_fault ex_order ex_world = Ret (w1, mkResult false None) /\
    Reconcile (fun _ => None) no_fault ex_order w1 = Ret (w2, mkResult false None) /\
    forall k, match st_configs (w_store w1) !! k, st_configs (w_store w2) !! k with
              | Some o1, Some o2 => spec_equal (nco_Spec o1) (nco_Spec o2) = true
              | None, None => True
              | _, _ => False
              end.
Proof.
  apply (reconcile_stable ex_rand (fun _ => None) no_fault ex_order ex_world); [done|done|done| |apply ex_world_rebuildable].
  split_and!; [apply ex_unique|by apply (bool_decide_eq_true_1 (NoDup (map c_Name ex_clusters)))|done].
Defined.
