(* ===== verification/AgentDiff.v ===== *)
(** The difference of two configurations, as the agent computes it:
[compareFunc] and [Diff] of
clusterlink/agent-manager/network-manager/network_manager.go. *)
From S2P Require Import Prelude LinkApi.

(** * Definitions *)

(** The elements of [l] that [f] relates to none of [m]. *)
Definition missing {T} (f : T -> T -> bool) (l m : list T) : list T :=
  List.filter (fun o => negb (any (fun n => f o n) m)) l.

(** [compareFunc]: whether both are the same, what to delete and what to create. *)
Definition compareFunc {T} (old new : slice T) (f : T -> T -> bool) : bool * slice T * slice T :=
  match old, new with
  | None, None => (true, None, None)
  | None, Some _ => (false, Some [], new)
  | Some _, None => (false, old, Some [])
  | Some o, Some n =>
      let deleteRecord := missing f o n in
      let createRecord := missing f n o in
      (Nat.eqb (length deleteRecord) (length createRecord) && Nat.eqb (length createRecord) 0,
       Some deleteRecord, Some createRecord)
  end.

Definition BROADCAST_MAC : string := "ff:ff:ff:ff:ff:ff".

(** [for _, dr := range deleteRecord { if dr.Mac != "ff:.." { append } }] from nil. *)
Definition not_broadcast {T} (mac : T -> string) (l : slice T) : slice T :=
  to_slice (List.filter (fun dr => negb (mac dr =s BROADCAST_MAC)) (elems l)).

Definition pick {T} (same : bool) (s : slice T) : slice T := if same then None else s.

(** [NetworkManager.Diff] *)
Definition Diff (oldConfig newConfig : NodeConfigSpec) : bool * NodeConfigSpec * NodeConfigSpec :=
  let '(fd, dd, cd) := compareFunc (spec_Devices oldConfig) (spec_Devices newConfig) Device_Compare in
  let '(fr, dr, cr) := compareFunc (spec_Routes oldConfig) (spec_Routes newConfig) Route_Compare in
  let '(fi, di, ci) := compareFunc (spec_Iptables oldConfig) (spec_Iptables newConfig) Iptables_Compare in
  let '(ff, df, cf) := compareFunc (spec_Fdbs oldConfig) (spec_Fdbs newConfig) Fdb_Compare in
  let '(fa, da, ca) := compareFunc (spec_Arps oldConfig) (spec_Arps newConfig) Arp_Compare in
  (fd && fr && fi && ff && fa,
   mkSpec (pick fd dd) (pick fr dr) (pick fi di)
          (pick ff (not_broadcast fdb_Mac df)) (pick fa (not_broadcast arp_Mac da)),
   mkSpec (pick fd cd) (pick fr cr) (pick fi ci) (pick ff cf) (pick fa ca)).

(** * Facts *)

Lemma missing_elem `{Comparable T} (l m : list T) x : x ∈ missing compare l m <-> x ∈ l /\ x ∉ m.
Proof.
  unfold missing. rewrite list_filter_spec, negb_true_iff, any_false. split.
  - intros [Hx Hn]. split; [done|]. intros Hm. specialize (Hn x Hm). by rewrite (proj2 (compare_eq x x)) in Hn.
  - intros [Hx Hn]. split; [done|]. intros y Hy. destruct (compare x y) eqn:E; [|done].
    apply compare_eq in E as ->. done.
Qed.

Lemma missing_nil `{Comparable T} (l m : list T) : missing compare l m = [] <-> forall x, x ∈ l -> x ∈ m.
Proof.
  split.
  - intros E x Hx. destruct (any (fun y => compare x y) m) eqn:Ea.
    + apply any_true in Ea as (y & Hy & Ec). by apply compare_eq in Ec as ->.
    + assert (Hin : x ∈ missing compare l m).
      { unfold missing. rewrite list_filter_spec. by rewrite Ea. }
      rewrite E in Hin. by apply elem_of_nil in Hin.
  - intros Hs. destruct (missing compare l m) as [|x l'] eqn:E; [done|].
    assert (Hin : x ∈ missing compare l m) by (rewrite E; by left).
    apply missing_elem in Hin as [Hx Hn]. by destruct Hn; apply Hs.
Qed.

Lemma compareFunc_delete `{Comparable T} (old new : slice T) x :
  x ∈ elems (snd (fst (compareFunc old new compare))) <-> x ∈ elems old /\ x ∉ elems new.
Proof.
  destruct old as [o|], new as [n|]; simpl; rewrite ?missing_elem, ?elem_of_nil; intuition.
Qed.

Lemma compareFunc_create `{Comparable T} (old new : slice T) x :
  x ∈ elems (snd (compareFunc old new compare)) <-> x ∈ elems new /\ x ∉ elems old.
Proof.
  destruct old as [o|], new as [n|]; simpl; rewrite ?missing_elem, ?elem_of_nil; intuition.
Qed.

(** The flag: both nil, or both non-nil with the same elements. *)
Lemma compareFunc_same `{Comparable T} (old new : slice T) :
  fst (fst (compareFunc old new compare)) = true <->
  (is_Some old <-> is_Some new) /\ forall x, x ∈ elems old <-> x ∈ elems new.
Proof.
  destruct old as [o|], new as [n|]; simpl.
  - rewrite andb_true_iff, !Nat.eqb_eq. split.
    + intros [E1 E2]. rewrite E2 in E1. apply nil_length_inv in E1, E2.
      rewrite missing_nil in E1, E2. split; [by split; eauto|]. intros x. split; auto.
    + intros [_ Hs]. rewrite (proj2 (missing_nil o n)), (proj2 (missing_nil n o)); [done|..]; intros x; by rewrite Hs.
  - split; [done|]. intros [[H1 _] _]. destruct H1; eauto. done.
  - split; [done|]. intros [[_ H1] _]. destruct H1; eauto. done.
  - intuition.
Qed.

(** A component of the result of [Diff]. *)
Lemma pick_elem {T} same (s : slice T) x : x ∈ elems (pick same s) <-> same = false /\ x ∈ elems s.
Proof. destruct same; simpl; [rewrite elem_of_nil|]; naive_solver. Qed.

Lemma not_broadcast_elem {T} (mac : T -> string) s x :
  x ∈ elems (not_broadcast mac s) <-> x ∈ elems s /\ mac x <> BROADCAST_MAC.
Proof.
  unfold not_broadcast. rewrite elems_to_slice, list_filter_spec, negb_true_iff. by rewrite bool_decide_eq_false.
Qed.

(** What is deleted and created, for one component. *)
Lemma pick_delete `{Comparable T} (old new : slice T) x :
  let '(same, d, _) := compareFunc old new compare in
  x ∈ elems (pick same d) <-> x ∈ elems old /\ x ∉ elems new.
Proof.
  pose proof (compareFunc_delete old new x) as Hd. pose proof (compareFunc_same old new) as Hs.
  destruct (compareFunc old new compare) as [[same d] c]. simpl in *. rewrite pick_elem, Hd.
  destruct same; [|tauto]. destruct (proj1 Hs eq_refl) as [_ E]. rewrite E. tauto.
Qed.

Lemma pick_create `{Comparable T} (old new : slice T) x :
  let '(same, _, c) := compareFunc old new compare in
  x ∈ elems (pick same c) <-> x ∈ elems new /\ x ∉ elems old.
Proof.
  pose proof (compareFunc_create old new x) as Hd. pose proof (compareFunc_same old new) as Hs.
  destruct (compareFunc old new compare) as [[same d] c]. simpl in *. rewrite pick_elem, Hd.
  destruct same; [|tauto]. destruct (proj1 Hs eq_refl) as [_ E]. rewrite E. tauto.
Qed.

Lemma pick_delete_not_broadcast `{Comparable T} (mac : T -> string) (old new : slice T) x :
  let '(same, d, _) := compareFunc old new compare in
  x ∈ elems (pick same (not_broadcast mac d)) <-> x ∈ elems old /\ x ∉ elems new /\ mac x <> BROADCAST_MAC.
Proof.
  pose proof (pick_delete old new x) as Hd. destruct (compareFunc old new compare) as [[same d] c].
  rewrite pick_elem in *. rewrite not_broadcast_elem. tauto.
Qed.
