(* ===== verification/AgentNetwork.v ===== *)
(** The agent's view of the kernel: the interface [network.NetWork]
(clusterlink/network/interface.go), its laws against an abstract state, and
[DefaultNetWork] (clusterlink/network/adapter.go), which implements it by loops
over the operations on single devices, routes, rules and entries.  Those single
operations talk to the kernel and are a parameter ([KernelOps]). *)
From S2P Require Import Prelude LinkApi.

(** * The abstract state: what is configured in the kernel *)

Record Abs := mkAbs {
  a_dev : Device -> Prop; a_route : Route -> Prop; a_ipt : Iptables -> Prop;
  a_fdb : Fdb -> Prop; a_arp : Arp -> Prop }.

Definition abs_eq (a b : Abs) : Prop :=
  (forall x, a_dev a x <-> a_dev b x) /\ (forall x, a_route a x <-> a_route b x) /\
  (forall x, a_ipt a x <-> a_ipt b x) /\ (forall x, a_fdb a x <-> a_fdb b x) /\ (forall x, a_arp a x <-> a_arp b x).

#[export] Instance abs_eq_equiv : Equivalence abs_eq.
Proof.
  split.
  - intros a. by repeat split.
  - intros a b (?&?&?&?&?). repeat split; firstorder.
  - intros a b c (?&?&?&?&?) (?&?&?&?&?). repeat split; firstorder.
Qed.

Definition with_dev (a : Abs) (p : Device -> Prop) : Abs := mkAbs p (a_route a) (a_ipt a) (a_fdb a) (a_arp a).
Definition with_route (a : Abs) (p : Route -> Prop) : Abs := mkAbs (a_dev a) p (a_ipt a) (a_fdb a) (a_arp a).
Definition with_ipt (a : Abs) (p : Iptables -> Prop) : Abs := mkAbs (a_dev a) (a_route a) p (a_fdb a) (a_arp a).
Definition with_fdb (a : Abs) (p : Fdb -> Prop) : Abs := mkAbs (a_dev a) (a_route a) (a_ipt a) p (a_arp a).
Definition with_arp (a : Abs) (p : Arp -> Prop) : Abs := mkAbs (a_dev a) (a_route a) (a_ipt a) (a_fdb a) p.

Definition plus {T} (p : T -> Prop) (l : list T) : T -> Prop := fun x => p x \/ x ∈ l.
Definition minus {T} (p : T -> Prop) (l : list T) : T -> Prop := fun x => p x /\ x ∉ l.

(** Deleting links: the devices of those names go, and of what is attached to them
the kernel keeps nothing it has to keep. *)
Definition del_devices (names : list string) (a b : Abs) : Prop :=
  (forall d, a_dev b d <-> a_dev a d /\ dev_Name d ∉ names) /\
  (forall x, a_route b x -> a_route a x) /\ (forall x, a_route a x -> rt_Dev x ∉ names -> a_route b x) /\
  (forall x, a_ipt b x <-> a_ipt a x) /\
  (forall x, a_fdb b x -> a_fdb a x) /\ (forall x, a_fdb a x -> fdb_Dev x ∉ names -> a_fdb b x) /\
  (forall x, a_arp b x -> a_arp a x) /\ (forall x, a_arp a x -> arp_Dev x ∉ names -> a_arp b x).

(** * The interface *)

Class NetWork (K : Type) := {
  LoadSysConfig : K -> NodeConfigSpec * option string;
  DeleteArps : list Arp -> K -> K * option string;
  DeleteFdbs : list Fdb -> K -> K * option string;
  DeleteIptables : list Iptables -> K -> K * option string;
  DeleteRoutes : list Route -> K -> K * option string;
  DeleteDevices : list Device -> K -> K * option string;
  AddArps : list Arp -> K -> K * option string;
  AddFdbs : list Fdb -> K -> K * option string;
  AddIptables : list Iptables -> K -> K * option string;
  AddRoutes : list Route -> K -> K * option string;
  AddDevices : list Device -> K -> K * option string;
  UpdateCidrConfig : Cluster -> K -> outcome K }.

(** What the loaded configuration says about the kernel. *)
Class LoadLaws (K : Type) `{NetWork K} := {
  abs : K -> Abs;
  abs_names : forall k d d', a_dev (abs k) d -> a_dev (abs k) d' -> dev_Name d = dev_Name d' -> d = d';
  load_law : forall k spec, LoadSysConfig k = (spec, None) ->
    (forall x, x ∈ elems (spec_Devices spec) <-> a_dev (abs k) x) /\
    (forall x, x ∈ elems (spec_Routes spec) <-> a_route (abs k) x) /\
    (forall x, x ∈ elems (spec_Iptables spec) <-> a_ipt (abs k) x) /\
    (forall x, x ∈ elems (spec_Fdbs spec) <-> a_fdb (abs k) x) /\
    (forall x, x ∈ elems (spec_Arps spec) <-> a_arp (abs k) x) }.

(** What the manager relies on, when an operation reports no error. *)
Class NetWorkLaws (K : Type) `{NetWork K} := {
  #[global] network_load :: LoadLaws K;
  delete_arps_law : forall l k k', DeleteArps l k = (k', None) -> abs_eq (abs k') (with_arp (abs k) (minus (a_arp (abs k)) l));
  delete_fdbs_law : forall l k k', DeleteFdbs l k = (k', None) -> abs_eq (abs k') (with_fdb (abs k) (minus (a_fdb (abs k)) l));
  delete_iptables_law : forall l k k', DeleteIptables l k = (k', None) -> abs_eq (abs k') (with_ipt (abs k) (minus (a_ipt (abs k)) l));
  delete_routes_law : forall l k k', DeleteRoutes l k = (k', None) -> abs_eq (abs k') (with_route (abs k) (minus (a_route (abs k)) l));
  delete_devices_law : forall l k k', DeleteDevices l k = (k', None) -> del_devices (map dev_Name l) (abs k) (abs k');
  add_arps_law : forall l k k', AddArps l k = (k', None) -> abs_eq (abs k') (with_arp (abs k) (plus (a_arp (abs k)) l));
  add_fdbs_law : forall l k k', AddFdbs l k = (k', None) -> abs_eq (abs k') (with_fdb (abs k) (plus (a_fdb (abs k)) l));
  add_iptables_law : forall l k k', AddIptables l k = (k', None) -> abs_eq (abs k') (with_ipt (abs k) (plus (a_ipt (abs k)) l));
  add_routes_law : forall l k k', AddRoutes l k = (k', None) -> abs_eq (abs k') (with_route (abs k) (plus (a_route (abs k)) l));
  add_devices_law : forall l k k', AddDevices l k = (k', None) -> abs_eq (abs k') (with_dev (abs k) (plus (a_dev (abs k)) l)) }.

(** * DefaultNetWork *)

(** [errors.Wrap(err, msg)] and [fmt.Sprint] of an error. *)
Definition Wrap (err msg : string) : string := msg +:+ ": " +:+ err.
Definition Sprint (err : option string) : string := match err with None => "<nil>" | Some e => e end.

(** The operations on single items, and the loaders. *)
Record KernelOps (K : Type) := mkKernelOps {
  loadDevices : K -> list Device + string;
  loadRoutes : K -> list Route + string;
  loadIptables : K -> list Iptables + string;
  loadFdbs : K -> list Fdb + string;
  loadArps : K -> list Arp + string;
  deleteArp : Arp -> K -> K * option string;
  deleteFdb : Fdb -> K -> K * option string;
  deleteIptable : Iptables -> K -> K * option string;
  deleteRoute : Route -> K -> K * option string;
  deleteDevice : Device -> K -> K * option string;
  addArp : Arp -> K -> K * option string;
  addFdb : Fdb -> K -> K * option string;
  addIptables : Iptables -> K -> K * option string;
  addRoute : Route -> K -> K * option string;
  addDevice : Device -> K -> K * option string;
  UpdateCidr : string -> string -> string -> string -> K -> K }.
Arguments mkKernelOps {K}.

(** [%v] of the structs of three strings. *)
Definition show3 (a b c : string) : string := "{" +:+ a +:+ " " +:+ b +:+ " " +:+ c +:+ "}".
Definition show_arp (a : Arp) : string := show3 (arp_IP a) (arp_Mac a) (arp_Dev a).
Definition show_fdb (f : Fdb) : string := show3 (fdb_IP f) (fdb_Mac f) (fdb_Dev f).
Definition show_iptables (i : Iptables) : string := show3 (ipt_Table i) (ipt_Chain i) (ipt_Rule i).
Definition show_route (r : Route) : string := show3 (rt_CIDR r) (rt_Gw r) (rt_Dev r).

(** [for _, x := range l { if err := op(x); err != nil { errs = Wrap(err, msg) } }]:
every item is tried, the last error is returned. *)
Definition each {K X} (op : X -> K -> K * option string) (msg : X -> string) (l : list X) (k : K) : K * option string :=
  fold_left (fun st x =>
    match op x (fst st) with
    | (k', None) => (k', snd st)
    | (k', Some err) => (k', Some (Wrap err (msg x)))
    end) l (k, None).

(** One loader of [LoadSysConfig]: the slice stays nil on an error. *)
Definition load1 {X} (r : list X + string) (errs : option string) : slice X * option string :=
  match r with
  | inl l => (Some l, errs)
  | inr err => (None, Some (Wrap err (Sprint errs)))
  end.

#[export] Instance DefaultNetWork {K} (ops : KernelOps K) : NetWork K := {|
  LoadSysConfig := fun k =>
    let '(devices, errs) := load1 (loadDevices K ops k) None in
    let '(routes, errs) := load1 (loadRoutes K ops k) errs in
    let '(iptables, errs) := load1 (loadIptables K ops k) errs in
    let '(fdbs, errs) := load1 (loadFdbs K ops k) errs in
    let '(arps, errs) := load1 (loadArps K ops k) errs in
    (mkSpec devices routes iptables fdbs arps, errs);
  DeleteArps := each (deleteArp K ops) (fun x => "delete arp error, fdb: " +:+ show_arp x);
  DeleteFdbs := each (deleteFdb K ops) (fun x => "delete fdb error, fdb: " +:+ show_fdb x);
  DeleteIptables := each (deleteIptable K ops) (fun x => "delete iptable error, deivce name: " +:+ show_iptables x);
  DeleteRoutes := each (deleteRoute K ops) (fun x => "delete route error, deivce name: " +:+ show_route x);
  DeleteDevices := each (deleteDevice K ops) (fun x => "delete device error, deivce name: " +:+ dev_Name x);
  AddArps := each (addArp K ops) (fun x => "create arp error : " +:+ show_arp x);
  AddFdbs := each (addFdb K ops) (fun x => "create fdb error, deivce name: " +:+ show_fdb x);
  AddIptables := each (addIptables K ops) (fun x => "create iptable error, deivce name: " +:+ show_iptables x);
  AddRoutes := each (addRoute K ops) (fun x => "create route error, deivce name: " +:+ show_route x);
  AddDevices := each (addDevice K ops) (fun x => "create device error, deivce name: " +:+ dev_Name x);
  UpdateCidrConfig := fun cluster k =>
    o ← deref (c_ClusterLinkOptions cluster);
    Ret (UpdateCidr K ops (vx_IP (lo_BridgeCIDRs o)) (vx_IP6 (lo_BridgeCIDRs o))
           (vx_IP (lo_LocalCIDRs o)) (vx_IP6 (lo_LocalCIDRs o)) k) |}.

(** ** The laws of the single operations give the laws of the interface *)

Class KernelLaws {K : Type} (ops : KernelOps K) := {
  kabs : K -> Abs;
  kabs_names : forall k d d', a_dev (kabs k) d -> a_dev (kabs k) d' -> dev_Name d = dev_Name d' -> d = d';
  loadDevices_law : forall k l, loadDevices K ops k = inl l -> forall x, x ∈ l <-> a_dev (kabs k) x;
  loadRoutes_law : forall k l, loadRoutes K ops k = inl l -> forall x, x ∈ l <-> a_route (kabs k) x;
  loadIptables_law : forall k l, loadIptables K ops k = inl l -> forall x, x ∈ l <-> a_ipt (kabs k) x;
  loadFdbs_law : forall k l, loadFdbs K ops k = inl l -> forall x, x ∈ l <-> a_fdb (kabs k) x;
  loadArps_law : forall k l, loadArps K ops k = inl l -> forall x, x ∈ l <-> a_arp (kabs k) x;
  deleteArp_law : forall x k k', deleteArp K ops x k = (k', None) -> abs_eq (kabs k') (with_arp (kabs k) (minus (a_arp (kabs k)) [x]));
  deleteFdb_law : forall x k k', deleteFdb K ops x k = (k', None) -> abs_eq (kabs k') (with_fdb (kabs k) (minus (a_fdb (kabs k)) [x]));
  deleteIptable_law : forall x k k', deleteIptable K ops x k = (k', None) -> abs_eq (kabs k') (with_ipt (kabs k) (minus (a_ipt (kabs k)) [x]));
  deleteRoute_law : forall x k k', deleteRoute K ops x k = (k', None) -> abs_eq (kabs k') (with_route (kabs k) (minus (a_route (kabs k)) [x]));
  deleteDevice_law : forall x k k', deleteDevice K ops x k = (k', None) -> del_devices [dev_Name x] (kabs k) (kabs k');
  addArp_law : forall x k k', addArp K ops x k = (k', None) -> abs_eq (kabs k') (with_arp (kabs k) (plus (a_arp (kabs k)) [x]));
  addFdb_law : forall x k k', addFdb K ops x k = (k', None) -> abs_eq (kabs k') (with_fdb (kabs k) (plus (a_fdb (kabs k)) [x]));
  addIptables_law : forall x k k', addIptables K ops x k = (k', None) -> abs_eq (kabs k') (with_ipt (kabs k) (plus (a_ipt (kabs k)) [x]));
  addRoute_law : forall x k k', addRoute K ops x k = (k', None) -> abs_eq (kabs k') (with_route (kabs k) (plus (a_route (kabs k)) [x]));
  addDevice_law : forall x k k', addDevice K ops x k = (k', None) -> abs_eq (kabs k') (with_dev (kabs k) (plus (a_dev (kabs k)) [x])) }.

Lemma each_None {K X} (op : X -> K -> K * option string) msg (R : list X -> K -> K -> Prop) l k k' :
  (forall k, R [] k k) ->
  (forall x l k k1 k2, op x k = (k1, None) -> R l k1 k2 -> R (x :: l) k k2) ->
  each op msg l k = (k', None) -> R l k k'.
Proof.
  intros H0 Hs. unfold each. set (f := fun _ _ => _).
  assert (Herr : forall l st, snd (fold_left f l st) = None -> snd st = None).
  { induction l0 as [|x l0 IH]; intros st; simpl; [done|]. intros H%IH. unfold f in H.
    by destruct (op x (fst st)) as [k1 [e|]]. }
  revert k. induction l as [|x l IH]; intros k; simpl; [intros [= ->]; apply H0|].
  unfold f at 2. simpl. destruct (op x k) as [k1 [e|]] eqn:E.
  - intros Hf. assert (Hc : snd (fold_left f l (k1, Some (Wrap e (msg x)))) = None) by by rewrite Hf.
    by apply Herr in Hc.
  - intros Hf. eapply Hs; [done|]. by apply IH.
Qed.

(** Chains two steps of the abstract state. *)
Ltac abs_step :=
  intros (A1 & A2 & A3 & A4 & A5) (B1 & B2 & B3 & B4 & B5);
  unfold plus, minus in *; simpl in *; split_and!; intros y;
  [rewrite B1, A1|rewrite B2, A2|rewrite B3, A3|rewrite B4, A4|rewrite B5, A5];
  simpl; rewrite ?elem_of_cons, ?elem_of_nil; tauto.

Ltac abs_refl := intros; split_and!; intros y; simpl; unfold plus, minus; rewrite ?elem_of_nil; tauto.

Ltac each_law upd op_law :=
  intros l k k'; apply (each_None _ _ (fun l k k' => abs_eq (kabs k') (upd l (kabs k)))); [abs_refl|];
  intros x l' k0 k1 k2 Hop; generalize (op_law x k0 k1 Hop); abs_step.

Lemma del_devices_nil a : del_devices [] a a.
Proof. unfold del_devices. pose proof (not_elem_of_nil (A:=string)). split_and!; intros x; naive_solver. Qed.

Lemma del_devices_cons name names a b c :
  del_devices [name] a b -> del_devices names b c -> del_devices (name :: names) a c.
Proof.
  intros (A1 & A2 & A3 & A4 & A5 & A6 & A7 & A8) (B1 & B2 & B3 & B4 & B5 & B6 & B7 & B8).
  assert (Hn : forall s, s ∉ name :: names <-> s ∉ [name] /\ s ∉ names)
    by (intros s; rewrite !not_elem_of_cons; pose proof (not_elem_of_nil s); tauto).
  split_and!.
  - intros d. rewrite B1, A1, Hn. tauto.
  - auto.
  - intros x Hx [? ?]%Hn. auto.
  - intros x. by rewrite B4, A4.
  - auto.
  - intros x Hx [? ?]%Hn. auto.
  - auto.
  - intros x Hx [? ?]%Hn. auto.
Qed.

Lemma load1_None {X} (r : list X + string) errs s : load1 r errs = (s, None) -> errs = None /\ exists l, r = inl l /\ s = Some l.
Proof. destruct r; simpl; [intros [= <- ->]; eauto|done]. Qed.

Section Default.
Context {K : Type} (ops : KernelOps K) {laws : KernelLaws ops}.

Lemma default_load k spec : @LoadSysConfig K (DefaultNetWork ops) k = (spec, None) ->
  exists d r i f a, loadDevices K ops k = inl d /\ loadRoutes K ops k = inl r /\ loadIptables K ops k = inl i /\
    loadFdbs K ops k = inl f /\ loadArps K ops k = inl a /\
    spec = mkSpec (Some d) (Some r) (Some i) (Some f) (Some a).
Proof.
  simpl. destruct (load1 (loadDevices K ops k) None) as [s1 e1] eqn:E1.
  destruct (load1 (loadRoutes K ops k) e1) as [s2 e2] eqn:E2.
  destruct (load1 (loadIptables K ops k) e2) as [s3 e3] eqn:E3.
  destruct (load1 (loadFdbs K ops k) e3) as [s4 e4] eqn:E4.
  destruct (load1 (loadArps K ops k) e4) as [s5 e5] eqn:E5. intros [= <- ->].
  apply load1_None in E5 as (-> & a & ? & ->). apply load1_None in E4 as (-> & f & ? & ->).
  apply load1_None in E3 as (-> & i & ? & ->). apply load1_None in E2 as (-> & r & ? & ->).
  apply load1_None in E1 as (_ & d & ? & ->). by exists d, r, i, f, a.
Qed.

#[local, refine] Instance DefaultNetWork_load : @LoadLaws K (DefaultNetWork ops) := {| abs := kabs |}.
Proof.
  - apply kabs_names.
  - intros k spec (d & r & i & f & a & Ed & Er & Ei & Ef & Ea & ->)%default_load. simpl.
    split_and!; [by apply loadDevices_law|by apply loadRoutes_law|by apply loadIptables_law|by apply loadFdbs_law
                |by apply loadArps_law].
Defined.

#[export, refine] Instance DefaultNetWork_laws : @NetWorkLaws K (DefaultNetWork ops) := {| network_load := DefaultNetWork_load |}.
Proof.
  - each_law (fun l a => with_arp a (minus (a_arp a) l)) (deleteArp_law (ops:=ops)).
  - each_law (fun l a => with_fdb a (minus (a_fdb a) l)) (deleteFdb_law (ops:=ops)).
  - each_law (fun l a => with_ipt a (minus (a_ipt a) l)) (deleteIptable_law (ops:=ops)).
  - each_law (fun l a => with_route a (minus (a_route a) l)) (deleteRoute_law (ops:=ops)).
  - intros l k k'. apply (each_None _ _ (fun l k k' => del_devices (map dev_Name l) (kabs k) (kabs k'))).
    + intros. apply del_devices_nil.
    + intros x l' k0 k1 k2 Hop. apply del_devices_cons. by apply deleteDevice_law.
  - each_law (fun l a => with_arp a (plus (a_arp a) l)) (addArp_law (ops:=ops)).
  - each_law (fun l a => with_fdb a (plus (a_fdb a) l)) (addFdb_law (ops:=ops)).
  - each_law (fun l a => with_ipt a (plus (a_ipt a) l)) (addIptables_law (ops:=ops)).
  - each_law (fun l a => with_route a (plus (a_route a) l)) (addRoute_law (ops:=ops)).
  - each_law (fun l a => with_dev a (plus (a_dev a) l)) (addDevice_law (ops:=ops)).
Defined.
End Default.
