(* ===== verification/AgentManager.v ===== *)
(** The agent's network manager: [WriteSys], [UpdateSync], [UpdateFromCRD] and
[UpdateFromChecker] of clusterlink/agent-manager/network-manager/network_manager.go,
over any implementation of the [NetWork] interface, and the theorem that
synchronising brings the kernel to the configuration of the node. *)
From S2P Require Import Prelude LinkApi AgentDiff AgentNetwork.

(** * Definitions *)

(** [NodeConfigSyncStatus]: the empty string before the first synchronisation. *)
Definition NodeConfigSyncSuccess : string := "success".
Definition NodeConfigSyncException : string := "exception".

Record NetworkManager (K : Type) := mkNetworkManager {
  nm_Network : K;
  nm_ToConfig : NodeConfigSpec;
  nm_Status : string;
  nm_Reason : string }.
Arguments mkNetworkManager {K}.
Arguments nm_Network {K}.
Arguments nm_ToConfig {K}.
Arguments nm_Status {K}.
Arguments nm_Reason {K}.

Section Manager.
Context {K : Type} `{NetWork K}.

Definition NewNetworkManager (network : K) : NetworkManager K := mkNetworkManager network emptySpec "" "".

(** One block of [WriteSys]: a nil slice is skipped, an error is wrapped around
the errors so far and the next block runs. *)
Definition write1 {X} (s : slice X) (op : list X -> K -> K * option string) (st : K * option string) : K * option string :=
  match s with
  | None => st
  | Some l =>
      match op l (fst st) with
      | (k', None) => (k', snd st)
      | (k', Some err) => (k', Some (Wrap err (Sprint (snd st))))
      end
  end.

Definition WriteSys (deleteConfig createConfig : NodeConfigSpec) (k : K) : K * option string :=
  let st := (k, None) in
  let st := write1 (spec_Arps deleteConfig) DeleteArps st in
  let st := write1 (spec_Fdbs deleteConfig) DeleteFdbs st in
  let st := write1 (spec_Iptables deleteConfig) DeleteIptables st in
  let st := write1 (spec_Routes deleteConfig) DeleteRoutes st in
  let st := write1 (spec_Devices deleteConfig) DeleteDevices st in
  let st := write1 (spec_Devices createConfig) AddDevices st in
  let st := write1 (spec_Arps createConfig) AddArps st in
  let st := write1 (spec_Fdbs createConfig) AddFdbs st in
  let st := write1 (spec_Iptables createConfig) AddIptables st in
  write1 (spec_Routes createConfig) AddRoutes st.

Definition failed (e : NetworkManager K) (k : K) (err : string) : NetworkManager K * string :=
  (mkNetworkManager k (nm_ToConfig e) NodeConfigSyncException err, NodeConfigSyncException).

Definition UpdateSync (e : NetworkManager K) : NetworkManager K * string :=
  match LoadSysConfig (nm_Network e) with
  | (_, Some err) => failed e (nm_Network e) err
  | (fromConfig, None) =>
      let '(flag, deleteConfig, createConfig) := Diff fromConfig (nm_ToConfig e) in
      if (flag : bool) then (e, NodeConfigSyncSuccess)
      else
        match WriteSys deleteConfig createConfig (nm_Network e) with
        | (k, Some err) => failed e k err
        | (k, None) => (mkNetworkManager k (nm_ToConfig e) NodeConfigSyncSuccess "", NodeConfigSyncSuccess)
        end
  end.

Definition UpdateFromCRD (spec : NodeConfigSpec) (e : NetworkManager K) : NetworkManager K * string :=
  let '(flag, _, _) := Diff (nm_ToConfig e) spec in
  if (flag : bool) then (e, nm_Status e)
  else UpdateSync (mkNetworkManager (nm_Network e) spec (nm_Status e) (nm_Reason e)).

(** [ToConfig] is never nil. *)
Definition UpdateFromChecker (e : NetworkManager K) : NetworkManager K * string := UpdateSync e.

Definition UpdateConfig (cluster : Cluster) (e : NetworkManager K) : outcome (NetworkManager K) :=
  k ← UpdateCidrConfig cluster (nm_Network e);
  Ret (mkNetworkManager k (nm_ToConfig e) (nm_Status e) (nm_Reason e)).

End Manager.

(** * The abstract effect of a write without errors *)

Definition names (s : NodeConfigSpec) : list string := map dev_Name (elems (spec_Devices s)).

Record written (del cre : NodeConfigSpec) (a b : Abs) : Prop := {
  wr_dev : forall d, a_dev b d <-> (a_dev a d /\ dev_Name d ∉ names del) \/ d ∈ elems (spec_Devices cre);
  wr_ipt : forall x, a_ipt b x <-> (a_ipt a x /\ x ∉ elems (spec_Iptables del)) \/ x ∈ elems (spec_Iptables cre);
  wr_route : forall x, a_route b x -> (a_route a x /\ x ∉ elems (spec_Routes del)) \/ x ∈ elems (spec_Routes cre);
  wr_route' : forall x, (a_route a x /\ x ∉ elems (spec_Routes del) /\ rt_Dev x ∉ names del) \/ x ∈ elems (spec_Routes cre) -> a_route b x;
  wr_fdb : forall x, a_fdb b x -> (a_fdb a x /\ x ∉ elems (spec_Fdbs del)) \/ x ∈ elems (spec_Fdbs cre);
  wr_fdb' : forall x, (a_fdb a x /\ x ∉ elems (spec_Fdbs del) /\ fdb_Dev x ∉ names del) \/ x ∈ elems (spec_Fdbs cre) -> a_fdb b x;
  wr_arp : forall x, a_arp b x -> (a_arp a x /\ x ∉ elems (spec_Arps del)) \/ x ∈ elems (spec_Arps cre);
  wr_arp' : forall x, (a_arp a x /\ x ∉ elems (spec_Arps del) /\ arp_Dev x ∉ names del) \/ x ∈ elems (spec_Arps cre) -> a_arp b x }.

(** Instantiates every fact about one component at [x]. *)
Ltac at_item T x := repeat match goal with Hh : forall y : T, _ |- _ => specialize (Hh x) end.

(** The effect of the ten blocks in their order. *)
Lemma written_steps del cre a0 a1 a2 a3 a4 a5 a6 a7 a8 a9 a10 :
  abs_eq a1 (with_arp a0 (minus (a_arp a0) (elems (spec_Arps del)))) -> abs_eq a2 (with_fdb a1 (minus (a_fdb a1) (elems (spec_Fdbs del)))) ->
  abs_eq a3 (with_ipt a2 (minus (a_ipt a2) (elems (spec_Iptables del)))) -> abs_eq a4 (with_route a3 (minus (a_route a3) (elems (spec_Routes del)))) ->
  del_devices (names del) a4 a5 -> abs_eq a6 (with_dev a5 (plus (a_dev a5) (elems (spec_Devices cre)))) ->
  abs_eq a7 (with_arp a6 (plus (a_arp a6) (elems (spec_Arps cre)))) -> abs_eq a8 (with_fdb a7 (plus (a_fdb a7) (elems (spec_Fdbs cre)))) ->
  abs_eq a9 (with_ipt a8 (plus (a_ipt a8) (elems (spec_Iptables cre)))) -> abs_eq a10 (with_route a9 (plus (a_route a9) (elems (spec_Routes cre)))) ->
  written del cre a0 a10.
Proof.
  intros (?&?&?&?&?) (?&?&?&?&?) (?&?&?&?&?) (?&?&?&?&?) (?&?&?&?&?&?&?&?) (?&?&?&?&?) (?&?&?&?&?) (?&?&?&?&?) (?&?&?&?&?) (?&?&?&?&?).
  unfold plus, minus in *. simpl in *. split; intros x.
  - at_item Device x. tauto.
  - at_item Iptables x. tauto.
  - at_item Route x. tauto.
  - at_item Route x. tauto.
  - at_item Fdb x. tauto.
  - at_item Fdb x. tauto.
  - at_item Arp x. tauto.
  - at_item Arp x. tauto.
Qed.

Section Laws.
Context {K : Type} `{NetWorkLaws K}.

(** A block that reports no error ran without errors so far. *)
Lemma write1_None {X} (R : list X -> Abs -> Abs -> Prop) (s : slice X) op (k : K) e k' :
  (forall l k k', op l k = (k', None) -> R l (abs k) (abs k')) -> (forall a, R [] a a) ->
  write1 s op (k, e) = (k', None) -> e = None /\ R (elems s) (abs k) (abs k').
Proof.
  intros Hop Hnil. destruct s as [l|]; simpl; [|intros [= -> ->]; auto].
  destruct (op l k) as [k1 [e1|]] eqn:E; [done|]. intros [= -> ->]. auto.
Qed.

Ltac nil_case := intros a; split_and!; intros y; unfold plus, minus; simpl; rewrite ?elem_of_nil; tauto.

Ltac write_law E law upd :=
  apply (write1_None (fun l a b => abs_eq b (upd l a)) _ _ _ _ _ law) in E; [|nil_case]; destruct E as [? E]; subst.

Lemma WriteSys_written del cre k k' : WriteSys del cre k = (k', None) -> written del cre (abs k) (abs k').
Proof.
  unfold WriteSys. destruct (write1 _ DeleteArps _) as [k1 e1] eqn:E1.
  destruct (write1 _ DeleteFdbs _) as [k2 e2] eqn:E2. destruct (write1 _ DeleteIptables _) as [k3 e3] eqn:E3.
  destruct (write1 _ DeleteRoutes _) as [k4 e4] eqn:E4. destruct (write1 _ DeleteDevices _) as [k5 e5] eqn:E5.
  destruct (write1 _ AddDevices _) as [k6 e6] eqn:E6. destruct (write1 _ AddArps _) as [k7 e7] eqn:E7.
  destruct (write1 _ AddFdbs _) as [k8 e8] eqn:E8. destruct (write1 _ AddIptables _) as [k9 e9] eqn:E9. intros E10.
  write_law E10 add_routes_law (fun l a => with_route a (plus (a_route a) l)).
  write_law E9 add_iptables_law (fun l a => with_ipt a (plus (a_ipt a) l)).
  write_law E8 add_fdbs_law (fun l a => with_fdb a (plus (a_fdb a) l)).
  write_law E7 add_arps_law (fun l a => with_arp a (plus (a_arp a) l)).
  write_law E6 add_devices_law (fun l a => with_dev a (plus (a_dev a) l)).
  apply (write1_None (fun l a b => del_devices (map dev_Name l) a b) _ _ _ _ _ delete_devices_law del_devices_nil) in E5.
  destruct E5 as [-> E5].
  write_law E4 delete_routes_law (fun l a => with_route a (minus (a_route a) l)).
  write_law E3 delete_iptables_law (fun l a => with_ipt a (minus (a_ipt a) l)).
  write_law E2 delete_fdbs_law (fun l a => with_fdb a (minus (a_fdb a) l)).
  write_law E1 delete_arps_law (fun l a => with_arp a (minus (a_arp a) l)).
  by eapply written_steps.
Qed.
End Laws.

(** * One synchronisation *)

(** The kernel has exactly the configuration; of neighbour and forwarding entries it
may have more, for the broadcast MAC address. *)
Definition synced (to : NodeConfigSpec) (a : Abs) : Prop :=
  (forall x, a_dev a x <-> x ∈ elems (spec_Devices to)) /\
  (forall x, a_route a x <-> x ∈ elems (spec_Routes to)) /\
  (forall x, a_ipt a x <-> x ∈ elems (spec_Iptables to)) /\
  (forall x, x ∈ elems (spec_Fdbs to) -> a_fdb a x) /\
  (forall x, a_fdb a x -> x ∈ elems (spec_Fdbs to) \/ fdb_Mac x = BROADCAST_MAC) /\
  (forall x, x ∈ elems (spec_Arps to) -> a_arp a x) /\
  (forall x, a_arp a x -> x ∈ elems (spec_Arps to) \/ arp_Mac x = BROADCAST_MAC).

(** The same without the lower bounds for what is attached to devices. *)
Definition bounded (to : NodeConfigSpec) (a : Abs) : Prop :=
  (forall x, a_dev a x <-> x ∈ elems (spec_Devices to)) /\
  (forall x, a_route a x -> x ∈ elems (spec_Routes to)) /\
  (forall x, a_ipt a x <-> x ∈ elems (spec_Iptables to)) /\
  (forall x, a_fdb a x -> x ∈ elems (spec_Fdbs to) \/ fdb_Mac x = BROADCAST_MAC) /\
  (forall x, a_arp a x -> x ∈ elems (spec_Arps to) \/ arp_Mac x = BROADCAST_MAC).

(** The components of [Diff]. *)
Lemma Diff_spec from to flag del cre : Diff from to = (flag, del, cre) ->
  (flag = true -> forall x, x ∈ elems (spec_Devices from) <-> x ∈ elems (spec_Devices to)) /\
  (flag = true -> forall x, x ∈ elems (spec_Routes from) <-> x ∈ elems (spec_Routes to)) /\
  (flag = true -> forall x, x ∈ elems (spec_Iptables from) <-> x ∈ elems (spec_Iptables to)) /\
  (flag = true -> forall x, x ∈ elems (spec_Fdbs from) <-> x ∈ elems (spec_Fdbs to)) /\
  (flag = true -> forall x, x ∈ elems (spec_Arps from) <-> x ∈ elems (spec_Arps to)) /\
  (forall x, x ∈ elems (spec_Devices del) <-> x ∈ elems (spec_Devices from) /\ x ∉ elems (spec_Devices to)) /\
  (forall x, x ∈ elems (spec_Devices cre) <-> x ∈ elems (spec_Devices to) /\ x ∉ elems (spec_Devices from)) /\
  (forall x, x ∈ elems (spec_Routes del) <-> x ∈ elems (spec_Routes from) /\ x ∉ elems (spec_Routes to)) /\
  (forall x, x ∈ elems (spec_Routes cre) <-> x ∈ elems (spec_Routes to) /\ x ∉ elems (spec_Routes from)) /\
  (forall x, x ∈ elems (spec_Iptables del) <-> x ∈ elems (spec_Iptables from) /\ x ∉ elems (spec_Iptables to)) /\
  (forall x, x ∈ elems (spec_Iptables cre) <-> x ∈ elems (spec_Iptables to) /\ x ∉ elems (spec_Iptables from)) /\
  (forall x, x ∈ elems (spec_Fdbs del) <-> x ∈ elems (spec_Fdbs from) /\ x ∉ elems (spec_Fdbs to) /\ fdb_Mac x <> BROADCAST_MAC) /\
  (forall x, x ∈ elems (spec_Fdbs cre) <-> x ∈ elems (spec_Fdbs to) /\ x ∉ elems (spec_Fdbs from)) /\
  (forall x, x ∈ elems (spec_Arps del) <-> x ∈ elems (spec_Arps from) /\ x ∉ elems (spec_Arps to) /\ arp_Mac x <> BROADCAST_MAC) /\
  (forall x, x ∈ elems (spec_Arps cre) <-> x ∈ elems (spec_Arps to) /\ x ∉ elems (spec_Arps from)).
Proof.
  unfold Diff.
  pose proof (pick_delete (spec_Devices from) (spec_Devices to)) as D1.
  pose proof (pick_create (spec_Devices from) (spec_Devices to)) as C1.
  pose proof (compareFunc_same (spec_Devices from) (spec_Devices to)) as S1.
  pose proof (pick_delete (spec_Routes from) (spec_Routes to)) as D2.
  pose proof (pick_create (spec_Routes from) (spec_Routes to)) as C2.
  pose proof (compareFunc_same (spec_Routes from) (spec_Routes to)) as S2.
  pose proof (pick_delete (spec_Iptables from) (spec_Iptables to)) as D3.
  pose proof (pick_create (spec_Iptables from) (spec_Iptables to)) as C3.
  pose proof (compareFunc_same (spec_Iptables from) (spec_Iptables to)) as S3.
  pose proof (pick_delete_not_broadcast fdb_Mac (spec_Fdbs from) (spec_Fdbs to)) as D4.
  pose proof (pick_create (spec_Fdbs from) (spec_Fdbs to)) as C4.
  pose proof (compareFunc_same (spec_Fdbs from) (spec_Fdbs to)) as S4.
  pose proof (pick_delete_not_broadcast arp_Mac (spec_Arps from) (spec_Arps to)) as D5.
  pose proof (pick_create (spec_Arps from) (spec_Arps to)) as C5.
  pose proof (compareFunc_same (spec_Arps from) (spec_Arps to)) as S5.
  simpl in *.
  destruct (compareFunc _ _ Device_Compare) as [[f1 d1] c1]. destruct (compareFunc _ _ Route_Compare) as [[f2 d2] c2].
  destruct (compareFunc _ _ Iptables_Compare) as [[f3 d3] c3]. destruct (compareFunc _ _ Fdb_Compare) as [[f4 d4] c4].
  destruct (compareFunc _ _ Arp_Compare) as [[f5 d5] c5]. simpl in *. intros [= <- <- <-]. simpl.
  split_and!; try done; intros Hf; breflect; tauto.
Qed.

Section Rounds.
Context {K : Type} `{LoadLaws K}.

Lemma sync_round to k k' from flag del cre :
  LoadSysConfig k = (from, None) -> Diff from to = (flag, del, cre) -> written del cre (abs k) (abs k') ->
  bounded to (abs k') /\
  ((forall d, a_dev (abs k) d -> d ∈ elems (spec_Devices to)) -> synced to (abs k')).
Proof.
  intros Hl HD [W1 W2 W3 W3' W4 W4' W5 W5'].
  destruct (load_law k from Hl) as (L1 & L2 & L3 & L4 & L5).
  destruct (Diff_spec _ _ _ _ _ HD) as (_ & _ & _ & _ & _ & Dd & Cd & Dr & Cr & Di & Ci & Df & Cf & Da & Ca). clear HD.
  assert (Hdev : forall d, a_dev (abs k') d <-> d ∈ elems (spec_Devices to)).
  { intros d. rewrite W1. split.
    - intros [[Hd Hn]|Hd%Cd]; [|tauto]. destruct (decide (d ∈ elems (spec_Devices to))) as [|Hne]; [done|].
      destruct Hn. apply list_elem_of_fmap_2, Dd. by rewrite L1.
    - intros Hd. destruct (decide (d ∈ elems (spec_Devices from))) as [Hf|Hf]; [left|right; by apply Cd].
      split; [by apply L1|]. intros (d' & En & [Hd' Hn']%Dd)%list_elem_of_fmap.
      destruct Hn'. assert (d = d') as <-; [|done]. apply (abs_names k); [by apply L1..|done]. }
  assert (Hipt : forall x, a_ipt (abs k') x <-> x ∈ elems (spec_Iptables to)).
  { intros x. rewrite W2, Di, Ci, <- L3. destruct (decide (x ∈ elems (spec_Iptables to)));
      destruct (decide (x ∈ elems (spec_Iptables from))); tauto. }
  assert (Hrt : forall x, a_route (abs k') x -> x ∈ elems (spec_Routes to)).
  { intros x [[Hx Hn]|Hx%Cr]%W3; [|tauto]. destruct (decide (x ∈ elems (spec_Routes to))); [done|].
    destruct Hn. apply Dr. by rewrite L2. }
  assert (Hfdb : forall x, a_fdb (abs k') x -> x ∈ elems (spec_Fdbs to) \/ fdb_Mac x = BROADCAST_MAC).
  { intros x [[Hx Hn]|Hx%Cf]%W4; [|tauto]. destruct (decide (x ∈ elems (spec_Fdbs to))); [by left|].
    destruct (decide (fdb_Mac x = BROADCAST_MAC)); [by right|]. destruct Hn. apply Df. by rewrite L4. }
  assert (Harp : forall x, a_arp (abs k') x -> x ∈ elems (spec_Arps to) \/ arp_Mac x = BROADCAST_MAC).
  { intros x [[Hx Hn]|Hx%Ca]%W5; [|tauto]. destruct (decide (x ∈ elems (spec_Arps to))); [by left|].
    destruct (decide (arp_Mac x = BROADCAST_MAC)); [by right|]. destruct Hn. apply Da. by rewrite L5. }
  split; [by split_and!|]. intros Hno.
  assert (Hnames : forall s, s ∉ names del).
  { intros s (d & _ & [Hd Hn]%Dd)%list_elem_of_fmap. apply Hn, Hno. by apply L1. }
  split_and!; try done.
  - intros x. split; [apply Hrt|]. intros Hx. apply W3'. rewrite Dr, Cr, <- L2.
    specialize (Hnames (rt_Dev x)). destruct (decide (x ∈ elems (spec_Routes from))); tauto.
  - intros x Hx. apply W4'. rewrite Df, Cf, <- L4.
    specialize (Hnames (fdb_Dev x)). destruct (decide (x ∈ elems (spec_Fdbs from))); tauto.
  - intros x Hx. apply W5'. rewrite Da, Ca, <- L5.
    specialize (Hnames (arp_Dev x)). destruct (decide (x ∈ elems (spec_Arps from))); tauto.
Qed.

Lemma synced_bounded to a : synced to a -> bounded to a.
Proof. intros (? & ? & ? & ? & ? & ? & ?). split_and!; firstorder. Qed.

(** One successful synchronisation, if its writes have their effect. *)
Lemma UpdateSync_round_if e e' :
  (forall from del cre k', LoadSysConfig (nm_Network e) = (from, None) -> Diff from (nm_ToConfig e) = (false, del, cre) ->
     WriteSys del cre (nm_Network e) = (k', None) -> written del cre (abs (nm_Network e)) (abs k')) ->
  UpdateSync e = (e', NodeConfigSyncSuccess) ->
  nm_ToConfig e' = nm_ToConfig e /\ bounded (nm_ToConfig e) (abs (nm_Network e')) /\
  ((forall d, a_dev (abs (nm_Network e)) d -> d ∈ elems (spec_Devices (nm_ToConfig e))) ->
     synced (nm_ToConfig e) (abs (nm_Network e'))).
Proof.
  intros Hw. unfold UpdateSync. destruct (LoadSysConfig (nm_Network e)) as [from [err|]] eqn:El; [done|].
  destruct (Diff from (nm_ToConfig e)) as [[flag del] cre] eqn:Ed. destruct flag.
  - intros [= <-]. destruct (Diff_spec _ _ _ _ _ Ed) as (F1 & F2 & F3 & F4 & F5 & _).
    destruct (load_law _ from El) as (L1 & L2 & L3 & L4 & L5).
    specialize (F1 eq_refl). specialize (F2 eq_refl). specialize (F3 eq_refl). specialize (F4 eq_refl). specialize (F5 eq_refl).
    assert (synced (nm_ToConfig e) (abs (nm_Network e))).
    { split_and!; intros x; rewrite <- ?L1, <- ?L2, <- ?L3, <- ?L4, <- ?L5, ?F1, ?F2, ?F3, ?F4, ?F5; tauto. }
    split; [done|]. split; [by apply synced_bounded|done].
  - destruct (WriteSys del cre (nm_Network e)) as [k [err|]] eqn:Ew; [done|]. intros [= <-]. simpl.
    split; [done|]. eapply sync_round; [done|done|]. by eapply Hw.
Qed.
End Rounds.

Section Synced.
Context {K : Type} `{NetWorkLaws K}.

(** One successful synchronisation. *)
Lemma UpdateSync_round e e' : UpdateSync e = (e', NodeConfigSyncSuccess) ->
  nm_ToConfig e' = nm_ToConfig e /\ bounded (nm_ToConfig e) (abs (nm_Network e')) /\
  ((forall d, a_dev (abs (nm_Network e)) d -> d ∈ elems (spec_Devices (nm_ToConfig e))) ->
     synced (nm_ToConfig e) (abs (nm_Network e'))).
Proof. apply UpdateSync_round_if. intros from del cre k' _ _. apply WriteSys_written. Qed.

(** A synchronisation that changes nothing found the kernel in sync. *)
Lemma UpdateSync_fix e : UpdateSync e = (e, NodeConfigSyncSuccess) -> synced (nm_ToConfig e) (abs (nm_Network e)).
Proof. intros (_ & (Hd & _) & Hs)%UpdateSync_round. apply Hs. intros d. by rewrite Hd. Qed.
End Synced.

(** * The blocks of a write *)

Section Blocks.
Context {K : Type} `{NetWork K}.

Definition block {X} (s : slice X) (op : list X -> K -> K * option string) : list (K -> K * option string) :=
  match s with None => [] | Some l => [op l] end.

Definition blocks (del cre : NodeConfigSpec) : list (K -> K * option string) :=
  block (spec_Arps del) DeleteArps ++ block (spec_Fdbs del) DeleteFdbs ++ block (spec_Iptables del) DeleteIptables ++
  block (spec_Routes del) DeleteRoutes ++ block (spec_Devices del) DeleteDevices ++
  block (spec_Devices cre) AddDevices ++ block (spec_Arps cre) AddArps ++ block (spec_Fdbs cre) AddFdbs ++
  block (spec_Iptables cre) AddIptables ++ block (spec_Routes cre) AddRoutes.

Lemma write1_block {X} (s : slice X) op st :
  fst (write1 s op st) = fold_left (fun k b => fst (b k)) (block s op) (fst st).
Proof. destruct s as [l|]; [|done]. simpl. by destruct (op l (fst st)) as [k' [e|]]. Qed.

(** Every block runs, whatever the blocks before reported. *)
Lemma WriteSys_blocks del cre k : fst (WriteSys del cre k) = fold_left (fun k b => fst (b k)) (blocks del cre) k.
Proof. unfold WriteSys, blocks. rewrite !fold_left_app, !write1_block. done. Qed.
End Blocks.
