(* ===== verification/AgentCorrect.v ===== *)
(** Theorems about the agent's network manager, with an in-memory kernel that
satisfies the laws of the single operations. *)
From S2P Require Import Prelude LinkApi AgentDiff AgentNetwork AgentManager.

(** * A kernel in memory *)

(** Links by name, the other items as lists; the next [m_faults] writes report an
error although they take effect, as when a step after the creation fails. *)
Record Mem := mkMem {
  m_links : gmap string Device; m_routes : list Route; m_rules : list Iptables;
  m_fdbs : list Fdb; m_arps : list Arp; m_faults : nat }.

Definition mem_abs (m : Mem) : Abs :=
  mkAbs (fun d => m_links m !! dev_Name d = Some d) (fun x => x ∈ m_routes m) (fun x => x ∈ m_rules m)
        (fun x => x ∈ m_fdbs m) (fun x => x ∈ m_arps m).

Definition mem_write (m : Mem) (ok : Mem) : Mem * option string :=
  match m_faults m with
  | 0 => (ok, None)
  | S n => (mkMem (m_links ok) (m_routes ok) (m_rules ok) (m_fdbs ok) (m_arps ok) n, Some "operation not permitted")
  end.

Definition without {X} `{EqDecision X} (x : X) (l : list X) : list X := List.filter (fun y => negb (bool_decide (y = x))) l.

Definition mem_ops : KernelOps Mem := mkKernelOps
  (fun m => inl (List.filter (fun d => bool_decide (m_links m !! dev_Name d = Some d)) (map snd (map_to_list (m_links m)))))
  (fun m => inl (m_routes m)) (fun m => inl (m_rules m)) (fun m => inl (m_fdbs m)) (fun m => inl (m_arps m))
  (fun x m => mem_write m (mkMem (m_links m) (m_routes m) (m_rules m) (m_fdbs m) (without x (m_arps m)) 0))
  (fun x m => mem_write m (mkMem (m_links m) (m_routes m) (m_rules m) (without x (m_fdbs m)) (m_arps m) 0))
  (fun x m => mem_write m (mkMem (m_links m) (m_routes m) (without x (m_rules m)) (m_fdbs m) (m_arps m) 0))
  (fun x m => mem_write m (mkMem (m_links m) (without x (m_routes m)) (m_rules m) (m_fdbs m) (m_arps m) 0))
  (fun d m => mem_write m (mkMem (delete (dev_Name d) (m_links m))
     (List.filter (fun r => negb (rt_Dev r =s dev_Name d)) (m_routes m)) (m_rules m)
     (List.filter (fun r => negb (fdb_Dev r =s dev_Name d)) (m_fdbs m))
     (List.filter (fun r => negb (arp_Dev r =s dev_Name d)) (m_arps m)) 0))
  (fun x m => mem_write m (mkMem (m_links m) (m_routes m) (m_rules m) (m_fdbs m) (x :: m_arps m) 0))
  (fun x m => mem_write m (mkMem (m_links m) (m_routes m) (m_rules m) (x :: m_fdbs m) (m_arps m) 0))
  (fun x m => mem_write m (mkMem (m_links m) (m_routes m) (x :: m_rules m) (m_fdbs m) (m_arps m) 0))
  (fun x m => mem_write m (mkMem (m_links m) (x :: m_routes m) (m_rules m) (m_fdbs m) (m_arps m) 0))
  (fun d m => match m_links m !! dev_Name d with
              | Some _ => (m, Some "file exists")
              | None => mem_write m (mkMem (<[dev_Name d := d]> (m_links m)) (m_routes m) (m_rules m) (m_fdbs m) (m_arps m) 0)
              end)
  (fun _ _ _ _ m => m).

Lemma mem_write_None m ok m' : mem_write m ok = (m', None) -> m' = ok.
Proof. unfold mem_write. destruct (m_faults m); congruence. Qed.

Lemma without_elem {X} `{EqDecision X} (x y : X) l : y ∈ without x l <-> y ∈ l /\ y ∉ [x].
Proof.
  unfold without. rewrite list_filter_spec, negb_true_iff, bool_decide_eq_false, list_elem_of_singleton. done.
Qed.

Lemma not_named (s name : string) : s ∉ [name] <-> (s =s name) = false.
Proof. by rewrite list_elem_of_singleton, bool_decide_eq_false. Qed.

Ltac mem_law :=
  intros x m m' ->%mem_write_None; split_and!; intros y; simpl; unfold plus, minus;
  rewrite ?without_elem, ?elem_of_cons, ?elem_of_nil; tauto.

#[export, refine] Instance mem_laws : KernelLaws mem_ops := {| kabs := mem_abs |}.
Proof.
  - intros m d d' Hd Hd' E. simpl in *. rewrite E in Hd. congruence.
  - intros m l [= <-] d. simpl. rewrite list_filter_spec, bool_decide_eq_true. split; [tauto|]. intros Hd.
    split; [|done]. apply list_elem_of_fmap. exists (dev_Name d, d). split; [done|]. by apply elem_of_map_to_list.
  - intros m l [= <-]. done.
  - intros m l [= <-]. done.
  - intros m l [= <-]. done.
  - intros m l [= <-]. done.
  - mem_law.
  - mem_law.
  - mem_law.
  - mem_law.
  - intros x m m' ->%mem_write_None. unfold del_devices. simpl. split_and!; try tauto; intros y;
      rewrite ?list_filter_spec, ?negb_true_iff, ?not_named; try tauto.
    rewrite bool_decide_eq_false, lookup_delete_Some. naive_solver.
  - mem_law.
  - mem_law.
  - mem_law.
  - mem_law.
  - intros x m m'. simpl. destruct (m_links m !! dev_Name x) eqn:E; [done|]. intros ->%mem_write_None.
    split_and!; intros y; simpl; try tauto. unfold plus. rewrite list_elem_of_singleton.
    destruct (decide (dev_Name x = dev_Name y)) as [En|Hne].
    + rewrite En, lookup_insert_eq. rewrite En in E. rewrite E. naive_solver.
    + rewrite lookup_insert_ne by done. naive_solver.
Defined.

#[export] Instance mem_network : NetWork Mem := DefaultNetWork mem_ops.
#[export] Instance mem_network_laws : NetWorkLaws Mem := DefaultNetWork_laws mem_ops.

(** A node whose bridge changed its address, with a route that stays. *)
Definition ex_bridge (addr : string) : Device := mkDevice VxlanDevice VXLAN_BRIDGE_NAME addr "02:00:00:00:00:01" "eth0" 54 4876.
Definition ex_route : Route := mkRoute "10.3.0.0/24" "220.168.2.1" VXLAN_BRIDGE_NAME.
Definition ex_config : NodeConfigSpec :=
  mkSpec (Some [ex_bridge "220.168.1.1/8"]) (Some [ex_route]) (Some []) (Some []) (Some []).
Definition ex_kernel (faults : nat) : Mem :=
  mkMem {[ VXLAN_BRIDGE_NAME := ex_bridge "220.168.9.9/8" ]} [ex_route] [] [] [] faults.
Definition ex_manager (faults : nat) : NetworkManager Mem := mkNetworkManager (ex_kernel faults) ex_config "" "".

(** * Theorems *)


(** One synchronisation is enough when every device of the kernel is
configured. *)
Theorem agent_converges_once {K} `{NetWorkLaws K} (e e' : NetworkManager K) :
  (forall d, a_dev (abs (nm_Network e)) d -> d ∈ elems (spec_Devices (nm_ToConfig e))) ->
  UpdateSync e = (e', NodeConfigSyncSuccess) -> synced (nm_ToConfig e) (abs (nm_Network e')).
Proof. intros Hd (_ & _ & Hs)%UpdateSync_round. by apply Hs. Qed.


Lemma agent_converges_once_witness :
  synced ex_config (abs (nm_Network (fst (UpdateSync (mkNetworkManager (mkMem ∅ [] [] [] [] 0) ex_config "" ""))))).
Proof.
  apply (agent_converges_once (mkNetworkManager (mkMem ∅ [] [] [] [] 0) ex_config "" "")).
  - intros d Hd. simpl in Hd. by rewrite lookup_empty in Hd.
  - vm_compute; reflexivity.
Defined.

(** The first round after the replacement of a device really loses a route: the
route is configured before and after, and the kernel does not have it. *)
Theorem agent_one_round_loses :
  snd (UpdateSync (ex_manager 0)) = NodeConfigSyncSuccess /\
  a_route (abs (nm_Network (ex_manager 0))) ex_route /\ ex_route ∈ elems (spec_Routes ex_config) /\
  ~ a_route (abs (nm_Network (fst (UpdateSync (ex_manager 0))))) ex_route.
Proof.
  split; [vm_compute; reflexivity|]. split; [left|]. split; [left|]. simpl. intros Hx.
  assert (E : m_routes (nm_Network (fst (UpdateSync (ex_manager 0)))) = []) by (vm_compute; reflexivity).
  rewrite E in Hx. by apply elem_of_nil in Hx.
Qed.

(** The recorded status can be stale: after a write that took effect but
reported an error, the periodic check finds the kernel in sync and reports
success, but the exception stays on record, and the next notification of the
same configuration reports it again. *)
Theorem agent_stale_status :
  exists e1 : NetworkManager Mem,
    UpdateFromCRD ex_config (mkNetworkManager (mkMem ∅ [] [] [] [] 1) emptySpec "" "") = (e1, NodeConfigSyncException) /\
    UpdateFromChecker e1 = (e1, NodeConfigSyncSuccess) /\ synced ex_config (abs (nm_Network e1)) /\
    UpdateFromCRD ex_config e1 = (e1, NodeConfigSyncException).
Proof.
  eexists. split; [vm_compute; reflexivity|].
  match goal with |- UpdateFromChecker ?e = _ /\ _ =>
    assert (Hfix : UpdateSync e = (e, NodeConfigSyncSuccess)) by (vm_compute; reflexivity) end.
  split; [exact Hfix|]. split; [exact (UpdateSync_fix _ Hfix)|vm_compute; reflexivity].
Qed.

(** A synchronisation that fails says so: the status and the reason are
recorded, the configuration to reach is kept for the next round, and the kernel
was either not touched or has gone through every block of writes. *)
Theorem agent_failure_recorded {K} `{NetWork K} (e e' : NetworkManager K) :
  UpdateSync e = (e', NodeConfigSyncException) ->
  nm_Status e' = NodeConfigSyncException /\ nm_ToConfig e' = nm_ToConfig e /\
  ((exists spec err, LoadSysConfig (nm_Network e) = (spec, Some err) /\ nm_Network e' = nm_Network e /\ nm_Reason e' = err) \/
   (exists from flag del cre err, LoadSysConfig (nm_Network e) = (from, None) /\
      Diff from (nm_ToConfig e) = (flag, del, cre) /\
      WriteSys del cre (nm_Network e) = (nm_Network e', Some err) /\ nm_Reason e' = err /\
      nm_Network e' = fold_left (fun k block => fst (block k)) (blocks del cre) (nm_Network e))).
Proof.
  unfold UpdateSync. destruct (LoadSysConfig (nm_Network e)) as [from [err|]] eqn:El.
  - intros [= <-]. simpl. split; [done|]. split; [done|]. left. eauto.
  - destruct (Diff from (nm_ToConfig e)) as [[flag del] cre] eqn:Ed. destruct flag; [done|].
    destruct (WriteSys del cre (nm_Network e)) as [k [err|]] eqn:Ew; [|done]. intros [= <-]. simpl.
    split; [done|]. split; [done|]. right. exists from, false, del, cre, err. split_and!; try done.
    by rewrite <- WriteSys_blocks, Ew.
Qed.

Definition ex_failed : NetworkManager Mem := mkNetworkManager (mkMem ∅ [] [] [] [] 1) ex_config "" "".
Definition ex_failed' : NetworkManager Mem := fst (UpdateSync ex_failed).

Lemma agent_failure_recorded_witness :
  nm_Status ex_failed' = NodeConfigSyncException /\ nm_ToConfig ex_failed' = nm_ToConfig ex_failed /\
  ((exists spec err, LoadSysConfig (nm_Network ex_failed) = (spec, Some err) /\ nm_Network ex_failed' = nm_Network ex_failed /\ nm_Reason ex_failed' = err) \/
   (exists from flag del cre err, LoadSysConfig (nm_Network ex_failed) = (from, None) /\
      Diff from (nm_ToConfig ex_failed) = (flag, del, cre) /\
      WriteSys del cre (nm_Network ex_failed) = (nm_Network ex_failed', Some err) /\ nm_Reason ex_failed' = err /\
      nm_Network ex_failed' = fold_left (fun k block => fst (block k)) (blocks del cre) (nm_Network ex_failed))).
Proof. apply (agent_failure_recorded ex_failed ex_failed'). vm_compute. reflexivity. Defined.

(** With [DefaultNetWork], which always loads non-nil slices, a component the
configuration leaves out is never found to be the same, even when the kernel has
nothing of it: the check writes again every time. *)
Theorem agent_empty_component_differs {K} (ops : KernelOps K) k from to :
  @LoadSysConfig K (DefaultNetWork ops) k = (from, None) ->
  spec_Devices to = None \/ spec_Routes to = None \/ spec_Iptables to = None \/ spec_Fdbs to = None \/ spec_Arps to = None ->
  fst (fst (Diff from to)) = false.
Proof.
  intros (d & r & i & f & a & _ & _ & _ & _ & _ & ->)%default_load Hto. unfold Diff.
  cbn [spec_Devices spec_Routes spec_Iptables spec_Fdbs spec_Arps].
  destruct (compareFunc (Some d) (spec_Devices to) Device_Compare) as [[f1 d1] c1] eqn:E1.
  destruct (compareFunc (Some r) (spec_Routes to) Route_Compare) as [[f2 d2] c2] eqn:E2.
  destruct (compareFunc (Some i) (spec_Iptables to) Iptables_Compare) as [[f3 d3] c3] eqn:E3.
  destruct (compareFunc (Some f) (spec_Fdbs to) Fdb_Compare) as [[f4 d4] c4] eqn:E4.
  destruct (compareFunc (Some a) (spec_Arps to) Arp_Compare) as [[f5 d5] c5] eqn:E5. simpl.
  destruct Hto as [E|[E|[E|[E|E]]]];
    [rewrite E in E1; injection E1 as <- _ _|rewrite E in E2; injection E2 as <- _ _
    |rewrite E in E3; injection E3 as <- _ _|rewrite E in E4; injection E4 as <- _ _
    |rewrite E in E5; injection E5 as <- _ _];
    repeat match goal with b : bool |- _ => destruct b end; done.
Qed.

Lemma agent_empty_component_differs_witness :
  fst (fst (Diff (fst (@LoadSysConfig Mem mem_network (mkMem ∅ [] [] [] [] 0))) emptySpec)) = false.
Proof.
  apply (agent_empty_component_differs mem_ops (mkMem ∅ [] [] [] [] 0)); [vm_compute; reflexivity|by left].
Defined.
