(* ===== verification/AgentController.v ===== *)
(** The agent's controllers: the node-config reconciler
(clusterlink/agent-manager/agent_controller.go), with its debounced writes and
its timer as events of a state machine, and the detection of the node's
interface and addresses (auto_detect_controller.go,
utils/interface-policy/interface-policy.go, [FormatCIDR] of utils/utils.go).
Looking at the host's interfaces is a parameter. *)
From S2P Require Import Prelude GoStr GoNet GoNetFacts GoCIDR LinkApi LinkVxlan AgentDiff AgentNetwork AgentManager AgentCorrect.

(** * Canonical CIDRs *)

Definition FormatCIDR (cidr : string) : result string :=
  match ParseCIDRSloppy cidr with
  | None => inr ("failed to parse  cidr " +:+ cidr)
  | Some (_, ipNet) => inl (IPNet_String ipNet)
  end.

(** [formatNodeConfig]: the CIDRs of the routes in canonical form; the first that
does not parse is an error. *)
Fixpoint format_routes (l : list Route) : result (list Route) :=
  match l with
  | [] => inl []
  | r :: l' =>
      match FormatCIDR (rt_CIDR r) with
      | inr err => inr ("failed to format nodeconfig route cidr, err: " +:+ err)
      | inl c =>
          match format_routes l' with
          | inr err => inr err
          | inl l'' => inl (mkRoute c (rt_Gw r) (rt_Dev r) :: l'')
          end
      end
  end.

Definition formatNodeConfig (spec : NodeConfigSpec) : result NodeConfigSpec :=
  match spec_Routes spec with
  | None => inl spec
  | Some l =>
      match format_routes l with
      | inr err => inr err
      | inl l' => inl (mkSpec (spec_Devices spec) (Some l') (spec_Iptables spec) (spec_Fdbs spec) (spec_Arps spec))
      end
  end.

(** * The reconciler as a state machine *)

(** What reading the node's configuration gives. *)
Inductive GetResult := Found (spec : NodeConfigSpec) | NotFound | GetError.

(** The manager, and the write the debouncer holds back. *)
Record Agent (K : Type) := mkAgent { ag_manager : NetworkManager K; ag_pending : option NodeConfigSpec }.
Arguments mkAgent {K}.
Arguments ag_manager {K}.
Arguments ag_pending {K}.

(** A notification, with what the API server answers to the two reads it makes;
the debouncer's timer; the periodic check. *)
Inductive Event :=
  | Reconciled (get : GetResult) (localCluster : option Cluster)
  | Fired
  | Checked.

Section Reconciler.
Context {K : Type} `{NetWork K}.

(** [Reconciler.Reconcile]: the new state and whether the request is queued again. *)
Definition Agent_Reconcile (get : GetResult) (localCluster : option Cluster) (a : Agent K) : outcome (Agent K * bool) :=
  match get with
  | NotFound => Ret (mkAgent (fst (UpdateFromCRD emptySpec (ag_manager a))) (ag_pending a), false)
  | GetError => Ret (a, true)
  | Found spec =>
      match formatNodeConfig spec with
      | inr _ => Ret (a, true)
      | inl copy =>
          match localCluster with
          | None => Ret (a, false)
          | Some cluster =>
              m ← UpdateConfig cluster (ag_manager a);
              Ret (mkAgent m (Some copy), false)
          end
      end
  end.

Definition step (a : Agent K) (ev : Event) : outcome (Agent K) :=
  match ev with
  | Reconciled get cluster => r ← Agent_Reconcile get cluster a; Ret (fst r)
  | Fired =>
      match ag_pending a with
      | None => Ret a
      | Some spec => Ret (mkAgent (fst (UpdateFromCRD spec (ag_manager a))) None)
      end
  | Checked => Ret (mkAgent (fst (UpdateFromChecker (ag_manager a))) (ag_pending a))
  end.

Definition run (a : Agent K) (evs : list Event) : outcome (Agent K) := foldM step evs a.
End Reconciler.

(** * Interfaces and addresses *)

Definition ContainsString (arr : list string) (s : string) : bool := any (fun str => Contains_str str s) arr.

Definition GetInterfaceName (policies : list NICNodeNames) (nodeName defaultInterfaceName : string) : string :=
  match first (fun policy => Nat.ltb 0 (length (nic_NodeName policy)) && ContainsString (nic_NodeName policy) nodeName) policies with
  | Some policy => nic_InterfaceName policy
  | None => defaultInterfaceName
  end.

Definition ClusterNodeName (clusterName nodeName : string) : string := clusterName +:+ "-" +:+ nodeName.

Definition AutoSelectInterfaceFlag : string := "*".
Definition AUTODETECTION_METHOD_CAN_REACH : string := "can-reach=".

(** An error of the detection; [cluster_missing] is the API's "not found". *)
Inductive DetectError := ClusterMissing | DetectFailed (msg : string).

Section Detect.
(** The interface that reaches an address ([autodetection.ReachDestination]) and
the address of an interface ([autodetection.FilteredEnumeration]), for IP version
4 or 6. *)
Context (ReachDestination : string -> nat -> string + string).
Context (FilteredEnumeration : string -> nat -> IP + string).

Definition detectInterfaceName (getCluster : Cluster + DetectError) (nodeName : string) : string + DetectError :=
  match getCluster with
  | inr err => inr err
  | inl cluster =>
      match c_ClusterLinkOptions cluster with
      | None => inr (DetectFailed "can not detect nic")
      | Some o =>
          let defaultNICName := GetInterfaceName (lo_NICNodeNames o) nodeName (lo_DefaultNICName o) in
          if negb (defaultNICName =s AutoSelectInterfaceFlag) then inl defaultNICName
          else
            let method := if str_empty (lo_AutodetectionMethod o) then AUTODETECTION_METHOD_CAN_REACH +:+ "8.8.8.8"
                          else lo_AutodetectionMethod o in
            if HasPrefix method AUTODETECTION_METHOD_CAN_REACH then
              let destStr := TrimPrefix method AUTODETECTION_METHOD_CAN_REACH in
              match ReachDestination destStr (if IsIPv6 destStr then 6 else 4)%nat with
              | inl name => inl name
              | inr err => inr (DetectFailed err)
              end
            else inr (DetectFailed "can not detect nic")
      end
  end.

Definition detectIP (interfaceName : string) : string * string :=
  let detect version :=
    match FilteredEnumeration interfaceName version with
    | inr _ => ""
    | inl ip => match ip with [] => "" | _ => IP_String ip end
    end in
  (detect 4%nat, detect 6%nat).

Definition shouldUpdate (old new : ClusterNode) : bool :=
  negb (cn_IP old =s cn_IP new) || negb (cn_IP6 old =s cn_IP6 new) ||
  negb (cn_InterfaceName old =s cn_InterfaceName new).

(** What reading the node gives: the node and whether it is being deleted. *)
Inductive NodeResult := NodeFound (n : ClusterNode) (deleting : bool) | NodeMissing | NodeError.

(** What [AutoDetectReconciler.Reconcile] does: nothing more, queue again, or write
the node (and queue again if the write fails). *)
Inductive DetectAction := Nothing | Requeue | Write (n : ClusterNode).

Definition with_detected (n : ClusterNode) (nic ipv4 ipv6 : string) : ClusterNode :=
  mkClusterNode (cn_Name n) (cn_ClusterName n) (cn_NodeName n) (cn_PodCIDRs n)
    (if str_empty ipv4 then cn_IP n else ipv4) (if str_empty ipv6 then cn_IP6 n else ipv6) (cn_Roles n) nic.

Definition AutoDetect_Reconcile (get : NodeResult) (getCluster : Cluster + DetectError) (nodeName : string) : DetectAction :=
  match get with
  | NodeMissing => Nothing
  | NodeError => Requeue
  | NodeFound clusterNode deleting =>
      if (deleting : bool) then Nothing
      else
        match detectInterfaceName getCluster nodeName with
        | inr ClusterMissing => Nothing
        | inr (DetectFailed _) => Requeue
        | inl nic =>
            let '(ipv4, ipv6) := detectIP nic in
            let newNode := with_detected clusterNode nic ipv4 ipv6 in
            if shouldUpdate newNode clusterNode then Write newNode else Nothing
        end
  end.
End Detect.

(** * Facts *)

Lemma print4 x n sloppy : length x = 4%nat -> Forall byte_ok x -> (n <= 32)%nat ->
  ParseCIDR_gen sloppy (IPNet_String (mkIPNet x (CIDRMask n 4))) =
  Some (v4InV6Prefix ++ x, mkIPNet (and_bytes x (CIDRMask n 4)) (CIDRMask n 4)).
Proof.
  intros Lx Hx Hn. unfold IPNet_String, networkNumberAndMask. cbn [net_IP net_Mask].
  assert (To4 x = Some x) as -> by (unfold To4; by rewrite Lx).
  rewrite length_CIDRMask, Lx. cbn -[CIDRMask simpleMaskLength ParseCIDR_gen IP_String].
  rewrite simpleMaskLength_CIDRMask by (auto || lia).
  assert (IP_String x = dotted x) as -> by (destruct x; [done|]; unfold IP_String, To4; by rewrite Lx).
  by apply ParseCIDR_print4.
Qed.

Lemma print16 x n sloppy : length x = 16%nat -> Forall byte_ok x -> (n <= 128)%nat -> To4 x = None ->
  ParseCIDR_gen sloppy (IPNet_String (mkIPNet x (CIDRMask n 16))) = Some (x, mkIPNet (and_bytes x (CIDRMask n 16)) (CIDRMask n 16)).
Proof.
  intros Lx Hx Hn E. unfold IPNet_String, networkNumberAndMask. cbn [net_IP net_Mask]. rewrite E, Lx, length_CIDRMask. cbn -[CIDRMask simpleMaskLength ParseCIDR_gen IP_String].
  rewrite Lx. cbn -[CIDRMask simpleMaskLength ParseCIDR_gen IP_String]. rewrite simpleMaskLength_CIDRMask by (auto || lia).
  assert (IP_String x = String6 x) as -> by (unfold IP_String; rewrite E, Lx; by destruct x). by apply ParseCIDR_print6.
Qed.

(** A network of sixteen bytes prints as one of four bytes when it is
IPv4-mapped, and as itself otherwise. *)
Lemma print16_cases x n : length x = 16%nat -> Forall byte_ok x -> (n <= 128)%nat ->
  (IPNet_String (mkIPNet x (CIDRMask n 16)) = IPNet_String (mkIPNet (drop 12 x) (CIDRMask (n - 96) 4))) \/
  (forall sloppy, ParseCIDR_gen sloppy (IPNet_String (mkIPNet x (CIDRMask n 16))) =
     Some (x, mkIPNet (and_bytes x (CIDRMask n 16)) (CIDRMask n 16))).
Proof.
  intros Lx Hx Hn. destruct (To4 x) as [y|] eqn:E.
  - left. unfold IPNet_String, networkNumberAndMask. cbn [net_IP net_Mask]. rewrite E. unfold To4 in E. rewrite Lx in E. change (16 =? 4)%nat with false in E. change (16 =? 16)%nat with true in E.
    cbn [andb] in E. destruct (bool_decide (take 12 x = v4InV6Prefix)); [|done]. injection E as <-.
    assert (To4 (drop 12 x) = Some (drop 12 x)) as -> by (unfold To4; by rewrite length_drop, Lx).
    rewrite !length_CIDRMask, length_drop, Lx. cbn -[CIDRMask simpleMaskLength IP_String drop].
    by rewrite drop_CIDRMask.
  - right. intros sloppy. by apply print16.
Qed.

Lemma FormatCIDR_idem s t : FormatCIDR s = inl t -> FormatCIDR t = inl t.
Proof.
  unfold FormatCIDR. destruct (ParseCIDRSloppy s) as [[ip net]|] eqn:E; [|done]. intros [= <-].
  apply ParseCIDR_type in E as [(_ & a & n & La & Ha & Hn & _ & ->)|(_ & n & La & Ha & Hn & ->)]; unfold ParseCIDRSloppy.
  - rewrite print4; [by rewrite and_mask_idem|by rewrite length_and_bytes, length_CIDRMask, La| |done].
    apply and_bytes_ok; [done|apply CIDRMask_ok].
  - destruct (print16_cases (and_bytes ip (CIDRMask n 16)) n) as [-> | ->];
      [by rewrite length_and_bytes, length_CIDRMask, La|apply and_bytes_ok; [done|apply CIDRMask_ok]|done| |by rewrite and_mask_idem].
    rewrite drop_and_bytes, drop_CIDRMask. change (n - 8 * 12)%nat with (n - 96)%nat. change (16 - 12)%nat with 4%nat.
    rewrite print4; [by rewrite and_mask_idem| | |lia].
    + by rewrite length_and_bytes, length_CIDRMask, length_drop, La.
    + apply and_bytes_ok; [by apply Forall_drop|apply CIDRMask_ok].
Qed.

Lemma format_routes_idem l l' : format_routes l = inl l' -> format_routes l' = inl l'.
Proof.
  revert l'. induction l as [|r l IH]; intros l'; simpl; [by intros [= <-]|].
  destruct (FormatCIDR (rt_CIDR r)) as [c|] eqn:Ec; [|done]. destruct (format_routes l) as [l''|]; [|done].
  intros [= <-]. simpl. rewrite (FormatCIDR_idem _ _ Ec), (IH l'') by done. done.
Qed.

(** * Theorems *)

(** Formatting is canonical: a formatted configuration is a fixed point, so
the routes of the configuration and those read back compare equal as strings. *)
Theorem formatNodeConfig_idem spec spec' : formatNodeConfig spec = inl spec' -> formatNodeConfig spec' = inl spec'.
Proof.
  unfold formatNodeConfig. destruct (spec_Routes spec) as [l|] eqn:E; [|intros [= <-]; by rewrite E].
  destruct (format_routes l) as [l'|] eqn:El; [|done]. intros [= <-]. simpl. by rewrite (format_routes_idem l l').
Qed.

Lemma formatNodeConfig_idem_witness :
  formatNodeConfig (mkSpec None (Some [mkRoute "10.3.0.0/24" "220.168.2.1" VXLAN_BRIDGE_NAME]) None None None) =
  inl (mkSpec None (Some [mkRoute "10.3.0.0/24" "220.168.2.1" VXLAN_BRIDGE_NAME]) None None None).
Proof.
  apply (formatNodeConfig_idem (mkSpec None (Some [mkRoute "10.3.000.77/24" "220.168.2.1" VXLAN_BRIDGE_NAME]) None None None)).
  vm_compute. reflexivity.
Defined.

(** Two specs with the same items. *)
Definition same_items (a b : NodeConfigSpec) : Prop :=
  (forall x, x ∈ elems (spec_Devices a) <-> x ∈ elems (spec_Devices b)) /\
  (forall x, x ∈ elems (spec_Routes a) <-> x ∈ elems (spec_Routes b)) /\
  (forall x, x ∈ elems (spec_Iptables a) <-> x ∈ elems (spec_Iptables b)) /\
  (forall x, x ∈ elems (spec_Fdbs a) <-> x ∈ elems (spec_Fdbs b)) /\
  (forall x, x ∈ elems (spec_Arps a) <-> x ∈ elems (spec_Arps b)).

Lemma UpdateSync_to {K} `{NetWork K} (e : NetworkManager K) : nm_ToConfig (fst (UpdateSync e)) = nm_ToConfig e.
Proof.
  unfold UpdateSync. destruct (LoadSysConfig _) as [from [err|]]; [done|].
  destruct (Diff from _) as [[[] del] cre]; [done|]. by destruct (WriteSys del cre _) as [k [err|]].
Qed.

Lemma UpdateFromCRD_to {K} `{NetWork K} spec (e : NetworkManager K) :
  same_items (nm_ToConfig (fst (UpdateFromCRD spec e))) spec.
Proof.
  unfold UpdateFromCRD. destruct (Diff (nm_ToConfig e) spec) as [[flag del] cre] eqn:Ed. destruct flag.
  - destruct (Diff_spec _ _ _ _ _ Ed) as (F1 & F2 & F3 & F4 & F5 & _). by split_and!; auto.
  - by rewrite UpdateSync_to.
Qed.

(** The last configuration wins: after a notification of a configuration and
any number of periodic checks, the debouncer's timer makes it the configuration
to reach, whatever was pending before. *)
Theorem agent_last_wins {K} `{NetWork K} (a a1 a2 a3 : Agent K) spec copy cluster checks :
  formatNodeConfig spec = inl copy -> step a (Reconciled (Found spec) (Some cluster)) = Ret a1 ->
  Forall (fun ev => ev = Checked) checks -> run a1 checks = Ret a2 -> step a2 Fired = Ret a3 ->
  ag_pending a3 = None /\ same_items (nm_ToConfig (ag_manager a3)) copy.
Proof.
  intros Hf H1 Hc H2 H3. cbn in H1. rewrite Hf in H1.
  destruct (UpdateConfig cluster (ag_manager a)) as [m|]; [|done]. cbn in H1. injection H1 as <-.
  assert (Hp : ag_pending a2 = Some copy).
  { apply (foldM_post (fun a : Agent K => ag_pending a = Some copy) _ _ _ _ H2); [|done].
    rewrite List.Forall_forall in Hc. intros s ev s' Hin Hs. apply list_elem_of_In, Hc in Hin as ->.
    intros [= <-]. done. }
  simpl in H3. rewrite Hp in H3. injection H3 as <-. split; [done|]. apply UpdateFromCRD_to.
Qed.

Definition ex_cluster : Cluster := mkCluster "east" (Some (mkLinkOptions true "calico" "gateway" "ipv4" false
  (mkVxlanCIDRs "210.0.0.0/8" "") (mkVxlanCIDRs "220.0.0.0/8" "") [] "*" ∅ "")) [] [].
Definition ex_agent : Agent Mem := mkAgent (NewNetworkManager (mkMem ∅ [] [] [] [] 0)) None.

Definition ex_agent1 : Agent Mem := mkAgent (NewNetworkManager (mkMem ∅ [] [] [] [] 0)) (Some ex_config).
Definition ex_agent2 : Agent Mem := mkAgent (fst (UpdateFromChecker (ag_manager ex_agent1))) (Some ex_config).
Definition ex_agent3 : Agent Mem := mkAgent (fst (UpdateFromCRD ex_config (ag_manager ex_agent2))) None.

Lemma agent_last_wins_witness :
  ag_pending ex_agent3 = None /\ same_items (nm_ToConfig (ag_manager ex_agent3)) ex_config.
Proof.
  apply (agent_last_wins ex_agent ex_agent1 ex_agent2 ex_agent3 ex_config ex_config ex_cluster [Checked]);
    [vm_compute; reflexivity|vm_compute; reflexivity|by repeat constructor|vm_compute; reflexivity|vm_compute; reflexivity].
Defined.

(** A configuration can outlive its deletion: the deletion is applied at once,
but a write the debouncer still holds back runs afterwards and installs the
deleted configuration again. *)
Theorem agent_resurrects :
  exists a : Agent Mem,
    run ex_agent [Reconciled (Found ex_config) (Some ex_cluster); Reconciled NotFound (Some ex_cluster); Fired] = Ret a /\
    nm_ToConfig (ag_manager a) = ex_config /\ a_route (abs (nm_Network (ag_manager a))) ex_route.
Proof.
  eexists. split; [vm_compute; reflexivity|]. split; [reflexivity|]. simpl. left.
Qed.

(** The policy of another node can apply: a node whose name is part of the name
of a node in a policy gets the interface of that policy. *)
Theorem GetInterfaceName_substring :
  GetInterfaceName [mkNIC "eth1" ["node10"]; mkNIC "eth2" ["node1"]] "node1" "eth0" = "eth1".
Proof. reflexivity. Qed.

(** Detection is stable and touches only what it detects: after the node is
written, reconciling it again with the same host changes nothing, and the name,
the cluster, the pod CIDRs and the roles are kept. *)
Theorem AutoDetect_stable reach enum n cluster nodeName n' :
  AutoDetect_Reconcile reach enum (NodeFound n false) cluster nodeName = Write n' ->
  AutoDetect_Reconcile reach enum (NodeFound n' false) cluster nodeName = Nothing /\
  cn_Name n' = cn_Name n /\ cn_ClusterName n' = cn_ClusterName n /\ cn_NodeName n' = cn_NodeName n /\
  cn_PodCIDRs n' = cn_PodCIDRs n /\ cn_Roles n' = cn_Roles n.
Proof.
  unfold AutoDetect_Reconcile. destruct (detectInterfaceName _ _ _) as [nic|[]]; [|done..].
  destruct (detectIP enum nic) as [ipv4 ipv6]. destruct (shouldUpdate _ n); [|done]. intros [= <-].
  split; [|done]. unfold shouldUpdate, with_detected. simpl.
  destruct (str_empty ipv4), (str_empty ipv6); by rewrite !bool_decide_eq_true_2.
Qed.

Definition ex_undetected : ClusterNode := mkClusterNode "east-a" "east" "a" [] "192.168.1.9" "" ["gateway"] "eth9".
Definition ex_detected : ClusterNode := mkClusterNode "east-a" "east" "a" [] "192.168.1.1" "" ["gateway"] "eth0".
Definition ex_reach (dest : string) (version : nat) : string + string := inl "eth0".
Definition ex_enum (name : string) (version : nat) : IP + string :=
  if Nat.eqb version 4 then inl [192; 168; 1; 1]%Z else inr "no valid host interfaces found".

Lemma AutoDetect_stable_witness :
  AutoDetect_Reconcile ex_reach ex_enum (NodeFound ex_detected false) (inl ex_cluster) "a" = Nothing /\
  cn_Name ex_detected = cn_Name ex_undetected /\ cn_ClusterName ex_detected = cn_ClusterName ex_undetected /\
  cn_NodeName ex_detected = cn_NodeName ex_undetected /\ cn_PodCIDRs ex_detected = cn_PodCIDRs ex_undetected /\
  cn_Roles ex_detected = cn_Roles ex_undetected.
Proof. apply (AutoDetect_stable ex_reach ex_enum ex_undetected). vm_compute. reflexivity. Defined.
