(* ===== verification/SchedPolicy.v ===== *)
(** The scheduler's filters by policy and by taint:
scheduler/lifted/plugins/leafnodedistribution/leafnode_distribution_policy.go,
plugins/leafnodetainttoleration/leafnode_tainttoleration.go and
helpers/tainttoleration.go, with the policy types of
apis/kosmos/v1alpha1/distributionpolicy_types.go. *)
From S2P Require Import Prelude GoStr LinkApi AgentController.

(** * Kubernetes objects, as far as the plugins read them *)

Record Taint := mkTaint { ta_Key : string; ta_Value : string; ta_Effect : string }.
Record Toleration := mkToleration { to_Key : string; to_Operator : string; to_Value : string; to_Effect : string }.

Record Node := mkNode {
  n_Name : string; n_Labels : gmap string string; n_Annotations : gmap string string; n_Taints : list Taint }.

(** A volume of a pod: a claim, a generic ephemeral volume, or something else. *)
Record Volume := mkVolume { v_Name : string; v_ClaimName : option string; v_Ephemeral : bool }.

Record Pod := mkPod {
  p_Name : string; p_Namespace : string; p_UID : string; p_Labels : gmap string string;
  p_OwnerKinds : list string; p_Tolerations : list Toleration; p_Volumes : list Volume }.

Inductive Code := Success | Error | UnschedulableAndUnresolvable.
(** [framework.Status]; the nil status is a success. *)
Record Status := mkStatus { s_code : Code; s_reasons : list string }.
Definition ok : Status := mkStatus Success [].
(** [framework.NewStatus(framework.Success, "")] *)
Definition success : Status := mkStatus Success [EmptyString].

(** * Policies *)

Record ResourceSelector := mkSelector {
  rs_PolicyName : string; rs_Name : string; rs_NamePrefix : string;
  rs_MatchLabels : option (gmap string string) }.   (* the label selector, if any *)

Record AdvancedTerm := mkAdvanced {
  adv_NodeName : string; adv_NodeSelector : option (gmap string string); adv_Tolerations : list Toleration }.

Record PolicyTerm := mkTerm { pt_Name : string; pt_NodeType : string; pt_Advanced : AdvancedTerm }.

(** A distribution policy; the namespace is unused for the cluster-wide kind. *)
Record DistributionPolicy := mkPolicy {
  dp_Namespace : string; dp_Selectors : list ResourceSelector; dp_Terms : list PolicyTerm }.

Definition HOSTNODE : string := "host".
Definition LEAFNODE : string := "leaf".
Definition MIXNODE : string := "mix".
Definition ADVNODE : string := "adv".
Definition KosmosNodeLabel : string := "kosmos.io/node".
Definition KosmosNodeValue : string := "true".

Definition NoneScope : nat := 0.
Definition LabelSelectorScope : nat := 1.
Definition NamePrefixScope : nat := 2.
Definition NameScope : nat := 3.
Definition LabelSelectorInNsScope : nat := 4.
Definition NamePrefixInNsScope : nat := 5.
Definition NameInNsScope : nat := 6.

Definition mapContains (inm out : gmap string string) : bool :=
  any (fun kv => match out !! fst kv with Some str => str =s snd kv | None => false end) (map_to_list inm).

Definition isDaemonSetPod (pod : Pod) : bool := any (fun k => k =s "DaemonSet") (p_OwnerKinds pod).

(** What the two matchers return. *)
Definition Match : Type := string * nat * list PolicyTerm.
Definition no_match : Match := ("", NoneScope, []).

(** One block of the loop: a match of that scope, unless a better one is known. *)
Definition try_scope (scope : nat) (matches : bool) (selector : ResourceSelector) (terms : list PolicyTerm) (m : Match) : Match :=
  let '(_, priority, _) := m in
  if Nat.leb priority scope && matches then (rs_PolicyName selector, scope, terms) else m.

Definition match_selector (label prefix name : nat) (pod : Pod) (terms : list PolicyTerm)
    (m : Match) (selector : ResourceSelector) : Match :=
  let m := match rs_MatchLabels selector with
           | Some l => try_scope label (mapContains l (p_Labels pod)) selector terms m
           | None => m
           end in
  let m := if negb (str_empty (rs_NamePrefix selector))
           then try_scope prefix (HasPrefix (p_Name pod) (rs_NamePrefix selector)) selector terms m else m in
  if negb (str_empty (rs_Name selector))
  then try_scope name (p_Name pod =s rs_Name selector) selector terms m else m.

Definition matchDistributionPolicy (pod : Pod) (dp : DistributionPolicy) : Match :=
  fold_left (fun m selector =>
    if negb (p_Namespace pod =s dp_Namespace dp) then m
    else match_selector LabelSelectorInNsScope NamePrefixInNsScope NameInNsScope pod (dp_Terms dp) m selector)
    (dp_Selectors dp) no_match.

Definition matchClusterDistributionPolicy (pod : Pod) (cdp : DistributionPolicy) : Match :=
  fold_left (match_selector LabelSelectorScope NamePrefixScope NameScope pod (dp_Terms cdp)) (dp_Selectors cdp) no_match.

Definition isTolerationTaints (taints : list Taint) (t : Toleration) : bool :=
  any (fun taint => (ta_Key taint =s to_Key t) && (ta_Value taint =s to_Value t) && (ta_Effect taint =s to_Effect t)) taints.

(** The named result is set and [false] is returned. *)
Definition isToleration (node : Node) (tolerations : list Toleration) : bool :=
  let rs := any (isTolerationTaints (n_Taints node)) tolerations in
  false.

(** [labels.Set(s).AsSelector().Matches(labels)]: every pair is there; the empty
set matches everything. *)
Definition selector_matches (s labels : gmap string string) : bool :=
  forallb (fun kv => bool_decide (labels !! fst kv = Some (snd kv))) (map_to_list s).

Definition emptyAdvanced : AdvancedTerm := mkAdvanced "" None [].

(** The verdict for a node of the given type. *)
Definition verdict (nodeType : string) (advTerm : AdvancedTerm) (policyName : string) (node : Node) : Status :=
  let leaf := bool_decide (is_Some (n_Labels node !! KosmosNodeLabel)) in
  if nodeType =s HOSTNODE then
    if leaf then mkStatus UnschedulableAndUnresolvable
      ["This is a leaf node (" +:+ n_Name node +:+ ") that does not match the distribution policy (" +:+ policyName +:+ ") (host node)"]
    else success
  else if nodeType =s LEAFNODE then
    if leaf then success
    else mkStatus UnschedulableAndUnresolvable
      ["This is a host node (" +:+ n_Name node +:+ ") that does not match the distribution policy (" +:+ policyName +:+ ") (leaf node)"]
  else if nodeType =s ADVNODE then
    let rs := (adv_NodeName advTerm =s n_Name node) ||
              (match adv_NodeSelector advTerm with None => false | Some s => selector_matches s (n_Labels node) end) ||
              isToleration node (adv_Tolerations advTerm) in
    if rs then success
    else mkStatus UnschedulableAndUnresolvable
      ["This is node (" +:+ n_Name node +:+ ") that does not match the distribution policy (" +:+ policyName +:+ ")  AdvancedTerm "]
  else success.

(** [LeafNodeDistribution.Filter]; [policies] are the namespaced policies of the
pod's namespace and the cluster-wide ones, or the error of listing them. *)
Definition Distribution_Filter (policies : (list DistributionPolicy * list DistributionPolicy) + string)
    (pod : Pod) (node : option Node) : Status :=
  if isDaemonSetPod pod then success
  else match node with
  | None => mkStatus Error ["node not found"]
  | Some node =>
  match policies with
  | inr err => mkStatus Error [err]
  | inl (dps, cdps) =>
      let m := fold_left (fun _ dp => matchDistributionPolicy pod dp) dps no_match in
      let m := if Nat.eqb (snd (fst m)) NoneScope
               then fold_left (fun _ cdp => matchClusterDistributionPolicy pod cdp) cdps m else m in
      let '(policyName, priority, terms) := m in
      let '(nodeType, advTerm) :=
        if negb (Nat.eqb priority NoneScope) then
          match first (fun policy => policyName =s pt_Name policy) terms with
          | Some policy => (pt_NodeType policy, pt_Advanced policy)
          | None => (MIXNODE, emptyAdvanced)
          end
        else (MIXNODE, emptyAdvanced) in
      verdict nodeType advTerm policyName node
  end end.

(** * Taints *)

Definition TaintEffectNoSchedule : string := "NoSchedule".
Definition TaintEffectNoExecute : string := "NoExecute".

(** [Toleration.ToleratesTaint] and [Taint.MatchTaint] of k8s.io/api. *)
Definition ToleratesTaint (t : Toleration) (taint : Taint) : bool :=
  if negb (str_empty (to_Effect t)) && negb (to_Effect t =s ta_Effect taint) then false
  else if negb (str_empty (to_Key t)) && negb (to_Key t =s ta_Key taint) then false
  else if str_empty (to_Operator t) || (to_Operator t =s "Equal") then to_Value t =s ta_Value taint
  else to_Operator t =s "Exists".
Definition MatchTaint (t u : Taint) : bool := (ta_Key t =s ta_Key u) && (ta_Effect t =s ta_Effect u).

Definition LeafNodeTaint : Taint := mkTaint "kosmos.io/node" "true" TaintEffectNoSchedule.

Definition HasLeafNodeTaint (node : Node) : bool :=
  any (fun taint => (ta_Key taint =s ta_Key LeafNodeTaint) && (ta_Value taint =s ta_Value LeafNodeTaint) &&
                    (ta_Effect taint =s ta_Effect LeafNodeTaint)) (n_Taints node).

Definition TolerationsTolerateTaint (tolerations : list Toleration) (taint : Taint) : bool :=
  MatchTaint taint LeafNodeTaint || any (fun t => ToleratesTaint t taint) tolerations.

(** A nil filter includes every taint. *)
Definition getFilteredTaints (taints : list Taint) (inclusionFilter : option (Taint -> bool)) : list Taint :=
  match inclusionFilter with None => taints | Some f => List.filter f taints end.

Definition FindMatchingUntoleratedTaint (taints : list Taint) (tolerations : list Toleration)
    (inclusionFilter : option (Taint -> bool)) : option Taint :=
  first (fun taint => negb (TolerationsTolerateTaint tolerations taint)) (getFilteredTaints taints inclusionFilter).

Definition Taint_Filter (pod : Pod) (node : option Node) : Status :=
  match node with
  | None => mkStatus Error ["invalid nodeInfo"]
  | Some node =>
      match FindMatchingUntoleratedTaint (n_Taints node) (p_Tolerations pod)
              (Some (fun t => (ta_Effect t =s TaintEffectNoSchedule) || (ta_Effect t =s TaintEffectNoExecute))) with
      | None => ok
      | Some taint => mkStatus UnschedulableAndUnresolvable
          ["node(s) had taint {" +:+ ta_Key taint +:+ ": " +:+ ta_Value taint +:+ "}, that the pod didn't tolerate"]
      end
  end.

(** * Facts *)

(** The best scope in which a selector matches the pod. *)
Definition level (label prefix name : nat) (pod : Pod) (s : ResourceSelector) : nat :=
  if negb (str_empty (rs_Name s)) && (p_Name pod =s rs_Name s) then name
  else if negb (str_empty (rs_NamePrefix s)) && HasPrefix (p_Name pod) (rs_NamePrefix s) then prefix
  else match rs_MatchLabels s with
       | Some l => if mapContains l (p_Labels pod) then label else NoneScope
       | None => NoneScope
       end.

(** One selector either raises the match to its level or leaves it. *)
Lemma match_selector_level label prefix name pod terms pn prio ts s :
  0 < label < prefix -> prefix < name ->
  match_selector label prefix name pod terms (pn, prio, ts) s =
  if Nat.leb 1 (level label prefix name pod s) && Nat.leb prio (level label prefix name pod s)
  then (rs_PolicyName s, level label prefix name pod s, terms) else (pn, prio, ts).
Proof.
  intros H1 H2. unfold match_selector, level, try_scope, NoneScope.
  destruct (rs_MatchLabels s) as [l|]; [destruct (mapContains l (p_Labels pod))|];
  destruct (negb (str_empty (rs_NamePrefix s))); destruct (HasPrefix (p_Name pod) (rs_NamePrefix s));
  destruct (negb (str_empty (rs_Name s))); destruct (bool_decide (p_Name pod = rs_Name s)); cbn [andb];
  repeat (match goal with |- context [Nat.leb ?a ?b] => destruct (Nat.leb_spec a b) end; cbn [andb]; try lia); done.
Qed.

(** The level of a list of selectors: the best one. *)
Fixpoint best (lev : ResourceSelector -> nat) (l : list ResourceSelector) : nat :=
  match l with [] => NoneScope | s :: l' => Nat.max (lev s) (best lev l') end.

Lemma best_snoc lev l s : best lev (l ++ [s]) = Nat.max (best lev l) (lev s).
Proof. unfold NoneScope. induction l as [|x l IH]; simpl; [unfold NoneScope; lia|]. rewrite IH. lia. Qed.

(** [m] is the match of the last selector of the best level. *)
Definition best_match (lev : ResourceSelector -> nat) (terms : list PolicyTerm) (l : list ResourceSelector) (m : Match) : Prop :=
  (best lev l = NoneScope /\ m = no_match) \/
  exists l1 s l2, l = l1 ++ s :: l2 /\ 1 <= lev s /\ lev s = best lev l /\
    (forall s', s' ∈ l2 -> lev s' < lev s) /\ m = (rs_PolicyName s, lev s, terms).

Lemma match_fold (lev : ResourceSelector -> nat) terms (f : Match -> ResourceSelector -> Match) l :
  (forall pn prio ts s, f (pn, prio, ts) s =
     if Nat.leb 1 (lev s) && Nat.leb prio (lev s) then (rs_PolicyName s, lev s, terms) else (pn, prio, ts)) ->
  best_match lev terms l (fold_left f l no_match).
Proof.
  intros Hf. unfold best_match, no_match, NoneScope. induction l as [|s l IH] using rev_ind; [by left|].
  rewrite fold_left_app. simpl. rewrite best_snoc.
  destruct IH as [[Eb ->]|(l1 & s0 & l2 & -> & Hl & Eb & Hlt & ->)]; rewrite Hf.
  - destruct (Nat.leb_spec 1 (lev s)); simpl; [|left; split; [lia|done]].
    right. exists l, s, []. split_and!; [done|done|lia|by intros ? ?%elem_of_nil|done].
  - destruct (Nat.leb_spec 1 (lev s)), (Nat.leb_spec (lev s0) (lev s)); simpl.
    1: { right. exists (l1 ++ s0 :: l2), s, []. split_and!; [done|done|lia|by intros ? ?%elem_of_nil|done]. }
    all: right; exists l1, s0, (l2 ++ [s]); rewrite <- app_assoc; (split_and!; [done|done|lia| |done]);
      intros s' [Hs'|Hs'%list_elem_of_singleton]%elem_of_app; [by apply Hlt|subst; lia].
Qed.

Lemma matchDistributionPolicy_best pod dp : p_Namespace pod = dp_Namespace dp ->
  best_match (level LabelSelectorInNsScope NamePrefixInNsScope NameInNsScope pod) (dp_Terms dp)
    (dp_Selectors dp) (matchDistributionPolicy pod dp).
Proof.
  intros E. apply match_fold. intros pn prio ts s. rewrite bool_decide_eq_true_2 by done. simpl negb. cbn iota.
  apply match_selector_level; unfold LabelSelectorInNsScope, NamePrefixInNsScope, NameInNsScope; lia.
Qed.

Lemma matchDistributionPolicy_other_ns pod dp : p_Namespace pod <> dp_Namespace dp -> matchDistributionPolicy pod dp = no_match.
Proof.
  intros E. unfold matchDistributionPolicy. rewrite bool_decide_eq_false_2 by done. simpl negb. cbn iota.
  induction (dp_Selectors dp) as [|s l IH]; [done|]. exact IH.
Qed.

Lemma matchClusterDistributionPolicy_best pod cdp :
  best_match (level LabelSelectorScope NamePrefixScope NameScope pod) (dp_Terms cdp)
    (dp_Selectors cdp) (matchClusterDistributionPolicy pod cdp).
Proof.
  apply match_fold. intros pn prio ts s.
  apply match_selector_level; unfold LabelSelectorScope, NamePrefixScope, NameScope; lia.
Qed.

(** A term admits a node. *)
Definition admits (term : PolicyTerm) (node : Node) : Prop :=
  let leaf := is_Some (n_Labels node !! KosmosNodeLabel) in
  (pt_NodeType term = HOSTNODE -> ~ leaf) /\
  (pt_NodeType term = LEAFNODE -> leaf) /\
  (pt_NodeType term = ADVNODE ->
     adv_NodeName (pt_Advanced term) = n_Name node \/
     exists s, adv_NodeSelector (pt_Advanced term) = Some s /\
       forall k v, s !! k = Some v -> n_Labels node !! k = Some v).

Lemma selector_matches_spec s labels :
  selector_matches s labels = true <-> forall k v, s !! k = Some v -> labels !! k = Some v.
Proof.
  unfold selector_matches. rewrite forallb_forall. split.
  - intros H k v Hk. specialize (H (k, v)). simpl in H. eapply bool_decide_eq_true_1. apply H.
    apply list_elem_of_In. by apply elem_of_map_to_list.
  - intros H [k v] Hin. simpl. apply bool_decide_eq_true_2, H, elem_of_map_to_list. by apply list_elem_of_In.
Qed.

Lemma verdict_ok term name node :
  s_code (verdict (pt_NodeType term) (pt_Advanced term) name node) = Success <-> admits term node.
Proof.
  unfold verdict, admits, isToleration. destruct term as [tn ty [an sel tol]]. simpl.
  destruct (bool_decide (ty = HOSTNODE)) eqn:E1; breflect; [subst|].
  { destruct (bool_decide (is_Some (n_Labels node !! KosmosNodeLabel))) eqn:El; breflect; simpl; split; try done; naive_solver. }
  destruct (bool_decide (ty = LEAFNODE)) eqn:E2; breflect; [subst|].
  { destruct (bool_decide (is_Some (n_Labels node !! KosmosNodeLabel))) eqn:El; breflect; simpl; split; try done; naive_solver. }
  destruct (bool_decide (ty = ADVNODE)) eqn:E3; breflect; [subst|].
  2: { simpl. split; [|done]. naive_solver. }
  rewrite orb_false_r. split.
  - destruct (_ || _) eqn:Eo; [intros _|done]. breflect. split; [done|]. split; [done|]. intros _.
    destruct Eo as [Eo|Eo]; breflect; [by left|]. right. destruct sel as [s|]; [|done]. exists s.
    split; [done|]. by apply selector_matches_spec.
  - intros (_ & _ & H). destruct (H eq_refl) as [-> |(s & -> & Hs)].
    + by rewrite bool_decide_eq_true_2.
    + apply selector_matches_spec in Hs. rewrite Hs. by rewrite orb_true_r.
Qed.

(** * Theorems *)

(** The match of a policy is that of the last of its most specific selectors: a
name is more specific than a prefix and a prefix than labels, a later selector of
the same kind wins, and a policy of another namespace does not match. *)
Theorem matchDistributionPolicy_spec pod dp :
  (p_Namespace pod = dp_Namespace dp ->
   best_match (level LabelSelectorInNsScope NamePrefixInNsScope NameInNsScope pod) (dp_Terms dp)
     (dp_Selectors dp) (matchDistributionPolicy pod dp)) /\
  (p_Namespace pod <> dp_Namespace dp -> matchDistributionPolicy pod dp = no_match) /\
  best_match (level LabelSelectorScope NamePrefixScope NameScope pod) (dp_Terms dp)
    (dp_Selectors dp) (matchClusterDistributionPolicy pod dp).
Proof.
  split; [apply matchDistributionPolicy_best|]. split; [apply matchDistributionPolicy_other_ns|].
  apply matchClusterDistributionPolicy_best.
Qed.

Lemma fold_last {A B} (g : A -> B) l b :
  fold_left (fun _ y => g y) l b = match list.last l with Some x => g x | None => b end.
Proof. destruct l as [|x l _] using rev_ind; [done|]. by rewrite fold_left_app, list.last_snoc. Qed.

(** The match that decides: that of the last policy of the namespace or, if it does
not match, that of the last cluster-wide policy. *)
Definition deciding (dps cdps : list DistributionPolicy) (pod : Pod) : Match :=
  let m := match list.last dps with Some dp => matchDistributionPolicy pod dp | None => no_match end in
  if Nat.eqb (snd (fst m)) NoneScope
  then match list.last cdps with Some cdp => matchClusterDistributionPolicy pod cdp | None => m end else m.

(** The term of a match, if it has one. *)
Definition deciding_term (m : Match) : option PolicyTerm :=
  let '(policyName, priority, terms) := m in
  if Nat.eqb priority NoneScope then None else first (fun t => policyName =s pt_Name t) terms.


Definition ex_pod : Pod := mkPod "web-0" "shop" "u1" {[ "app" := "web"; "tier" := "front" ]} ["StatefulSet"] [] [].
Definition ex_term (name nodeType : string) : PolicyTerm := mkTerm name nodeType emptyAdvanced.
Definition ex_policy : DistributionPolicy :=
  mkPolicy "shop" [mkSelector "hosts" "" "web-" None; mkSelector "leaves" "" "" (Some {[ "app" := "web" ]})]
    [ex_term "leaves" LEAFNODE; ex_term "hosts" HOSTNODE].
Definition ex_leaf : Node := mkNode "leaf-1" {[ KosmosNodeLabel := "true" ]} ∅ [LeafNodeTaint].

Example ex_rejected : s_code (Distribution_Filter (inl ([ex_policy], [])) ex_pod (Some ex_leaf)) = UnschedulableAndUnresolvable.
Proof. vm_compute. reflexivity. Qed.

(** A policy listed later hides one that matches the pod. *)
Example ex_hidden : s_code (Distribution_Filter (inl ([ex_policy; mkPolicy "shop" [] []], [])) ex_pod (Some ex_leaf)) = Success.
Proof. vm_compute. reflexivity. Qed.

(** A selector that names another resource still applies by its labels, and one
matching label of several is enough. *)
Example ex_label_selector :
  matchDistributionPolicy ex_pod (mkPolicy "shop" [mkSelector "hosts" "db-0" "" (Some {[ "app" := "web"; "tier" := "back" ]})] [ex_term "hosts" HOSTNODE]) =
  ("hosts", LabelSelectorInNsScope, [ex_term "hosts" HOSTNODE]).
Proof. vm_compute. reflexivity. Qed.

(** The taint filter lets a node through exactly when each of its NoSchedule and
NoExecute taints is the leaf node taint or is tolerated by the pod. *)
Theorem Taint_Filter_spec pod node :
  s_code (Taint_Filter pod (Some node)) = Success <->
  forall taint, taint ∈ n_Taints node -> ta_Effect taint = TaintEffectNoSchedule \/ ta_Effect taint = TaintEffectNoExecute ->
    (ta_Key taint = "kosmos.io/node" /\ ta_Effect taint = TaintEffectNoSchedule) \/
    exists t, t ∈ p_Tolerations pod /\ ToleratesTaint t taint = true.
Proof.
  unfold Taint_Filter, FindMatchingUntoleratedTaint, getFilteredTaints.
  assert (Ht : forall taint, TolerationsTolerateTaint (p_Tolerations pod) taint = true <->
    (ta_Key taint = "kosmos.io/node" /\ ta_Effect taint = TaintEffectNoSchedule) \/
    exists t, t ∈ p_Tolerations pod /\ ToleratesTaint t taint = true).
  { intros taint. unfold TolerationsTolerateTaint, MatchTaint. rewrite orb_true_iff, any_true, andb_true_iff.
    rewrite !bool_decide_eq_true. done. }
  setoid_rewrite <- Ht. destruct (first _ _) as [taint|] eqn:E.
  - simpl. split; [done|]. intros H. apply first_Some in E as [[Hin He]%list_filter_spec Hn]. breflect.
    rewrite H in Hn; [done|done|]. destruct He as [He|He]; breflect; auto.
  - split; [|done]. intros _ taint Hin He. rewrite first_None in E.
    specialize (E taint). rewrite negb_false_iff in E. apply E, list_filter_spec. split; [done|].
    destruct He as [-> | ->]; done.
Qed.
