(* ===== verification/SchedVolume.v ===== *)
(** The scheduler's volume filter:
scheduler/lifted/plugins/leafnodevolumebinding/leafnode_volume_binding.go.

The claims and volumes are the fields the plugin reads. What the plugin calls
outside the repository is a parameter: the listers of the informers and the matching
functions of Kubernetes ([Storage], [VolumeDeps]) and the volume binder, which keeps
a state of its own ([VolumeBinder]). The cycle state holds a pointer to the plugin's
data, so that every copy of it shares the data: one value, threaded through the
calls. *)
From S2P Require Import Prelude GoStr LinkApi SchedPolicy.

(** * Kubernetes objects *)

Record PersistentVolumeClaim := mkPVC {
  c_Name : string; c_Namespace : string; c_Annotations : gmap string string;
  c_VolumeName : string; c_StorageClassName : option string; c_Phase : string;
  c_Deleting : bool; c_Controller : option string; c_Request : Z }.

(** Node selectors and topologies are matched outside the repository. *)
Class Storage := mkStorage {
  NodeSelector : Type;
  TopologySelector : Type;
  MatchNodeSelectorTerms : gmap string string -> NodeSelector -> result bool;
  MatchTopologySelectorTerms : TopologySelector -> gmap string string -> bool }.

Record PersistentVolume `{Storage} := mkPV {
  pv_Name : string; pv_Annotations : gmap string string;
  pv_NodeAffinity : option (option NodeSelector) }.

Record StorageClass `{Storage} := mkSC { sc_Provisioner : string; sc_AllowedTopologies : TopologySelector }.

Class VolumeDeps `{Storage} := mkDeps {
  PVCLister : string -> string -> got PersistentVolumeClaim;
  PVLister : string -> got PersistentVolume;
  SCLister : string -> got StorageClass;
  NodeLister : string -> got Node;
  ListPVs : string -> list PersistentVolume;
  FindMatchingVolume : PersistentVolumeClaim -> list PersistentVolume -> Node -> gmap string PersistentVolume ->
    result (option PersistentVolume);
  (** [sort.Sort] leaves the order of equal elements open. *)
  sort_Sort : forall {A : Type}, (A -> A -> bool) -> list A -> list A }.

(** What the plugin relies on: a matching volume is one of those offered and none of
those excluded, and sorting permutes. *)
Class VolumeLaws `{VolumeDeps} := mkLaws {
  FindMatchingVolume_spec : forall pvc pvs node excluded pv,
    FindMatchingVolume pvc pvs node excluded = inl (Some pv) -> pv ∈ pvs /\ excluded !! pv_Name pv = None;
  sort_Sort_perm : forall {A} (less : A -> A -> bool) l, sort_Sort less l ≡ₚ l }.

(** [scheduling.SchedulerVolumeBinder] *)
Class VolumeBinder := mkBinder {
  BState : Type;
  BPodVolumes : Type;
  GetPodVolumes : BState -> Pod ->
    result (list PersistentVolumeClaim * list PersistentVolumeClaim * list PersistentVolumeClaim);
  FindPodVolumes : BState -> Pod -> list PersistentVolumeClaim -> list PersistentVolumeClaim -> Node ->
    result (BPodVolumes * list string);
  AssumePodVolumes : BState -> Pod -> string -> BPodVolumes -> BState * result bool;
  RevertAssumedPodVolumes : BState -> BPodVolumes -> BState;
  BindPodVolumes : BState -> Pod -> BPodVolumes -> BState * option string }.

Definition KosmosResourceOwnersAnnotations : string := "kosmos-io/cluster-owners".
Definition KosmosNodeOwnedByClusterAnnotations : string := "kosmos-io/owned-by-cluster".
Definition nodeMode : string := "leafNodeMode".
Definition ErrReasonNodeConflict : string := "node(s) had volume node affinity conflict".
Definition ErrReasonBindConflict : string := "node(s) didn't find available persistent volumes to bind".
Definition ErrReasonNotEnoughSpace : string := "node(s) did not have enough free storage".
Definition ErrReasonPVNotExist : string := "node(s) unavailable due to one or more pvc(s) bound to non-existent pv(s)".
Definition NotSupportedProvisioner : string := "kubernetes.io/no-provisioner".
Definition BetaStorageClassAnnotation : string := "volume.beta.kubernetes.io/storage-class".
Definition ClaimLost : string := "Lost".

(** [volume.GetPersistentVolumeClaimClass] *)
Definition GetPersistentVolumeClaimClass (claim : PersistentVolumeClaim) : string :=
  match c_Annotations claim !! BetaStorageClassAnnotation with
  | Some class => class
  | None => default EmptyString (c_StorageClassName claim)
  end.

Definition HasKosmosNodeLabel (node : Node) : bool :=
  match n_Labels node !! KosmosNodeLabel with Some v => v =s KosmosNodeValue | None => false end.

Definition AsStatus (err : string) : Status := mkStatus Error [err].

(** The node's cluster; a missing annotation reads as the empty string. *)
Definition cluster_of (node : Node) : string :=
  default EmptyString (n_Annotations node !! KosmosNodeOwnedByClusterAnnotations).

Section plugin.
  Context `{VolumeDeps}.

Record BindingInfo := mkBinding { b_pvc : PersistentVolumeClaim; b_pv : PersistentVolume }.

Record PodVolumes := mkPodVolumes {
  StaticBindings : list BindingInfo; DynamicProvisions : list PersistentVolumeClaim }.

(** ** PreFilter *)

(** The claim a volume of the pod uses, and whether it is ephemeral. *)
Definition volume_claim (pod : Pod) (vol : Volume) : option (string * bool) :=
  match v_ClaimName vol with
  | Some name => Some (name, false)
  | None => if v_Ephemeral vol then Some (p_Name pod +:+ "-" +:+ v_Name vol, true) else None
  end.

(** [ephemeral.VolumeIsForPod] *)
Definition VolumeIsForPod (pod : Pod) (pvc : PersistentVolumeClaim) : option string :=
  if negb (c_Namespace pvc =s p_Namespace pod) || negb (bool_decide (c_Controller pvc = Some (p_UID pod)))
  then Some ("PVC " +:+ c_Namespace pvc +:+ "/" +:+ c_Name pvc +:+ " was not created for pod " +:+
             p_Namespace pod +:+ "/" +:+ p_Name pod +:+ " (pod is not owner)")
  else None.

(** The error one volume gives rise to. *)
Definition volume_error (pod : Pod) (pvcName : string) (isEphemeral : bool) : option string :=
  match PVCLister (p_Namespace pod) pvcName with
  | NotFound err =>
      if isEphemeral then Some ("waiting for ephemeral volume controller to create the persistentvolumeclaim " +:+ quote pvcName)
      else Some err
  | Failed err => Some err
  | Found pvc =>
      if c_Phase pvc =s ClaimLost
      then Some ("persistentvolumeclaim " +:+ quote (c_Name pvc) +:+ " bound to non-existent persistentvolume " +:+ quote (c_VolumeName pvc))
      else if c_Deleting pvc then Some ("persistentvolumeclaim " +:+ quote (c_Name pvc) +:+ " is being deleted")
      else if isEphemeral then VolumeIsForPod pod pvc else None
  end.

Fixpoint podHasPVCs_loop (pod : Pod) (hasPVC : bool) (vols : list Volume) : bool * option string :=
  match vols with
  | [] => (hasPVC, None)
  | vol :: vols' =>
      match volume_claim pod vol with
      | None => podHasPVCs_loop pod hasPVC vols'
      | Some (pvcName, isEphemeral) =>
          match volume_error pod pvcName isEphemeral with
          | Some err => (true, Some err)
          | None => podHasPVCs_loop pod true vols'
          end
      end
  end.
Definition podHasPVCs (pod : Pod) : bool * option string := podHasPVCs_loop pod false (p_Volumes pod).

(** ** Kosmos volumes *)

Definition pvcHasKosmosAnnotations (claim : PersistentVolumeClaim) : bool :=
  bool_decide (is_Some (c_Annotations claim !! KosmosResourceOwnersAnnotations)).

Definition CheckNodeAffinity (pv : PersistentVolume) (nodeLabels : gmap string string) : option string :=
  match pv_NodeAffinity pv with
  | None => Some "node Affinity not specified"
  | Some None => None
  | Some (Some terms) =>
      match MatchNodeSelectorTerms nodeLabels terms with
      | inr err => Some err
      | inl matches => if matches then None else Some "no matching NodeSelectorTerms"
      end
  end.

Definition checkKosmosResourceOwner (pv : PersistentVolume) (node : Node) : option string :=
  match pv_Annotations pv !! KosmosResourceOwnersAnnotations with
  | None => CheckNodeAffinity pv (n_Labels node)
  | Some clusterOwners =>
      if negb (clusterOwners =s cluster_of node)
      then Some ("the owner cluster " +:+ clusterOwners +:+ " of the pv mismatch the owner cluster of " +:+
                 cluster_of node +:+ " this kosmos node")
      else None
  end.

(** Whether the volumes fit the node and whether they exist, or an error. *)
Fixpoint checkBoundClaims (claims : list PersistentVolumeClaim) (node : Node) : result (bool * bool) :=
  match claims with
  | [] => inl (true, true)
  | pvc :: claims' =>
      match PVLister (c_VolumeName pvc) with
      | NotFound _ => inl (true, false)
      | Failed err => inr err
      | Found pv =>
          match checkKosmosResourceOwner pv node with
          | Some _ => inl (false, true)
          | None => checkBoundClaims claims' node
          end
      end
  end.

Definition getPVCName (pvc : PersistentVolumeClaim) : string := c_Namespace pvc +:+ "/" +:+ c_Name pvc.

(** (provisionSatisfied, sufficientStorage, dynamicProvisions) or an error. *)
Fixpoint checkVolumeProvisions_loop (claims : list PersistentVolumeClaim) (node : Node)
    (dynamicProvisions : list PersistentVolumeClaim) : result (bool * bool * list PersistentVolumeClaim) :=
  match claims with
  | [] => inl (true, true, dynamicProvisions)
  | claim :: claims' =>
      let className := GetPersistentVolumeClaimClass claim in
      if str_empty className then inr ("no class for claim " +:+ quote (getPVCName claim))
      else match SCLister className with
      | NotFound _ | Failed _ => inr ("failed to find storage class " +:+ quote className)
      | Found class =>
          if str_empty (sc_Provisioner class) || (sc_Provisioner class =s NotSupportedProvisioner) then inl (false, true, [])
          else if negb (MatchTopologySelectorTerms (sc_AllowedTopologies class) (n_Labels node)) then inl (false, true, [])
          else checkVolumeProvisions_loop claims' node (dynamicProvisions ++ [claim])
      end
  end.
Definition checkVolumeProvisions (claimsToProvision : list PersistentVolumeClaim) (node : Node) :=
  checkVolumeProvisions_loop claimsToProvision node [].

Definition byPVCSize_Less (a b : PersistentVolumeClaim) : bool := (c_Request a <? c_Request b)%Z.

(** (bindings, unboundClaims) or an error; every claim matched iff none is unbound. *)
Fixpoint findMatchingVolumes_loop (claims : list PersistentVolumeClaim) (node : Node) (chosenPVs : gmap string PersistentVolume)
    (foundMatches : bool) (bindings : list BindingInfo) (unboundClaims : list PersistentVolumeClaim)
    : result (bool * list BindingInfo * list PersistentVolumeClaim) :=
  match claims with
  | [] => inl (foundMatches, bindings, unboundClaims)
  | pvc :: claims' =>
      match FindMatchingVolume pvc (ListPVs (GetPersistentVolumeClaimClass pvc)) node chosenPVs with
      | inr err => inr err
      | inl None => findMatchingVolumes_loop claims' node chosenPVs false bindings (unboundClaims ++ [pvc])
      | inl (Some pv) =>
          findMatchingVolumes_loop claims' node (<[pv_Name pv := pv]> chosenPVs) foundMatches
            (bindings ++ [mkBinding pvc pv]) unboundClaims
      end
  end.
Definition findMatchingVolumes (claimsToBind : list PersistentVolumeClaim) (node : Node) :=
  findMatchingVolumes_loop (sort_Sort byPVCSize_Less claimsToBind) node ∅ true [] [].

(** The owned claims, to provision, and the others, to match; [None] when a claim
belongs to another cluster. *)
Fixpoint split_claims (claims : list PersistentVolumeClaim) (node : Node)
    (claimsToFindMatching claimsToProvision : list PersistentVolumeClaim) :=
  match claims with
  | [] => Some (claimsToFindMatching, claimsToProvision)
  | claim :: claims' =>
      match c_Annotations claim !! KosmosResourceOwnersAnnotations with
      | Some clusterOwners =>
          if negb (clusterOwners =s cluster_of node) then None
          else split_claims claims' node claimsToFindMatching (claimsToProvision ++ [claim])
      | None => split_claims claims' node (claimsToFindMatching ++ [claim]) claimsToProvision
      end
  end.

(** The deferred translation of the flags to reasons. *)
Definition conflict_reasons (boundVolumesSatisfied unboundVolumesSatisfied sufficientStorage boundPVsFound : bool) : list string :=
  (if boundVolumesSatisfied then [] else [ErrReasonNodeConflict]) ++
  (if unboundVolumesSatisfied then [] else [ErrReasonBindConflict]) ++
  (if sufficientStorage then [] else [ErrReasonNotEnoughSpace]) ++
  (if boundPVsFound then [] else [ErrReasonPVNotExist]).

(** The unbound claims: (unboundVolumesSatisfied, sufficientStorage, volumes). *)
Definition find_unbound (claimsToBind : list PersistentVolumeClaim) (node : Node) : result (bool * bool * PodVolumes) :=
  match split_claims claimsToBind node [] [] with
  | None => inl (false, true, mkPodVolumes [] [])
  | Some (claimsToFindMatching, claimsToProvision) =>
      match (match claimsToFindMatching with
             | [] => inl (true, [], [])
             | _ :: _ => findMatchingVolumes claimsToFindMatching node
             end) with
      | inr err => inr err
      | inl (unboundVolumesSatisfied, staticBindings, unboundClaims) =>
          match claimsToProvision ++ unboundClaims with
          | [] => inl (unboundVolumesSatisfied, true, mkPodVolumes staticBindings [])
          | claimsToProvision' =>
              match checkVolumeProvisions claimsToProvision' node with
              | inr err => inr err
              | inl (unboundVolumesSatisfied, sufficientStorage, dynamicProvisions) =>
                  inl (unboundVolumesSatisfied, sufficientStorage, mkPodVolumes staticBindings dynamicProvisions)
              end
          end
      end
  end.

Definition FindPodKosmosVolumes (boundClaims claimsToBind : list PersistentVolumeClaim) (node : Node)
    : result (PodVolumes * list string) :=
  match checkBoundClaims boundClaims node with
  | inr err => inr err
  | inl (boundVolumesSatisfied, boundPVsFound) =>
      match find_unbound claimsToBind node with
      | inr err => inr err
      | inl (unboundVolumesSatisfied, sufficientStorage, podVolumes) =>
          inl (podVolumes, conflict_reasons boundVolumesSatisfied unboundVolumesSatisfied sufficientStorage boundPVsFound)
      end
  end.

(** ** The extension points *)

Context `{VolumeBinder}.

(** The data behind the pointer in the cycle state; a nil map is [None]. *)
Record stateData := mkState {
  skip : bool; boundClaims : list PersistentVolumeClaim; claimsToBind : list PersistentVolumeClaim;
  allBound : bool; podVolumesByNode : option (gmap string BPodVolumes) }.

(** What the cycle state has under the plugin's key. *)
Inductive Cell := StateCell (s : stateData) | OtherCell.
Definition CycleState : Type := option Cell.

Definition getStateData (cs : CycleState) : result stateData :=
  match cs with
  | None => inr "not found"
  | Some OtherCell => inr "unable to convert state into stateData"
  | Some (StateCell s) => inl s
  end.

Definition VolumeBinding_PreFilter (b : BState) (cs : CycleState) (pod : Pod) : CycleState * Status :=
  match podHasPVCs pod with
  | (_, Some err) => (cs, mkStatus UnschedulableAndUnresolvable [err])
  | (false, None) => (Some (StateCell (mkState true [] [] false None)), ok)
  | (true, None) =>
      match GetPodVolumes b pod with
      | inr err => (cs, AsStatus err)
      | inl (bound, toBind, unboundClaimsImmediate) =>
          match unboundClaimsImmediate with
          | _ :: _ => (cs, mkStatus UnschedulableAndUnresolvable ["pod has unbound immediate PersistentVolumeClaims"])
          | [] => (Some (StateCell (mkState false bound toBind false (Some ∅))), ok)
          end
      end
  end.

Definition hasKosmosOwnerPVC (state : stateData) : bool :=
  any pvcHasKosmosAnnotations (boundClaims state) || any pvcHasKosmosAnnotations (claimsToBind state).

(** [state.podVolumesByNode[name] = podVolumes]; a write to a nil map panics. *)
Definition record_volumes (state : stateData) (name : string) (pv : BPodVolumes) : outcome stateData :=
  match podVolumesByNode state with
  | None => Panic
  | Some m => Ret (mkState (skip state) (boundClaims state) (claimsToBind state) (allBound state) (Some (<[name := pv]> m)))
  end.

(** The end of the filter: errors, reasons, and the recording of the volumes, which
is left out on a node in one2cluster mode ([None]). *)
Definition finish (cs : CycleState) (state : stateData) (node : Node)
    (r : result (option BPodVolumes * list string)) : outcome (CycleState * Status) :=
  match r with
  | inr err => Ret (cs, AsStatus err)
  | inl (_, reason :: reasons) => Ret (cs, mkStatus UnschedulableAndUnresolvable (reason :: reasons))
  | inl (None, []) => Ret (cs, ok)
  | inl (Some podVolumes, []) =>
      match record_volumes state (n_Name node) podVolumes with
      | Panic => Panic
      | Ret state' => Ret (Some (StateCell state'), ok)
      end
  end.

Definition binder_volumes (b : BState) (pod : Pod) (state : stateData) (node : Node) : result (option BPodVolumes * list string) :=
  match FindPodVolumes b pod (boundClaims state) (claimsToBind state) node with
  | inr err => inr err
  | inl (pv, reasons) => inl (Some pv, reasons)
  end.

(** The node is in one2cluster mode. *)
Definition one2cluster (node : Node) : bool :=
  match n_Annotations node !! nodeMode with Some mode => mode =s "one2cluster" | None => false end.

Definition VolumeBinding_Filter (b : BState) (cs : CycleState) (pod : Pod) (node : option Node) : outcome (CycleState * Status) :=
  match node with
  | None => Ret (cs, mkStatus Error ["node not found"])
  | Some node =>
  match getStateData cs with
  | inr err => Ret (cs, AsStatus err)
  | inl state =>
      if skip state then Ret (cs, ok)
      else if HasKosmosNodeLabel node then
        if one2cluster node then
          finish cs state node
            (match FindPodKosmosVolumes (boundClaims state) (claimsToBind state) node with
             | inr err => inr err
             | inl (_, reasons) => inl (None, reasons)
             end)
        else match boundClaims state with
             | [] => Ret (cs, ok)
             | _ :: _ => finish cs state node (binder_volumes b pod state node)
             end
      else if hasKosmosOwnerPVC state then finish cs state node (inl (None, [ErrReasonNodeConflict]))
      else finish cs state node (binder_volumes b pod state node)
  end end.

Definition setAllBound (state : stateData) (v : bool) : stateData :=
  mkState (skip state) (boundClaims state) (claimsToBind state) v (podVolumesByNode state).

(** [podVolumesByNode[nodeName]], which a nil map answers too. *)
Definition volumes_for (state : stateData) (nodeName : string) : option BPodVolumes :=
  match podVolumesByNode state with Some m => m !! nodeName | None => None end.

Definition Reserve (b : BState) (cs : CycleState) (pod : Pod) (nodeName : string) : BState * CycleState * Status :=
  match NodeLister nodeName with
  | NotFound _ | Failed _ => (b, cs, mkStatus Error ["node not found"])
  | Found node =>
      if HasLeafNodeTaint node then (b, cs, ok)
      else match getStateData cs with
      | inr err => (b, cs, AsStatus err)
      | inl state =>
          match volumes_for state nodeName with
          | Some podVolumes =>
              match AssumePodVolumes b pod nodeName podVolumes with
              | (b', inr err) => (b', cs, AsStatus err)
              | (b', inl all) => (b', Some (StateCell (setAllBound state all)), ok)
              end
          | None => (b, Some (StateCell (setAllBound state true)), ok)
          end
      end
  end.

Definition PreBind (b : BState) (cs : CycleState) (pod : Pod) (nodeName : string) : BState * Status :=
  match NodeLister nodeName with
  | NotFound _ | Failed _ => (b, mkStatus Error ["node not found"])
  | Found node =>
      if HasLeafNodeTaint node then (b, ok)
      else match getStateData cs with
      | inr err => (b, AsStatus err)
      | inl s =>
          if allBound s then (b, ok)
          else match volumes_for s nodeName with
          | None => (b, AsStatus ("no pod volumes found for node " +:+ quote nodeName))
          | Some podVolumes =>
              match BindPodVolumes b pod podVolumes with
              | (b', Some err) => (b', AsStatus err)
              | (b', None) => (b', ok)
              end
          end
      end
  end.

Definition Unreserve (b : BState) (cs : CycleState) (nodeName : string) : BState :=
  match NodeLister nodeName with
  | NotFound _ | Failed _ => b
  | Found node =>
      if HasLeafNodeTaint node then b
      else match getStateData cs with
      | inr _ => b
      | inl s => match volumes_for s nodeName with None => b | Some podVolumes => RevertAssumedPodVolumes b podVolumes end
      end
  end.

(** The filter on the candidate nodes of one cycle, in the order the goroutines get
the lock; the statuses are returned with the shared data. *)
Fixpoint Filter_all (b : BState) (cs : CycleState) (pod : Pod) (nodes : list Node) : outcome (CycleState * list Status) :=
  match nodes with
  | [] => Ret (cs, [])
  | node :: nodes' =>
      match VolumeBinding_Filter b cs pod (Some node) with
      | Panic => Panic
      | Ret (cs', st) =>
          match Filter_all b cs' pod nodes' with
          | Panic => Panic
          | Ret (cs'', sts) => Ret (cs'', st :: sts)
          end
      end
  end.

(** ** Facts *)

Lemma conflict_reasons_nil b1 b2 b3 b4 :
  conflict_reasons b1 b2 b3 b4 = [] -> b1 = true /\ b2 = true /\ b3 = true /\ b4 = true.
Proof. by destruct b1, b2, b3, b4. Qed.

(** A bound claim has a volume, of the node's cluster or with a fitting affinity. *)
Definition bound_fits (node : Node) (pvc : PersistentVolumeClaim) : Prop :=
  exists pv, PVLister (c_VolumeName pvc) = Found pv /\
    match pv_Annotations pv !! KosmosResourceOwnersAnnotations with
    | Some owner => owner = cluster_of node
    | None => CheckNodeAffinity pv (n_Labels node) = None
    end.

Lemma checkKosmosResourceOwner_spec pv node :
  checkKosmosResourceOwner pv node = None <->
  match pv_Annotations pv !! KosmosResourceOwnersAnnotations with
  | Some owner => owner = cluster_of node
  | None => CheckNodeAffinity pv (n_Labels node) = None
  end.
Proof.
  unfold checkKosmosResourceOwner. destruct (pv_Annotations pv !! _) as [owner|]; [|done].
  destruct (bool_decide (owner = cluster_of node)) eqn:E; breflect; simpl; split; done.
Qed.

Lemma checkBoundClaims_spec claims node :
  checkBoundClaims claims node = inl (true, true) <-> forall pvc, pvc ∈ claims -> bound_fits node pvc.
Proof.
  unfold bound_fits. setoid_rewrite <- checkKosmosResourceOwner_spec.
  induction claims as [|pvc claims IH]; simpl; [split; [set_solver|done]|].
  split.
  - destruct (PVLister (c_VolumeName pvc)) as [pv| |] eqn:E; [|done|done].
    destruct (checkKosmosResourceOwner pv node) eqn:Ec; [done|]. rewrite IH. intros Hc x [-> |Hx]%elem_of_cons; eauto.
  - intros Hc. destruct (Hc pvc) as (pv & -> & ->); [by left|]. apply IH. intros x Hx. apply Hc. by right.
Qed.

(** A claim can be provisioned on the node. *)
Definition provisionable (node : Node) (claim : PersistentVolumeClaim) : Prop :=
  exists class, SCLister (GetPersistentVolumeClaimClass claim) = Found class /\
    sc_Provisioner class <> EmptyString /\ sc_Provisioner class <> NotSupportedProvisioner /\
    MatchTopologySelectorTerms (sc_AllowedTopologies class) (n_Labels node) = true.

Lemma checkVolumeProvisions_loop_spec claims node acc suff res :
  checkVolumeProvisions_loop claims node acc = inl (true, suff, res) ->
  suff = true /\ res = acc ++ claims /\ forall c, c ∈ claims -> provisionable node c.
Proof.
  revert acc. induction claims as [|c claims IH]; intros acc; simpl.
  { intros [= <- <-]. rewrite app_nil_r. set_solver. }
  destruct (str_empty _); [done|]. destruct (SCLister _) as [class| |] eqn:Es; [|done|done].
  destruct (_ || _) eqn:Ep; [done|]. breflect. destruct (MatchTopologySelectorTerms _ _) eqn:Em; [|done]. simpl.
  intros (-> & -> & Hc)%IH. rewrite <- app_assoc. split_and!; [done|done|].
  intros x [-> |Hx]%elem_of_cons; [|by apply Hc]. exists class. rewrite <- str_empty_false. done.
Qed.

Lemma split_claims_spec claims node fm tp fm' tp' :
  split_claims claims node fm tp = Some (fm', tp') ->
  (forall c owner, c ∈ claims -> c_Annotations c !! KosmosResourceOwnersAnnotations = Some owner -> owner = cluster_of node) /\
  fm' = fm ++ List.filter (fun c => negb (pvcHasKosmosAnnotations c)) claims /\
  tp' = tp ++ List.filter pvcHasKosmosAnnotations claims.
Proof.
  revert fm tp. induction claims as [|c claims IH]; intros fm tp; simpl.
  { intros [= <- <-]. rewrite !app_nil_r. set_solver. }
  assert (Ep : pvcHasKosmosAnnotations c = bool_decide (is_Some (c_Annotations c !! KosmosResourceOwnersAnnotations))) by done.
  destruct (c_Annotations c !! _) as [owner|] eqn:E; rewrite Ep; simpl.
  - destruct (bool_decide (owner = cluster_of node)) eqn:Eo; [|done]. breflect. simpl.
    intros (Hc & -> & ->)%IH. rewrite <- app_assoc. split_and!; [|done|done].
    intros x o [-> |Hx]%elem_of_cons Ho; [congruence|by eapply Hc].
  - intros (Hc & -> & ->)%IH. rewrite <- app_assoc. split_and!; [|done|done].
    intros x o [-> |Hx]%elem_of_cons Ho; [congruence|by eapply Hc].
Qed.

Lemma filter_split_perm {A} (p : A -> bool) l : List.filter (fun x => negb (p x)) l ++ List.filter p l ≡ₚ l.
Proof.
  induction l as [|x l IH]; simpl; [done|]. destruct (p x); simpl; [|by rewrite IH].
  rewrite <- Permutation_middle. by rewrite IH.
Qed.

(** The static bindings: each claim bound or unbound, distinct volumes, all offered. *)
Definition bindings_ok (bindings : list BindingInfo) : Prop :=
  NoDup (map (fun i => pv_Name (b_pv i)) bindings) /\
  forall i, i ∈ bindings -> b_pv i ∈ ListPVs (GetPersistentVolumeClaimClass (b_pvc i)).

Lemma findMatchingVolumes_loop_spec `{!VolumeLaws} claims node chosen found bs us found' bs' us' :
  findMatchingVolumes_loop claims node chosen found bs us = inl (found', bs', us') ->
  bindings_ok bs -> (forall i, i ∈ bs -> is_Some (chosen !! pv_Name (b_pv i))) -> (us = [] \/ found = false) ->
  bindings_ok bs' /\ map b_pvc bs' ++ us' ≡ₚ (map b_pvc bs ++ us) ++ claims /\ (us' = [] \/ found' = false).
Proof.
  revert chosen found bs us. induction claims as [|c claims IH]; intros chosen found bs us; simpl.
  { intros [= <- <- <-] Hb Hc Hf. by rewrite app_nil_r. }
  destruct (FindMatchingVolume _ _ _ _) as [[pv|]|] eqn:E; [| |done]; intros HL [Hn Ho] Hc Hf.
  - apply FindMatchingVolume_spec in E as [Hin Hex]. eapply IH in HL as (G1 & G2 & G3).
    + split; [done|]. split; [|done]. rewrite G2, map_app. simpl. rewrite <- !app_assoc. simpl. solve_Permutation.
    + split.
      * rewrite map_app. simpl. apply list.NoDup_app. split_and!; [done| |apply NoDup_singleton].
        intros x (i & -> & Hi)%list_elem_of_fmap ?%list_elem_of_singleton. destruct (Hc i Hi) as [? Hci]. congruence.
      * intros i [Hi|Hi%list_elem_of_singleton]%elem_of_app; [by apply Ho|by subst].
    + intros i [Hi|Hi%list_elem_of_singleton]%elem_of_app.
      * apply lookup_insert_is_Some'. right. by apply Hc.
      * subst. simpl. apply lookup_insert_is_Some'. by left.
    + done.
  - eapply IH in HL as (G1 & G2 & G3); [|done|done|by right]. split; [done|]. split; [|done].
    rewrite G2. rewrite <- !app_assoc. done.
Qed.

Lemma findMatchingVolumes_spec `{!VolumeLaws} claims node found bs us :
  findMatchingVolumes claims node = inl (found, bs, us) ->
  bindings_ok bs /\ map b_pvc bs ++ us ≡ₚ claims /\ (us = [] \/ found = false).
Proof.
  intros (G1 & G2 & G3)%findMatchingVolumes_loop_spec; [|split; [constructor|set_solver]|set_solver|by left].
  split; [done|]. split; [|done]. rewrite G2. simpl. apply sort_Sort_perm.
Qed.

(** What the search promises for the unbound claims: each is bound or provisioned,
owned claims are of the node's cluster, and the bindings are sound. *)
Definition unbound_ok (node : Node) (claims : list PersistentVolumeClaim) (vols : PodVolumes) : Prop :=
  (forall c owner, c ∈ claims -> c_Annotations c !! KosmosResourceOwnersAnnotations = Some owner -> owner = cluster_of node) /\
  map b_pvc (StaticBindings vols) ++ DynamicProvisions vols ≡ₚ claims /\
  bindings_ok (StaticBindings vols) /\
  forall c, c ∈ DynamicProvisions vols -> provisionable node c.

Lemma find_unbound_spec `{!VolumeLaws} claims node suff vols :
  find_unbound claims node = inl (true, suff, vols) -> suff = true /\ unbound_ok node claims vols.
Proof.
  unfold find_unbound, unbound_ok. destruct (split_claims claims node [] []) as [[fm tp]|] eqn:Es; [|done].
  apply split_claims_spec in Es as (Ho & Efm & Etp). simpl in Efm, Etp.
  destruct (match fm with [] => _ | _ => _ end) as [[[found bs] us]|] eqn:Em; [|done].
  assert (bindings_ok bs /\ map b_pvc bs ++ us ≡ₚ fm /\ (us = [] \/ found = false)) as (Hb & Hp & Hf).
  { destruct fm as [|c fm']; [|by apply findMatchingVolumes_spec in Em].
    injection Em as <- <- <-. split; [split; [constructor|set_solver]|]. split; [done|by left]. }
  assert (Hall : map b_pvc bs ++ tp ++ us ≡ₚ claims).
  { rewrite (Permutation_app_comm tp us), app_assoc, Hp, Efm, Etp. apply filter_split_perm. }
  destruct (tp ++ us) as [|c cs] eqn:Et; [intros [= -> <- <-]; split_and!; (done || set_solver)|].
  destruct (checkVolumeProvisions (c :: cs) node) as [[[sat suff'] dyn]|] eqn:Ec; [|done].
  intros [= -> <- <-]. apply checkVolumeProvisions_loop_spec in Ec as (-> & -> & Hc). done.
Qed.

Lemma FindPodKosmosVolumes_ok `{!VolumeLaws} bound toBind node vols :
  FindPodKosmosVolumes bound toBind node = inl (vols, []) ->
  (forall pvc, pvc ∈ bound -> bound_fits node pvc) /\ unbound_ok node toBind vols.
Proof.
  unfold FindPodKosmosVolumes. destruct (checkBoundClaims bound node) as [[sat found]|] eqn:Eb; [|done].
  destruct (find_unbound toBind node) as [[[usat suff] pv]|] eqn:Eu; [|done].
  intros [= -> (-> & -> & -> & ->)%conflict_reasons_nil]. split; [by apply checkBoundClaims_spec|].
  by apply find_unbound_spec in Eu as [_ ?].
Qed.

(** The filter writes at most the volumes of its own node. *)
Definition filter_update (b : BState) (pod : Pod) (state : stateData) (node : Node) : option BPodVolumes :=
  if skip state || (HasKosmosNodeLabel node && (one2cluster node || (match boundClaims state with [] => true | _ => false end)))
     || (negb (HasKosmosNodeLabel node) && hasKosmosOwnerPVC state) then None
  else match FindPodVolumes b pod (boundClaims state) (claimsToBind state) node with
       | inl (pv, []) => Some pv
       | _ => None
       end.

(** The data after the filter: the same claims, and the given map. *)
Definition with_map (state : stateData) (m : gmap string BPodVolumes) : stateData :=
  mkState (skip state) (boundClaims state) (claimsToBind state) (allBound state) (Some m).

Lemma Filter_update b pod state m node :
  exists st, VolumeBinding_Filter b (Some (StateCell (with_map state m))) pod (Some node) =
    Ret (Some (StateCell (with_map state
      (match filter_update b pod state node with Some pv => <[n_Name node := pv]> m | None => m end))), st).
Proof.
  destruct state as [sk bound toBind all pm].
  unfold VolumeBinding_Filter, filter_update, finish, binder_volumes, hasKosmosOwnerPVC, with_map. simpl.
  destruct sk; [by eexists|]. destruct (HasKosmosNodeLabel node); simpl.
  - destruct (one2cluster node); simpl.
    + destruct (FindPodKosmosVolumes _ _ _) as [[? [|]]|]; by eexists.
    + destruct bound; simpl; [by eexists|]. destruct (FindPodVolumes _ _ _ _ _) as [[? [|]]|]; by eexists.
  - destruct (_ || _); [by eexists|]. destruct (FindPodVolumes _ _ _ _ _) as [[? [|]]|]; by eexists.
Qed.

(** The map after all candidates. *)
Definition volumes_map (b : BState) (pod : Pod) (state : stateData) (nodes : list Node) (m : gmap string BPodVolumes) : gmap string BPodVolumes :=
  fold_left (fun m node => match filter_update b pod state node with Some pv => <[n_Name node := pv]> m | None => m end) nodes m.

Lemma Filter_all_update b pod state nodes m :
  exists sts, Filter_all b (Some (StateCell (with_map state m))) pod nodes = Ret (Some (StateCell (with_map state (volumes_map b pod state nodes m))), sts).
Proof.
  revert m. induction nodes as [|node nodes IH]; intros m; cbn [Filter_all]; [by eexists|].
  destruct (Filter_update b pod state m node) as [st ->].
  destruct (IH (match filter_update b pod state node with Some pv => <[n_Name node := pv]> m | None => m end)) as [sts ->]. by eexists.
Qed.

Lemma volumes_map_perm b pod state nodes nodes' m :
  nodes ≡ₚ nodes' -> NoDup (map n_Name nodes) -> volumes_map b pod state nodes m = volumes_map b pod state nodes' m.
Proof.
  intros Hp. revert m. induction Hp as [|x l l' Hp IH|x y l|l l' l'' Hp IH Hp' IH']; intros m Hn; [done| | |].
  - simpl. apply IH. by apply list.NoDup_cons in Hn as [_ ?].
  - simpl. f_equal. apply list.NoDup_cons in Hn as [Hy _]. assert (n_Name x <> n_Name y) by set_solver.
    destruct (filter_update b pod state x), (filter_update b pod state y); try done. by apply insert_insert_ne.
  - rewrite IH by done. apply IH'. by rewrite <- Hp.
Qed.

End plugin.

(** * Theorems *)

(** When the search for volumes on a leaf node finds no conflict, the volume of
every bound claim exists and belongs to the node's cluster (or has a fitting node
affinity, if no cluster owns it); every unbound claim is either bound to an offered
volume or provisionable on the node, no volume is bound twice, and no claim of
another cluster is left. *)
Theorem FindPodKosmosVolumes_sound `{VolumeLaws} bound toBind node vols :
  FindPodKosmosVolumes bound toBind node = inl (vols, []) ->
  (forall pvc, pvc ∈ bound -> bound_fits node pvc) /\ unbound_ok node toBind vols.
Proof. apply FindPodKosmosVolumes_ok. Qed.

(** A node that passes the filter never takes a claim away from its cluster: on a
host node no claim of the pod is owned by a leaf cluster, and on a leaf node that
stands for a cluster every owned claim and every owned volume is of that cluster. *)
Theorem Filter_keeps_cluster `{VolumeLaws} `{VolumeBinder} b pod node state cs' st :
  VolumeBinding_Filter b (Some (StateCell state)) pod (Some node) = Ret (cs', st) -> skip state = false -> s_code st = Success ->
  (HasKosmosNodeLabel node = false -> forall c, c ∈ boundClaims state ++ claimsToBind state -> pvcHasKosmosAnnotations c = false) /\
  (HasKosmosNodeLabel node = true -> one2cluster node = true ->
   (forall c, c ∈ boundClaims state -> bound_fits node c) /\
   forall c owner, c ∈ claimsToBind state -> c_Annotations c !! KosmosResourceOwnersAnnotations = Some owner -> owner = cluster_of node).
Proof.
  unfold VolumeBinding_Filter, finish. simpl. intros HF Hs Hok. rewrite Hs in HF. split.
  - intros Hl. rewrite Hl in HF. unfold hasKosmosOwnerPVC in HF.
    destruct (_ || _) eqn:Eo; [by injection HF as <- <-|]. breflect.
    intros c [Hc|Hc]%elem_of_app; [by eapply any_false in Hc|by eapply any_false in Hc].
  - intros Hl Ho. rewrite Hl, Ho in HF.
    destruct (FindPodKosmosVolumes _ _ _) as [[vols [|r rs]]|] eqn:E; try by (injection HF as <- <-).
    apply FindPodKosmosVolumes_ok in E as (Hb & Hu & _). done.
Qed.

(** After the pre-filter has accepted a pod, the filter never panics, and the data
it leaves for the later phases does not depend on the order in which the nodes are
filtered. *)
Theorem Filter_all_order `{VolumeDeps} `{VolumeBinder} b cs pod cs' st nodes :
  VolumeBinding_PreFilter b cs pod = (cs', st) -> s_code st = Success -> NoDup (map n_Name nodes) ->
  exists cs'', forall nodes', nodes ≡ₚ nodes' -> exists sts, Filter_all b cs' pod nodes' = Ret (cs'', sts).
Proof.
  unfold VolumeBinding_PreFilter. intros HP Hok Hn.
  destruct (podHasPVCs pod) as [[] [err|]]; try by (injection HP as <- <-).
  - destruct (GetPodVolumes b pod) as [[[bound toBind] [|u us]]|]; injection HP as <- <-; try done.
    pose (state := mkState false bound toBind false (Some ∅)).
    exists (Some (StateCell (with_map state (volumes_map b pod state nodes ∅)))). intros nodes' Hp.
    rewrite (volumes_map_perm b pod state nodes nodes' ∅ Hp Hn). apply (Filter_all_update b pod state nodes' ∅).
  - injection HP as <- <-. exists (Some (StateCell (mkState true [] [] false None))). intros nodes' _.
    induction nodes' as [|node nodes' [sts IH]]; simpl; [by eexists|]. rewrite IH. by eexists.
Qed.

(** After a successful reservation, binding fails only with the error of the binder:
the volumes it needs are always there, whether or not the filter recorded any for
the node. *)
Theorem PreBind_after_Reserve `{VolumeDeps} `{VolumeBinder} b cs pod nodeName b' cs' st b2 :
  Reserve b cs pod nodeName = (b', cs', st) -> s_code st = Success ->
  PreBind b2 cs' pod nodeName = (b2, ok) \/
  exists podVolumes b3 r, BindPodVolumes b2 pod podVolumes = (b3, r) /\
    PreBind b2 cs' pod nodeName = (b3, match r with Some err => AsStatus err | None => ok end).
Proof.
  unfold Reserve, PreBind. destruct (NodeLister nodeName) as [node| |]; [|by intros [= <- <- <-]|by intros [= <- <- <-]].
  destruct (HasLeafNodeTaint node); [by left|].
  destruct (getStateData cs) as [state|] eqn:Ecs; [|by intros [= <- <- <-]].
  destruct (volumes_for state nodeName) as [pv|] eqn:Ev.
  - destruct (AssumePodVolumes b pod nodeName pv) as [b1 [all|]]; intros [= <- <- <-]; [intros _|done].
    simpl. destruct all; [by left|]. right. change (volumes_for (setAllBound state false) nodeName) with (volumes_for state nodeName).
    rewrite Ev. destruct (BindPodVolumes b2 pod pv) as [b3 [err|]] eqn:Eb; by eexists _, _, _.
  - intros [= <- <- <-] _. by left.
Qed.

(** * An example *)

Fixpoint insert_by {A} (less : A -> A -> bool) (x : A) (l : list A) : list A :=
  match l with [] => [x] | y :: l' => if less y x then y :: insert_by less x l' else x :: l end.
Definition insertion_sort {A} (less : A -> A -> bool) (l : list A) : list A := fold_right (insert_by less) [] l.

Lemma insertion_sort_perm {A} (less : A -> A -> bool) l : insertion_sort less l ≡ₚ l.
Proof.
  induction l as [|x l IH]; [done|]. simpl. transitivity (x :: insertion_sort less l); [|by rewrite IH].
  generalize (insertion_sort less l) as k. induction k as [|y k IHk]; [done|]. simpl.
  destruct (less y x); [|done]. rewrite IHk. apply Permutation_swap.
Qed.

(** Selectors are sets of labels. *)
#[local] Instance ex_storage : Storage :=
  mkStorage (gmap string string) (gmap string string) (fun labels s => inl (selector_matches s labels)) selector_matches.

Definition ex_pv (name : string) (owner : option string) : PersistentVolume :=
  mkPV _ name (match owner with Some o => {[ KosmosResourceOwnersAnnotations := o ]} | None => ∅ end) None.
Definition ex_claim (name vol : string) (owner : option string) (size : Z) : PersistentVolumeClaim :=
  mkPVC name "shop" (match owner with Some o => {[ KosmosResourceOwnersAnnotations := o ]} | None => ∅ end)
    vol (Some "disk") "Pending" false None size.
Definition ex_node (name : string) (cluster : option string) : Node :=
  match cluster with
  | Some c => mkNode name {[ KosmosNodeLabel := "true" ]} {[ nodeMode := "one2cluster"; KosmosNodeOwnedByClusterAnnotations := c ]} [LeafNodeTaint]
  | None => mkNode name ∅ ∅ []
  end.
Definition free_volumes : list PersistentVolume := [ex_pv "v1" None; ex_pv "v2" None].

#[local] Instance ex_deps : VolumeDeps :=
  mkDeps _
    (fun _ name => Found (ex_claim name "" None 1))
    (fun name => if name =s "data" then Found (ex_pv "data" (Some "c1")) else NotFound "no volume")
    (fun _ => Found (mkSC _ "csi" (∅ : gmap string string)))
    (fun name => Found (ex_node name (if name =s "leaf" then Some "c1" else None)))
    (fun _ => free_volumes)
    (fun _ pvs _ excluded => inl (first (fun pv => bool_decide (excluded !! pv_Name pv = None)) pvs))
    (fun A => insertion_sort).

#[local] Instance ex_laws : VolumeLaws.
Proof.
  split.
  - intros pvc pvs node excluded pv [= [Hin Hx]%first_Some]. breflect. done.
  - intros A. apply insertion_sort_perm.
Defined.

(** Two claims to match, one owned claim to provision and a bound one. *)
Definition ex_bound : list PersistentVolumeClaim := [ex_claim "a" "data" (Some "c1") 1].
Definition ex_toBind : list PersistentVolumeClaim := [ex_claim "b" "" None 9; ex_claim "c" "" (Some "c1") 3; ex_claim "d" "" None 2; ex_claim "e" "" None 20].
Definition ex_vols : PodVolumes :=
  mkPodVolumes [mkBinding (ex_claim "d" "" None 2) (ex_pv "v1" None); mkBinding (ex_claim "b" "" None 9) (ex_pv "v2" None)]
    [ex_claim "c" "" (Some "c1") 3; ex_claim "e" "" None 20].

Lemma FindPodKosmosVolumes_sound_witness :
  FindPodKosmosVolumes ex_bound ex_toBind (ex_node "leaf" (Some "c1")) = inl (ex_vols, []) /\
  ((forall pvc, pvc ∈ ex_bound -> bound_fits (ex_node "leaf" (Some "c1")) pvc) /\ unbound_ok (ex_node "leaf" (Some "c1")) ex_toBind ex_vols).
Proof.
  assert (E : FindPodKosmosVolumes ex_bound ex_toBind (ex_node "leaf" (Some "c1")) = inl (ex_vols, [])) by (vm_compute; reflexivity).
  split; [exact E|]. apply (FindPodKosmosVolumes_sound ex_bound ex_toBind (ex_node "leaf" (Some "c1")) ex_vols E).
Defined.

(** A binder whose state lists the nodes with assumed volumes. *)
#[local] Instance ex_binder : VolumeBinder :=
  mkBinder (list string) nat
    (fun _ pod => inl ([], map (fun v => ex_claim (v_Name v) "" None 1) (p_Volumes pod), []))
    (fun _ _ bound toBind node => inl (length (bound ++ toBind), []))
    (fun b _ node pv => (node :: b, inl (Nat.eqb pv 0)))
    (fun b _ => tail b)
    (fun b _ _ => (b, None)).

Definition ex_b0 : BState := ([] : list string).
Definition ex_b1 : BState := ["n1"].
Definition ex_pvs : BPodVolumes := 1%nat.

Definition ex_vpod : Pod := mkPod "db-0" "shop" "u2" ∅ [] [] [mkVolume "data" (Some "data-0") false].
Definition ex_state : stateData := mkState false ex_bound ex_toBind false (Some ∅).

Lemma Filter_keeps_cluster_witness :
  (HasKosmosNodeLabel (ex_node "leaf" (Some "c1")) = false -> forall c, c ∈ ex_bound ++ ex_toBind -> pvcHasKosmosAnnotations c = false) /\
  (HasKosmosNodeLabel (ex_node "leaf" (Some "c1")) = true -> one2cluster (ex_node "leaf" (Some "c1")) = true ->
   (forall c, c ∈ ex_bound -> bound_fits (ex_node "leaf" (Some "c1")) c) /\
   forall c owner, c ∈ ex_toBind -> c_Annotations c !! KosmosResourceOwnersAnnotations = Some owner -> owner = cluster_of (ex_node "leaf" (Some "c1"))).
Proof.
  apply (Filter_keeps_cluster ex_b0 ex_vpod (ex_node "leaf" (Some "c1")) ex_state (Some (StateCell ex_state)) ok);
    vm_compute; reflexivity.
Defined.

Definition ex_prefiltered : CycleState :=
  Some (StateCell (mkState false [] [ex_claim "data" "" None 1] false (Some ∅))).

Lemma Filter_all_order_witness :
  exists cs'', forall nodes', [ex_node "n1" None; ex_node "n2" None; ex_node "leaf" (Some "c1")] ≡ₚ nodes' ->
    exists sts, Filter_all ex_b0 ex_prefiltered ex_vpod nodes' = Ret (cs'', sts).
Proof.
  apply (Filter_all_order ex_b0 None ex_vpod ex_prefiltered ok).
  - vm_compute. reflexivity.
  - reflexivity.
  - vm_compute. repeat constructor; set_solver.
Defined.

Definition ex_filtered : CycleState :=
  Some (StateCell (mkState false [] [ex_claim "data" "" None 1] false (Some {[ "n1" := ex_pvs ]}))).

Lemma PreBind_after_Reserve_witness :
  PreBind ex_b1 ex_filtered ex_vpod "n1" = (ex_b1, ok) \/
  exists podVolumes b3 r, BindPodVolumes ex_b1 ex_vpod podVolumes = (b3, r) /\
    PreBind ex_b1 ex_filtered ex_vpod "n1" = (b3, match r with Some err => AsStatus err | None => ok end).
Proof.
  apply (PreBind_after_Reserve ex_b0 ex_filtered ex_vpod "n1" ex_b1 ex_filtered ok ex_b1); vm_compute; reflexivity.
Defined.
