(* ===== verification/DaemonApi.v ===== *)
(** The data of the daemon set extension and the small helpers on it:
clustertree/cluster-manager/extensions/daemonset/utils.go, parts of
host_daemon_controller.go and apis/kosmos/v1alpha1/daemonset_types.go, defaults.go.

Kubernetes' helpers on types the controller does not look into (percentages, node
affinity, the tolerations every daemon pod gets, the back-off of failed pods) are
parameters, gathered in [DaemonDeps]. *)
From S2P Require Import Prelude LinkApi SchedPolicy.

Class DaemonDeps := mkDaemonDeps {
  IntOrString : Type;
  FromInt : Z -> IntOrString;
  (** [intstr.GetScaledValueFromIntOrPercent], rounding up; nil is an error. *)
  GetScaledValueFromIntOrPercent : option IntOrString -> Z -> result Z;
  (** The part of a pod template that only Kubernetes looks into. *)
  Affinity : Type;
  (** [nodeaffinity.GetRequiredNodeAffinity(pod).Match(node)]; errors count as no match. *)
  MatchAffinity : Affinity -> Node -> bool;
  (** [util.AddOrUpdateDaemonPodTolerations] on hostNetwork and the tolerations. *)
  AddOrUpdateDaemonPodTolerations : bool -> list Toleration -> list Toleration;
  (** [flowcontrol.Backoff] *)
  Backoff : Type;
  IsInBackOffSinceUpdate : Backoff -> string -> Z -> bool;
  Backoff_Next : Backoff -> string -> Z -> Backoff;
  Backoff_Get : Backoff -> string -> Z;
  (** [metav1.LabelSelector] behind its pointer; is it equal to the empty selector; and
  [metav1.LabelSelectorAsSelector]: is the result empty, and which labels does it match. *)
  SelectorSpec : Type;
  selects_everything : SelectorSpec -> bool;
  LabelSelectorAsSelector : SelectorSpec -> result (bool * (gmap string string -> bool)) }.

Definition RollingUpdateDaemonSetStrategyType : string := "RollingUpdate".
Definition OnDeleteDaemonSetStrategyType : string := "OnDelete".
Definition ControllerRevisionHashLabelKey : string := "controller-revision-hash".
Definition DeprecatedTemplateGeneration : string := "deprecated.daemonset.template.generation".
Definition DaemonSetTemplateGenerationKey : string := "pod-template-generation".
Definition PodFailed : string := "Failed".
Definition RefTypeHost : string := "host".

Record RollingUpdateDaemonSet `{DaemonDeps} := mkRolling {
  MaxUnavailable : option IntOrString; MaxSurge : option IntOrString }.

Record DaemonSetStatus := mkDaemonStatus {
  CurrentNumberScheduled : Z; NumberMisscheduled : Z; DesiredNumberScheduled : Z; NumberReady : Z;
  ObservedGeneration : Z; UpdatedNumberScheduled : Z; NumberAvailable : Z; NumberUnavailable : Z;
  CollisionCount : option Z }.

(** [metav1.OwnerReference] of a controller; [or_Rest] is what is only compared. *)
Record OwnerReference := mkOwner { or_Kind : string; or_Name : string; or_UID : string; or_Rest : string }.

#[export] Instance OwnerReference_eq_dec : EqDecision OwnerReference.
Proof. solve_decision. Defined.

(** A shadow daemon set with the part of its pod template the controller reads; [tpl_Rest]
is the rest of the template, which is only stored and compared. *)
Record ShadowDaemonSet `{DaemonDeps} := mkDaemonSet {
  ds_Name : string; ds_Namespace : string; ds_UID : string; ds_Generation : Z;
  ds_Annotations : gmap string string; ds_RefType : string;
  tpl_NodeName : string; tpl_HostNetwork : bool; tpl_Affinity : Affinity; tpl_Tolerations : list Toleration;
  ds_StrategyType : string; ds_RollingUpdate : option RollingUpdateDaemonSet;
  MinReadySeconds : Z; RevisionHistoryLimit : option Z; ds_Status : DaemonSetStatus;
  ds_Deleting : bool; ds_Selector : SelectorSpec; tpl_Labels : gmap string string; tpl_Rest : string }.

(** A daemon pod; [q_Ready] is [None] when the pod is not ready and otherwise holds the
time of the last transition, [Some None] standing for the zero time; [q_Controller] is
[metav1.GetControllerOf]. *)
Record DaemonPod := mkDaemonPod {
  q_Name : string; q_Labels : gmap string string; q_NodeName : string; q_Deleting : bool;
  q_Phase : string; q_Created : Z; q_Ready : option (option Z);
  q_Namespace : string; q_Annotations : gmap string string; q_Controller : option OwnerReference;
  q_ResourceVersion : string }.

#[export] Instance DaemonPod_eq_dec : EqDecision DaemonPod.
Proof. solve_decision. Defined.

(** ** Pods *)

Definition IsPodReady (pod : DaemonPod) : bool := bool_decide (is_Some (q_Ready pod)).

(** [podutil.IsPodAvailable]; times are in nanoseconds. *)
Definition IsPodAvailable (pod : DaemonPod) (minReadySeconds now : Z) : bool :=
  match q_Ready pod with
  | None => false
  | Some since => (minReadySeconds =? 0)%Z || (match since with Some t => (t + minReadySeconds * 1000000000 <? now)%Z | None => false end)
  end.

(** [strconv.ParseInt(s, 10, 64)] *)
Definition digit (c : ascii) : option Z :=
  let n := Z.of_nat (nat_of_ascii c) in if (48 <=? n)%Z && (n <=? 57)%Z then Some (n - 48)%Z else None.

Fixpoint digits (s : string) (acc : Z) : option Z :=
  match s with
  | EmptyString => Some acc
  | String c s' => match digit c with Some d => digits s' (acc * 10 + d)%Z | None => None end
  end.

Definition ParseInt (s : string) : result Z :=
  let err := inr ("strconv.ParseInt: parsing " +:+ s) in
  let '(neg, body) :=
    match s with
    | String c s' => if Ascii.eqb c "-" then (true, s') else if Ascii.eqb c "+" then (false, s') else (false, s)
    | EmptyString => (false, s)
    end in
  if str_empty body then err
  else match digits body 0 with
  | None => err
  | Some n =>
      if neg then (if (n <=? 2 ^ 63)%Z then inl (- n)%Z else err)
      else (if (n <? 2 ^ 63)%Z then inl n else err)
  end.

(** [util.IsPodUpdated] *)
Definition IsPodUpdated (pod : DaemonPod) (hash : string) (generation : option Z) : bool :=
  (negb (str_empty hash) && (default EmptyString (q_Labels pod !! ControllerRevisionHashLabelKey) =s hash)) ||
  (match generation with
   | Some g => default EmptyString (q_Labels pod !! DaemonSetTemplateGenerationKey) =s pretty g
   | None => false
   end).

Definition podByCreationTimestampAndPhase_Less (a b : DaemonPod) : bool :=
  if negb (str_empty (q_NodeName a)) && str_empty (q_NodeName b) then true
  else if str_empty (q_NodeName a) && negb (str_empty (q_NodeName b)) then false
  else if (q_Created a =? q_Created b)%Z then negb (String.leb (q_Name b) (q_Name a))
  else (q_Created a <? q_Created b)%Z.

(** [sort.Sort]: the pods in ascending order. *)
Definition pod_le (a b : DaemonPod) : Prop := podByCreationTimestampAndPhase_Less b a = false.
#[export] Instance pod_le_dec : RelDecision pod_le.
Proof. intros a b. unfold pod_le. apply _. Defined.
Definition sort_pods (l : list DaemonPod) : list DaemonPod := merge_sort pod_le l.

Section helpers.
  Context `{DaemonDeps}.

(** ** utils.go *)

Definition GetTemplateGeneration (ds : ShadowDaemonSet) : result (option Z) :=
  match ds_Annotations ds !! DeprecatedTemplateGeneration with
  | None => inl None
  | Some annotation => match ParseInt annotation with inr err => inr err | inl generation => inl (Some generation) end
  end.

Definition UnavailableCount (ds : ShadowDaemonSet) (numberToSchedule : Z) : result Z :=
  if negb (ds_StrategyType ds =s RollingUpdateDaemonSetStrategyType) then inl 0%Z
  else match ds_RollingUpdate ds with
  | None => inl 0%Z
  | Some r => GetScaledValueFromIntOrPercent (MaxUnavailable r) numberToSchedule
  end.

Definition SurgeCount (ds : ShadowDaemonSet) (numberToSchedule : Z) : result Z :=
  if negb (ds_StrategyType ds =s RollingUpdateDaemonSetStrategyType) then inl 0%Z
  else match ds_RollingUpdate ds with
  | None => inl 0%Z
  | Some r => match MaxSurge r with
              | None => inl 0%Z
              | Some s => GetScaledValueFromIntOrPercent (Some s) numberToSchedule
              end
  end.

Definition AllowsSurge (ds : ShadowDaemonSet) : bool :=
  match SurgeCount ds 1 with inl maxSurge => (0 <? maxSurge)%Z | inr _ => false end.

(** ** Which nodes run a daemon pod *)

(** [v1helper.FindMatchingUntoleratedTaint], which has no exception for leaf nodes. *)
Definition untolerated (taints : list Taint) (tolerations : list Toleration) (inclusionFilter : Taint -> bool) : bool :=
  any (fun taint => inclusionFilter taint && negb (any (fun t => ToleratesTaint t taint) tolerations)) taints.

(** The pod [NewPod] builds: (spec.nodeName, affinity, tolerations). *)
Definition NewPod (ds : ShadowDaemonSet) (nodeName : string) : string * Affinity * list Toleration :=
  (nodeName, tpl_Affinity ds, AddOrUpdateDaemonPodTolerations (tpl_HostNetwork ds) (tpl_Tolerations ds)).

(** (fitsNodeName, fitsNodeAffinity, fitsTaints) *)
Definition predicates (pod : string * Affinity * list Toleration) (node : Node) (taints : list Taint) : bool * bool * bool :=
  let '(nodeName, affinity, tolerations) := pod in
  (str_empty nodeName || (nodeName =s n_Name node), MatchAffinity affinity node,
   negb (untolerated taints tolerations
     (fun t => (ta_Effect t =s TaintEffectNoExecute) || (ta_Effect t =s TaintEffectNoSchedule)))).

(** (shouldRun, shouldContinueRunning) *)
Definition NodeShouldRunDaemonPod (node : Node) (ds : ShadowDaemonSet) : bool * bool :=
  let pod := NewPod ds (n_Name node) in
  if negb (str_empty (tpl_NodeName ds) || (tpl_NodeName ds =s n_Name node)) then (false, false)
  else
    let taints := n_Taints node in
    let '(fitsNodeName, fitsNodeAffinity, fitsTaints) := predicates pod node taints in
    if negb fitsNodeName || negb fitsNodeAffinity then (false, false)
    else if negb fitsTaints
    then (false, negb (untolerated taints (snd pod) (fun t => ta_Effect t =s TaintEffectNoExecute)))
    else (true, true).

Definition isVirtualNode (node : Node) : bool := any (fun taint => ta_Key taint =s "kosmos.io/node") (n_Taints node).

Definition failedPodsBackoffKey (ds : ShadowDaemonSet) (nodeName : string) : string :=
  ds_UID ds +:+ "/" +:+ pretty (ObservedGeneration (ds_Status ds)) +:+ "/" +:+ nodeName.

(** [SetDefaults_ShadowDaemonSet] *)
Definition SetDefaults_ShadowDaemonSet (ds : ShadowDaemonSet) : ShadowDaemonSet :=
  let type := if str_empty (ds_StrategyType ds) then RollingUpdateDaemonSetStrategyType else ds_StrategyType ds in
  let rolling :=
    if type =s RollingUpdateDaemonSetStrategyType then
      let r := default (mkRolling _ None None) (ds_RollingUpdate ds) in
      Some (mkRolling _ (Some (default (FromInt 1) (MaxUnavailable r))) (Some (default (FromInt 0) (MaxSurge r))))
    else ds_RollingUpdate ds in
  mkDaemonSet _ (ds_Name ds) (ds_Namespace ds) (ds_UID ds) (ds_Generation ds) (ds_Annotations ds) (ds_RefType ds)
    (tpl_NodeName ds) (tpl_HostNetwork ds) (tpl_Affinity ds) (tpl_Tolerations ds) type rolling (MinReadySeconds ds)
    (Some (default 10%Z (RevisionHistoryLimit ds))) (ds_Status ds)
    (ds_Deleting ds) (ds_Selector ds) (tpl_Labels ds) (tpl_Rest ds).

End helpers.

(** ** Facts *)

(** The scheduled pods come first, then the older ones, then the names decide. *)
Lemma pod_le_cases a b : pod_le a b <->
  (q_NodeName a <> EmptyString /\ q_NodeName b = EmptyString) \/
  ((q_NodeName a = EmptyString <-> q_NodeName b = EmptyString) /\
   ((q_Created a < q_Created b)%Z \/ (q_Created a = q_Created b /\ String.le (q_Name a) (q_Name b)))).
Proof.
  unfold pod_le, podByCreationTimestampAndPhase_Less.
  assert (E : (if (q_Created b =? q_Created a)%Z then negb (String.leb (q_Name a) (q_Name b)) else (q_Created b <? q_Created a)%Z) = false <->
    ((q_Created a < q_Created b)%Z \/ (q_Created a = q_Created b /\ String.le (q_Name a) (q_Name b)))).
  { unfold String.le. destruct (Z.eqb_spec (q_Created b) (q_Created a)) as [-> |Hn];
      rewrite ?negb_false_iff, ?Z.ltb_ge, <- ?Is_true_true; intuition lia. }
  destruct (str_empty (q_NodeName a)) eqn:Ea, (str_empty (q_NodeName b)) eqn:Eb; simpl; rewrite ?E;
    rewrite ?str_empty_true, ?str_empty_false in Ea; rewrite ?str_empty_true, ?str_empty_false in Eb;
    naive_solver.
Qed.

#[export] Instance pod_le_trans : Transitive pod_le.
Proof.
  intros a b c. rewrite !pod_le_cases. intros [[? ?]|[? H1]] [[? ?]|[? H2]]; try tauto.
  right. split; [tauto|]. destruct H1 as [?|[? ?]], H2 as [?|[? ?]]; try (left; lia).
  right. split; [lia|]. by transitivity (q_Name b).
Qed.

#[export] Instance pod_le_total : Total pod_le.
Proof.
  intros a b. rewrite !pod_le_cases.
  destruct (decide (q_NodeName a = EmptyString)), (decide (q_NodeName b = EmptyString)); try tauto.
  all: destruct (Z.lt_total (q_Created a) (q_Created b)) as [?|[?|?]]; [tauto| |intuition lia].
  all: destruct (total String.le (q_Name a) (q_Name b)); intuition.
Qed.

(** Pods of different names are never tied. *)
Lemma pod_le_anti a b : pod_le a b -> pod_le b a -> q_Name a = q_Name b.
Proof.
  rewrite !pod_le_cases. intros H1 H2. apply (anti_symm String.le); intuition lia.
Qed.

Lemma sort_pods_perm l : sort_pods l ≡ₚ l.
Proof. apply merge_sort_Permutation. Qed.

Lemma sort_pods_sorted l : StronglySorted pod_le (sort_pods l).
Proof. apply StronglySorted_merge_sort; apply _. Qed.
