(* ===== verification/DaemonNode.v ===== *)
(** Which daemon pods a node keeps, loses and gets:
[podsShouldBeOnNode] and [getUnscheduledPodsWithoutNode] of
clustertree/cluster-manager/extensions/daemonset/host_daemon_controller.go.

The controller's back-off of failed pods and its delayed queue are state; every
reading of the clock is a new value of [clock]. *)
From S2P Require Import Prelude LinkApi SchedPolicy DaemonApi.

Section node.
  Context `{DaemonDeps} (clock : nat -> Z).

(** The state the decision changes: the back-off, the number of clock readings, and
the keys put on the queue with a delay. *)
Record Control := mkControl { k_backoff : Backoff; k_reads : nat; k_after : list (string * Z) }.

Definition Now (k : Control) : Z * Control := (clock (k_reads k), mkControl (k_backoff k) (S (k_reads k)) (k_after k)).

(** [controller.KeyFunc] *)
Definition KeyFunc (ds : ShadowDaemonSet) : string := ds_Namespace ds +:+ "/" +:+ ds_Name ds.

(** A failed pod: deleted unless its node is in back-off. *)
Definition failed_pod (ds : ShadowDaemonSet) (nodeName : string) (k : Control) : Control * bool :=
  let backoffKey := failedPodsBackoffKey ds nodeName in
  let '(now, k) := Now k in
  if IsInBackOffSinceUpdate (k_backoff k) backoffKey now
  then (mkControl (k_backoff k) (k_reads k) (k_after k ++ [(KeyFunc ds, Backoff_Get (k_backoff k) backoffKey)]), false)
  else (mkControl (Backoff_Next (k_backoff k) backoffKey now) (k_reads k) (k_after k), true).

(** The first loop: (podsToDelete, daemonPodsRunning). *)
Fixpoint live_pods (ds : ShadowDaemonSet) (nodeName : string) (k : Control) (daemonPods : list DaemonPod)
    (podsToDelete : list string) (daemonPodsRunning : list DaemonPod) : Control * list string * list DaemonPod :=
  match daemonPods with
  | [] => (k, podsToDelete, daemonPodsRunning)
  | pod :: daemonPods' =>
      if q_Deleting pod then live_pods ds nodeName k daemonPods' podsToDelete daemonPodsRunning
      else if q_Phase pod =s PodFailed then
        let '(k, delete) := failed_pod ds nodeName k in
        live_pods ds nodeName k daemonPods' (if delete then podsToDelete ++ [q_Name pod] else podsToDelete) daemonPodsRunning
      else live_pods ds nodeName k daemonPods' podsToDelete (daemonPodsRunning ++ [pod])
  end.

Definition hash_of (pod : DaemonPod) : string := default EmptyString (q_Labels pod !! ControllerRevisionHashLabelKey).

(** The second loop: (oldestNewPod, oldestOldPod, podsToDelete). *)
Fixpoint oldest_pods (hash : string) (pods : list DaemonPod) (oldestNewPod oldestOldPod : option DaemonPod)
    (podsToDelete : list string) : option DaemonPod * option DaemonPod * list string :=
  match pods with
  | [] => (oldestNewPod, oldestOldPod, podsToDelete)
  | pod :: pods' =>
      if hash_of pod =s hash then
        match oldestNewPod with
        | None => oldest_pods hash pods' (Some pod) oldestOldPod podsToDelete
        | Some _ => oldest_pods hash pods' oldestNewPod oldestOldPod (podsToDelete ++ [q_Name pod])
        end
      else
        match oldestOldPod with
        | None => oldest_pods hash pods' oldestNewPod (Some pod) podsToDelete
        | Some _ => oldest_pods hash pods' oldestNewPod oldestOldPod (podsToDelete ++ [q_Name pod])
        end
  end.

(** (nodesNeedingDaemonPods, podsToDelete) with the new state. *)
Definition podsShouldBeOnNode (k : Control) (node : Node) (nodeToDaemonPods : gmap string (list DaemonPod))
    (ds : ShadowDaemonSet) (hash : string) : Control * list string * list string :=
  let '(shouldRun, shouldContinueRunning) := NodeShouldRunDaemonPod node ds in
  let found := nodeToDaemonPods !! n_Name node in
  let daemonPods := default [] found in
  let exist := bool_decide (is_Some found) in
  if shouldRun && negb exist then (k, [n_Name node], [])
  else if shouldContinueRunning then
    let '(k, podsToDelete, daemonPodsRunning) := live_pods ds (n_Name node) k daemonPods [] [] in
    if negb (AllowsSurge ds) then
      if Nat.leb (length daemonPodsRunning) 1 then (k, [], podsToDelete)
      else (k, [], podsToDelete ++ map q_Name (tail (sort_pods daemonPodsRunning)))
    else if Nat.leb (length daemonPodsRunning) 1 then
      (k, if Nat.eqb (length daemonPodsRunning) 0 && shouldRun then [n_Name node] else [], podsToDelete)
    else
      let '(oldestNewPod, oldestOldPod, podsToDelete) := oldest_pods hash (sort_pods daemonPodsRunning) None None podsToDelete in
      match oldestNewPod, oldestOldPod with
      | Some newPod, Some oldPod =>
          if negb (IsPodReady oldPod) then (k, [], podsToDelete ++ [q_Name oldPod])
          else
            let '(now, k) := Now k in
            if IsPodAvailable newPod (MinReadySeconds ds) now then (k, [], podsToDelete ++ [q_Name oldPod])
            else (k, [], podsToDelete)
      | _, _ => (k, [], podsToDelete)
      end
  else if exist then (k, [], map q_Name (List.filter (fun pod => negb (q_Deleting pod)) daemonPods))
  else (k, [], []).

(** The pods of unknown nodes that are not scheduled; [entries] is the order in which
Go visits the map. *)
Definition getUnscheduledPodsWithoutNode (runningNodesList : list Node) (entries : list (string * list DaemonPod)) : list string :=
  flat_map (fun '(n, pods) =>
    if any (fun node => n_Name node =s n) runningNodesList then []
    else map q_Name (List.filter (fun pod => str_empty (q_NodeName pod)) pods)) entries.

(** The decisions of [manage] on all nodes: (nodesNeedingDaemonPods, podsToDelete). *)
Fixpoint on_nodes (k : Control) (nodeList : list Node) (nodeToDaemonPods : gmap string (list DaemonPod))
    (ds : ShadowDaemonSet) (hash : string) : Control * list string * list string :=
  match nodeList with
  | [] => (k, [], [])
  | node :: nodeList' =>
      let '(k, need, del) := podsShouldBeOnNode k node nodeToDaemonPods ds hash in
      let '(k, need', del') := on_nodes k nodeList' nodeToDaemonPods ds hash in
      (k, need ++ need', del ++ del')
  end.

(** ** Facts *)

(** A pod that counts: neither on its way out nor failed. *)
Definition live (pod : DaemonPod) : bool := negb (q_Deleting pod) && negb (q_Phase pod =s PodFailed).

Lemma live_pods_spec ds nodeName k pods del run :
  exists k' fs, live_pods ds nodeName k pods del run = (k', del ++ map q_Name fs, run ++ List.filter live pods) /\
    forall p, p ∈ fs -> p ∈ pods /\ q_Deleting p = false /\ q_Phase p = PodFailed.
Proof.
  revert k del run. induction pods as [|p pods IH]; intros k del run; simpl.
  { exists k, []. simpl. rewrite !app_nil_r. set_solver. }
  unfold live at 1. destruct (q_Deleting p) eqn:Ed; simpl.
  { destruct (IH k del run) as (k' & fs & -> & Hf). exists k', fs. split; [done|]. set_solver. }
  destruct (bool_decide (q_Phase p = PodFailed)) eqn:Ep; breflect; simpl.
  - destruct (failed_pod ds nodeName k) as [k1 []].
    + destruct (IH k1 (del ++ [q_Name p]) run) as (k' & fs & -> & Hf). exists k', (p :: fs). rewrite <- app_assoc. split; [done|].
      intros q [-> |Hq]%elem_of_cons; [by split; [left|]|]. apply Hf in Hq. set_solver.
    + destruct (IH k1 del run) as (k' & fs & -> & Hf). exists k', fs. split; [done|]. set_solver.
  - destruct (IH k del (run ++ [p])) as (k' & fs & -> & Hf). exists k', fs. rewrite <- app_assoc. split; [done|]. set_solver.
Qed.

(** [p] comes before every pod of [l]. *)
Definition oldest (l : list DaemonPod) (p : DaemonPod) : Prop := forall q, q ∈ l -> pod_le p q.

Lemma NoDup_names_inj (l : list DaemonPod) p q :
  NoDup (map q_Name l) -> p ∈ l -> q ∈ l -> q_Name p = q_Name q -> p = q.
Proof.
  induction l as [|x l IH]; [set_solver|]. simpl. intros [Hx Hn]%list.NoDup_cons Hp Hq E.
  assert (forall r, r ∈ l -> q_Name x <> q_Name r) as Hr by (intros r Hr Ex; apply Hx; rewrite Ex; by apply list_elem_of_fmap_2).
  apply elem_of_cons in Hp as [-> |Hp], Hq as [-> |Hq]; [done|by edestruct Hr|by edestruct Hr|by apply IH].
Qed.

(** The head of sorted pods is the oldest and the only one. *)
Lemma sorted_head x s p : StronglySorted pod_le (x :: s) -> NoDup (map q_Name (x :: s)) -> p ∈ x :: s ->
  (p ∉ s <-> oldest (x :: s) p).
Proof.
  intros [_ Hs]%StronglySorted_inv Hn Hp. rewrite Stdlib.Lists.List.Forall_forall in Hs.
  assert (Hx : oldest (x :: s) x).
  { intros q [-> |Hq]%elem_of_cons; [by destruct (total pod_le x x)|]. apply Hs. by apply list_elem_of_In. }
  pose proof (NoDup_fmap_1 q_Name (x :: s) Hn) as [Hxs _]%list.NoDup_cons. split.
  - intros Hps. apply elem_of_cons in Hp as [-> |Hp]; done.
  - intros Ho. replace p with x; [done|]. apply (NoDup_names_inj (x :: s)); [done|by left|done|].
    apply pod_le_anti; [by apply Hx|apply Ho; by left].
Qed.

Lemma oldest_perm l l' p : l ≡ₚ l' -> oldest l p -> oldest l' p.
Proof. intros Hp Ho q Hq. apply Ho. by rewrite Hp. Qed.

Lemma StronglySorted_filter (f : DaemonPod -> bool) l : StronglySorted pod_le l -> StronglySorted pod_le (List.filter f l).
Proof.
  induction 1 as [|x l Hs IH Hx]; simpl; [constructor|]. destruct (f x); [|done]. constructor; [done|].
  rewrite !Stdlib.Lists.List.Forall_forall in *. intros q [Hq _]%filter_In. by apply Hx.
Qed.

Lemma names_filter (f : DaemonPod -> bool) l : NoDup (map q_Name l) -> NoDup (map q_Name (List.filter f l)).
Proof.
  induction l as [|x l IH]; [done|]. simpl. intros [Hx Hn]%list.NoDup_cons. destruct (f x); [|by apply IH].
  simpl. apply list.NoDup_cons. split; [|by apply IH]. intros (y & E & [Hy _]%list_filter_spec)%list_elem_of_fmap.
  apply Hx. rewrite E. by apply list_elem_of_fmap_2.
Qed.

(** The second loop keeps the first pod of each kind. *)
Definition is_new (hash : string) (p : DaemonPod) : bool := hash_of p =s hash.
Definition is_old (hash : string) (p : DaemonPod) : bool := negb (is_new hash p).
Definition rest {A} (o : option A) (l : list A) : list A := match o with None => tail l | Some _ => l end.
Definition first_of {A} (o : option A) (l : list A) : option A := match o with None => head l | Some _ => o end.

Lemma oldest_pods_spec hash s n o del :
  exists ds, oldest_pods hash s n o del =
    (first_of n (List.filter (is_new hash) s), first_of o (List.filter (is_old hash) s), del ++ map q_Name ds) /\
    ds ≡ₚ rest n (List.filter (is_new hash) s) ++ rest o (List.filter (is_old hash) s).
Proof.
  revert n o del. induction s as [|p s IH]; intros n o del; simpl.
  { exists []. simpl. rewrite app_nil_r. by destruct n, o. }
  change (is_old hash p) with (negb (is_new hash p)). change (is_new hash p) with (bool_decide (hash_of p = hash)).
  destruct (bool_decide (hash_of p = hash)); simpl.
  - destruct n as [n|].
    + destruct (IH (Some n) o (del ++ [q_Name p])) as (ds & -> & Hd). exists (p :: ds). rewrite <- app_assoc. split; [done|]. simpl in *. by rewrite Hd.
    + destruct (IH (Some p) o del) as (ds & -> & Hd). exists ds. done.
  - destruct o as [o|].
    + destruct (IH n (Some o) (del ++ [q_Name p])) as (ds & -> & Hd). exists (p :: ds). rewrite <- app_assoc. split; [done|]. simpl in *.
      rewrite Hd. by rewrite Permutation_middle.
    + destruct (IH n (Some p) del) as (ds & -> & Hd). exists ds. done.
Qed.

(** [sort_pods] of some pods, restricted to a kind. *)
Definition sorted_kind (f : DaemonPod -> bool) (l : list DaemonPod) : list DaemonPod := List.filter f (sort_pods l).

Lemma sorted_kind_elem f l p : p ∈ sorted_kind f l <-> p ∈ l /\ f p = true.
Proof. unfold sorted_kind. by rewrite list_filter_spec, sort_pods_perm. Qed.

Lemma sorted_kind_perm f l : sorted_kind f l ≡ₚ List.filter f l.
Proof.
  unfold sorted_kind. induction (sort_pods_perm l) as [|x k k' _ IH|x y k|k1 k2 k3 _ IH1 _ IH2]; simpl; [done| | |by rewrite IH1].
  - destruct (f x); by rewrite IH.
  - destruct (f x), (f y); try done. by rewrite Permutation_swap.
Qed.

Lemma sorted_kind_first f l x s p : NoDup (map q_Name l) -> sorted_kind f l = x :: s -> p ∈ l -> f p = true ->
  (p ∉ s <-> oldest (List.filter f l) p) /\ (oldest (List.filter f l) p <-> p = x).
Proof.
  intros Hn E Hp Hf.
  assert (Hs : StronglySorted pod_le (x :: s)) by (rewrite <- E; apply StronglySorted_filter, sort_pods_sorted).
  assert (Hd : NoDup (map q_Name (x :: s))) by (rewrite <- E; apply names_filter; by rewrite sort_pods_perm).
  assert (Hps : p ∈ x :: s) by by rewrite <- E, sorted_kind_elem.
  assert (Ho : oldest (List.filter f l) p <-> oldest (x :: s) p).
  { rewrite <- E. split; apply oldest_perm; by rewrite sorted_kind_perm. }
  rewrite Ho. pose proof (sorted_head x s p Hs Hd Hps) as Hk. split; [done|]. rewrite <- Hk.
  pose proof (NoDup_fmap_1 q_Name (x :: s) Hd) as [Hxs _]%list.NoDup_cons. set_solver.
Qed.

(** Names identify the pods of a node. *)
Lemma in_names pods l p : NoDup (map q_Name pods) -> p ∈ pods -> (forall q, q ∈ l -> q ∈ pods) ->
  (q_Name p ∈ map q_Name l <-> p ∈ l).
Proof.
  intros Hn Hp Hl. split.
  - intros (q & E & Hq)%list_elem_of_fmap. replace p with q; [done|]. apply (NoDup_names_inj pods); auto.
  - apply list_elem_of_fmap_2.
Qed.

(** The decision when the set may surge, on the live pods. *)
Definition surge_rest (ds : ShadowDaemonSet) (hash : string) (now : Z) (l : list DaemonPod) : list DaemonPod :=
  tail (sorted_kind (is_new hash) l) ++ tail (sorted_kind (is_old hash) l) ++
  match head (sorted_kind (is_new hash) l), head (sorted_kind (is_old hash) l) with
  | Some n, Some o => if negb (IsPodReady o) || IsPodAvailable n (MinReadySeconds ds) now then [o] else []
  | _, _ => []
  end.

(** The pods of the same kind. *)
Definition same_kind (hash : string) (p q : DaemonPod) : bool := Bool.eqb (is_new hash q) (is_new hash p).

(** What a surging set keeps: the oldest pod of each kind, and the old one only while
it is ready and the new one is not available yet. *)
Definition surge_keeps (ds : ShadowDaemonSet) (hash : string) (now : Z) (l : list DaemonPod) (p : DaemonPod) : Prop :=
  oldest (List.filter (same_kind hash p) l) p /\
  (is_old hash p = true -> forall n, n ∈ l -> is_new hash n = true -> oldest (List.filter (is_new hash) l) n ->
     IsPodReady p = true /\ IsPodAvailable n (MinReadySeconds ds) now = false).

Lemma same_kind_filter hash p l :
  List.filter (same_kind hash p) l = List.filter (if is_new hash p then is_new hash else is_old hash) l.
Proof.
  apply filter_ext. intros q. unfold same_kind, is_old. by destruct (is_new hash p), (is_new hash q).
Qed.

Lemma tail_kind f l p : NoDup (map q_Name l) -> p ∈ l -> f p = true ->
  (p ∉ tail (sorted_kind f l) <-> oldest (List.filter f l) p).
Proof.
  intros Hn Hp Hf. destruct (sorted_kind f l) as [|x s] eqn:E.
  - assert (Hx : p ∈ sorted_kind f l) by by apply sorted_kind_elem. rewrite E in Hx. set_solver.
  - by apply (sorted_kind_first f l x s p).
Qed.

Lemma head_kind f l p : NoDup (map q_Name l) ->
  head (sorted_kind f l) = Some p <-> p ∈ l /\ f p = true /\ oldest (List.filter f l) p.
Proof.
  intros Hn. split.
  - destruct (sorted_kind f l) as [|x s] eqn:E; [done|]. intros [= ->].
    assert (Hp : p ∈ sorted_kind f l) by (rewrite E; by left). apply sorted_kind_elem in Hp as [Hp Hf].
    split_and!; [done|done|]. by apply (sorted_kind_first f l p s p).
  - intros (Hp & Hf & Ho). destruct (sorted_kind f l) as [|x s] eqn:E.
    + assert (Hx : p ∈ sorted_kind f l) by by apply sorted_kind_elem. rewrite E in Hx. set_solver.
    + simpl. f_equal. symmetry. by apply (sorted_kind_first f l x s p).
Qed.

Lemma tail_kind_elem f l p : p ∈ tail (sorted_kind f l) -> f p = true.
Proof.
  intros Hp. apply (sorted_kind_elem f l p). destruct (sorted_kind f l); [done|by right].
Qed.

Lemma surge_rest_spec ds hash now l p : NoDup (map q_Name l) -> p ∈ l ->
  (p ∉ surge_rest ds hash now l <-> surge_keeps ds hash now l p).
Proof.
  intros Hn Hp. unfold surge_rest, surge_keeps. rewrite same_kind_filter, !not_elem_of_app.
  destruct (is_new hash p) eqn:Ep.
  - rewrite (tail_kind (is_new hash)) by done. assert (Ho : is_old hash p = false) by by (unfold is_old; rewrite Ep). rewrite Ho.
    split; [naive_solver|]. intros [Hk _]. split; [done|]. split; [intros ?%tail_kind_elem; congruence|].
    destruct (head (sorted_kind (is_new hash) l)); [|set_solver].
    destruct (head (sorted_kind (is_old hash) l)) as [o|] eqn:Eo; [|set_solver].
    apply head_kind in Eo as (_ & Eo & _); [|done]. destruct (_ || _); [|set_solver].
    intros ->%list_elem_of_singleton. congruence.
  - assert (Ho : is_old hash p = true) by by (unfold is_old; rewrite Ep). rewrite Ho, (tail_kind (is_old hash)) by done.
    assert (Hh : oldest (List.filter (is_old hash) l) p <-> head (sorted_kind (is_old hash) l) = Some p) by (rewrite head_kind by done; tauto).
    rewrite Hh. split.
    + intros (_ & Ek & Hl). split; [done|]. intros _ n Hnl Hnn Hno.
      assert (En : head (sorted_kind (is_new hash) l) = Some n) by by apply head_kind. rewrite En, Ek in Hl.
      destruct (IsPodReady p), (IsPodAvailable n (MinReadySeconds ds) now); simpl in Hl; set_solver.
    + intros [Ek Hc]. split; [intros ?%tail_kind_elem; congruence|]. split; [done|]. rewrite Ek.
      destruct (head (sorted_kind (is_new hash) l)) as [n|] eqn:En; [|set_solver].
      apply head_kind in En as (Hnl & Hnn & Hno); [|done]. destruct (Hc eq_refl n Hnl Hnn Hno) as [-> ->]. simpl. set_solver.
Qed.

(** What the decision leaves on a node: the names to delete are those of some failed
pods and of the pods in excess. *)
Lemma surge_decision k node m ds hash pods :
  m !! n_Name node = Some pods -> AllowsSurge ds = true -> snd (NodeShouldRunDaemonPod node ds) = true ->
  exists k' i fs ex, podsShouldBeOnNode k node m ds hash =
      (k', if Nat.eqb (length (List.filter live pods)) 0 && fst (NodeShouldRunDaemonPod node ds) then [n_Name node] else [],
       map q_Name (fs ++ ex)) /\
    (forall p, p ∈ fs -> p ∈ pods /\ q_Deleting p = false /\ q_Phase p = PodFailed) /\
    (2 <= length (List.filter live pods) -> ex ≡ₚ surge_rest ds hash (clock i) (List.filter live pods)) /\
    (length (List.filter live pods) <= 1 -> ex = []).
Proof.
  intros Em Es Hc. unfold podsShouldBeOnNode. rewrite Em, Es.
  destruct (NodeShouldRunDaemonPod node ds) as [run cont]. simpl in Hc. subst cont.
  rewrite bool_decide_eq_true_2 by eauto. simpl. rewrite andb_false_r.
  destruct (live_pods_spec ds (n_Name node) k pods [] []) as (k1 & fs & -> & Hfs). simpl.
  set (R := List.filter live pods). destruct (Nat.leb_spec (length R) 1) as [Hl|Hl].
  { exists k1, 0, fs, []. rewrite app_nil_r. split_and!; [done|done|lia|done]. }
  replace (Nat.eqb (length R) 0) with false by (symmetry; apply Nat.eqb_neq; lia). simpl.
  destruct (oldest_pods_spec hash (sort_pods R) None None (map q_Name fs)) as (dl & -> & Hdl).
  fold (sorted_kind (is_new hash) R) in *. fold (sorted_kind (is_old hash) R) in *. simpl in Hdl. cbn [first_of].
  unfold surge_rest. destruct (head (sorted_kind (is_new hash) R)) as [n|]; [destruct (head (sorted_kind (is_old hash) R)) as [o|]|].
  1: destruct (IsPodReady o); simpl; [unfold Now; destruct (IsPodAvailable n (MinReadySeconds ds) (clock (k_reads k1))) eqn:Ea|].
  all: eexists _, (k_reads k1), fs.
  1,3: exists (dl ++ [o]). 3,4,5: exists dl.
  all: rewrite !map_app, ?app_assoc; simpl; (split_and!; [done|done|intros _; rewrite ?Ea|lia]).
  all: by rewrite Hdl, <- ?app_assoc, ?app_nil_r.
Qed.

Lemma plain_decision k node m ds hash pods :
  m !! n_Name node = Some pods -> AllowsSurge ds = false -> snd (NodeShouldRunDaemonPod node ds) = true ->
  exists k' fs ex, podsShouldBeOnNode k node m ds hash = (k', [], map q_Name (fs ++ ex)) /\
    (forall p, p ∈ fs -> p ∈ pods /\ q_Deleting p = false /\ q_Phase p = PodFailed) /\
    ex = tail (sorted_kind (fun _ => true) (List.filter live pods)).
Proof.
  intros Em Es Hc. unfold podsShouldBeOnNode. rewrite Em, Es.
  destruct (NodeShouldRunDaemonPod node ds) as [run cont]. simpl in Hc. subst cont.
  rewrite bool_decide_eq_true_2 by eauto. simpl. rewrite andb_false_r.
  destruct (live_pods_spec ds (n_Name node) k pods [] []) as (k1 & fs & -> & Hfs). simpl.
  assert (E : sorted_kind (fun _ => true) (List.filter live pods) = sort_pods (List.filter live pods)) by apply filter_true.
  destruct (Nat.leb_spec (length (List.filter live pods)) 1) as [Hl|Hl].
  - exists k1, fs, []. rewrite app_nil_r. split_and!; [done|done|]. rewrite E.
    rewrite <- (sort_pods_perm (List.filter live pods)) in Hl. destruct (sort_pods _) as [|x [|y s]]; [done|done|simpl in Hl; lia].
  - exists k1, fs, (tail (sort_pods (List.filter live pods))). rewrite map_app, E. done.
Qed.

(** The failed pods are not among the live ones. *)
Lemma not_deleted pods fs ex p : NoDup (map q_Name pods) -> p ∈ pods -> live p = true ->
  (forall q, q ∈ fs -> q ∈ pods /\ q_Deleting q = false /\ q_Phase q = PodFailed) -> (forall q, q ∈ ex -> q ∈ pods) ->
  (q_Name p ∉ map q_Name (fs ++ ex) <-> p ∉ ex).
Proof.
  intros Hn Hp Hl Hf He. rewrite (in_names pods); [|done|done|].
  - rewrite not_elem_of_app. split; [by intros [_ ?]|]. intros Hx. split; [|done]. intros (_ & _ & E)%Hf.
    unfold live in Hl. breflect. done.
  - intros q [Hq|Hq]%elem_of_app; [by apply Hf in Hq as [? _]|by apply He].
Qed.

End node.

(** * Theorems *)

(** The taints with one of the effects are tolerated by the pods of the set. *)
Definition tolerated `{DaemonDeps} (ds : ShadowDaemonSet) (node : Node) (effects : list string) : Prop :=
  forall taint, taint ∈ n_Taints node -> ta_Effect taint ∈ effects ->
    exists t, t ∈ AddOrUpdateDaemonPodTolerations (tpl_HostNetwork ds) (tpl_Tolerations ds) /\ ToleratesTaint t taint = true.

Lemma untolerated_spec `{DaemonDeps} ds node effects (f : Taint -> bool) :
  (forall t, f t = true <-> ta_Effect t ∈ effects) ->
  untolerated (n_Taints node) (AddOrUpdateDaemonPodTolerations (tpl_HostNetwork ds) (tpl_Tolerations ds)) f = false <->
  tolerated ds node effects.
Proof.
  intros Hf. unfold untolerated, tolerated. rewrite any_false. setoid_rewrite <- any_true. setoid_rewrite <- Hf.
  split; intros Ht x Hx; specialize (Ht x Hx); destruct (f x), (any _ _); naive_solver.
Qed.

Lemma untolerated_both `{DaemonDeps} ds node :
  untolerated (n_Taints node) (AddOrUpdateDaemonPodTolerations (tpl_HostNetwork ds) (tpl_Tolerations ds))
    (fun t => (ta_Effect t =s TaintEffectNoExecute) || (ta_Effect t =s TaintEffectNoSchedule)) = false <->
  tolerated ds node [TaintEffectNoExecute; TaintEffectNoSchedule].
Proof. apply untolerated_spec. intros t. rewrite orb_true_iff, !bool_decide_eq_true. set_solver. Qed.

Lemma untolerated_execute `{DaemonDeps} ds node :
  untolerated (n_Taints node) (AddOrUpdateDaemonPodTolerations (tpl_HostNetwork ds) (tpl_Tolerations ds))
    (fun t => ta_Effect t =s TaintEffectNoExecute) = false <-> tolerated ds node [TaintEffectNoExecute].
Proof. apply untolerated_spec. intros t. rewrite !bool_decide_eq_true. set_solver. Qed.

(** The template admits the node by name and affinity. *)
Definition admits_node `{DaemonDeps} (ds : ShadowDaemonSet) (node : Node) : Prop :=
  (tpl_NodeName ds = EmptyString \/ tpl_NodeName ds = n_Name node) /\ MatchAffinity (tpl_Affinity ds) node = true.

Lemma NodeShouldRunDaemonPod_spec `{DaemonDeps} node ds :
  (fst (NodeShouldRunDaemonPod node ds) = true <-> admits_node ds node /\ tolerated ds node [TaintEffectNoExecute; TaintEffectNoSchedule]) /\
  (snd (NodeShouldRunDaemonPod node ds) = true <-> admits_node ds node /\ tolerated ds node [TaintEffectNoExecute]).
Proof.
  assert (Hsub : tolerated ds node [TaintEffectNoExecute; TaintEffectNoSchedule] -> tolerated ds node [TaintEffectNoExecute]).
  { intros Ht taint Hin He. apply Ht; [done|]. set_solver. }
  rewrite <- untolerated_both, <- untolerated_execute in *. unfold admits_node.
  unfold NodeShouldRunDaemonPod, predicates, NewPod. cbn [snd fst].
  rewrite (bool_decide_eq_true_2 (n_Name node = n_Name node)) by done. rewrite orb_true_r. cbn [negb orb].
  assert (Hname : str_empty (tpl_NodeName ds) || (tpl_NodeName ds =s n_Name node) = true <->
    tpl_NodeName ds = EmptyString \/ tpl_NodeName ds = n_Name node) by by rewrite orb_true_iff, str_empty_true, bool_decide_eq_true.
  rewrite <- Hname. clear Hname. destruct (str_empty (tpl_NodeName ds) || _); simpl; [|naive_solver].
  destruct (MatchAffinity (tpl_Affinity ds) node); simpl; [|naive_solver].
  destruct (untolerated _ _ (fun t => _ || _)); simpl; [|naive_solver].
  destruct (untolerated _ _ _); simpl; naive_solver.
Qed.

(** A node without an entry. *)
Lemma empty_node `{DaemonDeps} clock k node m ds hash : m !! n_Name node = None ->
  podsShouldBeOnNode clock k node m ds hash = (k, if fst (NodeShouldRunDaemonPod node ds) then [n_Name node] else [], []).
Proof.
  intros E. unfold podsShouldBeOnNode. rewrite E. destruct (NodeShouldRunDaemonPod node ds) as [run cont]. simpl.
  destruct run, cont; simpl; try done. by destruct (AllowsSurge ds).
Qed.

(** A node with pods, without surge: the pods deleted. *)
Lemma plain_node `{DaemonDeps} clock k node m ds hash pods :
  m !! n_Name node = Some pods -> NoDup (map q_Name pods) -> AllowsSurge ds = false ->
  exists k' xs, podsShouldBeOnNode clock k node m ds hash = (k', [], map q_Name xs) /\
    (forall x, x ∈ xs -> x ∈ pods /\ q_Deleting x = false) /\
    (snd (NodeShouldRunDaemonPod node ds) = true ->
     forall p, p ∈ pods -> live p = true -> (p ∉ xs <-> oldest (List.filter live pods) p)) /\
    (snd (NodeShouldRunDaemonPod node ds) = false -> forall p, p ∈ pods -> q_Deleting p = false -> p ∈ xs).
Proof.
  intros Em Hn Es. destruct (snd (NodeShouldRunDaemonPod node ds)) eqn:Hc.
  - destruct (plain_decision clock k node m ds hash pods Em Es Hc) as (k' & fs & ex & -> & Hfs & Eex).
    assert (Hex : forall q, q ∈ ex -> q ∈ pods /\ live q = true).
    { intros q Hq. apply list_filter_spec. rewrite Eex in Hq.
      apply (sorted_kind_elem (fun _ => true)). destruct (sorted_kind _ _); [done|by right]. }
    exists k', (fs ++ ex). split_and!; [done| | |done].
    + intros x [(? & ? & _)%Hfs|[? Hl]%Hex]%elem_of_app; [done|]. unfold live in Hl. by breflect.
    + intros _ p Hp Hl. rewrite not_elem_of_app, Eex, tail_kind; [|by apply names_filter|by apply list_filter_spec|done].
      rewrite filter_true. split; [by intros [_ ?]|]. intros Ho. split; [|done]. intros (_ & _ & E)%Hfs. unfold live in Hl. by breflect.
  - assert (Hr : fst (NodeShouldRunDaemonPod node ds) = false).
    { destruct (fst (NodeShouldRunDaemonPod node ds)) eqn:E; [|done]. destruct (NodeShouldRunDaemonPod_spec node ds) as [H1 H2].
      apply H1 in E as [Ha Ht]. rewrite <- Hc. symmetry. apply H2. split; [done|]. intros t Hin He. apply Ht; set_solver. }
    unfold podsShouldBeOnNode. rewrite Em. destruct (NodeShouldRunDaemonPod node ds) as [run cont]. simpl in *. subst.
    eexists k, _. split; [done|]. setoid_rewrite list_filter_spec. setoid_rewrite negb_true_iff. naive_solver.
Qed.

(** A node without a pod of the set gets one exactly when the template's node
name and affinity admit it and the pods tolerate its NoSchedule and NoExecute taints;
a pod that is there may stay exactly when its NoExecute taints are tolerated. *)
Theorem daemon_node_spec `{DaemonDeps} clock k node m ds hash :
  (fst (NodeShouldRunDaemonPod node ds) = true <-> admits_node ds node /\ tolerated ds node [TaintEffectNoExecute; TaintEffectNoSchedule]) /\
  (snd (NodeShouldRunDaemonPod node ds) = true <-> admits_node ds node /\ tolerated ds node [TaintEffectNoExecute]) /\
  (m !! n_Name node = None ->
   podsShouldBeOnNode clock k node m ds hash = (k, if fst (NodeShouldRunDaemonPod node ds) then [n_Name node] else [], [])).
Proof.
  destruct (NodeShouldRunDaemonPod_spec node ds) as [H1 H2]. split; [done|]. split; [done|]. apply empty_node.
Qed.

(** Without surge a node keeps exactly the oldest of the pods that are neither
failed nor being deleted (scheduled pods first), and nothing is created; where the
pods may not stay, all are deleted; pods on their way out are left alone. *)
Theorem node_keeps_one `{DaemonDeps} clock k node m ds hash pods :
  m !! n_Name node = Some pods -> NoDup (map q_Name pods) -> AllowsSurge ds = false ->
  exists k' del, podsShouldBeOnNode clock k node m ds hash = (k', [], del) /\
    (snd (NodeShouldRunDaemonPod node ds) = true ->
     forall p, p ∈ pods -> live p = true -> (q_Name p ∉ del <-> oldest (List.filter live pods) p)) /\
    (snd (NodeShouldRunDaemonPod node ds) = false -> forall p, p ∈ pods -> (q_Name p ∈ del <-> q_Deleting p = false)) /\
    (forall p, p ∈ pods -> q_Deleting p = true -> q_Name p ∉ del).
Proof.
  intros Em Hn Es. destruct (plain_node clock k node m ds hash pods Em Hn Es) as (k' & xs & -> & Hxs & Hk & Hd).
  assert (Hin : forall p, p ∈ pods -> (q_Name p ∈ map q_Name xs <-> p ∈ xs)) by (intros p Hp; apply (in_names pods); naive_solver).
  exists k', (map q_Name xs). split; [done|]. split; [|split].
  - intros Hc p Hp Hl. rewrite Hin by done. by apply Hk.
  - intros Hc p Hp. rewrite Hin by done. naive_solver.
  - intros p Hp Hdel. rewrite Hin by done. intros [_ ?]%Hxs. congruence.
Qed.

(** With surge a node keeps the oldest live pod of the current revision and the
oldest of the earlier ones, the latter only while it is ready and the former is not
available; a pod is created when no live one is left and the node should run one. *)
Theorem node_surges `{DaemonDeps} clock k node m ds hash pods :
  m !! n_Name node = Some pods -> NoDup (map q_Name pods) -> AllowsSurge ds = true ->
  snd (NodeShouldRunDaemonPod node ds) = true ->
  exists k' i del, podsShouldBeOnNode clock k node m ds hash =
      (k', if Nat.eqb (length (List.filter live pods)) 0 && fst (NodeShouldRunDaemonPod node ds) then [n_Name node] else [], del) /\
    forall p, p ∈ pods -> live p = true -> (q_Name p ∉ del <-> surge_keeps ds hash (clock i) (List.filter live pods) p).
Proof.
  intros Em Hn Es Hc.
  destruct (surge_decision clock k node m ds hash pods Em Es Hc) as (k' & i & fs & ex & -> & Hfs & Hex2 & Hex1).
  set (R := List.filter live pods) in *. assert (HnR : NoDup (map q_Name R)) by by apply names_filter.
  exists k', i, (map q_Name (fs ++ ex)). split; [done|]. intros p Hp Hl.
  assert (HpR : p ∈ R) by by apply list_filter_spec.
  assert (Hex : ex ≡ₚ surge_rest ds hash (clock i) R).
  { destruct (decide (2 <= length R)); [by apply Hex2|]. rewrite Hex1 by lia.
    destruct R as [|x [|y R']]; [done| |simpl in *; lia]. unfold surge_rest, sorted_kind. simpl. unfold is_old. by destruct (is_new hash x). }
  assert (Hin : forall q, q ∈ ex -> q ∈ pods).
  { intros q Hq. rewrite Hex in Hq. cut (q ∈ R); [by intros [? _]%list_filter_spec|].
    unfold surge_rest in Hq. rewrite !elem_of_app in Hq. destruct Hq as [Hq|[Hq|Hq]].
    - eapply (sorted_kind_elem (is_new hash)). destruct (sorted_kind _ _); [done|by right].
    - eapply (sorted_kind_elem (is_old hash)). destruct (sorted_kind _ _); [done|by right].
    - destruct (head _); [|set_solver]. destruct (head (sorted_kind (is_old hash) R)) as [o|] eqn:Eo; [|set_solver].
      apply head_kind in Eo as (Ho & _); [|done]. destruct (_ || _); set_solver. }
  rewrite (not_deleted pods) by done. rewrite Hex. by apply surge_rest_spec.
Qed.

(** * An example *)

#[local] Instance ex_daemon_deps : DaemonDeps :=
  mkDaemonDeps Z (fun z => z) (fun v _ => match v with Some z => inl z | None => inr "nil value for IntOrString" end)
    unit (fun _ _ => true) (fun _ l => l) (list string) (fun b key _ => bool_decide (key ∈ b)) (fun b key _ => key :: b) (fun _ _ => 10%Z)
    unit (fun _ => false) (fun _ => inl (false, fun _ => true)).

Definition ex_set (surge : Z) : ShadowDaemonSet :=
  mkDaemonSet _ "agent" "kube" "u" 1 ∅ "host" "" false tt [] RollingUpdateDaemonSetStrategyType
    (Some (mkRolling _ (Some 1%Z) (Some surge))) 0 None (mkDaemonStatus 0 0 0 0 0 0 0 0 None) false tt ∅ "".
Definition ex_host : Node := mkNode "n1" ∅ ∅ [].
Definition ex_dpod (name hash phase : string) (created : Z) (ready : bool) : DaemonPod :=
  mkDaemonPod name {[ ControllerRevisionHashLabelKey := hash ]} "n1" false phase created (if ready then Some None else None) "kube" ∅ None "".
(** A failed pod, two of the current revision and two earlier ones. *)
Definition ex_pods : list DaemonPod :=
  [ex_dpod "a" "h1" PodFailed 1 false; ex_dpod "b" "h2" "Running" 5 false; ex_dpod "c" "h1" "Running" 2 true;
   ex_dpod "d" "h1" "Running" 3 true; ex_dpod "e" "h2" "Pending" 7 false].
Definition ex_map : gmap string (list DaemonPod) := {[ "n1" := ex_pods ]}.
Definition ex_control : Control := mkControl ([] : list string) 0 [].
Definition ex_clock (n : nat) : Z := Z.of_nat n.

(** Without surge the oldest live pod stays; with surge one of each revision. *)
Example ex_plain : snd (podsShouldBeOnNode ex_clock ex_control ex_host ex_map (ex_set 0) "h2") = ["a"; "d"; "b"; "e"].
Proof. vm_compute. reflexivity. Qed.
Example ex_surge : snd (podsShouldBeOnNode ex_clock ex_control ex_host ex_map (ex_set 1) "h2") = ["a"; "d"; "e"].
Proof. vm_compute. reflexivity. Qed.

Lemma node_keeps_one_witness :
  exists k' del, podsShouldBeOnNode ex_clock ex_control ex_host ex_map (ex_set 0) "h2" = (k', [], del) /\
    (snd (NodeShouldRunDaemonPod ex_host (ex_set 0)) = true ->
     forall p, p ∈ ex_pods -> live p = true -> (q_Name p ∉ del <-> oldest (List.filter live ex_pods) p)) /\
    (snd (NodeShouldRunDaemonPod ex_host (ex_set 0)) = false -> forall p, p ∈ ex_pods -> (q_Name p ∈ del <-> q_Deleting p = false)) /\
    (forall p, p ∈ ex_pods -> q_Deleting p = true -> q_Name p ∉ del).
Proof.
  apply (node_keeps_one ex_clock ex_control ex_host ex_map (ex_set 0) "h2" ex_pods);
    [reflexivity|vm_compute; repeat constructor; set_solver|reflexivity].
Defined.

Lemma node_surges_witness :
  exists k' i del, podsShouldBeOnNode ex_clock ex_control ex_host ex_map (ex_set 1) "h2" =
      (k', if Nat.eqb (length (List.filter live ex_pods)) 0 && fst (NodeShouldRunDaemonPod ex_host (ex_set 1)) then [n_Name ex_host] else [], del) /\
    forall p, p ∈ ex_pods -> live p = true -> (q_Name p ∉ del <-> surge_keeps (ex_set 1) "h2" (ex_clock i) (List.filter live ex_pods) p).
Proof.
  apply (node_surges ex_clock ex_control ex_host ex_map (ex_set 1) "h2" ex_pods);
    [reflexivity|vm_compute; repeat constructor; set_solver|reflexivity|reflexivity].
Defined.
