(* ===== verification/DaemonRolling.v ===== *)
(** The rolling update of a daemon set:
clustertree/cluster-manager/extensions/daemonset/update.go, up to the call of
syncNodes, which DaemonSync models.

Go visits the map of nodes in an unspecified order: the decision is made on a list of
its entries, and the theorems hold for every list. *)
From S2P Require Import Prelude LinkApi SchedPolicy DaemonApi.

Section rolling.
  Context `{DaemonDeps}.

(** The generation, or nil when it does not parse. *)
Definition generation_of (ds : ShadowDaemonSet) : option Z :=
  match GetTemplateGeneration ds with inl generation => generation | inr _ => None end.

(** (newPod, oldPod), or [None] when a node has two of a kind. *)
Fixpoint findUpdatedPods_loop (ds : ShadowDaemonSet) (podsOnNode : list DaemonPod) (hash : string)
    (newPod oldPod : option DaemonPod) : option (option DaemonPod * option DaemonPod) :=
  match podsOnNode with
  | [] => Some (newPod, oldPod)
  | pod :: pods' =>
      if q_Deleting pod then findUpdatedPods_loop ds pods' hash newPod oldPod
      else if IsPodUpdated pod hash (generation_of ds) then
        match newPod with Some _ => None | None => findUpdatedPods_loop ds pods' hash (Some pod) oldPod end
      else
        match oldPod with Some _ => None | None => findUpdatedPods_loop ds pods' hash newPod (Some pod) end
  end.
Definition findUpdatedPodsOnNode (ds : ShadowDaemonSet) (podsOnNode : list DaemonPod) (hash : string) :=
  findUpdatedPods_loop ds podsOnNode hash None None.

(** (maxSurge, maxUnavailable) and the map with an entry for every node to schedule. *)
Definition updatedDesiredNodeCounts (ds : ShadowDaemonSet) (nodeList : list Node) (nodeToDaemonPods : gmap string (list DaemonPod))
    : gmap string (list DaemonPod) * result (Z * Z) :=
  let '(m, desiredNumberScheduled) :=
    fold_left (fun '(m, desired) node =>
      if negb (fst (NodeShouldRunDaemonPod node ds)) then (m, desired)
      else (match m !! n_Name node with Some _ => m | None => <[n_Name node := []]> m end, (desired + 1)%Z))
      nodeList (nodeToDaemonPods, 0%Z) in
  (m,
   match UnavailableCount ds desiredNumberScheduled with
   | inr err => inr ("invalid value for MaxUnavailable: " +:+ err)
   | inl maxUnavailable =>
   match SurgeCount ds desiredNumberScheduled with
   | inr err => inr ("invalid value for MaxSurge: " +:+ err)
   | inl maxSurge =>
       let maxUnavailable := if (0 <? desiredNumberScheduled)%Z && (maxUnavailable =? 0)%Z && (maxSurge =? 0)%Z then 1%Z else maxUnavailable in
       inl (maxSurge, maxUnavailable)
   end end).

Definition available (ds : ShadowDaemonSet) (now : Z) (pod : DaemonPod) : bool := IsPodAvailable pod (MinReadySeconds ds) now.

(** One node of the loop without surge, on
(numUnavailable, allowedReplacementPods, candidatePodsToDelete). *)
Definition plain_step (ds : ShadowDaemonSet) (hash : string) (now maxUnavailable : Z)
    (acc : Z * list string * list string) (entry : string * list DaemonPod) : Z * list string * list string :=
  let '(numUnavailable, allowed, candidates) := acc in
  match findUpdatedPodsOnNode ds (snd entry) hash with
  | None | Some (None, None) | Some (Some _, Some _) => ((numUnavailable + 1)%Z, allowed, candidates)
  | Some (Some newPod, None) =>
      if negb (available ds now newPod) then ((numUnavailable + 1)%Z, allowed, candidates) else acc
  | Some (None, Some oldPod) =>
      if negb (available ds now oldPod) then (numUnavailable, allowed ++ [q_Name oldPod], candidates)
      else if (maxUnavailable <=? numUnavailable)%Z then acc
      else (numUnavailable, allowed, candidates ++ [q_Name oldPod])
  end.

(** [candidates[:remaining]] with the remaining number cut to what there is. *)
Definition usable (limit used : Z) (candidates : list string) : list string :=
  let remaining := (limit - used)%Z in
  let remaining := if (remaining <? 0)%Z then 0%Z else remaining in
  let remaining := if (Z.of_nat (length candidates) <? remaining)%Z then Z.of_nat (length candidates) else remaining in
  take (Z.to_nat remaining) candidates.

(** The pods to delete. *)
Definition rolling_plain (ds : ShadowDaemonSet) (hash : string) (now maxUnavailable : Z) (entries : list (string * list DaemonPod)) : list string :=
  let '(numUnavailable, allowed, candidates) := fold_left (plain_step ds hash now maxUnavailable) entries (0%Z, [], []) in
  allowed ++ usable maxUnavailable numUnavailable candidates.

(** One node of the loop with surge, on
(numSurge, allowedNewNodes, candidateNewNodes, oldPodsToDelete). *)
Definition surge_step (ds : ShadowDaemonSet) (hash : string) (now maxSurge : Z)
    (acc : Z * list string * list string * list string) (entry : string * list DaemonPod) : Z * list string * list string * list string :=
  let '(numSurge, allowed, candidates, del) := acc in
  match findUpdatedPodsOnNode ds (snd entry) hash with
  | None => ((numSurge + 1)%Z, allowed, candidates, del)
  | Some (_, None) => acc
  | Some (None, Some oldPod) =>
      if negb (available ds now oldPod) then (numSurge, allowed ++ [fst entry], candidates, del)
      else if (maxSurge <=? numSurge)%Z then acc
      else (numSurge, allowed, candidates ++ [fst entry], del)
  | Some (Some newPod, Some oldPod) =>
      if negb (available ds now newPod) then ((numSurge + 1)%Z, allowed, candidates, del)
      else (numSurge, allowed, candidates, del ++ [q_Name oldPod])
  end.

(** The pods to delete and the nodes to create pods on. *)
Definition rolling_surge (ds : ShadowDaemonSet) (hash : string) (now maxSurge : Z) (entries : list (string * list DaemonPod)) : list string * list string :=
  let '(numSurge, allowed, candidates, del) := fold_left (surge_step ds hash now maxSurge) entries (0%Z, [], [], []) in
  (del, allowed ++ usable maxSurge numSurge candidates).

(** What [rollingUpdate] hands to [syncNodes]; [visit] is the order of the map. *)
Definition rolling_decision (visit : gmap string (list DaemonPod) -> list (string * list DaemonPod)) (ds : ShadowDaemonSet)
    (nodeList : list Node) (nodeToDaemonPods : gmap string (list DaemonPod)) (hash : string) (now : Z) : result (list string * list string) :=
  match updatedDesiredNodeCounts ds nodeList nodeToDaemonPods with
  | (_, inr err) => inr ("couldn't get unavailable numbers: " +:+ err)
  | (m, inl (maxSurge, maxUnavailable)) =>
      inl (if (maxSurge =? 0)%Z then (rolling_plain ds hash now maxUnavailable (visit m), [])
           else rolling_surge ds hash now maxSurge (visit m))
  end.

(** ** Facts *)

(** A node counts as unavailable: too many pods, none at all, one of each kind, or a new
pod that is not available. *)
Definition unavailable_node (ds : ShadowDaemonSet) (hash : string) (now : Z) (entry : string * list DaemonPod) : bool :=
  match findUpdatedPodsOnNode ds (snd entry) hash with
  | None | Some (None, None) | Some (Some _, Some _) => true
  | Some (Some newPod, None) => negb (available ds now newPod)
  | Some (None, Some _) => false
  end.

(** The node's only pod is an old one, with the given availability. *)
Definition old_pod (ds : ShadowDaemonSet) (hash : string) (now : Z) (av : bool) (entry : string * list DaemonPod) : option string :=
  match findUpdatedPodsOnNode ds (snd entry) hash with
  | Some (None, Some oldPod) => if Bool.eqb (available ds now oldPod) av then Some (q_Name oldPod) else None
  | _ => None
  end.

Definition count {A} (f : A -> bool) (l : list A) : Z := Z.of_nat (length (List.filter f l)).

Lemma count_app {A} (f : A -> bool) l l' : count f (l ++ l') = (count f l + count f l')%Z.
Proof. unfold count. rewrite filter_app, length_app. lia. Qed.

Lemma usable_spec limit used candidates :
  usable limit used candidates = take (Z.to_nat (limit - used)) candidates.
Proof.
  unfold usable. destruct (Z.ltb_spec (limit - used) 0); cbv zeta.
  - destruct (Z.ltb_spec (Z.of_nat (length candidates)) 0); [lia|]. by replace (Z.to_nat (limit - used)) with 0 by lia.
  - destruct (Z.ltb_spec (Z.of_nat (length candidates)) (limit - used)); [|done].
    rewrite Nat2Z.id, !take_ge by lia. done.
Qed.

Lemma count_single {A} (f : A -> bool) x : count f [x] = if f x then 1%Z else 0%Z.
Proof. unfold count. simpl. by destruct (f x). Qed.

Lemma count_nonneg {A} (f : A -> bool) l : (0 <= count f l)%Z.
Proof. unfold count. lia. Qed.

(** The loop counts the unavailable nodes and collects the old pods; candidates may be
missing only when the limit is reached. *)
Lemma plain_loop ds hash now limit entries :
  exists cs, fold_left (plain_step ds hash now limit) entries (0%Z, [], []) =
    (count (unavailable_node ds hash now) entries, collect (old_pod ds hash now false) entries, cs) /\
    ((count (unavailable_node ds hash now) entries < limit)%Z -> cs = collect (old_pod ds hash now true) entries).
Proof.
  induction entries as [|e entries (cs & E & Hcs) IH] using rev_ind; [by exists []|].
  rewrite fold_left_app, E, count_app, !collect_app, count_single. simpl.
  clear E. revert Hcs. generalize (count (unavailable_node ds hash now) entries), (collect (old_pod ds hash now false) entries),
    (collect (old_pod ds hash now true) entries). intros U X O Hcs. unfold plain_step, old_pod, unavailable_node.
  destruct (findUpdatedPodsOnNode ds (snd e) hash) as [[[n|] [o|]]|]; simpl.
  2: destruct (available ds now n); simpl.
  4: destruct (available ds now o); simpl; [destruct (Z.leb_spec limit U)|].
  all: rewrite ?Z.add_0_r, ?app_nil_r; eexists; (split; [reflexivity|]); intros Hl; try lia.
  all: rewrite Hcs by lia; done.
Qed.

(** A surge in progress: too many pods, or a new pod beside the old one that is not
available yet. *)
Definition surging_node (ds : ShadowDaemonSet) (hash : string) (now : Z) (entry : string * list DaemonPod) : bool :=
  match findUpdatedPodsOnNode ds (snd entry) hash with
  | None => true
  | Some (Some newPod, Some _) => negb (available ds now newPod)
  | _ => false
  end.

(** The node has only an old pod, with the given availability. *)
Definition old_node (ds : ShadowDaemonSet) (hash : string) (now : Z) (av : bool) (entry : string * list DaemonPod) : option string :=
  match old_pod ds hash now av entry with Some _ => Some (fst entry) | None => None end.

(** The old pod beside an available new one. *)
Definition replaced_pod (ds : ShadowDaemonSet) (hash : string) (now : Z) (entry : string * list DaemonPod) : option string :=
  match findUpdatedPodsOnNode ds (snd entry) hash with
  | Some (Some newPod, Some oldPod) => if available ds now newPod then Some (q_Name oldPod) else None
  | _ => None
  end.

Lemma surge_loop ds hash now limit entries :
  exists cs, fold_left (surge_step ds hash now limit) entries (0%Z, [], [], []) =
    (count (surging_node ds hash now) entries, collect (old_node ds hash now false) entries, cs,
     collect (replaced_pod ds hash now) entries) /\
    ((count (surging_node ds hash now) entries < limit)%Z -> cs = collect (old_node ds hash now true) entries).
Proof.
  induction entries as [|e entries (cs & E & Hcs) IH] using rev_ind; [by exists []|].
  rewrite fold_left_app, E, count_app, !collect_app, count_single. simpl.
  clear E. revert Hcs. generalize (count (surging_node ds hash now) entries), (collect (old_node ds hash now false) entries),
    (collect (old_node ds hash now true) entries), (collect (replaced_pod ds hash now) entries). intros U X O D Hcs.
  unfold surge_step, old_node, old_pod, surging_node, replaced_pod.
  destruct (findUpdatedPodsOnNode ds (snd e) hash) as [[[n|] [o|]]|]; simpl.
  1: destruct (available ds now n); simpl.
  4: destruct (available ds now o); simpl; [destruct (Z.leb_spec limit U)|].
  all: rewrite ?Z.add_0_r, ?app_nil_r; eexists; (split; [reflexivity|]); intros Hl; try lia.
  all: rewrite Hcs by lia; done.
Qed.

(** The map after the counts: every node that should run a pod has an entry. *)
Lemma updatedDesiredNodeCounts_map ds nodeList m n :
  fst (updatedDesiredNodeCounts ds nodeList m) !! n =
  match m !! n with
  | Some pods => Some pods
  | None => if any (fun node => (n_Name node =s n) && fst (NodeShouldRunDaemonPod node ds)) nodeList then Some [] else None
  end.
Proof.
  unfold updatedDesiredNodeCounts.
  set (f := fun '(m, desired) node => _). destruct (fold_left f nodeList (m, 0%Z)) as [m' d] eqn:E. simpl.
  revert m E. generalize 0%Z. induction nodeList as [|node l IH]; intros z m; simpl.
  { intros [= -> ->]. by destruct (m' !! n). }
  destruct (fst (NodeShouldRunDaemonPod node ds)); simpl; intros ->%IH; rewrite ?andb_true_r, ?andb_false_r; simpl; [|done].
  destruct (m !! n_Name node) as [pods|] eqn:Em.
  - destruct (bool_decide_reflect (n_Name node = n)) as [<-|]; simpl; [by rewrite Em|done].
  - destruct (bool_decide_reflect (n_Name node = n)) as [<-|]; simpl; [by rewrite lookup_insert_eq, Em|by rewrite lookup_insert_ne].
Qed.

End rolling.

(** * Theorems *)

(** Without surge a rolling update deletes every old pod that is not available and
as many available old pods as the limit leaves beside the nodes that are already
unavailable, so that it never makes more nodes unavailable than the limit; nodes
that should run a pod and have none count as unavailable. *)
Theorem rolling_plain_limit `{DaemonDeps} visit ds nodeList m hash now m' maxUnavailable :
  updatedDesiredNodeCounts ds nodeList m = (m', inl (0%Z, maxUnavailable)) ->
  let entries := visit m' in
  let unavailable := count (unavailable_node ds hash now) entries in
  let deleted := take (Z.to_nat (maxUnavailable - unavailable)) (collect (old_pod ds hash now true) entries) in
  rolling_decision visit ds nodeList m hash now = inl (collect (old_pod ds hash now false) entries ++ deleted, []) /\
  (unavailable + Z.of_nat (length deleted) <= Z.max maxUnavailable unavailable)%Z /\
  (forall node, node ∈ nodeList -> fst (NodeShouldRunDaemonPod node ds) = true -> m !! n_Name node = None -> m' !! n_Name node = Some []).
Proof.
  intros E entries unavailable deleted. split_and!.
  - unfold rolling_decision. rewrite E. simpl. unfold rolling_plain.
    destruct (plain_loop ds hash now maxUnavailable (visit m')) as (cs & -> & Hcs). rewrite usable_spec. do 3 f_equal.
    unfold deleted, unavailable, entries. destruct (Z.ltb_spec (count (unavailable_node ds hash now) (visit m')) maxUnavailable).
    + by rewrite Hcs.
    + by replace (Z.to_nat (maxUnavailable - count (unavailable_node ds hash now) (visit m'))) with 0 by lia.
  - unfold deleted. rewrite length_take. lia.
  - intros node Hin Hr Hm. pose proof (updatedDesiredNodeCounts_map ds nodeList m (n_Name node)) as Hl. rewrite E, Hm in Hl. simpl in Hl.
    rewrite Hl. rewrite (proj2 (any_true _ _)); [done|]. exists node. by rewrite bool_decide_eq_true_2, Hr.
Qed.

(** With surge a rolling update deletes exactly the old pods whose replacement is
available, and creates pods on every node whose old pod is not available and on as
many of the others as the limit leaves beside the surges in progress. *)
Theorem rolling_surge_limit `{DaemonDeps} visit ds nodeList m hash now m' maxSurge maxUnavailable :
  updatedDesiredNodeCounts ds nodeList m = (m', inl (maxSurge, maxUnavailable)) -> maxSurge <> 0%Z ->
  let entries := visit m' in
  let surging := count (surging_node ds hash now) entries in
  let created := take (Z.to_nat (maxSurge - surging)) (collect (old_node ds hash now true) entries) in
  rolling_decision visit ds nodeList m hash now =
    inl (collect (replaced_pod ds hash now) entries, collect (old_node ds hash now false) entries ++ created) /\
  (surging + Z.of_nat (length created) <= Z.max maxSurge surging)%Z.
Proof.
  intros E Hs entries surging created. split.
  - unfold rolling_decision. rewrite E. rewrite (proj2 (Z.eqb_neq _ _) Hs). unfold rolling_surge.
    destruct (surge_loop ds hash now maxSurge (visit m')) as (cs & -> & Hcs). rewrite usable_spec. do 3 f_equal.
    unfold created, surging, entries. destruct (Z.ltb_spec (count (surging_node ds hash now) (visit m')) maxSurge).
    + by rewrite Hcs.
    + by replace (Z.to_nat (maxSurge - count (surging_node ds hash now) (visit m'))) with 0 by lia.
  - unfold created. rewrite length_take. lia.
Qed.

(** * An example *)

#[local] Instance ex_rolling_deps : DaemonDeps :=
  mkDaemonDeps Z (fun z => z) (fun v _ => match v with Some z => inl z | None => inr "nil value for IntOrString" end)
    unit (fun _ _ => true) (fun _ l => l) unit (fun _ _ _ => false) (fun b _ _ => b) (fun _ _ => 0%Z)
    unit (fun _ => false) (fun _ => inl (false, fun _ => true)).

Definition ex_daemonset (unavailable surge : Z) : ShadowDaemonSet :=
  mkDaemonSet _ "agent" "kube" "u" 1 ∅ "host" "" false tt [] RollingUpdateDaemonSetStrategyType
    (Some (mkRolling _ (Some unavailable) (Some surge))) 0 None (mkDaemonStatus 0 0 0 0 0 0 0 0 None) false tt ∅ "".
Definition ex_nodes : list Node := map (fun n => mkNode n ∅ ∅ []) ["n1"; "n2"; "n3"; "n4"; "n5"].
Definition ex_rpod (name hash node : string) (ready : bool) : DaemonPod :=
  mkDaemonPod name {[ ControllerRevisionHashLabelKey := hash ]} node false "Running" 0 (if ready then Some None else None) "kube" ∅ None "".
(** An old available pod on two nodes, an old broken one, a new one, and no pod. *)
Definition ex_rmap : gmap string (list DaemonPod) :=
  {[ "n1" := [ex_rpod "a" "h1" "n1" true]; "n2" := [ex_rpod "b" "h1" "n2" true];
     "n3" := [ex_rpod "c" "h1" "n3" false]; "n4" := [ex_rpod "d" "h2" "n4" true] ]}.
Definition ex_rmap' : gmap string (list DaemonPod) := <["n5" := []]> ex_rmap.

Example ex_rolling : rolling_decision map_to_list (ex_daemonset 2 0) ex_nodes ex_rmap "h2" 0 = inl (["c"; "a"], []).
Proof. vm_compute. reflexivity. Qed.

Lemma rolling_plain_limit_witness :
  rolling_decision map_to_list (ex_daemonset 2 0) ex_nodes ex_rmap "h2" 0 =
    inl (collect (old_pod (ex_daemonset 2 0) "h2" 0 false) (map_to_list ex_rmap') ++
         take (Z.to_nat (2 - count (unavailable_node (ex_daemonset 2 0) "h2" 0) (map_to_list ex_rmap')))
           (collect (old_pod (ex_daemonset 2 0) "h2" 0 true) (map_to_list ex_rmap')), []).
Proof.
  apply (rolling_plain_limit map_to_list (ex_daemonset 2 0) ex_nodes ex_rmap "h2" 0 ex_rmap' 2). vm_compute. reflexivity.
Defined.

Lemma rolling_surge_limit_witness :
  rolling_decision map_to_list (ex_daemonset 0 1) ex_nodes ex_rmap "h2" 0 =
    inl (collect (replaced_pod (ex_daemonset 0 1) "h2" 0) (map_to_list ex_rmap'),
         collect (old_node (ex_daemonset 0 1) "h2" 0 false) (map_to_list ex_rmap') ++
         take (Z.to_nat (1 - count (surging_node (ex_daemonset 0 1) "h2" 0) (map_to_list ex_rmap')))
           (collect (old_node (ex_daemonset 0 1) "h2" 0 true) (map_to_list ex_rmap'))).
Proof.
  apply (rolling_surge_limit map_to_list (ex_daemonset 0 1) ex_nodes ex_rmap "h2" 0 ex_rmap' 1 0); [vm_compute; reflexivity|done].
Defined.
