(* ===== verification/DaemonSync.v ===== *)
(** The creation and deletion of daemon pods: [syncNodes] and [manage] of
clustertree/cluster-manager/extensions/daemonset/host_daemon_controller.go and
[rollingUpdate] of update.go, with the expectations of k8s.io/kubernetes/pkg/controller.

The API server answers each creation by its index and each deletion by its name
([Api]). The goroutines of a batch only lower a counter and report errors, so that a
batch is run in the order of its indices. The claims of pods are a parameter: the
map of nodes to pods is an argument. *)
From S2P Require Import Prelude LinkApi SchedPolicy DaemonApi DaemonNode DaemonRolling.

Inductive CreateAnswer := Created | NamespaceTerminating | CreateFailed (err : string).
Inductive DeleteAnswer := Deleted | DeleteNotFound | DeleteFailed (err : string).

Record Api := mkApi { api_create : string -> nat -> CreateAnswer; api_delete : string -> DeleteAnswer }.

(** ** Expectations: (creations, deletions) by the key of the set *)

Abbreviation Expectations := (gmap string (Z * Z)).

Definition SetExpectations (e : Expectations) (key : string) (add del : Z) : Expectations := <[key := (add, del)]> e.

Definition LowerExpectations (e : Expectations) (key : string) (add del : Z) : Expectations :=
  match e !! key with Some (a, d) => <[key := ((a - add)%Z, (d - del)%Z)]> e | None => e end.

Definition CreationObserved (e : Expectations) (key : string) : Expectations := LowerExpectations e key 1 0.
Definition DeletionObserved (e : Expectations) (key : string) : Expectations := LowerExpectations e key 0 1.

(** The expectations are met; their expiry after five minutes is left out. *)
Definition SatisfiedExpectations (e : Expectations) (key : string) : bool :=
  match e !! key with Some (a, d) => (a <=? 0)%Z && (d <=? 0)%Z | None => true end.

Definition SlowStartInitialBatchSize : nat := 1.

(** ** syncNodes *)

(** One creation: the expectations and the errors. *)
Definition create_one (api : Api) (key : string) (nodes : list string) (acc : Expectations * list string) (ix : nat) : Expectations * list string :=
  let '(e, errs) := acc in
  match api_create api (nth ix nodes EmptyString) ix with
  | Created => (e, errs)
  | NamespaceTerminating => (e, errs)
  | CreateFailed err => (CreationObserved e key, errs ++ [err])
  end.

(** The batches: the expectations, the errors and how many creations were attempted;
[None] when the fuel is used up. *)
Fixpoint batches (fuel : nat) (api : Api) (key : string) (nodes : list string) (createDiff batchSize pos : nat)
    (e : Expectations) (errs : list string) : option (Expectations * list string * nat) :=
  if negb (Nat.ltb pos createDiff) then Some (e, errs, pos)
  else match fuel with
  | O => None
  | S fuel' =>
      let errorCount := length errs in
      let '(e, errs) := fold_left (create_one api key nodes) (seq pos batchSize) (e, errs) in
      let skippedPods := createDiff - (batchSize + pos) in
      if Nat.ltb errorCount (length errs) && Nat.ltb 0 skippedPods
      then Some (LowerExpectations e key (Z.of_nat skippedPods) 0, errs, pos + batchSize)
      else batches fuel' api key nodes createDiff (Nat.min (2 * batchSize) (createDiff - (pos + batchSize))) (pos + batchSize) e errs
  end.

Definition delete_one (api : Api) (key : string) (acc : Expectations * list string) (pod : string) : Expectations * list string :=
  let '(e, errs) := acc in
  match api_delete api pod with
  | Deleted => (e, errs)
  | DeleteNotFound => (DeletionObserved e key, errs)
  | DeleteFailed err => (DeletionObserved e key, errs ++ [err])
  end.

(** The expectations, the errors and the numbers of creations and deletions attempted. *)
Definition syncNodes (api : Api) (burstReplicas : nat) (key : string) (e : Expectations)
    (podsToDelete nodesNeedingDaemonPods : list string) : option (Expectations * list string * nat * nat) :=
  let createDiff := length nodesNeedingDaemonPods in
  let deleteDiff := length podsToDelete in
  let createDiff := if Nat.ltb burstReplicas createDiff then burstReplicas else createDiff in
  let deleteDiff := if Nat.ltb burstReplicas deleteDiff then burstReplicas else deleteDiff in
  let e := SetExpectations e key (Z.of_nat createDiff) (Z.of_nat deleteDiff) in
  match batches createDiff api key nodesNeedingDaemonPods createDiff (Nat.min createDiff SlowStartInitialBatchSize) 0 e [] with
  | None => None
  | Some (e, errs, created) =>
      let '(e, errs) := fold_left (delete_one api key) (take deleteDiff podsToDelete) (e, errs) in
      Some (e, errs, created, deleteDiff)
  end.

Section sync.
  Context `{DaemonDeps} (clock : nat -> Z) (visit : gmap string (list DaemonPod) -> list (string * list DaemonPod)).
  Context (burstReplicas : nat).

(** The lists [manage] hands to [syncNodes]. *)
Definition manage_decision (k : Control) (ds : ShadowDaemonSet) (nodeList : list Node)
    (nodeToDaemonPods : gmap string (list DaemonPod)) (hash : string) : Control * list string * list string :=
  let '(k, nodesNeedingDaemonPods, podsToDelete) := on_nodes clock k nodeList nodeToDaemonPods ds hash in
  (k, nodesNeedingDaemonPods, podsToDelete ++ getUnscheduledPodsWithoutNode nodeList (visit nodeToDaemonPods)).

Definition manage (api : Api) (k : Control) (e : Expectations) (ds : ShadowDaemonSet) (nodeList : list Node)
    (nodeToDaemonPods : result (gmap string (list DaemonPod))) (hash : string) : option (Control * Expectations * list string) :=
  match nodeToDaemonPods with
  | inr err => Some (k, e, ["couldn't get node to daemon pod mapping for daemon set " +:+ ds_Name ds +:+ ": " +:+ err])
  | inl m =>
      let '(k, nodesNeedingDaemonPods, podsToDelete) := manage_decision k ds nodeList m hash in
      match syncNodes api burstReplicas (KeyFunc ds) e podsToDelete nodesNeedingDaemonPods with
      | None => None
      | Some (e, errs, _, _) => Some (k, e, errs)
      end
  end.

Definition rollingUpdate (api : Api) (k : Control) (e : Expectations) (ds : ShadowDaemonSet) (nodeList : list Node)
    (nodeToDaemonPods : result (gmap string (list DaemonPod))) (hash : string) : option (Control * Expectations * list string) :=
  match nodeToDaemonPods with
  | inr err => Some (k, e, ["couldn't get node to daemon pod mapping for daemon set " +:+ ds_Name ds +:+ ": " +:+ err])
  | inl m =>
      let '(now, k') := Now clock k in
      match rolling_decision visit ds nodeList m hash now with
      | inr err => Some (k, e, [err])
      | inl (podsToDelete, nodesNeedingDaemonPods) =>
          match syncNodes api burstReplicas (KeyFunc ds) e podsToDelete nodesNeedingDaemonPods with
          | None => None
          | Some (e, errs, _, _) => Some (k', e, errs)
          end
      end
  end.

End sync.

(** ** Facts *)

Definition create_error (api : Api) (nodes : list string) (ix : nat) : option string :=
  match api_create api (nth ix nodes EmptyString) ix with CreateFailed err => Some err | _ => None end.
Definition delete_error (api : Api) (pod : string) : option string :=
  match api_delete api pod with DeleteFailed err => Some err | _ => None end.
(** The deletion does not need to be observed any more. *)
Definition undeleted (api : Api) (pod : string) : bool :=
  match api_delete api pod with Deleted => false | _ => true end.

Lemma LowerExpectations_at e key a d x y :
  LowerExpectations (<[key := (a, d)]> e) key x y = <[key := ((a - x)%Z, (d - y)%Z)]> e.
Proof. unfold LowerExpectations. rewrite lookup_insert_eq. by rewrite insert_insert_eq. Qed.

Lemma create_batch api key nodes e a d errs l :
  fold_left (create_one api key nodes) l (<[key := (a, d)]> e, errs) =
  (<[key := ((a - Z.of_nat (length (collect (create_error api nodes) l)))%Z, d)]> e, errs ++ collect (create_error api nodes) l).
Proof.
  revert a errs. induction l as [|ix l IH]; intros a errs; simpl; [by rewrite Z.sub_0_r, app_nil_r|].
  destruct (create_error api nodes ix) eqn:Ec; unfold create_error in Ec;
    destruct (api_create api (nth ix nodes EmptyString) ix) as [| |err]; try done; [injection Ec as ->].
  unfold CreationObserved. rewrite LowerExpectations_at, Z.sub_0_r, IH. simpl length. rewrite <- app_assoc.
  replace (a - Z.of_nat (S (length (collect (create_error api nodes) l))))%Z with (a - 1 - Z.of_nat (length (collect (create_error api nodes) l)))%Z by lia. done.
Qed.

Lemma delete_batch api key e a d errs l :
  fold_left (delete_one api key) l (<[key := (a, d)]> e, errs) =
  (<[key := (a, (d - Z.of_nat (length (List.filter (undeleted api) l)))%Z)]> e, errs ++ collect (delete_error api) l).
Proof.
  revert d errs. induction l as [|pod l IH]; intros d errs; simpl; [by rewrite Z.sub_0_r, app_nil_r|].
  destruct (delete_error api pod) eqn:Ed, (undeleted api pod) eqn:En; unfold delete_error in Ed; unfold undeleted in En;
    destruct (api_delete api pod) as [| |err]; try done; try injection Ed as ->;
    unfold DeletionObserved; rewrite LowerExpectations_at, Z.sub_0_r, IH; simpl length; rewrite <- ?app_assoc;
    replace (d - Z.of_nat (S (length (List.filter (undeleted api) l))))%Z with (d - 1 - Z.of_nat (length (List.filter (undeleted api) l)))%Z by lia; done.
Qed.

(** The errors of the first creations. *)
Definition failures (api : Api) (nodes : list string) (n : nat) : list string := collect (create_error api nodes) (seq 0 n).

(** The batches double as long as nothing fails: at most half of the attempts (and one)
fail before the loop gives up. *)
Lemma batches_spec api key nodes createDiff d e fuel batchSize pos :
  createDiff - pos <= fuel -> pos <= createDiff -> batchSize = Nat.min (pos + 1) (createDiff - pos) ->
  failures api nodes pos = [] ->
  exists a, batches fuel api key nodes createDiff batchSize pos (<[key := (Z.of_nat createDiff, d)]> e) [] =
    Some (<[key := (Z.of_nat (a - length (failures api nodes a)), d)]> e, failures api nodes a, a) /\
    length (failures api nodes a) <= a <= createDiff /\
    (a < createDiff -> 0 < length (failures api nodes a) /\ a <= 2 * (a - length (failures api nodes a)) + 1).
Proof.
  revert batchSize pos. induction fuel as [|fuel IH]; intros batchSize pos Hf Hp Hb Hn; simpl.
  - destruct (Nat.ltb_spec pos createDiff); [lia|]. simpl. exists pos. rewrite Hn. simpl. rewrite Nat.sub_0_r.
    replace pos with createDiff by lia. split_and!; (done || lia).
  - destruct (Nat.ltb_spec pos createDiff); simpl.
    2: { exists pos. rewrite Hn. simpl. rewrite Nat.sub_0_r. replace pos with createDiff by lia. split_and!; (done || lia). }
    rewrite create_batch. simpl.
    assert (Hfa : failures api nodes (pos + batchSize) = collect (create_error api nodes) (seq pos batchSize)).
    { unfold failures in *. by rewrite seq_app, collect_app, Hn. }
    rewrite <- Hfa. assert (Hlen : length (failures api nodes (pos + batchSize)) <= batchSize).
    { rewrite Hfa. etransitivity; [apply collect_length|]. by rewrite length_seq. }
    destruct (Nat.ltb_spec 0 (length (failures api nodes (pos + batchSize)))) as [Hlt|Hlt]; simpl.
    + destruct (Nat.ltb_spec 0 (createDiff - (batchSize + pos))) as [Hs|Hs].
      * rewrite LowerExpectations_at, Z.sub_0_r. exists (pos + batchSize). split_and!; try lia.
        set (F := failures api nodes (pos + batchSize)) in *.
        by replace (Z.of_nat createDiff - Z.of_nat (length F) - Z.of_nat (createDiff - (batchSize + pos)))%Z
          with (Z.of_nat (pos + batchSize - length F)) by lia.
      * assert (pos + batchSize = createDiff) as E by lia. rewrite E in *.
        exists createDiff. split_and!; try lia. destruct fuel; simpl; rewrite Nat.ltb_irrefl; simpl;
          by replace (Z.of_nat createDiff - Z.of_nat (length (failures api nodes createDiff)))%Z
            with (Z.of_nat (createDiff - length (failures api nodes createDiff))) by lia.
    + assert (Hz : failures api nodes (pos + batchSize) = []) by (destruct (failures api nodes (pos + batchSize)); [done|simpl in *; lia]).
      rewrite Hz. simpl. rewrite Z.sub_0_r. apply IH; [lia|lia|lia|done].
Qed.

(** ** The decision on all nodes *)

(** All daemon pods. *)
Definition pool (m : gmap string (list DaemonPod)) : list DaemonPod := flat_map snd (map_to_list m).

Lemma pool_split (m : gmap string (list DaemonPod)) n pods : m !! n = Some pods -> pool m ≡ₚ pods ++ pool (delete n m).
Proof.
  intros E. unfold pool. rewrite <- (map_to_list_delete m n pods E). simpl. done.
Qed.

Lemma pool_elem (m : gmap string (list DaemonPod)) p : p ∈ pool m <-> exists n pods, m !! n = Some pods /\ p ∈ pods.
Proof.
  unfold pool. rewrite flat_map_concat_map, elem_concat_map. split.
  - intros ([n pods] & Hin%elem_of_map_to_list & Hp). by exists n, pods.
  - intros (n & pods & Hm & Hp). exists (n, pods). by rewrite elem_of_map_to_list.
Qed.

(** A pod is on one node. *)
Lemma pool_unique (m : gmap string (list DaemonPod)) n1 pods1 n2 pods2 p : NoDup (map q_Name (pool m)) ->
  m !! n1 = Some pods1 -> m !! n2 = Some pods2 -> p ∈ pods1 -> p ∈ pods2 -> n1 = n2.
Proof.
  intros Hn E1 E2 H1 H2. destruct (decide (n1 = n2)) as [|Hd]; [done|]. exfalso.
  rewrite (pool_split m n1 pods1 E1), map_app in Hn. apply list.NoDup_app in Hn as (_ & Hn & _).
  apply (Hn (q_Name p)); [by apply list_elem_of_fmap_2|]. apply list_elem_of_fmap_2, pool_elem.
  exists n2, pods2. by rewrite lookup_delete_ne.
Qed.

Lemma pool_node (m : gmap string (list DaemonPod)) n pods : NoDup (map q_Name (pool m)) -> m !! n = Some pods -> NoDup (map q_Name pods).
Proof.
  intros Hn E. rewrite (pool_split m n pods E), map_app in Hn. by apply list.NoDup_app in Hn as (? & _ & _).
Qed.

(** The unscheduled pods of unknown nodes. *)
Lemma unscheduled_spec nodeList entries :
  exists us, getUnscheduledPodsWithoutNode nodeList entries = map q_Name us /\
    forall p, p ∈ us <-> exists n pods, (n, pods) ∈ entries /\ n ∉ map n_Name nodeList /\ p ∈ pods /\ q_NodeName p = EmptyString.
Proof.
  unfold getUnscheduledPodsWithoutNode.
  exists (flat_map (fun '(n, pods) => if any (fun node => n_Name node =s n) nodeList then []
    else List.filter (fun pod => str_empty (q_NodeName pod)) pods) entries). split.
  { rewrite map_flat_map. apply flat_map_ext. intros [n pods]. by destruct (any _ _). }
  intros p. rewrite flat_map_concat_map, elem_concat_map.
  assert (Hany : forall n, any (fun node => n_Name node =s n) nodeList = false <-> n ∉ map n_Name nodeList).
  { intros n. rewrite any_false. setoid_rewrite bool_decide_eq_false. split.
    - intros Ha (node & -> & Hin)%list_elem_of_fmap. by apply (Ha node).
    - intros Hn node Hin <-. apply Hn. by apply list_elem_of_fmap_2. }
  split.
  - intros ([n pods] & Hin & Hp). exists n, pods. destruct (any _ nodeList) eqn:Ea; [set_solver|]. apply Hany in Ea.
    apply list_filter_spec in Hp as [Hp He%str_empty_true]. done.
  - intros (n & pods & Hin & Hn%Hany & Hp & He). exists (n, pods). rewrite Hn. split; [done|]. apply list_filter_spec.
    by rewrite str_empty_true.
Qed.

Section manage.
  Context `{DaemonDeps} (clock : nat -> Z).
  Context (ds : ShadowDaemonSet) (hash : string) (m : gmap string (list DaemonPod)).
  Hypothesis Hsurge : AllowsSurge ds = false.
  Hypothesis Hpool : NoDup (map q_Name (pool m)).

(** A node that should run a pod and has no entry. *)
Definition needs_pod (node : Node) : bool := fst (NodeShouldRunDaemonPod node ds) && bool_decide (m !! n_Name node = None).

(** The right pods of a node are deleted: all but the oldest live one, or all. *)
Definition pruned (node : Node) (xs : list DaemonPod) : Prop :=
  forall pods p, m !! n_Name node = Some pods -> p ∈ pods ->
    (snd (NodeShouldRunDaemonPod node ds) = true -> live p = true -> (p ∉ xs <-> oldest (List.filter live pods) p)) /\
    (snd (NodeShouldRunDaemonPod node ds) = false -> (p ∈ xs <-> q_Deleting p = false)).

Lemma one_node k node :
  exists k' xs, podsShouldBeOnNode clock k node m ds hash = (k', if needs_pod node then [n_Name node] else [], map q_Name xs) /\
    (forall x, x ∈ xs -> exists pods, m !! n_Name node = Some pods /\ x ∈ pods) /\ pruned node xs.
Proof.
  unfold needs_pod, pruned. destruct (m !! n_Name node) as [pods|] eqn:Em.
  - destruct (plain_node clock k node m ds hash pods Em (pool_node _ _ _ Hpool Em) Hsurge) as (k' & xs & -> & Hxs & Hk & Hd).
    exists k', xs. rewrite bool_decide_eq_false_2, andb_false_r by done. split; [done|]. split; [naive_solver|].
    intros pods' p [= <-] Hp. naive_solver.
  - rewrite empty_node, bool_decide_eq_true_2, andb_true_r by done. exists k, []. split; [done|]. split; [set_solver|done].
Qed.

(** Adding pods of other nodes to the list changes nothing for a node. *)
Lemma pruned_app node xs ys zs :
  (forall y, y ∈ ys ++ zs -> exists n pods, n <> n_Name node /\ m !! n = Some pods /\ y ∈ pods) ->
  pruned node xs -> pruned node (ys ++ xs ++ zs).
Proof.
  intros Ho Hp pods p Em Hin. destruct (Hp pods p Em Hin) as [H1 H2].
  assert (Hnot : p ∉ ys ++ zs).
  { intros (n & pods' & Hd & Em' & Hin')%Ho. apply Hd. by eapply (pool_unique m n pods' (n_Name node) pods p). }
  rewrite not_elem_of_app in Hnot. split; intros Hc; [intros Hl; rewrite <- H1 by done|rewrite <- H2 by done];
    rewrite !elem_of_app; tauto.
Qed.

Lemma on_nodes_spec k nodeList : NoDup (map n_Name nodeList) ->
  exists k' xs, on_nodes clock k nodeList m ds hash = (k', map n_Name (List.filter needs_pod nodeList), map q_Name xs) /\
    (forall x, x ∈ xs -> exists node pods, node ∈ nodeList /\ m !! n_Name node = Some pods /\ x ∈ pods) /\
    (forall node, node ∈ nodeList -> pruned node xs).
Proof.
  revert k. induction nodeList as [|node l IH]; intros k Hn; simpl; [exists k, []; set_solver|].
  apply list.NoDup_cons in Hn as [Hnot Hn]. destruct (one_node k node) as (k1 & xs & -> & Hxs & Hpr).
  destruct (IH k1 Hn) as (k2 & ys & -> & Hys & Hpl). exists k2, (xs ++ ys). split_and!.
  - rewrite map_app. by destruct (needs_pod node).
  - intros x [(pods & ? & ?)%Hxs|(node' & pods & ? & ? & ?)%Hys]%elem_of_app; [by exists node, pods; split; [left|]|].
    exists node', pods. by split; [right|].
  - assert (Hdiff : forall node', node' ∈ l -> n_Name node' <> n_Name node).
    { intros node' Hin E. apply Hnot. rewrite <- E. by apply list_elem_of_fmap_2. }
    intros node' [-> |Hin]%elem_of_cons.
    + apply (pruned_app node xs [] ys); [|done]. intros y (n' & pods & Hin & Em & Hy)%Hys. exists (n_Name n'), pods. auto.
    + rewrite <- (app_nil_r ys). apply (pruned_app node' ys xs []); [|by apply Hpl]. rewrite app_nil_r.
      intros y (pods & Em & Hy)%Hxs. exists (n_Name node), pods. split; [|done]. intros E. by apply (Hdiff node').
Qed.

End manage.

(** * Theorems *)

(** [syncNodes] always ends; within the burst limit it attempts the creations from
the front and all deletions, reports exactly their failures, and leaves as
expectations exactly the creations that did not fail and the deletions that
succeeded. It leaves creations out only after a failure, and then at most half of
those attempted, and one, have failed. *)
Theorem syncNodes_spec api burst key e pods nodes :
  exists a, let failed := failures api nodes a in
    let deletions := take burst pods in
    syncNodes api burst key e pods nodes =
      Some (<[key := (Z.of_nat (a - length failed), Z.of_nat (length (List.filter (fun p => negb (undeleted api p)) deletions)))]> e,
            failed ++ collect (delete_error api) deletions, a, length deletions) /\
    a <= Nat.min burst (length nodes) /\
    (a < Nat.min burst (length nodes) -> 0 < length failed /\ a <= 2 * (a - length failed) + 1).
Proof.
  unfold syncNodes, SetExpectations.
  assert (Hc : forall n, (if Nat.ltb burst n then burst else n) = Nat.min burst n) by (intros n; destruct (Nat.ltb_spec burst n); lia).
  rewrite !Hc. set (C := Nat.min burst (length nodes)).
  destruct (batches_spec api key nodes C (Z.of_nat (Nat.min burst (length pods))) e C (Nat.min C SlowStartInitialBatchSize) 0)
    as (a & -> & Ha & Hs); [lia|lia|unfold SlowStartInitialBatchSize; lia|done|].
  exists a. cbv zeta. rewrite delete_batch.
  assert (Ht : take (Nat.min burst (length pods)) pods = take burst pods).
  { destruct (Nat.le_ge_cases burst (length pods)); [by rewrite Nat.min_l|]. by rewrite Nat.min_r, !take_ge by lia. }
  rewrite Ht, length_take. split_and!; [|lia|apply Hs].
  pose proof (filter_lengths (undeleted api) (take burst pods)) as Hl. rewrite length_take in Hl.
  set (G := length (List.filter (undeleted api) (take burst pods))) in *.
  by replace (Z.of_nat (Nat.min burst (length pods)) - Z.of_nat G)%Z
    with (Z.of_nat (length (List.filter (fun p => negb (undeleted api p)) (take burst pods)))) by lia.
Qed.

(** Without surge, one round of [manage] creates a pod exactly on the nodes that
should run one and have no entry; on every node it leaves exactly the oldest live pod,
or none where pods may not stay, and it deletes exactly the unscheduled pods of nodes
that are gone. *)
Theorem manage_prunes `{DaemonDeps} clock visit k ds nodeList m hash :
  AllowsSurge ds = false -> NoDup (map q_Name (pool m)) -> NoDup (map n_Name nodeList) -> visit m ≡ₚ map_to_list m ->
  exists k' del, manage_decision clock visit k ds nodeList m hash = (k', map n_Name (List.filter (needs_pod ds m) nodeList), del) /\
    forall n pods p, m !! n = Some pods -> p ∈ pods ->
      (forall node, node ∈ nodeList -> n_Name node = n ->
        (snd (NodeShouldRunDaemonPod node ds) = true -> live p = true -> (q_Name p ∉ del <-> oldest (List.filter live pods) p)) /\
        (snd (NodeShouldRunDaemonPod node ds) = false -> (q_Name p ∈ del <-> q_Deleting p = false))) /\
      (n ∉ map n_Name nodeList -> (q_Name p ∈ del <-> q_NodeName p = EmptyString)).
Proof.
  intros Hs Hpool Hn Hv. unfold manage_decision.
  destruct (on_nodes_spec clock ds hash m Hs Hpool k nodeList Hn) as (k' & xs & -> & Hxs & Hpr).
  destruct (unscheduled_spec nodeList (visit m)) as (us & -> & Hus). setoid_rewrite Hv in Hus. setoid_rewrite elem_of_map_to_list in Hus.
  exists k', (map q_Name (xs ++ us)). rewrite map_app. split; [done|]. intros n pods p Em Hp. rewrite <- map_app.
  assert (Hin : q_Name p ∈ map q_Name (xs ++ us) <-> p ∈ xs ++ us).
  { apply (in_names (pool m)); [done|by apply pool_elem; eauto|]. intros q [(node & pods' & _ & ? & ?)%Hxs|(n' & pods' & ? & _ & ? & _)%Hus]%elem_of_app; apply pool_elem; eauto. }
  split.
  - intros node Hnode <-. assert (Hu : p ∉ us).
    { intros (n' & pods' & Em' & Hnot & Hp' & _)%Hus. apply Hnot. rewrite (pool_unique m n' pods' _ pods p Hpool Em' Em Hp' Hp).
      by apply list_elem_of_fmap_2. }
    destruct (Hpr node Hnode pods p Em Hp) as [H1 H2].
    split; intros Hc; [intros Hl; rewrite <- H1 by done|rewrite <- H2 by done]; rewrite Hin, elem_of_app; tauto.
  - intros Hnot. assert (Hx : p ∉ xs).
    { intros (node & pods' & Hnode & Em' & Hp')%Hxs. apply Hnot. rewrite <- (pool_unique m _ pods' n pods p Hpool Em' Em Hp' Hp).
      by apply list_elem_of_fmap_2. }
    rewrite Hin, elem_of_app, Hus. split.
    + intros [?|(n' & pods' & _ & _ & _ & ?)]; done.
    + intros He. right. by exists n, pods.
Qed.

(** * An example *)

#[local] Instance ex_sync_deps : DaemonDeps :=
  mkDaemonDeps Z (fun z => z) (fun v _ => match v with Some z => inl z | None => inr "nil value for IntOrString" end)
    unit (fun _ _ => true) (fun _ l => l) unit (fun _ _ _ => false) (fun b _ _ => b) (fun _ _ => 0%Z)
    unit (fun _ => false) (fun _ => inl (false, fun _ => true)).

Definition ex_sync_set : ShadowDaemonSet :=
  mkDaemonSet _ "agent" "kube" "u" 1 ∅ "host" "" false tt [] RollingUpdateDaemonSetStrategyType
    (Some (mkRolling _ (Some 1%Z) (Some 0%Z))) 0 None (mkDaemonStatus 0 0 0 0 0 0 0 0 None) false tt ∅ "".
Definition ex_spod (name node : string) (created : Z) : DaemonPod := mkDaemonPod name ∅ node false "Running" created None "kube" ∅ None "".
(** Two pods on one node, none on the second, and a pod waiting for a third that is gone. *)
Definition ex_sync_nodes : list Node := [mkNode "n1" ∅ ∅ []; mkNode "n2" ∅ ∅ []].
Definition ex_sync_map : gmap string (list DaemonPod) :=
  {[ "n1" := [ex_spod "a" "n1" 4; ex_spod "b" "n1" 3]; "n3" := [ex_spod "c" "" 1] ]}.
Definition ex_sync_control : Control := mkControl tt 0 [].

Example ex_manage : snd (manage_decision (fun _ => 0%Z) map_to_list ex_sync_control ex_sync_set ex_sync_nodes ex_sync_map "h") = ["a"; "c"].
Proof. vm_compute. reflexivity. Qed.

Lemma manage_prunes_witness :
  exists k' del, manage_decision (fun _ => 0%Z) map_to_list ex_sync_control ex_sync_set ex_sync_nodes ex_sync_map "h" =
      (k', map n_Name (List.filter (needs_pod ex_sync_set ex_sync_map) ex_sync_nodes), del) /\
    forall n pods p, ex_sync_map !! n = Some pods -> p ∈ pods ->
      (forall node, node ∈ ex_sync_nodes -> n_Name node = n ->
        (snd (NodeShouldRunDaemonPod node ex_sync_set) = true -> live p = true -> (q_Name p ∉ del <-> oldest (List.filter live pods) p)) /\
        (snd (NodeShouldRunDaemonPod node ex_sync_set) = false -> (q_Name p ∈ del <-> q_Deleting p = false))) /\
      (n ∉ map n_Name ex_sync_nodes -> (q_Name p ∈ del <-> q_NodeName p = EmptyString)).
Proof.
  apply (manage_prunes (fun _ => 0%Z) map_to_list ex_sync_control ex_sync_set ex_sync_nodes ex_sync_map "h");
    [reflexivity|vm_compute; repeat constructor; set_solver|vm_compute; repeat constructor; set_solver|reflexivity].
Defined.
