(* ===== verification/Calls.v ===== *)
(** Controllers as functions on the contents of API servers whose calls may fail.

A server is any state that counts the calls made ([Server]); [call] makes the next one
fail when the oracle [fails] says so, and then it has no effect. [runs] states what holds
of every way a function can end: with a value, with an error, never with a panic. *)
From S2P Require Import Prelude.

(** A call or a function of a controller: a value, an error or a panic. *)
Inductive answer (E A : Type) := Good (a : A) | Bad (err : E) | Fault.
Arguments Good {E A} a.
Arguments Bad {E A} err.
Arguments Fault {E A}.

Definition M (W E A : Type) : Type := W -> W * answer E A.

Definition mok {W E A} (a : A) : M W E A := fun w => (w, Good a).
Definition merr {W E A} (err : E) : M W E A := fun w => (w, Bad err).
Definition mfault {W E A} : M W E A := fun w => (w, Fault).
Definition mseq {W E A B} (m : M W E A) (f : A -> M W E B) : M W E B := fun w =>
  match m w with (w, Good a) => f a w | (w, Bad err) => (w, Bad err) | (w, Fault) => (w, Fault) end.
Definition mlift {W E A} (r : A + E) : M W E A := match r with inl a => mok a | inr err => merr err end.
(** The code looks at the error and goes on. *)
Definition mtry {W E A B} (m : M W E A) (f : A -> M W E B) (g : E -> M W E B) : M W E B := fun w =>
  match m w with (w, Good a) => f a w | (w, Bad err) => g err w | (w, Fault) => (w, Fault) end.

Declare Scope world_scope.
Delimit Scope world_scope with world.
Notation "'do!' x ':=' m 'in' f" := (mseq m (fun x => f))
  (at level 200, x name, m at level 100, f at level 200) : world_scope.
Notation "'do!' ' x ':=' m 'in' f" := (mseq m (fun x => f))
  (at level 200, x strict pattern, m at level 100, f at level 200) : world_scope.
Open Scope world_scope.

(** ** Servers *)

Class Server (W : Type) := mkServer { calls_made : W -> nat; next_call : W -> W }.

Section calls.
  Context {W E : Type} `{Server W} (fails : nat -> option E).

Definition call {A} (f : W -> W * answer E A) : M W E A := fun w =>
  match fails (calls_made w) with Some err => (next_call w, Bad err) | None => f (next_call w) end.

Definition call_failed : Prop := exists n err, fails n = Some err.

End calls.

(** ** Every way to end *)

(** Every result of [m] started in [w]: a value with [Q], an error with [X], no panic. *)
Definition runs {W E A} (m : M W E A) (w : W) (X : W -> Prop) (Q : A -> W -> Prop) : Prop :=
  match m w with (w, Good a) => Q a w | (w, Bad _) => X w | (_, Fault) => False end.

Section rules.
  Context {W E : Type}.
  Implicit Types (w : W) (X : W -> Prop).

Lemma runs_ok {A} (a : A) w X (Q : A -> W -> Prop) : Q a w -> runs (mok a : M W E A) w X Q.
Proof. done. Qed.

Lemma runs_seq {A B} (m : M W E A) (f : A -> M W E B) w X (Q : B -> W -> Prop) :
  runs m w X (fun a w' => runs (f a) w' X Q) -> runs (mseq m f) w X Q.
Proof. unfold runs, mseq. by destruct (m w) as [w' [a|err|]]. Qed.

Lemma runs_mono {A} (m : M W E A) w X (X' : W -> Prop) (Q Q' : A -> W -> Prop) :
  runs m w X Q -> (forall w', X w' -> X' w') -> (forall a w', Q a w' -> Q' a w') -> runs m w X' Q'.
Proof. unfold runs. destruct (m w) as [w' [a|err|]]; eauto. Qed.

Lemma runs_call `{Server W} (fails : nat -> option E) {A} (f : W -> W * answer E A) w X Q :
  (call_failed fails -> X (next_call w)) -> runs f (next_call w) X Q -> runs (call fails f) w X Q.
Proof.
  intros HX. unfold runs at 2, call. destruct (fails (calls_made w)) as [err|] eqn:Ef; [|done].
  intros _. apply HX. by exists (calls_made w), err.
Qed.

End rules.
