(* ===== verification/DaemonHistory.v ===== *)
(** The controller revisions of a daemon set:
clustertree/cluster-manager/extensions/daemonset/update.go from [constructHistory] on, and
[getDaemonPods], [getNodesToDaemonPods] of host_daemon_controller.go.

The code runs against [World], what the API server stores; any call can fail ([fails], by
the number of the call). The informers' caches are functions of the number of calls made,
so that they may lag behind the store in any way. The reference managers of Kubernetes,
which adopt and release pods and revisions, the JSON of a set and the hash of a template
are parameters. *)
From S2P Require Import Prelude GoStr GoJson LinkApi SchedPolicy Calls DaemonApi DaemonNode DaemonRolling DaemonSync.

Definition ClusterAnnotationKey : string := "kosmos.io/managed-cluster".
Definition ShadowControllerKind : string := "ShadowDaemonSet".

(** ** Revisions and what the API server stores *)

Record ControllerRevision := mkRevision {
  r_Name : string; r_Namespace : string; r_Labels : option (gmap string string); r_Annotations : gmap string string;
  r_Controller : option OwnerReference; r_Data : string; r_Revision : Z; r_Deleting : bool; r_ResourceVersion : string }.

#[export] Instance ControllerRevision_eq_dec : EqDecision ControllerRevision.
Proof. solve_decision. Defined.

(** [w_native] is the native daemon set with the name of the shadow set (its collision
count), [w_set] the stored status of the shadow set; the rest is by name. *)
Record World := mkWorld {
  w_calls : nat; w_revisions : gmap string ControllerRevision; w_pods : gmap string DaemonPod;
  w_native : option (option Z); w_set : option DaemonSetStatus }.

Definition tick (w : World) : World := mkWorld (S (w_calls w)) (w_revisions w) (w_pods w) (w_native w) (w_set w).
Definition with_revisions (w : World) (m : gmap string ControllerRevision) : World := mkWorld (w_calls w) m (w_pods w) (w_native w) (w_set w).
Definition with_pods (w : World) (m : gmap string DaemonPod) : World := mkWorld (w_calls w) (w_revisions w) m (w_native w) (w_set w).
Definition with_native (w : World) (c : option Z) : World := mkWorld (w_calls w) (w_revisions w) (w_pods w) (Some c) (w_set w).
Definition with_status (w : World) (st : DaemonSetStatus) : World := mkWorld (w_calls w) (w_revisions w) (w_pods w) (w_native w) (Some st).

#[export] Instance World_server : Server World := mkServer _ w_calls tick.

Abbreviation answer := (Calls.answer string).
Abbreviation M := (Calls.M World string).

Definition int32 (z : Z) : Z := ((z + 2 ^ 31) mod 2 ^ 32 - 2 ^ 31)%Z.
Definition int64 (z : Z) : Z := ((z + 2 ^ 63) mod 2 ^ 64 - 2 ^ 63)%Z.

(** ** JSON objects, as far as [getPatch] looks into them *)

(** [JText] is any value that is not an object, as it is printed; the members of an
object are in the order of their names, in which Go prints a map. *)
Inductive json := JText (text : string) | JObj (members : list (string * json)).

Fixpoint json_print (j : json) : string :=
  match j with
  | JText text => text
  | JObj members => object (map (fun '(k, v) => field k (json_print v)) members)
  end.

Fixpoint json_get (k : string) (members : list (string * json)) : option json :=
  match members with
  | [] => None
  | (k', v) :: rest => if k =s k' then Some v else json_get k rest
  end.

Fixpoint json_set (k : string) (v : json) (members : list (string * json)) : list (string * json) :=
  match members with
  | [] => [(k, v)]
  | (k', v') :: rest =>
      if k =s k' then (k, v) :: rest
      else if String.leb k k' then (k, v) :: members else (k', v') :: json_set k v rest
  end.

Section history.
  Context `{DaemonDeps}.
  (** [fails n] is the error of the [n]th call, if it fails without effect. *)
  Context (fails : nat -> option string).
  (** What the informers list, and what Kubernetes' reference managers claim of it. *)
  Context (podLister : nat -> result (list DaemonPod)) (historyLister : nat -> result (list ControllerRevision)).
  Context (ClaimPods : ShadowDaemonSet -> nat -> list DaemonPod -> result (list DaemonPod)).
  Context (ClaimControllerRevisions : ShadowDaemonSet -> nat -> list ControllerRevision -> result (list ControllerRevision)).
  (** [util.GetTargetNodeName]; [None] when the pod names no node. *)
  Context (GetTargetNodeName : DaemonPod -> option string).
  (** The members [json.Unmarshal] reads from [json.Marshal(ds)], and [controller.ComputeHash]. *)
  Context (ToMap : ShadowDaemonSet -> result (list (string * json))) (ComputeHash : ShadowDaemonSet -> string).

(** ** Calls *)

(** [None]: a revision of the name exists. *)
Definition CreateRevision (r : ControllerRevision) : M (option ControllerRevision) := call fails (fun w =>
  match w_revisions w !! r_Name r with
  | Some _ => (w, Good None)
  | None => (with_revisions w (<[r_Name r := r]> (w_revisions w)), Good (Some r))
  end).

Definition GetRevision (name : string) : M ControllerRevision := call fails (fun w =>
  match w_revisions w !! name with Some r => (w, Good r) | None => (w, Bad (name +:+ " not found")) end).

Definition UpdateRevision (r : ControllerRevision) : M ControllerRevision := call fails (fun w =>
  match w_revisions w !! r_Name r with
  | Some _ => (with_revisions w (<[r_Name r := r]> (w_revisions w)), Good r)
  | None => (w, Bad (r_Name r +:+ " not found"))
  end).

Definition DeleteRevision (name : string) : M unit := call fails (fun w =>
  match w_revisions w !! name with
  | Some _ => (with_revisions w (delete name (w_revisions w)), Good tt)
  | None => (w, Bad (name +:+ " not found"))
  end).

Definition relabel (hash : string) (p : DaemonPod) : DaemonPod :=
  mkDaemonPod (q_Name p) (<[ControllerRevisionHashLabelKey := hash]> (q_Labels p)) (q_NodeName p) (q_Deleting p) (q_Phase p)
    (q_Created p) (q_Ready p) (q_Namespace p) (q_Annotations p) (q_Controller p) (q_ResourceVersion p).

Definition PatchPod (name hash : string) : M unit := call fails (fun w =>
  match w_pods w !! name with
  | Some p => (with_pods w (<[name := relabel hash p]> (w_pods w)), Good tt)
  | None => (w, Bad (name +:+ " not found"))
  end).

Definition GetNative (name : string) : M (option Z) := call fails (fun w =>
  match w_native w with Some c => (w, Good c) | None => (w, Bad (name +:+ " not found")) end).

Definition UpdateNativeStatus (name : string) (c : option Z) : M unit := call fails (fun w =>
  match w_native w with Some _ => (with_native w c, Good tt) | None => (w, Bad (name +:+ " not found")) end).

(** ** The pods of a set *)

Definition getDaemonPods (ds : ShadowDaemonSet) : M (list DaemonPod) := fun w =>
  (do! _ := mlift (LabelSelectorAsSelector (ds_Selector ds)) in
   do! allPods := mlift (podLister (w_calls w)) in
   mlift (ClaimPods ds (w_calls w) (List.filter (fun pod => str_empty (default EmptyString (q_Annotations pod !! ClusterAnnotationKey))) allPods)))
    (tick w).

Definition group_pods (claimedPods : list DaemonPod) : gmap string (list DaemonPod) :=
  fold_left (fun m pod =>
    match GetTargetNodeName pod with
    | None => m
    | Some nodeName => <[nodeName := default [] (m !! nodeName) ++ [pod]]> m
    end) claimedPods ∅.

Definition getNodesToDaemonPods (ds : ShadowDaemonSet) : M (gmap string (list DaemonPod)) :=
  do! claimedPods := getDaemonPods ds in mok (group_pods claimedPods).

(** ** The revisions of a set *)

Definition controlledHistories (ds : ShadowDaemonSet) : M (list ControllerRevision) := fun w =>
  (do! _ := mlift (LabelSelectorAsSelector (ds_Selector ds)) in
   do! histories := mlift (historyLister (w_calls w)) in
   mlift (ClaimControllerRevisions ds (w_calls w) histories)) (tick w).

(** The type assertions panic when a member is missing or not an object. *)
Definition getPatch (ds : ShadowDaemonSet) : answer string :=
  match ToMap ds with
  | inr err => Bad err
  | inl raw =>
      match json_get "daemonSetSpec" raw with
      | Some (JObj spec) =>
          match json_get "template" spec with
          | Some (JObj template) =>
              Good (json_print (JObj [("spec", JObj [("template", JObj (json_set "$patch" (JText (json_string "replace")) template))])]))
          | _ => Fault
          end
      | _ => Fault
      end
  end.

Definition Match (ds : ShadowDaemonSet) (history : ControllerRevision) : M bool := fun w =>
  (w, match getPatch ds with Good patch => Good (patch =s r_Data history) | Bad err => Bad err | Fault => Fault end).

Definition label_of (r : ControllerRevision) : string := default EmptyString (default ∅ (r_Labels r) !! ControllerRevisionHashLabelKey).

Definition with_labels (r : ControllerRevision) (l : gmap string string) : ControllerRevision :=
  mkRevision (r_Name r) (r_Namespace r) (Some l) (r_Annotations r) (r_Controller r) (r_Data r) (r_Revision r) (r_Deleting r) (r_ResourceVersion r).
Definition with_revision (r : ControllerRevision) (n : Z) : ControllerRevision :=
  mkRevision (r_Name r) (r_Namespace r) (r_Labels r) (r_Annotations r) (r_Controller r) (r_Data r) n (r_Deleting r) (r_ResourceVersion r).

Definition maxRevision (histories : list ControllerRevision) : Z :=
  fold_left (fun max history => if (max <? r_Revision history)%Z then r_Revision history else max) histories 0%Z.

(** The current history to keep: the last of those with the highest number. *)
Definition keep_cur (curHistories : list ControllerRevision) : option ControllerRevision * Z :=
  fold_left (fun '(keepCur, maxRevision) cur =>
    if (maxRevision <=? r_Revision cur)%Z then (Some cur, r_Revision cur) else (keepCur, maxRevision)) curHistories (None, 0%Z).

Fixpoint relabel_pods (hash : string) (pods : list DaemonPod) : M unit :=
  match pods with
  | [] => mok tt
  | pod :: rest =>
      do! _ := (if default EmptyString (q_Labels pod !! ControllerRevisionHashLabelKey) =s hash then mok tt else PatchPod (q_Name pod) hash) in
      relabel_pods hash rest
  end.

Fixpoint remove_duplicates (ds : ShadowDaemonSet) (keepCur : ControllerRevision) (curHistories : list ControllerRevision) : M unit :=
  match curHistories with
  | [] => mok tt
  | cur :: rest =>
      if r_Name cur =s r_Name keepCur then remove_duplicates ds keepCur rest
      else
        do! pods := getDaemonPods ds in
        do! _ := relabel_pods (label_of keepCur) pods in
        do! _ := DeleteRevision (r_Name cur) in
        remove_duplicates ds keepCur rest
  end.

(** When every number is negative no history is kept and its name is read from nil. *)
Definition dedupCurHistories (ds : ShadowDaemonSet) (curHistories : list ControllerRevision) : M ControllerRevision :=
  match curHistories with
  | [cur] => mok cur
  | _ =>
      match fst (keep_cur curHistories) with
      | None => mfault
      | Some keepCur => do! _ := remove_duplicates ds keepCur curHistories in mok keepCur
      end
  end.

Definition snapshot (ds : ShadowDaemonSet) (revision : Z) : M ControllerRevision :=
  do! patch := (fun w => (w, getPatch ds)) in
  let hash := ComputeHash ds in
  let name := ds_Name ds +:+ "-" +:+ hash in
  let history := mkRevision name (ds_Namespace ds) (Some (<[ControllerRevisionHashLabelKey := hash]> (tpl_Labels ds))) (ds_Annotations ds)
    (Some (mkOwner ShadowControllerKind (ds_Name ds) (ds_UID ds) "")) patch revision false "" in
  do! created := CreateRevision history in
  match created with
  | Some history => mok history
  | None =>
      do! existedHistory := GetRevision name in
      do! done := Match ds existedHistory in
      if (done : bool) then mok existedHistory
      else
        do! count := GetNative (ds_Name ds) in
        if negb (bool_decide (count = CollisionCount (ds_Status ds)))
        then merr "found a stale collision count"
        else
          do! _ := UpdateNativeStatus (ds_Name ds) (Some (int32 (default 0%Z count + 1))) in
          merr (name +:+ " already exists")
  end.

(** The loop of [constructHistory]: (currentHistories, old). *)
Fixpoint split_histories (ds : ShadowDaemonSet) (histories currentHistories old : list ControllerRevision)
    : M (list ControllerRevision * list ControllerRevision) :=
  match histories with
  | [] => mok (currentHistories, old)
  | history :: rest =>
      do! history :=
        (match default ∅ (r_Labels history) !! ControllerRevisionHashLabelKey with
         | Some _ => mok history
         | None =>
             match r_Labels history with
             | None => mfault
             | Some l => UpdateRevision (with_labels history (<[ControllerRevisionHashLabelKey := r_Name history]> l))
             end
         end) in
      do! found := Match ds history in
      if (found : bool) then split_histories ds rest (currentHistories ++ [history]) old
      else split_histories ds rest currentHistories (old ++ [history])
  end.

Definition constructHistory (ds : ShadowDaemonSet) : M (ControllerRevision * list ControllerRevision) :=
  do! histories := controlledHistories ds in
  do! '(currentHistories, old) := split_histories ds histories [] [] in
  let currRevision := int64 (maxRevision old + 1) in
  match currentHistories with
  | [] => do! cur := snapshot ds currRevision in mok (cur, old)
  | _ =>
      do! cur := dedupCurHistories ds currentHistories in
      if (r_Revision cur <? currRevision)%Z
      then do! _ := UpdateRevision (with_revision cur currRevision) in mok (cur, old)
      else mok (cur, old)
  end.

(** ** Cleaning up *)

Definition revision_le (a b : ControllerRevision) : Prop := (r_Revision a <= r_Revision b)%Z.
#[export] Instance revision_le_dec : RelDecision revision_le.
Proof. intros a b. unfold revision_le. apply _. Defined.
Definition historiesByRevision (l : list ControllerRevision) : list ControllerRevision := merge_sort revision_le l.

(** The hashes of the live pods. *)
Definition live_hashes (nodesToDaemonPods : gmap string (list DaemonPod)) : gset string :=
  list_to_set (List.filter (fun hash => negb (str_empty hash))
    (map (fun pod => default EmptyString (q_Labels pod !! ControllerRevisionHashLabelKey)) (pool nodesToDaemonPods))).

Fixpoint clean_histories (liveHashes : gset string) (toKill : Z) (old : list ControllerRevision) : M unit :=
  match old with
  | [] => mok tt
  | history :: rest =>
      if (toKill <=? 0)%Z then mok tt
      else if bool_decide (label_of history ∈ liveHashes) then clean_histories liveHashes toKill rest
      else do! _ := DeleteRevision (r_Name history) in clean_histories liveHashes (toKill - 1) rest
  end.

(** [SetDefaults_ShadowDaemonSet] has set the limit; the set with its defaults, which the
code writes in place, is [SetDefaults_ShadowDaemonSet ds]. *)
Definition cleanupHistory (ds0 : ShadowDaemonSet) (old : list ControllerRevision) : M unit :=
  let ds := SetDefaults_ShadowDaemonSet ds0 in
  do! nodesToDaemonPods := (fun w => match getNodesToDaemonPods ds w with
    | (w, Bad err) => (w, Bad ("couldn't get node to daemon pod mapping for daemon set " +:+ ds_Name ds +:+ ": " +:+ err))
    | r => r end) in
  match RevisionHistoryLimit ds with
  | None => mfault
  | Some toKeep =>
      let toKill := (Z.of_nat (length old) - toKeep)%Z in
      if (toKill <=? 0)%Z then mok tt
      else clean_histories (live_hashes nodesToDaemonPods) toKill (historiesByRevision old)
  end.

End history.

(** ** Reasoning about calls *)

Section calls.
  Context (fails : nat -> option string).
  Abbreviation call_failed := (call_failed fails).

Lemma runs_UpdateRevision r w (E : World -> Prop) Q : is_Some (w_revisions w !! r_Name r) -> (call_failed -> E (tick w)) ->
  Q r (with_revisions (tick w) (<[r_Name r := r]> (w_revisions w))) -> runs (UpdateRevision fails r) w E Q.
Proof. intros [r' Hr] HE HQ. apply runs_call; [done|]. unfold runs. simpl. by rewrite Hr. Qed.

Lemma runs_DeleteRevision name w (E : World -> Prop) Q : is_Some (w_revisions w !! name) -> (call_failed -> E (tick w)) ->
  Q tt (with_revisions (tick w) (delete name (w_revisions w))) -> runs (DeleteRevision fails name) w E Q.
Proof. intros [r' Hr] HE HQ. apply runs_call; [done|]. unfold runs. simpl. by rewrite Hr. Qed.

Lemma runs_PatchPod name hash w (E : World -> Prop) (Q : unit -> World -> Prop) :
  (call_failed \/ name ∉ dom (w_pods w) -> E (tick w)) ->
  (forall m, dom m = dom (w_pods w) -> Q tt (with_pods (tick w) m)) -> runs (PatchPod fails name hash) w E Q.
Proof.
  intros HE HQ. apply runs_call; [tauto|]. unfold runs. simpl. destruct (w_pods w !! name) as [p|] eqn:Hp.
  - apply HQ. rewrite dom_insert_L. apply elem_of_dom_2 in Hp. set_solver.
  - apply HE. right. by apply not_elem_of_dom.
Qed.

(** Relabelling changes no revision; it fails only when a call does or a pod is gone. *)
Lemma relabel_pods_spec hash pods : forall w (E : World -> Prop),
  (call_failed \/ (exists p, p ∈ pods /\ q_Name p ∉ dom (w_pods w)) -> forall w', E w') ->
  runs (relabel_pods fails hash pods) w E
    (fun _ w' => w_revisions w' = w_revisions w /\ dom (w_pods w') = dom (w_pods w)).
Proof.
  induction pods as [|p pods IH]; intros w E HE; [done|]. simpl. apply runs_seq.
  assert (HE' : call_failed \/ (exists q, q ∈ pods /\ q_Name q ∉ dom (w_pods w)) -> forall w', E w').
  { intros [?|(q & ? & ?)]; apply HE; [by left|]. right. exists q. split; [by right|done]. }
  case_bool_decide.
  - apply runs_ok. by apply IH.
  - apply runs_PatchPod; [intros [?|?]; apply HE; [by left|right; exists p; split; [by left|done]]|]. intros m Hm.
    eapply runs_mono; [apply (IH _ E)|done|]; simpl; [by rewrite Hm|].
    intros _ w' [-> ->]. by rewrite Hm.
Qed.

End calls.

(** ** The current revision *)

(** A revision with its unique label. *)
Definition labelled (h : ControllerRevision) : ControllerRevision :=
  match default ∅ (r_Labels h) !! ControllerRevisionHashLabelKey with
  | Some _ => h
  | None => with_labels h (<[ControllerRevisionHashLabelKey := r_Name h]> (default ∅ (r_Labels h)))
  end.

Lemma labelled_same h : r_Name (labelled h) = r_Name h /\ r_Data (labelled h) = r_Data h /\ r_Revision (labelled h) = r_Revision h.
Proof. unfold labelled. by destruct (_ !! _). Qed.

Lemma labelled_Name h : r_Name (labelled h) = r_Name h. Proof. apply labelled_same. Qed.
Lemma labelled_Data h : r_Data (labelled h) = r_Data h. Proof. apply labelled_same. Qed.
Lemma labelled_Revision h : r_Revision (labelled h) = r_Revision h. Proof. apply labelled_same. Qed.
#[export] Hint Rewrite labelled_Name labelled_Data labelled_Revision : kosmos.

Lemma labelled_names hs : map r_Name (map labelled hs) = map r_Name hs.
Proof. rewrite map_map. apply map_ext. intros h. apply labelled_Name. Qed.

Lemma elem_names (hs : list ControllerRevision) h : h ∈ hs -> r_Name h ∈ map r_Name hs.
Proof. intros Hh. apply list_elem_of_In, in_map, list_elem_of_In. done. Qed.

Definition is_cur (patch : string) (h : ControllerRevision) : bool := patch =s r_Data h.
Definition is_past (patch : string) (h : ControllerRevision) : bool := negb (is_cur patch h).

Lemma maxRevision_ge hs : forall acc h, h ∈ hs \/ (r_Revision h <= acc)%Z ->
  (r_Revision h <= fold_left (fun max history => if (max <? r_Revision history)%Z then r_Revision history else max) hs acc)%Z.
Proof.
  induction hs as [|x hs IH]; simpl; intros acc h Hh; [destruct Hh as [Hh%not_elem_of_nil|]; [done|lia]|].
  apply IH. destruct Hh as [[-> |Hh]%elem_of_cons|Hh]; [|by left|]; right; destruct (Z.ltb_spec acc (r_Revision x)); lia.
Qed.

Lemma maxRevision_bound hs b : (0 <= b)%Z -> (forall h, h ∈ hs -> (r_Revision h <= b)%Z) -> (0 <= maxRevision hs <= b)%Z.
Proof.
  intros Hb Hh. unfold maxRevision.
  enough (G : forall acc, (0 <= acc <= b)%Z -> (0 <= fold_left (fun max history =>
    if (max <? r_Revision history)%Z then r_Revision history else max) hs acc <= b)%Z) by (apply G; lia).
  induction hs as [|x hs IH]; simpl; intros acc Hacc; [lia|]. apply IH; [intros h ?; apply Hh; by right|].
  specialize (Hh x ltac:(by left)). destruct (Z.ltb_spec acc (r_Revision x)); lia.
Qed.

(** Of the current histories one with the highest number is kept. *)
Lemma keep_cur_spec cs : cs <> [] -> (forall c, c ∈ cs -> (0 <= r_Revision c)%Z) ->
  exists k, fst (keep_cur cs) = Some k /\ k ∈ cs.
Proof.
  intros Hne Hpos. unfold keep_cur.
  assert (G : forall l acc, (forall c, c ∈ l -> (0 <= r_Revision c)%Z) ->
    (acc = (None, 0%Z) /\ l <> [] \/ exists k, acc = (Some k, r_Revision k) /\ k ∈ cs) -> (forall c, c ∈ l -> c ∈ cs) ->
    exists k, fst (fold_left (fun '(keepCur, maxRevision) cur => if (maxRevision <=? r_Revision cur)%Z
      then (Some cur, r_Revision cur) else (keepCur, maxRevision)) l acc) = Some k /\ k ∈ cs).
  { induction l as [|x l IH]; simpl; intros acc Hp Hacc Hin.
    - destruct Hacc as [[_ ?]|(k & -> & ?)]; [done|]. by exists k.
    - apply IH; [intros c ?; apply Hp; by right| |intros c ?; apply Hin; by right].
      right. destruct Hacc as [[-> _]|(k & -> & Hk)].
      + specialize (Hp x ltac:(by left)). destruct (Z.leb_spec 0 (r_Revision x)); [|lia]. exists x. split; [done|apply Hin; by left].
      + destruct (Z.leb_spec (r_Revision k) (r_Revision x)); [exists x|exists k]; split; try done. apply Hin; by left. }
  apply G; auto.
Qed.

Section current.
  Context `{DaemonDeps} (fails : nat -> option string) (podLister : nat -> result (list DaemonPod)).
  Context (historyLister : nat -> result (list ControllerRevision)).
  Context (ClaimPods : ShadowDaemonSet -> nat -> list DaemonPod -> result (list DaemonPod)).
  Context (ClaimControllerRevisions : ShadowDaemonSet -> nat -> list ControllerRevision -> result (list ControllerRevision)).
  Context (ToMap : ShadowDaemonSet -> result (list (string * json))) (ComputeHash : ShadowDaemonSet -> string).
  Context (ds : ShadowDaemonSet) (patch : string) (Hpatch : getPatch ToMap ds = Good patch).

(** Some listing of the pods of the set fails, or shows a pod the server does not know. *)
Definition pods_unlisted (stored : gset string) : Prop :=
  exists w, match snd (getDaemonPods podLister ClaimPods ds w) with
  | Good pods => exists p, p ∈ pods /\ q_Name p ∉ stored
  | _ => True
  end.

Lemma runs_getDaemonPods w stored (E : World -> Prop) Q : (pods_unlisted stored -> forall w', E w') ->
  (forall pods, ((exists p, p ∈ pods /\ q_Name p ∉ stored) -> pods_unlisted stored) -> Q pods (tick w)) ->
  runs (getDaemonPods podLister ClaimPods ds) w E Q.
Proof.
  intros HE HQ. unfold pods_unlisted in *. unfold runs.
  assert (Hw : getDaemonPods podLister ClaimPods ds w = (tick w, snd (getDaemonPods podLister ClaimPods ds w)) /\
    snd (getDaemonPods podLister ClaimPods ds w) <> Fault).
  { unfold getDaemonPods, mseq, mlift. destruct (LabelSelectorAsSelector (ds_Selector ds)); [|done]. simpl.
    destruct (podLister (w_calls w)); [|done]. simpl. by destruct (ClaimPods _ _ _). }
  destruct Hw as [-> Hf]. destruct (snd (getDaemonPods podLister ClaimPods ds w)) as [pods|err|] eqn:Es; [|apply HE; exists w; by rewrite Es|done].
  apply HQ. intros Hp. exists w. by rewrite Es.
Qed.

Lemma runs_match h w E (Q : bool -> World -> Prop) : Q (is_cur patch h) w -> runs (Match ToMap ds h) w E Q.
Proof. unfold runs, Match. by rewrite Hpatch. Qed.

Lemma split_spec hs : forall cs os w (E : World -> Prop), NoDup (map r_Name hs) -> (forall h, h ∈ hs -> w_revisions w !! r_Name h = Some h) ->
  (forall h, h ∈ hs -> is_Some (r_Labels h)) -> (call_failed fails -> forall w', E w') ->
  runs (split_histories fails ToMap ds hs cs os) w E (fun r w' =>
    r = (cs ++ List.filter (is_cur patch) (map labelled hs), os ++ List.filter (is_past patch) (map labelled hs)) /\
    w_pods w' = w_pods w /\ (forall h, h ∈ hs -> w_revisions w' !! r_Name h = Some (labelled h)) /\
    (forall n, n ∉ map r_Name hs -> w_revisions w' !! n = w_revisions w !! n)).
Proof.
  induction hs as [|h hs IH]; intros cs os w E Hnd Hst Hl HE; simpl.
  { apply runs_ok. rewrite !app_nil_r. split_and!; try done. by intros h ?%not_elem_of_nil. }
  apply list.NoDup_cons in Hnd as [Hh Hnd]. apply runs_seq.
  assert (K : forall w1, w_pods w1 = w_pods w -> w_revisions w1 !! r_Name h = Some (labelled h) ->
    (forall n, n <> r_Name h -> w_revisions w1 !! n = w_revisions w !! n) ->
    runs (do! found := Match ToMap ds (labelled h) in
          if (found : bool) then split_histories fails ToMap ds hs (cs ++ [labelled h]) os
          else split_histories fails ToMap ds hs cs (os ++ [labelled h])) w1 E (fun r w' =>
      r = (cs ++ List.filter (is_cur patch) (map labelled (h :: hs)), os ++ List.filter (is_past patch) (map labelled (h :: hs))) /\
      w_pods w' = w_pods w /\ (forall h', h' ∈ h :: hs -> w_revisions w' !! r_Name h' = Some (labelled h')) /\
      (forall n, n ∉ map r_Name (h :: hs) -> w_revisions w' !! n = w_revisions w !! n))).
  { intros w1 Hp1 Hw1 Hw1'.
    assert (Hst1 : forall h', h' ∈ hs -> w_revisions w1 !! r_Name h' = Some h').
    { intros h' Hh'. rewrite Hw1'; [apply Hst; by right|]. intros Hn. apply Hh. rewrite <- Hn.
      by apply elem_names. }
    assert (Hl1 : forall h', h' ∈ hs -> is_Some (r_Labels h')) by (intros; apply Hl; by right).
    apply runs_seq, runs_match. simpl. change (is_past patch (labelled h)) with (negb (is_cur patch (labelled h))).
    destruct (is_cur patch (labelled h)) eqn:Em; simpl;
      (eapply runs_mono; [apply (IH _ _ _ E Hnd Hst1 Hl1 HE)|done|]);
      intros r w' (-> & Hp & Hw & Ho); rewrite <- ?app_assoc; simpl;
      (split_and!; [done|congruence| |]).
    1,3: intros h' [-> |Hh']%elem_of_cons; [rewrite Ho by done; done|by apply Hw].
    all: intros n [Hn1 Hn2]%not_elem_of_cons; rewrite Ho, Hw1'; done. }
  destruct (default ∅ (r_Labels h) !! ControllerRevisionHashLabelKey) eqn:El.
  { assert (EL : labelled h = h) by (unfold labelled; by rewrite El). rewrite EL in K.
    apply runs_ok. apply (K w); [done|apply Hst; by left|done]. }
  destruct (Hl h ltac:(by left)) as [l El']. rewrite El'.
  assert (EL : labelled h = with_labels h (<[ControllerRevisionHashLabelKey := r_Name h]> l)).
  { unfold labelled. by rewrite El, El'. }
  apply runs_UpdateRevision; [exists h; exact (Hst h ltac:(by left))|by intros ?; apply HE|]. rewrite EL in K.
  apply K; simpl; [done|by rewrite lookup_insert_eq|]. intros n Hn. by rewrite lookup_insert_ne.
Qed.

Lemma remove_duplicates_spec k cs : forall w (E : World -> Prop), NoDup (map r_Name cs) ->
  (forall c, c ∈ cs -> is_Some (w_revisions w !! r_Name c)) ->
  (call_failed fails \/ pods_unlisted (dom (w_pods w)) -> forall w', E w') ->
  runs (remove_duplicates fails podLister ClaimPods ds k cs) w E (fun _ w' =>
    (forall c, c ∈ cs -> r_Name c <> r_Name k -> w_revisions w' !! r_Name c = None) /\
    (forall n, n = r_Name k \/ n ∉ map r_Name cs -> w_revisions w' !! n = w_revisions w !! n)).
Proof.
  induction cs as [|c cs IH]; intros w E Hnd Hst HE; simpl; [apply runs_ok; split; [by intros c ?%not_elem_of_nil|done]|].
  apply list.NoDup_cons in Hnd as [Hc Hnd]. case_bool_decide as Hn.
  { eapply runs_mono; [apply (IH w E)| |]; try done; [intros; apply Hst; by right|].
    intros _ w' [H1 H2]. split; [intros c' [-> |?]%elem_of_cons ?; [done|by apply H1]|].
    intros n [?|[? ?]%not_elem_of_cons]; apply H2; tauto. }
  apply runs_seq, (runs_getDaemonPods _ (dom (w_pods w))); [tauto|]. intros pods Hpods.
  apply runs_seq. eapply runs_mono; [apply (relabel_pods_spec _ _ _ (tick w) E); simpl; tauto|done|].
  intros _ w1 [Hr1 Hp1]. simpl in *. apply runs_seq, runs_DeleteRevision; [rewrite Hr1; apply Hst; by left|by intros; apply HE; left|].
  eapply runs_mono; [apply (IH _ E Hnd)| |]; simpl; [| |done|].
  - intros c' Hc'. rewrite Hr1, lookup_delete_ne; [apply Hst; by right|].
    intros Hn'. apply Hc. rewrite Hn'. by apply elem_names.
  - rewrite Hp1. done.
  - intros _ w' [H1 H2]. split.
    + intros c' [-> |?]%elem_of_cons ?; [|by apply H1]. rewrite H2 by (by right). apply lookup_delete_eq.
    + intros n Hn'. rewrite H2, Hr1 by (destruct Hn' as [?|[? ?]%not_elem_of_cons]; tauto).
      apply lookup_delete_ne. destruct Hn' as [-> |[? ?]%not_elem_of_cons]; congruence.
Qed.

Lemma dedup_spec cs w (E : World -> Prop) : cs <> [] -> NoDup (map r_Name cs) -> (forall c, c ∈ cs -> (0 <= r_Revision c)%Z) ->
  (forall c, c ∈ cs -> is_Some (w_revisions w !! r_Name c)) ->
  (call_failed fails \/ pods_unlisted (dom (w_pods w)) -> forall w', E w') ->
  runs (dedupCurHistories fails podLister ClaimPods ds cs) w E (fun cur w' => cur ∈ cs /\
    (forall c, c ∈ cs -> r_Name c <> r_Name cur -> w_revisions w' !! r_Name c = None) /\
    (forall n, n = r_Name cur \/ n ∉ map r_Name cs -> w_revisions w' !! n = w_revisions w !! n)).
Proof.
  intros Hne Hnd Hpos Hst HE.
  assert (K : runs (match fst (keep_cur cs) with None => mfault
      | Some keepCur => do! _ := remove_duplicates fails podLister ClaimPods ds keepCur cs in mok keepCur end) w E
    (fun cur w' => cur ∈ cs /\ (forall c, c ∈ cs -> r_Name c <> r_Name cur -> w_revisions w' !! r_Name c = None) /\
      (forall n, n = r_Name cur \/ n ∉ map r_Name cs -> w_revisions w' !! n = w_revisions w !! n))).
  { destruct (keep_cur_spec cs Hne Hpos) as (k & -> & Hk). apply runs_seq.
    eapply runs_mono; [by apply (remove_duplicates_spec k cs w E)|done|]. intros _ w' [H1 H2]. by apply runs_ok. }
  unfold dedupCurHistories. destruct cs as [|c [|c' cs]]; [done| |exact K].
  apply runs_ok. split_and!; [by left| |done]. by intros c' ->%list_elem_of_singleton.
Qed.

(** The cache shows the revisions as the server stores them, well formed; and the one
revision that may already have the name of the next is among them. *)
Record fresh_histories (hs : list ControllerRevision) (w : World) : Prop := {
  fresh_names : NoDup (map r_Name hs);
  fresh_stored : forall h, h ∈ hs -> w_revisions w !! r_Name h = Some h;
  fresh_numbers : forall h, h ∈ hs -> (0 <= r_Revision h < 2 ^ 63 - 1)%Z;
  fresh_labels : forall h, h ∈ hs -> is_Some (r_Labels h);
  fresh_next : forall r, w_revisions w !! (ds_Name ds +:+ "-" +:+ ComputeHash ds) = Some r -> r_Data r = patch -> r ∈ hs }.

(** What holds when [constructHistory] has returned. *)
Definition history_done (hs : list ControllerRevision) (w : World) (r : ControllerRevision * list ControllerRevision) (w' : World) : Prop :=
  let '(cur, old) := r in
  (exists stored, w_revisions w' !! r_Name cur = Some stored /\ r_Data stored = patch /\ label_of stored = label_of cur /\
    forall o, o ∈ old -> (r_Revision o < r_Revision stored)%Z) /\
  old = List.filter (is_past patch) (map labelled hs) /\
  (forall o, o ∈ old -> w_revisions w' !! r_Name o = Some o) /\
  (forall h, h ∈ hs -> r_Data h = patch -> r_Name h <> r_Name cur -> w_revisions w' !! r_Name h = None) /\
  (forall n, n ∉ map r_Name hs -> n <> r_Name cur -> w_revisions w' !! n = w_revisions w !! n).

(** The name of the next revision is taken by a revision of another template. *)
Definition name_collides (w : World) : Prop :=
  exists r, w_revisions w !! (ds_Name ds +:+ "-" +:+ ComputeHash ds) = Some r /\ r_Data r <> patch.

Lemma int64_small z : (0 <= z < 2 ^ 63)%Z -> int64 z = z.
Proof. intros Hz. unfold int64. rewrite Z.mod_small; lia. Qed.

Lemma old_of hs o : o ∈ List.filter (is_past patch) (map labelled hs) -> exists h, h ∈ hs /\ o = labelled h /\ r_Data h <> patch.
Proof.
  intros [(h & <- & Hh)%list_elem_of_In%in_map_iff Hp]%list_filter_spec. exists h. split_and!; [by apply list_elem_of_In|done|].
  unfold is_past, is_cur in Hp. rewrite labelled_Data in Hp. intros <-. by rewrite bool_decide_eq_true_2 in Hp.
Qed.

Lemma cur_of hs c : c ∈ List.filter (is_cur patch) (map labelled hs) -> exists h, h ∈ hs /\ c = labelled h /\ r_Data h = patch.
Proof.
  intros [(h & <- & Hh)%list_elem_of_In%in_map_iff Hp]%list_filter_spec. exists h. split_and!; [by apply list_elem_of_In|done|].
  unfold is_cur in Hp. rewrite labelled_Data in Hp. by apply bool_decide_eq_true_1 in Hp.
Qed.

Lemma NoDup_name_filter (f : ControllerRevision -> bool) l : NoDup (map r_Name l) -> NoDup (map r_Name (List.filter f l)).
Proof.
  induction l as [|x l IH]; [done|]. simpl. intros [Hx Hn]%list.NoDup_cons. destruct (f x); [|by apply IH].
  simpl. apply list.NoDup_cons. split; [|by apply IH]. intros (y & Hy & Hin)%list_elem_of_In%in_map_iff. apply Hx.
  rewrite <- Hy. apply elem_names. apply list_elem_of_In, list_filter_spec in Hin. tauto.
Qed.

Lemma NoDup_name_inj l a b : NoDup (map r_Name l) -> a ∈ l -> b ∈ l -> r_Name a = r_Name b -> a = b.
Proof.
  induction l as [|x l IH]; [by intros ? ?%not_elem_of_nil|]. simpl. intros [Hx Hn]%list.NoDup_cons Ha Hb Hab.
  apply elem_of_cons in Ha as [-> |Ha]; apply elem_of_cons in Hb as [-> |Hb]; auto; exfalso; apply Hx.
  - rewrite Hab. by apply elem_names.
  - rewrite <- Hab. by apply elem_names.
Qed.

(** A snapshot creates the revision, or fails because of a call or of its name. *)
Lemma snapshot_spec revision w (E : World -> Prop) :
  let name := ds_Name ds +:+ "-" +:+ ComputeHash ds in
  (forall r, w_revisions w !! name = Some r -> r_Data r <> patch) ->
  (call_failed fails \/ is_Some (w_revisions w !! name) -> forall w', E w') ->
  runs (snapshot fails ToMap ComputeHash ds revision) w E (fun cur w' =>
    r_Name cur = name /\ r_Data cur = patch /\ r_Revision cur = revision /\ w_revisions w !! name = None /\
    w_revisions w' = <[name := cur]> (w_revisions w)).
Proof.
  intros name Hno HE. unfold snapshot. apply runs_seq. unfold runs at 1. rewrite Hpatch.
  apply runs_seq, runs_call; [intros ?; apply HE; by left|].
  unfold runs at 1. simpl. fold name. destruct (w_revisions w !! name) as [r|] eqn:Er; [|by apply runs_ok].
  assert (HE' : forall w', E w') by (apply HE; right; eauto).
  apply runs_seq, runs_call; [done|]. unfold runs at 1. simpl. rewrite Er. apply runs_seq, runs_match.
  unfold is_cur. rewrite bool_decide_eq_false_2 by (intros ->; by eapply Hno).
  apply runs_seq, runs_call; [done|]. unfold runs at 1. simpl. destruct (w_native w) as [c|]; [|done].
  case_bool_decide; simpl; [|apply HE']. apply runs_seq, runs_call; [done|]. unfold runs at 1. simpl.
  destruct (w_native w); [|done]. apply HE'.
Qed.

Lemma no_current hs : List.filter (is_cur patch) (map labelled hs) = [] -> forall h, h ∈ hs -> r_Data h <> patch.
Proof.
  intros Hf h Hh Hd. assert (Hin : labelled h ∈ List.filter (is_cur patch) (map labelled hs)); [|rewrite Hf in Hin; by apply not_elem_of_nil in Hin].
  apply list_filter_spec. split; [by apply list_elem_of_In, in_map, list_elem_of_In|]. unfold is_cur. rewrite labelled_Data.
  by apply bool_decide_eq_true_2.
Qed.

(** One after the highest number of the old revisions. *)
Lemma next_revision hs w : fresh_histories hs w ->
  let old := List.filter (is_past patch) (map labelled hs) in
  int64 (maxRevision old + 1) = (maxRevision old + 1)%Z /\ forall o, o ∈ old -> (r_Revision o < maxRevision old + 1)%Z.
Proof.
  intros Hf old.
  assert (Hb : (0 <= maxRevision old <= 2 ^ 63 - 2)%Z).
  { apply maxRevision_bound; [lia|]. intros o (h & Hh & -> & _)%old_of. rewrite labelled_Revision.
    pose proof (fresh_numbers _ _ Hf h Hh). lia. }
  split; [apply int64_small; lia|]. intros o Ho. unfold maxRevision. pose proof (maxRevision_ge old 0 o (or_introl Ho)). lia.
Qed.

(** The rest of [constructHistory], started in the store [w1] the loop left behind. *)
Section after_split.
  Context (hs : list ControllerRevision) (w w1 : World) (E : World -> Prop) (Hf : fresh_histories hs w).
  Context (Hp1 : w_pods w1 = w_pods w) (Hw1 : forall h, h ∈ hs -> w_revisions w1 !! r_Name h = Some (labelled h)).
  Context (Ho1 : forall n, n ∉ map r_Name hs -> w_revisions w1 !! n = w_revisions w !! n).
  Context (HE : call_failed fails \/ pods_unlisted (dom (w_pods w)) \/ name_collides w -> forall w', E w').

Let old := List.filter (is_past patch) (map labelled hs).
Let cs := List.filter (is_cur patch) (map labelled hs).

Lemma construct_new : cs = [] ->
  runs (do! cur := snapshot fails ToMap ComputeHash ds (maxRevision old + 1) in mok (cur, old)) w1 E (history_done hs w).
Proof.
  intros Ecs. pose proof (no_current hs Ecs) as Hno. destruct (next_revision hs w Hf) as [_ Hmax]. fold old in Hmax. apply runs_seq.
  assert (Hname : forall r, w_revisions w1 !! (ds_Name ds +:+ "-" +:+ ComputeHash ds) = Some r -> r_Data r <> patch /\ name_collides w).
  { intros r Hr. destruct (decide ((ds_Name ds +:+ "-" +:+ ComputeHash ds) ∈ map r_Name hs)) as [(h & Hn & Hh)%list_elem_of_In%in_map_iff|Hn].
    - apply list_elem_of_In in Hh. rewrite <- Hn, Hw1 in Hr by done. simplify_eq. rewrite labelled_Data.
      split; [by apply Hno|]. exists h. rewrite <- Hn. split; [by apply (fresh_stored _ _ Hf)|by apply Hno].
    - rewrite Ho1 in Hr by done. assert (r_Data r <> patch); [|split; [done|by exists r]].
      intros Hd. by apply (Hno r); [apply (fresh_next _ _ Hf)|]. }
  eapply runs_mono; [apply (snapshot_spec _ w1 E)|done|].
  - intros r Hr. by apply Hname.
  - intros [?|[r Hr]]; apply HE; [by left|]. right. right. by apply (Hname r).
  - intros cur w' (Hn & Hd & Hrev & Hnone & Hw'). apply runs_ok. rewrite <- Hn in *.
    assert (Hcur : forall h, h ∈ hs -> r_Name h <> r_Name cur).
    { intros h Hh Hnh. rewrite <- Hnh, Hw1 in Hnone by done. done. }
    split_and!; [exists cur; split_and!; [by rewrite Hw', lookup_insert_eq|done|done|intros o Ho; rewrite Hrev; by apply Hmax]|done| | |].
    + intros o (h & Hh & -> & _)%old_of. rewrite Hw', lookup_insert_ne; rewrite labelled_Name; [by apply Hw1|]. by apply not_eq_sym, Hcur.
    + intros h Hh Hd'. by destruct (Hno h Hh).
    + intros n Hn1 Hn2. rewrite Hw', lookup_insert_ne by done. by apply Ho1.
Qed.

(** The duplicates are gone and the stored number is high enough. *)
Lemma construct_done cur w2 w3 stored : cur ∈ cs ->
  (forall c, c ∈ cs -> r_Name c <> r_Name cur -> w_revisions w2 !! r_Name c = None) ->
  (forall n, n = r_Name cur \/ n ∉ map r_Name cs -> w_revisions w2 !! n = w_revisions w1 !! n) ->
  w_revisions w3 = <[r_Name cur := stored]> (w_revisions w2) -> r_Data stored = r_Data cur -> label_of stored = label_of cur ->
  (maxRevision old + 1 <= r_Revision stored)%Z -> history_done hs w (cur, old) w3.
Proof.
  intros Hcur Hgone Hkeep Hw3 Hd Hl Hr. destruct (next_revision hs w Hf) as [_ Hmax]. fold old in Hmax.
  destruct (cur_of hs cur Hcur) as (h0 & Hh0 & -> & Hd0). rewrite labelled_Name, labelled_Data in *.
  assert (Hnames : forall n, n ∈ map r_Name cs -> exists h, h ∈ hs /\ n = r_Name h /\ r_Data h = patch).
  { intros n (c & <- & Hc)%list_elem_of_In%in_map_iff. apply list_elem_of_In, cur_of in Hc as (h & ? & -> & ?).
    exists h. by rewrite labelled_Name. }
  split_and!; [|done| | |].
  - exists stored. rewrite labelled_Name, Hw3, lookup_insert_eq. split_and!; [done|congruence|done|]. intros o Ho%Hmax. lia.
  - intros o (h & Hh & -> & Hdh)%old_of. rewrite labelled_Name.
    assert (Hne : forall h', h' ∈ hs -> r_Data h' = patch -> r_Name h <> r_Name h').
    { intros h' Hh' Hd' Hn. apply Hdh. by rewrite (NoDup_name_inj hs h h' (fresh_names _ _ Hf) Hh Hh' Hn). }
    rewrite Hw3, lookup_insert_ne by (by apply not_eq_sym, Hne). rewrite Hkeep; [by apply Hw1|]. right.
    intros (h' & Hh' & Hn & Hd')%Hnames. by apply (Hne h').
  - intros h Hh Hdh. rewrite labelled_Name. intros Hn. rewrite Hw3, lookup_insert_ne by done.
    rewrite <- (labelled_Name h) in Hn |- *. apply Hgone; [|done]. apply list_filter_spec.
    split; [by apply list_elem_of_In, in_map, list_elem_of_In|]. unfold is_cur. rewrite labelled_Data. by apply bool_decide_eq_true_2.
  - intros n Hn. rewrite labelled_Name. intros Hn'. rewrite Hw3, lookup_insert_ne, Hkeep by
      (congruence || right; intros (h & Hh & -> & _)%Hnames; by apply Hn, elem_names). by apply Ho1.
Qed.

Lemma construct_dedup : cs <> [] ->
  runs (do! cur := dedupCurHistories fails podLister ClaimPods ds cs in
        if (r_Revision cur <? maxRevision old + 1)%Z
        then do! _ := UpdateRevision fails (with_revision cur (maxRevision old + 1)) in mok (cur, old)
        else mok (cur, old)) w1 E (history_done hs w).
Proof.
  intros Hne. apply runs_seq. eapply runs_mono; [apply (dedup_spec cs w1 E Hne)|done|].
  - apply NoDup_name_filter. rewrite labelled_names. apply (fresh_names _ _ Hf).
  - intros x (h & Hh & -> & _)%cur_of. rewrite labelled_Revision. apply (fresh_numbers _ _ Hf h Hh).
  - intros x (h & Hh & -> & _)%cur_of. rewrite labelled_Name. exists (labelled h). by apply Hw1.
  - rewrite Hp1. intros [?|?]; apply HE; tauto.
  - intros cur w2 (Hcur & Hgone & Hkeep).
    assert (Hst : w_revisions w2 !! r_Name cur = Some cur).
    { rewrite Hkeep by (by left). destruct (cur_of hs cur Hcur) as (h & Hh & -> & _). rewrite labelled_Name. by apply Hw1. }
    destruct (Z.ltb_spec (r_Revision cur) (maxRevision old + 1)).
    + apply runs_seq, runs_UpdateRevision; [by exists cur|intros ?; apply HE; by left|]. apply runs_ok.
      by apply (construct_done cur w2 _ (with_revision cur (maxRevision old + 1))).
    + apply runs_ok. apply (construct_done cur w2 _ cur); try done. by rewrite insert_id.
Qed.

End after_split.

Lemma construct_runs hs w (E : World -> Prop) :
  controlledHistories historyLister ClaimControllerRevisions ds w = (tick w, Good hs) -> fresh_histories hs w ->
  (call_failed fails \/ pods_unlisted (dom (w_pods w)) \/ name_collides w -> forall w', E w') ->
  runs (constructHistory fails podLister historyLister ClaimPods ClaimControllerRevisions ToMap ComputeHash ds) w E (history_done hs w).
Proof.
  intros Hc Hf HE. unfold constructHistory. apply runs_seq. unfold runs at 1. rewrite Hc. apply runs_seq.
  eapply runs_mono; [apply (split_spec hs [] [] (tick w) E)|done|].
  - apply (fresh_names _ _ Hf).
  - apply (fresh_stored _ _ Hf).
  - apply (fresh_labels _ _ Hf).
  - intros ?. apply HE. by left.
  - intros r w1 (-> & Hp1 & Hw1 & Ho1). simpl. destruct (next_revision hs w Hf) as [-> _].
    destruct (List.filter (is_cur patch) (map labelled hs)) as [|c cs] eqn:Ecs.
    + by apply construct_new.
    + rewrite <- Ecs. apply construct_dedup; try done. by rewrite Ecs.
Qed.

End current.

(** ** Cleaning up old revisions *)

Definition removed (vs : list ControllerRevision) (m : gmap string ControllerRevision) : gmap string ControllerRevision :=
  fold_left (fun m r => delete (r_Name r) m) vs m.

Definition unused (live : gset string) (h : ControllerRevision) : bool := negb (bool_decide (label_of h ∈ live)).

(** The revisions to delete: the oldest that no live pod uses, as many as the limit is exceeded by. *)
Definition victims (live : gset string) (toKill : Z) (old : list ControllerRevision) : list ControllerRevision :=
  take (Z.to_nat toKill) (List.filter (unused live) old).

Lemma removed_other vs n : forall m, n ∉ map r_Name vs -> removed vs m !! n = m !! n.
Proof.
  induction vs as [|v vs IH]; [done|]. simpl. intros m [Hv Hn]%not_elem_of_cons. rewrite IH by done. by apply lookup_delete_ne.
Qed.

Lemma victims_cons_used live toKill h rest : unused live h = false -> victims live toKill (h :: rest) = victims live toKill rest.
Proof. unfold victims. simpl. by intros ->. Qed.

Lemma victims_cons_unused live toKill h rest : unused live h = true -> (0 < toKill)%Z ->
  victims live toKill (h :: rest) = h :: victims live (toKill - 1) rest.
Proof.
  intros Hu Hk. unfold victims. simpl. rewrite Hu. replace (Z.to_nat toKill) with (S (Z.to_nat (toKill - 1))) by lia. done.
Qed.

Lemma clean_spec fails live old : forall toKill w, NoDup (map r_Name old) -> (forall o, o ∈ old -> is_Some (w_revisions w !! r_Name o)) ->
  runs (clean_histories fails live toKill old) w
    (fun w' => call_failed fails /\ exists k, w_revisions w' = removed (take k (victims live toKill old)) (w_revisions w))
    (fun _ w' => w_revisions w' = removed (victims live toKill old) (w_revisions w)).
Proof.
  induction old as [|h rest IH]; intros toKill w Hnd Hst; simpl.
  { apply runs_ok. unfold victims. simpl. by rewrite firstn_nil. }
  apply list.NoDup_cons in Hnd as [Hh Hnd].
  assert (Hst' : forall o, o ∈ rest -> is_Some (w_revisions w !! r_Name o)) by (intros; apply Hst; by right).
  destruct (Z.leb_spec toKill 0).
  { apply runs_ok. unfold victims. by replace (Z.to_nat toKill) with 0 by lia. }
  destruct (unused live h) eqn:Hu; unfold unused in Hu.
  - rewrite (victims_cons_unused live toKill h rest Hu) by done. apply negb_true_iff in Hu. rewrite Hu.
    apply runs_seq, runs_DeleteRevision; [apply Hst; by left|by intros ?; split; [|exists 0]|].
    eapply runs_mono; [apply (IH _ _ Hnd)| |]; simpl.
    + intros o Ho. rewrite lookup_delete_ne; [by apply Hst'|]. intros Hn. apply Hh. rewrite Hn. by apply elem_names.
    + intros w' (Hc & k & ->). split; [done|]. by exists (S k).
    + done.
  - rewrite victims_cons_used by done. apply negb_false_iff in Hu. rewrite Hu. by apply IH.
Qed.

#[export] Instance revision_le_trans : Transitive revision_le.
Proof. unfold revision_le. intros ? ? ?. lia. Qed.
#[export] Instance revision_le_total : Total revision_le.
Proof. unfold revision_le. intros a b. lia. Qed.

Lemma historiesByRevision_perm l : historiesByRevision l ≡ₚ l.
Proof. apply merge_sort_Permutation. Qed.

Lemma sorted_filter (f : ControllerRevision -> bool) l : StronglySorted revision_le l -> StronglySorted revision_le (List.filter f l).
Proof.
  induction 1 as [|x l Hl IH Hx]; simpl; [constructor|]. destruct (f x); [|done]. constructor; [done|].
  apply list.Forall_forall. intros y [Hy _]%list_filter_spec. by eapply list.Forall_forall in Hx.
Qed.

(** The victims are unused old revisions, no newer than the unused ones that stay. *)
Lemma victims_oldest live toKill old :
  let vs := victims live toKill (historiesByRevision old) in
  (forall v, v ∈ vs -> v ∈ old /\ label_of v ∉ live) /\
  (forall v o, v ∈ vs -> o ∈ old -> o ∉ vs -> label_of o ∉ live -> (r_Revision v <= r_Revision o)%Z) /\
  (0 <= toKill -> Z.of_nat (length vs) <= toKill)%Z.
Proof.
  unfold victims. set (l := List.filter (unused live) (historiesByRevision old)).
  assert (Hl : forall x, x ∈ l <-> x ∈ old /\ label_of x ∉ live).
  { intros x. unfold l. rewrite list_filter_spec, historiesByRevision_perm. unfold unused. rewrite negb_true_iff, bool_decide_eq_false. done. }
  assert (Hs : StronglySorted revision_le l) by (apply sorted_filter, StronglySorted_merge_sort; apply _).
  split_and!.
  - intros v Hv. apply Hl. by eapply elem_of_take in Hv as (i & Hi%list_elem_of_lookup_2 & _).
  - intros v o Hv Ho Hno Hu. assert (Hol : o ∈ l) by (by apply Hl). rewrite <- (take_drop (Z.to_nat toKill) l) in Hs, Hol.
    apply elem_of_app in Hol as [?|Hol]; [done|]. by apply (StronglySorted_app_1_elem_of revision_le (take (Z.to_nat toKill) l) (drop (Z.to_nat toKill) l)).
  - intros Hk. rewrite length_take. lia.
Qed.

(** * The theorems *)

(** C32: when the cache shows the revisions of a set as the server stores them, [constructHistory]
leaves exactly one stored revision with the template of the set: it carries the hash the
controller goes on with, its number is above that of every old revision, the other
revisions with this template are deleted, the old ones are still there and no other
revision is touched. It never panics, and it returns an error only if a call failed, the
pods could not be listed or relabelled, or the name of the new revision is taken by a
revision of another template. *)
Theorem history_current `{DaemonDeps} fails podLister historyLister ClaimPods ClaimControllerRevisions ToMap ComputeHash ds patch hs w :
  getPatch ToMap ds = Good patch ->
  controlledHistories historyLister ClaimControllerRevisions ds w = (tick w, Good hs) ->
  fresh_histories ComputeHash ds patch hs w ->
  runs (constructHistory fails podLister historyLister ClaimPods ClaimControllerRevisions ToMap ComputeHash ds) w
    (fun _ => call_failed fails \/ pods_unlisted podLister ClaimPods ds (dom (w_pods w)) \/ name_collides ComputeHash ds patch w)
    (history_done patch hs w).
Proof. intros Hp Hc Hf. apply construct_runs; auto. Qed.

(** [cleanupHistory] deletes only old revisions that no live pod uses, the ones with the
lowest numbers first, as many as needed to get down to the limit of the set (10 unless it
says otherwise) or as there are; a call that fails stops it after some of them. It never
panics and fails for no other reason once the pods are listed. *)
Theorem history_cleaned `{DaemonDeps} fails podLister ClaimPods GetTargetNodeName ds old w m :
  NoDup (map r_Name old) -> (forall o, o ∈ old -> is_Some (w_revisions w !! r_Name o)) ->
  getNodesToDaemonPods podLister ClaimPods GetTargetNodeName (SetDefaults_ShadowDaemonSet ds) w = (tick w, Good m) ->
  let toKill := (Z.of_nat (length old) - default 10 (RevisionHistoryLimit ds))%Z in
  let vs := victims (live_hashes m) toKill (historiesByRevision old) in
  runs (cleanupHistory fails podLister ClaimPods GetTargetNodeName ds old) w
    (fun w' => call_failed fails /\ exists k, w_revisions w' = removed (take k vs) (w_revisions w))
    (fun _ w' => w_revisions w' = removed vs (w_revisions w)) /\
  (forall v, v ∈ vs -> v ∈ old /\ label_of v ∉ live_hashes m) /\
  (forall v o, v ∈ vs -> o ∈ old -> o ∉ vs -> label_of o ∉ live_hashes m -> (r_Revision v <= r_Revision o)%Z) /\
  (0 <= toKill -> Z.of_nat (length vs) <= toKill)%Z.
Proof.
  intros Hnd Hst Hm toKill vs. split; [|apply victims_oldest].
  unfold cleanupHistory. apply runs_seq. unfold runs at 1. rewrite Hm. simpl. fold toKill.
  destruct (Z.leb_spec toKill 0).
  - apply runs_ok. unfold vs, victims. by replace (Z.to_nat toKill) with 0 by lia.
  - apply (clean_spec fails (live_hashes m) (historiesByRevision old) toKill (tick w)).
    + by rewrite historiesByRevision_perm.
    + intros o Ho. simpl. apply Hst. by rewrite <- historiesByRevision_perm.
Qed.

(** * An example *)

#[local] Instance ex_history_deps : DaemonDeps :=
  mkDaemonDeps Z (fun z => z) (fun v _ => match v with Some z => inl z | None => inr "nil value for IntOrString" end)
    unit (fun _ _ => true) (fun _ l => l) unit (fun _ _ _ => false) (fun b _ _ => b) (fun _ _ => 0%Z)
    unit (fun _ => false) (fun _ => inl (false, fun _ => true)).

Definition ex_hset : ShadowDaemonSet :=
  mkDaemonSet _ "agent" "kube" "u" 1 ∅ "host" "" false tt [] RollingUpdateDaemonSetStrategyType
    (Some (mkRolling _ (Some 1%Z) (Some 0%Z))) 0 (Some 1%Z) (mkDaemonStatus 0 0 0 0 0 0 0 0 None) false tt ∅ "image:2".
Definition ex_ToMap (ds : ShadowDaemonSet) : result (list (string * json)) :=
  inl [("daemonSetSpec", JObj [("template", JObj [("image", JText (json_string (tpl_Rest ds)))])])].
Definition ex_patch : string := match getPatch ex_ToMap ex_hset with Good p => p | _ => "" end.
Definition ex_rev (name data : string) (n : Z) : ControllerRevision :=
  mkRevision name "kube" (Some {[ ControllerRevisionHashLabelKey := name ]}) ∅ None data n false "".
(** Two revisions of the current template, one without its label, and three old ones. *)
Definition ex_revs : list ControllerRevision :=
  [ex_rev "r1" "one" 1; mkRevision "r2" "kube" (Some ∅) ∅ None ex_patch 2 false ""; ex_rev "r3" ex_patch 3; ex_rev "r4" "four" 4; ex_rev "r5" "five" 0].
Definition ex_hpod (name hash : string) : DaemonPod :=
  mkDaemonPod name {[ ControllerRevisionHashLabelKey := hash ]} "n1" false "Running" 0 None "kube" ∅ None "".
Definition ex_hpods : list DaemonPod := [ex_hpod "p1" "r1"; ex_hpod "p2" "r2"].
Definition ex_world : World :=
  mkWorld 0 (list_to_map (map (fun r => (r_Name r, r)) ex_revs)) (list_to_map (map (fun p => (q_Name p, p)) ex_hpods)) None None.

Lemma history_current_witness :
  getPatch ex_ToMap ex_hset = Good ex_patch /\
  match constructHistory (fun _ => None) (fun _ => inl ex_hpods) (fun _ => inl ex_revs) (fun _ _ l => inl l) (fun _ _ l => inl l)
      ex_ToMap (fun _ => "h") ex_hset ex_world with
  | (w', Good (cur, _)) => r_Name cur = "r3" /\ dom (w_revisions w') = {["r1"; "r3"; "r4"; "r5"]} /\ (r_Revision <$> w_revisions w' !! "r3") = Some 5%Z
  | _ => False
  end /\
  runs (constructHistory (fun _ => None) (fun _ => inl ex_hpods) (fun _ => inl ex_revs) (fun _ _ l => inl l) (fun _ _ l => inl l)
      ex_ToMap (fun _ => "h") ex_hset) ex_world
    (fun _ => call_failed (E := string) (fun _ => None) \/ pods_unlisted (fun _ => inl ex_hpods) (fun _ _ l => inl l) ex_hset (dom (w_pods ex_world)) \/
      name_collides (fun _ => "h") ex_hset ex_patch ex_world)
    (history_done ex_patch ex_revs ex_world).
Proof.
  split; [reflexivity|]. split; [vm_compute; auto|].
  apply (history_current (fun _ => None) (fun _ => inl ex_hpods) (fun _ => inl ex_revs) (fun _ _ l => inl l) (fun _ _ l => inl l)
    ex_ToMap (fun _ => "h") ex_hset ex_patch ex_revs ex_world); [reflexivity|reflexivity|].
  constructor.
  - apply (bool_decide_unpack _). vm_compute. exact I.
  - apply list.Forall_forall, (bool_decide_unpack _). vm_compute. exact I.
  - apply list.Forall_forall, (bool_decide_unpack _). vm_compute. exact I.
  - apply list.Forall_forall, (bool_decide_unpack _). vm_compute. exact I.
  - intros r Hr. vm_compute in Hr. discriminate Hr.
Defined.

Lemma history_cleaned_witness :
  let vs := victims (live_hashes {[ "n1" := ex_hpods ]}) 2 (historiesByRevision [ex_rev "r1" "one" 1; ex_rev "r4" "four" 4; ex_rev "r5" "five" 0]) in
  map r_Name vs = ["r5"; "r4"] /\
  runs (cleanupHistory (fun _ => None) (fun _ => inl ex_hpods) (fun _ _ l => inl l) (fun p => Some (q_NodeName p)) ex_hset
      [ex_rev "r1" "one" 1; ex_rev "r4" "four" 4; ex_rev "r5" "five" 0]) ex_world
    (fun w' => call_failed (E := string) (fun _ => None) /\ exists k, w_revisions w' = removed (take k vs) (w_revisions ex_world))
    (fun _ w' => w_revisions w' = removed vs (w_revisions ex_world)).
Proof.
  split; [reflexivity|].
  refine (proj1 (history_cleaned (fun _ => None) (fun _ => inl ex_hpods) (fun _ _ l => inl l) (fun p => Some (q_NodeName p)) ex_hset
    [ex_rev "r1" "one" 1; ex_rev "r4" "four" 4; ex_rev "r5" "five" 0] ex_world {[ "n1" := ex_hpods ]} _ _ _)).
  - apply (bool_decide_unpack _). vm_compute. exact I.
  - apply list.Forall_forall, (bool_decide_unpack _). vm_compute. exact I.
  - vm_compute. reflexivity.
Defined.
