(* ===== verification/DaemonStatus.v ===== *)
(** The status of a daemon set and one round of the controller: [storeDaemonSetStatus],
[updateDaemonSetStatus], [updateDaemonSet] and [syncDaemonSet] of
clustertree/cluster-manager/extensions/daemonset/host_daemon_controller.go.

[Host] is the state of the controller: the API server ([World]), the back-off, clock and
delayed queue ([Control]) and the expectations. The creations and deletions of [manage] and
[rollingUpdate] are answered by an [Api] each. *)
From S2P Require Import Prelude GoStr GoJson LinkApi SchedPolicy Calls DaemonApi DaemonNode DaemonRolling DaemonSync DaemonHistory.

Definition StatusUpdateRetries : nat := 1.

Record Host `{DaemonDeps} := mkHost { host_world : World; host_control : Control; host_expect : Expectations }.

(** The counters [updateDaemonSetStatus] collects. *)
Record Counts := mkCounts {
  c_desired : Z; c_current : Z; c_misscheduled : Z; c_ready : Z; c_updated : Z; c_available : Z }.

Definition no_counts : Counts := mkCounts 0 0 0 0 0 0.

(** What the lister answers for a key. *)
Inductive Lookup `{DaemonDeps} := Found (ds : ShadowDaemonSet) | Missing | LookupFailed (err : string).

Definition DeleteExpectations (e : Expectations) (key : string) : Expectations := delete key e.

Section status.
  Context `{DaemonDeps} (clock : nat -> Z) (visit : gmap string (list DaemonPod) -> list (string * list DaemonPod)) (burstReplicas : nat).
  Context (fails : nat -> option string).
  Context (podLister : nat -> result (list DaemonPod)) (historyLister : nat -> result (list ControllerRevision)).
  Context (ClaimPods : ShadowDaemonSet -> nat -> list DaemonPod -> result (list DaemonPod)).
  Context (ClaimControllerRevisions : ShadowDaemonSet -> nat -> list ControllerRevision -> result (list ControllerRevision)).
  Context (GetTargetNodeName : DaemonPod -> option string).
  Context (ToMap : ShadowDaemonSet -> result (list (string * json))) (ComputeHash : ShadowDaemonSet -> string).
  (** [utilerrors.NewAggregate(errs).Error()] *)
  Context (Aggregate : list string -> string).

(** ** Storing *)

Definition UpdateStatus (st : DaemonSetStatus) : M unit := call fails (fun w =>
  match w_set w with Some _ => (with_status w st, Good tt) | None => (w, Bad "not found") end).

Definition GetStatus : M DaemonSetStatus := call fails (fun w =>
  match w_set w with Some st => (w, Good st) | None => (w, Bad "not found") end).

Definition set_status (ds : ShadowDaemonSet) (c : Counts) (updateObservedGen : bool) (st : DaemonSetStatus) : DaemonSetStatus :=
  mkDaemonStatus (int32 (c_current c)) (int32 (c_misscheduled c)) (int32 (c_desired c)) (int32 (c_ready c))
    (if updateObservedGen then ds_Generation ds else ObservedGeneration st)
    (int32 (c_updated c)) (int32 (c_available c)) (int32 (c_desired c - c_available c)) (CollisionCount st).

Fixpoint store_loop (retries : nat) (ds : ShadowDaemonSet) (c : Counts) (updateObservedGen : bool) (toUpdate : DaemonSetStatus) : M unit := fun w =>
  match UpdateStatus (set_status ds c updateObservedGen toUpdate) w with
  | (w, Good _) => (w, Good tt)
  | (w, Fault) => (w, Fault)
  | (w, Bad updateErr) =>
      match retries with
      | 0 => (w, Bad updateErr)
      | S retries => (do! toUpdate := GetStatus in store_loop retries ds c updateObservedGen toUpdate) w
      end
  end.

(** The status of the cached set is the one to store. *)
Definition status_current (ds : ShadowDaemonSet) (c : Counts) : bool :=
  let st := ds_Status ds in
  (DesiredNumberScheduled st =? c_desired c)%Z && (CurrentNumberScheduled st =? c_current c)%Z &&
  (NumberMisscheduled st =? c_misscheduled c)%Z && (NumberReady st =? c_ready c)%Z &&
  (UpdatedNumberScheduled st =? c_updated c)%Z && (NumberAvailable st =? c_available c)%Z &&
  (NumberUnavailable st =? c_desired c - c_available c)%Z && (ds_Generation ds <=? ObservedGeneration st)%Z.

Definition storeDaemonSetStatus (ds : ShadowDaemonSet) (c : Counts) (updateObservedGen : bool) : M unit :=
  if status_current ds c then mok tt else store_loop StatusUpdateRetries ds c updateObservedGen (ds_Status ds).

(** ** Counting *)

(** One node: its counters are added. *)
Definition count_node (ds : ShadowDaemonSet) (hash : string) (now : Z) (nodeToDaemonPods : gmap string (list DaemonPod))
    (c : Counts) (node : Node) : Counts :=
  let '(shouldRun, _) := NodeShouldRunDaemonPod node ds in
  let daemonPods := sort_pods (default [] (nodeToDaemonPods !! n_Name node)) in
  let one (b : bool) : Z := if b then 1%Z else 0%Z in
  if (shouldRun : bool) then
    match daemonPods with
    | [] => mkCounts (c_desired c + 1) (c_current c) (c_misscheduled c) (c_ready c) (c_updated c) (c_available c)
    | pod :: _ =>
        let ready := IsPodReady pod in
        mkCounts (c_desired c + 1) (c_current c + 1) (c_misscheduled c) (c_ready c + one ready)
          (c_updated c + one (IsPodUpdated pod hash (generation_of ds)))
          (c_available c + one (ready && IsPodAvailable pod (MinReadySeconds ds) now))
    end
  else
    match daemonPods with
    | [] => c
    | _ => mkCounts (c_desired c) (c_current c) (c_misscheduled c + 1) (c_ready c) (c_updated c) (c_available c)
    end.

Definition count_status (ds : ShadowDaemonSet) (nodeList : list Node) (hash : string) (now : Z) (m : gmap string (list DaemonPod)) : Counts :=
  fold_left (count_node ds hash now m) nodeList no_counts.

Definition updateDaemonSetStatus (ds : ShadowDaemonSet) (nodeList : list Node) (hash : string) (updateObservedGen : bool) (h : Host) : Host * answer unit :=
  match getNodesToDaemonPods podLister ClaimPods GetTargetNodeName ds (host_world h) with
  | (w, Fault) => (mkHost _ w (host_control h) (host_expect h), Fault)
  | (w, Bad err) => (mkHost _ w (host_control h) (host_expect h),
      Bad ("couldn't get node to daemon pod mapping for daemon set " +:+ ds_Name ds +:+ ": " +:+ err))
  | (w, Good nodeToDaemonPods) =>
      let '(now, k) := Now clock (host_control h) in
      let c := count_status ds nodeList hash now nodeToDaemonPods in
      match storeDaemonSetStatus ds c updateObservedGen w with
      | (w, Good _) =>
          let k := if (0 <? MinReadySeconds ds)%Z && negb (c_ready c =? c_available c)%Z
            then mkControl (k_backoff k) (k_reads k) (k_after k ++ [(KeyFunc ds, (MinReadySeconds ds * 1000000000)%Z)]) else k in
          (mkHost _ w k (host_expect h), Good tt)
      | (w, Bad err) => (mkHost _ w k (host_expect h), Bad ("error storing status for daemon set " +:+ ds_Name ds +:+ ": " +:+ err))
      | (w, Fault) => (mkHost _ w k (host_expect h), Fault)
      end
  end.

(** ** One round *)

(** [manage] or [rollingUpdate] on the claimed pods. *)
Definition on_pods (f : Control -> Expectations -> result (gmap string (list DaemonPod)) -> option (Control * Expectations * list string))
    (ds : ShadowDaemonSet) (h : Host) : Host * answer unit :=
  match getNodesToDaemonPods podLister ClaimPods GetTargetNodeName ds (host_world h) with
  | (w, Fault) => (mkHost _ w (host_control h) (host_expect h), Fault)
  | (w, r) =>
      match f (host_control h) (host_expect h) (match r with Good m => inl m | Bad err => inr err | Fault => inr EmptyString end) with
      | None => (mkHost _ w (host_control h) (host_expect h), Fault)
      | Some (k, e, errs) => (mkHost _ w k e, match errs with [] => Good tt | _ => Bad (Aggregate errs) end)
      end
  end.

(** The set as it is afterwards: [cleanupHistory] writes the defaults into it. *)
Definition updateDaemonSet (manageApi rollingApi : Api) (ds : ShadowDaemonSet) (nodeList : list Node) (hash key : string)
    (old : list ControllerRevision) (h : Host) : Host * ShadowDaemonSet * answer unit :=
  match on_pods (fun k e r => manage clock visit burstReplicas manageApi k e ds nodeList r hash) ds h with
  | (h, Good _) =>
      let '(h, r) :=
        if SatisfiedExpectations (host_expect h) key && (ds_StrategyType ds =s RollingUpdateDaemonSetStrategyType)
        then on_pods (fun k e r => rollingUpdate clock visit burstReplicas rollingApi k e ds nodeList r hash) ds h
        else (h, Good tt) in
      match r with
      | Good _ =>
          match cleanupHistory fails podLister ClaimPods GetTargetNodeName ds old (host_world h) with
          | (w, r) => (mkHost _ w (host_control h) (host_expect h), SetDefaults_ShadowDaemonSet ds,
              match r with Bad err => Bad ("failed to clean up revisions of DaemonSet: " +:+ err) | r => r end)
          end
      | r => (h, ds, r)
      end
  | (h, r) => (h, ds, r)
  end.

Definition syncDaemonSet (SplitMetaNamespaceKey : string -> result (string * string)) (dsLister : string -> string -> Lookup)
    (nodeLister : result (list Node)) (manageApi rollingApi : Api) (key : string) (h : Host) : Host * answer unit :=
  match SplitMetaNamespaceKey key with
  | inr err => (h, Bad err)
  | inl (namespace, name) =>
      match dsLister namespace name with
      | Missing => (mkHost _ (host_world h) (host_control h) (DeleteExpectations (host_expect h) key), Good tt)
      | LookupFailed err => (h, Bad ("unable to retrieve ds " +:+ key +:+ " from store: " +:+ err))
      | Found ds =>
          match nodeLister with
          | inr err => (h, Bad ("couldn't get list of nodes when syncing daemon set " +:+ key +:+ ": " +:+ err))
          | inl allNode =>
              let nodeList := List.filter (fun node => negb (isVirtualNode node)) allNode in
              if selects_everything (ds_Selector ds) then (h, Good tt)
              else
                let dsKey := KeyFunc ds in
                if ds_Deleting ds then (h, Good tt)
                else
                  match constructHistory fails podLister historyLister ClaimPods ClaimControllerRevisions ToMap ComputeHash ds (host_world h) with
                  | (w, Bad err) => (mkHost _ w (host_control h) (host_expect h), Bad ("failed to construct revisions of DaemonSet: " +:+ err))
                  | (w, Fault) => (mkHost _ w (host_control h) (host_expect h), Fault)
                  | (w, Good (cur, old)) =>
                      let h := mkHost _ w (host_control h) (host_expect h) in
                      let hash := label_of cur in
                      if negb (SatisfiedExpectations (host_expect h) dsKey)
                      then updateDaemonSetStatus ds nodeList hash false h
                      else
                        match updateDaemonSet manageApi rollingApi ds nodeList hash dsKey old h with
                        | (h, ds, Fault) => (h, Fault)
                        | (h, ds, err) =>
                            let '(h, statusErr) := updateDaemonSetStatus ds nodeList hash true h in
                            (h, match err, statusErr with
                                | _, Fault => Fault
                                | Bad err, _ => Bad err
                                | _, statusErr => statusErr
                                end)
                        end
                  end
          end
      end
  end.

End status.

(** ** Facts *)

Section counting.
  Context `{DaemonDeps} (ds : ShadowDaemonSet) (hash : string) (now : Z) (m : gmap string (list DaemonPod)).

Definition should_run (node : Node) : bool := fst (NodeShouldRunDaemonPod node ds).

(** The pod a node is judged by: the oldest, if it has one. *)
Definition judged (f : DaemonPod -> bool) (node : Node) : bool :=
  match head (sort_pods (default [] (m !! n_Name node))) with Some pod => f pod | None => false end.

Definition both (f g : Node -> bool) (node : Node) : bool := f node && g node.

Definition counts_of (nodeList : list Node) : Counts :=
  mkCounts (count should_run nodeList) (count (both should_run (judged (fun _ => true))) nodeList)
    (count (both (fun node => negb (should_run node)) (judged (fun _ => true))) nodeList)
    (count (both should_run (judged IsPodReady)) nodeList)
    (count (both should_run (judged (fun pod => IsPodUpdated pod hash (generation_of ds)))) nodeList)
    (count (both should_run (judged (available ds now))) nodeList).

Lemma available_ready pod : IsPodReady pod && IsPodAvailable pod (MinReadySeconds ds) now = available ds now pod.
Proof. unfold available, IsPodAvailable, IsPodReady. destruct (q_Ready pod); [|done]. by rewrite bool_decide_eq_true_2. Qed.

Lemma count_status_spec nodeList : count_status ds nodeList hash now m = counts_of nodeList.
Proof.
  unfold count_status, counts_of.
  induction nodeList as [|node l IH] using rev_ind; [done|]. rewrite fold_left_app, IH. simpl. unfold count_node.
  rewrite !count_app, !count_single. unfold both, judged, should_run.
  destruct (NodeShouldRunDaemonPod node ds) as [[|] ?]; simpl;
    destruct (sort_pods (default [] (m !! n_Name node))) as [|pod ?]; simpl; rewrite ?Z.add_0_r; try done.
  by rewrite available_ready.
Qed.

Lemma count_mono {A} (f g : A -> bool) l : (forall x, f x = true -> g x = true) -> (count f l <= count g l)%Z.
Proof.
  intros Hfg. unfold count. induction l as [|x l IH]; simpl; [lia|].
  destruct (f x) eqn:Ef; [rewrite (Hfg x Ef); simpl; lia|]. destruct (g x); simpl; lia.
Qed.

Lemma count_disjoint {A} (f g : A -> bool) l : (forall x, f x = true -> g x = false) -> (count f l + count g l <= Z.of_nat (length l))%Z.
Proof.
  intros Hfg. unfold count. induction l as [|x l IH]; simpl; [lia|].
  destruct (f x) eqn:Ef; [rewrite (Hfg x Ef); simpl; lia|]. destruct (g x); simpl; lia.
Qed.

(** The counters are consistent with one another and with the number of nodes. *)
Definition counts_ok (n : Z) (c : Counts) : Prop :=
  (0 <= c_available c <= c_ready c /\ c_ready c <= c_current c /\ 0 <= c_updated c <= c_current c /\
   c_current c <= c_desired c /\ 0 <= c_misscheduled c /\ c_desired c + c_misscheduled c <= n)%Z.

Lemma counts_of_ok nodeList : counts_ok (Z.of_nat (length nodeList)) (counts_of nodeList).
Proof.
  unfold counts_ok, counts_of, both, judged. simpl.
  split_and!; try apply count_nonneg; try (apply count_mono || apply count_disjoint); intros node;
    destruct (should_run node); simpl; try done; destruct (head _); try done.
  rewrite <- available_ready. intros [? _]%andb_true_iff. done.
Qed.

End counting.

(** The status holds the counters, in order. *)
Definition status_holds (c : Counts) (st : DaemonSetStatus) : Prop :=
  DesiredNumberScheduled st = c_desired c /\ CurrentNumberScheduled st = c_current c /\ NumberMisscheduled st = c_misscheduled c /\
  NumberReady st = c_ready c /\ UpdatedNumberScheduled st = c_updated c /\ NumberAvailable st = c_available c /\
  NumberUnavailable st = (c_desired c - c_available c)%Z.

Lemma int32_small z : (0 <= z < 2 ^ 31)%Z -> int32 z = z.
Proof. intros Hz. unfold int32. rewrite Z.mod_small; lia. Qed.

Lemma set_status_holds `{DaemonDeps} ds c b st n : counts_ok n c -> (n < 2 ^ 31)%Z -> status_holds c (set_status ds c b st).
Proof.
  intros (? & ? & ? & ? & ? & ?) Hn. unfold status_holds, set_status. simpl. rewrite !int32_small by lia. done.
Qed.

Lemma status_current_holds `{DaemonDeps} ds c : status_current ds c = true ->
  status_holds c (ds_Status ds) /\ (ds_Generation ds <= ObservedGeneration (ds_Status ds))%Z.
Proof.
  unfold status_current, status_holds. rewrite !andb_true_iff, !Z.eqb_eq, Z.leb_le. tauto.
Qed.

Section store.
  Context `{DaemonDeps} (fails : nat -> option string).

(** What a call of the server leaves alone. *)
Definition same_rest (w w' : World) : Prop := w_revisions w' = w_revisions w /\ w_pods w' = w_pods w /\ w_native w' = w_native w.

(** Every try is an update; between two there is a read. *)
Lemma store_loop_spec retries ds c b : forall st w, match store_loop fails retries ds c b st w with
  | (w', Good _) => (exists st', w_set w' = Some (set_status ds c b st') /\ (st' = st \/ w_set w = Some st')) /\
      same_rest w w' /\ w_calls w' <= w_calls w + 1 + 2 * retries
  | (w', Bad _) => (call_failed fails \/ w_set w = None) /\ w_set w' = w_set w /\ same_rest w w' /\ w_calls w' <= w_calls w + 1 + 2 * retries
  | (_, Fault) => False
  end.
Proof.
  induction retries as [|retries IH]; intros st w; simpl; unfold UpdateStatus, call at 1; cbn [calls_made next_call World_server].
  all: destruct (fails (w_calls w)) as [e|] eqn:Ef; [|simpl; destruct (w_set w) as [st0|] eqn:Es].
  1: { simpl. split_and!; try done; [left; unfold call_failed; eauto|lia]. }
  1: { simpl. split_and!; try done; [exists st; split; [done|by left]|lia]. }
  1: { simpl. split_and!; try done; [by right|lia]. }
  2: { simpl. split_and!; try done; [exists st; split; [done|by left]|lia]. }
  all: unfold mseq, GetStatus, call; simpl; destruct (fails (S (w_calls w))) as [e'|] eqn:Ef'; simpl;
    [split_and!; try done; [try (by right); left; unfold call_failed; eauto|lia]|].
  - destruct (w_set w) as [st1|] eqn:Es; simpl; [|split_and!; try done; [by right|lia]].
    specialize (IH st1 (tick (tick w))). simpl in IH. rewrite Es in IH.
    destruct (store_loop _ _ _ _ _ _ _) as [w' [?|?|]]; [| |done].
    + destruct IH as ((st' & Hw & Hst) & Hr & Hc). split_and!; [exists st'; split; [done|]|done|lia].
      right. destruct Hst as [-> |?]; done.
    + destruct IH as ([?|?] & Hw & Hr & Hc); [|done]. split_and!; try done; [by left|lia].
  - rewrite Es. simpl. split_and!; try done; [by right|lia].
Qed.

End store.

(** ** Constructing the history does not touch the status *)

Definition keeps_set {A} (m : M A) : Prop := forall w, w_set (fst (m w)) = w_set w.

Create HintDb keeps.

Lemma keeps_ok {A} (a : A) : keeps_set (mok a). Proof. done. Qed.
Lemma keeps_err {A} err : keeps_set (merr err : M A). Proof. done. Qed.
Lemma keeps_fault {A} : keeps_set (mfault : M A). Proof. done. Qed.
Lemma keeps_lift {A} (r : result A) : keeps_set (mlift r). Proof. by destruct r. Qed.
Lemma keeps_seq {A B} (m : M A) (f : A -> M B) : keeps_set m -> (forall a, keeps_set (f a)) -> keeps_set (mseq m f).
Proof. intros Hm Hf w. unfold mseq. specialize (Hm w). destruct (m w) as [w' [a| |]]; simpl in *; [by rewrite Hf|done..]. Qed.
Lemma keeps_call {A} fails (f : World -> World * answer A) : keeps_set f -> keeps_set (call fails f).
Proof. intros Hf w. unfold call. destruct (fails _); [done|]. by rewrite Hf. Qed.
#[export] Hint Resolve keeps_ok keeps_err keeps_fault keeps_lift keeps_seq keeps_call : keeps.

(** A call on one kind of object. *)
Ltac keeps_one := intros; apply keeps_call; intros w; simpl; by repeat case_match.

Section keeps.
  Context `{DaemonDeps} (fails : nat -> option string) (podLister : nat -> result (list DaemonPod)).
  Context (historyLister : nat -> result (list ControllerRevision)).
  Context (ClaimPods : ShadowDaemonSet -> nat -> list DaemonPod -> result (list DaemonPod)).
  Context (ClaimControllerRevisions : ShadowDaemonSet -> nat -> list ControllerRevision -> result (list ControllerRevision)).
  Context (ToMap : ShadowDaemonSet -> result (list (string * json))) (ComputeHash : ShadowDaemonSet -> string).
  Context (GetTargetNodeName : DaemonPod -> option string).

Lemma keeps_Create r : keeps_set (CreateRevision fails r). Proof. keeps_one. Qed.
Lemma keeps_Get n : keeps_set (GetRevision fails n). Proof. keeps_one. Qed.
Lemma keeps_Update r : keeps_set (UpdateRevision fails r). Proof. keeps_one. Qed.
Lemma keeps_Delete n : keeps_set (DeleteRevision fails n). Proof. keeps_one. Qed.
Lemma keeps_Patch n v : keeps_set (PatchPod fails n v). Proof. keeps_one. Qed.
Lemma keeps_GetNative n : keeps_set (GetNative fails n). Proof. keeps_one. Qed.
Lemma keeps_UpdateNative n c : keeps_set (UpdateNativeStatus fails n c). Proof. keeps_one. Qed.
Lemma keeps_Match ds r : keeps_set (Match ToMap ds r). Proof. done. Qed.
Lemma keeps_ticked {A} (f : World -> M A) : (forall w, keeps_set (f w)) -> keeps_set (fun w => f w (tick w)).
Proof. intros Hf w. by rewrite Hf. Qed.
Hint Resolve keeps_Create keeps_Get keeps_Update keeps_Delete keeps_Patch keeps_GetNative keeps_UpdateNative keeps_Match : keeps.

Lemma keeps_pods ds : keeps_set (getDaemonPods podLister ClaimPods ds).
Proof. apply (keeps_ticked (fun w => mseq _ _)). auto with keeps. Qed.

Lemma keeps_histories ds : keeps_set (controlledHistories historyLister ClaimControllerRevisions ds).
Proof. apply (keeps_ticked (fun w => mseq _ _)). auto with keeps. Qed.
Hint Resolve keeps_pods keeps_histories : keeps.

Lemma keeps_relabel v pods : keeps_set (relabel_pods fails v pods).
Proof. induction pods; simpl; [auto with keeps|]. case_bool_decide; auto with keeps. Qed.
Hint Resolve keeps_relabel : keeps.

Lemma keeps_remove ds k cs : keeps_set (remove_duplicates fails podLister ClaimPods ds k cs).
Proof. induction cs; simpl; [auto with keeps|]. case_bool_decide; auto 8 with keeps. Qed.
Hint Resolve keeps_remove : keeps.

Lemma keeps_dedup ds cs : keeps_set (dedupCurHistories fails podLister ClaimPods ds cs).
Proof. unfold dedupCurHistories. destruct cs as [|? [|? ?]]; [|auto with keeps|]; destruct (fst (keep_cur _)); auto with keeps. Qed.

Lemma keeps_snapshot ds n : keeps_set (snapshot fails ToMap ComputeHash ds n).
Proof.
  unfold snapshot. apply keeps_seq; [done|]. intros patch. apply keeps_seq; [auto with keeps|]. intros [?|]; [auto with keeps|].
  apply keeps_seq; [auto with keeps|]. intros r. apply keeps_seq; [auto with keeps|]. intros [|]; [auto with keeps|].
  apply keeps_seq; [auto with keeps|]. intros c. case_match; auto with keeps.
Qed.
Hint Resolve keeps_dedup keeps_snapshot : keeps.

Lemma keeps_split ds hs : forall cs os, keeps_set (split_histories fails ToMap ds hs cs os).
Proof.
  induction hs as [|h hs IH]; intros cs os; simpl; [auto with keeps|]. apply keeps_seq; [repeat case_match; auto with keeps|].
  intros r. apply keeps_seq; [auto with keeps|]. intros [|]; auto.
Qed.
Hint Resolve keeps_split : keeps.

Lemma keeps_construct ds : keeps_set (constructHistory fails podLister historyLister ClaimPods ClaimControllerRevisions ToMap ComputeHash ds).
Proof.
  unfold constructHistory. apply keeps_seq; [auto with keeps|]. intros hs. apply keeps_seq; [auto with keeps|]. intros [[|c cs] os].
  - auto with keeps.
  - apply keeps_seq; [auto with keeps|]. intros r. case_match; auto with keeps.
Qed.

Lemma keeps_nodes ds : keeps_set (getNodesToDaemonPods podLister ClaimPods GetTargetNodeName ds).
Proof. unfold getNodesToDaemonPods. auto with keeps. Qed.

End keeps.

Section round.
  Context `{DaemonDeps} (clock : nat -> Z) (fails : nat -> option string) (podLister : nat -> result (list DaemonPod)).
  Context (ClaimPods : ShadowDaemonSet -> nat -> list DaemonPod -> result (list DaemonPod)).
  Context (GetTargetNodeName : DaemonPod -> option string).

Let update_status := updateDaemonSetStatus clock fails podLister ClaimPods GetTargetNodeName.
Let list_pods := getNodesToDaemonPods podLister ClaimPods GetTargetNodeName.

Lemma list_pods_world ds w : fst (list_pods ds w) = tick w /\ snd (list_pods ds w) <> Fault.
Proof.
  unfold list_pods, getNodesToDaemonPods, getDaemonPods, mseq, mlift.
  destruct (LabelSelectorAsSelector (ds_Selector ds)); [|done]. simpl. destruct (podLister (w_calls w)); [|done]. simpl.
  by destruct (ClaimPods _ _ _).
Qed.

(** A status update leaves the pods and the expectations alone; what it stores are the
counters over the set's own status or over the one read again. *)
Lemma update_status_spec ds nodeList hash b h h' r : update_status ds nodeList hash b h = (h', r) ->
  host_expect h' = host_expect h /\ k_backoff (host_control h') = k_backoff (host_control h) /\
  same_rest (host_world h) (host_world h') /\ w_calls (host_world h') <= w_calls (host_world h) + 4 /\
  match r with
  | Good _ => exists m, snd (list_pods ds (host_world h)) = Good m /\
      let c := counts_of ds hash (clock (k_reads (host_control h))) m nodeList in
      (exists st, w_set (host_world h') = Some (set_status ds c b st) /\ (st = ds_Status ds \/ w_set (host_world h) = Some st)) \/
      (w_set (host_world h') = w_set (host_world h) /\ status_current ds c = true)
  | Bad _ => w_set (host_world h') = w_set (host_world h) /\
      (call_failed fails \/ w_set (host_world h) = None \/ exists err, snd (list_pods ds (host_world h)) = Bad err)
  | Fault => False
  end.
Proof.
  unfold update_status, updateDaemonSetStatus. fold list_pods. destruct (list_pods_world ds (host_world h)) as [Hw Hnf].
  destruct (list_pods ds (host_world h)) as [w1 [m|err|]] eqn:El; simpl in Hw, Hnf; [|intros [= <- <-]|done]; subst w1; simpl.
  2:{ split_and!; try done; [lia|by right; right; eauto]. }
  rewrite count_status_spec. set (c := counts_of ds hash (clock (k_reads (host_control h))) m nodeList).
  unfold storeDaemonSetStatus. destruct (status_current ds c) eqn:Ec.
  { simpl. intros [= <- <-]. simpl. split_and!; [done|by destruct (_ && _)|done|lia|]. exists m. split; [done|]. by right. }
  pose proof (store_loop_spec fails StatusUpdateRetries ds c b (ds_Status ds) (tick (host_world h))) as Hs.
  destruct (store_loop _ _ _ _ _ _ _) as [w2 [?|?|]]; [intros [= <- <-]..|done]; simpl in Hs |- *.
  - destruct Hs as ((st & Hst & Ho) & Hr & Hc). split_and!; [done|by destruct (_ && _)|done|lia|].
    exists m. split; [done|]. left. by exists st.
  - destruct Hs as (Hwhy & Hst & Hr & Hc). split_and!; try done; [lia|tauto].
Qed.

Lemma updateDaemonSet_set visit burstReplicas Aggregate manageApi rollingApi ds nodeList hash key old h :
  let ds' := snd (fst (updateDaemonSet clock visit burstReplicas fails podLister ClaimPods GetTargetNodeName Aggregate manageApi rollingApi ds nodeList hash key old h)) in
  ds_Generation ds' = ds_Generation ds /\ ds_Status ds' = ds_Status ds.
Proof.
  unfold updateDaemonSet. destruct (on_pods _ _ _ _ _ _ _) as [h1 [?| |]]; try done.
  destruct (if _ && _ then _ else _) as [h2 [?| |]]; try done. by destruct (cleanupHistory _ _ _ _ _ _ _).
Qed.

End round.

(** * The theorems *)

(** C35: the counters of the status are consistent: among the nodes that should run a pod, the
available ones are among the ready, these among those with a pod, the updated ones too;
with fewer than 2^31 nodes none overflows. [updateDaemonSetStatus] stores exactly these
counters, with the generation only when asked to, unless the cached status already holds
them. It makes at most four calls, touches nothing else, never panics, and fails only if a
call did or the set is gone. *)
Theorem status_stored `{DaemonDeps} clock fails podLister ClaimPods GetTargetNodeName ds nodeList hash b h m h' r :
  getNodesToDaemonPods podLister ClaimPods GetTargetNodeName ds (host_world h) = (tick (host_world h), Good m) ->
  (Z.of_nat (length nodeList) < 2 ^ 31)%Z ->
  updateDaemonSetStatus clock fails podLister ClaimPods GetTargetNodeName ds nodeList hash b h = (h', r) ->
  let c := counts_of ds hash (clock (k_reads (host_control h))) m nodeList in
  counts_ok (Z.of_nat (length nodeList)) c /\
  same_rest (host_world h) (host_world h') /\ w_calls (host_world h') <= w_calls (host_world h) + 4 /\
  match r with
  | Good _ => (exists st, w_set (host_world h') = Some st /\ status_holds c st /\
        (if b then ObservedGeneration st = ds_Generation ds
         else ObservedGeneration st = ObservedGeneration (ds_Status ds) \/
           exists st', w_set (host_world h) = Some st' /\ ObservedGeneration st = ObservedGeneration st')) \/
      (w_set (host_world h') = w_set (host_world h) /\ status_holds c (ds_Status ds) /\
        (ds_Generation ds <= ObservedGeneration (ds_Status ds))%Z)
  | Bad _ => w_set (host_world h') = w_set (host_world h) /\ (call_failed fails \/ w_set (host_world h) = None)
  | Fault => False
  end.
Proof.
  intros Hm Hn Hu c. pose proof (counts_of_ok ds hash (clock (k_reads (host_control h))) m nodeList) as Hc. fold c in Hc.
  apply update_status_spec in Hu as (_ & _ & Hr & Hcalls & Hres). split_and!; try done.
  rewrite Hm in Hres. destruct r as [?|err|]; [|naive_solver|done].
  destruct Hres as (m' & [= <-] & Hres). cbv zeta in Hres. fold c in Hres. destruct Hres as [(st & Hst & Ho)|[Hst Hcur]].
  - left. exists (set_status ds c b st). split_and!; [done|by eapply set_status_holds|]. destruct b; simpl; naive_solver.
  - right. split; [done|]. by apply status_current_holds.
Qed.


(** * An example *)

#[local] Instance ex_status_deps : DaemonDeps :=
  mkDaemonDeps Z (fun z => z) (fun v _ => match v with Some z => inl z | None => inr "nil value for IntOrString" end)
    unit (fun _ _ => true) (fun _ l => l) unit (fun _ _ _ => false) (fun b _ _ => b) (fun _ _ => 0%Z)
    unit (fun _ => false) (fun _ => inl (false, fun _ => true)).

(** The set is at its second generation; the first was observed. *)
Definition ex_sset : ShadowDaemonSet :=
  mkDaemonSet _ "agent" "kube" "u" 2 ∅ "host" "" false tt [] RollingUpdateDaemonSetStrategyType
    (Some (mkRolling _ (Some 1%Z) (Some 0%Z))) 0 None (mkDaemonStatus 0 0 0 0 1 0 0 0 None) false tt ∅ "image:2".
Definition ex_stpod (name node hash : string) (ready : bool) : DaemonPod :=
  mkDaemonPod name {[ ControllerRevisionHashLabelKey := hash ]} node false "Running" 0 (if ready then Some None else None) "kube" ∅ None "".
(** A ready pod of the new revision, one of the old that is not ready, and a node without. *)
Definition ex_stpods : list DaemonPod := [ex_stpod "p1" "n1" "r2" true; ex_stpod "p2" "n2" "r1" false].
Definition ex_stnodes : list Node := map (fun n => mkNode n ∅ ∅ []) ["n1"; "n2"; "n3"].
Definition ex_sToMap (ds : ShadowDaemonSet) : result (list (string * json)) :=
  inl [("daemonSetSpec", JObj [("template", JObj [("image", JText (json_string (tpl_Rest ds)))])])].
Definition ex_srev : ControllerRevision :=
  mkRevision "agent-r2" "kube" (Some {[ ControllerRevisionHashLabelKey := "r2" ]}) ∅ None
    (match getPatch ex_sToMap ex_sset with Good p => p | _ => "" end) 1 false "".
Definition ex_sworld : World :=
  mkWorld 0 {[ "agent-r2" := ex_srev ]} (list_to_map (map (fun p => (q_Name p, p)) ex_stpods)) None (Some (ds_Status ex_sset)).
(** The first update fails. *)
Definition ex_sfails (n : nat) : option string := if decide (n = 1) then Some "conflict" else None.
Definition ex_shost (e : Expectations) : Host := mkHost _ ex_sworld (mkControl tt 0 []) e.

Definition ex_update (b : bool) := updateDaemonSetStatus (fun _ => 5%Z) ex_sfails (fun _ => inl ex_stpods) (fun _ _ l => inl l)
  (fun p => Some (q_NodeName p)) ex_sset ex_stnodes "r2" b (ex_shost ∅).

Lemma status_stored_witness :
  let c := counts_of ex_sset "r2" 5 (group_pods (fun p => Some (q_NodeName p)) ex_stpods) ex_stnodes in
  c = mkCounts 3 2 0 1 1 1 /\ w_set (host_world (fst (ex_update true))) = Some (mkDaemonStatus 2 0 3 1 2 1 1 2 None) /\
  counts_ok 3 c /\ w_calls (host_world (fst (ex_update true))) <= 4.
Proof.
  split; [reflexivity|]. split; [reflexivity|].
  destruct (status_stored (fun _ => 5%Z) ex_sfails (fun _ => inl ex_stpods) (fun _ _ l => inl l) (fun p => Some (q_NodeName p))
    ex_sset ex_stnodes "r2" true (ex_shost ∅) (group_pods (fun p => Some (q_NodeName p)) ex_stpods) (fst (ex_update true)) (snd (ex_update true)))
    as (Hc & _ & Hn & _); [reflexivity|reflexivity|reflexivity|]. split; [exact Hc|exact Hn].
Defined.

Definition ex_sync (e : Expectations) := syncDaemonSet (fun _ => 5%Z) map_to_list 250 (fun _ => None) (fun _ => inl ex_stpods) (fun _ => inl [ex_srev])
  (fun _ _ l => inl l) (fun _ _ l => inl l) (fun p => Some (q_NodeName p)) ex_sToMap (fun _ => "r2") (String.concat ", ")
  (fun key => inl ("kube", "agent")) (fun _ _ => Found ex_sset) (inl ex_stnodes)
  (mkApi (fun _ _ => Created) (fun _ => Deleted)) (mkApi (fun _ _ => Created) (fun _ => Deleted)) "kube/agent" (ex_shost e).

