(* ===== verification/DaemonEvents.v ===== *)
(** The event handlers and the work queue of the daemon set controller on the host:
clustertree/cluster-manager/extensions/daemonset/host_daemon_controller.go.

[Shared] is what the handlers share with the workers: the expectations and the queue (the
keys added and those added with a delay, in nanoseconds). The listers are the cached sets;
an informer's lister fails only when an object is not there. *)
From S2P Require Import Prelude GoStr GoJson LinkApi SchedPolicy Calls DaemonApi DaemonNode DaemonRolling DaemonSync DaemonHistory DaemonStatus.

Definition ConditionTrue : string := "True".

Record Shared := mkShared { sh_expect : Expectations; sh_queue : list string; sh_after : list (string * Z) }.

(** What an informer hands to a delete handler. *)
Inductive DeleteEvent (A : Type) := Object (a : A) | Tombstone (a : A) | Unknown.
Arguments Object {A} a.
Arguments Tombstone {A} a.
Arguments Unknown {A}.

Definition deleted {A} (ev : DeleteEvent A) : option A :=
  match ev with Object a | Tombstone a => Some a | Unknown => None end.

(** A node with its conditions (type, status); [hn_Rest] is what is only compared. *)
Record HostNode := mkHostNode {
  hn_Node : Node; hn_ResourceVersion : string; hn_Conditions : list (string * string); hn_Rest : string }.

#[export] Instance Taint_eq_dec : EqDecision Taint.
Proof. solve_decision. Defined.
#[export] Instance Node_eq_dec : EqDecision Node.
Proof. solve_decision. Defined.
#[export] Instance HostNode_eq_dec : EqDecision HostNode.
Proof. solve_decision. Defined.

Section events.
  Context `{DaemonDeps}.
  (** The sets in the cache. *)
  Context (sets : list ShadowDaemonSet).

(** ** The queue *)

Definition enqueue (ds : ShadowDaemonSet) (s : Shared) : Shared :=
  mkShared (sh_expect s) (sh_queue s ++ [KeyFunc ds]) (sh_after s).

Definition enqueueDaemonSetAfter (ds : ShadowDaemonSet) (after : Z) (s : Shared) : Shared :=
  mkShared (sh_expect s) (sh_queue s) (sh_after s ++ [(KeyFunc ds, after)]).

Definition enqueue_all (l : list ShadowDaemonSet) (s : Shared) : Shared := fold_left (fun s ds => enqueue ds s) l s.

(** ** Whose pod or revision *)

Definition Get (namespace name : string) : option ShadowDaemonSet :=
  first (fun ds => (ds_Namespace ds =s namespace) && (ds_Name ds =s name)) sets.

Definition List_in (namespace : string) : list ShadowDaemonSet := List.filter (fun ds => ds_Namespace ds =s namespace) sets.

Definition resolveControllerRef (namespace : string) (controllerRef : OwnerReference) : option ShadowDaemonSet :=
  if negb (or_Kind controllerRef =s ShadowControllerKind) then None
  else match Get namespace (or_Name controllerRef) with
  | None => None
  | Some ds => if negb (ds_UID ds =s or_UID controllerRef) then None else Some ds
  end.

(** The set's selector is valid, not empty, and matches. *)
Definition selects (ds : ShadowDaemonSet) (labels : gmap string string) : bool :=
  match LabelSelectorAsSelector (ds_Selector ds) with
  | inr _ => false
  | inl (empty, matches) => negb empty && matches labels
  end.

Definition getPodDaemonSets (pod : DaemonPod) : result (list ShadowDaemonSet) :=
  if bool_decide (q_Labels pod = ∅) then inr ("no daemon sets found for pod " +:+ q_Name pod +:+ " because it has no labels")
  else
    match List.filter (fun ds => (ds_Namespace ds =s q_Namespace pod) && selects ds (q_Labels pod)) (List_in (q_Namespace pod)) with
    | [] => inr ("could not find daemon set for pod " +:+ q_Name pod +:+ " in namespace " +:+ q_Namespace pod)
    | daemonSets => inl daemonSets
    end.

Definition GetHistoryDaemonSets (history : ControllerRevision) : result (list ShadowDaemonSet) :=
  if bool_decide (default ∅ (r_Labels history) = ∅) then inr ("no DaemonSet found for ControllerRevision " +:+ r_Name history +:+ " because it has no labels")
  else
    match List.filter (fun ds => selects ds (default ∅ (r_Labels history))) (List_in (r_Namespace history)) with
    | [] => inr ("could not find DaemonSets for ControllerRevision " +:+ r_Name history +:+ " in namespace " +:+ r_Namespace history)
    | daemonSets => inl daemonSets
    end.

Definition getDaemonSetsForPod (pod : DaemonPod) : list ShadowDaemonSet :=
  match getPodDaemonSets pod with inl sets => sets | inr _ => [] end.

Definition getDaemonSetsForHistory (history : ControllerRevision) : list ShadowDaemonSet :=
  match GetHistoryDaemonSets history with inl sets => sets | inr _ => [] end.

(** ** Sets *)

Definition addDaemonset (ds : ShadowDaemonSet) (s : Shared) : Shared := enqueue ds s.

Definition deleteDaemonset (obj : DeleteEvent ShadowDaemonSet) (s : Shared) : Shared :=
  match deleted obj with
  | None => s
  | Some ds => mkShared (DeleteExpectations (sh_expect s) (KeyFunc ds)) (sh_queue s ++ [KeyFunc ds]) (sh_after s)
  end.

(** The informer calls this with the old object first; the code calls it [cur]. *)
Definition updateDaemonset (curDS oldDS : ShadowDaemonSet) (s : Shared) : Shared :=
  let s := if negb (ds_UID curDS =s ds_UID oldDS) then deleteDaemonset (Tombstone oldDS) s else s in
  enqueue curDS s.

(** ** Revisions *)

Definition deleteHistory (obj : DeleteEvent ControllerRevision) (s : Shared) : Shared :=
  match deleted obj with
  | None => s
  | Some history =>
      match r_Controller history with
      | None => s
      | Some controllerRef =>
          match resolveControllerRef (r_Namespace history) controllerRef with None => s | Some ds => enqueue ds s end
      end
  end.

Definition addHistory (history : ControllerRevision) (s : Shared) : Shared :=
  if r_Deleting history then deleteHistory (Object history) s
  else match r_Controller history with
  | Some controllerRef => s
  | None => enqueue_all (getDaemonSetsForHistory history) s
  end.

Definition wake_old (changed : bool) (namespace : string) (oldRef : option OwnerReference) (s : Shared) : Shared :=
  match oldRef with
  | Some ref => if changed then match resolveControllerRef namespace ref with Some ds => enqueue ds s | None => s end else s
  | None => s
  end.

Definition updateHistory (oldHistory curHistory : ControllerRevision) (s : Shared) : Shared :=
  if r_ResourceVersion curHistory =s r_ResourceVersion oldHistory then s
  else
    let controllerRefChanged := negb (bool_decide (r_Controller curHistory = r_Controller oldHistory)) in
    let s := wake_old controllerRefChanged (r_Namespace oldHistory) (r_Controller oldHistory) s in
    match r_Controller curHistory with
    | Some curControllerRef =>
        match resolveControllerRef (r_Namespace curHistory) curControllerRef with None => s | Some ds => enqueue ds s end
    | None =>
        let labelChanged := negb (bool_decide (r_Labels curHistory = r_Labels oldHistory)) in
        if labelChanged || controllerRefChanged then enqueue_all (getDaemonSetsForHistory curHistory) s else s
    end.

(** ** Pods *)

Definition deletePod (obj : DeleteEvent DaemonPod) (s : Shared) : Shared :=
  match deleted obj with
  | None => s
  | Some pod =>
      match q_Controller pod with
      | None => s
      | Some controllerRef =>
          match resolveControllerRef (q_Namespace pod) controllerRef with
          | None => s
          | Some ds => enqueue ds (mkShared (DeletionObserved (sh_expect s) (KeyFunc ds)) (sh_queue s) (sh_after s))
          end
      end
  end.

Definition addPod (pod : DaemonPod) (s : Shared) : Shared :=
  if q_Deleting pod then deletePod (Object pod) s
  else match q_Controller pod with
  | Some controllerRef =>
      match resolveControllerRef (q_Namespace pod) controllerRef with
      | None => s
      | Some ds => enqueue ds (mkShared (CreationObserved (sh_expect s) (KeyFunc ds)) (sh_queue s) (sh_after s))
      end
  | None => enqueue_all (getDaemonSetsForPod pod) s
  end.

Definition updatePod (oldPod curPod : DaemonPod) (s : Shared) : Shared :=
  if q_ResourceVersion curPod =s q_ResourceVersion oldPod then s
  else if q_Deleting curPod then deletePod (Object curPod) s
  else
    let controllerRefChanged := negb (bool_decide (q_Controller curPod = q_Controller oldPod)) in
    let s := wake_old controllerRefChanged (q_Namespace oldPod) (q_Controller oldPod) s in
    match q_Controller curPod with
    | Some curControllerRef =>
        match resolveControllerRef (q_Namespace curPod) curControllerRef with
        | None => s
        | Some ds =>
            let s := enqueue ds s in
            let changedToReady := negb (IsPodReady oldPod) && IsPodReady curPod in
            if changedToReady && (0 <? MinReadySeconds ds)%Z
            then enqueueDaemonSetAfter ds (MinReadySeconds ds * 1000000000 + 1000000000)%Z s else s
        end
    | None =>
        let dss := getDaemonSetsForPod curPod in
        let labelChanged := negb (bool_decide (q_Labels curPod = q_Labels oldPod)) in
        if labelChanged || controllerRefChanged then enqueue_all dss s else s
    end.

(** ** Nodes *)

Definition filterHostShadowDS (dsList : list ShadowDaemonSet) : list ShadowDaemonSet :=
  List.filter (fun ds => ds_RefType ds =s RefTypeHost) dsList.

Definition addNode (node : HostNode) (s : Shared) : Shared :=
  enqueue_all (List.filter (fun ds => fst (NodeShouldRunDaemonPod (hn_Node node) ds)) (filterHostShadowDS sets)) s.

(** The second loop: every effective type is found once and taken out. *)
Fixpoint take_out (c1map : gmap string string) (cur : list (string * string)) : option (gmap string string) :=
  match cur with
  | [] => Some c1map
  | (type, status) :: rest =>
      if negb (status =s ConditionTrue) then take_out c1map rest
      else match c1map !! type with
      | None => None
      | Some _ => take_out (delete type c1map) rest
      end
  end.

Definition nodeInSameCondition (old cur : list (string * string)) : bool :=
  match old, cur with
  | [], [] => true
  | _, _ =>
      let c1map := fold_left (fun m '(type, status) => if status =s ConditionTrue then <[type := status]> m else m) old ∅ in
      match take_out c1map cur with None => false | Some rest => bool_decide (rest = ∅) end
  end.

Definition shouldIgnoreNodeUpdate (oldNode curNode : HostNode) : bool :=
  if negb (nodeInSameCondition (hn_Conditions oldNode) (hn_Conditions curNode)) then false
  else bool_decide (mkHostNode (hn_Node oldNode) (hn_ResourceVersion curNode) (hn_Conditions curNode) (hn_Rest oldNode) = curNode).

Definition updateNode (oldNode curNode : HostNode) (s : Shared) : Shared :=
  if shouldIgnoreNodeUpdate oldNode curNode then s
  else enqueue_all (List.filter (fun ds =>
    let '(oldShouldRun, oldShouldContinueRunning) := NodeShouldRunDaemonPod (hn_Node oldNode) ds in
    let '(currentShouldRun, currentShouldContinueRunning) := NodeShouldRunDaemonPod (hn_Node curNode) ds in
    negb (Bool.eqb oldShouldRun currentShouldRun) || negb (Bool.eqb oldShouldContinueRunning currentShouldContinueRunning))
      (filterHostShadowDS sets)) s.

End events.

(** ** All handlers *)

Inductive Event `{DaemonDeps} :=
  | SetAdded (ds : ShadowDaemonSet)
  | SetUpdated (ds1 ds2 : ShadowDaemonSet)
  | SetDeleted (obj : DeleteEvent ShadowDaemonSet)
  | HistoryAdded (history : ControllerRevision)
  | HistoryUpdated (old cur : ControllerRevision)
  | HistoryDeleted (obj : DeleteEvent ControllerRevision)
  | PodAdded (pod : DaemonPod)
  | PodUpdated (old cur : DaemonPod)
  | PodDeleted (obj : DeleteEvent DaemonPod)
  | NodeAdded (node : HostNode)
  | NodeUpdated (old cur : HostNode).

(** The informers call the handlers of [NewHostDaemonSetsController] behind their filters:
sets of another kind, pods of a leaf cluster and virtual nodes are left out. *)
Definition handle `{DaemonDeps} (sets : list ShadowDaemonSet) (s : Shared) (ev : Event) : Shared :=
  match ev with
  | SetAdded ds => addDaemonset ds s
  | SetUpdated ds1 ds2 => updateDaemonset ds1 ds2 s
  | SetDeleted obj => deleteDaemonset obj s
  | HistoryAdded history => addHistory sets history s
  | HistoryUpdated old cur => updateHistory sets old cur s
  | HistoryDeleted obj => deleteHistory sets obj s
  | PodAdded pod => addPod sets pod s
  | PodUpdated old cur => updatePod sets old cur s
  | PodDeleted obj => deletePod sets obj s
  | NodeAdded node => addNode sets node s
  | NodeUpdated old cur => updateNode sets old cur s
  end.

(** ** Facts *)

Lemma enqueue_all_spec `{DaemonDeps} l : forall s,
  enqueue_all l s = mkShared (sh_expect s) (sh_queue s ++ map KeyFunc l) (sh_after s).
Proof.
  induction l as [|ds l IH]; intros s; simpl; [rewrite app_nil_r; by destruct s|]. rewrite IH. simpl. by rewrite <- app_assoc.
Qed.

Section accounting.
  Context `{DaemonDeps} (sets : list ShadowDaemonSet) (key : string).

(** The controller reference of the pod leads to the set with this key. *)
Definition owned (pod : DaemonPod) : bool :=
  match q_Controller pod with
  | None => false
  | Some ref => match resolveControllerRef sets (q_Namespace pod) ref with Some ds => KeyFunc ds =s key | None => false end
  end.

(** The events that report a creation, a deletion, and the end of a set. *)
Definition creation (ev : Event) : bool :=
  match ev with PodAdded pod => negb (q_Deleting pod) && owned pod | _ => false end.

Definition deletion (ev : Event) : bool :=
  match ev with
  | PodAdded pod => q_Deleting pod && owned pod
  | PodUpdated old cur => negb (q_ResourceVersion cur =s q_ResourceVersion old) && q_Deleting cur && owned cur
  | PodDeleted obj => match deleted obj with Some pod => owned pod | None => false end
  | _ => false
  end.

Definition set_gone (ev : Event) : bool :=
  match ev with
  | SetUpdated ds1 ds2 => negb (ds_UID ds1 =s ds_UID ds2) && (KeyFunc ds2 =s key)
  | SetDeleted obj => match deleted obj with Some ds => KeyFunc ds =s key | None => false end
  | _ => false
  end.

(** What one event does to the expectations of the set, and when it wakes the set. *)
Definition effect (s s' : Shared) (c d : Z) (wakes : bool) : Prop :=
  (forall a b, sh_expect s !! key = Some (a, b) -> sh_expect s' !! key = Some (a - c, b - d)%Z) /\
  (exists l, sh_queue s' = sh_queue s ++ l /\ (wakes = true -> key ∈ l)).

Lemma effect_none s s' : sh_expect s' = sh_expect s -> (exists l, sh_queue s' = sh_queue s ++ l) -> effect s s' 0 0 false.
Proof.
  intros He [l Hl]. split; [intros a b Hab; rewrite He, Hab, !Z.sub_0_r; done|]. by exists l.
Qed.

Lemma effect_same s : effect s s 0 0 false.
Proof. apply effect_none; [done|]. exists []. by rewrite app_nil_r. Qed.

Lemma effect_enqueue_all l s : effect s (enqueue_all l s) 0 0 false.
Proof. apply effect_none; rewrite enqueue_all_spec; [done|]. by exists (map KeyFunc l). Qed.

Lemma effect_enqueue ds s : effect s (enqueue ds s) 0 0 false.
Proof. apply effect_none; [done|]. by exists [KeyFunc ds]. Qed.

Lemma effect_trans s1 s2 s3 : effect s1 s2 0 0 false -> effect s2 s3 0 0 false -> effect s1 s3 0 0 false.
Proof.
  intros [H1 (l1 & Hl1 & _)] [H2 (l2 & Hl2 & _)]. split.
  - intros a b Hab%H1%H2. by rewrite !Z.sub_0_r in *.
  - exists (l1 ++ l2). split; [by rewrite Hl2, Hl1, app_assoc|done].
Qed.

(** An observation of the set [ds], and its waking. *)
Lemma effect_observed ds s c d : effect s (enqueue ds (mkShared (LowerExpectations (sh_expect s) (KeyFunc ds) c d) (sh_queue s) (sh_after s)))
    (if KeyFunc ds =s key then c else 0) (if KeyFunc ds =s key then d else 0) (KeyFunc ds =s key).
Proof.
  split; simpl.
  - intros a b Hab. unfold LowerExpectations. case_bool_decide as Hk.
    + rewrite Hk, Hab. by rewrite lookup_insert_eq.
    + rewrite !Z.sub_0_r. destruct (sh_expect s !! KeyFunc ds) as [[? ?]|]; [|done]. by rewrite lookup_insert_ne.
  - exists [KeyFunc ds]. split; [done|]. intros ->%bool_decide_eq_true. by left.
Qed.

Lemma effect_wake_old b ns ref s : effect s (wake_old sets b ns ref s) 0 0 false.
Proof.
  unfold wake_old. destruct ref; [|apply effect_same]. destruct b; [|apply effect_same].
  destruct (resolveControllerRef _ _ _); [apply effect_enqueue|apply effect_same].
Qed.

Lemma effect_deletePod obj s : let n := match deleted obj with Some pod => owned pod | None => false end in
  effect s (deletePod sets obj s) 0 (if n then 1 else 0) n.
Proof.
  unfold deletePod, owned. destruct (deleted obj) as [pod|]; [|apply effect_same].
  destruct (q_Controller pod) as [ref|]; [|apply effect_same]. destruct (resolveControllerRef _ _ _) as [ds|]; [|apply effect_same].
  pose proof (effect_observed ds s 0 1) as E. by destruct (KeyFunc ds =s key).
Qed.

Lemma effect_deleteDaemonset obj s : match deleted obj with Some ds => KeyFunc ds =s key | None => false end = false ->
  effect s (deleteDaemonset obj s) 0 0 false.
Proof.
  unfold deleteDaemonset. destruct (deleted obj) as [ds|]; [|intros _; apply effect_same]. intros Hk%bool_decide_eq_false.
  split; simpl; [|by exists [KeyFunc ds]]. intros a b Hab. unfold DeleteExpectations. rewrite lookup_delete_ne by done.
  by rewrite !Z.sub_0_r.
Qed.
Hint Resolve effect_same effect_enqueue effect_enqueue_all effect_wake_old effect_deleteDaemonset : effects.

Lemma handle_effect s ev : set_gone ev = false ->
  effect s (handle sets s ev) (if creation ev then 1 else 0) (if deletion ev then 1 else 0) (creation ev || deletion ev).
Proof.
  intros Hg. destruct ev as [ds|ds1 ds2|obj|history|old cur|obj|pod|old cur|obj|node|old cur]; simpl in *.
  - apply effect_enqueue.
  - unfold updateDaemonset. eapply effect_trans; [|apply effect_enqueue].
    destruct (negb (ds_UID ds1 =s ds_UID ds2)); auto with effects.
  - by apply effect_deleteDaemonset.
  - unfold addHistory. destruct (r_Deleting history); [unfold deleteHistory; simpl|]; destruct (r_Controller history); auto with effects.
    destruct (resolveControllerRef _ _ _); auto with effects.
  - unfold updateHistory. case_bool_decide; [auto with effects|].
    generalize (negb (r_Controller cur =s r_Controller old)). intros b. eapply effect_trans; [apply (effect_wake_old b)|].
    destruct (r_Controller cur); [destruct (resolveControllerRef _ _ _)|destruct (_ || _)]; auto with effects.
  - unfold deleteHistory. destruct (deleted obj) as [h|]; [|auto with effects]. destruct (r_Controller h); [|auto with effects].
    destruct (resolveControllerRef _ _ _); auto with effects.
  - unfold addPod. destruct (q_Deleting pod); simpl; [apply (effect_deletePod (Object pod))|]. unfold owned.
    rewrite orb_false_r. destruct (q_Controller pod) as [ref|]; [|apply effect_enqueue_all].
    destruct (resolveControllerRef _ _ _) as [ds|]; [|apply effect_same].
    pose proof (effect_observed ds s 1 0) as E. by destruct (KeyFunc ds =s key).
  - unfold updatePod. case_bool_decide; simpl; [auto with effects|]. destruct (q_Deleting cur); simpl; [apply (effect_deletePod (Object cur))|].
    generalize (negb (q_Controller cur =s q_Controller old)). intros b. eapply effect_trans; [apply (effect_wake_old b)|].
    destruct (q_Controller cur); [|destruct (_ || _); auto with effects].
    destruct (resolveControllerRef _ _ _) as [ds|]; [|auto with effects]. destruct (_ && _); [|auto with effects].
    eapply effect_trans; [apply effect_enqueue|]. apply effect_none; [done|]. exists []. by rewrite app_nil_r.
  - apply effect_deletePod.
  - apply effect_enqueue_all.
  - unfold updateNode. destruct (shouldIgnoreNodeUpdate old cur); auto with effects.
Qed.

End accounting.

Lemma handle_all `{DaemonDeps} sets key evs : forall s, (forall ev, ev ∈ evs -> set_gone key ev = false) ->
  effect key s (fold_left (handle sets) evs s) (count (creation sets key) evs) (count (deletion sets key) evs)
    (any (fun ev => creation sets key ev || deletion sets key ev) evs).
Proof.
  induction evs as [|ev evs IH]; intros s Hg; [apply effect_same|].
  destruct (handle_effect sets key s ev (Hg ev ltac:(by left))) as [H1 (l1 & Hl1 & Hw1)].
  destruct (IH (handle sets s ev)) as [H2 (l2 & Hl2 & Hw2)]; [intros ev' Hev; apply Hg; by right|]. split.
  - intros a b Hab%H1%H2. simpl fold_left. rewrite Hab. f_equal. unfold count. simpl.
    destruct (creation sets key ev), (deletion sets key ev); simpl; f_equal; lia.
  - exists (l1 ++ l2). simpl fold_left. split; [by rewrite Hl2, Hl1, app_assoc|].
    simpl. intros [Hw|Hw]%orb_true_iff; apply elem_of_app; auto.
Qed.

(** ** Conditions *)

Definition effective (l : list (string * string)) : list string :=
  collect (fun c => if snd c =s ConditionTrue then Some (fst c) else None) l.

Lemma effective_cons t st l : effective ((t, st) :: l) = if st =s ConditionTrue then t :: effective l else effective l.
Proof. unfold effective. simpl. by destruct (st =s ConditionTrue). Qed.

Lemma c1map_dom l : forall m : gmap string string, dom (fold_left (fun m '(type, status) => if status =s ConditionTrue then <[type := status]> m else m) l m)
  = list_to_set (effective l) ∪ dom m :> gset string.
Proof.
  induction l as [|[t st] l IH]; intros m; simpl; [by rewrite (left_id_L ∅ _)|]. rewrite IH, effective_cons.
  destruct (st =s ConditionTrue); [|done]. rewrite dom_insert_L. simpl. set_solver.
Qed.

Lemma take_out_spec l : forall m : gmap string string, (exists rest, take_out m l = Some rest /\ rest = ∅) <->
  NoDup (effective l) /\ dom m = list_to_set (effective l) :> gset string.
Proof.
  induction l as [|[t st] l IH]; intros m; simpl.
  { split.
    - intros (rest & [= <-] & ->). split; [constructor|set_solver].
    - intros [_ Hd]. exists m. split; [done|]. apply dom_empty_inv_L. set_solver. }
  rewrite effective_cons. destruct (st =s ConditionTrue) eqn:Et; simpl; [|apply IH].
  destruct (m !! t) as [v|] eqn:Em.
  - rewrite IH, list.NoDup_cons, dom_delete_L. apply elem_of_dom_2 in Em. split.
    + intros [Hn Hd]. split_and!; [set_solver|done|]. rewrite <- Hd. rewrite <- union_difference_L; set_solver.
    + intros [[Ht Hn] Hd]. split; [done|]. rewrite Hd. set_solver.
  - apply not_elem_of_dom in Em. split; [by intros (? & ? & _)|]. intros [_ Hd]. set_solver.
Qed.

(** * The theorems *)


(** Two lists of conditions count as the same exactly when they have the same types with the
status true, none of them twice in the new list. *)
Theorem conditions_same old cur : nodeInSameCondition old cur = true <->
  NoDup (effective cur) /\ forall t, t ∈ effective old <-> t ∈ effective cur.
Proof.
  assert (G : nodeInSameCondition old cur = true <-> exists rest, take_out (fold_left (fun m '(type, status) =>
    if status =s ConditionTrue then <[type := status]> m else m) old ∅) cur = Some rest /\ rest = ∅).
  { unfold nodeInSameCondition. destruct old as [|o old]; [destruct cur as [|c cur]|].
    1: { simpl. split; [by exists ∅|done]. }
    all: destruct (take_out _ _) as [rest|]; [|by split; [|intros (? & ? & _)]]; rewrite bool_decide_eq_true;
      (split; [by exists rest|by intros (? & [= ->] & ?)]). }
  rewrite G, take_out_spec, c1map_dom. rewrite dom_empty_L, (right_id_L ∅ _). set_solver.
Qed.

(** * An example *)

#[local] Instance ex_event_deps : DaemonDeps :=
  mkDaemonDeps Z (fun z => z) (fun v _ => match v with Some z => inl z | None => inr "nil value for IntOrString" end)
    unit (fun _ _ => true) (fun _ l => l) unit (fun _ _ _ => false) (fun b _ _ => b) (fun _ _ => 0%Z)
    unit (fun _ => false) (fun _ => inl (false, fun _ => true)).

Definition ex_evset : ShadowDaemonSet :=
  mkDaemonSet _ "agent" "kube" "u" 2 ∅ "host" "" false tt [] RollingUpdateDaemonSetStrategyType
    (Some (mkRolling _ (Some 1%Z) (Some 0%Z))) 0 None (mkDaemonStatus 0 0 0 0 1 0 0 0 None) false tt ∅ "image:2".
Definition ex_evpod (name uid version : string) (deleting : bool) : DaemonPod :=
  mkDaemonPod name ∅ "n1" deleting "Running" 0 None "kube" ∅ (Some (mkOwner "ShadowDaemonSet" "agent" uid "")) version.
(** Two pods of the set arrive, one of an earlier set of the name, and one of the set goes. *)
Definition ex_evs : list Event :=
  [PodAdded (ex_evpod "p1" "u" "1" false); PodAdded (ex_evpod "p2" "old" "2" false); PodAdded (ex_evpod "p3" "u" "3" false);
   PodUpdated (ex_evpod "p4" "u" "4" false) (ex_evpod "p4" "u" "5" true); SetUpdated ex_evset ex_evset].

