(* ===== verification/PodApi.v ===== *)
(** The objects that ClusterTree carries between the host cluster and its leaf clusters:
pods (k8s.io/api/core/v1), config maps, secrets, services, and the conversion policies
(apis/kosmos/v1alpha1/podconvertpolicy_types.go).

The records have the fields that the code under src reads or writes. What it only copies
and compares is kept as text ([opaque]). A pointer, and a slice or map that the code
compares with nil, is an option. *)
From S2P Require Import Prelude.

Abbreviation opaque := string (only parsing).
Abbreviation smap := (gmap string string).

(** The map behind a possibly nil map: reading a nil map is reading an empty one. *)
Definition map_of (m : option smap) : smap := default ∅ m.

(** [m[k]]: a missing key reads as the empty string. *)
Definition get (m : smap) (k : string) : string := default EmptyString (m !! k).

(** * Containers and their environment *)

Record KeyRef := mkKeyRef { kr_Name : string; kr_Key : string; kr_Optional : option bool }.
Record FieldRef := mkFieldRef { fr_APIVersion : string; fr_FieldPath : string }.

Record EnvVarSource := mkSource {
  src_FieldRef : option FieldRef; src_ResourceFieldRef : option opaque;
  src_ConfigMapKeyRef : option KeyRef; src_SecretKeyRef : option KeyRef }.

Record EnvVar := mkEnvVar { ev_Name : string; ev_Value : string; ev_ValueFrom : option EnvVarSource }.

Record NameRef := mkNameRef { nr_Name : string; nr_Optional : option bool }.
Record EnvFromSource := mkEnvFrom {
  ef_Prefix : string; ef_ConfigMapRef : option NameRef; ef_SecretRef : option NameRef }.

Record VolumeMount := mkMount { vm_Name : string; vm_Rest : opaque }.

Record Container := mkContainer {
  ct_Name : string; ct_Image : string; ct_Env : list EnvVar; ct_EnvFrom : list EnvFromSource;
  ct_VolumeMounts : list VolumeMount; ct_Rest : opaque }.

(** * Volumes *)

(** One source of a projected volume; the paths inside it are opaque. *)
Record VolumeProjection := mkProjection {
  vp_Token : option string; (* the path *)
  vp_ConfigMap : option (string * opaque); (* its name, the rest *)
  vp_Secret : option (string * opaque);
  vp_DownwardAPI : option opaque }.

(** [vol_CephFS], [vol_Cinder] and [vol_RBD]: the name in their [SecretRef], which may
be nil. *)
Record Volume := mkVolume {
  vol_Name : string;
  vol_Secret : option string;
  vol_CephFS : option (option string); vol_Cinder : option (option string); vol_RBD : option (option string);
  vol_ConfigMap : option string;
  vol_PVC : option string;
  vol_Projected : option (list VolumeProjection);
  vol_Rest : opaque }.

(** * Placement *)

Record NodeSelectorRequirement := mkReq { req_Key : string; req_Operator : string; req_Values : list string }.
Record NodeSelectorTerm := mkTerm {
  term_MatchExpressions : list NodeSelectorRequirement; term_MatchFields : list NodeSelectorRequirement }.

(** [na_Required]: the terms of RequiredDuringSchedulingIgnoredDuringExecution. *)
Record NodeAffinity := mkNodeAffinity {
  na_Required : option (option (list NodeSelectorTerm)); na_Preferred : option opaque }.

Record Affinity := mkAffinity {
  aff_Node : option NodeAffinity; aff_Pod : option opaque; aff_PodAnti : option opaque }.

(** [metav1.LabelSelector] and [kosmosv1alpha1.NodeSelector]. The order of a Go map is
chosen by the caller ([range] below). *)
Record LabelSelector := mkSelector {
  ls_MatchLabels : option smap; ls_MatchExpressions : option (list NodeSelectorRequirement) }.
Record NodeSelector := mkNodeSelector { sel_NodeName : string; sel_LabelSelector : option LabelSelector }.

(** * Pods *)

Record OwnerReference := mkOwner { own_Kind : string; own_Rest : opaque }.

Record ObjectMeta := mkMeta {
  om_Name : string; om_Namespace : string; om_UID : string; om_ResourceVersion : string;
  om_OwnerReferences : option (list OwnerReference);
  om_Labels : option smap; om_Annotations : option smap;
  om_DeletionTimestamp : option Z; om_DeletionGracePeriodSeconds : option Z }.

Record DNSConfig := mkDNS { dns_Nameservers : list string; dns_Searches : list string }.

Record PodSpec := mkSpec {
  spec_NodeName : string; spec_SchedulerName : string; spec_ServiceAccountName : string;
  spec_EnableServiceLinks : option bool; spec_AutomountServiceAccountToken : option bool;
  spec_InitContainers : list Container; spec_Containers : list Container;
  spec_Volumes : list Volume; spec_ImagePullSecrets : list string;
  spec_NodeSelector : option smap; spec_Tolerations : option (list opaque);
  spec_TopologySpreadConstraints : option (list opaque); spec_Affinity : option Affinity;
  spec_HostAliases : option (list opaque);
  spec_ActiveDeadlineSeconds : option Z; spec_TerminationGracePeriodSeconds : option Z;
  spec_DNSPolicy : string; spec_DNSConfig : option DNSConfig; spec_Rest : opaque }.

Record PodStatus := mkStatus { st_Phase : string; st_Rest : opaque }.

Record Pod := mkPod { pod_Meta : ObjectMeta; pod_Spec : PodSpec; pod_Status : PodStatus }.

(** ** Nodes *)

Abbreviation ResourceList := (gmap string Z).

(** [cond_Time] is the time of the heartbeat and of the transition, where it is set. *)
Record NodeCondition := mkCondition {
  cond_Type : string; cond_Status : string; cond_Reason : string; cond_Message : string; cond_Time : option Z }.
Record NodeAddress := mkAddress { addr_Type : string; addr_Address : string }.
Record NodeTaint := mkNodeTaint { nt_Key : string; nt_Value : string; nt_Effect : string }.

Record NodeStatus := mkNodeStatus {
  ns_Conditions : list NodeCondition; ns_Allocatable : ResourceList; ns_Capacity : ResourceList;
  ns_Addresses : list NodeAddress; ns_KubeletVersion : string; ns_KubeletPort : Z;
  ns_OperatingSystem : string; ns_Architecture : string; ns_Rest : opaque }.

(** A node of the host or of a leaf cluster. *)
Record KubeNode := mkKubeNode {
  kn_Name : string; kn_UID : string; kn_ResourceVersion : string;
  kn_Annotations : option smap; kn_Labels : option smap; kn_DeletionTimestamp : option Z;
  kn_Unschedulable : bool; kn_Taints : list NodeTaint; kn_Status : NodeStatus }.
Definition kn_Conditions (n : KubeNode) := ns_Conditions (kn_Status n).
Definition kn_Allocatable (n : KubeNode) := ns_Allocatable (kn_Status n).
Definition set_node_status (st : NodeStatus) (n : KubeNode) : KubeNode :=
  mkKubeNode (kn_Name n) (kn_UID n) (kn_ResourceVersion n) (kn_Annotations n) (kn_Labels n) (kn_DeletionTimestamp n)
    (kn_Unschedulable n) (kn_Taints n) st.

(** Objects of the host cluster that a pod refers to; the data of a secret are bytes. *)
(** ** Volumes and claims *)

(** [v1.ObjectReference] *)
Record ClaimRef := mkClaimRef {
  cr_Namespace : string; cr_Name : string; cr_UID : string; cr_ResourceVersion : string; cr_Rest : opaque }.

(** [pvs_NodeAffinity]: the pointer, its Required, and the terms. *)
Record PVSpec := mkPVSpec {
  pvs_ClaimRef : option ClaimRef; pvs_NodeAffinity : option (option (list NodeSelectorTerm));
  pvs_CSIDriver : option string; pvs_Rest : opaque }.
Record PersistentVolume := mkPV { pv_Meta : ObjectMeta; pv_Spec : PVSpec; pv_Status : opaque }.

Record PVCSpec := mkPVCSpec {
  pcs_VolumeName : string; pcs_Selector : option LabelSelector; pcs_Requests : opaque; pcs_Rest : opaque }.
Record PVCStatus := mkPVCStatus { pct_Phase : string; pct_Rest : opaque }.
Record PersistentVolumeClaim := mkPVC { pvc_Meta : ObjectMeta; pvc_Spec : PVCSpec; pvc_Status : PVCStatus }.

Record ConfigMap := mkConfigMap { cm_Name : string; cm_Data : smap }.
Record Secret := mkSecret { sec_Name : string; sec_Data : smap }.

Record ServicePort := mkPort { port_Name : string; port_Protocol : string; port_Port : Z }.
Record Service := mkService {
  svc_Name : string; svc_Namespace : string; svc_ClusterIP : string; svc_Ports : list ServicePort }.

(** [utils.ClustersNodeSelection], which the pod carries in an annotation. *)
Record ClustersNodeSelection := mkSelection {
  cns_NodeSelector : option smap; cns_Affinity : option Affinity;
  cns_Tolerations : option (list opaque); cns_TopologySpreadConstraints : option (list opaque) }.

(** * Conversion policies *)

(** A converter: its [ConvertType] and its value. *)
Record Converter (A : Type) := mkConverter { cv_Type : string; cv_Value : A }.
Arguments mkConverter {A} _ _.
Arguments cv_Type {A} _.
Arguments cv_Value {A} _.

Record Converters := mkConverters {
  cvs_SchedulerName : option (Converter string); cvs_NodeName : option (Converter string);
  cvs_NodeSelector : option (Converter (option smap));
  cvs_Toleration : option (Converter (option (list opaque)));
  cvs_Affinity : option (Converter (option Affinity));
  cvs_TopologySpreadConstraints : option (Converter (option (list opaque)));
  cvs_HostAliases : option (Converter (option (list opaque))) }.

(** [PodConvertPolicy] and [ClusterPodConvertPolicy] have the same fields. *)
Record ConvertPolicy := mkPolicy {
  pol_Name : string; pol_LabelSelector : LabelSelector; pol_LeafNodeSelector : option LabelSelector;
  pol_Converters : option Converters }.

(** ** Decidable equality, for [cmp.Equal] and [reflect.DeepEqual] *)

#[export] Instance KeyRef_eq : EqDecision KeyRef. Proof. solve_decision. Defined.
#[export] Instance FieldRef_eq : EqDecision FieldRef. Proof. solve_decision. Defined.
#[export] Instance EnvVarSource_eq : EqDecision EnvVarSource. Proof. solve_decision. Defined.
#[export] Instance EnvVar_eq : EqDecision EnvVar. Proof. solve_decision. Defined.
#[export] Instance NameRef_eq : EqDecision NameRef. Proof. solve_decision. Defined.
#[export] Instance EnvFromSource_eq : EqDecision EnvFromSource. Proof. solve_decision. Defined.
#[export] Instance VolumeMount_eq : EqDecision VolumeMount. Proof. solve_decision. Defined.
#[export] Instance Container_eq : EqDecision Container. Proof. solve_decision. Defined.
#[export] Instance VolumeProjection_eq : EqDecision VolumeProjection. Proof. solve_decision. Defined.
#[export] Instance Volume_eq : EqDecision Volume. Proof. solve_decision. Defined.
#[export] Instance Req_eq : EqDecision NodeSelectorRequirement. Proof. solve_decision. Defined.
#[export] Instance Term_eq : EqDecision NodeSelectorTerm. Proof. solve_decision. Defined.
#[export] Instance NodeAffinity_eq : EqDecision NodeAffinity. Proof. solve_decision. Defined.
#[export] Instance Affinity_eq : EqDecision Affinity. Proof. solve_decision. Defined.
#[export] Instance DNSConfig_eq : EqDecision DNSConfig. Proof. solve_decision. Defined.
#[export] Instance PodSpec_eq : EqDecision PodSpec. Proof. solve_decision. Defined.
#[export] Instance PodStatus_eq : EqDecision PodStatus. Proof. solve_decision. Defined.
#[export] Instance OwnerReference_eq : EqDecision OwnerReference. Proof. solve_decision. Defined.
#[export] Instance ObjectMeta_eq : EqDecision ObjectMeta. Proof. solve_decision. Defined.
#[export] Instance Pod_eq : EqDecision Pod. Proof. solve_decision. Defined.

(** ** Updates of one field *)

Definition set_Labels (l : option smap) (m : ObjectMeta) : ObjectMeta :=
  mkMeta (om_Name m) (om_Namespace m) (om_UID m) (om_ResourceVersion m) (om_OwnerReferences m) l
    (om_Annotations m) (om_DeletionTimestamp m) (om_DeletionGracePeriodSeconds m).
Definition set_Annotations (a : option smap) (m : ObjectMeta) : ObjectMeta :=
  mkMeta (om_Name m) (om_Namespace m) (om_UID m) (om_ResourceVersion m) (om_OwnerReferences m)
    (om_Labels m) a (om_DeletionTimestamp m) (om_DeletionGracePeriodSeconds m).
Definition on_Meta (f : ObjectMeta -> ObjectMeta) (p : Pod) : Pod := mkPod (f (pod_Meta p)) (pod_Spec p) (pod_Status p).
Definition on_Spec (f : PodSpec -> PodSpec) (p : Pod) : Pod := mkPod (pod_Meta p) (f (pod_Spec p)) (pod_Status p).
Definition set_Status (st : PodStatus) (p : Pod) : Pod := mkPod (pod_Meta p) (pod_Spec p) st.

(** The labels and annotations of a pod. *)
Definition labels (p : Pod) : option smap := om_Labels (pod_Meta p).
Definition annotations (p : Pod) : option smap := om_Annotations (pod_Meta p).

(** ** Fields of the specification that are written *)

Definition with_NodeName (x : string) (s : PodSpec) : PodSpec :=
  mkSpec x (spec_SchedulerName s) (spec_ServiceAccountName s) (spec_EnableServiceLinks s)
    (spec_AutomountServiceAccountToken s) (spec_InitContainers s) (spec_Containers s) (spec_Volumes s)
    (spec_ImagePullSecrets s) (spec_NodeSelector s) (spec_Tolerations s) (spec_TopologySpreadConstraints s)
    (spec_Affinity s) (spec_HostAliases s) (spec_ActiveDeadlineSeconds s) (spec_TerminationGracePeriodSeconds
    s) (spec_DNSPolicy s) (spec_DNSConfig s) (spec_Rest s).
Definition with_SchedulerName (x : string) (s : PodSpec) : PodSpec :=
  mkSpec (spec_NodeName s) x (spec_ServiceAccountName s) (spec_EnableServiceLinks s)
    (spec_AutomountServiceAccountToken s) (spec_InitContainers s) (spec_Containers s) (spec_Volumes s)
    (spec_ImagePullSecrets s) (spec_NodeSelector s) (spec_Tolerations s) (spec_TopologySpreadConstraints s)
    (spec_Affinity s) (spec_HostAliases s) (spec_ActiveDeadlineSeconds s) (spec_TerminationGracePeriodSeconds
    s) (spec_DNSPolicy s) (spec_DNSConfig s) (spec_Rest s).
Definition with_AutomountServiceAccountToken (x : option bool) (s : PodSpec) : PodSpec :=
  mkSpec (spec_NodeName s) (spec_SchedulerName s) (spec_ServiceAccountName s) (spec_EnableServiceLinks s) x
    (spec_InitContainers s) (spec_Containers s) (spec_Volumes s) (spec_ImagePullSecrets s) (spec_NodeSelector
    s) (spec_Tolerations s) (spec_TopologySpreadConstraints s) (spec_Affinity s) (spec_HostAliases s)
    (spec_ActiveDeadlineSeconds s) (spec_TerminationGracePeriodSeconds s) (spec_DNSPolicy s) (spec_DNSConfig
    s) (spec_Rest s).
Definition with_InitContainers (x : list Container) (s : PodSpec) : PodSpec :=
  mkSpec (spec_NodeName s) (spec_SchedulerName s) (spec_ServiceAccountName s) (spec_EnableServiceLinks s)
    (spec_AutomountServiceAccountToken s) x (spec_Containers s) (spec_Volumes s) (spec_ImagePullSecrets s)
    (spec_NodeSelector s) (spec_Tolerations s) (spec_TopologySpreadConstraints s) (spec_Affinity s)
    (spec_HostAliases s) (spec_ActiveDeadlineSeconds s) (spec_TerminationGracePeriodSeconds s) (spec_DNSPolicy
    s) (spec_DNSConfig s) (spec_Rest s).
Definition with_Containers (x : list Container) (s : PodSpec) : PodSpec :=
  mkSpec (spec_NodeName s) (spec_SchedulerName s) (spec_ServiceAccountName s) (spec_EnableServiceLinks s)
    (spec_AutomountServiceAccountToken s) (spec_InitContainers s) x (spec_Volumes s) (spec_ImagePullSecrets s)
    (spec_NodeSelector s) (spec_Tolerations s) (spec_TopologySpreadConstraints s) (spec_Affinity s)
    (spec_HostAliases s) (spec_ActiveDeadlineSeconds s) (spec_TerminationGracePeriodSeconds s) (spec_DNSPolicy
    s) (spec_DNSConfig s) (spec_Rest s).
Definition with_Volumes (x : list Volume) (s : PodSpec) : PodSpec :=
  mkSpec (spec_NodeName s) (spec_SchedulerName s) (spec_ServiceAccountName s) (spec_EnableServiceLinks s)
    (spec_AutomountServiceAccountToken s) (spec_InitContainers s) (spec_Containers s) x (spec_ImagePullSecrets
    s) (spec_NodeSelector s) (spec_Tolerations s) (spec_TopologySpreadConstraints s) (spec_Affinity s)
    (spec_HostAliases s) (spec_ActiveDeadlineSeconds s) (spec_TerminationGracePeriodSeconds s) (spec_DNSPolicy
    s) (spec_DNSConfig s) (spec_Rest s).
Definition with_NodeSelector (x : option smap) (s : PodSpec) : PodSpec :=
  mkSpec (spec_NodeName s) (spec_SchedulerName s) (spec_ServiceAccountName s) (spec_EnableServiceLinks s)
    (spec_AutomountServiceAccountToken s) (spec_InitContainers s) (spec_Containers s) (spec_Volumes s)
    (spec_ImagePullSecrets s) x (spec_Tolerations s) (spec_TopologySpreadConstraints s) (spec_Affinity s)
    (spec_HostAliases s) (spec_ActiveDeadlineSeconds s) (spec_TerminationGracePeriodSeconds s) (spec_DNSPolicy
    s) (spec_DNSConfig s) (spec_Rest s).
Definition with_Tolerations (x : option (list opaque)) (s : PodSpec) : PodSpec :=
  mkSpec (spec_NodeName s) (spec_SchedulerName s) (spec_ServiceAccountName s) (spec_EnableServiceLinks s)
    (spec_AutomountServiceAccountToken s) (spec_InitContainers s) (spec_Containers s) (spec_Volumes s)
    (spec_ImagePullSecrets s) (spec_NodeSelector s) x (spec_TopologySpreadConstraints s) (spec_Affinity s)
    (spec_HostAliases s) (spec_ActiveDeadlineSeconds s) (spec_TerminationGracePeriodSeconds s) (spec_DNSPolicy
    s) (spec_DNSConfig s) (spec_Rest s).
Definition with_TopologySpreadConstraints (x : option (list opaque)) (s : PodSpec) : PodSpec :=
  mkSpec (spec_NodeName s) (spec_SchedulerName s) (spec_ServiceAccountName s) (spec_EnableServiceLinks s)
    (spec_AutomountServiceAccountToken s) (spec_InitContainers s) (spec_Containers s) (spec_Volumes s)
    (spec_ImagePullSecrets s) (spec_NodeSelector s) (spec_Tolerations s) x (spec_Affinity s) (spec_HostAliases
    s) (spec_ActiveDeadlineSeconds s) (spec_TerminationGracePeriodSeconds s) (spec_DNSPolicy s)
    (spec_DNSConfig s) (spec_Rest s).
Definition with_Affinity (x : option Affinity) (s : PodSpec) : PodSpec :=
  mkSpec (spec_NodeName s) (spec_SchedulerName s) (spec_ServiceAccountName s) (spec_EnableServiceLinks s)
    (spec_AutomountServiceAccountToken s) (spec_InitContainers s) (spec_Containers s) (spec_Volumes s)
    (spec_ImagePullSecrets s) (spec_NodeSelector s) (spec_Tolerations s) (spec_TopologySpreadConstraints s) x
    (spec_HostAliases s) (spec_ActiveDeadlineSeconds s) (spec_TerminationGracePeriodSeconds s) (spec_DNSPolicy
    s) (spec_DNSConfig s) (spec_Rest s).
Definition with_HostAliases (x : option (list opaque)) (s : PodSpec) : PodSpec :=
  mkSpec (spec_NodeName s) (spec_SchedulerName s) (spec_ServiceAccountName s) (spec_EnableServiceLinks s)
    (spec_AutomountServiceAccountToken s) (spec_InitContainers s) (spec_Containers s) (spec_Volumes s)
    (spec_ImagePullSecrets s) (spec_NodeSelector s) (spec_Tolerations s) (spec_TopologySpreadConstraints s)
    (spec_Affinity s) x (spec_ActiveDeadlineSeconds s) (spec_TerminationGracePeriodSeconds s) (spec_DNSPolicy
    s) (spec_DNSConfig s) (spec_Rest s).
Definition with_ActiveDeadlineSeconds (x : option Z) (s : PodSpec) : PodSpec :=
  mkSpec (spec_NodeName s) (spec_SchedulerName s) (spec_ServiceAccountName s) (spec_EnableServiceLinks s)
    (spec_AutomountServiceAccountToken s) (spec_InitContainers s) (spec_Containers s) (spec_Volumes s)
    (spec_ImagePullSecrets s) (spec_NodeSelector s) (spec_Tolerations s) (spec_TopologySpreadConstraints s)
    (spec_Affinity s) (spec_HostAliases s) x (spec_TerminationGracePeriodSeconds s) (spec_DNSPolicy s)
    (spec_DNSConfig s) (spec_Rest s).
Definition with_DNSPolicy (x : string) (s : PodSpec) : PodSpec :=
  mkSpec (spec_NodeName s) (spec_SchedulerName s) (spec_ServiceAccountName s) (spec_EnableServiceLinks s)
    (spec_AutomountServiceAccountToken s) (spec_InitContainers s) (spec_Containers s) (spec_Volumes s)
    (spec_ImagePullSecrets s) (spec_NodeSelector s) (spec_Tolerations s) (spec_TopologySpreadConstraints s)
    (spec_Affinity s) (spec_HostAliases s) (spec_ActiveDeadlineSeconds s) (spec_TerminationGracePeriodSeconds
    s) x (spec_DNSConfig s) (spec_Rest s).
Definition with_DNSConfig (x : option DNSConfig) (s : PodSpec) : PodSpec :=
  mkSpec (spec_NodeName s) (spec_SchedulerName s) (spec_ServiceAccountName s) (spec_EnableServiceLinks s)
    (spec_AutomountServiceAccountToken s) (spec_InitContainers s) (spec_Containers s) (spec_Volumes s)
    (spec_ImagePullSecrets s) (spec_NodeSelector s) (spec_Tolerations s) (spec_TopologySpreadConstraints s)
    (spec_Affinity s) (spec_HostAliases s) (spec_ActiveDeadlineSeconds s) (spec_TerminationGracePeriodSeconds
    s) (spec_DNSPolicy s) x (spec_Rest s).
