(* ===== verification/PodExpand.v ===== *)
(** Variable references in container environments: utils/lifted/expand.go.

[Expand] is the loop of the source, over indices into the input, defined by recursion
on the bytes that are left. [expand_ref] says what it means on the text itself, and
[print_pieces] writes the texts whose expansion is determined piece by piece. *)
From Equations Require Import Equations.
From S2P Require Import Prelude GoStr.
Unset Equations With Funext.

(** A value together with the equation that gives it, for the recursion below. *)
Definition inspect {A : Type} (a : A) : {b : A | a = b} := exist _ a eq_refl.

Definition operator : ascii := "$".
Definition referenceOpener : ascii := "(".
Definition referenceCloser : ascii := ")".

Definition char (c : ascii) : string := String c EmptyString.

Definition syntaxWrap (input : string) : string :=
  char operator +:+ char referenceOpener +:+ input +:+ char referenceCloser.

(** The closure reads the maps when it is called; [context] are their contents then. *)
Definition MappingFuncFor (context : list (gmap string string)) (input : string) : string :=
  match collect (fun vars => vars !! input) context with
  | val :: _ => val
  | [] => syntaxWrap input
  end.

(** [string(b)] of a byte is the UTF-8 encoding of the rune with that number. *)
Definition rune_string (b : ascii) : string :=
  let n := nat_of_ascii b in
  if n <? 128 then char b
  else String (ascii_of_nat (192 + n / 64)) (char (ascii_of_nat (128 + n mod 64))).

(** [for i := 1; i < len(input); i++]: [n] iterations are left. *)
Fixpoint scan_closer (input : string) (n i : nat) : option nat :=
  match n with
  | 0 => None
  | S n' =>
      match String.get i input with
      | Some c => if bool_decide (c = referenceCloser) then Some i else scan_closer input n' (S i)
      | None => None
      end
  end.

(** What was read, whether it is a variable name, and the bytes consumed. *)
Definition tryReadVariableName (input : string) : outcome (string * bool * nat) :=
  c ← str_at input 0;
  if bool_decide (c = operator) then
    read ← slice input 0 1; Ret (read, false, 1)
  else if bool_decide (c = referenceOpener) then
    match scan_closer input (String.length input - 1) 1 with
    | Some i => read ← slice input 1 i; Ret (read, true, i + 1)
    | None => Ret (char operator +:+ char referenceOpener, false, 1)
    end
  else Ret (char operator +:+ rune_string c, false, 1).

(** The body of the loop at [cursor]: [None] if it does nothing, otherwise the text it
writes and the advance of the cursor. *)
Definition expand_at (input : string) (mapping : string -> string) (checkpoint cursor : nat) :
    outcome (option (string * nat)) :=
  c ← str_at input cursor;
  if bool_decide (c = operator) && (cursor + 1 <? String.length input) then
    copied ← slice input checkpoint cursor;
    rest ← slice_from input (cursor + 1);
    '(read, isVar, advance) ← tryReadVariableName rest;
    Ret (Some (copied +:+ (if (isVar : bool) then mapping read else read), advance))
  else Ret None.

Equations? expand_loop (input : string) (mapping : string -> string) (buf : string)
    (checkpoint cursor : nat) : outcome string by wf (String.length input - cursor) lt :=
  expand_loop input mapping buf checkpoint cursor with inspect (cursor <? String.length input) => {
    | exist _ false _ := rest ← slice_from input checkpoint; Ret (buf +:+ rest);
    | exist _ true _ with expand_at input mapping checkpoint cursor => {
      | Panic := Panic;
      | Ret None := expand_loop input mapping buf checkpoint (cursor + 1);
      | Ret (Some (text, advance)) :=
          expand_loop input mapping (buf +:+ text) (cursor + advance + 1) (cursor + advance + 1) } }.
Proof. all: match goal with H : (_ <? _) = true |- _ => apply Nat.ltb_lt in H end; lia. Defined.

Definition Expand (input : string) (mapping : string -> string) : outcome string :=
  expand_loop input mapping EmptyString 0 0.

(** * The meaning of a text *)

Fixpoint has_byte (c : ascii) (s : string) : bool :=
  match s with EmptyString => false | String d s' => bool_decide (d = c) || has_byte c s' end.

(** [expands m s t]: the expansion of [s] is [t]. A doubled operator stands for one, a
reference for the value of its name; an operator that begins no complete reference is
kept with the byte after it. *)
Inductive expands (m : string -> string) : string -> string -> Prop :=
  | expands_nil : expands m EmptyString EmptyString
  | expands_last : expands m (char operator) (char operator)
  | expands_byte c s t : c <> operator -> expands m s t -> expands m (String c s) (String c t)
  | expands_escape s t : expands m s t ->
      expands m (String operator (String operator s)) (String operator t)
  | expands_reference name s t : has_byte referenceCloser name = false -> expands m s t ->
      expands m (String operator (String referenceOpener (name +:+ String referenceCloser s))) (m name +:+ t)
  | expands_open s t : has_byte referenceCloser s = false -> expands m s t ->
      expands m (String operator (String referenceOpener s)) (String operator (String referenceOpener t))
  | expands_other c s t : c <> operator -> c <> referenceOpener -> expands m s t ->
      expands m (String operator (String c s)) (String operator (rune_string c +:+ t)).

(** A text made of literal parts and references, and how it is written. *)
Inductive piece := Text (s : string) | Reference (name : string).

Fixpoint escape_operators (s : string) : string :=
  match s with
  | EmptyString => EmptyString
  | String c s' => if bool_decide (c = operator) then String operator (String operator (escape_operators s'))
                   else String c (escape_operators s')
  end.

Definition print_piece (p : piece) : string :=
  match p with Text s => escape_operators s | Reference name => syntaxWrap name end.

Definition print_pieces (ps : list piece) : string := fold_right (fun p s => print_piece p +:+ s) EmptyString ps.

Definition piece_value (m : string -> string) (p : piece) : string :=
  match p with Text s => s | Reference name => m name end.

Definition pieces_value (m : string -> string) (ps : list piece) : string :=
  fold_right (fun p s => piece_value m p +:+ s) EmptyString ps.

Definition piece_ok (p : piece) : bool :=
  match p with Text _ => true | Reference name => negb (has_byte referenceCloser name) end.

Example Expand_ex :
  Expand "a$$b$(X)$(Y$z" (MappingFuncFor [{["X" := "1"]}]) = Ret "a$b1$(Y$z".
Proof. vm_compute. reflexivity. Qed.

(** * The loop follows the relation *)

Lemma has_byte_app c s t : has_byte c (s +:+ t) = has_byte c s || has_byte c t.
Proof. induction s as [|d s IH]; [done|]. rewrite str_app_cons. simpl. by rewrite IH, orb_assoc. Qed.

Lemma first_byte_unique c s1 t1 s2 t2 :
  has_byte c s1 = false -> has_byte c s2 = false ->
  s1 +:+ String c t1 = s2 +:+ String c t2 -> s1 = s2 /\ t1 = t2.
Proof.
  revert s2. induction s1 as [|d s1 IH]; intros [|e s2] H1 H2;
    rewrite ?str_app_nil_l, ?str_app_cons; intros [=]; subst; simpl in *; breflect; try done.
  destruct (IH s2) as [-> ->]; naive_solver.
Qed.

Lemma scan_closer_spec input n i : n = String.length input - i ->
  match scan_closer input n i with
  | Some j => exists name rest, j = i + String.length name /\ has_byte referenceCloser name = false /\
      str_drop i input = name +:+ String referenceCloser rest
  | None => has_byte referenceCloser (str_drop i input) = false
  end.
Proof.
  revert i. induction n as [|n IH]; intros i Hn; simpl; [by rewrite str_drop_all by lia|].
  rewrite str_get_drop. destruct (str_drop i input) as [|c r] eqn:E.
  { pose proof (str_drop_length i input) as L. rewrite E in L. simpl in L. lia. }
  case_bool_decide as Hc.
  - subst c. exists EmptyString, r. simpl. by rewrite Nat.add_0_r.
  - specialize (IH (S i)). rewrite (str_drop_cons _ _ _ _ E) in IH.
    destruct (scan_closer input n (S i)) as [j|].
    + destruct IH as (name & rest & -> & Hb & ->); [lia|]. exists (String c name), rest. simpl.
      rewrite bool_decide_false by done. split_and!; [lia|done|by rewrite str_app_cons].
    + simpl. rewrite bool_decide_false by done. apply IH. lia.
Qed.

Lemma slice_ret s i j : i <= j -> j <= String.length s -> slice s i j = Ret (str_take (j - i) (str_drop i s)).
Proof.
  intros H1 H2. unfold slice. by rewrite (proj2 (Nat.leb_le _ _) H1), (proj2 (Nat.leb_le _ _) H2).
Qed.

Lemma tryReadVariableName_spec m c s : exists read isVar adv,
  tryReadVariableName (String c s) = Ret (read, isVar, adv) /\
  1 <= adv <= String.length (String c s) /\
  (forall t, expands m (str_drop adv (String c s)) t ->
     expands m (String operator (String c s)) ((if (isVar : bool) then m read else read) +:+ t)).
Proof.
  unfold tryReadVariableName, str_at. cbn [String.get deref mbind outcome_bind].
  case_bool_decide as Hop; [subst c|].
  { rewrite slice_ret by (simpl; lia). eexists _, _, _. split; [done|]. split; [simpl; lia|].
    intros t Ht. simpl in *. by constructor. }
  case_bool_decide as Hro; [subst c|].
  2:{ eexists _, _, _. split; [done|]. split; [simpl; lia|]. intros t Ht. simpl in *.
      rewrite str_app_assoc. by constructor. }
  cbn [String.length]. replace (S (String.length s) - 1) with (String.length (String referenceOpener s) - 1) by (simpl; lia).
  pose proof (scan_closer_spec (String referenceOpener s) _ 1 eq_refl) as Hs.
  destruct (scan_closer _ _ 1) as [j|].
  - destruct Hs as (name & rest & -> & Hn & Hd). simpl in Hd. subst s.
    rewrite slice_ret by (autorewrite with kosmos_str; simpl; rewrite ?str_length_app; simpl; lia).
    replace (1 + String.length name - 1) with (String.length name) by lia. simpl str_drop at 1.
    cbn [mbind outcome_bind]. rewrite str_take_app. eexists _, _, _. split; [done|].
    split; [rewrite str_length_app; simpl; lia|]. intros t. simpl.
    replace (String.length name + 1) with (String.length (name +:+ char referenceCloser))
      by (rewrite str_length_app; simpl; lia).
    replace (name +:+ String referenceCloser rest) with ((name +:+ char referenceCloser) +:+ rest) at 1
      by by rewrite str_app_assoc.
    rewrite str_drop_app. by constructor.
  - eexists _, _, _. split; [done|]. split; [lia|]. intros t Ht. simpl in *. by constructor.
Qed.

Lemma expand_loop_eq input m buf checkpoint cursor :
  expand_loop input m buf checkpoint cursor =
  if cursor <? String.length input then
    match expand_at input m checkpoint cursor with
    | Panic => Panic
    | Ret None => expand_loop input m buf checkpoint (cursor + 1)
    | Ret (Some (text, advance)) =>
        expand_loop input m (buf +:+ text) (cursor + advance + 1) (cursor + advance + 1)
    end
  else rest ← slice_from input checkpoint; Ret (buf +:+ rest).
Proof.
  etrans; [apply expand_loop_equation_1|].
  destruct (inspect (cursor <? String.length input)) as [[|] Hlt]; cbn [expand_loop_unfold_clause_1];
    [destruct (expand_at input m checkpoint cursor) as [[[text advance]|]|];
     cbn [expand_loop_unfold_clause_1_clause_2]|]; by rewrite Hlt.
Qed.

(** One iteration: the bytes copied and written are a prefix of the expansion. *)
Lemma expand_at_spec input m checkpoint cursor :
  checkpoint <= cursor < String.length input ->
  exists o, expand_at input m checkpoint cursor = Ret o /\
  match o with
  | None => exists c, str_drop cursor input = String c (str_drop (cursor + 1) input) /\
      forall t, expands m (str_drop (cursor + 1) input) t -> expands m (str_drop cursor input) (String c t)
  | Some (text, advance) => cursor + advance + 1 <= String.length input /\ exists written,
      text = str_take (cursor - checkpoint) (str_drop checkpoint input) +:+ written /\
      forall t, expands m (str_drop (cursor + advance + 1) input) t ->
        expands m (str_drop cursor input) (written +:+ t)
  end.
Proof.
  intros [Hcp Hcur]. pose proof (str_drop_length cursor input) as L. unfold expand_at, str_at. rewrite str_get_drop.
  destruct (str_drop cursor input) as [|c r] eqn:E; [simpl in L; lia|]. cbn [deref mbind outcome_bind].
  pose proof (str_drop_cons _ _ _ _ E) as E1. rewrite <- Nat.add_1_r in E1.
  destruct (Nat.ltb_spec (cursor + 1) (String.length input)); case_bool_decide as Hc; cbn [andb];
    [subst c | eexists; (split; [done|]); exists c; rewrite E1; split; [done|]; intros t Ht..].
  - rewrite slice_ret by lia. unfold slice_from. rewrite slice_ret by lia. cbn [mbind outcome_bind].
    rewrite (str_take_all (String.length input - (cursor + 1))) by (rewrite str_drop_length; lia). rewrite E1.
    destruct r as [|d s]; [simpl in L; lia|].
    destruct (tryReadVariableName_spec m d s) as (read & isVar & adv & -> & Ha & Hx). simpl in L, Ha.
    eexists. split; [done|]. cbn. split; [lia|]. eexists. split; [done|]. intros t Ht. apply Hx.
    rewrite <- E1, str_drop_drop. by replace (cursor + 1 + adv) with (cursor + adv + 1) by lia.
  - by constructor.
  - subst c. destruct r; [|simpl in L; lia]. inversion Ht. constructor.
  - by constructor.
Qed.

(** The loop, from a state in which [input[checkpoint:cursor]] is still to be copied. *)
Lemma expand_loop_spec input m n : forall buf checkpoint cursor,
  n = String.length input - cursor -> checkpoint <= cursor <= String.length input ->
  exists t, expands m (str_drop cursor input) t /\
    expand_loop input m buf checkpoint cursor =
    Ret (buf +:+ str_take (cursor - checkpoint) (str_drop checkpoint input) +:+ t).
Proof.
  induction (lt_wf n) as [n _ IH]. intros buf cp cur -> [Hcp Hcur]. rewrite expand_loop_eq.
  destruct (Nat.ltb_spec cur (String.length input)).
  2:{ exists EmptyString. rewrite str_drop_all by lia. split; [constructor|].
      unfold slice_from. rewrite slice_ret by lia. cbn [mbind outcome_bind].
      by replace (String.length input) with cur by lia; autorewrite with kosmos_str. }
  destruct (expand_at_spec input m cp cur) as (o & -> & Ho); [lia|]. destruct o as [[text adv]|].
  - destruct Ho as (Hle & written & -> & Hx).
    match goal with |- context [expand_loop _ _ ?b ?c ?d] => destruct (IH (String.length input - d)
      ltac:(lia) b c d eq_refl ltac:(lia)) as (t & Ht & ->) end.
    exists (written +:+ t). split; [by apply Hx|]. rewrite Nat.sub_diag. simpl str_take at 2.
    by autorewrite with kosmos_str.
  - destruct Ho as (c & Hd & Hx).
    destruct (IH (String.length input - (cur + 1)) ltac:(lia) buf cp (cur + 1) eq_refl ltac:(lia)) as (t & Ht & ->).
    exists (String c t). split; [by apply Hx|].
    replace (cur + 1 - cp) with ((cur - cp) + 1) by lia. rewrite str_take_add, str_drop_drop.
    replace (cp + (cur - cp)) with cur by lia. rewrite Hd. simpl str_take at 2.
    by autorewrite with kosmos_str.
Qed.

(** The relation is a function. *)
Lemma expands_det m s t1 : expands m s t1 -> forall t2, expands m s t2 -> t1 = t2.
Proof.
  induction 1; intros t2 H2; inversion H2; subst; try done; try naive_solver;
    rewrite ?has_byte_app in *; simpl in *; breflect; try done; try naive_solver.
  match goal with H : _ +:+ _ = _ +:+ _ |- _ => apply first_byte_unique in H as [-> ->]; [|done..] end.
  f_equal. auto.
Qed.

Lemma Expand_total s m : exists t, expands m s t /\ Expand s m = Ret t.
Proof.
  destruct (expand_loop_spec s m _ EmptyString 0 0 eq_refl ltac:(lia)) as (t & Ht & E).
  exists t. split; [done|]. unfold Expand. rewrite E. done.
Qed.

Lemma Expand_expands s t m : expands m s t -> Expand s m = Ret t.
Proof. intros H. destruct (Expand_total s m) as (t' & Ht & ->). f_equal. by eapply expands_det. Qed.

(** A reference to a name that the first map has. *)
Lemma MappingFuncFor_first vars context name v : vars !! name = Some v -> MappingFuncFor (vars :: context) name = v.
Proof. intros H. unfold MappingFuncFor. simpl. by rewrite H. Qed.

(** C8: [Expand] terminates on every text without a panic, and its result is the one the
rules of the expansion syntax give: doubled operators, complete references replaced by
the mapping, everything else kept. *)
Theorem Expand_spec (s t : string) (m : string -> string) : Expand s m = Ret t <-> expands m s t.
Proof.
  split; [|apply Expand_expands]. destruct (Expand_total s m) as (t' & Ht & ->). by intros [= <-].
Qed.

Lemma expands_escape_app m s s' t : expands m s' t -> expands m (escape_operators s +:+ s') (s +:+ t).
Proof.
  intros H. induction s as [|c s IH]; [done|]. simpl. case_bool_decide; subst;
    rewrite !str_app_cons; by constructor.
Qed.

(** A text printed from literal parts and references expands to the literal parts and
the values of the references, in order: doubling the operator escapes any text. *)
Theorem Expand_print (ps : list piece) (m : string -> string) : forallb piece_ok ps = true ->
  Expand (print_pieces ps) m = Ret (pieces_value m ps).
Proof.
  intros Hok. apply Expand_expands. induction ps as [|[s|name] ps IH]; simpl in *.
  - constructor.
  - apply expands_escape_app. auto.
  - breflect. unfold syntaxWrap. unfold char. autorewrite with kosmos_str. constructor; auto.
Qed.

Lemma Expand_print_witness :
  Expand (print_pieces [Text "a$(b"; Reference "X"; Text "$"]) (MappingFuncFor [{["X" := "1"]}]) = Ret "a$(b1$".
Proof. apply (Expand_print [Text "a$(b"; Reference "X"; Text "$"]). reflexivity. Defined.

(** After an operator, a byte of a longer UTF-8 sequence is encoded once more: the two
bytes of a letter with an accent become four. *)
Example Expand_not_ascii :
  let e := String (ascii_of_nat 195) (String (ascii_of_nat 169) EmptyString) in
  Expand ("$" +:+ e) (fun s => s) = Ret ("$" +:+ String (ascii_of_nat 195) (String (ascii_of_nat 131) (String (ascii_of_nat 169) EmptyString))).
Proof. vm_compute. reflexivity. Qed.
