(* ===== verification/PodEnv.v ===== *)
(** The environment of containers: utils/lifted/env.go.

The config maps, secrets and services of the host cluster come from an
[EnvResourceManager] (utils/k8s.go); the validation functions of Kubernetes and the order
of Go maps are parameters. [populateContainerEnvironment] mutates the container; here it
returns the new one. *)
From S2P Require Import Prelude GoStr PodApi PodExpand.

Class EnvResourceManager := mkManager {
  GetConfigMap : string -> string -> got ConfigMap;
  GetSecret : string -> string -> got Secret;
  ListServices : result (list Service) }.

(** * The variables of services *)

Definition IsServiceIPSet (service : Service) : bool :=
  negb (svc_ClusterIP service =s "None") && negb (svc_ClusterIP service =s EmptyString).

Definition makeEnvVariableName (str : string) : string := ToUpper (Replace "-" "_" str).

(** [net.JoinHostPort] *)
Definition JoinHostPort (host port : string) : string :=
  if Contains_str host ":" then "[" +:+ host +:+ "]:" +:+ port
  else host +:+ ":" +:+ port.

Definition envvar (name value : string) : EnvVar := mkEnvVar name value None.

Definition makeLinkVariables (service : Service) : list EnvVar :=
  let prefix := makeEnvVariableName (svc_Name service) in
  concat (imap (fun i sp =>
    let protocol := if negb (port_Protocol sp =s EmptyString) then port_Protocol sp else "TCP" in
    let hostPort := JoinHostPort (svc_ClusterIP service) (pretty (port_Port sp)) in
    let portPrefix := prefix +:+ "_PORT_" +:+ pretty (port_Port sp) +:+ "_" +:+ ToUpper protocol in
    (if i =? 0 then [envvar (prefix +:+ "_PORT") (ToLower protocol +:+ "://" +:+ hostPort)] else []) ++
    [envvar portPrefix (ToLower protocol +:+ "://" +:+ hostPort);
     envvar (portPrefix +:+ "_PROTO") (ToLower protocol);
     envvar (portPrefix +:+ "_PORT") (pretty (port_Port sp));
     envvar (portPrefix +:+ "_ADDR") (svc_ClusterIP service)]) (svc_Ports service)).

(** The variables of one service; a service without ports panics. *)
Definition service_vars (service : Service) : outcome (list EnvVar) :=
  if negb (IsServiceIPSet service) then Ret []
  else
    let host := makeEnvVariableName (svc_Name service) +:+ "_SERVICE_HOST" in
    let name := makeEnvVariableName (svc_Name service) +:+ "_SERVICE_PORT" in
    first_port ← deref (svc_Ports service !! 0);
    Ret ([envvar host (svc_ClusterIP service); envvar name (pretty (port_Port first_port))] ++
         collect (fun sp => if negb (port_Name sp =s EmptyString)
                            then Some (envvar (name +:+ "_" +:+ makeEnvVariableName (port_Name sp)) (pretty (port_Port sp)))
                            else None) (svc_Ports service) ++
         makeLinkVariables service).

Definition FromServices (services : list Service) : outcome (list EnvVar) :=
  foldM (fun result service => vars ← service_vars service; Ret (result ++ vars)) services [].

Definition masterServices : list string := ["kubernetes"].

(** The services a pod in namespace [ns] sees, by name. *)
Definition project_service (ns : string) (enableServiceLinks : bool) (serviceMap : gmap string Service)
    (service : Service) : gmap string Service :=
  if negb (IsServiceIPSet service) then serviceMap
  else if (svc_Namespace service =s "default") && bool_decide (svc_Name service ∈ masterServices) then
    match serviceMap !! svc_Name service with
    | Some _ => serviceMap
    | None => <[svc_Name service := service]> serviceMap
    end
  else if (svc_Namespace service =s ns) && enableServiceLinks then <[svc_Name service := service]> serviceMap
  else serviceMap.

(** * Fields of the pod *)

Definition SplitMaybeSubscriptedPath (fieldPath : string) : string * string * bool :=
  if negb (HasSuffix fieldPath "']") then (fieldPath, EmptyString, false)
  else
    match cut "['" (TrimSuffix fieldPath "']") with
    | None => (fieldPath, EmptyString, false)
    | Some (path, subscript) =>
        if str_empty path then (fieldPath, EmptyString, false) else (path, subscript, true)
    end.

Definition downward_labels : list string :=
  ["metadata.annotations"; "metadata.labels"; "metadata.name"; "metadata.namespace"; "metadata.uid";
   "spec.nodeName"; "spec.restartPolicy"; "spec.serviceAccountName"; "spec.schedulerName";
   "status.phase"; "status.hostIP"; "status.podIP"; "status.podIPs"].

Definition ConvertDownwardAPIFieldLabel (version label value : string) : result (string * string) :=
  if negb (version =s "v1") then inr ("unsupported pod version: " +:+ version)
  else
    match SplitMaybeSubscriptedPath label with
    | (path, _, true) =>
        if bool_decide (path ∈ ["metadata.annotations"; "metadata.labels"]) then inl (label, value)
        else inr ("field label does not support subscript: " +:+ label)
    | (_, _, false) =>
        if bool_decide (label ∈ downward_labels) then inl (label, value)
        else if label =s "spec.host" then inl ("spec.nodeName", value)
        else inr ("field label not supported: " +:+ label)
    end.

Definition newline : string := String (ascii_of_nat 10) EmptyString.

Definition FormatMap (m : smap) : string :=
  TrimSuffix
    (fold_left (fun fmtStr key => fmtStr +:+ key +:+ "=" +:+ Quote (get m key) +:+ newline)
       (merge_sort String.le (map fst (map_to_list m))) EmptyString) newline.

Section Env.
Context `{EnvResourceManager}.
(** [len(IsEnvVarName(name)) == 0], and the errors of [IsQualifiedName]. *)
Context (IsEnvVarName : string -> bool) (IsQualifiedName : string -> list string).
(** The order in which a Go map is traversed. *)
Context (range : forall V : Type, gmap string V -> list (string * V)).

Definition getServiceEnvVarMap (ns : string) (enableServiceLinks : bool) : outcome (result smap) :=
  match ListServices with
  | inr err => Ret (inr err)
  | inl services =>
      let serviceMap := fold_left (project_service ns enableServiceLinks) services ∅ in
      vars ← FromServices (map snd (range _ serviceMap));
      Ret (inl (fold_left (fun m e => <[ev_Name e := ev_Value e]> m) vars ∅))
  end.

Definition ExtractFieldPathAsString (pod : Pod) (fieldPath : string) : result string :=
  match SplitMaybeSubscriptedPath fieldPath with
  | (path, subscript, true) =>
      if path =s "metadata.annotations" then
        match IsQualifiedName (ToLower subscript) with
        | [] => inl (get (map_of (annotations pod)) subscript)
        | errs => inr ("invalid key subscript in " +:+ fieldPath +:+ ": " +:+ Join ";" errs)
        end
      else if path =s "metadata.labels" then
        match IsQualifiedName subscript with
        | [] => inl (get (map_of (labels pod)) subscript)
        | errs => inr ("invalid key subscript in " +:+ fieldPath +:+ ": " +:+ Join ";" errs)
        end
      else inr ("fieldPath " +:+ Quote fieldPath +:+ " does not support subscript")
  | (_, _, false) =>
      if fieldPath =s "metadata.annotations" then inl (FormatMap (map_of (annotations pod)))
      else if fieldPath =s "metadata.labels" then inl (FormatMap (map_of (labels pod)))
      else if fieldPath =s "metadata.name" then inl (om_Name (pod_Meta pod))
      else if fieldPath =s "metadata.namespace" then inl (om_Namespace (pod_Meta pod))
      else if fieldPath =s "metadata.uid" then inl (om_UID (pod_Meta pod))
      else inr ("unsupported fieldPath: " +:+ fieldPath)
  end.

Definition podFieldSelectorRuntimeValue (fs : FieldRef) (pod : Pod) : result string :=
  match ConvertDownwardAPIFieldLabel (fr_APIVersion fs) (fr_FieldPath fs) EmptyString with
  | inr err => inr err
  | inl (internalFieldPath, _) =>
      if internalFieldPath =s "spec.serviceAccountName" then inl (spec_ServiceAccountName (pod_Spec pod))
      else ExtractFieldPathAsString pod internalFieldPath
  end.

(** * The variables of a container *)

Definition is_true (b : option bool) : bool := bool_decide (b = Some true).

(** The value a key of a config map or secret gives: none if the reference is optional and
leads nowhere. *)
Definition key_value {A : Type} (kind : string) (data : A -> smap) (read : got A) (vf : KeyRef) (pod : Pod) :
    result (option string) :=
  match read with
  | NotFound _ => if is_true (kr_Optional vf) then inl None
                  else inr (kind +:+ " " +:+ Quote (kr_Name vf) +:+ " not found")
  | Failed err => if is_true (kr_Optional vf) then inl None
                  else inr ("failed to read " +:+ kind +:+ " " +:+ Quote (kr_Name vf) +:+ ": " +:+ err)
  | Found m =>
      match data m !! kr_Key vf with
      | Some value => inl (Some value)
      | None => if is_true (kr_Optional vf) then inl None
                else inr (kind +:+ " " +:+ Quote (kr_Name vf) +:+ " doesn't contain the " +:+ Quote (kr_Key vf) +:+
                          " key required by pod " +:+ om_Name (pod_Meta pod))
      end
  end.

Definition getEnvironmentVariableValueWithValueFromConfigMapKeyRef (vf : KeyRef) (pod : Pod) : result (option string) :=
  key_value "configmap" cm_Data (GetConfigMap (kr_Name vf) (om_Namespace (pod_Meta pod))) vf pod.

Definition getEnvironmentVariableValueWithValueFromSecretKeyRef (vf : KeyRef) (pod : Pod) : result (option string) :=
  key_value "secret" sec_Data (GetSecret (kr_Name vf) (om_Namespace (pod_Meta pod))) vf pod.

Definition getEnvironmentVariableValueWithValueFromFieldRef (vf : FieldRef) (pod : Pod) : result (option string) :=
  match podFieldSelectorRuntimeValue vf pod with
  | inr err => inr err
  | inl runtimeVal => inl (Some runtimeVal)
  end.

Definition getEnvironmentVariableValueWithValueFrom (src : EnvVarSource) (pod : Pod) : result (option string) :=
  match src_ConfigMapKeyRef src, src_SecretKeyRef src, src_FieldRef src with
  | Some vf, _, _ => getEnvironmentVariableValueWithValueFromConfigMapKeyRef vf pod
  | None, Some vf, _ => getEnvironmentVariableValueWithValueFromSecretKeyRef vf pod
  | None, None, Some vf => getEnvironmentVariableValueWithValueFromFieldRef vf pod
  | None, None, None => inl None
  end.

Definition getEnvironmentVariableValue (env : EnvVar) (mappingFunc : string -> string) (pod : Pod) :
    outcome (result (option string)) :=
  match ev_ValueFrom env with
  | Some src => Ret (getEnvironmentVariableValueWithValueFrom src pod)
  | None => value ← Expand (ev_Value env) mappingFunc; Ret (inl (Some value))
  end.

(** The loop over the data of one source of [envFrom]. *)
Definition add_keys (prefix : string) (data : smap) (res : smap) : smap :=
  fold_left (fun res '(key, val) =>
    let key := if 0 <? String.length prefix then prefix +:+ key else key in
    if IsEnvVarName key then <[key := val]> res else res) (range _ data) res.

(** One source: the environment with its keys, or without it if it is optional. *)
Definition add_source {A : Type} (kind : string) (data : A -> smap) (read : got A) (ef : NameRef) (prefix : string)
    (res : smap) : result smap :=
  match read with
  | Found m => inl (add_keys prefix (data m) res)
  | NotFound _ => if is_true (nr_Optional ef) then inl res
                  else inr (kind +:+ " " +:+ Quote (nr_Name ef) +:+ " not found")
  | Failed err => if is_true (nr_Optional ef) then inl res
                  else inr ("failed to fetch " +:+ kind +:+ " " +:+ Quote (nr_Name ef) +:+ ": " +:+ err)
  end.

Definition add_envFrom (ns : string) (res : smap) (envFrom : EnvFromSource) : result smap :=
  match ef_ConfigMapRef envFrom, ef_SecretRef envFrom with
  | Some ef, _ => add_source "configmap" cm_Data (GetConfigMap (nr_Name ef) ns) ef (ef_Prefix envFrom) res
  | None, Some ef => add_source "secret" sec_Data (GetSecret (nr_Name ef) ns) ef (ef_Prefix envFrom) res
  | None, None => inl res
  end.

Fixpoint envFrom_loop (ns : string) (envFroms : list EnvFromSource) (res : smap) : result smap :=
  match envFroms with
  | [] => inl res
  | envFrom :: rest => match add_envFrom ns res envFrom with
                       | inr err => inr err
                       | inl res' => envFrom_loop ns rest res'
                       end
  end.

Definition makeEnvironmentMapBasedOnEnvFrom (pod : Pod) (container : Container) : result smap :=
  envFrom_loop (om_Namespace (pod_Meta pod)) (ct_EnvFrom container) ∅.

(** The loop over [container.Env]: the map, which the mapping function reads as well, and
the variables whose value could not be determined. *)
Definition add_env (pod : Pod) (svcEnv : smap) (st : smap * list EnvVar) (env : EnvVar) : outcome (smap * list EnvVar) :=
  let '(res, keys) := st in
  val ← getEnvironmentVariableValue env (MappingFuncFor [res; svcEnv]) pod;
  Ret (match val with
       | inr _ => (res, keys ++ [env])
       | inl None => (res, keys)
       | inl (Some v) => (<[ev_Name env := v]> res, keys)
       end).

Definition add_service_vars (svcEnv : smap) (res : smap) : smap :=
  fold_left (fun res '(k, v) => match res !! k with Some _ => res | None => <[k := v]> res end) (range _ svcEnv) res.

Definition makeEnvironmentMap (pod : Pod) (container : Container) (res : smap) :
    outcome (result (smap * list EnvVar)) :=
  let enableServiceLinks := default true (spec_EnableServiceLinks (pod_Spec pod)) in
  svc ← getServiceEnvVarMap (om_Namespace (pod_Meta pod)) enableServiceLinks;
  match svc with
  | inr err => Ret (inr err)
  | inl svcEnv =>
      '(res, keys) ← foldM (add_env pod svcEnv) (ct_Env container) (res, []);
      Ret (inl (add_service_vars svcEnv res, keys))
  end.

Definition set_env (c : Container) (env : list EnvVar) : Container :=
  mkContainer (ct_Name c) (ct_Image c) env [] (ct_VolumeMounts c) (ct_Rest c).

Definition populateContainerEnvironment (pod : Pod) (container : Container) : outcome (result Container) :=
  match makeEnvironmentMapBasedOnEnvFrom pod container with
  | inr err => Ret (inr err)
  | inl tmpEnv =>
      made ← makeEnvironmentMap pod container tmpEnv;
      Ret (match made with
           | inr err => inr err
           | inl (tmpEnv, envs) =>
               inl (set_env container (map (fun '(key, val) => envvar key val) (range _ tmpEnv) ++ envs))
           end)
  end.

(** The containers in order; after an error the rest are left as they were. *)
Fixpoint populate_all (pod : Pod) (cs : list Container) : outcome (list Container * option string) :=
  match cs with
  | [] => Ret ([], None)
  | c :: cs' =>
      done ← populateContainerEnvironment pod c;
      match done with
      | inr err => Ret (c :: cs', Some err)
      | inl c' => '(rest, err) ← populate_all pod cs'; Ret (c' :: rest, err)
      end
  end.

Definition PopulateEnvironmentVariables (pod : Pod) : outcome (Pod * option string) :=
  '(inits, err) ← populate_all pod (spec_InitContainers (pod_Spec pod));
  let pod := on_Spec (with_InitContainers inits) pod in
  match err with
  | Some err => Ret (pod, Some err)
  | None =>
      '(cs, err) ← populate_all pod (spec_Containers (pod_Spec pod));
      Ret (on_Spec (with_Containers cs) pod, err)
  end.
End Env.

(** * What the maps contain *)

Section Facts.
Context `{EnvResourceManager} (IsEnvVarName : string -> bool) (IsQualifiedName : string -> list string).

(** What one source of [envFrom] gives for a name: the value under the name without the
prefix, if the name is valid. *)
Definition data_value (prefix : string) (data : smap) (k : string) : option string :=
  if IsEnvVarName k && HasPrefix k prefix then data !! TrimPrefix k prefix else None.

Definition source_value (ns : string) (envFrom : EnvFromSource) (k : string) : option string :=
  match ef_ConfigMapRef envFrom, ef_SecretRef envFrom with
  | Some ef, _ => match GetConfigMap (nr_Name ef) ns with
                  | Found m => data_value (ef_Prefix envFrom) (cm_Data m) k | _ => None end
  | None, Some ef => match GetSecret (nr_Name ef) ns with
                     | Found m => data_value (ef_Prefix envFrom) (sec_Data m) k | _ => None end
  | None, None => None
  end.

(** The value the sources give together: the last one that has the name. *)
Fixpoint sources_value (ns : string) (envFroms : list EnvFromSource) (k : string) : option string :=
  match envFroms with
  | [] => None
  | envFrom :: rest => match sources_value ns rest k with Some v => Some v | None => source_value ns envFrom k end
  end.

Context (range : forall V : Type, gmap string V -> list (string * V)).
Context (range_perm : forall V m, range V m ≡ₚ map_to_list m).

Lemma range_map V (m : gmap string V) : (list_to_map (range V m) : gmap string V) = m.
Proof.
  trans (list_to_map (map_to_list m) : gmap string V); [|apply list_to_map_to_list].
  apply list_to_map_proper; [|apply range_perm]. rewrite range_perm. apply NoDup_fst_map_to_list.
Qed.

Lemma range_NoDup V (m : gmap string V) : NoDup (range V m).*1.
Proof. rewrite range_perm. apply NoDup_fst_map_to_list. Qed.

Lemma prefixed_key prefix key :
  (if 0 <? String.length prefix then prefix +:+ key else key) = prefix +:+ key.
Proof. by destruct prefix. Qed.

Lemma prefixed_iff prefix key k :
  k = prefix +:+ key <-> HasPrefix k prefix = true /\ TrimPrefix k prefix = key.
Proof.
  split; [intros ->; by rewrite HasPrefix_app, TrimPrefix_app|].
  intros [Hp <-]. by apply HasPrefix_true.
Qed.

Lemma add_keys_lookup prefix data res k :
  add_keys IsEnvVarName range prefix data res !! k =
  match data_value prefix data k with Some v => Some v | None => res !! k end.
Proof.
  unfold add_keys, data_value. rewrite <- (range_map _ data) at 2.
  generalize (range_NoDup _ data). generalize (range _ data) as l.
  intros l. revert res. induction l as [|[key val] l IH]; intros res Hnd; cbn [fold_left list_to_map foldr].
  { rewrite lookup_empty. by destruct (_ && _). }
  apply list.NoDup_cons in Hnd as [Hni Hnd]. simpl in Hni. rewrite IH by done. rewrite prefixed_key. clear IH.
  destruct (decide (k = prefix +:+ key)) as [->|Hk].
  - rewrite HasPrefix_app, TrimPrefix_app, andb_true_r. simpl. rewrite lookup_insert_eq.
    rewrite (not_elem_of_list_to_map_1 (M := gmap string)) by done.
    destruct (IsEnvVarName (prefix +:+ key)); [by rewrite lookup_insert_eq|done].
  - destruct (IsEnvVarName k && HasPrefix k prefix) eqn:E.
    + breflect. simpl. rewrite lookup_insert_ne; [|intros ->; apply Hk; by apply prefixed_iff].
      destruct (list_to_map l !! TrimPrefix k prefix); [done|].
      destruct (IsEnvVarName (prefix +:+ key)); [by rewrite lookup_insert_ne|done].
    + destruct (IsEnvVarName (prefix +:+ key)); [by rewrite lookup_insert_ne|done].
Qed.

Lemma envFrom_loop_lookup ns envFroms res res' k :
  envFrom_loop IsEnvVarName range ns envFroms res = inl res' ->
  res' !! k = match sources_value ns envFroms k with Some v => Some v | None => res !! k end.
Proof.
  revert res. induction envFroms as [|ef l IH]; intros res; simpl; [by intros [= <-]|].
  destruct (add_envFrom _ _ _ _ _) as [r|] eqn:E; [|done]. intros ->%IH.
  destruct (sources_value ns l k); [done|].
  unfold add_envFrom in E. unfold source_value.
  destruct (ef_ConfigMapRef ef) as [r1|]; [|destruct (ef_SecretRef ef) as [r2|]]; unfold add_source in E;
    (destruct (GetConfigMap _ _) || destruct (GetSecret _ _) || idtac);
    try destruct (is_true _); simplify_eq; by rewrite ?add_keys_lookup.
Qed.

Lemma add_service_vars_lookup svcEnv res k :
  add_service_vars range svcEnv res !! k = match res !! k with Some v => Some v | None => svcEnv !! k end.
Proof.
  unfold add_service_vars. replace (svcEnv !! k) with ((list_to_map (range _ svcEnv) : smap) !! k) by (by rewrite range_map).
  generalize (range_NoDup _ svcEnv). generalize (range _ svcEnv) as l.
  intros l. revert res. induction l as [|[key val] l IH]; intros res Hnd; cbn [fold_left list_to_map foldr].
  { rewrite lookup_empty. by destruct (res !! k). }
  apply list.NoDup_cons in Hnd as [Hni Hnd]. rewrite IH by done. simpl. clear IH.
  destruct (decide (k = key)) as [->|Hk].
  - rewrite lookup_insert_eq. destruct (res !! key) eqn:E; [by rewrite E|by rewrite lookup_insert_eq].
  - rewrite lookup_insert_ne by done. destruct (res !! key); [done|by rewrite lookup_insert_ne].
Qed.

(** ** Services *)

Lemma project_services_elem ns links services m k s :
  fold_left (project_service ns links) services m !! k = Some s ->
  m !! k = Some s \/ (s ∈ services /\ IsServiceIPSet s = true).
Proof.
  revert m. induction services as [|x l IH]; intros m; simpl; [by left|]. intros [Hm|[? ?]]%IH; [|right; set_solver].
  unfold project_service in Hm. destruct (IsServiceIPSet x) eqn:E; simpl in Hm; [|by left].
  assert (Hi : forall m', (m' = m \/ m' = <[svc_Name x := x]> m) -> m' !! k = Some s ->
    m !! k = Some s \/ s ∈ x :: l /\ IsServiceIPSet s = true).
  { intros m' [->| ->]; [by left|]. intros [[_ <-]|[_ ?]]%lookup_insert_Some; [right; split; [by left|done]|by left]. }
  eapply Hi; [|exact Hm]. repeat case_match; auto.
Qed.

Lemma service_vars_total s : (IsServiceIPSet s = true -> svc_Ports s <> []) -> exists vars, service_vars s = Ret vars.
Proof.
  intros Hs. unfold service_vars. destruct (IsServiceIPSet s); simpl; [|eauto].
  destruct (svc_Ports s); [by destruct Hs|]. simpl. eauto.
Qed.

Lemma getServiceEnvVarMap_total services ns links :
  ListServices = inl services ->
  (forall s, s ∈ services -> IsServiceIPSet s = true -> svc_Ports s <> []) ->
  exists svcEnv, getServiceEnvVarMap range ns links = Ret (inl svcEnv).
Proof.
  intros Hl Hp. unfold getServiceEnvVarMap. rewrite Hl. unfold FromServices.
  set (m := fold_left _ services ∅).
  destruct (foldM_inv (fun _ => True) (fun result service => vars ← service_vars service; Ret (result ++ vars))
    (map snd (range _ m)) []) as (vars & -> & _); [|done|eexists; reflexivity].
  intros acc s Hs _. destruct (service_vars_total s) as (vars & ->); [|by eexists].
  intros Hip. apply Hp; [|done]. apply list_elem_of_fmap in Hs as ([k s'] & -> & Hks). simpl in *.
  rewrite range_perm in Hks. apply elem_of_map_to_list in Hks.
  by apply project_services_elem in Hks as [?|[? _]].
Qed.

(** ** The loop over the variables *)

(** A variable whose value the objects of the host cluster do not give. *)
Definition unresolvable (pod : Pod) (e : EnvVar) : bool :=
  match ev_ValueFrom e with
  | Some src => match getEnvironmentVariableValueWithValueFrom IsQualifiedName src pod with inr _ => true | inl _ => false end
  | None => false
  end.

Lemma add_env_total pod svcEnv r ks e : exists r',
  add_env IsQualifiedName pod svcEnv (r, ks) e = Ret (r', ks ++ (if unresolvable pod e then [e] else [])) /\
  forall k, ev_Name e <> k -> r' !! k = r !! k.
Proof.
  unfold add_env, getEnvironmentVariableValue, unresolvable. destruct (ev_ValueFrom e) as [src|].
  - destruct (getEnvironmentVariableValueWithValueFrom _ _ _) as [[v|]|]; simpl; rewrite ?app_nil_r;
      eexists; (split; [done|]); intros k Hk; by rewrite ?lookup_insert_ne.
  - destruct (Expand_total (ev_Value e) (MappingFuncFor [r; svcEnv])) as (t & _ & ->). simpl. rewrite app_nil_r.
    eexists; (split; [done|]); intros k Hk; by rewrite ?lookup_insert_ne.
Qed.

Lemma env_loop_total pod svcEnv envs : forall r ks, exists r',
  foldM (add_env IsQualifiedName pod svcEnv) envs (r, ks) = Ret (r', ks ++ List.filter (unresolvable pod) envs) /\
  forall k, (forall e, e ∈ envs -> ev_Name e <> k) -> r' !! k = r !! k.
Proof.
  induction envs as [|e envs IH]; intros r ks; cbn [foldM]; [exists r; by rewrite app_nil_r|].
  destruct (add_env_total pod svcEnv r ks e) as (r1 & -> & H1).
  destruct (IH r1 (ks ++ if unresolvable pod e then [e] else [])) as (r2 & -> & H2). exists r2. split.
  - rewrite <- app_assoc. simpl. by destruct (unresolvable pod e).
  - intros k Hk. rewrite H2, H1; [done|apply Hk; by left|]. intros e' He'. apply Hk. by right.
Qed.

End Facts.

(** A subscript is read off a path, as the comment of the source shows. *)
Example SplitMaybeSubscriptedPath_examples :
  SplitMaybeSubscriptedPath "metadata.annotations['myKey']" = ("metadata.annotations", "myKey", true) /\
  SplitMaybeSubscriptedPath "metadata.annotations['']" = ("metadata.annotations", "", true) /\
  SplitMaybeSubscriptedPath "metadata.labels" = ("metadata.labels", "", false) /\
  SplitMaybeSubscriptedPath "['my']" = ("['my']", "", false).
Proof. repeat split. Qed.

Definition witness_manager : EnvResourceManager :=
  mkManager (fun _ _ => Found (mkConfigMap "cm" {["A" := "1"]})) (fun _ _ => NotFound "not found")
            (inl [mkService "db" "ns" "10.0.0.1" [mkPort "" "TCP" 80]]).

Definition witness_container : Container :=
  mkContainer "c" "img" [envvar "B" "$(A)$(A)"] [mkEnvFrom EmptyString (Some (mkNameRef "cm" None)) None] [] EmptyString.
Definition env_pod : Pod :=
  mkPod (mkMeta "p" "ns" "uid" "7" None None None None None)
    (mkSpec EmptyString EmptyString EmptyString None None [] [witness_container] [] [] None None None None None None None EmptyString None EmptyString)
    (mkStatus "Running" EmptyString).

