(* ===== verification/LeafManager.v ===== *)
(** The leaf clusters that ClusterTree knows: leaf_resource_manager.go,
leaf_client_resource_manager.go and rootcluster.go of clustertree/cluster-manager/utils.

A manager is a map from cluster names to leaf resources behind a lock, so that its
operations are atomic. A pointer to a resource is the resource; [range] is the order in
which the map is traversed. *)
From S2P Require Import Prelude GoStr PodApi.

(** * Data *)

Inductive LeafMode := ALL | Node | Party.
#[export] Instance LeafMode_eq : EqDecision LeafMode. Proof. solve_decision. Defined.

Record LeafModel := mkLeafModel { lm_LeafNodeName : string; lm_NodeSelector : NodeSelector }.

(** The fields of a Cluster that ClusterTree reads. *)
Record LeafCluster := mkLeafCluster {
  lc_Name : string; lc_Labels : smap; lc_Annotations : smap; lc_LeafModels : option (list LeafModel) }.

(** A Cluster object as the cluster controller sees it; [mc_Enable] and [mc_IPFamily] are
behind the pointers ClusterTreeOptions and ClusterLinkOptions. *)
Record ManagedCluster := mkManaged {
  mc_Cluster : LeafCluster; mc_Kubeconfig : string; mc_DeletionTimestamp : option Z; mc_Finalizers : list string;
  mc_Enable : option bool; mc_IPFamily : option string; mc_Rest : string }.

Record ClusterNode := mkClusterNode {
  cn_NodeName : string; cn_LeafMode : LeafMode; cn_LeafNodeSelector : NodeSelector }.

Record LeafResource := mkLeafResource {
  lr_Cluster : LeafCluster; lr_Namespace : string; lr_IgnoreLabels : option (list string);
  lr_EnableServiceAccount : bool; lr_Nodes : list ClusterNode }.

Abbreviation resourceMap := (gmap string LeafResource).

Definition KosmosNodePrefix : string := "kosmos-".
Definition KosmosActualClusterName : string := "kosmos.io/actual-cluster-name".
Definition RootClusterAnnotationKey : string := "kosmos.io/cluster-role".
Definition RootClusterAnnotationValue : string := "root".

(** * leafResourceManager *)

Definition trimNamePrefix (name : string) : string := TrimPrefix name KosmosNodePrefix.

Definition has (clusternodes : list ClusterNode) (target : string) : bool :=
  any (fun v => cn_NodeName v =s target) clusternodes.

Definition getClusterNode (clusternodes : list ClusterNode) (target : string) : option ClusterNode :=
  first (fun v => cn_NodeName v =s target) clusternodes.

Definition no_selector : NodeSelector := mkNodeSelector EmptyString None.

(** The node number [i], named [n] in the host cluster; [leafModels[i]] may be out of
range. *)
Definition cluster_node (leafModels : option (list LeafModel)) (i : nat) (n : string) : outcome ClusterNode :=
  match leafModels with
  | None => Ret (mkClusterNode (trimNamePrefix n) ALL no_selector)
  | Some models =>
      model ← deref (models !! i);
      let sel := lm_NodeSelector model in
      match sel_LabelSelector sel with
      | Some _ => Ret (mkClusterNode (trimNamePrefix n) Party sel)
      | None => if 0 <? String.length (sel_NodeName sel) then Ret (mkClusterNode n Node no_selector)
                else Ret (mkClusterNode (trimNamePrefix n) ALL no_selector)
      end
  end.

Fixpoint cluster_nodes (leafModels : option (list LeafModel)) (i : nat) (nodes : list string) : outcome (list ClusterNode) :=
  match nodes with
  | [] => Ret []
  | n :: nodes' =>
      node ← cluster_node leafModels i n;
      rest ← cluster_nodes leafModels (S i) nodes';
      Ret (node :: rest)
  end.

Definition with_Nodes (lr : LeafResource) (nodes : list ClusterNode) : LeafResource :=
  mkLeafResource (lr_Cluster lr) (lr_Namespace lr) (lr_IgnoreLabels lr) (lr_EnableServiceAccount lr) nodes.

Definition AddLeafResource (l : resourceMap) (lptr : LeafResource) (nodes : list string) : outcome resourceMap :=
  clusterNodes ← cluster_nodes (lc_LeafModels (lr_Cluster lptr)) 0 nodes;
  Ret (<[lc_Name (lr_Cluster lptr) := with_Nodes lptr clusterNodes]> l).

Definition RemoveLeafResource (l : resourceMap) (clusterName : string) : resourceMap := delete clusterName l.

Definition GetLeafResource (l : resourceMap) (clusterName : string) : result LeafResource :=
  match l !! clusterName with
  | Some m => inl m
  | None => inr ("cannot get leaf resource, clusterName: " +:+ clusterName)
  end.

Definition HasCluster (l : resourceMap) (clustername : string) : bool :=
  match l !! clustername with Some _ => true | None => false end.

Section Order.
Context (range : forall V : Type, gmap string V -> list (string * V)).

Definition GetLeafResourceByNodeName (l : resourceMap) (nodeName : string) : result LeafResource :=
  let nodeName := trimNamePrefix nodeName in
  match first (fun kr => has (lr_Nodes (snd kr)) nodeName) (range _ l) with
  | Some (_, lr) => inl lr
  | None => inr ("cannot get leaf resource, nodeName: " +:+ nodeName)
  end.

Definition HasNode (l : resourceMap) (nodeName : string) : bool :=
  any (fun kr => has (lr_Nodes (snd kr)) (trimNamePrefix nodeName)) (range _ l).

Definition GetClusterNode (l : resourceMap) (nodeName : string) : option ClusterNode :=
  head (collect (fun kr => getClusterNode (lr_Nodes (snd kr)) (trimNamePrefix nodeName)) (range _ l)).

Definition ListClusters (l : resourceMap) : list string :=
  collect (fun kr => if str_empty (fst kr) then None else Some (fst kr)) (range _ l).

Definition ListNodes (l : resourceMap) : list string :=
  concat (map (fun kr => if str_empty (fst kr) then [] else map cn_NodeName (lr_Nodes (snd kr))) (range _ l)).
End Order.

(** * leafClientResourceManager *)

(** [GetActualClusterName]: several leaf clusters may stand for one actual cluster. *)
Definition GetActualClusterName (cluster : LeafCluster) : string :=
  match lc_Labels cluster !! KosmosActualClusterName with
  | Some actualName => actualName
  | None => lc_Name cluster
  end.

Section Clients.
Context {Client : Type}.
Abbreviation clientMap := (gmap string Client).

Definition GetLeafClientResource (cr : clientMap) (actualClusterName : string) : result Client :=
  match cr !! actualClusterName with
  | Some m => inl m
  | None => inr ("cannot get leaf client resource, actualClusterName: " +:+ actualClusterName)
  end.

Definition AddLeafClientResource (cr : clientMap) (lcr : Client) (cluster : LeafCluster) : clientMap :=
  match cr !! GetActualClusterName cluster with
  | Some _ => cr
  | None => <[GetActualClusterName cluster := lcr]> cr
  end.

Definition RemoveLeafClientResource (cr : clientMap) (actualClusterName : string) : clientMap := delete actualClusterName cr.

Definition ListActualClusters (range : forall V : Type, gmap string V -> list (string * V)) (cr : clientMap) : list string :=
  collect (fun kr => if str_empty (fst kr) then None else Some (fst kr)) (range _ cr).
End Clients.

(** * rootcluster.go *)

Definition IsRootCluster (cluster : LeafCluster) : bool :=
  match lc_Annotations cluster !! RootClusterAnnotationKey with
  | Some val => val =s RootClusterAnnotationValue
  | None => false
  end.

(** * What the managers promise *)

(** The node [n] of the host cluster stands for the node [cn] of the leaf cluster [c]. *)
Definition belongs (l : resourceMap) (n c : string) (cn : ClusterNode) : Prop :=
  exists lr, l !! c = Some lr /\ cn ∈ lr_Nodes lr /\ cn_NodeName cn = trimNamePrefix n.

Lemma has_true nodes n : has nodes n = true <-> exists cn, cn ∈ nodes /\ cn_NodeName cn = n.
Proof. unfold has. rewrite any_true. setoid_rewrite bool_decide_eq_true. done. Qed.

Lemma getClusterNode_Some nodes n cn : getClusterNode nodes n = Some cn -> cn ∈ nodes /\ cn_NodeName cn = n.
Proof. intros [? H]%first_Some. by apply bool_decide_eq_true in H. Qed.

Lemma getClusterNode_is_Some nodes cn : cn ∈ nodes -> exists cn', getClusterNode nodes (cn_NodeName cn) = Some cn'.
Proof. intros H. apply (first_is_Some _ nodes cn H). by apply bool_decide_eq_true. Qed.

Section Lookup.
Context (range : forall V : Type, gmap string V -> list (string * V)).
Context (range_perm : forall V m, range V m ≡ₚ map_to_list m).

Lemma elem_of_range V (m : gmap string V) k v : (k, v) ∈ range V m <-> m !! k = Some v.
Proof. by rewrite range_perm, elem_of_map_to_list. Qed.

Lemma HasNode_spec l n : HasNode range l n = true <-> exists c cn, belongs l n c cn.
Proof.
  unfold HasNode, belongs. rewrite any_true. split.
  - intros ([c lr] & Hl%elem_of_range & (cn & Hcn & E)%has_true). eauto 6.
  - intros (c & cn & lr & Hl & Hcn & E). exists (c, lr). rewrite elem_of_range, has_true. eauto.
Qed.

Lemma GetLeafResourceByNodeName_sound l n lr :
  GetLeafResourceByNodeName range l n = inl lr -> exists c cn, l !! c = Some lr /\ belongs l n c cn.
Proof.
  unfold GetLeafResourceByNodeName, belongs. destruct (first _ _) as [[c lr']|] eqn:E; intros [= ->].
  apply first_Some in E as [Hl%elem_of_range (cn & Hcn & E)%has_true]. eauto 8.
Qed.

Lemma GetLeafResourceByNodeName_total l n c cn :
  belongs l n c cn -> exists lr, GetLeafResourceByNodeName range l n = inl lr.
Proof.
  intros (lr & Hl & Hcn & E). unfold GetLeafResourceByNodeName.
  destruct (first_is_Some (fun kr => has (lr_Nodes (snd kr)) (trimNamePrefix n)) (range _ l) (c, lr)) as ([c' lr'] & ->).
  - by apply elem_of_range.
  - apply has_true. eauto.
  - eauto.
Qed.

Lemma GetClusterNode_sound l n cn : GetClusterNode range l n = Some cn -> exists c, belongs l n c cn.
Proof.
  unfold GetClusterNode. intros H. assert (Hin : cn ∈ collect (fun kr => getClusterNode (lr_Nodes (snd kr)) (trimNamePrefix n)) (range _ l)).
  { destruct (collect _ _); [done|]. injection H as ->. by left. }
  apply elem_of_collect in Hin as ([c lr] & Hl%elem_of_range & [? ?]%getClusterNode_Some). exists c, lr. auto.
Qed.

Lemma GetClusterNode_total l n c cn : belongs l n c cn -> exists cn', GetClusterNode range l n = Some cn'.
Proof.
  intros (lr & Hl & Hcn & E). destruct (getClusterNode_is_Some _ _ Hcn) as [cn' Hg]. rewrite E in Hg.
  unfold GetClusterNode. assert (Hin : cn' ∈ collect (fun kr => getClusterNode (lr_Nodes (snd kr)) (trimNamePrefix n)) (range _ l)).
  { apply elem_of_collect. exists (c, lr). rewrite elem_of_range. done. }
  destruct (collect _ _) as [|x ?]; [set_solver|]. by exists x.
Qed.

(** The name under which a node is looked up is the one it is stored with, unless it is
stored with the prefix. *)
Lemma cluster_nodes_elem models : forall nodes i cns n, cluster_nodes models i nodes = Ret cns -> n ∈ nodes ->
  exists cn, cn ∈ cns /\ (cn_NodeName cn = trimNamePrefix n \/ (cn_LeafMode cn = Node /\ cn_NodeName cn = n)).
Proof.
  induction nodes as [|n' nodes IH]; intros i cns n H Hn; [set_solver|]. simpl in H.
  destruct (cluster_node models i n') as [cn|] eqn:E; [|done]. simpl in H.
  destruct (cluster_nodes models (S i) nodes) as [rest|] eqn:E'; [|done]. injection H as <-.
  apply elem_of_cons in Hn as [->|Hn].
  - exists cn. split; [by left|]. unfold cluster_node in E. destruct models as [models|]; [|simplify_eq; by left].
    destruct (models !! i) as [model|]; [|done]. cbn [deref mbind outcome_bind] in E.
    destruct (sel_LabelSelector _); [simplify_eq; by left|].
    destruct (0 <? _); simplify_eq; [by right|by left].
  - destruct (IH _ _ _ E' Hn) as (cn' & ? & ?). exists cn'. split; [by right|done].
Qed.

Lemma trim_no_prefix n : HasPrefix n KosmosNodePrefix = false -> trimNamePrefix n = n.
Proof. unfold trimNamePrefix, TrimPrefix. by intros ->. Qed.

(** After a leaf cluster was added, each of its nodes leads to it: the node is known,
and if no other leaf cluster has a node of the same name, the resource found is the one
added and the node found is one of its nodes. A node in one-to-one mode must not have a
name that begins with the prefix of leaf nodes. *)
Theorem leaf_node_found (l l' : resourceMap) (lr : LeafResource) (nodes : list string) (n : string) :
  AddLeafResource l lr nodes = Ret l' -> n ∈ nodes ->
  (HasPrefix n KosmosNodePrefix = true ->
   forall cns, cluster_nodes (lc_LeafModels (lr_Cluster lr)) 0 nodes = Ret cns -> Forall (fun cn => cn_LeafMode cn <> Node) cns) ->
  HasNode range l' n = true /\
  ((forall c cn, belongs l n c cn -> c = lc_Name (lr_Cluster lr)) ->
   exists lr' cn, GetLeafResourceByNodeName range l' n = inl lr' /\ l' !! lc_Name (lr_Cluster lr) = Some lr' /\
     GetClusterNode range l' n = Some cn /\ cn ∈ lr_Nodes lr' /\ cn_NodeName cn = trimNamePrefix n).
Proof.
  unfold AddLeafResource. destruct (cluster_nodes _ 0 nodes) as [cns|] eqn:E; [|done]. intros [= <-] Hn Hmode.
  set (l' := <[_ := _]> l).
  assert (B : exists cn, belongs l' n (lc_Name (lr_Cluster lr)) cn).
  { destruct (cluster_nodes_elem _ _ _ _ _ E Hn) as (cn & Hcn & Hname). exists cn, (with_Nodes lr cns).
    split; [apply lookup_insert_eq|]. split; [done|]. destruct Hname as [?|[Hm ->]]; [done|].
    destruct (HasPrefix n KosmosNodePrefix) eqn:Hp; [|by rewrite trim_no_prefix].
    specialize (Hmode eq_refl _ eq_refl). rewrite Forall_forall in Hmode. by apply list_elem_of_In, Hmode in Hcn. }
  destruct B as [cn0 B]. split; [apply HasNode_spec; eauto|]. intros Huniq.
  assert (U : forall c cn, belongs l' n c cn -> c = lc_Name (lr_Cluster lr)).
  { intros c cn (lr1 & H1 & H2). unfold l' in H1. destruct (decide (c = lc_Name (lr_Cluster lr))); [done|].
    rewrite lookup_insert_ne in H1 by done. apply (Huniq c cn). by exists lr1. }
  destruct (GetLeafResourceByNodeName_total _ _ _ _ B) as [lr' Hlr].
  destruct (GetLeafResourceByNodeName_sound _ _ _ Hlr) as (c & cn1 & Hc & Hb). rewrite (U _ _ Hb) in Hc.
  destruct (GetClusterNode_total _ _ _ _ B) as [cn Hcn].
  destruct (GetClusterNode_sound _ _ _ Hcn) as (c2 & Hb2). pose proof (U _ _ Hb2) as ->.
  destruct Hb2 as (lr2 & H2 & ? & ?). rewrite Hc in H2. injection H2 as <-. by exists lr', cn.
Qed.
End Lookup.

Definition witness_cluster : LeafCluster := mkLeafCluster "c1" ∅ ∅ None.
Definition witness_leaf : LeafResource := mkLeafResource witness_cluster EmptyString None false [].

Lemma leaf_node_found_witness :
  HasNode (fun _ => map_to_list) {["c1" := with_Nodes witness_leaf [mkClusterNode "c1" ALL no_selector]]} "kosmos-c1" = true.
Proof.
  apply (leaf_node_found (fun _ => map_to_list) (fun _ _ => reflexivity _) ∅ _ witness_leaf ["kosmos-c1"] "kosmos-c1").
  - reflexivity.
  - set_solver.
  - intros _ cns [= <-]. by repeat constructor.
Defined.

(** A leaf cluster whose own name begins with the prefix: the name its node is listed with
is trimmed again when it is looked up. *)
Lemma listed_node_not_found :
  let l := {["kosmos-a" := mkLeafResource (mkLeafCluster "kosmos-a" ∅ ∅ None) EmptyString None false
                             [mkClusterNode (trimNamePrefix "kosmos-kosmos-a") ALL no_selector]]} in
  ListNodes (fun _ => map_to_list) l = ["kosmos-a"] /\
  GetLeafResourceByNodeName (fun _ => map_to_list) l "kosmos-a" = inr "cannot get leaf resource, nodeName: a".
Proof. split; reflexivity. Qed.
