(* ===== verification/PodFit.v ===== *)
(** The pod a leaf cluster gets: utils/podutils/pod.go, utils/podutils/pod_convert.go,
utils/convertpolicy/pod.go and the annotations of utils/k8s.go.

[FitPod] copies the pod of the host cluster and returns the copy; [GetUpdatedPod] changes
its argument [orig] and, since the two pods share the map of labels afterwards, its
argument [update] too: it returns both. The reading of the selector annotation (a
[ClustersNodeSelection] in JSON) and the matching of label selectors are parameters. *)
From S2P Require Import Prelude GoStr GoJson PodApi LeafManager.

Definition KosmosPodLabel : string := "kosmos-io/pod".
Definition KosmosGlobalLabel : string := "kosmos.io/global".
Definition KosmosSelectorKey : string := "kosmos.io/cluster-selector".
Definition KosmosTrippedLabels : string := "kosmos-io/tripped".
Definition KosmosConvertLabels : string := "kosmos-io/convert-policy".
Definition KosmosSchedulerName : string := "kosmos-scheduler".
Definition RooTCAConfigMapName : string := "kube-root-ca.crt".
Definition MasterRooTCAName : string := "master-root-ca.crt".
Definition KosmosResourceOwnersAnnotations : string := "kosmos-io/cluster-owners".

(** * What a pod depends on *)

(** The secret of a volume. A CephFS, Cinder or RBD volume without a [SecretRef] panics. *)
Definition volume_secret (v : Volume) : outcome (option string) :=
  match vol_Secret v, vol_CephFS v, vol_Cinder v, vol_RBD v with
  | Some name, _, _, _ => Ret (Some name)
  | None, Some ref, _, _ => name ← deref ref; Ret (Some name)
  | None, None, Some ref, _ => name ← deref ref; Ret (Some name)
  | None, None, None, Some ref => name ← deref ref; Ret (Some name)
  | None, None, None, None => Ret None
  end.

Definition GetSecrets (pod : Pod) : outcome (list string * list string) :=
  secretNames ← foldM (fun names v => name ← volume_secret v; Ret (names ++ option_list name)) (spec_Volumes (pod_Spec pod)) [];
  Ret (secretNames, spec_ImagePullSecrets (pod_Spec pod)).

(** The names of the config maps, and the pod with the root certificate renamed. *)
Definition rename_ca (v : Volume) : Volume :=
  match vol_ConfigMap v with
  | Some name =>
      if name =s RooTCAConfigMapName
      then mkVolume (vol_Name v) (vol_Secret v) (vol_CephFS v) (vol_Cinder v) (vol_RBD v) (Some MasterRooTCAName)
             (vol_PVC v) (vol_Projected v) (vol_Rest v)
      else v
  | None => v
  end.

Definition GetConfigmaps (pod : Pod) : list string * Pod :=
  (collect vol_ConfigMap (spec_Volumes (pod_Spec pod)),
   on_Spec (with_Volumes (map rename_ca (spec_Volumes (pod_Spec pod)))) pod).

Definition GetPVCs (pod : Pod) : list string := collect vol_PVC (spec_Volumes (pod_Spec pod)).

(** * Annotations *)

Definition SetObjectGlobal (obj : ObjectMeta) : ObjectMeta :=
  set_Annotations (Some (<[KosmosGlobalLabel := "true"]> (map_of (om_Annotations obj)))) obj.

Definition IsObjectGlobal (obj : ObjectMeta) : bool :=
  match om_Annotations obj with
  | None => false
  | Some a => get a KosmosGlobalLabel =s "true"
  end.

(** The clusters that own a copy of a resource, in an annotation separated by commas. *)
Definition comma : ascii := ",".

Definition AddResourceClusters (anno : option smap) (clusterName : string) : smap :=
  let anno := map_of anno in
  let owners := Split comma (get anno KosmosResourceOwnersAnnotations) in
  let newowners := List.filter (fun v => negb (String.length v =? 0)) owners in
  let flag := any (fun v => v =s clusterName) newowners in
  <[KosmosResourceOwnersAnnotations := Join "," (if flag then newowners else newowners ++ [clusterName])]> anno.

Definition HasResourceClusters (anno : option smap) (clusterName : string) : bool :=
  any (fun v => v =s clusterName) (Split comma (get (map_of anno) KosmosResourceOwnersAnnotations)).

Definition ListResourceClusters (anno : option smap) : list string :=
  match anno with
  | None => []
  | Some a => if get a KosmosResourceOwnersAnnotations =s EmptyString then []
              else Split comma (get a KosmosResourceOwnersAnnotations)
  end.

(** * Comparison of pods *)

Definition DeleteGraceTimeEqual (old new : option Z) : bool := bool_decide (old = new).

Definition IsEqual (pod1 pod2 : Pod) : bool :=
  bool_decide (spec_Containers (pod_Spec pod1) = spec_Containers (pod_Spec pod2)) &&
  bool_decide (spec_InitContainers (pod_Spec pod1) = spec_InitContainers (pod_Spec pod2)) &&
  bool_decide (spec_ActiveDeadlineSeconds (pod_Spec pod1) = spec_ActiveDeadlineSeconds (pod_Spec pod2)) &&
  bool_decide (spec_Tolerations (pod_Spec pod1) = spec_Tolerations (pod_Spec pod2)) &&
  bool_decide (labels pod1 = labels pod2) &&
  bool_decide (annotations pod1 = annotations pod2).

Definition ShouldEnqueue (oldPod newPod : Pod) : bool :=
  negb (IsEqual oldPod newPod) ||
  negb (DeleteGraceTimeEqual (om_DeletionGracePeriodSeconds (pod_Meta oldPod)) (om_DeletionGracePeriodSeconds (pod_Meta newPod))) ||
  negb (bool_decide (om_DeletionTimestamp (pod_Meta oldPod) = om_DeletionTimestamp (pod_Meta newPod))).

Definition IsKosmosPod (pod : Pod) : bool :=
  match labels pod with
  | Some l => get l KosmosPodLabel =s "true"
  | None => false
  end.

(** * Fitting *)

Definition FitObjectMeta (m : ObjectMeta) : ObjectMeta :=
  mkMeta (om_Name m) (om_Namespace m) EmptyString EmptyString None (om_Labels m) (om_Annotations m)
    (om_DeletionTimestamp m) (om_DeletionGracePeriodSeconds m).

Definition is_default_token (name : string) : bool := HasPrefix name "default-token".

Definition fitContainers (containers : list Container) : list Container :=
  map (fun c => mkContainer (ct_Name c) (ct_Image c) (ct_Env c) (ct_EnvFrom c)
                  (List.filter (fun v => negb (is_default_token (vm_Name v))) (ct_VolumeMounts c)) (ct_Rest c)) containers.

(** The loop over the keys to ignore: the labels and the ones taken away so far. *)
Definition fit_step (st : smap * smap) (key : string) : smap * smap :=
  let '(ls, tripped) := st in
  if get ls key =s EmptyString then (ls, tripped) else (delete key ls, <[key := get ls key]> tripped).

(** The labels that stay, and the ones that are taken away. *)
Definition FitLabels (ls : smap) (ignoreLabels : option (list string)) : smap * option smap :=
  match ignoreLabels with
  | None => (ls, None)
  | Some keys =>
      let '(ls, tripped) := fold_left fit_step keys (ls, (∅ : smap)) in
      (ls, Some tripped)
  end.

Definition RecoverLabels (ls : smap) (annos : smap) : smap :=
  let trippedLabels := get annos KosmosTrippedLabels in
  if trippedLabels =s EmptyString then ls
  else match unmarshal_map trippedLabels with
       | None => ls
       | Some m => m ∪ ls
       end.

Definition recoverSelectors (cns : option ClustersNodeSelection) (s : PodSpec) : PodSpec :=
  let s :=
    match cns with
    | Some cns =>
        let s := with_TopologySpreadConstraints (cns_TopologySpreadConstraints cns)
                   (with_Tolerations (cns_Tolerations cns) (with_NodeSelector (cns_NodeSelector cns) s)) in
        match spec_Affinity s with
        | None => with_Affinity (cns_Affinity cns) s
        | Some a =>
            match cns_Affinity cns ≫= aff_Node with
            | Some na' =>
                match aff_Node a with
                | Some na => with_Affinity (Some (mkAffinity (Some (mkNodeAffinity (na_Required na') (na_Preferred na)))
                                                    (aff_Pod a) (aff_PodAnti a))) s
                | None => with_Affinity (Some (mkAffinity (Some na') (aff_Pod a) (aff_PodAnti a))) s
                end
            | None => with_Affinity (Some (mkAffinity None (aff_Pod a) (aff_PodAnti a))) s
            end
        end
    | None =>
        let s := with_TopologySpreadConstraints None (with_Tolerations None (with_NodeSelector None s)) in
        match spec_Affinity s with
        | Some a => match aff_Node a with
                    | Some na => with_Affinity (Some (mkAffinity (Some (mkNodeAffinity None (na_Preferred na)))
                                                        (aff_Pod a) (aff_PodAnti a))) s
                    | None => s
                    end
        | None => s
        end
    end in
  match spec_Affinity s with
  | None => s
  | Some a =>
      let node := match aff_Node a with
                  | Some na => match na_Required na, na_Preferred na with None, None => None | _, _ => Some na end
                  | None => None
                  end in
      match node, aff_Pod a, aff_PodAnti a with
      | None, None, None => with_Affinity None s
      | _, _, _ => with_Affinity (Some (mkAffinity node (aff_Pod a) (aff_PodAnti a))) s
      end
  end.

Section Fit.
(** The order of a Go map, and [json.Unmarshal] into a [ClustersNodeSelection]. *)
Context (range : smap -> list (string * string)).
Context (UnmarshalSelection : string -> option ClustersNodeSelection).

(** The node affinity of a leaf node that stands for the nodes of a selector. A selector
without a [LabelSelector] panics. *)
Definition fitNodeAffinity (affinity : option Affinity) (nodeSelector : NodeSelector) : outcome (option Affinity) :=
  ls ← deref (sel_LabelSelector nodeSelector);
  let byLabels := match ls_MatchLabels ls with
                  | Some m => map (fun '(key, value) => mkReq key "In" [value]) (range m)
                  | None => []
                  end in
  let byExpressions := default [] (ls_MatchExpressions ls) in
  let required := Some (Some [mkTerm (byLabels ++ byExpressions) []]) in
  Ret (match affinity with
       | None => Some (mkAffinity (Some (mkNodeAffinity required None)) None None)
       | Some a =>
           let preferred := match aff_Node a with Some na => na_Preferred na | None => None end in
           Some (mkAffinity (Some (mkNodeAffinity required preferred)) (aff_Pod a) (aff_PodAnti a))
       end).

Definition ConvertAnnotations (annotation : option smap) : option ClustersNodeSelection :=
  match annotation with
  | None => None
  | Some a => let val := get a KosmosSelectorKey in
              if String.length val =? 0 then None else UnmarshalSelection val
  end.

(** The specification of the copy, before the affinity of party mode. *)
Definition fit_spec (pod : Pod) (leafMode : LeafMode) : PodSpec :=
  let vols := List.filter (fun v => negb (is_default_token (vol_Name v))) (spec_Volumes (pod_Spec pod)) in
  let s := recoverSelectors (ConvertAnnotations (annotations pod)) (pod_Spec pod) in
  let s := with_Containers (fitContainers (spec_Containers (pod_Spec pod))) s in
  let s := with_InitContainers (fitContainers (spec_InitContainers (pod_Spec pod))) s in
  let s := with_Volumes vols s in
  let s := with_SchedulerName (if spec_SchedulerName s =s KosmosSchedulerName then EmptyString else spec_SchedulerName s) s in
  with_NodeName (if bool_decide (leafMode <> Node) then EmptyString else spec_NodeName s) s.

Definition FitPod (pod : Pod) (ignoreLabels : option (list string)) (leafMode : LeafMode) (nodeSelector : NodeSelector) : outcome Pod :=
  let meta := FitObjectMeta (pod_Meta pod) in
  let ls := <[KosmosPodLabel := "true"]> (map_of (om_Labels meta)) in
  let annos := map_of (om_Annotations meta) in
  let s := fit_spec pod leafMode in
  s ← (if bool_decide (leafMode = Party) then
         a ← fitNodeAffinity (spec_Affinity (pod_Spec pod)) nodeSelector; Ret (with_Affinity a s)
       else Ret s);
  let '(ls, tripped) := FitLabels ls ignoreLabels in
  let annos := match tripped with Some t => <[KosmosTrippedLabels := marshal t]> annos | None => annos end in
  Ret (mkPod (set_Annotations (Some annos) (set_Labels (Some ls) meta)) s (mkStatus EmptyString EmptyString)).

Definition set_image (c : Container) (image : string) : Container :=
  mkContainer (ct_Name c) image (ct_Env c) (ct_EnvFrom c) (ct_VolumeMounts c) (ct_Rest c).

(** [for i := range orig { orig[i].Image = update[i].Image }] *)
Fixpoint copy_images (orig update : list Container) : outcome (list Container) :=
  match orig, update with
  | [], _ => Ret []
  | c :: orig', u :: update' => rest ← copy_images orig' update'; Ret (set_image c (ct_Image u) :: rest)
  | _ :: _, [] => Panic
  end.

Definition GetUpdatedPod (orig update : Pod) (ignoreLabels : option (list string)) (leafMode : LeafMode)
    (nodeSelector : NodeSelector) : outcome (Pod * Pod) :=
  inits ← copy_images (spec_InitContainers (pod_Spec orig)) (spec_InitContainers (pod_Spec update));
  cs ← copy_images (spec_Containers (pod_Spec orig)) (spec_Containers (pod_Spec update));
  let annos := map_of (annotations update) in
  let s := with_Containers cs (with_InitContainers inits (pod_Spec orig)) in
  let s := if get (map_of (annotations orig)) KosmosSelectorKey =s get annos KosmosSelectorKey then s
           else match ConvertAnnotations (Some annos) with
                | Some cns => with_Tolerations (cns_Tolerations cns) s
                | None => s
                end in
  let s := with_ActiveDeadlineSeconds (spec_ActiveDeadlineSeconds (pod_Spec update)) s in
  let '(ls, _) := FitLabels (<[KosmosPodLabel := "true"]> (map_of (labels update))) ignoreLabels in
  s ← (if bool_decide (leafMode = Party) then
         a ← fitNodeAffinity (spec_Affinity (pod_Spec update)) nodeSelector; Ret (with_Affinity a s)
       else Ret s);
  let shared := match labels update with Some _ => Some ls | None => None end in
  Ret (mkPod (set_Annotations (Some annos) (set_Labels (Some ls) (pod_Meta orig))) s (pod_Status orig),
       on_Meta (fun m => set_Annotations (Some annos) (set_Labels shared m)) update).
End Fit.

(** * Conversion policies *)

(** One converter on a field: [unset] is the test of its [Add] branch. *)
Definition convert_field {A : Type} (converter : option (Converter A)) (unset : bool) (zero old : A) : A :=
  match converter with
  | None => old
  | Some c =>
      if cv_Type c =s "add" then (if unset then cv_Value c else old)
      else if cv_Type c =s "remove" then zero
      else if cv_Type c =s "replace" then cv_Value c
      else old
  end.

Definition is_nil {A : Type} (o : option A) : bool := match o with None => true | Some _ => false end.

Definition convertSchedulerName (c : option (Converter string)) (s : PodSpec) : PodSpec :=
  with_SchedulerName (convert_field c (spec_SchedulerName s =s EmptyString) EmptyString (spec_SchedulerName s)) s.
Definition convertNodeName (c : option (Converter string)) (s : PodSpec) : PodSpec :=
  with_NodeName (convert_field c (spec_NodeName s =s EmptyString) EmptyString (spec_NodeName s)) s.
Definition convertNodeSelector (c : option (Converter (option smap))) (s : PodSpec) : PodSpec :=
  with_NodeSelector (convert_field c (is_nil (spec_NodeSelector s)) None (spec_NodeSelector s)) s.
Definition convertToleration (c : option (Converter (option (list opaque)))) (s : PodSpec) : PodSpec :=
  with_Tolerations (convert_field c (is_nil (spec_Tolerations s)) None (spec_Tolerations s)) s.
Definition convertAffinity (c : option (Converter (option Affinity))) (s : PodSpec) : PodSpec :=
  with_Affinity (convert_field c (is_nil (spec_Affinity s)) None (spec_Affinity s)) s.

(** The [Add] branch tests the affinity of the pod. *)
Definition convertTopologySpreadConstraints (c : option (Converter (option (list opaque)))) (s : PodSpec) : PodSpec :=
  with_TopologySpreadConstraints
    (convert_field c (is_nil (spec_Affinity s)) None (spec_TopologySpreadConstraints s)) s.
Definition convertHostAliases (c : option (Converter (option (list opaque)))) (s : PodSpec) : PodSpec :=
  with_HostAliases (convert_field c (is_nil (spec_HostAliases s)) None (spec_HostAliases s)) s.

(** The first policy that has converters. *)
Definition choose_policy (policies : list ConvertPolicy) : option (string * Converters) :=
  head (collect (fun po => match pol_Converters po with Some c => Some (pol_Name po, c) | None => None end) policies).

(** Writing to the annotations of a pod that has none panics. *)
Definition ConvertPod (pod : Pod) (cpcp pcp : list ConvertPolicy) : outcome Pod :=
  match choose_policy (if 0 <? length cpcp then cpcp else pcp) with
  | None => Ret pod
  | Some (name, cs) =>
      annos ← deref (annotations pod);
      let pod := on_Meta (set_Annotations (Some (<[KosmosConvertLabels := name]> annos))) pod in
      Ret (on_Spec (fun s =>
        convertHostAliases (cvs_HostAliases cs)
          (convertTopologySpreadConstraints (cvs_TopologySpreadConstraints cs)
            (convertAffinity (cvs_Affinity cs)
              (convertToleration (cvs_Toleration cs)
                (convertNodeSelector (cvs_NodeSelector cs)
                  (convertNodeName (cvs_NodeName cs)
                    (convertSchedulerName (cvs_SchedulerName cs) s))))))) pod)
  end.

Section Policies.
(** [LabelSelectorAsSelector(sel).Matches(labels)], or the error of the conversion. *)
Context (selector_matches : LabelSelector -> smap -> result bool).

(** [GetMatchPodConvertPolicy] and [GetMatchClusterPodConvertPolicy]. *)
Fixpoint GetMatchPolicies (policies : list ConvertPolicy) (podLabels nodeLabels : smap) : result (list ConvertPolicy) :=
  match policies with
  | [] => inl []
  | po :: rest =>
      match selector_matches (pol_LabelSelector po) podLabels with
      | inr err => inr err
      | inl false => GetMatchPolicies rest podLabels nodeLabels
      | inl true =>
          match (match pol_LeafNodeSelector po with
                 | None => inl true
                 | Some sel => selector_matches sel nodeLabels
                 end) with
          | inr err => inr err
          | inl b => match GetMatchPolicies rest podLabels nodeLabels with
                     | inr err => inr err
                     | inl matched => inl (if (b : bool) then po :: matched else matched)
                     end
          end
      end
  end.
End Policies.

(** * The properties *)

(** ** Owners *)

Definition owners (anno : option smap) : list string :=
  List.filter (fun v => negb (str_empty v)) (Split comma (get (map_of anno) KosmosResourceOwnersAnnotations)).

Lemma owners_filter l : List.filter (fun v => negb (String.length v =? 0)) l = List.filter (fun v => negb (str_empty v)) l.
Proof. apply filter_ext. by intros [|]. Qed.

Lemma HasResourceClusters_spec anno c : c <> EmptyString -> HasResourceClusters anno c = true <-> c ∈ owners anno.
Proof.
  intros Hc. unfold HasResourceClusters, owners. rewrite any_true, list_filter_spec. split.
  - intros (x & Hx & ->%bool_decide_eq_true). split; [done|]. by apply negb_true_iff, str_empty_false.
  - intros [Hx _]. exists c. split; [done|]. by apply bool_decide_eq_true.
Qed.

Definition part_ok (s : string) : Prop := s <> EmptyString /\ comma ∉ String.list_ascii_of_string s.

Lemma owners_ok anno : Forall part_ok (owners anno).
Proof.
  apply Forall_forall. intros x [Hx Hne]%list_elem_of_In%list_filter_spec.
  pose proof (Split_parts comma (get (map_of anno) KosmosResourceOwnersAnnotations)) as P.
  rewrite Forall_forall in P. split; [by apply str_empty_false, negb_true_iff|]. by apply P, list_elem_of_In.
Qed.

(** Owners written as an annotation read back as they were. *)
Lemma owners_Join m l : l <> [] -> Forall part_ok l ->
  let anno := Some (<[KosmosResourceOwnersAnnotations := Join "," l]> m) in
  ListResourceClusters anno = l /\ owners anno = l.
Proof.
  intros Hne Hl. cbn zeta. unfold ListResourceClusters, owners, get. cbn [map_of from_option id]. rewrite lookup_insert_eq. cbn [from_option id].
  assert (E : Split comma (Join "," l) = l).
  { apply (Split_Join comma); [done|]. eapply Forall_impl; [|exact Hl]. by intros ? [? ?]. }
  rewrite E. split.
  - rewrite bool_decide_false; [done|]. destruct l as [|x l]; [done|]. apply Forall_cons_iff in Hl as [[Hx _] _].
    destruct x; [done|]. by destruct l.
  - clear E Hne. induction Hl as [|x l [Hx _] _ IH]; [done|]. simpl.
    apply str_empty_false in Hx. by rewrite Hx, IH.
Qed.

(** The owners after a cluster was added: the ones before, and the cluster at the end if
it was not one of them. *)
Definition add_owner (os : list string) (c : string) : list string := if bool_decide (c ∈ os) then os else os ++ [c].

Lemma AddResourceClusters_eq anno c :
  AddResourceClusters anno c = <[KosmosResourceOwnersAnnotations := Join "," (add_owner (owners anno) c)]> (map_of anno).
Proof.
  unfold AddResourceClusters. rewrite owners_filter. fold (owners anno). do 2 f_equal. unfold add_owner.
  case_bool_decide as H; [rewrite (proj2 (any_true _ _)); [done|]; exists c; by rewrite bool_decide_eq_true|].
  rewrite (proj2 (any_false _ _)); [done|]. intros x Hx. apply bool_decide_eq_false. by intros ->.
Qed.

Lemma add_owner_ok os c : Forall part_ok os -> part_ok c ->
  Forall part_ok (add_owner os c) /\ c ∈ add_owner os c /\ add_owner (add_owner os c) c = add_owner os c.
Proof.
  intros Ho Hc. assert (Hin : c ∈ add_owner os c).
  { unfold add_owner. case_bool_decide; [done|]. apply elem_of_app. right. by left. }
  split; [|split; [done|unfold add_owner at 1; by rewrite bool_decide_true]].
  unfold add_owner. case_bool_decide; [done|]. apply Forall_app. split; [done|]. constructor; [done|constructor].
Qed.

Lemma AddResourceClusters_has anno c : part_ok c -> HasResourceClusters (Some (AddResourceClusters anno c)) c = true.
Proof.
  intros Hc. destruct (add_owner_ok (owners anno) c (owners_ok anno) Hc) as (Hok & Hin & _). rewrite AddResourceClusters_eq.
  destruct (owners_Join (map_of anno) (add_owner (owners anno) c)) as [_ Eo]; [by intros E; rewrite E in Hin; set_solver|done|].
  apply HasResourceClusters_spec; [by apply Hc|]. by rewrite Eo.
Qed.

(** The annotation of owners. A cluster that is added is one of the owners and is
listed; the owners before stay, in order; adding it again changes nothing. *)
Theorem AddResourceClusters_spec (anno : option smap) (c : string) :
  c <> EmptyString -> comma ∉ String.list_ascii_of_string c ->
  HasResourceClusters (Some (AddResourceClusters anno c)) c = true /\
  (forall d, d ∈ ListResourceClusters (Some (AddResourceClusters anno c)) <-> d ∈ owners anno \/ d = c) /\
  owners anno `prefix_of` ListResourceClusters (Some (AddResourceClusters anno c)) /\
  AddResourceClusters (Some (AddResourceClusters anno c)) c = AddResourceClusters anno c.
Proof.
  intros Hc Hsep. destruct (add_owner_ok (owners anno) c (owners_ok anno) (conj Hc Hsep)) as (Hok & Hin & Hidem).
  rewrite !AddResourceClusters_eq. destruct (owners_Join (map_of anno) (add_owner (owners anno) c)) as [El Eo].
  { intros E. rewrite E in Hin. set_solver. }
  { done. }
  split_and!.
  - rewrite <- AddResourceClusters_eq. by apply AddResourceClusters_has.
  - intros d. rewrite El. unfold add_owner. case_bool_decide; [set_solver|]. rewrite elem_of_app. set_solver.
  - rewrite El. unfold add_owner. case_bool_decide; [done|]. by apply prefix_app_r.
  - rewrite Eo, Hidem. cbn [map_of from_option id]. apply insert_insert_eq.
Qed.

Lemma AddResourceClusters_spec_witness :
  HasResourceClusters (Some (AddResourceClusters (Some {[KosmosResourceOwnersAnnotations := "a,,b"]}) "c")) "c" = true.
Proof. apply (AddResourceClusters_spec (Some {[KosmosResourceOwnersAnnotations := "a,,b"]}) "c"); [done|]. vm_compute. set_solver. Defined.

(** ** Labels *)

Lemma FitLabels_Some ls keys :
  FitLabels ls (Some keys) = let '(ls', t) := fold_left fit_step keys (ls, ∅) in (ls', Some t).
Proof. done. Qed.

Lemma get_nonempty (m : smap) k : get m k <> EmptyString -> m !! k = Some (get m k).
Proof. unfold get. by destruct (m !! k). Qed.

Lemma fit_step_union ls0 ls t key ls' t' : t ∪ ls = ls0 -> t ##ₘ ls -> fit_step (ls, t) key = (ls', t') ->
  t' ∪ ls' = ls0 /\ t' ##ₘ ls' /\ get ls' key = EmptyString /\ ls' ⊆ ls.
Proof.
  intros Hu Hd. unfold fit_step. case_bool_decide as Hg; intros [= <- <-]; [done|].
  apply get_nonempty in Hg. split_and!.
  - rewrite <- Hu. transitivity (t ∪ <[key := get ls key]> (delete key ls)); [|by rewrite insert_delete_id].
    rewrite <- insert_union_l, insert_union_r; [done|]. by eapply map_disjoint_Some_r.
  - apply map_disjoint_insert_l_2; [apply lookup_delete_eq|]. by apply map_disjoint_delete_r.
  - unfold get. by rewrite lookup_delete_eq.
  - apply delete_subseteq.
Qed.

Lemma get_subseteq (m1 m2 : smap) k : m1 ⊆ m2 -> get m2 k = EmptyString -> get m1 k = EmptyString.
Proof.
  intros Hs. unfold get. destruct (m1 !! k) as [v|] eqn:E; [|done]. by rewrite (lookup_weaken _ _ _ _ E Hs).
Qed.

Lemma fit_fold keys : forall ls0 ls t ls' t', t ∪ ls = ls0 -> t ##ₘ ls -> fold_left fit_step keys (ls, t) = (ls', t') ->
  t' ∪ ls' = ls0 /\ ls' ⊆ ls /\ (forall k, k ∈ keys -> get ls' k = EmptyString) /\
  (forall k, k ∉ keys -> ls' !! k = ls !! k).
Proof.
  induction keys as [|key keys IH]; intros ls0 ls t ls' t' Hu Hd; cbn [fold_left].
  - intros [= <- <-]. split_and!; set_solver.
  - destruct (fit_step (ls, t) key) as [ls1 t1] eqn:E. intros Hf.
    destruct (fit_step_union _ _ _ _ _ _ Hu Hd E) as (Hu1 & Hd1 & Hk & Hs).
    destruct (IH _ _ _ _ _ Hu1 Hd1 Hf) as (? & Hs' & Hall & Hother). split_and!; [done|by trans ls1|..].
    + intros k [->|?]%elem_of_cons; [by eapply get_subseteq|auto].
    + intros k Hnk. rewrite Hother by set_solver. unfold fit_step in E. case_bool_decide; simplify_eq; [done|].
      apply lookup_delete_ne. set_solver.
Qed.

(** The labels taken away, together with the ones that stay, are the labels; of the keys
to ignore none is left. *)
Lemma FitLabels_spec ls keys ls' t : FitLabels ls (Some keys) = (ls', t) ->
  exists t', t = Some t' /\ t' ∪ ls' = ls /\ (forall k, k ∈ keys -> get ls' k = EmptyString) /\
  (forall k, k ∉ keys -> ls' !! k = ls !! k).
Proof.
  rewrite FitLabels_Some. destruct (fold_left fit_step keys (ls, ∅)) as [ls1 t1] eqn:E. intros [= <- <-].
  destruct (fit_fold keys ls ls ∅ ls1 t1) as (? & _ & ? & ?); [apply map_empty_union|apply map_disjoint_empty_l|done|]. eauto.
Qed.

(** A second time there is nothing to take away. *)
Lemma FitLabels_again ls keys : (forall k, k ∈ keys -> get ls k = EmptyString) -> FitLabels ls (Some keys) = (ls, Some ∅).
Proof.
  intros Hk. rewrite FitLabels_Some. assert (E : fold_left fit_step keys (ls, ∅) = (ls, ∅)); [|by rewrite E].
  induction keys as [|key keys IH]; [done|]. cbn [fold_left]. unfold fit_step at 2.
  rewrite bool_decide_true by (apply Hk; by left). apply IH. intros k ?. apply Hk. by right.
Qed.

Lemma RecoverLabels_marshal ls t m : map_ascii t ->
  RecoverLabels ls (<[KosmosTrippedLabels := marshal t]> m) = t ∪ ls.
Proof.
  intros Ha. unfold RecoverLabels. assert (E : get (<[KosmosTrippedLabels := marshal t]> m) KosmosTrippedLabels = marshal t).
  { unfold get. by rewrite lookup_insert_eq. }
  rewrite E, bool_decide_false by done. by rewrite unmarshal_marshal_map.
Qed.

(** ** The pod in the leaf cluster *)

Lemma recoverSelectors_keeps cns s : spec_NodeName (recoverSelectors cns s) = spec_NodeName s /\
  spec_SchedulerName (recoverSelectors cns s) = spec_SchedulerName s.
Proof. unfold recoverSelectors. repeat case_match; done. Qed.

Lemma fitNodeAffinity_total range a sel : sel_LabelSelector sel <> None -> exists a', fitNodeAffinity range a sel = Ret (Some a').
Proof. intros H. unfold fitNodeAffinity. destruct (sel_LabelSelector sel); [|done]. simpl. destruct a; eauto. Qed.

Lemma filter_negb {A} (p : A -> bool) l x : x ∈ List.filter (fun x => negb (p x)) l <-> x ∈ l /\ p x = false.
Proof. by rewrite list_filter_spec, negb_true_iff. Qed.

(** The volumes and mounts of a fitted pod. *)
Definition no_tokens (s : PodSpec) : Prop :=
  (forall v, v ∈ spec_Volumes s -> is_default_token (vol_Name v) = false) /\
  (forall c, c ∈ spec_Containers s ++ spec_InitContainers s ->
     forall v, v ∈ ct_VolumeMounts c -> is_default_token (vm_Name v) = false).

Lemma fitContainers_tokens cs c v : c ∈ fitContainers cs -> v ∈ ct_VolumeMounts c -> is_default_token (vm_Name v) = false.
Proof. intros (c0 & -> & _)%list_elem_of_fmap Hv. simpl in Hv. by apply filter_negb in Hv as [_ ?]. Qed.

Lemma fit_spec_ok U pod mode :
  no_tokens (fit_spec U pod mode) /\ (mode <> Node -> spec_NodeName (fit_spec U pod mode) = EmptyString) /\
  spec_SchedulerName (fit_spec U pod mode) <> KosmosSchedulerName.
Proof.
  split; [|split].
  - split; cbn [fit_spec with_NodeName with_SchedulerName with_Volumes spec_Volumes spec_Containers spec_InitContainers
                with_InitContainers with_Containers].
    + by intros v [_ ?]%filter_negb.
    + intros c [Hc|Hc]%elem_of_app v; by eapply fitContainers_tokens.
  - intros Hm. cbn. by rewrite (bool_decide_true (mode <> Node)).
  - cbn. by case_bool_decide.
Qed.

(** What a fitted pod has in common in all modes. *)
Lemma FitPod_shape range U pod ign mode sel : (mode = Party -> sel_LabelSelector sel <> None) ->
  exists s ls t, FitPod range U pod ign mode sel =
    Ret (mkPod (set_Annotations (Some (match t with Some t => <[KosmosTrippedLabels := marshal t]> (map_of (annotations pod))
                                       | None => map_of (annotations pod) end))
                 (set_Labels (Some ls) (FitObjectMeta (pod_Meta pod)))) s (mkStatus EmptyString EmptyString)) /\
  FitLabels (<[KosmosPodLabel := "true"]> (map_of (labels pod))) ign = (ls, t) /\
  no_tokens s /\ (mode <> Node -> spec_NodeName s = EmptyString) /\ spec_SchedulerName s <> KosmosSchedulerName.
Proof.
  intros Hsel. destruct (fit_spec_ok U pod mode) as (H1 & H2 & H3). unfold FitPod.
  destruct (FitLabels _ ign) as [ls t] eqn:E. case_bool_decide as Hp.
  - destruct (fitNodeAffinity_total range (spec_Affinity (pod_Spec pod)) sel (Hsel Hp)) as [a ->].
    eexists (with_Affinity _ (fit_spec U pod mode)), ls, t. split; [reflexivity|]. done.
  - eexists (fit_spec U pod mode), ls, t. split; [reflexivity|]. done.
Qed.


Definition no_spec : PodSpec :=
  mkSpec EmptyString EmptyString EmptyString None None [] [] [] [] None None None None None None None EmptyString None EmptyString.
Definition named_pod (name : string) (ls : smap) (s : PodSpec) : Pod :=
  mkPod (mkMeta name "ns" "uid" "7" None (Some ls) None None None) s (mkStatus "Running" EmptyString).


(** ** Updates *)

Lemma copy_images_idem orig : forall update cs, copy_images orig update = Ret cs -> copy_images cs update = Ret cs.
Proof.
  induction orig as [|c orig IH]; intros [|u update] cs; simpl; try (by intros [= <-]).
  destruct (copy_images orig update) as [rest|] eqn:E; [|done]. intros [= <-]. simpl. by rewrite (IH _ _ E).
Qed.

(** Updating a pod of a leaf cluster from the same pod of the host again changes
nothing: with a fixed order of the label selector, one update brings the leaf pod to a
fixed point. *)
Theorem GetUpdatedPod_idem (range : smap -> list (string * string)) (U : string -> option ClustersNodeSelection)
    (orig update o u : Pod) (ign : option (list string)) (mode : LeafMode) (sel : NodeSelector) :
  GetUpdatedPod range U orig update ign mode sel = Ret (o, u) ->
  GetUpdatedPod range U o update ign mode sel = Ret (o, u).
Proof.
  unfold GetUpdatedPod.
  destruct (copy_images (spec_InitContainers (pod_Spec orig)) _) as [inits|] eqn:Ei; [|done].
  destruct (copy_images (spec_Containers (pod_Spec orig)) _) as [cs|] eqn:Ec; [|done]. cbn [mbind outcome_bind].
  set (s0 := if get _ _ =s get _ _ then _ else _). assert (H0 : spec_InitContainers s0 = inits /\ spec_Containers s0 = cs).
  { unfold s0. destruct (_ =s _); [done|]. by destruct (ConvertAnnotations U _). }
  clearbody s0. destruct H0 as [Hi Hc]. destruct (FitLabels _ ign) as [ls t] eqn:El.
  destruct s0 as [? ? ? ? ? i c ? ? ? ? ? ? ? ? ? ? ? ?]. simpl in Hi, Hc. subst i c.
  pose proof (copy_images_idem _ _ _ Ei) as Ei'. pose proof (copy_images_idem _ _ _ Ec) as Ec'.
  destruct (bool_decide (mode = Party)).
  - destruct (fitNodeAffinity range _ sel) as [a|] eqn:Ea; [|done]. intros [= <- <-]. cbn. rewrite Ei', Ec'. cbn.
    by rewrite bool_decide_true.
  - intros [= <- <-]. cbn. rewrite Ei', Ec'. cbn. by rewrite bool_decide_true.
Qed.

Lemma GetUpdatedPod_idem_witness : exists o u,
  GetUpdatedPod map_to_list (fun _ => None) (named_pod "p" ∅ no_spec) (named_pod "p" {["a" := "b"]} no_spec) None ALL no_selector = Ret (o, u) /\
  GetUpdatedPod map_to_list (fun _ => None) o (named_pod "p" {["a" := "b"]} no_spec) None ALL no_selector = Ret (o, u).
Proof.
  eexists _, _. split; [reflexivity|].
  eapply (GetUpdatedPod_idem map_to_list (fun _ => None) (named_pod "p" ∅ no_spec)). reflexivity.
Defined.

(** In party mode the order of the map of labels shows in the affinity, so that two
updates may differ. *)
Lemma fitNodeAffinity_order :
  let sel := mkNodeSelector EmptyString (Some (mkSelector (Some {["a" := "1"; "b" := "2"]}) None)) in
  fitNodeAffinity map_to_list None sel <> fitNodeAffinity (fun m => rev (map_to_list m)) None sel.
Proof. vm_compute. congruence. Qed.

(** The first update of a pod that was fitted drops the record of the ignored labels. *)
Lemma update_drops_tripped range U orig update o u ign mode sel :
  GetUpdatedPod range U orig update ign mode sel = Ret (o, u) -> annotations o = Some (map_of (annotations update)).
Proof.
  unfold GetUpdatedPod. destruct (copy_images (spec_InitContainers _) _); cbn [mbind outcome_bind]; [|done].
  destruct (copy_images (spec_Containers _) _); cbn [mbind outcome_bind]; [|done].
  destruct (FitLabels _ ign) as [ls t]. destruct (bool_decide (mode = Party)); [|by intros [= <- <-]].
  destruct (fitNodeAffinity range _ sel); cbn [mbind outcome_bind]; [|done]. by intros [= <- <-].
Qed.
