(* ===== verification/NodeResources.v ===== *)
(** The resources of a leaf node that stands for many nodes: utils/resources.go, and
NodeReady of utils/node.go.

A quantity is an integer (of the smallest unit). The requests and limits of a pod come
from Kubernetes ([PodRequestsAndLimits]); the order of Go maps is a parameter. *)
From S2P Require Import Prelude GoStr GoJson PodApi LeafManager PodFit.

Definition NodeReady (node : KubeNode) : bool :=
  any (fun c => (cond_Type c =s "Ready") && (cond_Status c =s "True")) (kn_Conditions node).

Definition podResourceName : string := "pods".

(** [utils.IsVirtualPod] is [IsKosmosPod]. *)
Definition IsVirtualPod (pod : Pod) : bool := IsKosmosPod pod.

(** [if value, ok := total[key]; !ok { total[key] = val } else { value.Add(val); ... }] *)
Definition add_quantity (total : ResourceList) (kv : string * Z) : ResourceList :=
  <[kv.1 := match total !! kv.1 with Some value => (value + kv.2)%Z | None => kv.2 end]> total.

Section Resources.
Context (PodRequestsAndLimits : Pod -> ResourceList * ResourceList).
Context (range : ResourceList -> list (string * Z)).

Definition add_list (total vals : ResourceList) : ResourceList := fold_left add_quantity (range vals) total.

Definition GetNotReadyAndUnschedulableLeafNodes (nodes : list KubeNode) : gmap string KubeNode :=
  fold_left (fun unavailable n => if kn_Unschedulable n || negb (NodeReady n) then <[kn_Name n := n]> unavailable else unavailable)
    nodes ∅.

Definition GetNodesTotalResources (nodes : list KubeNode) (unavailable : gmap string KubeNode) : ResourceList :=
  fold_left (fun total n => match unavailable !! kn_Name n with
                            | Some _ => total
                            | None => add_list total (kn_Allocatable n)
                            end) nodes ∅.

Definition SubResourceList (base list : ResourceList) : ResourceList :=
  fold_left (fun base '(name, quantity) => match base !! name with
                                           | Some value => <[name := (value - quantity)%Z]> base
                                           | None => base
                                           end) (range list) base.

Definition GetPodsTotalRequestsAndLimits (pods : list Pod) (unavailable : gmap string KubeNode) : ResourceList * ResourceList :=
  fold_left (fun '(reqs, limits) pod =>
    if IsVirtualPod pod then (reqs, limits)
    else if negb (st_Phase (pod_Status pod) =s "Running") then (reqs, limits)
    else match unavailable !! spec_NodeName (pod_Spec pod) with
         | Some _ => (reqs, limits)
         | None => let '(podReqs, podLimits) := PodRequestsAndLimits pod in
                   (add_list reqs podReqs, add_list limits podLimits)
         end) pods (∅, ∅).

Definition GetUsedPodNums (pods : list Pod) (nodes : list KubeNode) : ResourceList :=
  let nodeMap : gmap string KubeNode := fold_left (fun m n => <[kn_Name n := n]> m) nodes ∅ in
  let podQuantity := fold_left (fun q pod =>
    if IsVirtualPod pod then q
    else if negb (st_Phase (pod_Status pod) =s "Running") then q
    else match nodeMap !! spec_NodeName (pod_Spec pod) with
         | None => q
         | Some node => if kn_Unschedulable node || negb (NodeReady node) then q else (q + 1)%Z
         end) pods 0%Z in
  {[podResourceName := podQuantity]}.

Definition CalculateClusterResources (nodes : list KubeNode) (pods : list Pod) : ResourceList :=
  let unavailable := GetNotReadyAndUnschedulableLeafNodes nodes in
  let base := GetNodesTotalResources nodes unavailable in
  let '(reqs, _) := GetPodsTotalRequestsAndLimits pods unavailable in
  let podNums := GetUsedPodNums pods nodes in
  SubResourceList (SubResourceList base reqs) podNums.
End Resources.

(** * What the sums are *)

Definition available (n : KubeNode) : bool := negb (kn_Unschedulable n) && NodeReady n.
Definition sumZ {A : Type} (f : A -> Z) (l : list A) : Z := fold_right (fun x s => f x + s)%Z 0%Z l.
Definition amount (l : ResourceList) (r : string) : Z := default 0%Z (l !! r).

(** A pod of the leaf cluster itself that is running. *)
Definition running (pod : Pod) : bool := negb (IsVirtualPod pod) && (st_Phase (pod_Status pod) =s "Running").
Definition on_node (pod : Pod) (n : KubeNode) : bool := spec_NodeName (pod_Spec pod) =s kn_Name n.

Lemma sumZ_app {A} (f : A -> Z) l1 l2 : sumZ f (l1 ++ l2) = (sumZ f l1 + sumZ f l2)%Z.
Proof. induction l1 as [|x l1 IH]; simpl; [lia|]. rewrite IH. lia. Qed.

Lemma sumZ_nonneg {A} (f : A -> Z) l : (forall x, x ∈ l -> 0 <= f x)%Z -> (0 <= sumZ f l)%Z.
Proof.
  induction l as [|x l IH]; intros H; simpl; [lia|]. pose proof (H x ltac:(by left)).
  assert (0 <= sumZ f l)%Z by (apply IH; intros; apply H; by right). lia.
Qed.

Lemma sumZ_filter {A} (p : A -> bool) (f : A -> Z) l :
  sumZ f (List.filter p l) = sumZ (fun x => if p x then f x else 0%Z) l.
Proof. induction l as [|x l IH]; simpl; [done|]. destruct (p x); simpl; rewrite IH; lia. Qed.

Lemma sumZ_le {A} (f g : A -> Z) l : (forall x, x ∈ l -> f x <= g x)%Z -> (sumZ f l <= sumZ g l)%Z.
Proof.
  induction l as [|x l IH]; intros H; simpl; [lia|]. pose proof (H x ltac:(by left)).
  assert (sumZ f l <= sumZ g l)%Z by (apply IH; intros; apply H; by right). lia.
Qed.

Lemma sumZ_ext {A} (f g : A -> Z) l : (forall x, x ∈ l -> f x = g x) -> sumZ f l = sumZ g l.
Proof. induction l as [|x l IH]; intros H; simpl; [done|]. rewrite (H x), IH; [done| |by left]. intros; apply H; by right. Qed.

(** Sums over two lists commute. *)
Lemma sumZ_swap {A B} (f : A -> B -> Z) l1 l2 :
  sumZ (fun x => sumZ (f x) l2) l1 = sumZ (fun y => sumZ (fun x => f x y) l1) l2.
Proof.
  induction l1 as [|x l1 IH]; simpl; [induction l2; simpl; lia|]. rewrite IH. clear IH.
  induction l2 as [|y l2 IH]; simpl; [done|]. lia.
Qed.

Lemma node_unique nodes n n' : NoDup (map kn_Name nodes) -> n ∈ nodes -> n' ∈ nodes -> kn_Name n = kn_Name n' -> n = n'.
Proof.
  induction nodes as [|x nodes IH]; intros N Hn Hn' E; [set_solver|]. simpl in N. apply list.NoDup_cons in N as [Hx N].
  apply elem_of_cons in Hn as [->|Hn]; apply elem_of_cons in Hn' as [->|Hn']; [done|..|by apply IH];
    destruct Hx; [rewrite E|rewrite <- E]; by apply list_elem_of_fmap_2.
Qed.

Section Sums.
Context (PodRequestsAndLimits : Pod -> ResourceList * ResourceList).
Context (range : ResourceList -> list (string * Z)).
Context (range_perm : forall m, range m ≡ₚ map_to_list m).

Lemma range_list m : NoDup (range m).*1 /\ (list_to_map (range m) : ResourceList) = m.
Proof.
  assert (N : NoDup (range m).*1) by (rewrite range_perm; apply NoDup_fst_map_to_list). split; [done|].
  trans (list_to_map (map_to_list m) : ResourceList); [|apply list_to_map_to_list].
  by apply list_to_map_proper.
Qed.

Lemma add_list_lookup total vals r :
  add_list range total vals !! r =
  match total !! r, vals !! r with
  | Some x, Some y => Some (x + y)%Z | Some x, None => Some x | None, y => y end.
Proof.
  unfold add_list. destruct (range_list vals) as [N E].
  replace (vals !! r) with ((list_to_map (range vals) : ResourceList) !! r) by by rewrite E. clear E.
  revert total N. generalize (range vals) as l. induction l as [|[k v] l IH]; intros total N; cbn [fold_left list_to_map foldr].
  { rewrite lookup_empty. by destruct (total !! r). }
  apply list.NoDup_cons in N as [Hk N]. rewrite IH by done. unfold add_quantity. simpl. clear IH.
  destruct (decide (k = r)) as [->|Hne].
  - rewrite !lookup_insert_eq. rewrite (not_elem_of_list_to_map_1 (M := gmap string)) by done. by destruct (total !! r).
  - by rewrite !lookup_insert_ne.
Qed.

Lemma SubResourceList_lookup base l r :
  SubResourceList range base l !! r = match base !! r with Some x => Some (x - amount l r)%Z | None => None end.
Proof.
  unfold SubResourceList, amount. destruct (range_list l) as [N E].
  replace (l !! r) with ((list_to_map (range l) : ResourceList) !! r) by by rewrite E. clear E.
  revert base N. generalize (range l) as l'. induction l' as [|[k v] l' IH]; intros base N; cbn [fold_left list_to_map foldr].
  { rewrite lookup_empty. destruct (base !! r); [|done]. f_equal. simpl. lia. }
  apply list.NoDup_cons in N as [Hk N]. rewrite IH by done. simpl. clear IH. simpl in Hk.
  destruct (decide (k = r)) as [->|Hne].
  - rewrite lookup_insert_eq, (not_elem_of_list_to_map_1 (M := gmap string)) by done.
    destruct (base !! r) eqn:Er; [rewrite lookup_insert_eq|by rewrite Er]. f_equal. simpl. lia.
  - rewrite lookup_insert_ne by done. destruct (base !! k); [by rewrite lookup_insert_ne|done].
Qed.

Lemma amount_add_list total vals r : amount (add_list range total vals) r = (amount total r + amount vals r)%Z.
Proof.
  unfold amount. rewrite add_list_lookup. destruct (total !! r), (vals !! r); simpl; lia.
Qed.

(** ** Nodes *)

Lemma unavailable_lookup nodes k :
  GetNotReadyAndUnschedulableLeafNodes nodes !! k = None <-> forall n, n ∈ nodes -> kn_Name n = k -> available n = true.
Proof.
  unfold GetNotReadyAndUnschedulableLeafNodes.
  assert (G : forall m : gmap string KubeNode,
    fold_left (fun u n => if kn_Unschedulable n || negb (NodeReady n) then <[kn_Name n := n]> u else u) nodes m !! k = None <->
    m !! k = None /\ forall n, n ∈ nodes -> kn_Name n = k -> available n = true).
  { induction nodes as [|x nodes IH]; intros m; simpl; [set_solver|]. rewrite IH. clear IH.
    assert (A : kn_Unschedulable x || negb (NodeReady x) = negb (available x))
      by (unfold available; by destruct (kn_Unschedulable x), (NodeReady x)).
    rewrite A. split.
    - intros [Hm Hall]. destruct (available x) eqn:Ex; simpl in Hm.
      + split; [done|]. intros n [->|?]%elem_of_cons; auto.
      + destruct (decide (kn_Name x = k)) as [<-|Hxk]; [by rewrite lookup_insert_eq in Hm|].
        rewrite lookup_insert_ne in Hm by done. split; [done|]. intros n [->|?]%elem_of_cons; [done|auto].
    - intros [Hm Hall]. split; [|intros; apply Hall; [by right|done]].
      destruct (available x) eqn:Ex; [done|]. simpl. destruct (decide (kn_Name x = k)) as [Hk|]; [|by rewrite lookup_insert_ne].
      rewrite (Hall x) in Ex; [done|by left|done]. }
  rewrite G, lookup_empty. naive_solver.
Qed.

Lemma unavailable_node nodes n : NoDup (map kn_Name nodes) -> n ∈ nodes ->
  match GetNotReadyAndUnschedulableLeafNodes nodes !! kn_Name n with Some _ => false | None => true end = available n.
Proof.
  intros N Hn. destruct (GetNotReadyAndUnschedulableLeafNodes nodes !! kn_Name n) eqn:E.
  - destruct (available n) eqn:Ea; [|done].
    assert (X : GetNotReadyAndUnschedulableLeafNodes nodes !! kn_Name n = None); [|congruence].
    apply unavailable_lookup. intros n' Hn' He. by rewrite (node_unique nodes n' n).
  - symmetry. by apply (proj1 (unavailable_lookup nodes (kn_Name n)) E n).
Qed.

Lemma GetNodesTotalResources_spec nodes r : NoDup (map kn_Name nodes) ->
  GetNodesTotalResources range nodes (GetNotReadyAndUnschedulableLeafNodes nodes) !! r =
  if any (fun n => available n && bool_decide (is_Some (kn_Allocatable n !! r))) nodes
  then Some (sumZ (fun n => amount (kn_Allocatable n) r) (List.filter available nodes)) else None.
Proof.
  intros N. unfold GetNodesTotalResources. set (u := GetNotReadyAndUnschedulableLeafNodes nodes).
  assert (Hu : forall n, n ∈ nodes -> match u !! kn_Name n with Some _ => false | None => true end = available n)
    by (intros n Hn; by apply unavailable_node).
  clearbody u. clear N.
  assert (G : forall total, fold_left (fun total n => match u !! kn_Name n with Some _ => total
      | None => add_list range total (kn_Allocatable n) end) nodes total !! r =
    if any (fun n => available n && bool_decide (is_Some (kn_Allocatable n !! r))) nodes
    then Some (amount total r + sumZ (fun n => amount (kn_Allocatable n) r) (List.filter available nodes))%Z
    else total !! r).
  { induction nodes as [|n nodes IH]; intros total; [done|]. simpl.
    pose proof (Hu n ltac:(by left)) as Hn. rewrite IH by (intros; apply Hu; by right). clear IH Hu.
    destruct (u !! kn_Name n); rewrite <- Hn; simpl; [done|].
    rewrite amount_add_list, add_list_lookup by done. unfold amount.
    destruct (any _ nodes) eqn:Ea.
    - rewrite orb_true_r. f_equal. lia.
    - rewrite orb_false_r. unfold any in Ea.
      assert (Z0 : sumZ (fun n => default 0%Z (kn_Allocatable n !! r)) (List.filter available nodes) = 0%Z).
      { pose proof (proj1 (any_false _ nodes) Ea) as Hf. clear Ea. induction nodes as [|m nodes IH]; [done|]. simpl.
        pose proof (Hf m ltac:(by left)) as Hm. destruct (available m); [|apply IH; intros; apply Hf; by right].
        simpl in *. apply bool_decide_eq_false in Hm. rewrite IH by (intros; apply Hf; by right).
        destruct (kn_Allocatable m !! r); [destruct Hm; eauto|done]. }
      rewrite Z0. destruct (kn_Allocatable n !! r) as [y|]; simpl.
      + destruct (total !! r); simpl; f_equal; lia.
      + by destruct (total !! r). }
  rewrite G, lookup_empty. unfold amount at 1. rewrite lookup_empty. simpl. done.
Qed.

(** ** Pods *)

(** A running pod that is not on an unavailable node of the list. *)
Definition counts (nodes : list KubeNode) (pod : Pod) : bool :=
  running pod && negb (any (fun n => negb (available n) && on_node pod n) nodes).

(** A running pod on an available node of the list. *)
Definition placed (nodes : list KubeNode) (pod : Pod) : bool :=
  running pod && any (fun n => available n && on_node pod n) nodes.

Definition request (pod : Pod) (r : string) : Z := amount (fst (PodRequestsAndLimits pod)) r.

Lemma unavailable_pod nodes pod :
  match GetNotReadyAndUnschedulableLeafNodes nodes !! spec_NodeName (pod_Spec pod) with Some _ => true | None => false end =
  any (fun n => negb (available n) && on_node pod n) nodes.
Proof.
  destruct (_ !! _) eqn:E; symmetry.
  - destruct (any _ nodes) eqn:Ea; [done|]. pose proof (proj1 (any_false _ nodes) Ea) as Hf.
    assert (X : GetNotReadyAndUnschedulableLeafNodes nodes !! spec_NodeName (pod_Spec pod) = None); [|congruence].
    apply unavailable_lookup. intros n Hn Hk. specialize (Hf n Hn). unfold on_node in Hf.
    rewrite bool_decide_true, andb_true_r in Hf by done. by apply negb_false_iff.
  - apply any_false. intros n Hn. pose proof (proj1 (unavailable_lookup nodes _) E n Hn) as Ha. unfold on_node.
    case_bool_decide as Hk; [rewrite Ha by done; done|apply andb_false_r].
Qed.

Lemma requests_spec nodes pods r :
  amount (fst (GetPodsTotalRequestsAndLimits PodRequestsAndLimits range pods (GetNotReadyAndUnschedulableLeafNodes nodes))) r =
  sumZ (fun pod => request pod r) (List.filter (counts nodes) pods).
Proof.
  unfold GetPodsTotalRequestsAndLimits.
  assert (G : forall l0 st, amount (fst (fold_left (fun '(reqs, limits) pod =>
      if IsVirtualPod pod then (reqs, limits)
      else if negb (st_Phase (pod_Status pod) =s "Running") then (reqs, limits)
      else match GetNotReadyAndUnschedulableLeafNodes nodes !! spec_NodeName (pod_Spec pod) with
           | Some _ => (reqs, limits)
           | None => let '(podReqs, podLimits) := PodRequestsAndLimits pod in
                     (add_list range reqs podReqs, add_list range limits podLimits)
           end) l0 st)) r = (amount (fst st) r + sumZ (fun pod => request pod r) (List.filter (counts nodes) l0))%Z).
  { induction l0 as [|pod l0 IH]; intros [reqs limits]; [simpl; lia|]. cbn [fold_left]. rewrite IH. clear IH. simpl.
    unfold counts, running. rewrite <- unavailable_pod.
    destruct (IsVirtualPod pod); simpl; [done|]. destruct (st_Phase (pod_Status pod) =s "Running"); simpl; [|done].
    destruct (GetNotReadyAndUnschedulableLeafNodes nodes !! _); simpl; [done|].
    unfold request. destruct (PodRequestsAndLimits pod) as [a b]. simpl. rewrite amount_add_list by done. lia. }
  rewrite G. simpl. unfold amount at 1. rewrite lookup_empty. done.
Qed.

Lemma nodeMap_lookup nodes k : NoDup (map kn_Name nodes) ->
  fold_left (fun m n => <[kn_Name n := n]> m) nodes (∅ : gmap string KubeNode) !! k = first (fun n => kn_Name n =s k) nodes.
Proof.
  intros N. assert (G : forall m : gmap string KubeNode, fold_left (fun m n => <[kn_Name n := n]> m) nodes m !! k =
    match first (fun n => kn_Name n =s k) nodes with Some n => Some n | None => m !! k end).
  { induction nodes as [|n nodes IH]; intros m; [done|]. simpl in *. apply list.NoDup_cons in N as [Hn N].
    rewrite IH by done. case_bool_decide as Hk.
    - rewrite (proj2 (first_None _ nodes)); [by rewrite Hk, lookup_insert_eq|]. intros n' Hn'. apply bool_decide_eq_false.
      intros E. apply Hn. rewrite Hk, <- E. by apply list_elem_of_fmap_2.
    - destruct (first _ nodes); [done|]. by apply lookup_insert_ne. }
  rewrite G, lookup_empty. by destruct (first _ nodes).
Qed.

Lemma used_spec nodes pods r : NoDup (map kn_Name nodes) ->
  amount (GetUsedPodNums pods nodes) r =
  if r =s podResourceName then Z.of_nat (length (List.filter (placed nodes) pods)) else 0%Z.
Proof.
  intros N. unfold GetUsedPodNums, amount. case_bool_decide as Hr; [subst r; rewrite lookup_singleton_eq|by rewrite lookup_singleton_ne].
  cbn [from_option id].
  match goal with |- fold_left ?f _ _ = _ => assert (G : forall l0 q, fold_left f l0 q = (q + Z.of_nat (length (List.filter (placed nodes) l0)))%Z) end;
    [|rewrite G; lia].
  induction l0 as [|pod l0 IH]; intros q; cbn [fold_left List.filter]; [simpl; lia|]. rewrite IH. clear IH.
  unfold placed, running. destruct (IsVirtualPod pod); simpl; [done|].
  destruct (st_Phase (pod_Status pod) =s "Running"); simpl; [|done]. rewrite nodeMap_lookup by done.
  assert (E : any (fun n => available n && on_node pod n) nodes =
    match first (fun n => kn_Name n =s spec_NodeName (pod_Spec pod)) nodes with Some n => available n | None => false end).
  { destruct (first _ nodes) as [n|] eqn:Ef.
    - apply first_Some in Ef as [Hn Hk%bool_decide_eq_true]. destruct (available n) eqn:Ea.
      + apply any_true. exists n. rewrite Ea. unfold on_node. by rewrite bool_decide_true.
      + apply any_false. intros n' Hn'. unfold on_node. case_bool_decide as Hk'; [|apply andb_false_r].
        rewrite (node_unique nodes n' n) by (try done; congruence). by rewrite Ea.
    - apply any_false. intros n Hn. apply (proj1 (first_None _ _) Ef), bool_decide_eq_false in Hn.
      unfold on_node. rewrite bool_decide_false by congruence. apply andb_false_r. }
  rewrite E. destruct (first _ nodes) as [n|]; [|done].
  replace (kn_Unschedulable n || negb (NodeReady n)) with (negb (available n))
    by (unfold available; by destruct (kn_Unschedulable n), (NodeReady n)).
  destruct (available n); simpl; lia.
Qed.

(** What a pod takes of a resource. *)
Definition pod_use (r : string) (pod : Pod) : Z := (request pod r + if r =s podResourceName then 1 else 0)%Z.

(** The pods are on nodes of the list, and those on an available node fit it. *)
Definition pods_fit (nodes : list KubeNode) (pods : list Pod) (r : string) : Prop :=
  (forall pod, pod ∈ pods -> running pod = true -> exists n, n ∈ nodes /\ on_node pod n = true) /\
  (forall pod, pod ∈ pods -> 0 <= request pod r)%Z /\
  (forall n, n ∈ nodes -> available n = true ->
     sumZ (pod_use r) (List.filter (fun pod => running pod && on_node pod n) pods) <= amount (kn_Allocatable n) r)%Z.

Lemma pod_use_nonneg nodes pods r pod : pods_fit nodes pods r -> pod ∈ pods -> (0 <= pod_use r pod)%Z.
Proof. intros (_ & H & _) Hp. specialize (H pod Hp). unfold pod_use. destruct (r =s _); lia. Qed.

Lemma sumZ_elem {A} (f : A -> Z) l x : (forall y, y ∈ l -> 0 <= f y)%Z -> x ∈ l -> (f x <= sumZ f l)%Z.
Proof.
  intros Hp. induction l as [|y l IH]; intros Hx; [set_solver|]. simpl.
  assert (Hl : (0 <= sumZ f l)%Z) by (apply sumZ_nonneg; intros; apply Hp; by right).
  pose proof (Hp y ltac:(by left)). apply elem_of_cons in Hx as [->|Hx]; [lia|].
  specialize (IH ltac:(intros; apply Hp; by right) Hx). lia.
Qed.

Lemma placed_use_le nodes pods r : pods_fit nodes pods r ->
  (0 <= sumZ (pod_use r) (List.filter (placed nodes) pods) <=
   sumZ (fun n => amount (kn_Allocatable n) r) (List.filter available nodes))%Z.
Proof.
  intros Hf. pose proof Hf as (_ & _ & Hfit). split.
  { apply sumZ_nonneg. intros pod [Hp _]%list_filter_spec. by eapply pod_use_nonneg. }
  trans (sumZ (fun n => sumZ (fun pod => if running pod && on_node pod n then pod_use r pod else 0%Z) pods) (List.filter available nodes)).
  - rewrite sumZ_filter, <- sumZ_swap. apply sumZ_le. intros pod Hp.
    pose proof (pod_use_nonneg _ _ _ _ Hf Hp) as Hu. unfold placed.
    destruct (running pod); simpl; [|apply sumZ_nonneg; intros; lia].
    destruct (any _ nodes) eqn:Ea; [|apply sumZ_nonneg; intros n _; destruct (on_node pod n); lia].
    apply any_true in Ea as (n & Hn & [Hav Hon]%andb_prop).
    trans (if on_node pod n then pod_use r pod else 0%Z); [rewrite Hon; lia|].
    apply (sumZ_elem (fun n => if on_node pod n then pod_use r pod else 0%Z)); [intros y _; destruct (on_node pod y); lia|].
    by apply list_filter_spec.
  - apply sumZ_le. intros n [Hn Hav]%list_filter_spec. rewrite <- sumZ_filter. by apply Hfit.
Qed.

Lemma counts_placed nodes pods r : NoDup (map kn_Name nodes) -> pods_fit nodes pods r ->
  List.filter (counts nodes) pods = List.filter (placed nodes) pods.
Proof.
  intros N (Hon & _). apply filter_ext_in. intros pod Hp%list_elem_of_In. unfold counts, placed.
  destruct (running pod) eqn:Hr; [|done]. simpl. destruct (Hon pod Hp Hr) as (n & Hn & Ho).
  assert (U : forall n', n' ∈ nodes -> on_node pod n' = true -> n' = n).
  { intros n' Hn' Ho'. apply (node_unique nodes); try done. apply bool_decide_eq_true in Ho, Ho'. congruence. }
  destruct (available n) eqn:Ea.
  - rewrite (proj2 (any_true (fun n => available n && on_node pod n) nodes)); [|exists n; by rewrite Ea, Ho].
    apply negb_true_iff, any_false.
    intros n' Hn'. destruct (on_node pod n') eqn:E; [|apply andb_false_r]. by rewrite (U n' Hn' E), Ea.
  - rewrite (proj2 (any_true (fun n => negb (available n) && on_node pod n) nodes)); [|exists n; by rewrite Ea, Ho].
    symmetry. apply any_false.
    intros n' Hn'. destruct (on_node pod n') eqn:E; [|apply andb_false_r]. by rewrite (U n' Hn' E), Ea.
Qed.

Lemma sumZ_use pods r : sumZ (pod_use r) pods =
  (sumZ (fun pod => request pod r) pods + if r =s podResourceName then Z.of_nat (length pods) else 0)%Z.
Proof. unfold pod_use. destruct (r =s podResourceName); induction pods; simpl in *; lia. Qed.

(** C7: the resources of a leaf node that stands for many: a resource is offered if an
available node has it, and its amount is the sum over the available nodes less the
requests of the running pods that are not on an unavailable node; for the number of pods,
less the running pods on available nodes as well. Pods that Kosmos put there count as
free. If the running pods are on nodes of the list and fit them, the amount is between
zero and the sum. *)
Theorem resources_spec (nodes : list KubeNode) (pods : list Pod) (r : string) : NoDup (map kn_Name nodes) ->
  CalculateClusterResources PodRequestsAndLimits range nodes pods !! r =
  (if any (fun n => available n && bool_decide (is_Some (kn_Allocatable n !! r))) nodes then
    Some (sumZ (fun n => amount (kn_Allocatable n) r) (List.filter available nodes) -
          sumZ (fun pod => request pod r) (List.filter (counts nodes) pods) -
          (if r =s podResourceName then Z.of_nat (length (List.filter (placed nodes) pods)) else 0))%Z
  else None) /\
  (pods_fit nodes pods r -> forall v, CalculateClusterResources PodRequestsAndLimits range nodes pods !! r = Some v ->
   0 <= v <= sumZ (fun n => amount (kn_Allocatable n) r) (List.filter available nodes))%Z.
Proof.
  intros N. assert (E : CalculateClusterResources PodRequestsAndLimits range nodes pods !! r =
    (if any (fun n => available n && bool_decide (is_Some (kn_Allocatable n !! r))) nodes then
    Some (sumZ (fun n => amount (kn_Allocatable n) r) (List.filter available nodes) -
          sumZ (fun pod => request pod r) (List.filter (counts nodes) pods) -
          (if r =s podResourceName then Z.of_nat (length (List.filter (placed nodes) pods)) else 0))%Z
    else None)).
  { unfold CalculateClusterResources. pose proof (requests_spec nodes pods r) as Hr.
    destruct (GetPodsTotalRequestsAndLimits _ _ _ _) as [reqs limits]. simpl in Hr.
    rewrite !SubResourceList_lookup, GetNodesTotalResources_spec by done.
    destruct (any _ nodes); [|done]. by rewrite Hr, used_spec. }
  split; [exact E|]. intros Hf v Hv. rewrite E in Hv. destruct (any _ nodes); [|done]. injection Hv as <-.
  pose proof (placed_use_le _ _ _ Hf) as Hb. rewrite sumZ_use in Hb. rewrite (counts_placed nodes pods r) by done. lia.
Qed.
End Sums.

Definition ready_node (name : string) (cpu : Z) : KubeNode :=
  mkKubeNode name EmptyString EmptyString None None None false []
    (mkNodeStatus [mkCondition "Ready" "True" EmptyString EmptyString None] {["cpu" := cpu]} ∅ [] EmptyString 0 EmptyString EmptyString EmptyString).
Definition pod_on (node : string) : Pod := named_pod "p" ∅ (with_NodeName node no_spec).

Lemma resources_spec_witness :
  CalculateClusterResources (fun _ => ({["cpu" := 1%Z]}, ∅)) map_to_list [ready_node "n1" 4] [pod_on "n1"] !! "cpu" = Some 3%Z.
Proof.
  etrans; [apply (resources_spec (fun _ => ({["cpu" := 1%Z]}, ∅)) map_to_list (fun m => reflexivity _)
    [ready_node "n1" 4] [pod_on "n1"] "cpu")|reflexivity].
  apply NoDup_singleton.
Defined.

(** A pod on a node outside the list counts against the nodes of the list: in party mode,
where the pods are those of the whole leaf cluster, the amount can be negative. *)
Lemma party_resources_negative :
  CalculateClusterResources (fun _ => ({["cpu" := 5%Z]}, ∅)) map_to_list [ready_node "n1" 4] [pod_on "n2"] !! "cpu" = Some (-1)%Z.
Proof. vm_compute. reflexivity. Qed.
