(* ===== verification/PodProg.v ===== *)
(** Controllers as programs that call API servers.

A [prog] is a sequence of calls, each of which may be answered in any way its type
allows; what the code does next depends on the answer. [exec] gives the runs of a
program: the calls made, with their answers, and the outcome. A theorem about every run
holds whatever the servers answer and whatever happens between two calls. [Par] runs
three goroutines whose calls interleave. *)
From S2P Require Import Prelude GoStr PodApi LeafManager PodEnv.

(** * Objects and calls *)

(** The answer to a write. *)
Inductive apierr := NoError | IsNotFound (err : string) | IsAlreadyExists (err : string) | IsConflict (err : string) | OtherError (err : string).

Definition err_text (e : apierr) : option string :=
  match e with
  | NoError => None
  | IsNotFound m | IsAlreadyExists m | IsConflict m | OtherError m => Some m
  end.

Record NamespacedName := mkNN { nn_Namespace : string; nn_Name : string }.
#[export] Instance NamespacedName_eq : EqDecision NamespacedName. Proof. solve_decision. Defined.

(** A config map, secret or claim as the dynamic clients see it; [u_Type] is the type of a
secret. *)
Inductive gvr := GVR_CONFIGMAP | GVR_SECRET | GVR_PVC.
#[export] Instance gvr_eq : EqDecision gvr. Proof. solve_decision. Defined.

Record Unstructured := mkObj {
  u_Name : string; u_Namespace : string; u_UID : string; u_ResourceVersion : string;
  u_OwnerReferences : option opaque; u_Annotations : option smap; u_Type : string; u_Rest : opaque }.

Record ServiceAccount := mkSA { sa_Name : string; sa_Namespace : string; sa_UID : string; sa_Secrets : list string }.

(** The lease of a node; [lease_Owner] is the name and UID of the node it belongs to. *)
Record Lease := mkLease {
  lease_Name : string; lease_Namespace : string; lease_Owner : string * string;
  lease_Holder : option string; lease_Duration : option Z; lease_RenewTime : option Z; lease_Rest : opaque }.

(** Which nodes or pods a list call asks for. *)
Inductive NodeFilter := AllNodes | NodesByLabels (sel : option LabelSelector) | NodeByName (name : string) | ControlPlane.
Inductive PodFilter := AllPods | PodsOnNode (name : string).

(** The calls. A leaf cluster is named by its actual name. The first four read the state
of the process: the leaf resources, a client of a leaf cluster, the clock (in nanoseconds
since the zero time of Go), and how many
more attempts the time allows a poll; [Schedule] is the order in which goroutines
deliver their messages. [BuildClient] and [SetupController] stand for constructors of the
client libraries and the controller runtime, [CancelManager] and [StartManager] for the
context of the manager of a cluster. *)
Inductive Op : Type :=
  | Leaves
  | LeafClient (cluster : string)
  | Now
  | PollBudget
  | Schedule
  | RootGetPod (nn : NamespacedName)
  | RootDeletePod (pod : Pod) (grace : option Z)
  | RootUpdateStatus (pod : Pod)
  | RootGetNode (name : string)
  | RootGetService (nn : NamespacedName)
  | RootReadEnv
  | RootListClusterPolicies
  | RootListPolicies (ns : string)
  | RootGetObj (r : gvr) (nn : NamespacedName)
  | RootUpdateObj (r : gvr) (obj : Unstructured)
  | RootCreateObj (r : gvr) (obj : Unstructured)
  | RootGetSA (nn : NamespacedName)
  | RootUpdateSA (sa : ServiceAccount)
  | LeafGetPod (cluster : string) (nn : NamespacedName)
  | LeafCreatePod (cluster : string) (pod : Pod)
  | LeafUpdatePod (cluster : string) (pod : Pod)
  | LeafDeletePod (cluster : string) (pod : Pod) (grace : option Z)
  | LeafGetNS (cluster ns : string)
  | LeafCreateNS (cluster ns : string)
  | LeafGetObj (cluster : string) (r : gvr) (nn : NamespacedName)
  | LeafCreateObj (cluster : string) (r : gvr) (obj : Unstructured)
  | LeafGetSA (cluster : string) (nn : NamespacedName)
  | LeafCreateSA (cluster : string) (sa : ServiceAccount)
  | LeafUpdateSA (cluster : string) (sa : ServiceAccount)
  | RootListHostNodes
  | RootCreateNode (node : KubeNode)
  | RootUpdateNodeStatus (node : KubeNode)
  | RootPatchTaints (name : string) (taints : list NodeTaint)
  | RootPatchNode (name : string) (patch : opaque)
  | RootPatchNodeStatus (name : string) (patch : opaque)
  | RootGetLease (nn : NamespacedName)
  | RootCreateLease (lease : Lease)
  | RootUpdateLease (lease : Lease)
  | LeafHealthy
  | LeafServerVersion
  | LeafListNodes (filter : NodeFilter)
  | LeafListPods (filter : PodFilter)
  | RootGetCluster (name : string)
  | RootUpdateCluster (cluster : ManagedCluster)
  | RootDeleteNode (name : string)
  | BuildClient (what : string) (kubeconfig : string)
  | SetupController (name : string)
  | CancelManager (cluster : string)
  | StartManager (cluster : string)
  | RootGetPVC (nn : NamespacedName)
  | LeafGetPVC (cluster : string) (nn : NamespacedName)
  | RootPatchPVC (nn : NamespacedName) (patch : opaque)
  | LeafPatchPVC (cluster : string) (nn : NamespacedName) (patch : opaque)
  | RootUpdatePVCStatus (claim : PersistentVolumeClaim)
  | LeafCreatePVC (cluster : string) (claim : PersistentVolumeClaim)
  | LeafDeletePVC (cluster : string) (nn : NamespacedName)
  | RootGetPV (name : string)
  | LeafGetPV (cluster name : string)
  | RootCreatePV (volume : PersistentVolume)
  | LeafCreatePV (cluster : string) (volume : PersistentVolume)
  | RootPatchPV (name : string) (patch : opaque)
  | LeafPatchPV (cluster name : string) (patch : opaque)
  | RootDeletePV (name : string)
  | LeafDeletePV (cluster name : string)
  | RootGetVolumePath (name : string).

(** The type of the answer to a call. *)
Definition resp (op : Op) : Type :=
  match op with
  | Leaves => resourceMap
  | LeafClient _ => result unit
  | Now => Z
  | PollBudget => nat
  | Schedule => list nat
  | RootGetPod _ | LeafGetPod _ _ => got Pod
  | RootDeletePod _ _ | RootUpdateStatus _ | RootUpdateObj _ _ | RootCreateObj _ _ | RootUpdateSA _
  | LeafCreatePod _ _ | LeafUpdatePod _ _ | LeafDeletePod _ _ _ | LeafCreateNS _ _ | LeafCreateObj _ _ _
  | LeafUpdateSA _ _ | RootUpdateNodeStatus _ | RootPatchTaints _ _ | RootPatchNode _ _ | RootPatchNodeStatus _ _
  | RootCreateLease _ | RootUpdateLease _ => apierr
  | RootGetLease _ => got Lease
  | LeafServerVersion => result string
  | RootGetCluster _ => got ManagedCluster
  | RootUpdateCluster _ | RootDeleteNode _ | LeafPatchPVC _ _ _ | RootUpdatePVCStatus _ | LeafCreatePVC _ _ | LeafDeletePVC _ _ | RootCreatePV _ | LeafCreatePV _ _ | RootPatchPV _ _ | LeafPatchPV _ _ _ | RootDeletePV _ | LeafDeletePV _ _ => apierr
  | BuildClient _ _ | SetupController _ => result unit
  | CancelManager _ | StartManager _ => unit
  | RootGetPVC _ | LeafGetPVC _ _ => got PersistentVolumeClaim
  | RootPatchPVC _ _ => apierr * PersistentVolumeClaim
  | RootGetPV _ | LeafGetPV _ _ => got PersistentVolume
  | RootGetVolumePath _ => got string
  | RootCreateNode _ => apierr * KubeNode (* the node as stored *)
  | LeafHealthy => bool
  | RootListHostNodes | LeafListNodes _ => result (list KubeNode)
  | LeafListPods _ => result (list Pod)
  | LeafCreateSA _ _ => apierr * string (* the UID of the new account *)
  | RootGetNode _ => got KubeNode
  | RootGetService _ => got Service
  | RootReadEnv => EnvResourceManager
  | RootListClusterPolicies | RootListPolicies _ => got (list ConvertPolicy)
  | RootGetObj _ _ | LeafGetObj _ _ _ => got Unstructured
  | RootGetSA _ | LeafGetSA _ _ => got ServiceAccount
  | LeafGetNS _ _ => got unit
  end.

(** A call with its answer. *)
Record event := Ev { ev_op : Op; ev_resp : resp ev_op }.

(** * Programs *)

(** [Par] joins three goroutines that end with an error or none. *)
Inductive prog (A : Type) : Type :=
  | Done (a : A)
  | Crash
  | Call (op : Op) (k : resp op -> prog A)
  | Par (p1 p2 p3 : prog (option string)) (k : option string -> option string -> option string -> prog A).
Arguments Done {A} a.
Arguments Crash {A}.
Arguments Call {A} op k.
Arguments Par {A} p1 p2 p3 k.

Fixpoint pbind {A B : Type} (m : prog A) (f : A -> prog B) : prog B :=
  match m with
  | Done a => f a
  | Crash => Crash
  | Call op k => Call op (fun r => pbind (k r) f)
  | Par p1 p2 p3 k => Par p1 p2 p3 (fun a b c => pbind (k a b c) f)
  end.

Definition call (op : Op) : prog (resp op) := Call op Done.

(** A part that calls nothing and may panic. *)
Definition pure {A : Type} (o : outcome A) : prog A := match o with Ret a => Done a | Panic => Crash end.

Declare Scope prog_scope.
Delimit Scope prog_scope with prog.
Notation "'let!' x ':=' m 'in' f" := (pbind m (fun x => f))
  (at level 200, x name, m at level 100, f at level 200) : prog_scope.
Notation "'let!' ' x ':=' m 'in' f" := (pbind m (fun x => f))
  (at level 200, x strict pattern, m at level 100, f at level 200) : prog_scope.
Open Scope prog_scope.

(** * Runs *)

(** An interleaving of three sequences. *)
Inductive interleave {A : Type} : list A -> list A -> list A -> list A -> Prop :=
  | inter_nil : interleave [] [] [] []
  | inter_1 x l1 l2 l3 l : interleave l1 l2 l3 l -> interleave (x :: l1) l2 l3 (x :: l)
  | inter_2 x l1 l2 l3 l : interleave l1 l2 l3 l -> interleave l1 (x :: l2) l3 (x :: l)
  | inter_3 x l1 l2 l3 l : interleave l1 l2 l3 l -> interleave l1 l2 (x :: l3) (x :: l).

(** A run that ends in a panic has no result. *)
Inductive exec : forall A : Type, prog A -> list event -> option A -> Prop :=
  | exec_Done A (a : A) : exec A (Done a) [] (Some a)
  | exec_Crash A : exec A Crash [] None
  | exec_Call A op (k : resp op -> prog A) r tr res : exec A (k r) tr res -> exec A (Call op k) (Ev op r :: tr) res
  | exec_Par A p1 p2 p3 (k : _ -> _ -> _ -> prog A) tr1 tr2 tr3 a b c tr tr' res :
      exec _ p1 tr1 (Some a) -> exec _ p2 tr2 (Some b) -> exec _ p3 tr3 (Some c) ->
      interleave tr1 tr2 tr3 tr -> exec A (k a b c) tr' res ->
      exec A (Par p1 p2 p3 k) (tr ++ tr') res
  | exec_Par_crash A p1 p2 p3 (k : _ -> _ -> _ -> prog A) tr1 tr2 tr3 r1 r2 r3 tr :
      exec _ p1 tr1 r1 -> exec _ p2 tr2 r2 -> exec _ p3 tr3 r3 ->
      (r1 = None \/ r2 = None \/ r3 = None) ->
      interleave tr1 tr2 tr3 tr -> exec A (Par p1 p2 p3 k) tr None.
Arguments exec {A} p tr res.

(** ** One run, for given answers *)

(** The goroutines of [Par] run one after the other. *)
Fixpoint run {A : Type} (ans : forall op, resp op) (p : prog A) : list event * option A :=
  match p with
  | Done a => ([], Some a)
  | Crash => ([], None)
  | Call op k => let '(tr, res) := run ans (k (ans op)) in (Ev op (ans op) :: tr, res)
  | Par p1 p2 p3 k =>
      let '(tr1, r1) := run ans p1 in
      let '(tr2, r2) := run ans p2 in
      let '(tr3, r3) := run ans p3 in
      match r1, r2, r3 with
      | Some a, Some b, Some c => let '(tr, res) := run ans (k a b c) in ((tr1 ++ tr2 ++ tr3) ++ tr, res)
      | _, _, _ => (tr1 ++ tr2 ++ tr3, None)
      end
  end.

Lemma interleave_app {A} (l1 l2 l3 : list A) : interleave l1 l2 l3 (l1 ++ l2 ++ l3).
Proof.
  induction l1 as [|x l1 IH]; simpl; [|by constructor]. induction l2 as [|x l2 IH]; simpl; [|by constructor].
  induction l3 as [|x l3 IH]; constructor. done.
Qed.

Lemma run_exec {A} ans (p : prog A) : exec p (fst (run ans p)) (snd (run ans p)).
Proof.
  induction p as [A a|A|A op k IH|A p1 IH1 p2 IH2 p3 IH3 k IH]; simpl; [constructor|constructor|..].
  - specialize (IH (ans op)). destruct (run ans (k (ans op))) as [tr res]. by constructor.
  - destruct (run ans p1) as [tr1 r1], (run ans p2) as [tr2 r2], (run ans p3) as [tr3 r3]. simpl in *.
    destruct r1 as [a|], r2 as [b|], r3 as [c|];
      try (eapply exec_Par_crash; [exact IH1|exact IH2|exact IH3|tauto|apply interleave_app]).
    specialize (IH a b c). destruct (run ans (k a b c)) as [tr res]. simpl in *.
    eapply exec_Par; [exact IH1|exact IH2|exact IH3|apply interleave_app|exact IH].
Qed.

(** * A program logic *)

Section Logic.
(** What a call requires of the calls before it; more of them do not harm. *)
Context (P : list event -> Op -> Prop).

(** After the calls [h], the program only makes allowed calls, and ends with [Q]. *)
Fixpoint wp {A : Type} (h : list event) (p : prog A) (Q : list event -> A -> Prop) {struct p} : Prop :=
  match p with
  | Done a => Q h a
  | Crash => True
  | Call op k => P h op /\ forall r, wp (h ++ [Ev op r]) (k r) Q
  | Par p1 p2 p3 k =>
      wp h p1 (fun _ _ => True) /\ wp h p2 (fun _ _ => True) /\ wp h p3 (fun _ _ => True) /\
      forall a b c h', h `sublist_of` h' -> wp h' (k a b c) Q
  end.

Lemma wp_mono {A} (p : prog A) : forall h (Q Q' : list event -> A -> Prop),
  wp h p Q -> (forall h' a, Q h' a -> Q' h' a) -> wp h p Q'.
Proof.
  induction p as [A a|A|A op k IH|A p1 _ p2 _ p3 _ k IH]; simpl; intros h Q Q' Hw HQ;
    [by apply HQ|done|naive_solver|naive_solver].
Qed.

Lemma wp_bind {A B} (m : prog A) (f : A -> prog B) : forall h Q,
  wp h m (fun h' a => wp h' (f a) Q) -> wp h (pbind m f) Q.
Proof.
  revert f. induction m as [A a|A|A op k IH|A p1 _ p2 _ p3 _ k IH]; simpl; intros f h Q Hw;
    [done|done|naive_solver|naive_solver].
Qed.

Lemma wp_seq {A B} (m : prog A) (f : A -> prog B) h R Q :
  wp h m R -> (forall h' a, R h' a -> wp h' (f a) Q) -> wp h (pbind m f) Q.
Proof. intros Hm Hf. apply wp_bind. by eapply wp_mono. Qed.

Lemma wp_pure {A} h (o : outcome A) (Q : list event -> A -> Prop) : (forall a, o = Ret a -> Q h a) -> wp h (pure o) Q.
Proof. destruct o; simpl; auto. Qed.

Context (P_mono : forall h h' op, h `sublist_of` h' -> P h op -> P h' op).

Lemma interleave_split {A} (l1 l2 l3 l pre post : list A) x : interleave l1 l2 l3 l -> l = pre ++ x :: post ->
  exists li pre' post', (li = l1 \/ li = l2 \/ li = l3) /\ li = pre' ++ x :: post' /\ pre' `sublist_of` pre.
Proof.
  intros H. revert pre. induction H as [|y l1 l2 l3 l H IH|y l1 l2 l3 l H IH|y l1 l2 l3 l H IH]; intros [|z pre] E;
    simplify_eq/=; try (eexists _, [], _; split; [|split; [reflexivity|done]]; by auto).
  all: destruct (IH _ eq_refl) as (li & pre' & post' & Hli & -> & Hs).
  all: destruct Hli as [Hl|[Hl|Hl]].
  all: first
    [ exists (pre' ++ x :: post'), pre', post'; split; [tauto|split; [done|by apply sublist_cons]]
    | exists (z :: pre' ++ x :: post'), (z :: pre'), post'; rewrite <- Hl; split; [tauto|split; [done|by apply sublist_skip]] ].
Qed.

(** The calls of a run that starts after [h] are allowed. *)
Definition calls_ok (h tr : list event) : Prop :=
  forall pre e post, tr = pre ++ e :: post -> P (h ++ pre) (ev_op e).

Lemma calls_ok_nil h : calls_ok h [].
Proof. by intros []. Qed.

Lemma calls_ok_cons h op r tr : P h op -> calls_ok (h ++ [Ev op r]) tr -> calls_ok h (Ev op r :: tr).
Proof.
  intros Hp Hc [|x pre] e post E; simpl in E.
  - assert (e = Ev op r) as -> by congruence. by rewrite app_nil_r.
  - assert (x = Ev op r) as -> by congruence. assert (E' : tr = pre ++ e :: post) by congruence.
    specialize (Hc pre e post E'). by rewrite <- app_assoc in Hc.
Qed.

Lemma calls_ok_app h tr tr' : calls_ok h tr -> calls_ok (h ++ tr) tr' -> calls_ok h (tr ++ tr').
Proof.
  revert h. induction tr as [|[op r] tr IH]; intros h H1 H2; simpl; [by rewrite app_nil_r in H2|].
  apply calls_ok_cons; [specialize (H1 [] (Ev op r) tr eq_refl); by rewrite app_nil_r in H1|]. apply IH.
  - intros pre e post ->. specialize (H1 (Ev op r :: pre) e post eq_refl). by rewrite <- app_assoc.
  - by rewrite <- app_assoc.
Qed.

Lemma calls_ok_interleave h tr1 tr2 tr3 tr : interleave tr1 tr2 tr3 tr ->
  calls_ok h tr1 -> calls_ok h tr2 -> calls_ok h tr3 -> calls_ok h tr.
Proof.
  intros Hi H1 H2 H3 pre e post E.
  destruct (interleave_split _ _ _ _ _ _ _ Hi E) as (li & pre' & post' & Hli & El & Hs).
  apply (P_mono (h ++ pre')); [by apply sublist_app|].
  destruct Hli as [->|[->| ->]]; [by eapply H1|by eapply H2|by eapply H3].
Qed.

(** Every run makes only allowed calls, and what the logic says of the result holds. *)
Lemma wp_sound {A} (p : prog A) tr res : exec p tr res -> forall h Q, wp h p Q ->
  calls_ok h tr /\ (forall a, res = Some a -> Q (h ++ tr) a).
Proof.
  induction 1 as [A a|A|A op k r tr res H IH|A p1 p2 p3 k tr1 tr2 tr3 a b c tr tr' res H1 IH1 H2 IH2 H3 IH3 Hi Hk IHk
    |A p1 p2 p3 k tr1 tr2 tr3 r1 r2 r3 tr H1 IH1 H2 IH2 H3 IH3 Hn Hi]; intros h Q Hw; simpl in Hw.
  - split; [apply calls_ok_nil|]. intros a' [= ->]. by rewrite app_nil_r.
  - split; [apply calls_ok_nil|done].
  - destruct Hw as [Hp Hw]. destruct (IH _ _ (Hw r)) as [Hc Hq]. split; [by apply calls_ok_cons|].
    intros a Ha. specialize (Hq a Ha). by rewrite <- app_assoc in Hq.
  - destruct Hw as (W1 & W2 & W3 & Wk).
    destruct (IHk (h ++ tr) Q) as [Hc Hq]; [apply Wk; by apply sublist_inserts_r|]. split.
    + apply calls_ok_app; [|done].
      eapply calls_ok_interleave; [exact Hi|exact (proj1 (IH1 _ _ W1))|exact (proj1 (IH2 _ _ W2))|exact (proj1 (IH3 _ _ W3))].
    + intros a' Ha. rewrite app_assoc. by apply Hq.
  - destruct Hw as (W1 & W2 & W3 & Wk). split; [|done].
    eapply calls_ok_interleave; [exact Hi|exact (proj1 (IH1 _ _ W1))|exact (proj1 (IH2 _ _ W2))|exact (proj1 (IH3 _ _ W3))].
Qed.
End Logic.
