(* ===== verification/PodStorage.v ===== *)
(** What a pod needs in its leaf cluster: storage_handler.go and the functions of
root_pod_controller.go that create config maps, secrets, claims and service accounts
there, and utils/podutils/es.go. The goroutines of [createVolumes] run in parallel.

[oneway] is the annotation of one-way storage, if that is in use (an environment
variable); [range] is the order of Go maps. Error texts that print a whole object are
cut. *)
From S2P Require Import Prelude GoStr GoJson PodApi LeafManager PodFit PodEnv PodProg.

Definition PVCSelectedNodeKey : string := "volume.kubernetes.io/selected-node".
Definition ServiceAccountNameKey : string := "kubernetes.io/service-account.name".
Definition ServiceAccountUIDKey : string := "kubernetes.io/service-account.uid".
Definition SecretTypeServiceAccountToken : string := "kubernetes.io/service-account-token".
Definition SecretTypeOpaque : string := "Opaque".
Definition DefaultServiceAccountName : string := "default".
Definition DefaultServiceAccountToken : string := "kosmos.io/service-account.name".

(** ** Objects *)

Definition set_obj_annotations (a : option smap) (o : Unstructured) : Unstructured :=
  mkObj (u_Name o) (u_Namespace o) (u_UID o) (u_ResourceVersion o) (u_OwnerReferences o) a (u_Type o) (u_Rest o).
Definition set_obj_name (n : string) (o : Unstructured) : Unstructured :=
  mkObj n (u_Namespace o) (u_UID o) (u_ResourceVersion o) (u_OwnerReferences o) (u_Annotations o) (u_Type o) (u_Rest o).

(** The annotation of the node chosen on the host goes, unless it is empty. *)
Definition FitUnstructuredObjMeta (o : Unstructured) : Unstructured :=
  let anno := match u_Annotations o with
              | None => None
              | Some a => Some (if String.length (get a PVCSelectedNodeKey) =? 0 then a else delete PVCSelectedNodeKey a)
              end in
  mkObj (u_Name o) (u_Namespace o) EmptyString EmptyString None anno (u_Type o) (u_Rest o).

Definition SetUnstructuredObjGlobal (o : Unstructured) : Unstructured :=
  set_obj_annotations (Some (<[KosmosGlobalLabel := "true"]> (map_of (u_Annotations o)))) o.

Definition gvr_text (r : gvr) : string :=
  "/v1, Resource=" +:+ match r with
                       | GVR_CONFIGMAP => "configmaps" | GVR_SECRET => "secrets" | GVR_PVC => "persistentvolumeclaims"
                       end.

(** ** Polls and retries *)

Definition timed_out : string := "timed out waiting for the condition".

Fixpoint poll_loop (n : nat) (cond : prog (result bool)) : prog (option string) :=
  match n with
  | 0 => Done (Some timed_out)
  | S n' => let! r := cond in
            match r with
            | inr err => Done (Some err)
            | inl true => Done None
            | inl false => poll_loop n' cond
            end
  end.

(** [wait.PollImmediate]: at least one attempt, and as many more as the time allows. *)
Definition PollImmediate (cond : prog (result bool)) : prog (option string) :=
  let! n := call PollBudget in poll_loop (S n) cond.

(** [retry.RetryOnConflict(retry.DefaultRetry, fn)], which makes five attempts; [fn] keeps
a variable. *)
Fixpoint RetryOnConflict {S : Type} (n : nat) (fn : S -> prog (apierr * S)) (s : S) : prog apierr :=
  match n with
  | 0 => Done NoError
  | Datatypes.S n' =>
      let! '(err, s') := fn s in
      match err with
      | IsConflict _ => if n' =? 0 then Done err else RetryOnConflict n' fn s'
      | _ => Done err
      end
  end.

(** A read as an error. *)
Definition got_err {A : Type} (g : got A) : apierr :=
  match g with Found _ => NoError | NotFound m => IsNotFound m | Failed m => OtherError m end.

Definition set_secrets (sa : ServiceAccount) (l : list string) : ServiceAccount :=
  mkSA (sa_Name sa) (sa_Namespace sa) (sa_UID sa) l.

(** After a failed update the function returns the error of the read that follows it. *)
Definition updateServiceAccountObjectReferenceRetry (c : string) (saCopy : ServiceAccount) (secretName : string) : prog apierr :=
  RetryOnConflict 5 (fun saCopy =>
    let saCopy := set_secrets saCopy [secretName] in
    let! err := call (LeafUpdateSA c saCopy) in
    match err with
    | NoError => Done (NoError, saCopy)
    | _ =>
        let! g := call (LeafGetSA c (mkNN (sa_Namespace saCopy) (sa_Name saCopy))) in
        Done (got_err g, match g with Found new => new | _ => saCopy end)
    end) saCopy.

(** * Service accounts *)

(** [leafClientResource]: the actual name of the cluster, if a client is known. *)
Definition leafClientResource (lr : LeafResource) : prog (result string) :=
  let name := GetActualClusterName (lr_Cluster lr) in
  let! r := call (LeafClient name) in
  Done (match r with
        | inl _ => inl name
        | inr err => inr ("get leaf client resource err: " +:+ err)
        end).

Definition set_secret (uid : string) (annos : smap) (type : string) (o : Unstructured) : Unstructured :=
  mkObj (u_Name o) (u_Namespace o) uid (u_ResourceVersion o) (u_OwnerReferences o) (Some annos) type (u_Rest o).

(** The secret is created in the leaf cluster with the identity of the account there; an
error of that creation is only logged. *)
Definition create_token_secret (lr : LeafResource) (sa : option ServiceAccount) (secret : Unstructured) :
    prog (option string) :=
  let! lcr := leafClientResource lr in
  match lcr with
  | inr err => Done (Some err)
  | inl c =>
      let! err := call (LeafCreateObj c GVR_SECRET secret) in
      match err with
      | IsAlreadyExists _ => Done None
      | _ =>
          match sa with
          | Some sa => let! err := updateServiceAccountObjectReferenceRetry c sa (u_Name secret) in Done (err_text err)
          | None => Done None
          end
      end
  end.

Definition createServiceAccountInLeafCluster (lr : LeafResource) (secret : Unstructured) : prog (option string) :=
  if negb (lr_EnableServiceAccount lr) then Done None
  else
    match u_Annotations secret with
    | None => Done (Some "parse secret service account error")
    | Some annos =>
        let accountName := get annos ServiceAccountNameKey in
        if accountName =s EmptyString then Done (Some "get serviceAccount of secret not exits")
        else if accountName =s DefaultServiceAccountName then
          create_token_secret lr None
            (set_secret (u_UID secret) (<[DefaultServiceAccountToken := DefaultServiceAccountName]> annos) SecretTypeOpaque secret)
        else
          let ns := u_Namespace secret in
          let! lcr := leafClientResource lr in
          match lcr with
          | inr err => Done (Some err)
          | inl c =>
              let with_account sa :=
                create_token_secret lr (Some sa)
                  (set_secret (sa_UID sa)
                     (<[ServiceAccountUIDKey := sa_UID sa]> (<[ServiceAccountNameKey := accountName]> annos)) (u_Type secret) secret) in
              let! g := call (LeafGetSA c (mkNN ns accountName)) in
              match g with
              | Found sa => with_account sa
              | _ =>
                  let! '(err, uid) := call (LeafCreateSA c (mkSA accountName ns EmptyString [])) in
                  match err with
                  | NoError => with_account (mkSA accountName ns uid [])
                  | IsAlreadyExists _ => Done None
                  | e => Done (err_text e)
                  end
              end
          end
    end.

(** * Storage handlers *)

Definition BeforeGetInLeaf (r : gvr) (o : Unstructured) : Unstructured :=
  match r with
  | GVR_CONFIGMAP => if u_Name o =s RooTCAConfigMapName then set_obj_name MasterRooTCAName o else o
  | _ => o
  end.

Definition BeforeCreateInLeaf (r : gvr) (lr : LeafResource) (o : Unstructured) (rootpod : Pod) (cn : option ClusterNode) :
    prog (result Unstructured) :=
  match r with
  | GVR_CONFIGMAP => Done (inl o)
  | GVR_SECRET =>
      if u_Type o =s SecretTypeServiceAccountToken then
        let! err := createServiceAccountInLeafCluster lr o in
        Done (match err with Some e => inr e | None => inl o end)
      else Done (inl o)
  | GVR_PVC =>
      if String.length (spec_NodeName (pod_Spec rootpod)) =? 0 then Done (inl o)
      else
        let! node := pure (deref cn) in
        let annos := map_of (u_Annotations o) in
        let annos := if bool_decide (cn_LeafMode node = Node)
                     then <[PVCSelectedNodeKey := spec_NodeName (pod_Spec rootpod)]> annos else annos in
        Done (inl (set_obj_annotations (Some annos) o))
  end.

(** One object: its owners on the host are extended, then it is created in the leaf
cluster unless it is there. *)
Definition create_one (lr : LeafResource) (r : gvr) (rname : string) (rootpod : Pod) (cn : option ClusterNode) : prog (option string) :=
  let ns := om_Namespace (pod_Meta rootpod) in
  let! g := call (RootGetObj r (mkNN ns rname)) in
  match g with
  | NotFound err | Failed err => Done (Some ("could not get resource gvr(" +:+ gvr_text r +:+ ") " +:+ rname +:+ " from root cluster: " +:+ err))
  | Found rootobj =>
      let rootobj := set_obj_annotations (Some (AddResourceClusters (u_Annotations rootobj) (lc_Name (lr_Cluster lr)))) rootobj in
      let! err := call (RootUpdateObj r rootobj) in
      match err_text err with
      | Some err => Done (Some ("could not update annotations of resource gvr(" +:+ gvr_text r +:+ ") " +:+ rname +:+ " from root cluster: " +:+ err))
      | None =>
          let obj := BeforeGetInLeaf r (FitUnstructuredObjMeta rootobj) in
          let! lcr := leafClientResource lr in
          match lcr with
          | inr err => Done (Some ("failed to get leaf client resource: " +:+ err))
          | inl c =>
              let! g := call (LeafGetObj c r (mkNN ns (u_Name obj))) in
              match g with
              | Found _ => Done None
              | Failed err => Done (Some ("could not check gvr(" +:+ gvr_text r +:+ ") " +:+ rname +:+ " in external cluster: " +:+ err))
              | NotFound _ =>
                  let! before := BeforeCreateInLeaf r lr (SetUnstructuredObjGlobal obj) rootpod cn in
                  match before with
                  | inr err => Done (Some err)
                  | inl obj =>
                      let! err := call (LeafCreateObj c r obj) in
                      Done (match err with IsAlreadyExists _ => None | e => err_text e end)
                  end
              end
          end
      end
  end.

Fixpoint createStorageInLeafCluster (lr : LeafResource) (r : gvr) (resourcenames : list string) (rootpod : Pod)
    (cn : option ClusterNode) : prog (option string) :=
  match resourcenames with
  | [] => Done None
  | rname :: rest =>
      let! err := create_one lr r rname rootpod cn in
      match err with
      | Some err => Done (Some err)
      | None => createStorageInLeafCluster lr r rest rootpod cn
      end
  end.

(** * Secrets and config maps of projected volumes *)

(** A goroutine that polls until the object is created and sends its error, if any, and
then the empty string; the caller reads the first message. *)
Definition first_message (prefix : string) (err : option string) : option string :=
  match err with Some err => Some (prefix +:+ err) | None => None end.

(** The function returns its error, so that the poll ends at the first failure. *)
Definition poll_create (lr : LeafResource) (r : gvr) (name : string) (pod : Pod) (cn : option ClusterNode) : prog (option string) :=
  PollImmediate (let! err := createStorageInLeafCluster lr r [name] pod cn in
                 Done (match err with None => inl true | Some e => inr e end)).

Section Storage.
Context (range : forall V : Type, gmap string V -> list (string * V)).
Context (oneway : option string).

Definition createTokenSecretInRootCluster (sa : ServiceAccount) : prog (result string) :=
  let name := "kosmos-" +:+ sa_Name sa +:+ "-token" in
  let! err := call (RootCreateObj GVR_SECRET (mkObj name (sa_Namespace sa) EmptyString EmptyString None
    (Some (<[ServiceAccountNameKey := sa_Name sa]> {[ServiceAccountUIDKey := sa_UID sa]})) SecretTypeServiceAccountToken EmptyString)) in
  match err_text err with
  | Some err => Done (inr ("could not create token-secret " +:+ name +:+ " in host cluster: " +:+ err))
  | None =>
      let! err := call (RootUpdateSA (set_secrets sa [name])) in
      Done (match err_text err with
            | Some err => inr ("could not update sa " +:+ sa_Name sa +:+ " in host cluster: " +:+ err)
            | None => inl name
            end)
  end.

(** The poll returns the error of the read before it, which is "not found": the variable
that holds the error of the creation is local to its [if]. *)
Definition createSATokenInLeafCluster (lr : LeafResource) (saName : string) (pod : Pod) : prog (result string) :=
  let ns := om_Namespace (pod_Meta pod) in
  let! g := call (RootGetSA (mkNN ns saName)) in
  match g with
  | NotFound err | Failed err => Done (inr ("could not find sa " +:+ saName +:+ " in master cluster: " +:+ err))
  | Found sa =>
      let rootSecretName := match sa_Secrets sa with name :: _ => name | [] => EmptyString end in
      let! named := (if rootSecretName =s EmptyString then createTokenSecretInRootCluster sa else Done (inl rootSecretName)) in
      match named with
      | inr err => Done (inr err)
      | inl rootSecretName =>
          let! lcr := leafClientResource lr in
          match lcr with
          | inr err => Done (inr ("failed to get leaf resource: " +:+ err))
          | inl c =>
              let! g := call (LeafGetObj c GVR_SECRET (mkNN ns rootSecretName)) in
              match g with
              | Failed err => Done (inr ("could not check secret " +:+ rootSecretName +:+ " in member cluster: " +:+ err))
              | Found o => Done (inl (u_Name o))
              | NotFound notfound =>
                  let! l := call Leaves in
                  let cn := GetClusterNode range l (spec_NodeName (pod_Spec pod)) in
                  let! err := PollImmediate (let! err := createStorageInLeafCluster lr GVR_SECRET [rootSecretName] pod cn in
                                             Done (match err with None => inl true | Some _ => inr notfound end)) in
                  Done (match err with
                        | Some err => inr ("could not create secret token " +:+ rootSecretName +:+ " in leaf cluster: " +:+ err)
                        | None => inl rootSecretName
                        end)
              end
          end
      end
  end.

(** [createConfigMapInLeafCluster] and [createSecretInLeafCluster]: [member] is the name
in the leaf cluster. *)
Definition create_in_leaf (lr : LeafResource) (r : gvr) (kind name member : string) (pod : Pod) : prog (result string) :=
  let! lcr := leafClientResource lr in
  match lcr with
  | inr err => Done (inr (match r with
                          | GVR_SECRET => "could not get leaf resource for cluster " +:+ lc_Name (lr_Cluster lr) +:+ ": " +:+ err
                          | _ => "failed to get leaf resource: " +:+ err
                          end))
  | inl c =>
      let! g := call (LeafGetObj c r (mkNN (om_Namespace (pod_Meta pod)) member)) in
      match g with
      | Failed err => Done (inr ("could not check " +:+ kind +:+ " " +:+ member +:+ " in member cluster: " +:+ err))
      | Found o => Done (inl (u_Name o))
      | NotFound _ =>
          let! l := call Leaves in
          let! err := poll_create lr r name pod (GetClusterNode range l (spec_NodeName (pod_Spec pod))) in
          Done (match err with
                | Some err => inr ("could not create " +:+ kind +:+ " " +:+ name +:+ " in member cluster: " +:+ err)
                | None => inl member
                end)
      end
  end.

Definition createConfigMapInLeafCluster (lr : LeafResource) (configMapName : string) (pod : Pod) : prog (result string) :=
  create_in_leaf lr GVR_CONFIGMAP "configmap" configMapName
    (if HasPrefix configMapName RooTCAConfigMapName then MasterRooTCAName else configMapName) pod.

Definition createSecretInLeafCluster (lr : LeafResource) (secretName : string) (pod : Pod) : prog (result string) :=
  create_in_leaf lr GVR_SECRET "secret" secretName secretName pod.

(** The sources of one projected volume, or nothing if an object could not be created. *)
Definition project_source (lr : LeafResource) (pod : Pod) (src : VolumeProjection) (sources : list VolumeProjection) :
    prog (option (list VolumeProjection)) :=
  let! token := (match vp_Token src with
    | None => Done (Some [])
    | Some path =>
        let! r := createSATokenInLeafCluster lr (spec_ServiceAccountName (pod_Spec pod)) pod in
        Done (match r with inl name => Some [mkProjection None None (Some (name, "token:" +:+ path)) None] | inr _ => None end)
    end) in
  match token with
  | None => Done None
  | Some token =>
      let! cm := (match vp_ConfigMap src with
        | None => Done (Some [])
        | Some (name, rest) =>
            let! r := createConfigMapInLeafCluster lr name pod in
            Done (match r with inl name => Some [mkProjection (vp_Token src) (Some (name, rest)) (vp_Secret src) (vp_DownwardAPI src)] | inr _ => None end)
        end) in
      match cm with
      | None => Done None
      | Some cm =>
          let! sec := (match vp_Secret src with
            | None => Done (Some [])
            | Some (name, rest) =>
                let! r := createSecretInLeafCluster lr name pod in
                Done (match r with inl name => Some [mkProjection (vp_Token src) (vp_ConfigMap src) (Some (name, rest)) (vp_DownwardAPI src)] | inr _ => None end)
            end) in
          match sec with
          | None => Done None
          | Some sec =>
              let dw := match vp_DownwardAPI src with Some d => [mkProjection None None None (Some d)] | None => [] end in
              Done (Some (sources ++ token ++ cm ++ sec ++ dw))
          end
      end
  end.

Fixpoint project_sources (lr : LeafResource) (pod : Pod) (srcs sources : list VolumeProjection) : prog (option (list VolumeProjection)) :=
  match srcs with
  | [] => Done (Some sources)
  | src :: srcs' =>
      let! r := project_source lr pod src sources in
      match r with None => Done None | Some sources => project_sources lr pod srcs' sources end
  end.

Definition set_projected (v : Volume) (l : list VolumeProjection) : Volume :=
  mkVolume (vol_Name v) (vol_Secret v) (vol_CephFS v) (vol_Cinder v) (vol_RBD v) (vol_ConfigMap v) (vol_PVC v) (Some l) (vol_Rest v).

(** After an error the volumes that follow stay as they are. *)
Fixpoint project_volumes (lr : LeafResource) (pod : Pod) (vols : list Volume) : prog (list Volume) :=
  match vols with
  | [] => Done []
  | v :: vols' =>
      match vol_Projected v with
      | None => let! rest := project_volumes lr pod vols' in Done (v :: rest)
      | Some srcs =>
          let! r := project_sources lr pod srcs [] in
          match r with
          | None => Done (v :: vols')
          | Some sources => let! rest := project_volumes lr pod vols' in Done (set_projected v sources :: rest)
          end
      end
  end.

Definition projectedHandler (lr : LeafResource) (pod : Pod) : prog Pod :=
  let pod := on_Spec (with_AutomountServiceAccountToken (Some false)) pod in
  let! vols := project_volumes lr pod (spec_Volumes (pod_Spec pod)) in
  Done (on_Spec (with_Volumes vols) pod).

(** * Volumes *)

(** [NoOneWayPVCFilter]: the claims that are not one-way. *)
Definition IsOneWayPVC (pvc : Unstructured) : bool :=
  match oneway with
  | None => false
  | Some key => match u_Annotations pvc with
                | None => false
                | Some a => match a !! key with Some _ => true | None => false end
                end
  end.

Fixpoint filter_claims (pvcNames : list string) (ns : string) : prog (result (list string)) :=
  match pvcNames with
  | [] => Done (inl [])
  | name :: rest =>
      let! g := call (RootGetObj GVR_PVC (mkNN ns name)) in
      match g with
      | NotFound err | Failed err => Done (inr err)
      | Found pvc =>
          let! r := filter_claims rest ns in
          Done (match r with
                | inr err => inr err
                | inl names => inl (if IsOneWayPVC pvc then names else name :: names)
                end)
      end
  end.

Definition NoOneWayPVCFilter (pvcNames : list string) (ns : string) : prog (result (list string)) :=
  match oneway with None => Done (inl pvcNames) | Some _ => filter_claims pvcNames ns end.

(** The messages a goroutine sends: its error, if any, and always the empty string. *)
Definition messages (err : option string) : list string :=
  match err with Some err => [err; EmptyString] | None => [EmptyString] end.

(** The messages in the order the schedule gives; a goroutine that has sent everything is
passed over. *)
Fixpoint arrive (n : nat) (sched : list nat) (l1 l2 l3 : list string) : list string :=
  match n with
  | 0 => []
  | S n' =>
      let turn := match sched with t :: _ => t | [] => 0 end in
      match turn, l1, l2, l3 with
      | 0, x :: l1', _, _ => x :: arrive n' (tail sched) l1' l2 l3
      | 1, _, x :: l2', _ => x :: arrive n' (tail sched) l1 l2' l3
      | 2, _, _, x :: l3' => x :: arrive n' (tail sched) l1 l2 l3'
      | _, x :: l1', _, _ => x :: arrive n' (tail sched) l1' l2 l3
      | _, [], x :: l2', _ => x :: arrive n' (tail sched) [] l2' l3
      | _, [], [], x :: l3' => x :: arrive n' (tail sched) [] [] l3'
      | _, [], [], [] => []
      end
  end.

(** The caller reads three messages and joins them. *)
Definition join_errors (received : list string) : option string :=
  let errString := fold_left (fun s m => if 0 <? String.length m then s +:+ m else s) received EmptyString in
  if 0 <? String.length errString then Some errString else None.

Definition createVolumes (lr : LeafResource) (basicPod : Pod) (cn : option ClusterNode) : prog (option string * Pod) :=
  let! '(secretNames, imagePullSecrets) := pure (GetSecrets basicPod) in
  let '(configMaps, basicPod) := GetConfigmaps basicPod in
  let pvcs := GetPVCs basicPod in
  Par
    (let! err := PollImmediate (let! err := createStorageInLeafCluster lr GVR_CONFIGMAP configMaps basicPod cn in
                                Done (match err with Some _ => inl false | None => inl true end)) in
     Done (first_message "create configmap failed: " err))
    (let! err := PollImmediate (
       let! claims := NoOneWayPVCFilter pvcs (om_Namespace (pod_Meta basicPod)) in
       match claims with
       | inr err => Done (inr err)
       | inl claims => let! err := createStorageInLeafCluster lr GVR_PVC claims basicPod cn in
                       Done (match err with Some _ => inl false | None => inl true end)
       end) in
     Done (first_message "create pvc failed: " err))
    (let! err := PollImmediate (
       let! err := createStorageInLeafCluster lr GVR_SECRET secretNames basicPod cn in
       match err with
       | Some _ => Done (inl false)
       | None => let! _ := createStorageInLeafCluster lr GVR_SECRET imagePullSecrets basicPod cn in Done (inl true)
       end) in
     Done (first_message "create secrets failed: " err))
    (fun e1 e2 e3 =>
       let! sched := call Schedule in
       Done (join_errors (arrive 3 sched (messages e1) (messages e2) (messages e3)), basicPod)).
End Storage.
