(* ===== verification/PodControllers.v ===== *)
(** The pod controllers of clustertree/cluster-manager/controllers/pod:
root_pod_controller.go, leaf_pod_controller.go and rootpodstatus_sync_controller.go, as
programs over the calls of PodProg.

Reconcile answers whether the request is queued again. A pod of the host cluster that is
on a leaf node is carried to the leaf cluster of that node; a pod of a leaf cluster brings
its status back. *)
From S2P Require Import Prelude GoStr GoJson PodApi LeafManager PodFit PodEnv PodProg PodStorage.

Inductive Result := Finished | RequeueAfter | ReturnsError (err : string).
#[export] Instance Result_eq : EqDecision Result. Proof. solve_decision. Defined.

(** What the options and the environment of the process say. *)
Record Options := mkOptions {
  opt_MultiClusterService : bool; opt_RootCoreDNS : NamespacedName; opt_oneway : option string }.

Definition KosmosNodeOwnedByClusterAnnotations : string := "kosmos-io/owned-by-cluster".
Definition KosmosDaemonsetAllowAnnotations : string := "kosmos-io/daemonset-allow".
Definition ReservedNS : string := "kube-system".
Definition ManagedLabel : string := "daemonset.kosmos.io/managed".

(** * Deletion *)

(** The grace period of a deletion in the leaf cluster. *)
Definition NewLeafDeleteOption (pod : Pod) (now : Z) : option Z :=
  match om_DeletionTimestamp (pod_Meta pod) with
  | Some t => if (t <? now)%Z then Some 0%Z
              else match om_DeletionGracePeriodSeconds (pod_Meta pod), spec_TerminationGracePeriodSeconds (pod_Spec pod) with
                   | Some d, Some g => Some (d + g)%Z
                   | Some d, None => Some d
                   | None, g => g
                   end
  | None => match om_DeletionGracePeriodSeconds (pod_Meta pod), spec_TerminationGracePeriodSeconds (pod_Spec pod) with
            | Some d, Some g => Some (d + g)%Z
            | Some d, None => Some d
            | None, g => g
            end
  end.

Definition DeletePodInRootCluster (nn : NamespacedName) : prog (option string) :=
  let! g := call (RootGetPod nn) in
  match g with
  | NotFound _ => Done None
  | Failed err => Done (Some err)
  | Found rPod =>
      let! err := call (RootDeletePod rPod (Some 0%Z)) in
      Done (match err with IsNotFound _ => None | e => err_text e end)
  end.

Definition DeletePodInLeafCluster (lr : LeafResource) (nn : NamespacedName) (cleanflag : bool) : prog (option string) :=
  let! lcr := leafClientResource lr in
  match lcr with
  | inr err => Done (Some ("could not get leaf client resource: " +:+ err))
  | inl c =>
      let! g := call (LeafGetPod c nn) in
      match g with
      | NotFound _ => if cleanflag then DeletePodInRootCluster nn else Done None
      | Failed err => Done (Some err)
      | Found leafPod =>
          if negb (IsKosmosPod leafPod) then Done None
          else
            let! now := call Now in
            let! err := call (LeafDeletePod c leafPod (NewLeafDeleteOption leafPod now)) in
            match err with
            | NoError => Done None
            | IsNotFound _ => if cleanflag then DeletePodInRootCluster nn else Done None
            | e => Done (match err_text e with Some m => Some ("could not delete pod: " +:+ m) | None => None end)
            end
      end
  end.

(** * Creation and update *)

Definition changeToMasterCoreDNS (pod : Pod) (opts : Options) : prog Pod :=
  if negb (spec_DNSPolicy (pod_Spec pod) =s "ClusterFirst") && negb (spec_DNSPolicy (pod_Spec pod) =s "ClusterFirstWithHostNet")
  then Done pod
  else
    let! g := call (RootGetService (opt_RootCoreDNS opts)) in
    match g with
    | Found svc =>
        if svc_ClusterIP svc =s EmptyString then Done pod
        else Done (on_Spec (fun s => with_DNSConfig (Some (mkDNS [svc_ClusterIP svc]
                     [om_Namespace (pod_Meta pod) +:+ ".svc.cluster.local"; "svc.cluster.local"; "cluster.local"; "localdomain"]))
                     (with_DNSPolicy "None" s)) pod)
    | _ => Done pod
    end.

(** A list that answers "not found" or fails has no items. *)
Definition items {A : Type} (g : got (list A)) : list A := match g with Found l => l | _ => [] end.

Section Controllers.
Context (range : forall V : Type, gmap string V -> list (string * V)).
Context (IsEnvVarName : string -> bool) (IsQualifiedName : string -> list string).
Context (UnmarshalSelection : string -> option ClustersNodeSelection).
Context (selector_matches : LabelSelector -> smap -> result bool).
Context (opts : Options).

(** The pod by the first policy that fits it; an error of [mutatePod] is logged, and the
pod stays as it is. *)
Definition mutatePod (pod : Pod) (nodeName : string) : prog Pod :=
  let! cpcpList := call RootListClusterPolicies in
  let! pcps := (match cpcpList with
                | Failed _ => Done []
                | _ => let! pcpList := call (RootListPolicies (om_Namespace (pod_Meta pod))) in Done (items pcpList)
                end) in
  let cpcps := items cpcpList in
  if (length cpcps =? 0) && (length pcps =? 0) then Done pod
  else
    let! g := call (RootGetNode nodeName) in
    match g with
    | Found rootNode =>
        let ls := map_of (labels pod) in
        if 0 <? length cpcps then
          match GetMatchPolicies selector_matches cpcps ls (map_of (kn_Labels rootNode)) with
          | inr _ => Done pod
          | inl matched => pure (ConvertPod pod matched [])
          end
        else
          match GetMatchPolicies selector_matches pcps ls (map_of (kn_Labels rootNode)) with
          | inr _ => Done pod
          | inl matched => pure (ConvertPod pod [] matched)
          end
    | _ => Done pod
    end.

(** The namespace of the pod, created if it is missing. *)
Definition ensure_namespace (c ns : string) : prog (option string) :=
  let! g := call (LeafGetNS c ns) in
  match g with
  | Found _ => Done None
  | Failed err => Done (Some err)
  | NotFound err =>
      let! createErr := call (LeafCreateNS c ns) in
      Done (match createErr with NoError | IsAlreadyExists _ => None | _ => Some err end)
  end.

Definition CreatePodInLeafCluster (lr : LeafResource) (pod : Pod) (nodeSelector : NodeSelector) : prog (option string) :=
  let! rm := call RootReadEnv in
  let! '(pod, err) := pure (@PopulateEnvironmentVariables rm IsEnvVarName IsQualifiedName range pod) in
  match err with
  | Some err => Done (Some err)
  | None =>
      let! l := call Leaves in
      match GetClusterNode range l (spec_NodeName (pod_Spec pod)) with
      | None => Done (Some ("clusternode info is nil , name: " +:+ spec_NodeName (pod_Spec pod)))
      | Some clusterNodeInfo =>
          let! basicPod := pure (FitPod (range string) UnmarshalSelection pod (lr_IgnoreLabels lr) (cn_LeafMode clusterNodeInfo) nodeSelector) in
          let! basicPod := mutatePod basicPod (spec_NodeName (pod_Spec pod)) in
          let! lcr := leafClientResource lr in
          match lcr with
          | inr err => Done (Some err)
          | inl c =>
              let! err := ensure_namespace c (om_Namespace (pod_Meta basicPod)) in
              match err with
              | Some err => Done (Some err)
              | None =>
                  let! '(err, basicPod) := createVolumes (opt_oneway opts) lr basicPod (Some clusterNodeInfo) in
                  match err with
                  | Some err => Done (Some err)
                  | None =>
                      let! basicPod := projectedHandler range lr basicPod in
                      let! basicPod := (if opt_MultiClusterService opts then Done basicPod else changeToMasterCoreDNS basicPod opts) in
                      let! err := call (LeafCreatePod c basicPod) in
                      Done (match err_text err with Some m => Some ("could not create pod: " +:+ m) | None => None end)
                  end
              end
          end
      end
  end.

(** [reflect.DeepEqual] of what an update compares. *)
Definition same_pod (a b : Pod) : bool :=
  bool_decide (pod_Spec a = pod_Spec b) && bool_decide (annotations a = annotations b) && bool_decide (labels a = labels b).

Definition UpdatePodInLeafCluster (lr : LeafResource) (rootPod leafPod : Pod) (nodeSelector : NodeSelector) : prog (option string) :=
  if negb (IsKosmosPod leafPod) then Done None
  else
    let leafPod := on_Meta (set_Labels (Some (fst (FitLabels (map_of (labels leafPod)) (lr_IgnoreLabels lr))))) leafPod in
    let! l := call Leaves in
    match GetClusterNode range l (spec_NodeName (pod_Spec rootPod)) with
    | None => Done (Some ("clusternode info is nil , name: " +:+ spec_NodeName (pod_Spec rootPod)))
    | Some clusterNodeInfo =>
        let! '(podCopy, _) := pure (GetUpdatedPod (range string) UnmarshalSelection leafPod rootPod (lr_IgnoreLabels lr)
                                      (cn_LeafMode clusterNodeInfo) nodeSelector) in
        if same_pod leafPod podCopy then Done None
        else
          let! podCopy := projectedHandler range lr podCopy in
          let! podCopy := (if opt_MultiClusterService opts then Done podCopy else changeToMasterCoreDNS podCopy opts) in
          let! lcr := leafClientResource lr in
          match lcr with
          | inr err => Done (Some ("could not get leaf client resource: " +:+ err))
          | inl c =>
              let! err := call (LeafUpdatePod c podCopy) in
              Done (match err_text err with Some m => Some ("could not update pod: " +:+ m) | None => None end)
          end
    end.

(** * Reconcile *)

(** The pod is gone: it is deleted from the leaf cluster of every node. *)
Fixpoint delete_everywhere (nn : NamespacedName) (nodeNames : list string) : prog Result :=
  match nodeNames with
  | [] => Done Finished
  | nodeName :: rest =>
      let! l := call Leaves in
      match GetLeafResourceByNodeName range l nodeName with
      | inr _ => Done RequeueAfter
      | inl lr =>
          let! err := DeletePodInLeafCluster lr nn false in
          match err with Some _ => Done RequeueAfter | None => delete_everywhere nn rest end
      end
  end.

(** Whether the node is one of a leaf cluster; [None] asks for another attempt. *)
Definition is_leaf_node (nodeName : string) : prog (option bool) :=
  if HasPrefix nodeName KosmosNodePrefix then Done (Some true)
  else
    let! g := call (RootGetNode nodeName) in
    Done (match g with
          | Found n => match kn_Annotations n with
                       | None => Some false
                       | Some a => Some (negb (String.length (get a KosmosNodeOwnedByClusterAnnotations) =? 0))
                       end
          | _ => None
          end).

(** [r.GlobalLeafManager.GetClusterNode(name).LeafNodeSelector]: a node that has gone in
the meantime panics. *)
Definition leaf_node_selector (nodeName : string) : prog NodeSelector :=
  let! l := call Leaves in
  let! cn := pure (deref (GetClusterNode range l nodeName)) in
  Done (cn_LeafNodeSelector cn).

Definition on_error (err : option string) : prog Result := Done (match err with Some _ => RequeueAfter | None => Finished end).

(** A pod of the host on a leaf node: it is deleted, created or updated in the leaf
cluster of the node. *)
Definition reconcile_leaf_pod (nn : NamespacedName) (rootpod : Pod) : prog Result :=
  let nodeName := spec_NodeName (pod_Spec rootpod) in
  let! l := call Leaves in
  if negb (HasNode range l nodeName) then Done RequeueAfter
  else
    let! l := call Leaves in
    match GetLeafResourceByNodeName range l nodeName with
    | inr _ => Done RequeueAfter
    | inl lr =>
        if (0 <? String.length (lr_Namespace lr)) && negb (lr_Namespace lr =s om_Namespace (pod_Meta rootpod)) then Done Finished
        else
          match om_DeletionTimestamp (pod_Meta rootpod) with
          | Some _ => let! err := DeletePodInLeafCluster lr nn true in on_error err
          | None =>
              let! lcr := leafClientResource lr in
              match lcr with
              | inr _ => Done RequeueAfter
              | inl c =>
                  let! g := call (LeafGetPod c nn) in
                  match g with
                  | NotFound _ =>
                      let! sel := leaf_node_selector nodeName in
                      let! err := CreatePodInLeafCluster lr rootpod sel in on_error err
                  | Failed _ => Done RequeueAfter
                  | Found leafPod =>
                      if ShouldEnqueue leafPod rootpod then
                        let! sel := leaf_node_selector nodeName in
                        let! err := UpdatePodInLeafCluster lr rootpod leafPod sel in on_error err
                      else Done Finished
                  end
              end
          end
    end.

Definition Reconcile (nn : NamespacedName) : prog Result :=
  let! g := call (RootGetPod nn) in
  match g with
  | Failed _ => Done RequeueAfter
  | NotFound _ => let! l := call Leaves in delete_everywhere nn (ListNodes range l)
  | Found rootpod =>
      let! is_leaf := is_leaf_node (spec_NodeName (pod_Spec rootpod)) in
      match is_leaf with
      | None => Done RequeueAfter
      | Some false => Done Finished
      | Some true => reconcile_leaf_pod nn rootpod
      end
  end.
End Controllers.

(** The controller of the leaf cluster [c]: the status goes to the host. *)
Definition LeafReconcile (c : string) (nn : NamespacedName) : prog Result :=
  let! g := call (LeafGetPod c nn) in
  match g with
  | NotFound _ => let! err := DeletePodInRootCluster nn in Done (match err with Some _ => RequeueAfter | None => Finished end)
  | Failed _ => Done RequeueAfter
  | Found pod =>
      if IsKosmosPod pod then
        let m := FitObjectMeta (pod_Meta pod) in
        let m := mkMeta (om_Name m) (om_Namespace m) (om_UID m) "0" (om_OwnerReferences m) (om_Labels m) (om_Annotations m)
                   (om_DeletionTimestamp m) (om_DeletionGracePeriodSeconds m) in
        let! err := call (RootUpdateStatus (mkPod m (pod_Spec pod) (pod_Status pod))) in
        Done (match err with NoError | IsNotFound _ => Finished | _ => RequeueAfter end)
      else Done Finished
  end.

(** The controller that repairs a status which was changed by others. *)
Definition SyncReconcile (range : forall V : Type, gmap string V -> list (string * V)) (nn : NamespacedName) : prog Result :=
  let! g := call (RootGetPod nn) in
  match g with
  | NotFound _ => Done Finished
  | Failed _ => Done RequeueAfter
  | Found rootpod =>
      let! l := call Leaves in
      match GetLeafResourceByNodeName range l (spec_NodeName (pod_Spec rootpod)) with
      | inr _ => Done Finished
      | inl lr =>
          let! lcr := leafClientResource lr in
          match lcr with
          | inr _ => Done Finished
          | inl c =>
              let! g := call (LeafGetPod c nn) in
              match g with
              | Found leafPod =>
                  if IsKosmosPod leafPod && negb (bool_decide (pod_Status rootpod = pod_Status leafPod)) then
                    let! _ := call (RootUpdateStatus (mkPod (FitObjectMeta (pod_Meta rootpod)) (pod_Spec rootpod) (pod_Status leafPod))) in
                    Done Finished
                  else Done Finished
              | _ => Done Finished
              end
          end
      end
  end.

(** * Which events reach the controllers *)

Definition root_skipFunc (p : Pod) : bool :=
  if om_Namespace (pod_Meta p) =s ReservedNS then false
  else match map_of (labels p) !! ManagedLabel with
       | Some _ => false
       | None =>
           if any (fun o => own_Kind o =s "DaemonSet") (default [] (om_OwnerReferences (pod_Meta p))) then
             match map_of (annotations p) !! KosmosDaemonsetAllowAnnotations with
             | Some _ => true
             | None => match om_DeletionTimestamp (pod_Meta p) with Some _ => true | None => false end
             end
           else true
       end.

Definition leaf_skipFunc (namespace : string) (p : Pod) : bool :=
  if om_Namespace (pod_Meta p) =s ReservedNS then false
  else if (0 <? String.length namespace) && negb (namespace =s om_Namespace (pod_Meta p)) then false
  else IsKosmosPod p.

Definition leaf_updated (namespace : string) (old new : Pod) : bool :=
  leaf_skipFunc namespace new && negb (bool_decide (pod_Status old = pod_Status new)).

Definition sync_updated (old new : Pod) : bool :=
  IsKosmosPod new && negb (bool_decide (pod_Status old = pod_Status new)).
