(* ===== verification/PodSafety.v ===== *)
(** What the pod controllers may do, whatever the API servers answer. *)
From S2P Require Import Prelude GoStr GoJson PodApi LeafManager PodFit PodEnv PodProg PodStorage PodControllers.

(** * Programs that make only some calls *)

Fixpoint only {A : Type} (S : Op -> bool) (p : prog A) : Prop :=
  match p with
  | Done _ | Crash => True
  | Call op k => S op = true /\ forall r, only S (k r)
  | Par p1 p2 p3 k => only S p1 /\ only S p2 /\ only S p3 /\ forall a b c, only S (k a b c)
  end.

Lemma only_bind {A B} S (m : prog A) (f : A -> prog B) : only S m -> (forall a, only S (f a)) -> only S (pbind m f).
Proof.
  revert f. induction m as [A a|A|A op k IH|A p1 _ p2 _ p3 _ k IH]; simpl; intros f Hm Hf; naive_solver.
Qed.

Lemma only_pure {A} S (o : outcome A) : only S (pure o).
Proof. by destruct o. Qed.

Lemma only_call S op : S op = true -> only S (call op).
Proof. by simpl. Qed.

(** Calls that need nothing leave what was seen before. *)
Lemma only_wp {A} (P : list event -> Op -> Prop) S (p : prog A) h :
  only S p -> (forall h op, S op = true -> P h op) -> wp P h p (fun h' _ => h `sublist_of` h').
Proof.
  intros Ho HP. assert (G : forall h0 h, h0 `sublist_of` h -> wp P h p (fun h' _ => h0 `sublist_of` h')); [|by apply G].
  revert Ho. induction p as [A a|A|A op k IH|A p1 IH1 p2 IH2 p3 IH3 k IH]; simpl; intros Ho h0 h1 Hs; [done|done|..].
  - split; [by apply HP, Ho|]. intros r. apply IH; [by apply Ho|]. by apply sublist_inserts_r.
  - destruct Ho as (O1 & O2 & O3 & Ok).
    split; [eapply wp_mono; [by apply (IH1 O1 h1 h1)|done]|].
    split; [eapply wp_mono; [by apply (IH2 O2 h1 h1)|done]|].
    split; [eapply wp_mono; [by apply (IH3 O3 h1 h1)|done]|].
    intros a b c h' Hh. apply IH; [by apply Ok|]. by trans h1.
Qed.

(** ** Calls that do not touch pods *)

Definition quiet (op : Op) : bool :=
  match op with
  | RootDeletePod _ _ | RootUpdateStatus _ | LeafCreatePod _ _ | LeafUpdatePod _ _ | LeafDeletePod _ _ _ => false
  | _ => true
  end.

Create HintDb quiet.
Ltac quiet_step :=
  match goal with
  | |- only _ (pbind _ _) => apply only_bind; [|intros ?]
  | |- only _ (pure _) => apply only_pure
  | |- only _ (call _) => apply only_call; reflexivity
  | |- only _ (Done _) => exact I
  | |- only _ (let '(_, _) := ?x in _) => destruct x
  | |- only _ (match ?x with _ => _ end) => destruct x
  | |- only _ (if ?x then _ else _) => destruct x
  | |- only _ (Par _ _ _ _) => split; [|split; [|split; [|intros ? ? ?]]]
  end.
Ltac quiet_tac := repeat (first [solve [eauto with quiet] | quiet_step]).

Lemma quiet_leafClientResource lr : only quiet (leafClientResource lr).
Proof. unfold leafClientResource. quiet_tac. Qed.
#[export] Hint Resolve quiet_leafClientResource : quiet.

Lemma quiet_poll_loop n cond : only quiet cond -> only quiet (poll_loop n cond).
Proof. intros Hc. induction n as [|n IH]; simpl; [done|]. quiet_tac. Qed.

Lemma quiet_PollImmediate cond : only quiet cond -> only quiet (PollImmediate cond).
Proof. intros Hc. unfold PollImmediate. apply only_bind; [by apply only_call|]. intros n. by apply quiet_poll_loop. Qed.
#[export] Hint Resolve quiet_PollImmediate : quiet.

Lemma quiet_RetryOnConflict {S} n (fn : S -> prog (apierr * S)) : (forall s, only quiet (fn s)) -> forall s, only quiet (RetryOnConflict n fn s).
Proof. intros Hf. induction n as [|n IH]; intros s; simpl; [done|]. apply only_bind; [apply Hf|]. intros [err s']. quiet_tac. Qed.

Lemma quiet_updateSA c sa name : only quiet (updateServiceAccountObjectReferenceRetry c sa name).
Proof. apply quiet_RetryOnConflict. intros s. cbv zeta. quiet_tac. Qed.
#[export] Hint Resolve quiet_updateSA : quiet.

Lemma quiet_create_token_secret lr sa secret : only quiet (create_token_secret lr sa secret).
Proof. unfold create_token_secret. quiet_tac. Qed.
#[export] Hint Resolve quiet_create_token_secret : quiet.

Lemma quiet_createServiceAccount lr secret : only quiet (createServiceAccountInLeafCluster lr secret).
Proof. unfold createServiceAccountInLeafCluster. cbv zeta. quiet_tac. Qed.
#[export] Hint Resolve quiet_createServiceAccount : quiet.

Lemma quiet_BeforeCreate r lr o pod cn : only quiet (BeforeCreateInLeaf r lr o pod cn).
Proof. unfold BeforeCreateInLeaf. cbv zeta. quiet_tac. Qed.
#[export] Hint Resolve quiet_BeforeCreate : quiet.

Lemma quiet_create_one lr r name pod cn : only quiet (create_one lr r name pod cn).
Proof. unfold create_one. cbv zeta. quiet_tac. Qed.
#[export] Hint Resolve quiet_create_one : quiet.

Lemma quiet_createStorage lr r names pod cn : only quiet (createStorageInLeafCluster lr r names pod cn).
Proof. induction names as [|name names IH]; cbn [createStorageInLeafCluster]; [done|]. quiet_tac. Qed.
#[export] Hint Resolve quiet_createStorage : quiet.

Lemma quiet_poll_create lr r name pod cn : only quiet (poll_create lr r name pod cn).
Proof. unfold poll_create. apply quiet_PollImmediate. quiet_tac. Qed.
#[export] Hint Resolve quiet_poll_create : quiet.

Lemma quiet_createTokenSecret sa : only quiet (createTokenSecretInRootCluster sa).
Proof. unfold createTokenSecretInRootCluster. cbv zeta. quiet_tac. Qed.
#[export] Hint Resolve quiet_createTokenSecret : quiet.

Section Quiet.
Context (range : forall V : Type, gmap string V -> list (string * V)).

Lemma quiet_createSAToken lr name pod : only quiet (createSATokenInLeafCluster range lr name pod).
Proof.
  unfold createSATokenInLeafCluster. cbv zeta. repeat (first [solve [eauto with quiet] | apply quiet_PollImmediate | quiet_step]).
Qed.

Lemma quiet_create_in_leaf lr r kind name member pod : only quiet (create_in_leaf range lr r kind name member pod).
Proof. unfold create_in_leaf. quiet_tac. Qed.
End Quiet.
#[export] Hint Resolve quiet_createSAToken quiet_create_in_leaf : quiet.

Section QuietProjected.
Context (range : forall V : Type, gmap string V -> list (string * V)).

Lemma quiet_project_source lr pod src sources : only quiet (project_source range lr pod src sources).
Proof. unfold project_source, createConfigMapInLeafCluster, createSecretInLeafCluster. cbv zeta. quiet_tac. Qed.

Lemma quiet_project_sources lr pod srcs : forall sources, only quiet (project_sources range lr pod srcs sources).
Proof.
  induction srcs as [|src srcs IH]; intros sources; cbn [project_sources]; [done|].
  apply only_bind; [apply quiet_project_source|]. intros [l|]; [apply IH|done].
Qed.

Lemma quiet_project_volumes lr pod vols : only quiet (project_volumes range lr pod vols).
Proof.
  induction vols as [|v vols IH]; cbn [project_volumes]; [done|]. destruct (vol_Projected v); [|quiet_tac].
  apply only_bind; [apply quiet_project_sources|]. intros []; quiet_tac.
Qed.

Lemma quiet_projectedHandler lr pod : only quiet (projectedHandler range lr pod).
Proof. unfold projectedHandler. cbv zeta. apply only_bind; [apply quiet_project_volumes|]. by intros. Qed.
End QuietProjected.

Lemma quiet_filter_claims oneway names ns : only quiet (filter_claims oneway names ns).
Proof. induction names as [|name names IH]; cbn [filter_claims]; [done|]. quiet_tac. Qed.

Lemma quiet_createVolumes oneway lr pod cn : only quiet (createVolumes oneway lr pod cn).
Proof.
  unfold createVolumes, NoOneWayPVCFilter. apply only_bind; [apply only_pure|]. intros [secrets pulls]. destruct (GetConfigmaps pod).
  cbv zeta. split; [|split; [|split; [|intros ? ? ?; quiet_tac]]].
  all: apply only_bind; [apply quiet_PollImmediate; quiet_tac; apply quiet_filter_claims|by intros].
Qed.

Lemma quiet_changeDNS pod opts : only quiet (changeToMasterCoreDNS pod opts).
Proof. unfold changeToMasterCoreDNS. quiet_tac. Qed.

Lemma quiet_mutatePod matches pod node : only quiet (mutatePod matches pod node).
Proof. unfold mutatePod. cbv zeta. quiet_tac. Qed.

Lemma quiet_ensure_namespace c ns : only quiet (ensure_namespace c ns).
Proof. unfold ensure_namespace. quiet_tac. Qed.
#[export] Hint Resolve quiet_projectedHandler quiet_createVolumes quiet_changeDNS quiet_mutatePod quiet_ensure_namespace : quiet.

(** * Results *)

Fixpoint returns {A : Type} (R : A -> Prop) (p : prog A) : Prop :=
  match p with
  | Done a => R a
  | Crash => True
  | Call op k => forall r, returns R (k r)
  | Par p1 p2 p3 k => forall a b c, returns R (k a b c)
  end.

Lemma returns_bind {A B} (R : A -> Prop) (R' : B -> Prop) (m : prog A) (f : A -> prog B) :
  returns R m -> (forall a, R a -> returns R' (f a)) -> returns R' (pbind m f).
Proof.
  revert R f. induction m as [A a|A|A op k IH|A p1 _ p2 _ p3 _ k IH]; simpl; intros R f Hm Hf; [by apply Hf|done|..];
    intros; eapply IH; eauto.
Qed.

Lemma returns_any {A} (p : prog A) : returns (fun _ => True) p.
Proof. induction p; simpl; auto. Qed.

Lemma quiet_wp {A} (P : list event -> Op -> Prop) (R : A -> Prop) (p : prog A) h :
  only quiet p -> returns R p -> (forall h op, quiet op = true -> P h op) ->
  wp P h p (fun h' a => h `sublist_of` h' /\ R a).
Proof.
  intros Ho Hr HP. assert (G : forall h0 h, h0 `sublist_of` h -> wp P h p (fun h' a => h0 `sublist_of` h' /\ R a)); [|by apply G].
  revert Ho Hr. induction p as [A a|A|A op k IH|A p1 IH1 p2 IH2 p3 IH3 k IH]; simpl; intros Ho Hr h0 h1 Hs; [done|done|..].
  - split; [by apply HP, Ho|]. intros r. apply IH; [by apply Ho|done|]. by apply sublist_inserts_r.
  - destruct Ho as (O1 & O2 & O3 & Ok).
    split; [eapply wp_mono; [by apply (only_wp P quiet)|done]|].
    split; [eapply wp_mono; [by apply (only_wp P quiet)|done]|].
    split; [eapply wp_mono; [by apply (only_wp P quiet)|done]|].
    intros a b c h' Hh. apply IH; [by apply Ok|done|]. by trans h1.
Qed.

(** The name of a pod, which the steps on the way to a leaf cluster keep. *)
Definition pod_id (p : Pod) : string * string * string := (om_Name (pod_Meta p), om_Namespace (pod_Meta p), om_UID (pod_Meta p)).

Lemma ConvertPod_id p l1 l2 p' : ConvertPod p l1 l2 = Ret p' -> pod_id p' = pod_id p.
Proof.
  unfold ConvertPod. destruct (choose_policy _) as [[name cs]|]; [|by intros [= ->]].
  destruct (annotations p); simpl; [|done]. by intros [= <-].
Qed.

Lemma mutatePod_id matches p node : returns (fun p' => pod_id p' = pod_id p) (mutatePod matches p node).
Proof.
  unfold mutatePod. cbv zeta. eapply returns_bind; [apply returns_any|]. intros g _.
  eapply returns_bind; [apply returns_any|]. intros pcps _. destruct (_ && _); [done|].
  eapply returns_bind; [apply returns_any|]. intros [n|m|m] _; [|done..].
  assert (Hpure : forall o : outcome Pod, (forall p', o = Ret p' -> pod_id p' = pod_id p) ->
    returns (fun p' => pod_id p' = pod_id p) (pure o)) by (intros [a|] Ho; simpl; auto).
  destruct (0 <? _); (destruct (GetMatchPolicies _ _ _ _); [apply Hpure; intros p'; apply ConvertPod_id|done]).
Qed.

Lemma FitPod_id range U p ign mode sel p' : FitPod range U p ign mode sel = Ret p' ->
  pod_id p' = (om_Name (pod_Meta p), om_Namespace (pod_Meta p), EmptyString).
Proof.
  unfold FitPod. destruct (if bool_decide (mode = Party) then _ else _) as [s|]; cbn [mbind outcome_bind]; [|done].
  destruct (FitLabels _ ign). by intros [= <-].
Qed.

Lemma GetUpdatedPod_id range U o u ign mode sel o' u' : GetUpdatedPod range U o u ign mode sel = Ret (o', u') -> pod_id o' = pod_id o.
Proof.
  unfold GetUpdatedPod. destruct (copy_images (spec_InitContainers _) _); cbn [mbind outcome_bind]; [|done].
  destruct (copy_images (spec_Containers _) _); cbn [mbind outcome_bind]; [|done]. destruct (FitLabels _ ign).
  destruct (if bool_decide (mode = Party) then _ else _); cbn [mbind outcome_bind]; [|done]. by intros [= <- <-].
Qed.

Lemma createVolumes_id oneway lr p cn : returns (fun r => pod_id (snd r) = pod_id p) (createVolumes oneway lr p cn).
Proof.
  unfold createVolumes. eapply returns_bind; [apply returns_any|]. intros [secrets pulls] _. cbn. done.
Qed.

Lemma projectedHandler_id range lr p : returns (fun p' => pod_id p' = pod_id p) (projectedHandler range lr p).
Proof. unfold projectedHandler. cbv zeta. eapply returns_bind; [apply returns_any|]. by intros vols _. Qed.

Lemma changeDNS_id p opts : returns (fun p' => pod_id p' = pod_id p) (changeToMasterCoreDNS p opts).
Proof.
  unfold changeToMasterCoreDNS. destruct (_ && _); [done|]. eapply returns_bind; [apply returns_any|].
  intros [svc|m|m] _; [|done..]. by destruct (svc_ClusterIP svc =s _).
Qed.

Lemma finish_id range lr p opts (b : bool) : returns (fun p' => pod_id p' = pod_id p)
  (let! p := projectedHandler range lr p in if b then Done p else changeToMasterCoreDNS p opts).
Proof.
  eapply returns_bind; [apply projectedHandler_id|]. intros p' <-. destruct b; [done|]. apply changeDNS_id.
Qed.

Lemma populate_id rm V Q range p p' err : @PopulateEnvironmentVariables rm V Q range p = Ret (p', err) ->
  pod_Meta p' = pod_Meta p /\ spec_NodeName (pod_Spec p') = spec_NodeName (pod_Spec p).
Proof.
  unfold PopulateEnvironmentVariables. destruct (populate_all _ _ _ _ _) as [[inits e]|]; cbn [mbind outcome_bind]; [|done].
  destruct e; [by intros [= <- _]|]. destruct (populate_all _ _ _ _ _) as [[cs e]|]; cbn [mbind outcome_bind]; [|done].
  by intros [= <- _].
Qed.

(** * The rule of the pod controller of the host *)

Section Safety.
Context (range : forall V : Type, gmap string V -> list (string * V)).
Context (IsEnvVarName : string -> bool) (IsQualifiedName : string -> list string).
Context (UnmarshalSelection : string -> option ClustersNodeSelection).
Context (selector_matches : LabelSelector -> smap -> result bool).
Context (opts : Options).
Context (nn : NamespacedName).

(** The leaf cluster [c] is the one the node was found in. *)
Definition leaf_of (h : list event) (node c : string) : Prop :=
  exists l lr, Ev Leaves l ∈ h /\ GetLeafResourceByNodeName range l node = inl lr /\ c = GetActualClusterName (lr_Cluster lr).

(** The pod of the host was read. *)
Definition root_seen (h : list event) (root : Pod) : Prop := Ev (RootGetPod nn) (Found root) ∈ h.

(** What has to be known before a pod is changed. *)
Definition allowed (h : list event) (op : Op) : Prop :=
  match op with
  | LeafCreatePod c p => exists root msg,
      root_seen h root /\ om_DeletionTimestamp (pod_Meta root) = None /\ leaf_of h (spec_NodeName (pod_Spec root)) c /\
      Ev (LeafGetPod c nn) (NotFound msg) ∈ h /\
      pod_id p = (om_Name (pod_Meta root), om_Namespace (pod_Meta root), EmptyString)
  | LeafUpdatePod c p => exists root old,
      root_seen h root /\ om_DeletionTimestamp (pod_Meta root) = None /\ leaf_of h (spec_NodeName (pod_Spec root)) c /\
      Ev (LeafGetPod c nn) (Found old) ∈ h /\ IsKosmosPod old = true /\ pod_id p = pod_id old
  | LeafDeletePod c p _ =>
      Ev (LeafGetPod c nn) (Found p) ∈ h /\ IsKosmosPod p = true /\
      ((exists msg, Ev (RootGetPod nn) (NotFound msg) ∈ h) \/
       (exists root, root_seen h root /\ om_DeletionTimestamp (pod_Meta root) <> None /\ leaf_of h (spec_NodeName (pod_Spec root)) c))
  | RootDeletePod p grace => grace = Some 0%Z /\ root_seen h p /\
      exists root c, root_seen h root /\ om_DeletionTimestamp (pod_Meta root) <> None /\ leaf_of h (spec_NodeName (pod_Spec root)) c /\
      ((exists msg, Ev (LeafGetPod c nn) (NotFound msg) ∈ h) \/ (exists p g msg, Ev (LeafDeletePod c p g) (IsNotFound msg) ∈ h))
  | RootUpdateStatus _ => False
  | _ => True
  end.

Lemma sublist_elem (h h' : list event) e : h `sublist_of` h' -> e ∈ h -> e ∈ h'.
Proof. intros Hs. induction Hs; set_solver. Qed.

Lemma leaf_of_mono h h' node c : h `sublist_of` h' -> leaf_of h node c -> leaf_of h' node c.
Proof. intros Hs (l & lr & Hl & H). exists l, lr. split; [by eapply sublist_elem|done]. Qed.

Lemma allowed_mono h h' op : h `sublist_of` h' -> allowed h op -> allowed h' op.
Proof.
  intros Hs. pose proof (fun e => sublist_elem h h' e Hs) as He.
  pose proof (fun n c => leaf_of_mono h h' n c Hs) as Hl. destruct op; simpl; unfold root_seen; try done.
  - intros (-> & Hp & root & c & Hr & Hd & Hc & Hm). split; [done|]. split; [auto|]. exists root, c.
    split; [auto|]. split; [done|]. split; [auto|]. destruct Hm as [[m Hm]|(p & g & m & Hm)]; [left; eauto|right; eauto].
  - intros (root & m & Hr & Hd & Hc & Hm & Hid). exists root, m. auto 6.
  - intros (root & old & Hr & Hd & Hc & Hm & Hk & Hid). exists root, old. auto 8.
  - intros (Hp & Hk & Hr). split; [auto|]. split; [done|].
    destruct Hr as [[m Hm]|(root & Hr & Hd & Hc)]; [left; eauto|right; exists root; auto].
Qed.

Lemma quiet_allowed h op : quiet op = true -> allowed h op.
Proof. by destruct op. Qed.

Lemma elem_snoc (h : list event) e : e ∈ h ++ [e].
Proof. apply elem_of_app. right. by left. Qed.
Lemma sub_snoc (h : list event) e : h `sublist_of` h ++ [e].
Proof. by apply sublist_inserts_r. Qed.

(** A quiet part of the program. *)
Lemma wp_quiet {A B} (m : prog A) (R : A -> Prop) (f : A -> prog B) h Q :
  only quiet m -> returns R m ->
  (forall h' a, h `sublist_of` h' -> R a -> wp allowed h' (f a) Q) -> wp allowed h (pbind m f) Q.
Proof.
  intros Ho Hr Hf. eapply wp_seq; [apply (quiet_wp allowed R); [done|done|apply quiet_allowed]|].
  intros h' a [Hs Ha]. by apply Hf.
Qed.

Lemma wp_leafClient {B} lr (f : result string -> prog B) h Q :
  (forall h', h `sublist_of` h' -> (forall m, wp allowed h' (f (inr m)) Q) /\ wp allowed h' (f (inl (GetActualClusterName (lr_Cluster lr)))) Q) ->
  wp allowed h (pbind (leafClientResource lr) f) Q.
Proof.
  intros Hf. simpl. split; [done|]. intros r. destruct (Hf (h ++ [Ev (LeafClient (GetActualClusterName (lr_Cluster lr))) r])) as [H1 H2];
    [apply sub_snoc|]. by destruct r.
Qed.

(** ** Deletion *)

Definition any_result : list event -> option string -> Prop := fun _ _ => True.

Lemma wp_DeletePodInRoot root c h :
  root_seen h root -> om_DeletionTimestamp (pod_Meta root) <> None -> leaf_of h (spec_NodeName (pod_Spec root)) c ->
  ((exists msg, Ev (LeafGetPod c nn) (NotFound msg) ∈ h) \/ (exists p g msg, Ev (LeafDeletePod c p g) (IsNotFound msg) ∈ h)) ->
  wp allowed h (DeletePodInRootCluster nn) any_result.
Proof.
  intros Hr Hd Hl Hm. unfold DeletePodInRootCluster. simpl. split; [done|]. intros [rPod|m|m]; simpl; [|done..].
  split; [|done]. set (h' := h ++ [Ev (RootGetPod nn) (Found rPod)]). assert (Hs : h `sublist_of` h') by apply sub_snoc.
  pose proof (fun e => sublist_elem h h' e Hs) as He. split; [done|]. split; [apply elem_snoc|].
  exists root, c. split; [by apply He|]. split; [done|]. split; [by eapply leaf_of_mono|].
  destruct Hm as [[m Hm]|(p & g & m & Hm)]; [left; eauto|right; eauto].
Qed.

(** Why a pod may be deleted from the leaf cluster [c]. *)
Definition deletable (h : list event) (c : string) : Prop :=
  (exists msg, Ev (RootGetPod nn) (NotFound msg) ∈ h) \/
  (exists root, root_seen h root /\ om_DeletionTimestamp (pod_Meta root) <> None /\ leaf_of h (spec_NodeName (pod_Spec root)) c).

Lemma deletable_mono h h' c : h `sublist_of` h' -> deletable h c -> deletable h' c.
Proof.
  intros Hs. pose proof (fun e => sublist_elem h h' e Hs) as He. pose proof (fun n c => leaf_of_mono h h' n c Hs) as Hl.
  unfold deletable, root_seen. intros [[m Hm]|(root & Hr & Hd & Hc)]; [left; eauto|right; exists root; auto].
Qed.

Lemma wp_DeletePodInLeaf lr cleanflag h :
  deletable h (GetActualClusterName (lr_Cluster lr)) ->
  (cleanflag = true -> exists root, root_seen h root /\ om_DeletionTimestamp (pod_Meta root) <> None /\
     leaf_of h (spec_NodeName (pod_Spec root)) (GetActualClusterName (lr_Cluster lr))) ->
  wp allowed h (DeletePodInLeafCluster lr nn cleanflag) any_result.
Proof.
  intros Hd Hc. unfold DeletePodInLeafCluster. apply wp_leafClient. intros h1 Hs1. split; [done|].
  set (c := GetActualClusterName (lr_Cluster lr)) in *.
  assert (Hroot : forall h2, h1 `sublist_of` h2 ->
    ((exists msg, Ev (LeafGetPod c nn) (NotFound msg) ∈ h2) \/ (exists p g msg, Ev (LeafDeletePod c p g) (IsNotFound msg) ∈ h2)) ->
    wp allowed h2 (if cleanflag then DeletePodInRootCluster nn else Done None) any_result).
  { intros h2 Hs2 Hm. destruct cleanflag; [|done]. destruct (Hc eq_refl) as (root & Hr & Ht & Hl).
    assert (Hs : h `sublist_of` h2) by by trans h1.
    apply (wp_DeletePodInRoot root c); [by eapply sublist_elem|done|by eapply leaf_of_mono|done]. }
  simpl. split; [done|]. intros [p|m|m]; simpl; [|apply Hroot; [apply sub_snoc|left; exists m; apply elem_snoc]|done].
  destruct (IsKosmosPod p) eqn:Hk; simpl; [|done]. split; [done|]. intros now. split.
  - split; [apply elem_of_app; left; apply elem_snoc|]. split; [done|].
    eapply deletable_mono; [|exact Hd]. trans h1; [done|]. rewrite <- app_assoc. by apply sublist_inserts_r.
  - intros err. destruct err as [|m|m|m|m]; simpl; try done. apply Hroot.
    + rewrite <- !app_assoc. by apply sublist_inserts_r.
    + right. eexists _, _, m. apply elem_snoc.
Qed.

(** What was seen stays seen. *)
Lemma wp_keeps {A} (I : list event -> Prop) (p : prog A) h :
  (forall h h', h `sublist_of` h' -> I h -> I h') -> I h -> wp allowed h p (fun _ _ => True) -> wp allowed h p (fun h' _ => I h').
Proof.
  intros HI. revert h. induction p as [A a|A|A op k IH|A p1 _ p2 _ p3 _ k IH]; simpl; intros h Hh Hw; [done|done|..].
  - split; [by apply Hw|]. intros r. apply IH; [|apply Hw]. eapply HI; [apply sub_snoc|done].
  - destruct Hw as (W1 & W2 & W3 & Wk). split_and!; [done..|]. intros a b c h' Hs. apply IH; [by eapply HI|by apply Wk].
Qed.

Lemma wp_delete_everywhere nodes : forall h, (exists msg, Ev (RootGetPod nn) (NotFound msg) ∈ h) ->
  wp allowed h (delete_everywhere range nn nodes) (fun _ _ => True).
Proof.
  induction nodes as [|n nodes IH]; intros h Hm; cbn [delete_everywhere]; [done|].
  cbn [pbind call wp]. split; [done|]. intros l. destruct (GetLeafResourceByNodeName range l n) as [lr|]; [|done].
  apply (wp_seq allowed _ _ _ (fun h' _ => exists msg, Ev (RootGetPod nn) (NotFound msg) ∈ h')).
  - apply (wp_keeps (fun h' => exists msg, Ev (RootGetPod nn) (NotFound msg) ∈ h')).
    + intros h1 h2 Hs [m H1]. exists m. by eapply sublist_elem.
    + destruct Hm as [msg Hm]. exists msg. apply elem_of_app. by left.
    + eapply wp_mono; [apply wp_DeletePodInLeaf|done].
      * left. destruct Hm as [msg Hm]. exists msg. apply elem_of_app. by left.
      * done.
  - intros h' err Hm'. destruct err; [done|]. by apply IH.
Qed.

(** ** Creation and update *)

(** The pod to carry over is known, and where to. *)
Definition target (h : list event) (root : Pod) (lr : LeafResource) : Prop :=
  root_seen h root /\ om_DeletionTimestamp (pod_Meta root) = None /\
  leaf_of h (spec_NodeName (pod_Spec root)) (GetActualClusterName (lr_Cluster lr)).

Lemma target_mono h h' root lr : h `sublist_of` h' -> target h root lr -> target h' root lr.
Proof. intros Hs (Hr & Hd & Hl). split; [by eapply sublist_elem|]. split; [done|]. by eapply leaf_of_mono. Qed.

(** The last steps before a pod is sent keep its name. *)
Lemma wp_prepared lr p h (f : Pod -> prog (option string)) :
  (forall h' p', h `sublist_of` h' -> pod_id p' = pod_id p -> wp allowed h' (f p') any_result) ->
  wp allowed h (let! p := projectedHandler range lr p in
                let! p := (if opt_MultiClusterService opts then Done p else changeToMasterCoreDNS p opts) in f p) any_result.
Proof.
  intros Hf. apply (wp_quiet _ (fun p' => pod_id p' = pod_id p)); [auto with quiet|apply projectedHandler_id|].
  intros h1 p1 Hs1 E1. apply (wp_quiet _ (fun p' => pod_id p' = pod_id p)).
  - destruct (opt_MultiClusterService opts); [done|auto with quiet].
  - destruct (opt_MultiClusterService opts); [done|]. rewrite <- E1. apply changeDNS_id.
  - intros h2 p2 Hs2 E2. apply Hf; [by trans h1|done].
Qed.

Lemma wp_CreatePod root lr sel h msg :
  target h root lr -> Ev (LeafGetPod (GetActualClusterName (lr_Cluster lr)) nn) (NotFound msg) ∈ h ->
  wp allowed h (CreatePodInLeafCluster range IsEnvVarName IsQualifiedName UnmarshalSelection selector_matches opts lr root sel) any_result.
Proof.
  intros Ht Hm. unfold CreatePodInLeafCluster. cbn [pbind call wp]. split; [done|]. intros rm.
  apply wp_bind, wp_pure. intros [pod err] Hp. apply populate_id in Hp as [Emeta Enode]. destruct err; [done|].
  cbn [pbind call wp]. split; [done|]. intros l. rewrite Enode.
  destruct (GetClusterNode range l _) as [cn|]; [|done]. apply wp_bind, wp_pure. intros p0 E0. apply FitPod_id in E0. rewrite Emeta in E0.
  set (h0 := (h ++ _) ++ _). assert (Hs0 : h `sublist_of` h0) by (unfold h0; rewrite <- app_assoc; by apply sublist_inserts_r).
  clearbody h0. apply (wp_quiet _ (fun p' => pod_id p' = pod_id p0)); [auto with quiet|apply mutatePod_id|].
  intros h1 p1 Hs1 E1. apply wp_leafClient. intros h2 Hs2. split; [done|].
  apply (wp_quiet _ (fun _ => True)); [auto with quiet|apply returns_any|]. intros h3 e Hs3 _. destruct e; [done|].
  apply (wp_quiet _ (fun r => pod_id (snd r) = pod_id p1)); [auto with quiet|apply createVolumes_id|].
  intros h4 [e p4] Hs4 E4. simpl in E4. destruct e; [done|]. apply wp_prepared. intros h5 p5 Hs5 E5.
  cbn [pbind call wp]. split; [|by intros r].
  assert (Hs : h `sublist_of` h5) by (trans h0; [done|]; trans h1; [done|]; trans h2; [done|]; trans h3; [done|]; by trans h4).
  destruct (target_mono h h5 root lr Hs Ht) as (Hr & Hd & Hl). exists root, msg. split_and!; try done.
  - by eapply sublist_elem.
  - by rewrite E5, E4, E1, E0.
Qed.

Lemma wp_UpdatePod root lr sel old h :
  target h root lr -> Ev (LeafGetPod (GetActualClusterName (lr_Cluster lr)) nn) (Found old) ∈ h ->
  wp allowed h (UpdatePodInLeafCluster range UnmarshalSelection opts lr root old sel) any_result.
Proof.
  intros Ht Hm. unfold UpdatePodInLeafCluster. destruct (IsKosmosPod old) eqn:Hk; cbn [negb]; [|done].
  cbn [pbind call wp]. split; [done|]. intros l. destruct (GetClusterNode range l _) as [cn|]; [|done].
  apply wp_bind, wp_pure. intros [p0 u] E0. apply GetUpdatedPod_id in E0. destruct (same_pod _ p0); [done|].
  apply wp_prepared. intros h1 p1 Hs1 E1. apply wp_leafClient. intros h2 Hs2. split; [done|].
  cbn [pbind call wp]. split; [|by intros r].
  assert (Hs : h `sublist_of` h2) by (trans h1; [|done]; trans (h ++ [Ev Leaves l]); [apply sub_snoc|done]).
  destruct (target_mono h h2 root lr Hs Ht) as (Hr & Hd & Hl). exists root, old. split_and!; try done.
  - by eapply sublist_elem.
  - by rewrite E1, E0.
Qed.

Lemma wp_on_error h err : wp allowed h (on_error err) (fun _ _ => True).
Proof. by destruct err. Qed.

Lemma wp_Reconcile :
  wp allowed [] (Reconcile range IsEnvVarName IsQualifiedName UnmarshalSelection selector_matches opts nn) (fun _ _ => True).
Proof.
  unfold Reconcile. cbn [pbind call wp]. split; [done|]. intros [root|msg|msg]; [| |done].
  2:{ cbn [pbind call wp]. split; [done|]. intros l. apply wp_delete_everywhere. exists msg. by left. }
  set (h0 := [] ++ _). assert (Hr : root_seen h0 root) by by left. clearbody h0.
  apply (wp_quiet _ (fun _ => True)); [unfold is_leaf_node; quiet_tac|apply returns_any|].
  intros h1 [[|]|] Hs1 _; [|done..]. unfold reconcile_leaf_pod. cbn [pbind call wp]. split; [done|]. intros l1. destruct (HasNode range l1 _); [|done].
  cbn [negb pbind call wp]. split; [done|]. intros l. destruct (GetLeafResourceByNodeName range l _) as [lr|] eqn:El; [|done].
  set (h2 := (h1 ++ _) ++ _). assert (Hs2 : h0 `sublist_of` h2) by (trans h1; [done|]; unfold h2; rewrite <- app_assoc; by apply sublist_inserts_r).
  assert (Hl : leaf_of h2 (spec_NodeName (pod_Spec root)) (GetActualClusterName (lr_Cluster lr)))
    by (exists l, lr; split; [apply elem_snoc|done]).
  assert (Hr2 : root_seen h2 root) by by eapply sublist_elem.
  clearbody h2. destruct (_ && _); [done|]. destruct (om_DeletionTimestamp (pod_Meta root)) eqn:Ed.
  { eapply wp_seq; [apply wp_DeletePodInLeaf|intros; apply wp_on_error].
    - right. exists root. by rewrite Ed.
    - intros _. exists root. by rewrite Ed. }
  apply wp_leafClient. intros h3 Hs3. split; [done|].
  assert (Ht : target h3 root lr) by (eapply target_mono; [exact Hs3|done]).
  cbn [pbind call wp]. split; [done|]. intros [leafPod|msg|msg]; [| |done].
  - destruct (ShouldEnqueue leafPod root); [|done].
    apply (wp_quiet _ (fun _ => True)); [unfold leaf_node_selector; quiet_tac|apply returns_any|]. intros h4 sel Hs4 _.
    eapply wp_seq; [apply wp_UpdatePod|intros; apply wp_on_error].
    + eapply target_mono; [|exact Ht]. trans (h3 ++ [Ev (LeafGetPod (GetActualClusterName (lr_Cluster lr)) nn) (Found leafPod)]); [apply sub_snoc|done].
    + eapply sublist_elem; [exact Hs4|apply elem_snoc].
  - apply (wp_quiet _ (fun _ => True)); [unfold leaf_node_selector; quiet_tac|apply returns_any|]. intros h4 sel Hs4 _.
    eapply wp_seq; [apply (wp_CreatePod _ _ _ _ msg)|intros; apply wp_on_error].
    + eapply target_mono; [|exact Ht]. trans (h3 ++ [Ev (LeafGetPod (GetActualClusterName (lr_Cluster lr)) nn) (NotFound msg)]); [apply sub_snoc|done].
    + eapply sublist_elem; [exact Hs4|apply elem_snoc].
Qed.

End Safety.

(** ** A run *)

Definition witness_pod (deleted : option Z) : Pod :=
  mkPod (mkMeta "p" "ns" "uid" "7" None (Some {[KosmosPodLabel := "true"]}) None deleted None)
    (with_NodeName "kosmos-c1" no_spec) (mkStatus "Running" EmptyString).

(** Every read finds something and every write succeeds. *)
Definition good_answers (root leaf : got Pod) (op : Op) : resp op :=
  match op with
  | Leaves => {["c1" := with_Nodes witness_leaf [mkClusterNode "c1" ALL no_selector]]}
  | LeafClient _ => inl tt
  | Now => 0%Z
  | PollBudget => 0
  | Schedule => []
  | RootGetPod _ => root
  | LeafGetPod _ _ => leaf
  | RootGetNode _ => NotFound EmptyString
  | RootGetService _ => NotFound EmptyString
  | RootReadEnv => mkManager (fun _ _ => NotFound EmptyString) (fun _ _ => NotFound EmptyString) (inl [])
  | RootListClusterPolicies => Found []
  | RootListPolicies _ => Found []
  | RootGetObj _ _ => NotFound EmptyString
  | LeafGetObj _ _ _ => NotFound EmptyString
  | RootGetSA _ => NotFound EmptyString
  | LeafGetSA _ _ => NotFound EmptyString
  | LeafGetNS _ _ => Found tt
  | LeafCreateSA _ _ => (NoError, EmptyString)
  | RootDeletePod _ _ => NoError
  | RootUpdateStatus _ => NoError
  | RootUpdateObj _ _ => NoError
  | RootCreateObj _ _ => NoError
  | RootUpdateSA _ => NoError
  | LeafCreatePod _ _ => NoError
  | LeafUpdatePod _ _ => NoError
  | LeafDeletePod _ _ _ => NoError
  | LeafCreateNS _ _ => NoError
  | LeafCreateObj _ _ _ => NoError
  | LeafUpdateSA _ _ => NoError
  | RootListHostNodes => inl []
  | RootCreateNode n => (NoError, n)
  | RootUpdateNodeStatus _ => NoError
  | RootPatchTaints _ _ => NoError
  | RootPatchNode _ _ => NoError
  | RootPatchNodeStatus _ _ => NoError
  | RootGetLease _ => NotFound EmptyString
  | RootCreateLease _ => NoError
  | RootUpdateLease _ => NoError
  | LeafServerVersion => inl EmptyString
  | RootGetCluster _ => NotFound EmptyString
  | RootUpdateCluster _ => NoError
  | RootDeleteNode _ => NoError
  | BuildClient _ _ => inl tt
  | SetupController _ => inl tt
  | CancelManager _ => tt
  | StartManager _ => tt
  | RootGetPVC _ => NotFound EmptyString
  | LeafGetPVC _ _ => NotFound EmptyString
  | RootPatchPVC nn _ => (NoError, mkPVC (mkMeta (nn_Name nn) (nn_Namespace nn) EmptyString EmptyString None None None None None) (mkPVCSpec EmptyString None EmptyString EmptyString) (mkPVCStatus EmptyString EmptyString))
  | LeafPatchPVC _ _ _ => NoError
  | RootUpdatePVCStatus _ => NoError
  | LeafCreatePVC _ _ => NoError
  | LeafDeletePVC _ _ => NoError
  | RootGetPV _ => NotFound EmptyString
  | LeafGetPV _ _ => NotFound EmptyString
  | RootCreatePV _ => NoError
  | LeafCreatePV _ _ => NoError
  | RootPatchPV _ _ => NoError
  | LeafPatchPV _ _ _ => NoError
  | RootDeletePV _ => NoError
  | LeafDeletePV _ _ => NoError
  | RootGetVolumePath _ => NotFound EmptyString
  | LeafHealthy => true
  | LeafListNodes _ => inl []
  | LeafListPods _ => inl []
  end.

Definition witness_reconcile : prog Result :=
  Reconcile (fun _ => map_to_list) (fun _ => true) (fun _ => []) (fun _ => None) (fun _ _ => inl true)
    (mkOptions true (mkNN "kube-system" "kube-dns") None) (mkNN "ns" "p").

