(* ===== verification/PodProgress.v ===== *)
(** What the answer of a reconciliation means: the request is finished only when the work
is done, and the goroutines of [createVolumes] never lose an error. *)
From S2P Require Import Prelude GoStr GoJson PodApi LeafManager PodFit PodEnv PodProg PodStorage PodControllers PodSafety.

(** * The messages of goroutines *)

Lemma arrive_interleave n : forall sched l1 l2 l3, exists l, interleave l1 l2 l3 l /\ arrive n sched l1 l2 l3 = take n l.
Proof.
  induction n as [|n IH]; intros sched l1 l2 l3; [exists (l1 ++ l2 ++ l3); split; [apply interleave_app|done]|].
  cbn [arrive]. set (t := match sched with t :: _ => t | [] => 0 end). clearbody t.
  assert (G1 : forall x l1', l1 = x :: l1' -> exists l, interleave l1 l2 l3 l /\ x :: arrive n (tail sched) l1' l2 l3 = take (S n) l).
  { intros x l1' ->. destruct (IH (tail sched) l1' l2 l3) as (l & Hi & ->). exists (x :: l). split; [by constructor|done]. }
  assert (G2 : forall x l2', l2 = x :: l2' -> exists l, interleave l1 l2 l3 l /\ x :: arrive n (tail sched) l1 l2' l3 = take (S n) l).
  { intros x l2' ->. destruct (IH (tail sched) l1 l2' l3) as (l & Hi & ->). exists (x :: l). split; [by constructor|done]. }
  assert (G3 : forall x l3', l3 = x :: l3' -> exists l, interleave l1 l2 l3 l /\ x :: arrive n (tail sched) l1 l2 l3' = take (S n) l).
  { intros x l3' ->. destruct (IH (tail sched) l1 l2 l3') as (l & Hi & ->). exists (x :: l). split; [by constructor|done]. }
  assert (G0 : l1 = [] -> l2 = [] -> l3 = [] -> exists l, interleave l1 l2 l3 l /\ [] = take (S n) l).
  { intros -> -> ->. exists []. split; [constructor|done]. }
  destruct t as [|[|[|t]]], l1 as [|x1 l1], l2 as [|x2 l2], l3 as [|x3 l3];
    first [by apply G1 | by apply G2 | by apply G3 | by apply G0].
Qed.

Lemma join_errors_None l : join_errors l = None <-> Forall (fun m => m = EmptyString) l.
Proof.
  unfold join_errors. assert (G : forall s, String.length (fold_left (fun s m => if 0 <? String.length m then s +:+ m else s) l s) = 0 <->
    s = EmptyString /\ Forall (fun m => m = EmptyString) l).
  { induction l as [|m l IH]; intros s; cbn [fold_left].
    - split; [intros Hs; split; [by destruct s|constructor]|by intros [-> _]].
    - rewrite IH. destruct (Nat.ltb_spec 0 (String.length m)) as [Hm|Hm].
      + split.
        * intros [Hs _]. exfalso. apply (f_equal String.length) in Hs. rewrite str_length_app in Hs. simpl in Hs. lia.
        * intros [_ Hf]. apply Forall_cons_iff in Hf as [-> _]. simpl in Hm. lia.
      + assert (m = EmptyString) as -> by (destruct m; [done|simpl in Hm; lia]). rewrite Forall_cons_iff. tauto. }
  specialize (G EmptyString). destruct (Nat.ltb_spec 0 (String.length (fold_left (fun s m => if 0 <? String.length m then s +:+ m else s) l EmptyString))) as [H|H].
  - split; [done|]. intros Hf. assert (E : String.length (fold_left (fun s m => if 0 <? String.length m then s +:+ m else s) l EmptyString) = 0) by by apply G. lia.
  - split; [|done]. intros _. apply G. lia.
Qed.

Definition nonempty (e : option string) : Prop := e <> Some EmptyString.

(** In any order of arrival, an error is among the first three messages. *)
Lemma error_arrives e1 e2 e3 l : nonempty e1 -> nonempty e2 -> nonempty e3 ->
  interleave (messages e1) (messages e2) (messages e3) l ->
  (Forall (fun m => m = EmptyString) (take 3 l) <-> e1 = None /\ e2 = None /\ e3 = None) /\ length l <= 6.
Proof.
  intros N1 N2 N3 Hi. unfold nonempty in *.
  destruct e1 as [m1|], e2 as [m2|], e3 as [m3|]; simpl in Hi;
    repeat match goal with H : interleave _ _ _ _ |- _ => inversion H; clear H; subst end; simpl;
    (split; [|lia]); rewrite ?Forall_cons_iff; split; try (intros; simplify_eq; tauto); try naive_solver.
Qed.

Definition volume_errors (sched : list nat) (configmaps claims secrets : option string) : option string :=
  join_errors (arrive 3 sched (messages (first_message "create configmap failed: " configmaps))
    (messages (first_message "create pvc failed: " claims)) (messages (first_message "create secrets failed: " secrets))).

(** The three goroutines of [createVolumes]. In whatever order their messages arrive,
the three messages that are read contain an error exactly if a goroutine failed, although
a goroutine that fails sends two; and what is not read fits the buffer of the channel, so
that no goroutine blocks. *)
Theorem volumes_joined (sched : list nat) (e1 e2 e3 : option string) :
  (volume_errors sched e1 e2 e3 = None <-> e1 = None /\ e2 = None /\ e3 = None) /\
  length (messages e1) + length (messages e2) + length (messages e3) <= 3 + 3.
Proof.
  split; [|destruct e1, e2, e3; simpl; lia]. unfold volume_errors.
  assert (N : forall t e, t <> EmptyString -> nonempty (first_message t e)).
  { intros t [m|] Ht; [|done]. intros [= E]. destruct t; [done|]. by rewrite str_app_cons in E. }
  assert (F : forall t e, first_message t e = None <-> e = None) by (intros t [m|]; done).
  destruct (arrive_interleave 3 sched (messages (first_message "create configmap failed: " e1))
    (messages (first_message "create pvc failed: " e2)) (messages (first_message "create secrets failed: " e3))) as (l & Hi & ->).
  apply error_arrives in Hi as [Hi _]; [|by apply N..]. by rewrite join_errors_None, Hi, !F.
Qed.

(** * Finished requests *)

Definition P0 (h : list event) (op : Op) : Prop := True.

Lemma wp_step {A B} (R : A -> Prop) (m : prog A) (f : A -> prog B) h Q : returns R m ->
  (forall h' a, h `sublist_of` h' -> R a -> wp P0 h' (f a) Q) -> wp P0 h (pbind m f) Q.
Proof.
  intros Hr Hf. assert (G : forall h1, h `sublist_of` h1 -> wp P0 h1 (pbind m f) Q); [|by apply G]. clear -Hr Hf.
  assert (X : forall A (p : prog A) h, wp P0 h p (fun _ _ => True)).
  { clear. intros A p. induction p as [A a|A|A op k IH|A p1 IH1 p2 IH2 p3 IH3 k IH]; simpl; intros h; try done; repeat split; auto. }
  revert Hr Hf. induction m as [A a|A|A op k IH|A p1 _ p2 _ p3 _ k IH]; simpl; intros Hr Hf h1 Hs; [auto|done|..].
  - split; [done|]. intros r. eapply IH; [done|done|]. by apply sublist_inserts_r.
  - repeat split; [apply X..|]. intros a b c h' Hh. eapply IH; [done|done|]. by trans h1.
Qed.

Section Finished.
Context (range : forall V : Type, gmap string V -> list (string * V)).
Context (IsEnvVarName : string -> bool) (IsQualifiedName : string -> list string).
Context (UnmarshalSelection : string -> option ClustersNodeSelection).
Context (selector_matches : LabelSelector -> smap -> result bool).
Context (opts : Options).
Context (nn : NamespacedName).

(** The leaf cluster does not have the pod, has it from someone else, or was told to
delete it. *)
Definition removed (h : list event) (c : string) : Prop :=
  (exists msg, Ev (LeafGetPod c nn) (NotFound msg) ∈ h) \/
  (exists p, Ev (LeafGetPod c nn) (Found p) ∈ h /\
     (IsKosmosPod p = false \/ exists g, Ev (LeafDeletePod c p g) NoError ∈ h \/ exists msg, Ev (LeafDeletePod c p g) (IsNotFound msg) ∈ h)).

Lemma removed_mono h h' c : h `sublist_of` h' -> removed h c -> removed h' c.
Proof.
  intros Hs. pose proof (fun e => sublist_elem h h' e Hs) as He.
  intros [[m Hm]|(p & Hp & Hk)]; [left; eauto|right; exists p; split; [auto|]].
  destruct Hk as [?|(g & [?|[m ?]])]; [by left|right; exists g; left; auto|right; exists g; right; eauto].
Qed.

Lemma finished_DeletePodInLeaf lr cleanflag h :
  wp P0 h (DeletePodInLeafCluster lr nn cleanflag)
    (fun h' err => h `sublist_of` h' /\ (err = None -> removed h' (GetActualClusterName (lr_Cluster lr)))).
Proof.
  unfold DeletePodInLeafCluster. cbn [leafClientResource pbind call wp]. split; [done|]. intros [u|m]; cbn [pbind wp];
    [|split; [apply sub_snoc|done]].
  set (c := GetActualClusterName (lr_Cluster lr)). split; [done|]. intros g. set (h1 := (h ++ _) ++ [Ev (LeafGetPod c nn) g]).
  assert (Hs : h `sublist_of` h1) by (unfold h1; rewrite <- app_assoc; by apply sublist_inserts_r).
  assert (Hg : Ev (LeafGetPod c nn) g ∈ h1) by apply elem_snoc. clearbody h1.
  assert (Hroot : forall h2, h1 `sublist_of` h2 -> removed h2 c ->
    wp P0 h2 (if cleanflag then DeletePodInRootCluster nn else Done None) (fun h' err => h `sublist_of` h' /\ (err = None -> removed h' c))).
  { intros h2 Hs2 Hr. destruct cleanflag; [|simpl; split; [by trans h1|done]].
    unfold DeletePodInRootCluster. apply (wp_step (fun _ => True)); [apply returns_any|]. intros h3 r Hs3 _.
    assert (Hs' : h `sublist_of` h3) by (trans h1; [done|]; by trans h2). assert (Hr' : removed h3 c) by by apply (removed_mono h2).
    destruct r as [p|m|m]; cbn [wp]; [|done|done]. apply (wp_step (fun _ => True)); [apply returns_any|]. intros h4 r Hs4 _. cbn [wp].
    split; [by trans h3|]. intros _. by apply (removed_mono h3). }
  destruct g as [p|m|m]; [|apply Hroot; [done|left; eauto]|cbn [wp]; split; [done|done]].
  destruct (IsKosmosPod p) eqn:Hk; cbn [negb]; [|cbn [wp]; split; [done|]; intros _; right; exists p; eauto].
  cbn [pbind call wp]. split; [done|]. intros now. split; [done|]. intros err. set (h2 := (h1 ++ _) ++ _).
  assert (Hs2 : h1 `sublist_of` h2) by (unfold h2; rewrite <- app_assoc; by apply sublist_inserts_r).
  assert (Hd : Ev (LeafDeletePod c p (NewLeafDeleteOption p now)) err ∈ h2) by apply elem_snoc. clearbody h2.
  assert (Hp : Ev (LeafGetPod c nn) (Found p) ∈ h2) by by eapply sublist_elem.
  destruct err as [|m|m|m|m]; cbn [wp err_text]; try (split; [by trans h1|done]).
  - split; [by trans h1|]. intros _. right. exists p. split; [done|]. right. eexists. left. exact Hd.
  - apply Hroot; [done|]. right. exists p. split; [done|]. right. eexists. right. exists m. exact Hd.
Qed.

Lemma finished_delete_everywhere nodes : forall h,
  wp P0 h (delete_everywhere range nn nodes) (fun h' r => h `sublist_of` h' /\ (r = Finished ->
    forall n, n ∈ nodes -> exists c, leaf_of range h' n c /\ removed h' c)).
Proof.
  induction nodes as [|n nodes IH]; intros h; cbn [delete_everywhere]; [cbn [wp]; split; [done|set_solver]|].
  cbn [pbind call wp]. split; [done|]. intros l. destruct (GetLeafResourceByNodeName range l n) as [lr|] eqn:El;
    [|cbn [wp]; split; [apply sub_snoc|done]].
  eapply wp_seq; [apply finished_DeletePodInLeaf|]. intros h1 err [Hs1 He]. cbn beta.
  assert (Hs : h `sublist_of` h1) by (trans (h ++ [Ev Leaves l]); [apply sub_snoc|done]).
  destruct err; [cbn [wp]; split; [done|done]|]. eapply wp_mono; [apply IH|]. cbn beta. intros h2 r [Hs2 Hr].
  split; [by trans h1|]. intros -> n' [->|Hn']%elem_of_cons; [|by apply Hr].
  exists (GetActualClusterName (lr_Cluster lr)). split.
  - exists l, lr. split; [|done]. eapply sublist_elem; [|apply elem_snoc]. by trans h1.
  - eapply removed_mono; [exact Hs2|]. by apply He.
Qed.

Lemma finished_Create lr root sel h :
  wp P0 h (CreatePodInLeafCluster range IsEnvVarName IsQualifiedName UnmarshalSelection selector_matches opts lr root sel)
    (fun h' err => h `sublist_of` h' /\ (err = None -> exists p, Ev (LeafCreatePod (GetActualClusterName (lr_Cluster lr)) p) NoError ∈ h')).
Proof.
  assert (Hfail : forall h' (m : string), h `sublist_of` h' -> wp P0 h' (Done (Some m)) (fun h' err => h `sublist_of` h' /\
    (err = None -> exists p, Ev (LeafCreatePod (GetActualClusterName (lr_Cluster lr)) p) NoError ∈ h'))) by (intros; cbn [wp]; done).
  unfold CreatePodInLeafCluster. apply (wp_step (fun _ => True)); [apply returns_any|]. intros h1 rm Hs1 _.
  apply (wp_step (fun _ => True)); [apply returns_any|]. intros h2 [pod err] Hs2 _. assert (h `sublist_of` h2) by by trans h1.
  destruct err; [by apply Hfail|]. apply (wp_step (fun _ => True)); [apply returns_any|]. intros h3 l Hs3 _. assert (h `sublist_of` h3) by by trans h2.
  destruct (GetClusterNode range l _) as [cn|]; [|by apply Hfail].
  apply (wp_step (fun _ => True)); [apply returns_any|]. intros h4 p0 Hs4 _.
  apply (wp_step (fun _ => True)); [apply returns_any|]. intros h5 p1 Hs5 _.
  assert (h `sublist_of` h5) by (trans h3; [done|]; by trans h4).
  apply (wp_step (fun r => r = inl (GetActualClusterName (lr_Cluster lr)) \/ exists m, r = inr m)); [intros [u|m]; cbn; eauto|].
  intros h6 r Hs6 [->|[m ->]]; [|apply Hfail; by trans h5].
  apply (wp_step (fun _ => True)); [apply returns_any|]. intros h7 e Hs7 _.
  assert (h `sublist_of` h7) by (trans h5; [done|]; by trans h6). destruct e; [by apply Hfail|].
  apply (wp_step (fun _ => True)); [apply returns_any|]. intros h8 [e p4] Hs8 _.
  assert (h `sublist_of` h8) by by trans h7. destruct e; [by apply Hfail|].
  apply (wp_step (fun _ => True)); [apply returns_any|]. intros h9 p5 Hs9 _.
  apply (wp_step (fun _ => True)); [apply returns_any|]. intros h10 p6 Hs10 _.
  assert (h `sublist_of` h10) by (trans h8; [done|]; by trans h9). cbn [pbind call wp]. split; [done|]. intros r.
  split; [trans h10; [done|apply sub_snoc]|]. destruct r; cbn; try done. intros _. eexists. apply elem_snoc.
Qed.

(** The pod of the leaf cluster already is what an update would make of it. *)
Definition settled (lr : LeafResource) (root leafPod : Pod) : Prop :=
  exists mode sel p u, let old := on_Meta (set_Labels (Some (fst (FitLabels (map_of (labels leafPod)) (lr_IgnoreLabels lr))))) leafPod in
    GetUpdatedPod (range string) UnmarshalSelection old root (lr_IgnoreLabels lr) mode sel = Ret (p, u) /\ same_pod old p = true.

Lemma finished_Update lr root leafPod sel h :
  wp P0 h (UpdatePodInLeafCluster range UnmarshalSelection opts lr root leafPod sel)
    (fun h' err => h `sublist_of` h' /\ (err = None -> IsKosmosPod leafPod = false \/ settled lr root leafPod \/
       exists p, Ev (LeafUpdatePod (GetActualClusterName (lr_Cluster lr)) p) NoError ∈ h')).
Proof.
  unfold UpdatePodInLeafCluster. destruct (IsKosmosPod leafPod) eqn:Hk; cbn [negb]; [|cbn [wp]; by auto].
  cbv zeta. set (old := on_Meta _ leafPod).
  apply (wp_step (fun _ => True)); [apply returns_any|]. intros h1 l Hs1 _.
  destruct (GetClusterNode range l _) as [cn|]; [|cbn [wp]; by auto].
  destruct (GetUpdatedPod _ _ _ _ _ _ _) as [[p0 u]|] eqn:Eu; [|done]. cbn [pure pbind].
  destruct (same_pod old p0) eqn:Es; [cbn [wp]; split; [done|]; intros _; right; left; by exists (cn_LeafMode cn), sel, p0, u|].
  apply (wp_step (fun _ => True)); [apply returns_any|]. intros h2 p1 Hs2 _.
  apply (wp_step (fun _ => True)); [apply returns_any|]. intros h3 p2 Hs3 _.
  assert (h `sublist_of` h3) by (trans h1; [done|]; by trans h2).
  apply (wp_step (fun r => r = inl (GetActualClusterName (lr_Cluster lr)) \/ exists m, r = inr m)); [intros [?|m]; cbn; eauto|].
  intros h4 r Hs4 [->|[m ->]]; [|cbn [wp]; split; [by trans h3|done]].
  cbn [pbind call wp]. split; [done|]. intros r. split; [trans h4; [by trans h3|apply sub_snoc]|].
  destruct r; cbn; try done. intros _. right. right. eexists. apply elem_snoc.
Qed.

(** The part about a pod on a leaf node. *)
Definition carried_to_leaf (h : list event) (root : Pod) : Prop :=
  exists l lr, Ev Leaves l ∈ h /\ GetLeafResourceByNodeName range l (spec_NodeName (pod_Spec root)) = inl lr /\
    let c := GetActualClusterName (lr_Cluster lr) in
    ((lr_Namespace lr <> EmptyString /\ lr_Namespace lr <> om_Namespace (pod_Meta root)) \/
     (om_DeletionTimestamp (pod_Meta root) <> None /\ removed h c) \/
     (om_DeletionTimestamp (pod_Meta root) = None /\
       ((exists p, Ev (LeafCreatePod c p) NoError ∈ h) \/
        exists leafPod, Ev (LeafGetPod c nn) (Found leafPod) ∈ h /\
          (ShouldEnqueue leafPod root = false \/ IsKosmosPod leafPod = false \/ settled lr root leafPod \/
           exists p, Ev (LeafUpdatePod c p) NoError ∈ h)))).

(** What a finished request means for the pod it is about. *)
Definition carried (h : list event) : Prop :=
  (exists l msg, Ev (RootGetPod nn) (NotFound msg) ∈ h /\ Ev Leaves l ∈ h /\
     forall n, n ∈ ListNodes range l -> exists c, leaf_of range h n c /\ removed h c) \/
  (exists root, root_seen nn h root /\
    ((exists n, Ev (RootGetNode (spec_NodeName (pod_Spec root))) (Found n) ∈ h /\
        get (map_of (kn_Annotations n)) KosmosNodeOwnedByClusterAnnotations = EmptyString) \/
     carried_to_leaf h root)).

Lemma wp_finished_leaf h root :
  wp P0 h (reconcile_leaf_pod range IsEnvVarName IsQualifiedName UnmarshalSelection selector_matches opts nn root)
    (fun h' r => h `sublist_of` h' /\ (r = Finished -> carried_to_leaf h' root)).
Proof.
  unfold reconcile_leaf_pod. cbv zeta. apply (wp_step (fun _ => True)); [apply returns_any|]. intros h1 l1 Hs1 _.
  destruct (HasNode range l1 _); cbn [negb]; [|by cbn [wp]]. cbn [pbind call wp]. split; [done|]. intros l.
  destruct (GetLeafResourceByNodeName range l _) as [lr|] eqn:El; [|cbn [wp]; split; [trans h1; [done|apply sub_snoc]|done]].
  set (h2 := h1 ++ _). assert (Hl : Ev Leaves l ∈ h2) by apply elem_snoc.
  assert (Hs2 : h `sublist_of` h2) by (trans h1; [done|apply sub_snoc]). clearbody h2.
  assert (Hend : forall h' r (X : Prop), h2 `sublist_of` h' -> (r = Finished -> X) ->
    (X -> let c := GetActualClusterName (lr_Cluster lr) in
      ((lr_Namespace lr <> EmptyString /\ lr_Namespace lr <> om_Namespace (pod_Meta root)) \/
       (om_DeletionTimestamp (pod_Meta root) <> None /\ removed h' c) \/
       (om_DeletionTimestamp (pod_Meta root) = None /\
         ((exists p, Ev (LeafCreatePod c p) NoError ∈ h') \/
          exists leafPod, Ev (LeafGetPod c nn) (Found leafPod) ∈ h' /\
            (ShouldEnqueue leafPod root = false \/ IsKosmosPod leafPod = false \/ settled lr root leafPod \/
             exists p, Ev (LeafUpdatePod c p) NoError ∈ h'))))) ->
    h `sublist_of` h' /\ (r = Finished -> carried_to_leaf h' root)).
  { intros h' r X Hs HX HC. split; [by trans h2|]. intros HF. exists l, lr. split; [by eapply sublist_elem|]. split; [done|]. auto. }
  destruct (_ && _) eqn:Ens.
  { cbn [wp]. apply (Hend h2 Finished True); [done|done|]. intros _. left. breflect. apply Nat.ltb_lt in H.
    split; [intros E; rewrite E in H; simpl in H; lia|done]. }
  destruct (om_DeletionTimestamp (pod_Meta root)) eqn:Ed.
  { eapply wp_seq; [apply finished_DeletePodInLeaf|]. cbn beta. intros h3 err [Hs3 Hrem]. cbn [on_error wp].
    apply (Hend h3 _ (removed h3 (GetActualClusterName (lr_Cluster lr)))); [done| |by intros ?; right; left].
    destruct err; [done|]. intros _. by apply Hrem. }
  apply (wp_step (fun r => r = inl (GetActualClusterName (lr_Cluster lr)) \/ exists m, r = inr m)); [intros [?|m]; cbn; eauto|].
  intros h3 r Hs3 [->|[m ->]]; [|cbn [wp]; split; [by trans h2|done]].
  cbn [pbind call wp]. split; [done|]. intros g. set (h4 := h3 ++ _).
  assert (Hg : Ev (LeafGetPod (GetActualClusterName (lr_Cluster lr)) nn) g ∈ h4) by apply elem_snoc.
  assert (Hs4 : h2 `sublist_of` h4) by (trans h3; [done|apply sub_snoc]). clearbody h4.
  destruct g as [leafPod|m|m]; [| |cbn [wp]; split; [by trans h2|done]].
  - destruct (ShouldEnqueue leafPod root) eqn:Eq.
    2:{ cbn [wp]. apply (Hend h4 Finished True); [done|done|]. intros _. right. right. split; [done|]. right. eauto. }
    apply (wp_step (fun _ => True)); [apply returns_any|]. intros h5 sel Hs5 _.
    eapply wp_seq; [apply finished_Update|]. cbn beta. intros h6 err [Hs6 Hu]. cbn [on_error wp].
    assert (Hs : h4 `sublist_of` h6) by by trans h5.
    apply (Hend h6 _ (IsKosmosPod leafPod = false \/ settled lr root leafPod \/
      exists p, Ev (LeafUpdatePod (GetActualClusterName (lr_Cluster lr)) p) NoError ∈ h6)).
    + by trans h4.
    + destruct err; [done|]. intros _. by apply Hu.
    + intros X. right. right. split; [done|]. right. exists leafPod. split; [by eapply sublist_elem|]. by right.
  - apply (wp_step (fun _ => True)); [apply returns_any|]. intros h5 sel Hs5 _.
    eapply wp_seq; [apply finished_Create|]. cbn beta. intros h6 err [Hs6 Hu]. cbn [on_error wp].
    apply (Hend h6 _ (exists p, Ev (LeafCreatePod (GetActualClusterName (lr_Cluster lr)) p) NoError ∈ h6)).
    + trans h4; [done|]. by trans h5.
    + destruct err; [done|]. intros _. by apply Hu.
    + intros X. right. right. split; [done|]. by left.
Qed.

Lemma wp_finished_Reconcile :
  wp P0 [] (Reconcile range IsEnvVarName IsQualifiedName UnmarshalSelection selector_matches opts nn)
    (fun h r => r = Finished -> carried h).
Proof.
  unfold Reconcile. cbn [pbind call wp]. split; [done|]. intros [root|msg|msg]; [| |done].
  2:{ cbn [pbind call wp]. split; [done|]. intros l. eapply wp_mono; [apply finished_delete_everywhere|]. cbn beta.
      intros h r [Hs Hr] ->. left. exists l, msg. split; [eapply sublist_elem; [exact Hs|by left]|].
      split; [eapply sublist_elem; [exact Hs|by right; left]|]. by apply Hr. }
  set (h0 := [] ++ _). assert (Hr : root_seen nn h0 root) by by left. clearbody h0.
  assert (Hleaf : forall h1, h0 `sublist_of` h1 ->
    wp P0 h1 (reconcile_leaf_pod range IsEnvVarName IsQualifiedName UnmarshalSelection selector_matches opts nn root)
      (fun h r => r = Finished -> carried h)).
  { intros h1 Hs1. eapply wp_mono; [apply wp_finished_leaf|]. cbn beta. intros h2 r [Hs2 Hf] HF. right. exists root.
    split; [eapply sublist_elem; [|exact Hr]; by trans h1|]. right. by apply Hf. }
  unfold is_leaf_node. destruct (HasPrefix _ _); [by apply Hleaf|].
  cbn [pbind call wp]. split; [done|]. intros [n|m|m]; [|done..].
  destruct (kn_Annotations n) as [a|] eqn:Ea; cbn [pbind].
  - destruct (_ =? 0) eqn:E0; cbn [negb]; [|apply Hleaf, sub_snoc]. intros _. right. exists root.
    split; [apply elem_of_app; by left|]. left. exists n. split; [apply elem_snoc|]. rewrite Ea. cbn.
    apply Nat.eqb_eq in E0. by destruct (get a _).
  - intros _. right. exists root. split; [apply elem_of_app; by left|]. left. exists n. split; [apply elem_snoc|]. by rewrite Ea.
Qed.

End Finished.

