(* ===== verification/LeafStatus.v ===== *)
(** The nodes that stand for leaf clusters in the host cluster: leaf_model_handler.go,
leaf_cluster_condition_cache.go and rootcluster.go of clustertree/cluster-manager/utils,
utils/node.go, and the controllers that keep their status
(controllers/node_resources_controller.go, controllers/node_lease_controller.go).

The handler's [clusterConditionCache] is passed along. Recorded events are not modelled.
[PodRequestsAndLimits], the creation of merge patches and the sort of Go, which the code
uses with a relation that is not an order, are parameters. *)
From S2P Require Import LinkVxlan Prelude GoStr PodApi LeafManager PodFit NodeResources PodEnv PodProg PodStorage PodControllers.
Open Scope prog_scope.

Definition clusterFailureThreshold : Z := 30 * 60 * 1000000000.
Definition clusterSuccessThreshold : Z := 5 * 1000000000.

Definition KosmosNodeLabel : string := "kosmos.io/node".
Definition KosmosNodeValue : string := "true".
Definition KosmosNodeTaint : NodeTaint := mkNodeTaint "kosmos.io/node" "true" "NoSchedule".
Definition DefaultK8sOS : string := "linux".
Definition DefaultK8sArch : string := "amd64".
Definition nodeMode : string := "leafNodeMode".
Definition LabelNodeRoleControlPlane : string := "node-role.kubernetes.io/control-plane".
Definition LabelNodeRoleOldControlPlane : string := "node-role.kubernetes.io/master".
Definition LabelNodeRoleNode : string := "node-role.kubernetes.io/node".

(** * utils/node.go *)

Definition NodeConditions (now : Z) : list NodeCondition :=
  [mkCondition "Ready" "True" "KubeletReady" "kubelet is posting ready status" (Some now);
   mkCondition "NetworkUnavailable" "False" "RouteCreated" "RouteController created a route" (Some now);
   mkCondition "MemoryPressure" "False" "KubeletHasSufficientMemory" "kubelet has sufficient memory available" (Some now);
   mkCondition "DiskPressure" "False" "KubeletHasNoDiskPressure" "kubelet has no disk pressure" (Some now);
   mkCondition "PIDPressure" "False" "KubeletHasSufficientPID" "kubelet has sufficient PID available" (Some now)].

Definition BuildNodeTemplate (name : string) (now : Z) : KubeNode :=
  mkKubeNode name EmptyString EmptyString None
    (Some (list_to_map [(KosmosNodeLabel, KosmosNodeValue); ("kubernetes.io/role", "agent"); ("kubernetes.io/hostname", name);
                        ("kubernetes.io/arch", DefaultK8sArch); ("kubernetes.io/os", DefaultK8sOS); ("beta.kubernetes.io/os", DefaultK8sOS)]))
    None false [KosmosNodeTaint]
    (mkNodeStatus (NodeConditions now) ∅ ∅ [] EmptyString 0 DefaultK8sOS DefaultK8sArch EmptyString).

(** [FindNodeIPsAddress]: the addresses come with an error, always. *)
Definition FindFirstNodeIPAddress (node : KubeNode) (nodeAddressType : string) : result string :=
  match first (fun addr => addr_Type addr =s nodeAddressType) (ns_Addresses (kn_Status node)) with
  | Some addr => inl (addr_Address addr)
  | None => inr ("cannot find internal IP address in node addresses, node name: " +:+ kn_Name node)
  end.
Definition FindNodeIPsAddress (node : KubeNode) (nodeAddressType : string) : list string * string :=
  (map addr_Address (List.filter (fun addr => addr_Type addr =s nodeAddressType) (ns_Addresses (kn_Status node))),
   "cannot find internal IP address in node addresses, node name: " +:+ kn_Name node).

(** * The condition of a cluster, over time *)

(** [cd_thresholdStartTime] is 0, the zero time, until the condition changes. *)
Record clusterData := mkData { cd_readyCondition : string; cd_thresholdStartTime : Z }.
Abbreviation clusterConditionStore := (gmap string clusterData).

Definition FindStatusCondition (conditions : list NodeCondition) : option NodeCondition :=
  first (fun c => cond_Type c =s "Ready") conditions.

(** Whether the observed status is that of the node. *)
Definition changes (observed cur : string) : bool :=
  ((observed =s "True") && negb (cur =s "True")) || (negb (observed =s "True") && (cur =s "True")).

Definition thresholdAdjustedReadyCondition (c : clusterConditionStore) (cluster : string) (nodeInRoot : KubeNode)
    (observedReadyConditions : list NodeCondition) (failureThreshold successThreshold now : Z) :
    outcome (list NodeCondition * clusterConditionStore) :=
  match FindStatusCondition observedReadyConditions with
  | None => Ret (observedReadyConditions, c)
  | Some observed =>
      let curReadyConditions := kn_Conditions nodeInRoot in
      match c !! cluster with
      | None => Ret (observedReadyConditions, <[cluster := mkData (cond_Status observed) 0]> c)
      | Some saved =>
          let changed := negb (cd_readyCondition saved =s cond_Status observed) in
          let saved := if changed then mkData (cond_Status observed) now else saved in
          let c := if changed then <[cluster := saved]> c else c in
          let threshold := if cond_Status observed =s "True" then successThreshold else failureThreshold in
          cur ← deref (FindStatusCondition curReadyConditions);
          Ret (if changes (cond_Status observed) (cond_Status cur) && (now <? cd_thresholdStartTime saved + threshold)%Z
               then curReadyConditions else observedReadyConditions, c)
      end
  end.

Definition getObservedReadyStatus (online : bool) : list NodeCondition :=
  if negb online then [mkCondition "Ready" "False" "ClusterNotReachable" "cluster is not reachable." None]
  else [mkCondition "Ready" "True" "ClusterReady" "cluster is online and ready to accept workloads." None].

(** * Addresses *)

Section Handler.
Context (range : ResourceList -> list (string * Z)).
Context (PodRequestsAndLimits : Pod -> ResourceList * ResourceList).
(** [sort.Slice] *)
Context (sort_Slice : (NodeAddress -> NodeAddress -> bool) -> list NodeAddress -> list NodeAddress).
(** The environment variables PREFERRED-ADDRESS-TYPE and LEAF_NODE_IP. *)
Context (preferred_type leaf_node_ip : string).

Definition address_less (isIPv4First : bool) (a b : NodeAddress) : bool :=
  if isIPv4First then
    if negb (IsIPv6 (addr_Address a)) && IsIPv6 (addr_Address b) then true
    else negb (IsIPv6 (addr_Address a) && negb (IsIPv6 (addr_Address b)))
  else
    if negb (IsIPv6 (addr_Address a)) && IsIPv6 (addr_Address b) then false else true.

Definition SortAddress (originAddress : list NodeAddress) : prog (result (list NodeAddress)) :=
  let! r := call RootListHostNodes in
  Done (match r with
        | inr err => inr ("create node failed, cannot get node from root cluster, err: " +:+ err)
        | inl [] => inr "create node failed, cannot get node from root cluster, len of leafnodes is 0"
        | inl (rootnode :: _) =>
            let isIPv4First := match first (fun a => addr_Type a =s "InternalIP") (ns_Addresses (kn_Status rootnode)) with
                               | Some a => negb (IsIPv6 (addr_Address a))
                               | None => true
                               end in
            let internal := List.filter (fun a => addr_Type a =s "InternalIP") originAddress in
            let other := List.filter (fun a => negb (addr_Type a =s "InternalIP")) originAddress in
            inl (sort_Slice (address_less isIPv4First) internal ++ other)
        end).

Definition GetAddress (originAddress : list NodeAddress) : prog (result (list NodeAddress)) :=
  let type := if String.length preferred_type =? 0 then "InternalDNS" else preferred_type in
  let! address := SortAddress originAddress in
  Done (match address with
        | inr err => inr err
        | inl address => inl (mkAddress type leaf_node_ip :: address)
        end).

(** * Leaf models *)

Record ClassificationHandler := mkHandler { h_leafMode : LeafMode; h_Cluster : LeafCluster }.

(** The first model decides; an empty list that is not nil panics. A label selector is a
pointer and is compared with a value, so that it always differs. *)
Definition NewLeafModelHandler (cluster : LeafCluster) : outcome ClassificationHandler :=
  match lc_LeafModels cluster with
  | None => Ret (mkHandler ALL cluster)
  | Some leafModels =>
      model ← deref (leafModels !! 0);
      let sel := lm_NodeSelector model in
      Ret (mkHandler (match sel_LabelSelector sel with
                      | Some _ => Party
                      | None => if negb (sel_NodeName sel =s EmptyString) then Node else ALL
                      end) cluster)
  end.

Definition GetLeafNodes (h : ClassificationHandler) (rootNode : KubeNode) (selector : NodeSelector) :
    prog (result (list KubeNode)) :=
  call (LeafListNodes (match h_leafMode h with
                       | ALL => AllNodes
                       | Party => NodesByLabels (sel_LabelSelector selector)
                       | Node => NodeByName (kn_Name rootNode)
                       end)).

(** The pods of the nodes, in order; [None] is the nil list before the first node. *)
Fixpoint pods_of_nodes (nodes : list KubeNode) (pods : option (list Pod)) : prog (result (option (list Pod))) :=
  match nodes with
  | [] => Done (inl pods)
  | node :: rest =>
      let! r := call (LeafListPods (PodsOnNode (kn_Name node))) in
      match r with
      | inr err => Done (inr err)
      | inl podsInNode =>
          pods_of_nodes rest (Some (match pods with None => podsInNode | Some l => l ++ podsInNode end))
      end
  end.

Definition GetLeafPods (h : ClassificationHandler) (rootNode : KubeNode) (selector : NodeSelector) :
    prog (result (option (list Pod))) :=
  match h_leafMode h with
  | Party => let! r := call (LeafListPods AllPods) in
             Done (match r with inl pods => inl (Some pods) | inr err => inr err end)
  | Node => let! r := call (LeafListPods (PodsOnNode (kn_Name rootNode))) in
            Done (match r with inl pods => inl (Some pods) | inr err => inr err end)
  | ALL => let! r := GetLeafNodes h rootNode selector in
           match r with
           | inr err => Done (inr err)
           | inl nodesInLeafs => pods_of_nodes nodesInLeafs None
           end
  end.

Definition updateTaints (taints : list NodeTaint) (nodeName : string) : prog apierr :=
  call (RootPatchTaints nodeName taints).

(** Whether the nodes that carry the label of the control plane are all not ready; a
failed list gives no nodes. *)
Definition checkAllMasterNodesNotReady : prog (list NodeCondition) :=
  let! r := call (LeafListNodes ControlPlane) in
  let nodes := match r with inl nodes => nodes | inr _ => [] end in
  if forallb (fun node => negb (NodeReady node)) nodes then
    Done [mkCondition "Ready" "False" "LeafNodesNotReady" "All leaf cluster‘s master nodes are not ready." None]
  else let! now := call Now in Done (NodeConditions now).

(** ** The status of the nodes in the host cluster *)

Definition set_conditions (cs : list NodeCondition) (st : NodeStatus) : NodeStatus :=
  mkNodeStatus cs (ns_Allocatable st) (ns_Capacity st) (ns_Addresses st) (ns_KubeletVersion st) (ns_KubeletPort st)
    (ns_OperatingSystem st) (ns_Architecture st) (ns_Rest st).
Definition set_resources (r : ResourceList) (st : NodeStatus) : NodeStatus :=
  mkNodeStatus (ns_Conditions st) r r (ns_Addresses st) (ns_KubeletVersion st) (ns_KubeletPort st)
    (ns_OperatingSystem st) (ns_Architecture st) (ns_Rest st).
Definition set_addresses (l : list NodeAddress) (st : NodeStatus) : NodeStatus :=
  mkNodeStatus (ns_Conditions st) (ns_Allocatable st) (ns_Capacity st) l (ns_KubeletVersion st) (ns_KubeletPort st)
    (ns_OperatingSystem st) (ns_Architecture st) (ns_Rest st).
Definition set_version (v : string) (n : KubeNode) : KubeNode :=
  mkKubeNode (kn_Name n) (kn_UID n) v (kn_Annotations n) (kn_Labels n) (kn_DeletionTimestamp n)
    (kn_Unschedulable n) (kn_Taints n) (kn_Status n).

(** [fmt.Errorf] hides that an error is a conflict. *)
Definition cannot (text nodeName err : string) : apierr := OtherError (text +:+ nodeName +:+ err).

(** Node mode: the status of the one leaf node. Otherwise [conditions] and the resources
of the leaf nodes; the version is read again. *)
Definition collect_status (h : ClassificationHandler) (name : string) (selector : NodeSelector) (nodesInLeaf : list KubeNode)
    (conditions : prog (list NodeCondition)) (rootCopy : KubeNode) : prog (apierr + KubeNode) :=
  if bool_decide (h_leafMode h = Node) then
    let! leaf := pure (deref (nodesInLeaf !! 0)) in Done (inr (set_node_status (kn_Status leaf) rootCopy))
  else
    let! cs := conditions in
    let rootCopy := set_node_status (set_conditions cs (kn_Status rootCopy)) rootCopy in
    let! pods := GetLeafPods h rootCopy selector in
    match pods with
    | inr err => Done (inl (cannot "could not list pod in leaf cluster while update the join node " name (" status, err: " +:+ err)))
    | inl pods =>
        let! g := call (RootGetNode name) in
        match g with
        | NotFound err | Failed err => Done (inl (cannot "cannot get node in root cluster while update the join node status " name (", err: " +:+ err)))
        | Found nodeInRoot =>
            let rootCopy := set_version (kn_ResourceVersion nodeInRoot) rootCopy in
            let! pods := pure (deref pods) in
            let r := CalculateClusterResources PodRequestsAndLimits range nodesInLeaf pods in
            Done (inr (set_node_status (set_resources r (kn_Status rootCopy)) rootCopy))
        end
    end.

(** The rest of an attempt, from the list of the leaf nodes on. *)
Definition update_from_leaf (h : ClassificationHandler) (name : string) (selector : NodeSelector) (filter : NodeFilter)
    (conditions : prog (list NodeCondition)) (rootCopy : KubeNode) : prog apierr :=
  let! r := call (LeafListNodes filter) in
  match r with
  | inr err => Done (cannot "cannot get node in leaf cluster while update the join node " name (" status, err: " +:+ err))
  | inl [] => Done (cannot "have no node in leaf cluster while update the join node " name " status")
  | inl (leaf :: others) =>
      let! r := collect_status h name selector (leaf :: others) conditions rootCopy in
      match r with
      | inl err => Done err
      | inr rootCopy =>
          let! address := GetAddress (ns_Addresses (kn_Status leaf)) in
          match address with
          | inr err => Done (OtherError err)
          | inl updateAddress =>
              let rootCopy := set_node_status (set_addresses updateAddress (kn_Status rootCopy)) rootCopy in
              let! err := call (RootUpdateNodeStatus rootCopy) in
              match err with
              | NoError =>
                  if bool_decide (h_leafMode h = Node) then
                    let! err := updateTaints (kn_Taints leaf ++ [KosmosNodeTaint]) (kn_Name rootCopy) in
                    Done (match err_text err with Some e => OtherError ("update taints failed: " +:+ e) | None => NoError end)
                  else Done NoError
              | err => Done err
              end
          end
      end
  end.

(** The nodes to list for a node of the host; in party mode a node without a selector is
left out. *)
Definition leaf_filter (h : ClassificationHandler) (selectors : gmap string NodeSelector) (name : string) : option NodeFilter :=
  match h_leafMode h with
  | ALL => Some AllNodes
  | Node => Some (NodeByName name)
  | Party => match selectors !! name with
             | Some selector => Some (NodesByLabels (sel_LabelSelector selector))
             | None => None
             end
  end.

Definition selector_of (selectors : gmap string NodeSelector) (name : string) : NodeSelector :=
  default no_selector (selectors !! name).

Definition missing_node (name err : string) : apierr :=
  cannot "cannot get node in root cluster while update the join node status " name (", err: " +:+ err).

(** One attempt of [UpdateRootNodeStatus]. *)
Definition try_status (h : ClassificationHandler) (selectors : gmap string NodeSelector) (name : string) (filter : NodeFilter) :
    prog apierr :=
  let! g := call (RootGetNode name) in
  match g with
  | NotFound err | Failed err => Done (missing_node name err)
  | Found nodeInRoot =>
      update_from_leaf h name (selector_of selectors name) filter (let! now := call Now in Done (NodeConditions now)) nodeInRoot
  end.

(** Whether the node is to be set not ready. *)
Definition still_offline (online : bool) (readyConditions : list NodeCondition) : outcome bool :=
  if online then Ret false
  else readyCondition ← deref (FindStatusCondition readyConditions); Ret (negb (cond_Status readyCondition =s "True")).

(** One attempt of [UpdateRootNodeStatusAddNotready]. *)
Definition try_status_not_ready (h : ClassificationHandler) (selectors : gmap string NodeSelector) (name : string)
    (filter : NodeFilter) (cache : clusterConditionStore) : prog (apierr * clusterConditionStore) :=
  let! g := call (RootGetNode name) in
  match g with
  | NotFound err | Failed err => Done (missing_node name err, cache)
  | Found nodeInRoot =>
      let! online := call LeafHealthy in
      let! now := call Now in
      let! '(readyConditions, cache) := pure (thresholdAdjustedReadyCondition cache (lc_Name (h_Cluster h)) nodeInRoot
        (getObservedReadyStatus online) clusterFailureThreshold clusterSuccessThreshold now) in
      let! offline := pure (still_offline online readyConditions) in
      if (offline : bool) then
        let! err := call (RootUpdateNodeStatus (set_node_status (set_conditions readyConditions (kn_Status nodeInRoot)) nodeInRoot)) in
        Done (err : apierr, cache)
      else
        let! err := update_from_leaf h name (selector_of selectors name) filter checkAllMasterNodesNotReady nodeInRoot in
        Done (err, cache)
  end.

(** [RetryOnConflict] that also returns the variable its function keeps. *)
Fixpoint retry_state {S : Type} (n : nat) (fn : S -> prog (apierr * S)) (s : S) : prog (apierr * S) :=
  match n with
  | 0 => Done (NoError, s)
  | Datatypes.S n' =>
      let! '(err, s') := fn s in
      match err with
      | IsConflict _ => if n' =? 0 then Done (err, s') else retry_state n' fn s'
      | _ => Done (err, s')
      end
  end.

(** The errors of all nodes. *)
Fixpoint UpdateRootNodeStatus (h : ClassificationHandler) (nodesInRoot : list KubeNode) (selectors : gmap string NodeSelector) :
    prog (list string) :=
  match nodesInRoot with
  | [] => Done []
  | node :: rest =>
      match leaf_filter h selectors (kn_Name node) with
      | None => UpdateRootNodeStatus h rest selectors
      | Some filter =>
          let! '(err, _) := retry_state 5 (fun _ : unit => let! err := try_status h selectors (kn_Name node) filter in Done (err, tt)) tt in
          let! errs := UpdateRootNodeStatus h rest selectors in
          Done (option_list (err_text err) ++ errs)
      end
  end.

Fixpoint UpdateRootNodeStatusAddNotready (h : ClassificationHandler) (nodesInRoot : list KubeNode)
    (selectors : gmap string NodeSelector) (cache : clusterConditionStore) : prog (list string * clusterConditionStore) :=
  match nodesInRoot with
  | [] => Done ([], cache)
  | node :: rest =>
      match leaf_filter h selectors (kn_Name node) with
      | None => UpdateRootNodeStatusAddNotready h rest selectors cache
      | Some filter =>
          let! '(err, cache) := retry_state 5 (try_status_not_ready h selectors (kn_Name node) filter) cache in
          let! '(errs, cache) := UpdateRootNodeStatusAddNotready h rest selectors cache in
          Done (option_list (err_text err) ++ errs, cache)
      end
  end.

(** ** The nodes in the host cluster *)

Definition set_node_annotations (a : option smap) (n : KubeNode) : KubeNode :=
  mkKubeNode (kn_Name n) (kn_UID n) (kn_ResourceVersion n) a (kn_Labels n) (kn_DeletionTimestamp n)
    (kn_Unschedulable n) (kn_Taints n) (kn_Status n).
Definition set_kubelet (version : string) (port : Z) (st : NodeStatus) : NodeStatus :=
  mkNodeStatus (ns_Conditions st) (ns_Allocatable st) (ns_Capacity st) (ns_Addresses st) version port
    (ns_OperatingSystem st) (ns_Architecture st) (ns_Rest st).

(** The node to create for a leaf model. *)
Definition new_node (clusterName nodeName gitVersion : string) (listenPort : Z) (leafModel : LeafMode) (now : Z) : KubeNode :=
  let n := BuildNodeTemplate nodeName now in
  let a := map_of (kn_Annotations n) in
  let a := if bool_decide (leafModel = ALL) then <[nodeMode := "one2cluster"]> a else a in
  let n := set_node_annotations (Some (<[KosmosNodeOwnedByClusterAnnotations := clusterName]> a)) n in
  set_node_status (set_kubelet gitVersion listenPort (kn_Status n)) n.

Definition createNode (clusterName nodeName gitVersion : string) (listenPort : Z) (leafModel : LeafMode) : prog (result KubeNode) :=
  let! g := call (RootGetNode nodeName) in
  match g with
  | Found nodeInRoot => Done (inl nodeInRoot)
  | Failed err => Done (inr err)
  | NotFound _ =>
      let! now := call Now in
      let! '(err, nodeInRoot) := call (RootCreateNode (new_node clusterName nodeName gitVersion listenPort leafModel now)) in
      Done (match err_text err with Some err => inr err | None => inl nodeInRoot end)
  end.

(** The name of the node for the model number [i]. *)
Definition root_node_name (mode : LeafMode) (model : LeafModel) (i : nat) : string :=
  let name := if bool_decide (mode = Node) then sel_NodeName (lm_NodeSelector model)
              else KosmosNodePrefix +:+ lm_LeafNodeName model +:+ "-" +:+ pretty i in
  if 63 <? String.length name then str_take 63 name else name.

Fixpoint create_models (h : ClassificationHandler) (listenPort : Z) (gitVersion : string) (i : nat) (models : list LeafModel)
    (nodes : list KubeNode) (selectors : gmap string NodeSelector) : prog (result (list KubeNode * gmap string NodeSelector)) :=
  match models with
  | [] => Done (inl (nodes, selectors))
  | leafModel :: rest =>
      let name := root_node_name (h_leafMode h) leafModel i in
      let! r := createNode (lc_Name (h_Cluster h)) name gitVersion listenPort (h_leafMode h) in
      match r with
      | inr err => Done (inr err)
      | inl nodeInRoot =>
          let! nodeInRoot :=
            (if bool_decide (h_leafMode h = Party)
             then let! a := pure (deref (kn_Annotations nodeInRoot)) in
                  Done (set_node_annotations (Some (<[nodeMode := "one2party"]> a)) nodeInRoot)
             else Done nodeInRoot) in
          create_models h listenPort gitVersion (S i) rest (nodes ++ [nodeInRoot]) (<[name := lm_NodeSelector leafModel]> selectors)
      end
  end.

Definition CreateRootNode (h : ClassificationHandler) (listenPort : Z) (gitVersion : string) :
    prog (result (list KubeNode * gmap string NodeSelector)) :=
  if bool_decide (h_leafMode h = ALL) then
    let name := KosmosNodePrefix +:+ lc_Name (h_Cluster h) in
    let! r := createNode (lc_Name (h_Cluster h)) name gitVersion listenPort ALL in
    Done (match r with
          | inr err => inr err
          | inl nodeInRoot => inl ([nodeInRoot], {[name := no_selector]})
          end)
  else create_models h listenPort gitVersion 0 (default [] (lc_LeafModels (h_Cluster h))) [] ∅.

(** One tick of the status of the nodes; errors are only logged. *)
Definition syncNodeStatus (h : ClassificationHandler) (UpdateRootNodeStatusNotready : bool) (nodes : list KubeNode)
    (selectors : gmap string NodeSelector) (cache : clusterConditionStore) : prog clusterConditionStore :=
  if UpdateRootNodeStatusNotready then
    let! '(_, cache) := UpdateRootNodeStatusAddNotready h nodes selectors cache in Done cache
  else let! _ := UpdateRootNodeStatus h nodes selectors in Done cache.

(** * NodeResourcesController *)

(** [delete] of the three role labels. *)
Definition drop_roles (m : smap) : smap :=
  delete LabelNodeRoleNode (delete LabelNodeRoleOldControlPlane (delete LabelNodeRoleControlPlane m)).

(** The labels of the leaf node that the host node does not have are added. *)
Definition mergeMap (origin new : option smap) : option smap :=
  match origin, new with
  | None, _ => new
  | Some _, None => None
  | Some o, Some n => Some (drop_roles (n ∪ o))
  end.

(** Which updates of nodes reach the controller; the deletion timestamps are pointers of
two objects, which are only equal if both are nil. *)
Definition node_updated (old curr : KubeNode) : bool :=
  negb (Bool.eqb (kn_Unschedulable old) (kn_Unschedulable curr)) ||
  negb (bool_decide (kn_DeletionTimestamp old = None /\ kn_DeletionTimestamp curr = None)) ||
  negb (Bool.eqb (NodeReady old) (NodeReady curr)) ||
  negb (bool_decide (kn_Allocatable old = kn_Allocatable curr)).

Definition podMapFunc (pod : Pod) : list string :=
  if 0 <? String.length (spec_NodeName (pod_Spec pod)) then [spec_NodeName (pod_Spec pod)] else [].

(** [utils.CreateMergePatch] *)
Context (CreateMergePatch : KubeNode -> KubeNode -> result opaque).

(** Node mode: labels, annotations and status of the leaf node, with the taints the
controller was started with. *)
Definition sync_node (h : ClassificationHandler) (rootNode : KubeNode) (nodesInLeaf : list KubeNode) (clone : KubeNode) : KubeNode :=
  if bool_decide (h_leafMode h = Node) then
    match first (fun n => kn_Name n =s kn_Name rootNode) nodesInLeaf with
    | Some node =>
        mkKubeNode (kn_Name clone) (kn_UID clone) (kn_ResourceVersion clone)
          (mergeMap (kn_Annotations node) (kn_Annotations clone)) (mergeMap (kn_Labels node) (kn_Labels clone))
          (kn_DeletionTimestamp clone) (kn_Unschedulable clone) (kn_Taints rootNode)
          (set_addresses (ns_Addresses (kn_Status clone)) (kn_Status node))
    | None => clone
    end
  else clone.

(** One node of the host; the error, if any. *)
Definition sync_resources (h : ClassificationHandler) (selectors : gmap string NodeSelector) (rootNode : KubeNode) : prog (option string) :=
  let name := kn_Name rootNode in
  let! g := call (RootGetNode name) in
  match g with
  | NotFound err | Failed err => Done (Some ("cannot get node while update nodeInRoot resources " +:+ name +:+ ", err: " +:+ err))
  | Found nodeInRoot =>
      let! r := GetLeafNodes h rootNode (selector_of selectors name) in
      match r with
      | inr err => Done (Some err)
      | inl nodesInLeaf =>
          let! r := GetLeafPods h rootNode (selector_of selectors name) in
          match r with
          | inr err => Done (Some err)
          | inl pods =>
              let! clone := (match ns_Conditions (kn_Status nodeInRoot) with
                             | [] => let! now := call Now in
                                     Done (set_node_status (set_conditions (NodeConditions now) (kn_Status nodeInRoot)) nodeInRoot)
                             | _ => Done nodeInRoot
                             end) in
              let clone := sync_node h rootNode nodesInLeaf clone in
              let! pods := pure (deref pods) in
              let r := CalculateClusterResources PodRequestsAndLimits range nodesInLeaf pods in
              let clone := set_node_status (set_resources r (kn_Status clone)) clone in
              match CreateMergePatch nodeInRoot clone with
              | inr err => Done (Some err)
              | inl patch =>
                  let! err := call (RootPatchNode name patch) in
                  match err_text err with
                  | Some err => Done (Some ("(patch) failed to patch node resources: " +:+ err +:+ ", will requeue"))
                  | None =>
                      let! err := call (RootPatchNodeStatus name patch) in
                      Done (match err_text err with
                            | Some err => Some ("(patch-status) failed to patch node resources: " +:+ err +:+ ", will requeue")
                            | None => None
                            end)
                  end
              end
          end
      end
  end.

Fixpoint NodeResources_Reconcile (h : ClassificationHandler) (nodes : list KubeNode) (selectors : gmap string NodeSelector) :
    prog (option string) :=
  match nodes with
  | [] => Done None
  | rootNode :: rest =>
      let! err := sync_resources h selectors rootNode in
      match err with Some err => Done (Some err) | None => NodeResources_Reconcile h rest selectors end
  end.
End Handler.

(** * NodeLeaseController *)

Definition DefaultLeaseDuration : Z := 40.
(** A quarter of the duration. *)
Definition getRenewInterval : Z := (DefaultLeaseDuration * 25 / 100) * 1000000000.
Definition NamespaceNodeLease : string := "kube-node-lease".

Definition newLease (node : KubeNode) (now : Z) : Lease :=
  mkLease (kn_Name node) NamespaceNodeLease (kn_Name node, kn_UID node) (Some (kn_Name node)) (Some DefaultLeaseDuration) (Some now) EmptyString.

Definition set_renewed (node : KubeNode) (now : Z) (l : Lease) : Lease :=
  mkLease (lease_Name l) (lease_Namespace l) (kn_Name node, kn_UID node) (lease_Holder l) (lease_Duration l) (Some now) (lease_Rest l).

Fixpoint createLeaseIfNotExists (nodes : list KubeNode) : prog apierr :=
  match nodes with
  | [] => Done NoError
  | node :: rest =>
      let! g := call (RootGetLease (mkNN NamespaceNodeLease (kn_Name node))) in
      match g with
      | Found _ => createLeaseIfNotExists rest
      | Failed err => Done (OtherError err)
      | NotFound _ =>
          let! now := call Now in
          let! err := call (RootCreateLease (newLease node now)) in
          match err with NoError => createLeaseIfNotExists rest | err => Done err end
      end
  end.

Definition renew (node : KubeNode) (_ : unit) : prog (apierr * unit) :=
  let! g := call (RootGetLease (mkNN NamespaceNodeLease (kn_Name node))) in
  match g with
  | Found lease =>
      let! now := call Now in
      let! err := call (RootUpdateLease (set_renewed node now lease)) in
      Done (err : apierr, tt)
  | g => Done (got_err g, tt)
  end.

Fixpoint updateLeaseWithRetry (nodes : list KubeNode) : prog apierr :=
  match nodes with
  | [] => Done NoError
  | node :: rest =>
      let! err := RetryOnConflict 5 (renew node) tt in
      match err with NoError => updateLeaseWithRetry rest | err => Done err end
  end.

(** One tick: whether the leases are renewed. *)
Definition syncLease (nodes : list KubeNode) : prog bool :=
  let! v := call LeafServerVersion in
  match v with
  | inr _ => Done false
  | inl _ =>
      let! err := createLeaseIfNotExists nodes in
      match err with
      | NoError => let! err := updateLeaseWithRetry nodes in Done (match err with NoError => true | _ => false end)
      | _ => Done false
      end
  end.
