(* ===== verification/LeafNodes.v ===== *)
(** When a leaf node is reported ready, and what is written of it: properties of the
definitions of LeafStatus. *)
From S2P Require Import LinkVxlan Prelude GoStr PodApi LeafManager PodFit NodeResources PodEnv PodProg PodStorage PodControllers PodSafety LeafStatus.
Open Scope prog_scope.

(** * The cluster goes offline *)

(** One check of a cluster: the node of the host, whether the cluster answered, and the
time. *)
Record check := mkCheck { ck_node : KubeNode; ck_online : bool; ck_now : Z }.

(** What [UpdateRootNodeStatusAddNotready] decides after a check: whether it sets the node
not ready. *)
Definition check_step (cluster : string) (c : clusterConditionStore) (k : check) : outcome (clusterConditionStore * bool) :=
  '(conds, c') ← thresholdAdjustedReadyCondition c cluster (ck_node k) (getObservedReadyStatus (ck_online k))
    clusterFailureThreshold clusterSuccessThreshold (ck_now k);
  offline ← still_offline (ck_online k) conds;
  Ret (c', offline).

Definition checks (cluster : string) (ks : list check) : outcome (clusterConditionStore * bool) :=
  foldM (fun '(c, _) k => check_step cluster c k) ks (∅, false).

Definition node_ready_status (n : KubeNode) : option string := cond_Status <$> FindStatusCondition (kn_Conditions n).

(** The clock of the process: it does not go back, and the thresholds have passed since
the zero time. *)
Fixpoint clock_ok (t : Z) (ks : list check) : Prop :=
  match ks with [] => True | k :: rest => (t <= ck_now k)%Z /\ clock_ok (ck_now k) rest end.

(** The checks that end with [k] have all failed: from the start, or for the whole
threshold. *)
Definition down (ks : list check) (k : check) : Prop :=
  Forall (fun k' => ck_online k' = false) (ks ++ [k]) \/
  exists pre k0 post, ks ++ [k] = pre ++ k0 :: post /\ Forall (fun k' => ck_online k' = false) (k0 :: post) /\
    (clusterFailureThreshold <= ck_now k - ck_now k0)%Z.

Definition status_text (online : bool) : string := if online then "True" else "False".

Lemma status_text_inj a b : status_text a = status_text b -> a = b.
Proof. by destruct a, b. Qed.

(** What is saved after the checks: the last answer, and when the answers last changed. *)
Definition saved_ok (ks : list check) (d : clusterData) : Prop :=
  exists k0 post pre, ks = pre ++ k0 :: post /\
    Forall (fun k => ck_online k = ck_online k0) post /\ cd_readyCondition d = status_text (ck_online k0) /\
    ((pre = [] /\ cd_thresholdStartTime d = 0%Z) \/
     (exists pre' k, pre = pre' ++ [k] /\ ck_online k = negb (ck_online k0) /\ cd_thresholdStartTime d = ck_now k0)).

Lemma find_observed online : exists c, FindStatusCondition (getObservedReadyStatus online) = Some c /\ cond_Status c = status_text online.
Proof. destruct online; eexists; done. Qed.

(** The first check decides at once; later ones keep the status of a node for a while. *)
Lemma check_step_first cluster c k : c !! cluster = None ->
  check_step cluster c k = Ret (<[cluster := mkData (status_text (ck_online k)) 0]> c, negb (ck_online k)).
Proof.
  intros Hc. unfold check_step, thresholdAdjustedReadyCondition. destruct (find_observed (ck_online k)) as (o & -> & Ho).
  rewrite Hc, Ho. cbn [mbind outcome_bind]. unfold still_offline. by destruct (ck_online k).
Qed.

Lemma check_step_next cluster c k d r : c !! cluster = Some d -> check_step cluster c k = Ret r ->
  exists cur d', node_ready_status (ck_node k) = Some cur /\
    d' = (if cd_readyCondition d =s status_text (ck_online k) then d else mkData (status_text (ck_online k)) (ck_now k)) /\
    r.1 !! cluster = Some d' /\
    r.2 = negb (ck_online k) && (negb (cur =s "True") || negb (ck_now k <? cd_thresholdStartTime d' + clusterFailureThreshold)%Z).
Proof.
  intros Hc. unfold check_step, thresholdAdjustedReadyCondition, node_ready_status.
  destruct (find_observed (ck_online k)) as (o & Eo & Ho). rewrite Eo, Hc, Ho.
  destruct (FindStatusCondition (kn_Conditions (ck_node k))) as [cur|] eqn:Ecur; [|by destruct (_ =s _)].
  cbn [mbind outcome_bind deref fmap option_fmap option_map].
  set (d' := if negb _ then _ else d). intros Hr. exists (cond_Status cur), d'. split; [done|].
  split; [subst d'; by destruct (cd_readyCondition d =s _)|].
  assert (Hl : (if negb (cd_readyCondition d =s status_text (ck_online k)) then <[cluster := d']> c else c) !! cluster = Some d').
  { subst d'. destruct (negb _); [by rewrite lookup_insert_eq|done]. }
  revert Hr. unfold still_offline, changes. destruct (ck_online k); cbn [status_text] in *.
  - intros [= <-]. split; [exact Hl|done].
  - rewrite (bool_decide_false ("False" = "True")) by done. cbn [negb andb orb].
    destruct (cond_Status cur =s "True") eqn:Et; [|intros [= <-]; split; [exact Hl|done]]. cbn [andb].
    destruct (_ <? _)%Z; [rewrite Ecur; cbn [deref mbind outcome_bind]; rewrite Et|]; intros [= <-]; split; try exact Hl; done.
Qed.

(** ** The saved data *)

Lemma saved_ok_step ks k d : saved_ok ks d ->
  saved_ok (ks ++ [k]) (if cd_readyCondition d =s status_text (ck_online k) then d else mkData (status_text (ck_online k)) (ck_now k)).
Proof.
  intros (k0 & post & pre & -> & Hpost & Hd & Hs). rewrite Hd. case_bool_decide as E.
  - apply status_text_inj in E. exists k0, (post ++ [k]), pre. split; [by rewrite <- app_assoc|].
    split; [apply Forall_app; split; [done|by repeat constructor]|]. done.
  - exists k, [], (pre ++ k0 :: post). split; [done|]. split; [done|]. split; [done|]. right.
    destruct (exists_last (l := k0 :: post)) as (l & kl & El); [done|]. rewrite El.
    exists (pre ++ l), kl. rewrite app_assoc. split; [done|]. split; [|done].
    assert (Hkl : ck_online kl = ck_online k0).
    { destruct post as [|p post]; [destruct l as [|? [|]]; simplify_eq/=; done|].
      assert (Hin : kl ∈ p :: post).
      { destruct l as [|x l]; simplify_eq/=. match goal with H : _ = l ++ [kl] |- _ => rewrite H end. apply elem_of_app. right. by left. }
      by rewrite list.Forall_forall in Hpost; apply Hpost. }
    rewrite Hkl. destruct (ck_online k0), (ck_online k); try done; by destruct E.
Qed.

Lemma checks_saved cluster ks k c b : checks cluster (ks ++ [k]) = Ret (c, b) -> exists d, c !! cluster = Some d /\ saved_ok (ks ++ [k]) d.
Proof.
  unfold checks. revert k c b. induction ks as [|k' ks IH] using rev_ind; intros k c b; rewrite foldM_app.
  - cbn [foldM]. rewrite check_step_first by apply lookup_empty. intros [= <- <-].
    eexists. split; [apply lookup_insert_eq|]. exists k, [], []. split_and!; [done|done|done|by left].
  - destruct (foldM _ (ks ++ [k']) _) as [[c1 b1]|] eqn:E1; [|done]. cbn [foldM].
    destruct (IH _ _ _ E1) as (d & Hd & Hs). destruct (check_step cluster c1 k) as [r|] eqn:E2; [|done]. intros [= ->].
    destruct (check_step_next _ _ _ _ _ Hd E2) as (cur & d' & _ & Ed & Hl & _). exists d'. split; [exact Hl|]. subst d'.
    by apply saved_ok_step.
Qed.

(** ** When a ready node is set not ready *)

Lemma clock_ok_app t ks k : clock_ok t (ks ++ [k]) -> forall k', k' ∈ ks ++ [k] -> (t <= ck_now k' <= ck_now k)%Z.
Proof.
  revert t. induction ks as [|k1 ks IH]; simpl; intros t [Ht Hc] k' Hk'.
  - apply list_elem_of_singleton in Hk' as ->. lia.
  - assert (Hl : (ck_now k1 <= ck_now k1 <= ck_now k)%Z).
    { split; [done|]. apply (IH _ Hc k). apply elem_of_app. right. by left. }
    apply elem_of_cons in Hk' as [->|Hk']; [lia|]. specialize (IH _ Hc k' Hk'). lia.
Qed.

Lemma clock_ok_split t pre k0 post k ks : ks ++ [k] = pre ++ k0 :: post -> clock_ok t (ks ++ [k]) ->
  forall k', k' ∈ k0 :: post -> (ck_now k0 <= ck_now k')%Z.
Proof.
  intros -> Hc. revert t Hc. induction pre as [|p pre IH]; simpl; intros t [Ht Hc] k' Hk'; [|by eapply IH].
  clear Ht. apply elem_of_cons in Hk' as [->|Hk']; [done|].
  revert k0 k' Hc Hk'. induction post as [|q post IH]; simpl; intros k0 k' Hc Hk'; [by apply not_elem_of_nil in Hk'|].
  destruct Hc as [Hq Hc]. apply elem_of_cons in Hk' as [->|Hk']; [done|]. specialize (IH q k' Hc Hk'). lia.
Qed.

(** The end of a list of checks belongs to the last run of equal answers. *)
Lemma window_in_run ks k k0 post pre kx pre' k1 post1 :
  ks ++ [k] = (pre' ++ [kx]) ++ k0 :: post -> ck_online kx = true -> ks ++ [k] = pre ++ k1 :: post1 ->
  Forall (fun k' => ck_online k' = false) (k1 :: post1) -> k1 ∈ k0 :: post.
Proof.
  intros E Hx E1 Hf. rewrite E in E1. destruct (app_eq_inv _ _ _ _ E1) as [(m & Em & E2)|(m & Em & E2)].
  - destruct m as [|y m]; [simplify_eq/=; by left|]. exfalso. simpl in E2. injection E2 as <- E2.
    destruct (exists_last (l := k1 :: m)) as (m' & z & Ez); [done|].
    assert (Hz : kx = z). { rewrite Ez, app_assoc in Em. by apply app_inj_tail in Em as [_ ->]. }
    assert (Hin : z ∈ k1 :: post1).
    { assert (Hm : z ∈ k1 :: m) by (rewrite Ez; apply elem_of_app; right; by left). rewrite E2.
      rewrite app_comm_cons. apply elem_of_app. by left. }
    rewrite list.Forall_forall in Hf. specialize (Hf z Hin). congruence.
  - rewrite E2. apply elem_of_app. right. by left.
Qed.

Lemma start_down ks k d : clock_ok clusterFailureThreshold (ks ++ [k]) -> saved_ok (ks ++ [k]) d -> ck_online k = false ->
  (cd_thresholdStartTime d + clusterFailureThreshold <= ck_now k)%Z <-> down ks k.
Proof.
  intros Hclock (k0 & post & pre & E & Hpost & _ & Hs) Hk.
  assert (Hlast : k ∈ k0 :: post /\ ck_online k0 = false).
  { destruct (exists_last (l := k0 :: post)) as (l & z & El); [done|]. assert (k = z) as <-.
    { rewrite El, app_assoc in E. by apply app_inj_tail in E as [_ ->]. }
    assert (Hin : k ∈ k0 :: post) by (rewrite El; apply elem_of_app; right; by left). split; [done|].
    apply elem_of_cons in Hin as [<-|Hin]; [done|]. rewrite list.Forall_forall in Hpost. by rewrite <- (Hpost k Hin). }
  destruct Hlast as [Hin Hk0].
  assert (Hrun : Forall (fun k' => ck_online k' = false) (k0 :: post)).
  { constructor; [done|]. rewrite list.Forall_forall in *. intros x Hx'. by rewrite (Hpost x Hx'). }
  pose proof (clock_ok_app _ _ _ Hclock) as Hc. destruct Hs as [[-> Hs]|(pre' & kx & -> & Hx & Hs)]; rewrite Hs.
  - split; [intros _; left; by rewrite E|]. intros _. specialize (Hc k). rewrite E in Hc. specialize (Hc Hin). lia.
  - rewrite Hk0 in Hx. simpl in Hx. split.
    + intros Ht. right. exists (pre' ++ [kx]), k0, post. split; [done|]. split; [done|]. lia.
    + intros [Hall|(p & k1 & post1 & E1 & Hf & Ht)].
      * rewrite E, list.Forall_forall in Hall. specialize (Hall kx). rewrite Hx in Hall. exfalso.
        assert (true = false); [|done]. apply Hall. apply elem_of_app. left. apply elem_of_app. right. by left.
      * pose proof (window_in_run _ _ _ _ _ _ _ _ _ E Hx E1 Hf) as Hw.
        pose proof (clock_ok_split _ _ _ _ _ _ E Hclock k1 Hw). lia.
Qed.


Definition ready_status (st : string) : NodeStatus :=
  mkNodeStatus [mkCondition "Ready" st EmptyString EmptyString None] ∅ ∅ [] EmptyString 0 EmptyString EmptyString EmptyString.
Definition ready_check (online : bool) (seconds : Z) : check :=
  mkCheck (set_node_status (ready_status "True") (BuildNodeTemplate "kosmos-c1" 0)) online (63000000000 + seconds) .


(** * What is written of a node *)

Section Written.
Context (range : ResourceList -> list (string * Z)) (PodRequestsAndLimits : Pod -> ResourceList * ResourceList).
Context (sort_Slice : (NodeAddress -> NodeAddress -> bool) -> list NodeAddress -> list NodeAddress).
Context (preferred_type leaf_node_ip : string).
Context (h : ClassificationHandler) (notready : bool) (nodes : list KubeNode) (selectors : gmap string NodeSelector).

(** The pods are those that list calls have returned. *)
Definition pods_listed (tr : list event) (pods : list Pod) : Prop :=
  exists parts : list (PodFilter * list Pod), pods = concat (map snd parts) /\
    Forall (fun '(f, l) => Ev (LeafListPods f) (inl l) ∈ tr) parts.

Definition control_plane_ready (tr : list event) : Prop :=
  exists masters m, Ev (LeafListNodes ControlPlane) (inl masters) ∈ tr /\ m ∈ masters /\ NodeReady m = true.

(** A status that may be written for the node [name]. *)
Definition status_for (tr : list event) (name : string) (n : KubeNode) : Prop :=
  (Ev LeafHealthy false ∈ tr /\ NodeReady n = false) \/
  (h_leafMode h = Node /\ exists leaf others addresses, Ev (LeafListNodes (NodeByName name)) (inl (leaf :: others)) ∈ tr /\
     kn_Status n = set_addresses addresses (kn_Status leaf)) \/
  (h_leafMode h <> Node /\ exists filter leaves pods, leaf_filter h selectors name = Some filter /\
     Ev (LeafListNodes filter) (inl leaves) ∈ tr /\ pods_listed tr pods /\
     kn_Allocatable n = CalculateClusterResources PodRequestsAndLimits range leaves pods /\
     ns_Capacity (kn_Status n) = kn_Allocatable n /\
     (notready = true -> NodeReady n = true -> control_plane_ready tr)).

(** The calls that [syncNodeStatus] may make after the calls [tr]. *)
Definition status_allowed (tr : list event) (op : Op) : Prop :=
  match op with
  | RootUpdateNodeStatus n =>
      exists name old current, name ∈ map kn_Name nodes /\
        Ev (RootGetNode name) (Found old) ∈ tr /\ Ev (RootGetNode name) (Found current) ∈ tr /\
        n = set_node_status (kn_Status n) (set_version (kn_ResourceVersion current) old) /\ status_for tr name n
  | RootPatchTaints name taints =>
      h_leafMode h = Node /\ exists node leaf others, node ∈ map kn_Name nodes /\
        Ev (LeafListNodes (NodeByName node)) (inl (leaf :: others)) ∈ tr /\ taints = kn_Taints leaf ++ [KosmosNodeTaint]
  | Now | LeafHealthy | RootGetNode _ | RootListHostNodes | LeafListNodes _ | LeafListPods _ => True
  | _ => False
  end.

Lemma pods_listed_mono tr tr' pods : tr `sublist_of` tr' -> pods_listed tr pods -> pods_listed tr' pods.
Proof.
  intros Hs (parts & -> & Hp). exists parts. split; [done|]. refine (Forall_impl _ _ Hp). intros [f l]. by apply sublist_elem.
Qed.

Lemma control_plane_ready_mono tr tr' : tr `sublist_of` tr' -> control_plane_ready tr -> control_plane_ready tr'.
Proof. intros Hs (ms & m & H1 & H2 & H3). exists ms, m. split; [by eapply sublist_elem|done]. Qed.

Lemma status_for_mono tr tr' name n : tr `sublist_of` tr' -> status_for tr name n -> status_for tr' name n.
Proof.
  intros Hs. pose proof (fun e => sublist_elem tr tr' e Hs) as He. unfold status_for.
  intros [[H1 H2]|[(H1 & leaf & others & a & H2 & H3)|(H1 & f & leaves & pods & H2 & H3 & H4 & H5 & H6 & H7)]].
  - left. auto.
  - right. left. split; [done|]. exists leaf, others, a. auto.
  - right. right. split; [done|]. exists f, leaves, pods. split_and!; auto; [by eapply pods_listed_mono|].
    intros Hn Hr. eapply control_plane_ready_mono; [done|]. by apply H7.
Qed.

Lemma status_allowed_mono tr tr' op : tr `sublist_of` tr' -> status_allowed tr op -> status_allowed tr' op.
Proof.
  intros Hs. pose proof (fun e => sublist_elem tr tr' e Hs) as He. destruct op; simpl; try done.
  - intros (name & old & cur & H1 & H2 & H3 & H4 & H5). exists name, old, cur. split_and!; auto. by eapply status_for_mono.
  - intros (H1 & nd & leaf & others & H2 & H3 & H4). split; [done|]. exists nd, leaf, others. auto.
Qed.

(** ** The parts of an attempt *)

Abbreviation W := (wp status_allowed).

Lemma wp_pods_of_nodes ns : forall tr pods, match pods with Some l => pods_listed tr l | None => True end ->
  W tr (pods_of_nodes ns pods) (fun tr' r => tr `sublist_of` tr' /\ forall l, r = inl (Some l) -> pods_listed tr' l).
Proof.
  induction ns as [|n ns IH]; intros tr pods Hp; cbn [pods_of_nodes].
  - simpl. split; [done|]. by intros l [= ->].
  - cbn [pbind call wp]. split; [done|]. intros [l|err]; [|split; [apply sub_snoc|done]].
    eapply wp_mono; [apply IH|].
    + assert (Hl : pods_listed (tr ++ [Ev (LeafListPods (PodsOnNode (kn_Name n))) (inl l)]) l).
      { exists [(PodsOnNode (kn_Name n), l)]. simpl. rewrite app_nil_r. split; [done|]. repeat constructor. apply elem_snoc. }
      destruct pods as [l0|]; [|done]. apply (pods_listed_mono _ _ _ (sub_snoc tr (Ev (LeafListPods (PodsOnNode (kn_Name n))) (inl l)))) in Hp.
      destruct Hp as (p0 & -> & H0), Hl as (p1 & -> & H1). exists (p0 ++ p1). rewrite map_app, concat_app. split; [done|].
      by apply Forall_app.
    + intros tr' r [Hs Hr]. split; [|done]. trans (tr ++ [Ev (LeafListPods (PodsOnNode (kn_Name n))) (inl l)]); [apply sub_snoc|done].
Qed.

Lemma wp_GetLeafPods tr n sel :
  W tr (GetLeafPods h n sel) (fun tr' r => tr `sublist_of` tr' /\ forall l, r = inl (Some l) -> pods_listed tr' l).
Proof.
  assert (Hone : forall f, W tr (pbind (call (LeafListPods f)) (fun r => Done match r with inl pods => inl (Some pods) | inr err => inr err end))
    (fun tr' r => tr `sublist_of` tr' /\ forall l, r = inl (Some l) -> pods_listed tr' l)).
  { intros f. simpl. split; [done|]. intros [l|err]; (split; [apply sub_snoc|]); [|done]. intros l' [= ->].
    exists [(f, l')]. simpl. rewrite app_nil_r. split; [done|]. repeat constructor. apply elem_snoc. }
  unfold GetLeafPods. destruct (h_leafMode h); [|apply Hone..].
  unfold GetLeafNodes. cbn [pbind call wp]. split; [by destruct (h_leafMode h)|]. intros [ns|err]; [|split; [apply sub_snoc|done]].
  eapply wp_mono; [by apply wp_pods_of_nodes|]. intros tr' r [Hs Hr]. split; [|done].
  eapply transitivity; [apply sub_snoc|exact Hs].
Qed.

Lemma wp_GetAddress tr a : W tr (GetAddress sort_Slice preferred_type leaf_node_ip a) (fun tr' _ => tr `sublist_of` tr').
Proof. unfold GetAddress, SortAddress. simpl. split; [done|]. intros r. apply sub_snoc. Qed.

Definition ready_in (cs : list NodeCondition) : bool := any (fun c => (cond_Type c =s "Ready") && (cond_Status c =s "True")) cs.

(** Conditions that say ready only with reason. *)
Definition conditions_ok (conditions : prog (list NodeCondition)) : Prop :=
  forall tr, W tr conditions (fun tr' cs => tr `sublist_of` tr' /\ (notready = true -> ready_in cs = true -> control_plane_ready tr')).

Definition collected (name : string) (leaf : KubeNode) (leaves : list KubeNode) (rootCopy : KubeNode) (tr : list event) (n : KubeNode) : Prop :=
  exists current, n = set_node_status (kn_Status n) (set_version (kn_ResourceVersion current) rootCopy) /\
    (current = rootCopy \/ Ev (RootGetNode name) (Found current) ∈ tr) /\
    if bool_decide (h_leafMode h = Node) then kn_Status n = kn_Status leaf
    else exists pods, pods_listed tr pods /\ kn_Allocatable n = CalculateClusterResources PodRequestsAndLimits range leaves pods /\
           ns_Capacity (kn_Status n) = kn_Allocatable n /\ (notready = true -> NodeReady n = true -> control_plane_ready tr).

Lemma set_version_same n : set_version (kn_ResourceVersion n) n = n.
Proof. by destruct n. Qed.

Lemma wp_collect tr name sel leaf others conditions rootCopy : conditions_ok conditions ->
  W tr (collect_status range PodRequestsAndLimits h name sel (leaf :: others) conditions rootCopy)
    (fun tr' r => tr `sublist_of` tr' /\ forall n, r = inr n -> collected name leaf (leaf :: others) rootCopy tr' n).
Proof.
  intros Hc. unfold collect_status, collected. case_bool_decide as Hm.
  - simpl. split; [done|]. intros n [= <-]. exists rootCopy. rewrite set_version_same. split; [done|]. split; [by left|done].
  - eapply wp_seq; [apply Hc|]. intros tr1 cs [S1 Hcs]. eapply wp_seq; [apply wp_GetLeafPods|]. intros tr2 r [S2 Hp].
    assert (S12 : tr `sublist_of` tr2) by by trans tr1.
    destruct r as [pods|err]; [|by simpl]. cbn [pbind call wp]. split; [done|]. intros g.
    set (e := Ev (RootGetNode name) g). assert (S3 : tr2 `sublist_of` tr2 ++ [e]) by apply sub_snoc.
    destruct g as [current|err|err]; [|split; [by trans tr2|done]..]. apply wp_bind, wp_pure. intros l El.
    split; [by trans tr2|]. intros n [= <-]. exists current. split; [done|]. split; [right; apply elem_snoc|].
    exists l. destruct pods as [l'|]; [|done]. injection El as ->. split; [eapply pods_listed_mono; [exact S3|by apply Hp]|].
    split; [done|]. split; [done|]. intros Hn Hr. eapply control_plane_ready_mono; [|by apply (Hcs Hn)]. by trans tr2.
Qed.

(** The calls of an attempt after the host node was read. *)
Lemma wp_update_from_leaf tr name filter conditions old : conditions_ok conditions ->
  name ∈ map kn_Name nodes -> leaf_filter h selectors name = Some filter -> Ev (RootGetNode name) (Found old) ∈ tr ->
  W tr (update_from_leaf range PodRequestsAndLimits sort_Slice preferred_type leaf_node_ip h name (selector_of selectors name) filter conditions old)
    (fun tr' _ => tr `sublist_of` tr').
Proof.
  intros Hc Hname Hf Hold. unfold update_from_leaf. cbn [pbind call wp]. split; [done|]. intros r.
  set (e := Ev (LeafListNodes filter) r). assert (S0 : tr `sublist_of` tr ++ [e]) by apply sub_snoc.
  destruct r as [[|leaf others]|err]; [done| |done].
  eapply wp_seq; [by apply wp_collect|]. intros tr1 r [S1 Hn]. assert (S01 : tr `sublist_of` tr1) by by trans (tr ++ [e]).
  destruct r as [err|n]; [done|]. eapply wp_seq; [apply wp_GetAddress|]. intros tr2 a S2.
  assert (S02 : tr `sublist_of` tr2) by by trans tr1. destruct a as [addresses|err]; [|done].
  assert (He : Ev (LeafListNodes filter) (inl (leaf :: others)) ∈ tr2).
  { apply (sublist_elem (tr ++ [e])); [by trans tr1|apply elem_snoc]. }
  destruct (Hn n eq_refl) as (current & En & Hcur & Hst).
  cbn [pbind call wp]. split.
  - exists name, old, current. split; [done|]. split; [by eapply sublist_elem|].
    split; [destruct Hcur as [->|Hcur]; [by apply (sublist_elem tr)|by apply (sublist_elem tr1)]|]. split; [rewrite En; done|].
    right. case_bool_decide as Hm.
    + left. split; [done|]. assert (filter = NodeByName name) as -> by (unfold leaf_filter in Hf; rewrite Hm in Hf; congruence).
      exists leaf, others, addresses. split; [done|]. simpl. by rewrite Hst.
    + right. split; [done|]. destruct Hst as (pods & Hp & Ha & Hcap & Hr). exists filter, (leaf :: others), pods.
      split; [done|]. split; [done|]. split; [by apply (pods_listed_mono tr1)|]. split; [exact Ha|]. split; [exact Hcap|].
      intros Hnr Hready. eapply control_plane_ready_mono; [exact S2|]. by apply Hr.
  - intros err. set (e' := Ev _ err). assert (S3 : tr `sublist_of` tr2 ++ [e']) by (trans tr2; [done|apply sub_snoc]).
    destruct err; try done. case_bool_decide as Hm; [|done]. cbn [pbind call wp updateTaints]. split.
    + split; [done|]. assert (filter = NodeByName name) as -> by (unfold leaf_filter in Hf; rewrite Hm in Hf; congruence).
      exists name, leaf, others. split; [done|]. split; [|done]. eapply sublist_elem; [apply sub_snoc|done].
    + intros err. eapply transitivity; [exact S3|apply sub_snoc].
Qed.

(** ** The attempts *)

Lemma conditions_ok_plain : notready = false -> conditions_ok (let! now := call Now in Done (NodeConditions now)).
Proof. intros Hn tr. simpl. split; [done|]. intros now. split; [apply sub_snoc|]. by rewrite Hn. Qed.

Lemma conditions_ok_masters : conditions_ok checkAllMasterNodesNotReady.
Proof.
  intros tr. unfold checkAllMasterNodesNotReady. cbn [pbind call wp]. split; [done|]. intros r.
  destruct (forallb _ _) eqn:Hf; [split; [apply sub_snoc|done]|]. cbn [pbind call wp]. split; [done|]. intros now.
  split; [rewrite <- app_assoc; by apply sublist_inserts_r|]. intros _ _.
  destruct r as [ms|err]; [|done]. rewrite <- not_true_iff_false, forallb_forall in Hf.
  destruct (decide (Exists (fun m => NodeReady m = true) ms)) as [He|He].
  - apply Exists_exists in He as (m & Hm & Hr). exists ms, m. split; [|split; [by apply list_elem_of_In|done]].
    apply elem_of_app. left. apply elem_snoc.
  - destruct Hf. intros m Hm. apply negb_true_iff, not_true_iff_false. intros Hr. apply He, Exists_exists. eauto.
Qed.

Lemma retry_wp {S} (I : list event -> Prop) (fn : S -> prog (apierr * S)) : (forall tr s, I tr -> W tr (fn s) (fun tr' _ => I tr')) ->
  forall n s tr, I tr -> W tr (retry_state n fn s) (fun tr' _ => I tr').
Proof.
  intros Hf. induction n as [|n IH]; intros s tr Hi; cbn [retry_state]; [done|].
  eapply wp_seq; [by apply Hf|]. intros tr' [err s'] Hi'. destruct err; try done. destruct (n =? 0); [done|]. by apply IH.
Qed.

Lemma wp_try_status tr name filter : notready = false -> name ∈ map kn_Name nodes -> leaf_filter h selectors name = Some filter ->
  W tr (try_status range PodRequestsAndLimits sort_Slice preferred_type leaf_node_ip h selectors name filter) (fun _ _ => True).
Proof.
  intros Hn Hname Hf. unfold try_status. cbn [pbind call wp]. split; [done|]. intros [old|err|err]; [|done..].
  eapply wp_mono; [apply wp_update_from_leaf|done]; [by apply conditions_ok_plain|done|done|apply elem_snoc].
Qed.

(** A node that is set not ready gets the observed conditions. *)
Lemma offline_conditions c cluster n online f s now conds c' :
  thresholdAdjustedReadyCondition c cluster n (getObservedReadyStatus online) f s now = Ret (conds, c') ->
  still_offline online conds = Ret true -> online = false /\ ready_in conds = false.
Proof.
  unfold thresholdAdjustedReadyCondition. destruct online; [done|]. cbn [getObservedReadyStatus negb].
  destruct (c !! cluster); [|by intros [= <- _]]. simpl.
  destruct (FindStatusCondition (kn_Conditions n)) as [cur|] eqn:E; [|done]. cbn [deref mbind outcome_bind].
  unfold changes. rewrite (bool_decide_false ("False" = "True")) by done. simpl.
  destruct (cond_Status cur =s "True") eqn:Et; simpl; [|by intros [= <- _]].
  destruct (_ <? _)%Z; [|by intros [= <- _]]. intros [= <- _]. unfold still_offline. rewrite E. cbn [deref mbind outcome_bind].
  by rewrite Et.
Qed.

Lemma wp_try_not_ready tr name filter c : name ∈ map kn_Name nodes -> leaf_filter h selectors name = Some filter ->
  W tr (try_status_not_ready range PodRequestsAndLimits sort_Slice preferred_type leaf_node_ip h selectors name filter c) (fun _ _ => True).
Proof.
  intros Hname Hf. unfold try_status_not_ready. cbn [pbind call wp]. split; [done|]. intros [old|err|err]; [|done..].
  split; [done|]. intros online. split; [done|]. intros now.
  set (tr' := ((_ ++ _) ++ _) ++ _).
  assert (Hold : Ev (RootGetNode name) (Found old) ∈ tr') by (subst tr'; rewrite !elem_of_app; left; left; right; by left).
  apply wp_bind, wp_pure. intros [conds c'] Et. apply wp_bind, wp_pure. intros offline Eo. destruct offline.
  - destruct (offline_conditions _ _ _ _ _ _ _ _ _ Et Eo) as [-> Hr]. cbn [pbind call wp]. split; [|done].
    exists name, old, old. split; [done|]. split; [done|]. split; [done|]. split; [by rewrite set_version_same|].
    left. split; [|exact Hr]. subst tr'. rewrite !elem_of_app. left. right. by left.
  - eapply wp_seq; [apply wp_update_from_leaf; [apply conditions_ok_masters|done|done|exact Hold]|]. done.
Qed.

Lemma wp_status_loop ns : ns ⊆ nodes -> notready = false -> forall tr,
  W tr (UpdateRootNodeStatus range PodRequestsAndLimits sort_Slice preferred_type leaf_node_ip h ns selectors) (fun _ _ => True).
Proof.
  induction ns as [|n ns IH]; intros Hsub Hn tr; cbn [UpdateRootNodeStatus]; [done|].
  assert (Hname : kn_Name n ∈ map kn_Name nodes) by (apply list_elem_of_fmap_2, Hsub; by left).
  assert (Hsub' : ns ⊆ nodes) by (intros x Hx; apply Hsub; by right).
  destruct (leaf_filter h selectors (kn_Name n)) as [filter|] eqn:Hf; [|by apply IH].
  eapply wp_seq; [apply (retry_wp (fun _ => True)); [|done]|].
  - intros tr' s _. eapply wp_seq; [by apply wp_try_status|done].
  - intros tr' [err s] _. eapply wp_seq; [by apply IH|]. done.
Qed.

Lemma wp_not_ready_loop ns : ns ⊆ nodes -> forall c tr,
  W tr (UpdateRootNodeStatusAddNotready range PodRequestsAndLimits sort_Slice preferred_type leaf_node_ip h ns selectors c) (fun _ _ => True).
Proof.
  induction ns as [|n ns IH]; intros Hsub c tr; cbn [UpdateRootNodeStatusAddNotready]; [done|].
  assert (Hname : kn_Name n ∈ map kn_Name nodes) by (apply list_elem_of_fmap_2, Hsub; by left).
  assert (Hsub' : ns ⊆ nodes) by (intros x Hx; apply Hsub; by right).
  destruct (leaf_filter h selectors (kn_Name n)) as [filter|] eqn:Hf; [|by apply IH].
  eapply wp_seq; [apply (retry_wp (fun _ => True)); [|done]|].
  - intros tr' s _. by apply wp_try_not_ready.
  - intros tr' [err s] _. eapply wp_seq; [by apply IH|]. by intros ? [].
Qed.

(** What the status controller writes, whatever the clusters answer. It changes only
the status of the nodes it was started for, from a version it has read. In node mode the
status is that of the leaf node of the same name, addresses apart, and the taints are
those of that node and the leaf taint. Otherwise the node is set not ready after a failed
health check, or its resources are those calculated from the nodes and pods the leaf
cluster listed; when the watch on failures is on, it is reported ready only if a node of
the control plane was found ready. *)
Theorem status_written (cache : clusterConditionStore) (tr : list event) (res : option clusterConditionStore) :
  exec (syncNodeStatus range PodRequestsAndLimits sort_Slice preferred_type leaf_node_ip h notready nodes selectors cache) tr res ->
  forall pre e post, tr = pre ++ e :: post -> status_allowed pre (ev_op e).
Proof.
  intros He. apply (wp_sound status_allowed status_allowed_mono _ _ _ He [] (fun _ _ => True)). unfold syncNodeStatus.
  destruct notready eqn:En.
  - eapply wp_seq; [by apply wp_not_ready_loop|]. by intros ? [].
  - eapply wp_seq; [by apply wp_status_loop|]. done.
Qed.
End Written.

Definition status_answers (op : Op) : resp op :=
  match op as o return resp o with
  | RootGetNode name => Found (BuildNodeTemplate name 0)
  | RootListHostNodes => inl [ready_node "host" 4]
  | LeafListNodes _ => inl [ready_node "n1" 4]
  | LeafListPods _ => inl [pod_on "n1"]
  | o => good_answers (NotFound EmptyString) (NotFound EmptyString) o
  end.

Definition witness_status : prog clusterConditionStore :=
  syncNodeStatus map_to_list (fun _ => ({["cpu" := 1%Z]}, ∅)) (fun _ l => l) EmptyString "10.0.0.9" (mkHandler ALL witness_cluster) true
    [BuildNodeTemplate "kosmos-c1" 0] ∅ ∅.

(** A run that writes the resources of a healthy cluster. *)
Lemma status_written_witness : exists pre n post,
  fst (run status_answers witness_status) = pre ++ Ev (RootUpdateNodeStatus n) NoError :: post /\ kn_Allocatable n !! "cpu" = Some 3%Z /\
  status_allowed map_to_list (fun _ => ({["cpu" := 1%Z]}, ∅)) (mkHandler ALL witness_cluster) true [BuildNodeTemplate "kosmos-c1" 0] ∅
    pre (RootUpdateNodeStatus n).
Proof.
  set (tr := fst (run status_answers witness_status)).
  assert (E : exists pre n post, tr = pre ++ Ev (RootUpdateNodeStatus n) NoError :: post /\ kn_Allocatable n !! "cpu" = Some 3%Z).
  { let t := eval vm_compute in tr in
    match t with context [?e :: []] => match e with Ev (RootUpdateNodeStatus ?n) _ => exists (removelast tr), n, [] end end.
    split; vm_compute; reflexivity. }
  destruct E as (pre & n & post & E & Hn). exists pre, n, post. split; [done|]. split; [done|].
  apply (status_written map_to_list (fun _ => ({["cpu" := 1%Z]}, ∅)) (fun _ l => l) EmptyString "10.0.0.9" (mkHandler ALL witness_cluster) true
    [BuildNodeTemplate "kosmos-c1" 0] ∅ ∅ tr _ (run_exec status_answers witness_status) pre (Ev (RootUpdateNodeStatus n) NoError) post E).
Defined.

(** A name that is cut at 63 bytes loses the number of its model: the nodes of two models
get the same name. *)
Example root_node_name_collides :
  let long := mkLeafModel "a-name-of-a-leaf-node-that-takes-up-all-the-room-of-a-host-name" (mkNodeSelector EmptyString (Some (mkSelector (Some {["a" := "b"]}) None))) in
  root_node_name Party long 0 = root_node_name Party long 1.
Proof. reflexivity. Qed.
