(* ===== verification/ClusterManager.v ===== *)
(** The cluster controller: clustertree/cluster-manager/cluster_controller.go.

Its state is the set of clusters with a running manager ([ControllerManagers] and
[ManagerCancelFuncs]) and the two registries of leaf clusters; [Reconcile] passes it
along. The constructors of clients, managers and controllers are calls that may fail. *)
From S2P Require Import LinkVxlan Prelude GoStr PodApi LeafManager PodFit NodeResources PodEnv PodProg PodStorage PodControllers PodSafety PodProgress LeafStatus LeafNodes.
Open Scope prog_scope.

Record ClusterController := mkController {
  cc_running : gmap string unit; cc_leaves : resourceMap; cc_clients : gmap string unit }.

Definition ControllerFinalizerName : string := "kosmos.io/cluster-manager".

Definition cluster_name (c : ManagedCluster) : string := lc_Name (mc_Cluster c).

Definition set_finalizers (l : list string) (c : ManagedCluster) : ManagedCluster :=
  mkManaged (mc_Cluster c) (mc_Kubeconfig c) (mc_DeletionTimestamp c) l (mc_Enable c) (mc_IPFamily c) (mc_Rest c).

(** [controllerutil.ContainsFinalizer], [AddFinalizer], [RemoveFinalizer] *)
Definition ContainsFinalizer (c : ManagedCluster) : bool := any (fun f => f =s ControllerFinalizerName) (mc_Finalizers c).
Definition AddFinalizer (c : ManagedCluster) : ManagedCluster := set_finalizers (mc_Finalizers c ++ [ControllerFinalizerName]) c.
Definition RemoveFinalizer (c : ManagedCluster) : ManagedCluster :=
  set_finalizers (List.filter (fun f => negb (f =s ControllerFinalizerName)) (mc_Finalizers c)) c.

(** The manager of the cluster is stopped and the cluster forgotten. *)
Definition clear_state (c : ManagedCluster) (st : ClusterController) : ClusterController :=
  mkController (delete (cluster_name c) (cc_running st)) (RemoveLeafResource (cc_leaves st) (cluster_name c))
    (RemoveLeafClientResource (cc_clients st) (GetActualClusterName (mc_Cluster c))).

Definition clearClusterControllers (c : ManagedCluster) (st : ClusterController) : prog ClusterController :=
  let! _ := (match cc_running st !! cluster_name c with Some _ => call (CancelManager (cluster_name c)) | None => Done tt end) in
  Done (clear_state c st).

(** The node that is deleted has the name of the cluster. *)
Definition deleteNode (c : ManagedCluster) : prog (option string) :=
  let! err := call (RootDeleteNode (cluster_name c)) in
  Done (match err with IsNotFound _ => None | e => err_text e end).

Definition cluster_createNode (h : ClassificationHandler) (listenPort : Z) : prog (result (list KubeNode * gmap string NodeSelector)) :=
  let! v := call LeafServerVersion in
  match v with
  | inr err => Done (inr err)
  | inl gitVersion => CreateRootNode h listenPort gitVersion
  end.

(** Constructors in order; the first that fails gives the error. *)
Fixpoint build_all (what : list (string * string)) (kubeconfig cluster : string) : prog (option string) :=
  match what with
  | [] => Done None
  | (name, text) :: rest =>
      let! r := call (BuildClient name kubeconfig) in
      match r with
      | inr err => Done (Some (text +:+ cluster +:+ ": " +:+ err))
      | inl _ => build_all rest kubeconfig cluster
      end
  end.

Definition clients : list (string * string) :=
  [("kubeconfig", "could not build kubeconfig for cluster "); ("clientset", "could not build clientset for cluster ");
   ("dynamic", "could not build dynamic client for cluster "); ("kosmos", "could not build kosmos clientset for cluster ")].

Fixpoint setup_all (what : list (string * string)) : prog (option string) :=
  match what with
  | [] => Done None
  | (name, text) :: rest =>
      let! r := call (SetupController name) in
      match r with
      | inr err => Done (Some (text +:+ err))
      | inl _ => setup_all rest
      end
  end.

(** The controllers of a leaf cluster. *)
Definition leaf_controllers (multiClusterService : bool) : list (string * string) :=
  [("node-resources-controller", "error starting node-resources-controller: ");
   ("node-lease-controller", "error starting node-lease-controller: ")] ++
  (if multiClusterService then [("leaf-service-import-controller", "error starting leaf-service-import-controller: ")] else []) ++
  [("leaf-pod-controller", "error starting podUpstreamReconciler leaf-pod-controller: ");
   ("leaf-pvc-controller", "error starting leaf pvc controller "); ("leaf-pv-controller", "error starting leaf pv controller ")].

(** The resource that is registered: no namespace, and the labels to leave out are
[strings.Split("", ",")]. *)
Definition leaf_resource (c : ManagedCluster) : LeafResource :=
  mkLeafResource (mc_Cluster c) EmptyString (Some (Split comma EmptyString)) true [].

Definition register (c : ManagedCluster) (nodes : list KubeNode) (st : ClusterController) : outcome ClusterController :=
  _ ← deref (mc_IPFamily c);
  leaves ← AddLeafResource (cc_leaves st) (leaf_resource c) (map kn_Name nodes);
  Ret (mkController (cc_running st) leaves (AddLeafClientResource (cc_clients st) tt (mc_Cluster c))).

Section Controller.
Context (multiClusterService : bool) (listenPort : Z).

Definition setupControllers (c : ManagedCluster) (nodes : list KubeNode) (st : ClusterController) : prog (option string * ClusterController) :=
  let! st := pure (register c nodes st) in
  let! err := setup_all (leaf_controllers multiClusterService) in
  Done (err, st).

(** From the creation of the manager on. *)
Definition start_cluster (c : ManagedCluster) (st : ClusterController) : prog (ClusterController * Result) :=
  let! r := call (BuildClient "manager" (mc_Kubeconfig c)) in
  match r with
  | inr err => Done (st, ReturnsError ("new manager with err " +:+ err +:+ ", cluster " +:+ cluster_name c))
  | inl _ =>
      let! h := pure (NewLeafModelHandler (mc_Cluster c)) in
      let! r := cluster_createNode h listenPort in
      match r with
      | inr err => Done (st, ReturnsError ("create node with err " +:+ err +:+ ", cluster " +:+ cluster_name c))
      | inl (nodes, _) =>
          let st := mkController (<[cluster_name c := tt]> (cc_running st)) (cc_leaves st) (cc_clients st) in
          let! '(err, st) := setupControllers c (map (set_version EmptyString) nodes) st in
          match err with
          | Some err => Done (st, ReturnsError ("failed to setup cluster " +:+ cluster_name c +:+ " controllers: " +:+ err))
          | None => let! _ := call (StartManager (cluster_name c)) in Done (st, Finished)
          end
      end
  end.

(** A cluster that is being deleted. *)
Definition remove_cluster (c : ManagedCluster) : prog Result :=
  let! err := deleteNode c in
  match err with
  | Some err => Done (ReturnsError err)
  | None =>
      if ContainsFinalizer c then
        let! err := call (RootUpdateCluster (RemoveFinalizer c)) in
        Done (match err_text err with Some err => ReturnsError err | None => Finished end)
      else Done Finished
  end.

(** The error of adding the finalizer, if any, and the cluster. *)
Definition ensure_finalizer (c : ManagedCluster) : prog (result ManagedCluster) :=
  match mc_DeletionTimestamp c with
  | Some _ => Done (inl c)
  | None =>
      if ContainsFinalizer c then Done (inl c)
      else let! err := call (RootUpdateCluster (AddFinalizer c)) in
           Done (match err_text err with Some err => inr err | None => inl (AddFinalizer c) end)
  end.

Definition Cluster_Reconcile (name : string) (st : ClusterController) : prog (ClusterController * Result) :=
  let! g := call (RootGetCluster name) in
  match g with
  | NotFound _ => Done (st, Finished)
  | Failed err => Done (st, ReturnsError err)
  | Found c =>
      let! err := build_all clients (mc_Kubeconfig c) (cluster_name c) in
      match err with
      | Some err => Done (st, ReturnsError err)
      | None =>
          let! r := ensure_finalizer c in
          match r with
          | inr err => Done (st, ReturnsError err)
          | inl c =>
              let! st := clearClusterControllers c st in
              match mc_DeletionTimestamp c with
              | Some _ => let! r := remove_cluster c in Done (st, r)
              | None =>
                  let! enable := pure (deref (mc_Enable c)) in
                  if (enable : bool) then start_cluster c st else Done (st, Finished)
              end
          end
      end
  end.
End Controller.

(** Which events reach the controller; the timestamps are pointers of two objects. *)
Definition cluster_created (obj : LeafCluster) : bool := negb (IsRootCluster obj).
Definition cluster_updated (old obj : ManagedCluster) : bool :=
  if IsRootCluster (mc_Cluster obj) then false
  else negb (mc_Kubeconfig old =s mc_Kubeconfig obj) ||
       negb (bool_decide (mc_DeletionTimestamp old = None /\ mc_DeletionTimestamp obj = None)).

(** * The life of a cluster *)

(** The nodes a cluster has in the host cluster, by name. *)
Definition node_names (h : ClassificationHandler) : list string :=
  if bool_decide (h_leafMode h = ALL) then [KosmosNodePrefix +:+ lc_Name (h_Cluster h)]
  else imap (fun i model => root_node_name (h_leafMode h) model i) (default [] (lc_LeafModels (h_Cluster h))).

(** The node [n] was found under the name, or created with it. *)
Definition made (tr : list event) (name : string) (n : KubeNode) : Prop :=
  exists n', kn_Name n = kn_Name n' /\
    (Ev (RootGetNode name) (Found n') ∈ tr \/ exists n0, kn_Name n0 = name /\ Ev (RootCreateNode n0) (NoError, n') ∈ tr).

Lemma made_mono tr tr' name n : tr `sublist_of` tr' -> made tr name n -> made tr' name n.
Proof.
  intros Hs (n' & Hn & Hm). pose proof (fun e => sublist_elem tr tr' e Hs) as He. exists n'. split; [done|].
  destruct Hm as [Hm|(n0 & Hn0 & Hm)]; [left; auto|right; exists n0; auto].
Qed.

Lemma made_all_mono tr tr' names nodes : tr `sublist_of` tr' -> Forall2 (made tr) names nodes -> Forall2 (made tr') names nodes.
Proof. intros Hs H. eapply list.Forall2_impl; [exact H|]. intros. by eapply made_mono. Qed.

Abbreviation W0 := (wp P0).

Lemma wp_createNode tr c name v port mode :
  W0 tr (createNode c name v port mode) (fun tr' r => tr `sublist_of` tr' /\ forall n, r = inl n -> made tr' name n).
Proof.
  unfold createNode. cbn [pbind call wp]. split; [done|]. intros [n|err|err].
  - split; [apply sub_snoc|]. intros n' [= <-]. exists n. split; [done|]. left. apply elem_snoc.
  - cbn [pbind call wp]. split; [done|]. intros now. split; [done|]. intros [err' n].
    set (n0 := new_node _ _ _ _ _ _). split; [rewrite <- !app_assoc; by apply sublist_inserts_r|].
    destruct err'; simpl; try done. intros n' [= <-]. exists n. split; [done|]. right. exists n0. split; [done|].
    apply elem_snoc.
  - split; [apply sub_snoc|done].
Qed.

Lemma wp_create_models h port v models : forall i tr nodes sels names, Forall2 (made tr) names nodes ->
  W0 tr (create_models h port v i models nodes sels) (fun tr' r => tr `sublist_of` tr' /\
    forall nodes' sels', r = inl (nodes', sels') ->
      Forall2 (made tr') (names ++ imap (fun k model => root_node_name (h_leafMode h) model (i + k)) models) nodes').
Proof.
  induction models as [|model models IH]; intros i tr nodes sels names Hn; cbn [create_models].
  - simpl. split; [done|]. intros n' s' [= <- <-]. by rewrite app_nil_r.
  - eapply wp_seq; [apply wp_createNode|]. intros tr1 r [S1 Hr]. destruct r as [n|err]; [|by simpl].
    specialize (Hr n eq_refl). set (name := root_node_name _ _ _) in *.
    eapply (wp_seq _ _ _ _ (fun tr' n' => tr1 `sublist_of` tr' /\ kn_Name n' = kn_Name n)).
    + case_bool_decide; [|done]. apply wp_bind, wp_pure. intros a _. done.
    + intros tr2 n' [S2 Hname]. eapply wp_mono; [apply (IH (S i) tr2 _ _ (names ++ [name]))|].
      * apply Forall2_app; [eapply made_all_mono; [|exact Hn]; by trans tr1|]. constructor; [|constructor].
        destruct (made_mono _ _ _ _ S2 Hr) as (n0 & Hn0 & Hm). exists n0. split; [congruence|done].
      * intros tr' r [S3 Hr']. split; [trans tr1; [done|]; by trans tr2|]. intros nodes' sels' ->. specialize (Hr' _ _ eq_refl).
        rewrite <- app_assoc in Hr'. cbn [app] in Hr'. simpl. rewrite Nat.add_0_r. fold name.
        replace (imap _ models) with (imap (fun k model0 => root_node_name (h_leafMode h) model0 (S i + k)) models); [done|].
        apply imap_ext. intros k x _. simpl. by rewrite Nat.add_succ_r.
Qed.

Lemma wp_CreateRootNode tr h port v :
  W0 tr (CreateRootNode h port v) (fun tr' r => tr `sublist_of` tr' /\
    forall nodes sels, r = inl (nodes, sels) -> Forall2 (made tr') (node_names h) nodes).
Proof.
  unfold CreateRootNode, node_names. case_bool_decide as Hm.
  - eapply wp_seq; [apply wp_createNode|]. intros tr1 r [S1 Hr]. simpl. split; [done|]. destruct r as [n|err]; [|done].
    intros nodes sels [= <- _]. constructor; [by apply Hr|constructor].
  - eapply wp_mono; [by apply (wp_create_models _ _ _ _ 0 tr [] ∅ [])|]. done.
Qed.

(** ** What a finished reconciliation has done *)

(** Nothing runs for the cluster, and neither it nor its client is registered. *)
Definition forgotten (c : ManagedCluster) (st : ClusterController) : Prop :=
  cc_running st !! cluster_name c = None /\ cc_leaves st !! cluster_name c = None /\ cc_clients st !! GetActualClusterName (mc_Cluster c) = None.

Definition cleared (c : ManagedCluster) (st : ClusterController) (tr : list event) (st' : ClusterController) : Prop :=
  st' = clear_state c st /\ forgotten c st' /\ (cc_running st !! cluster_name c <> None -> Ev (CancelManager (cluster_name c)) tt ∈ tr).

Definition removed_ok (c : ManagedCluster) (tr : list event) : Prop :=
  (exists r, Ev (RootDeleteNode (cluster_name c)) r ∈ tr /\ (r = NoError \/ exists msg, r = IsNotFound msg)) /\
  (ContainsFinalizer c = true -> Ev (RootUpdateCluster (RemoveFinalizer c)) NoError ∈ tr).

Definition started_ok (c : ManagedCluster) (st : ClusterController) (tr : list event) (st' : ClusterController) : Prop :=
  exists h nodes, NewLeafModelHandler (mc_Cluster c) = Ret h /\ Forall2 (made tr) (node_names h) nodes /\
    register c nodes (mkController (<[cluster_name c := tt]> (cc_running st)) (cc_leaves st) (cc_clients st)) = Ret st' /\
    Ev (StartManager (cluster_name c)) tt ∈ tr.

Lemma register_names c nodes nodes' st : map kn_Name nodes = map kn_Name nodes' -> register c nodes st = register c nodes' st.
Proof. intros H. unfold register. by rewrite H. Qed.

Lemma wp_keeps_setup what : forall tr, W0 tr (setup_all what) (fun tr' _ => tr `sublist_of` tr').
Proof.
  induction what as [|[name text] what IH]; intros tr; cbn [setup_all]; [simpl; reflexivity|]. cbn [pbind call wp]. split; [done|].
  intros [[]|err]; [|apply sub_snoc]. eapply wp_mono; [apply IH|]. intros tr' ? Hs. eapply transitivity; [apply sub_snoc|exact Hs].
Qed.

Lemma wp_build_all what kubeconfig cluster : forall tr, W0 tr (build_all what kubeconfig cluster) (fun tr' _ => tr `sublist_of` tr').
Proof.
  induction what as [|[name text] what IH]; intros tr; cbn [build_all]; [simpl; reflexivity|]. cbn [pbind call wp]. split; [done|].
  intros [[]|err]; [|apply sub_snoc]. eapply wp_mono; [apply IH|]. intros tr' ? Hs. eapply transitivity; [apply sub_snoc|exact Hs].
Qed.

Lemma wp_start multi port c st tr :
  W0 tr (start_cluster multi port c st) (fun tr' '(st', r) => tr `sublist_of` tr' /\ (r = Finished -> started_ok c st tr' st')).
Proof.
  unfold start_cluster. cbn [pbind call wp]. split; [done|]. intros r. set (tr1 := tr ++ [_]).
  assert (S1 : tr `sublist_of` tr1) by apply sub_snoc. destruct r as [[]|err]; [|split; [done|discriminate]].
  apply wp_bind, wp_pure. intros h Hh. unfold cluster_createNode. cbn [pbind call wp]. split; [done|]. intros v.
  set (tr2 := tr1 ++ [_]). assert (S2 : tr `sublist_of` tr2) by (trans tr1; [done|apply sub_snoc]).
  destruct v as [v|err]; [|split; [done|discriminate]]. eapply wp_seq; [apply wp_CreateRootNode|]. intros tr3 r [S3 Hr].
  assert (S03 : tr `sublist_of` tr3) by by trans tr2. destruct r as [[nodes sels]|err]; [|split; [done|discriminate]].
  unfold setupControllers. apply wp_bind, wp_bind, wp_pure. intros st' Hst. apply wp_bind.
  eapply wp_mono; [apply (wp_keeps_setup (leaf_controllers multi) tr3)|]. intros tr4 err S4.
  assert (S04 : tr `sublist_of` tr4) by by trans tr3. cbn [wp]. destruct err as [err|]; [split; [done|discriminate]|].
  cbn [pbind call wp]. split; [done|]. intros []. set (tr5 := tr4 ++ [_]). assert (S5 : tr4 `sublist_of` tr5) by apply sub_snoc.
  split; [by trans tr4|]. intros _. exists h, nodes. split; [done|].
  split; [eapply made_all_mono; [|by eapply Hr]; by trans tr4|]. split; [|apply elem_snoc].
  rewrite <- Hst. apply register_names. by rewrite map_map.
Qed.

(** The state after a reconciliation that ends without an error and without a retry. *)
Definition lifecycle (name : string) (st : ClusterController) (tr : list event) (st' : ClusterController) : Prop :=
  (exists msg, Ev (RootGetCluster name) (NotFound msg) ∈ tr /\ st' = st) \/
  (exists c, Ev (RootGetCluster name) (Found c) ∈ tr /\
     (forall other, other <> cluster_name c -> cc_leaves st' !! other = cc_leaves st !! other /\ cc_running st' !! other = cc_running st !! other) /\
     match mc_DeletionTimestamp c with
     | Some _ => cleared c st tr st' /\ removed_ok c tr
     | None =>
         (ContainsFinalizer c = false -> Ev (RootUpdateCluster (AddFinalizer c)) NoError ∈ tr) /\
         match mc_Enable c with
         | Some true => exists st1, cleared c st tr st1 /\ started_ok c st1 tr st'
         | Some false => cleared c st tr st'
         | None => False
         end
     end).

Lemma clear_forgets c st : forgotten c (clear_state c st).
Proof. unfold forgotten. simpl. unfold RemoveLeafResource, RemoveLeafClientResource. by rewrite !lookup_delete_eq. Qed.

Lemma wp_clear tr c st :
  W0 tr (clearClusterControllers c st) (fun tr' st' => tr `sublist_of` tr' /\ cleared c st tr' st').
Proof.
  unfold clearClusterControllers, cleared. destruct (cc_running st !! cluster_name c); simpl.
  - split; [done|]. intros []. split; [apply sub_snoc|]. split; [done|]. split; [apply clear_forgets|]. intros _. apply elem_snoc.
  - split; [done|]. split; [done|]. split; [apply clear_forgets|]. by intros [].
Qed.

Lemma cleared_mono tr tr' c st st' : tr `sublist_of` tr' -> cleared c st tr st' -> cleared c st tr' st'.
Proof. intros Hs (-> & Hf & H). split; [done|]. split; [done|]. intros Hn. eapply sublist_elem; [exact Hs|by apply H]. Qed.

Lemma wp_remove tr c : W0 tr (remove_cluster c) (fun tr' r => tr `sublist_of` tr' /\ (r = Finished -> removed_ok c tr')).
Proof.
  unfold remove_cluster, deleteNode. cbn [pbind call wp]. split; [done|]. intros r. set (e := Ev (RootDeleteNode _) r).
  assert (S1 : tr `sublist_of` tr ++ [e]) by apply sub_snoc.
  destruct (match r with IsNotFound _ => None | e => err_text e end) as [err|] eqn:Er; [split; [done|discriminate]|].
  assert (Hr : r = NoError \/ exists msg, r = IsNotFound msg) by (destruct r; simplify_eq/=; eauto).
  destruct (ContainsFinalizer c) eqn:Ef; simpl.
  - split; [done|]. intros err. split; [rewrite <- app_assoc; by apply sublist_inserts_r|]. destruct err; try discriminate. intros _.
    split; [|intros _; apply elem_snoc]. exists r. split; [|done]. apply elem_of_app. left. apply elem_snoc.
  - split; [done|]. intros _. split; [exists r; split; [apply elem_snoc|done]|]. by rewrite Ef.
Qed.

Lemma clear_others c st other : other <> cluster_name c ->
  cc_leaves (clear_state c st) !! other = cc_leaves st !! other /\ cc_running (clear_state c st) !! other = cc_running st !! other.
Proof. intros H. simpl. unfold RemoveLeafResource. by rewrite !lookup_delete_ne. Qed.

Lemma started_others c st tr st' other : other <> cluster_name c -> started_ok c st tr st' ->
  cc_leaves st' !! other = cc_leaves st !! other /\ cc_running st' !! other = cc_running st !! other.
Proof.
  intros H (h & nodes & _ & _ & Hr & _). unfold register, AddLeafResource in Hr.
  destruct (deref (mc_IPFamily c)); [|done]. cbn [mbind outcome_bind] in Hr.
  destruct (cluster_nodes _ _ _); [|done]. injection Hr as <-. simpl.
  by rewrite !lookup_insert_ne.
Qed.

Lemma wp_ensure_finalizer tr c :
  W0 tr (ensure_finalizer c) (fun tr' r => tr `sublist_of` tr' /\ forall c', r = inl c' ->
    (c' = c \/ mc_DeletionTimestamp c = None /\ c' = AddFinalizer c) /\
    (mc_DeletionTimestamp c = None -> ContainsFinalizer c = false -> Ev (RootUpdateCluster (AddFinalizer c)) NoError ∈ tr')).
Proof.
  unfold ensure_finalizer. destruct (mc_DeletionTimestamp c) as [t|]; [split; [done|]; intros c' [= ->]; split; [by left|discriminate]|].
  destruct (ContainsFinalizer c); [split; [done|]; intros c' [= ->]; split; [by left|discriminate]|].
  cbn [pbind call wp]. split; [done|]. intros err. split; [apply sub_snoc|]. destruct err; simpl; try done.
  intros c' [= <-]. split; [by right|]. intros _ _. apply elem_snoc.
Qed.

(** The finalizer does not matter for what follows. *)
Lemma with_finalizer c c' : c' = c \/ mc_DeletionTimestamp c = None /\ c' = AddFinalizer c ->
  mc_Enable c' = mc_Enable c /\ mc_DeletionTimestamp c' = mc_DeletionTimestamp c /\
  (forall st tr st', cleared c' st tr st' -> cleared c st tr st') /\
  (forall st tr st', started_ok c' st tr st' -> started_ok c st tr st').
Proof. by intros [->|[_ ->]]. Qed.

Lemma wp_Cluster_Reconcile multi port name st :
  W0 [] (Cluster_Reconcile multi port name st) (fun tr '(st', r) => r = Finished -> lifecycle name st tr st').
Proof.
  unfold Cluster_Reconcile. cbn [pbind call wp]. split; [done|]. intros [c|msg|msg]; [| |discriminate].
  2: { intros _. left. exists msg. split; [by left|done]. }
  set (tr0 := [] ++ _). assert (H0 : Ev (RootGetCluster name) (Found c) ∈ tr0) by by left. clearbody tr0.
  eapply wp_seq; [apply wp_build_all|]. intros tr1 err S1. destruct err as [err|]; [discriminate|].
  eapply wp_seq; [apply wp_ensure_finalizer|]. intros tr2 r [S2 Hr]. destruct r as [c'|err]; [|discriminate].
  destruct (Hr c' eq_refl) as [Hc' Hf]. destruct (with_finalizer _ _ Hc') as (E1 & E2 & E3 & E4).
  eapply wp_seq; [apply wp_clear|]. intros tr3 st1 [S3 Hcl%E3]. rewrite E2.
  assert (Hst1 : st1 = clear_state c st) by apply Hcl. assert (S03 : tr0 `sublist_of` tr3) by (trans tr1; [done|]; by trans tr2).
  destruct (mc_DeletionTimestamp c) eqn:Ed.
  - destruct Hc' as [->|[? _]]; [|done].
    eapply wp_seq; [apply wp_remove|]. intros tr4 r [S4 Hrm]. cbn [wp]. intros ->. right. exists c.
    split; [apply (sublist_elem tr0); [by trans tr3|done]|]. split; [subst st1; apply clear_others|]. rewrite Ed.
    split; [by eapply cleared_mono|]. by apply Hrm.
  - rewrite E1. apply wp_bind, wp_pure. intros enable He. assert (Een : mc_Enable c = Some enable) by (destruct (mc_Enable c); by simplify_eq/=).
    destruct enable.
    + eapply wp_mono; [apply wp_start|]. intros tr4 [st2 r] [S4 Hs]. intros ->. specialize (E4 _ _ _ (Hs eq_refl)). right. exists c.
      split; [apply (sublist_elem tr0); [by trans tr3|done]|]. split.
      { intros other Ho. destruct (started_others _ _ _ _ _ Ho E4) as [-> ->]. subst st1. by apply clear_others. }
      rewrite Ed, Een. split; [intros Hfin; apply (sublist_elem tr2); [by trans tr3|by apply Hf]|]. exists st1.
      split; [by eapply cleared_mono|done].
    + intros _. right. exists c. split; [by apply (sublist_elem tr0)|]. split; [subst st1; apply clear_others|]. rewrite Ed, Een.
      split; [intros Hfin; apply (sublist_elem tr2); [done|by apply Hf]|]. done.
Qed.

(** C14: the life of a cluster. Whatever the clusters answer, a reconciliation that ends
without an error leaves the entries of other clusters as they were, and: a cluster that
is gone changes nothing; a cluster that is being deleted is stopped, forgotten and
loses its finalizer after the node of its name was deleted; a cluster that is switched
off is stopped and forgotten but keeps its finalizer; and a cluster that is on has the
finalizer, runs, and is registered with exactly the nodes its leaf models ask for, each
found or created in the host cluster. *)
Theorem cluster_lifecycle (multiClusterService : bool) (listenPort : Z) (name : string) (st st' : ClusterController) (tr : list event) :
  exec (Cluster_Reconcile multiClusterService listenPort name st) tr (Some (st', Finished)) -> lifecycle name st tr st'.
Proof.
  intros He. destruct (wp_sound P0 (fun _ _ _ _ _ => I) _ _ _ He _ _ (wp_Cluster_Reconcile _ _ name st)) as [_ H].
  by apply (H _ eq_refl).
Qed.

(** ** Where the controller does less *)

(** The nodes of a cluster stay when it is deleted: the one that is deleted has the name
of the cluster, and the node of the cluster has a prefix. *)
Lemma node_stays (c : LeafCluster) : lc_Name c ∉ node_names (mkHandler ALL c).
Proof.
  unfold node_names. rewrite bool_decide_true by done. simpl. rewrite list_elem_of_singleton. intros H.
  apply (f_equal String.length) in H. rewrite str_length_app in H. simpl in H. lia.
Qed.

(** Two clusters that stand for one actual cluster share a client; when one of them is
cleared, the client is gone while the other is still registered. *)
Example shared_client_lost :
  let labels : smap := {[KosmosActualClusterName := "big"]} in
  let c1 := mkManaged (mkLeafCluster "c1" labels ∅ None) EmptyString None [] (Some true) (Some EmptyString) EmptyString in
  let c2 := mkManaged (mkLeafCluster "c2" labels ∅ None) EmptyString None [] (Some true) (Some EmptyString) EmptyString in
  let st := mkController ∅ ∅ ∅ in
  exists st2 lr, (st1 ← register c1 [] st; register c2 [] st1) = Ret st2 /\
    GetLeafResource (cc_leaves (clear_state c1 st2)) "c2" = inl lr /\
    GetLeafClientResource (cc_clients (clear_state c1 st2)) (GetActualClusterName (lr_Cluster lr)) =
      inr "cannot get leaf client resource, actualClusterName: big".
Proof. eexists _, _. split; [|split]; vm_compute; reflexivity. Qed.

Definition witness_managed : ManagedCluster :=
  mkManaged witness_cluster EmptyString None [] (Some true) (Some "all") EmptyString.
Definition cluster_answers (op : Op) : resp op :=
  match op as o return resp o with
  | RootGetCluster _ => Found witness_managed
  | o => good_answers (NotFound EmptyString) (NotFound EmptyString) o
  end.

(** A new cluster is registered and its node can be found. *)
Lemma cluster_lifecycle_witness : exists tr st',
  exec (Cluster_Reconcile false 10250 "c1" (mkController ∅ ∅ ∅)) tr (Some (st', Finished)) /\
  lifecycle "c1" (mkController ∅ ∅ ∅) tr st' /\ HasNode (fun _ => map_to_list) (cc_leaves st') "kosmos-c1" = true.
Proof.
  pose proof (run_exec cluster_answers (Cluster_Reconcile false 10250 "c1" (mkController ∅ ∅ ∅))) as He.
  assert (Hr : exists st', snd (run cluster_answers (Cluster_Reconcile false 10250 "c1" (mkController ∅ ∅ ∅))) = Some (st', Finished) /\
    HasNode (fun _ => map_to_list) (cc_leaves st') "kosmos-c1" = true) by (eexists; split; vm_compute; reflexivity).
  destruct Hr as (st' & Hr & Hn). rewrite Hr in He. eexists _, st'. split; [exact He|]. split; [|exact Hn].
  apply (cluster_lifecycle false 10250 "c1" _ _ _ He).
Defined.
