(* ===== verification/LeafVolumes.v ===== *)
(** Volumes and claims in host and leaf clusters: the controllers of
clustertree/cluster-manager/controllers/pv and controllers/pvc, utils/pvpvc.go, and the
one-way volumes of utils/podutils/es.go.

[oneway] is the annotation and the CSI driver of one-way storage, if that is in use (from
the environment). The creation of merge patches and the JSON text of a label selector are
parameters. Objects that the source mutates are returned. *)
From S2P Require Import LinkVxlan Prelude GoStr PodApi LeafManager PodFit PodEnv PodProg PodStorage PodControllers PodSafety LeafStatus.
Open Scope prog_scope.

Definition NodeHostnameValue : string := "kubernetes.io/hostname".
Definition NodeHostnameValueBeta : string := "beta.kubernetes.io/hostname".
Definition OpenebsPVNodeLabel : string := "openebs.io/nodename".
Definition KosmosPvcLabelSelector : string := "kosmos-io/label-selector".
Definition ClaimBound : string := "Bound".

Definition set_ids (uid version : string) (owners : option (list OwnerReference)) (m : ObjectMeta) : ObjectMeta :=
  mkMeta (om_Name m) (om_Namespace m) uid version owners (om_Labels m) (om_Annotations m) (om_DeletionTimestamp m) (om_DeletionGracePeriodSeconds m).

Definition on_pv_meta (f : ObjectMeta -> ObjectMeta) (v : PersistentVolume) : PersistentVolume := mkPV (f (pv_Meta v)) (pv_Spec v) (pv_Status v).
Definition on_pv_spec (f : PVSpec -> PVSpec) (v : PersistentVolume) : PersistentVolume := mkPV (pv_Meta v) (f (pv_Spec v)) (pv_Status v).
Definition on_pvc_meta (f : ObjectMeta -> ObjectMeta) (c : PersistentVolumeClaim) : PersistentVolumeClaim := mkPVC (f (pvc_Meta c)) (pvc_Spec c) (pvc_Status c).
Definition pv_annotations (v : PersistentVolume) : option smap := om_Annotations (pv_Meta v).
Definition pvc_annotations (c : PersistentVolumeClaim) : option smap := om_Annotations (pvc_Meta c).

(** * utils/pvpvc.go, utils/podutils/es.go *)

#[export] Instance ClaimRef_eq : EqDecision ClaimRef. Proof. solve_decision. Defined.
#[export] Instance LabelSelector_eq : EqDecision LabelSelector. Proof. solve_decision. Defined.
#[export] Instance PVSpec_eq : EqDecision PVSpec. Proof. solve_decision. Defined.
#[export] Instance PVCSpec_eq : EqDecision PVCSpec. Proof. solve_decision. Defined.
#[export] Instance PVCStatus_eq : EqDecision PVCStatus. Proof. solve_decision. Defined.

Definition IsPVEqual (pv clone : PersistentVolume) : bool :=
  bool_decide (pv_annotations pv = pv_annotations clone) && bool_decide (pv_Spec pv = pv_Spec clone) && (pv_Status pv =s pv_Status clone).

Definition IsPVCEqual (pvc clone : PersistentVolumeClaim) : bool :=
  bool_decide (pvc_annotations pvc = pvc_annotations clone) && bool_decide (pvc_Spec pvc = pvc_Spec clone) &&
  bool_decide (pvc_Status pvc = pvc_Status clone).

Definition is_hostname_key (k : string) : bool := (k =s NodeHostnameValue) || (k =s NodeHostnameValueBeta) || (k =s OpenebsPVNodeLabel).

(** The first value of the last requirement on a host name, fields before expressions in
each term; a requirement without values panics. *)
Definition last_hostname (name : string) (reqs : list NodeSelectorRequirement) : outcome string :=
  foldM (fun name val => if is_hostname_key (req_Key val) then deref (req_Values val !! 0) else Ret name) reqs name.

(** In one-to-one mode a volume without a required affinity panics. *)
Definition NodeAffinity4RootPV (pv : PersistentVolume) (isOne2OneMode : bool) (clusterName : string) : outcome string :=
  let node4RootPV := KosmosNodePrefix +:+ clusterName in
  if isOne2OneMode then
    required ← deref (pvs_NodeAffinity (pv_Spec pv));
    terms ← deref required;
    foldM (fun name v => name ← last_hostname name (term_MatchFields v); last_hostname name (term_MatchExpressions v)) terms node4RootPV
  else Ret node4RootPV.

Section Volumes.
(** The annotation of claims and the driver of volumes of one-way storage. *)
Context (oneway : option (string * string)).
Context (patch_pvc : PersistentVolumeClaim -> PersistentVolumeClaim -> result opaque).
Context (patch_pv : PersistentVolume -> PersistentVolume -> result opaque).
Context (marshal_selector : LabelSelector -> result string).

Definition claim_oneway (c : PersistentVolumeClaim) : bool :=
  match oneway with
  | None => false
  | Some (key, _) => match pvc_annotations c with
                     | None => false
                     | Some a => match a !! key with Some _ => true | None => false end
                     end
  end.

Definition IsOneWayPV (v : PersistentVolume) : bool :=
  match oneway with
  | None => false
  | Some (_, driver) => match pvs_CSIDriver (pv_Spec v) with Some d => d =s driver | None => false end
  end.

(** * Claims: from the leaf cluster to the host *)

(** The label selector moves to an annotation. *)
Definition filterPVC (c : PersistentVolumeClaim) : result PersistentVolumeClaim :=
  let labelSelector := pcs_Selector (pvc_Spec c) in
  let s := mkPVCSpec (pcs_VolumeName (pvc_Spec c)) None (pcs_Requests (pvc_Spec c)) (pcs_Rest (pvc_Spec c)) in
  let m := SetObjectGlobal (set_ids EmptyString EmptyString None (pvc_Meta c)) in
  match labelSelector with
  | None => inl (mkPVC m s (pvc_Status c))
  | Some sel => match marshal_selector sel with
                | inr err => inr err
                | inl labelStr =>
                    inl (mkPVC (set_Annotations (Some (<[KosmosPvcLabelSelector := labelStr]> (map_of (om_Annotations m)))) m) s (pvc_Status c))
                end
  end.

(** The poll until the claim of the host has a volume; [n] more attempts. *)
Fixpoint await_volume (n : nat) (nn : NamespacedName) (rootPVC : PersistentVolumeClaim) : prog (got PersistentVolumeClaim) :=
  match n with
  | 0 => Done (Failed timed_out)
  | S n' =>
      if pcs_VolumeName (pvc_Spec rootPVC) =s EmptyString then
        let! g := call (RootGetPVC nn) in
        match g with Found rootPVC => await_volume n' nn rootPVC | g => Done g end
      else Done (Found rootPVC)
  end.

(** The claim of the host after the patch: that of the leaf cluster with the identity,
owners and specification of the host. *)
Definition updated_claim (clusterName : string) (rootPVC pvcCopy : PersistentVolumeClaim) : PersistentVolumeClaim :=
  let a := delete PVCSelectedNodeKey (map_of (pvc_annotations pvcCopy)) in
  mkPVC (set_Annotations (Some (AddResourceClusters (Some a) clusterName))
          (set_ids (om_UID (pvc_Meta pvcCopy)) (om_ResourceVersion (pvc_Meta rootPVC)) (om_OwnerReferences (pvc_Meta rootPVC)) (pvc_Meta pvcCopy)))
    (pvc_Spec rootPVC) (pvc_Status pvcCopy).

Definition write_claim (clusterName : string) (rootPVC leafPVC : PersistentVolumeClaim) : prog Result :=
  match filterPVC leafPVC with
  | inr _ => Done Finished
  | inl pvcCopy =>
      let pvcCopy := updated_claim clusterName rootPVC pvcCopy in
      match patch_pvc rootPVC pvcCopy with
      | inr err => Done (ReturnsError err)
      | inl patch =>
          let! '(err, updated) := call (RootPatchPVC (mkNN (om_Namespace (pvc_Meta rootPVC)) (om_Name (pvc_Meta rootPVC))) patch) in
          match err_text err with
          | Some _ => Done RequeueAfter
          | None =>
              let! err := call (RootUpdatePVCStatus (mkPVC (set_ids (om_UID (pvc_Meta updated)) "0" (om_OwnerReferences (pvc_Meta updated)) (pvc_Meta updated))
                                                       (pvc_Spec updated) (pvc_Status pvcCopy))) in
              Done (match err_text err with Some _ => RequeueAfter | None => Finished end)
          end
      end
  end.

Definition LeafPVC_Reconcile (c clusterName : string) (nn : NamespacedName) : prog Result :=
  let! g := call (LeafGetPVC c nn) in
  match g with
  | Failed _ => Done RequeueAfter
  | NotFound _ => Done Finished
  | Found pvc =>
      let! g := call (RootGetPVC nn) in
      match g with
      | Failed _ => Done RequeueAfter
      | NotFound _ => Done Finished
      | Found rootPVC =>
          if bool_decide (pvc_Status rootPVC = pvc_Status pvc) then Done Finished
          else if pct_Phase (pvc_Status pvc) =s ClaimBound then
            let! n := call PollBudget in
            let! g := await_volume (S n) nn rootPVC in
            match g with
            | Failed _ => Done RequeueAfter
            | NotFound _ => Done Finished
            | Found rootPVC => write_claim clusterName rootPVC pvc
            end
          else write_claim clusterName rootPVC pvc
      end
  end.

Definition leaf_claim_updated (old : PersistentVolumeClaim) : bool := IsObjectGlobal (pvc_Meta old) && negb (claim_oneway old).

(** * Claims: from the host to the leaf cluster *)

(** The client of the first cluster that owns an object; [absent] where there is none. *)
Definition first_owner {A : Type} (annos : option smap) (none absent failed : A) (f : string -> prog A) : prog A :=
  match ListResourceClusters annos with
  | [] => Done none
  | cluster :: _ =>
      let! l := call Leaves in
      match GetLeafResource l cluster with
      | inr _ => Done absent
      | inl lr =>
          let! lcr := leafClientResource lr in
          match lcr with
          | inr _ => Done failed
          | inl c => f c
          end
      end
  end.

Definition cleanupPvc (nn : NamespacedName) (annos : option smap) : prog Result :=
  first_owner annos Finished Finished RequeueAfter (fun c =>
    let! err := call (LeafDeletePVC c nn) in
    Done (match err with NoError | IsNotFound _ => Finished | e => ReturnsError (default EmptyString (err_text e)) end)).

Definition RootPVC_Reconcile (nn : NamespacedName) : prog Result :=
  let! g := call (RootGetPVC nn) in
  match g with
  | Failed _ => Done RequeueAfter
  | NotFound _ => cleanupPvc nn None
  | Found pvc =>
      match om_DeletionTimestamp (pvc_Meta pvc) with
      | Some _ => cleanupPvc (mkNN (om_Namespace (pvc_Meta pvc)) (om_Name (pvc_Meta pvc))) (pvc_annotations pvc)
      | None =>
          first_owner (pvc_annotations pvc) RequeueAfter RequeueAfter RequeueAfter (fun c =>
            let! g := call (LeafGetPVC c nn) in
            match g with
            | Failed _ => Done RequeueAfter
            | NotFound _ => Done Finished
            | Found pvcOld =>
                if pcs_Requests (pvc_Spec pvcOld) =s pcs_Requests (pvc_Spec pvc) then Done Finished
                else
                  let m := set_Annotations (pvc_annotations pvcOld)
                             (set_ids (om_UID (pvc_Meta pvcOld)) EmptyString (om_OwnerReferences (pvc_Meta pvcOld)) (pvc_Meta pvc)) in
                  match patch_pvc pvcOld (mkPVC m (pvc_Spec pvc) (pvc_Status pvc)) with
                  | inr err => Done (ReturnsError err)
                  | inl patch =>
                      let! err := call (LeafPatchPVC c (mkNN (om_Namespace (pvc_Meta pvc)) (om_Name (pvc_Meta pvc))) patch) in
                      Done (match err with NoError | IsNotFound _ => Finished | _ => RequeueAfter end)
                  end
            end)
      end
  end.

(** * Volumes: from the leaf cluster to the host *)

Definition rename_host (nodeName : string) (r : NodeSelectorRequirement) : NodeSelectorRequirement :=
  if is_hostname_key (req_Key r) then mkReq (req_Key r) (req_Operator r) [nodeName] else r.

(** The identity goes, and requirements on a host name ask for [nodeName]. *)
Definition filterPV (nodeName : string) (v : PersistentVolume) : PersistentVolume :=
  let m := set_ids EmptyString EmptyString None (pv_Meta v) in
  let m := set_Annotations (Some (map_of (om_Annotations m))) m in
  let s := pv_Spec v in
  let rename := fun t => mkTerm (map (rename_host nodeName) (term_MatchExpressions t)) (map (rename_host nodeName) (term_MatchFields t)) in
  mkPV m (mkPVSpec (pvs_ClaimRef s) (match pvs_NodeAffinity s with
                                     | Some (Some terms) => Some (Some (map rename terms))
                                     | a => a
                                     end) (pvs_CSIDriver s) (pvs_Rest s)) (pv_Status v).

Definition set_claim (uid version : string) (v : PersistentVolume) : PersistentVolume :=
  on_pv_spec (fun s => mkPVSpec (match pvs_ClaimRef s with
                                 | Some r => Some (mkClaimRef (cr_Namespace r) (cr_Name r) uid version (cr_Rest r))
                                 | None => None
                                 end) (pvs_NodeAffinity s) (pvs_CSIDriver s) (pvs_Rest s)) v.

Definition claim_name (r : ClaimRef) : NamespacedName := mkNN (cr_Namespace r) (cr_Name r).

(** [utils.AddResourceClusters(pv.Annotations, cluster)], whose result is dropped: a nil map
stays nil. *)
Definition add_cluster_in_place (clusterName : string) (v : PersistentVolume) : PersistentVolume :=
  on_pv_meta (set_Annotations (match pv_annotations v with
                               | Some a => Some (AddResourceClusters (Some a) clusterName)
                               | None => None
                               end)) v.

(** The host does not have the volume. *)
Definition create_root_pv (c clusterName : string) (one2one : bool) (pv : PersistentVolume) : prog Result :=
  match pvs_ClaimRef (pv_Spec pv) with
  | None => Done Finished
  | Some ref =>
      let! g := call (LeafGetPVC c (claim_name ref)) in
      match g with
      | Failed _ => Done RequeueAfter
      | NotFound _ => Done Finished
      | Found tmpPVC =>
          if negb (IsObjectGlobal (pvc_Meta tmpPVC)) then Done Finished
          else
            let! nodeName := pure (NodeAffinity4RootPV pv one2one clusterName) in
            let rootPV := filterPV nodeName pv in
            let! g := call (RootGetPVC (claim_name ref)) in
            match g with
            | Found rootPVC =>
                let rootPV := set_claim (om_UID (pvc_Meta rootPVC)) (om_ResourceVersion (pvc_Meta rootPVC)) rootPV in
                let! err := call (RootCreatePV (add_cluster_in_place clusterName rootPV)) in
                Done (match err_text err with Some _ => RequeueAfter | None => Finished end)
            | _ => Done Finished
            end
      end
  end.

(** The affinity and identity of the host volume on the volume of the leaf cluster. *)
Definition merged_pv (clusterName : string) (rootPV pvCopy : PersistentVolume) : PersistentVolume :=
  let v := on_pv_spec (fun s => mkPVSpec (pvs_ClaimRef s) (pvs_NodeAffinity (pv_Spec rootPV)) (pvs_CSIDriver s) (pvs_Rest s)) pvCopy in
  let v := on_pv_meta (fun m => set_ids (om_UID (pv_Meta rootPV)) (om_ResourceVersion (pv_Meta rootPV)) (om_OwnerReferences m) m) v in
  add_cluster_in_place clusterName v.

Definition patch_root_pv (clusterName : string) (rootPV pvCopy : PersistentVolume) : prog Result :=
  let pvCopy := merged_pv clusterName rootPV pvCopy in
  if IsPVEqual rootPV pvCopy then Done Finished
  else match patch_pv rootPV pvCopy with
       | inr err => Done (ReturnsError err)
       | inl patch =>
           let! err := call (RootPatchPV (om_Name (pv_Meta rootPV)) patch) in
           Done (match err_text err with Some _ => RequeueAfter | None => Finished end)
       end.

(** Both have the volume. A volume without a claim on both sides panics. *)
Definition update_root_pv (clusterName : string) (one2one : bool) (rootPV pv : PersistentVolume) : prog Result :=
  let! nodeName := pure (NodeAffinity4RootPV pv one2one clusterName) in
  let rootPV := filterPV nodeName rootPV in
  match pvs_ClaimRef (pv_Spec pv), pvs_ClaimRef (pv_Spec rootPV) with
  | None, Some _ => patch_root_pv clusterName rootPV pv
  | None, None => Crash
  | Some ref, _ =>
      let! g := call (RootGetPVC (claim_name ref)) in
      match g with
      | Found rootPVC =>
          patch_root_pv clusterName rootPV (set_claim (om_UID (pvc_Meta rootPVC)) (om_ResourceVersion (pvc_Meta rootPVC)) pv)
      | _ => Done Finished
      end
  end.

Definition LeafPV_Reconcile (c clusterName : string) (one2one : bool) (name : string) : prog Result :=
  let! g := call (LeafGetPV c name) in
  let deleted := match g with Found pv => bool_decide (om_DeletionTimestamp (pv_Meta pv) <> None) | _ => true end in
  match g with
  | Failed _ => Done RequeueAfter
  | g =>
      let! r := call (RootGetPV name) in
      match r with
      | Failed _ => Done RequeueAfter
      | NotFound _ =>
          match g with
          | Found pv => if deleted then Done Finished else create_root_pv c clusterName one2one pv
          | _ => Done Finished
          end
      | Found rootPV =>
          if negb (HasResourceClusters (pv_annotations rootPV) clusterName) then Done Finished
          else match g with
               | Found pv =>
                   if deleted then
                     let! err := call (RootDeletePV name) in
                     Done (match err with NoError | IsNotFound _ => Finished | _ => RequeueAfter end)
                   else update_root_pv clusterName one2one rootPV pv
               | _ =>
                   let! err := call (RootDeletePV name) in
                   Done (match err with NoError | IsNotFound _ => Finished | _ => RequeueAfter end)
               end
      end
  end.

(** * Volumes: from the host to the leaf cluster *)

Definition cleanupPv (name : string) (annos : option smap) : prog Result :=
  first_owner annos Finished Finished RequeueAfter (fun c =>
    let! err := call (LeafDeletePV c name) in
    Done (match err with NoError | IsNotFound _ => Finished | _ => RequeueAfter end)).

Definition RootPV_Reconcile (name : string) : prog Result :=
  let! g := call (RootGetPV name) in
  match g with
  | Failed _ => Done RequeueAfter
  | NotFound _ => cleanupPv name None
  | Found pv => match om_DeletionTimestamp (pv_Meta pv) with
                | Some _ => cleanupPv (om_Name (pv_Meta pv)) (pv_annotations pv)
                | None => Done Finished
                end
  end.

(** The predicate on deletions does the deletion itself, and never reports an event. *)
Definition root_pv_deleted (stateUnknown : bool) (pv : PersistentVolume) : prog bool :=
  if stateUnknown || IsOneWayPV pv then Done false
  else first_owner (pv_annotations pv) false false false (fun c =>
    let! _ := call (LeafDeletePV c (om_Name (pv_Meta pv))) in Done false).

(** * One-way storage *)

Definition IsKosmosNode (node : KubeNode) : bool :=
  match map_of (kn_Labels node) !! KosmosNodeLabel with Some v => v =s KosmosNodeValue | None => false end.

(** The leaf cluster with the node of the volume path of the same name. *)
Definition oneway_cluster (name : string) (f : LeafResource -> string -> prog Result) : prog Result :=
  let! g := call (RootGetVolumePath name) in
  match g with
  | NotFound _ | Failed _ => Done RequeueAfter
  | Found nodeName =>
      if nodeName =s EmptyString then Done Finished
      else
        let! g := call (RootGetNode nodeName) in
        match g with
        | NotFound _ => Done Finished
        | Failed _ => Done RequeueAfter
        | Found node =>
            if negb (IsKosmosNode node) then Done Finished
            else
              let clusterName := get (map_of (kn_Annotations node)) KosmosNodeOwnedByClusterAnnotations in
              if clusterName =s EmptyString then Done RequeueAfter
              else
                let! l := call Leaves in
                match GetLeafResource l clusterName with
                | inr _ => Done RequeueAfter
                | inl leaf =>
                    let! lcr := leafClientResource leaf in
                    match lcr with inr _ => Done RequeueAfter | inl c => f leaf c end
                end
        end
  end.

Definition mark_global (clusterName : string) (annos : option smap) : option smap :=
  Some (<[KosmosGlobalLabel := "true"]> (AddResourceClusters annos clusterName)).

Definition ensureLeafPV (leaf : LeafResource) (c : string) (pv : PersistentVolume) : prog Result :=
  let! ref := pure (deref (pvs_ClaimRef (pv_Spec pv))) in
  let! g := call (LeafGetPVC c (claim_name ref)) in
  match g with
  | NotFound _ | Failed _ => Done RequeueAfter
  | Found pvc =>
      let newPV := set_claim (om_UID (pvc_Meta pvc)) (om_ResourceVersion (pvc_Meta pvc)) pv in
      let newPV := on_pv_meta (set_Annotations (mark_global (lc_Name (lr_Cluster leaf)) (pv_annotations newPV))) newPV in
      let! g := call (LeafGetPV c (om_Name (pv_Meta newPV))) in
      match g with
      | Failed _ => Done RequeueAfter
      | NotFound _ =>
          let newPV := on_pv_meta (fun m => set_ids EmptyString EmptyString (om_OwnerReferences m) m) newPV in
          let! err := call (LeafCreatePV c newPV) in
          Done (match err with NoError | IsAlreadyExists _ => Finished | _ => RequeueAfter end)
      | Found oldPV =>
          let newPV := on_pv_meta (fun m => set_ids (om_UID (pv_Meta oldPV)) (om_ResourceVersion (pv_Meta oldPV)) (om_OwnerReferences m) m) newPV in
          if IsPVEqual oldPV newPV then Done Finished
          else match patch_pv oldPV newPV with
               | inr err => Done (ReturnsError err)
               | inl patch =>
                   let! err := call (LeafPatchPV c (om_Name (pv_Meta newPV)) patch) in
                   Done (match err_text err with Some _ => RequeueAfter | None => Finished end)
               end
      end
  end.

(** A volume that is gone is the empty object: the deletion asks for no name. *)
Definition OnewayPV_Reconcile (name : string) : prog Result :=
  let! g := call (RootGetPV name) in
  match g with
  | Failed _ => Done RequeueAfter
  | g =>
      oneway_cluster name (fun leaf c =>
        let clear := fun pvName =>
          let! err := call (LeafDeletePV c pvName) in
          Done (match err with NoError | IsNotFound _ => Finished | _ => RequeueAfter end) in
        match g with
        | Found pv => match om_DeletionTimestamp (pv_Meta pv) with
                      | Some _ => clear (om_Name (pv_Meta pv))
                      | None => ensureLeafPV leaf c pv
                      end
        | _ => clear EmptyString
        end)
  end.

Definition ensureLeafPVC (leaf : LeafResource) (c : string) (pvc : PersistentVolumeClaim) : prog Result :=
  let newPVC := on_pvc_meta (set_Annotations (mark_global (lc_Name (lr_Cluster leaf)) (pvc_annotations pvc))) pvc in
  let nn := mkNN (om_Namespace (pvc_Meta newPVC)) (om_Name (pvc_Meta newPVC)) in
  let! g := call (LeafGetPVC c nn) in
  match g with
  | Failed _ => Done RequeueAfter
  | NotFound _ =>
      let newPVC := on_pvc_meta (fun m => set_ids EmptyString EmptyString (om_OwnerReferences m) m) newPVC in
      let! err := call (LeafCreatePVC c newPVC) in
      Done (match err with NoError | IsAlreadyExists _ => Finished | _ => RequeueAfter end)
  | Found oldPVC =>
      let newPVC := on_pvc_meta (fun m => set_ids (om_UID (pvc_Meta oldPVC)) (om_ResourceVersion (pvc_Meta oldPVC)) (om_OwnerReferences m) m) newPVC in
      if IsPVCEqual oldPVC newPVC then Done Finished
      else match patch_pvc oldPVC newPVC with
           | inr err => Done (ReturnsError err)
           | inl patch =>
               let! err := call (LeafPatchPVC c nn patch) in
               Done (match err_text err with Some _ => RequeueAfter | None => Finished end)
           end
  end.

(** Claims of one-way storage are never cleared in the leaf cluster. *)
Definition OnewayPVC_Reconcile (nn : NamespacedName) : prog Result :=
  let! g := call (RootGetPVC nn) in
  match g with
  | Failed _ => Done RequeueAfter
  | g =>
      oneway_cluster (nn_Name nn) (fun leaf c =>
        match g with
        | Found pvc => match om_DeletionTimestamp (pvc_Meta pvc) with
                       | Some _ => Done Finished
                       | None => ensureLeafPVC leaf c pvc
                       end
        | _ => Done Finished
        end)
  end.
End Volumes.

(** * What the volume controller of a leaf cluster writes *)

Section Written.
Context (patch_pv : PersistentVolume -> PersistentVolume -> result opaque).
Context (c clusterName : string) (one2one : bool) (name : string).

Definition leaf_gone (tr : list event) : Prop :=
  (exists msg, Ev (LeafGetPV c name) (NotFound msg) ∈ tr) \/
  (exists pv, Ev (LeafGetPV c name) (Found pv) ∈ tr /\ om_DeletionTimestamp (pv_Meta pv) <> None).
Definition leaf_pv (tr : list event) (pv : PersistentVolume) : Prop :=
  Ev (LeafGetPV c name) (Found pv) ∈ tr /\ om_DeletionTimestamp (pv_Meta pv) = None.
Definition owned_root (tr : list event) (root : PersistentVolume) : Prop :=
  Ev (RootGetPV name) (Found root) ∈ tr /\ HasResourceClusters (pv_annotations root) clusterName = true.

(** The claim of the volume in the host cluster. *)
Definition bound_to (tr : list event) (pv v : PersistentVolume) : Prop :=
  exists ref claim, pvs_ClaimRef (pv_Spec pv) = Some ref /\ Ev (RootGetPVC (claim_name ref)) (Found claim) ∈ tr /\
    pvs_ClaimRef (pv_Spec v) = Some (mkClaimRef (cr_Namespace ref) (cr_Name ref) (om_UID (pvc_Meta claim)) (om_ResourceVersion (pvc_Meta claim)) (cr_Rest ref)).

Definition volume_allowed (tr : list event) (op : Op) : Prop :=
  match op with
  | RootDeletePV n => n = name /\ leaf_gone tr /\ exists root, owned_root tr root
  | RootCreatePV v =>
      (exists msg, Ev (RootGetPV name) (NotFound msg) ∈ tr) /\
      exists pv node, leaf_pv tr pv /\ NodeAffinity4RootPV pv one2one clusterName = Ret node /\
        (exists ref claim, pvs_ClaimRef (pv_Spec pv) = Some ref /\ Ev (LeafGetPVC c (claim_name ref)) (Found claim) ∈ tr /\
           IsObjectGlobal (pvc_Meta claim) = true) /\
        bound_to tr pv v /\ pvs_NodeAffinity (pv_Spec v) = pvs_NodeAffinity (pv_Spec (filterPV node pv)) /\
        (part_ok clusterName -> HasResourceClusters (pv_annotations v) clusterName = true)
  | RootPatchPV n patch =>
      exists root pv node new, owned_root tr root /\ leaf_pv tr pv /\ NodeAffinity4RootPV pv one2one clusterName = Ret node /\
        n = om_Name (pv_Meta root) /\ patch_pv (filterPV node root) new = inl patch /\
        pvs_NodeAffinity (pv_Spec new) = pvs_NodeAffinity (pv_Spec (filterPV node root)) /\
        (bound_to tr pv new \/ pvs_ClaimRef (pv_Spec new) = None) /\
        (part_ok clusterName -> HasResourceClusters (pv_annotations new) clusterName = bool_decide (pv_annotations pv <> None))
  | LeafGetPV _ _ | RootGetPV _ | LeafGetPVC _ _ | RootGetPVC _ => True
  | _ => False
  end.

Lemma volume_allowed_mono tr tr' op : tr `sublist_of` tr' -> volume_allowed tr op -> volume_allowed tr' op.
Proof.
  intros Hs. pose proof (fun e => sublist_elem tr tr' e Hs) as He.
  assert (Hb : forall pv v, bound_to tr pv v -> bound_to tr' pv v) by (intros pv v (r & k & ? & ? & ?); exists r, k; auto).
  unfold volume_allowed, leaf_gone, leaf_pv, owned_root. destruct op; try done.
  - intros [[m Hm] (pv & node & [H1 H2] & H3 & (r & k & H4 & H5 & H6) & H7)]. split; [eauto|].
    exists pv, node. split; [auto|]. split; [done|]. split; [exists r, k; auto|]. destruct H7 as (? & ? & ?). auto.
  - intros (root & pv & node & new & [H1 H2] & [H3 H4] & H5 & H6 & H7 & H8 & H9 & H10). exists root, pv, node, new.
    split_and!; auto. destruct H9; auto.
  - intros (-> & H1 & root & H2 & H3). split; [done|]. split; [|exists root; auto].
    destruct H1 as [[m H1]|(pv & H1 & Hd)]; [left; eauto|right; eauto].
Qed.

Abbreviation WV := (wp volume_allowed).

(** A nil map stays nil, and then the cluster is not an owner. *)
Lemma add_in_place_has v : part_ok clusterName ->
  HasResourceClusters (pv_annotations (add_cluster_in_place clusterName v)) clusterName = bool_decide (pv_annotations v <> None).
Proof.
  intros Hc. unfold add_cluster_in_place. destruct (pv_annotations v) as [a|] eqn:E.
  - rewrite (bool_decide_true (Some a <> None)) by done. by apply AddResourceClusters_has.
  - rewrite (bool_decide_false (@None smap <> None)) by (by intros []). apply not_true_iff_false. rewrite HasResourceClusters_spec by apply Hc.
    unfold owners. simpl. by intros ?%elem_of_nil.
Qed.

Lemma set_claim_ref uid version pv ref : pvs_ClaimRef (pv_Spec pv) = Some ref ->
  pvs_ClaimRef (pv_Spec (set_claim uid version pv)) = Some (mkClaimRef (cr_Namespace ref) (cr_Name ref) uid version (cr_Rest ref)).
Proof. intros H. simpl. by rewrite H. Qed.

Lemma wp_create_root tr pv : (exists msg, Ev (RootGetPV name) (NotFound msg) ∈ tr) -> leaf_pv tr pv ->
  WV tr (create_root_pv c clusterName one2one pv) (fun _ _ => True).
Proof.
  intros [msg Hm] [Hl Hd]. unfold create_root_pv. destruct (pvs_ClaimRef (pv_Spec pv)) as [ref|] eqn:Eref; [|done].
  cbn [pbind call wp]. split; [done|]. intros [claim|m|m]; [|done..].
  destruct (IsObjectGlobal (pvc_Meta claim)) eqn:Eg; cbn [negb]; [|done]. apply wp_bind, wp_pure. intros node En.
  cbn [pbind call wp]. split; [done|]. intros [rootPVC|m|m]; [|done..]. split; [|done]. split; [exists msg|]; [rewrite !elem_of_app; auto|].
  exists pv, node. split; [split; [rewrite !elem_of_app; auto|done]|]. split; [done|].
  split; [exists ref, claim; split; [done|]; split; [rewrite !elem_of_app; left; right; by left|done]|].
  split; [exists ref, rootPVC; split; [done|]; split; [apply elem_snoc|]; cbn; by rewrite Eref|]. split; [done|].
  intros Hc. rewrite add_in_place_has by done. by apply bool_decide_eq_true.
Qed.

Lemma wp_patch_root tr root pv pv' node : owned_root tr root -> leaf_pv tr pv -> NodeAffinity4RootPV pv one2one clusterName = Ret node ->
  pv_annotations pv' = pv_annotations pv -> (bound_to tr pv pv' \/ pvs_ClaimRef (pv_Spec pv') = None) ->
  WV tr (patch_root_pv patch_pv clusterName (filterPV node root) pv') (fun _ _ => True).
Proof.
  intros Ho Hl Hn Ha Hb. unfold patch_root_pv. destruct (IsPVEqual _ _); [done|].
  destruct (patch_pv _ _) as [patch|] eqn:Ep; [|done]. cbn [pbind call wp]. split; [|done].
  exists root, pv, node, (merged_pv clusterName (filterPV node root) pv'). split_and!; try done.
  intros Hc. unfold merged_pv. rewrite add_in_place_has by done. cbn. change (om_Annotations (pv_Meta pv')) with (pv_annotations pv'). by rewrite Ha.
Qed.

(** C18: what the volume controller of a leaf cluster writes to the host cluster, whatever
the clusters answer. It deletes a volume of the host only if the leaf cluster owns it and
has lost it; it creates one only for a volume of the leaf cluster whose claim came from
the host, bound to the claim of the host, placed on the node of the leaf cluster and
owned by it; and it changes only volumes the leaf cluster owns, keeping their placement.
The change keeps the ownership exactly if the volume of the leaf cluster has annotations. *)
Theorem volume_writes (tr : list event) (res : option Result) :
  exec (LeafPV_Reconcile patch_pv c clusterName one2one name) tr res ->
  forall pre e post, tr = pre ++ e :: post -> volume_allowed pre (ev_op e).
Proof.
  intros He. apply (wp_sound volume_allowed volume_allowed_mono _ _ _ He [] (fun _ _ => True)).
  unfold LeafPV_Reconcile. cbn [pbind call wp]. split; [done|]. intros g. set (tr1 := [] ++ _).
  assert (Hg : Ev (LeafGetPV c name) g ∈ tr1) by by left. clearbody tr1.
  assert (Hdel : forall tr root, leaf_gone tr -> owned_root tr root ->
    WV tr (pbind (call (RootDeletePV name)) (fun err => Done match err with NoError | IsNotFound _ => Finished | _ => RequeueAfter end)) (fun _ _ => True)).
  { intros tr' root H1 H2. cbn [pbind call wp]. split; [|done]. split; [done|]. split; [done|]. by exists root. }
  destruct g as [pv|m|m]; [| |done]; cbn [pbind call wp]; (split; [done|]); intros r; set (tr2 := tr1 ++ _);
    assert (Hg2 : tr1 `sublist_of` tr2) by apply sub_snoc;
    (assert (Hr : Ev (RootGetPV name) r ∈ tr2) by apply elem_snoc); apply (sublist_elem _ _ _ Hg2) in Hg; clearbody tr2; clear tr1 Hg2.
  - destruct r as [root|m|m]; [| |done].
    + destruct (HasResourceClusters (pv_annotations root) clusterName) eqn:Eh; cbn [negb]; [|done].
      case_bool_decide as Hd; [by apply (Hdel _ root); [right; exists pv|]|].
      unfold update_root_pv. apply wp_bind, wp_pure. intros node En.
      destruct (pvs_ClaimRef (pv_Spec pv)) as [ref|] eqn:Eref.
      * cbn [pbind call wp]. split; [done|]. intros [claim|m|m]; [|done..].
        assert (S2 : tr2 `sublist_of` tr2 ++ [Ev (RootGetPVC (claim_name ref)) (Found claim)]) by apply sub_snoc.
        apply (wp_patch_root _ root pv _ node); [split; [by eapply sublist_elem|done]|split; [by eapply sublist_elem|done]|done|done|].
        left. exists ref, claim. split; [done|]. split; [apply elem_snoc|]. by apply set_claim_ref.
      * destruct (pvs_ClaimRef (pv_Spec (filterPV node root))); [|done].
        apply (wp_patch_root _ root pv _ node); [done|done|done|done|by right].
    + case_bool_decide as Hd; [done|]. apply wp_create_root; [by exists m|done].
  - destruct r as [root|m'|m']; [|done..].
    destruct (HasResourceClusters (pv_annotations root) clusterName) eqn:Eh; cbn [negb]; [|done].
    apply (Hdel _ root); [left; by exists m|done].
Qed.
End Written.

Definition a_meta (name ns uid : string) (annos : option smap) : ObjectMeta := mkMeta name ns uid "1" None None annos None None.
Definition a_claim (uid : string) : PersistentVolumeClaim :=
  mkPVC (a_meta "data" "ns" uid (Some {[KosmosGlobalLabel := "true"]})) (mkPVCSpec "v" None EmptyString EmptyString) (mkPVCStatus ClaimBound EmptyString).
Definition a_volume : PersistentVolume :=
  mkPV (a_meta "v" EmptyString "leaf-uid" None)
    (mkPVSpec (Some (mkClaimRef "ns" "data" "leaf-claim" "1" EmptyString)) (Some (Some [mkTerm [mkReq NodeHostnameValue "In" ["n1"]] []])) None EmptyString) EmptyString.

Definition volume_answers (root : got PersistentVolume) (op : Op) : resp op :=
  match op as o return resp o with
  | LeafGetPV _ _ => Found a_volume
  | RootGetPV _ => root
  | LeafGetPVC _ _ => Found (a_claim "leaf-claim")
  | RootGetPVC _ => Found (a_claim "root-claim")
  | o => good_answers (NotFound EmptyString) (NotFound EmptyString) o
  end.

(** A new volume is created on the host for the node of the cluster. *)
Lemma volume_writes_witness : exists pre v post,
  fst (run (volume_answers (NotFound EmptyString)) (LeafPV_Reconcile (fun _ _ => inl EmptyString) "c1" "c1" false "v")) =
    pre ++ Ev (RootCreatePV v) NoError :: post /\
  pvs_NodeAffinity (pv_Spec v) = Some (Some [mkTerm [mkReq NodeHostnameValue "In" ["kosmos-c1"]] []]) /\
  volume_allowed (fun _ _ => inl EmptyString) "c1" "c1" false "v" pre (RootCreatePV v).
Proof.
  set (p := LeafPV_Reconcile _ _ _ _ _). set (tr := fst (run _ p)).
  assert (E : exists pre v post, tr = pre ++ Ev (RootCreatePV v) NoError :: post /\
    pvs_NodeAffinity (pv_Spec v) = Some (Some [mkTerm [mkReq NodeHostnameValue "In" ["kosmos-c1"]] []])).
  { exists (take 4 tr), (add_cluster_in_place "c1" (set_claim "root-claim" "1" (filterPV "kosmos-c1" a_volume))), [].
    split; vm_compute; reflexivity. }
  destruct E as (pre & v & post & E & Ha). exists pre, v, post. split; [done|]. split; [done|].
  apply (volume_writes (fun _ _ => inl EmptyString) "c1" "c1" false "v" tr _
    (run_exec (volume_answers (NotFound EmptyString)) p) pre (Ev (RootCreatePV v) NoError) post E).
Defined.

(** A volume of the leaf cluster without annotations takes the ownership from the volume of
the host when it is merged. *)
Example ownership_lost : forall root,
  HasResourceClusters (pv_annotations (merged_pv "c1" root a_volume)) "c1" = false.
Proof. reflexivity. Qed.

(** A one-way volume that is gone from the host is deleted under the empty name. *)
Definition oneway_answers (op : Op) : resp op :=
  match op as o return resp o with
  | RootGetVolumePath _ => Found "kosmos-c1"
  | RootGetNode name => Found (set_node_annotations (Some {[KosmosNodeOwnedByClusterAnnotations := "c1"]}) (BuildNodeTemplate name 0))
  | Leaves => {["c1" := witness_leaf]}
  | o => good_answers (NotFound EmptyString) (NotFound EmptyString) o
  end.
Example oneway_deletes_nothing :
  last (fst (run oneway_answers (OnewayPV_Reconcile (fun _ _ => inl EmptyString) "v"))) (Ev Now 0%Z) = Ev (LeafDeletePV "c1" EmptyString) NoError.
Proof. vm_compute. reflexivity. Qed.
