(* ===== verification/Tables.v ===== *)
(** Tables of objects on API servers.

A [Table] is one kind of object in a state [W] that counts its calls; the operations are
those of the clients of the controllers: a call may fail with a conflict or another error,
without effect, when [faults] says so. The rules say what holds after an operation, in terms
of the rows of the table and of the rest of the state. *)
From S2P Require Import Prelude PodProg Calls.

#[global] Arguments next_call {W _} _ : simpl never.

(** A table: its rows, their replacement, and the rest of the state without the count. *)
Record Table (W K : Type) `{Countable K} (V : Type) := mkTable { rows : W -> gmap K V; set_rows : gmap K V -> W -> W; rest_of : W -> W }.
Arguments rows {W K _ _ V} _ _ : simpl never.
Arguments set_rows {W K _ _ V} _ _ _ : simpl never.
Arguments rest_of {W K _ _ V} _ _ : simpl never.

(** What the controllers rely on of a table. *)
Class TableLaws {W K : Type} `{Server W} `{Countable K} {V} (t : Table W K V) : Prop := {
  rows_set : forall m w, rows t (set_rows t m w) = m;
  rest_set : forall m w, rest_of t (set_rows t m w) = rest_of t w;
  rows_tick : forall w, rows t (next_call w) = rows t w;
  rest_tick : forall w, rest_of t (next_call w) = rest_of t w }.

Inductive fault := Conflicts (err : string) | Fails (err : string).
Definition fault_err (f : fault) : apierr := match f with Conflicts err => IsConflict err | Fails err => OtherError err end.

Section operations.
  Context {W K : Type} `{Server W} `{Countable K} (faults : nat -> option fault).
  Abbreviation MM := (Calls.M W apierr).

Definition oracle (n : nat) : option apierr := fault_err <$> faults n.

Section table.
  Context {V : Type} (t : Table W K V).

Definition Get (k : K) : MM V := Calls.call oracle (fun w =>
  match rows t w !! k with Some v => (w, Good v) | None => (w, Bad (IsNotFound "not found")) end).

Definition Create (k : K) (v : V) : MM unit := Calls.call oracle (fun w =>
  match rows t w !! k with
  | Some _ => (w, Bad (IsAlreadyExists "already exists"))
  | None => (set_rows t (<[k := v]> (rows t w)) w, Good tt)
  end).

Definition Update (k : K) (v : V) : MM unit := Calls.call oracle (fun w =>
  match rows t w !! k with
  | Some _ => (set_rows t (<[k := v]> (rows t w)) w, Good tt)
  | None => (w, Bad (IsNotFound "not found"))
  end).

Definition Delete (k : K) : MM unit := Calls.call oracle (fun w =>
  match rows t w !! k with
  | Some _ => (set_rows t (delete k (rows t w)) w, Good tt)
  | None => (w, Bad (IsNotFound "not found"))
  end).

(** [retry.RetryOnConflict] around an update: the object is changed and written; when that
fails it is read again, and a conflict starts over with what was read. An object that is
gone ends it well. *)
Fixpoint update_retry (n : nat) (modify : V -> V) (k : K) (obj : V) : MM unit :=
  match n with
  | 0 => mok tt
  | S n' =>
      let obj := modify obj in
      let again updateErr obj :=
        match updateErr with
        | IsConflict _ => if n' =? 0 then merr updateErr else update_retry n' modify k obj
        | _ => merr updateErr
        end in
      mtry (Update k obj) (fun _ => mok tt) (fun updateErr =>
        match updateErr with
        | IsNotFound _ => mok tt
        | _ => mtry (Get k) (again updateErr) (fun getErr =>
            match getErr with IsNotFound _ => mok tt | _ => again updateErr obj end)
        end)
  end.

End table.

(** An error that means the work is done already. *)
Definition unless_exists (m : MM unit) : MM unit :=
  mtry m mok (fun err => match err with IsAlreadyExists _ => mok tt | _ => merr err end).
Definition unless_gone (m : MM unit) : MM unit :=
  mtry m mok (fun err => match err with IsNotFound _ => mok tt | _ => merr err end).

End operations.

(** [flags.DefaultUpdateRetryBackoff]: the number of attempts. *)
Definition DefaultUpdateRetryBackoff (steps : Z) : nat := if (steps <=? 0)%Z then 5 else Z.to_nat steps.

Lemma backoff_positive steps : 0 < DefaultUpdateRetryBackoff steps.
Proof. unfold DefaultUpdateRetryBackoff. destruct (Z.leb_spec steps 0); lia. Qed.

(** * Rules for the calls *)

Section facts.
  Context {W K : Type} `{Server W} `{Countable K} (faults : nat -> option fault).
  Abbreviation MM := (Calls.M W apierr).

(** A call failed; a call failed with a conflict. *)
Definition faulty : Prop := exists n f, faults n = Some f.
Definition conflicted : Prop := exists n err, faults n = Some (Conflicts err).

Lemma call_faulty : call_failed (oracle faults) -> faulty.
Proof. intros (n & err & Hn). unfold oracle in Hn. destruct (faults n) as [f|] eqn:Ef; [|done]. by exists n, f. Qed.

(** One call: it fails with a fault and no effect, or takes effect. *)
Lemma call_cases {A} (f : W -> W * answer apierr A) w :
  (exists ft, faults (calls_made w) = Some ft /\ Calls.call (oracle faults) f w = (next_call w, Bad (fault_err ft))) \/
  Calls.call (oracle faults) f w = f (next_call w).
Proof.
  unfold Calls.call, oracle. 
  destruct (faults (calls_made w)) as [ft|]; simpl; [left; by exists ft|by right].
Qed.

Section table.
  Context {V : Type} (t : Table W K V) `{!TableLaws t}.

(** The ways one operation can go: a fault, an object that is missing or there already, or success. *)
Lemma Get_cases k w : (exists ft, faults (calls_made w) = Some ft /\ Get faults t k w = (next_call w, Bad (fault_err ft))) \/
  Get faults t k w = (next_call w, match rows t w !! k with Some v => Good v | None => Bad (IsNotFound "not found") end).
Proof.
  destruct (call_cases (fun w => match rows t w !! k with Some v => (w, Good v) | None => (w, Bad (IsNotFound "not found")) end) w) as [?|E]; [by left|right].
  unfold Get. rewrite E, rows_tick. by destruct (rows t w !! k).
Qed.

Lemma Create_cases k v w : (exists ft, faults (calls_made w) = Some ft /\ Create faults t k v w = (next_call w, Bad (fault_err ft))) \/
  is_Some (rows t w !! k) /\ Create faults t k v w = (next_call w, Bad (IsAlreadyExists "already exists")) \/
  rows t w !! k = None /\ Create faults t k v w = (set_rows t (<[k := v]> (rows t w)) (next_call w), Good tt).
Proof.
  destruct (call_cases (fun w => match rows t w !! k with Some _ => (w, Bad (IsAlreadyExists "already exists"))
    | None => (set_rows t (<[k := v]> (rows t w)) w, Good tt) end) w) as [?|E]; [by left|right].
  unfold Create. rewrite E, rows_tick. destruct (rows t w !! k); [left; split; [by eexists|done]|by right].
Qed.

Lemma Update_cases k v w : (exists ft, faults (calls_made w) = Some ft /\ Update faults t k v w = (next_call w, Bad (fault_err ft))) \/
  rows t w !! k = None /\ Update faults t k v w = (next_call w, Bad (IsNotFound "not found")) \/
  is_Some (rows t w !! k) /\ Update faults t k v w = (set_rows t (<[k := v]> (rows t w)) (next_call w), Good tt).
Proof.
  destruct (call_cases (fun w => match rows t w !! k with Some _ => (set_rows t (<[k := v]> (rows t w)) w, Good tt)
    | None => (w, Bad (IsNotFound "not found")) end) w) as [?|E]; [by left|right].
  unfold Update. rewrite E, rows_tick. destruct (rows t w !! k); [right; split; [by eexists|done]|by left].
Qed.

Lemma Delete_cases k w : (exists ft, faults (calls_made w) = Some ft /\ Delete faults t k w = (next_call w, Bad (fault_err ft))) \/
  rows t w !! k = None /\ Delete faults t k w = (next_call w, Bad (IsNotFound "not found")) \/
  is_Some (rows t w !! k) /\ Delete faults t k w = (set_rows t (delete k (rows t w)) (next_call w), Good tt).
Proof.
  destruct (call_cases (fun w => match rows t w !! k with Some _ => (set_rows t (delete k (rows t w)) w, Good tt)
    | None => (w, Bad (IsNotFound "not found")) end) w) as [?|E]; [by left|right].
  unfold Delete. rewrite E, rows_tick. destruct (rows t w !! k); [right; split; [by eexists|done]|by left].
Qed.

(** A step that only touches the table. *)
Definition writes (w w' : W) (m : gmap K V) : Prop := rows t w' = m /\ rest_of t w' = rest_of t w.

Lemma writes_same w : writes w w (rows t w). Proof. done. Qed.
Lemma writes_tick w : writes w (next_call w) (rows t w).
Proof. split; [apply rows_tick|apply rest_tick]. Qed.
Lemma writes_set w m : writes w (set_rows t m (next_call w)) m.
Proof. split; [apply rows_set|]. rewrite rest_set. apply rest_tick. Qed.
Lemma writes_trans w w1 w2 m1 m2 : writes w w1 m1 -> writes w1 w2 m2 -> writes w w2 m2.
Proof. intros [H1 H2] [H3 H4]. split; [done|congruence]. Qed.

Lemma runs_Get k w (X : W -> Prop) Q : (faulty -> X (next_call w)) -> (rows t w !! k = None -> X (next_call w)) ->
  (forall v, rows t w !! k = Some v -> Q v (next_call w)) -> runs (Get faults t k) w X Q.
Proof.
  intros HX Hn HQ. apply runs_call; [intros ?; by apply HX, call_faulty|]. unfold runs.
  rewrite rows_tick. destruct (rows t w !! k); auto.
Qed.

Lemma runs_Create k v w (X : W -> Prop) Q : (faulty -> X (next_call w)) -> (is_Some (rows t w !! k) -> X (next_call w)) ->
  (forall w', rows t w !! k = None -> writes w w' (<[k := v]> (rows t w)) -> Q tt w') -> runs (Create faults t k v) w X Q.
Proof.
  intros HX Hn HQ. apply runs_call; [intros ?; by apply HX, call_faulty|]. unfold runs.
  rewrite rows_tick. destruct (rows t w !! k) eqn:E; [apply Hn; eauto|]. apply HQ; [done|apply writes_set].
Qed.

Lemma runs_Update k v w (X : W -> Prop) Q : (faulty -> X (next_call w)) -> (rows t w !! k = None -> X (next_call w)) ->
  (forall w', writes w w' (<[k := v]> (rows t w)) -> Q tt w') -> runs (Update faults t k v) w X Q.
Proof.
  intros HX Hn HQ. apply runs_call; [intros ?; by apply HX, call_faulty|]. unfold runs.
  rewrite rows_tick. destruct (rows t w !! k) eqn:E; [|by apply Hn]. apply HQ, writes_set.
Qed.

Lemma runs_Delete k w (X : W -> Prop) Q : (faulty -> X (next_call w)) -> (rows t w !! k = None -> X (next_call w)) ->
  (forall w', writes w w' (delete k (rows t w)) -> Q tt w') -> runs (Delete faults t k) w X Q.
Proof.
  intros HX Hn HQ. apply runs_call; [intros ?; by apply HX, call_faulty|]. unfold runs.
  rewrite rows_tick. destruct (rows t w !! k) eqn:E; [|by apply Hn]. apply HQ, writes_set.
Qed.

Lemma runs_create_once k v w (X : W -> Prop) Q : (faulty -> X (next_call w)) ->
  (forall w', writes w w' (<[k := default v (rows t w !! k)]> (rows t w)) -> Q tt w') -> runs (unless_exists (Create faults t k v)) w X Q.
Proof.
  intros HX HQ. unfold unless_exists, mtry, runs. unfold Create.
  destruct (call_cases (fun w => match rows t w !! k with Some _ => (w, Bad (IsAlreadyExists "already exists"))
    | None => (set_rows t (<[k := v]> (rows t w)) w, Good tt) end) w) as [(ft & Hft & ->)| ->].
  - assert (HX' : X (next_call w)) by (apply HX; by exists (calls_made w), ft). by destruct ft.
  - rewrite rows_tick. destruct (rows t w !! k) as [v'|] eqn:E; simpl; apply HQ; simpl.
    + rewrite insert_id by done. apply writes_tick.
    + apply writes_set.
Qed.

Lemma runs_delete_once k w (X : W -> Prop) Q : (faulty -> X (next_call w)) ->
  (forall w', writes w w' (delete k (rows t w)) -> Q tt w') -> runs (unless_gone (Delete faults t k)) w X Q.
Proof.
  intros HX HQ. unfold unless_gone, mtry, runs. unfold Delete.
  destruct (call_cases (fun w => match rows t w !! k with Some _ => (set_rows t (delete k (rows t w)) w, Good tt)
    | None => (w, Bad (IsNotFound "not found")) end) w) as [(ft & Hft & ->)| ->].
  - assert (HX' : X (next_call w)) by (apply HX; by exists (calls_made w), ft). by destruct ft.
  - rewrite rows_tick. destruct (rows t w !! k) as [v'|] eqn:E; simpl; apply HQ.
    + apply writes_set.
    + rewrite delete_id by done. apply writes_tick.
Qed.

(** A read whose failure ends the work, and that goes on when the object is gone. *)
Lemma runs_read {A} k (f : V -> MM A) (gone : MM A) w (X : W -> Prop) Q : (faulty -> X (next_call w)) ->
  (forall v, rows t w !! k = Some v -> runs (f v) (next_call w) X Q) -> (rows t w !! k = None -> runs gone (next_call w) X Q) ->
  runs (mtry (Get faults t k) f (fun err => match err with IsNotFound _ => gone | _ => merr err end)) w X Q.
Proof.
  intros HX Hv Hn. unfold mtry, runs, Get.
  destruct (call_cases (fun w => match rows t w !! k with Some v => (w, Good v) | None => (w, Bad (IsNotFound "not found")) end) w)
    as [(ft & Hft & ->)| ->].
  - assert (HX' : X (next_call w)) by (apply HX; by exists (calls_made w), ft). by destruct ft.
  - rewrite rows_tick. destruct (rows t w !! k); [by apply Hv|by apply Hn].
Qed.

(** An update with retries of an object that is there writes the changed object; after a
conflict it may be the change of what was stored instead. One that fails writes nothing. *)
Lemma update_retry_spec modify k old : (forall v, modify (modify v) = modify v) -> forall n obj w (X : W -> Prop), 0 < n ->
  rows t w !! k = Some old -> (faulty -> forall w', writes w w' (rows t w) -> X w') ->
  runs (update_retry faults t n modify k obj) w X (fun _ w' =>
    writes w w' (<[k := modify obj]> (rows t w)) \/ conflicted /\ writes w w' (<[k := modify old]> (rows t w))).
Proof.
  intros Hid. induction n as [|n IH]; intros obj w X Hn Hk HX; [lia|]. simpl. unfold runs, mtry. unfold Update, Get.
  destruct (call_cases (fun w => match rows t w !! k with Some _ => (set_rows t (<[k := modify obj]> (rows t w)) w, Good tt)
    | None => (w, Bad (IsNotFound "not found")) end) w) as [(ft & Hft & ->)| ->].
  2:{ rewrite rows_tick, Hk. simpl. left. apply writes_set. }
  assert (Hk1 : rows t (next_call (next_call w)) !! k = Some old) by (by rewrite !rows_tick).
  assert (Hw : writes w (next_call (next_call w)) (rows t w)).
  { eapply writes_trans; [apply writes_tick|]. rewrite <- (rows_tick w). apply writes_tick. }
  assert (Hf : faulty) by (by exists (calls_made w), ft).
  assert (HX1 : X (next_call (next_call w))) by (by apply HX).
  assert (HX2 : faulty -> forall w', writes (next_call (next_call w)) w' (rows t (next_call (next_call w))) -> X w').
  { intros _ w' Hw'. apply HX; [done|]. rewrite !rows_tick in Hw'. exact (writes_trans _ _ _ _ _ Hw Hw'). }
  destruct ft as [e|e]; simpl.
  2:{ destruct (call_cases (fun w => match rows t w !! k with Some v => (w, Good v) | None => (w, Bad (IsNotFound "not found")) end) (next_call w))
        as [([?|?] & _ & ->)| ->]; simpl; [done..|]. by rewrite Hk1. }
  assert (Hc : conflicted) by (by exists (calls_made w), e).
  destruct (call_cases (fun w => match rows t w !! k with Some v => (w, Good v) | None => (w, Bad (IsNotFound "not found")) end) (next_call w))
    as [([?|?] & _ & ->)| ->]; simpl; [| |rewrite Hk1]; (destruct (Nat.eqb_spec n 0); [done|]).
  1,2: eapply (runs_mono _ _ X X); [apply (IH (modify obj) _ X); [lia|done|done]|done|]; intros u w' Hr;
    rewrite Hid, !rows_tick in Hr; destruct Hr as [Hr|[_ Hr]]; [left|right; split; [done|]]; exact (writes_trans _ _ _ _ _ Hw Hr).
  eapply (runs_mono _ _ X X); [apply (IH old _ X); [lia|done|done]|done|]; intros u w' Hr; rewrite !rows_tick in Hr.
  right. split; [done|]. destruct Hr as [Hr|[_ Hr]]; exact (writes_trans _ _ _ _ _ Hw Hr).
Qed.

End table.
End facts.
