(* ===== verification/McsApi.v ===== *)
(** Multi-cluster services: the objects, their helpers and the servers.

utils/helper/mcs.go, and the calls of the controllers in
clustertree/cluster-manager/controllers/mcs. A [Mesh] is what the API servers of the host
cluster ([None]) and of the leaf clusters ([Some name]) store, one table per kind of
object; a call may fail with a conflict or another error, without effect, when [faults]
says so. The clients' caches show what is stored. *)
From S2P Require Import Prelude GoStr PodApi LeafManager PodEnv PodProg Calls Tables.

(** * Objects *)

Definition ServiceKey : string := "kubernetes.io/service-name".
Definition ServiceExportLabelKey : string := "kosmos.io/service-export".
Definition ServiceImportLabelKey : string := "kosmos.io/service-import".
Definition MCSLabelValue : string := "ture".
Definition ServiceEndpointsKey : string := "kosmos.io/address".
Definition DisconnectedEndpointsKey : string := "kosmos.io/disconnected-address".
Definition AutoCreateMCSAnnotation : string := "kosmos.io/auto-create-mcs".
Definition MCSFinalizer : string := "kosmos.io/multi-cluster-service-finalizer".

Record SliceEndpoint := mkEndpoint { ep_Addresses : list string; ep_Rest : opaque }.

(** [sl_Meta] is the rest of the metadata. *)
Record EndpointSlice := mkSlice {
  sl_Namespace : string; sl_Name : string; sl_Labels : option smap; sl_Annotations : option smap; sl_Deleting : bool;
  sl_Meta : opaque; sl_AddressType : string; sl_Endpoints : list SliceEndpoint; sl_Ports : opaque }.

Record ServiceExport := mkExport {
  xp_Namespace : string; xp_Name : string; xp_Deleting : bool; xp_Finalizers : list string; xp_Rest : opaque }.

Record ServiceImport := mkImport {
  im_Namespace : string; im_Name : string; im_Annotations : option smap; im_Deleting : bool; im_Finalizers : list string; im_Rest : opaque }.

Record McsPort := mkMcsPort {
  mp_NodePort : Z; mp_Name : string; mp_Protocol : string; mp_Port : Z; mp_AppProtocol : option string; mp_TargetPort : opaque }.

Record McsService := mkMcsService {
  ms_Namespace : string; ms_Name : string; ms_Annotations : option smap; ms_Deleting : bool; ms_ResourceVersion : string;
  ms_Type : string; ms_ClusterIP : string; ms_Ports : list McsPort; ms_IPFamilies : list string; ms_IPFamilyPolicy : option string;
  ms_ExternalTrafficPolicy : string; ms_Rest : opaque }.

(** ** helper/mcs.go *)

Definition AddEndpointSliceAnnotation (k v : string) (eps : EndpointSlice) : EndpointSlice :=
  mkSlice (sl_Namespace eps) (sl_Name eps) (sl_Labels eps) (Some (<[k := v]> (map_of (sl_Annotations eps)))) (sl_Deleting eps)
    (sl_Meta eps) (sl_AddressType eps) (sl_Endpoints eps) (sl_Ports eps).

Definition AddEndpointSliceLabel (k v : string) (eps : EndpointSlice) : EndpointSlice :=
  mkSlice (sl_Namespace eps) (sl_Name eps) (Some (<[k := v]> (map_of (sl_Labels eps)))) (sl_Annotations eps) (sl_Deleting eps)
    (sl_Meta eps) (sl_AddressType eps) (sl_Endpoints eps) (sl_Ports eps).

(** Deleting from a nil map does nothing. *)
Definition RemoveAnnotation (k : string) (eps : EndpointSlice) : EndpointSlice :=
  mkSlice (sl_Namespace eps) (sl_Name eps) (sl_Labels eps) (delete k <$> sl_Annotations eps) (sl_Deleting eps)
    (sl_Meta eps) (sl_AddressType eps) (sl_Endpoints eps) (sl_Ports eps).

Definition AddServiceImportAnnotation (k v : string) (i : ServiceImport) : ServiceImport :=
  mkImport (im_Namespace i) (im_Name i) (Some (<[k := v]> (map_of (im_Annotations i)))) (im_Deleting i) (im_Finalizers i) (im_Rest i).

Definition GetLabelOrAnnotationValue (values : option smap) (valueKey : string) : string := get (map_of values) valueKey.

Definition HasAnnotation (annotations : option smap) (key : string) : bool := bool_decide (is_Some (map_of annotations !! key)).

(** [controllerutil]'s finalizers. *)
Definition add_finalizer (f : string) (l : list string) : list string := if bool_decide (f ∈ l) then l else l ++ [f].
Definition remove_finalizer (f : string) (l : list string) : list string := List.filter (fun g => negb (g =s f)) l.

Definition export_finalizers (f : list string -> list string) (x : ServiceExport) : ServiceExport :=
  mkExport (xp_Namespace x) (xp_Name x) (xp_Deleting x) (f (xp_Finalizers x)) (xp_Rest x).
Definition import_finalizers (f : list string -> list string) (i : ServiceImport) : ServiceImport :=
  mkImport (im_Namespace i) (im_Name i) (im_Annotations i) (im_Deleting i) (f (im_Finalizers i)) (im_Rest i).

(** * Servers *)

Abbreviation place := (option string).
Abbreviation key := (place * (string * string))%type.

Record Mesh := mkMesh {
  mesh_calls : nat; mesh_services : gmap key McsService; mesh_slices : gmap key EndpointSlice; mesh_exports : gmap key ServiceExport;
  mesh_imports : gmap key ServiceImport; mesh_namespaces : gset (place * string) }.

Definition mesh_tick (w : Mesh) : Mesh :=
  mkMesh (S (mesh_calls w)) (mesh_services w) (mesh_slices w) (mesh_exports w) (mesh_imports w) (mesh_namespaces w).
#[export] Instance Mesh_server : Server Mesh := mkServer _ mesh_calls mesh_tick.
Abbreviation MM := (Calls.M Mesh apierr).

(** The object of this name is in a namespace of this cluster. *)
Definition within (p : place) (ns : string) (k : key) : bool := bool_decide (fst k = p) && (fst (snd k) =s ns).

Definition services : Table Mesh key McsService := mkTable Mesh key _ _ _ mesh_services
  (fun m w => mkMesh (mesh_calls w) m (mesh_slices w) (mesh_exports w) (mesh_imports w) (mesh_namespaces w))
  (fun w => mkMesh 0 ∅ (mesh_slices w) (mesh_exports w) (mesh_imports w) (mesh_namespaces w)).
Definition slices : Table Mesh key EndpointSlice := mkTable Mesh key _ _ _ mesh_slices
  (fun m w => mkMesh (mesh_calls w) (mesh_services w) m (mesh_exports w) (mesh_imports w) (mesh_namespaces w))
  (fun w => mkMesh 0 (mesh_services w) ∅ (mesh_exports w) (mesh_imports w) (mesh_namespaces w)).
Definition exports : Table Mesh key ServiceExport := mkTable Mesh key _ _ _ mesh_exports
  (fun m w => mkMesh (mesh_calls w) (mesh_services w) (mesh_slices w) m (mesh_imports w) (mesh_namespaces w))
  (fun w => mkMesh 0 (mesh_services w) (mesh_slices w) ∅ (mesh_imports w) (mesh_namespaces w)).
Definition imports : Table Mesh key ServiceImport := mkTable Mesh key _ _ _ mesh_imports
  (fun m w => mkMesh (mesh_calls w) (mesh_services w) (mesh_slices w) (mesh_exports w) m (mesh_namespaces w))
  (fun w => mkMesh 0 (mesh_services w) (mesh_slices w) (mesh_exports w) ∅ (mesh_namespaces w)).

#[export] Instance services_laws : TableLaws services. Proof. by split. Qed.
#[export] Instance slices_laws : TableLaws slices. Proof. by split. Qed.
#[export] Instance exports_laws : TableLaws exports. Proof. by split. Qed.
#[export] Instance imports_laws : TableLaws imports. Proof. by split. Qed.

Section mesh.
  Context (faults : nat -> option fault).

Section table.
  Context {V : Type} (t : Table Mesh key V).

(** The objects of a namespace that a selector picks, in some order. *)
Definition List_ (p : place) (ns : string) (sel : V -> bool) : MM (list (key * V)) := Calls.call (oracle faults) (fun w =>
  (w, Good (List.filter (fun kv => within p ns (fst kv) && sel (snd kv)) (map_to_list (rows t w))))).

Definition DeleteAllOf (p : place) (ns : string) (sel : V -> bool) : MM unit := Calls.call (oracle faults) (fun w =>
  (set_rows t (filter (fun kv => (within p ns (fst kv) && sel (snd kv)) = false) (rows t w)) w, Good tt)).

End table.

Definition CreateNamespace (p : place) (ns : string) : MM unit := Calls.call (oracle faults) (fun w =>
  if bool_decide ((p, ns) ∈ mesh_namespaces w) then (w, Bad (IsAlreadyExists "already exists"))
  else (mkMesh (mesh_calls w) (mesh_services w) (mesh_slices w) (mesh_exports w) (mesh_imports w) ({[(p, ns)]} ∪ mesh_namespaces w), Good tt)).

End mesh.

(** * Finalizers *)

Lemma add_finalizer_idem f l : add_finalizer f (add_finalizer f l) = add_finalizer f l.
Proof.
  unfold add_finalizer. destruct (decide (f ∈ l)) as [H|H]; [by rewrite !(bool_decide_eq_true_2 _ H)|].
  rewrite !(bool_decide_eq_false_2 _ H), bool_decide_eq_true_2; [done|]. apply elem_of_app. right. by left.
Qed.

Lemma filter_same {A} (p : A -> bool) l : (forall x, x ∈ l -> p x = true) -> List.filter p l = l.
Proof. induction l as [|x l IH]; intros H; simpl; [done|]. rewrite H by (by left). f_equal. apply IH. intros y Hy. apply H. by right. Qed.

Lemma remove_finalizer_absent f l : f ∉ l -> remove_finalizer f l = l.
Proof. intros H. apply filter_same. intros g Hg. apply negb_true_iff, bool_decide_eq_false. congruence. Qed.

Lemma remove_finalizer_idem f l : remove_finalizer f (remove_finalizer f l) = remove_finalizer f l.
Proof. apply remove_finalizer_absent. unfold remove_finalizer. rewrite list_filter_spec, bool_decide_eq_true_2; [|done]. by intros [_ ?]. Qed.
