(* ===== verification/McsExport.v ===== *)
(** Multi-cluster services on the host cluster:
clustertree/cluster-manager/controllers/mcs/auto_mcs_controller.go and
serviceexport_controller.go.

[Auto_Reconcile] makes a ServiceExport on the host and a ServiceImport on every leaf
cluster for the services that ask for it; [Export_Reconcile] marks the endpoint slices of
an exported service. Recorded events are left out. *)
From S2P Require Import Prelude GoStr PodApi LeafManager PodEnv PodProg Calls Tables McsApi.

(** * auto_mcs_controller.go *)

Definition matchNamespace (namespace : string) (prefix : list string) : bool := any (fun p => HasPrefix namespace p) prefix.

Definition hasAutoMCSAnnotation (service : McsService) : bool := HasAnnotation (ms_Annotations service) AutoCreateMCSAnnotation.

(** The new objects. *)
Definition new_export (nn : string * string) : ServiceExport := mkExport (fst nn) (snd nn) false [] "".
Definition new_import (nn : string * string) : ServiceImport := mkImport (fst nn) (snd nn) None false [] "type: ClusterSetIP, ports: TCP 80".

Section auto.
  Context (faults : nat -> option fault).
  (** The Cluster objects, the registry of clients, and the options of the controller. *)
  Context (clusterList : list LeafCluster) (clients : gmap string unit) (AutoCreateMCSPrefix ReservedNamespaces : list string).

Definition Auto_shouldEnqueue (service : McsService) : bool :=
  if bool_decide (ms_Namespace service ∈ ReservedNamespaces) then false
  else matchNamespace (ms_Namespace service) AutoCreateMCSPrefix || hasAutoMCSAnnotation service.

(** The predicate on updates of services. *)
Definition service_updated (oldService newService : McsService) : bool :=
  negb (Bool.eqb (Auto_shouldEnqueue newService) (Auto_shouldEnqueue oldService)).

Definition ListClusterObjects : MM (list LeafCluster) := Calls.call (oracle faults) (fun w => (w, Good clusterList)).

Definition leaf_client (cluster : LeafCluster) : MM string :=
  match GetLeafClientResource clients (GetActualClusterName cluster) with
  | inl _ => mok (GetActualClusterName cluster)
  | inr err => merr (OtherError err)
  end.

Fixpoint each_leaf (f : string -> MM unit) (l : list LeafCluster) : MM unit :=
  match l with
  | [] => mok tt
  | cluster :: rest =>
      if IsRootCluster cluster then each_leaf f rest
      else do! leaf := leaf_client cluster in do! _ := f leaf in each_leaf f rest
  end.

Definition cleanUpMcsResources (nn : string * string) (l : list LeafCluster) : MM unit :=
  do! _ := unless_gone (Delete faults exports (None, nn)) in
  each_leaf (fun leaf => unless_gone (Delete faults imports (Some leaf, nn))) l.

Definition autoCreateMcsResources (service : McsService) (l : list LeafCluster) : MM unit :=
  let nn := (ms_Namespace service, ms_Name service) in
  do! _ := unless_exists (Create faults exports (None, nn) (new_export nn)) in
  each_leaf (fun leaf =>
    do! _ := unless_exists (CreateNamespace faults (Some leaf) (ms_Namespace service)) in
    unless_exists (Create faults imports (Some leaf, nn) (new_import nn))) l.

(** A service that is not there reads as an empty one, which has no namespace. *)
Definition no_service : McsService := mkMcsService "" "" None false "" "" "" [] [] None "" "".

Definition Auto_Reconcile (nn : string * string) : MM unit :=
  mtry (Get faults services (None, nn))
    (fun service =>
      let shouldDelete := negb (matchNamespace (ms_Namespace service) AutoCreateMCSPrefix) && negb (hasAutoMCSAnnotation service) in
      do! l := ListClusterObjects in
      if shouldDelete || ms_Deleting service then cleanUpMcsResources nn l else autoCreateMcsResources service l)
    (fun err => match err with
      | IsNotFound _ => do! l := ListClusterObjects in cleanUpMcsResources nn l
      | _ => merr err
      end).

End auto.

(** * serviceexport_controller.go *)

Section export.
  Context (faults : nat -> option fault) (steps : Z) (ReservedNamespaces : list string).

Definition Export_shouldEnqueue (eps : EndpointSlice) : bool := negb (bool_decide (sl_Namespace eps ∈ ReservedNamespaces)).

(** The request for the export an endpoint slice belongs to. *)
Definition endpointSliceServiceExportFn (eps : EndpointSlice) : string * string :=
  (sl_Namespace eps, GetLabelOrAnnotationValue (sl_Labels eps) ServiceKey).

(** [labels.SelectorFromSet]: the label is there with this value. *)
Definition of_service (name : string) (eps : EndpointSlice) : bool := bool_decide (map_of (sl_Labels eps) !! ServiceKey = Some name).

Definition updateEndpointSlice (modifyEps : EndpointSlice -> EndpointSlice) (k : key) (eps : EndpointSlice) : MM unit :=
  update_retry faults slices (DefaultUpdateRetryBackoff steps) modifyEps k eps.

Definition updateServiceExport (modifyExport : ServiceExport -> ServiceExport) (k : key) (export : ServiceExport) : MM unit :=
  update_retry faults exports (DefaultUpdateRetryBackoff steps) modifyExport k export.

Fixpoint update_slices (modifyEps : EndpointSlice -> EndpointSlice) (l : list (key * EndpointSlice)) : MM unit :=
  match l with
  | [] => mok tt
  | (k, newEps) :: rest =>
      if sl_Deleting newEps then update_slices modifyEps rest
      else do! _ := updateEndpointSlice modifyEps k newEps in update_slices modifyEps rest
  end.

Definition removeAnnotation (namespace name : string) : MM unit :=
  do! l := List_ faults slices None namespace (of_service name) in update_slices (RemoveAnnotation ServiceExportLabelKey) l.

Definition syncServiceExport (nn : string * string) : MM unit :=
  do! l := List_ faults slices None (fst nn) (of_service (snd nn)) in
  update_slices (AddEndpointSliceAnnotation ServiceExportLabelKey MCSLabelValue) l.

Definition Export_ensureFinalizer (nn : string * string) (export : ServiceExport) : MM unit :=
  if bool_decide (MCSFinalizer ∈ xp_Finalizers export) then mok tt
  else updateServiceExport (export_finalizers (add_finalizer MCSFinalizer)) (None, nn) export.

Definition Export_removeFinalizer (nn : string * string) (export : ServiceExport) : MM unit :=
  if bool_decide (MCSFinalizer ∉ xp_Finalizers export) then mok tt
  else updateServiceExport (export_finalizers (remove_finalizer MCSFinalizer)) (None, nn) export.

Definition Export_Reconcile (nn : string * string) : MM unit :=
  mtry (Get faults exports (None, nn))
    (fun serviceExport =>
      if xp_Deleting serviceExport
      then do! _ := removeAnnotation (fst nn) (snd nn) in Export_removeFinalizer nn serviceExport
      else do! _ := syncServiceExport nn in Export_ensureFinalizer nn serviceExport)
    (fun err => match err with IsNotFound _ => mok tt | _ => merr err end).

End export.

(** * Facts *)

(** Each row under a condition is changed, the others stay. *)
Definition change {V} (f : key -> V -> bool) (modify : V -> V) (m : gmap key V) : gmap key V :=
  map_imap (fun k v => Some (if f k v then modify v else v)) m.

Lemma lookup_change {V} f (modify : V -> V) m k : change f modify m !! k = (fun v => if f k v then modify v else v) <$> (m !! k).
Proof. unfold change. rewrite map_lookup_imap. by destruct (m !! k). Qed.

Section export_facts.
  Context (faults : nat -> option fault) (steps : Z).

Definition listed (l : list (key * EndpointSlice)) (k : key) : bool := any (fun kv => bool_decide (fst kv = k) && negb (sl_Deleting (snd kv))) l.

Arguments listed _ _ : simpl never.

Lemma listed_cons k v l k' : listed ((k, v) :: l) k' = (bool_decide (k = k') && negb (sl_Deleting v)) || listed l k'.
Proof. done. Qed.

Lemma update_slices_spec modify l : (forall v, modify (modify v) = modify v) -> (forall v, sl_Deleting (modify v) = sl_Deleting v) ->
  forall w (X : Mesh -> Prop), NoDup (map fst l) -> (forall k v, (k, v) ∈ l -> rows slices w !! k = Some v) -> (faulty faults -> forall w', X w') ->
  runs (update_slices faults steps modify l) w X (fun _ w' => writes slices w w' (change (fun k _ => listed l k) modify (rows slices w))).
Proof.
  intros Hid Hdel. induction l as [|[k v] l IH]; intros w X Hnd Hst HX; simpl.
  { apply runs_ok. split; [|done]. apply map_eq. intros k. rewrite lookup_change. by destruct (rows slices w !! k). }
  apply list.NoDup_cons in Hnd as [Hk Hnd]. destruct (sl_Deleting v) eqn:Ed.
  - eapply runs_mono; [apply (IH w X); try done; intros k' v' ?; apply Hst; by right|done|]. intros _ w' [Hr Hw]. split; [|done].
    rewrite Hr. apply map_eq. intros k'. rewrite !lookup_change. cbv beta. rewrite listed_cons, Ed, andb_false_r. done.
  - apply runs_seq. eapply runs_mono; [apply (update_retry_spec faults slices modify k v Hid _ v w X)|done|].
    + apply backoff_positive.
    + apply Hst. by left.
    + auto.
    + intros u w1 Hw1. assert (Hw : writes slices w w1 (<[k := modify v]> (rows slices w))) by (destruct Hw1 as [?|[_ ?]]; done).
      destruct Hw as [Hr1 Ho1]. eapply runs_mono; [apply (IH w1 X)|done|]; try done.
      * intros k' v' Hin. rewrite Hr1, lookup_insert_ne; [apply Hst; by right|]. intros ->. apply Hk.
        apply list_elem_of_In, (in_map fst _ (k', v')), list_elem_of_In. done.
      * intros _ w' [Hr Hw]. split; [|congruence]. rewrite Hr, Hr1. apply map_eq. intros k'. rewrite !lookup_change. cbv beta. rewrite listed_cons, Ed, andb_true_r.
        destruct (decide (k = k')) as [<- |Hne].
        -- rewrite lookup_insert_eq, (Hst k v) by (by left). simpl. rewrite bool_decide_eq_true_2 by done. simpl. f_equal.
           destruct (listed l k); [apply Hid|done].
        -- rewrite lookup_insert_ne, bool_decide_eq_false_2 by done. done.
Qed.

(** The slices of a service in a namespace of the host that are not being deleted. *)
Definition exported (nn : string * string) (k : key) (eps : EndpointSlice) : bool :=
  within None (fst nn) k && of_service (snd nn) eps && negb (sl_Deleting eps).

Lemma update_listed nn modify w (X : Mesh -> Prop) : (forall v, modify (modify v) = modify v) -> (forall v, sl_Deleting (modify v) = sl_Deleting v) ->
  (faulty faults -> forall w', X w') ->
  runs (do! l := List_ faults slices None (fst nn) (of_service (snd nn)) in update_slices faults steps modify l) w X
    (fun _ w' => writes slices w w' (change (exported nn) modify (rows slices w))).
Proof.
  intros Hid Hdel HX. apply runs_seq, runs_call; [intros ?; by apply HX, call_faulty|]. unfold runs at 1.
  set (l := List.filter _ _).
  assert (Hl : forall k v, (k, v) ∈ l <-> rows slices w !! k = Some v /\ within None (fst nn) k && of_service (snd nn) v = true).
  { intros k v. unfold l. rewrite list_filter_spec, elem_of_map_to_list, rows_tick. simpl. reflexivity. }
  eapply runs_mono; [apply (update_slices_spec modify l Hid Hdel (next_call w) X)|done|].
  - unfold l. assert (Hnd : NoDup (map fst (map_to_list (rows slices (next_call w))))) by apply NoDup_fst_map_to_list.
    revert Hnd. generalize (map_to_list (rows slices (next_call w))). intros m. induction m as [|x m IH]; [done|]. simpl.
    intros [Hx Hm]%list.NoDup_cons. destruct (_ && _); [|by apply IH]. simpl. apply list.NoDup_cons. split; [|by apply IH].
    intros Hin. apply Hx. apply list_elem_of_In, in_map_iff in Hin as (y & Hy & Hin). apply list_elem_of_In, in_map_iff.
    exists y. split; [done|]. apply list_elem_of_In, list_filter_spec in Hin. apply list_elem_of_In. tauto.
  - intros k v Hkv. rewrite rows_tick. by apply Hl.
  - done.
  - intros _ w' [Hr Hw]. split; [|by rewrite Hw]. rewrite Hr, rows_tick. apply map_eq. intros k. rewrite !lookup_change.
    destruct (rows slices w !! k) as [v|] eqn:Ek; [|done]. simpl. f_equal.
    assert (E : listed l k = exported nn k v); [|by rewrite E]. unfold exported. apply eq_true_iff_eq. unfold listed. rewrite any_true, andb_true_iff. split.
    + intros ((k' & v') & Hin & [Hk%bool_decide_eq_true Hd]%andb_true_iff). simpl in *. subst k'. apply Hl in Hin as [Hin Hs]. by simplify_eq.
    + intros [Hs Hd]. exists (k, v). split; [by apply Hl|]. simpl. by rewrite bool_decide_eq_true_2.
Qed.

End export_facts.

Lemma RemoveAnnotation_idem k v : RemoveAnnotation k (RemoveAnnotation k v) = RemoveAnnotation k v.
Proof. unfold RemoveAnnotation. simpl. destruct (sl_Annotations v) as [m|]; [|done]. simpl. by rewrite delete_delete_eq. Qed.

Lemma AddAnnotation_idem k x v : AddEndpointSliceAnnotation k x (AddEndpointSliceAnnotation k x v) = AddEndpointSliceAnnotation k x v.
Proof. unfold AddEndpointSliceAnnotation. simpl. by rewrite insert_insert_eq. Qed.

Section export_finalizers.
  Context (faults : nat -> option fault) (steps : Z).

Lemma update_export_spec nn modify x w (X : Mesh -> Prop) : (forall v, modify (modify v) = modify v) ->
  rows exports w !! (None, nn) = Some x -> (faulty faults -> forall w', X w') ->
  runs (updateServiceExport faults steps modify (None, nn) x) w X (fun _ w' => writes exports w w' (<[(None, nn) := modify x]> (rows exports w))).
Proof.
  intros Hid Hx HX. eapply runs_mono; [apply (update_retry_spec faults exports modify (None, nn) x Hid _ x w X)|done|]; auto.
  - apply backoff_positive.
  - intros u w' [?|[_ ?]]; done.
Qed.

(** The finalizer of a stored export is there, or gone. *)
Lemma finalize_spec nn x w (X : Mesh -> Prop) : rows exports w !! (None, nn) = Some x -> (faulty faults -> forall w', X w') ->
  runs (Export_ensureFinalizer faults steps nn x) w X
    (fun _ w' => writes exports w w' (<[(None, nn) := export_finalizers (add_finalizer MCSFinalizer) x]> (rows exports w))) /\
  runs (Export_removeFinalizer faults steps nn x) w X
    (fun _ w' => writes exports w w' (<[(None, nn) := export_finalizers (remove_finalizer MCSFinalizer) x]> (rows exports w))).
Proof.
  intros Hx HX. split; unfold Export_ensureFinalizer, Export_removeFinalizer; case_bool_decide as Hf.
  - apply runs_ok. rewrite insert_id; [apply writes_same|]. rewrite Hx. f_equal. unfold export_finalizers, add_finalizer.
    rewrite bool_decide_eq_true_2 by done. by destruct x.
  - apply update_export_spec; try done. intros v. unfold export_finalizers. simpl. by rewrite add_finalizer_idem.
  - apply runs_ok. rewrite insert_id; [apply writes_same|]. rewrite Hx. f_equal. unfold export_finalizers.
    rewrite remove_finalizer_absent by done. by destruct x.
  - apply update_export_spec; try done. intros v. unfold export_finalizers. simpl. by rewrite remove_finalizer_idem.
Qed.

End export_finalizers.

(** What a finished reconciliation of an export has done. *)
Definition export_done (nn : string * string) (w w' : Mesh) : Prop :=
  (match rows exports w !! (None, nn) with
   | None => rows slices w' = rows slices w /\ rows exports w' = rows exports w
   | Some x =>
       let deleting := xp_Deleting x in
       rows slices w' = change (exported nn)
         (if deleting then RemoveAnnotation ServiceExportLabelKey else AddEndpointSliceAnnotation ServiceExportLabelKey MCSLabelValue) (rows slices w) /\
       rows exports w' = <[(None, nn) := export_finalizers ((if deleting then remove_finalizer else add_finalizer) MCSFinalizer) x]> (rows exports w)
   end) /\
  rows services w' = rows services w /\ rows imports w' = rows imports w /\ mesh_namespaces w' = mesh_namespaces w.

(** The two tables together. *)
Lemma export_written w w1 w2 ms me :
  writes slices w w1 ms -> writes exports w1 w2 me ->
  rows slices w2 = ms /\ rows exports w2 = me /\ rows services w2 = rows services w /\ rows imports w2 = rows imports w /\
  mesh_namespaces w2 = mesh_namespaces w /\ rows exports w1 = rows exports w.
Proof. intros [H1 H2] [H3 H4]. destruct w, w1, w2. unfold rows, rest_of in *. simpl in *. by simplify_eq. Qed.


(** * The automatic exports and imports *)

(** The names of the actual leaf clusters. *)
Definition leaves (l : list LeafCluster) : list string := collect (fun c => if IsRootCluster c then None else Some (GetActualClusterName c)) l.

Section auto_facts.
  Context (faults : nat -> option fault) (clients : gmap string unit).

(** Some leaf cluster has no client yet. *)
Definition no_client (l : list LeafCluster) : Prop := exists c, c ∈ l /\ IsRootCluster c = false /\ clients !! GetActualClusterName c = None.

Lemma each_leaf_spec (f : string -> MM unit) (P : list string -> Mesh -> Prop) (X : Mesh -> Prop) :
  (forall leaf done w, P done w -> runs (f leaf) w X (fun _ w' => P (done ++ [leaf]) w')) ->
  forall l before w, (no_client l -> forall w', X w') -> P before w -> runs (each_leaf clients f l) w X (fun _ w' => P (before ++ leaves l) w').
Proof.
  intros Hf. induction l as [|c l IH]; intros before w HX HP; simpl.
  { apply runs_ok. by rewrite app_nil_r. }
  assert (HX' : no_client l -> forall w', X w').
  { intros (d & ? & ?). apply HX. exists d. split; [by right|done]. }
  unfold leaves. simpl. destruct (IsRootCluster c) eqn:Er; [by apply IH|]. fold (leaves l).
  apply runs_seq. unfold leaf_client, GetLeafClientResource. destruct (clients !! GetActualClusterName c) as [[]|] eqn:Ec.
  - apply runs_ok. apply runs_seq. eapply runs_mono; [by apply Hf|done|]. intros u w' HP'.
    specialize (IH _ w' HX' HP'). by rewrite <- app_assoc in IH.
  - apply HX. exists c. split; [by left|done].
Qed.

Definition touched (ls : list string) (nn : string * string) (k : key) : bool := any (fun leaf => bool_decide (k = (Some leaf, nn))) ls.

Lemma touched_snoc ls leaf nn k : touched (ls ++ [leaf]) nn k = touched ls nn k || bool_decide (k = (Some leaf, nn)).
Proof. unfold touched, any. rewrite existsb_app. simpl. by rewrite orb_false_r. Qed.

(** The mesh as it is after the export and the imports were removed, or made. *)
Definition removed_from (nn : string * string) (ls : list string) (w w' : Mesh) : Prop :=
  rows exports w' = delete (None, nn) (rows exports w) /\
  (forall k, rows imports w' !! k = if touched ls nn k then None else rows imports w !! k) /\
  rows services w' = rows services w /\ rows slices w' = rows slices w /\ mesh_namespaces w' = mesh_namespaces w.

Definition made_in (nn : string * string) (ls : list string) (w w' : Mesh) : Prop :=
  rows exports w' = <[(None, nn) := default (new_export nn) (rows exports w !! (None, nn))]> (rows exports w) /\
  (forall k, rows imports w' !! k = if touched ls nn k then Some (default (new_import nn) (rows imports w !! k)) else rows imports w !! k) /\
  rows services w' = rows services w /\ rows slices w' = rows slices w /\
  mesh_namespaces w' = mesh_namespaces w ∪ list_to_set (map (fun leaf => (Some leaf, fst nn)) ls).

(** Tables are separate. *)
Lemma exports_apart w w' m : writes exports w w' m ->
  rows imports w' = rows imports w /\ rows services w' = rows services w /\ rows slices w' = rows slices w /\ mesh_namespaces w' = mesh_namespaces w.
Proof. intros [_ H]. destruct w, w'. unfold rows, rest_of in *. simpl in *. by simplify_eq. Qed.

Lemma imports_apart w w' m : writes imports w w' m ->
  rows exports w' = rows exports w /\ rows services w' = rows services w /\ rows slices w' = rows slices w /\ mesh_namespaces w' = mesh_namespaces w.
Proof. intros [_ H]. destruct w, w'. unfold rows, rest_of in *. simpl in *. by simplify_eq. Qed.

Lemma cleanUp_spec nn l w (X : Mesh -> Prop) : (faulty faults \/ no_client l -> forall w', X w') ->
  runs (cleanUpMcsResources faults clients nn l) w X (fun _ w' => removed_from nn (leaves l) w w').
Proof.
  intros HX. apply runs_seq, (runs_delete_once faults exports); [intros ?; apply HX; by left|]. intros w1 Hw1.
  apply (each_leaf_spec _ (fun ls w' => removed_from nn ls w w') X) with (before := []); [|intros ?; apply HX; by right|].
  - intros leaf ls w2 (E1 & E2 & E3 & E4 & E5). apply (runs_delete_once faults imports); [intros ?; apply HX; by left|].
    intros w3 Hw3. unfold removed_from. destruct (imports_apart _ _ _ Hw3) as (-> & -> & -> & ->). destruct Hw3 as [-> _]. split_and!; try done.
    intros k. rewrite touched_snoc. case_bool_decide as Hk; [subst k; rewrite lookup_delete_eq, orb_true_r; done|].
    rewrite orb_false_r, lookup_delete_ne by done. apply E2.
  - destruct (exports_apart _ _ _ Hw1) as (E1 & E2 & E3 & E4). destruct Hw1 as [E5 _]. by unfold removed_from; rewrite E1, E2, E3, E4, E5.
Qed.

Lemma runs_namespace p ns w (X : Mesh -> Prop) Q : (faulty faults -> X (next_call w)) ->
  (forall w', rows exports w' = rows exports w -> rows imports w' = rows imports w -> rows services w' = rows services w ->
    rows slices w' = rows slices w -> mesh_namespaces w' = mesh_namespaces w ∪ {[(p, ns)]} -> Q tt w') ->
  runs (unless_exists (CreateNamespace faults p ns)) w X Q.
Proof.
  intros HX HQ. unfold unless_exists, mtry, runs, CreateNamespace.
  match goal with |- context [Calls.call (oracle faults) ?f w] => destruct (call_cases faults f w) as [(ft & Hft & ->)| ->] end.
  - assert (HX' : X (next_call w)) by (apply HX; by exists (mesh_calls w), ft). by destruct ft.
  - simpl. case_bool_decide; apply HQ; try done; simpl; set_solver.
Qed.

Lemma create_spec service l w (X : Mesh -> Prop) : (faulty faults \/ no_client l -> forall w', X w') ->
  runs (autoCreateMcsResources faults clients service l) w X (fun _ w' => made_in (ms_Namespace service, ms_Name service) (leaves l) w w').
Proof.
  intros HX. set (nn := (ms_Namespace service, ms_Name service)). unfold autoCreateMcsResources. fold nn.
  apply runs_seq, (runs_create_once faults exports); [intros ?; apply HX; by left|]. intros w1 Hw1.
  apply (each_leaf_spec _ (fun ls w' => made_in nn ls w w') X) with (before := []); [|intros ?; apply HX; by right|].
  - intros leaf ls w2 (E1 & E2 & E3 & E4 & E5). apply runs_seq, runs_namespace; [intros ?; apply HX; by left|].
    intros w3 N1 N2 N3 N4 N5. apply (runs_create_once faults imports); [intros ?; apply HX; by left|].
    intros w4 Hw4. unfold made_in. destruct (imports_apart _ _ _ Hw4) as (-> & -> & -> & ->). destruct Hw4 as [-> _].
    rewrite N1, N3, N4, N5, E5, map_app, list_to_set_app_L. split_and!; try done; [|simpl; set_solver].
    intros k. rewrite touched_snoc, N2. case_bool_decide as Hk.
    + subst k. rewrite lookup_insert_eq, orb_true_r, E2. by destruct (touched ls nn (Some leaf, nn)).
    + rewrite orb_false_r, lookup_insert_ne by done. apply E2.
  - destruct (exports_apart _ _ _ Hw1) as (E1 & E2 & E3 & E4). destruct Hw1 as [E5 _]. unfold made_in. rewrite E1, E2, E3, E4, E5.
    split_and!; try done. simpl. set_solver.
Qed.

End auto_facts.

(** The service asks for exports: it is there, is not being deleted, and its namespace or
an annotation says so. *)
Definition wants_export (prefix : list string) (nn : string * string) (w : Mesh) : bool :=
  match rows services w !! (None, nn) with
  | Some service => negb (ms_Deleting service) && (matchNamespace (ms_Namespace service) prefix || hasAutoMCSAnnotation service)
  | None => false
  end.

(** A reconciliation of a service ends with an error only if a call failed or a leaf
cluster has no client yet. Otherwise a service that asks for it has an export on the host
and, in every leaf cluster, its namespace and an import; existing ones are kept as they are.
For a service that does not, or is gone, the export and the imports of its name are gone
from the host and every leaf cluster, whoever made them. Nothing else is touched. *)
Theorem auto_mcs_done faults clusterList clients prefix nn w :
  (forall service, rows services w !! (None, nn) = Some service -> (ms_Namespace service, ms_Name service) = nn) ->
  runs (Auto_Reconcile faults clusterList clients prefix nn) w
    (fun _ => faulty faults \/ no_client clients clusterList)
    (fun _ w' => if wants_export prefix nn w then made_in nn (leaves clusterList) w w' else removed_from nn (leaves clusterList) w w').
Proof.
  intros Hkey. apply (runs_read faults services); [by intros ?; left| |].
  - intros service Hs. unfold wants_export. rewrite Hs. specialize (Hkey service Hs).
    apply runs_seq, runs_call; [intros ?; left; by apply call_faulty|]. unfold runs at 1.
    destruct (ms_Deleting service); rewrite ?orb_true_r, ?orb_false_r; simpl.
    { eapply runs_mono; [apply (cleanUp_spec faults clients nn clusterList _ (fun _ => faulty faults \/ no_client clients clusterList)); auto|done|].
      intros u w' Hw. by destruct w. }
    rewrite <- negb_orb. destruct (matchNamespace (ms_Namespace service) prefix || hasAutoMCSAnnotation service); simpl.
    + eapply runs_mono; [apply (create_spec faults clients service clusterList _ (fun _ => faulty faults \/ no_client clients clusterList)); auto|done|].
      intros u w' Hw. rewrite Hkey in Hw. by destruct w.
    + eapply runs_mono; [apply (cleanUp_spec faults clients nn clusterList _ (fun _ => faulty faults \/ no_client clients clusterList)); auto|done|].
      intros u w' Hw. by destruct w.
  - intros Hn. unfold wants_export. rewrite Hn. apply runs_seq, runs_call; [intros ?; left; by apply call_faulty|].
    unfold runs at 1.
    eapply runs_mono; [apply (cleanUp_spec faults clients nn clusterList _ (fun _ => faulty faults \/ no_client clients clusterList)); auto|done|].
    intros u w' Hw. by destruct w.
Qed.

(** * An example *)

Definition ex_service (annotations : option smap) : McsService :=
  mkMcsService "shop" "web" annotations false "" "ClusterIP" "10.0.0.1" [] [] None "" "".
Definition ex_mesh (annotations : option smap) : Mesh :=
  mkMesh 0 {[ (None, ("shop", "web")) := ex_service annotations ]} ∅
    {[ (None, ("shop", "web")) := mkExport "shop" "web" false [] "made by hand" ]} ∅ ∅.
Definition ex_leaf (name : string) : LeafCluster := mkLeafCluster name ∅ ∅ None.

Lemma auto_mcs_done_witness :
  let w := ex_mesh (Some {[ AutoCreateMCSAnnotation := "true" ]}) in
  wants_export [] ("shop", "web") w = true /\
  runs (Auto_Reconcile (fun _ => None) [ex_leaf "c1"; ex_leaf "c2"] {[ "c1" := tt; "c2" := tt ]} [] ("shop", "web")) w
    (fun _ => faulty (fun _ => None) \/ no_client {[ "c1" := tt; "c2" := tt ]} [ex_leaf "c1"; ex_leaf "c2"])
    (fun _ w' => if wants_export [] ("shop", "web") w then made_in ("shop", "web") (leaves [ex_leaf "c1"; ex_leaf "c2"]) w w'
                 else removed_from ("shop", "web") (leaves [ex_leaf "c1"; ex_leaf "c2"]) w w').
Proof.
  split; [reflexivity|].
  apply (auto_mcs_done (fun _ => None) [ex_leaf "c1"; ex_leaf "c2"] {[ "c1" := tt; "c2" := tt ]} [] ("shop", "web")).
  intros service Hs. vm_compute in Hs. injection Hs as <-. reflexivity.
Defined.

(** An export made by hand for a service that does not ask for automatic ones is removed as
soon as the service is reconciled, which a new cluster causes for every service. *)
Example export_by_hand_removed :
  rows exports (fst (Auto_Reconcile (fun _ => None) [] ∅ [] ("shop", "web") (ex_mesh None))) = ∅.
Proof. vm_compute. reflexivity. Qed.
