(* ===== verification/McsImport.v ===== *)
(** Multi-cluster services on a leaf cluster:
clustertree/cluster-manager/controllers/mcs/serviceimport_controller.go.

[Import_Reconcile] copies the service and the endpoint slices of the host cluster that a
ServiceImport of the leaf cluster [leaf] names, or removes the copies. Listers of the host
and of the leaf cluster show what is stored. Recorded events are left out. *)
From S2P Require Import Prelude GoStr LinkApi PodApi LeafManager PodEnv PodProg Calls Tables McsApi McsExport.

Definition AddressTypeIPv4 : string := "IPv4".
Definition AddressTypeIPv6 : string := "IPv6".
Definition IPv4Protocol : string := "IPv4".
Definition IPv6Protocol : string := "IPv6".
Definition IPFamilyPolicySingleStack : string := "SingleStack".
Definition ClusterIPNone : string := "None".

(** * Pure functions *)

Definition isServiceIPSet (service : McsService) : bool := negb (ms_ClusterIP service =s ClusterIPNone) && negb (ms_ClusterIP service =s "").

(** The target port is left empty. *)
Definition servicePorts (service : McsService) : list McsPort :=
  map (fun p => mkMcsPort (mp_NodePort p) (mp_Name p) (mp_Protocol p) (mp_Port p) (mp_AppProtocol p) "") (ms_Ports service).

Definition retainServiceFields (oldSvc newSvc : McsService) : McsService :=
  mkMcsService (ms_Namespace newSvc) (ms_Name newSvc) (ms_Annotations newSvc) (ms_Deleting newSvc) (ms_ResourceVersion oldSvc)
    (ms_Type newSvc) (ms_ClusterIP oldSvc) (ms_Ports newSvc) (ms_IPFamilies newSvc) (ms_IPFamilyPolicy newSvc)
    (ms_ExternalTrafficPolicy newSvc) (ms_Rest newSvc).

Definition retainEndpointSlice (original : EndpointSlice) (serviceName : string) : EndpointSlice :=
  AddEndpointSliceLabel ServiceKey serviceName (AddEndpointSliceAnnotation ServiceImportLabelKey MCSLabelValue
    (mkSlice (sl_Namespace original) (sl_Name original) None None false "" (sl_AddressType original) (sl_Endpoints original) (sl_Ports original))).

Definition clearEndpointSlice (slice : EndpointSlice) (disconnectedAddress : list string) : EndpointSlice :=
  let clear (endpoint : SliceEndpoint) :=
    let newAddresses := List.filter (fun address => negb (bool_decide (address ∈ disconnectedAddress))) (ep_Addresses endpoint) in
    if 0 <? length newAddresses then Some (mkEndpoint newAddresses (ep_Rest endpoint)) else None in
  mkSlice (sl_Namespace slice) (sl_Name slice) (sl_Labels slice) (sl_Annotations slice) (sl_Deleting slice) (sl_Meta slice)
    (sl_AddressType slice) (collect clear (sl_Endpoints slice)) (sl_Ports slice).

(** * The controller *)

Section import.
  Context (faults : nat -> option fault) (steps : Z) (ReservedNamespaces : list string).
  (** The leaf cluster and the IP family it is configured with. *)
  Context (leaf : string) (IPFamily : string).

(** A nil policy, or no family at all in a single-stack service, is a panic. *)
Definition checkServiceType (service : McsService) : MM bool :=
  match ms_IPFamilyPolicy service with
  | None => mfault
  | Some policy =>
      if policy =s IPFamilyPolicySingleStack then
        match ms_IPFamilies service with
        | [] => mfault
        | fam :: _ => mok (negb ((fam =s IPv6Protocol) && (IPFamily =s IPFamilyTypeIPV4) || (fam =s IPv4Protocol) && (IPFamily =s IPFamilyTypeIPV6)))
        end
      else mok true
  end.

Definition client_service (namespace : string) (service : McsService) : MM McsService :=
  let clusterIP := if isServiceIPSet service then "" else ClusterIPNone in
  let iPFamilies :=
    if IPFamily =s IPFamilyTypeALL then ms_IPFamilies service
    else if IPFamily =s IPFamilyTypeIPV4 then [IPv4Protocol] else [IPv6Protocol] in
  do! iPFamilyPolicy := (if IPFamily =s IPFamilyTypeALL
    then match ms_IPFamilyPolicy service with Some p => mok p | None => mfault end else mok IPFamilyPolicySingleStack) in
  mok (mkMcsService namespace (ms_Name service) (Some {[ ServiceImportLabelKey := MCSLabelValue ]}) false ""
    (ms_Type service) clusterIP (servicePorts service) iPFamilies (Some iPFamilyPolicy) (ms_ExternalTrafficPolicy service) "").

Definition generateService (service : McsService) (serviceImport : ServiceImport) : MM McsService :=
  client_service (im_Namespace serviceImport) service.

Definition createOrUpdateServiceInClient (service : McsService) : MM unit :=
  let k := (Some leaf, (ms_Namespace service, ms_Name service)) in
  mtry (Get faults services k)
    (fun oldService => Update faults services k (retainServiceFields oldService service))
    (fun err => match err with IsNotFound _ => Create faults services k service | _ => merr err end).

(** A service that does not fit the leaf cluster is not imported, and not tried again. *)
Definition importServiceHandler (rootService : McsService) (serviceImport : ServiceImport) : MM unit :=
  do! fits := checkServiceType rootService in
  if fits then do! clientService := generateService rootService serviceImport in createOrUpdateServiceInClient clientService
  else mok tt.

(** Nothing is changed before a retry: after a conflict what is stored is written back. *)
Definition Import_updateEndpointSlice (eps : EndpointSlice) : MM unit :=
  update_retry faults slices (DefaultUpdateRetryBackoff steps) (fun eps => eps) (Some leaf, (sl_Namespace eps, sl_Name eps)) eps.

Definition put_slice (newSlice : EndpointSlice) : MM unit :=
  mtry (Create faults slices (Some leaf, (sl_Namespace newSlice, sl_Name newSlice)) newSlice) mok
    (fun err => match err with IsAlreadyExists _ => Import_updateEndpointSlice newSlice | _ => merr err end).

Definition createOrUpdateEndpointSliceInClient (endpointSlice : EndpointSlice) (serviceName : string) : MM unit :=
  put_slice (retainEndpointSlice endpointSlice serviceName).

Definition without_disconnected (serviceImport : ServiceImport) (endpointSlice : EndpointSlice) : EndpointSlice :=
  if HasAnnotation (im_Annotations serviceImport) DisconnectedEndpointsKey
  then clearEndpointSlice endpointSlice (Split "," (GetLabelOrAnnotationValue (im_Annotations serviceImport) DisconnectedEndpointsKey))
  else endpointSlice.

Definition other_family (endpointSlice : EndpointSlice) : bool :=
  (sl_AddressType endpointSlice =s AddressTypeIPv4) && (IPFamily =s IPFamilyTypeIPV6) ||
  (sl_AddressType endpointSlice =s AddressTypeIPv6) && (IPFamily =s IPFamilyTypeIPV4).

Definition importEndpointSliceHandler (endpointSlice : EndpointSlice) (serviceImport : ServiceImport) : MM unit :=
  let endpointSlice := without_disconnected serviceImport endpointSlice in
  if other_family endpointSlice then mok tt
  else createOrUpdateEndpointSliceInClient endpointSlice (im_Name serviceImport).

Definition updateServiceImport (modifyImport : ServiceImport -> ServiceImport) (serviceImport : ServiceImport) : MM unit :=
  update_retry faults imports (DefaultUpdateRetryBackoff steps) modifyImport (Some leaf, (im_Namespace serviceImport, im_Name serviceImport)) serviceImport.

Fixpoint import_slices (serviceImport : ServiceImport) (epsList : list (key * EndpointSlice)) : MM unit :=
  match epsList with
  | [] => mok tt
  | (_, eps) :: rest => do! _ := importEndpointSliceHandler eps serviceImport in import_slices serviceImport rest
  end.

Definition addresses_of (epsList : list (key * EndpointSlice)) : list string :=
  flat_map (fun e => flat_map ep_Addresses (sl_Endpoints (snd e))) epsList.

(** The import is the caller's object, which the update changes. *)
Definition syncServiceImport (serviceImport : ServiceImport) : MM ServiceImport :=
  mtry (Get faults services (None, (im_Namespace serviceImport, im_Name serviceImport)))
    (fun rootService =>
      do! _ := importServiceHandler rootService serviceImport in
      do! epsList := List_ faults slices None (im_Namespace serviceImport) (of_service (im_Name serviceImport)) in
      do! _ := import_slices serviceImport epsList in
      let addressString := Join "," (addresses_of epsList) in
      let annotate := AddServiceImportAnnotation ServiceEndpointsKey addressString in
      do! _ := updateServiceImport annotate serviceImport in mok (annotate serviceImport))
    (fun err => match err with IsNotFound _ => mok serviceImport | _ => merr err end).

Definition cleanupServiceAndEndpointSlice (namespace name : string) : MM unit :=
  let k := (Some leaf, (namespace, name)) in
  mtry (Get faults services k)
    (fun service =>
      if negb (HasAnnotation (ms_Annotations service) ServiceImportLabelKey) then mok tt
      else mtry (Delete faults services k)
        (fun _ => unless_gone (DeleteAllOf faults slices (Some leaf) namespace (of_service name)))
        (fun err => match err with IsNotFound _ => mok tt | _ => merr err end))
    (fun err => match err with IsNotFound _ => mok tt | _ => merr err end).

Definition Import_ensureFinalizer (serviceImport : ServiceImport) : MM unit :=
  if bool_decide (MCSFinalizer ∈ im_Finalizers serviceImport) then mok tt
  else updateServiceImport (import_finalizers (add_finalizer MCSFinalizer)) serviceImport.

Definition Import_removeFinalizer (serviceImport : ServiceImport) : MM unit :=
  if bool_decide (MCSFinalizer ∉ im_Finalizers serviceImport) then mok tt
  else updateServiceImport (import_finalizers (remove_finalizer MCSFinalizer)) serviceImport.

Definition Import_Reconcile (nn : string * string) : MM unit :=
  mtry (Get faults imports (Some leaf, nn))
    (fun serviceImport =>
      if im_Deleting serviceImport
      then do! _ := cleanupServiceAndEndpointSlice (fst nn) (snd nn) in Import_removeFinalizer serviceImport
      else do! serviceImport := syncServiceImport serviceImport in Import_ensureFinalizer serviceImport)
    (fun err => match err with IsNotFound _ => mok tt | _ => merr err end).

(** ** Events of the host's endpoint slices: the imports to reconcile *)

Definition Import_shouldEnqueue (endpointSlice : EndpointSlice) : bool := negb (bool_decide (sl_Namespace endpointSlice ∈ ReservedNamespaces)).

Definition import_request (eps : EndpointSlice) : string * string := (sl_Namespace eps, GetLabelOrAnnotationValue (sl_Labels eps) ServiceKey).

Definition OnEpsAdd (eps : EndpointSlice) : list (string * string) :=
  if negb (Import_shouldEnqueue eps) then []
  else if HasAnnotation (sl_Annotations eps) ServiceExportLabelKey then [import_request eps] else [].

Definition OnEpsUpdate (oldSlice newSlice : EndpointSlice) : list (string * string) :=
  if negb (Import_shouldEnqueue newSlice) then []
  else
    let isRemoveAnnotationEvent := HasAnnotation (sl_Annotations oldSlice) ServiceExportLabelKey && negb (HasAnnotation (sl_Annotations newSlice) ServiceExportLabelKey) in
    if HasAnnotation (sl_Annotations newSlice) ServiceExportLabelKey || isRemoveAnnotationEvent then [import_request newSlice] else [].

Definition OnEpsDelete (eps : EndpointSlice) : list (string * string) :=
  if negb (Import_shouldEnqueue eps) then []
  else if HasAnnotation (sl_Annotations eps) ServiceExportLabelKey then [import_request eps] else [].

End import.

(** * What an import comes to *)

(** Stored objects are named by their keys. *)
Definition named (w : Mesh) : Prop :=
  (forall k v, rows slices w !! k = Some v -> (sl_Namespace v, sl_Name v) = snd k) /\
  (forall k v, rows services w !! k = Some v -> (ms_Namespace v, ms_Name v) = snd k) /\
  (forall k v, rows imports w !! k = Some v -> (im_Namespace v, im_Name v) = snd k).

(** The API server fills in the families of every service but those of type ExternalName. *)
Definition has_families (service : McsService) : Prop := is_Some (ms_IPFamilyPolicy service) /\ ms_IPFamilies service <> [].

(** A single-stack service of the other family than the leaf cluster's. *)
Definition mismatched (IPFamily : string) (service : McsService) : bool :=
  bool_decide (ms_IPFamilyPolicy service = Some IPFamilyPolicySingleStack) &&
  (bool_decide (head (ms_IPFamilies service) = Some IPv6Protocol /\ IPFamily = IPFamilyTypeIPV4) ||
   bool_decide (head (ms_IPFamilies service) = Some IPv4Protocol /\ IPFamily = IPFamilyTypeIPV6)).

Definition port_of (p : McsPort) := (mp_NodePort p, mp_Name p, mp_Protocol p, mp_Port p, mp_AppProtocol p).

(** [copy] serves [root] in a leaf cluster; an existing copy keeps its address and version. *)
Definition service_copy (IPFamily : string) (root : McsService) (old : option McsService) (copy : McsService) : Prop :=
  (ms_Namespace copy, ms_Name copy) = (ms_Namespace root, ms_Name root) /\
  ms_Annotations copy = Some {[ ServiceImportLabelKey := MCSLabelValue ]} /\
  ms_Type copy = ms_Type root /\ map port_of (ms_Ports copy) = map port_of (ms_Ports root) /\
  ms_ExternalTrafficPolicy copy = ms_ExternalTrafficPolicy root /\
  ms_ClusterIP copy = match old with Some o => ms_ClusterIP o | None => if isServiceIPSet root then "" else ClusterIPNone end /\
  ms_ResourceVersion copy = default "" (ms_ResourceVersion <$> old) /\
  (if bool_decide (IPFamily = IPFamilyTypeALL)
   then ms_IPFamilies copy = ms_IPFamilies root /\ ms_IPFamilyPolicy copy = ms_IPFamilyPolicy root
   else ms_IPFamilies copy = [if bool_decide (IPFamily = IPFamilyTypeIPV4) then IPv4Protocol else IPv6Protocol] /\
        ms_IPFamilyPolicy copy = Some IPFamilyPolicySingleStack).

(** The slices of the service on the host, as they are listed. *)
Definition host_slices (nn : string * string) (w : Mesh) : list (key * EndpointSlice) :=
  List.filter (fun kv => within None (fst nn) (fst kv) && of_service (snd nn) (snd kv)) (map_to_list (rows slices w)).

(** The copies that are wanted of them. *)
Definition wanted (leaf IPFamily : string) (i : ServiceImport) (l : list (key * EndpointSlice)) : gmap key EndpointSlice :=
  list_to_map (collect (fun e =>
    let eps := without_disconnected i (snd e) in
    if other_family IPFamily eps then None
    else Some ((Some leaf, (sl_Namespace eps, sl_Name eps)), retainEndpointSlice eps (im_Name i))) l).

(** Every slice is as in [m], or after a conflict still as it was. *)
Definition written (faults : nat -> option fault) (m old new : gmap key EndpointSlice) : Prop :=
  forall k, new !! k = m !! k \/ conflicted faults /\ is_Some (old !! k) /\ new !! k = old !! k.

Definition imported (faults : nat -> option fault) (leaf IPFamily : string) (i : ServiceImport) (root : McsService) (w w' : Mesh) : Prop :=
  let nn := (im_Namespace i, im_Name i) in
  let l := host_slices nn w in
  (if mismatched IPFamily root then rows services w' = rows services w
   else exists copy, service_copy IPFamily root (rows services w !! (Some leaf, nn)) copy /\
     rows services w' = <[(Some leaf, nn) := copy]> (rows services w)) /\
  written faults (wanted leaf IPFamily i l ∪ rows slices w) (rows slices w) (rows slices w') /\
  rows imports w' = <[(Some leaf, nn) := import_finalizers (add_finalizer MCSFinalizer)
    (AddServiceImportAnnotation ServiceEndpointsKey (Join "," (addresses_of l)) i)]> (rows imports w).

(** The copies go with the import, when the service is one of the controller's. *)
Definition unimported (leaf : string) (i : ServiceImport) (w w' : Mesh) : Prop :=
  let nn := (im_Namespace i, im_Name i) in
  (match rows services w !! (Some leaf, nn) with
   | Some service =>
       if HasAnnotation (ms_Annotations service) ServiceImportLabelKey
       then rows services w' = delete (Some leaf, nn) (rows services w) /\
         rows slices w' = filter (fun kv => (within (Some leaf) (fst nn) (fst kv) && of_service (snd nn) (snd kv)) = false) (rows slices w)
       else rows services w' = rows services w /\ rows slices w' = rows slices w
   | None => rows services w' = rows services w /\ rows slices w' = rows slices w
   end) /\
  rows imports w' = <[(Some leaf, nn) := import_finalizers (remove_finalizer MCSFinalizer) i]> (rows imports w).

Definition import_done (faults : nat -> option fault) (leaf IPFamily : string) (nn : string * string) (w w' : Mesh) : Prop :=
  (match rows imports w !! (Some leaf, nn) with
   | None => rows services w' = rows services w /\ rows slices w' = rows slices w /\ rows imports w' = rows imports w
   | Some i =>
       if im_Deleting i then unimported leaf i w w'
       else match rows services w !! (None, nn) with
       | Some root => imported faults leaf IPFamily i root w w'
       | None => rows services w' = rows services w /\ rows slices w' = rows slices w /\
           rows imports w' = <[(Some leaf, nn) := import_finalizers (add_finalizer MCSFinalizer) i]> (rows imports w)
       end
   end) /\
  rows exports w' = rows exports w /\ mesh_namespaces w' = mesh_namespaces w.

(** * Facts *)

Lemma services_apart w w' m : writes services w w' m ->
  rows exports w' = rows exports w /\ rows imports w' = rows imports w /\ rows slices w' = rows slices w /\ mesh_namespaces w' = mesh_namespaces w.
Proof. intros [_ H]. destruct w, w'. unfold rows, rest_of in *. simpl in *. by simplify_eq. Qed.

Lemma slices_apart w w' : rest_of slices w' = rest_of slices w ->
  rows exports w' = rows exports w /\ rows imports w' = rows imports w /\ rows services w' = rows services w /\ mesh_namespaces w' = mesh_namespaces w.
Proof. intros H. destruct w, w'. unfold rows, rest_of in *. simpl in *. by simplify_eq. Qed.

Section facts.
  Context (faults : nat -> option fault) (steps : Z) (leaf IPFamily : string).

Lemma checkServiceType_spec service w X (Q : bool -> Mesh -> Prop) : has_families service -> Q (negb (mismatched IPFamily service)) w ->
  runs (checkServiceType IPFamily service) w X Q.
Proof.
  intros [[policy Hp] Hf] HQ. unfold checkServiceType, mismatched in *. rewrite Hp in *. destruct (ms_IPFamilies service) as [|fam fams]; [done|].
  simpl in *. destruct (decide (policy = IPFamilyPolicySingleStack)) as [-> |Hne].
  - rewrite (bool_decide_eq_true_2 (Some _ = Some _)) in HQ by done. simpl in *.
    assert (Hb : forall x y, bool_decide (Some fam = Some x /\ IPFamily = y) = bool_decide (fam = x) && bool_decide (IPFamily = y)).
    { intros x y. rewrite bool_decide_and. f_equal. apply bool_decide_ext. split; congruence. }
    rewrite !Hb in HQ. exact HQ.
  - rewrite (bool_decide_eq_false_2 (policy = _)) by done. rewrite (bool_decide_eq_false_2 (Some _ = Some _)) in HQ by congruence. exact HQ.
Qed.

(** The service is copied, over an existing copy too. *)
Lemma put_service_spec ns root w (X : Mesh -> Prop) :
  is_Some (ms_IPFamilyPolicy root) -> ns = ms_Namespace root -> (faulty faults -> forall w', writes services w w' (rows services w) -> X w') ->
  let k := (Some leaf, (ms_Namespace root, ms_Name root)) in
  runs (do! svc := client_service IPFamily ns root in createOrUpdateServiceInClient faults leaf svc) w X (fun _ w' =>
    exists copy, service_copy IPFamily root (rows services w !! k) copy /\ writes services w w' (<[k := copy]> (rows services w))).
Proof.
  intros [policy Hp] -> HX k. apply runs_seq. unfold client_service. apply runs_seq.
  assert (Hr : forall Q, Q (if IPFamily =s IPFamilyTypeALL then policy else IPFamilyPolicySingleStack) w -> runs (if IPFamily =s IPFamilyTypeALL
    then match ms_IPFamilyPolicy root with Some p => mok p | None => mfault end else mok IPFamilyPolicySingleStack : MM string) w X Q).
  { intros Q HQ. rewrite Hp. by destruct (IPFamily =s IPFamilyTypeALL). }
  apply Hr, runs_ok. set (svc := mkMcsService _ _ _ _ _ _ _ _ _ _ _ _).
  assert (Hsvc : service_copy IPFamily root None svc /\ forall o, service_copy IPFamily root (Some o) (retainServiceFields o svc)).
  { assert (map port_of (servicePorts root) = map port_of (ms_Ports root)) by (unfold servicePorts; rewrite map_map; done).
    split; [|intros o]; unfold service_copy; simpl; split_and!; try done; try congruence.
    all: destruct (bool_decide (IPFamily = IPFamilyTypeALL)). 2,4: by destruct (IPFamily =s IPFamilyTypeIPV4). all: by rewrite Hp. }
  assert (HX1 : faulty faults -> X (next_call w) /\ X (next_call (next_call w))).
  { intros Hf. split; (apply HX; [done|]); split; by rewrite ?rows_tick, ?rest_tick. }
  unfold createOrUpdateServiceInClient. change (Some leaf, (ms_Namespace svc, ms_Name svc)) with k.
  apply (runs_read faults services k (fun o => Update faults services k (retainServiceFields o svc)) (Create faults services k svc)); [by intros ?; apply HX1| |].
  - intros o Ho. apply (runs_Update faults services); [by intros ?; apply HX1|rewrite rows_tick; congruence|]. intros w' [Hw Ho']. eexists.
    split; [rewrite Ho; by apply Hsvc|]. rewrite rows_tick in Hw. split; [done|]. rewrite Ho'. apply rest_tick.
  - intros Ho. apply (runs_Create faults services); [by intros ?; apply HX1|rewrite rows_tick, Ho; by intros [? ?]|]. intros w' _ [Hw Ho'].
    exists svc. split; [rewrite Ho; by apply Hsvc|]. rewrite rows_tick in Hw. split; [done|]. rewrite Ho'. apply rest_tick.
Qed.

Lemma import_service_spec root i w (X : Mesh -> Prop) :
  has_families root -> (im_Namespace i, im_Name i) = (ms_Namespace root, ms_Name root) -> (faulty faults -> forall w', X w') ->
  let k := (Some leaf, (im_Namespace i, im_Name i)) in
  runs (importServiceHandler faults leaf IPFamily root i) w X (fun _ w' =>
    if mismatched IPFamily root then writes services w w' (rows services w)
    else exists copy, service_copy IPFamily root (rows services w !! k) copy /\ writes services w w' (<[k := copy]> (rows services w))).
Proof.
  intros Hf Hn HX k. apply runs_seq, checkServiceType_spec; [done|]. destruct (mismatched IPFamily root); [apply runs_ok, writes_same|].
  unfold k. rewrite Hn. apply put_service_spec; [apply Hf|congruence|auto].
Qed.

(** One slice is written, or after a conflict left as it was. *)
Lemma put_slice_spec new w (X : Mesh -> Prop) : (faulty faults -> forall w', writes slices w w' (rows slices w) -> X w') ->
  let k := (Some leaf, (sl_Namespace new, sl_Name new)) in
  runs (put_slice faults steps leaf new) w X (fun _ w' =>
    writes slices w w' (<[k := new]> (rows slices w)) \/
    conflicted faults /\ is_Some (rows slices w !! k) /\ writes slices w w' (rows slices w)).
Proof.
  intros HX k. unfold runs, put_slice, mtry, Create. fold k.
  match goal with |- context [Calls.call (oracle faults) ?f w] => destruct (call_cases faults f w) as [(ft & Hft & ->)| ->] end.
  { assert (HX' : X (next_call w)) by (apply HX; [by exists (mesh_calls w), ft|apply (writes_tick slices)]). by destruct ft. }
  rewrite rows_tick. destruct (rows slices w !! k) as [old|] eqn:Ek; [|left; exact (writes_set slices w _)].
  assert (Hk : rows slices (next_call w) !! k = Some old) by (by rewrite rows_tick).
  assert (HX1 : faulty faults -> forall w', writes slices (next_call w) w' (rows slices (next_call w)) -> X w').
  { intros Hf w' Hw'. apply HX; [done|]. rewrite rows_tick in Hw'. exact (writes_trans slices _ _ _ _ _ (writes_tick slices w) Hw'). }
  pose proof (update_retry_spec faults slices (fun e => e) k old (fun _ => eq_refl) _ new (next_call w) X (backoff_positive steps) Hk HX1) as H.
  eapply (runs_mono _ _ X X) in H; [apply H|done|]. intros u w' Hw'. simpl in Hw'. rewrite rows_tick in Hw'.
  destruct Hw' as [Hw|(Hc & Hw)]; [left|right; split_and!; [done|by eexists|rewrite (insert_id _ _ _ Ek) in Hw]];
    exact (writes_trans slices _ _ _ _ _ (writes_tick slices w) Hw).
Qed.

Definition target (e : key * EndpointSlice) : key := (Some leaf, (sl_Namespace (snd e), sl_Name (snd e))).

Lemma without_disconnected_key i eps : (sl_Namespace (without_disconnected i eps), sl_Name (without_disconnected i eps)) = (sl_Namespace eps, sl_Name eps).
Proof. unfold without_disconnected. by destruct (HasAnnotation _ _). Qed.

Lemma wanted_cons i e l : wanted leaf IPFamily i (e :: l) =
  if other_family IPFamily (without_disconnected i (snd e)) then wanted leaf IPFamily i l
  else <[target e := retainEndpointSlice (without_disconnected i (snd e)) (im_Name i)]> (wanted leaf IPFamily i l).
Proof. unfold wanted, target. rewrite <- (without_disconnected_key i (snd e)). simpl. by destruct (other_family _ _). Qed.

Lemma wanted_fresh i l k : k ∉ map target l -> wanted leaf IPFamily i l !! k = None.
Proof.
  induction l as [|e l IH]; [done|]. cbn [map]. rewrite elem_of_cons, wanted_cons. intros Hk. destruct (other_family _ _); [tauto|].
  rewrite lookup_insert_ne; [tauto|]. intros <-. tauto.
Qed.

Lemma import_slices_spec i l : forall w (X : Mesh -> Prop), NoDup (map target l) -> (faulty faults -> forall w', X w') ->
  runs (import_slices faults steps leaf IPFamily i l) w X (fun _ w' =>
    rest_of slices w' = rest_of slices w /\ written faults (wanted leaf IPFamily i l ∪ rows slices w) (rows slices w) (rows slices w')).
Proof.
  induction l as [|e l IH]; intros w X Hnd HX.
  { apply runs_ok. split; [done|]. intros k. left. change (wanted leaf IPFamily i []) with (∅ : gmap key EndpointSlice). by rewrite map_empty_union. }
  cbn [map] in Hnd. apply list.NoDup_cons in Hnd as [Hk Hnd]. destruct e as [k0 eps]. cbn [import_slices]. apply runs_seq.
  rewrite wanted_cons. cbn [snd]. unfold importEndpointSliceHandler. destruct (other_family IPFamily (without_disconnected i eps)); [apply runs_ok; by apply IH|].
  eapply runs_mono; [apply (put_slice_spec (retainEndpointSlice (without_disconnected i eps) (im_Name i)) w X (fun H w' _ => HX H w'))|done|].
  change (sl_Namespace (retainEndpointSlice (without_disconnected i eps) (im_Name i)), sl_Name (retainEndpointSlice (without_disconnected i eps) (im_Name i)))
    with (sl_Namespace (without_disconnected i eps), sl_Name (without_disconnected i eps)). rewrite without_disconnected_key.
  change (Some leaf, (sl_Namespace eps, sl_Name eps)) with (target (k0, eps)). intros u w1 Hw1.
  eapply runs_mono; [by apply (IH w1 X)|done|]. intros u' w' [Ho Hr]. apply wanted_fresh with (i := i) in Hk. set (t := target (k0, eps)) in *.
  assert (Hd : forall m k, t <> k -> (<[t := retainEndpointSlice (without_disconnected i eps) (im_Name i)]> (wanted leaf IPFamily i l) ∪ m) !! k = (wanted leaf IPFamily i l ∪ m) !! k).
  { intros m k Hne. by rewrite !lookup_union, lookup_insert_ne. }
  destruct Hw1 as [[Hr1 Ho1]|(Hc & Hs & Hr1 & Ho1)]; (split; [congruence|]); intros k; specialize (Hr k); rewrite Hr1 in Hr;
    (destruct (decide (t = k)) as [<- |Hne]; [|rewrite Hd by done; rewrite ?(lookup_union _ (<[t := _]> _)), ?lookup_insert_ne, <- ?lookup_union in Hr by done; exact Hr]).
  - left. rewrite lookup_union, Hk, lookup_insert_eq in Hr. rewrite <- insert_union_l, lookup_insert_eq. by destruct Hr as [->|(_ & _ & ->)].
  - right. split_and!; try done. rewrite lookup_union, Hk, (left_id None _) in Hr. by destruct Hr as [->|(_ & _ & ->)].
Qed.

End facts.

Section finish.
  Context (faults : nat -> option fault) (steps : Z) (leaf IPFamily : string).

Lemma update_import_spec modify i w (X : Mesh -> Prop) : (forall v, modify (modify v) = modify v) ->
  rows imports w !! (Some leaf, (im_Namespace i, im_Name i)) = Some i -> (faulty faults -> forall w', X w') ->
  runs (updateServiceImport faults steps leaf modify i) w X
    (fun _ w' => writes imports w w' (<[(Some leaf, (im_Namespace i, im_Name i)) := modify i]> (rows imports w))).
Proof.
  intros Hid Hi HX. eapply runs_mono; [apply (update_retry_spec faults imports modify _ i Hid _ i w X)|done|]; auto.
  - apply backoff_positive.
  - intros u w' [?|[_ ?]]; done.
Qed.

Lemma import_finalizers_spec i w (X : Mesh -> Prop) :
  let k := (Some leaf, (im_Namespace i, im_Name i)) in
  rows imports w !! k = Some i -> (faulty faults -> forall w', X w') ->
  runs (Import_ensureFinalizer faults steps leaf i) w X
    (fun _ w' => writes imports w w' (<[k := import_finalizers (add_finalizer MCSFinalizer) i]> (rows imports w))) /\
  runs (Import_removeFinalizer faults steps leaf i) w X
    (fun _ w' => writes imports w w' (<[k := import_finalizers (remove_finalizer MCSFinalizer) i]> (rows imports w))).
Proof.
  intros k Hi HX. split; unfold Import_ensureFinalizer, Import_removeFinalizer; case_bool_decide as Hf.
  - apply runs_ok. rewrite insert_id; [apply writes_same|]. rewrite Hi. f_equal. unfold import_finalizers, add_finalizer.
    rewrite bool_decide_eq_true_2 by done. by destruct i.
  - apply update_import_spec; try done. intros v. unfold import_finalizers. simpl. by rewrite add_finalizer_idem.
  - apply runs_ok. rewrite insert_id; [apply writes_same|]. rewrite Hi. f_equal. unfold import_finalizers.
    rewrite remove_finalizer_absent by done. by destruct i.
  - apply update_import_spec; try done. intros v. unfold import_finalizers. simpl. by rewrite remove_finalizer_idem.
Qed.

Lemma cleanup_spec i w (X : Mesh -> Prop) : (faulty faults -> forall w', X w') ->
  runs (cleanupServiceAndEndpointSlice faults leaf (im_Namespace i) (im_Name i)) w X (fun _ w' =>
    rows imports w' = rows imports w /\ rows exports w' = rows exports w /\ mesh_namespaces w' = mesh_namespaces w /\
    forall w2, rows services w2 = rows services w' -> rows slices w2 = rows slices w' ->
      rows imports w2 = <[(Some leaf, (im_Namespace i, im_Name i)) := import_finalizers (remove_finalizer MCSFinalizer) i]> (rows imports w) ->
      unimported leaf i w w2).
Proof.
  intros HX. set (k := (Some leaf, (im_Namespace i, im_Name i))).
  apply (runs_read faults services k); [auto| |].
  2:{ intros Hn. apply runs_ok. split_and!; try (by destruct w). intros w2 E1 E2 E3. split; [|done]. fold k. rewrite Hn, E1, E2. by destruct w. }
  intros service Hs. destruct (HasAnnotation (ms_Annotations service) ServiceImportLabelKey) eqn:Ea; simpl.
  2:{ apply runs_ok. split_and!; try (by destruct w). intros w2 E1 E2 E3. split; [|done]. fold k. rewrite Hs, Ea, E1, E2. by destruct w. }
  unfold runs, mtry, Delete.
  match goal with |- context [Calls.call (oracle faults) ?f ?w] => destruct (call_cases faults f w) as [(ft & Hft & ->)| ->] end.
  { assert (HX' : forall w', X w') by (apply HX; by exists (mesh_calls (next_call w)), ft). destruct ft; apply HX'. }
  rewrite !rows_tick. fold k. rewrite Hs. unfold unless_gone, mtry, DeleteAllOf.
  match goal with |- context [Calls.call (oracle faults) ?f ?w] => destruct (call_cases faults f w) as [(ft & Hft & ->)| ->] end.
  { assert (HX' : forall w', X w') by (apply HX; eexists _, ft; exact Hft). destruct ft; apply HX'. }
  simpl. destruct w. split_and!; try done. intros w2 E1 E2 E3. split; [|done]. fold k. rewrite Hs, Ea. by rewrite E1, E2.
Qed.

Lemma annotate_idem k v i : AddServiceImportAnnotation k v (AddServiceImportAnnotation k v i) = AddServiceImportAnnotation k v i.
Proof. unfold AddServiceImportAnnotation. simpl. by rewrite insert_insert_eq. Qed.

(** The listed slices of the host have different names. *)
Lemma host_slices_targets nn w : named w -> NoDup (map (target leaf) (host_slices nn w)).
Proof.
  intros (Hn & _ & _). unfold host_slices.
  assert (Hin : forall e, e ∈ List.filter (fun kv => within None (fst nn) (fst kv) && of_service (snd nn) (snd kv)) (map_to_list (rows slices w)) ->
    fst (fst e) = None /\ target leaf e = (Some leaf, snd (fst e))).
  { intros [k v] [Hin Hw]%list_filter_spec. apply elem_of_map_to_list in Hin. apply andb_true_iff in Hw as [Hw _]. apply andb_true_iff in Hw as [Hw _].
    split; [by apply bool_decide_eq_true in Hw|]. unfold target. simpl. f_equal. by apply Hn. }
  pose proof (NoDup_fst_map_to_list (rows slices w)) as Hnd. revert Hnd Hin. generalize (map_to_list (rows slices w)). intros l.
  induction l as [|e l IH]; intros Hnd Hin; [constructor|]. simpl in *. apply list.NoDup_cons in Hnd as [He Hnd].
  destruct (within None (fst nn) (fst e) && of_service (snd nn) (snd e)); [|by apply IH].
  simpl. apply list.NoDup_cons. split; [|apply IH; [done|]; intros e' He'; apply Hin; by right].
  intros (e' & Heq & He')%list_elem_of_In%in_map_iff. apply list_elem_of_In in He'. apply He.
  destruct (Hin e ltac:(by left)) as [E1 E2]. destruct (Hin e' ltac:(by right)) as [E3 E4].
  apply list_filter_spec in He' as [He' _]. apply list_elem_of_In, in_map_iff. exists e'. split; [|by apply list_elem_of_In].
  destruct e as [[? ?] ?], e' as [[? ?] ?]. simpl in *. congruence.
Qed.

End finish.

Section reconcile.
  Context (faults : nat -> option fault) (steps : Z) (leaf IPFamily : string).

Lemma sync_spec i root w (X : Mesh -> Prop) : let nn := (im_Namespace i, im_Name i) in
  named w -> rows imports w !! (Some leaf, nn) = Some i -> rows services w !! (None, nn) = Some root -> has_families root ->
  (faulty faults -> forall w', X w') ->
  runs (syncServiceImport faults steps leaf IPFamily i) w X (fun i' w' =>
    i' = AddServiceImportAnnotation ServiceEndpointsKey (Join "," (addresses_of (host_slices nn w))) i /\
    rows imports w' = <[(Some leaf, nn) := i']> (rows imports w) /\
    rows exports w' = rows exports w /\ mesh_namespaces w' = mesh_namespaces w /\
    forall w2, rows services w2 = rows services w' -> rows slices w2 = rows slices w' ->
      rows imports w2 = <[(Some leaf, nn) := import_finalizers (add_finalizer MCSFinalizer) i']> (rows imports w) -> imported faults leaf IPFamily i root w w2).
Proof.
  intros nn Hn Hi Hs Hf HX. apply (runs_read faults services (None, nn)); [auto| |congruence]. intros root' Hs'. assert (root' = root) as -> by congruence.
  apply runs_seq. eapply runs_mono; [apply (import_service_spec faults leaf IPFamily root i _ X Hf)|done|]; [symmetry; by apply (proj1 (proj2 Hn) (None, nn))|done|].
  fold nn. intros u1 w1 Hw1. rewrite rows_tick in Hw1.
  assert (Hap : rows imports w1 = rows imports w /\ rows slices w1 = rows slices w /\ rows exports w1 = rows exports w /\ mesh_namespaces w1 = mesh_namespaces w).
  { destruct (mismatched IPFamily root); [|destruct Hw1 as (copy & _ & Hw1)]; destruct (services_apart _ _ _ Hw1) as (-> & -> & -> & ->); by destruct w. }
  destruct Hap as (I1 & S1 & X1 & N1).
  apply runs_seq, runs_call; [intros ?; by apply HX, call_faulty|]. unfold runs at 1. rewrite rows_tick, S1.
  change (List.filter _ _) with (host_slices nn w). apply runs_seq.
  eapply runs_mono; [apply (import_slices_spec faults steps leaf IPFamily i _ _ X (host_slices_targets leaf nn w Hn) HX)|done|].
  intros u2 w2 [Ho2 Hw2]. rewrite rows_tick, S1 in Hw2. destruct (slices_apart _ _ Ho2) as (X2 & I2 & R2 & N2).
  assert (T1 : rows exports (next_call w1) = rows exports w /\ rows imports (next_call w1) = rows imports w /\
    rows services (next_call w1) = rows services w1 /\ mesh_namespaces (next_call w1) = mesh_namespaces w).
  { rewrite !rows_tick. split_and!; done. }
  destruct T1 as (T1 & T2 & T3 & T4). rewrite T1 in X2. rewrite T2 in I2. rewrite T3 in R2. rewrite T4 in N2.
  apply runs_seq. eapply runs_mono; [apply (update_import_spec faults steps leaf _ i w2 X)|done|]; [intros v; apply annotate_idem|by rewrite I2|done|].
  intros u3 w3 Hw3. destruct (imports_apart _ _ _ Hw3) as (X3 & R3 & S3 & N3). destruct Hw3 as [I3 _]. rewrite I2 in I3.
  apply runs_ok. split_and!; [done|exact I3|congruence..|]. intros w4 R4 S4 I4. split_and!; [|rewrite S4, S3; exact Hw2|exact I4].
  rewrite R4, R3, R2. fold nn. destruct (mismatched IPFamily root); [apply Hw1|]. destruct Hw1 as (copy & Hc & Hw1 & _). by exists copy.
Qed.

End reconcile.


(** * Examples *)

Definition ex_root : McsService :=
  mkMcsService "shop" "web" None false "7" "ClusterIP" "10.0.0.1" [mkMcsPort 0 "http" "TCP" 80 None "8080"] [IPv4Protocol] (Some IPFamilyPolicySingleStack) "" "".
Definition ex_slice (addresses : list string) : EndpointSlice :=
  mkSlice "shop" "web-1" (Some {[ ServiceKey := "web" ]}) (Some {[ ServiceExportLabelKey := MCSLabelValue ]}) false "m" AddressTypeIPv4 [mkEndpoint addresses "r"] "p".
Definition ex_import (deleting : bool) : ServiceImport :=
  mkImport "shop" "web" (Some {[ DisconnectedEndpointsKey := "10.1.0.9" ]}) deleting [MCSFinalizer] "".
Definition ex_start : Mesh :=
  mkMesh 0 {[ (None, ("shop", "web")) := ex_root ]} {[ (None, ("shop", "web-1")) := ex_slice ["10.1.0.7"; "10.1.0.9"] ]} ∅
    {[ (Some "c1", ("shop", "web")) := ex_import false ]} ∅.

Lemma ex_start_named : named ex_start.
Proof.
  split_and!; intros k v Hk; unfold rows in Hk; cbn in Hk; apply lookup_singleton_Some in Hk as [<- <-]; reflexivity.
Qed.


Definition import_at (faults : nat -> option fault) (w : Mesh) := Import_Reconcile faults 5 "c1" IPFamilyTypeIPV4 ("shop", "web") w.
Definition addresses_at (w : Mesh) : option (list (list string)) :=
  (fun s => map ep_Addresses (sl_Endpoints s)) <$> (rows slices w !! (Some "c1", ("shop", "web-1"))).

(** The copy of the slice is without the disconnected address. *)
Example import_clears : addresses_at (fst (import_at (fun _ => None) ex_start)) = Some [["10.1.0.7"]].
Proof. vm_compute. reflexivity. Qed.

(** The same after the host's endpoints have changed. *)
Definition ex_changed : Mesh :=
  let w := fst (import_at (fun _ => None) ex_start) in
  set_rows slices (<[(None, ("shop", "web-1")) := ex_slice ["10.1.0.8"]]> (rows slices w)) w.

(** A conflict on the update of the slice, the seventh call: the reconciliation ends well, with
the old addresses in the leaf cluster. *)
Example import_conflict_loses_update :
  let faults n := if n =? mesh_calls ex_changed + 6 then Some (Conflicts "conflict") else None in
  (snd (import_at (fun _ => None) ex_changed), addresses_at (fst (import_at (fun _ => None) ex_changed))) = (Good tt, Some [["10.1.0.8"]]) /\
  (snd (import_at faults ex_changed), addresses_at (fst (import_at faults ex_changed))) = (Good tt, Some [["10.1.0.7"]]).
Proof. split; vm_compute; reflexivity. Qed.

(** The slices of a removed import outlive it when their deletion failed once: the service
is gone, and the next reconciliation has nothing to do but to remove the finalizer. *)
Definition ex_removed : Mesh :=
  let w := fst (import_at (fun _ => None) ex_start) in
  set_rows imports {[ (Some "c1", ("shop", "web")) := ex_import true ]} w.

Example import_leaks_slices :
  let faults n := if n =? mesh_calls ex_removed + 3 then Some (Fails "timeout") else None in
  let w1 := fst (import_at faults ex_removed) in
  let w2 := fst (import_at faults w1) in
  addresses_at (fst (import_at (fun _ => None) ex_removed)) = None /\
  snd (import_at faults ex_removed) = Bad (OtherError "timeout") /\ snd (import_at faults w1) = Good tt /\
  addresses_at w2 = Some [["10.1.0.7"]] /\ im_Finalizers <$> (rows imports w2 !! (Some "c1", ("shop", "web"))) = Some [].
Proof. vm_compute. split_and!; reflexivity. Qed.

(** A service of type ExternalName has no IP families: its import is a panic. *)
Example import_external_name_panics :
  let external := mkMcsService "shop" "web" None false "" "ExternalName" "" [] [] None "" "" in
  snd (import_at (fun _ => None) (set_rows services {[ (None, ("shop", "web")) := external ]} ex_start)) = Fault.
Proof. vm_compute. reflexivity. Qed.

(** A slice that is no longer exported is asked for again, and copied all the same. *)
Example import_ignores_exports :
  let unexported := RemoveAnnotation ServiceExportLabelKey (ex_slice ["10.1.0.8"]) in
  let w := set_rows slices {[ (None, ("shop", "web-1")) := unexported ]} ex_start in
  OnEpsUpdate [] (ex_slice ["10.1.0.8"]) unexported = [("shop", "web")] /\ addresses_at (fst (import_at (fun _ => None) w)) = Some [["10.1.0.8"]].
Proof. vm_compute. split; reflexivity. Qed.
