(* ===== verification/SvcSync.v ===== *)
(** Plain synchronisation of services and endpoint slices to all leaf clusters:
clustertree/cluster-manager/controllers/svc.

[Svc_Reconcile] and [Eps_Reconcile] copy a service or an endpoint slice of the host to
every leaf cluster, or remove the copies. A copy is made by one goroutine per cluster; each
works on the server of its own cluster, and they are run here one after the other in the
order of the list, which is any. The text of the joined error is left out. *)
From S2P Require Import Prelude GoStr LinkApi PodApi LeafManager PodEnv PodProg Calls Tables McsApi McsExport McsImport.

Section sync.
  Context (faults : nat -> option fault) (steps : Z).
  Context (range : forall V : Type, gmap string V -> list (string * V)).
  (** The registries of leaf clusters and of clients, and [IPFamilyType] of a leaf resource. *)
  Context (registry : resourceMap) (clients : gmap string unit) (family : LeafResource -> string).
  Context (AutoCreateMCSPrefix ReservedNamespaces : list string).

(** ** Both controllers *)

(** The clusters whose work failed. *)
Fixpoint gather (task : string -> MM unit) (clusters : list string) : MM (list string) :=
  match clusters with
  | [] => mok []
  | cluster :: rest =>
      do! failed := mtry (task cluster) (fun _ => mok []) (fun _ => mok [cluster]) in
      do! errs := gather task rest in mok (failed ++ errs)
  end.

Definition report_errors (errs : list string) : MM unit := if 0 <? length errs then merr (OtherError "errors encountered") else mok tt.

Definition Svc_leafClientResource (lr : LeafResource) : MM string :=
  let actualClusterName := GetActualClusterName (lr_Cluster lr) in
  match GetLeafClientResource clients actualClusterName with inl _ => mok actualClusterName | inr err => merr (OtherError err) end.

(** The leaf resource of a cluster and the actual cluster its client talks to. *)
Definition svc_leaf (cluster : string) : MM (LeafResource * string) :=
  match GetLeafResource registry cluster with
  | inl lr => do! actual := Svc_leafClientResource lr in mok (lr, actual)
  | inr err => merr (OtherError err)
  end.

Definition createNamespace (actual namespace : string) : MM unit := unless_exists (CreateNamespace faults (Some actual) namespace).

Definition cleanup_task {V} (t : Table Mesh key V) (nn : string * string) (cluster : string) : MM unit :=
  do! '(lr, actual) := svc_leaf cluster in unless_gone (Delete faults t (Some actual, nn)).

(** ** simple_sync_service_controller.go *)

Definition Svc_shouldEnqueue (service : McsService) : bool :=
  if bool_decide (ms_Namespace service ∈ ReservedNamespaces) then false
  else matchNamespace (ms_Namespace service) AutoCreateMCSPrefix || hasAutoMCSAnnotation service.

Definition cleanUpServiceInLeafCluster (nn : string * string) : MM unit :=
  do! errs := gather (cleanup_task services nn) (ListClusters range registry) in report_errors errs.

Definition Svc_generateService (service : McsService) (lr : LeafResource) : MM McsService := client_service (family lr) (ms_Namespace service) service.

Definition sync_service_task (service : McsService) (cluster : string) : MM unit :=
  do! '(lr, actual) := svc_leaf cluster in
  do! _ := createNamespace actual (ms_Namespace service) in
  do! fits := checkServiceType (family lr) service in
  if fits then do! clientService := Svc_generateService service lr in createOrUpdateServiceInClient faults actual clientService
  else merr (OtherError "service's IPFamilyPolicy is not match the leaf cluster").

Definition syncServiceInLeafCluster (service : McsService) : MM unit :=
  do! errs := gather (sync_service_task service) (ListActualClusters range clients) in report_errors errs.

Definition Svc_Reconcile (nn : string * string) : MM unit :=
  mtry (Get faults services (None, nn))
    (fun service => if ms_Deleting service then cleanUpServiceInLeafCluster nn else syncServiceInLeafCluster service)
    (fun err => match err with IsNotFound _ => cleanUpServiceInLeafCluster nn | _ => merr err end).

(** ** simple_sync_endpointslice_controller.go *)

Definition shouldEnqueueEps (endpointSlice : EndpointSlice) : bool :=
  if bool_decide (sl_Namespace endpointSlice ∈ ReservedNamespaces) then false else matchNamespace (sl_Namespace endpointSlice) AutoCreateMCSPrefix.

Definition cleanUpEpsInLeafCluster (nn : string * string) : MM unit :=
  do! errs := gather (cleanup_task slices nn) (ListActualClusters range clients) in report_errors errs.

Definition Eps_retainEndpointSlice (original : EndpointSlice) (serviceName : string) : EndpointSlice :=
  AddEndpointSliceLabel ServiceKey serviceName
    (mkSlice (sl_Namespace original) (sl_Name original) None None false "" (sl_AddressType original) (sl_Endpoints original) (sl_Ports original)).

Definition sync_slice_task (endpointSlice : EndpointSlice) (serviceName cluster : string) : MM unit :=
  do! '(lr, actual) := svc_leaf cluster in
  if other_family (family lr) endpointSlice then mok tt
  else
    do! _ := createNamespace actual (sl_Namespace endpointSlice) in
    put_slice faults steps actual (Eps_retainEndpointSlice endpointSlice serviceName).

Definition syncEpsInLeafCluster (eps : EndpointSlice) (serviceName : string) : MM unit :=
  do! errs := gather (sync_slice_task eps serviceName) (ListClusters range registry) in report_errors errs.

Definition Eps_Reconcile (nn : string * string) : MM unit :=
  mtry (Get faults slices (None, nn))
    (fun eps =>
      if sl_Deleting eps then cleanUpEpsInLeafCluster nn
      else
        let serviceName := GetLabelOrAnnotationValue (sl_Labels eps) ServiceKey in
        mtry (Get faults services (None, (fst nn, serviceName)))
          (fun service =>
            if negb (hasAutoMCSAnnotation service) && negb (shouldEnqueueEps eps) then mok tt else syncEpsInLeafCluster eps serviceName)
          (fun err => match err with IsNotFound _ => mok tt | _ => merr err end))
    (fun err => match err with IsNotFound _ => cleanUpEpsInLeafCluster nn | _ => merr err end).

End sync.

(** * What the clusters come to *)

Section facts.
  Context (faults : nat -> option fault) (steps : Z).
  Context (registry : resourceMap) (clients : gmap string unit) (family : LeafResource -> string).

(** The leaf cluster of a name is registered and its actual cluster has a client. *)
Definition resolve (cluster : string) : option (LeafResource * string) :=
  match registry !! cluster with
  | Some lr => let actual := GetActualClusterName (lr_Cluster lr) in if clients !! actual then Some (lr, actual) else None
  | None => None
  end.

Lemma runs_svc_leaf cluster w (X : Mesh -> Prop) Q : (resolve cluster = None -> X w) ->
  (forall lr actual, resolve cluster = Some (lr, actual) -> Q (lr, actual) w) -> runs (svc_leaf registry clients cluster) w X Q.
Proof.
  unfold resolve, svc_leaf, GetLeafResource. destruct (registry !! cluster) as [lr|]; [|by intros HX _; apply HX].
  unfold Svc_leafClientResource, GetLeafClientResource. intros HX HQ. apply runs_seq.
  destruct (clients !! GetActualClusterName (lr_Cluster lr)); [|by apply HX]. apply runs_ok, runs_ok. by apply HQ.
Qed.

(** Work on many clusters: an invariant of all of it, what each success leaves for good and
why one may fail. *)
Lemma gather_spec task (I : Mesh -> Prop) (ok : string -> Mesh -> Prop) (why : string -> Prop) (keep : Mesh -> Mesh -> Prop) :
  (forall w, keep w w) -> (forall w1 w2 w3, keep w1 w2 -> keep w2 w3 -> keep w1 w3) -> (forall c w w', ok c w -> keep w w' -> ok c w') ->
  (forall c w, I w -> runs (task c) w (fun w' => I w' /\ keep w w' /\ why c) (fun _ w' => I w' /\ keep w w' /\ ok c w')) ->
  forall clusters w, I w -> runs (gather task clusters) w (fun _ => False) (fun errs w' =>
    I w' /\ keep w w' /\ (forall c, c ∈ clusters -> c ∈ errs /\ why c \/ ok c w') /\ (forall c, c ∈ errs -> c ∈ clusters /\ why c)).
Proof.
  intros Hrefl Htrans Hok Htask. induction clusters as [|c rest IH]; intros w HI; simpl.
  { apply runs_ok. split_and!; [done|apply Hrefl|intros c Hc; by apply not_elem_of_nil in Hc|intros c Hc; by apply not_elem_of_nil in Hc]. }
  apply runs_seq. pose proof (Htask c w HI) as Hc. unfold mtry, runs at 1. unfold runs in Hc. destruct (task c w) as [w1 [[]|err|]]; [| |done]; simpl;
    destruct Hc as (HI1 & Hk1 & Hc); apply runs_seq; (eapply runs_mono; [apply (IH w1 HI1)|done|]); intros errs w2 (HI2 & Hk2 & Hall & Herr); apply runs_ok; simpl.
  - split_and!; [done|by eapply Htrans| |].
    + intros c' [-> |Hc']%elem_of_cons; [right; by eapply Hok|]. by apply Hall.
    + intros c' Hc'. destruct (Herr c' Hc'). split; [by right|done].
  - split_and!; [done|by eapply Htrans| |].
    + intros c' [-> |Hc']%elem_of_cons; [left; split; [by left|done]|]. destruct (Hall c' Hc') as [[? ?]|?]; [left; split; [by right|done]|by right].
    + intros c' [-> |Hc']%elem_of_cons; [split; [by left|done]|]. destruct (Herr c' Hc'). split; [by right|done].
Qed.

(** Only copies of this name in leaf clusters are touched, and namespaces only added. *)
Definition copies_only {V} (t : Table Mesh key V) (nn : string * string) (w w' : Mesh) : Prop :=
  (forall k, snd k <> nn \/ fst k = None -> rows t w' !! k = rows t w !! k) /\
  rest_of t (mkMesh 0 (mesh_services w') (mesh_slices w') (mesh_exports w') (mesh_imports w') ∅) =
  rest_of t (mkMesh 0 (mesh_services w) (mesh_slices w) (mesh_exports w) (mesh_imports w) ∅) /\
  mesh_namespaces w ⊆ mesh_namespaces w'.

Lemma copies_only_refl {V} (t : Table Mesh key V) nn w : copies_only t nn w w.
Proof. done. Qed.

Lemma copies_only_trans {V} (t : Table Mesh key V) nn w1 w2 w3 : copies_only t nn w1 w2 -> copies_only t nn w2 w3 -> copies_only t nn w1 w3.
Proof. intros (A1 & A2 & A3) (B1 & B2 & B3). split_and!; [|congruence|set_solver]. intros k Hk. rewrite B1 by done. by apply A1. Qed.

(** How a task failed: its cluster is not connected, or a call failed. *)
Definition excused (cluster : string) : Prop := faulty faults \/ resolve cluster = None.

End facts.

Lemma services_only nn w w' actual m : writes services w w' m -> (forall k, k <> (Some actual, nn) -> m !! k = rows services w !! k) -> copies_only services nn w w'.
Proof.
  intros Hw Hm. destruct (services_apart _ _ _ Hw) as (E1 & E2 & E3 & E4). destruct Hw as [E5 _].
  destruct w, w'. unfold rows in *. simpl in *. subst. split_and!; [|done|done]. intros k Hk. apply Hm. intros ->. naive_solver.
Qed.

Lemma slices_only nn w w' actual m : writes slices w w' m -> (forall k, k <> (Some actual, nn) -> m !! k = rows slices w !! k) -> copies_only slices nn w w'.
Proof.
  intros [E5 E] Hm. destruct (slices_apart _ _ E) as (E1 & E2 & E3 & E4).
  destruct w, w'. unfold rows in *. simpl in *. subst. split_and!; [|done|done]. intros k Hk. apply Hm. intros ->. naive_solver.
Qed.

(** Each cluster is done or has an excuse, whatever happened to the others; the work ends well
only if all are done, and with an error only for an excuse. *)
Definition everywhere (clusters : list string) (ok : string -> Mesh -> Prop) (why : string -> Prop) (out : Mesh * answer apierr unit) : Prop :=
  (forall c, c ∈ clusters -> why c \/ ok c (fst out)) /\
  match snd out with
  | Good _ => forall c, c ∈ clusters -> ok c (fst out)
  | Bad _ => exists c, c ∈ clusters /\ why c
  | Fault => False
  end.

Lemma everywhere_join task ok why (keep : Mesh -> Mesh -> Prop) :
  (forall w, keep w w) -> (forall w1 w2 w3, keep w1 w2 -> keep w2 w3 -> keep w1 w3) -> (forall c w w', ok c w -> keep w w' -> ok c w') ->
  (forall c w, runs (task c) w (fun w' => keep w w' /\ why c) (fun _ w' => keep w w' /\ ok c w')) ->
  forall clusters w, let out := (do! errs := gather task clusters in report_errors errs) w in keep w (fst out) /\ everywhere clusters ok why out.
Proof.
  intros Hr Ht Hok Htask clusters w.
  assert (Hg := gather_spec task (fun _ => True) ok why keep Hr Ht Hok ltac:(intros c w0 _; eapply runs_mono; [apply Htask| |]; simpl; tauto) clusters w I).
  simpl. unfold mseq. unfold runs in Hg. destruct (gather task clusters w) as [w1 [errs|err|]]; [|done|done].
  destruct Hg as (_ & Hk & Hall & Herr). unfold everywhere, report_errors. destruct errs as [|c errs]; simpl.
  - split; [done|]. split; intros c Hc; destruct (Hall c Hc) as [[Hn _]|?]; auto; by apply not_elem_of_nil in Hn.
  - split; [done|]. split; [intros c' Hc; destruct (Hall c' Hc) as [[_ ?]|?]; auto|]. exists c. apply Herr. by left.
Qed.

(** A read of the host before the work: a failure is everyone's excuse. *)
Lemma everywhere_read (faults : nat -> option fault) {V} (t : Table Mesh key V) `{!TableLaws t} (k : key) (f : V -> MM unit) (gone : MM unit) (w : Mesh) (P : Mesh * answer apierr unit -> Prop) :
  (forall err, faulty faults -> P (next_call w, Bad err)) -> (forall v, rows t w !! k = Some v -> P (f v (next_call w))) ->
  (rows t w !! k = None -> P (gone (next_call w))) ->
  P (mtry (Get faults t k) f (fun err => match err with IsNotFound _ => gone | _ => merr err end) w).
Proof.
  intros HX Hv Hn. unfold mtry, Get.
  match goal with |- context [Calls.call (oracle faults) ?f w] => destruct (call_cases faults f w) as [(ft & Hft & ->)| ->] end.
  - assert (faulty faults) by (by exists (mesh_calls w), ft). destruct ft; by apply HX.
  - rewrite rows_tick. destruct (rows t w !! k); auto.
Qed.

Section service.
  Context (faults : nat -> option fault) (registry : resourceMap) (clients : gmap string unit) (family : LeafResource -> string).
  Context (root : McsService).
Let nn := (ms_Namespace root, ms_Name root).

(** The actual cluster has a copy of the service made for one of its leaf clusters. *)
Definition has_copy (actual : string) (w : Mesh) : Prop :=
  exists c lr old copy, resolve registry clients c = Some (lr, actual) /\ rows services w !! (Some actual, nn) = Some copy /\
    service_copy (family lr) root old copy.

Definition copied (cluster : string) (w : Mesh) : Prop :=
  exists lr actual, resolve registry clients cluster = Some (lr, actual) /\ has_copy actual w /\ (Some actual, ms_Namespace root) ∈ mesh_namespaces w.

Definition not_copied (cluster : string) : Prop :=
  excused faults registry clients cluster \/ exists lr actual, resolve registry clients cluster = Some (lr, actual) /\ mismatched (family lr) root = true.

Definition service_keep (w w' : Mesh) : Prop := copies_only services nn w w' /\ forall actual, has_copy actual w -> has_copy actual w'.

Lemma same_services_keep w w' : rows exports w' = rows exports w -> rows imports w' = rows imports w -> rows services w' = rows services w ->
  rows slices w' = rows slices w -> mesh_namespaces w ⊆ mesh_namespaces w' -> service_keep w w'.
Proof.
  intros E1 E2 E3 E4 E5. split; [|unfold has_copy; by rewrite E3]. split_and!; [by rewrite E3| |done]. destruct w, w'. unfold rows, rest_of in *. simpl in *. by subst.
Qed.

Lemma service_task_spec c w : has_families root ->
  runs (sync_service_task faults registry clients family root c) w (fun w' => service_keep w w' /\ not_copied c) (fun _ w' => service_keep w w' /\ copied c w').
Proof.
  intros Hf. apply runs_seq, runs_svc_leaf.
  { intros Hr. split; [apply same_services_keep; done|]. left. by right. }
  intros lr actual Hr. apply runs_seq, runs_namespace.
  { intros ?. split; [by destruct w; apply same_services_keep|]. left. by left. }
  intros w1 N1 N2 N3 N4 N5. assert (Hk1 : service_keep w w1) by (apply same_services_keep; set_solver).
  apply runs_seq, checkServiceType_spec; [done|]. destruct (mismatched (family lr) root) eqn:Em; simpl.
  { split; [done|]. right. eauto. }
  eapply runs_mono; [apply (put_service_spec faults actual (family lr) (ms_Namespace root) root w1 (fun w' => service_keep w w' /\ not_copied c)); [apply Hf|done|]|done|].
  - intros Hft w' Hw'. destruct (services_apart _ _ _ Hw') as (E1 & E2 & E3 & E4). destruct Hw' as [E5 _].
    split; [apply same_services_keep; [congruence..|set_solver]|left; by left].
  - intros _ w2 (copy & Hc & Hw2). assert (Ha := services_only nn _ _ actual _ Hw2 (fun k Hk => lookup_insert_ne _ _ _ _ (not_eq_sym Hk))).
    assert (Hcopy : has_copy actual w2).
    { exists c, lr. eexists _, copy. split_and!; [done| |exact Hc]. destruct Hw2 as [-> _]. apply lookup_insert_eq. }
    split; [split; [eapply copies_only_trans; [apply Hk1|exact Ha]|]|].
    + intros b Hb. apply Hk1 in Hb. destruct (decide (b = actual)) as [-> |Hne]; [done|]. destruct Hb as (c' & lr' & old & copy' & H1 & H2 & H3).
      exists c', lr', old, copy'. split_and!; [done| |done]. destruct Hw2 as [-> _]. rewrite lookup_insert_ne; [done|congruence].
    + exists lr, actual. split_and!; [done..|]. destruct Ha as (_ & _ & Ha). apply Ha. rewrite N5. set_solver.
Qed.

End service.

Section cleanup.
  Context (faults : nat -> option fault) (registry : resourceMap) (clients : gmap string unit) (nn : string * string).
  Context {V : Type} (t : Table Mesh key V) `{!TableLaws t}.
  Context (Honly : forall w w' actual m, writes t w w' m -> (forall k, k <> (Some actual, nn) -> m !! k = rows t w !! k) -> copies_only t nn w w').

Definition uncopied (cluster : string) (w : Mesh) : Prop :=
  exists lr actual, resolve registry clients cluster = Some (lr, actual) /\ rows t w !! (Some actual, nn) = None.

Definition cleanup_keep (w w' : Mesh) : Prop := copies_only t nn w w' /\ forall k, rows t w !! k = None -> rows t w' !! k = None.

Lemma cleanup_task_spec c w :
  runs (cleanup_task faults registry clients t nn c) w (fun w' => cleanup_keep w w' /\ excused faults registry clients c)
    (fun _ w' => cleanup_keep w w' /\ uncopied c w').
Proof.
  assert (Hsame : forall w w', writes t w w' (rows t w) -> cleanup_keep w w').
  { intros w0 w' Hw. split; [apply (Honly w0 w' "" _ Hw); done|]. destruct Hw as [-> _]. done. }
  apply runs_seq, runs_svc_leaf.
  { intros Hr. split; [apply Hsame, writes_same|by right]. }
  intros lr actual Hr. apply runs_delete_once; [apply _| |].
  { intros ?. split; [apply Hsame, writes_tick, _|by left]. }
  intros w' Hw'. assert (Hd : forall k, k <> (Some actual, nn) -> delete (Some actual, nn) (rows t w) !! k = rows t w !! k).
  { intros k Hk. by rewrite lookup_delete_ne. }
  assert (Ha := Honly w w' actual _ Hw' Hd). destruct Hw' as [Hw' _]. split; [split; [done|]|].
  - intros k Hk. rewrite Hw'. destruct (decide (k = (Some actual, nn))) as [-> |Hne]; [apply lookup_delete_eq|by rewrite Hd].
  - exists lr, actual. split; [done|]. rewrite Hw'. apply lookup_delete_eq.
Qed.

Lemma cleanup_all clusters w : let out := (do! errs := gather (cleanup_task faults registry clients t nn) clusters in report_errors errs) w in
  cleanup_keep w (fst out) /\ everywhere clusters uncopied (excused faults registry clients) out.
Proof.
  apply everywhere_join; [| | |apply cleanup_task_spec].
  - intros w0. split; [apply copies_only_refl|done].
  - intros w1 w2 w3 [A1 A2] [B1 B2]. split; [by eapply copies_only_trans|auto].
  - intros c w1 w2 (lr & actual & Hr & Hn) [_ Hk]. exists lr, actual. auto.
Qed.

End cleanup.

Section slice.
  Context (faults : nat -> option fault) (steps : Z) (registry : resourceMap) (clients : gmap string unit) (family : LeafResource -> string).
  Context (eps : EndpointSlice) (serviceName : string).
Let nn := (sl_Namespace eps, sl_Name eps).
Let new := Eps_retainEndpointSlice eps serviceName.

(** The slice is copied, does not fit the cluster, or after a conflict is an old one. *)
Definition slice_copied (cluster : string) (w : Mesh) : Prop :=
  exists lr actual, resolve registry clients cluster = Some (lr, actual) /\
    (other_family (family lr) eps = true \/ rows slices w !! (Some actual, nn) = Some new \/
     conflicted faults /\ is_Some (rows slices w !! (Some actual, nn))).

Definition slice_keep (w w' : Mesh) : Prop :=
  copies_only slices nn w w' /\ forall k, (rows slices w !! k = Some new -> rows slices w' !! k = Some new) /\
    (is_Some (rows slices w !! k) -> is_Some (rows slices w' !! k)).

Lemma same_slices_keep w w' : rows exports w' = rows exports w -> rows imports w' = rows imports w -> rows services w' = rows services w ->
  rows slices w' = rows slices w -> mesh_namespaces w ⊆ mesh_namespaces w' -> slice_keep w w'.
Proof.
  intros E1 E2 E3 E4 E5. split; [|by rewrite E4]. split_and!; [by rewrite E4| |done]. destruct w, w'. unfold rows, rest_of in *. simpl in *. by subst.
Qed.

Lemma slice_keep_trans w1 w2 w3 : slice_keep w1 w2 -> slice_keep w2 w3 -> slice_keep w1 w3.
Proof.
  intros [A1 A2] [B1 B2]. split; [by eapply copies_only_trans|]. intros k. destruct (A2 k), (B2 k). auto.
Qed.

Lemma slice_task_spec c w :
  runs (sync_slice_task faults steps registry clients family eps serviceName c) w
    (fun w' => slice_keep w w' /\ excused faults registry clients c) (fun _ w' => slice_keep w w' /\ slice_copied c w').
Proof.
  apply runs_seq, runs_svc_leaf.
  { intros Hr. split; [by apply same_slices_keep|by right]. }
  intros lr actual Hr. destruct (other_family (family lr) eps) eqn:Eo.
  { apply runs_ok. split; [by apply same_slices_keep|]. exists lr, actual. auto. }
  apply runs_seq, runs_namespace.
  { intros ?. split; [by destruct w; apply same_slices_keep|by left]. }
  intros w1 N1 N2 N3 N4 N5. assert (Hk1 : slice_keep w w1) by (apply same_slices_keep; set_solver).
  assert (Hsame : forall w', writes slices w1 w' (rows slices w1) -> slice_keep w w').
  { intros w' [E5 E]. destruct (slices_apart _ _ E) as (E1 & E2 & E3 & E4). eapply slice_keep_trans; [exact Hk1|]. apply same_slices_keep; set_solver. }
  eapply runs_mono; [apply (put_slice_spec faults steps actual new w1 (fun w' => slice_keep w w' /\ excused faults registry clients c))|done|].
  - intros Hft w' Hw'. split; [by apply Hsame|by left].
  - change (Some actual, (sl_Namespace new, sl_Name new)) with (Some actual, nn). intros u w2 [Hw2|(Hc & Hs & Hw2)].
    + assert (Ha := slices_only nn _ _ actual _ Hw2 (fun k Hk => lookup_insert_ne _ _ _ _ (not_eq_sym Hk))). destruct Hw2 as [Hw2 _]. split.
      * eapply slice_keep_trans; [exact Hk1|]. split; [done|]. intros k. rewrite Hw2.
        destruct (decide ((Some actual, nn) = k)) as [<- |Hne]; [rewrite lookup_insert_eq; eauto|by rewrite lookup_insert_ne].
      * exists lr, actual. split; [done|]. right. left. rewrite Hw2. apply lookup_insert_eq.
    + split; [by apply Hsame|]. exists lr, actual. split; [done|]. right. right. destruct Hw2 as [-> _]. done.
Qed.

End slice.

Section spread.
  Context (faults : nat -> option fault) (steps : Z) (range : forall V : Type, gmap string V -> list (string * V)).
  Context (registry : resourceMap) (clients : gmap string unit) (family : LeafResource -> string) (prefix reserved : list string).

(** The service is to be copied. *)
Definition present (nn : string * string) (w : Mesh) : option McsService :=
  match rows services w !! (None, nn) with Some root => if ms_Deleting root then None else Some root | None => None end.

Lemma copies_only_tick {V} (t : Table Mesh key V) `{!TableLaws t} nn w w' : copies_only t nn (next_call w) w' -> copies_only t nn w w'.
Proof. intros (A1 & A2 & A3). destruct w. split_and!; [|exact A2|exact A3]. intros k Hk. rewrite A1 by done. by rewrite rows_tick. Qed.

(** C20: whatever happens to the other clusters, a service of the host is copied, with its
namespace, to the actual cluster of every connected leaf cluster that it fits unless a call
failed, and its copies are removed when it is gone. The round ends well only if all the
clusters are done, with an error only if a call failed or some cluster is not connected or
does not fit; it never panics when the service has its IP families, and touches nothing but
services of that name in leaf clusters. *)
Theorem service_spread nn w :
  named w -> (forall root, present nn w = Some root -> has_families root) ->
  let out := Svc_Reconcile faults range registry clients family nn w in
  copies_only services nn w (fst out) /\
  (faulty faults /\ (exists err, snd out = Bad err) \/
   match present nn w with
   | Some root => everywhere (ListActualClusters range clients) (copied registry clients family root) (not_copied faults registry clients family root) out
   | None => everywhere (ListClusters range registry) (uncopied registry clients nn services) (excused faults registry clients) out
   end).
Proof.
  intros Hn Hf.
  assert (Hclean : forall w0, copies_only services nn w0 (fst (cleanUpServiceInLeafCluster faults range registry clients nn w0)) /\
    everywhere (ListClusters range registry) (uncopied registry clients nn services) (excused faults registry clients) (cleanUpServiceInLeafCluster faults range registry clients nn w0)).
  { intros w0. destruct (cleanup_all faults registry clients nn services (services_only nn) (ListClusters range registry) w0) as [[Hk _] He]. done. }
  cbv zeta. unfold Svc_Reconcile. apply (everywhere_read faults services (None, nn)).
  - intros err Hft. split; [apply (copies_only_tick services), copies_only_refl|]. left. split; [done|by eexists].
  - intros root Hr. unfold present in *. rewrite Hr in *. destruct (ms_Deleting root).
    + destruct (Hclean (next_call w)) as [Hk He]. split; [by apply (copies_only_tick services)|by right].
    + assert (En : (ms_Namespace root, ms_Name root) = nn) by (by apply (proj1 (proj2 Hn) (None, nn))).
      pose proof (everywhere_join (sync_service_task faults registry clients family root) (copied registry clients family root)
        (not_copied faults registry clients family root) (service_keep registry clients family root)) as Hj.
      specialize (Hj ltac:(done)). specialize (Hj ltac:(intros w1 w2 w3 [A1 A2] [B1 B2]; split; [by eapply copies_only_trans|auto])).
      specialize (Hj ltac:(intros c w1 w2 (lr & actual & H1 & H2 & H3) [[_ [_ B1]] B2]; exists lr, actual; split_and!; [done|auto|set_solver])).
      destruct (Hj (fun c w0 => service_task_spec faults registry clients family root c w0 (Hf root eq_refl)) (ListActualClusters range clients) (next_call w)) as [[Hk _] He].
      rewrite En in Hk. split; [by apply (copies_only_tick services)|by right].
  - intros Hr. unfold present. rewrite Hr. destruct (Hclean (next_call w)) as [Hk He]. split; [by apply (copies_only_tick services)|by right].
Qed.

(** The slice is to be copied, for its service of this name. *)
Definition wanted_slice (nn : string * string) (w : Mesh) : option (EndpointSlice * string) :=
  match rows slices w !! (None, nn) with
  | Some eps =>
      let name := GetLabelOrAnnotationValue (sl_Labels eps) ServiceKey in
      match rows services w !! (None, (fst nn, name)) with
      | Some service => if hasAutoMCSAnnotation service || shouldEnqueueEps prefix reserved eps then Some (eps, name) else None
      | None => None
      end
  | None => None
  end.

Definition slice_gone (nn : string * string) (w : Mesh) : bool :=
  match rows slices w !! (None, nn) with Some eps => sl_Deleting eps | None => true end.

(** An endpoint slice of a service that is synchronised is copied to the actual cluster of
every connected leaf cluster that it fits unless a call failed, whatever happens to the other
clusters, and its copies are removed when it is gone; other slices are left alone. *)
Theorem slice_spread nn w :
  named w ->
  let out := Eps_Reconcile faults steps range registry clients family prefix reserved nn w in
  copies_only slices nn w (fst out) /\
  (faulty faults /\ (exists err, snd out = Bad err) \/
   if slice_gone nn w then everywhere (ListActualClusters range clients) (uncopied registry clients nn slices) (excused faults registry clients) out
   else match wanted_slice nn w with
   | Some (eps, name) => everywhere (ListClusters range registry) (slice_copied faults registry clients family eps name) (excused faults registry clients) out
   | None => snd out = Good tt /\ rows slices (fst out) = rows slices w
   end).
Proof.
  intros Hn.
  assert (Hclean : forall w0, copies_only slices nn w0 (fst (cleanUpEpsInLeafCluster faults range registry clients nn w0)) /\
    everywhere (ListActualClusters range clients) (uncopied registry clients nn slices) (excused faults registry clients) (cleanUpEpsInLeafCluster faults range registry clients nn w0)).
  { intros w0. destruct (cleanup_all faults registry clients nn slices (slices_only nn) (ListActualClusters range clients) w0) as [[Hk _] He]. done. }
  cbv zeta. unfold slice_gone, wanted_slice, Eps_Reconcile. apply (everywhere_read faults slices (None, nn)).
  - intros err Hft. split; [apply (copies_only_tick slices), copies_only_refl|]. left. split; [done|by eexists].
  - intros eps Hr. rewrite Hr. destruct (sl_Deleting eps).
    + destruct (Hclean (next_call w)) as [Hk He]. split; [by apply (copies_only_tick slices)|by right].
    + apply (everywhere_read faults services).
      * intros err Hft. split; [by do 2 apply (copies_only_tick slices)|]. left. split; [done|by eexists].
      * intros service Hs. rewrite rows_tick in Hs. rewrite Hs, <- negb_orb.
        destruct (hasAutoMCSAnnotation service || shouldEnqueueEps prefix reserved eps); simpl.
        2:{ split; [by do 2 apply (copies_only_tick slices)|]. right. split; [done|]. by destruct w. }
        assert (En : (sl_Namespace eps, sl_Name eps) = nn) by (by apply (proj1 Hn (None, nn))). set (name := GetLabelOrAnnotationValue _ _).
        pose proof (everywhere_join (sync_slice_task faults steps registry clients family eps name) (slice_copied faults registry clients family eps name)
          (excused faults registry clients) (slice_keep eps name)) as Hj.
        specialize (Hj ltac:(done) (slice_keep_trans eps name)).
        specialize (Hj ltac:(intros c w1 w2 (lr & actual & H1 & H2) [_ B]; exists lr, actual; split; [done|]; destruct (B (Some actual, (sl_Namespace eps, sl_Name eps))); naive_solver)).
        destruct (Hj (slice_task_spec faults steps registry clients family eps name) (ListClusters range registry) (next_call (next_call w))) as [[Hk _] He].
        rewrite En in Hk. split; [by do 2 apply (copies_only_tick slices)|by right].
      * intros Hs. rewrite rows_tick in Hs. rewrite Hs. split; [by do 2 apply (copies_only_tick slices)|]. right. split; [done|]. by destruct w.
  - intros Hr. rewrite Hr. destruct (Hclean (next_call w)) as [Hk He]. split; [by apply (copies_only_tick slices)|by right].
Qed.

End spread.

(** * Examples *)

Definition ex_registry (name : string) (labels : smap) : resourceMap :=
  {[ name := mkLeafResource (mkLeafCluster name labels ∅ None) "" None false [] ]}.
Definition ex_range : forall V : Type, gmap string V -> list (string * V) := fun V m => map_to_list m.
Definition ex_family (_ : LeafResource) : string := IPFamilyTypeIPV4.
Definition ex_clients (name : string) : gmap string unit := {[ name := tt ]}.

Lemma service_spread_witness :
  named ex_start /\ present ("shop", "web") ex_start = Some ex_root /\
  let out := Svc_Reconcile (fun _ => None) ex_range (ex_registry "c1" ∅) (ex_clients "c1") ex_family ("shop", "web") ex_start in
  copies_only services ("shop", "web") ex_start (fst out) /\
  (faulty (fun _ => None) /\ (exists err, snd out = Bad err) \/
   match present ("shop", "web") ex_start with
   | Some root => everywhere (ListActualClusters ex_range (ex_clients "c1")) (copied (ex_registry "c1" ∅) (ex_clients "c1") ex_family root)
       (not_copied (fun _ => None) (ex_registry "c1" ∅) (ex_clients "c1") ex_family root) out
   | None => everywhere (ListClusters ex_range (ex_registry "c1" ∅)) (uncopied (ex_registry "c1" ∅) (ex_clients "c1") ("shop", "web") services)
       (excused (fun _ => None) (ex_registry "c1" ∅) (ex_clients "c1")) out
   end).
Proof.
  split; [apply ex_start_named|]. split; [reflexivity|].
  apply (service_spread (fun _ => None) ex_range (ex_registry "c1" ∅) (ex_clients "c1") ex_family ("shop", "web") ex_start ex_start_named).
  intros root Hr. vm_compute in Hr. injection Hr as <-. split; [by eexists|done].
Defined.

Lemma slice_spread_witness :
  named ex_start /\ slice_gone ("shop", "web-1") ex_start = false /\
  let out := Eps_Reconcile (fun _ => None) 5 ex_range (ex_registry "c1" ∅) (ex_clients "c1") ex_family ["sh"] [] ("shop", "web-1") ex_start in
  copies_only slices ("shop", "web-1") ex_start (fst out) /\
  (faulty (fun _ => None) /\ (exists err, snd out = Bad err) \/
   if slice_gone ("shop", "web-1") ex_start
   then everywhere (ListActualClusters ex_range (ex_clients "c1")) (uncopied (ex_registry "c1" ∅) (ex_clients "c1") ("shop", "web-1") slices)
     (excused (fun _ => None) (ex_registry "c1" ∅) (ex_clients "c1")) out
   else match wanted_slice ["sh"] [] ("shop", "web-1") ex_start with
   | Some (eps, name) => everywhere (ListClusters ex_range (ex_registry "c1" ∅)) (slice_copied (fun _ => None) (ex_registry "c1" ∅) (ex_clients "c1") ex_family eps name)
       (excused (fun _ => None) (ex_registry "c1" ∅) (ex_clients "c1")) out
   | None => snd out = Good tt /\ rows slices (fst out) = rows slices ex_start
   end).
Proof.
  split; [apply ex_start_named|]. split; [reflexivity|].
  apply (slice_spread (fun _ => None) 5 ex_range (ex_registry "c1" ∅) (ex_clients "c1") ex_family ["sh"] [] ("shop", "web-1") ex_start ex_start_named).
Defined.

(** The leaf cluster [leaf] stands for the actual cluster [real]: services are looked up under
the actual name and never copied; slices are, but never removed. *)
Example actual_name_not_found :
  let registry := ex_registry "leaf" {[ KosmosActualClusterName := "real" ]} in
  snd (Svc_Reconcile (fun _ => None) ex_range registry (ex_clients "real") ex_family ("shop", "web") ex_start) = Bad (OtherError "errors encountered") /\
  let w1 := fst (Eps_Reconcile (fun _ => None) 5 ex_range registry (ex_clients "real") ex_family ["sh"] [] ("shop", "web-1") ex_start) in
  let w2 := set_rows slices (delete (None, ("shop", "web-1")) (rows slices w1)) w1 in
  let w3 := fst (Eps_Reconcile (fun _ => None) 5 ex_range registry (ex_clients "real") ex_family ["sh"] [] ("shop", "web-1") w2) in
  sl_Name <$> (rows slices w1 !! (Some "real", ("shop", "web-1"))) = Some "web-1" /\
  sl_Name <$> (rows slices w3 !! (Some "real", ("shop", "web-1"))) = Some "web-1".
Proof. vm_compute. split_and!; reflexivity. Qed.

(** A service that asks for it by annotation is copied, but no event of its slices is let
through outside the namespaces with the prefix. *)
Example annotated_service_without_slices :
  let service := mkMcsService "shop" "web" (Some {[ AutoCreateMCSAnnotation := "true" ]}) false "" "ClusterIP" "" [] [] None "" "" in
  Svc_shouldEnqueue [] [] service = true /\ shouldEnqueueEps [] [] (ex_slice ["10.1.0.7"]) = false.
Proof. split; reflexivity. Qed.
