(* ===== verification/ObjectSync.v ===== *)
(** Synchronisation of config maps and secrets to the leaf clusters that use them:
clustertree/cluster-manager/controllers/common_controller.go (SyncResourcesReconciler) with
utils.UpdateConfigMap and utils.UpdateSecret.

One reconciler looks after one kind of object. [Vault] is what the API servers of the host
([None]) and of the actual leaf clusters store of that kind. The conversions from and to
unstructured objects succeed on what the servers return. *)
From S2P Require Import Prelude GoStr PodApi LeafManager PodFit PodProg PodStorage PodControllers Calls Tables McsApi SvcSync.

Inductive SyncKind := SYNC_KIND_CONFIGMAP | SYNC_KIND_SECRET.
#[export] Instance SyncKind_eq : EqDecision SyncKind. Proof. solve_decision. Defined.

(** [so_Binary] is BinaryData of a config map and StringData of a secret. *)
Record SyncObject := mkObject {
  so_Labels : option smap; so_Annotations : option smap; so_Deleting : bool; so_Data : opaque; so_Binary : opaque; so_Type : string; so_Rest : opaque }.


Definition UpdateConfigMap (old new : SyncObject) : SyncObject :=
  mkObject (so_Labels new) (so_Annotations old) (so_Deleting old) (so_Data new) (so_Binary new) (so_Type old) (so_Rest old).

Definition UpdateSecret (old new : SyncObject) : SyncObject :=
  let typ := if get (map_of (so_Annotations old)) ServiceAccountNameKey =s DefaultServiceAccountName then SecretTypeOpaque else so_Type new in
  mkObject (so_Labels new) (so_Annotations old) (so_Deleting old) (so_Data new) (so_Binary new) typ (so_Rest old).

Definition IsObjectUnstructuredGlobal (annotations : option smap) : bool := get (map_of annotations) KosmosGlobalLabel =s "true".

(** * Servers *)

Record Vault := mkVault { v_calls : nat; v_objects : gmap key SyncObject }.
Definition vault_tick (w : Vault) : Vault := mkVault (S (v_calls w)) (v_objects w).
#[export] Instance Vault_server : Server Vault := mkServer _ v_calls vault_tick.

Abbreviation VM := (Calls.M Vault apierr).

(** A reconciliation ends, or is repeated after ten seconds. *)
Inductive sync_verdict := Finished | RequeueAfter.

Section sync.
  Context (fails : nat -> option string) (kind : SyncKind).
  Context (range : forall V : Type, gmap string V -> list (string * V)) (registry : resourceMap) (clients : gmap string unit).

Definition vault_oracle (n : nat) : option apierr := OtherError <$> fails n.

Definition GetObject (k : key) : VM SyncObject := Calls.call vault_oracle (fun w =>
  match v_objects w !! k with Some o => (w, Good o) | None => (w, Bad (IsNotFound "not found")) end).

Definition UpdateObject (k : key) (o : SyncObject) : VM unit := Calls.call vault_oracle (fun w =>
  match v_objects w !! k with
  | Some _ => (mkVault (v_calls w) (<[k := o]> (v_objects w)), Good tt)
  | None => (w, Bad (IsNotFound "not found"))
  end).

Definition DeleteObject (k : key) : VM unit := Calls.call vault_oracle (fun w =>
  match v_objects w !! k with
  | Some _ => (mkVault (v_calls w) (delete k (v_objects w)), Good tt)
  | None => (w, Bad (IsNotFound "not found"))
  end).

(** The certificates of the host are called otherwise in leaf clusters. *)
Definition memberResourceName (name : string) : string :=
  if bool_decide (kind = SYNC_KIND_CONFIGMAP) && (name =s RooTCAConfigMapName) then MasterRooTCAName else name.

Definition delete_leaf_object (k : key) : VM unit :=
  mtry (DeleteObject k) mok (fun err => match err with IsNotFound _ => mok tt | _ => merr err end).

Definition update_leaf_object (k : key) (obj : SyncObject) : VM unit :=
  mtry (GetObject k)
    (fun old =>
      let latest := match kind with SYNC_KIND_CONFIGMAP => UpdateConfigMap old obj | SYNC_KIND_SECRET => UpdateSecret old obj end in
      if negb (IsObjectUnstructuredGlobal (so_Annotations old)) then mok tt else UpdateObject k latest)
    (fun err => match err with IsNotFound _ => mok tt | _ => merr err end).

(** The object is gone from the host: when the leaf cluster cannot be read, the kind of the
missing object is logged, a panic. *)
Definition delete_orphan (k : key) : VM unit :=
  mtry (GetObject k) (fun _ => delete_leaf_object k) (fun err => match err with IsNotFound _ => mok tt | _ => mfault end).

Definition SyncResource (nn : string * string) (actual : string) : VM unit :=
  let k := (Some actual, (fst nn, memberResourceName (snd nn))) in
  mtry (GetObject (None, nn))
    (fun obj => if so_Deleting obj then delete_leaf_object k else update_leaf_object k obj)
    (fun err => match err with IsNotFound _ => delete_orphan k | _ => merr err end).

Fixpoint sync_clusters (nn : string * string) (clusters : list string) : VM sync_verdict :=
  match clusters with
  | [] => mok Finished
  | cluster :: rest =>
      if HasCluster registry cluster then
        match GetLeafResource registry cluster with
        | inr _ => mok RequeueAfter
        | inl lr =>
            match GetLeafClientResource clients (GetActualClusterName (lr_Cluster lr)) with
            | inr _ => mok RequeueAfter
            | inl _ => mtry (SyncResource nn (GetActualClusterName (lr_Cluster lr))) (fun _ => sync_clusters nn rest) (fun _ => mok RequeueAfter)
            end
        end
      else sync_clusters nn rest
  end.

Definition Sync_Reconcile (nn : string * string) : VM sync_verdict :=
  mtry (GetObject (None, nn))
    (fun rootobj => sync_clusters nn (ListResourceClusters (so_Annotations rootobj)))
    (fun err => match err with IsNotFound _ => sync_clusters nn (ListClusters range registry) | _ => mok RequeueAfter end).

(** The predicate on events; creations are not looked at. *)
Definition skipFunc (namespace : string) (obj : SyncObject) : bool :=
  if namespace =s ReservedNS then false else bool_decide (is_Some (map_of (so_Annotations obj) !! KosmosResourceOwnersAnnotations)).

End sync.

(** * Facts *)

Section facts.
  Context (fails : nat -> option string) (kind : SyncKind) (registry : resourceMap) (clients : gmap string unit).

(** What a leaf cluster's object comes to, for the object of the host. *)
Definition synced_member (root old : option SyncObject) : option SyncObject :=
  match root, old with
  | Some r, Some o =>
      if so_Deleting r then None
      else if IsObjectUnstructuredGlobal (so_Annotations o)
      then Some (mkObject (so_Labels r) (so_Annotations o) (so_Deleting o) (so_Data r) (so_Binary r)
        (match kind with
         | SYNC_KIND_CONFIGMAP => so_Type o
         | SYNC_KIND_SECRET =>
             if bool_decide (map_of (so_Annotations o) !! ServiceAccountNameKey = Some DefaultServiceAccountName) then SecretTypeOpaque else so_Type r
         end) (so_Rest o))
      else Some o
  | _, _ => None
  end.

Definition call_error : Prop := exists n err, fails n = Some err.

Lemma vault_cases {A} (f : Vault -> Vault * answer apierr A) w :
  (exists err, call_error /\ Calls.call (vault_oracle fails) f w = (vault_tick w, Bad (OtherError err))) \/ Calls.call (vault_oracle fails) f w = f (vault_tick w).
Proof.
  unfold Calls.call, vault_oracle. cbn [calls_made next_call Vault_server]. destruct (fails (v_calls w)) as [err|] eqn:E; simpl; [left|by right].
  exists err. split; [by exists (v_calls w), err|done].
Qed.

Lemma synced_member_idem root old : synced_member root (synced_member root old) = synced_member root old.
Proof.
  destruct root as [r|], old as [o|]; simpl; try done. destruct (so_Deleting r); [done|].
  destruct (IsObjectUnstructuredGlobal (so_Annotations o)) eqn:E; simpl; rewrite E; [|done]. by destruct kind.
Qed.

(** The member object in one cluster; a failed round leaves everything as it was. *)
Definition member_key (nn : string * string) (actual : string) : key := (Some actual, (fst nn, memberResourceName kind (snd nn))).

Definition member_set (nn : string * string) (actual : string) (w w' : Vault) : Prop :=
  forall k, v_objects w' !! k = if bool_decide (k = member_key nn actual) then synced_member (v_objects w !! (None, nn)) (v_objects w !! k) else v_objects w !! k.

Lemma member_same nn actual w w' : v_objects w' = v_objects w ->
  synced_member (v_objects w !! (None, nn)) (v_objects w !! member_key nn actual) = v_objects w !! member_key nn actual -> member_set nn actual w w'.
Proof. intros E Hs k. rewrite E. case_bool_decide; [by subst k|done]. Qed.

Lemma member_deleted nn actual w w' : v_objects w' = delete (member_key nn actual) (v_objects w) ->
  synced_member (v_objects w !! (None, nn)) (v_objects w !! member_key nn actual) = None -> member_set nn actual w w'.
Proof. intros E Hs k. rewrite E. case_bool_decide; [subst k; by rewrite lookup_delete_eq|by rewrite lookup_delete_ne]. Qed.

Lemma member_written nn actual w w' o : v_objects w' = <[member_key nn actual := o]> (v_objects w) ->
  synced_member (v_objects w !! (None, nn)) (v_objects w !! member_key nn actual) = Some o -> member_set nn actual w w'.
Proof. intros E Hs k. rewrite E. case_bool_decide; [subst k; by rewrite lookup_insert_eq|by rewrite lookup_insert_ne]. Qed.

(** One call of the program at the head of the goal. *)
Ltac vstep w :=
  match goal with |- context [Calls.call (vault_oracle fails) ?f w] =>
    let err := fresh "err" in let He := fresh "He" in destruct (vault_cases f w) as [(err & He & ->)| ->]; simpl end.

Lemma SyncResource_spec nn actual w :
  match SyncResource fails kind nn actual w with
  | (w', Good _) => member_set nn actual w w'
  | (w', Bad _) => call_error /\ v_objects w' = v_objects w
  | (w', Fault) => call_error /\ v_objects w !! (None, nn) = None
  end.
Proof.
  unfold SyncResource. fold (member_key nn actual). unfold mtry at 1, GetObject at 1. vstep w; [done|].
  destruct (v_objects w !! (None, nn)) as [obj|] eqn:Ho; simpl.
  - destruct (so_Deleting obj) eqn:Ed.
    + unfold delete_leaf_object, mtry, DeleteObject. vstep (vault_tick w); [done|]. destruct (v_objects w !! member_key nn actual) as [o|] eqn:Em; simpl.
      * apply member_deleted; [done|]. by rewrite Ho, Em; simpl; rewrite Ed.
      * apply member_same; [done|]. by rewrite Ho, Em.
    + unfold update_leaf_object, mtry, GetObject. vstep (vault_tick w); [done|]. destruct (v_objects w !! member_key nn actual) as [o|] eqn:Em; simpl.
      2:{ apply member_same; [done|]. by rewrite Ho, Em. }
      destruct (IsObjectUnstructuredGlobal (so_Annotations o)) eqn:Eg; simpl.
      2:{ apply member_same; [done|]. rewrite Ho, Em. simpl. by rewrite Ed, Eg. }
      unfold UpdateObject. vstep (vault_tick (vault_tick w)); [done|]. rewrite Em. eapply member_written; [done|]. rewrite Ho, Em. simpl. rewrite Ed, Eg.
      destruct kind; [done|]. unfold UpdateSecret, get. f_equal. f_equal.
      destruct (map_of (so_Annotations o) !! ServiceAccountNameKey) as [v|]; simpl; [|done].
      rewrite (bool_decide_ext (Some v = _) (v = DefaultServiceAccountName)) by (split; congruence). done.
  - unfold delete_orphan, mtry, GetObject. vstep (vault_tick w); [done|]. destruct (v_objects w !! member_key nn actual) as [o|] eqn:Em; simpl.
    2:{ apply member_same; [done|]. by rewrite Ho, Em. }
    unfold delete_leaf_object, mtry, DeleteObject. vstep (vault_tick (vault_tick w)); [done|]. rewrite Em. simpl. apply member_deleted; [done|]. by rewrite Ho.
Qed.

(** The actual clusters of the registered leaf clusters among these. *)
Definition actual_of (cluster : string) : option string := (fun lr => GetActualClusterName (lr_Cluster lr)) <$> (registry !! cluster).

Definition unconnected (clusters : list string) : Prop := exists c actual, c ∈ clusters /\ actual_of c = Some actual /\ clients !! actual = None.

(** The member objects in these clusters are as wanted, nothing else has changed. *)
Definition members_set (nn : string * string) (actuals : list string) (w w' : Vault) : Prop :=
  forall k, v_objects w' !! k =
    if any (fun actual => bool_decide (k = member_key nn actual)) actuals then synced_member (v_objects w !! (None, nn)) (v_objects w !! k) else v_objects w !! k.

Lemma members_cons nn actual actuals w w1 w2 : member_set nn actual w w1 -> members_set nn actuals w1 w2 -> members_set nn (actual :: actuals) w w2.
Proof.
  intros H1 H2 k. rewrite H2, !H1, (bool_decide_eq_false_2 ((None, nn) = _)) by done. simpl.
  destruct (bool_decide (k = member_key nn actual)); simpl; destruct (any _ actuals); rewrite ?synced_member_idem; done.
Qed.

(** Some of the clusters have been seen to when a round stops. *)
Lemma sync_clusters_spec nn clusters : forall w,
  match sync_clusters fails kind registry clients nn clusters w with
  | (w', Good Finished) => members_set nn (collect actual_of clusters) w w'
  | (w', Good RequeueAfter) => (call_error \/ unconnected clusters) /\ exists n, members_set nn (take n (collect actual_of clusters)) w w'
  | (w', Bad _) => False
  | (w', Fault) => call_error /\ v_objects w !! (None, nn) = None
  end.
Proof.
  induction clusters as [|c rest IH]; intros w; simpl; [done|]. unfold HasCluster, GetLeafResource.
  assert (Hun : unconnected rest -> unconnected (c :: rest)).
  { intros (c' & a & H1 & H2). exists c', a. split; [by right|done]. }
  assert (Ea : actual_of c = (fun lr => GetActualClusterName (lr_Cluster lr)) <$> (registry !! c)) by done.
  destruct (registry !! c) as [lr|] eqn:Er; simpl in *; rewrite Ea.
  2:{ specialize (IH w). destruct (sync_clusters _ _ _ _ _ rest w) as [w' [[|]|err|]]; try done. destruct IH as [[?|?] IH]; (split; [|exact IH]); [by left|right; auto]. }
  unfold GetLeafClientResource. set (actual := GetActualClusterName (lr_Cluster lr)). destruct (clients !! actual) eqn:Ec; simpl.
  2:{ split; [right|exists 0; done]. exists c, actual. split_and!; [by left|unfold actual_of; by rewrite Er|done]. }
  unfold mtry. pose proof (SyncResource_spec nn actual w) as Hs. destruct (SyncResource fails kind nn actual w) as [w1 [u1|err|]]; [| |done].
  2:{ destruct Hs as [He Hs]. split; [by left|]. exists 0. intros k. simpl. by rewrite Hs. }
  specialize (IH w1). destruct (sync_clusters _ _ _ _ _ rest w1) as [w' [[|]|err|]]; try done.
  - by eapply members_cons.
  - destruct IH as [Hwhy [n IH]]. split; [destruct Hwhy; [by left|right; auto]|]. exists (S n). simpl. by eapply members_cons.
  - destruct IH as [He IH]. split; [done|]. rewrite <- IH. rewrite Hs, bool_decide_eq_false_2; done.
Qed.

End facts.

(** The leaf clusters that a round looks at: those recorded on the object, all when it is gone. *)
Definition round_clusters (range : forall V : Type, gmap string V -> list (string * V)) (registry : resourceMap) (root : option SyncObject) : list string :=
  match root with Some obj => ListResourceClusters (so_Annotations obj) | None => ListClusters range registry end.


(** * Examples *)

(** A leaf cluster that cannot be read after the config map was
deleted on the host. *)
Example missing_object_panics :
  snd (Sync_Reconcile (fun n => if n =? 2 then Some "timeout" else None) SYNC_KIND_CONFIGMAP ex_range (ex_registry "c1" ∅) (ex_clients "c1") ("shop", "conf") (mkVault 0 ∅)) = Fault.
Proof. vm_compute. reflexivity. Qed.

(** A config map of a leaf cluster that is not the host's is deleted with the host's. *)
Example foreign_object_deleted :
  let mine := mkObject None None false "x" "" "" "" in
  v_objects (fst (Sync_Reconcile (fun _ => None) SYNC_KIND_CONFIGMAP ex_range (ex_registry "c1" ∅) (ex_clients "c1") ("shop", "conf")
    (mkVault 0 {[ (Some "c1", ("shop", "conf")) := mine ]}))) !! (Some "c1", ("shop", "conf")) = None.
Proof. vm_compute. reflexivity. Qed.
