(* ===== verification/FleetApi.v ===== *)
(** Daemon sets across clusters: the objects and the servers.

clustertree/cluster-manager/extensions/daemonset, the controllers that spread a kosmos
DaemonSet over the clusters. A [Fleet] is what the API servers store: kosmos DaemonSets,
ShadowDaemonSets and Clusters of the host, the native DaemonSets of the host ([None]) and of
the member clusters ([Some name]); with the informers' copies of the shadow sets and of the
clusters, which the controllers change in place, and the set of running cluster managers.
The other listers show what is stored. *)
From S2P Require Import Prelude GoStr LinkApi PodApi DaemonApi PodProg PodControllers Calls Tables McsApi.

Definition RefTypeMember : string := "member".
Definition DistributeControllerFinalizer : string := "kosmos.io/distribute-controller-finalizer".
Definition MirrorAnnotation : string := "kosmos.io/daemonset-mirror".

Abbreviation nsname := (string * string)%type.

(** [metav1.OwnerReference]; [fo_Controller] is false for a nil pointer. *)
Record FleetOwner := mkFleetOwner { fo_APIVersion : string; fo_Kind : string; fo_Name : string; fo_UID : string; fo_Controller : bool }.

Record FleetMeta := mkFleetMeta {
  fm_Namespace : string; fm_Name : string; fm_UID : string; fm_Labels : option smap; fm_Annotations : option smap;
  fm_Owners : list FleetOwner; fm_Deleting : bool; fm_Finalizers : list string; fm_Rest : opaque }.

(** [DaemonSetSpec]: the annotations of the pod template, the rest of the template, and the
selector, update strategy, MinReadySeconds and RevisionHistoryLimit. *)
Record FleetSpec := mkFleetSpec { fs_TemplateAnnotations : option smap; fs_Template : opaque; fs_Rest : opaque }.

(** A DaemonSet, native or of kosmos. *)
Record FleetSet := mkFleetSet { fd_Meta : FleetMeta; fd_Spec : FleetSpec; fd_Status : DaemonSetStatus; fd_Conditions : opaque }.

Record FleetShadow := mkFleetShadow {
  sh_Meta : FleetMeta; sh_RefType : string; sh_Cluster : string; sh_Spec : FleetSpec; sh_Status : DaemonSetStatus; sh_Conditions : opaque }.

Record FleetCluster := mkFleetCluster { fc_Name : string; fc_Deleting : bool; fc_Finalizers : list string; fc_Rest : opaque }.

Definition no_status : DaemonSetStatus := mkDaemonStatus 0 0 0 0 0 0 0 0 None.

Definition with_fm_Labels (l : option smap) (m : FleetMeta) : FleetMeta :=
  mkFleetMeta (fm_Namespace m) (fm_Name m) (fm_UID m) l (fm_Annotations m) (fm_Owners m) (fm_Deleting m) (fm_Finalizers m) (fm_Rest m).
Definition with_fm_Annotations (a : option smap) (m : FleetMeta) : FleetMeta :=
  mkFleetMeta (fm_Namespace m) (fm_Name m) (fm_UID m) (fm_Labels m) a (fm_Owners m) (fm_Deleting m) (fm_Finalizers m) (fm_Rest m).
Definition with_fm_Finalizers (f : list string) (m : FleetMeta) : FleetMeta :=
  mkFleetMeta (fm_Namespace m) (fm_Name m) (fm_UID m) (fm_Labels m) (fm_Annotations m) (fm_Owners m) (fm_Deleting m) f (fm_Rest m).

Definition set_key (ds : FleetSet) : nsname := (fm_Namespace (fd_Meta ds), fm_Name (fd_Meta ds)).
Definition shadow_key (sds : FleetShadow) : nsname := (fm_Namespace (sh_Meta sds), fm_Name (sh_Meta sds)).

(** [isOwnedBy] *)
Definition isOwnedBy (references : list FleetOwner) (uid : string) : bool := any (fun ref => fo_UID ref =s uid) references.

(** [metav1.GetControllerOf] *)
Definition GetControllerOf (m : FleetMeta) : option FleetOwner := first fo_Controller (fm_Owners m).

(** * Servers *)

Record Fleet := mkFleet {
  fl_calls : nat; fl_sets : gmap nsname FleetSet; fl_shadows : gmap nsname FleetShadow; fl_natives : gmap key FleetSet;
  fl_clusters : gmap string FleetCluster; fl_namespaces : gset (string * string);
  fl_shadow_cache : gmap nsname FleetShadow; fl_cluster_cache : gmap string FleetCluster; fl_managers : gset string }.

Definition fleet_tick (w : Fleet) : Fleet :=
  mkFleet (S (fl_calls w)) (fl_sets w) (fl_shadows w) (fl_natives w) (fl_clusters w) (fl_namespaces w) (fl_shadow_cache w) (fl_cluster_cache w) (fl_managers w).
#[export] Instance Fleet_server : Server Fleet := mkServer _ fl_calls fleet_tick.

Abbreviation FM := (Calls.M Fleet apierr).

Definition sets : Table Fleet nsname FleetSet := mkTable Fleet nsname _ _ _ fl_sets
  (fun m w => mkFleet (fl_calls w) m (fl_shadows w) (fl_natives w) (fl_clusters w) (fl_namespaces w) (fl_shadow_cache w) (fl_cluster_cache w) (fl_managers w))
  (fun w => mkFleet 0 ∅ (fl_shadows w) (fl_natives w) (fl_clusters w) (fl_namespaces w) (fl_shadow_cache w) (fl_cluster_cache w) (fl_managers w)).
Definition shadows : Table Fleet nsname FleetShadow := mkTable Fleet nsname _ _ _ fl_shadows
  (fun m w => mkFleet (fl_calls w) (fl_sets w) m (fl_natives w) (fl_clusters w) (fl_namespaces w) (fl_shadow_cache w) (fl_cluster_cache w) (fl_managers w))
  (fun w => mkFleet 0 (fl_sets w) ∅ (fl_natives w) (fl_clusters w) (fl_namespaces w) (fl_shadow_cache w) (fl_cluster_cache w) (fl_managers w)).
Definition natives : Table Fleet key FleetSet := mkTable Fleet key _ _ _ fl_natives
  (fun m w => mkFleet (fl_calls w) (fl_sets w) (fl_shadows w) m (fl_clusters w) (fl_namespaces w) (fl_shadow_cache w) (fl_cluster_cache w) (fl_managers w))
  (fun w => mkFleet 0 (fl_sets w) (fl_shadows w) ∅ (fl_clusters w) (fl_namespaces w) (fl_shadow_cache w) (fl_cluster_cache w) (fl_managers w)).
Definition clusters : Table Fleet string FleetCluster := mkTable Fleet string _ _ _ fl_clusters
  (fun m w => mkFleet (fl_calls w) (fl_sets w) (fl_shadows w) (fl_natives w) m (fl_namespaces w) (fl_shadow_cache w) (fl_cluster_cache w) (fl_managers w))
  (fun w => mkFleet 0 (fl_sets w) (fl_shadows w) (fl_natives w) ∅ (fl_namespaces w) (fl_shadow_cache w) (fl_cluster_cache w) (fl_managers w)).

#[export] Instance sets_laws : TableLaws sets. Proof. by split. Qed.
#[export] Instance shadows_laws : TableLaws shadows. Proof. by split. Qed.
#[export] Instance natives_laws : TableLaws natives. Proof. by split. Qed.
#[export] Instance clusters_laws : TableLaws clusters. Proof. by split. Qed.

(** The state that is not on a server. *)
Definition set_shadow_cache (m : gmap nsname FleetShadow) (w : Fleet) : Fleet :=
  mkFleet (fl_calls w) (fl_sets w) (fl_shadows w) (fl_natives w) (fl_clusters w) (fl_namespaces w) m (fl_cluster_cache w) (fl_managers w).
Definition set_cluster_cache (m : gmap string FleetCluster) (w : Fleet) : Fleet :=
  mkFleet (fl_calls w) (fl_sets w) (fl_shadows w) (fl_natives w) (fl_clusters w) (fl_namespaces w) (fl_shadow_cache w) m (fl_managers w).
Definition set_managers (m : gset string) (w : Fleet) : Fleet :=
  mkFleet (fl_calls w) (fl_sets w) (fl_shadows w) (fl_natives w) (fl_clusters w) (fl_namespaces w) (fl_shadow_cache w) (fl_cluster_cache w) m.
Definition set_fleet_namespaces (m : gset (string * string)) (w : Fleet) : Fleet :=
  mkFleet (fl_calls w) (fl_sets w) (fl_shadows w) (fl_natives w) (fl_clusters w) m (fl_shadow_cache w) (fl_cluster_cache w) (fl_managers w).

(** Reading the state, and changing it without a call. *)
Definition peek {A} (f : Fleet -> A) : FM A := fun w => (w, Good (f w)).
Definition poke (f : Fleet -> Fleet) : FM unit := fun w => (f w, Good tt).

Section fleet.
  Context (faults : nat -> option fault).

(** [UpdateStatus] writes only the status of what is stored. *)
Definition UpdateSetStatus {K} `{Countable K} (t : Table Fleet K FleetSet) (k : K) (st : DaemonSetStatus) (conditions : opaque) : FM unit :=
  Calls.call (oracle faults) (fun w =>
    match rows t w !! k with
    | Some ds => (set_rows t (<[k := mkFleetSet (fd_Meta ds) (fd_Spec ds) st conditions]> (rows t w)) w, Good tt)
    | None => (w, Bad (IsNotFound "not found"))
    end).

Definition UpdateShadowStatus (k : nsname) (st : DaemonSetStatus) (conditions : opaque) : FM unit :=
  Calls.call (oracle faults) (fun w =>
    match rows shadows w !! k with
    | Some s => (set_rows shadows (<[k := mkFleetShadow (sh_Meta s) (sh_RefType s) (sh_Cluster s) (sh_Spec s) st conditions]> (rows shadows w)) w, Good tt)
    | None => (w, Bad (IsNotFound "not found"))
    end).

End fleet.

Lemma runs_peek {A} (f : Fleet -> A) w X Q : Q (f w) w -> runs (peek f) w X Q.
Proof. done. Qed.
Lemma runs_poke (f : Fleet -> Fleet) w X Q : Q tt (f w) -> runs (poke f) w X Q.
Proof. done. Qed.

(** The tables apart from one that was written. *)
Lemma shadows_apart w w' m : writes shadows w w' m ->
  fl_sets w' = fl_sets w /\ fl_natives w' = fl_natives w /\ fl_clusters w' = fl_clusters w /\ fl_namespaces w' = fl_namespaces w /\
  fl_shadow_cache w' = fl_shadow_cache w /\ fl_cluster_cache w' = fl_cluster_cache w /\ fl_managers w' = fl_managers w.
Proof. intros [_ H]. destruct w, w'. unfold rest_of in H. simpl in *. injection H as -> -> -> -> -> -> ->. done. Qed.

Lemma sets_apart w w' m : writes sets w w' m ->
  fl_shadows w' = fl_shadows w /\ fl_natives w' = fl_natives w /\ fl_clusters w' = fl_clusters w /\ fl_namespaces w' = fl_namespaces w /\
  fl_shadow_cache w' = fl_shadow_cache w /\ fl_cluster_cache w' = fl_cluster_cache w /\ fl_managers w' = fl_managers w.
Proof. intros [_ H]. destruct w, w'. unfold rest_of in H. simpl in *. injection H as -> -> -> -> -> -> ->. done. Qed.

Lemma natives_apart w w' m : writes natives w w' m ->
  fl_sets w' = fl_sets w /\ fl_shadows w' = fl_shadows w /\ fl_clusters w' = fl_clusters w /\ fl_namespaces w' = fl_namespaces w /\
  fl_shadow_cache w' = fl_shadow_cache w /\ fl_cluster_cache w' = fl_cluster_cache w /\ fl_managers w' = fl_managers w.
Proof. intros [_ H]. destruct w, w'. unfold rest_of in H. simpl in *. injection H as -> -> -> -> -> -> ->. done. Qed.

Lemma clusters_apart w w' m : writes clusters w w' m ->
  fl_sets w' = fl_sets w /\ fl_shadows w' = fl_shadows w /\ fl_natives w' = fl_natives w /\ fl_namespaces w' = fl_namespaces w /\
  fl_shadow_cache w' = fl_shadow_cache w /\ fl_cluster_cache w' = fl_cluster_cache w /\ fl_managers w' = fl_managers w.
Proof. intros [_ H]. destruct w, w'. unfold rest_of in H. simpl in *. injection H as -> -> -> -> -> -> ->. done. Qed.
