(* ===== verification/FleetSpread.v ===== *)
(** A kosmos DaemonSet and its shadow sets:
clustertree/cluster-manager/extensions/daemonset/daemonset_controller.go.

[Fleet_syncDaemonSet] keeps one ShadowDaemonSet for the host and one for every cluster, removes
those of clusters that are gone, and sums up their status. *)
From S2P Require Import Prelude GoStr LinkApi PodApi DaemonApi DaemonHistory DaemonStatus PodProg Calls Tables McsApi FleetApi.

Definition ControllerKind : string := "DaemonSet".
Definition KosmosGroupVersion : string := "kosmos.io/v1alpha1".

(** [metav1.NewControllerRef(ds, ControllerKind)] *)
Definition controller_ref (ds : FleetSet) : FleetOwner :=
  mkFleetOwner KosmosGroupVersion ControllerKind (fm_Name (fd_Meta ds)) (fm_UID (fd_Meta ds)) true.

Definition createShadowDaemonSet (ds : FleetSet) (refType cluster : string) : FleetShadow :=
  let suffix := if negb (refType =s RefTypeHost) then "-" +:+ cluster else "-host" in
  let meta := mkFleetMeta (fm_Namespace (fd_Meta ds)) (fm_Name (fd_Meta ds) +:+ suffix) "" (fm_Labels (fd_Meta ds)) (fm_Annotations (fd_Meta ds))
    [controller_ref ds] false [] "" in
  if negb (cluster =s "") then mkFleetShadow meta refType cluster (fd_Spec ds) no_status ""
  else mkFleetShadow meta refType "" (fd_Spec ds) no_status "".

(** A shadow set is listed once for each of its references to the set. *)
Definition listAllShadowDaemonSet (ds : FleetSet) (cached : gmap nsname FleetShadow) : list FleetShadow :=
  flat_map (fun ks : nsname * FleetShadow =>
    if fst (fst ks) =s fm_Namespace (fd_Meta ds)
    then map (fun _ => snd ks) (List.filter (fun ref => fo_UID ref =s fm_UID (fd_Meta ds)) (fm_Owners (sh_Meta (snd ks))))
    else []) (map_to_list cached).

Section spread.
  Context (faults : nat -> option fault).

(** [retry.RetryOnConflict] *)
Fixpoint createOrUpdate (n : nat) (ds : FleetShadow) : FM unit :=
  match n with
  | 0 => mok tt
  | S n' =>
      let again err := match err with IsConflict _ => if n' =? 0 then merr err else createOrUpdate n' ds | _ => merr err end in
      mtry (Get faults shadows (shadow_key ds))
        (fun exist =>
          let desired := mkFleetShadow (with_fm_Annotations (fm_Annotations (sh_Meta ds)) (with_fm_Labels (fm_Labels (sh_Meta ds)) (sh_Meta exist)))
            (sh_RefType exist) (sh_Cluster exist) (sh_Spec ds) (sh_Status exist) (sh_Conditions exist) in
          mtry (Update faults shadows (shadow_key ds) desired) mok again)
        (fun err => match err with
          | IsNotFound _ => mtry (Create faults shadows (shadow_key ds) ds) mok again
          | _ => again err
          end)
  end.

(** [retry.DefaultBackoff]: four attempts. *)
Definition DefaultBackoff_Steps : nat := 4.

Fixpoint delete_orphans (clusterSet : gmap string FleetCluster) (l : list FleetShadow) : FM unit :=
  match l with
  | [] => mok tt
  | s :: rest =>
      if sh_RefType s =s RefTypeHost then delete_orphans clusterSet rest
      else match clusterSet !! sh_Cluster s with
      | Some _ => delete_orphans clusterSet rest
      | None => do! _ := Delete faults shadows (shadow_key s) in delete_orphans clusterSet rest
      end
  end.

Definition removeOrphanShadowDaemonSet (ds : FleetSet) : FM unit :=
  do! allSds := peek (fun w => listAllShadowDaemonSet ds (fl_shadow_cache w)) in
  do! clusterList := peek fl_cluster_cache in delete_orphans clusterList allSds.

Definition add_status (a b : DaemonSetStatus) : DaemonSetStatus :=
  mkDaemonStatus (int32 (CurrentNumberScheduled a + CurrentNumberScheduled b)) (int32 (NumberMisscheduled a + NumberMisscheduled b))
    (int32 (DesiredNumberScheduled a + DesiredNumberScheduled b)) (int32 (NumberReady a + NumberReady b)) (ObservedGeneration a)
    (int32 (UpdatedNumberScheduled a + UpdatedNumberScheduled b)) (int32 (NumberAvailable a + NumberAvailable b))
    (int32 (NumberUnavailable a + NumberUnavailable b)) (CollisionCount a).

(** The counters start from zero; the other fields stay those of the set. *)
Definition sum_status (ds : FleetSet) (sds : list FleetShadow) : DaemonSetStatus :=
  let st := fd_Status ds in
  foldl (fun acc s => add_status acc (sh_Status s)) (mkDaemonStatus 0 0 0 0 (ObservedGeneration st) 0 0 0 (CollisionCount st)) sds.

Definition Fleet_updateStatus (ds : FleetSet) : FM unit :=
  do! sds := peek (fun w => listAllShadowDaemonSet ds (fl_shadow_cache w)) in
  UpdateSetStatus faults sets (set_key ds) (sum_status ds sds) (fd_Conditions ds).

(** Errors of members are only logged. *)
Fixpoint sync_members (ds : FleetSet) (clusterList : list (string * FleetCluster)) : FM unit :=
  match clusterList with
  | [] => mok tt
  | (_, cluster) :: rest =>
      if fc_Deleting cluster then sync_members ds rest
      else mtry (createOrUpdate DefaultBackoff_Steps (createShadowDaemonSet ds RefTypeMember (fc_Name cluster)))
        (fun _ => sync_members ds rest) (fun _ => sync_members ds rest)
  end.

Definition Fleet_syncDaemonSet (nn : nsname) : FM unit :=
  do! found := peek (fun w => rows sets w !! nn) in
  match found with
  | None => mok tt
  | Some ds =>
      do! _ := removeOrphanShadowDaemonSet ds in
      do! clusterList := peek (fun w => map_to_list (fl_cluster_cache w)) in
      do! _ := createOrUpdate DefaultBackoff_Steps (createShadowDaemonSet ds RefTypeHost "") in
      do! _ := sync_members ds clusterList in
      Fleet_updateStatus ds
  end.

End spread.

(** ** Events: the sets to reconcile *)

Definition Fleet_resolveControllerRef (present : gmap nsname FleetSet) (namespace : string) (ref : FleetOwner) : option FleetSet :=
  if negb (fo_Kind ref =s "DaemonSet") then None else present !! (namespace, fo_Name ref).

Definition processShadowDaemonSet (present : gmap nsname FleetSet) (sds : FleetShadow) : list nsname :=
  match GetControllerOf (sh_Meta sds) with
  | Some controllerRef =>
      match Fleet_resolveControllerRef present (fm_Namespace (sh_Meta sds)) controllerRef with Some ds => [set_key ds] | None => [] end
  | None => []
  end.

Definition processCluster (present : gmap nsname FleetSet) : list nsname := map (fun kd => set_key (snd kd)) (map_to_list present).

(** * Facts *)

(** What [createOrUpdate] makes of a stored shadow set: an existing one keeps its reference. *)
Definition refreshed (new : FleetShadow) (old : option FleetShadow) : FleetShadow :=
  match old with
  | Some e => mkFleetShadow (with_fm_Annotations (fm_Annotations (sh_Meta new)) (with_fm_Labels (fm_Labels (sh_Meta new)) (sh_Meta e)))
      (sh_RefType e) (sh_Cluster e) (sh_Spec new) (sh_Status e) (sh_Conditions e)
  | None => new
  end.

Lemma refreshed_idem new old : refreshed new (Some (refreshed new old)) = refreshed new old.
Proof. destruct old as [e|]; simpl; [done|]. by destruct new as [[]]. Qed.

Definition memberShadow (ds : FleetSet) (cluster : FleetCluster) : FleetShadow := createShadowDaemonSet ds RefTypeMember (fc_Name cluster).
Definition hostShadow (ds : FleetSet) : FleetShadow := createShadowDaemonSet ds RefTypeHost "".

Lemma createShadow_key ds cluster : shadow_key (memberShadow ds cluster) = (fm_Namespace (fd_Meta ds), fm_Name (fd_Meta ds) +:+ ("-" +:+ fc_Name cluster)).
Proof. unfold memberShadow, createShadowDaemonSet, shadow_key. by destruct (fc_Name cluster =s ""). Qed.

Lemma member_shadow_inj ds c1 c2 : shadow_key (memberShadow ds c1) = shadow_key (memberShadow ds c2) -> memberShadow ds c1 = memberShadow ds c2.
Proof.
  rewrite !createShadow_key. intros Hk. assert (E : fc_Name c1 = fc_Name c2).
  { injection Hk as Hk. apply (inj (String.append (fm_Name (fd_Meta ds)))) in Hk. by apply (inj (String.append "-")) in Hk. }
  unfold memberShadow. by rewrite E.
Qed.

Section facts.
  Context (faults : nat -> option fault).

(** The rest of the state after a write of shadow sets. *)
Lemma createOrUpdate_spec ds : forall n w (X : Fleet -> Prop), 0 < n ->
  (faulty faults -> forall w', writes shadows w w' (rows shadows w) -> X w') ->
  runs (createOrUpdate faults n ds) w X (fun _ w' => writes shadows w w' (<[shadow_key ds := refreshed ds (rows shadows w !! shadow_key ds)]> (rows shadows w))).
Proof.
  induction n as [|n IH]; intros w X Hn HX; [lia|]. set (k := shadow_key ds) in *. cbn [createOrUpdate]. fold k.
  assert (W1 : writes shadows w (next_call w) (rows shadows w)) by apply (writes_tick shadows).
  assert (W2 : writes shadows w (next_call (next_call w)) (rows shadows w)).
  { split; by rewrite ?rows_tick, ?rest_tick. }
  assert (Hagain : forall ft w1, faulty faults -> writes shadows w w1 (rows shadows w) ->
    runs (match fault_err ft with IsConflict _ => if n =? 0 then merr (fault_err ft) else createOrUpdate faults n ds | _ => merr (fault_err ft) end : FM unit) w1 X
      (fun _ w' => writes shadows w w' (<[k := refreshed ds (rows shadows w !! k)]> (rows shadows w)))).
  { intros ft w1 Hft Hw1. assert (HX1 : X w1) by (by apply HX). destruct ft; simpl; [|done]. destruct (Nat.eqb_spec n 0); [done|].
    eapply runs_mono; [apply (IH w1 X); [lia|]|done|].
    - intros _ w' Hw'. apply HX; [done|]. destruct Hw1 as [E1 E2]. rewrite E1 in Hw'. by eapply (writes_trans shadows); [split|].
    - intros u w' Hw'. destruct Hw1 as [E1 E2]. rewrite E1 in Hw'. by eapply (writes_trans shadows); [split|]. }
  unfold mtry at 1, Get at 1. unfold runs at 1.
  match goal with |- context [Calls.call (oracle faults) ?f w] => destruct (call_cases faults f w) as [(ft & Hft & ->)| ->] end.
  { assert (Hf : faulty faults) by (by exists (calls_made w), ft). specialize (Hagain ft _ Hf W1). by destruct ft. }
  rewrite rows_tick. destruct (rows shadows w !! k) as [e|] eqn:Ek; unfold mtry.
  - unfold Update.
    match goal with |- context [Calls.call (oracle faults) ?f (next_call w)] => destruct (call_cases faults f (next_call w)) as [(ft & Hft & ->)| ->] end;
      [assert (Hf : faulty faults) by (by exists (calls_made (next_call w)), ft); exact (Hagain ft _ Hf W2)|].
    rewrite !rows_tick, Ek. split; [apply rows_set|rewrite rest_set, !rest_tick; done].
  - unfold Create.
    match goal with |- context [Calls.call (oracle faults) ?f (next_call w)] => destruct (call_cases faults f (next_call w)) as [(ft & Hft & ->)| ->] end;
      [assert (Hf : faulty faults) by (by exists (calls_made (next_call w)), ft); exact (Hagain ft _ Hf W2)|].
    rewrite !rows_tick, Ek. split; [apply rows_set|rewrite rest_set, !rest_tick; done].
Qed.

Definition orphan (clusterSet : gmap string FleetCluster) (s : FleetShadow) : bool :=
  negb (sh_RefType s =s RefTypeHost) && bool_decide (clusterSet !! sh_Cluster s = None).

Lemma delete_orphans_spec clusterSet l : forall w (X : Fleet -> Prop), NoDup (map shadow_key l) ->
  (forall s, s ∈ l -> is_Some (rows shadows w !! shadow_key s)) -> (faulty faults -> forall w', X w') ->
  runs (delete_orphans faults clusterSet l) w X (fun _ w' => rest_of shadows w' = rest_of shadows w /\
    forall k, rows shadows w' !! k = if any (fun s => orphan clusterSet s && bool_decide (k = shadow_key s)) l then None else rows shadows w !! k).
Proof.
  induction l as [|s l IH]; intros w X Hnd Hst HX; [by apply runs_ok|]. cbn [map] in Hnd. apply list.NoDup_cons in Hnd as [Hk Hnd].
  assert (Hskip : orphan clusterSet s = false -> runs (delete_orphans faults clusterSet l) w X (fun _ w' => rest_of shadows w' = rest_of shadows w /\
    forall k, rows shadows w' !! k = if any (fun s => orphan clusterSet s && bool_decide (k = shadow_key s)) (s :: l) then None else rows shadows w !! k)).
  { intros Ho. eapply runs_mono; [apply (IH w X Hnd); [intros s' ?; apply Hst; by right|done]|done|]. intros u w' [Hr Hw]. split; [done|].
    intros k. rewrite Hw. simpl. by rewrite Ho. }
  cbn [delete_orphans]. unfold orphan at 1 in Hskip. destruct (sh_RefType s =s RefTypeHost) eqn:Er; [by apply Hskip|].
  destruct (clusterSet !! sh_Cluster s) eqn:Ec; [by apply Hskip|]. clear Hskip.
  assert (Ho : orphan clusterSet s = true) by (unfold orphan; by rewrite Er, Ec).
  apply runs_seq, (runs_Delete faults shadows); [by intros ?; apply HX|intros Hn; destruct (Hst s) as [? Hs]; [by left|congruence]|].
  intros w1 [Hr1 Ho1]. eapply runs_mono; [apply (IH w1 X Hnd)|done|].
  - intros s' Hs'. rewrite Hr1, lookup_delete_ne; [apply Hst; by right|]. intros E. apply Hk. rewrite E.
    apply list_elem_of_In, in_map, list_elem_of_In. done.
  - done.
  - intros u w' [Hr Hw]. split; [congruence|]. intros k. rewrite Hw, Hr1. simpl. rewrite Ho. simpl.
    destruct (decide (k = shadow_key s)) as [-> |Hks].
    + rewrite bool_decide_eq_true_2, lookup_delete_eq by done. by destruct (any _ l).
    + rewrite bool_decide_eq_false_2, lookup_delete_ne by done. done.
Qed.

(** The member set of a key, of the clusters that are not being deleted. *)
Definition member_of (ds : FleetSet) (l : list (string * FleetCluster)) (k : nsname) : option FleetShadow :=
  head (collect (fun c => if fc_Deleting (snd c) then None else
    if bool_decide (shadow_key (memberShadow ds (snd c)) = k) then Some (memberShadow ds (snd c)) else None) l).

Definition with_member (new old : option FleetShadow) : option FleetShadow := match new with Some s => Some (refreshed s old) | None => old end.

Lemma member_of_key ds l k s : member_of ds l k = Some s -> exists c, s = memberShadow ds c /\ shadow_key s = k.
Proof.
  unfold member_of. intros Hs. assert (Hin : s ∈ collect (fun c => if fc_Deleting (snd c) then None else
    if bool_decide (shadow_key (memberShadow ds (snd c)) = k) then Some (memberShadow ds (snd c)) else None) l).
  { destruct (collect _ l); [done|]. simpl in Hs. simplify_eq. by left. }
  apply elem_of_collect in Hin as ([n c] & _ & Hc). simpl in Hc. destruct (fc_Deleting c); [done|]. case_bool_decide; simplify_eq. by exists c.
Qed.

Lemma sync_members_spec ds l : forall w (X : Fleet -> Prop),
  runs (sync_members faults ds l) w X (fun _ w' => rest_of shadows w' = rest_of shadows w /\
    forall k, rows shadows w' !! k = with_member (member_of ds l k) (rows shadows w !! k) \/ faulty faults /\ rows shadows w' !! k = rows shadows w !! k).
Proof.
  induction l as [|[n c] l IH]; intros w X; [apply runs_ok; split; [done|]; intros k; by left|].
  cbn [sync_members]. unfold member_of. cbn [collect snd]. destruct (fc_Deleting c); [apply IH|]. fold (memberShadow ds c).
  assert (Hc := createOrUpdate_spec (memberShadow ds c) DefaultBackoff_Steps w (fun w' => faulty faults /\ writes shadows w w' (rows shadows w))
    ltac:(unfold DefaultBackoff_Steps; lia) ltac:(done)).
  unfold runs at 1 in Hc. unfold mtry, runs at 1. destruct (createOrUpdate _ _ _ w) as [w1 [[]|err|]]; [| |done].
  - eapply runs_mono; [apply (IH w1 X)|done|]. intros u w2 [Hr2 Hw2]. destruct Hc as [Hr1 Ho1]. split; [congruence|]. intros k. specialize (Hw2 k). rewrite Hr1 in Hw2.
    case_bool_decide as Hk; cbn [head with_member].
    + subst k. rewrite lookup_insert_eq in Hw2. left. destruct Hw2 as [-> |[_ ->]]; [|done].
      destruct (member_of ds l _) as [s|] eqn:Em; cbn [with_member]; [|done]. apply member_of_key in Em as (c' & -> & Hkey). apply member_shadow_inj in Hkey as ->.
      by rewrite refreshed_idem.
    + rewrite lookup_insert_ne in Hw2 by done. exact Hw2.
  - destruct Hc as [Hf [Hr1 Ho1]]. eapply runs_mono; [apply (IH w1 X)|done|]. intros u w2 [Hr2 Hw2]. split; [congruence|]. intros k. specialize (Hw2 k). rewrite Hr1 in Hw2.
    case_bool_decide as Hk; cbn [head with_member]; [|exact Hw2]. subst k. destruct Hw2 as [-> |[_ ->]]; [|by right].
    destruct (member_of ds l _) as [s|] eqn:Em; cbn [with_member]; [|by right]. apply member_of_key in Em as (c' & -> & Hkey). apply member_shadow_inj in Hkey as ->. by left.
Qed.

End facts.

(** * Sums of counters *)

Definition counters : list (DaemonSetStatus -> Z) :=
  [CurrentNumberScheduled; NumberMisscheduled; DesiredNumberScheduled; NumberReady; UpdatedNumberScheduled; NumberAvailable; NumberUnavailable].

Definition total (f : DaemonSetStatus -> Z) (l : list FleetShadow) : Z := foldr (fun s n => f (sh_Status s) + n)%Z 0%Z l.

Lemma int32_add a b : int32 (int32 a + b) = int32 (a + b).
Proof.
  unfold int32. replace ((a + 2 ^ 31) mod 2 ^ 32 - 2 ^ 31 + b + 2 ^ 31)%Z with ((a + 2 ^ 31) mod 2 ^ 32 + b)%Z by lia.
  rewrite Zplus_mod_idemp_l. f_equal. f_equal. lia.
Qed.

Lemma sum_total f : f ∈ counters -> forall l acc, int32 (f (foldl (fun acc s => add_status acc (sh_Status s)) acc l)) = int32 (f acc + total f l).
Proof.
  intros Hf. assert (Ha : forall a b, f (add_status a b) = int32 (f a + f b)).
  { intros a b. unfold counters in Hf. repeat (apply elem_of_cons in Hf as [-> |Hf]; [done|]). by apply not_elem_of_nil in Hf. }
  induction l as [|s l IH]; intros acc; simpl; [f_equal; lia|]. rewrite IH, Ha, int32_add. f_equal. lia.
Qed.

Lemma sum_status_total ds f l : f ∈ counters -> f (sum_status ds l) = int32 (total f l).
Proof.
  intros Hf. assert (H0 : forall g c, f (mkDaemonStatus 0 0 0 0 g 0 0 0 c) = 0%Z /\ forall a b, f (add_status a b) = int32 (f a + f b)).
  { intros g c. unfold counters in Hf. repeat (apply elem_of_cons in Hf as [-> |Hf]; [done|]). by apply not_elem_of_nil in Hf. }
  unfold sum_status. cbv zeta. destruct l as [|s l] using rev_ind; [simpl; by rewrite (proj1 (H0 _ _))|]. rewrite foldl_snoc, (proj2 (H0 0%Z None)).
  rewrite <- int32_add, sum_total, (proj1 (H0 _ _)), int32_add by done. f_equal.
  clear. induction l as [|s' l IH]; simpl; lia.
Qed.

(** * The round *)

(** The informer has caught up; objects are named by their keys; no set is referred to twice. *)
Definition fleet_ok (w : Fleet) : Prop :=
  fl_shadow_cache w = fl_shadows w /\
  (forall k s, fl_shadows w !! k = Some s -> shadow_key s = k /\ NoDup (map fo_UID (fm_Owners (sh_Meta s)))) /\
  (forall k ds, fl_sets w !! k = Some ds -> set_key ds = k).

(** The shadow set is one of [ds] for a cluster that is gone. *)
Definition stray (ds : FleetSet) (w : Fleet) (k : nsname) (s : FleetShadow) : bool :=
  (fst k =s fm_Namespace (fd_Meta ds)) && isOwnedBy (fm_Owners (sh_Meta s)) (fm_UID (fd_Meta ds)) && orphan (fl_cluster_cache w) s.

Definition cleaned (ds : FleetSet) (w : Fleet) (k : nsname) : option FleetShadow :=
  match fl_shadows w !! k with Some s => if stray ds w k s then None else Some s | None => None end.

Definition spread_done (faults : nat -> option fault) (ds : FleetSet) (w w' : Fleet) : Prop :=
  let owned := listAllShadowDaemonSet ds (fl_shadows w) in
  let hosted k := with_member (if bool_decide (k = shadow_key (hostShadow ds)) then Some (hostShadow ds) else None) (cleaned ds w k) in
  (forall k, fl_shadows w' !! k = with_member (member_of ds (map_to_list (fl_cluster_cache w)) k) (hosted k) \/
    faulty faults /\ fl_shadows w' !! k = hosted k) /\
  (exists st, fl_sets w' = <[set_key ds := mkFleetSet (fd_Meta ds) (fd_Spec ds) st (fd_Conditions ds)]> (fl_sets w) /\
    forall f, f ∈ counters -> f st = int32 (total f owned)) /\
  fl_natives w' = fl_natives w /\ fl_clusters w' = fl_clusters w.

Section round.
  Context (faults : nat -> option fault).

(** With one reference at most, the shadow sets of a set are listed once. *)
Lemma owned_once uid (l : list FleetOwner) : NoDup (map fo_UID l) ->
  List.filter (fun ref => fo_UID ref =s uid) l = [] /\ isOwnedBy l uid = false \/
  exists ref, List.filter (fun ref => fo_UID ref =s uid) l = [ref] /\ isOwnedBy l uid = true.
Proof.
  induction l as [|r l IH]; intros Hnd; [by left|]. simpl in *. apply list.NoDup_cons in Hnd as [Hr Hnd]. unfold isOwnedBy. simpl.
  destruct (fo_UID r =s uid) eqn:E; simpl; [right; exists r|by apply IH]. split; [|done]. destruct (IH Hnd) as [[-> _]|(r' & Hf & _)]; [done|].
  exfalso. apply Hr. apply bool_decide_eq_true in E. rewrite E. apply list_elem_of_In, in_map_iff. exists r'.
  assert (Hin : r' ∈ List.filter (fun ref => fo_UID ref =s uid) l) by (rewrite Hf; by left).
  apply list_filter_spec in Hin as [Hin Hu]. apply bool_decide_eq_true in Hu. split; [done|by apply list_elem_of_In].
Qed.

Lemma listAll_spec ds m : (forall k s, m !! k = Some s -> shadow_key s = k /\ NoDup (map fo_UID (fm_Owners (sh_Meta s)))) ->
  NoDup (map shadow_key (listAllShadowDaemonSet ds m)) /\
  forall s, s ∈ listAllShadowDaemonSet ds m <-> m !! shadow_key s = Some s /\ fst (shadow_key s) = fm_Namespace (fd_Meta ds) /\ isOwnedBy (fm_Owners (sh_Meta s)) (fm_UID (fd_Meta ds)) = true.
Proof.
  intros Hm. unfold listAllShadowDaemonSet.
  assert (Hl : forall k s, (k, s) ∈ map_to_list m -> m !! k = Some s) by (intros k s; apply elem_of_map_to_list).
  assert (Hpart : forall k s, (k, s) ∈ map_to_list m -> (if k.1 =s fm_Namespace (fd_Meta ds)
      then map (fun _ => s) (List.filter (fun ref => fo_UID ref =s fm_UID (fd_Meta ds)) (fm_Owners (sh_Meta s))) else []) =
    if (k.1 =s fm_Namespace (fd_Meta ds)) && isOwnedBy (fm_Owners (sh_Meta s)) (fm_UID (fd_Meta ds)) then [s] else []).
  { intros k s Hin. destruct (Hm k s (Hl k s Hin)) as [_ Hnd]. destruct (k.1 =s _); [|done].
    destruct (owned_once (fm_UID (fd_Meta ds)) _ Hnd) as [[-> ->]|(r & -> & ->)]; done. }
  split.
  - pose proof (NoDup_fst_map_to_list m) as Hnd. revert Hnd Hl Hpart. generalize (map_to_list m). intros l. induction l as [|[k s] l IH]; intros Hnd Hl Hpart; [constructor|].
    cbn [flat_map]. cbn [fst snd]. rewrite (Hpart k s) by (by left). simpl in Hnd. apply list.NoDup_cons in Hnd as [Hk Hnd].
    specialize (IH Hnd (fun k' s' H => Hl k' s' (list_elem_of_further _ _ _ H)) (fun k' s' H => Hpart k' s' (list_elem_of_further _ _ _ H))).
    destruct (_ && _); [|exact IH]. simpl. apply list.NoDup_cons. split; [|exact IH]. intros (s' & Hks & Hin)%list_elem_of_In%in_map_iff.
    apply Hk. apply in_flat_map in Hin as ([k' s''] & Hin & Hs'). apply list_elem_of_In in Hin. simpl in Hs'. rewrite (Hpart k' s'') in Hs' by (by right).
    destruct (_ && _); [|done]. destruct Hs' as [-> |[]].
    destruct (Hm k' s' (Hl k' s' (list_elem_of_further _ _ _ Hin))) as [Ek' _]. destruct (Hm k s (Hl k s (list_elem_of_here _ _))) as [Ek _].
    apply list_elem_of_In, in_map_iff. exists (k', s'). split; [simpl; congruence|by apply list_elem_of_In].
  - intros s. rewrite list_elem_of_In, in_flat_map. split.
    + intros ([k s'] & Hin%list_elem_of_In & Hs). simpl in Hs. rewrite (Hpart k s' Hin) in Hs. destruct (_ && _) eqn:E; [|done].
      destruct Hs as [-> |[]]. apply andb_true_iff in E as [E1%bool_decide_eq_true E2]. destruct (Hm k s (Hl _ _ Hin)) as [Ek _]. rewrite Ek. split_and!; [by apply Hl|done|done].
    + intros (H1 & H2 & H3). exists (shadow_key s, s). split; [by apply list_elem_of_In, elem_of_map_to_list|]. cbn [fst snd]. rewrite (Hpart (shadow_key s) s).
      * rewrite H3, (bool_decide_eq_true_2 _ H2). by left.
      * by apply elem_of_map_to_list.
Qed.

(** The orphans are gone from the server. *)
Lemma remove_orphans_spec ds w (X : Fleet -> Prop) : fleet_ok w -> (faulty faults -> forall w', X w') ->
  runs (removeOrphanShadowDaemonSet faults ds) w X (fun _ w' => rest_of shadows w' = rest_of shadows w /\ forall k, rows shadows w' !! k = cleaned ds w k).
Proof.
  intros (Hc & Hs & _) HX. apply runs_seq, runs_peek, runs_seq, runs_peek. rewrite Hc. destruct (listAll_spec ds (fl_shadows w) Hs) as [Hnd Hin].
  eapply runs_mono; [apply (delete_orphans_spec faults _ _ w X Hnd)|done|].
  - intros s Hin'. apply Hin in Hin' as [Hin' _]. by eexists.
  - done.
  - intros u w' [Hr Hw]. split; [done|]. intros k. rewrite Hw. unfold cleaned, rows. cbn [fl_shadows shadows]. change ((let (rows, _, _) := shadows in rows) w) with (fl_shadows w).
    destruct (any _ _) eqn:Ea.
    + apply any_true in Ea as (s & Hsl & [Ho Hk%bool_decide_eq_true]%andb_true_iff). apply Hin in Hsl as (H1 & H2 & H3). subst k. rewrite H1. unfold stray.
      by rewrite (bool_decide_eq_true_2 _ H2), H3, Ho.
    + destruct (fl_shadows w !! k) as [s|] eqn:Ek; [|done]. destruct (stray ds w k s) eqn:Est; [|done]. exfalso.
      assert (any (fun s0 => orphan (fl_cluster_cache w) s0 && bool_decide (k = shadow_key s0)) (listAllShadowDaemonSet ds (fl_shadows w)) = true); [|congruence].
      unfold stray in Est. apply andb_true_iff in Est as [[E1%bool_decide_eq_true E2]%andb_true_iff E3]. apply any_true. exists s. destruct (Hs k s Ek) as [Hk _].
      split; [apply Hin; rewrite Hk; done|]. by rewrite E3, (bool_decide_eq_true_2 _ (eq_sym Hk)).
Qed.

(** C10: a round for a kosmos DaemonSet ends with an error only if a call failed. Otherwise the
set has a shadow set for the host and, unless a call failed, one for every cluster that is
not being deleted, with its specification, labels and annotations; its shadow sets of
clusters that are gone are removed; its counters are the 32-bit sums of those of its shadow
sets; and no other object is touched. *)
Theorem fleet_spread nn w : fleet_ok w ->
  runs (Fleet_syncDaemonSet faults nn) w (fun _ => faulty faults) (fun _ w' =>
    match fl_sets w !! nn with Some ds => spread_done faults ds w w' | None => w' = w end).
Proof.
  intros Hok. apply runs_seq, runs_peek. change (rows sets w) with (fl_sets w). destruct (fl_sets w !! nn) as [ds|] eqn:Ed; [|by apply runs_ok].
  assert (En : set_key ds = nn) by (by apply Hok). apply runs_seq.
  eapply runs_mono; [apply (remove_orphans_spec ds w (fun _ => faulty faults) Hok); done|done|]. intros u w1 [Hr1 Hw1].
  assert (A1 := shadows_apart w w1 (rows shadows w1) (conj eq_refl Hr1)). destruct A1 as (S1 & N1 & C1 & P1 & K1 & L1 & M1).
  apply runs_seq, runs_peek, runs_seq. fold (hostShadow ds).
  eapply runs_mono; [apply (createOrUpdate_spec faults (hostShadow ds) DefaultBackoff_Steps w1 (fun _ => faulty faults)); [unfold DefaultBackoff_Steps; lia|done]|done|].
  intros u2 w2 [Hw2 Hr2]. assert (A2 := shadows_apart w1 w2 _ (conj Hw2 Hr2)). destruct A2 as (S2 & N2 & C2 & P2 & K2 & L2 & M2).
  apply runs_seq. eapply runs_mono; [apply (sync_members_spec faults ds _ w2 (fun _ => faulty faults))|done|]. intros u3 w3 [Hr3 Hw3].
  assert (A3 := shadows_apart w2 w3 (rows shadows w3) (conj eq_refl Hr3)). destruct A3 as (S3 & N3 & C3 & P3 & K3 & L3 & M3).
  apply runs_seq, runs_peek, runs_call; [intros ?; by apply call_faulty|]. unfold runs. rewrite rows_tick. change (rows sets w3) with (fl_sets w3).
  rewrite S3, S2, S1, En, Ed. unfold spread_done. destruct Hok as (Hc & Hs & Hk). split_and!.
  - intros k. change (fl_shadows _) with (rows shadows w3). specialize (Hw3 k). rewrite L1 in Hw3.
    assert (Eh : rows shadows w2 !! k = with_member (if bool_decide (k = shadow_key (hostShadow ds)) then Some (hostShadow ds) else None) (cleaned ds w k)).
    { rewrite Hw2. destruct (decide (k = shadow_key (hostShadow ds))) as [-> |Hne].
      - by rewrite lookup_insert_eq, bool_decide_eq_true_2, Hw1.
      - rewrite lookup_insert_ne, bool_decide_eq_false_2, Hw1; done. }
    rewrite Eh in Hw3. exact Hw3.
  - rewrite K3, K2, K1, Hc. eexists. split; [|intros f Hf; by apply sum_status_total]. rewrite En. done.
  - change (fl_natives w3 = fl_natives w). congruence.
  - change (fl_clusters w3 = fl_clusters w). congruence.
Qed.

End round.

(** * Examples *)

Definition ex_set : FleetSet :=
  mkFleetSet (mkFleetMeta "shop" "log" "u1" None None [] false [] "") (mkFleetSpec None "t" "r") no_status "".
Definition ex_cluster (name : string) : FleetCluster := mkFleetCluster name false [] "".
Definition ex_shadow (name refType cluster : string) (ready : Z) : FleetShadow :=
  mkFleetShadow (mkFleetMeta "shop" name "" None None [controller_ref ex_set] false [] "") refType cluster (mkFleetSpec None "old" "r")
    (mkDaemonStatus 0 0 0 ready 0 0 0 0 None) "".
Definition ex_shadows : gmap nsname FleetShadow :=
  {[ ("shop", "log-host") := ex_shadow "log-host" "host" "" 2; ("shop", "log-c9") := ex_shadow "log-c9" "member" "c9" 1 ]}.
Definition ex_fleet (names : list string) : Fleet :=
  let cs := list_to_map (map (fun n => (n, ex_cluster n)) names) in
  mkFleet 0 {[ ("shop", "log") := ex_set ]} ex_shadows ∅ cs ∅ ex_shadows cs ∅.

Lemma ex_fleet_ok names : fleet_ok (ex_fleet names).
Proof.
  split; [done|]. split; intros k v Hk; cbn in Hk.
  - unfold ex_shadows in Hk. apply lookup_insert_Some in Hk as [[<- <-]|[_ Hk]]; [split; [done|apply NoDup_singleton]|].
    apply lookup_singleton_Some in Hk as [<- <-]. split; [done|apply NoDup_singleton].
  - by apply lookup_singleton_Some in Hk as [<- <-].
Qed.

Lemma fleet_spread_witness :
  fleet_ok (ex_fleet ["c1"]) /\
  runs (Fleet_syncDaemonSet (fun _ => None) ("shop", "log")) (ex_fleet ["c1"]) (fun _ => faulty (fun _ => None)) (fun _ w' =>
    match fl_sets (ex_fleet ["c1"]) !! ("shop", "log") with Some ds => spread_done (fun _ => None) ds (ex_fleet ["c1"]) w' | None => w' = ex_fleet ["c1"] end).
Proof. split; [apply ex_fleet_ok|]. apply (fleet_spread (fun _ => None) ("shop", "log") (ex_fleet ["c1"]) (ex_fleet_ok ["c1"])). Defined.

(** The shadow set of the cluster that is gone is removed, that of [c1] made, the counters of the
old ones summed up. *)
Example fleet_round :
  let w := fst (Fleet_syncDaemonSet (fun _ => None) ("shop", "log") (ex_fleet ["c1"])) in
  (sh_Cluster <$> (fl_shadows w !! ("shop", "log-c9")), sh_Cluster <$> (fl_shadows w !! ("shop", "log-c1")), fs_Template ∘ sh_Spec <$> (fl_shadows w !! ("shop", "log-host")),
   NumberReady ∘ fd_Status <$> (fl_sets w !! ("shop", "log"))) = (None, Some "c1", Some "t", Some 3%Z).
Proof. vm_compute. reflexivity. Qed.

(** The shadow set of a cluster called [host] is that of the host. *)
Example cluster_named_host :
  let w := fst (Fleet_syncDaemonSet (fun _ => None) ("shop", "log") (ex_fleet ["host"])) in
  size (fl_shadows w) = 1 /\ sh_RefType <$> (fl_shadows w !! ("shop", "log-host")) = Some "host".
Proof. vm_compute. split; reflexivity. Qed.

(** A round in which the shadow set of a member could not be made ends well all the same. *)
Example member_error_dropped :
  let out := Fleet_syncDaemonSet (fun n => if n =? 4 then Some (Fails "timeout") else None) ("shop", "log") (ex_fleet ["c1"]) in
  snd out = Good tt /\ sh_Cluster <$> (fl_shadows (fst out) !! ("shop", "log-c1")) = None.
Proof. vm_compute. split; reflexivity. Qed.
