(* ===== verification/FleetDistribute.v ===== *)
(** Shadow sets and the native DaemonSets of the member clusters:
clustertree/cluster-manager/extensions/daemonset/distribute_controller.go.

[Dist_syncCluster] starts and stops the manager of a cluster, [Dist_syncShadow] keeps the
DaemonSet of a member cluster like its shadow set. Both change the objects of the informers'
caches in place, which the model keeps apart from what the servers store. A client that cannot
be made from a readable configuration is left out. *)
From S2P Require Import Prelude GoStr LinkApi PodApi DaemonApi DaemonHistory PodProg PodControllers Calls Tables McsApi FleetApi.

Section distribute.
  Context (faults : nat -> option fault).
  (** [clientcmd.RESTConfigFromKubeConfig] on a cluster's configuration. *)
  Context (RESTConfigFromKubeConfig : opaque -> bool).

Definition cluster_finalizers (f : list string -> list string) (c : FleetCluster) : FleetCluster :=
  mkFleetCluster (fc_Name c) (fc_Deleting c) (f (fc_Finalizers c)) (fc_Rest c).
Definition shadow_finalizers (f : list string -> list string) (s : FleetShadow) : FleetShadow :=
  mkFleetShadow (with_fm_Finalizers (f (fm_Finalizers (sh_Meta s))) (sh_Meta s)) (sh_RefType s) (sh_Cluster s) (sh_Spec s) (sh_Status s) (sh_Conditions s).

(** The object of the cache is changed, then written. *)
Definition write_cluster (c : FleetCluster) : FM unit :=
  do! _ := poke (fun w => set_cluster_cache (<[fc_Name c := c]> (fl_cluster_cache w)) w) in Update faults clusters (fc_Name c) c.
Definition write_shadow (s : FleetShadow) : FM unit :=
  do! _ := poke (fun w => set_shadow_cache (<[shadow_key s := s]> (fl_shadow_cache w)) w) in Update faults shadows (shadow_key s) s.

Definition ensureClusterFinalizer (cluster : FleetCluster) : FM unit :=
  if bool_decide (DistributeControllerFinalizer ∈ fc_Finalizers cluster) then mok tt
  else write_cluster (cluster_finalizers (add_finalizer DistributeControllerFinalizer) cluster).

Definition removeClusterFinalizer (cluster : FleetCluster) : FM unit :=
  if bool_decide (DistributeControllerFinalizer ∉ fc_Finalizers cluster) then mok tt
  else write_cluster (cluster_finalizers (remove_finalizer DistributeControllerFinalizer) cluster).

(** The set to go on with, and whether it is the object of the cache. *)
Definition ensureShadowDaemonSetFinalizer (sds : FleetShadow) : FM (FleetShadow * bool) :=
  if bool_decide (DistributeControllerFinalizer ∈ fm_Finalizers (sh_Meta sds)) then mok (sds, true)
  else
    let sds := shadow_finalizers (add_finalizer DistributeControllerFinalizer) sds in
    do! _ := write_shadow sds in mok (sds, false).

Definition removeShadowDaemonSetFinalizer (sds : FleetShadow) : FM unit :=
  if bool_decide (DistributeControllerFinalizer ∉ fm_Finalizers (sh_Meta sds)) then mok tt
  else write_shadow (shadow_finalizers (remove_finalizer DistributeControllerFinalizer) sds).

(** The DaemonSets of the cluster with the label of managed ones. *)
Definition managed_sets (cluster : string) (w : Fleet) : list nsname :=
  collect (fun kd => if bool_decide (fst (fst kd) = Some cluster) && bool_decide (map_of (fm_Labels (fd_Meta (snd kd))) !! ManagedLabel = Some "")
    then Some (snd (fst kd)) else None) (map_to_list (rows natives w)).

(** The error of a deletion is not the one that is looked at. *)
Fixpoint delete_managed (cluster : string) (l : list nsname) : FM unit :=
  match l with
  | [] => mok tt
  | nn :: rest => mtry (Delete faults natives (Some cluster, nn)) (fun _ => delete_managed cluster rest) (fun _ => delete_managed cluster rest)
  end.

Definition Dist_syncCluster (name : string) : FM unit :=
  do! found := peek (fun w => fl_cluster_cache w !! name) in
  match found with
  | None => mok tt
  | Some cluster =>
      do! running := peek (fun w => bool_decide (fc_Name cluster ∈ fl_managers w)) in
      do! _ := (if running then mok tt
                else if negb (RESTConfigFromKubeConfig (fc_Rest cluster)) then merr (OtherError "failed to create rest config")
                else poke (fun w => set_managers ({[fc_Name cluster]} ∪ fl_managers w) w)) in
      if fc_Deleting cluster then
        do! l := peek (managed_sets (fc_Name cluster)) in
        do! _ := delete_managed (fc_Name cluster) l in
        do! _ := removeClusterFinalizer cluster in
        poke (fun w => set_managers (fl_managers w ∖ {[fc_Name cluster]}) w)
      else ensureClusterFinalizer cluster
  end.

(** ** ClusterDaemonSetManager *)

Definition ensureNameSpace (cluster namespace : string) : FM unit :=
  unless_exists (Calls.call (oracle faults) (fun w =>
    if bool_decide ((cluster, namespace) ∈ fl_namespaces w) then (w, Bad (IsAlreadyExists "already exists"))
    else (set_fleet_namespaces ({[(cluster, namespace)]} ∪ fl_namespaces w) w, Good tt))).

(** The lister, then the server. *)
Definition getDaemonSet (k : key) : FM FleetSet :=
  do! found := peek (fun w => rows natives w !! k) in
  match found with Some ds => mok ds | None => Get faults natives k end.

(** The annotations that mark the pods of a member. *)
Definition marked (cluster : string) (spec : FleetSpec) : FleetSpec :=
  mkFleetSpec (Some (<[ClusterAnnotationKey := cluster]> (<[ManagedLabel := EmptyString]> (map_of (fs_TemplateAnnotations spec))))) (fs_Template spec) (fs_Rest spec).

(** The map of template annotations is shared with [sds]: when it is not nil, and [sds] is the
object of the cache, the marks are in the cache. *)
Definition mark_cached (cached : bool) (cluster : string) (sds : FleetShadow) : FM unit :=
  match cached, fs_TemplateAnnotations (sh_Spec sds) with
  | true, Some _ =>
      let marked_sds := mkFleetShadow (sh_Meta sds) (sh_RefType sds) (sh_Cluster sds) (marked cluster (sh_Spec sds)) (sh_Status sds) (sh_Conditions sds) in
      poke (fun w => set_shadow_cache (<[shadow_key sds := marked_sds]> (fl_shadow_cache w)) w)
  | _, _ => mok tt
  end.

Definition new_member (cluster : string) (sds : FleetShadow) : FleetSet :=
  mkFleetSet (mkFleetMeta (fm_Namespace (sh_Meta sds)) (fm_Name (sh_Meta sds)) "" (Some {[ ManagedLabel := EmptyString ]}) (fm_Annotations (sh_Meta sds)) [] false [] "")
    (marked cluster (sh_Spec sds)) no_status "".

(** Writing to a nil map is a panic. *)
Definition merged_labels (old new : option smap) : option smap := (fun m => <[ManagedLabel := EmptyString]> (map_of new ∪ m)) <$> old.
Definition merged_annotations (old new : option smap) : option (option smap) :=
  match old with Some m => Some (Some (map_of new ∪ m)) | None => if bool_decide (map_of new = ∅) then Some None else None end.

Definition update_member (cluster : string) (sds : FleetShadow) (ds : FleetSet) : option FleetSet :=
  match merged_labels (fm_Labels (fd_Meta ds)) (fm_Labels (sh_Meta sds)), merged_annotations (fm_Annotations (fd_Meta ds)) (fm_Annotations (sh_Meta sds)) with
  | Some l, Some a => Some (mkFleetSet (with_fm_Annotations a (with_fm_Labels (Some l) (fd_Meta ds))) (marked cluster (sh_Spec sds)) (fd_Status ds) (fd_Conditions ds))
  | _, _ => None
  end.

Definition tryCreateOrUpdateDaemonSet (cluster : string) (cached : bool) (sds : FleetShadow) : FM unit :=
  let k := (Some cluster, shadow_key sds) in
  do! _ := ensureNameSpace cluster (fm_Namespace (sh_Meta sds)) in
  mtry (getDaemonSet k)
    (fun ds => match update_member cluster sds ds with
      | Some ds => do! _ := mark_cached cached cluster sds in Update faults natives k ds
      | None => mfault
      end)
    (fun err => match err with
      | IsNotFound _ => do! _ := mark_cached cached cluster sds in Create faults natives k (new_member cluster sds)
      | _ => merr err
      end).

Definition Dist_syncShadow (nn : nsname) : FM unit :=
  do! found := peek (fun w => fl_shadow_cache w !! nn) in
  match found with
  | None => mok tt
  | Some sds =>
      do! cluster := peek (fun w => fl_cluster_cache w !! sh_Cluster sds) in
      let gone := match cluster with None => true | Some c => fc_Deleting c end in
      if gone then removeShadowDaemonSetFinalizer sds
      else
        do! running := peek (fun w => bool_decide (sh_Cluster sds ∈ fl_managers w)) in
        if negb running then merr (OtherError "no manager found for cluster")
        else if fm_Deleting (sh_Meta sds) then
          do! _ := unless_gone (Delete faults natives (Some (sh_Cluster sds), shadow_key sds)) in removeShadowDaemonSetFinalizer sds
        else
          do! '(sds, cached) := ensureShadowDaemonSetFinalizer sds in
          do! _ := tryCreateOrUpdateDaemonSet (sh_Cluster sds) cached sds in
          do! found := peek (fun w => rows natives w !! (Some (sh_Cluster sds), shadow_key sds)) in
          match found with
          | Some ds => UpdateShadowStatus faults (shadow_key sds) (fd_Status ds) (fd_Conditions ds)
          | None => merr (IsNotFound "not found")
          end
  end.

(** ** Events *)

Definition Dist_updateDaemonSet (same_status : bool) (newDS : FleetSet) : list nsname := if same_status then [] else [set_key newDS].
Definition Dist_shadow_filter (sds : FleetShadow) : bool := sh_RefType sds =s RefTypeMember.

(** [same_time] compares the pointers of the two deletion timestamps. *)
Definition Dist_updateShadowDaemonSet (same_spec same_time : bool) (oldDs newDS : FleetShadow) : list nsname :=
  if same_spec && bool_decide (fm_Annotations (sh_Meta oldDs) = fm_Annotations (sh_Meta newDS)) &&
     bool_decide (fm_Labels (sh_Meta oldDs) = fm_Labels (sh_Meta newDS)) && same_time then []
  else [shadow_key newDS].

End distribute.

(** * Facts *)

(** The parts of the state that a step of the controller leaves alone. *)
Definition besides (w w' : Fleet) : Prop := fl_sets w' = fl_sets w /\ fl_clusters w' = fl_clusters w /\ fl_managers w' = fl_managers w.

Section facts.
  Context (faults : nat -> option fault).

Lemma write_shadow_spec s old w (X : Fleet -> Prop) : fl_shadows w !! shadow_key s = Some old -> (faulty faults -> forall w', X w') ->
  runs (write_shadow faults s) w X (fun _ w' =>
    fl_shadows w' = <[shadow_key s := s]> (fl_shadows w) /\ fl_natives w' = fl_natives w /\ fl_namespaces w' = fl_namespaces w /\ besides w w').
Proof.
  intros Hs HX. apply runs_seq, runs_poke, (runs_Update faults shadows); [by intros ?; apply HX| |].
  - change (rows shadows _) with (fl_shadows w). congruence.
  - intros w' Hw'. destruct (shadows_apart _ _ _ Hw') as (E1 & E2 & E3 & E4 & E5 & E6 & E7). destruct Hw' as [Hw' _].
    split_and!; [exact Hw'|exact E2|exact E4|done].
Qed.

Lemma shadow_same f s : f (fm_Finalizers (sh_Meta s)) = fm_Finalizers (sh_Meta s) -> shadow_finalizers f s = s.
Proof. intros E. unfold shadow_finalizers. rewrite E. by destruct s as [[]]. Qed.

Lemma remove_finalizer_spec s w (X : Fleet -> Prop) : fl_shadows w !! shadow_key s = Some s -> (faulty faults -> forall w', X w') ->
  runs (removeShadowDaemonSetFinalizer faults s) w X (fun _ w' =>
    fl_shadows w' = <[shadow_key s := shadow_finalizers (remove_finalizer DistributeControllerFinalizer) s]> (fl_shadows w) /\
    fl_natives w' = fl_natives w /\ fl_namespaces w' = fl_namespaces w /\ besides w w').
Proof.
  intros Hs HX. unfold removeShadowDaemonSetFinalizer. case_bool_decide as Hf.
  - apply runs_ok. rewrite shadow_same; [|by apply remove_finalizer_absent]. by rewrite insert_id.
  - set (s' := shadow_finalizers _ s). apply (write_shadow_spec s' s); done.
Qed.

Lemma ensure_finalizer_spec s w (X : Fleet -> Prop) : fl_shadows w !! shadow_key s = Some s -> (faulty faults -> forall w', X w') ->
  let s' := shadow_finalizers (add_finalizer DistributeControllerFinalizer) s in
  runs (ensureShadowDaemonSetFinalizer faults s) w X (fun sb w' => fst sb = s' /\
    fl_shadows w' = <[shadow_key s := s']> (fl_shadows w) /\ fl_natives w' = fl_natives w /\ fl_namespaces w' = fl_namespaces w /\ besides w w').
Proof.
  intros Hs HX s'. unfold ensureShadowDaemonSetFinalizer. case_bool_decide as Hf.
  - apply runs_ok. assert (s' = s) as ->.
    { apply shadow_same. unfold add_finalizer. by rewrite bool_decide_eq_true_2. }
    by rewrite insert_id.
  - fold s'. apply runs_seq. eapply runs_mono; [apply (write_shadow_spec s' s w X); done|done|]. intros u w' Hw'. apply runs_ok. done.
Qed.

(** The DaemonSet of a member cluster is like its shadow set. *)
Definition like_shadow (cluster : string) (sds : FleetShadow) (old : option FleetSet) (ds : FleetSet) : Prop :=
  set_key ds = shadow_key sds /\ fd_Spec ds = marked cluster (sh_Spec sds) /\
  map_of (fm_Labels (fd_Meta ds)) !! ManagedLabel = Some EmptyString /\
  (forall k v, map_of (fm_Annotations (sh_Meta sds)) !! k = Some v -> map_of (fm_Annotations (fd_Meta ds)) !! k = Some v) /\
  fd_Status ds = from_option fd_Status no_status old /\ fd_Conditions ds = from_option fd_Conditions "" old.

(** The maps of an existing DaemonSet are not nil. *)
Definition has_maps (ds : FleetSet) : Prop := is_Some (fm_Labels (fd_Meta ds)) /\ is_Some (fm_Annotations (fd_Meta ds)).

Lemma new_member_like cluster sds : like_shadow cluster sds None (new_member cluster sds).
Proof. split_and!; try done. Qed.

Lemma update_member_like cluster sds ds : set_key ds = shadow_key sds -> has_maps ds ->
  exists ds', update_member cluster sds ds = Some ds' /\ like_shadow cluster sds (Some ds) ds'.
Proof.
  intros Hk [[l Hl] [a Ha]]. unfold update_member, merged_labels, merged_annotations. rewrite Hl, Ha. simpl. eexists. split; [done|].
  split_and!; try done; simpl.
  - apply lookup_insert_eq.
  - intros k v Hv. apply lookup_union_Some_l. done.
Qed.

Lemma runs_mark_cached cached cluster sds w (X : Fleet -> Prop) Q :
  (forall w', fl_shadows w' = fl_shadows w -> fl_natives w' = fl_natives w -> fl_namespaces w' = fl_namespaces w -> besides w w' -> Q tt w') ->
  runs (mark_cached cached cluster sds) w X Q.
Proof. intros HQ. unfold mark_cached. destruct cached, (fs_TemplateAnnotations (sh_Spec sds)); apply HQ; done. Qed.

Lemma runs_ensure_namespace cluster ns w (X : Fleet -> Prop) Q : (faulty faults -> X (next_call w)) ->
  (forall w', fl_shadows w' = fl_shadows w -> fl_natives w' = fl_natives w -> fl_namespaces w' = {[(cluster, ns)]} ∪ fl_namespaces w -> besides w w' -> Q tt w') ->
  runs (ensureNameSpace faults cluster ns) w X Q.
Proof.
  intros HX HQ. unfold ensureNameSpace, unless_exists, mtry, runs.
  match goal with |- context [Calls.call (oracle faults) ?f w] => destruct (call_cases faults f w) as [(ft & Hft & ->)| ->] end.
  - assert (HX' : X (next_call w)) by (apply HX; by exists (calls_made w), ft). by destruct ft.
  - change (fl_namespaces (next_call w)) with (fl_namespaces w). case_bool_decide; apply HQ; try done. change (fl_namespaces w = {[(cluster, ns)]} ∪ fl_namespaces w). set_solver.
Qed.

Lemma runs_getDaemonSet {A} k (f : FleetSet -> FM A) (gone : FM A) w (X : Fleet -> Prop) Q : (faulty faults -> X (next_call w)) ->
  (forall ds, fl_natives w !! k = Some ds -> runs (f ds) w X Q) -> (fl_natives w !! k = None -> runs gone (next_call w) X Q) ->
  runs (mtry (getDaemonSet faults k) f (fun err => match err with IsNotFound _ => gone | _ => merr err end)) w X Q.
Proof.
  intros HX Hv Hn. unfold getDaemonSet, mtry, mseq, peek, runs. change (rows natives w) with (fl_natives w). destruct (fl_natives w !! k) as [ds|] eqn:Ek; [by apply Hv|].
  unfold Get. match goal with |- context [Calls.call (oracle faults) ?f w] => destruct (call_cases faults f w) as [(ft & Hft & ->)| ->] end.
  - assert (HX' : X (next_call w)) by (apply HX; by exists (calls_made w), ft). by destruct ft.
  - rewrite rows_tick. change (rows natives w) with (fl_natives w). rewrite Ek. by apply Hn.
Qed.

(** Writing the DaemonSet, the last step. *)
Lemma put_native k ds w w0 (X : Fleet -> Prop) (Q : unit -> Fleet -> Prop) (put : FM unit) :
  (forall Q', (forall w', writes natives w w' (<[k := ds]> (rows natives w)) -> Q' tt w') -> runs put w X Q') ->
  fl_natives w = fl_natives w0 -> besides w0 w ->
  (forall w', fl_natives w' = <[k := ds]> (fl_natives w0) -> fl_shadows w' = fl_shadows w -> fl_namespaces w' = fl_namespaces w -> besides w0 w' -> Q tt w') -> runs put w X Q.
Proof.
  intros Hput EN EB HQ. apply Hput. intros w' Hw'. destruct (natives_apart _ _ _ Hw') as (E1 & E2 & E3 & E4 & E5 & E6 & E7). destruct Hw' as [Hw' _].
  change (rows natives w') with (fl_natives w') in Hw'. change (rows natives w) with (fl_natives w) in Hw'.
  apply HQ; [congruence..|]. unfold besides in *. intuition congruence.
Qed.

Lemma put_member_spec cluster cached sds w (X : Fleet -> Prop) :
  let k := (Some cluster, shadow_key sds) in
  (forall ds, fl_natives w !! k = Some ds -> set_key ds = shadow_key sds /\ has_maps ds) -> (faulty faults -> forall w', X w') ->
  runs (tryCreateOrUpdateDaemonSet faults cluster cached sds) w X (fun _ w' => exists ds, like_shadow cluster sds (fl_natives w !! k) ds /\
    fl_natives w' = <[k := ds]> (fl_natives w) /\ fl_shadows w' = fl_shadows w /\
    fl_namespaces w' = {[(cluster, fm_Namespace (sh_Meta sds))]} ∪ fl_namespaces w /\ besides w w').
Proof.
  intros k Hd HX. apply runs_seq, runs_ensure_namespace; [by intros ?; apply HX|]. intros w1 S1 N1 P1 B1. fold k.
  apply runs_getDaemonSet; [by intros ?; apply HX| |]; rewrite N1.
  - intros ds Ek. rewrite Ek in *. destruct (Hd ds eq_refl) as [Hk Hm]. destruct (update_member_like cluster sds ds Hk Hm) as (ds' & -> & Hl).
    apply runs_seq, runs_mark_cached. intros w2 S2 N2 P2 B2. apply (put_native k ds' w2 w).
    + intros Q' HQ'. apply (runs_Update faults natives); [by intros ?; apply HX|change (rows natives w2) with (fl_natives w2); rewrite N2, N1; congruence|exact HQ'].
    + congruence.
    + unfold besides in *. intuition congruence.
    + intros w3 E1 E2 E3 E4. exists ds'. split_and!; [done|done|congruence|congruence|apply E4..].
  - intros Ek. rewrite Ek. apply runs_seq, runs_mark_cached. intros w2 S2 N2 P2 B2. apply (put_native k (new_member cluster sds) w2 w).
    + intros Q' HQ'. apply (runs_Create faults natives); [by intros ?; apply HX| |by intros w3 _; apply HQ'].
      change (rows natives w2) with (fl_natives w2). rewrite N2. change (fl_natives (next_call w1)) with (fl_natives w1). rewrite N1, Ek. by intros [? ?].
    + rewrite N2. exact N1.
    + destruct B1 as (? & ? & ?), B2 as (T1 & T2 & T3). split_and!; [rewrite T1|rewrite T2|rewrite T3]; done.
    + intros w3 E1 E2 E3 E4. exists (new_member cluster sds). split_and!; [apply new_member_like|done|rewrite E2, S2; exact S1|rewrite E3, P2; exact P1|apply E4..].
Qed.

End facts.

(** * Reconciliations *)

(** The informers have caught up, objects are named by their keys. *)
Definition dist_ok (w : Fleet) : Prop :=
  fl_shadow_cache w = fl_shadows w /\ fl_cluster_cache w = fl_clusters w /\
  (forall k s, fl_shadows w !! k = Some s -> shadow_key s = k) /\ (forall n c, fl_clusters w !! n = Some c -> fc_Name c = n) /\
  (forall p k ds, fl_natives w !! (p, k) = Some ds -> set_key ds = k /\ has_maps ds).

Definition alive (w : Fleet) (name : string) : bool := match fl_clusters w !! name with Some c => negb (fc_Deleting c) | None => false end.

Definition with_status (ds : FleetSet) (s : FleetShadow) : FleetShadow :=
  mkFleetShadow (sh_Meta s) (sh_RefType s) (sh_Cluster s) (sh_Spec s) (fd_Status ds) (fd_Conditions ds).

Definition shadow_done (nn : nsname) (sds : FleetShadow) (w w' : Fleet) : Prop :=
  let k := (Some (sh_Cluster sds), nn) in
  let released := <[nn := shadow_finalizers (remove_finalizer DistributeControllerFinalizer) sds]> (fl_shadows w) in
  if alive w (sh_Cluster sds) then
    if fm_Deleting (sh_Meta sds) then fl_natives w' = delete k (fl_natives w) /\ fl_shadows w' = released
    else exists ds, like_shadow (sh_Cluster sds) sds (fl_natives w !! k) ds /\ fl_natives w' = <[k := ds]> (fl_natives w) /\
      fl_shadows w' = <[nn := with_status ds (shadow_finalizers (add_finalizer DistributeControllerFinalizer) sds)]> (fl_shadows w) /\
      (sh_Cluster sds, fst nn) ∈ fl_namespaces w'
  else fl_natives w' = fl_natives w /\ fl_shadows w' = released.

Section reconcile.
  Context (faults : nat -> option fault).


End reconcile.

Section clusters.
  Context (faults : nat -> option fault) (config_ok : opaque -> bool).

Lemma delete_managed_spec cluster l : forall w (X : Fleet -> Prop),
  runs (delete_managed faults cluster l) w X (fun _ w' => rest_of natives w' = rest_of natives w /\
    forall k, (rows natives w' !! k = if bool_decide (fst k = Some cluster /\ snd k ∈ l) then None else rows natives w !! k) \/
      faulty faults /\ rows natives w' !! k = rows natives w !! k).
Proof.
  induction l as [|nn l IH]; intros w X; cbn [delete_managed].
  { apply runs_ok. split; [done|]. intros k. left. rewrite bool_decide_eq_false_2; [done|]. intros [_ H]. by apply not_elem_of_nil in H. }
  assert (Hk : forall k, k <> (Some cluster, nn) -> bool_decide (fst k = Some cluster /\ snd k ∈ nn :: l) = bool_decide (fst k = Some cluster /\ snd k ∈ l)).
  { intros [p k] Hne. apply bool_decide_ext. simpl. rewrite elem_of_cons. naive_solver. }
  assert (Htick : rows natives (next_call w) = rows natives w) by apply rows_tick.
  unfold mtry, Delete, runs.
  match goal with |- context [Calls.call (oracle faults) ?f w] => destruct (call_cases faults f w) as [(ft & Hft & ->)| ->] end.
  - assert (Hf : faulty faults) by (by exists (calls_made w), ft). pose proof (IH (next_call w) X) as H. unfold runs in H.
    destruct (delete_managed faults cluster l (next_call w)) as [w' [u|err|]]; [|done|done]. destruct H as [Hr Hw]. rewrite rest_tick in Hr. split; [done|].
    intros k. specialize (Hw k). rewrite rows_tick in Hw. destruct (decide (k = (Some cluster, nn))) as [-> |Hne]; [|by rewrite Hk].
    destruct Hw as [Hw|[_ Hw]]; [|by right]. case_bool_decide; [left; rewrite bool_decide_eq_true_2; [done|]; simpl; split; [done|by left]|by right].
  - rewrite rows_tick. destruct (rows natives w !! (Some cluster, nn)) as [ds|] eqn:Ek.
    + set (w1 := set_rows natives _ (next_call w)). pose proof (IH w1 X) as H. unfold runs in H.
      destruct (delete_managed faults cluster l w1) as [w' [u|err|]]; [|done|done]. destruct H as [Hr Hw]. unfold w1 in Hr. rewrite rest_set, rest_tick in Hr. split; [done|].
      intros k. specialize (Hw k). unfold w1 in Hw. rewrite rows_set in Hw. destruct (decide (k = (Some cluster, nn))) as [-> |Hne].
      * left. rewrite bool_decide_eq_true_2 by (simpl; split; [done|by left]). rewrite lookup_delete_eq in Hw. destruct Hw as [-> |[_ ->]]; [by case_bool_decide|done].
      * rewrite Hk, lookup_delete_ne in * by done. exact Hw.
    + pose proof (IH (next_call w) X) as H. unfold runs in H. destruct (delete_managed faults cluster l (next_call w)) as [w' [u|err|]]; [|done|done].
      destruct H as [Hr Hw]. rewrite rest_tick in Hr. split; [done|]. intros k. specialize (Hw k). rewrite rows_tick in Hw.
      destruct (decide (k = (Some cluster, nn))) as [-> |Hne]; [|by rewrite Hk]. left. rewrite bool_decide_eq_true_2 by (simpl; split; [done|by left]).
      destruct Hw as [-> |[_ ->]]; [by case_bool_decide|done].
Qed.

Lemma write_cluster_spec c old w (X : Fleet -> Prop) : fl_clusters w !! fc_Name c = Some old -> (faulty faults -> forall w', X w') ->
  runs (write_cluster faults c) w X (fun _ w' =>
    fl_clusters w' = <[fc_Name c := c]> (fl_clusters w) /\ fl_natives w' = fl_natives w /\ fl_shadows w' = fl_shadows w /\ fl_managers w' = fl_managers w).
Proof.
  intros Hs HX. apply runs_seq, runs_poke, (runs_Update faults clusters); [by intros ?; apply HX| |].
  - change (rows clusters _) with (fl_clusters w). congruence.
  - intros w' Hw'. destruct (clusters_apart _ _ _ Hw') as (E1 & E2 & E3 & E4 & E5 & E6 & E7). destruct Hw' as [Hw' _].
    split_and!; [exact Hw'|exact E3|exact E2|exact E7].
Qed.

Lemma cluster_finalizer_spec c w (X : Fleet -> Prop) (add : bool) : fl_clusters w !! fc_Name c = Some c -> (faulty faults -> forall w', X w') ->
  runs ((if add then ensureClusterFinalizer else removeClusterFinalizer) faults c) w X (fun _ w' =>
    fl_clusters w' = <[fc_Name c := cluster_finalizers ((if add then add_finalizer else remove_finalizer) DistributeControllerFinalizer) c]> (fl_clusters w) /\
    fl_natives w' = fl_natives w /\ fl_shadows w' = fl_shadows w /\ fl_managers w' = fl_managers w).
Proof.
  intros Hs HX. assert (Hsame : forall f, f (fc_Finalizers c) = fc_Finalizers c -> cluster_finalizers f c = c).
  { intros f E. unfold cluster_finalizers. rewrite E. by destruct c. }
  destruct add; unfold ensureClusterFinalizer, removeClusterFinalizer; case_bool_decide as Hf.
  - apply runs_ok. rewrite Hsame; [by rewrite insert_id|]. unfold add_finalizer. by rewrite bool_decide_eq_true_2.
  - set (c' := cluster_finalizers _ c). by apply (write_cluster_spec c' c).
  - apply runs_ok. rewrite Hsame; [by rewrite insert_id|]. by apply remove_finalizer_absent.
  - set (c' := cluster_finalizers _ c). by apply (write_cluster_spec c' c).
Qed.

(** The DaemonSet of the member is marked as managed. *)
Definition is_managed (ds : FleetSet) : bool := bool_decide (map_of (fm_Labels (fd_Meta ds)) !! ManagedLabel = Some "").

Definition cluster_done (c : FleetCluster) (w w' : Fleet) : Prop :=
  let n := fc_Name c in
  fl_shadows w' = fl_shadows w /\
  if fc_Deleting c then
    (forall k, (fl_natives w' !! k = match fl_natives w !! k with
       | Some ds => if bool_decide (fst k = Some n) && is_managed ds then None else Some ds | None => None end) \/
       faulty faults /\ fl_natives w' !! k = fl_natives w !! k) /\
    fl_clusters w' = <[n := cluster_finalizers (remove_finalizer DistributeControllerFinalizer) c]> (fl_clusters w) /\ fl_managers w' = fl_managers w ∖ {[n]}
  else fl_natives w' = fl_natives w /\ fl_managers w' = {[n]} ∪ fl_managers w /\
    fl_clusters w' = <[n := cluster_finalizers (add_finalizer DistributeControllerFinalizer) c]> (fl_clusters w).

(** A reconciliation of a cluster ends with an error only if a call failed or its
configuration cannot be read. Otherwise a cluster that stands has a running manager and the
finalizer; of one that is being deleted the managed DaemonSets of the member are deleted,
unless a call failed, its finalizer removed and its manager stopped; nothing else is touched. *)
Theorem cluster_distributed name w : dist_ok w ->
  runs (Dist_syncCluster faults config_ok name) w
    (fun _ => faulty faults \/ exists c, fl_clusters w !! name = Some c /\ config_ok (fc_Rest c) = false)
    (fun _ w' => match fl_clusters w !! name with Some c => cluster_done c w w' | None => w' = w end).
Proof.
  intros (Hsc & Hcc & Hk & Hn & Hd). apply runs_seq, runs_peek. rewrite Hcc. destruct (fl_clusters w !! name) as [c|] eqn:Ec; [|by apply runs_ok].
  set (X := fun _ : Fleet => faulty faults \/ _). assert (HX : faulty faults -> forall w', X w') by (by left).
  assert (En : fc_Name c = name) by (by apply Hn). apply runs_seq, runs_peek, runs_seq.
  eapply (runs_mono _ _ X X (fun _ w1 => w1 = set_managers ({[fc_Name c]} ∪ fl_managers w) w)); [|done|].
  { case_bool_decide as Hm; [apply runs_ok; replace ({[fc_Name c]} ∪ fl_managers w) with (fl_managers w) by set_solver; by destruct w|].
    destruct (config_ok (fc_Rest c)) eqn:Eo; simpl; [by apply runs_poke|]. right. by exists c. }
  intros u w1 ->. set (w1 := set_managers _ w). unfold cluster_done. destruct (fc_Deleting c) eqn:Ed.
  - apply runs_seq, runs_peek, runs_seq. eapply runs_mono; [apply (delete_managed_spec (fc_Name c) _ w1 X)|done|]. intros u2 w2 [Hr2 Hw2].
    assert (A2 := natives_apart w1 w2 (rows natives w2) (conj eq_refl Hr2)). destruct A2 as (S2 & H2 & C2 & P2 & K2 & L2 & M2).
    apply runs_seq. eapply runs_mono; [apply (cluster_finalizer_spec c w2 X false); [rewrite C2; change (fl_clusters w1) with (fl_clusters w); by rewrite En|done]|done|].
    intros u3 w3 (E1 & E2 & E3 & E4). apply runs_poke. split_and!.
    + change (fl_shadows w3 = fl_shadows w). rewrite E3, H2. done.
    + intros k. change (fl_natives (set_managers (fl_managers w3 ∖ {[fc_Name c]}) w3)) with (fl_natives w3). rewrite E2. specialize (Hw2 k).
      change (rows natives w2) with (fl_natives w2) in Hw2. change (rows natives w1) with (fl_natives w) in Hw2. destruct Hw2 as [Hw2|Hw2]; [left|by right]. rewrite Hw2.
      assert (Hin : forall nn, nn ∈ managed_sets (fc_Name c) w1 <-> exists ds, fl_natives w !! (Some (fc_Name c), nn) = Some ds /\ is_managed ds = true).
      { intros nn. unfold managed_sets. rewrite elem_of_collect. change (rows natives w1) with (fl_natives w). split.
        - intros ([[p nn'] ds] & Hin%elem_of_map_to_list & Hc). simpl in Hc. case_bool_decide; [|done]. subst p. simpl in Hc. unfold is_managed.
          destruct (bool_decide (_ !! ManagedLabel = Some "")) eqn:Em; [|done]. simplify_eq. eauto.
        - intros (ds & Hin & Hm). exists (Some (fc_Name c), nn, ds). split; [by apply elem_of_map_to_list|]. simpl. rewrite bool_decide_eq_true_2 by done.
          unfold is_managed in Hm. by rewrite Hm. }
      case_bool_decide as Hb.
      * destruct Hb as [Hp (ds & Hin' & Hm)%Hin]. destruct k as [p k]. simpl in *. subst p. by rewrite Hin', bool_decide_eq_true_2, Hm.
      * destruct (fl_natives w !! k) as [ds|] eqn:Ek; [|done]. case_bool_decide as Hp; [|done]. destruct (is_managed ds) eqn:Em; [|done]. exfalso. apply Hb. split; [done|].
        apply Hin. destruct k as [p k]. simpl in *. subst p. eauto.
    + change (fl_clusters w3 = <[fc_Name c := cluster_finalizers (remove_finalizer DistributeControllerFinalizer) c]> (fl_clusters w)). rewrite E1, C2. done.
    + change (fl_managers w3 ∖ {[fc_Name c]} = fl_managers w ∖ {[fc_Name c]}). rewrite E4, M2. unfold w1. simpl. set_solver.
  - eapply runs_mono; [apply (cluster_finalizer_spec c w1 X true); [change (fl_clusters w1) with (fl_clusters w); by rewrite En|done]|done|].
    intros u3 w3 (E1 & E2 & E3 & E4). split_and!; done.
Qed.

End clusters.

(** * Examples *)

Definition ex_member (deleting : bool) (finalizers : list string) : FleetShadow :=
  mkFleetShadow (mkFleetMeta "shop" "log-c1" "" (Some {[ "app" := "log" ]}) None [] deleting finalizers "") RefTypeMember "c1" (mkFleetSpec (Some ∅) "t" "r") no_status "".
Definition ex_native : FleetSet :=
  mkFleetSet (mkFleetMeta "shop" "log-c1" "" (Some {[ ManagedLabel := EmptyString ]}) (Some ∅) [] false [] "") (mkFleetSpec None "old" "r") (mkDaemonStatus 1 0 1 1 1 1 1 0 None) "c".
Definition ex_dist (deleting : bool) (finalizers : list string) (cluster_deleting : bool) : Fleet :=
  let s := {[ ("shop", "log-c1") := ex_member deleting finalizers ]} in
  let c := {[ "c1" := mkFleetCluster "c1" cluster_deleting [DistributeControllerFinalizer] "" ]} in
  mkFleet 0 ∅ s {[ (Some "c1", ("shop", "log-c1")) := ex_native ]} c ∅ s c {[ "c1" ]}.

Lemma ex_dist_ok d f c : dist_ok (ex_dist d f c).
Proof.
  split_and!; try done; intros *; cbn; intros Hk; apply lookup_singleton_Some in Hk as [Hk <-]; [done|done|].
  injection Hk as <- <-. split; [done|]. split; by eexists.
Qed.


Lemma cluster_distributed_witness :
  dist_ok (ex_dist false [] true) /\
  runs (Dist_syncCluster (fun _ => None) (fun _ => true) "c1") (ex_dist false [] true)
    (fun _ => faulty (fun _ => None) \/ exists c, fl_clusters (ex_dist false [] true) !! "c1" = Some c /\ true = false)
    (fun _ w' => match fl_clusters (ex_dist false [] true) !! "c1" with Some c => cluster_done (fun _ => None) c (ex_dist false [] true) w' | None => w' = ex_dist false [] true end).
Proof. split; [apply ex_dist_ok|]. apply (cluster_distributed (fun _ => None) (fun _ => true) "c1" (ex_dist false [] true) (ex_dist_ok false [] true)). Defined.

Definition stored_finalizers (w : Fleet) : option (list string) := fm_Finalizers ∘ sh_Meta <$> (fl_shadows w !! ("shop", "log-c1")).
Definition first_fails (n : nat) : nat -> option fault := fun m => if m =? n then Some (Fails "timeout") else None.

(** The finalizer is added to the object of the cache before it is written: when the write
fails, the next round finds it there and never stores it. *)
Example finalizer_never_stored :
  let out1 := Dist_syncShadow (first_fails 0) ("shop", "log-c1") (ex_dist false [] false) in
  let out2 := Dist_syncShadow (first_fails 0) ("shop", "log-c1") (fst out1) in
  snd out1 = Bad (OtherError "timeout") /\ snd out2 = Good tt /\ stored_finalizers (fst out2) = Some [].
Proof. vm_compute. split_and!; reflexivity. Qed.

(** The same on removal: the shadow set keeps its finalizer, and is never gone. *)
Example finalizer_never_removed :
  let out1 := Dist_syncShadow (first_fails 1) ("shop", "log-c1") (ex_dist true [DistributeControllerFinalizer] false) in
  let out2 := Dist_syncShadow (first_fails 1) ("shop", "log-c1") (fst out1) in
  snd out1 = Bad (OtherError "timeout") /\ snd out2 = Good tt /\ stored_finalizers (fst out2) = Some [DistributeControllerFinalizer].
Proof. vm_compute. split_and!; reflexivity. Qed.

(** The DaemonSet of a member that could not be deleted stays after its cluster is released. *)
Example deletion_error_ignored :
  let out := Dist_syncCluster (first_fails 0) (fun _ => true) "c1" (ex_dist false [] true) in
  snd out = Good tt /\ fc_Finalizers <$> (fl_clusters (fst out) !! "c1") = Some [] /\
  fs_Template ∘ fd_Spec <$> (fl_natives (fst out) !! (Some "c1", ("shop", "log-c1"))) = Some "old".
Proof. vm_compute. split_and!; reflexivity. Qed.

(** The labels of the set are not on a new DaemonSet, but are on an updated one. *)
Example labels_only_on_update :
  let label ds := map_of (fm_Labels (fd_Meta ds)) !! "app" in
  label (new_member "c1" (ex_member false [])) = None /\ (label <$> update_member "c1" (ex_member false []) ex_native) = Some (Some "log").
Proof. vm_compute. split; reflexivity. Qed.
