(* ===== verification/FleetMirror.v ===== *)
(** Native DaemonSets that ask to be mirrored, and the pods of member clusters on the host:
clustertree/cluster-manager/extensions/daemonset/daemonset_mirror_controller.go and
pod_reflect_controller.go.

[Mirror_syncDaemonSet] keeps a kosmos DaemonSet for a native one and copies its status back;
[Reflect_syncPod] copies a pod of a managed DaemonSet of a member cluster to the host. *)
From S2P Require Import Prelude GoStr LinkApi PodApi DaemonApi DaemonHistory PodProg PodControllers Calls Tables McsApi FleetApi FleetSpread.

(** * daemonset_mirror_controller.go *)

Section mirror.
  Context (faults : nat -> option fault).

Definition new_mirror (ds : FleetSet) : FleetSet :=
  mkFleetSet (mkFleetMeta (fm_Namespace (fd_Meta ds)) (fm_Name (fd_Meta ds)) "" (fm_Labels (fd_Meta ds)) (fm_Annotations (fd_Meta ds))
      [mkFleetOwner "apps/v1" "DaemonSet" (fm_Name (fd_Meta ds)) (fm_UID (fd_Meta ds)) false] false [] "")
    (fd_Spec ds) no_status "".

Definition updated_mirror (ds kds : FleetSet) : FleetSet :=
  mkFleetSet (with_fm_Labels (Some {[ ManagedLabel := EmptyString ]}) (with_fm_Annotations (fm_Annotations (fd_Meta ds)) (fd_Meta kds)))
    (fd_Spec ds) (fd_Status kds) (fd_Conditions kds).

Definition is_mirror (ds : FleetSet) : bool := get (map_of (fm_Annotations (fd_Meta ds))) MirrorAnnotation =s "true".

Definition Mirror_syncDaemonSet (nn : nsname) : FM unit :=
  do! found := peek (fun w => rows natives w !! (None, nn)) in
  match found with
  | None => mok tt
  | Some ds =>
      if negb (is_mirror ds) then mok tt
      else if fm_Deleting (fd_Meta ds) then mok tt
      else
        do! kd := peek (fun w => rows sets w !! set_key ds) in
        match kd with
        | None => Create faults sets (set_key ds) (new_mirror ds)
        | Some kds =>
            if negb (isOwnedBy (fm_Owners (fd_Meta kds)) (fm_UID (fd_Meta ds))) then mok tt
            else
              do! _ := Update faults sets (set_key ds) (updated_mirror ds kds) in
              UpdateSetStatus faults natives (None, set_key ds) (fd_Status kds) (fd_Conditions kds)
        end
  end.

(** Events of the kosmos sets: the native set to reconcile. *)
Definition ProcessKosmosDaemonSet (w : Fleet) (kds : FleetSet) : list nsname :=
  match rows natives w !! (None, set_key kds) with Some ds => [set_key ds] | None => [] end.

End mirror.

Section mirror_facts.
  Context (faults : nat -> option fault).

Definition mirror_done (nn : nsname) (ds : FleetSet) (w w' : Fleet) : Prop :=
  match fl_sets w !! nn with
  | None => fl_sets w' = <[nn := new_mirror ds]> (fl_sets w) /\ fl_natives w' = fl_natives w
  | Some kds =>
      if isOwnedBy (fm_Owners (fd_Meta kds)) (fm_UID (fd_Meta ds))
      then fl_sets w' = <[nn := updated_mirror ds kds]> (fl_sets w) /\
        fl_natives w' = <[(None, nn) := mkFleetSet (fd_Meta ds) (fd_Spec ds) (fd_Status kds) (fd_Conditions kds)]> (fl_natives w)
      else fl_sets w' = fl_sets w /\ fl_natives w' = fl_natives w
  end.

(** A reconciliation of a native DaemonSet of the host ends with an error only if a call
failed. Otherwise, if the set asks to be mirrored and is not being deleted, there is a kosmos
DaemonSet with its specification and annotations, and the native set has the status of the
kosmos set it owns; a kosmos set of that name with another owner is left alone, and so is
everything else. *)
Theorem set_mirrored nn w : (forall k ds, fl_natives w !! k = Some ds -> set_key ds = snd k) ->
  runs (Mirror_syncDaemonSet faults nn) w (fun _ => faulty faults) (fun _ w' =>
    fl_shadows w' = fl_shadows w /\ fl_clusters w' = fl_clusters w /\
    match fl_natives w !! (None, nn) with
    | Some ds => if is_mirror ds && negb (fm_Deleting (fd_Meta ds)) then mirror_done nn ds w w' else w' = w
    | None => w' = w
    end).
Proof.
  intros Hn. apply runs_seq, runs_peek. change (rows natives w) with (fl_natives w). destruct (fl_natives w !! (None, nn)) as [ds|] eqn:Ed; [|by apply runs_ok].
  assert (Ek : set_key ds = nn) by (by apply (Hn (None, nn))). destruct (is_mirror ds); simpl; [|by apply runs_ok].
  destruct (fm_Deleting (fd_Meta ds)); simpl; [by apply runs_ok|]. apply runs_seq, runs_peek. rewrite Ek. change (rows sets w) with (fl_sets w). unfold mirror_done.
  destruct (fl_sets w !! nn) as [kds|] eqn:Es.
  - destruct (isOwnedBy _ _); simpl; [|by apply runs_ok]. apply runs_seq, (runs_Update faults sets); [done|change (rows sets w) with (fl_sets w); congruence|].
    intros w1 Hw1. destruct (sets_apart _ _ _ Hw1) as (E1 & E2 & E3 & E4 & E5 & E6 & E7). destruct Hw1 as [Hw1 _].
    apply runs_call; [intros ?; by apply call_faulty|]. unfold runs. rewrite rows_tick. change (rows natives w1) with (fl_natives w1). rewrite E2, Ed.
    split_and!; [exact E1|exact E3|exact Hw1|done].
  - apply (runs_Create faults sets); [done|change (rows sets w) with (fl_sets w); rewrite Es; by intros [? ?]|].
    intros w1 _ Hw1. destruct (sets_apart _ _ _ Hw1) as (E1 & E2 & E3 & E4 & E5 & E6 & E7). destruct Hw1 as [Hw1 _]. done.
Qed.

End mirror_facts.

Definition ex_mirrored : FleetSet :=
  mkFleetSet (mkFleetMeta "shop" "log" "u7" (Some {[ "app" := "log" ]}) (Some {[ MirrorAnnotation := "true" ]}) [] false [] "") (mkFleetSpec None "t" "r") no_status "".
Definition ex_mirror_fleet : Fleet := mkFleet 0 ∅ ∅ {[ (None, ("shop", "log")) := ex_mirrored ]} ∅ ∅ ∅ ∅ ∅.

Lemma ex_mirror_keys k ds : fl_natives ex_mirror_fleet !! k = Some ds -> set_key ds = snd k.
Proof. cbn. intros Hk. by apply lookup_singleton_Some in Hk as [<- <-]. Qed.

Lemma set_mirrored_witness :
  fl_natives ex_mirror_fleet !! (None, ("shop", "log")) = Some ex_mirrored /\ is_mirror ex_mirrored = true /\
  runs (Mirror_syncDaemonSet (fun _ => None) ("shop", "log")) ex_mirror_fleet (fun _ => faulty (fun _ => None)) (fun _ w' =>
    fl_shadows w' = fl_shadows ex_mirror_fleet /\ fl_clusters w' = fl_clusters ex_mirror_fleet /\
    match fl_natives ex_mirror_fleet !! (None, ("shop", "log")) with
    | Some ds => if is_mirror ds && negb (fm_Deleting (fd_Meta ds)) then mirror_done ("shop", "log") ds ex_mirror_fleet w' else w' = ex_mirror_fleet
    | None => w' = ex_mirror_fleet
    end).
Proof. split; [reflexivity|]. split; [reflexivity|]. apply (set_mirrored (fun _ => None) ("shop", "log") ex_mirror_fleet ex_mirror_keys). Defined.

(** The labels of the native set are on a new mirror, but not on an updated one. *)
Example mirror_labels_lost :
  let label ds := map_of (fm_Labels (fd_Meta ds)) !! "app" in
  label (new_mirror ex_mirrored) = Some "log" /\ label (updated_mirror ex_mirrored (new_mirror ex_mirrored)) = None.
Proof. vm_compute. split; reflexivity. Qed.
