(* ===== verification/FleetPods.v ===== *)
(** The pods of managed DaemonSets of member clusters, reflected on the host:
clustertree/cluster-manager/extensions/daemonset/pod_reflect_controller.go.

A [Yard] holds the pods of the host ([None]) and of the member clusters, and the names of the
clusters with a running pod manager. A listed pod is a stored one. The API server marks a pod
that is bound to a node as being deleted, and removes another at once. A client that cannot be
made from a readable configuration is left out. *)
From S2P Require Import Prelude GoStr LinkApi PodApi DaemonApi DaemonHistory PodProg PodControllers Calls Tables McsApi FleetApi FleetSpread.

Record YardPod := mkYardPod {
  yp_Namespace : string; yp_Name : string; yp_UID : string; yp_Labels : option smap; yp_Annotations : option smap; yp_Owners : list FleetOwner;
  yp_Deleting : bool; yp_ResourceVersion : string; yp_NodeName : string; yp_Spec : opaque; yp_Status : opaque }.

Record Yard := mkYard { yd_calls : nat; yd_pods : gmap key YardPod; yd_managers : gset string }.

Definition yard_tick (w : Yard) : Yard := mkYard (S (yd_calls w)) (yd_pods w) (yd_managers w).
#[export] Instance Yard_server : Server Yard := mkServer _ yd_calls yard_tick.
Abbreviation YM := (Calls.M Yard apierr).

Definition pods : Table Yard key YardPod := mkTable Yard key _ _ _ yd_pods
  (fun m w => mkYard (yd_calls w) m (yd_managers w)) (fun w => mkYard 0 ∅ (yd_managers w)).
#[export] Instance pods_laws : TableLaws pods. Proof. by split. Qed.

Definition pod_key (pod : YardPod) : nsname := (yp_Namespace pod, yp_Name pod).

Definition getCluster (pod : YardPod) : string := get (map_of (yp_Annotations pod)) ClusterAnnotationKey.

Section reflect.
  Context (faults : nat -> option fault) (RESTConfigFromKubeConfig : opaque -> bool).
  (** The listers: native and kosmos DaemonSets of the host, and the clusters. *)
  Context (daemonsets kdaemonsets : gmap nsname FleetSet) (clusterLister : gmap string FleetCluster).

Definition syncCluster (name : string) : YM unit :=
  match clusterLister !! name with
  | None => mok tt
  | Some cluster => fun w =>
      let exist := bool_decide (fc_Name cluster ∈ yd_managers w) in
      if fc_Deleting cluster then (mkYard (yd_calls w) (yd_pods w) (yd_managers w ∖ {[fc_Name cluster]}), Good tt)
      else if exist then (w, Good tt)
      else if negb (RESTConfigFromKubeConfig (fc_Rest cluster)) then (w, Bad (OtherError "failed to create rest config"))
      else (mkYard (yd_calls w) (yd_pods w) ({[fc_Name cluster]} ∪ yd_managers w), Good tt)
  end.

(** The lister, then the server. *)
Definition GetPod (k : key) : YM YardPod := fun w =>
  match rows pods w !! k with Some pod => (w, Good pod) | None => Get faults pods k w end.

Definition DeletePod (k : key) : YM unit := Calls.call (oracle faults) (fun w =>
  match rows pods w !! k with
  | Some p =>
      let marked := mkYardPod (yp_Namespace p) (yp_Name p) (yp_UID p) (yp_Labels p) (yp_Annotations p) (yp_Owners p) true (yp_ResourceVersion p) (yp_NodeName p) (yp_Spec p) (yp_Status p) in
      (set_rows pods (if yp_NodeName p =s "" then delete k (rows pods w) else <[k := marked]> (rows pods w)) w, Good tt)
  | None => (w, Bad (IsNotFound "not found"))
  end).

(** The owners on the host of the first DaemonSet among the owners; a set that is missing is
an error. *)
Fixpoint change_owners (pod : YardPod) (l : list FleetOwner) : list FleetOwner + apierr :=
  match l with
  | [] => inl []
  | ownRef :: rest =>
      if negb (fo_Kind ownRef =s "DaemonSet") then change_owners pod rest
      else match map_of (yp_Annotations pod) !! ClusterAnnotationKey with
      | None => change_owners pod rest
      | Some clusterName =>
          let ownerName := TrimSuffix (fo_Name ownRef) ("-" +:+ clusterName) in
          match daemonsets !! (yp_Namespace pod, ownerName), kdaemonsets !! (yp_Namespace pod, ownerName) with
          | Some daemonset, Some kdaemonset =>
              inl (mkFleetOwner "v1alpha1" "DaemonSet" (fm_Name (fd_Meta kdaemonset)) (fm_UID (fd_Meta kdaemonset)) false ::
                   if bool_decide (is_Some (map_of (fm_Annotations (fd_Meta daemonset)) !! MirrorAnnotation))
                   then [mkFleetOwner "v1" "DaemonSet" (fm_Name (fd_Meta daemonset)) (fm_UID (fd_Meta daemonset)) false] else [])
          | _, _ => inr (IsNotFound "not found")
          end
      end
  end.

Definition changeOwnerRef (pod : YardPod) : YardPod + apierr :=
  match change_owners pod (yp_Owners pod) with
  | inl owners => inl (mkYardPod (yp_Namespace pod) (yp_Name pod) (yp_UID pod) (yp_Labels pod) (yp_Annotations pod) owners
      (yp_Deleting pod) (yp_ResourceVersion pod) (yp_NodeName pod) (yp_Spec pod) (yp_Status pod))
  | inr err => inr err
  end.

Definition new_pod (clusterName : string) (pod : YardPod) : YardPod :=
  mkYardPod (yp_Namespace pod) (yp_Name pod) (yp_UID pod) (yp_Labels pod) (yp_Annotations pod) (yp_Owners pod) (yp_Deleting pod) "" clusterName (yp_Spec pod) (yp_Status pod).

(** An empty UID is filled in by the server, which keeps the status. *)
Definition updated_pod (clusterName : string) (pod shadowPod : YardPod) : YardPod :=
  mkYardPod (yp_Namespace shadowPod) (yp_Name shadowPod) (yp_UID shadowPod) (yp_Labels pod) (yp_Annotations pod) (yp_Owners shadowPod)
    (yp_Deleting shadowPod) (yp_ResourceVersion shadowPod) clusterName (yp_Spec pod) (yp_Status shadowPod).

Definition UpdatePodStatus (k : key) (status : opaque) : YM unit := Calls.call (oracle faults) (fun w =>
  match rows pods w !! k with
  | Some p => (set_rows pods (<[k := mkYardPod (yp_Namespace p) (yp_Name p) (yp_UID p) (yp_Labels p) (yp_Annotations p) (yp_Owners p) (yp_Deleting p)
      (yp_ResourceVersion p) (yp_NodeName p) (yp_Spec p) status]> (rows pods w)) w, Good tt)
  | None => (w, Bad (IsNotFound "not found"))
  end).

Definition tryUpdateOrCreate (pod : YardPod) : YM unit :=
  let clusterName := getCluster pod in
  let k := (None, pod_key pod) in
  mtry (GetPod k)
    (fun shadowPod =>
      do! _ := Update faults pods k (updated_pod clusterName pod shadowPod) in
      UpdatePodStatus k (yp_Status pod))
    (fun err => match err with
      | IsNotFound _ => do! newPod := mlift (changeOwnerRef pod) in Create faults pods k (new_pod clusterName newPod)
      | _ => merr err
      end).

(** A pod that is gone from the member: whatever the deletion answers is returned. *)
Definition Reflect_syncPod (cluster : string) (nn : nsname) : YM unit := fun w =>
  if bool_decide (cluster ∉ yd_managers w) then (w, Bad (OtherError "cluster not found"))
  else
    mtry (GetPod (Some cluster, nn))
      (fun memberClusterPod =>
        if yp_Deleting memberClusterPod
        then mtry (DeletePod (None, pod_key memberClusterPod)) (fun _ => tryUpdateOrCreate memberClusterPod)
          (fun err => match err with IsNotFound _ => mok tt | _ => merr err end)
        else tryUpdateOrCreate memberClusterPod)
      (fun err => match err with
        | IsNotFound _ => DeletePod (None, nn)
        | _ => merr err
        end) w.

(** The key of an event of a pod: the cluster of its annotation. *)
Definition pod_event (pod : YardPod) : option (string * nsname) :=
  match map_of (yp_Annotations pod) !! ManagedLabel with
  | Some _ => if getCluster pod =s "" then None else Some (getCluster pod, pod_key pod)
  | None => None
  end.

End reflect.

(** * Facts *)

Section facts.
  Context (faults : nat -> option fault) (daemonsets kdaemonsets : gmap nsname FleetSet).

(** The pod of the host shows the pod of the member, under the name of its cluster. *)
Definition shows (member host : YardPod) : Prop :=
  pod_key host = pod_key member /\ yp_Labels host = yp_Labels member /\ yp_Annotations host = yp_Annotations member /\
  yp_Spec host = yp_Spec member /\ yp_Status host = yp_Status member /\ yp_NodeName host = getCluster member.

(** The sets that own a new pod of the host. *)
Definition owned_by_sets (member host : YardPod) : Prop := inl (yp_Owners host) = change_owners daemonsets kdaemonsets member (yp_Owners member).

Lemma runs_GetPod {A} k (f : YardPod -> YM A) (gone : YM A) w (X : Yard -> Prop) Q : (faulty faults -> X (next_call w)) ->
  (forall p, yd_pods w !! k = Some p -> runs (f p) w X Q) -> (yd_pods w !! k = None -> runs gone (next_call w) X Q) ->
  runs (mtry (GetPod faults k) f (fun err => match err with IsNotFound _ => gone | _ => merr err end)) w X Q.
Proof.
  intros HX Hv Hn. unfold GetPod, mtry, runs. change (rows pods w) with (yd_pods w). destruct (yd_pods w !! k) as [p|] eqn:Ek; [by apply Hv|].
  unfold Get. match goal with |- context [Calls.call (oracle faults) ?f w] => destruct (call_cases faults f w) as [(ft & Hft & ->)| ->] end.
  - assert (HX' : X (next_call w)) by (apply HX; by exists (calls_made w), ft). by destruct ft.
  - rewrite rows_tick. change (rows pods w) with (yd_pods w). rewrite Ek. by apply Hn.
Qed.

(** Only the pod of the host is written. *)
Definition reflected (member : YardPod) (w w' : Yard) : Prop :=
  exists host, yd_pods w' = <[(None, pod_key member) := host]> (yd_pods w) /\ shows member host /\
    match yd_pods w !! (None, pod_key member) with
    | Some old => yp_Owners host = yp_Owners old /\ yp_UID host = yp_UID old /\ yp_Deleting host = yp_Deleting old
    | None => owned_by_sets member host
    end.

(** Why a pod cannot be made on the host. *)
Definition ownerless (member : YardPod) : Prop := exists err, change_owners daemonsets kdaemonsets member (yp_Owners member) = inr err.

Lemma try_spec member w (X : Yard -> Prop) : (forall p, yd_pods w !! (None, pod_key member) = Some p -> pod_key p = pod_key member) ->
  (faulty faults -> forall w', X w') -> (ownerless member -> forall w', X w') ->
  runs (tryUpdateOrCreate faults daemonsets kdaemonsets member) w X (fun _ w' => reflected member w w' /\ yd_managers w' = yd_managers w).
Proof.
  intros Hk HX Ho. set (k := (None, pod_key member) : key). unfold reflected. fold k. apply runs_GetPod; [by intros ?; apply HX| |].
  - intros p Hp. fold k in Hp. apply runs_seq, (runs_Update faults pods); [by intros ?; apply HX|change (rows pods w) with (yd_pods w); fold k; congruence|].
    intros w1 [Hw1 Hr1]. fold k in Hw1. fold k. apply runs_call; [intros ?; by apply HX, call_faulty|]. unfold runs. rewrite rows_tick, Hw1, lookup_insert_eq, Hp.
    assert (Em : yd_managers w1 = yd_managers w) by (unfold rest_of in Hr1; simpl in Hr1; congruence). split; [|exact Em].
    eexists. split; [|split].
    + change (yd_pods (set_rows pods ?m ?w0)) with m. rewrite insert_insert_eq. reflexivity.
    + split_and!; try done. simpl. unfold pod_key. simpl. by apply Hk.
    + done.
  - intros Hp. fold k in Hp. rewrite Hp. apply runs_seq. unfold changeOwnerRef. destruct (change_owners daemonsets kdaemonsets member (yp_Owners member)) as [owners|err] eqn:Eo; simpl.
    2:{ apply Ho. by exists err. }
    apply runs_ok, (runs_Create faults pods); [by intros ?; apply HX|rewrite rows_tick; change (rows pods w) with (yd_pods w); fold k; rewrite Hp; by intros [? ?]|].
    intros w1 _ [Hw1 Hr1]. fold k in Hw1. rewrite rows_tick in Hw1. split; [|unfold rest_of in Hr1; simpl in Hr1; by injection Hr1].
    eexists. split; [exact Hw1|]. split; [done|]. unfold owned_by_sets. by rewrite Eo.
Qed.

(** What a reconciliation leaves on the host. *)
Definition pod_done (cluster : string) (nn : nsname) (w w' : Yard) : Prop :=
  match yd_pods w !! (Some cluster, nn) with
  | Some member =>
      if yp_Deleting member then
        match yd_pods w !! (None, nn) with
        | Some p => exists host, yd_pods w' !! (None, nn) = Some host /\ shows member host /\ (yp_NodeName p <> "" -> yp_Deleting host = true)
        | None => yd_pods w' = yd_pods w
        end
      else reflected member w w'
  | None =>
      exists p, yd_pods w !! (None, nn) = Some p /\
        (if yp_NodeName p =s "" then yd_pods w' = delete (None, nn) (yd_pods w)
         else exists p', yd_pods w' = <[(None, nn) := p']> (yd_pods w) /\ yp_Deleting p' = true)
  end.

(** A reconciliation of a pod of a member cluster ends with an error only if a call failed,
its cluster has no manager, the sets that own the pod are not on the host, or the pod is gone
from both sides. Otherwise, while the pod is not being deleted on the member, the host has a pod
with its labels, annotations, specification and status on the node of its cluster: an existing
one keeps its owners, a new one is owned by the sets of the host; the pod of the host is deleted
when that of the member is gone or being deleted; and no other pod is touched. *)
Theorem pod_reflected cluster nn w : (forall k p, yd_pods w !! k = Some p -> pod_key p = snd k) ->
  runs (Reflect_syncPod faults daemonsets kdaemonsets cluster nn) w
    (fun _ => faulty faults \/ cluster ∉ yd_managers w \/ (exists member, yd_pods w !! (Some cluster, nn) = Some member /\ ownerless member) \/
      yd_pods w !! (Some cluster, nn) = None /\ yd_pods w !! (None, nn) = None)
    (fun _ w' => pod_done cluster nn w w' /\ forall k, k <> (None, nn) -> yd_pods w' !! k = yd_pods w !! k).
Proof.
  intros Hk. set (X := fun _ : Yard => faulty faults \/ _). assert (HX : faulty faults -> forall w', X w') by (by left).
  unfold runs, Reflect_syncPod. case_bool_decide as Hm; [by right; left|].
  apply (runs_GetPod (Some cluster, nn) _ _ w X); [by intros ?; apply HX| |].
  - intros member Hp. assert (Em : pod_key member = nn) by (by apply (Hk (Some cluster, nn))).
    assert (Ho : ownerless member -> forall w', X w') by (intros ? w'; right; right; left; eauto). unfold pod_done. rewrite Hp.
    destruct (yp_Deleting member).
    + unfold DeletePod, mtry, runs. match goal with |- context [Calls.call (oracle faults) ?f w] => destruct (call_cases faults f w) as [(ft & Hft & ->)| ->] end.
      { assert (HX' : X (next_call w)) by (apply HX; by exists (calls_made w), ft). by destruct ft. }
      rewrite rows_tick. change (rows pods w) with (yd_pods w). rewrite Em. destruct (yd_pods w !! (None, nn)) as [p|] eqn:Eh; [|done].
      set (w1 := set_rows pods _ (next_call w)).
      assert (Hw1 : forall k, k <> (None, nn) -> yd_pods w1 !! k = yd_pods w !! k).
      { intros k Hne. unfold w1. change (yd_pods (set_rows pods ?m ?w0)) with m. destruct (yp_NodeName p =s ""); [by rewrite lookup_delete_ne|by rewrite lookup_insert_ne]. }
      assert (Hk1 : forall p', yd_pods w1 !! (None, pod_key member) = Some p' -> pod_key p' = pod_key member).
      { intros p' Hp'. rewrite Em in *. unfold w1 in Hp'. change (yd_pods (set_rows pods ?m ?w0)) with m in Hp'. destruct (yp_NodeName p =s "").
        - by rewrite lookup_delete_eq in Hp'.
        - rewrite lookup_insert_eq in Hp'. injection Hp' as <-. unfold pod_key. simpl. by apply (Hk (None, nn)). }
      pose proof (try_spec member w1 X Hk1 HX Ho) as Ht. unfold runs in Ht. destruct (tryUpdateOrCreate _ _ _ member w1) as [w2 [[]|err|]]; [|done|done].
      destruct Ht as [(host & Hw2 & Hs & Hold) _]. rewrite Em in Hw2, Hold. split; [|intros k Hne; rewrite Hw2, lookup_insert_ne; [by apply Hw1|done]].
      exists host. split_and!; [by rewrite Hw2, lookup_insert_eq|done|]. intros Hne. unfold w1 in Hold. change (yd_pods (set_rows pods ?m ?w0)) with m in Hold.
      rewrite (bool_decide_eq_false_2 _ Hne), lookup_insert_eq in Hold. destruct Hold as (_ & _ & ->). done.
    + eapply runs_mono; [apply (try_spec member w X); [|done|done]|done|]; [intros p Hp'; rewrite Em in *; by apply (Hk (None, nn))|].
      intros u w' [Hr _]. split; [done|]. destruct Hr as (host & Hw' & _). intros k Hne. by rewrite Hw', Em, lookup_insert_ne.
  - intros Hp. unfold pod_done. rewrite Hp. unfold DeletePod. apply runs_call; [intros ?; by apply HX, call_faulty|]. unfold runs. rewrite !rows_tick.
    change (rows pods w) with (yd_pods w). destruct (yd_pods w !! (None, nn)) as [p|] eqn:Eh; [|by right; right; right].
    split; [exists p; split; [done|]; destruct (yp_NodeName p =s ""); [done|by eexists]|].
    intros k Hne. change (yd_pods (set_rows pods ?m ?w0)) with m. destruct (yp_NodeName p =s ""); [by rewrite lookup_delete_ne|by rewrite lookup_insert_ne].
Qed.

End facts.

(** * Examples *)

Definition ex_pod : YardPod :=
  mkYardPod "shop" "log-c1-x" "u" None (Some {[ ManagedLabel := EmptyString; ClusterAnnotationKey := "c1" ]}) [mkFleetOwner "apps/v1" "DaemonSet" "log-c1" "u2" true] false "5" "n1" "s" "running".
Definition ex_yard : Yard := mkYard 0 {[ (Some "c1", ("shop", "log-c1-x")) := ex_pod ]} {[ "c1" ]}.
Definition ex_lister : gmap nsname FleetSet := {[ ("shop", "log") := ex_set ]}.

Lemma ex_yard_keys k p : yd_pods ex_yard !! k = Some p -> pod_key p = snd k.
Proof. cbn. intros Hk. by apply lookup_singleton_Some in Hk as [<- <-]. Qed.

Lemma pod_reflected_witness :
  yd_pods ex_yard !! (Some "c1", ("shop", "log-c1-x")) = Some ex_pod /\
  runs (Reflect_syncPod (fun _ => None) ex_lister ex_lister "c1" ("shop", "log-c1-x")) ex_yard
    (fun _ => faulty (fun _ => None) \/ "c1" ∉ yd_managers ex_yard \/
      (exists member, yd_pods ex_yard !! (Some "c1", ("shop", "log-c1-x")) = Some member /\ ownerless ex_lister ex_lister member) \/
      yd_pods ex_yard !! (Some "c1", ("shop", "log-c1-x")) = None /\ yd_pods ex_yard !! (None, ("shop", "log-c1-x")) = None)
    (fun _ w' => pod_done ex_lister ex_lister "c1" ("shop", "log-c1-x") ex_yard w' /\
      forall k, k <> (None, ("shop", "log-c1-x")) -> yd_pods w' !! k = yd_pods ex_yard !! k).
Proof. split; [reflexivity|]. apply (pod_reflected (fun _ => None) ex_lister ex_lister "c1" ("shop", "log-c1-x") ex_yard ex_yard_keys). Defined.

(** The new pod of the host, owned by the kosmos set, on a node called like the cluster. *)
Example pod_made :
  let w := fst (Reflect_syncPod (fun _ => None) ex_lister ex_lister "c1" ("shop", "log-c1-x") ex_yard) in
  (fun p => (map fo_Name (yp_Owners p), yp_NodeName p)) <$> (yd_pods w !! (None, ("shop", "log-c1-x"))) = Some (["log"], "c1").
Proof. vm_compute. reflexivity. Qed.

(** A kosmos DaemonSet without a native one of its name: its pods are not reflected. *)
Example no_native_set :
  snd (Reflect_syncPod (fun _ => None) ∅ ex_lister "c1" ("shop", "log-c1-x") ex_yard) = Bad (IsNotFound "not found").
Proof. vm_compute. reflexivity. Qed.

(** A pod that is gone from both sides is an error, to be tried again. *)
Example gone_pod_retried :
  snd (Reflect_syncPod (fun _ => None) ex_lister ex_lister "c1" ("shop", "other") ex_yard) = Bad (IsNotFound "not found").
Proof. vm_compute. reflexivity. Qed.

(** A cluster that is gone keeps its manager. *)
Example manager_stays : yd_managers (fst (syncCluster (fun _ => true) ∅ "c1" ex_yard)) = {[ "c1" ]}.
Proof. reflexivity. Qed.
