(* ===== verification/HubNodes.v ===== *)
(** The control plane's ClusterNodes: the node controller of a member cluster
(clusterlink/controllers/node/node_controller.go) and the elector of its gateway
(clusterlink/elector/elector.go, utils/role/role.go).

A [Hub] is what the servers store: the ClusterNodes and Clusters of the control plane and
the nodes of the member cluster. A call may fail with a conflict or another error, without
effect, when [faults] says so. *)
From S2P Require Import Prelude GoStr GoNet LinkApi AgentController PodApi PodProg Calls Tables.

(** * Objects and servers *)

(** A ClusterNode with its labels; the name and the spec are [hn_Node]. *)
Record HubNode := mkHubNode { hn_Labels : option smap; hn_Node : ClusterNode }.

(** A Cluster with its annotations. *)
Record HubCluster := mkHubCluster { hc_Annotations : option smap; hc_Cluster : Cluster }.

(** [corev1.Node] as far as the controllers read it; [kh_Addresses] are types and addresses. *)
Record KubeHost := mkKubeHost {
  kh_Name : string; kh_Labels : option smap; kh_Deleting : bool; kh_Addresses : list (string * string); kh_PodCIDRs : list string }.

Record Hub := mkHub { hb_calls : nat; hb_nodes : gmap string HubNode; hb_clusters : gmap string HubCluster; hb_hosts : gmap string KubeHost }.

Definition hub_tick (w : Hub) : Hub := mkHub (S (hb_calls w)) (hb_nodes w) (hb_clusters w) (hb_hosts w).
#[export] Instance Hub_server : Server Hub := mkServer _ hb_calls hub_tick.

Abbreviation HM := (Calls.M Hub apierr).

Definition hub_nodes : Table Hub string HubNode := mkTable Hub string _ _ _ hb_nodes
  (fun m w => mkHub (hb_calls w) m (hb_clusters w) (hb_hosts w)) (fun w => mkHub 0 ∅ (hb_clusters w) (hb_hosts w)).
Definition hub_clusters : Table Hub string HubCluster := mkTable Hub string _ _ _ hb_clusters
  (fun m w => mkHub (hb_calls w) (hb_nodes w) m (hb_hosts w)) (fun w => mkHub 0 (hb_nodes w) ∅ (hb_hosts w)).
Definition hub_hosts : Table Hub string KubeHost := mkTable Hub string _ _ _ hb_hosts
  (fun m w => mkHub (hb_calls w) (hb_nodes w) (hb_clusters w) m) (fun w => mkHub 0 (hb_nodes w) (hb_clusters w) ∅).

#[export] Instance hub_nodes_laws : TableLaws hub_nodes. Proof. by split. Qed.
#[export] Instance hub_clusters_laws : TableLaws hub_clusters. Proof. by split. Qed.
#[export] Instance hub_hosts_laws : TableLaws hub_hosts. Proof. by split. Qed.

(** [List] of the objects a selector keeps. *)
Definition hub_list {V} (faults : nat -> option fault) (t : Table Hub string V) (sel : V -> bool) : HM (list (string * V)) :=
  Calls.call (oracle faults) (fun w => (w, Good (List.filter (fun kv => sel (snd kv)) (map_to_list (rows t w))))).

(** * The gateway of a cluster *)

Definition with_roles (roles : list string) (n : ClusterNode) : ClusterNode :=
  mkClusterNode (cn_Name n) (cn_ClusterName n) (cn_NodeName n) (cn_PodCIDRs n) (cn_IP n) (cn_IP6 n) roles (cn_InterfaceName n).

Section elector.
  Context (faults : nat -> option fault).
  (** The order in which a set of strings is listed ([sets.String.UnsortedList]). *)
  Context (UnsortedList : gset string -> list string).
  (** [NewElector] reads these from the environment. *)
  Context (nodeName clusterName : string).

Definition AddRole (node : ClusterNode) (role : string) : ClusterNode :=
  with_roles (UnsortedList ({[ role ]} ∪ list_to_set (cn_Roles node))) node.

Definition RemoveRole (node : ClusterNode) (role : string) : ClusterNode :=
  match cn_Roles node with
  | [] => node
  | roles => with_roles (UnsortedList (list_to_set roles ∖ {[ role ]})) node
  end.

(** One node of [genModifyNode]. *)
Definition modify_node (n : HubNode) : option HubNode :=
  let clusterNode := hn_Node n in
  let isGateWay := ClusterNode_IsGateway clusterNode in
  let isSameCluster := cn_ClusterName clusterNode =s clusterName in
  let isCurrentNode := cn_NodeName clusterNode =s nodeName in
  if isSameCluster then
    if negb isCurrentNode && isGateWay then Some (mkHubNode (hn_Labels n) (RemoveRole clusterNode RoleGateway))
    else if isCurrentNode && negb isGateWay then Some (mkHubNode (hn_Labels n) (AddRole clusterNode RoleGateway))
    else None
  else None.

Definition genModifyNode (clusterNodes : list HubNode) : list HubNode := collect modify_node clusterNodes.

Fixpoint update_nodes (modifyNodes : list HubNode) : HM unit :=
  match modifyNodes with
  | [] => mok tt
  | node :: rest => do! _ := Update faults hub_nodes (cn_Name (hn_Node node)) node in update_nodes rest
  end.

Definition EnsureGateWayRole : HM unit :=
  do! clusterNodes := hub_list faults hub_nodes (fun _ => true) in
  do! _ := Get faults hub_clusters clusterName in
  update_nodes (genModifyNode (map snd clusterNodes)).

End elector.

(** * The node controller *)

Definition clusterLabel : string := "kosmos.io/cluster".
Definition NodeInternalIP : string := "InternalIP".
Definition HubKosmosNodeLabel : string := "kosmos.io/node".
Definition KosmosExcludeNodeLabel : string := "kosmos.io/exclude".

(** [utils.IsKosmosNode], [utils.IsExcludeNode] *)
Definition label_true (label : string) (node : KubeHost) : bool :=
  match map_of (kh_Labels node) !! label with Some labelVal => labelVal =s "true" | None => false end.

(** [predicatesFunc]: created, updated and deleted nodes. *)
Definition node_wanted (node : KubeHost) : bool :=
  negb (label_true HubKosmosNodeLabel node) && negb (label_true KosmosExcludeNodeLabel node).

(** [ParseIP]: the address and the version of IP. *)
Definition parse_version (s : string) : option IP * nat :=
  match ParseIP s with
  | None => (None, 0)
  | Some ip => match To4 ip with Some ipv4 => (Some ipv4, 4) | None => (Some ip, 6) end
  end.

Fixpoint internal_ips (addresses : list (string * string)) (internalIP internalIP6 : string) : string * string :=
  match addresses with
  | [] => (internalIP, internalIP6)
  | (type, address) :: rest =>
      if type =s NodeInternalIP then
        let proto := snd (parse_version address) in
        let internalIP := if (proto =? 4) && str_empty internalIP then address else internalIP in
        let internalIP6 := if (proto =? 6) && str_empty internalIP6 then address else internalIP6 in
        if negb (str_empty internalIP) && negb (str_empty internalIP6) then (internalIP, internalIP6)
        else internal_ips rest internalIP internalIP6
      else internal_ips rest internalIP internalIP6
  end.

(** [reconcile.Result]; the error is always nil. *)
Inductive node_result := NodeDone | NodeRequeue | NodeRequeueAfter.

Section controller.
  Context (faults : nat -> option fault) (ClusterName : string).

Definition CreateOrUpdateClusterNode (node : HubNode) (f : HubNode -> HubNode + apierr) : HM unit :=
  let name := cn_Name (hn_Node node) in
  mtry (Get faults hub_nodes name)
    (fun clusterNode => do! clusterNode := mlift (f clusterNode) in Update faults hub_nodes name clusterNode)
    (fun err => match err with
      | IsNotFound _ => do! node := mlift (f node) in Create faults hub_nodes name node
      | _ => merr err
      end).

(** The change of [Reconcile] to a ClusterNode. *)
Definition set_names (nodeName : string) (n : HubNode) : HubNode + apierr :=
  let c := hn_Node n in
  inl (mkHubNode (hn_Labels n) (mkClusterNode (cn_Name c) ClusterName nodeName (cn_PodCIDRs c) (cn_IP c) (cn_IP6 c) (cn_Roles c) (cn_InterfaceName c))).

Definition new_cluster_node (clusterNodeName : string) : HubNode :=
  mkHubNode (Some {[ clusterLabel := ClusterName ]}) (mkClusterNode clusterNodeName "" "" [] "" "" [] "").

(** A deletion whose error is only logged. *)
Definition delete_logged (clusterNodeName : string) : HM node_result :=
  mtry (Delete faults hub_nodes clusterNodeName) (fun _ => mok NodeDone) (fun _ => mok NodeDone).

Definition Node_Reconcile (request : string) : HM node_result :=
  let clusterNodeName := ClusterNodeName ClusterName request in
  mtry (Get faults hub_hosts request)
    (fun node =>
      if kh_Deleting node then delete_logged clusterNodeName
      else
        let '(internalIP, internalIP6) := internal_ips (kh_Addresses node) "" "" in
        mtry (CreateOrUpdateClusterNode (new_cluster_node clusterNodeName) (set_names (kh_Name node)))
          (fun _ => mok NodeDone) (fun _ => mok NodeRequeue))
    (fun err => match err with
      | IsNotFound _ => delete_logged clusterNodeName
      | _ => mok NodeRequeueAfter
      end).

(** The label selector of the lists. *)
Definition of_cluster (n : HubNode) : bool := bool_decide (map_of (hn_Labels n) !! clusterLabel = Some ClusterName).

(** Deletes the objects one by one and collects the errors; [skip] are the errors that do not count. *)
Fixpoint delete_nodes (skip : apierr -> bool) (l : list (string * HubNode)) (errs : list apierr) : HM (list apierr) :=
  match l with
  | [] => mok errs
  | (name, _) :: rest =>
      mtry (Delete faults hub_nodes name) (fun _ => delete_nodes skip rest errs)
        (fun err => delete_nodes skip rest (if skip err then errs else errs ++ [err]))
  end.

Definition aggregate (errs : list apierr) : HM unit := if 0 <? length errs then merr (OtherError "aggregate") else mok tt.

Definition CleanOrphan : HM unit :=
  do! k8sNodeList := hub_list faults hub_hosts (fun _ => true) in
  let k8sNodeNameSet : gset string := list_to_set (map (fun kv => kh_Name (snd kv)) k8sNodeList) in
  do! clusterNodes := hub_list faults hub_nodes of_cluster in
  do! errs := delete_nodes (fun _ => false)
    (List.filter (fun kv => negb (bool_decide (cn_NodeName (hn_Node (snd kv)) ∈ k8sNodeNameSet))) clusterNodes) [] in
  aggregate errs.

Definition Node_CleanResource : HM unit :=
  do! list := hub_list faults hub_nodes of_cluster in
  do! errs := delete_nodes (fun err => match err with IsNotFound _ => true | _ => false end) list [] in
  aggregate errs.

End controller.

(** * Facts *)

Lemma runs_hub_list {V} faults (t : Table Hub string V) `{!TableLaws t} sel w (X : Hub -> Prop) Q : (faulty faults -> X (next_call w)) ->
  Q (List.filter (fun kv => sel (snd kv)) (map_to_list (rows t w))) (next_call w) -> runs (hub_list faults t sel) w X Q.
Proof.
  intros HX HQ. apply runs_call; [intros ?; by apply HX, call_faulty|]. unfold runs. by rewrite rows_tick.
Qed.

Lemma nodes_apart w w' m : writes hub_nodes w w' m -> hb_nodes w' = m /\ hb_clusters w' = hb_clusters w /\ hb_hosts w' = hb_hosts w.
Proof. intros [H1 H2]. destruct w, w'. unfold rest_of in H2. simpl in *. by injection H2 as -> ->. Qed.

(** The objects are stored under their names. *)
Definition named (w : Hub) : Prop :=
  (forall k n, hb_nodes w !! k = Some n -> cn_Name (hn_Node n) = k) /\ (forall k h, hb_hosts w !! k = Some h -> kh_Name h = k).

(** Every ClusterNode of [w] is related to that of [w'], and nothing else changed. *)
Definition each_node (P : HubNode -> HubNode -> Prop) (w w' : Hub) : Prop :=
  hb_clusters w' = hb_clusters w /\ hb_hosts w' = hb_hosts w /\ forall k, option_Forall2 P (hb_nodes w !! k) (hb_nodes w' !! k).

Lemma collect_NoDup {A B C} (f : A -> option B) (g : A -> C) (h : B -> C) l : (forall a b, f a = Some b -> h b = g a) -> NoDup (map g l) -> NoDup (map h (collect f l)).
Proof.
  intros Hf. induction l as [|a l IH]; intros Hnd; [by apply NoDup_nil_2|]. cbn [map] in Hnd. apply list.NoDup_cons in Hnd as [Ha Hnd]. simpl.
  destruct (f a) as [b|] eqn:E; [|by apply IH]. simpl. apply list.NoDup_cons. split; [|by apply IH].
  intros Hin. apply Ha. rewrite (Hf a b E) in Hin. apply list_elem_of_In, in_map_iff in Hin as (b' & Hb & Hin). apply list_elem_of_In, elem_of_collect in Hin as (a' & Ha' & Hin).
  apply list_elem_of_In, in_map_iff. exists a'. split; [rewrite <- (Hf _ _ Hin); done|by apply list_elem_of_In].
Qed.

Lemma option_Forall2_weaken {A B} (P Q : A -> B -> Prop) ox oy : option_Forall2 P ox oy -> (forall x y, ox = Some x -> P x y -> Q x y) -> option_Forall2 Q ox oy.
Proof. intros [x y HP|] H; constructor. by apply H. Qed.

(** ** The elector *)

Abbreviation node_name n := (cn_Name (hn_Node n)).
Definition put (l : list HubNode) (m : gmap string HubNode) : gmap string HubNode := foldl (fun m n => <[node_name n := n]> m) m l.

Lemma put_cons n l m : put (n :: l) m = put l (<[node_name n := n]> m). Proof. done. Qed.

Lemma put_fresh l : forall m k, k ∉ map (fun n => node_name n) l -> put l m !! k = m !! k.
Proof.
  induction l as [|n l IH]; intros m k Hk; [done|]. cbn [map] in Hk. apply not_elem_of_cons in Hk as [Hn Hk].
  rewrite put_cons, (IH _ _ Hk), lookup_insert_ne by done. done.
Qed.

Lemma put_lookup l n : NoDup (map (fun n => node_name n) l) -> n ∈ l -> forall m, put l m !! node_name n = Some n.
Proof.
  induction l as [|n' l IH]; intros Hnd Hn m; [by apply elem_of_nil in Hn|]. cbn [map] in Hnd. apply list.NoDup_cons in Hnd as [Hk Hnd].
  rewrite put_cons. apply elem_of_cons in Hn as [-> |Hn].
  - rewrite put_fresh by done. apply lookup_insert_eq.
  - by apply IH.
Qed.

Lemma update_nodes_spec faults l : forall w (X : Hub -> Prop), (forall n, n ∈ l -> is_Some (rows hub_nodes w !! node_name n)) ->
  (faulty faults -> forall j w', writes hub_nodes w w' (put (take j l) (rows hub_nodes w)) -> X w') ->
  runs (update_nodes faults l) w X (fun _ w' => writes hub_nodes w w' (put l (rows hub_nodes w))).
Proof.
  induction l as [|n l IH]; intros w X Hin HX; [by apply runs_ok|]. cbn [update_nodes].
  apply runs_seq, (runs_Update faults hub_nodes).
  - intros Hf. apply (HX Hf 0). apply (writes_tick hub_nodes).
  - intros Hn. destruct (Hin n) as [? E]; [by left|congruence].
  - intros w1 [E1 E2]. assert (Hw : writes hub_nodes w w1 (<[node_name n := n]> (rows hub_nodes w))) by done.
    eapply runs_mono; [apply (IH w1 X)|done|].
    + intros n' Hn'. rewrite E1. destruct (decide (node_name n' = node_name n)) as [-> |?]; [rewrite lookup_insert_eq; by eexists|].
      rewrite lookup_insert_ne by done. apply Hin. by right.
    + intros Hf j w' Hw'. apply (HX Hf (S j)). rewrite E1 in Hw'. exact (writes_trans hub_nodes _ _ _ _ _ Hw Hw').
    + intros u w' Hw'. rewrite put_cons. rewrite E1 in Hw'. exact (writes_trans hub_nodes _ _ _ _ _ Hw Hw').
Qed.

Section election.
  Context (faults : nat -> option fault) (UnsortedList : gset string -> list string) (nodeName clusterName : string).
  Context (UnsortedList_spec : forall s, UnsortedList s ≡ₚ elements s).
  Abbreviation modify := (modify_node UnsortedList nodeName clusterName).

Lemma listed_roles s r : r ∈ UnsortedList s <-> r ∈ s.
Proof. by rewrite UnsortedList_spec, elem_of_elements. Qed.

Lemma IsGateway_spec n : ClusterNode_IsGateway n = true <-> exists r, r ∈ cn_Roles n /\ EqualFold RoleGateway r = true.
Proof. unfold ClusterNode_IsGateway, hasRole. apply any_true. Qed.

Lemma has_gateway n : RoleGateway ∈ cn_Roles n -> ClusterNode_IsGateway n = true.
Proof. intros H. apply IsGateway_spec. by exists RoleGateway. Qed.

#[local] Arguments AddRole _ _ _ : simpl never.
#[local] Arguments RemoveRole _ _ _ : simpl never.

(** What the election makes of one node. *)
Definition elected (n n' : HubNode) : Prop :=
  let c := hn_Node n in let c' := hn_Node n' in
  n' = mkHubNode (hn_Labels n) (with_roles (cn_Roles c') c) /\
  if cn_ClusterName c =s clusterName then
    if cn_NodeName c =s nodeName
    then ClusterNode_IsGateway c' = true /\
      forall r, r ∈ cn_Roles c' <-> r ∈ cn_Roles c \/ r = RoleGateway /\ ClusterNode_IsGateway c = false
    else forall r, r ∈ cn_Roles c' <-> r ∈ cn_Roles c /\ r <> RoleGateway
  else n' = n.

Lemma with_roles_same c : with_roles (cn_Roles c) c = c. Proof. by destruct c. Qed.

Lemma AddRole_elem c role r : r ∈ cn_Roles (AddRole UnsortedList c role) <-> r = role \/ r ∈ cn_Roles c.
Proof. unfold AddRole. simpl. rewrite listed_roles. set_solver. Qed.

Lemma RemoveRole_elem c role r : r ∈ cn_Roles (RemoveRole UnsortedList c role) <-> r ∈ cn_Roles c /\ r <> role.
Proof.
  unfold RemoveRole. destruct (cn_Roles c) eqn:E; [rewrite E; set_solver|]. rewrite <- E. simpl. rewrite listed_roles. set_solver.
Qed.

Lemma RemoveRole_shape c role : RemoveRole UnsortedList c role = with_roles (cn_Roles (RemoveRole UnsortedList c role)) c.
Proof. unfold RemoveRole. destruct (cn_Roles c) eqn:E; [by rewrite with_roles_same|done]. Qed.

Lemma modify_elected n : elected n (default n (modify n)).
Proof.
  unfold elected, modify_node. destruct n as [labels c]. simpl.
  destruct (cn_ClusterName c =s clusterName); [|by rewrite with_roles_same].
  destruct (cn_NodeName c =s nodeName); destruct (ClusterNode_IsGateway c) eqn:Eg; simpl.
  - rewrite with_roles_same. naive_solver.
  - split; [done|]. split.
    + apply has_gateway, AddRole_elem. by left.
    + intros r. etransitivity; [apply AddRole_elem|]. naive_solver.
  - split; [by rewrite <- RemoveRole_shape|]. intros r. apply RemoveRole_elem.
  - rewrite with_roles_same. split; [done|]. intros r. split; [|tauto]. intros Hr. split; [done|]. intros ->.
    by rewrite (has_gateway c) in Eg.
Qed.

Lemma modify_name n n' : modify n = Some n' -> node_name n' = node_name n.
Proof. intros E. pose proof (modify_elected n) as [H _]. rewrite E in H. simpl in H. by rewrite H. Qed.

(** The nodes that are written, and what a part of the writes makes of the table. *)
Definition to_write (m : gmap string HubNode) : list HubNode := genModifyNode UnsortedList nodeName clusterName (map snd (map_to_list m)).

Lemma to_write_elem m n' : n' ∈ to_write m <-> exists k n, m !! k = Some n /\ modify n = Some n'.
Proof.
  unfold to_write, genModifyNode. rewrite elem_of_collect. split.
  - intros (n & Hin & E). apply list_elem_of_In, in_map_iff in Hin as ([k n0] & <- & Hin). apply list_elem_of_In, elem_of_map_to_list in Hin. by exists k, n0.
  - intros (k & n & Hk & E). exists n. split; [|done]. apply list_elem_of_In, in_map_iff. exists (k, n). split; [done|]. by apply list_elem_of_In, elem_of_map_to_list.
Qed.

Lemma to_write_NoDup m : (forall k n, m !! k = Some n -> node_name n = k) -> NoDup (map (fun n => node_name n) (to_write m)).
Proof.
  intros Hm. apply (collect_NoDup _ (fun n => node_name n)); [intros a b; apply modify_name|].
  rewrite map_map, (map_ext_in _ fst); [apply NoDup_fst_map_to_list|].
  intros [k n] Hin. apply Hm, elem_of_map_to_list, list_elem_of_In. done.
Qed.

Lemma written_nodes m l : (forall k n, m !! k = Some n -> node_name n = k) -> l `sublist_of` to_write m ->
  forall k, option_Forall2 (fun n n' => n' = n /\ (forall n1, modify n = Some n1 -> n1 ∉ l) \/ modify n = Some n') (m !! k) (put l m !! k).
Proof.
  intros Hm Hl k.
  assert (Hnd : NoDup (map (fun n => node_name n) l)) by (eapply sublist_NoDup; [apply to_write_NoDup, Hm|by apply fmap_sublist with (f := fun n => node_name n) in Hl]).
  assert (Hfrom : forall n', n' ∈ l -> exists n, m !! node_name n' = Some n /\ modify n = Some n').
  { intros n' Hn'. pose proof (elem_of_sublist _ _ _ Hn' Hl) as Hw. apply to_write_elem in Hw as (k' & n & Hk & E). exists n. split; [|done].
    rewrite (modify_name _ _ E), (Hm _ _ Hk). done. }
  destruct (decide (k ∈ map (fun n => node_name n) l)) as [Hk|Hk].
  - apply list_elem_of_In, in_map_iff in Hk as (n' & <- & Hin). apply list_elem_of_In in Hin. rewrite put_lookup by done.
    destruct (Hfrom _ Hin) as (n & -> & E). constructor. by right.
  - rewrite put_fresh by done. destruct (m !! k) as [n|] eqn:E; constructor. left. split; [done|]. intros n1 E1 Hin. apply Hk.
    rewrite <- (Hm _ _ E), <- (modify_name _ _ E1). by apply list_elem_of_In, (in_map (fun n => node_name n)), list_elem_of_In.
Qed.

(** Every role that counts as the gateway's is spelled as the constant. *)
Definition spelled (w : Hub) : Prop :=
  forall k n r, hb_nodes w !! k = Some n -> r ∈ cn_Roles (hn_Node n) -> EqualFold RoleGateway r = true -> r = RoleGateway.

Lemma elected_gateway n n' : elected n n' -> cn_ClusterName (hn_Node n') = clusterName ->
  (forall r, r ∈ cn_Roles (hn_Node n) -> EqualFold RoleGateway r = true -> r = RoleGateway) ->
  ClusterNode_IsGateway (hn_Node n') = bool_decide (cn_NodeName (hn_Node n') = nodeName).
Proof.
  intros [Hs He] Hc Hsp. rewrite Hs in Hc. simpl in Hc. rewrite Hc, bool_decide_eq_true_2 in He by done.
  assert (Hnn : cn_NodeName (hn_Node n') = cn_NodeName (hn_Node n)) by (by rewrite Hs). rewrite Hnn.
  destruct (bool_decide_reflect (cn_NodeName (hn_Node n) = nodeName)) as [_|_]; [by destruct He|].
  destruct (ClusterNode_IsGateway (hn_Node n')) eqn:Eg; [|done]. apply IsGateway_spec in Eg as (r & Hr & Ef).
  apply He in Hr as [Hr Hne]. by apply Hsp in Ef.
Qed.

(** C26: ensureGateWayRole (elector.go) run on one node of a cluster. When it succeeds, every
ClusterNode of that cluster on the current node is a gateway, the others of the cluster have
lost the role "gateway", all other roles and fields and the nodes of other clusters are as
they were; where the role is spelled as the constant the current node is then the only
gateway of the cluster, and another run would write nothing. It fails only when a call fails
or the cluster is missing, and then every node is either as it was or already changed so. *)
Theorem gateway_elected w : named w ->
  runs (EnsureGateWayRole faults UnsortedList nodeName clusterName) w
    (fun w' => (faulty faults \/ hb_clusters w !! clusterName = None) /\ each_node (fun n n' => n' = n \/ elected n n') w w')
    (fun _ w' => is_Some (hb_clusters w !! clusterName) /\ each_node elected w w' /\
      (spelled w -> (forall k n', hb_nodes w' !! k = Some n' -> cn_ClusterName (hn_Node n') = clusterName ->
         ClusterNode_IsGateway (hn_Node n') = bool_decide (cn_NodeName (hn_Node n') = nodeName)) /\ to_write (hb_nodes w') = [])).
Proof.
  intros [Hw _]. assert (Hsame : each_node (fun n n' => n' = n \/ elected n n') w w).
  { split; [done|]. split; [done|]. intros k. destruct (hb_nodes w !! k); constructor. by left. }
  unfold EnsureGateWayRole. apply runs_seq, (runs_hub_list faults hub_nodes); [by intros ?; split; [left|]|].
  apply runs_seq, (runs_Get faults hub_clusters).
  1: by intros ?; split; [left|].
  { intros Hn. rewrite rows_tick in Hn. split; [by right|done]. }
  intros v Hv. rewrite rows_tick in Hv. rewrite List.filter_true. fold (to_write (rows hub_nodes w)).
  set (w1 := next_call (next_call w)). change (rows hub_nodes w) with (rows hub_nodes w1).
  eapply runs_mono; [apply update_nodes_spec|apply (fun w' H => H)|].
  - intros n' Hn'. apply to_write_elem in Hn' as (k & n & Hk & E). rewrite (modify_name _ _ E), (Hw _ _ Hk). by exists n.
  - intros Hf j w' Hw'. split; [by left|]. apply nodes_apart in Hw' as (Hn & Hc & Hh). split; [done|]. split; [done|]. intros k. rewrite Hn.
    eapply option_Forall2_weaken; [apply written_nodes; [exact Hw|apply sublist_take]|]. intros n n' _ [[-> _]|E]; [by left|right].
    pose proof (modify_elected n) as He. by rewrite E in He.
  - intros u w' Hw'. apply nodes_apart in Hw' as (Hn & Hc & Hh).
    assert (He : forall k, option_Forall2 elected (hb_nodes w !! k) (hb_nodes w' !! k)).
    { intros k. rewrite Hn. eapply option_Forall2_weaken; [apply written_nodes; [exact Hw|done]|]. intros n n' En Hk.
      pose proof (modify_elected n) as He. destruct Hk as [[-> Hk]|E]; [|by rewrite E in He].
      destruct (modify n) as [n1|] eqn:E; [|done]. destruct (Hk n1 eq_refl). apply to_write_elem. by exists k, n. }
    split; [by exists v|]. split; [by split|]. intros Hsp.
    assert (Hg : forall k n', hb_nodes w' !! k = Some n' -> cn_ClusterName (hn_Node n') = clusterName ->
         ClusterNode_IsGateway (hn_Node n') = bool_decide (cn_NodeName (hn_Node n') = nodeName)).
    { intros k n' Hk. specialize (He k). rewrite Hk in He. inversion He as [n ? He' Hn'|]; subst. intros Hcl.
      apply (elected_gateway n); [done|done|]. intros r. by apply (Hsp k). }
    split; [done|]. destruct (to_write (hb_nodes w')) as [|n' l] eqn:El; [done|].
    assert (Hin : n' ∈ to_write (hb_nodes w')) by (rewrite El; by left). apply to_write_elem in Hin as (k & n & Hk & E).
    exfalso. unfold modify_node in E. destruct (bool_decide_reflect (cn_ClusterName (hn_Node n) = clusterName)) as [Hcl|]; [|done].
    rewrite (Hg _ _ Hk Hcl) in E. by destruct (bool_decide (cn_NodeName (hn_Node n) = nodeName)).
Qed.

End election.

(** ** The node controller *)

Lemma ClusterNodeName_inj c n1 n2 : ClusterNodeName c n1 = ClusterNodeName c n2 -> n1 = n2.
Proof. unfold ClusterNodeName. intros H. by repeat apply (inj (String.append _)) in H. Qed.

Section node_facts.
  Context (faults : nat -> option fault) (ClusterName : string).

(** The node of a request, unless it is being deleted. *)
Definition alive (w : Hub) (request : string) : option KubeHost :=
  h ← hb_hosts w !! request; if kh_Deleting h then None else Some h.

(** The ClusterNode of a node: what is stored with the names set. *)
Definition synced_node (request : string) (old : option HubNode) : HubNode :=
  let n := default (new_cluster_node ClusterName (ClusterNodeName ClusterName request)) old in let c := hn_Node n in
  mkHubNode (hn_Labels n) (mkClusterNode (cn_Name c) ClusterName request (cn_PodCIDRs c) (cn_IP c) (cn_IP6 c) (cn_Roles c) (cn_InterfaceName c)).

Lemma delete_logged_spec k w (Q : node_result -> Hub -> Prop) : (forall w', writes hub_nodes w w' (delete k (rows hub_nodes w)) -> Q NodeDone w') ->
  (faulty faults -> forall w', writes hub_nodes w w' (rows hub_nodes w) -> Q NodeDone w') -> runs (delete_logged faults k) w (fun _ => False) Q.
Proof.
  intros HQ Hf. unfold delete_logged, mtry, runs, Delete.
  match goal with |- context [Calls.call (oracle faults) ?f w] => destruct (call_cases faults f w) as [(ft & Hft & ->)| ->] end.
  - apply Hf; [by exists (calls_made w), ft|apply (writes_tick hub_nodes)].
  - rewrite rows_tick. destruct (rows hub_nodes w !! k) eqn:E; apply HQ.
    + apply (writes_set hub_nodes).
    + rewrite delete_id by done. apply (writes_tick hub_nodes).
Qed.

Lemma create_or_update_spec request w (X : Hub -> Prop) (Q : unit -> Hub -> Prop) : let k := ClusterNodeName ClusterName request in
  (forall w', writes hub_nodes w w' (<[k := synced_node request (rows hub_nodes w !! k)]> (rows hub_nodes w)) -> Q tt w') ->
  (faulty faults -> forall w', writes hub_nodes w w' (rows hub_nodes w) -> X w') ->
  runs (CreateOrUpdateClusterNode faults (new_cluster_node ClusterName k) (set_names ClusterName request)) w X Q.
Proof.
  intros k HQ HX. unfold CreateOrUpdateClusterNode. change (node_name (new_cluster_node ClusterName k)) with k.
  assert (W1 : writes hub_nodes w (next_call w) (rows hub_nodes w)) by apply (writes_tick hub_nodes).
  assert (W2 : writes hub_nodes w (next_call (next_call w)) (rows hub_nodes w)) by (split; by rewrite ?rows_tick, ?rest_tick).
  apply (runs_read faults hub_nodes); [intros Hf; by apply HX| |]; [intros n Hn|intros Hn]; rewrite Hn in HQ.
  - apply runs_seq, (runs_Update faults hub_nodes); [intros Hf; by apply HX|rewrite rows_tick; congruence|].
    intros w' Hw'. apply HQ. rewrite rows_tick in Hw'. exact (writes_trans hub_nodes _ _ _ _ _ W1 Hw').
  - apply runs_seq, (runs_Create faults hub_nodes); [intros Hf; by apply HX|rewrite rows_tick, Hn; by intros []|].
    intros w' _ Hw'. apply HQ. rewrite rows_tick in Hw'. exact (writes_trans hub_nodes _ _ _ _ _ W1 Hw').
Qed.

(** One request: the ClusterNode of a node that is alive is created or its names are set,
that of another is deleted; a failed call leaves everything and asks for another try, or is
lost when it was the deletion. *)
Lemma node_step request w : named w ->
  runs (Node_Reconcile faults ClusterName request) w (fun _ => False) (fun r w' =>
    let k := ClusterNodeName ClusterName request in
    writes hub_nodes w w' (match alive w request with
      | Some _ => <[k := synced_node request (hb_nodes w !! k)]> (hb_nodes w)
      | None => delete k (hb_nodes w)
      end) /\ r = NodeDone \/ faulty faults /\ writes hub_nodes w w' (hb_nodes w)).
Proof.
  intros [_ Hnamed]. set (k := ClusterNodeName ClusterName request). unfold Node_Reconcile. fold k. unfold mtry at 1, Get, runs.
  match goal with |- context [Calls.call (oracle faults) ?f w] => destruct (call_cases faults f w) as [(ft & Hft & ->)| ->] end.
  { assert (Hf : faulty faults) by (by exists (calls_made w), ft). assert (writes hub_nodes w (next_call w) (hb_nodes w)) by apply (writes_tick hub_nodes).
    destruct ft; right; by split. }
  rewrite rows_tick. unfold alive. change (rows hub_hosts w) with (hb_hosts w).
  assert (Hdel : runs (delete_logged faults k) (next_call w) (fun _ => False) (fun r w' =>
    writes hub_nodes w w' (delete k (hb_nodes w)) /\ r = NodeDone \/ faulty faults /\ writes hub_nodes w w' (hb_nodes w))).
  { apply delete_logged_spec; [intros w' Hw'|intros Hf w' Hw']; [left|right]; split; done. }
  destruct (hb_hosts w !! request) as [node|] eqn:Eh; simpl; [|exact Hdel]. destruct (kh_Deleting node); [exact Hdel|].
  destruct (internal_ips (kh_Addresses node) "" "") as [ip ip6]. rewrite (Hnamed _ _ Eh).
  pose proof (create_or_update_spec request (next_call w) (fun w' => faulty faults /\ writes hub_nodes w w' (hb_nodes w))
    (fun _ w' => writes hub_nodes w w' (<[k := synced_node request (hb_nodes w !! k)]> (hb_nodes w)))) as Hc.
  specialize (Hc ltac:(done) ltac:(done)). fold k in Hc. unfold mtry. unfold runs in Hc. change NodeInternalIP with "InternalIP".
  destruct (CreateOrUpdateClusterNode faults (new_cluster_node ClusterName k) (set_names ClusterName request) (next_call w)) as [w' [[]|err|]]; simpl; auto.
Qed.

(** The objects under [keys] were deleted one by one, or an error was added; the others stay. *)
Definition removal (keys : list string) (errs : list apierr) (w : Hub) (errs' : list apierr) (w' : Hub) : Prop :=
  rest_of hub_nodes w' = rest_of hub_nodes w /\ (errs' = errs \/ faulty faults /\ length errs < length errs') /\
  (forall k, k ∉ keys -> rows hub_nodes w' !! k = rows hub_nodes w !! k) /\
  (forall k, k ∈ keys -> rows hub_nodes w' !! k = None \/ length errs < length errs' /\ rows hub_nodes w' !! k = rows hub_nodes w !! k).

Lemma removal_failed k0 keys err errs w errs' w' : faulty faults -> removal keys (errs ++ [err]) (next_call w) errs' w' -> removal (k0 :: keys) errs w errs' w'.
Proof.
  intros Hf (Hr & He & Hout & Hdel). rewrite rest_tick in Hr. rewrite length_app in He, Hdel. simpl in He, Hdel. setoid_rewrite rows_tick in Hout. setoid_rewrite rows_tick in Hdel.
  assert (Hlt : length errs < length errs') by (destruct He as [-> |[_ He]]; [rewrite length_app; simpl|]; lia).
  split; [done|]. split; [by right|]. split; intros k Hk; [apply Hout; set_solver|].
  destruct (decide (k ∈ keys)) as [Hkl|Hkl]; [destruct (Hdel k Hkl) as [?|[? Hs]]; [by left|by right]|right; by rewrite (Hout k Hkl)].
Qed.

Lemma removal_done k0 keys errs w w1 errs' w' : k0 ∉ keys -> writes hub_nodes w w1 (delete k0 (rows hub_nodes w)) -> removal keys errs w1 errs' w' -> removal (k0 :: keys) errs w errs' w'.
Proof.
  intros Hk0 [Hr1 Hw1] (Hr & He & Hout & Hdel). split; [congruence|]. split; [done|]. split; intros k Hk.
  - rewrite (Hout k), Hr1, lookup_delete_ne; [done|set_solver|set_solver].
  - destruct (decide (k = k0)) as [-> |Hne]; [left; rewrite (Hout k0 Hk0), Hr1; apply lookup_delete_eq|].
    destruct (Hdel k) as [?|[? Hs]]; [set_solver|by left|]. right. by rewrite Hr1, lookup_delete_ne in Hs.
Qed.

Lemma delete_nodes_spec skip l : (forall ft, skip (fault_err ft) = false) -> forall errs w, NoDup (map fst l) -> (forall kv, kv ∈ l -> is_Some (rows hub_nodes w !! fst kv)) ->
  runs (delete_nodes faults skip l errs) w (fun _ => False) (removal (map fst l) errs w).
Proof.
  intros Hskip. induction l as [|[k0 n0] l IH]; intros errs w Hnd Hin; [apply runs_ok; repeat split; [by left|set_solver]|].
  cbn [map fst] in Hnd |- *. apply list.NoDup_cons in Hnd as [Hk0 Hnd]. cbn [delete_nodes]. unfold mtry, runs, Delete.
  match goal with |- context [Calls.call (oracle faults) ?f w] => destruct (call_cases faults f w) as [(ft & Hft & ->)| ->] end.
  - rewrite Hskip. change (runs (delete_nodes faults skip l (errs ++ [fault_err ft])) (next_call w) (fun _ => False) (removal (k0 :: map fst l) errs w)).
    eapply runs_mono; [apply IH; [done|]|done|intros errs' w'; apply removal_failed; by exists (calls_made w), ft].
    intros kv Hkv. rewrite rows_tick. apply Hin. by right.
  - rewrite rows_tick. destruct (Hin (k0, n0)) as [v Hv]; [by left|]. simpl in Hv. rewrite Hv. set (w1 := set_rows hub_nodes (delete k0 (rows hub_nodes w)) (next_call w)).
    assert (Hr1 : writes hub_nodes w w1 (delete k0 (rows hub_nodes w))) by apply (writes_set hub_nodes).
    change (runs (delete_nodes faults skip l errs) w1 (fun _ => False) (removal (k0 :: map fst l) errs w)).
    eapply runs_mono; [apply IH; [done|]|done|intros errs' w'; by apply removal_done].
    intros kv Hkv. destruct Hr1 as [-> _]. rewrite lookup_delete_ne; [apply Hin; by right|]. intros ->. apply Hk0. by apply list_elem_of_In, in_map, list_elem_of_In.
Qed.

(** What [CleanOrphan] deletes. *)
Definition orphaned (w : Hub) (n : HubNode) : bool :=
  of_cluster ClusterName n && negb (bool_decide (is_Some (hb_hosts w !! cn_NodeName (hn_Node n)))).

Lemma filter_keys {V} (p : V -> bool) (m : gmap string V) : let l := List.filter (fun kv => p (snd kv)) (map_to_list m) in
  NoDup (map fst l) /\ forall k, k ∈ map fst l <-> exists v, m !! k = Some v /\ p v = true.
Proof.
  split.
  - eapply sublist_NoDup; [apply (NoDup_fst_map_to_list m)|]. apply (fmap_sublist fst). induction (map_to_list m) as [|kv l' IH]; [done|].
    simpl. destruct (p (snd kv)); by constructor.
  - intros k. rewrite list_elem_of_In, in_map_iff. setoid_rewrite filter_In. split.
    + intros ([k' v] & <- & Hin & Hp). exists v. split; [by apply elem_of_map_to_list, list_elem_of_In|done].
    + intros (v & Hk & Hp). exists (k, v). split; [done|]. split; [by apply list_elem_of_In, elem_of_map_to_list|done].
Qed.

Lemma filter_twice {A} (p q : A -> bool) l : List.filter q (List.filter p l) = List.filter (fun a => p a && q a) l.
Proof. induction l as [|a l IH]; [done|]. simpl. destruct (p a); simpl; [|done]. by destruct (q a); rewrite IH. Qed.

Lemma host_names w x : named w -> x ∈ (list_to_set (map (fun kv => kh_Name (snd kv)) (map_to_list (hb_hosts w))) : gset string) <-> is_Some (hb_hosts w !! x).
Proof.
  intros [_ Hh]. rewrite elem_of_list_to_set, list_elem_of_In, in_map_iff. split.
  - intros ([k h] & <- & Hin). apply list_elem_of_In, elem_of_map_to_list in Hin. simpl. rewrite (Hh _ _ Hin). by exists h.
  - intros [h Hx]. exists (x, h). split; [by apply Hh|]. by apply list_elem_of_In, elem_of_map_to_list.
Qed.

Lemma clean_orphan_spec w (X : Hub -> Prop) : named w ->
  (faulty faults -> forall w', X w') ->
  runs (CleanOrphan faults ClusterName) w X (fun _ w' =>
    writes hub_nodes w w' (filter (fun kv => orphaned w (snd kv) = false) (hb_nodes w))).
Proof.
  intros Hw HX. unfold CleanOrphan. apply runs_seq, (runs_hub_list faults hub_hosts); [by intros ?; apply HX|].
  apply runs_seq, (runs_hub_list faults hub_nodes); [by intros ?; apply HX|]. rewrite List.filter_true, rows_tick, filter_twice.
  set (w1 := next_call (next_call w)).
  set (p := fun n => of_cluster ClusterName n && negb (bool_decide (cn_NodeName (hn_Node n) ∈ (list_to_set (map (fun kv => kh_Name (snd kv)) (map_to_list (rows hub_hosts w))) : gset string)))).
  change (List.filter _ (map_to_list (rows hub_nodes w))) with (List.filter (fun kv => p (snd kv)) (map_to_list (rows hub_nodes w))).
  destruct (filter_keys p (rows hub_nodes w)) as [Hnd Hkeys].
  apply runs_seq. eapply runs_mono; [apply delete_nodes_spec; [done|done|]|done|].
  - intros [k n] Hin. apply list_elem_of_In, filter_In in Hin as [Hin _]. apply list_elem_of_In, elem_of_map_to_list in Hin. by exists n.
  - intros errs w' (Hr & He & Hout & Hdel). unfold aggregate. simpl in He, Hdel. destruct errs as [|e errs]; [|simpl; apply HX; by destruct He as [?|[? _]]].
    apply runs_ok. split; [|done]. apply map_eq. intros k. unfold w1 in *. rewrite !rows_tick in *.
    assert (Hp : forall n, p n = orphaned w n).
    { intros n. unfold p, orphaned. f_equal. f_equal. apply bool_decide_ext. apply (host_names w _ Hw). }
    destruct (decide (k ∈ map fst (List.filter (fun kv => p (snd kv)) (map_to_list (rows hub_nodes w))))) as [Hk|Hk].
    + destruct (Hdel k Hk) as [-> |[Hlt _]]; [|simpl in Hlt; lia]. symmetry. apply map_lookup_filter_None. right. intros n Hn. apply Hkeys in Hk as (n' & Hn' & Hpn).
      assert (n' = n) as -> by (change (hb_nodes w) with (rows hub_nodes w) in Hn; congruence). simpl. rewrite <- Hp, Hpn. done.
    + rewrite (Hout k Hk). change (rows hub_nodes w) with (hb_nodes w) in *. destruct (hb_nodes w !! k) as [n|] eqn:E; symmetry.
      * apply map_lookup_filter_Some. split; [done|]. simpl. rewrite <- Hp. destruct (p n) eqn:Epn; [|done]. destruct Hk. apply Hkeys. by exists n.
      * apply map_lookup_filter_None. by left.
Qed.

(** A worker that takes the keys of [requests] one after the other. *)
Fixpoint handle_keys (requests : list string) : HM unit :=
  match requests with
  | [] => mok tt
  | request :: rest => do! _ := Node_Reconcile faults ClusterName request in handle_keys rest
  end.

(** The ClusterNode of a key that was handled. *)
Definition mirrored (w : Hub) (request : string) : option HubNode :=
  match alive w request with Some _ => Some (synced_node request (hb_nodes w !! ClusterNodeName ClusterName request)) | None => None end.

Definition handled (done : list string) (w w' : Hub) : Prop :=
  hb_clusters w' = hb_clusters w /\ hb_hosts w' = hb_hosts w /\
  (forall h, h ∈ done -> hb_nodes w' !! ClusterNodeName ClusterName h = mirrored w h) /\
  (forall k, (forall h, h ∈ done -> k <> ClusterNodeName ClusterName h) -> hb_nodes w' !! k = hb_nodes w !! k).

Lemma synced_twice h old : synced_node h (Some (synced_node h old)) = synced_node h old. Proof. done. Qed.

Lemma handled_named done w w' : named w -> handled done w w' -> named w'.
Proof.
  intros [Hn Hh] (_ & Hhost & Hin & Hout). split; [|by rewrite Hhost]. intros k n Hk.
  destruct (decide (Exists (fun h => k = ClusterNodeName ClusterName h) done)) as [Hex|Hex].
  - apply list.Exists_exists in Hex as (h & Hh' & ->). rewrite (Hin h Hh') in Hk. unfold mirrored in Hk. destruct (alive w h); [|done].
    injection Hk as <-. unfold synced_node. simpl. destruct (hb_nodes w !! ClusterNodeName ClusterName h) as [n|] eqn:E; simpl; [by apply Hn|done].
  - apply Hn. rewrite <- (Hout k); [done|]. intros h Hh' ->. apply Hex, list.Exists_exists. by exists h.
Qed.

Lemma handled_step done w w1 w2 request : handled done w w1 ->
  writes hub_nodes w1 w2 (match alive w1 request with
      | Some _ => <[ClusterNodeName ClusterName request := synced_node request (hb_nodes w1 !! ClusterNodeName ClusterName request)]> (hb_nodes w1)
      | None => delete (ClusterNodeName ClusterName request) (hb_nodes w1)
      end) -> handled (request :: done) w w2.
Proof.
  intros (Hc & Hh & Hin & Hout) Hw. apply nodes_apart in Hw as (Hn2 & Hc2 & Hh2). split; [congruence|]. split; [congruence|].
  assert (Ha : alive w1 request = alive w request) by (unfold alive; by rewrite Hh). rewrite Ha in Hn2.
  assert (Hk : hb_nodes w2 !! ClusterNodeName ClusterName request = mirrored w request).
  { rewrite Hn2. unfold mirrored. destruct (alive w request) eqn:E; [rewrite lookup_insert_eq|by rewrite lookup_delete_eq]. f_equal.
    destruct (decide (request ∈ done)) as [Hd|Hd]; [rewrite (Hin _ Hd); unfold mirrored; by rewrite E|]. rewrite Hout; [done|].
    intros h Hh' Heq. apply ClusterNodeName_inj in Heq. by subst. }
  assert (Hne : forall k, k <> ClusterNodeName ClusterName request -> hb_nodes w2 !! k = hb_nodes w1 !! k).
  { intros k Hk'. rewrite Hn2. destruct (alive w request); [by rewrite lookup_insert_ne|by rewrite lookup_delete_ne]. }
  split.
  - intros h Hh'. destruct (decide (h = request)) as [-> |Hhr]; [done|]. rewrite Hne by (intros E; by apply ClusterNodeName_inj in E). apply Hin. set_solver.
  - intros k Hk'. rewrite Hne by (apply Hk'; by left). apply Hout. intros h Hh'. apply Hk'. by right.
Qed.

Lemma handle_keys_spec : (forall n, faults n = None) -> forall requests done w w1, named w -> handled done w w1 ->
  runs (handle_keys requests) w1 (fun _ => False) (fun _ w' => exists done', handled done' w w' /\ forall h, h ∈ done' <-> h ∈ done \/ h ∈ requests).
Proof.
  intros Hf requests. induction requests as [|request rest IH]; intros done w w1 Hw Hd; cbn [handle_keys].
  - apply runs_ok. exists done. split; [done|]. set_solver.
  - apply runs_seq. eapply runs_mono; [apply node_step; by eapply handled_named|done|]. intros r w2 [[Hw2 _]|[(n & f & E) _]]; [|congruence].
    eapply runs_mono; [apply (IH (request :: done) w); [done|by eapply handled_step]|done|]. intros u w' (done' & Hd' & Hel). exists done'. split; [done|]. set_solver.
Qed.

(** The node controller of a cluster (node_controller.go) handles any sequence of keys of
nodes and then removes the orphans, no call failing. Every handled node that exists and is
not being deleted has a ClusterNode with its name and the cluster's, and what was stored of
it else; every other handled node has none; every ClusterNode labelled with the cluster
belongs to an existing node; and the ClusterNodes of other clusters under other names are
untouched. *)
Theorem nodes_mirrored requests w : (forall n, faults n = None) -> named w ->
  runs (do! _ := handle_keys requests in CleanOrphan faults ClusterName) w (fun _ => False) (fun _ w' =>
    hb_clusters w' = hb_clusters w /\ hb_hosts w' = hb_hosts w /\
    (forall h, h ∈ requests -> hb_nodes w' !! ClusterNodeName ClusterName h = mirrored w h) /\
    (forall k n, hb_nodes w' !! k = Some n -> of_cluster ClusterName n = true -> is_Some (hb_hosts w !! cn_NodeName (hn_Node n))) /\
    (forall k n, hb_nodes w !! k = Some n -> (forall h, h ∈ requests -> k <> ClusterNodeName ClusterName h) -> of_cluster ClusterName n = false ->
      hb_nodes w' !! k = Some n)).
Proof.
  intros Hf Hw. apply runs_seq. eapply runs_mono; [apply (handle_keys_spec Hf requests [] w w Hw)|done|].
  { split; [done|]. split; [done|]. split; [set_solver|done]. }
  intros u w1 (done & Hd & Hel). pose proof Hd as (Hc & Hh & Hin & Hout).
  eapply runs_mono; [apply (clean_orphan_spec w1 (fun _ => False)); [by eapply handled_named|intros (n & f & E); congruence]|done|].
  intros u' w' Hw'. apply nodes_apart in Hw' as (Hn' & Hc' & Hh'). rewrite Hn'. split; [congruence|]. split; [congruence|].
  assert (Ho : forall n, orphaned w1 n = of_cluster ClusterName n && negb (bool_decide (is_Some (hb_hosts w !! cn_NodeName (hn_Node n))))) by (intros n; unfold orphaned; by rewrite Hh).
  split; [|split].
  - intros h Hr. assert (Hk : hb_nodes w1 !! ClusterNodeName ClusterName h = mirrored w h) by (apply Hin, Hel; by right).
    unfold mirrored, alive in *. destruct (hb_hosts w !! h) as [node|] eqn:Eh; simpl in *; [destruct (kh_Deleting node)|]; [by apply map_lookup_filter_None; left| |by apply map_lookup_filter_None; left].
    apply map_lookup_filter_Some. split; [done|]. rewrite Ho. simpl. rewrite Eh, bool_decide_eq_true_2 by (by eexists). apply andb_false_r.
  - intros k n Hk Hof. apply map_lookup_filter_Some in Hk as [_ Hk]. simpl in Hk. rewrite Ho, Hof in Hk. simpl in Hk.
    apply negb_false_iff, bool_decide_eq_true in Hk. done.
  - intros k n Hk Hnot Hof. apply map_lookup_filter_Some. split; [|by rewrite Ho; simpl; rewrite Hof]. rewrite Hout; [done|]. intros h Hdone. apply Hnot. apply Hel in Hdone as [Hx|Hx]; [by apply elem_of_nil in Hx|done].
Qed.

End node_facts.

(** * Examples *)

Lemma named_by w : map_Forall (fun k n => node_name n = k) (hb_nodes w) -> map_Forall (fun k h => kh_Name h = k) (hb_hosts w) -> named w.
Proof. intros Hn Hh. split; [exact Hn|exact Hh]. Qed.

Definition ex_hub_node (cluster node : string) (roles : list string) : HubNode :=
  mkHubNode (Some {[ clusterLabel := cluster ]}) (mkClusterNode (ClusterNodeName cluster node) cluster node [] "10.0.0.1" "" roles "eth0").
Definition ex_host (name : string) (deleting : bool) : string * KubeHost := (name, mkKubeHost name None deleting [("InternalIP", "10.0.0.1")] []).
Definition ex_hub (nodes : list HubNode) (hosts : list (string * KubeHost)) : Hub :=
  mkHub 0 (list_to_map (map (fun n => (node_name n, n)) nodes)) {[ "c1" := mkHubCluster None (mkCluster "c1" None [] []) ]} (list_to_map hosts).

Definition ex_members : Hub :=
  ex_hub [ex_hub_node "c1" "a" ["gateway"]; ex_hub_node "c1" "b" []; ex_hub_node "c1" "gone" []; ex_hub_node "c2" "a" ["gateway"]] [ex_host "a" false; ex_host "b" true].

Lemma ex_members_named : named ex_members.
Proof. apply named_by; refine (bool_decide_eq_true_1 _ _); by vm_compute. Qed.

Definition roles_at (w : Hub) (k : string) : option (list string) := cn_Roles ∘ hn_Node <$> (hb_nodes w !! k).

Lemma gateway_elected_witness : named ex_members /\
  (let w' := fst (EnsureGateWayRole (fun _ => None) elements "b" "c1" ex_members) in
   roles_at w' "c1-a" = Some [] /\ roles_at w' "c1-b" = Some ["gateway"] /\ roles_at w' "c2-a" = Some ["gateway"]) /\
  runs (EnsureGateWayRole (fun _ => None) elements "b" "c1") ex_members
    (fun w' => (faulty (fun _ => None) \/ hb_clusters ex_members !! "c1" = None) /\ each_node (fun n n' => n' = n \/ elected "b" "c1" n n') ex_members w')
    (fun _ w' => is_Some (hb_clusters ex_members !! "c1") /\ each_node (elected "b" "c1") ex_members w' /\
      (spelled ex_members -> (forall k n', hb_nodes w' !! k = Some n' -> cn_ClusterName (hn_Node n') = "c1" ->
         ClusterNode_IsGateway (hn_Node n') = bool_decide (cn_NodeName (hn_Node n') = "b")) /\ to_write elements "b" "c1" (hb_nodes w') = [])).
Proof.
  split; [exact ex_members_named|]. split; [by vm_compute|].
  apply (gateway_elected (fun _ => None) elements "b" "c1" (fun s => reflexivity (elements s)) ex_members ex_members_named).
Defined.

Lemma nodes_mirrored_witness : named ex_members /\
  runs (do! _ := handle_keys (fun _ => None) "c1" ["a"; "b"; "new"] in CleanOrphan (fun _ => None) "c1") ex_members (fun _ => False) (fun _ w' =>
    hb_clusters w' = hb_clusters ex_members /\ hb_hosts w' = hb_hosts ex_members /\
    (forall h, h ∈ ["a"; "b"; "new"] -> hb_nodes w' !! ClusterNodeName "c1" h = mirrored "c1" ex_members h) /\
    (forall k n, hb_nodes w' !! k = Some n -> of_cluster "c1" n = true -> is_Some (hb_hosts ex_members !! cn_NodeName (hn_Node n))) /\
    (forall k n, hb_nodes ex_members !! k = Some n -> (forall h, h ∈ ["a"; "b"; "new"] -> k <> ClusterNodeName "c1" h) -> of_cluster "c1" n = false ->
      hb_nodes w' !! k = Some n)).
Proof.
  split; [exact ex_members_named|].
  apply (nodes_mirrored (fun _ => None) "c1" ["a"; "b"; "new"] ex_members); [reflexivity|exact ex_members_named].
Defined.

(** A role with a capital letter counts as the gateway's and is not removed: two gateways. *)
Example misspelled_gateway_stays :
  let w' := fst (EnsureGateWayRole (fun _ => None) elements "b" "c1" (ex_hub [ex_hub_node "c1" "a" ["Gateway"]; ex_hub_node "c1" "b" []] [])) in
  roles_at w' "c1-a" = Some ["Gateway"] /\ roles_at w' "c1-b" = Some ["gateway"].
Proof. by vm_compute. Qed.

(** Clusters "a" and "a-b" share the name of a ClusterNode: one takes over the other's. *)
Example name_taken_over :
  let w := ex_hub [ex_hub_node "a" "b-c" ["gateway"]] [ex_host "c" false] in
  let w' := fst (Node_Reconcile (fun _ => None) "a-b" "c" w) in
  (cn_ClusterName ∘ hn_Node <$> (hb_nodes w' !! "a-b-c"), map_of ∘ hn_Labels <$> (hb_nodes w' !! "a-b-c")) = (Some "a-b", Some {[ clusterLabel := "a" ]}).
Proof. by vm_compute. Qed.

(** The deletion of a ClusterNode that fails is not tried again for the node. *)
Example node_deletion_lost :
  let out := Node_Reconcile (fun n => if n =? 1 then Some (Fails "timeout") else None) "c1" "gone" ex_members in
  snd out = Good NodeDone /\ roles_at (fst out) "c1-gone" = Some [].
Proof. by vm_compute. Qed.
