(* ===== verification/HubPoolNames.v ===== *)
(** The names of the IP pools of other clusters
(clusterlink/controllers/calicoippool/manifests.go, calicoippool_controller.go): how a pool
is named and how its cluster and type are read back from the name. *)
From S2P Require Import Prelude GoStr.

Definition ExternalIPPoolNamePrefix : string := "clusterlink".
Definition SERVICEIPType : string := "service".
Definition PODIPType : string := "pod".

(** [strings.LastIndex]: the last position of [sub], [None] for -1. *)
Fixpoint LastIndex (s sub : string) : option nat :=
  match s with
  | EmptyString => if HasPrefix s sub then Some 0 else None
  | String _ s' =>
      match LastIndex s' sub with
      | Some i => Some (S i)
      | None => if HasPrefix s sub then Some 0 else None
      end
  end.

Definition genCalicoIPPoolName (cluster ipType ip : string) : string :=
  let suffix := Replace "." "-" ip in
  let suffix := Replace ":" "-" suffix in
  let suffix := Replace "/" "-" suffix in
  ExternalIPPoolNamePrefix +:+ "-" +:+ cluster +:+ "-" +:+ ipType +:+ "-" +:+ suffix.

Definition getIPType (name : string) : string := if Contains_str name "service" then SERVICEIPType else PODIPType.

(** [end] is the position less one: negative when there is none or it is the first. *)
Definition getClusterName (name ipType : string) : outcome string :=
  let start := String.length ExternalIPPoolNamePrefix + 1 in
  match LastIndex name ipType with
  | None | Some 0 => Ret ""
  | Some (S end_) => slice name start end_
  end.

(** * Reading a name back *)

(** [c] does not occur in [s]. *)
Fixpoint without (c : ascii) (s : string) : bool :=
  match s with EmptyString => true | String d s' => negb (bool_decide (c = d)) && without c s' end.

Lemma HasPrefix_sep c : forall a b sub, without c sub = true -> HasPrefix (a +:+ String c b) sub = HasPrefix a sub.
Proof.
  intros a b sub. revert a. induction sub as [|d sub IH]; intros a Hs; [by destruct a|]. simpl in Hs. apply andb_true_iff in Hs as [Hd Hs].
  apply negb_true_iff, bool_decide_eq_false in Hd. destruct a as [|e a]; simpl.
  - rewrite bool_decide_eq_false_2; [done|]. congruence.
  - by rewrite IH.
Qed.

(** A separator that does not occur in what is looked for splits the search. *)
Lemma Contains_sep c sub : without c sub = true -> sub <> "" -> forall a b,
  Contains_str (a +:+ String c b) sub = Contains_str a sub || Contains_str b sub.
Proof.
  intros Hs Hne a b. induction a as [|d a IH].
  - change ("" +:+ String c b) with (String c b). simpl. destruct sub as [|e sub]; [done|]. simpl in Hs |- *.
    apply andb_true_iff in Hs as [Hd _]. apply negb_true_iff, bool_decide_eq_false in Hd. rewrite bool_decide_eq_false_2 by congruence. done.
  - change (String d a +:+ String c b) with (String d (a +:+ String c b)). cbn [Contains_str]. rewrite IH.
    change (String d (a +:+ String c b)) with (String d a +:+ String c b). rewrite HasPrefix_sep by done. apply orb_assoc.
Qed.

Lemma LastIndex_None s sub : Contains_str s sub = false -> LastIndex s sub = None.
Proof.
  induction s as [|c s IH]; simpl; intros H; apply orb_false_iff in H as [H1 H2]; [by rewrite H1|]. by rewrite (IH H2), H1.
Qed.

Lemma LastIndex_app a s sub i : LastIndex s sub = Some i -> LastIndex (a +:+ s) sub = Some (String.length a + i).
Proof. intros H. induction a as [|c a IH]; [done|]. change (String c a +:+ s) with (String c (a +:+ s)). simpl. by rewrite IH. Qed.

(** The type between its dashes, when it does not occur after them. *)
Lemma LastIndex_type t b : t = PODIPType \/ t = SERVICEIPType -> Contains_str b t = false -> LastIndex (t +:+ "-" +:+ b) t = Some 0.
Proof.
  intros Ht Hb. assert (H : exists c t', t = String c t' /\ without "-" t = true /\ Contains_str t' t = false) by (destruct Ht as [-> | ->]; by eexists _, _).
  destruct H as (c & t' & -> & Hw & Ht'). clear Ht. pose proof (HasPrefix_app (String c t') ("-" +:+ b)) as Hp.
  change (String c t' +:+ "-" +:+ b) with (String c (t' +:+ String "-" b)) in *. cbn [LastIndex].
  rewrite LastIndex_None, Hp; [done|]. by rewrite Contains_sep, Ht', Hb.
Qed.

Lemma slice_middle a b c : slice (a +:+ b +:+ c) (String.length a) (String.length a + String.length b) = Ret b.
Proof.
  unfold slice. rewrite !str_length_app. destruct (Nat.leb_spec (String.length a) (String.length a + String.length b)); [|lia].
  destruct (Nat.leb_spec (String.length a + String.length b) (String.length a + (String.length b + String.length c))); [|lia]. simpl.
  rewrite str_drop_app. replace (String.length a + String.length b - String.length a) with (String.length b) by lia. by rewrite str_take_app.
Qed.

(** The part of a name after the type. *)
Definition pool_suffix (ip : string) : string := Replace "/" "-" (Replace ":" "-" (Replace "." "-" ip)).

Lemma name_shape cluster t ip : genCalicoIPPoolName cluster t ip = "clusterlink-" +:+ cluster +:+ "-" +:+ (t +:+ "-" +:+ pool_suffix ip).
Proof. done. Qed.

Lemma getClusterName_gen cluster t ip : t = PODIPType \/ t = SERVICEIPType -> Contains_str (pool_suffix ip) t = false ->
  getClusterName (genCalicoIPPoolName cluster t ip) t = Ret cluster.
Proof.
  intros Ht Hs. rewrite name_shape. unfold getClusterName.
  assert (E : "clusterlink-" +:+ cluster +:+ "-" +:+ (t +:+ "-" +:+ pool_suffix ip) = (("clusterlink-" +:+ cluster) +:+ "-") +:+ (t +:+ "-" +:+ pool_suffix ip)) by (by rewrite !str_app_assoc).
  assert (L : LastIndex ("clusterlink-" +:+ cluster +:+ "-" +:+ (t +:+ "-" +:+ pool_suffix ip)) t = Some (S (12 + String.length cluster))).
  { rewrite E, (LastIndex_app _ _ _ 0 (LastIndex_type t _ Ht Hs)), !str_length_app. f_equal. change (String.length "clusterlink-") with 12. change (String.length "-") with 1. lia. }
  rewrite L. apply (slice_middle "clusterlink-" cluster).
Qed.

(** What the names of the clusters and pools must not contain. *)
Definition readable (cluster t ip : string) : Prop :=
  (t = SERVICEIPType \/ t = PODIPType /\ Contains_str cluster "service" = false /\ Contains_str (pool_suffix ip) "service" = false) /\
  Contains_str (pool_suffix ip) t = false.

Lemma getIPType_gen cluster t ip : readable cluster t ip -> getIPType (genCalicoIPPoolName cluster t ip) = t.
Proof.
  intros [Ht _]. rewrite name_shape. unfold getIPType.
  assert (Hw : without "-" "service" = true) by done. assert (Hne : "service" <> "") by done.
  assert (E : Contains_str ("clusterlink-" +:+ cluster +:+ "-" +:+ (t +:+ "-" +:+ pool_suffix ip)) "service" =
    (Contains_str cluster "service" || (Contains_str t "service" || Contains_str (pool_suffix ip) "service"))).
  { change ("clusterlink-" +:+ cluster +:+ "-" +:+ (t +:+ "-" +:+ pool_suffix ip)) with ("clusterlink" +:+ String "-" (cluster +:+ String "-" (t +:+ String "-" (pool_suffix ip)))).
    by rewrite !(Contains_sep "-" "service" Hw Hne). }
  rewrite E. destruct Ht as [-> |(-> & -> & ->)]; [|done]. change (Contains_str SERVICEIPType "service") with true. by rewrite orb_true_r.
Qed.

Lemma name_read_back cluster t ip : readable cluster t ip -> let name := genCalicoIPPoolName cluster t ip in
  HasPrefix name ExternalIPPoolNamePrefix = true /\ getIPType name = t /\ getClusterName name t = Ret cluster.
Proof.
  intros Hr name. split; [apply HasPrefix_app|]. split; [by apply getIPType_gen|]. destruct Hr as [Ht Hs].
  apply getClusterName_gen; [|done]. destruct Ht as [?|[? _]]; auto.
Qed.

(** A pool's name (manifests.go) read back by getIPType and getClusterName
(calicoippool_controller.go) gives its type and its cluster, when the name of the cluster of a
pod pool does not contain "service" and the address neither type. *)
Theorem pool_name_read_back cluster t ip : readable cluster t ip -> let name := genCalicoIPPoolName cluster t ip in
  HasPrefix name ExternalIPPoolNamePrefix = true /\ getIPType name = t /\ getClusterName name (getIPType name) = Ret cluster.
Proof. intros Hr name. destruct (name_read_back _ _ _ Hr) as (H1 & H2 & H3). fold name in H2, H3. by rewrite H2. Qed.

Lemma pool_name_read_back_witness : readable "member-1" "pod" "fd00:10::/56" /\
  let name := genCalicoIPPoolName "member-1" "pod" "fd00:10::/56" in
  name = "clusterlink-member-1-pod-fd00-10---56" /\
  HasPrefix name ExternalIPPoolNamePrefix = true /\ getIPType name = "pod" /\ getClusterName name (getIPType name) = Ret "member-1".
Proof.
  assert (H : readable "member-1" "pod" "fd00:10::/56") by (split; [right|]; by vm_compute). split; [exact H|]. split; [by vm_compute|].
  exact (pool_name_read_back "member-1" "pod" "fd00:10::/56" H).
Defined.

(** The name of a cluster that contains "service" makes its pod pools service pools of no cluster. *)
Example service_cluster_misread : let name := genCalicoIPPoolName "my-service" "pod" "10.0.0.0/8" in
  getIPType name = "service" /\ getClusterName name (getIPType name) = Ret "my".
Proof. by vm_compute. Qed.

(** A pool with the prefix but no cluster in its name makes the listing panic. *)
Example pool_name_panics : getClusterName "clusterlink-pod" (getIPType "clusterlink-pod") = Panic.
Proof. by vm_compute. Qed.
