(* ===== verification/HubPools.v ===== *)
(** The IP pools of other clusters in a Calico cluster:
clusterlink/controllers/calicoippool/calicoippool_controller.go, utils/calico.go.

A [PoolHost] is the controller with its cluster: the pools in the Kubernetes API and in
Calico's etcd, the set of pools of all clusters the controller keeps (a Go map that
[syncIPPool] changes in place), and the client it chose. *)
From S2P Require Import Prelude GoStr GoNet LinkApi LinkVxlan PodApi PodProg Calls Tables HubNodes HubPoolNames.

(** * Objects *)

(** Values of unstructured objects. *)
Inductive uvalue := UString (s : string) | UMap (fields : list (string * uvalue)) | UOther (v : opaque).
Abbreviation uobject := (list (string * uvalue)).

Fixpoint ufield (k : string) (fields : uobject) : option uvalue :=
  match fields with [] => None | (k', v) :: rest => if k' =s k then Some v else ufield k rest end.

(** [utils.GetCIDRs] *)
Definition GetCIDRs (obj : uobject) : string :=
  match ufield "spec" obj with
  | Some (UMap spec) => match ufield "cidr" spec with Some (UString cidr) => cidr | _ => "" end
  | _ => ""
  end.

(** [calicoapi.IPPool]; [et_Version] is the resource version, empty in a new object. *)
Record EtcdPool := mkEtcdPool { et_Version : string; et_CIDR : string; et_Disabled : bool; et_Rest : opaque }.

Record ExternalClusterIPPool := mkExtPool { eip_cluster : string; eip_ipType : string; eip_ipPool : string }.
#[export] Instance ExternalClusterIPPool_eq_dec : EqDecision ExternalClusterIPPool. Proof. solve_decision. Defined.
#[export] Program Instance ExternalClusterIPPool_countable : Countable ExternalClusterIPPool :=
  inj_countable (fun p => (eip_cluster p, eip_ipType p, eip_ipPool p)) (fun x => Some (mkExtPool (fst (fst x)) (snd (fst x)) (snd x))) _.
Next Obligation. by intros []. Qed.

Definition pool_name (p : ExternalClusterIPPool) : string := genCalicoIPPoolName (eip_cluster p) (eip_ipType p) (eip_ipPool p).

(** * The controller and its cluster *)

Inductive backend := KubernetesBackend | EtcdBackend.

Record PoolHost := mkPoolHost {
  ph_calls : nat; ph_kube : gmap string uobject; ph_etcd : gmap string EtcdPool;
  ph_global : gset ExternalClusterIPPool; ph_client : option backend }.

Definition pool_tick (w : PoolHost) : PoolHost := mkPoolHost (S (ph_calls w)) (ph_kube w) (ph_etcd w) (ph_global w) (ph_client w).
#[export] Instance PoolHost_server : Server PoolHost := mkServer _ ph_calls pool_tick.
Abbreviation PM := (Calls.M PoolHost apierr).

Definition kube_pools : Table PoolHost string uobject := mkTable PoolHost string _ _ _ ph_kube
  (fun m w => mkPoolHost (ph_calls w) m (ph_etcd w) (ph_global w) (ph_client w)) (fun w => mkPoolHost 0 ∅ (ph_etcd w) (ph_global w) (ph_client w)).
Definition etcd_pools : Table PoolHost string EtcdPool := mkTable PoolHost string _ _ _ ph_etcd
  (fun m w => mkPoolHost (ph_calls w) (ph_kube w) m (ph_global w) (ph_client w)) (fun w => mkPoolHost 0 (ph_kube w) ∅ (ph_global w) (ph_client w)).
#[export] Instance kube_pools_laws : TableLaws kube_pools. Proof. by split. Qed.
#[export] Instance etcd_pools_laws : TableLaws etcd_pools. Proof. by split. Qed.

Definition set_global (g : gset ExternalClusterIPPool) (w : PoolHost) : PoolHost := mkPoolHost (ph_calls w) (ph_kube w) (ph_etcd w) g (ph_client w).
Definition set_client (c : option backend) (w : PoolHost) : PoolHost := mkPoolHost (ph_calls w) (ph_kube w) (ph_etcd w) (ph_global w) c.

Definition pool_peek {A} (f : PoolHost -> A) : PM A := fun w => (w, Good (f w)).
Definition pool_poke (f : PoolHost -> PoolHost) : PM unit := fun w => (f w, Good tt).
Definition from_outcome {A} (o : outcome A) : PM A := match o with Ret a => mok a | Panic => mfault end.

(** The interface [IPPoolClient]. *)
Record IPPoolClient := mkPoolClient {
  CreateOrUpdateCalicoIPPool : list ExternalClusterIPPool -> PM unit;
  DeleteIPPool : list ExternalClusterIPPool -> PM unit;
  ListIPPools : PM (list ExternalClusterIPPool * list string) }.

(** [errors.NewAggregate] unless there is none. *)
Definition pool_errors (errs : list apierr) : PM unit := if 0 <? length errs then merr (OtherError "aggregate") else mok tt.

Section backends.
  Context (faults : nat -> option fault).

(** ** KubernetesBackend *)

(** The template rendered and decoded: the object, or the errors of the two steps. *)
Context (decode : string -> string -> uobject + list apierr).

(** An object without a name, as a failed decoding leaves it: the server rejects it. *)
Definition create_unnamed : PM unit := Calls.call (oracle faults) (fun w => (w, Bad (OtherError "resource name may not be empty"))).

Fixpoint kube_create (ipPools : list ExternalClusterIPPool) (errs : list apierr) : PM unit :=
  match ipPools with
  | [] => pool_errors errs
  | ipPool :: rest =>
      let name := pool_name ipPool in
      match decode name (eip_ipPool ipPool) with
      | inr bad => mtry create_unnamed (fun _ => kube_create rest (errs ++ bad)) (fun err => kube_create rest (errs ++ bad ++ [err]))
      | inl ipPoolObj =>
          mtry (Create faults kube_pools name ipPoolObj)
            (fun _ => mtry (Get faults kube_pools name)
              (fun _ => mtry (Update faults kube_pools name ipPoolObj) (fun _ => kube_create rest errs) (fun err => kube_create rest (errs ++ [err])))
              (fun err => kube_create rest (errs ++ [err])))
            (fun err => match err with IsAlreadyExists _ => kube_create rest errs | _ => kube_create rest (errs ++ [err]) end)
      end
  end.

Fixpoint kube_delete (ipPools : list ExternalClusterIPPool) (errs : list apierr) : PM unit :=
  match ipPools with
  | [] => pool_errors errs
  | ipPool :: rest =>
      mtry (Delete faults kube_pools (pool_name ipPool)) (fun _ => kube_delete rest errs)
        (fun err => match err with IsNotFound _ => kube_delete rest errs | _ => kube_delete rest (errs ++ [err]) end)
  end.

(** One listed pool: a pool of another cluster, or the CIDR of one of this cluster. *)
Definition kube_classify (kv : string * uobject) : outcome (ExternalClusterIPPool + string) :=
  let '(name, obj) := kv in
  let ipType := getIPType name in
  let cidr := GetCIDRs obj in
  if HasPrefix name ExternalIPPoolNamePrefix then
    match getClusterName name ipType with Ret clusterName => Ret (inl (mkExtPool clusterName ipType cidr)) | Panic => Panic end
  else Ret (inr cidr).

Fixpoint split_pools {A} (classify : A -> outcome (ExternalClusterIPPool + string)) (l : list A) : outcome (list ExternalClusterIPPool * list string) :=
  match l with
  | [] => Ret ([], [])
  | a :: rest =>
      match classify a with
      | Panic => Panic
      | Ret r =>
          match split_pools classify rest with
          | Panic => Panic
          | Ret (ext, pools) => Ret (match r with inl e => (e :: ext, pools) | inr cidr => (ext, cidr :: pools) end)
          end
      end
  end.

Definition kube_list : PM (list ExternalClusterIPPool * list string) :=
  do! items := Calls.call (oracle faults) (fun w => (w, Good (map_to_list (rows kube_pools w)))) in from_outcome (split_pools kube_classify items).

Definition kube_client : IPPoolClient := mkPoolClient (fun l => kube_create l []) (fun l => kube_delete l []) kube_list.

(** ** EtcdBackend *)

Definition new_etcd_pool (p : ExternalClusterIPPool) : EtcdPool := mkEtcdPool "" (eip_ipPool p) true "natOutgoing: false, disableBGPExport: true".
Definition stored_pool (p : EtcdPool) : EtcdPool := mkEtcdPool "1" (et_CIDR p) (et_Disabled p) (et_Rest p).

(** Calico's client rejects an update without a resource version. *)
Definition EtcdUpdate (name : string) (pool : EtcdPool) : PM unit :=
  if str_empty (et_Version pool) then Calls.call (oracle faults) (fun w => (w, Bad (OtherError "field must be set for an Update request")))
  else Update faults etcd_pools name pool.

Fixpoint etcd_create (ipPools : list ExternalClusterIPPool) (errs : list apierr) : PM unit :=
  match ipPools with
  | [] => pool_errors errs
  | ipPool :: rest =>
      let pool := new_etcd_pool ipPool in
      let go m := mtry m (fun _ => etcd_create rest errs) (fun err => etcd_create rest (errs ++ [err])) in
      mtry (Get faults etcd_pools (pool_name ipPool)) (fun p => go (EtcdUpdate (pool_name ipPool) pool))
        (fun err => go (Create faults etcd_pools (pool_name ipPool) (stored_pool pool)))
  end.

(** Only the error that the pool does not exist counts. *)
Fixpoint etcd_delete (ipPools : list ExternalClusterIPPool) (errs : list apierr) : PM unit :=
  match ipPools with
  | [] => pool_errors errs
  | ipPool :: rest =>
      mtry (Delete faults etcd_pools (pool_name ipPool)) (fun _ => etcd_delete rest errs)
        (fun err => match err with IsNotFound _ => etcd_delete rest (errs ++ [err]) | _ => etcd_delete rest errs end)
  end.

(** The arguments of [HasPrefix] are swapped. *)
Definition etcd_classify (kv : string * EtcdPool) : outcome (ExternalClusterIPPool + string) :=
  let '(name, ippool) := kv in
  if HasPrefix ExternalIPPoolNamePrefix name then
    let ipType := getIPType name in
    match getClusterName name ipType with Ret clusterName => Ret (inl (mkExtPool clusterName ipType (et_CIDR ippool))) | Panic => Panic end
  else Ret (inr (et_CIDR ippool)).

Definition etcd_list : PM (list ExternalClusterIPPool * list string) :=
  do! items := Calls.call (oracle faults) (fun w => (w, Good (map_to_list (rows etcd_pools w)))) in from_outcome (split_pools etcd_classify items).

Definition etcd_client : IPPoolClient := mkPoolClient (fun l => etcd_create l []) (fun l => etcd_delete l []) etcd_list.

Definition client_of (b : backend) : IPPoolClient := match b with KubernetesBackend => kube_client | EtcdBackend => etcd_client end.

End backends.

(** * syncIPPool *)

Section sync.
  Context (client : IPPoolClient) (currentClusterName : string).

(** Both branches call [net.Intersect]. *)
Definition intersection (cidr1 cidr2 : string) : bool :=
  if IsIPv6 cidr1 && IsIPv6 cidr2 then Intersect cidr1 cidr2 else Intersect cidr1 cidr2.

(** The global set without the pools of other clusters that intersect one of this cluster. *)
Definition drop_intersecting (ippools : list string) (global : gset ExternalClusterIPPool) : gset ExternalClusterIPPool :=
  filter (fun g => eip_cluster g = currentClusterName \/ any (fun p => intersection (eip_ipPool g) p) ippools = false) global.

Definition syncIPPool : PM unit :=
  do! '(extIPPools, ippools) := ListIPPools client in
  do! _ := pool_poke (fun w => set_global (drop_intersecting ippools (ph_global w)) w) in
  do! global := pool_peek ph_global in
  let modifyIPPool := List.filter (fun pool => negb (eip_cluster pool =s currentClusterName)) (elements global) in
  let deleteIPPool := List.filter (fun pool => negb (bool_decide (pool ∈ global))) extIPPools in
  do! _ := DeleteIPPool client deleteIPPool in
  CreateOrUpdateCalicoIPPool client modifyIPPool.

End sync.

(** * The controller *)

Definition DataStoreType : string := "datastoreType".
Definition EtcdV3 : string := "etcdv3".
Definition CNITypeCalico : string := "calico".

Definition CheckIsEtcd (cluster : HubCluster) : bool := get (map_of (hc_Annotations cluster)) DataStoreType =s EtcdV3.

Section pool_controller.
  Context (faults : nat -> option fault) (decode : string -> string -> uobject + list apierr).
  (** [helper.GetCalicoClient]: the error of a cluster, if any. *)
  Context (GetCalicoClient : HubCluster -> option apierr).
  Context (clusterName : string) (clusters : gmap string HubCluster).

Definition createIPPoolClient (cluster : HubCluster) : PM backend :=
  if CheckIsEtcd cluster then match GetCalicoClient cluster with Some err => merr err | None => mok EtcdBackend end
  else mok KubernetesBackend.

Definition options_of (cluster : HubCluster) : PM ClusterLinkOptions := from_outcome (deref (c_ClusterLinkOptions (hc_Cluster cluster))).

Definition getCIDR (cidrMap : gmap string string) (cidr : string) : string := default cidr (cidrMap !! cidr).

Definition without_cluster (name : string) (global : gset ExternalClusterIPPool) : gset ExternalClusterIPPool :=
  filter (fun p => eip_cluster p <> name) global.

Definition pools_of (name ipType : string) (cidrMap : gmap string string) (cidrs : list string) : gset ExternalClusterIPPool :=
  list_to_set (map (fun cidr => mkExtPool name ipType (getCIDR cidrMap cidr)) cidrs).

(** The part of [Reconcile] that brings the set up to date. *)
Definition collect_pools (cluster : HubCluster) : PM unit :=
  let c := hc_Cluster cluster in
  do! _ := pool_poke (fun w => set_global (without_cluster (c_Name c) (ph_global w)) w) in
  do! options := options_of cluster in
  let cidrMap := lo_GlobalCIDRsMap options in
  do! _ := pool_poke (fun w => set_global (ph_global w ∪ pools_of (c_Name c) PODIPType cidrMap (c_PodCIDRs c)) w) in
  pool_poke (fun w => set_global (ph_global w ∪ pools_of (c_Name c) SERVICEIPType cidrMap (c_ServiceCIDRs c)) w).

Definition ensure_client (cluster : HubCluster) : PM unit :=
  do! client := pool_peek ph_client in
  match client with
  | Some _ => mok tt
  | None =>
      if c_Name (hc_Cluster cluster) =s clusterName
      then do! b := createIPPoolClient cluster in pool_poke (set_client (Some b)) else mok tt
  end.

(** The key is [None] when it is not a [ClusterWideKey]; the lister shows [clusters]. *)
Definition Pool_Reconcile (key : option string) : PM unit :=
  match key with
  | None => merr (OtherError "invalid key")
  | Some name =>
      match clusters !! name with
      | None => mok tt
      | Some cluster =>
          do! skip := (if c_Name (hc_Cluster cluster) =s clusterName
                       then do! options := options_of cluster in mok (negb (lo_CNI options =s CNITypeCalico)) else mok false) in
          if skip : bool then mok tt
          else
            do! _ := collect_pools cluster in
            do! _ := ensure_client cluster in
            do! client := pool_peek ph_client in
            match client with Some b => syncIPPool (client_of faults decode b) clusterName | None => mok tt end
      end
  end.

Definition Pool_CleanResource : PM unit :=
  do! client := pool_peek ph_client in
  do! _ := match client with
    | Some _ => mok tt
    | None =>
        do! cluster := Calls.call (oracle faults) (fun w => (w, match clusters !! clusterName with Some c => Good c | None => Bad (IsNotFound "not found") end)) in
        do! b := createIPPoolClient cluster in pool_poke (set_client (Some b))
    end in
  do! _ := pool_poke (set_global ∅) in
  do! client := pool_peek ph_client in
  match client with Some b => syncIPPool (client_of faults decode b) clusterName | None => mfault end.

End pool_controller.

(** * What a client promises *)

(** A client of pools: the stored pools of other clusters as a set, the set of the CIDRs
of the cluster's own pools, the stores it works on and the sets that can be stored together. The
operations change only the former, and fail only when a call fails. *)
Class PoolClient (faults : nat -> option fault) (client : IPPoolClient) := {
  pl_wf : PoolHost -> Prop;
  pl_ext : PoolHost -> gset ExternalClusterIPPool;
  pl_local : PoolHost -> gset string;
  pl_storable : gset ExternalClusterIPPool -> Prop;
  pl_kept (w w' : PoolHost) : Prop := pl_wf w' /\ pl_local w' = pl_local w /\ ph_global w' = ph_global w /\ ph_client w' = ph_client w;
  pl_global : forall g w, pl_wf w -> pl_wf (set_global g w) /\ pl_ext (set_global g w) = pl_ext w /\ pl_local (set_global g w) = pl_local w;
  pl_storable_sub : forall s s', s ⊆ s' -> pl_storable s' -> pl_storable s;
  pl_list : forall w, pl_wf w -> runs (ListIPPools client) w (fun w' => faulty faults /\ pl_kept w w')
    (fun r w' => pl_kept w w' /\ pl_ext w' = pl_ext w /\ list_to_set (fst r) = pl_ext w /\ list_to_set (snd r) = pl_local w);
  pl_delete : forall l w, pl_wf w -> list_to_set l ⊆ pl_ext w -> runs (DeleteIPPool client l) w (fun w' => faulty faults /\ pl_kept w w')
    (fun _ w' => pl_kept w w' /\ pl_ext w' = pl_ext w ∖ list_to_set l);
  pl_create : forall l w, pl_wf w -> pl_storable (pl_ext w ∪ list_to_set l) -> runs (CreateOrUpdateCalicoIPPool client l) w (fun w' => faulty faults /\ pl_kept w w')
    (fun _ w' => pl_kept w w' /\ pl_ext w' = pl_ext w ∪ list_to_set l) }.

Lemma elements_filter_set (p : ExternalClusterIPPool -> bool) (s : gset ExternalClusterIPPool) :
  (list_to_set (List.filter p (elements s)) : gset _) = filter (fun x => p x = true) s.
Proof.
  apply set_eq. intros x. rewrite elem_of_list_to_set, elem_of_filter, list_elem_of_In, filter_In, <- list_elem_of_In, elem_of_elements. tauto.
Qed.

Lemma drop_intersecting_ext current l1 l2 global : (forall x, x ∈ l1 <-> x ∈ l2) -> drop_intersecting current l1 global = drop_intersecting current l2 global.
Proof.
  intros Hl. apply set_eq. intros g. unfold drop_intersecting. rewrite !elem_of_filter. 
  assert (E : any (fun p => intersection (eip_ipPool g) p) l1 = any (fun p => intersection (eip_ipPool g) p) l2); [|by rewrite E].
  apply eq_true_iff_eq. rewrite !any_true. by setoid_rewrite Hl.
Qed.

Section sync_facts.
  Context (faults : nat -> option fault) (client : IPPoolClient) `{PC : !PoolClient faults client} (currentClusterName : string).

(** The pools of other clusters that a cluster should have: those of the set, and of those
of its own name in the set the ones that are there. *)
Definition synced_pools (global ext : gset ExternalClusterIPPool) : gset ExternalClusterIPPool :=
  filter (fun g => eip_cluster g <> currentClusterName) global ∪ (ext ∩ global).

Lemma kept_trans w w1 w2 : pl_kept w w1 -> pl_kept w1 w2 -> pl_kept w w2.
Proof. intros (H1 & H2 & H3 & H4) (H5 & H6 & H7 & H8). repeat split; [done|congruence..]. Qed.

Lemma pool_sync_spec w : pl_wf w -> pl_storable (ph_global w) ->
  let global := drop_intersecting currentClusterName (elements (pl_local w)) (ph_global w) in
  runs (syncIPPool client currentClusterName) w
    (fun w' => faulty faults /\ pl_wf w' /\ pl_local w' = pl_local w /\ ph_client w' = ph_client w)
    (fun _ w' => pl_wf w' /\ pl_local w' = pl_local w /\ ph_client w' = ph_client w /\ ph_global w' = global /\ pl_ext w' = synced_pools global (pl_ext w)).
Proof.
  intros Hw Hs global. unfold syncIPPool. apply runs_seq.
  eapply runs_mono; [apply (pl_list w Hw)|intros w' [Hf (?&?&?&?)]; by repeat split|].
  intros [ext pools] w1 (Hk1 & He1 & Hext & Hp). simpl in Hext, Hp. destruct Hk1 as (Hw1 & Hl1 & Hg1 & Hc1).
  apply runs_seq. unfold pool_poke, runs at 1. apply runs_seq. unfold pool_peek, runs at 1. cbn [ph_global set_global].
  rewrite Hg1, (drop_intersecting_ext _ _ (elements (pl_local w))) by (intros x; rewrite elem_of_elements, <- Hp, elem_of_list_to_set; done).
  fold global. set (w2 := set_global global w1).
  destruct (pl_global global w1 Hw1) as (Hw2 & He2 & Hl2). fold w2 in Hw2, He2, Hl2. assert (Hc2 : ph_client w2 = ph_client w1) by done.
  set (del := List.filter (fun pool => negb (bool_decide (pool ∈ global))) ext).
  assert (Hdel : forall x, x ∈ (list_to_set del : gset ExternalClusterIPPool) <-> x ∈ pl_ext w /\ x ∉ global).
  { intros x. unfold del. rewrite elem_of_list_to_set, list_elem_of_In, filter_In, <- list_elem_of_In, <- Hext, elem_of_list_to_set.
    rewrite negb_true_iff, bool_decide_eq_false. done. }
  apply runs_seq. eapply runs_mono; [apply (pl_delete del w2 Hw2)|intros w' [Hf (?&?&?&?)]; repeat split; [done|done|congruence|congruence]|].
  { intros x Hx. apply Hdel in Hx as [Hx _]. by rewrite He2, He1. }
  intros u w3 [(Hw3 & Hl3 & Hg3 & Hc3) He3]. rewrite He2, He1 in He3.
  assert (Hglob : ph_global w3 = global) by (by rewrite Hg3).
  set (new := List.filter (fun pool => negb (eip_cluster pool =s currentClusterName)) (elements global)).
  assert (Hnew : (list_to_set new : gset ExternalClusterIPPool) = filter (fun g => eip_cluster g <> currentClusterName) global).
  { unfold new. rewrite elements_filter_set. apply set_eq. intros x. rewrite !elem_of_filter, negb_true_iff, bool_decide_eq_false. done. }
  assert (Hsub : pl_ext w3 ∪ list_to_set new ⊆ ph_global w).
  { intros x. rewrite He3, Hnew, elem_of_union, elem_of_difference, elem_of_filter, Hdel. intros [[Hx Hn]|[_ Hx]].
    - destruct (decide (x ∈ global)) as [Hg|Hg]; [|destruct Hn; by split]. by apply elem_of_filter in Hg as [_ Hg].
    - by apply elem_of_filter in Hx as [_ Hx]. }
  eapply runs_mono; [apply (pl_create new w3 Hw3); by eapply pl_storable_sub|intros w' [Hf (?&?&?&?)]; repeat split; [done|done|congruence|congruence]|].
  intros u' w' [(Hw' & Hl' & Hg' & Hc') He']. repeat split; [done|congruence|congruence|congruence|]. rewrite He', He3, Hnew. unfold synced_pools.
  apply set_eq. intros x. rewrite !elem_of_union, elem_of_difference, elem_of_intersection, Hdel. destruct (decide (x ∈ global)); tauto.
Qed.

End sync_facts.

(** * The Kubernetes client keeps the promise *)

Abbreviation pool_readable p := (readable (eip_cluster p) (eip_ipType p) (eip_ipPool p)).

Lemma classify_own p obj : pool_readable p -> GetCIDRs obj = eip_ipPool p -> kube_classify (pool_name p, obj) = Ret (inl p).
Proof.
  intros Hr Ho. destruct (name_read_back _ _ _ Hr) as (H1 & H2 & H3). unfold kube_classify. fold (pool_name p) in H1, H2, H3. rewrite H1, H2, H3, Ho. by destruct p.
Qed.

Lemma classify_local name obj : HasPrefix name ExternalIPPoolNamePrefix = false -> kube_classify (name, obj) = Ret (inr (GetCIDRs obj)).
Proof. intros H. unfold kube_classify. by rewrite H. Qed.

Section kube.
  Context (faults : nat -> option fault) (decode : string -> string -> uobject + list apierr).

(** Every pool with the prefix has the name the controller gives it. *)
Definition kube_wf (w : PoolHost) : Prop := forall name obj, ph_kube w !! name = Some obj -> HasPrefix name ExternalIPPoolNamePrefix = true ->
  exists p, pool_readable p /\ name = pool_name p /\ GetCIDRs obj = eip_ipPool p.

Definition ext_pool (kv : string * uobject) : option ExternalClusterIPPool := match kube_classify kv with Ret (inl e) => Some e | _ => None end.
Definition local_pool (kv : string * uobject) : option string := match kube_classify kv with Ret (inr c) => Some c | _ => None end.

Definition kube_ext (w : PoolHost) : gset ExternalClusterIPPool := list_to_set (collect ext_pool (map_to_list (ph_kube w))).
Definition kube_local (w : PoolHost) : gset string := list_to_set (collect local_pool (map_to_list (ph_kube w))).

(** The pools have readable names, all different, and their manifests decode. *)
Definition kube_storable (s : gset ExternalClusterIPPool) : Prop :=
  (forall p, p ∈ s -> pool_readable p /\ exists obj, decode (pool_name p) (eip_ipPool p) = inl obj /\ GetCIDRs obj = eip_ipPool p) /\
  (forall p q, p ∈ s -> q ∈ s -> pool_name p = pool_name q -> p = q).

Lemma elem_of_collected {A B} `{Countable B} (f : string * A -> option B) (m : gmap string A) b :
  b ∈ (list_to_set (collect f (map_to_list m)) : gset B) <-> exists k v, m !! k = Some v /\ f (k, v) = Some b.
Proof.
  rewrite elem_of_list_to_set, elem_of_collect. split.
  - intros ([k v] & Hin & E). exists k, v. split; [|done]. by apply elem_of_map_to_list.
  - intros (k & v & Hk & E). exists (k, v). split; [|done]. by apply elem_of_map_to_list.
Qed.

Lemma kube_ext_elem w p : kube_wf w -> p ∈ kube_ext w <-> pool_readable p /\ exists obj, ph_kube w !! pool_name p = Some obj /\ GetCIDRs obj = eip_ipPool p.
Proof.
  intros Hw. unfold kube_ext. rewrite elem_of_collected. split.
  - intros (k & obj & Hk & E). unfold ext_pool in E. destruct (HasPrefix k ExternalIPPoolNamePrefix) eqn:Hp; [|by rewrite (classify_local _ _ Hp) in E].
    destruct (Hw _ _ Hk Hp) as (p' & Hr & -> & Ho). rewrite (classify_own _ _ Hr Ho) in E. injection E as ->. eauto.
  - intros (Hr & obj & Hk & Ho). exists (pool_name p), obj. split; [done|]. unfold ext_pool. by rewrite (classify_own _ _ Hr Ho).
Qed.

Lemma kube_local_elem w c : kube_wf w -> c ∈ kube_local w <-> exists name obj, ph_kube w !! name = Some obj /\ HasPrefix name ExternalIPPoolNamePrefix = false /\ GetCIDRs obj = c.
Proof.
  intros Hw. unfold kube_local. rewrite elem_of_collected. split; intros (k & obj & Hk & E); exists k, obj; (split; [done|]); unfold local_pool in *.
  - destruct (HasPrefix k ExternalIPPoolNamePrefix) eqn:Hp; [|by rewrite (classify_local _ _ Hp) in E; injection E as ->].
    destruct (Hw _ _ Hk Hp) as (p' & Hr & -> & Ho). by rewrite (classify_own _ _ Hr Ho) in E.
  - destruct E as [Hp <-]. by rewrite (classify_local _ _ Hp).
Qed.

Lemma split_pools_spec l : (forall kv, kv ∈ l -> kube_classify kv <> Panic) -> split_pools kube_classify l = Ret (collect ext_pool l, collect local_pool l).
Proof.
  induction l as [|kv l IH]; intros H; [done|]. simpl. rewrite IH by (intros kv' Hkv; apply H; by right). unfold ext_pool, local_pool.
  destruct (kube_classify kv) as [[e|c]|] eqn:E; simpl; [done..|]. destruct (H kv); [by left|done].
Qed.

Lemma kube_no_panic w kv : kube_wf w -> kv ∈ map_to_list (ph_kube w) -> kube_classify kv <> Panic.
Proof.
  intros Hw Hin. destruct kv as [k obj]. apply elem_of_map_to_list in Hin. destruct (HasPrefix k ExternalIPPoolNamePrefix) eqn:Hp.
  - destruct (Hw _ _ Hin Hp) as (p & Hr & -> & Ho). by rewrite (classify_own _ _ Hr Ho).
  - by rewrite (classify_local _ _ Hp).
Qed.

(** Changes of the store that leave the cluster's own pools alone. *)
Definition own_pools_kept (w w' : PoolHost) : Prop := rest_of kube_pools w' = rest_of kube_pools w /\
  forall k, HasPrefix k ExternalIPPoolNamePrefix = false -> ph_kube w' !! k = ph_kube w !! k.

Definition kube_kept (w w' : PoolHost) : Prop := kube_wf w' /\ kube_local w' = kube_local w /\ ph_global w' = ph_global w /\ ph_client w' = ph_client w.

Lemma own_kept w w' : kube_wf w -> kube_wf w' -> own_pools_kept w w' -> kube_kept w w'.
Proof.
  intros Hw Hw' [Hr Hk]. split; [done|]. split; [|destruct w, w'; unfold rest_of in Hr; simpl in *; by injection Hr as ?].
  apply set_eq. intros c. rewrite !kube_local_elem by done. split; intros (name & obj & H1 & H2 & H3); exists name, obj; (split; [|done]); [by rewrite <- Hk|by rewrite Hk].
Qed.

Lemma pool_name_prefix p : HasPrefix (pool_name p) ExternalIPPoolNamePrefix = true. Proof. apply HasPrefix_app. Qed.

(** Some of the pools named are gone. *)
Definition shrunk (names : list string) (w w' : PoolHost) : Prop := rest_of kube_pools w' = rest_of kube_pools w /\
  forall k, rows kube_pools w' !! k = rows kube_pools w !! k \/ k ∈ names /\ rows kube_pools w' !! k = None.

Lemma shrunk_step k0 names w w1 w' m : writes kube_pools w w1 m -> (m = rows kube_pools w \/ m = delete k0 (rows kube_pools w)) -> shrunk names w1 w' -> shrunk (k0 :: names) w w'.
Proof.
  intros [Hm Hr] Hcase [Hr' Hk]. split; [congruence|]. intros k. destruct (Hk k) as [E|[? E]]; [|right; split; [by right|done]]. rewrite E, Hm.
  destruct Hcase as [-> | ->]; [by left|]. destruct (decide (k = k0)) as [-> |Hne]; [right; split; [by left|apply lookup_delete_eq]|left; by apply lookup_delete_ne].
Qed.

Lemma pool_errors_spec errs w (X : PoolHost -> Prop) Q : (errs <> [] -> X w) -> (errs = [] -> Q tt w) -> runs (pool_errors errs) w X Q.
Proof. intros HX HQ. unfold pool_errors. destruct errs; [by apply HQ|by apply HX]. Qed.

Lemma kube_delete_spec l : forall errs w, runs (kube_delete faults l errs) w
  (fun w' => (faulty faults \/ errs <> []) /\ shrunk (map pool_name l) w w')
  (fun _ w' => errs = [] /\ shrunk (map pool_name l) w w' /\ forall p, p ∈ l -> rows kube_pools w' !! pool_name p = None).
Proof.
  induction l as [|p l IH]; intros errs w.
  { apply pool_errors_spec; (split; [|split; [|]]) || split; auto; (split; [done|by left]) || set_solver. }
  cbn [kube_delete map]. unfold runs, mtry.
  assert (Hgo : forall errs' w1 m, writes kube_pools w w1 m -> (m = rows kube_pools w \/ m = delete (pool_name p) (rows kube_pools w)) ->
    (errs' <> [] -> faulty faults \/ errs <> []) -> (errs' = [] -> errs = [] /\ m !! pool_name p = None) ->
    runs (kube_delete faults l errs') w1 (fun w' => (faulty faults \/ errs <> []) /\ shrunk (pool_name p :: map pool_name l) w w')
      (fun _ w' => errs = [] /\ shrunk (pool_name p :: map pool_name l) w w' /\ forall q, q ∈ p :: l -> rows kube_pools w' !! pool_name q = None)).
  { intros errs' w1 m Hm Hcase Hb Hg. eapply runs_mono; [apply IH| |].
    - intros w' [He Hs]. split; [|by eapply shrunk_step]. destruct He as [?|He]; [by left|by apply Hb].
    - intros u w' (He & Hs & Hd). destruct (Hg He) as [-> Hp]. split; [done|]. split; [by eapply shrunk_step|]. intros q Hq. apply elem_of_cons in Hq as [-> |Hq]; [|by apply Hd].
      destruct Hm as [Hm _]. destruct Hs as [_ Hs]. destruct (Hs (pool_name p)) as [E|[_ E]]; [by rewrite E, Hm|done]. }
  destruct (Delete_cases faults kube_pools (pool_name p) w) as [(ft & Hft & ->)|[[Hn ->]|[Hs ->]]].
  - assert (Hf : faulty faults) by (by exists (calls_made w), ft).
    destruct ft; eapply Hgo; try apply (writes_tick kube_pools); auto; intros E; by destruct errs.
  - eapply Hgo; [apply (writes_tick kube_pools)|by left|by right|]. intros ->. done.
  - eapply Hgo; [apply (writes_set kube_pools)|by right|by right|]. intros ->. split; [done|apply lookup_delete_eq].
Qed.

(** Some of the pools of [l] were added. *)
Definition grown (l : list ExternalClusterIPPool) (w w' : PoolHost) : Prop := rest_of kube_pools w' = rest_of kube_pools w /\
  forall k, rows kube_pools w' !! k = rows kube_pools w !! k \/
    rows kube_pools w !! k = None /\ exists p obj, p ∈ l /\ k = pool_name p /\ GetCIDRs obj = eip_ipPool p /\ rows kube_pools w' !! k = Some obj.

Definition decodes (p : ExternalClusterIPPool) (obj : uobject) : Prop := decode (pool_name p) (eip_ipPool p) = inl obj /\ GetCIDRs obj = eip_ipPool p.

Lemma grown_step p obj l w w1 w' m : writes kube_pools w w1 m -> decodes p obj ->
  (m = rows kube_pools w \/ m = <[pool_name p := obj]> (rows kube_pools w) /\ rows kube_pools w !! pool_name p = None) -> grown l w1 w' -> grown (p :: l) w w'.
Proof.
  intros [Hm Hr] [_ Ho] Hcase [Hr' Hk]. split; [congruence|]. intros k. specialize (Hk k). rewrite Hm in Hk.
  destruct Hcase as [-> |[-> Hnone]].
  - destruct Hk as [?|(Hn & q & o & Hq & Hrest)]; [by left|right]. split; [done|]. exists q, o. split; [by right|done].
  - destruct (decide (k = pool_name p)) as [-> |Hne].
    + rewrite lookup_insert_eq in Hk. destruct Hk as [Hk|[? _]]; [|done]. right. split; [done|]. exists p, obj. split; [by left|done].
    + rewrite lookup_insert_ne in Hk by done. destruct Hk as [?|(Hn & q & o & Hq & Hrest)]; [by left|right]. split; [done|]. exists q, o. split; [by right|done].
Qed.

Lemma grown_keeps l w w' k : grown l w w' -> is_Some (rows kube_pools w !! k) -> is_Some (rows kube_pools w' !! k).
Proof. intros [_ H] [o Ho]. destruct (H k) as [-> |[? _]]; [by exists o|congruence]. Qed.

Lemma kube_create_spec l : (forall p, p ∈ l -> exists obj, decodes p obj) -> forall errs w, runs (kube_create faults decode l errs) w
  (fun w' => (faulty faults \/ errs <> []) /\ grown l w w')
  (fun _ w' => errs = [] /\ grown l w w' /\ forall p, p ∈ l -> is_Some (rows kube_pools w' !! pool_name p)).
Proof.
  induction l as [|p l IH]; intros Hd errs w.
  { apply pool_errors_spec; (split; [|split; [|]]) || split; auto; (split; [done|by left]) || set_solver. }
  specialize (IH (fun q Hq => Hd q (proj2 (elem_of_cons l q p) (or_intror Hq)))). destruct (Hd p) as [obj Hobj]; [by left|].
  cbn [kube_create]. unfold runs, mtry. pose proof Hobj as [-> _].
  assert (Hgo : forall errs' w1 m, writes kube_pools w w1 m -> (m = rows kube_pools w \/ m = <[pool_name p := obj]> (rows kube_pools w) /\ rows kube_pools w !! pool_name p = None) ->
    (errs' <> [] -> faulty faults \/ errs <> []) -> (errs' = [] -> errs = [] /\ is_Some (m !! pool_name p)) ->
    runs (kube_create faults decode l errs') w1 (fun w' => (faulty faults \/ errs <> []) /\ grown (p :: l) w w')
      (fun _ w' => errs = [] /\ grown (p :: l) w w' /\ forall q, q ∈ p :: l -> is_Some (rows kube_pools w' !! pool_name q))).
  { intros errs' w1 m Hm Hcase Hb Hg. eapply runs_mono; [apply IH| |].
    - intros w' [He Hs]. split; [|by eapply grown_step]. destruct He as [?|He]; [by left|by apply Hb].
    - intros u w' (He & Hs & Hall). destruct (Hg He) as [-> Hp]. split; [done|]. split; [by eapply grown_step|]. intros q Hq.
      apply elem_of_cons in Hq as [-> |Hq]; [|by apply Hall]. apply (grown_keeps l w1); [done|]. by destruct Hm as [-> _]. }
  assert (Hbad : forall ft : fault, faulty faults -> (errs ++ [fault_err ft] <> [] -> faulty faults \/ errs <> []) /\ forall Y, errs ++ [fault_err ft] = [] -> Y).
  { intros ft Hf. split; [by left|]. intros Y E. by destruct errs. }
  destruct (Create_cases faults kube_pools (pool_name p) obj w) as [(ft & Hft & ->)|[[Hs ->]|[Hn ->]]].
  - assert (Hf : faulty faults) by (by exists (calls_made w), ft). destruct (Hbad ft Hf) as [H1 H2].
    destruct ft; (eapply Hgo; [apply (writes_tick kube_pools)|by left|exact H1|intros E; exact (H2 _ E)]).
  - eapply Hgo; [apply (writes_tick kube_pools)|by left|by right|]. by intros ->.
  - set (m := <[pool_name p := obj]> (rows kube_pools w)). set (w1 := set_rows kube_pools m (next_call w)).
    assert (Hw1 : writes kube_pools w w1 m) by apply (writes_set kube_pools). assert (Hp : m !! pool_name p = Some obj) by apply lookup_insert_eq.
    assert (Ht : forall w2, writes kube_pools w w2 m -> writes kube_pools w (next_call w2) m) by (intros w2 [? ?]; split; by rewrite ?rows_tick, ?rest_tick).
    assert (Hm : m = rows kube_pools w \/ m = <[pool_name p := obj]> (rows kube_pools w) /\ rows kube_pools w !! pool_name p = None) by (by right).
    destruct (Get_cases faults kube_pools (pool_name p) w1) as [(ft & Hft & ->)| ->].
    { assert (Hf : faulty faults) by (by exists (calls_made w1), ft). destruct (Hbad ft Hf) as [H1 H2]. eapply (Hgo _ _ m); [by auto|done|exact H1|intros E; exact (H2 _ E)]. }
    rewrite (proj1 Hw1), Hp.
    destruct (Update_cases faults kube_pools (pool_name p) obj (next_call w1)) as [(ft & Hft & ->)|[[Hs _]|[_ ->]]].
    + assert (Hf : faulty faults) by (by exists (calls_made (next_call w1)), ft). destruct (Hbad ft Hf) as [H1 H2]. eapply (Hgo _ _ m); [by auto|done|exact H1|intros E; exact (H2 _ E)].
    + rewrite rows_tick, (proj1 Hw1), Hp in Hs. done.
    + eapply (Hgo errs _ m); [|done|by right|intros ->; split; [done|by exists obj]]. destruct Hw1 as [E1 E2]. split; [|by rewrite rest_set, !rest_tick].
      rewrite rows_set, rows_tick, E1. unfold m. apply insert_insert_eq.
Qed.

(** One stored object stands for one pool. *)
Lemma same_object p q obj : pool_readable p -> pool_readable q -> pool_name p = pool_name q -> GetCIDRs obj = eip_ipPool p -> GetCIDRs obj = eip_ipPool q -> p = q.
Proof.
  intros Hp Hq En H1 H2. pose proof (classify_own p obj Hp H1) as E1. pose proof (classify_own q obj Hq H2) as E2. rewrite En, E2 in E1. by injection E1.
Qed.

Lemma shrunk_kept l w w' : kube_wf w -> shrunk (map pool_name l) w w' -> kube_kept w w'.
Proof.
  intros Hw [Hr Hk]. apply own_kept; [done| |split; [done|]].
  - intros name obj Hn. destruct (Hk name) as [E|[_ E]]; change (rows kube_pools) with ph_kube in E; [|congruence]. rewrite E in Hn. by apply Hw.
  - intros k Hp. destruct (Hk k) as [E|[Hin _]]; [done|]. apply list_elem_of_In, in_map_iff in Hin as (p & <- & _). by rewrite pool_name_prefix in Hp.
Qed.

Lemma grown_kept l w w' : kube_wf w -> (forall p, p ∈ l -> pool_readable p) -> grown l w w' -> kube_kept w w'.
Proof.
  intros Hw Hl [Hr Hk]. apply own_kept; [done| |split; [done|]].
  - intros name obj Hn Hp. destruct (Hk name) as [E|(_ & p & o & Hin & -> & Ho & E)]; change (rows kube_pools) with ph_kube in E; rewrite E in Hn.
    + by apply Hw.
    + injection Hn as ->. exists p. split; [by apply Hl|done].
  - intros k Hp. destruct (Hk k) as [E|(_ & p & o & _ & -> & _)]; [done|]. by rewrite pool_name_prefix in Hp.
Qed.

Lemma shrunk_ext l w w' : kube_wf w -> list_to_set l ⊆ kube_ext w -> shrunk (map pool_name l) w w' -> (forall p, p ∈ l -> rows kube_pools w' !! pool_name p = None) ->
  kube_ext w' = kube_ext w ∖ list_to_set l.
Proof.
  intros Hw Hl Hs Hgone. pose proof (shrunk_kept l w w' Hw Hs) as (Hw' & _). destruct Hs as [_ Hk]. apply set_eq. intros p.
  rewrite elem_of_difference, elem_of_list_to_set, !kube_ext_elem by done. split.
  - intros (Hr & obj & Ho & Hc). assert (Hnl : p ∉ l) by (intros Hin; apply Hgone in Hin; change (rows kube_pools) with ph_kube in Hin; congruence).
    split; [|done]. split; [done|]. exists obj. split; [|done]. destruct (Hk (pool_name p)) as [E|[_ E]]; change (rows kube_pools) with ph_kube in E; congruence.
  - intros [(Hr & obj & Ho & Hc) Hnl]. split; [done|]. exists obj. split; [|done]. destruct (Hk (pool_name p)) as [E|[Hin _]]; [by change (rows kube_pools) with ph_kube in E; rewrite E|].
    apply list_elem_of_In, in_map_iff in Hin as (q & Hq & Hin). apply list_elem_of_In in Hin.
    assert (Hqe : q ∈ kube_ext w) by (apply Hl; by apply elem_of_list_to_set). apply kube_ext_elem in Hqe as (Hrq & o & Ho' & Hcq); [|done].
    rewrite Hq in Ho'. assert (o = obj) as -> by congruence. destruct Hnl. by rewrite <- (same_object q p obj Hrq Hr Hq Hcq Hc).
Qed.

Lemma grown_ext l w w' : kube_wf w -> kube_storable (kube_ext w ∪ list_to_set l) -> grown l w w' -> (forall p, p ∈ l -> is_Some (rows kube_pools w' !! pool_name p)) ->
  kube_ext w' = kube_ext w ∪ list_to_set l.
Proof.
  intros Hw [Hst Hinj] Hg Hall. assert (Hl : forall p, p ∈ l -> p ∈ kube_ext w ∪ list_to_set l) by (intros p Hp; apply elem_of_union_r; by apply elem_of_list_to_set).
  assert (Hrl : forall p, p ∈ l -> pool_readable p) by (intros p Hp; by apply Hst, Hl).
  pose proof (grown_kept l w w' Hw Hrl Hg) as (Hw' & _). destruct Hg as [_ Hk]. apply set_eq. intros p. rewrite elem_of_union, elem_of_list_to_set, (kube_ext_elem w' p Hw'). split.
  - intros (Hr & obj & Ho & Hc). destruct (Hk (pool_name p)) as [E|(_ & q & o & Hq & Hn & Hcq & E)]; change (rows kube_pools) with ph_kube in E; rewrite E in Ho.
    + left. apply kube_ext_elem; [done|]. split; [done|]. by exists obj.
    + right. injection Ho as ->. by rewrite (same_object p q obj Hr (Hrl q Hq) Hn Hc Hcq).
  - intros Hp. assert (Hpu : p ∈ kube_ext w ∪ list_to_set l) by (rewrite elem_of_union, elem_of_list_to_set; done). split; [by apply Hst|].
    assert (Ho : is_Some (ph_kube w' !! pool_name p)).
    { destruct Hp as [Hp|Hp]; [|by apply Hall]. apply kube_ext_elem in Hp as (_ & o & Ho & _); [|done]. destruct (Hk (pool_name p)) as [E|[E _]].
      - change (rows kube_pools) with ph_kube in E. rewrite E. by exists o.
      - change (rows kube_pools) with ph_kube in E. congruence. }
    destruct Ho as [obj Ho]. exists obj. split; [done|]. destruct (Hw' _ _ Ho (pool_name_prefix p)) as (q & Hrq & Hn & Hcq).
    assert (Hqu : q ∈ kube_ext w ∪ list_to_set l).
    { destruct (Hk (pool_name p)) as [E|(_ & q' & o & Hq' & Hn' & Hcq' & E)]; change (rows kube_pools) with ph_kube in E; rewrite E in Ho.
      - apply elem_of_union_l, kube_ext_elem; [done|]. split; [done|]. exists obj. by rewrite <- Hn.
      - injection Ho as ->. rewrite (same_object q q' obj Hrq (Hrl q' Hq')); [by apply Hl|congruence|done|done]. }
    by rewrite (Hinj p q Hpu Hqu Hn).
Qed.

#[export] Program Instance kube_promise : PoolClient faults (kube_client faults decode) := {
  pl_wf := kube_wf; pl_ext := kube_ext; pl_local := kube_local; pl_storable := kube_storable }.
Next Obligation. done. Qed.
Next Obligation. intros s s' Hs [H1 H2]. split; [intros p Hp; apply H1, Hs, Hp|intros p q Hp Hq; apply H2; by apply Hs]. Qed.
Next Obligation.
  intros w Hw. apply runs_seq, runs_call.
  - intros Hf. split; [by eapply call_faulty|]. apply own_kept; [done|done|by split].
  - unfold runs at 1. rewrite rows_tick, split_pools_spec; [|intros kv Hkv; by eapply kube_no_panic]. apply runs_ok. split; [|done]. apply own_kept; [done|done|by split].
Qed.
Next Obligation.
  intros l w Hw Hl. eapply runs_mono; [apply kube_delete_spec| |].
  - intros w' [Hf Hs]. split; [by destruct Hf|by eapply shrunk_kept].
  - intros u w' (_ & Hs & Hd). split; [by eapply shrunk_kept|by apply shrunk_ext].
Qed.
Next Obligation.
  intros l w Hw Hst. assert (Hl : forall p, p ∈ l -> p ∈ kube_ext w ∪ list_to_set l) by (intros p Hp; apply elem_of_union_r; by apply elem_of_list_to_set).
  assert (Hr : forall p, p ∈ l -> pool_readable p) by (intros p Hp; by apply Hst, Hl).
  eapply runs_mono; [apply kube_create_spec; intros p Hp; by apply Hst, Hl| |].
  - intros w' [Hf Hs]. split; [by destruct Hf|by eapply grown_kept].
  - intros u w' (_ & Hs & Hd). split; [by eapply grown_kept|by apply grown_ext].
Qed.

End kube.

(** * Reconciling a cluster *)

(** The set of all pools after a cluster was read. *)
Definition collected (cluster : HubCluster) (options : ClusterLinkOptions) (global : gset ExternalClusterIPPool) : gset ExternalClusterIPPool :=
  let c := hc_Cluster cluster in
  without_cluster (c_Name c) global ∪ pools_of (c_Name c) PODIPType (lo_GlobalCIDRsMap options) (c_PodCIDRs c) ∪
    pools_of (c_Name c) SERVICEIPType (lo_GlobalCIDRsMap options) (c_ServiceCIDRs c).

(** A pool that belongs into the set: of another cluster and there before, or a pod or service
CIDR of the cluster, replaced by its global one where it has one. *)
Definition wanted_pool (cluster : HubCluster) (options : ClusterLinkOptions) (global : gset ExternalClusterIPPool) (g : ExternalClusterIPPool) : Prop :=
  let c := hc_Cluster cluster in
  let listed cidrs := exists cidr, cidr ∈ cidrs /\ eip_ipPool g = default cidr (lo_GlobalCIDRsMap options !! cidr) in
  g ∈ global /\ eip_cluster g <> c_Name c \/
  eip_cluster g = c_Name c /\ (eip_ipType g = PODIPType /\ listed (c_PodCIDRs c) \/ eip_ipType g = SERVICEIPType /\ listed (c_ServiceCIDRs c)).

Lemma pools_of_elem name ipType cidrMap cidrs g : g ∈ pools_of name ipType cidrMap cidrs <->
  eip_cluster g = name /\ eip_ipType g = ipType /\ exists cidr, cidr ∈ cidrs /\ eip_ipPool g = default cidr (cidrMap !! cidr).
Proof.
  unfold pools_of. rewrite elem_of_list_to_set, list_elem_of_In, in_map_iff. setoid_rewrite <- list_elem_of_In. destruct g as [gc gt gp]. simpl. split.
  - intros (cidr & E & Hin). injection E as -> -> <-. eauto.
  - intros (-> & -> & cidr & Hin & ->). eauto.
Qed.

Lemma collected_elem cluster options global g : g ∈ collected cluster options global <-> wanted_pool cluster options global g.
Proof. unfold collected, wanted_pool, without_cluster. rewrite !elem_of_union, elem_of_filter, !pools_of_elem. naive_solver. Qed.

Lemma drop_intersecting_elem current l global g : g ∈ drop_intersecting current l global <->
  g ∈ global /\ (eip_cluster g = current \/ forall c, c ∈ l -> Intersect (eip_ipPool g) c = false).
Proof.
  assert (E : forall a b, intersection a b = Intersect a b) by (intros a b; unfold intersection; by destruct (IsIPv6 a && IsIPv6 b)).
  unfold drop_intersecting. rewrite elem_of_filter, any_false. setoid_rewrite E. tauto.
Qed.

Section reconcile.
  Context (faults : nat -> option fault) (decode : string -> string -> uobject + list apierr) (GetCalicoClient : HubCluster -> option apierr).
  Context (clusterName : string) (clusters : gmap string HubCluster).

Lemma collect_pools_run cluster options w : c_ClusterLinkOptions (hc_Cluster cluster) = Some options ->
  collect_pools cluster w = (set_global (collected cluster options (ph_global w)) w, Good tt).
Proof. intros Ho. unfold collect_pools, options_of, mseq, pool_poke. by rewrite Ho. Qed.

Lemma ensure_client_run cluster b w : ph_client w = Some b -> ensure_client GetCalicoClient clusterName cluster w = (w, Good tt).
Proof. intros Hb. unfold ensure_client, mseq, pool_peek. by rewrite Hb. Qed.

Lemma reconcile_spec name cluster options w : clusters !! name = Some cluster -> c_ClusterLinkOptions (hc_Cluster cluster) = Some options ->
  (c_Name (hc_Cluster cluster) = clusterName -> lo_CNI options = CNITypeCalico) -> ph_client w = Some KubernetesBackend -> kube_wf w ->
  kube_storable decode (collected cluster options (ph_global w)) ->
  let global := drop_intersecting clusterName (elements (kube_local w)) (collected cluster options (ph_global w)) in
  runs (Pool_Reconcile faults decode GetCalicoClient clusterName clusters (Some name)) w
    (fun w' => faulty faults /\ kube_wf w' /\ kube_local w' = kube_local w /\ ph_client w' = ph_client w)
    (fun _ w' => kube_wf w' /\ kube_local w' = kube_local w /\ ph_client w' = ph_client w /\ ph_global w' = global /\
      kube_ext w' = synced_pools clusterName global (kube_ext w)).
Proof.
  intros Hc Ho Hcni Hcl Hw Hst global. unfold Pool_Reconcile, options_of. rewrite Hc, Ho. simpl deref. apply runs_seq.
  eapply (runs_mono _ _ (fun _ => False) _ (fun skip w' => skip = false /\ w' = w)); [|done|].
  { destruct (bool_decide_reflect (c_Name (hc_Cluster cluster) = clusterName)) as [E|E]; [|by apply runs_ok].
    apply runs_ok. by rewrite (Hcni E). }
  intros skip w0 [-> ->]. set (w1 := set_global (collected cluster options (ph_global w)) w).
  assert (Hcl1 : ph_client w1 = Some KubernetesBackend) by done. unfold runs, mseq. rewrite (collect_pools_run cluster options w Ho). fold w1.
  rewrite (ensure_client_run cluster _ w1 Hcl1). unfold pool_peek. rewrite Hcl1.
  exact (pool_sync_spec faults (kube_client faults decode) clusterName w1 Hw Hst).
Qed.


(** The controller's resources removed: no pool of another cluster is left. *)
Lemma pools_cleaned w : ph_client w = Some KubernetesBackend -> kube_wf w ->
  runs (Pool_CleanResource faults decode GetCalicoClient clusterName clusters) w (fun w' => faulty faults /\ kube_wf w')
    (fun _ w' => kube_wf w' /\ kube_local w' = kube_local w /\ ph_global w' = ∅ /\ kube_ext w' = ∅).
Proof.
  intros Hcl Hw. unfold Pool_CleanResource. apply runs_seq. unfold runs at 1. simpl. rewrite Hcl. apply runs_seq. unfold runs at 1. simpl.
  apply runs_seq. unfold runs at 1. simpl. apply runs_seq. unfold runs at 1. simpl. rewrite Hcl.
  eapply runs_mono; [apply (pool_sync_spec faults (kube_client faults decode) clusterName (set_global ∅ w)); [done|split; set_solver]|by intros w' (? & ? & _)|].
  intros u w' (Hw' & Hl & _ & Hg & He). split; [done|]. split; [done|].
  assert (E : drop_intersecting clusterName (elements (kube_local w)) ∅ = ∅) by (apply set_eq; intros x; unfold drop_intersecting; rewrite elem_of_filter; set_solver).
  split; [etransitivity; [exact Hg|exact E]|]. etransitivity; [exact He|]. etransitivity; [exact (f_equal (fun g => synced_pools clusterName g (kube_ext w)) E)|].
  apply set_eq. intros x. unfold synced_pools. rewrite elem_of_union, elem_of_filter. set_solver.
Qed.

End reconcile.

(** * Examples *)

Definition ex_decode (name cidr : string) : uobject + list apierr :=
  inl [("metadata", UMap [("name", UString name)]); ("spec", UMap [("cidr", UString cidr); ("disabled", UOther "true")])].

Definition ex_local_pool (cidr : string) : uobject := [("spec", UMap [("cidr", UString cidr)])].

Definition ex_link_options : ClusterLinkOptions :=
  mkLinkOptions true "calico" "p2p" "all" true (mkVxlanCIDRs "" "") (mkVxlanCIDRs "" "") [] "" ∅ "".

Definition ex_pool_cluster (name : string) (pods services : list string) : HubCluster :=
  mkHubCluster None (mkCluster name (Some ex_link_options) pods services).

(** A store with a pool of the cluster and a pool of "c2" that is out of date. *)
Definition ex_old_pool : ExternalClusterIPPool := mkExtPool "c2" "pod" "10.9.0.0/16".
Definition ex_pool_host : PoolHost :=
  mkPoolHost 0 {[ "default-pool" := ex_local_pool "10.1.0.0/16"; pool_name ex_old_pool := ex_local_pool "10.9.0.0/16" ]} ∅ {[ ex_old_pool ]} (Some KubernetesBackend).
Definition ex_c2 : HubCluster := ex_pool_cluster "c2" ["10.2.0.0/16"; "10.1.4.0/24"] ["10.96.0.0/12"].

Lemma readable_by p : (bool_decide (eip_ipType p = SERVICEIPType) || bool_decide (eip_ipType p = PODIPType) && negb (Contains_str (eip_cluster p) "service") && negb (Contains_str (pool_suffix (eip_ipPool p)) "service")) &&
  negb (Contains_str (pool_suffix (eip_ipPool p)) (eip_ipType p)) = true -> pool_readable p.
Proof.
  rewrite andb_true_iff, orb_true_iff, !andb_true_iff, !negb_true_iff, !bool_decide_eq_true. intros [H1 H2]. split; [|done]. naive_solver.
Qed.

Lemma ex_wf : kube_wf ex_pool_host.
Proof.
  intros name obj Hn Hp. simpl in Hn. apply lookup_insert_Some in Hn as [[<- <-]|[_ Hn]]; [done|]. apply lookup_singleton_Some in Hn as [<- <-].
  exists ex_old_pool. split; [by apply readable_by; vm_compute|done].
Qed.

Definition ex_collected : gset ExternalClusterIPPool :=
  {[ mkExtPool "c2" "pod" "10.2.0.0/16"; mkExtPool "c2" "pod" "10.1.4.0/24"; mkExtPool "c2" "service" "10.96.0.0/12" ]}.

Lemma ex_collected_eq : collected ex_c2 ex_link_options (ph_global ex_pool_host) = ex_collected.
Proof. refine (bool_decide_eq_true_1 _ _). by vm_compute. Qed.

Lemma ex_storable : kube_storable ex_decode ex_collected.
Proof.
  assert (H : forall p, p ∈ ex_collected -> p ∈ [mkExtPool "c2" "pod" "10.2.0.0/16"; mkExtPool "c2" "pod" "10.1.4.0/24"; mkExtPool "c2" "service" "10.96.0.0/12"]) by (unfold ex_collected; set_solver).
  split.
  - intros p Hp. split; [|by eexists]. apply H in Hp. repeat (apply elem_of_cons in Hp as [-> |Hp]; [by apply readable_by; vm_compute|]). by apply elem_of_nil in Hp.
  - intros p q Hp Hq. apply H in Hp, Hq. repeat (apply elem_of_cons in Hp as [-> |Hp]; [repeat (apply elem_of_cons in Hq as [-> |Hq]; [by vm_compute|]); by apply elem_of_nil in Hq|]). by apply elem_of_nil in Hp.
Qed.


(** The pools of a cluster whose object is gone stay. *)
Example deleted_cluster_pools_stay :
  Pool_Reconcile (fun _ => None) ex_decode (fun _ => None) "c1" ∅ (Some "c2") ex_pool_host = (ex_pool_host, Good tt).
Proof. reflexivity. Qed.

(** A pool left out because it intersected a pool of the cluster is not added when that pool
is gone and another cluster is reconciled. *)
Definition ex_reconcile (w : PoolHost) (cluster : HubCluster) : PoolHost :=
  fst (Pool_Reconcile (fun _ => None) ex_decode (fun _ => None) "c1" {[ c_Name (hc_Cluster cluster) := cluster ]} (Some (c_Name (hc_Cluster cluster))) w).

Example dropped_pool_stays_out :
  let w1 := ex_reconcile ex_pool_host ex_c2 in
  let w2 := set_rows kube_pools (delete "default-pool" (ph_kube w1)) w1 in
  let w3 := ex_reconcile w2 (ex_pool_cluster "c3" [] []) in
  bool_decide (mkExtPool "c2" "pod" "10.1.4.0/24" ∈ ph_global w3) = false /\ elements (kube_local w3) = [].
Proof. by vm_compute. Qed.

(** With etcd the pools of other clusters are taken for the cluster's own: an outdated one
stays, and the next run drops the one it stored from the set. *)
Definition ex_etcd_host : PoolHost := mkPoolHost 0 ∅ ∅ ∅ (Some EtcdBackend).

Example etcd_pools_stay :
  let w1 := ex_reconcile ex_etcd_host (ex_pool_cluster "c2" ["10.2.0.0/16"] []) in
  let w2 := ex_reconcile w1 (ex_pool_cluster "c2" ["10.3.0.0/16"] []) in
  map (fun kv => et_CIDR (snd kv)) (map_to_list (ph_etcd w2)) ≡ₚ ["10.2.0.0/16"; "10.3.0.0/16"] /\
  elements (ph_global (ex_reconcile w2 (ex_pool_cluster "c3" [] []))) = [].
Proof. split; [|by vm_compute]. refine (bool_decide_eq_true_1 _ _). by vm_compute. Qed.

(** Deleting from etcd, a failed call is taken for success and a missing pool for an error. *)
Example etcd_delete_inverted :
  snd (etcd_delete (fun _ => Some (Fails "timeout")) [ex_old_pool] [] ex_etcd_host) = Good tt /\
  snd (etcd_delete (fun _ => None) [ex_old_pool] [] ex_etcd_host) = Bad (OtherError "aggregate").
Proof. by vm_compute. Qed.

(** A pool that is there already in etcd cannot be updated: the new object has no resource version. *)
Example etcd_update_rejected :
  let w := mkPoolHost 0 ∅ {[ pool_name ex_old_pool := mkEtcdPool "7" "10.9.0.0/16" true "" ]} ∅ (Some EtcdBackend) in
  snd (etcd_create (fun _ => None) [ex_old_pool] [] w) = Bad (OtherError "aggregate").
Proof. by vm_compute. Qed.
