(* ===== verification/HubClusters.v ===== *)
(** The cluster controller: clusterlink/controllers/cluster/cluster_controller.go and
helper.go. It reads the service CIDRs from the command line of an API server pod and the pod
CIDRs from the objects of the cluster's CNI, and publishes both in the status of the Cluster.

The informers' caches are [ClusterView]; the Clusters are on the [Hub]. *)
From S2P Require Import Prelude GoStr GoNet LinkApi PodApi AgentController PodProg Calls Tables HubNodes HubPoolNames HubPools.

Definition FlannelCNI : string := "flannel".
Definition CiliumCNI : string := "cilium".
Definition KubeFlannelConfigMap : string := "kube-flannel-cfg".
Definition KubeCiliumConfigMap : string := "cilium-config".
Definition KubeFlannelNetworkConf : string := "net-conf.json".
Definition KubeFlannelIPPool : string := "Network".
Definition ServiceClusterIPRange : string := "--service-cluster-ip-range".

(** A pod with the commands of its containers. *)
Record SystemPod := mkSystemPod { sp_Namespace : string; sp_Name : string; sp_Labels : option smap; sp_Commands : list (list string) }.

Record ConfigMap := mkConfigMap { cm_Namespace : string; cm_Name : string; cm_Data : smap }.

(** What the listers show: pods, Calico pools and config maps, and the pools in etcd. *)
Record ClusterView := mkClusterView {
  cv_pods : list SystemPod; cv_pools : list (string * uobject); cv_maps : list ConfigMap; cv_etcd : list (string * EtcdPool) }.

(** * Service CIDRs *)

(** The text after the first "=", or all of the line when there is none. *)
Definition after_equals (line : string) : string := match cut "=" line with Some (_, range) => range | None => line end.

(** The last command line with the flag counts. *)
Definition range_lines (pod : SystemPod) : list string :=
  foldl (fun acc line => if HasPrefix line ServiceClusterIPRange then Split "," (after_equals line) else acc) [] (concat (sp_Commands pod)).

Fixpoint format_all (cidrs : list string) : result (list string) :=
  match cidrs with
  | [] => inl []
  | cidr :: rest =>
      match FormatCIDR cidr with
      | inr err => inr ("failed to format service cidr " +:+ cidr +:+ err)
      | inl ipNetStr => match format_all rest with inr err => inr err | inl l => inl (ipNetStr :: l) end
      end
  end.

Definition ResolveServiceCIDRs (pod : SystemPod) : result (list string) :=
  match sp_Commands pod with
  | [] => inr ("no containers found in pod, pod name is " +:+ sp_Name pod)
  | _ => format_all (range_lines pod)
  end.

Definition isAPIServer (pod : SystemPod) : bool := (sp_Namespace pod =s "kube-system") && HasPrefix (sp_Name pod) "kube-apiserver".

(** The loop over the pods: the CIDRs of the first API server that resolves, and the last error. *)
Fixpoint service_cidrs (pods : list SystemPod) (err : option string) : list string * option string :=
  match pods with
  | [] => ([], err)
  | pod :: rest =>
      if isAPIServer pod then
        match ResolveServiceCIDRs pod with
        | inr err => service_cidrs rest (Some err)
        | inl cidrs => (cidrs, None)
        end
      else service_cidrs rest err
  end.

(** * Pod CIDRs *)

(** [initCalicoInformer] *)
Definition calico_pod_cidrs (v : ClusterView) : list string :=
  collect (fun kv : string * uobject =>
    if negb (HasPrefix (fst kv) ExternalIPPoolNamePrefix) then
      let cidr := GetCIDRs (snd kv) in if 0 <? String.length cidr then Some cidr else None
    else None) (cv_pools v).

(** The arguments of [HasPrefix] are swapped. *)
Definition validIPPool (name : string) (ippool : EtcdPool) : bool := negb (et_Disabled ippool) && negb (HasPrefix ExternalIPPoolNamePrefix name).

(** [initCalicoWatcherWithEtcdBackend] *)
Definition etcd_pod_cidrs (v : ClusterView) : list string :=
  collect (fun kv : string * EtcdPool => if validIPPool (fst kv) (snd kv) then Some (et_CIDR (snd kv)) else None) (cv_etcd v).

Inductive cni := Calico | CalicoEtcd | Flannel | Cilium.

(** The choice of [Start]. *)
Definition cni_of (cluster : HubCluster) : outcome cni :=
  match c_ClusterLinkOptions (hc_Cluster cluster) with
  | None => Panic
  | Some options =>
      if lo_CNI options =s CiliumCNI then Ret Cilium
      else if lo_CNI options =s FlannelCNI then Ret Flannel
      else if negb (CheckIsEtcd cluster) then Ret Calico else Ret CalicoEtcd
  end.

Section cluster_controller.
  Context (faults : nat -> option fault).
  (** [json.Unmarshal] into a map, and [cast.ToStringSlice] of a string. *)
  Context (Unmarshal : string -> option uobject) (ToStringSlice : string -> list string).
  Context (clusterName : string) (v : ClusterView).

(** [initFlannelInformer]: the first config map that can be read. *)
Fixpoint flannel_pod_cidrs (cms : list ConfigMap) : list string :=
  match cms with
  | [] => []
  | cm :: rest =>
      if cm_Name cm =s KubeFlannelConfigMap then
        let conf := get (cm_Data cm) KubeFlannelNetworkConf in
        if str_empty conf then flannel_pod_cidrs rest
        else match Unmarshal conf with
             | None => flannel_pod_cidrs rest
             | Some data => match ufield KubeFlannelIPPool data with Some (UString PodIPPool) => [PodIPPool] | _ => flannel_pod_cidrs rest end
             end
      else flannel_pod_cidrs rest
  end.

(** [initCiliumInformer] *)
Definition cilium_pod_cidrs : result (list string) :=
  match first (fun cm => (cm_Namespace cm =s "kube-system") && (cm_Name cm =s KubeCiliumConfigMap)) (cv_maps v) with
  | None => inr "configmap not found"
  | Some cm => inl (ToStringSlice (get (cm_Data cm) "cluster-pool-ipv4-cidr") ++ ToStringSlice (get (cm_Data cm) "cluster-pool-ipv6-cidr"))
  end.

(** [setClusterPodCIDRFun]: the CIDRs it puts into the cluster; the pools in etcd are listed
with a call. *)
Definition cni_pod_cidrs (kind : cni) : HM (list string) :=
  match kind with
  | Calico => mok (calico_pod_cidrs v)
  | CalicoEtcd => Calls.call (oracle faults) (fun w => (w, Good (etcd_pod_cidrs v)))
  | Flannel => mok (flannel_pod_cidrs (cv_maps v))
  | Cilium => match cilium_pod_cidrs with inl l => mok l | inr err => merr (IsNotFound err) end
  end.

Definition with_cidrs (pods services : list string) (cluster : HubCluster) : HubCluster :=
  let c := hc_Cluster cluster in mkHubCluster (hc_Annotations cluster) (mkCluster (c_Name c) (c_ClusterLinkOptions c) pods services).

(** [kind] is what [Start] chose; the key is [None] when it is not a [ClusterWideKey]. *)
Definition Hub_Cluster_Reconcile (kind : cni) (key : option string) : HM unit :=
  match key with
  | None => merr (OtherError "invalid key")
  | Some _ =>
      mtry (Get faults hub_clusters clusterName)
        (fun reconcileCluster =>
          let pods := List.filter (fun p => sp_Namespace p =s "kube-system") (cv_pods v) in
          let '(serviceCIDRS, err) := service_cidrs pods None in
          if length serviceCIDRS =? 0 then match err with Some err => merr (OtherError err) | None => mok tt end
          else
            do! podCIDRs := cni_pod_cidrs kind in
            Update faults hub_clusters clusterName (with_cidrs podCIDRs serviceCIDRS reconcileCluster))
        (fun err => match err with IsNotFound _ => mok tt | _ => merr err end)
  end.

End cluster_controller.

(** ** Events: whether the cluster is enqueued *)

Definition podFilterFunc (pod : SystemPod) : bool := get (map_of (sp_Labels pod)) "component" =s "kube-apiserver".
Definition ippool_changed (name : string) : bool := negb (HasPrefix name ExternalIPPoolNamePrefix).
Definition flannel_changed (cm : ConfigMap) : bool := cm_Name cm =s KubeFlannelConfigMap.
Definition cilium_changed (cm : ConfigMap) : bool := (cm_Name cm =s KubeCiliumConfigMap) && (cm_Namespace cm =s "kube-system").

(** An event of the watch on the pools in etcd: an object of another type is [PoolChanged None];
[PoolClosed] is a closed channel, which is read as an event without a type and an object. *)
Inductive pool_event := PoolError | PoolDeleted | PoolChanged (object : option (string * EtcdPool)) | PoolClosed.

(** Whether the watch is made again, and whether the cluster is enqueued. After a closed
channel the type of the missing object is asked for its name. *)
Definition on_pool_event (e : pool_event) : outcome (bool * bool) :=
  match e with
  | PoolError => Ret (true, false)
  | PoolDeleted => Ret (false, true)
  | PoolChanged (Some (name, ippool)) => Ret (false, validIPPool name ippool)
  | PoolChanged None => Ret (false, false)
  | PoolClosed => Panic
  end.

(** * Facts *)

Lemma clusters_apart_hub w w' m : writes hub_clusters w w' m -> hb_clusters w' = m /\ hb_nodes w' = hb_nodes w /\ hb_hosts w' = hb_hosts w.
Proof. intros [H1 H2]. destruct w, w'. unfold rest_of in H2. simpl in *. by injection H2 as -> ->. Qed.

Lemma format_all_canonical l : forall l', format_all l = inl l' -> Forall (fun c => FormatCIDR c = inl c) l'.
Proof.
  induction l as [|c l IH]; intros l' H; simpl in H; [by injection H as <-|].
  destruct (FormatCIDR c) as [c'|] eqn:Ec; [|done]. destruct (format_all l) as [l''|]; [|done]. injection H as <-.
  constructor; [by eapply FormatCIDR_idem|by apply IH].
Qed.

(** The service CIDRs of a list of pods: canonical, and those of one API server. *)
Lemma service_cidrs_spec pods : forall err, let l := fst (service_cidrs pods err) in
  Forall (fun c => FormatCIDR c = inl c) l /\ (l <> [] -> exists pod, pod ∈ pods /\ isAPIServer pod = true /\ ResolveServiceCIDRs pod = inl l).
Proof.
  induction pods as [|pod pods IH]; intros err; [done|]. simpl. destruct (isAPIServer pod) eqn:Ea.
  - destruct (ResolveServiceCIDRs pod) as [l|e] eqn:Er.
    + simpl. split; [|intros _; exists pod; split; [by left|done]]. unfold ResolveServiceCIDRs in Er. destruct (sp_Commands pod); [done|by eapply format_all_canonical].
    + destruct (IH (Some e)) as [H1 H2]. split; [done|]. intros Hne. destruct (H2 Hne) as (p & Hp & Hrest). exists p. split; [by right|done].
  - destruct (IH err) as [H1 H2]. split; [done|]. intros Hne. destruct (H2 Hne) as (p & Hp & Hrest). exists p. split; [by right|done].
Qed.

Section published.
  Context (faults : nat -> option fault) (Unmarshal : string -> option uobject) (ToStringSlice : string -> list string).
  Context (clusterName : string) (v : ClusterView).

(** What the CNI's objects say. *)
Definition pod_source (kind : cni) : result (list string) :=
  match kind with
  | Calico => inl (calico_pod_cidrs v)
  | CalicoEtcd => inl (etcd_pod_cidrs v)
  | Flannel => inl (flannel_pod_cidrs Unmarshal (cv_maps v))
  | Cilium => cilium_pod_cidrs ToStringSlice v
  end.

Definition services : list string * option string := service_cidrs (List.filter (fun p => sp_Namespace p =s "kube-system") (cv_pods v)) None.

Lemma source_cidrs_spec kind w (X : Hub -> Prop) Q : (faulty faults -> X (next_call w)) -> (forall err, pod_source kind = inr err -> X w) ->
  (forall l w', pod_source kind = inl l -> w' = w \/ w' = next_call w -> Q l w') -> runs (cni_pod_cidrs faults Unmarshal ToStringSlice v kind) w X Q.
Proof.
  intros Hf HX HQ. destruct kind; simpl; [apply runs_ok, HQ; auto| |apply runs_ok, HQ; auto|].
  - apply runs_call; [intros ?; by eapply Hf, call_faulty|]. unfold runs. apply HQ; auto.
  - simpl in *. destruct (cilium_pod_cidrs ToStringSlice v) as [l|err]; [apply runs_ok, HQ; auto|by apply (HX err)].
Qed.

(** Reconcile of the cluster controller (cluster_controller.go). Success means: the status
of the cluster got the pod CIDRs of its CNI and the service CIDRs, or there is no such
cluster or no service CIDR and nothing was written; nothing else changes. It fails without
a write, only when a call fails, an API server's flag does not parse, or Cilium's
configuration is missing. The service CIDRs are in canonical form and all from one pod of an
API server. *)
Theorem cluster_published kind key w :
  runs (Hub_Cluster_Reconcile faults Unmarshal ToStringSlice clusterName v kind (Some key)) w
    (fun w' => writes hub_clusters w w' (hb_clusters w) /\
      (faulty faults \/ (exists err, services = ([], Some err)) \/ (exists err, pod_source kind = inr err)))
    (fun _ w' => match hb_clusters w !! clusterName, fst services with
      | Some cluster, (_ :: _) => exists pods, pod_source kind = inl pods /\
          writes hub_clusters w w' (<[clusterName := with_cidrs pods (fst services) cluster]> (hb_clusters w))
      | _, _ => writes hub_clusters w w' (hb_clusters w)
      end) /\
  Forall (fun c => FormatCIDR c = inl c) (fst services) /\
  (fst services <> [] -> exists pod, pod ∈ cv_pods v /\ isAPIServer pod = true /\ ResolveServiceCIDRs pod = inl (fst services)).
Proof.
  split.
  2:{ destruct (service_cidrs_spec (List.filter (fun p => sp_Namespace p =s "kube-system") (cv_pods v)) None) as [H1 H2]. split; [done|].
      intros Hne. destruct (H2 Hne) as (pod & Hp & Hrest). exists pod. split; [|done]. apply list_elem_of_In, filter_In in Hp as [Hp _]. by apply list_elem_of_In. }
  assert (Ht : forall w1, writes hub_clusters w w1 (hb_clusters w) -> writes hub_clusters w (next_call w1) (hb_clusters w)).
  { intros w1 [H1 H2]. split; by rewrite ?rows_tick, ?rest_tick. }
  assert (H0 : writes hub_clusters w (next_call w) (hb_clusters w)) by (apply (writes_tick hub_clusters)).
  unfold Hub_Cluster_Reconcile. fold services. apply (runs_read faults hub_clusters); [by split; [|left]| |intros Hn; apply runs_ok; change (rows hub_clusters w) with (hb_clusters w) in Hn; by rewrite Hn].
  intros cluster Hc. change (rows hub_clusters w) with (hb_clusters w) in Hc. rewrite Hc. destruct services as [[|s l] err] eqn:Es; simpl.
  - destruct err as [err|]; [|by apply runs_ok]. split; [done|]. right. left. by exists err.
  - apply runs_seq, source_cidrs_spec; [intros Hf; split; [by apply Ht|by left]|intros e0 He; split; [done|right; right; by exists e0]|].
    intros pods w1 Hp Hw1. assert (H1 : writes hub_clusters w w1 (hb_clusters w)) by (destruct Hw1 as [-> | ->]; auto).
    apply (runs_Update faults hub_clusters); [intros Hf; split; [by apply Ht|by left]|destruct H1 as [-> _]; congruence|].
    intros w' Hw'. exists pods. split; [done|]. rewrite (proj1 H1) in Hw'. exact (writes_trans hub_clusters _ _ _ _ _ H1 Hw').
Qed.

End published.

(** * Examples *)

Definition ex_api_server (command : list string) : SystemPod := mkSystemPod "kube-system" "kube-apiserver-m1" (Some {[ "component" := "kube-apiserver" ]}) [command].
Definition ex_view (command : list string) : ClusterView :=
  mkClusterView [ex_api_server command] [("default-pool", ex_local_pool "10.1.0.0/16"); ("clusterlink-c2-pod-10-2-0-0-16", ex_local_pool "10.2.0.0/16")] [] [].
Definition ex_hub_c1 : Hub := mkHub 0 ∅ {[ "c1" := ex_pool_cluster "c1" [] [] ]} ∅.

Definition published_at (w : Hub) (k : string) : option (list string * list string) :=
  (fun c => (c_PodCIDRs (hc_Cluster c), c_ServiceCIDRs (hc_Cluster c))) <$> (hb_clusters w !! k).

Example cluster_published_c1 :
  published_at (fst (Hub_Cluster_Reconcile (fun _ => None) (fun _ => None) (fun _ => []) "c1"
    (ex_view ["kube-apiserver"; "--service-cluster-ip-range=10.96.7.1/12,fd00::1/108"]) Calico (Some "c1") ex_hub_c1)) "c1" =
  Some (["10.1.0.0/16"], ["10.96.0.0/12"; "fd00::/108"]).
Proof. by vm_compute. Qed.

(** Without the flag the controller gives up without an error. *)
Example no_flag_no_error :
  let out := Hub_Cluster_Reconcile (fun _ => None) (fun _ => None) (fun _ => []) "c1" (ex_view ["kube-apiserver"]) Calico (Some "c1") ex_hub_c1 in
  snd out = Good tt /\ published_at (fst out) "c1" = Some ([], []).
Proof. by vm_compute. Qed.

(** With etcd an enabled pool of another cluster would be published as one of the cluster's own. *)
Example external_etcd_pool_published :
  etcd_pod_cidrs (mkClusterView [] [] [] [("clusterlink-c2-pod-10-2-0-0-16", mkEtcdPool "1" "10.2.0.0/16" false "")]) = ["10.2.0.0/16"].
Proof. by vm_compute. Qed.

(** The watch on the pools in etcd does not survive a closed channel. *)
Example closed_watch_panics : on_pool_event PoolClosed = Panic.
Proof. reflexivity. Qed.
