(* ===== verification/HubCidrs.v ===== *)
(** The pod CIDRs of nodes: clusterlink/controllers/nodecidr/nodecidr_controller.go and the
adapters of the CNIs in nodecidr/adaper. The listers of ClusterNodes show what the [Hub]
stores. *)
From S2P Require Import Prelude GoStr LinkApi AgentController PodApi PodProg Calls Tables HubNodes HubPools.

Definition calicoCNI : string := "calico".

(** * The adapters *)

(** [unstructured.NestedString] of two fields: the value, when it is found. *)
Definition NestedString (obj : uobject) (f1 f2 : string) : option string :=
  match ufield f1 obj with
  | Some (UMap fields) => match ufield f2 fields with Some (UString s) => Some s | _ => None end
  | _ => None
  end.

(** [CniAdapter] *)
Record CniAdapter := mkAdapter { GetCIDRByNodeName : string -> list string + apierr; Synced : bool }.

(** [CommonAdapter]: the CIDRs of the node's spec. *)
Definition common_cidrs (nodes : gmap string KubeHost) (nodeName : string) : list string + apierr :=
  match nodes !! nodeName with Some node => inl (kh_PodCIDRs node) | None => inr (IsNotFound nodeName) end.

(** [CalicoAdapter]: the CIDRs of the node's block affinities. *)
Definition calico_cidrs (blockAffinities : list uobject) (nodeName : string) : list string + apierr :=
  inl (collect (fun obj =>
    match NestedString obj "spec" "node" with
    | None => None
    | Some node =>
        match NestedString obj "spec" "cidr" with
        | None => None
        | Some cidr => if node =s nodeName then Some cidr else None
        end
    end) blockAffinities).

(** A key of the etcd store: of a block affinity, or another. *)
Inductive etcd_key := BlockAffinityKey (Host CIDR : string) | OtherKey.

(** [CalicoETCDAdapter] *)
Fixpoint etcd_cidrs (keys : list etcd_key) (nodeName : string) : list string + apierr :=
  match keys with
  | [] => inl []
  | OtherKey :: _ => inr (OtherError "error converting Key to BlockAffinityKey")
  | BlockAffinityKey host cidr :: rest =>
      match etcd_cidrs rest nodeName with
      | inr err => inr err
      | inl podCIDRS => inl (if host =s nodeName then cidr :: podCIDRS else podCIDRS)
      end
  end.

(** The choice of [Start]; [etcd] lists the keys, or fails. The lister of nodes is empty: the
factory of its informer is not started. *)
Definition adapter_of (cluster : HubCluster) (nodes : gmap string KubeHost) (blocks : list uobject) (etcd : list etcd_key + apierr) : outcome CniAdapter :=
  match c_ClusterLinkOptions (hc_Cluster cluster) with
  | None => Panic
  | Some options =>
      if lo_CNI options =s calicoCNI then
        if CheckIsEtcd cluster then Ret (mkAdapter (fun n => match etcd with inl keys => etcd_cidrs keys n | inr err => inr err end) true)
        else Ret (mkAdapter (calico_cidrs blocks) true)
      else Ret (mkAdapter (common_cidrs nodes) true)
  end.
Definition started_nodeLister : gmap string KubeHost := ∅.

(** * Events *)

(** The key of an event about a node: the first ClusterNode with that node's name, of any
cluster, or else the name of the node. *)
Definition requeue (clusterNodes : list HubNode) (originNodeName : string) : string :=
  match first (fun n => cn_NodeName (hn_Node n) =s originNodeName) clusterNodes with
  | Some clusterNode => cn_Name (hn_Node clusterNode)
  | None => originNodeName
  end.

(** [CalicoAdapter]'s handlers: an object without a node is dropped. *)
Definition on_block (clusterNodes : list HubNode) (obj : uobject) : list string :=
  match NestedString obj "spec" "node" with Some node => [requeue clusterNodes node] | None => [] end.

(** [CommonAdapter]'s handlers. *)
Definition on_kube_node (clusterNodes : list HubNode) (node : KubeHost) : list string := [requeue clusterNodes (kh_Name node)].

(** [BlockEventHandler.onupdate]: the first key of another kind ends it. *)
Fixpoint onupdate (clusterNodes : list HubNode) (event : list etcd_key) : list string :=
  match event with
  | [] => []
  | OtherKey :: _ => []
  | BlockAffinityKey node _ :: rest => requeue clusterNodes node :: onupdate clusterNodes rest
  end.

(** What the syncer sends, and the handler's loop: the keys added and whether it is in sync. *)
Inductive syncer_event := Updates (updates : list etcd_key) | Status (inSync : bool).
Definition block_event (clusterNodes : list HubNode) (st : list string * bool) (e : syncer_event) : list string * bool :=
  match e with
  | Updates updates => (fst st ++ onupdate clusterNodes updates, snd st)
  | Status true => (fst st, true)
  | Status false => st
  end.

(** What an informer of ClusterNodes delivers: a pointer to the object, or a value. *)
Inductive node_object := NodePointer (n : HubNode) | NodeValue (n : HubNode).
Definition FilterFunc (clusterName : string) (obj : node_object) : bool :=
  match obj with NodeValue n => cn_ClusterName (hn_Node n) =s clusterName | NodePointer _ => false end.

(** * The controller *)

(** How a run ends: whether the key comes back after some time, and the error. *)
Definition outcome_of_key : Type := bool * option apierr.

Definition with_pod_cidrs (l : list string) (n : HubNode) : HubNode :=
  let c := hn_Node n in
  mkHubNode (hn_Labels n) (mkClusterNode (cn_Name c) (cn_ClusterName c) (cn_NodeName c) l (cn_IP c) (cn_IP6 c) (cn_Roles c) (cn_InterfaceName c)).

Section cidr_controller.
  Context (faults : nat -> option fault) (clusterName : string) (nodeLister : gmap string KubeHost) (cniAdapter : CniAdapter).

(** [retry.DefaultRetry]: five attempts, each with the same object. *)
Fixpoint update_again (attempts : nat) (k : string) (n : HubNode) : HM (option apierr) :=
  match attempts with
  | 0 => mok None
  | S attempts' =>
      mtry (Update faults hub_nodes k n) (fun _ => mok None) (fun err =>
        match err with IsConflict _ => if attempts' =? 0 then mok (Some err) else update_again attempts' k n | _ => mok (Some err) end)
  end.

Definition DefaultRetry_Steps : nat := 5.

(** The second half, on the ClusterNode that was found. *)
Definition sync_cidrs (clusterNode : HubNode) : HM outcome_of_key :=
  let originNodeName := cn_NodeName (hn_Node clusterNode) in
  let originClusterName := cn_ClusterName (hn_Node clusterNode) in
  if str_empty originClusterName || str_empty originNodeName then mok (true, None)
  else if negb (Synced cniAdapter) then mok (true, None)
  else
    match GetCIDRByNodeName cniAdapter originNodeName with
    | inr err => mok (false, Some err)
    | inl podCIDRs =>
        let clusterNodeCopy := with_pod_cidrs podCIDRs clusterNode in
        do! err := update_again DefaultRetry_Steps (cn_Name (hn_Node clusterNodeCopy)) clusterNodeCopy in mok (false, err)
    end.

Definition Cidr_Reconcile (key : option string) : HM outcome_of_key :=
  match key with
  | None => mok (false, Some (OtherError "invalid key"))
  | Some name =>
      do! found := (fun w => (w, Good (hb_nodes w !! name))) in
      match found with
      | Some clusterNode => sync_cidrs clusterNode
      | None =>
          let clusterNodeName := ClusterNodeName clusterName name in
          match GetCIDRByNodeName cniAdapter name with
          | inr err => mok (false, Some err)
          | inl nodePodcidr =>
              if (length nodePodcidr =? 0) && bool_decide (nodeLister !! name = None) then mok (false, None)
              else
                do! found := (fun w => (w, Good (hb_nodes w !! clusterNodeName))) in
                match found with
                | Some clusterNode => sync_cidrs clusterNode
                | None => mok (true, Some (IsNotFound clusterNodeName))
                end
          end
      end
  end.

End cidr_controller.

(** * Facts *)

Section cidr_facts.
  Context (faults : nat -> option fault) (clusterName : string) (nodeLister : gmap string KubeHost) (cniAdapter : CniAdapter).

Lemma update_again_spec k n : forall attempts w, 0 < attempts -> is_Some (rows hub_nodes w !! k) ->
  runs (update_again faults attempts k n) w (fun _ => False) (fun err w' =>
    err = None /\ writes hub_nodes w w' (<[k := n]> (rows hub_nodes w)) \/ faulty faults /\ is_Some err /\ writes hub_nodes w w' (rows hub_nodes w)).
Proof.
  induction attempts as [|a IH]; intros w Ha Hk; [lia|]. cbn [update_again]. unfold runs, mtry.
  destruct (Update_cases faults hub_nodes k n w) as [(ft & Hft & ->)|[[Hn _]|[_ ->]]].
  - assert (Hf : faulty faults) by (by exists (calls_made w), ft). assert (Hw : writes hub_nodes w (next_call w) (rows hub_nodes w)) by apply (writes_tick hub_nodes).
    destruct ft; simpl; [|right; split; [done|]; split; [by eexists|done]].
    destruct (Nat.eqb_spec a 0); [right; split; [done|]; split; [by eexists|done]|].
    eapply (runs_mono (update_again faults a k n)); [apply IH; [lia|by rewrite rows_tick]|done|].
    intros e w' [[-> Hr]|(_ & He & Hr)]; rewrite rows_tick in Hr; pose proof (writes_trans hub_nodes _ _ _ _ _ Hw Hr); [by left|by right].
  - by destruct Hk as [? Hk]; rewrite Hk in Hn.
  - left. split; [done|]. apply (writes_set hub_nodes).
Qed.

(** A ClusterNode whose names are set. *)
Definition has_names (n : HubNode) : bool := negb (str_empty (cn_ClusterName (hn_Node n))) && negb (str_empty (cn_NodeName (hn_Node n))).

Lemma sync_cidrs_spec n w podCIDRs : hb_nodes w !! cn_Name (hn_Node n) = Some n -> has_names n = true -> Synced cniAdapter = true ->
  GetCIDRByNodeName cniAdapter (cn_NodeName (hn_Node n)) = inl podCIDRs ->
  runs (sync_cidrs faults cniAdapter n) w (fun _ => False) (fun r w' =>
    r = (false, None) /\ writes hub_nodes w w' (<[cn_Name (hn_Node n) := with_pod_cidrs podCIDRs n]> (hb_nodes w)) \/
    faulty faults /\ (exists err, r = (false, Some err)) /\ writes hub_nodes w w' (hb_nodes w)).
Proof.
  intros Hn Hnames Hs Hc. unfold sync_cidrs. unfold has_names in Hnames. apply andb_true_iff in Hnames as [H1 H2]. apply negb_true_iff in H1, H2.
  rewrite H1, H2, Hs, Hc. cbn [orb negb]. apply runs_seq. eapply runs_mono; [apply (update_again_spec (cn_Name (hn_Node n))); [unfold DefaultRetry_Steps; lia|by exists n]|done|].
  intros err w' [[-> Hw]|(Hf & [e ->] & Hw)]; apply runs_ok; [by left|right]. split; [done|]. split; [by exists e|done].
Qed.

Lemma requeue_unique clusterNodes n : n ∈ clusterNodes -> (forall n', n' ∈ clusterNodes -> cn_NodeName (hn_Node n') = cn_NodeName (hn_Node n) -> n' = n) ->
  requeue clusterNodes (cn_NodeName (hn_Node n)) = cn_Name (hn_Node n).
Proof.
  intros Hin Hu. unfold requeue. destruct (first _ clusterNodes) as [n'|] eqn:E.
  - apply first_Some in E as [Hin' E]. apply bool_decide_eq_true in E. by rewrite (Hu n' Hin' E).
  - pose proof (proj1 (first_None _ _) E n Hin) as En. by apply bool_decide_eq_false in En.
Qed.

(** An event about a node is turned into a key (requeue of nodecidr/adaper) and the key is
reconciled (nodecidr_controller.go). When exactly one ClusterNode has the node's name, its
names are set, the CNI adapter is in sync and knows the node's CIDRs, then these are stored
in that ClusterNode and nothing else changes; or calls failed, the error is reported and
nothing changes. *)
Theorem cidrs_follow_event w clusterNodes n podCIDRs : named w -> (forall n', n' ∈ clusterNodes <-> exists k, hb_nodes w !! k = Some n') ->
  n ∈ clusterNodes -> (forall n', n' ∈ clusterNodes -> cn_NodeName (hn_Node n') = cn_NodeName (hn_Node n) -> n' = n) ->
  has_names n = true -> Synced cniAdapter = true -> GetCIDRByNodeName cniAdapter (cn_NodeName (hn_Node n)) = inl podCIDRs ->
  runs (Cidr_Reconcile faults clusterName nodeLister cniAdapter (Some (requeue clusterNodes (cn_NodeName (hn_Node n))))) w (fun _ => False) (fun r w' =>
    r = (false, None) /\ writes hub_nodes w w' (<[cn_Name (hn_Node n) := with_pod_cidrs podCIDRs n]> (hb_nodes w)) \/
    faulty faults /\ (exists err, r = (false, Some err)) /\ writes hub_nodes w w' (hb_nodes w)).
Proof.
  intros [Hnamed _] Hlist Hin Hu Hnames Hs Hc. rewrite (requeue_unique _ _ Hin Hu). apply Hlist in Hin as [k Hk].
  assert (Hn : hb_nodes w !! cn_Name (hn_Node n) = Some n) by (by rewrite (Hnamed _ _ Hk)).
  unfold Cidr_Reconcile. apply runs_seq. unfold runs at 1. rewrite Hn. by apply sync_cidrs_spec.
Qed.

End cidr_facts.

(** ** The adapters *)

(** The adapters of Calico give the CIDRs of exactly the node's blocks. *)
Lemma calico_cidrs_spec blocks nodeName : exists l, calico_cidrs blocks nodeName = inl l /\
  forall cidr, cidr ∈ l <-> exists obj, obj ∈ blocks /\ NestedString obj "spec" "node" = Some nodeName /\ NestedString obj "spec" "cidr" = Some cidr.
Proof.
  eexists. split; [done|]. intros cidr. rewrite elem_of_collect. split.
  - intros (obj & Hin & E). exists obj. split; [done|]. destruct (NestedString obj "spec" "node") as [node|]; [|done]. destruct (NestedString obj "spec" "cidr"); [|done].
    destruct (bool_decide_reflect (node = nodeName)) as [-> |]; [|done]. by injection E as ->.
  - intros (obj & Hin & Hn & Hc). exists obj. split; [done|]. by rewrite Hn, Hc, bool_decide_eq_true_2.
Qed.

Lemma etcd_cidrs_spec nodeName keys : OtherKey ∉ keys -> exists l, etcd_cidrs keys nodeName = inl l /\ forall cidr, cidr ∈ l <-> BlockAffinityKey nodeName cidr ∈ keys.
Proof.
  induction keys as [|[host c|] keys IH]; intros Hk; [exists []; set_solver| |destruct Hk; by left].
  destruct IH as (l & E & Hl); [set_solver|]. simpl. rewrite E. eexists. split; [done|]. intros cidr. destruct (bool_decide_reflect (host = nodeName)) as [-> |Hne]; rewrite !elem_of_cons.
  - rewrite Hl. naive_solver.
  - rewrite Hl. naive_solver.
Qed.

(** * Examples *)

Definition ex_block (node cidr : string) : uobject := [("spec", UMap [("node", UString node); ("cidr", UString cidr)])].
Definition ex_adapter : CniAdapter := mkAdapter (calico_cidrs [ex_block "a" "10.1.0.0/26"; ex_block "b" "10.1.0.64/26"; ex_block "a" "10.1.1.0/26"]) true.
Definition ex_c1_a : HubNode := ex_hub_node "c1" "a" [].
Definition ex_c2_a : HubNode := ex_hub_node "c2" "a" [].
Definition cidrs_at (w : Hub) (k : string) : option (list string) := cn_PodCIDRs ∘ hn_Node <$> (hb_nodes w !! k).

Lemma cidrs_follow_event_witness :
  runs (Cidr_Reconcile (fun _ => None) "c1" ∅ ex_adapter (Some (requeue [ex_c1_a] "a"))) (ex_hub [ex_c1_a] []) (fun _ => False) (fun r w' =>
    r = (false, None) /\ writes hub_nodes (ex_hub [ex_c1_a] []) w' (<["c1-a" := with_pod_cidrs ["10.1.0.0/26"; "10.1.1.0/26"] ex_c1_a]> (hb_nodes (ex_hub [ex_c1_a] []))) \/
    faulty (fun _ => None) /\ (exists err, r = (false, Some err)) /\ writes hub_nodes (ex_hub [ex_c1_a] []) w' (hb_nodes (ex_hub [ex_c1_a] []))).
Proof.
  apply (cidrs_follow_event (fun _ => None) "c1" ∅ ex_adapter (ex_hub [ex_c1_a] []) [ex_c1_a] ex_c1_a ["10.1.0.0/26"; "10.1.1.0/26"]).
  - apply named_by; refine (bool_decide_eq_true_1 _ _); by vm_compute.
  - intros n'. rewrite list_elem_of_singleton. unfold ex_hub. cbn [hb_nodes map list_to_map foldr]. split.
    + intros ->. exists "c1-a". apply lookup_insert_eq.
    + intros [k Hk]. apply lookup_insert_Some in Hk as [[_ <-]|[_ Hk]]; [done|]. by rewrite lookup_empty in Hk.
  - by left.
  - intros n' Hn' _. by apply list_elem_of_singleton in Hn'.
  - reflexivity.
  - reflexivity.
  - reflexivity.
Defined.

(** Two clusters with a node of the same name: the event of the first cluster's node reaches the
ClusterNode that is listed first, which may be the other cluster's, and stores the CIDRs there. *)
Example other_cluster_gets_cidrs :
  let w := ex_hub [ex_c1_a; ex_c2_a] [] in
  let w' := fst (Cidr_Reconcile (fun _ => None) "c1" ∅ ex_adapter (Some (requeue [ex_c2_a; ex_c1_a] "a")) w) in
  cidrs_at w' "c1-a" = Some [] /\ cidrs_at w' "c2-a" = Some ["10.1.0.0/26"; "10.1.1.0/26"].
Proof. by vm_compute. Qed.

(** The events of ClusterNodes are all dropped: informers deliver pointers. *)
Example cluster_node_events_dropped : FilterFunc "c1" (NodePointer ex_c1_a) = false /\ FilterFunc "c1" (NodeValue ex_c1_a) = true.
Proof. by vm_compute. Qed.

(** A node without blocks and without a ClusterNode counts as removed, whether it exists or not:
the lister of nodes is empty. *)
Example node_counts_as_removed :
  snd (Cidr_Reconcile (fun _ => None) "c1" started_nodeLister ex_adapter (Some "z") (ex_hub [] [])) = Good (false, None).
Proof. by vm_compute. Qed.
