(* ===== verification/KernelTables.v ===== *)
(** The agent's iptables and sysctl files: clusterlink/network/iptables.go and env.go, with
the adapter of clusterlink/network/iptables.

The program iptables is behind the interface [Basic] of the adapter: a class with the
operations, and a class with what they do to the rules of a chain.  Errors are their
texts; the context a caller adds to a text is shortened. *)
From S2P Require Import Prelude GoStr LinkApi.

(** * The interface to iptables *)

Inductive proto := ProtocolIPv4 | ProtocolIPv6.
#[export] Instance proto_eq_dec : EqDecision proto. Proof. solve_decision. Defined.

(** [Basic] for both protocols; [New] fails with an error. *)
Class Basic (K : Type) := {
  New : proto -> K -> option string;
  Append : proto -> string -> string -> list string -> K -> K * option string;
  BasicDelete : proto -> string -> string -> list string -> K -> K * option string;
  Insert : proto -> string -> string -> nat -> list string -> K -> K * option string;
  ListRules : proto -> string -> string -> K -> list string + string;
  ChainExists : proto -> string -> string -> K -> bool + string;
  NewChain : proto -> string -> string -> K -> K * option string;
  ClearChain : proto -> string -> string -> K -> K * option string }.

(** The text of a rule. *)
Definition rule_text (ruleSpec : list string) : string := Join " " ruleSpec.

Section adapter.
  Context {K : Type} `{Basic K} (p : proto).

(** ** The adapter *)

Definition CreateChainIfNotExists (table chain : string) (k : K) : K * option string :=
  match ChainExists p table chain k with
  | inl true => (k, None)
  | inr err => (k, Some err)
  | inl false => NewChain p table chain k
  end.

(** The positions of the listed lines that contain the rule. *)
Definition occurrences (rules : list string) (ruleSpec : list string) : list nat :=
  collect (fun ir => if Contains_str (snd ir) (rule_text ruleSpec) then Some (fst ir) else None) (imap pair rules).

Fixpoint delete_times (n : nat) (table chain : string) (ruleSpec : list string) (k : K) : K * option string :=
  match n with
  | 0 => (k, None)
  | S n' =>
      match BasicDelete p table chain ruleSpec k with
      | (k, Some err) => (k, Some ("error deleting stale IP table rule " +:+ err))
      | (k, None) => delete_times n' table chain ruleSpec k
      end
  end.

Definition InsertUnique (table chain : string) (position : nat) (ruleSpec : list string) (k : K) : K * option string :=
  match ListRules p table chain k with
  | inr err => (k, Some ("error listing the rules " +:+ err))
  | inl rules =>
      let found := occurrences rules ruleSpec in
      let numOccurrences := length found in
      let isPresentAtRequiredPosition := bool_decide (position ∈ found) in
      let '(k, err) :=
        if (1 <? numOccurrences) || negb isPresentAtRequiredPosition then delete_times numOccurrences table chain ruleSpec k else (k, None) in
      match err with
      | Some err => (k, Some err)
      | None =>
          if (numOccurrences =? 1) && isPresentAtRequiredPosition then (k, None) else Insert p table chain position ruleSpec k
      end
  end.

Definition PrependUnique (table chain : string) (ruleSpec : list string) (k : K) : K * option string := InsertUnique table chain 1 ruleSpec k.

(** [strings.Trim(s, space)] *)
Fixpoint trim_left (s : string) : string := match s with String " " s' => trim_left s' | _ => s end.
Fixpoint trim_right (s : string) : string :=
  match s with
  | EmptyString => EmptyString
  | String c s' => match trim_right s' with EmptyString => if bool_decide (c = " "%char) then EmptyString else String c EmptyString | t => String c t end
  end.
Definition TrimSpaces (s : string) : string := trim_right (trim_left s).

(** The rules of the listed lines; a line with the command alone panics. *)
Fixpoint existing_rules (lines : list string) : outcome (gset string) :=
  match lines with
  | [] => Ret ∅
  | line :: rest =>
      s ← existing_rules rest;
      match Split " " line with
      | "-A" :: ruleSpec => match ruleSpec with [] => Panic | _ :: ruleSpec => Ret ({[ TrimSpaces (Join " " ruleSpec) ]} ∪ s) end
      | _ => Ret s
      end
  end.

Fixpoint append_missing (table chain : string) (rules : list (list string)) (present : gset string) (k : K) : K * (gset string + string) :=
  match rules with
  | [] => (k, inl present)
  | ruleSpec :: rest =>
      let ruleString := rule_text ruleSpec in
      if bool_decide (ruleString ∈ present) then append_missing table chain rest (present ∖ {[ ruleString ]}) k
      else match Append p table chain ruleSpec k with
           | (k, Some err) => (k, inr ("error adding rule " +:+ err))
           | (k, None) => append_missing table chain rest present k
           end
  end.

(** Errors of deletions are only logged. *)
Definition delete_stale (table chain : string) (stale : list string) (k : K) : K :=
  foldl (fun k rule => fst (BasicDelete p table chain (Split " " rule) k)) k stale.

Definition UpdateChainRules (table chain : string) (rules : list (list string)) (k : K) : outcome (K * option string) :=
  match ListRules p table chain k with
  | inr err => Ret (k, Some ("error listing the rules " +:+ err))
  | inl lines =>
      present ← existing_rules lines;
      Ret (match append_missing table chain rules present k with
           | (k, inr err) => (k, Some err)
           | (k, inl stale) => (delete_stale table chain (elements stale) k, None)
           end)
  end.

End adapter.

(** * iptables.go *)

Definition ClusterLinkPreRoutingChain : string := "CLUSTERLINK-PREROUTING".
Definition ClusterLinkPostRoutingChain : string := "CLUSTERLINK-POSTROUTING".

Definition isIpt6 (r : Iptables) : bool := Contains_str (ipt_Rule r) ":".

(** The key of an unknown chain gives the empty string. *)
Definition translateChainName (key : string) (f : bool) : string :=
  if f then
    if key =s "PREROUTING" then ClusterLinkPreRoutingChain else if key =s "POSTROUTING" then ClusterLinkPostRoutingChain else ""
  else if ClusterLinkPreRoutingChain =s key then "PREROUTING" else "POSTROUTING".

Section tables.
  Context {K : Type} `{Basic K}.

(** [groupByTableChain] of a single record and the split of its key: the table and the chain
are the first two parts. *)
Definition table_chain (ipts : Iptables) : outcome (string * string) :=
  match Split "/" (ipt_Table ipts +:+ "/" +:+ translateChainName (ipt_Chain ipts) true) with
  | table :: chain :: _ => Ret (table, chain)
  | _ => Panic
  end.

Definition proto_of (ipts : Iptables) : proto := if negb (isIpt6 ipts) then ProtocolIPv4 else ProtocolIPv6.

Definition on_rule (op : proto -> string -> string -> list string -> K -> K * option string) (ipts : Iptables) (k : K) : outcome (K * option string) :=
  let p := proto_of ipts in
  match New p k with
  | Some err => Ret (k, Some ("new iptablesHandler error, " +:+ err))
  | None =>
      tc ← table_chain ipts;
      Ret (match op p (fst tc) (snd tc) (Split " " (ipt_Rule ipts)) k with
           | (k, Some err) => (k, Some ("update iptables error, " +:+ err))
           | r => r
           end)
  end.

Definition tables_addIptables : Iptables -> K -> outcome (K * option string) := on_rule Append.
Definition tables_deleteIptable : Iptables -> K -> outcome (K * option string) := on_rule BasicDelete.

(** A listed line without its command and chain; shorter lines panic. *)
Definition loaded_rule (chainName rule : string) : outcome Iptables :=
  match Split " " rule with
  | _ :: _ :: rest => Ret (mkIptables "nat" (translateChainName chainName false) (Join " " rest))
  | _ => Panic
  end.

Fixpoint loaded_rules (chainName : string) (rules : list string) : outcome (list Iptables) :=
  match rules with
  | [] => Ret []
  | rule :: rest => i ← loaded_rule chainName rule; l ← loaded_rules chainName rest; Ret (i :: l)
  end.

(** The chains in the order in which they are listed. *)
Definition link_chains : list (proto * string) :=
  [(ProtocolIPv4, ClusterLinkPreRoutingChain); (ProtocolIPv4, ClusterLinkPostRoutingChain);
   (ProtocolIPv6, ClusterLinkPreRoutingChain); (ProtocolIPv6, ClusterLinkPostRoutingChain)].

Fixpoint load_chains (chains : list (proto * string)) (k : K) : outcome (list Iptables + string) :=
  match chains with
  | [] => Ret (inl [])
  | (p, chainName) :: rest =>
      match New p k with
      | Some err => Ret (inr ("failed to loadIptables " +:+ err))
      | None =>
          match ListRules p "nat" chainName k with
          | inr err => Ret (inr err)
          | inl rules =>
              ipts ← loaded_rules chainName (drop 1 rules);
              r ← load_chains rest k;
              Ret (match r with inl l => inl (ipts ++ l) | inr err => inr err end)
          end
      end
  end.

Definition tables_loadIptables : K -> outcome (list Iptables + string) := load_chains link_chains.

(** Steps that stop at the first error. *)
Fixpoint steps (l : list (K -> K * option string)) (k : K) : K * option string :=
  match l with
  | [] => (k, None)
  | f :: rest => match f k with (k, Some err) => (k, Some err) | (k, None) => steps rest k end
  end.

Definition CreateGlobalNetIptablesChains : K -> K * option string :=
  steps (flat_map (fun p => [
    (fun k => (k, New p k));
    CreateChainIfNotExists p "nat" ClusterLinkPreRoutingChain;
    PrependUnique p "nat" "PREROUTING" ["-j"; ClusterLinkPreRoutingChain];
    CreateChainIfNotExists p "nat" ClusterLinkPostRoutingChain;
    PrependUnique p "nat" "POSTROUTING" ["-j"; ClusterLinkPostRoutingChain]]) [ProtocolIPv4; ProtocolIPv6]).

Definition ClearGlobalNetIptablesChains (isIpv6 : bool) : K -> K * option string :=
  let p := if isIpv6 then ProtocolIPv6 else ProtocolIPv4 in
  steps [(fun k => (k, New p k)); ClearChain p "nat" ClusterLinkPreRoutingChain; ClearChain p "nat" ClusterLinkPostRoutingChain].

(** * env.go *)

Definition UpdateDefaultIPtablesBehavior (p : proto) (ifaceName : string) : K -> K * option string :=
  steps [(fun k => (k, New p k)); PrependUnique p "filter" "FORWARD" ["-o"; ifaceName; "-j"; "ACCEPT"]].

End tables.

(** The files under /proc/sys, and the tasks of the watch dog in their order. *)
Record Sysctl := mkSysctl { sy_files : gmap string string; sy_tasks : list (string * string) }.

Fixpoint AddTask (path contents : string) (tasks : list (string * string)) : list (string * string) :=
  match tasks with
  | [] => [(path, contents)]
  | (p, c) :: rest => if p =s path then (p, contents) :: rest else (p, c) :: AddTask path contents rest
  end.

(** [bytes.Trim(existing, newline)] *)
Definition newline : ascii := ascii_of_nat 10.
Fixpoint trim_newlines_left (s : string) : string := match s with String c s' => if bool_decide (c = newline) then trim_newlines_left s' else s | _ => s end.
Fixpoint trim_newlines_right (s : string) : string :=
  match s with
  | EmptyString => EmptyString
  | String c s' => match trim_newlines_right s' with EmptyString => if bool_decide (c = newline) then EmptyString else String c EmptyString | t => String c t end
  end.
Definition trim_newlines (s : string) : string := trim_newlines_right (trim_newlines_left s).

(** The files are never created. *)
Definition setSysctl (path contents : string) (y : Sysctl) : Sysctl * option string :=
  match sy_files y !! path with
  | None => (y, Some "no such file")
  | Some existing =>
      if trim_newlines existing =s contents then (y, None)
      else (mkSysctl (<[path := contents]> (sy_files y)) (sy_tasks y), None)
  end.

Definition Watch (y : Sysctl) : Sysctl := foldl (fun y task => fst (setSysctl (fst task) (snd task) y)) y (sy_tasks y).

Definition setSysctlAndWatch (path contents : string) (y : Sysctl) : Sysctl * option string :=
  setSysctl path contents (mkSysctl (sy_files y) (AddTask path contents (sy_tasks y))).

Definition EnableLooseModeByIFaceNmae (ifaceName : string) : Sysctl -> Sysctl * option string :=
  setSysctlAndWatch ("/proc/sys/net/ipv4/conf/" +:+ ifaceName +:+ "/rp_filter") "2".

Definition EnableDisableIPV6ByIFaceNmae (ifaceName : string) : Sysctl -> Sysctl * option string :=
  setSysctlAndWatch ("/proc/sys/net/ipv6/conf/" +:+ ifaceName +:+ "/disable_ipv6") "0".

Definition FLANNEL_DEV_NAME_PREFIX : string := "flannel".

(** Every link is tried; the last error wraps the earlier ones. *)
Definition EnableLooseModeForFlannel (LinkList : list string + string) (y : Sysctl) : Sysctl * option string :=
  match LinkList with
  | inr err => (y, Some err)
  | inl links =>
      foldl (fun st linkName =>
        if HasPrefix linkName FLANNEL_DEV_NAME_PREFIX then
          match setSysctlAndWatch ("/proc/sys/net/ipv4/conf/" +:+ linkName +:+ "/rp_filter") "2" (fst st) with
          | (y, Some err) => (y, Some (default "<nil>" (snd st) +:+ ": unable to update flannel rp_filter proc entry: " +:+ err))
          | (y, None) => (y, snd st)
          end
        else st) (y, None) links
  end.

(** * What the operations of iptables do *)

(** The lines of [iptables -S]: the first names the chain, the others are its rules. *)
Definition rule_line (chain rule : string) : string := "-A " +:+ chain +:+ " " +:+ rule.
#[global] Arguments rule_line _ _ : simpl never.
Definition header_line (chain header : string) : Prop :=
  header = "-N " +:+ chain \/ header = "-P " +:+ chain +:+ " ACCEPT" \/ header = "-P " +:+ chain +:+ " DROP".

Fixpoint remove_first (x : string) (l : list string) : list string :=
  match l with [] => [] | y :: l' => if y =s x then l' else y :: remove_first x l' end.

Class BasicLaws {K : Type} `(Basic K) := {
  chain_of : K -> proto -> string -> string -> option (list string);
  chain_set (p : proto) (t c : string) (rules : list string) (k k' : K) : Prop :=
    chain_of k' p t c = Some rules /\ forall p' t' c', (p', t', c') <> (p, t, c) -> chain_of k' p' t' c' = chain_of k p' t' c';
  List_law : forall p t c k l, ListRules p t c k = inl l -> exists header rules,
    chain_of k p t c = Some rules /\ header_line c header /\ l = header :: map (rule_line c) rules;
  Append_law : forall p t c spec k k', Append p t c spec k = (k', None) -> exists rules,
    chain_of k p t c = Some rules /\ chain_set p t c (rules ++ [rule_text spec]) k k';
  (** A rule that is not there is no error. *)
  Delete_law : forall p t c spec k k', BasicDelete p t c spec k = (k', None) -> exists rules,
    chain_of k p t c = Some rules /\ chain_set p t c (remove_first (rule_text spec) rules) k k';
  Insert_law : forall p t c n spec k k', Insert p t c (S n) spec k = (k', None) -> exists rules,
    chain_of k p t c = Some rules /\ chain_set p t c (take n rules ++ rule_text spec :: drop n rules) k k';
  ChainExists_law : forall p t c k b, ChainExists p t c k = inl b -> b = bool_decide (is_Some (chain_of k p t c));
  NewChain_law : forall p t c k k', NewChain p t c k = (k', None) -> chain_set p t c [] k k';
  ClearChain_law : forall p t c k k', ClearChain p t c k = (k', None) -> chain_set p t c [] k k';
  (** A command that fails changes nothing. *)
  Append_fails : forall p t c spec k k' e, Append p t c spec k = (k', Some e) -> k' = k;
  Delete_fails : forall p t c spec k k' e, BasicDelete p t c spec k = (k', Some e) -> k' = k;
  Insert_fails : forall p t c n spec k k' e, Insert p t c n spec k = (k', Some e) -> k' = k }.

(** ** Unique rules *)

Lemma Contains_app_r a b : Contains_str (a +:+ b) b = true.
Proof.
  induction a as [|c a IH].
  - change ("" +:+ b) with b. destruct b as [|d b]; [done|]. simpl. rewrite bool_decide_eq_true_2 by done. pose proof (HasPrefix_app b "") as E. rewrite str_app_nil_r in E. by rewrite E.
  - change (String c a +:+ b) with (String c (a +:+ b)). simpl. by rewrite IH, orb_true_r.
Qed.

Lemma occurrences_elem rules spec n : n ∈ occurrences rules spec <-> exists r, rules !! n = Some r /\ Contains_str r (rule_text spec) = true.
Proof.
  unfold occurrences. rewrite elem_of_collect. split.
  - intros ([i r] & Hin & E). apply list_elem_of_lookup in Hin as [j Hj]. rewrite list_lookup_imap in Hj. destruct (rules !! j) as [r'|] eqn:Er; [|done].
    simpl in Hj. injection Hj as -> ->. simpl in E. destruct (Contains_str r (rule_text spec)) eqn:Ec; [|done]. injection E as ->. by exists r.
  - intros (r & Hr & Hc). exists (n, r). simpl. rewrite Hc. split; [|done]. apply list_elem_of_lookup. exists n. by rewrite list_lookup_imap, Hr.
Qed.

Lemma collect_count {A B} (f : A -> option B) l : length (collect f l) = length (List.filter (fun a => match f a with Some _ => true | None => false end) l).
Proof. induction l as [|a l IH]; [done|]. simpl. destruct (f a); simpl; by rewrite IH. Qed.

Lemma filter_snd_imap (q : string -> bool) (g : nat -> nat) l : length (List.filter (fun ir : nat * string => q (snd ir)) (imap (fun n r => (g n, r)) l)) = length (List.filter q l).
Proof.
  revert g. induction l as [|r l IH]; intros g; [done|]. rewrite imap_cons. simpl. destruct (q r); simpl; [f_equal|]; exact (IH (fun n => g (S n))).
Qed.

Lemma occurrences_length rules spec : length (occurrences rules spec) = length (List.filter (fun r => Contains_str r (rule_text spec)) rules).
Proof.
  unfold occurrences. rewrite collect_count. etransitivity; [|exact (filter_snd_imap _ (fun n => n) rules)].
  f_equal. apply filter_ext. intros [i r]. simpl. by destruct (Contains_str r (rule_text spec)).
Qed.

Lemma remove_first_absent x l : x ∉ l -> remove_first x l = l.
Proof. induction l as [|y l IH]; intros Hx; [done|]. simpl. rewrite bool_decide_eq_false_2 by set_solver. f_equal. apply IH. set_solver. Qed.

Definition others (x : string) (l : list string) : list string := List.filter (fun y => negb (y =s x)) l.
Definition copies (x : string) (l : list string) : list string := List.filter (fun y => y =s x) l.

Lemma remove_first_filter x l : others x (remove_first x l) = others x l /\ length (copies x (remove_first x l)) = pred (length (copies x l)).
Proof.
  induction l as [|y l [IH1 IH2]]; [done|]. simpl. destruct (bool_decide_reflect (y = x)) as [-> |Hne]; simpl.
  - done.
  - rewrite bool_decide_eq_false_2 by done. simpl. by rewrite IH1.
Qed.

Lemma no_copies x l : length (copies x l) = 0 -> others x l = l.
Proof.
  induction l as [|y l IH]; simpl; [done|]. destruct (bool_decide_reflect (y = x)) as [-> |Hne]; simpl; [done|]. intros Hl. by rewrite IH.
Qed.

Section unique.
  Context {K : Type} `{BasicLaws K} (p : proto) (t c : string).

Lemma chain_set_trans r1 r2 k k1 k2 : chain_set p t c r1 k k1 -> chain_set p t c r2 k1 k2 -> chain_set p t c r2 k k2.
Proof. intros [_ H1] [H2 H3]. split; [done|]. intros p' t' c' Hne. by rewrite H3, H1. Qed.

Lemma delete_times_spec spec : forall n k k' rules, chain_of k p t c = Some rules -> length (copies (rule_text spec) rules) <= n ->
  delete_times p n t c spec k = (k', None) -> chain_set p t c (others (rule_text spec) rules) k k'.
Proof.
  induction n as [|n IH]; intros k k' rules Hk Hn E; simpl in E.
  - injection E as <-. split; [|done]. rewrite no_copies by lia. done.
  - destruct (BasicDelete p t c spec k) as [k1 [err|]] eqn:Ed; [done|].
    apply Delete_law in Ed as (rules' & Hk' & Hs). assert (rules' = rules) as -> by congruence.
    destruct (remove_first_filter (rule_text spec) rules) as [H1 H2].
    rewrite <- H1. eapply chain_set_trans; [exact Hs|]. apply IH; [by destruct Hs|lia|done].
Qed.

(** No line contains the text of the rule except the rule itself. *)
Definition clean (spec : list string) (rules : list string) : Prop :=
  (forall h, header_line c h -> Contains_str h (rule_text spec) = false) /\
  (forall r, r ∈ rules -> Contains_str (rule_line c r) (rule_text spec) = true -> r = rule_text spec).

Lemma clean_lines spec rules header : clean spec rules -> header_line c header ->
  length (occurrences (header :: map (rule_line c) rules) spec) = length (copies (rule_text spec) rules) /\
  (1 ∈ occurrences (header :: map (rule_line c) rules) spec <-> head rules = Some (rule_text spec)).
Proof.
  intros [Hh Hr] Hheader.
  assert (Hiff : forall r, r ∈ rules -> Contains_str (rule_line c r) (rule_text spec) = bool_decide (r = rule_text spec)).
  { intros r Hin. destruct (bool_decide_reflect (r = rule_text spec)) as [-> |Hne].
    - unfold rule_line. rewrite <- !str_app_assoc. apply Contains_app_r.
    - apply not_true_iff_false. intros Hc. by apply Hne, Hr. }
  split.
  - rewrite occurrences_length. cbn [List.filter]. rewrite (Hh _ Hheader). unfold copies. clear Hh Hr. induction rules as [|r rules IH]; [done|]. cbn [map List.filter].
    rewrite (Hiff r) by (by left). specialize (IH (fun r' Hr' => Hiff r' (list_elem_of_further _ _ _ Hr'))).
    destruct (bool_decide (r = rule_text spec)); cbn [length]; by rewrite IH.
  - rewrite occurrences_elem. simpl. destruct rules as [|r rules]; simpl; [split; [by intros (? & ? & _)|done]|]. split.
    + intros (r' & E & Hc). injection E as <-. f_equal. apply Hr; [by left|done].
    + intros E. injection E as ->. exists (rule_line c (rule_text spec)). split; [done|]. rewrite Hiff by (by left). by apply bool_decide_eq_true_2.
Qed.

Lemma prepend_spec spec k k' : PrependUnique p t c spec k = (k', None) -> exists rules, chain_of k p t c = Some rules /\
  (clean spec rules -> chain_set p t c (rule_text spec :: others (rule_text spec) rules) k k').
Proof.
  unfold PrependUnique, InsertUnique. intros E. destruct (ListRules p t c k) as [lines|err] eqn:El; [|done].
  apply List_law in El as (header & rules & Hk & Hh & ->). exists rules. split; [done|]. intros Hc.
  destruct (clean_lines spec rules header Hc Hh) as [Hlen Hpos]. set (found := occurrences _ _) in *. set (text := rule_text spec) in *.
  destruct (decide (1 ∈ found)) as [H1|H1].
  - rewrite (bool_decide_eq_true_2 (1 ∈ found)) in E by done. pose proof (proj1 Hpos H1) as Hhead. rewrite andb_true_r, orb_false_r in E.
    destruct rules as [|r rules]; [done|]. simpl in Hhead. injection Hhead as ->.
    assert (Hcp : length (copies text (text :: rules)) = S (length (copies text rules))) by (unfold copies; simpl; by rewrite bool_decide_eq_true_2).
    assert (Hot : others text (text :: rules) = others text rules) by (unfold others; simpl; by rewrite bool_decide_eq_true_2).
    destruct (Nat.ltb_spec 1 (length found)) as [Hlt|Hle].
    + destruct (delete_times p (length found) t c spec k) as [k1 [err|]] eqn:Ed; [done|]. destruct (Nat.eqb_spec (length found) 1); [lia|].
      apply (delete_times_spec spec _ _ _ (text :: rules)) in Ed; [|done|fold text; lia]. apply Insert_law in E as (rules1 & Hk1 & Hs).
      destruct Ed as [Ed Ed']. fold text in Ed, Hs. assert (rules1 = others text (text :: rules)) as -> by congruence. rewrite take_0, drop_0 in Hs. eapply chain_set_trans; [split; [exact Ed|exact Ed']|exact Hs].
    + destruct (Nat.eqb_spec (length found) 1) as [E1|]; [|lia]. injection E as <-. rewrite Hot, no_copies by lia. split; [done|done].
  - rewrite (bool_decide_eq_false_2 (1 ∈ found)) in E by done. rewrite orb_true_r, andb_false_r in E.
    destruct (delete_times p (length found) t c spec k) as [k1 [err|]] eqn:Ed; [done|].
    apply (delete_times_spec spec _ _ _ rules) in Ed; [|done|fold text; lia]. apply Insert_law in E as (rules1 & Hk1 & Hs).
    destruct Ed as [Ed Ed']. fold text in Ed, Hs. assert (rules1 = others text rules) as -> by congruence. rewrite take_0, drop_0 in Hs. eapply chain_set_trans; [split; [exact Ed|exact Ed']|exact Hs].
Qed.

(** Whatever happens, only the chain is changed. *)
Definition other_chains (k k' : K) : Prop := forall p' t' c', (p', t', c') <> (p, t, c) -> chain_of k' p' t' c' = chain_of k p' t' c'.

Lemma delete_times_other spec n : forall k k' e, delete_times p n t c spec k = (k', e) -> other_chains k k'.
Proof.
  induction n as [|n IH]; intros k k' e E; simpl in E; [by injection E as <- _|]. destruct (BasicDelete p t c spec k) as [k1 [err|]] eqn:Ed.
  - injection E as <- _. by apply Delete_fails in Ed as ->.
  - apply Delete_law in Ed as (rules & _ & _ & Hs). intros p' t' c' Hne. by rewrite (IH _ _ _ E), Hs.
Qed.

Lemma prepend_other spec k k' e : PrependUnique p t c spec k = (k', e) -> other_chains k k'.
Proof.
  unfold PrependUnique, InsertUnique. destruct (ListRules p t c k) as [lines|err]; [|by intros [= <- _]].
  destruct ((1 <? _) || _)%nat; [destruct (delete_times p _ t c spec k) as [k1 [err|]] eqn:Ed|].
  - intros [= <- _]. by eapply delete_times_other.
  - apply delete_times_other in Ed. destruct (_ && _); [by intros [= <- _]|]. intros E p' t' c' Hne. rewrite <- (Ed p' t' c') by done.
    destruct e; [by apply Insert_fails in E as ->|]. apply Insert_law in E as (rules & _ & _ & Hs). by apply Hs.
  - destruct (_ && _); [by intros [= <- _]|]. intros E p' t' c' Hne. destruct e; [by apply Insert_fails in E as ->|]. apply Insert_law in E as (rules & _ & _ & Hs). by apply Hs.
Qed.

End unique.

(** ** The chains of the agent *)

Lemma steps_cons {K} (f : K -> K * option string) l k k' : steps (f :: l) k = (k', None) -> exists k1, f k = (k1, None) /\ steps l k1 = (k', None).
Proof. simpl. destruct (f k) as [k1 [err|]]; [done|]. eauto. Qed.

Lemma steps_app {K} (l1 l2 : list (K -> K * option string)) k k' : steps (l1 ++ l2) k = (k', None) -> exists k1, steps l1 k = (k1, None) /\ steps l2 k1 = (k', None).
Proof.
  revert k. induction l1 as [|f l1 IH]; intros k E; [by exists k|]. apply steps_cons in E as (k1 & Ef & E). destruct (IH k1 E) as (k2 & E1 & E2).
  exists k2. split; [|done]. simpl. by rewrite Ef.
Qed.

(** The base chains and the chains they jump to. *)
Definition base_chains : list (string * string) := [("PREROUTING", ClusterLinkPreRoutingChain); ("POSTROUTING", ClusterLinkPostRoutingChain)].
Definition jump (link : string) : list string := ["-j"; link].

Section chains.
  Context {K : Type} `{BasicLaws K}.

Lemma chain_create_spec p t c k k' : CreateChainIfNotExists p t c k = (k', None) -> chain_set p t c (default [] (chain_of k p t c)) k k'.
Proof.
  unfold CreateChainIfNotExists. destruct (ChainExists p t c k) as [[]|err] eqn:E; [| |done]; apply ChainExists_law in E.
  - intros [= <-]. symmetry in E. apply bool_decide_eq_true in E as [rules Hr]. rewrite Hr. split; [done|done].
  - intros E'. symmetry in E. apply bool_decide_eq_false in E. destruct (chain_of k p t c) as [rules|]; [destruct E; by eexists|]. by apply NewChain_law.
Qed.

(** What the steps for one base chain do. *)
Definition linked (p : proto) (base link : string) (k k' : K) : Prop :=
  (exists rules, chain_of k p "nat" base = Some rules /\ chain_of k' p "nat" base = Some (rule_text (jump link) :: others (rule_text (jump link)) rules)) /\
  chain_of k' p "nat" link = Some (default [] (chain_of k p "nat" link)) /\
  (forall p' t' c', (p', t', c') <> (p, "nat", base) -> (p', t', c') <> (p, "nat", link) -> chain_of k' p' t' c' = chain_of k p' t' c').

Definition all_clean (p : proto) (k : K) : Prop :=
  forall base link rules, (base, link) ∈ base_chains -> chain_of k p "nat" base = Some rules -> clean base (jump link) rules.

(** The chains of protocol [p] are set up and nothing else is changed. *)
Definition installed (p : proto) (k k' : K) : Prop :=
  (forall base link, (base, link) ∈ base_chains ->
    (exists rules, chain_of k p "nat" base = Some rules /\ chain_of k' p "nat" base = Some (rule_text (jump link) :: others (rule_text (jump link)) rules)) /\
    chain_of k' p "nat" link = Some (default [] (chain_of k p "nat" link))) /\
  (forall q t c, (q <> p \/ forall base link, (base, link) ∈ base_chains -> t <> "nat" \/ c <> base /\ c <> link) -> chain_of k' q t c = chain_of k q t c).

Lemma link_base p base link k k1 k2 : base <> link -> CreateChainIfNotExists p "nat" link k = (k1, None) -> PrependUnique p "nat" base (jump link) k1 = (k2, None) ->
  (forall rules, chain_of k p "nat" base = Some rules -> clean base (jump link) rules) -> linked p base link k k2.
Proof.
  intros Hne Hc Hp Hclean. apply chain_create_spec in Hc as [Hc1 Hc2]. apply prepend_spec in Hp as (rules & Hr & Hp).
  rewrite Hc2 in Hr by congruence. destruct (Hp (Hclean _ Hr)) as [Hp1 Hp2]. split; [by exists rules|]. split.
  - rewrite Hp2 by congruence. done.
  - intros p' t' c' H1 H2. by rewrite Hp2, Hc2.
Qed.

Lemma base_chains_elem base link : (base, link) ∈ base_chains <-> base = "PREROUTING" /\ link = ClusterLinkPreRoutingChain \/ base = "POSTROUTING" /\ link = ClusterLinkPostRoutingChain.
Proof. unfold base_chains. rewrite !elem_of_cons, elem_of_nil. naive_solver. Qed.

Lemma linked_twice p k km k' : linked p "PREROUTING" ClusterLinkPreRoutingChain k km -> linked p "POSTROUTING" ClusterLinkPostRoutingChain km k' -> installed p k k'.
Proof.
  intros ((r1 & A1 & A2) & A3 & A4) ((r2 & B1 & B2) & B3 & B4). split.
  - intros base link Hb. apply base_chains_elem in Hb as [[-> ->]|[-> ->]].
    + split; [exists r1; split; [done|]; by rewrite B4|by rewrite B4].
    + split; [exists r2; split; [by rewrite <- A4|done]|]. rewrite B3. by rewrite A4.
  - intros q t c Hq.
    assert (Hneq : forall x link, (x, link) ∈ base_chains -> (q, t, c) <> (p, "nat", x) /\ (q, t, c) <> (p, "nat", link)).
    { intros x link Hx. destruct Hq as [Hq|Hq]; [split; congruence|]. destruct (Hq x link Hx) as [?|[? ?]]; split; congruence. }
    destruct (Hneq "PREROUTING" ClusterLinkPreRoutingChain) as [N1 N2]; [apply base_chains_elem; auto|].
    destruct (Hneq "POSTROUTING" ClusterLinkPostRoutingChain) as [N3 N4]; [apply base_chains_elem; auto|]. by rewrite B4, A4.
Qed.

Lemma install_proto p k k' : all_clean p k ->
  steps [(fun k => (k, New p k)); CreateChainIfNotExists p "nat" ClusterLinkPreRoutingChain; PrependUnique p "nat" "PREROUTING" ["-j"; ClusterLinkPreRoutingChain];
    CreateChainIfNotExists p "nat" ClusterLinkPostRoutingChain; PrependUnique p "nat" "POSTROUTING" ["-j"; ClusterLinkPostRoutingChain]] k = (k', None) -> installed p k k'.
Proof.
  intros Hclean E. apply steps_cons in E as (k0 & E0 & E). injection E0 as <- _. apply steps_cons in E as (k1 & E1 & E). apply steps_cons in E as (k2 & E2 & E).
  apply steps_cons in E as (k3 & E3 & E). apply steps_cons in E as (k4 & E4 & E). injection E as <-.
  pose proof (link_base p "PREROUTING" ClusterLinkPreRoutingChain k k1 k2 ltac:(done) E1 E2) as L1. specialize (L1 (fun rules => Hclean _ _ rules (proj2 (base_chains_elem _ _) (or_introl (conj eq_refl eq_refl))))).
  apply (linked_twice p k k2); [done|]. apply (link_base p "POSTROUTING" _ k2 k3 k4); [done|done|done|]. intros rules Hr. apply Hclean; [apply base_chains_elem; by right|].
  destruct L1 as (_ & _ & Hfr). by rewrite <- Hfr.
Qed.

(** C31: when the agent has set up its chains (CreateGlobalNetIptablesChains of
clusterlink/network/iptables.go) without an error, the chains exist for both protocols with
the rules they had, the first rule of PREROUTING and POSTROUTING jumps to them and occurs
only there, the other rules of these chains are kept in their order and no other chain is
changed; if the rules that were there contain a jump to the agent's chains only as it is. *)
Theorem chains_linked k k' : CreateGlobalNetIptablesChains k = (k', None) -> (forall p, all_clean p k) ->
  forall p, (forall base link, (base, link) ∈ base_chains ->
    (exists rules, chain_of k p "nat" base = Some rules /\ chain_of k' p "nat" base = Some (rule_text (jump link) :: others (rule_text (jump link)) rules)) /\
    chain_of k' p "nat" link = Some (default [] (chain_of k p "nat" link))) /\
  (forall t c, (forall base link, (base, link) ∈ base_chains -> t <> "nat" \/ c <> base /\ c <> link) -> chain_of k' p t c = chain_of k p t c).
Proof.
  intros E Hclean p. unfold CreateGlobalNetIptablesChains in E. cbn [flat_map] in E. apply steps_app in E as (k1 & E4 & E6). rewrite app_nil_r in E6.
  apply install_proto in E4 as [A1 A2]; [|done]. apply install_proto in E6 as [B1 B2].
  2:{ intros base link rules Hb Hr. apply (Hclean ProtocolIPv6); [done|]. by rewrite <- A2 by (by left). }
  split.
  - intros base link Hb. destruct p.
    + rewrite !(B2 ProtocolIPv4) by (by left). by apply A1.
    + rewrite <- !(A2 ProtocolIPv6) by (by left). by apply B1.
  - intros t c Hc. rewrite B2, A2 by (by right). done.
Qed.

End chains.

(** ** Loading, adding and deleting the agent's rules *)

Lemma loaded_rule_line chain rule : (" "%char ∉ String.list_ascii_of_string chain) ->
  loaded_rule chain (rule_line chain rule) = Ret (mkIptables "nat" (translateChainName chain false) rule).
Proof.
  intros Hc. unfold loaded_rule, rule_line.
  change ("-A " +:+ chain +:+ " " +:+ rule) with ("-A" +:+ String " " (chain +:+ String " " rule)).
  rewrite Split_app by (vm_compute; set_solver). rewrite Split_app by done. by rewrite Join_Split.
Qed.

Lemma loaded_rules_lines chain rules : (" "%char ∉ String.list_ascii_of_string chain) ->
  loaded_rules chain (map (rule_line chain) rules) = Ret (map (fun r => mkIptables "nat" (translateChainName chain false) r) rules).
Proof. intros Hc. induction rules as [|r rules IH]; [done|]. cbn [map loaded_rules]. rewrite loaded_rule_line by done. simpl. by rewrite IH. Qed.

Lemma link_chain_space p c : (p, c) ∈ link_chains -> (" "%char ∉ String.list_ascii_of_string c).
Proof. unfold link_chains. rewrite !elem_of_cons, elem_of_nil. intros [E|[E|[E|[E|[]]]]]; injection E as -> ->; vm_compute; set_solver. Qed.

Section loading.
  Context {K : Type} `{BasicLaws K}.

(** The rules of a chain as the agent shows them. *)
Definition shown (k : K) (pc : proto * string) : list Iptables :=
  map (fun r => mkIptables "nat" (translateChainName (snd pc) false) r) (default [] (chain_of k (fst pc) "nat" (snd pc))).

Lemma load_chains_spec k : forall chains l, (forall pc, pc ∈ chains -> pc ∈ link_chains) -> load_chains chains k = Ret (inl l) -> l = flat_map (shown k) chains.
Proof.
  induction chains as [|[p c] chains IH]; intros l Hin E; simpl in E; [by injection E as <-|].
  destruct (New p k); [done|]. destruct (ListRules p "nat" c k) as [lines|] eqn:El; [|done].
  apply List_law in El as (header & rules & Hk & _ & ->). simpl in E. rewrite drop_0, loaded_rules_lines in E by (apply (link_chain_space p), Hin; by left). simpl in E.
  destruct (load_chains chains k) as [[l'|]|] eqn:Er; simpl in E; [|done|done]. injection E as <-.
  cbn [flat_map]. unfold shown at 1. simpl. rewrite Hk. f_equal. apply IH; [|done]. intros pc Hpc. apply Hin. by right.
Qed.

(** A rule of the agent: in the table and one of the chains that are loaded. *)
Definition own_rule (i : Iptables) : Prop := ipt_Table i = "nat" /\ (ipt_Chain i = "PREROUTING" \/ ipt_Chain i = "POSTROUTING").

Definition home (i : Iptables) : proto * string := (proto_of i, translateChainName (ipt_Chain i) true).

Lemma own_rule_home i : own_rule i -> home i ∈ link_chains /\ table_chain i = Ret ("nat", snd (home i)) /\ translateChainName (snd (home i)) false = ipt_Chain i.
Proof.
  intros [Ht Hc]. unfold home, table_chain. rewrite Ht. destruct Hc as [-> | ->]; (split; [|done]); unfold link_chains; destruct (proto_of i); simpl; rewrite !elem_of_cons; auto.
Qed.

(** The rules of IPv6 are those with a colon. *)
Definition by_protocol (k : K) : Prop := forall p c rules r, (p, c) ∈ link_chains -> chain_of k p "nat" c = Some rules -> r ∈ rules ->
  p = if Contains_str r ":" then ProtocolIPv6 else ProtocolIPv4.

Lemma shown_other i rules k k' pc : chain_set (fst (home i)) "nat" (snd (home i)) rules k k' -> pc <> home i -> shown k' pc = shown k pc.
Proof.
  intros [_ Hs] Hne. unfold shown. rewrite Hs; [done|]. destruct pc as [p c], (home i) as [q d]. simpl. congruence.
Qed.

Lemma link_chains_NoDup : NoDup link_chains.
Proof. refine (bool_decide_eq_true_1 _ _). by vm_compute. Qed.

(** Two states that differ in one of the chains. *)
Lemma flat_map_change {A B} (f g : A -> list B) x l : NoDup l -> x ∈ l -> (forall y, y <> x -> g y = f y) ->
  exists before after, flat_map f l = before ++ f x ++ after /\ flat_map g l = before ++ g x ++ after.
Proof.
  intros Hnd Hx Hne. induction l as [|y l IH]; [by apply elem_of_nil in Hx|]. apply list.NoDup_cons in Hnd as [Hy Hnd]. simpl. apply elem_of_cons in Hx as [-> |Hx].
  - exists [], (flat_map f l). simpl. split; [done|]. f_equal. clear IH Hnd. induction l as [|z l IH]; [done|]. simpl. rewrite Hne by set_solver. rewrite IH by set_solver. done.
  - destruct (IH Hnd Hx) as (b & a & E1 & E2). exists (f y ++ b), a. rewrite E1, E2, Hne by (intros ->; done). by rewrite <- !app_assoc.
Qed.

Lemma remove_first_perm x l : x ∈ l -> l ≡ₚ x :: remove_first x l.
Proof.
  induction l as [|y l IH]; intros Hx; [by apply elem_of_nil in Hx|]. simpl. destruct (bool_decide_reflect (y = x)) as [-> |Hne]; [done|].
  apply elem_of_cons in Hx as [-> |Hx]; [done|]. rewrite (IH Hx) at 1. apply Permutation_swap.
Qed.

Lemma on_rule_spec (op : proto -> string -> string -> list string -> K -> K * option string) i k k' : own_rule i -> on_rule op i k = Ret (k', None) ->
  op (fst (home i)) "nat" (snd (home i)) (Split " " (ipt_Rule i)) k = (k', None).
Proof.
  intros Hi E. unfold on_rule in E. destruct (New (proto_of i) k); [done|]. destruct (own_rule_home i Hi) as (_ & Ht & _). rewrite Ht in E. simpl in E.
  destruct (op (proto_of i) "nat" _ _ k) as [k1 [err|]] eqn:Eo; [done|]. injection E as <-. done.
Qed.

Lemma shown_home i k rules : own_rule i -> chain_of k (fst (home i)) "nat" (snd (home i)) = Some rules ->
  shown k (home i) = map (fun r => mkIptables "nat" (ipt_Chain i) r) rules.
Proof. intros Hi Hk. unfold shown. rewrite Hk. destruct (own_rule_home i Hi) as (_ & _ & ->). done. Qed.

Lemma own_rule_shape i : own_rule i -> i = mkIptables "nat" (ipt_Chain i) (ipt_Rule i).
Proof. intros [Ht _]. destruct i. simpl in *. by subst. Qed.

(** A loaded rule is in the chain it would be added to. *)
Lemma loaded_home i k rules : own_rule i -> by_protocol k -> chain_of k (fst (home i)) "nat" (snd (home i)) = Some rules ->
  i ∈ flat_map (shown k) link_chains <-> ipt_Rule i ∈ rules.
Proof.
  intros Hi Hb Hk. destruct (own_rule_home i Hi) as (Hin & _ & Hback). rewrite list_elem_of_In, in_flat_map. split.
  - intros ([p c] & Hpc & Hs). apply list_elem_of_In in Hpc. unfold shown in Hs. simpl in Hs. destruct (chain_of k p "nat" c) as [rules'|] eqn:Ek; [|done]. simpl in Hs.
    apply in_map_iff in Hs as (r & E & Hr). apply list_elem_of_In in Hr. pose proof (Hb _ _ _ _ Hpc Ek Hr) as Hp.
    assert (ipt_Rule i = r) as Er by (by rewrite <- E). assert (Ec : ipt_Chain i = translateChainName c false) by (by rewrite <- E).
    assert (Eh : (p, c) = home i).
    { unfold home, proto_of, isIpt6. rewrite Er, Hp, Ec. f_equal; [by destruct (Contains_str r ":")|].
      unfold link_chains in Hpc. rewrite !elem_of_cons, elem_of_nil in Hpc. destruct Hpc as [E'|[E'|[E'|[E'|[]]]]]; by injection E' as -> ->. }
    rewrite <- Eh in Hk. simpl in Hk. rewrite Er. congruence.
  - intros Hr. exists (home i). split; [by apply list_elem_of_In|]. rewrite (shown_home i k rules) by done. rewrite (own_rule_shape i Hi) at 1.
    apply in_map, list_elem_of_In. done.
Qed.

Lemma add_rule_loaded i k k' : own_rule i -> tables_addIptables i k = Ret (k', None) -> flat_map (shown k') link_chains ≡ₚ i :: flat_map (shown k) link_chains.
Proof.
  intros Hi E. destruct (own_rule_home i Hi) as (Hin & _ & _). assert (Et : rule_text (Split " " (ipt_Rule i)) = ipt_Rule i) by apply Join_Split.
  apply on_rule_spec in E; [|done]. apply Append_law in E as (rules & Hk & Hs). rewrite Et in Hs. pose proof (proj1 Hs) as Hk'.
  destruct (flat_map_change (shown k) (shown k') (home i) link_chains link_chains_NoDup Hin) as (b & a & E1 & E2); [intros pc Hpc; by eapply shown_other|].
  rewrite E1, E2, (shown_home i k' _ Hi Hk'), (shown_home i k _ Hi Hk), map_app. simpl. rewrite <- (own_rule_shape i Hi).
  rewrite <- !app_assoc. simpl. rewrite !app_assoc. symmetry. apply Permutation_middle.
Qed.

Lemma delete_rule_loaded i k k' : own_rule i -> by_protocol k -> tables_deleteIptable i k = Ret (k', None) ->
  if bool_decide (i ∈ flat_map (shown k) link_chains) then flat_map (shown k) link_chains ≡ₚ i :: flat_map (shown k') link_chains
  else flat_map (shown k') link_chains = flat_map (shown k) link_chains.
Proof.
  intros Hi Hb E. destruct (own_rule_home i Hi) as (Hin & _ & _). assert (Et : rule_text (Split " " (ipt_Rule i)) = ipt_Rule i) by apply Join_Split.
  apply on_rule_spec in E; [|done]. apply Delete_law in E as (rules & Hk & Hs). rewrite Et in Hs. pose proof (proj1 Hs) as Hk'.
  destruct (flat_map_change (shown k) (shown k') (home i) link_chains link_chains_NoDup Hin) as (b & a & E1 & E2); [intros pc Hpc; by eapply shown_other|].
  pose proof (loaded_home i k rules Hi Hb Hk) as Hmem. destruct (bool_decide_reflect (i ∈ flat_map (shown k) link_chains)) as [Hm|Hm].
  - apply Hmem in Hm. rewrite E1, E2, (shown_home i k' _ Hi Hk'), (shown_home i k _ Hi Hk). rewrite (remove_first_perm _ _ Hm) at 1. simpl. rewrite <- (own_rule_shape i Hi).
    symmetry. apply Permutation_middle.
  - rewrite E1, E2, (shown_home i k' _ Hi Hk'), (shown_home i k _ Hi Hk), remove_first_absent; [done|]. by intros Hr; apply Hm, Hmem.
Qed.

(** A deletion leaves the protocols apart. *)
Lemma delete_rule_protocol i k k' : own_rule i -> by_protocol k -> tables_deleteIptable i k = Ret (k', None) -> by_protocol k'.
Proof.
  intros Hi Hb E. apply on_rule_spec in E; [|done]. apply Delete_law in E as (rules & Hk & Hs1 & Hs2). intros p c rules' r Hpc Hk' Hr.
  destruct (decide ((p, "nat", c) = (fst (home i), "nat", snd (home i)))) as [Ee|Ee].
  - assert (p = fst (home i)) as -> by congruence. assert (c = snd (home i)) as -> by congruence. rewrite Hs1 in Hk'. injection Hk' as <-. apply (Hb (fst (home i)) (snd (home i)) rules r Hpc Hk). clear -Hr. induction rules as [|y rules IH]; [done|]. simpl in Hr.
    destruct (y =s _); [by right|]. apply elem_of_cons in Hr as [-> |Hr]; [by left|right; auto].
  - rewrite Hs2 in Hk' by done. exact (Hb p c rules' r Hpc Hk' Hr).
Qed.

(** What the agent loads (loadIptables of clusterlink/network/iptables.go) after it added a
rule is what it loaded before and the rule; after it deleted a rule that was loaded, one
less of it, and after it deleted another one, the same. The rules are those of the table
and chains the agent uses, with the protocol told by a colon. *)
Theorem iptables_read_back i k k' l l' : own_rule i -> tables_loadIptables k = Ret (inl l) -> tables_loadIptables k' = Ret (inl l') ->
  (tables_addIptables i k = Ret (k', None) -> l' ≡ₚ i :: l) /\
  (tables_deleteIptable i k = Ret (k', None) -> by_protocol k -> if bool_decide (i ∈ l) then l ≡ₚ i :: l' else l' = l).
Proof.
  intros Hi Hl Hl'. apply load_chains_spec in Hl; [|done]. apply load_chains_spec in Hl'; [|done]. subst l l'. split.
  - by apply add_rule_loaded.
  - intros E Hb. by apply delete_rule_loaded.
Qed.

End loading.

(** ** Kernel settings *)

(** Every path is watched once, with contents that do not begin or end with a newline. *)
Definition tasks_ok (tasks : list (string * string)) : Prop := NoDup (map fst tasks) /\ forall p c, (p, c) ∈ tasks -> trim_newlines c = c.

Lemma AddTask_fst path contents tasks q : q ∈ map fst (AddTask path contents tasks) <-> q = path \/ q ∈ map fst tasks.
Proof.
  induction tasks as [|[p c] tasks IH]; simpl; [set_solver|]. destruct (bool_decide_reflect (p = path)) as [-> |Hne]; simpl; [set_solver|]. rewrite !elem_of_cons, IH. tauto.
Qed.

Lemma AddTask_ok path contents tasks : tasks_ok tasks -> trim_newlines contents = contents -> tasks_ok (AddTask path contents tasks) /\ (path, contents) ∈ AddTask path contents tasks.
Proof.
  intros [Hnd Hc] Hp. induction tasks as [|[p c] tasks IH]; simpl.
  - split; [|by left]. split; [apply NoDup_singleton|]. intros p c Hin. apply list_elem_of_singleton in Hin. by injection Hin as -> ->.
  - cbn [map fst] in Hnd. apply list.NoDup_cons in Hnd as [Hpn Hnd]. destruct IH as [[IHnd IHc] IHin]; [done|intros q d Hq; apply (Hc q); by right|].
    destruct (bool_decide_reflect (p = path)) as [-> |Hne]; simpl.
    + split; [|by left]. split; [by apply list.NoDup_cons|]. intros q d Hq. apply elem_of_cons in Hq as [E|Hq]; [by injection E as -> ->|]. apply (Hc q). by right.
    + split; [|by right]. split; [apply list.NoDup_cons; split; [|done]; rewrite AddTask_fst; naive_solver|].
      intros q d Hq. apply elem_of_cons in Hq as [E|Hq]; [injection E as -> ->; apply (Hc p); by left|by apply (IHc q)].
Qed.

Definition holds_setting (y : Sysctl) (p c : string) : Prop := trim_newlines <$> (sy_files y !! p) = Some c.

Lemma setSysctl_spec p c y : trim_newlines c = c -> let y' := fst (setSysctl p c y) in sy_tasks y' = sy_tasks y /\
  (is_Some (sy_files y !! p) -> holds_setting y' p c) /\ (forall q, q <> p -> sy_files y' !! q = sy_files y !! q).
Proof.
  intros Hc. unfold setSysctl, holds_setting. destruct (sy_files y !! p) as [old|] eqn:E; [|by repeat split; intros []].
  destruct (bool_decide_reflect (trim_newlines old = c)) as [Ht|Ht]; simpl.
  - split; [done|]. split; [by rewrite E; simpl; rewrite Ht|done].
  - split; [done|]. split; [by rewrite lookup_insert_eq; simpl; rewrite Hc|]. intros q Hq. by apply lookup_insert_ne.
Qed.

Lemma watch_spec tasks : tasks_ok tasks -> forall y, let y' := foldl (fun y task => fst (setSysctl (fst task) (snd task) y)) y tasks in
  (forall p c, (p, c) ∈ tasks -> is_Some (sy_files y !! p) -> holds_setting y' p c) /\ (forall q, q ∉ map fst tasks -> sy_files y' !! q = sy_files y !! q).
Proof.
  induction tasks as [|[p c] tasks IH]; intros [Hnd Hc] y; [split; [set_solver|done]|]. cbn [map fst] in Hnd. apply list.NoDup_cons in Hnd as [Hp Hnd].
  destruct (setSysctl_spec p c y) as (_ & Hset & Hoth); [apply (Hc p); by left|]. cbn [foldl fst snd]. set (y1 := fst (setSysctl p c y)) in *.
  destruct (IH (conj Hnd (fun q d Hq => Hc q d (list_elem_of_further _ _ _ Hq))) y1) as [H1 H2]. split.
  - intros q d Hin Hs. apply elem_of_cons in Hin as [E|Hin].
    + injection E as -> ->. unfold holds_setting. rewrite H2 by done. by apply Hset.
    + apply H1; [done|]. rewrite Hoth; [done|]. intros ->. apply Hp. apply list_elem_of_In, in_map_iff. exists (p, d). split; [done|]. by apply list_elem_of_In.
  - intros q Hq. cbn [map fst] in Hq. apply not_elem_of_cons in Hq as [Hq1 Hq2]. rewrite H2 by done. by apply Hoth.
Qed.

(** A kernel setting the agent makes and watches (setSysctlAndWatch of
clusterlink/network/env.go) holds again after the next round of the watch dog, whatever
was written to the files in between, as long as its file exists; and the watch dog keeps
one task per file. *)
Theorem setting_restored path contents y files : tasks_ok (sy_tasks y) -> trim_newlines contents = contents -> is_Some (files !! path) ->
  let y1 := fst (setSysctlAndWatch path contents y) in
  tasks_ok (sy_tasks y1) /\ holds_setting (Watch (mkSysctl files (sy_tasks y1))) path contents.
Proof.
  intros Hok Hc Hf y1. unfold y1, setSysctlAndWatch. destruct (setSysctl_spec path contents (mkSysctl (sy_files y) (AddTask path contents (sy_tasks y))) Hc) as (-> & _ & _).
  simpl. destruct (AddTask_ok path contents (sy_tasks y) Hok Hc) as [Hok' Hin]. split; [done|].
  apply (proj1 (watch_spec _ Hok' (mkSysctl files (AddTask path contents (sy_tasks y)))) path contents Hin Hf).
Qed.

Lemma setting_restored_witness :
  let path := "/proc/sys/net/ipv4/conf/vx-local/rp_filter" in
  let y1 := fst (setSysctlAndWatch path "2" (mkSysctl {[ path := "1" ]} [])) in
  tasks_ok (sy_tasks y1) /\ holds_setting (Watch (mkSysctl {[ path := "0" ]} (sy_tasks y1))) path "2".
Proof.
  intros path. apply (setting_restored path "2" (mkSysctl {[ path := "1" ]} []) {[ path := "0" ]}).
  - split; [apply NoDup_nil_2|]. intros p c Hin. by apply elem_of_nil in Hin.
  - reflexivity.
  - rewrite lookup_singleton_eq. by eexists.
Defined.

(** * Tables in memory *)

#[export] Instance proto_countable : Countable proto.
Proof.
  refine (inj_countable' (fun p => match p with ProtocolIPv4 => false | ProtocolIPv6 => true end) (fun b => if b then ProtocolIPv6 else ProtocolIPv4) _).
  by intros [].
Defined.

Module Mem.

Notation chains := (gmap (proto * string * string) (list string)).

Definition change (p : proto) (t c : string) (f : list string -> list string + string) (k : chains) : chains * option string :=
  match k !! (p, t, c) with
  | None => (k, Some "No chain/target/match by that name.")
  | Some rules => match f rules with inl rules => (<[(p, t, c) := rules]> k, None) | inr err => (k, Some err) end
  end.

Definition header (c : string) : string :=
  if existsb (fun b => b =s c) ["PREROUTING"; "INPUT"; "FORWARD"; "OUTPUT"; "POSTROUTING"] then "-P " +:+ c +:+ " ACCEPT" else "-N " +:+ c.

#[export] Instance basic : Basic chains := {|
  New := fun _ _ => None;
  Append := fun p t c spec => change p t c (fun rules => inl (rules ++ [rule_text spec]));
  BasicDelete := fun p t c spec => change p t c (fun rules => inl (remove_first (rule_text spec) rules));
  Insert := fun p t c pos spec => change p t c (fun rules =>
    match pos with
    | S n => if n <=? length rules then inl (take n rules ++ rule_text spec :: drop n rules) else inr "Index of insertion too big."
    | 0 => inr "Invalid rule number"
    end);
  ListRules := fun p t c k =>
    match k !! (p, t, c) with None => inr "No chain/target/match by that name." | Some rules => inl (header c :: map (rule_line c) rules) end;
  ChainExists := fun p t c k => inl (match k !! (p, t, c) with Some _ => true | None => false end);
  NewChain := fun p t c k => match k !! (p, t, c) with Some _ => (k, Some "Chain already exists.") | None => (<[(p, t, c) := []]> k, None) end;
  ClearChain := fun p t c k => (<[(p, t, c) := []]> k, None) |}.

Definition set_in (p : proto) (t c : string) (rules : list string) (k k' : chains) : Prop :=
  k' !! (p, t, c) = Some rules /\ forall p' t' c', (p', t', c') <> (p, t, c) -> k' !! (p', t', c') = k !! (p', t', c').

Lemma set_insert p t c rules k : set_in p t c rules k (<[(p, t, c) := rules]> k).
Proof. split; [by rewrite lookup_insert_eq|]. intros p' t' c' Hne. by rewrite lookup_insert_ne. Qed.

Lemma change_spec p t c f k k' : change p t c f k = (k', None) -> exists rules rules', k !! (p, t, c) = Some rules /\ f rules = inl rules' /\ set_in p t c rules' k k'.
Proof.
  unfold change. destruct (k !! (p, t, c)) as [rules|]; [|done]. destruct (f rules) as [rules'|err] eqn:E; [|done]. intros [= <-].
  exists rules, rules'. split; [done|]. split; [done|]. apply set_insert.
Qed.

Lemma change_fails p t c f k k' e : change p t c f k = (k', Some e) -> k' = k.
Proof. unfold change. destruct (k !! (p, t, c)) as [rules|]; [|congruence]. destruct (f rules); congruence. Qed.

Lemma header_ok c : header_line c (header c).
Proof. unfold header, header_line. destruct (existsb _ _); auto. Qed.

#[export, refine] Instance laws : BasicLaws basic := {| chain_of := fun k p t c => k !! (p, t, c) |}.
Proof.
  - intros p t c k l. simpl. destruct (k !! (p, t, c)) as [rules|]; [|done]. intros [= <-]. exists (header c), rules. split; [done|]. split; [apply header_ok|done].
  - intros p t c spec k k' (rules & rules' & Hk & [= <-] & Hs)%change_spec. by exists rules.
  - intros p t c spec k k' (rules & rules' & Hk & [= <-] & Hs)%change_spec. by exists rules.
  - intros p t c n spec k k' (rules & rules' & Hk & E & Hs)%change_spec. exists rules. split; [done|]. destruct (n <=? length rules); [|done]. by injection E as <-.
  - intros p t c k b. simpl. destruct (k !! (p, t, c)); intros [= <-]; symmetry; [apply bool_decide_eq_true_2; by eexists|apply bool_decide_eq_false_2; by intros []].
  - intros p t c k k'. simpl. destruct (k !! (p, t, c)); [done|]. intros [= <-]. apply set_insert.
  - intros p t c k k'. simpl. intros [= <-]. apply set_insert.
  - intros p t c spec k k' e. apply change_fails.
  - intros p t c spec k k' e. apply change_fails.
  - intros p t c n spec k k' e. apply change_fails.
Defined.

End Mem.

Import Mem.

(** A host on which kube-proxy has moved in front of the agent's jump. *)
Definition busy (p : proto) (k : Mem.chains) : Mem.chains :=
  <[(p, "nat", "PREROUTING") := ["-j KUBE-SERVICES"; "-j CLUSTERLINK-PREROUTING"]]> (<[(p, "nat", "CLUSTERLINK-PREROUTING") := ["-d 10.1.0.0/16 -j DNAT"]]>
  (<[(p, "nat", "POSTROUTING") := ["-j KUBE-POSTROUTING"]]> k)).
Definition busy_host : Mem.chains := busy ProtocolIPv4 (busy ProtocolIPv6 ∅).

Lemma busy_host_clean p : all_clean p busy_host.
Proof.
  intros base link rules Hb Hr.
  apply base_chains_elem in Hb as [[-> ->]|[-> ->]]; destruct p; vm_compute in Hr; injection Hr as <-;
    (split; [intros h [-> |[-> | ->]]; reflexivity|]); intros r Hin; rewrite ?elem_of_cons, elem_of_nil in Hin; naive_solver.
Qed.

Lemma done_of {A} (r : A * option string) : snd r = None -> r = (fst r, None).
Proof. destruct r. by intros [= ->]. Qed.

Lemma chains_linked_witness :
  let k' := fst (CreateGlobalNetIptablesChains busy_host) in
  chain_of k' ProtocolIPv4 "nat" ClusterLinkPreRoutingChain = Some ["-d 10.1.0.0/16 -j DNAT"] /\
  (exists rules, chain_of busy_host ProtocolIPv4 "nat" "PREROUTING" = Some rules /\
    chain_of k' ProtocolIPv4 "nat" "PREROUTING" = Some ("-j CLUSTERLINK-PREROUTING" :: others "-j CLUSTERLINK-PREROUTING" rules)).
Proof.
  assert (E : snd (CreateGlobalNetIptablesChains busy_host) = None) by (vm_compute; reflexivity).
  pose proof (chains_linked busy_host (fst (CreateGlobalNetIptablesChains busy_host)) (done_of _ E) busy_host_clean ProtocolIPv4) as [H _].
  pose proof (H "PREROUTING" ClusterLinkPreRoutingChain (proj2 (base_chains_elem _ _) (or_introl (conj eq_refl eq_refl)))) as H'.
  exact (conj (proj2 H') (proj1 H')).
Defined.

Definition added (i : Iptables) (k : Mem.chains) : Mem.chains := match tables_addIptables i k with Ret r => fst r | Panic => ∅ end.

Lemma added_of i k : match tables_addIptables i k with Ret r => bool_decide (snd r = None) | Panic => false end = true -> tables_addIptables i k = Ret (added i k, None).
Proof. unfold added. destruct (tables_addIptables i k) as [[k' e]|]; [|done]. intros H%bool_decide_eq_true. simpl in H. by rewrite H. Qed.

Lemma iptables_read_back_witness :
  let i := mkIptables "nat" "PREROUTING" "-d 10.2.0.0/16 -j DNAT" in
  let k' := added i (fst (CreateGlobalNetIptablesChains busy_host)) in
  tables_loadIptables k' = Ret (inl [mkIptables "nat" "PREROUTING" "-d 10.1.0.0/16 -j DNAT"; i; mkIptables "nat" "PREROUTING" "-d 10.1.0.0/16 -j DNAT"]) /\
  [mkIptables "nat" "PREROUTING" "-d 10.1.0.0/16 -j DNAT"; i; mkIptables "nat" "PREROUTING" "-d 10.1.0.0/16 -j DNAT"] ≡ₚ
    [i; mkIptables "nat" "PREROUTING" "-d 10.1.0.0/16 -j DNAT"; mkIptables "nat" "PREROUTING" "-d 10.1.0.0/16 -j DNAT"].
Proof.
  intros i k'. assert (E : tables_loadIptables k' = Ret (inl [mkIptables "nat" "PREROUTING" "-d 10.1.0.0/16 -j DNAT"; i; mkIptables "nat" "PREROUTING" "-d 10.1.0.0/16 -j DNAT"])) by (vm_compute; reflexivity).
  split; [exact E|].
  apply (iptables_read_back i (fst (CreateGlobalNetIptablesChains busy_host)) k'); [split; [reflexivity|by left]|vm_compute; reflexivity|exact E|apply added_of; vm_compute; reflexivity].
Defined.

(** A first rule that contains the text of the jump is taken for the jump. *)
Example partial_match_taken_for_rule :
  let k := <[(ProtocolIPv4, "nat", "PREROUTING") := ["-i eth0 -j CLUSTERLINK-PREROUTING-OLD"]]> (∅ : Mem.chains) in
  PrependUnique ProtocolIPv4 "nat" "PREROUTING" ["-j"; ClusterLinkPreRoutingChain] k = (k, None).
Proof. reflexivity. Qed.

(** A rule with a port range is taken for one of IPv6. *)
Example port_range_is_v6 : proto_of (mkIptables "nat" "PREROUTING" "-p tcp --dport 80:90 -j DNAT") = ProtocolIPv6.
Proof. reflexivity. Qed.

(** Of two copies of a rule a deletion leaves one. *)
Example copy_stays :
  let i := mkIptables "nat" "PREROUTING" "-d 10.1.0.0/16 -j DNAT" in
  let k := fst (CreateGlobalNetIptablesChains busy_host) in
  (r ← tables_addIptables i k; r ← tables_deleteIptable i (fst r); l ← tables_loadIptables (fst r); Ret l) =
  (l ← tables_loadIptables k; Ret l).
Proof. vm_compute. reflexivity. Qed.
