(* ===== verification/KernelLinks.v ===== *)
(** The agent's devices, routes and neighbour entries: clusterlink/network/device.go, ip.go,
route.go, neigh.go, arp.go and fdb.go.

The package netlink is behind a class with the calls the code makes and a class with what
they do to the links, addresses, routes and neighbours of the kernel.  The iptables and
kernel settings that come with a device are those of [KernelTables]. *)
From S2P Require Import Prelude GoStr GoNet LinkApi LinkVxlan KernelTables.
Local Open Scope Z_scope.

(** * Hardware addresses of package net *)

Definition hex_pair (a b : ascii) : option Z :=
  match hex_digit a, hex_digit b with Some x, Some y => Some (16 * x + y) | _, _ => None end.

(** [n] bytes with separators between them. *)
Fixpoint mac_pairs (n : nat) (sep : ascii) (s : string) : option (list Z) :=
  match n, s with
  | 1%nat, String a (String b EmptyString) => match hex_pair a b with Some v => Some [v] | None => None end
  | S n', String a (String b (String c rest)) =>
      if bool_decide (c = sep) then
        match hex_pair a b, mac_pairs n' sep rest with Some v, Some l => Some (v :: l) | _, _ => None end
      else None
  | _, _ => None
  end.

(** [n] groups of two bytes with dots between them. *)
Fixpoint mac_quads (n : nat) (s : string) : option (list Z) :=
  match n, s with
  | 1%nat, String a (String b (String c (String d EmptyString))) =>
      match hex_pair a b, hex_pair c d with Some v, Some w => Some [v; w] | _, _ => None end
  | S n', String a (String b (String c (String d (String e rest)))) =>
      if bool_decide (e = "."%char) then
        match hex_pair a b, hex_pair c d, mac_quads n' rest with Some v, Some w, Some l => Some (v :: w :: l) | _, _, _ => None end
      else None
  | _, _ => None
  end.

Definition mac_length (n : nat) : bool := (n =? 6)%nat || (n =? 8)%nat || (n =? 20)%nat.

Definition ParseMAC (s : string) : option (list Z) :=
  let len := String.length s in
  if (len <? 14)%nat then None
  else
    match String.get 2 s, String.get 4 s with
    | Some c2, Some c4 =>
        if bool_decide (c2 = ":"%char) || bool_decide (c2 = "-"%char) then
          let n := ((len + 1) / 3)%nat in
          if ((len + 1) mod 3 =? 0)%nat && mac_length n then mac_pairs n c2 s else None
        else if bool_decide (c4 = "."%char) then
          let n := (2 * (len + 1) / 5)%nat in
          if ((len + 1) mod 5 =? 0)%nat && mac_length n then mac_quads (n / 2) s else None
        else None
    | _, _ => None
    end.

(** * The interface to netlink *)

Definition FAMILY_ALL : Z := 0.
Definition FAMILY_V4 : Z := 2.
Definition FAMILY_V6 : Z := 10.
Definition AF_BRIDGE : Z := 7.
Definition RT_SCOPE_UNIVERSE : Z := 0.
Definition NUD_PERMANENT : Z := 0x80.
Definition NUD_NOARP : Z := 0x40.
Definition NTF_SELF : Z := 2.
Definition NDA_DST : Z := 1.
Definition FLAG_ONLINK : Z := 4.

(** A link; the last three fields are of vxlan links. *)
Record Link := mkLink {
  lk_Name : string; lk_Index : Z; lk_MTU : Z; lk_Type : string; lk_Mac : list Z;
  lk_VxlanId : Z; lk_Port : Z; lk_VtepDevIndex : Z }.

(** What a new vxlan link, which is set up, is made from. *)
Record NewVxlan := mkNewVxlan {
  nv_Name : string; nv_MTU : Z; nv_Mac : list Z; nv_SrcAddr : option IP; nv_VxlanId : Z; nv_Port : Z; nv_Learning : bool; nv_VtepDevIndex : Z }.

Record Addr := mkAddr { ad_IPNet : IPNet; ad_Scope : Z }.
Record Rule := mkRule { ru_Table : Z; ru_Priority : Z; ru_Family : Z }.
Record NRoute := mkNRoute {
  nr_Dst : option IPNet; nr_Gw : IP; nr_LinkIndex : Z; nr_Scope : Z; nr_Type : Z; nr_Flags : Z; nr_Table : Z }.
Record Neigh := mkNeigh {
  ne_LinkIndex : Z; ne_Type : Z; ne_Family : Z; ne_State : Z; ne_HardwareAddr : list Z; ne_Flags : Z; ne_IP : IP }.

(** Errors the code tells apart. *)
Inductive nl_error := LinkNotFoundError | EEXIST | NlError (err : string).
Definition nl_text (e : nl_error) : string := match e with LinkNotFoundError => "Link not found" | EEXIST => "file exists" | NlError err => err end.

Class Netlink (N : Type) := {
  LinkByName : string -> N -> Link + nl_error;
  LinkByIndex : Z -> N -> Link + nl_error;
  LinkAdd : NewVxlan -> N -> N * option nl_error;
  LinkDel : Link -> N -> N * option nl_error;
  AddrList : Link -> Z -> N -> list Addr + nl_error;
  AddrAdd : string -> IPNet -> N -> N * option nl_error;
  RuleAdd : Rule -> N -> N * option nl_error;
  (** by the index of a link and the table *)
  RouteListFiltered : Z -> Z -> Z -> N -> list NRoute + nl_error;
  RouteAdd : NRoute -> N -> N * option nl_error;
  RouteDel : NRoute -> N -> N * option nl_error;
  NeighList : Z -> Z -> N -> list Neigh + nl_error;
  NeighAppend : Neigh -> N -> N * option nl_error;
  NeighSet : Neigh -> N -> N * option nl_error;
  NeighDel : Neigh -> N -> N * option nl_error }.

(** * The devices of the overlay *)

Definition TABLE_ID : Z := 200.
Definition vxlanOverhead : Z := 50.

(** Names and families of [ALL_DEVICES]. *)
Definition ALL_DEVICES : list (string * Z) :=
  [(VXLAN_BRIDGE_NAME, FAMILY_V4); (VXLAN_LOCAL_NAME, FAMILY_V4); (VXLAN_BRIDGE_NAME_6, FAMILY_V6); (VXLAN_LOCAL_NAME_6, FAMILY_V6)].

(** Everything an operation on a device changes. *)
Record Host (N T : Type) := mkHost { h_net : N; h_tables : T; h_sys : Sysctl }.
Arguments mkHost {N T}. Arguments h_net {N T}. Arguments h_tables {N T}. Arguments h_sys {N T}.

Section links.
  Context {N T : Type} `{Netlink N} `{Basic T}.

Definition on_net (f : N -> N * option string) (h : Host N T) : Host N T * option string :=
  let '(n, err) := f (h_net h) in (mkHost n (h_tables h) (h_sys h), err).
Definition on_tables (f : T -> T * option string) (h : Host N T) : Host N T * option string :=
  let '(t, err) := f (h_tables h) in (mkHost (h_net h) t (h_sys h), err).
Definition on_sys (f : Sysctl -> Sysctl * option string) (h : Host N T) : Host N T * option string :=
  let '(y, err) := f (h_sys h) in (mkHost (h_net h) (h_tables h) y, err).

Definition err_text (r : N * option nl_error) : N * option string := (fst r, nl_text <$> snd r).

(** ** ip.go and device.go *)

Definition getFristScopeIPInLink (iface : Link) (familyType : Z) (n : N) : string + string :=
  match AddrList iface familyType n with
  | inr err => inr (nl_text err)
  | inl [] => inr "device has none ip addr"
  | inl addrList =>
      match first (fun a => ad_Scope a =? RT_SCOPE_UNIVERSE) addrList with
      | Some addr => inl (IP_String (net_IP (ad_IPNet addr)))
      | None => inr "there is no scop ip for dev"
      end
  end.

Record IfaceInfo := mkIfaceInfo { if_MTU : Z; if_name : string; if_index : Z; if_ip : string; if_ip6 : string }.

Definition getIfaceIPByName (name : string) (n : N) : IfaceInfo + string :=
  match LinkByName name n with
  | inr err => inr (nl_text err)
  | inl iface =>
      let ip_of family := match getFristScopeIPInLink iface family n with inl ip => ip | inr _ => "" end in
      inl (mkIfaceInfo (lk_MTU iface) (lk_Name iface) (lk_Index iface) (ip_of FAMILY_V4) (ip_of FAMILY_V6))
  end.

Definition newTableRule (tableID family : Z) : Rule := mkRule tableID tableID family.

(** A rule that is there already is no error. *)
Definition ruleAddIfNotPresent (rule : Rule) (n : N) : N * option string :=
  match RuleAdd rule n with
  | (n, Some EEXIST) => (n, None)
  | (n, Some err) => (n, Some ("failed to add rule: " +:+ nl_text err))
  | (n, None) => (n, None)
  end.

Definition createNewVxlanIface (name : string) (addrIPWithMask : IPNet) (vxlanID vxlanPort : Z) (hardwareAddr : list Z)
    (rIface : IfaceInfo) (deviceIP : string) (vtepDevIndex : Z) (n : N) : N * option string :=
  match LinkAdd (mkNewVxlan name (if_MTU rIface - vxlanOverhead) hardwareAddr (ParseIP deviceIP) vxlanID vxlanPort false vtepDevIndex) n with
  | (n, Some EEXIST) =>
      match LinkByName name n with
      | inr err => (n, Some ("failed to retrieve link info: " +:+ nl_text err))
      | inl _ => (n, Some (nl_text EEXIST))
      end
  | (n, Some err) => (n, Some (nl_text err))
  | (n, None) =>
      let family := if IsIPv6 deviceIP then FAMILY_V6 else FAMILY_V4 in
      match ruleAddIfNotPresent (newTableRule TABLE_ID family) n with
      | (n, Some err) => (n, Some err)
      | (n, None) => err_text (AddrAdd name addrIPWithMask n)
      end
  end.

(** The device of a vxlan link; a missing network is shown as nil.  Identifiers and ports of
vxlan links have 24 and 16 bits and fit the 32 of a device. *)
Definition shown_device (vxlan : Link) (vxlanNet : option IPNet) (bindDev : string) : Device :=
  mkDevice (lk_Type vxlan) (lk_Name vxlan) (match vxlanNet with Some net => IPNet_String net | None => "<nil>" end)
    (Mac_String (lk_Mac vxlan)) bindDev (lk_VxlanId vxlan) (lk_Port vxlan).

(** One device of the loop of [loadDevices]. *)
Definition load_device (d : string * Z) (n : N) : option Device + string :=
  match LinkByName (fst d) n with
  | inr LinkNotFoundError => inl None
  | inr err => inr (nl_text err)
  | inl vxlan =>
      if negb (lk_Type vxlan =s "vxlan") then inr "device is not vxlan"
      else
        match AddrList vxlan (snd d) n with
        | inr err => inr (nl_text err)
        | inl addrList =>
            match ad_IPNet <$> first (fun a => ad_Scope a =? RT_SCOPE_UNIVERSE) addrList with
            | None => inl (Some (shown_device vxlan None ""))
            | Some vxlanNet =>
                match LinkByIndex (lk_VtepDevIndex vxlan) n with
                | inr _ => inl (Some (shown_device vxlan (Some vxlanNet) ""))
                | inl defaultIface => inl (Some (shown_device vxlan (Some vxlanNet) (lk_Name defaultIface)))
                end
            end
        end
  end.

Fixpoint load_devices (ds : list (string * Z)) (n : N) : list Device + string :=
  match ds with
  | [] => inl []
  | d :: rest =>
      match load_device d n with
      | inr err => inr err
      | inl o => match load_devices rest n with inr err => inr err | inl l => inl (match o with Some dev => dev :: l | None => l end) end
      end
  end.

Definition nl_loadDevices : N -> list Device + string := load_devices ALL_DEVICES.

(** Two steps, the second if the first had no error. *)
Definition and_then (f g : Host N T -> Host N T * option string) (h : Host N T) : Host N T * option string :=
  match f h with (h, Some err) => (h, Some err) | (h, None) => g h end.

(** The rule and the setting for an interface, by family. *)
Definition updateDeviceConfig (name : string) (ipFamily : Z) : Host N T -> Host N T * option string :=
  if ipFamily =? FAMILY_V6 then
    and_then (on_tables (UpdateDefaultIPtablesBehavior ProtocolIPv6 name)) (on_sys (EnableDisableIPV6ByIFaceNmae name))
  else and_then (on_tables (UpdateDefaultIPtablesBehavior ProtocolIPv4 name)) (on_sys (EnableLooseModeByIFaceNmae name)).

(** The interfaces named by the environment: errors are only logged. *)
Definition relax_nic (h : Host N T) (nicName : string) : Host N T :=
  if (String.length nicName =? 0)%nat then h
  else
    let h := fst (on_tables (UpdateDefaultIPtablesBehavior ProtocolIPv4 nicName) h) in
    fst (on_sys (EnableLooseModeByIFaceNmae nicName) h).

Definition UpdateDefaultIptablesAndKernalConfig (AGENT_RP_FILTER_DEVICES : string) (name : string) (ipFamily : Z) : Host N T -> Host N T * option string :=
  and_then
    (if ipFamily =? FAMILY_V6 then
       and_then (on_tables (UpdateDefaultIPtablesBehavior ProtocolIPv6 name)) (on_sys (EnableDisableIPV6ByIFaceNmae name))
     else fun h => (h, None))
    (if ipFamily =? FAMILY_V4 then
       and_then (and_then (on_tables (UpdateDefaultIPtablesBehavior ProtocolIPv4 name)) (on_sys (EnableLooseModeByIFaceNmae name)))
         (fun h =>
            let nicNames := ["tunl0"; "vxlan.calico"] ++
              (if (0 <? String.length AGENT_RP_FILTER_DEVICES)%nat then Split "," AGENT_RP_FILTER_DEVICES else []) in
            (foldl relax_nic h nicNames, None))
     else fun h => (h, None)).

Definition nl_addDevice (AGENT_RP_FILTER_DEVICES : string) (d : Device) (h : Host N T) : Host N T * option string :=
  match ParseCIDR (dev_Addr d) with
  | None => (h, Some "parse device cidr failed")
  | Some (cidrip, ipNet) =>
      match getIfaceIPByName (dev_BindDev d) (h_net h) with
      | inr err => (h, Some ("add device failed: " +:+ err))
      | inl currentIfaceInfo =>
          match ParseMAC (dev_Mac d) with
          | None => (h, Some "add device failed when translate mac")
          | Some hardwareAddr =>
              let v6 := IsIPv6 (IP_String cidrip) in
              let deviceIP := if v6 then if_ip6 currentIfaceInfo else if_ip currentIfaceInfo in
              let family := if v6 then FAMILY_V6 else FAMILY_V4 in
              and_then (on_net (createNewVxlanIface (dev_Name d) (mkIPNet cidrip (net_Mask ipNet)) (dev_ID d) (dev_Port d) hardwareAddr
                                  currentIfaceInfo deviceIP (if_index currentIfaceInfo)))
                (and_then (UpdateDefaultIptablesAndKernalConfig AGENT_RP_FILTER_DEVICES (dev_BindDev d) family)
                   (updateDeviceConfig (dev_Name d) family)) h
          end
      end
  end.

Definition nl_deleteDevice (d : Device) (n : N) : N * option string :=
  match LinkByName (dev_Name d) n with
  | inr LinkNotFoundError => (n, None)
  | inr err => (n, Some ("can't find vxlan interface to del: " +:+ nl_text err))
  | inl ifaceToDel => err_text (LinkDel ifaceToDel n)
  end.

(** ** route.go *)

Definition getRoutes (dev : string) (n : N) : list NRoute + nl_error :=
  match LinkByName dev n with
  | inr err => inr err
  | inl device =>
      match RouteListFiltered FAMILY_ALL (lk_Index device) TABLE_ID n with
      | inr err => inr err
      | inl currentRouteList => inl (List.filter (fun route => nr_Table route =? TABLE_ID) currentRouteList)
      end
  end.

Definition shown_route (dev : string) (r : NRoute) : Route :=
  mkRoute (match nr_Dst r with Some dst => IPNet_String dst | None => "<nil>" end) (IP_String (nr_Gw r)) dev.

Fixpoint load_routes (ds : list (string * Z)) (n : N) : list Route + string :=
  match ds with
  | [] => inl []
  | d :: rest =>
      match getRoutes (fst d) n with
      | inr LinkNotFoundError => load_routes rest n
      | inr err => inr (nl_text err)
      | inl routes => match load_routes rest n with inr err => inr err | inl l => inl (map (shown_route (fst d)) routes ++ l) end
      end
  end.

Definition nl_loadRoutes : N -> list Route + string := load_routes ALL_DEVICES.

(** The route of a record, for both directions. *)
Definition on_route (op : NRoute -> N -> N * option nl_error) (r : Route) (n : N) : N * option string :=
  match LinkByName (rt_Dev r) n with
  | inr err => (n, Some (nl_text err))
  | inl device =>
      match ParseCIDR (rt_CIDR r) with
      | None => (n, Some "ParseCIDR,but encountered some error")
      | Some (_, ipNetMask) =>
          err_text (op (mkNRoute (Some ipNetMask) (default [] (ParseIP (rt_Gw r))) (lk_Index device) RT_SCOPE_UNIVERSE NDA_DST FLAG_ONLINK TABLE_ID) n)
      end
  end.

Definition nl_addRoute : Route -> N -> N * option string := on_route RouteAdd.
Definition nl_deleteRoute : Route -> N -> N * option string := on_route RouteDel.

(** ** neigh.go, arp.go and fdb.go *)

Inductive NeighType := NEIGH_FDB | NEIGH_ARP.

(** The lists of both families and the error if one of them failed. *)
Definition neighListForArp (linkIndex : Z) (n : N) : list Neigh + nl_error :=
  match NeighList linkIndex FAMILY_V4 n, NeighList linkIndex FAMILY_V6 n with
  | inl l4, inl l6 => inl (l4 ++ l6)
  | _, _ => inr (NlError "list arp err")
  end.

Definition getNeighList (linkIndex : Z) (neighType : NeighType) (n : N) : list Neigh + nl_error :=
  match neighType with NEIGH_FDB => NeighList linkIndex AF_BRIDGE n | NEIGH_ARP => neighListForArp linkIndex n end.

Definition getNeighEntry (dstIP : IP) (mac : list Z) (vxlanIface : Link) (neighType : NeighType) : Neigh :=
  match neighType with
  | NEIGH_FDB => mkNeigh (lk_Index vxlanIface) NDA_DST AF_BRIDGE (Z.lor NUD_PERMANENT NUD_NOARP) mac NTF_SELF dstIP
  | NEIGH_ARP =>
      let family := match To4 dstIP with None => FAMILY_V6 | Some _ => FAMILY_V4 end in
      mkNeigh (lk_Index vxlanIface) NDA_DST family NUD_PERMANENT mac NTF_SELF dstIP
  end.

Definition addEntryToNeigh (dstIP : IP) (mac : list Z) (vxlanIface : Link) (neighType : NeighType) (n : N) : N * option string :=
  let neighObj := getNeighEntry dstIP mac vxlanIface neighType in
  match neighType with NEIGH_FDB => err_text (NeighAppend neighObj n) | NEIGH_ARP => err_text (NeighSet neighObj n) end.

Definition delEntryToNeigh (dstIP : IP) (mac : list Z) (vxlanIface : Link) (neighType : NeighType) (n : N) : N * option string :=
  err_text (NeighDel (getNeighEntry dstIP mac vxlanIface neighType) n).

Definition parseIPMAC (ip mac devName : string) (n : N) : (IP * list Z * Link) + string :=
  match ParseIP ip with
  | None => inr "ip parse error"
  | Some ipAddress =>
      match ParseMAC mac with
      | None => inr "invalid MAC address"
      | Some macAddress => match LinkByName devName n with inr err => inr (nl_text err) | inl vxlanIface => inl (ipAddress, macAddress, vxlanIface) end
      end
  end.

Definition AddNeigh (ip mac : string) (neighType : NeighType) (devName : string) (n : N) : N * option string :=
  match parseIPMAC ip mac devName n with
  | inr err => (n, Some err)
  | inl (ipAddress, macAddress, vxlanIface) => addEntryToNeigh ipAddress macAddress vxlanIface neighType n
  end.

Definition DeleteNeigh (ip mac : string) (neighType : NeighType) (devName : string) (n : N) : N * option string :=
  match parseIPMAC ip mac devName n with
  | inr err => (n, Some err)
  | inl (ipAddress, macAddress, vxlanIface) => delEntryToNeigh ipAddress macAddress vxlanIface neighType n
  end.

(** Stops at the first error. *)
Fixpoint delete_all (l : list Neigh) (n : N) : N * option string :=
  match l with
  | [] => (n, None)
  | x :: rest => match NeighDel x n with (n, Some err) => (n, Some (nl_text err)) | (n, None) => delete_all rest n end
  end.

Definition DeleteNeighByDevice (dev : string) (neighType : NeighType) (n : N) : N * option string :=
  match LinkByName dev n with
  | inr err => (n, Some (nl_text err))
  | inl vxlanIface =>
      match getNeighList (lk_Index vxlanIface) neighType n with
      | inr err => (n, Some (nl_text err))
      | inl neighList => delete_all neighList n
      end
  end.

(** A record of [ListNeigh]: address, MAC address and device. *)
Definition FDBRecord : Type := string * string * string.

Definition neigh_shown (neighType : NeighType) (neigh : Neigh) : bool :=
  match neighType with NEIGH_FDB => true | NEIGH_ARP => ne_State neigh =? NUD_PERMANENT end.

Definition list_device (neighType : NeighType) (dev : string) (n : N) : list FDBRecord :=
  match LinkByName dev n with
  | inr _ => []
  | inl vxlanIface =>
      match getNeighList (lk_Index vxlanIface) neighType n with
      | inr _ => []
      | inl neighList =>
          map (fun neigh => (IP_String (ne_IP neigh), Mac_String (ne_HardwareAddr neigh), dev)) (List.filter (neigh_shown neighType) neighList)
      end
  end.

(** Devices that cannot be listed are left out. *)
Definition ListNeigh (neighType : NeighType) (n : N) : list FDBRecord :=
  flat_map (fun dev => list_device neighType dev n) [VXLAN_BRIDGE_NAME; VXLAN_BRIDGE_NAME_6; VXLAN_LOCAL_NAME; VXLAN_LOCAL_NAME_6].

Definition nl_loadFdbs (n : N) : list Fdb + string := inl (map (fun r => mkFdb (fst (fst r)) (snd (fst r)) (snd r)) (ListNeigh NEIGH_FDB n)).
Definition nl_loadArps (n : N) : list Arp + string := inl (map (fun r => mkArp (fst (fst r)) (snd (fst r)) (snd r)) (ListNeigh NEIGH_ARP n)).
Definition nl_addFdb (fdb : Fdb) : N -> N * option string := AddNeigh (fdb_IP fdb) (fdb_Mac fdb) NEIGH_FDB (fdb_Dev fdb).
Definition nl_deleteFdb (fdb : Fdb) : N -> N * option string := DeleteNeigh (fdb_IP fdb) (fdb_Mac fdb) NEIGH_FDB (fdb_Dev fdb).
Definition nl_addArp (arp : Arp) : N -> N * option string := AddNeigh (arp_IP arp) (arp_Mac arp) NEIGH_ARP (arp_Dev arp).
Definition nl_deleteArp (arp : Arp) : N -> N * option string := DeleteNeigh (arp_IP arp) (arp_Mac arp) NEIGH_ARP (arp_Dev arp).

End links.
