(* ===== verification/KernelLoads.v ===== *)
(** What the agent reads back from the kernel after it wrote to it: the laws of the calls of
netlink and the theorems about [KernelLinks]. *)
From S2P Require Import Prelude GoStr GoNet GoNetFacts GoCIDR LinkApi LinkVxlan KernelTables KernelLinks.
Local Open Scope Z_scope.

(** * What the calls of netlink do *)

(** In messages of the kernel an IPv4 address has four bytes. *)
Definition norm (ip : IP) : IP := default ip (To4 ip).
Definition norm_net (n : IPNet) : IPNet := mkIPNet (norm (net_IP n)) (net_Mask n).

Definition mac_ok (hw : list Z) : Prop := length hw = 6%nat /\ Forall byte_ok hw.
(** An address of the kernel: none, of IPv4, or of IPv6 and not a mapped one. *)
Definition kernel_ip (ip : IP) : Prop := ip = [] \/ Forall byte_ok ip /\ (length ip = 4%nat \/ length ip = 16%nat /\ To4 ip = None).

(** A network of the kernel: without host bits, and not a mapped one. *)
Definition kernel_net (net : IPNet) : Prop := net_ok net /\ norm (net_IP net) = net_IP net.

Record RouteKey := mkRouteKey { rk_Dst : option IPNet; rk_Gw : IP; rk_LinkIndex : Z; rk_Table : Z }.
Record NeighKey := mkNeighKey { nk_LinkIndex : Z; nk_Family : Z; nk_State : Z; nk_Mac : list Z; nk_IP : IP }.

Definition route_key (r : NRoute) : RouteKey := mkRouteKey (norm_net <$> nr_Dst r) (norm (nr_Gw r)) (nr_LinkIndex r) (nr_Table r).
Definition neigh_key (x : Neigh) : NeighKey := mkNeighKey (ne_LinkIndex x) (ne_Family x) (ne_State x) (ne_HardwareAddr x) (norm (ne_IP x)).

Definition family_of (n : IPNet) : Z := match To4 (net_IP n) with Some _ => FAMILY_V4 | None => FAMILY_V6 end.

Class NetlinkLaws {N : Type} `(Netlink N) := {
  is_link : N -> Link -> Prop;
  (** the global addresses of a link *)
  addrs : N -> Z -> list IPNet;
  (** the routes of the tables that the kernel does not fill itself *)
  routes : N -> list RouteKey;
  neighs : N -> NeighKey -> Prop;
  links_unique : forall n l l', is_link n l -> is_link n l' -> lk_Name l = lk_Name l' \/ lk_Index l = lk_Index l' -> l = l';
  neighs_ok : forall n x, neighs n x -> (exists l, is_link n l /\ lk_Index l = nk_LinkIndex x) /\ kernel_ip (nk_IP x) /\ (nk_Mac x = [] \/ mac_ok (nk_Mac x)) /\
    (nk_Family x = FAMILY_V4 -> length (nk_IP x) = 4%nat) /\ (nk_Family x = FAMILY_V6 -> length (nk_IP x) = 16%nat);
  routes_ok : forall n x, x ∈ routes n -> (exists l, is_link n l /\ lk_Index l = rk_LinkIndex x) /\ kernel_ip (rk_Gw x) /\ forall dst, rk_Dst x = Some dst -> kernel_net dst;
  same_links (n n' : N) : Prop := forall l, is_link n' l <-> is_link n l;
  same_addrs (n n' : N) : Prop := forall i, addrs n' i = addrs n i;
  same_routes (n n' : N) : Prop := routes n' ≡ₚ routes n;
  same_neighs (n n' : N) : Prop := forall x, neighs n' x <-> neighs n x;
  LinkByName_law : forall name n l, LinkByName name n = inl l -> is_link n l /\ lk_Name l = name;
  LinkByName_none : forall name n l, LinkByName name n = inr LinkNotFoundError -> is_link n l -> lk_Name l <> name;
  LinkByIndex_law : forall i n l, LinkByIndex i n = inl l -> is_link n l /\ lk_Index l = i;
  AddrList_law : forall l family n r, is_link n l -> AddrList l family n = inl r ->
    ad_IPNet <$> List.filter (fun a => ad_Scope a =? RT_SCOPE_UNIVERSE) r = List.filter (fun a => family_of a =? family) (addrs n (lk_Index l));
  RouteList_law : forall i t n r, RouteListFiltered FAMILY_ALL i t n = inl r ->
    route_key <$> r ≡ₚ List.filter (fun x => (rk_LinkIndex x =? i) && (rk_Table x =? t)) (routes n);
  RouteList_no_link : forall family i t n, RouteListFiltered family i t n <> inr LinkNotFoundError;
  NeighList_law : forall i family n r x, NeighList i family n = inl r ->
    x ∈ neigh_key <$> r <-> neighs n x /\ nk_LinkIndex x = i /\ nk_Family x = family;
  (** a new link has an index of its own and nothing is attached to it *)
  LinkAdd_law : forall v n n', LinkAdd v n = (n', None) -> exists l,
    lk_Name l = nv_Name v /\ lk_Type l = "vxlan" /\ lk_Mac l = nv_Mac v /\ lk_VxlanId l = nv_VxlanId v /\ lk_Port l = nv_Port v /\ lk_VtepDevIndex l = nv_VtepDevIndex v /\
    (forall x, is_link n x -> lk_Name x <> lk_Name l /\ lk_Index x <> lk_Index l /\ lk_VtepDevIndex x <> lk_Index l) /\ (forall x, is_link n' x <-> x = l \/ is_link n x) /\
    addrs n' (lk_Index l) = [] /\ (forall i, i <> lk_Index l -> addrs n' i = addrs n i) /\ same_routes n n' /\ same_neighs n n';
  (** a link without links on top of it goes with what is attached to it *)
  LinkDel_law : forall l n n', is_link n l -> (forall x, is_link n x -> lk_VtepDevIndex x <> lk_Index l) -> LinkDel l n = (n', None) ->
    (forall x, is_link n' x <-> is_link n x /\ x <> l) /\ (forall i, i <> lk_Index l -> addrs n' i = addrs n i) /\
    routes n' ≡ₚ List.filter (fun x => negb (rk_LinkIndex x =? lk_Index l)) (routes n) /\
    (forall x, neighs n' x <-> neighs n x /\ nk_LinkIndex x <> lk_Index l);
  AddrAdd_law : forall name a n n', AddrAdd name a n = (n', None) -> exists l, is_link n l /\ lk_Name l = name /\
    addrs n' (lk_Index l) = addrs n (lk_Index l) ++ [norm_net a] /\ (forall i, i <> lk_Index l -> addrs n' i = addrs n i) /\
    same_links n n' /\ same_routes n n' /\ same_neighs n n';
  RuleAdd_law : forall r n n' e, RuleAdd r n = (n', e) -> e = None \/ e = Some EEXIST -> same_links n n' /\ same_addrs n n' /\ same_routes n n' /\ same_neighs n n';
  RouteAdd_law : forall r n n', RouteAdd r n = (n', None) -> routes n' ≡ₚ route_key r :: routes n /\ same_links n n' /\ same_addrs n n' /\ same_neighs n n';
  (** the gateway is compared if there is one *)
  RouteDel_law : forall r n n', RouteDel r n = (n', None) -> exists x,
    rk_Dst x = rk_Dst (route_key r) /\ rk_LinkIndex x = nr_LinkIndex r /\ rk_Table x = nr_Table r /\ (nr_Gw r <> [] -> rk_Gw x = norm (nr_Gw r)) /\
    routes n ≡ₚ x :: routes n' /\ same_links n n' /\ same_addrs n n' /\ same_neighs n n';
  NeighAppend_law : forall e n n', NeighAppend e n = (n', None) ->
    (forall x, neighs n' x <-> x = neigh_key e \/ neighs n x) /\ same_links n n' /\ same_addrs n n' /\ same_routes n n';
  (** an entry of the same address is replaced *)
  NeighSet_law : forall e n n', NeighSet e n = (n', None) ->
    (forall x, neighs n' x <-> x = neigh_key e \/ neighs n x /\ ~ (nk_LinkIndex x = ne_LinkIndex e /\ nk_Family x = ne_Family e /\ nk_IP x = norm (ne_IP e))) /\
    same_links n n' /\ same_addrs n n' /\ same_routes n n';
  (** the MAC address is compared in the forwarding table only *)
  NeighDel_law : forall e n n', NeighDel e n = (n', None) ->
    (forall x, neighs n' x <-> neighs n x /\ ~ (nk_LinkIndex x = ne_LinkIndex e /\ nk_Family x = ne_Family e /\ nk_IP x = norm (ne_IP e) /\
                                               (ne_Family e = AF_BRIDGE -> nk_Mac x = ne_HardwareAddr e))) /\
    same_links n n' /\ same_addrs n n' /\ same_routes n n' }.

(** The lookups by name and index and the lists of neighbours fail only for links that do not
exist: the code takes their other errors for an answer. *)
Definition answers {N} `{NetlinkLaws N} (n : N) : Prop :=
  (forall name, (exists l, LinkByName name n = inl l) \/ LinkByName name n = inr LinkNotFoundError) /\
  (forall l, is_link n l -> LinkByIndex (lk_Index l) n = inl l) /\
  (forall l family, is_link n l -> exists r, NeighList (lk_Index l) family n = inl r).

(** * Addresses printed and parsed *)

Lemma To4_length ip p : To4 ip = Some p -> length p = 4%nat.
Proof.
  unfold To4. destruct (Nat.eqb_spec (length ip) 4) as [E|]; [by intros [= <-]|]. destruct (Nat.eqb_spec (length ip) 16) as [E|]; [|done]. simpl.
  destruct (bool_decide _); [|done]. intros [= <-]. rewrite length_drop. lia.
Qed.

Lemma To4_norm ip : To4 (norm ip) = To4 ip.
Proof. unfold norm. destruct (To4 ip) as [p|] eqn:E; [|done]. simpl. apply To4_length in E. unfold To4. by rewrite E. Qed.

Lemma norm_idem ip : norm (norm ip) = norm ip.
Proof. unfold norm at 1. rewrite To4_norm. unfold norm. by destruct (To4 ip). Qed.

Lemma IP_String_norm ip : IP_String (norm ip) = IP_String ip.
Proof.
  pose proof (To4_norm ip) as E. unfold norm in *. destruct (To4 ip) as [p|] eqn:Ep; simpl in *; [|done].
  pose proof (To4_length _ _ Ep). destruct p, ip; try done. unfold IP_String. by rewrite E, Ep.
Qed.

Lemma IPNet_String_norm net : IPNet_String (norm_net net) = IPNet_String net.
Proof.
  unfold IPNet_String, networkNumberAndMask, norm_net. cbn [net_IP net_Mask]. rewrite To4_norm.
  destruct (To4 (net_IP net)) as [p|] eqn:E; [done|]. unfold norm. by rewrite E.
Qed.

(** The parser gives back a printed address of the kernel. *)
Lemma ParseIP_print ip : kernel_ip ip -> ip <> [] -> exists ip', ParseIP (IP_String ip) = Some ip' /\ norm ip' = ip /\ ip' <> [].
Proof.
  intros [->|[Hok Hl]] Hne; [done|]. unfold ParseIP. rewrite ParseIP_scan_type. destruct Hl as [Hl|[Hl Ht]].
  - destruct ip as [|a [|b [|c [|d [|]]]]]; try done. exists (v4InV6Prefix ++ [a; b; c; d]).
    assert (E : IP_String [a; b; c; d] = dotted [a; b; c; d]) by done. rewrite E. pose proof (parseIPv4_print false a b c d Hok) as Hp.
    rewrite (parseIPv4_type _ _ _ Hp). done.
  - exists ip. assert (E : IP_String ip = String6 ip) by (unfold IP_String; rewrite Ht, Hl; by destruct ip). rewrite E.
    pose proof (parseIPv6_print false ip Hok Hl) as Hp. rewrite (parseIPv6_type _ _ _ Hp). split; [done|]. unfold norm. by rewrite Ht.
Qed.

Lemma hex_pair_print b : byte_ok b -> hex_pair (nibble (Z.shiftr b 4)) (nibble (Z.land b 15)) = Some b.
Proof.
  intros Hb. assert (H : forallb (fun n => bool_decide (hex_pair (nibble (Z.shiftr (Z.of_nat n) 4)) (nibble (Z.land (Z.of_nat n) 15)) = Some (Z.of_nat n))) (seq 0 256) = true) by (vm_compute; reflexivity).
  rewrite forallb_forall in H. specialize (H (Z.to_nat b)). unfold byte_ok in Hb. rewrite in_seq in H. specialize (H ltac:(lia)).
  apply bool_decide_eq_true in H. by rewrite Z2Nat.id in H by lia.
Qed.

Lemma ParseMAC_six a b c d e f (x : nat -> ascii * ascii) :
  (forall i y, [a; b; c; d; e; f] !! i = Some y -> hex_pair (fst (x i)) (snd (x i)) = Some y) ->
  ParseMAC (join ":" (map (fun i => String (fst (x i)) (String (snd (x i)) EmptyString)) (seq 0 6))) = Some [a; b; c; d; e; f].
Proof.
  intros H. cbn [seq map join]. unfold String.app. cbn -[hex_pair]. rewrite (H 0%nat a), (H 1%nat b), (H 2%nat c), (H 3%nat d), (H 4%nat e), (H 5%nat f) by done. done.
Qed.

Lemma ParseMAC_print hw : mac_ok hw -> ParseMAC (Mac_String hw) = Some hw.
Proof.
  intros [Hl Hb]. destruct hw as [|a [|b [|c [|d [|e [|f [|]]]]]]]; try done. set (hw := [a; b; c; d; e; f]) in *.
  refine (ParseMAC_six a b c d e f (fun i => (nibble (Z.shiftr (nth i hw 0) 4), nibble (Z.land (nth i hw 0) 15))) _).
  intros i y Hi. cbn [fst snd]. rewrite (nth_lookup_Some _ _ _ _ Hi). apply hex_pair_print. by eapply Forall_lookup_1.
Qed.

(** Addresses and MAC addresses as the code prints them. *)
Definition canonical_ip (s : string) : Prop := exists ip, ParseIP s = Some ip /\ IP_String ip = s /\ kernel_ip (norm ip) /\ ip <> [].
Definition canonical_mac (s : string) : Prop := exists hw, ParseMAC s = Some hw /\ Mac_String hw = s /\ mac_ok hw.

Lemma canonical_ip_same s ip x : ParseIP s = Some ip -> canonical_ip s -> kernel_ip x -> IP_String x = s <-> x = norm ip.
Proof.
  intros Hp (ip' & Hp' & Hs & Hk & Hne) Hx. rewrite Hp in Hp'. injection Hp' as <-. split.
  - intros E. destruct (decide (x = [])) as [-> |Hx0]; [by rewrite <- E in Hp|]. destruct (ParseIP_print x Hx Hx0) as (y & Hy & Hn & _). congruence.
  - intros ->. by rewrite IP_String_norm.
Qed.

Lemma canonical_mac_same s hw x : ParseMAC s = Some hw -> canonical_mac s -> x = [] \/ mac_ok x -> Mac_String x = s <-> x = hw.
Proof.
  intros Hp (hw' & Hp' & Hs & Hk) Hx. rewrite Hp in Hp'. injection Hp' as <-. split; [|by intros ->].
  intros E. destruct Hx as [-> |Hx]; [by rewrite <- E in Hp|]. apply ParseMAC_print in Hx. congruence.
Qed.

(** * Neighbours and forwarding entries *)

Definition vxlan_names : list string := [VXLAN_BRIDGE_NAME; VXLAN_BRIDGE_NAME_6; VXLAN_LOCAL_NAME; VXLAN_LOCAL_NAME_6].

Section loads.
  Context {N : Type} `{NetlinkLaws N}.

(** The entries of the kernel that count for a type. *)
Definition of_type (t : NeighType) (x : NeighKey) : Prop :=
  match t with NEIGH_FDB => nk_Family x = AF_BRIDGE | NEIGH_ARP => (nk_Family x = FAMILY_V4 \/ nk_Family x = FAMILY_V6) /\ nk_State x = NUD_PERMANENT end.

Lemma getNeighList_elem t l n r x : answers n -> is_link n l -> getNeighList (lk_Index l) t n = inl r ->
  x ∈ neigh_key <$> List.filter (neigh_shown t) r <-> neighs n x /\ nk_LinkIndex x = lk_Index l /\ of_type t x.
Proof.
  intros Hn Hl Hr. assert (Hf : x ∈ neigh_key <$> List.filter (neigh_shown t) r <-> x ∈ neigh_key <$> r /\ match t with NEIGH_FDB => True | NEIGH_ARP => nk_State x = NUD_PERMANENT end).
  { rewrite !list_elem_of_fmap. split.
    - intros (y & -> & Hy%list_filter_spec). destruct Hy as [Hy Hs]. split; [by exists y|]. destruct t; [done|]. by apply Z.eqb_eq.
    - intros [(y & -> & Hy) Hs]. exists y. split; [done|]. apply list_filter_spec. split; [done|]. destruct t; [done|]. by apply Z.eqb_eq. }
  rewrite Hf. destruct t; simpl in Hr.
  - rewrite (NeighList_law _ _ _ _ x Hr). simpl. tauto.
  - unfold neighListForArp in Hr. destruct (NeighList (lk_Index l) FAMILY_V4 n) as [r4|] eqn:E4, (NeighList (lk_Index l) FAMILY_V6 n) as [r6|] eqn:E6; try done.
    injection Hr as <-. rewrite fmap_app, elem_of_app, (NeighList_law _ _ _ _ x E4), (NeighList_law _ _ _ _ x E6). simpl. tauto.
Qed.

Lemma getNeighList_ok t l n : answers n -> is_link n l -> exists r, getNeighList (lk_Index l) t n = inl r.
Proof.
  intros (_ & _ & Hn) Hl. destruct t; simpl; [by apply Hn|]. unfold neighListForArp. destruct (Hn l FAMILY_V4 Hl) as [r4 ->], (Hn l FAMILY_V6 Hl) as [r6 ->]. by eexists.
Qed.

Lemma link_of_name n name : answers n -> (exists l, LinkByName name n = inl l /\ is_link n l /\ lk_Name l = name) \/ (LinkByName name n = inr LinkNotFoundError /\ forall l, is_link n l -> lk_Name l <> name).
Proof.
  intros [Hn _]. destruct (Hn name) as [[l E]|E].
  - left. exists l. destruct (LinkByName_law _ _ _ E). done.
  - right. split; [done|]. intros l. by apply LinkByName_none.
Qed.

(** What [ListNeigh] gives. *)
Lemma ListNeigh_elem t n ip mac dev : answers n -> (ip, mac, dev) ∈ ListNeigh t n <->
  dev ∈ vxlan_names /\ exists l x, is_link n l /\ lk_Name l = dev /\ neighs n x /\ nk_LinkIndex x = lk_Index l /\ of_type t x /\ IP_String (nk_IP x) = ip /\ Mac_String (nk_Mac x) = mac.
Proof.
  intros Hn. transitivity (In (ip, mac, dev) (flat_map (fun dev => list_device t dev n) vxlan_names)); [apply list_elem_of_In|]. rewrite in_flat_map. split.
  - intros (d & Hd & Hin). unfold list_device in Hin. destruct (link_of_name n d Hn) as [(l & E & Hl & Hname)|[E _]]; rewrite E in Hin; [|done].
    destruct (getNeighList_ok t l n Hn Hl) as [r Hr]. rewrite Hr in Hin. apply in_map_iff in Hin as (y & Ey & Hy). injection Ey as <- <- <-.
    split; [by apply list_elem_of_In|]. destruct (proj1 (getNeighList_elem t l n r (neigh_key y) Hn Hl Hr)) as (H1 & H2 & H3).
    { apply list_elem_of_fmap. exists y. split; [done|]. by apply list_elem_of_In. }
    exists l, (neigh_key y). split_and!; try done. simpl. apply IP_String_norm.
  - intros [Hd (l & x & Hl & Hname & Hx & Hi & Ht & Hip & Hmac)]. exists dev. split; [by apply list_elem_of_In|]. unfold list_device.
    destruct (link_of_name n dev Hn) as [(l' & E & Hl' & Hname')|[_ E]]; [|by destruct (E l Hl)]. rewrite E.
    assert (l' = l) as -> by (apply (links_unique n); [done|done|left; congruence]).
    destruct (getNeighList_ok t l n Hn Hl) as [r Hr]. rewrite Hr. apply in_map_iff.
    pose proof (proj2 (getNeighList_elem t l n r x Hn Hl Hr) (conj Hx (conj Hi Ht))) as Hin. apply list_elem_of_fmap in Hin as (y & Ey & Hy). exists y. split; [|by apply list_elem_of_In].
    rewrite Ey in Hip, Hmac. simpl in Hip. rewrite IP_String_norm in Hip. simpl in Hmac. by rewrite Hip, Hmac.
Qed.

(** The records that the kernel does not tell apart. *)
Definition same_entry (t : NeighType) (x y : FDBRecord) : Prop :=
  match t with NEIGH_FDB => x = y | NEIGH_ARP => fst (fst x) = fst (fst y) /\ snd x = snd y end.

(** The entries of the kernel that an entry stands for. *)
Definition stands_for (e : Neigh) (x : NeighKey) : Prop :=
  nk_LinkIndex x = ne_LinkIndex e /\ nk_Family x = ne_Family e /\ nk_IP x = norm (ne_IP e) /\ (ne_Family e = AF_BRIDGE -> nk_Mac x = ne_HardwareAddr e).

Lemma entry_family t ip hw l x : of_type t x -> (nk_Family x = FAMILY_V4 -> length (nk_IP x) = 4%nat) -> (nk_Family x = FAMILY_V6 -> length (nk_IP x) = 16%nat) ->
  kernel_ip (nk_IP x) -> nk_IP x = norm ip -> nk_Family x = ne_Family (getNeighEntry ip hw l t).
Proof.
  destruct t; simpl; [done|]. intros [[Hf|Hf] _] H4 H6 Hk Hip; rewrite Hf.
  - specialize (H4 Hf). destruct (To4 ip) as [p|] eqn:E; [done|]. unfold norm in Hip. rewrite E in Hip. simpl in Hip. rewrite Hip in H4. unfold To4 in E. by rewrite H4 in E.
  - specialize (H6 Hf). destruct (To4 ip) as [p|] eqn:E; [|done]. unfold norm in Hip. rewrite E in Hip. simpl in Hip. apply To4_length in E. rewrite Hip in H6. lia.
Qed.

Lemma entry_shown t ip mac dev ipA hw l n x l' ip' mac' : ParseIP ip = Some ipA -> ParseMAC mac = Some hw -> canonical_ip ip -> canonical_mac mac ->
  is_link n l -> lk_Name l = dev -> is_link n l' -> neighs n x -> nk_LinkIndex x = lk_Index l' -> of_type t x -> IP_String (nk_IP x) = ip' -> Mac_String (nk_Mac x) = mac' ->
  stands_for (getNeighEntry ipA hw l t) x <-> same_entry t (ip', mac', lk_Name l') (ip, mac, dev).
Proof.
  intros Hip Hmac Cip Cmac Hl <- Hl' Hx Hi Ht <- <-. destruct (neighs_ok n x Hx) as (_ & Kip & Kmac & K4 & K6).
  pose proof (canonical_ip_same ip ipA (nk_IP x) Hip Cip Kip) as Eip. pose proof (canonical_mac_same mac hw (nk_Mac x) Hmac Cmac Kmac) as Emac.
  assert (Ei : lk_Index l' = lk_Index l <-> lk_Name l' = lk_Name l) by (split; intros E; assert (l' = l) as -> by (apply (links_unique n); auto); done).
  pose proof (entry_family t ipA hw l x Ht K4 K6 Kip) as Hf. unfold stands_for, same_entry. rewrite Hi. destruct t; simpl in *.
  - split.
    + intros (E1 & _ & E2 & E3). rewrite (proj2 Eip E2), (proj2 Emac (E3 eq_refl)). by rewrite (proj1 Ei E1).
    + intros [= E1 E2 E3]. split_and!; [by apply Ei|done|by apply Eip|]. intros _. by apply Emac.
  - split.
    + intros (E1 & _ & E2 & _). split; [by apply Eip|by apply Ei].
    + intros (E1 & E2). apply Eip in E1. split_and!; [by apply Ei|by apply Hf|done|]. intros Hb. exfalso. destruct (To4 ipA); discriminate Hb.
Qed.

Lemma parseIPMAC_spec ip mac dev n r : parseIPMAC ip mac dev n = inl r -> exists ipA hw l, r = (ipA, hw, l) /\ ParseIP ip = Some ipA /\ ParseMAC mac = Some hw /\ is_link n l /\ lk_Name l = dev.
Proof.
  unfold parseIPMAC. destruct (ParseIP ip) as [ipA|]; [|done]. destruct (ParseMAC mac) as [hw|]; [|done]. destruct (LinkByName dev n) as [l|] eqn:E; [|done].
  intros [= <-]. destruct (LinkByName_law _ _ _ E). by exists ipA, hw, l.
Qed.

(** The entry made from a record is listed as the record. *)
Lemma entry_of_record t ip mac dev ipA hw l n : ParseIP ip = Some ipA -> ParseMAC mac = Some hw -> canonical_ip ip -> canonical_mac mac -> is_link n l -> lk_Name l = dev ->
  let x := neigh_key (getNeighEntry ipA hw l t) in nk_LinkIndex x = lk_Index l /\ of_type t x /\ IP_String (nk_IP x) = ip /\ Mac_String (nk_Mac x) = mac.
Proof.
  intros Hip Hmac (ip0 & E1 & E2 & _) (hw0 & E3 & E4 & _) Hl Hn. assert (ip0 = ipA) as -> by congruence. assert (hw0 = hw) as -> by congruence.
  destruct t; cbn -[IP_String norm To4]; rewrite IP_String_norm; split_and!; try done. destruct (To4 ipA); [by left|by right].
Qed.

Lemma other_type t t' ip hw l x : t' <> t -> of_type t' x -> nk_Family x <> ne_Family (getNeighEntry ip hw l t).
Proof. destruct t, t'; try done; simpl; intros _ Hx E; [|rewrite Hx in E; destruct (To4 ip); discriminate E]. destruct Hx as [[Hx|Hx] _]; rewrite E in Hx; discriminate Hx. Qed.

(** How a change of the entries shows in the lists. *)
Lemma ListNeigh_delta t n n' (added : NeighKey -> Prop) (gone : NeighKey -> Prop) r : answers n -> answers n' -> same_links n n' ->
  (forall x, of_type t x -> neighs n' x <-> added x \/ neighs n x /\ ~ gone x) ->
  r ∈ ListNeigh t n' <-> snd r ∈ vxlan_names /\ exists l x, is_link n l /\ lk_Name l = snd r /\ (added x \/ neighs n x /\ ~ gone x) /\ nk_LinkIndex x = lk_Index l /\ of_type t x /\
    IP_String (nk_IP x) = fst (fst r) /\ Mac_String (nk_Mac x) = snd (fst r).
Proof.
  intros Hn Hn' Hl Hd. destruct r as [[ip mac] dev]. rewrite ListNeigh_elem by done. cbn [fst snd]. apply and_iff_compat_l. split.
  - intros (l & x & E1 & E2 & E3 & E4 & E5 & E6 & E7). exists l, x. apply Hl in E1. apply Hd in E3; done.
  - intros (l & x & E1 & E2 & E3 & E4 & E5 & E6 & E7). exists l, x. apply Hl in E1. apply Hd in E3; done.
Qed.

Lemma ListNeigh_removed t n n' ip mac dev ipA hw l : answers n -> answers n' -> same_links n n' -> canonical_ip ip -> canonical_mac mac ->
  ParseIP ip = Some ipA -> ParseMAC mac = Some hw -> is_link n l -> lk_Name l = dev ->
  forall r, (snd r ∈ vxlan_names /\ exists l0 x, is_link n l0 /\ lk_Name l0 = snd r /\ (neighs n x /\ ~ stands_for (getNeighEntry ipA hw l t) x) /\ nk_LinkIndex x = lk_Index l0 /\ of_type t x /\
      IP_String (nk_IP x) = fst (fst r) /\ Mac_String (nk_Mac x) = snd (fst r)) <-> r ∈ ListNeigh t n /\ ~ same_entry t r (ip, mac, dev).
Proof.
  intros Hn Hn' Hs Cip Cmac Pip Pmac Hl Hd [[ip' mac'] dev']. rewrite ListNeigh_elem by done. cbn [fst snd]. split.
  - intros (Hv & l0 & x & H1 & <- & [H3 H3'] & H4 & H5 & H6 & H7). split; [split; [done|]; by exists l0, x|].
    intros Hse. apply H3'. by apply (entry_shown t ip mac dev ipA hw l n x l0 ip' mac').
  - intros ((Hv & l0 & x & H1 & <- & H3 & H4 & H5 & H6 & H7) & Hns). split; [done|]. exists l0, x. split_and!; try done.
    intros Hst. apply Hns. by apply (entry_shown t ip mac dev ipA hw l n x l0 ip' mac').
Qed.

Lemma same_entry_dec t x y : same_entry t x y \/ ~ same_entry t x y.
Proof. destruct t; simpl; [destruct (decide (x = y)); auto|]. destruct (decide (fst (fst x) = fst (fst y) /\ snd x = snd y)); auto. Qed.

Lemma delete_listed t ip mac dev n n' : canonical_ip ip -> canonical_mac mac -> answers n -> answers n' -> DeleteNeigh ip mac t dev n = (n', None) ->
  (forall r, r ∈ ListNeigh t n' <-> r ∈ ListNeigh t n /\ ~ same_entry t r (ip, mac, dev)) /\ (forall t' r, t' <> t -> r ∈ ListNeigh t' n' <-> r ∈ ListNeigh t' n).
Proof.
  intros Cip Cmac Hn Hn' E. unfold DeleteNeigh in E. destruct (parseIPMAC ip mac dev n) as [r|] eqn:Ep; [|done].
  apply parseIPMAC_spec in Ep as (ipA & hw & l & -> & Pip & Pmac & Hl & Hd). unfold delEntryToNeigh, err_text in E.
  destruct (NeighDel (getNeighEntry ipA hw l t) n) as [n1 [e|]] eqn:En; [done|]. injection E as <-. apply NeighDel_law in En as (Hx & Hs & _).
  fold (stands_for (getNeighEntry ipA hw l t)) in Hx. split.
  - intros r. rewrite (ListNeigh_delta t n n1 (fun _ => False) (stands_for (getNeighEntry ipA hw l t))); [|done|done|done|intros x _; rewrite (Hx x); unfold stands_for; tauto].
    rewrite <- (ListNeigh_removed t n n1 ip mac dev ipA hw l) by done. apply and_iff_compat_l. split; intros (l0 & x & H'); exists l0, x; tauto.
  - intros t' [[ip' mac'] dev'] Ht. rewrite (ListNeigh_delta t' n n1 (fun _ => False) (fun _ => False)); [|done|done|done|].
    + rewrite ListNeigh_elem by done. cbn [fst snd]. apply and_iff_compat_l. split; intros (l0 & x & H'); exists l0, x; tauto.
    + intros x Htx. rewrite (Hx x). pose proof (other_type t t' ipA hw l x Ht Htx). unfold stands_for. tauto.
Qed.

Lemma add_entry_law t ipA hw l n n' : addEntryToNeigh ipA hw l t n = (n', None) -> let e := getNeighEntry ipA hw l t in same_links n n' /\
  forall x, neighs n' x <-> x = neigh_key e \/ neighs n x /\ (t = NEIGH_FDB \/ ~ stands_for e x).
Proof.
  unfold addEntryToNeigh, err_text. destruct t.
  - destruct (NeighAppend _ n) as [n1 [e|]] eqn:En; [done|]. intros [= <-]. apply NeighAppend_law in En as (Hx & Hs & _). split; [done|]. intros x. rewrite (Hx x). tauto.
  - destruct (NeighSet _ n) as [n1 [e|]] eqn:En; [done|]. intros [= <-]. apply NeighSet_law in En as (Hx & Hs & _). split; [done|]. intros x. rewrite (Hx x). unfold stands_for.
    assert (ne_Family (getNeighEntry ipA hw l NEIGH_ARP) <> AF_BRIDGE) as Hf by (simpl; destruct (To4 ipA); done). assert (NEIGH_ARP <> NEIGH_FDB) by done. tauto.
Qed.

Lemma add_listed t ip mac dev n n' : canonical_ip ip -> canonical_mac mac -> dev ∈ vxlan_names -> answers n -> answers n' -> AddNeigh ip mac t dev n = (n', None) ->
  (forall r, r ∈ ListNeigh t n' <-> r = (ip, mac, dev) \/ r ∈ ListNeigh t n /\ ~ same_entry t r (ip, mac, dev)) /\ (forall t' r, t' <> t -> r ∈ ListNeigh t' n' <-> r ∈ ListNeigh t' n).
Proof.
  intros Cip Cmac Hv Hn Hn' E. unfold AddNeigh in E. destruct (parseIPMAC ip mac dev n) as [r|] eqn:Ep; [|done].
  apply parseIPMAC_spec in Ep as (ipA & hw & l & -> & Pip & Pmac & Hl & Hd). apply add_entry_law in E as [Hs Hx]. set (e := getNeighEntry ipA hw l t) in *.
  destruct (entry_of_record t ip mac dev ipA hw l n Pip Pmac Cip Cmac Hl Hd) as (K1 & K2 & K3 & K4). fold e in K1, K2, K3, K4. split.
  - intros r. rewrite (ListNeigh_delta t n n' (fun x => x = neigh_key e) (fun x => ~ (t = NEIGH_FDB \/ ~ stands_for e x))); [|done|done|done|].
    2:{ intros x _. rewrite (Hx x). destruct t; [tauto|]. split; [intros [?|[? [?|?]]]; tauto|]. intros [?|[? Hs']]; [tauto|]. right. split; [done|]. right. intros Hst. apply Hs'. by intros [|]. }
    split.
    + intros (Hrv & l0 & x & H1 & H2 & [-> |[H3 H3']] & H4 & H5 & H6 & H7).
      * left. assert (l0 = l) as -> by (apply (links_unique n); [done|done|right; congruence]). destruct r as [[ip' mac'] dev']. simpl in *. congruence.
      * destruct (same_entry_dec t r (ip, mac, dev)) as [Hse|Hse].
        { destruct t; [by left|]. exfalso. apply H3'. intros [|Hns]; [done|]. apply Hns. destruct r as [[ip' mac'] dev']. simpl in *. subst dev'.
          by apply (entry_shown NEIGH_ARP ip mac dev ipA hw l n x l0 ip' mac'). }
        right. split; [|done]. destruct r as [[ip' mac'] dev']. apply ListNeigh_elem; [done|]. split; [done|]. by exists l0, x.
    + intros [-> |[Hr Hns]].
      * split; [done|]. exists l, (neigh_key e). split_and!; try done. by left.
      * destruct (proj2 (ListNeigh_removed t n n' ip mac dev ipA hw l Hn Hn' Hs Cip Cmac Pip Pmac Hl Hd r) (conj Hr Hns)) as (Hrv & l0 & x & H1 & H2 & [H3 H3'] & H4).
        split; [done|]. exists l0, x. split_and!; try apply H4; try done. right. split; [done|]. intros Hc. apply Hc. by right.
  - intros t' [[ip' mac'] dev'] Ht. rewrite (ListNeigh_delta t' n n' (fun _ => False) (fun _ => False)); [|done|done|done|].
    + rewrite ListNeigh_elem by done. cbn [fst snd]. apply and_iff_compat_l. split; intros (l0 & x & H'); exists l0, x; tauto.
    + intros x Htx. rewrite (Hx x). pose proof (other_type t t' ipA hw l x Ht Htx) as Ho. fold e in Ho. split.
      * intros [-> |[? _]]; [by destruct Ho|tauto].
      * intros [[]|[H3 _]]. right. split; [done|]. right. intros (_ & Hf & _). done.
Qed.

(** * Routes *)

Definition shown_key (dev : string) (x : RouteKey) : Route :=
  mkRoute (match rk_Dst x with Some dst => IPNet_String dst | None => "<nil>" end) (IP_String (rk_Gw x)) dev.

Lemma shown_route_key dev r : shown_route dev r = shown_key dev (route_key r).
Proof. unfold shown_route, shown_key. simpl. rewrite IP_String_norm. f_equal. destruct (nr_Dst r) as [dst|]; [|done]. simpl. by rewrite IPNet_String_norm. Qed.

Definition of_link (i : Z) (x : RouteKey) : bool := (rk_LinkIndex x =? i) && (rk_Table x =? TABLE_ID).
Definition index_of (n : N) (dev : string) : option Z := match LinkByName dev n with inl l => Some (lk_Index l) | inr _ => None end.
Definition dev_routes (i : option Z) (rs : list RouteKey) (dev : string) : list Route :=
  match i with Some i => map (shown_key dev) (List.filter (of_link i) rs) | None => [] end.

Lemma filter_perm {A} (p : A -> bool) l l' : l ≡ₚ l' -> List.filter p l ≡ₚ List.filter p l'.
Proof.
  induction 1 as [|x l l' _ IH|x y l|l1 l2 l3 _ IH1 _ IH2]; simpl; [done| | |by rewrite IH1].
  - destruct (p x); [by rewrite IH|done].
  - destruct (p x), (p y); try done. apply Permutation_swap.
Qed.

Lemma dev_routes_perm i rs rs' dev : rs ≡ₚ rs' -> dev_routes i rs dev ≡ₚ dev_routes i rs' dev.
Proof. intros E. destruct i as [i|]; [|done]. simpl. apply Permutation_map. by apply filter_perm. Qed.

Lemma flat_map_perm {A B} (f g : A -> list B) l : (forall x, x ∈ l -> f x ≡ₚ g x) -> flat_map f l ≡ₚ flat_map g l.
Proof. induction l as [|x l IH]; intros E; [done|]. simpl. rewrite (E x) by (by left). rewrite IH; [done|]. intros y Hy. apply E. by right. Qed.

Lemma getRoutes_spec dev n r : getRoutes dev n = inl r -> map (shown_route dev) r ≡ₚ dev_routes (index_of n dev) (routes n) dev.
Proof.
  unfold getRoutes, index_of. destruct (LinkByName dev n) as [l|]; [|done]. destruct (RouteListFiltered _ _ _ _) as [rs|] eqn:E; [|done]. intros [= <-].
  apply RouteList_law in E. simpl. rewrite (map_ext _ (fun r => shown_key dev (route_key r))) by (intros; apply shown_route_key). rewrite <- (map_map route_key).
  apply Permutation_map. change (fun x => _ && _) with (of_link (lk_Index l)) in E. change (route_key <$> rs) with (map route_key rs) in E.
  assert (Ef : map route_key (List.filter (fun r => nr_Table r =? TABLE_ID) rs) = List.filter (fun x => rk_Table x =? TABLE_ID) (map route_key rs)).
  { clear E. induction rs as [|r rs IH]; [done|]. simpl. destruct (nr_Table r =? TABLE_ID); simpl; by rewrite IH. }
  rewrite Ef, (filter_perm _ _ _ E). clear. induction (routes n) as [|x rs IH]; [done|]. cbn [List.filter].
  destruct (of_link (lk_Index l) x) eqn:Eo; [|exact IH]. cbn [List.filter]. pose proof Eo as Et. apply andb_true_iff in Et as [_ Et]. by rewrite Et, IH.
Qed.

(** The device is there or it is not. *)
Definition looked_up (n : N) (dev : string) : Prop := (exists l, LinkByName dev n = inl l) \/ LinkByName dev n = inr LinkNotFoundError.

Lemma load_routes_spec n : forall ds l, load_routes ds n = inl l ->
  l ≡ₚ flat_map (fun dev => dev_routes (index_of n dev) (routes n) dev) (map fst ds) /\ forall dev, dev ∈ map fst ds -> looked_up n dev.
Proof.
  induction ds as [|d ds IH]; intros l E; cbn [load_routes] in E; [injection E as <-; split; [done|by intros ? ?%elem_of_nil]|].
  assert (Hall : looked_up n (fst d) -> (forall dev, dev ∈ map fst ds -> looked_up n dev) -> forall dev, dev ∈ map fst (d :: ds) -> looked_up n dev).
  { intros H1 H2 dev Hin. cbn [map] in Hin. apply elem_of_cons in Hin as [-> |Hin]; auto. }
  destruct (getRoutes (fst d) n) as [r|err] eqn:Eg.
  - destruct (load_routes ds n) as [l'|]; [|done]. injection E as <-. destruct (IH l' eq_refl) as [IH1 IH2]. cbn [map flat_map]. split; [by rewrite (getRoutes_spec _ _ _ Eg), IH1|].
    apply Hall; [|done]. unfold getRoutes in Eg. left. destruct (LinkByName (fst d) n) as [k|]; [by exists k|done].
  - unfold getRoutes in Eg. destruct (LinkByName (fst d) n) as [k|e] eqn:El.
    + destruct (RouteListFiltered _ _ _ _) as [|e] eqn:Er; [done|]. injection Eg as <-. destruct e; [|done|done]. destruct (IH l E) as [IH1 IH2].
      exfalso. exact (RouteList_no_link _ _ _ _ Er).
    + injection Eg as <-. destruct e; [|done|done]. destruct (IH l E) as [IH1 IH2]. cbn [map flat_map]. split; [|apply Hall; [by right|done]].
      unfold index_of at 1. by rewrite El.
Qed.

(** Networks and routes as the code prints them. *)
Definition canonical_cidr (s : string) : Prop := exists ip net, ParseCIDR s = Some (ip, net) /\ IPNet_String net = s.
Definition route_ok (r : Route) : Prop := canonical_cidr (rt_CIDR r) /\ canonical_ip (rt_Gw r) /\ rt_Dev r ∈ map fst ALL_DEVICES.

Lemma index_same n n' dev : same_links n n' -> looked_up n dev -> looked_up n' dev -> index_of n' dev = index_of n dev.
Proof.
  intros Hs H1 H2. unfold index_of. destruct H1 as [[l E1]|E1], H2 as [[l' E2]|E2]; rewrite E1, E2; [|exfalso|exfalso|done].
  - apply LinkByName_law in E1 as [A1 A2], E2 as [B1 B2]. apply Hs in B1. f_equal. f_equal. apply (links_unique n); [done|done|left; congruence].
  - apply LinkByName_law in E1 as [A1 A2]. apply Hs in A1. by apply (LinkByName_none _ _ l E2) in A1.
  - apply LinkByName_law in E2 as [A1 A2]. apply Hs in A1. by apply (LinkByName_none _ _ l' E1) in A1.
Qed.

(** One more route in the kernel is one more route loaded. *)
Lemma load_one_more key dev l0 n n' l l' : routes n' ≡ₚ key :: routes n -> same_links n n' -> LinkByName dev n = inl l0 -> rk_LinkIndex key = lk_Index l0 -> rk_Table key = TABLE_ID ->
  dev ∈ map fst ALL_DEVICES -> nl_loadRoutes n = inl l -> nl_loadRoutes n' = inl l' -> l' ≡ₚ shown_key dev key :: l.
Proof.
  intros Hr Hs Hl Hi Ht Hdev E E'. apply load_routes_spec in E as [-> Hlk]. apply load_routes_spec in E' as [-> Hlk'].
  rewrite (flat_map_perm _ (fun d => dev_routes (index_of n d) (key :: routes n) d)).
  2:{ intros d Hd. rewrite (index_same n n') by auto. by apply dev_routes_perm. }
  assert (Hnd : NoDup (map fst ALL_DEVICES)) by (refine (bool_decide_eq_true_1 _ _); by vm_compute).
  destruct (flat_map_change (fun d => dev_routes (index_of n d) (routes n) d) (fun d => dev_routes (index_of n d) (key :: routes n) d) dev (map fst ALL_DEVICES) Hnd Hdev)
    as (b & a & E1 & E2).
  - intros d Hd. unfold index_of. destruct (LinkByName d n) as [ld|] eqn:Ed; [|done]. simpl. unfold of_link at 1. rewrite Hi.
    destruct (Z.eqb_spec (lk_Index l0) (lk_Index ld)) as [Ei|]; [|done]. exfalso. apply Hd.
    apply LinkByName_law in Hl as [A1 A2], Ed as [B1 B2]. assert (l0 = ld) as -> by (apply (links_unique n); auto). congruence.
  - rewrite E1, E2. assert (Ek : dev_routes (index_of n dev) (key :: routes n) dev = shown_key dev key :: dev_routes (index_of n dev) (routes n) dev).
    { unfold index_of. rewrite Hl. simpl. unfold of_link at 1. by rewrite Hi, Ht, !Z.eqb_refl. }
    rewrite Ek. simpl. symmetry. apply Permutation_middle.
Qed.

Lemma on_route_spec (op : NRoute -> N -> N * option nl_error) r n n' : on_route op r n = (n', None) -> exists l0 ip net,
  LinkByName (rt_Dev r) n = inl l0 /\ ParseCIDR (rt_CIDR r) = Some (ip, net) /\
  op (mkNRoute (Some net) (default [] (ParseIP (rt_Gw r))) (lk_Index l0) RT_SCOPE_UNIVERSE NDA_DST FLAG_ONLINK TABLE_ID) n = (n', None).
Proof.
  unfold on_route, err_text. destruct (LinkByName (rt_Dev r) n) as [l0|]; [|done]. destruct (ParseCIDR (rt_CIDR r)) as [[ip net]|]; [|done].
  destruct (op _ n) as [n1 [e|]] eqn:Eo; [done|]. intros [= <-]. by exists l0, ip, net.
Qed.

Lemma shown_record r ip net gw i : canonical_cidr (rt_CIDR r) -> canonical_ip (rt_Gw r) -> ParseCIDR (rt_CIDR r) = Some (ip, net) -> ParseIP (rt_Gw r) = Some gw ->
  shown_key (rt_Dev r) (mkRouteKey (Some (norm_net net)) (norm gw) i TABLE_ID) = r.
Proof.
  intros (ip' & net' & E1 & E2) (gw' & E3 & E4 & _) Ec Eg. unfold shown_key. simpl. rewrite IPNet_String_norm, IP_String_norm. destruct r. simpl in *. congruence.
Qed.

(** * Devices *)

Definition bind_of (n : N) (lk : Link) : string := match LinkByIndex (lk_VtepDevIndex lk) n with inl b => lk_Name b | inr _ => "" end.
Definition first_addr (n : N) (lk : Link) (family : Z) : option IPNet := head (List.filter (fun a => family_of a =? family) (addrs n (lk_Index lk))).
Definition device_at (n : N) (lk : Link) (family : Z) : Device :=
  match first_addr n lk family with None => shown_device lk None "" | Some a => shown_device lk (Some a) (bind_of n lk) end.

Lemma first_map {A B} (f : A -> B) (p : A -> bool) l : f <$> first p l = head (f <$> List.filter p l).
Proof. induction l as [|x l IH]; [done|]. simpl. destruct (p x); [done|]. exact IH. Qed.

Lemma load_device_spec n name family o : answers n -> load_device (name, family) n = inl o ->
  match o with None => forall lk, is_link n lk -> lk_Name lk <> name | Some x => exists lk, is_link n lk /\ lk_Name lk = name /\ x = device_at n lk family end.
Proof.
  intros Hn. unfold load_device. cbn [fst snd]. destruct (link_of_name n name Hn) as [(lk & E & Hl & Hname)|[E Hno]]; rewrite E; [|by intros [= <-]].
  destruct (negb _); [done|]. destruct (AddrList lk family n) as [r|] eqn:Ea; [|done]. rewrite first_map, (AddrList_law _ _ _ _ Hl Ea). fold (first_addr n lk family).
  unfold device_at, bind_of. destruct (first_addr n lk family) as [a|] eqn:Ef.
  - destruct (LinkByIndex (lk_VtepDevIndex lk) n) eqn:Eb; intros [= <-]; exists lk; rewrite Ef, Eb; done.
  - intros [= <-]. exists lk. by rewrite Ef.
Qed.

Lemma load_devices_elem n : answers n -> forall ds l, load_devices ds n = inl l -> forall x, x ∈ l <->
  exists name family lk, (name, family) ∈ ds /\ is_link n lk /\ lk_Name lk = name /\ x = device_at n lk family.
Proof.
  intros Hn. induction ds as [|[name family] ds IH]; intros l E x; cbn [load_devices] in E.
  { injection E as <-. rewrite elem_of_nil. split; [done|]. by intros (? & ? & ? & ?%elem_of_nil & _). }
  destruct (load_device (name, family) n) as [o|] eqn:Eo; [|done]. destruct (load_devices ds n) as [l'|]; [|done]. injection E as <-.
  apply load_device_spec in Eo; [|done]. specialize (IH l' eq_refl x). split.
  - intros Hx. assert (Hc : o = Some x \/ x ∈ l') by (destruct o; [apply elem_of_cons in Hx as [-> |]; auto|auto]). destruct Hc as [-> |Hx'].
    + destruct Eo as (lk & ? & ? & ?). exists name, family, lk. split; [by left|done].
    + apply IH in Hx' as (nm & f & lk & H1 & H2). exists nm, f, lk. split; [by right|done].
  - intros (nm & f & lk & H1 & Hl & Hname & ->). apply elem_of_cons in H1 as [[= -> ->]|H1].
    + destruct o as [x|]; [|by destruct (Eo lk Hl)]. destruct Eo as (lk' & Hl' & Hname' & ->). assert (lk' = lk) as -> by (apply (links_unique n); [done|done|left; congruence]). by left.
    + assert (device_at n lk f ∈ l') as Hx by (apply IH; by exists nm, f, lk). destruct o; [by right|done].
Qed.

(** The devices of the overlay. *)
Definition n_dev (n : N) (d : Device) : Prop := exists name f lk, (name, f) ∈ ALL_DEVICES /\ is_link n lk /\ lk_Name lk = name /\ d = device_at n lk f.

Lemma device_at_name (n : N) lk f : dev_Name (device_at n lk f) = lk_Name lk.
Proof. unfold device_at. by destruct (first_addr n lk f). Qed.

Lemma bind_same n n' lk : answers n -> answers n' -> (forall b, lk_Index b = lk_VtepDevIndex lk -> is_link n' b <-> is_link n b) -> bind_of n' lk = bind_of n lk.
Proof.
  intros (_ & Hn & _) (_ & Hn' & _) Hb. unfold bind_of. destruct (LinkByIndex (lk_VtepDevIndex lk) n) as [b|] eqn:E, (LinkByIndex (lk_VtepDevIndex lk) n') as [b'|] eqn:E'; [| | |done].
  - apply LinkByIndex_law in E as [A1 A2], E' as [B1 B2]. apply Hb in B1; [|done]. f_equal. apply (links_unique n); [done|done|right; congruence].
  - apply LinkByIndex_law in E as [A1 A2]. apply Hb in A1; [|done]. apply Hn' in A1. congruence.
  - apply LinkByIndex_law in E' as [A1 A2]. apply Hb in A1; [|done]. apply Hn in A1. congruence.
Qed.

Lemma device_at_same n n' lk family : answers n -> answers n' -> addrs n' (lk_Index lk) = addrs n (lk_Index lk) ->
  (forall b, lk_Index b = lk_VtepDevIndex lk -> is_link n' b <-> is_link n b) -> device_at n' lk family = device_at n lk family.
Proof. intros Hn Hn' Ha Hb. unfold device_at, first_addr. rewrite Ha, (bind_same n n') by done. done. Qed.

Lemma family_norm net : family_of (norm_net net) = family_of net.
Proof. unfold family_of, norm_net. simpl. by rewrite To4_norm. Qed.

(** What a successful creation has done. *)
Lemma create_iface name a id port hw i ip v n n' : createNewVxlanIface name a id port hw i ip v n = (n', None) -> exists lk,
  lk_Name lk = name /\ lk_Type lk = "vxlan" /\ lk_Mac lk = hw /\ lk_VxlanId lk = id /\ lk_Port lk = port /\ lk_VtepDevIndex lk = v /\
  (forall x, is_link n x -> lk_Name x <> name /\ lk_Index x <> lk_Index lk /\ lk_VtepDevIndex x <> lk_Index lk) /\ (forall x, is_link n' x <-> x = lk \/ is_link n x) /\
  addrs n' (lk_Index lk) = [norm_net a] /\ (forall j, j <> lk_Index lk -> addrs n' j = addrs n j) /\ same_routes n n' /\ same_neighs n n'.
Proof.
  unfold createNewVxlanIface, ruleAddIfNotPresent, err_text. destruct (LinkAdd _ n) as [n1 [[]|]] eqn:E1; [done|by destruct (LinkByName name n1)|done|].
  destruct (RuleAdd _ n1) as [n2 e2] eqn:E2. intros E. assert (He : (e2 = None \/ e2 = Some EEXIST) /\ exists n3, AddrAdd name a n2 = (n3, None) /\ n' = n3).
  { destruct e2 as [[]|]; try done; destruct (AddrAdd name a n2) as [n3 [|]]; try done; injection E as <-; eauto. }
  destruct He as [He (n3 & E3 & ->)].
  apply LinkAdd_law in E1 as (lk & A1 & A2 & A3 & A4 & A5 & A6 & A7 & A8 & A9 & A10 & A11 & A12). simpl in *.
  apply RuleAdd_law in E2 as (B1 & B2 & B3 & B4); [|done]. apply AddrAdd_law in E3 as (lk' & C1 & C2 & C3 & C4 & C5 & C6 & C7).
  assert (lk' = lk) as ->. { apply B1, A8 in C1 as [-> |C1]; [done|]. destruct (A7 _ C1) as [Hne _]. congruence. }
  exists lk. split_and!; try done.
  - intros x Hx. rewrite <- A1. by apply A7.
  - intros x. rewrite (C5 x), (B1 x). apply A8.
  - by rewrite C3, (B2 (lk_Index lk)), A9.
  - intros j Hj. rewrite C4, (B2 j), A10 by done. done.
  - unfold same_routes in *. by rewrite C6, B3, A11.
  - intros x. by rewrite (C7 x), (B4 x), (A12 x).
Qed.

(** The iptables rules and settings of a device leave the links alone. *)
Definition keeps_net {T} (f : Host N T -> Host N T * option string) : Prop := forall h, h_net (fst (f h)) = h_net h.

Section settings.
  Context {T : Type} `{Basic T}.

Lemma tables_keep_net f : keeps_net (T := T) (on_tables f).
Proof. intros h. unfold on_tables. by destruct (f (h_tables h)). Qed.

Lemma sys_keep_net f : keeps_net (T := T) (on_sys f).
Proof. intros h. unfold on_sys. by destruct (f (h_sys h)). Qed.

Lemma then_keeps_net f g : keeps_net (T := T) f -> keeps_net g -> keeps_net (and_then f g).
Proof. intros Hf Hg h. unfold and_then. specialize (Hf h). destruct (f h) as [h1 [e|]]; [done|]. simpl in Hf. rewrite <- Hf. apply Hg. Qed.

Lemma skip_keeps_net : keeps_net (T := T) (fun h => (h, None)).
Proof. done. Qed.

Lemma relax_nics_net l (h : Host N T) : h_net (foldl relax_nic h l) = h_net h.
Proof.
  revert h. induction l as [|x l IH]; intros h; [done|]. simpl. rewrite IH. unfold relax_nic. destruct (String.length x =? 0)%nat; [done|]. by rewrite sys_keep_net, tables_keep_net.
Qed.

Lemma device_config_net name family : keeps_net (T := T) (updateDeviceConfig name family).
Proof. unfold updateDeviceConfig. destruct (family =? FAMILY_V6); apply then_keeps_net; (apply tables_keep_net || apply sys_keep_net). Qed.

Lemma kernel_config_net env name family : keeps_net (T := T) (UpdateDefaultIptablesAndKernalConfig env name family).
Proof.
  unfold UpdateDefaultIptablesAndKernalConfig. apply then_keeps_net.
  - destruct (family =? FAMILY_V6); [|done]. apply then_keeps_net; [apply tables_keep_net|apply sys_keep_net].
  - destruct (family =? FAMILY_V4); [|done]. apply then_keeps_net; [apply then_keeps_net; [apply tables_keep_net|apply sys_keep_net]|]. intros h. apply relax_nics_net.
Qed.

Lemma add_device_spec env d (h h' : Host N T) : nl_addDevice env d h = (h', None) -> exists ip net hw i lb deviceIP,
  ParseCIDR (dev_Addr d) = Some (ip, net) /\ ParseMAC (dev_Mac d) = Some hw /\ is_link (h_net h) lb /\ lk_Name lb = dev_BindDev d /\
  createNewVxlanIface (dev_Name d) (mkIPNet ip (net_Mask net)) (dev_ID d) (dev_Port d) hw i deviceIP (lk_Index lb) (h_net h) = (h_net h', None).
Proof.
  unfold nl_addDevice. destruct (ParseCIDR (dev_Addr d)) as [[ip net]|]; [|done]. unfold getIfaceIPByName. destruct (LinkByName (dev_BindDev d) (h_net h)) as [lb|] eqn:El; [|done].
  destruct (ParseMAC (dev_Mac d)) as [hw|]; [|done]. cbn [if_index]. set (i := mkIfaceInfo _ _ _ _ _). set (family := if IsIPv6 (IP_String ip) then FAMILY_V6 else FAMILY_V4). intros E.
  unfold and_then at 1, on_net in E. apply LinkByName_law in El as [A1 A2].
  destruct (createNewVxlanIface _ _ _ _ _ _ _ _ _) as [n1 [e|]] eqn:Ec; [done|]. exists ip, net, hw, i, lb, (if IsIPv6 (IP_String ip) then if_ip6 i else if_ip i). split_and!; try done.
  rewrite Ec. f_equal. pose proof (then_keeps_net _ _ (kernel_config_net env (dev_BindDev d) family) (device_config_net (dev_Name d) family) (mkHost n1 (h_tables h) (h_sys h))) as Hk.
  rewrite E in Hk. exact (eq_sym Hk).
Qed.

End settings.

(** A device as the code shows it, of the family its name stands for. *)
Definition device_ok (d : Device) : Prop := dev_Type d = "vxlan" /\ canonical_mac (dev_Mac d) /\
  exists ip net, ParseCIDR (dev_Addr d) = Some (ip, net) /\ IPNet_String (mkIPNet ip (net_Mask net)) = dev_Addr d /\ (dev_Name d, family_of (mkIPNet ip (net_Mask net))) ∈ ALL_DEVICES.

Lemma ALL_DEVICES_unique name f f' : (name, f) ∈ ALL_DEVICES -> (name, f') ∈ ALL_DEVICES -> f = f'.
Proof. unfold ALL_DEVICES. rewrite !elem_of_cons, !elem_of_nil. naive_solver. Qed.

Lemma device_created d ip net hw i deviceIP lb n n' : device_ok d -> answers n -> answers n' -> ParseCIDR (dev_Addr d) = Some (ip, net) -> ParseMAC (dev_Mac d) = Some hw ->
  is_link n lb -> lk_Name lb = dev_BindDev d ->
  createNewVxlanIface (dev_Name d) (mkIPNet ip (net_Mask net)) (dev_ID d) (dev_Port d) hw i deviceIP (lk_Index lb) n = (n', None) ->
  forall x, n_dev n' x <-> x = d \/ n_dev n x.
Proof.
  intros (Htype & (hw' & Em & Ep & _) & ip' & net' & Ec & Es & Hin) Hn Hn' Ec' Em' Hlb Hbind E x.
  rewrite Ec in Ec'. injection Ec' as -> ->. rewrite Em in Em'. injection Em' as ->.
  apply create_iface in E as (lk & A1 & A2 & A3 & A4 & A5 & A6 & A7 & A8 & A9 & A10 & _ & _).
  assert (Hlk : is_link n' lk) by (apply A8; by left). pose proof (proj1 (proj2 Hn') lb (proj2 (A8 lb) (or_intror Hlb))) as Hlbi.
  assert (Hd : device_at n' lk (family_of (mkIPNet ip (net_Mask net))) = d).
  { unfold device_at, first_addr, bind_of. rewrite A9, A6, Hlbi. cbn [List.filter]. rewrite family_norm, Z.eqb_refl. cbn [head]. unfold shown_device.
    rewrite IPNet_String_norm, Es, A2, A3, A1, A4, A5, Ep, Hbind. destruct d. simpl in *. by subst. }
  assert (Hold : forall k f, is_link n k -> device_at n' k f = device_at n k f).
  { intros k f Hk. destruct (A7 k Hk) as (B1 & B2 & B3). apply device_at_same; [done|done|by apply A10|]. intros b Hb. rewrite A8. split; [|auto]. intros [-> |]; [congruence|done]. }
  split.
  - intros (name & f & k & H1 & H2 & H3 & ->). apply A8 in H2 as [-> |H2].
    + left. rewrite <- H3, A1 in H1. by rewrite (ALL_DEVICES_unique _ _ _ H1 Hin).
    + right. exists name, f, k. rewrite Hold by done. done.
  - intros [-> |(name & f & k & H1 & H2 & H3 & ->)].
    + exists (dev_Name d), (family_of (mkIPNet ip (net_Mask net))), lk. rewrite Hd. split_and!; done.
    + exists name, f, k. rewrite Hold by done. rewrite A8. auto.
Qed.

Lemma device_deleted d n n' : answers n -> answers n' -> (forall lk x, is_link n lk -> lk_Name lk = dev_Name d -> is_link n x -> lk_VtepDevIndex x <> lk_Index lk) ->
  nl_deleteDevice d n = (n', None) -> forall x, n_dev n' x <-> n_dev n x /\ dev_Name x <> dev_Name d.
Proof.
  intros Hn Hn' Htop E x. pose proof (device_at_name n) as Hname. unfold n_dev. unfold nl_deleteDevice, err_text in E.
  destruct (link_of_name n (dev_Name d) Hn) as [(lk & Elk & Hlk & Hnm)|[Elk Hno]]; rewrite Elk in E.
  - destruct (LinkDel lk n) as [n1 [e|]] eqn:Ed; [done|]. injection E as <-. apply LinkDel_law in Ed as (A1 & A2 & _); [|done|intros y Hy; by apply Htop].
    assert (Hold : forall k f, is_link n k -> k <> lk -> device_at n1 k f = device_at n k f).
    { intros k f Hk Hne. apply device_at_same; [done|done| |].
      - apply A2. intros Hi. apply Hne. apply (links_unique n); auto.
      - intros b Hb. rewrite A1. split; [tauto|]. intros Hb'. split; [done|]. intros ->. by apply (Htop lk k). }
    split.
    + intros (name & f & k & H1 & H2 & H3 & ->). apply A1 in H2 as [H2 Hne]. rewrite Hold by done. split; [by exists name, f, k|].
      rewrite Hname. intros Hc. apply Hne, (links_unique n); [done|done|left; congruence].
    + intros ((name & f & k & H1 & H2 & H3 & ->) & Hne). rewrite Hname in Hne. assert (k <> lk) by (intros ->; congruence). exists name, f, k. rewrite Hold by done. rewrite A1. auto.
  - injection E as <-. split; [|tauto]. intros (name & f & k & H1 & H2 & H3 & ->). split; [by exists name, f, k|]. rewrite Hname. by apply Hno.
Qed.

End loads.
