(* ===== verification/KernelReadBack.v ===== *)
(** What the agent reads back from the kernel after it wrote to it, with a kernel in memory
that keeps the laws of netlink. *)
From S2P Require Import Prelude GoStr GoNet GoNetFacts GoCIDR LinkApi LinkVxlan KernelTables KernelLinks KernelLoads.
Local Open Scope Z_scope.

#[export] Instance Link_eq_dec : EqDecision Link. Proof. solve_decision. Defined.
#[export] Instance IPNet_eq_dec : EqDecision IPNet. Proof. solve_decision. Defined.
#[export] Instance RouteKey_eq_dec : EqDecision RouteKey. Proof. solve_decision. Defined.
#[export] Instance NeighKey_eq_dec : EqDecision NeighKey. Proof. solve_decision. Defined.

Module Nics.

Record raw := mkRaw { r_links : list Link; r_addrs : list (Z * IPNet); r_routes : list RouteKey; r_neighs : list NeighKey }.

Definition byteb (b : Z) : bool := (0 <=? b) && (b <? 256).
Definition ipb (ip : IP) : bool :=
  match ip with [] => true | _ => forallb byteb ip && ((length ip =? 4)%nat || (length ip =? 16)%nat && match To4 ip with None => true | Some _ => false end) end.
Definition macb (hw : list Z) : bool := match hw with [] => true | _ => (length hw =? 6)%nat && forallb byteb hw end.
Definition has_link (r : raw) (i : Z) : bool := existsb (fun l => lk_Index l =? i) (r_links r).
Definition neighb (r : raw) (x : NeighKey) : bool :=
  has_link r (nk_LinkIndex x) && ipb (nk_IP x) && macb (nk_Mac x) &&
  (negb (nk_Family x =? FAMILY_V4) || (length (nk_IP x) =? 4)%nat) && (negb (nk_Family x =? FAMILY_V6) || (length (nk_IP x) =? 16)%nat).
Definition netb (net : IPNet) : bool :=
  let ip := net_IP net in
  ((length ip =? 4)%nat || (length ip =? 16)%nat) && forallb byteb ip && bool_decide (norm ip = ip) &&
  existsb (fun n => bool_decide (net_Mask net = CIDRMask n (length ip) /\ ip = and_bytes ip (CIDRMask n (length ip)))) (seq 0 (8 * length ip + 1)).
Definition routeb (r : raw) (x : RouteKey) : bool :=
  has_link r (rk_LinkIndex x) && ipb (rk_Gw x) && match rk_Dst x with Some dst => netb dst | None => true end.
Definition good (r : raw) : bool :=
  bool_decide (NoDup (map lk_Name (r_links r))) && bool_decide (NoDup (map lk_Index (r_links r))) && forallb (neighb r) (r_neighs r) && forallb (routeb r) (r_routes r).

Definition t : Type := { r : raw | good r = true }.

(** A change that keeps the state in order. *)
Definition store (r : raw) (n : t) : t * option nl_error :=
  match bool_dec (good r) true with left Hg => (exist _ r Hg, None) | right _ => (n, Some (NlError "invalid argument")) end.

Definition by_name (name : string) (n : t) : Link + nl_error := match first (fun l => lk_Name l =s name) (r_links (`n)) with Some l => inl l | None => inr LinkNotFoundError end.
Definition by_index (i : Z) (n : t) : Link + nl_error := match first (fun l => lk_Index l =? i) (r_links (`n)) with Some l => inl l | None => inr LinkNotFoundError end.

Definition fresh (r : raw) : Z := 1 + foldr Z.max 0 (map lk_Index (r_links r) ++ map lk_VtepDevIndex (r_links r) ++ map fst (r_addrs r)).

Definition add_link (v : NewVxlan) (n : t) : t * option nl_error :=
  let r := `n in
  if existsb (fun l => lk_Name l =s nv_Name v) (r_links r) then (n, Some EEXIST)
  else store (mkRaw (r_links r ++ [mkLink (nv_Name v) (fresh r) (nv_MTU v) "vxlan" (nv_Mac v) (nv_VxlanId v) (nv_Port v) (nv_VtepDevIndex v)]) (r_addrs r) (r_routes r) (r_neighs r)) n.

Definition del_link (l : Link) (n : t) : t * option nl_error :=
  let r := `n in let off {A} (f : A -> Z) := List.filter (fun x => negb (f x =? lk_Index l)) in
  store (mkRaw (off lk_Index (r_links r)) (off fst (r_addrs r)) (off rk_LinkIndex (r_routes r)) (off nk_LinkIndex (r_neighs r))) n.

Definition addrs_of (r : raw) (i : Z) : list IPNet := map snd (List.filter (fun a => fst a =? i) (r_addrs r)).

Definition add_addr (name : string) (a : IPNet) (n : t) : t * option nl_error :=
  match by_name name n with
  | inr e => (n, Some e)
  | inl l => let r := `n in store (mkRaw (r_links r) (r_addrs r ++ [(lk_Index l, norm_net a)]) (r_routes r) (r_neighs r)) n
  end.

Definition with_routes (f : list RouteKey -> list RouteKey) (n : t) : t * option nl_error :=
  let r := `n in store (mkRaw (r_links r) (r_addrs r) (f (r_routes r)) (r_neighs r)) n.
Definition with_neighs (f : list NeighKey -> list NeighKey) (n : t) : t * option nl_error :=
  let r := `n in store (mkRaw (r_links r) (r_addrs r) (r_routes r) (f (r_neighs r))) n.

Fixpoint drop_first {A} `{EqDecision A} (x : A) (l : list A) : list A := match l with [] => [] | y :: l' => if bool_decide (y = x) then l' else y :: drop_first x l' end.

Definition same_place (e : Neigh) (x : NeighKey) : bool :=
  (nk_LinkIndex x =? ne_LinkIndex e) && (nk_Family x =? ne_Family e) && bool_decide (nk_IP x = norm (ne_IP e)).
Definition named (e : Neigh) (x : NeighKey) : bool := same_place e x && (negb (ne_Family e =? AF_BRIDGE) || bool_decide (nk_Mac x = ne_HardwareAddr e)).

#[export] Instance netlink : Netlink t := {|
  LinkByName := by_name;
  LinkByIndex := by_index;
  LinkAdd := add_link;
  LinkDel := del_link;
  AddrList := fun l family n => inl (map (fun a => mkAddr a RT_SCOPE_UNIVERSE) (List.filter (fun a => family_of a =? family) (addrs_of (`n) (lk_Index l))));
  AddrAdd := add_addr;
  RuleAdd := fun _ n => (n, None);
  RouteListFiltered := fun _ i tbl n =>
    inl (map (fun x => mkNRoute (rk_Dst x) (rk_Gw x) (rk_LinkIndex x) RT_SCOPE_UNIVERSE NDA_DST FLAG_ONLINK (rk_Table x))
           (List.filter (fun x => (rk_LinkIndex x =? i) && (rk_Table x =? tbl)) (r_routes (`n))));
  RouteAdd := fun x => with_routes (fun l => l ++ [route_key x]);
  RouteDel := fun x n => if existsb (fun y => bool_decide (y = route_key x)) (r_routes (`n)) then with_routes (drop_first (route_key x)) n else (n, Some (NlError "no such process"));
  NeighList := fun i family n =>
    inl (map (fun x => mkNeigh (nk_LinkIndex x) NDA_DST (nk_Family x) (nk_State x) (nk_Mac x) NTF_SELF (nk_IP x))
           (List.filter (fun x => (nk_LinkIndex x =? i) && (nk_Family x =? family)) (r_neighs (`n))));
  NeighAppend := fun e => with_neighs (fun l => l ++ [neigh_key e]);
  NeighSet := fun e => with_neighs (fun l => List.filter (fun x => negb (same_place e x)) l ++ [neigh_key e]);
  NeighDel := fun e => with_neighs (List.filter (fun x => negb (named e x))) |}.

(** ** The laws *)

Lemma store_spec r n n' : store r n = (n', None) -> `n' = r.
Proof. unfold store. destruct (bool_dec (good r) true); [|done]. by intros [= <-]. Qed.

Lemma good_spec (n : t) : NoDup (map lk_Name (r_links (`n))) /\ NoDup (map lk_Index (r_links (`n))) /\
  (forall x, x ∈ r_neighs (`n) -> neighb (`n) x = true) /\ (forall x, x ∈ r_routes (`n) -> routeb (`n) x = true).
Proof.
  destruct n as [r Hg]. simpl. unfold good in Hg. rewrite !andb_true_iff, !bool_decide_eq_true, !forallb_forall in Hg. destruct Hg as [[[H1 H2] H3] H4].
  split_and!; [done|done| |]; intros x Hx%list_elem_of_In; auto.
Qed.

Lemma unique_by {A} (f : Link -> A) ls l l' : NoDup (map f ls) -> l ∈ ls -> l' ∈ ls -> f l = f l' -> l = l'.
Proof.
  induction ls as [|k ls IH]; intros Hnd Hl Hl' E; [by apply elem_of_nil in Hl|]. cbn [map] in Hnd. apply list.NoDup_cons in Hnd as [Hk Hnd].
  assert (Hin : forall x, x ∈ ls -> f x ∈ map f ls) by (intros x Hx; apply list_elem_of_fmap; eauto).
  apply elem_of_cons in Hl as [-> |Hl], Hl' as [-> |Hl']; [done| | |by apply IH]; exfalso; apply Hk; [rewrite E|rewrite <- E]; by apply Hin.
Qed.

Lemma byteb_ok l : forallb byteb l = true -> Forall byte_ok l.
Proof. rewrite forallb_forall, List.Forall_forall. intros Hl b Hb%Hl. unfold byteb in Hb. unfold byte_ok. lia. Qed.

Lemma ipb_ok ip : ipb ip = true -> kernel_ip ip.
Proof.
  unfold ipb, kernel_ip. destruct ip as [|b ip]; [by left|]. set (l := b :: ip). rewrite andb_true_iff, orb_true_iff, andb_true_iff, !Nat.eqb_eq. intros [Hb Hl]. right.
  split; [by apply byteb_ok|]. destruct Hl as [|[? ?]]; [by left|right]. split; [done|]. by destruct (To4 l).
Qed.

Lemma macb_ok hw : macb hw = true -> hw = [] \/ mac_ok hw.
Proof. unfold macb, mac_ok. destruct hw as [|b hw]; [by left|]. rewrite andb_true_iff, Nat.eqb_eq. intros [? ?]. right. split; [done|by apply byteb_ok]. Qed.

Lemma has_link_spec r i : has_link r i = true -> exists l, l ∈ r_links r /\ lk_Index l = i.
Proof. unfold has_link. rewrite existsb_exists. intros (l & Hl & E%Z.eqb_eq). exists l. split; [by apply list_elem_of_In|done]. Qed.

Lemma kernel_norm ip : kernel_ip ip -> norm ip = ip.
Proof. unfold norm. intros [-> |[_ [Hl|[_ Ht]]]]; [done| |by rewrite Ht]. unfold To4. by rewrite Hl. Qed.

Lemma netb_ok net : netb net = true -> kernel_net net.
Proof.
  unfold netb, kernel_net. rewrite !andb_true_iff, orb_true_iff, !Nat.eqb_eq, bool_decide_eq_true, existsb_exists. intros [[[Hl Hb%byteb_ok] Hn] (n & Hin%in_seq & Hm)].
  apply bool_decide_eq_true in Hm as [Hm Hip]. split; [|done]. destruct net as [ip m]. simpl in *. subst m. rewrite Hip at 1. destruct Hl as [Hl|Hl]; rewrite Hl in *.
  - apply net_ok_v4; [done|done|lia].
  - apply net_ok_v6; [done|done|lia].
Qed.

Lemma kernel_norm_net net : kernel_net net -> norm_net net = net.
Proof. intros [_ Hn]. unfold norm_net. rewrite Hn. by destruct net. Qed.

Lemma fresh_above r x : x ∈ map lk_Index (r_links r) ++ map lk_VtepDevIndex (r_links r) ++ map fst (r_addrs r) -> x < fresh r.
Proof.
  unfold fresh. generalize (map lk_Index (r_links r) ++ map lk_VtepDevIndex (r_links r) ++ map fst (r_addrs r)) as l. intros l.
  induction l as [|y l IH]; intros Hx; [by apply elem_of_nil in Hx|]. simpl. apply elem_of_cons in Hx as [-> |Hx]; [lia|]. specialize (IH Hx). lia.
Qed.

Lemma drop_first_spec {A} `{EqDecision A} (x : A) l : x ∈ l -> l ≡ₚ x :: drop_first x l.
Proof.
  induction l as [|y l IH]; intros Hx; [by apply elem_of_nil in Hx|]. simpl. destruct (bool_decide_reflect (y = x)) as [-> |Hne]; [done|].
  apply elem_of_cons in Hx as [-> |Hx]; [done|]. rewrite (IH Hx) at 1. apply Permutation_swap.
Qed.

Lemma by_name_spec name n : match by_name name n with inl l => l ∈ r_links (`n) /\ lk_Name l = name | inr _ => forall l, l ∈ r_links (`n) -> lk_Name l <> name end.
Proof.
  unfold by_name. destruct (first _ _) as [l|] eqn:E.
  - apply first_Some in E as [E1 E2]. by apply bool_decide_eq_true in E2.
  - intros l Hl Hname. pose proof (proj1 (first_None _ _) E l Hl) as Hf. simpl in Hf. by rewrite bool_decide_eq_true_2 in Hf.
Qed.

Lemma by_index_spec i n : match by_index i n with inl l => l ∈ r_links (`n) /\ lk_Index l = i | inr _ => forall l, l ∈ r_links (`n) -> lk_Index l <> i end.
Proof.
  unfold by_index. destruct (first _ _) as [l|] eqn:E.
  - apply first_Some in E as [E1 E2]. by apply Z.eqb_eq in E2.
  - intros l Hl Hi. pose proof (proj1 (first_None _ _) E l Hl) as Hf. simpl in Hf. by rewrite Hi, Z.eqb_refl in Hf.
Qed.

Lemma same_place_spec e x : same_place e x = true <-> nk_LinkIndex x = ne_LinkIndex e /\ nk_Family x = ne_Family e /\ nk_IP x = norm (ne_IP e).
Proof. unfold same_place. rewrite !andb_true_iff, !Z.eqb_eq, bool_decide_eq_true. tauto. Qed.

Lemma named_spec e x : named e x = true <-> nk_LinkIndex x = ne_LinkIndex e /\ nk_Family x = ne_Family e /\ nk_IP x = norm (ne_IP e) /\ (ne_Family e = AF_BRIDGE -> nk_Mac x = ne_HardwareAddr e).
Proof.
  unfold named. rewrite andb_true_iff, same_place_spec, orb_true_iff, negb_true_iff, Z.eqb_neq, bool_decide_eq_true.
  destruct (Z.eq_dec (ne_Family e) AF_BRIDGE); tauto.
Qed.

Lemma elem_kept {A} (p : A -> bool) l x : x ∈ List.filter (fun x => negb (p x)) l <-> x ∈ l /\ ~ p x = true.
Proof. rewrite list_filter_spec, negb_true_iff, not_true_iff_false. done. Qed.

Lemma addrs_app r i j a : addrs_of (mkRaw (r_links r) (r_addrs r ++ [(j, a)]) (r_routes r) (r_neighs r)) i = addrs_of r i ++ (if j =? i then [a] else []).
Proof. unfold addrs_of. simpl. rewrite List.filter_app, map_app. simpl. by destruct (j =? i). Qed.

Lemma addrs_off r l i : i <> lk_Index l -> map snd (List.filter (fun a => fst a =? i) (List.filter (fun a => negb (fst a =? lk_Index l)) (r_addrs r))) = addrs_of r i.
Proof.
  intros Hi. unfold addrs_of. f_equal. induction (r_addrs r) as [|[j a] as' IH]; [done|]. simpl. destruct (Z.eqb_spec j (lk_Index l)) as [-> |Hj]; simpl.
  - destruct (Z.eqb_spec (lk_Index l) i); [congruence|]. exact IH.
  - destruct (j =? i); [by rewrite IH|exact IH].
Qed.

Definition linked (n : t) (l : Link) : Prop := l ∈ r_links (`n).

Lemma add_link_spec v n n' : add_link v n = (n', None) -> exists l,
  lk_Name l = nv_Name v /\ lk_Type l = "vxlan" /\ lk_Mac l = nv_Mac v /\ lk_VxlanId l = nv_VxlanId v /\ lk_Port l = nv_Port v /\ lk_VtepDevIndex l = nv_VtepDevIndex v /\
  (forall x, linked n x -> lk_Name x <> lk_Name l /\ lk_Index x <> lk_Index l /\ lk_VtepDevIndex x <> lk_Index l) /\ (forall x, linked n' x <-> x = l \/ linked n x) /\
  addrs_of (`n') (lk_Index l) = [] /\ (forall i, i <> lk_Index l -> addrs_of (`n') i = addrs_of (`n) i) /\ r_routes (`n') ≡ₚ r_routes (`n) /\
  (forall x, x ∈ r_neighs (`n') <-> x ∈ r_neighs (`n)).
Proof.
  unfold add_link. destruct (existsb _ _) eqn:Ex; [done|]. intros E%store_spec. set (l := mkLink _ _ _ _ _ _ _ _) in E. exists l. unfold linked. rewrite E. unfold addrs_of. simpl.
  pose proof (fresh_above (`n)) as Hf. split_and!; try done.
  - intros x Hx. split_and!.
    + intros Hn. assert (Ht : existsb (fun l => lk_Name l =s nv_Name v) (r_links (`n)) = true); [|congruence].
      apply existsb_exists. exists x. split; [by apply list_elem_of_In|by apply bool_decide_eq_true_2].
    + intros Hi. specialize (Hf (lk_Index x)). rewrite Hi in Hf. simpl in Hf. apply (Z.lt_irrefl (fresh (`n))), Hf. rewrite elem_of_app. left. rewrite <- Hi. apply list_elem_of_fmap. eauto.
    + intros Hi. specialize (Hf (lk_VtepDevIndex x)). rewrite Hi in Hf. simpl in Hf. apply (Z.lt_irrefl (fresh (`n))), Hf. rewrite !elem_of_app. right. left. rewrite <- Hi. apply list_elem_of_fmap. eauto.
  - intros x. rewrite elem_of_app, list_elem_of_singleton. tauto.
  - assert (Hno : List.filter (fun a : Z * IPNet => fst a =? fresh (`n)) (r_addrs (`n)) = []); [|by rewrite Hno].
    destruct (List.filter _ _) as [|a as'] eqn:Ea; [done|]. exfalso.
    assert (Ha : a ∈ List.filter (fun a : Z * IPNet => fst a =? fresh (`n)) (r_addrs (`n))) by (rewrite Ea; by left). apply list_filter_spec in Ha as [Ha Hi%Z.eqb_eq].
    specialize (Hf (fst a)). rewrite Hi in Hf. apply (Z.lt_irrefl (fresh (`n))), Hf. rewrite !elem_of_app. right. right. rewrite <- Hi. apply list_elem_of_fmap. eauto.
Qed.

Lemma del_link_spec l n n' : linked n l -> del_link l n = (n', None) ->
  (forall x, linked n' x <-> linked n x /\ x <> l) /\ (forall i, i <> lk_Index l -> addrs_of (`n') i = addrs_of (`n) i) /\
  r_routes (`n') ≡ₚ List.filter (fun x => negb (rk_LinkIndex x =? lk_Index l)) (r_routes (`n)) /\
  (forall x, x ∈ r_neighs (`n') <-> x ∈ r_neighs (`n) /\ nk_LinkIndex x <> lk_Index l).
Proof.
  unfold del_link. intros Hl E%store_spec. unfold linked. rewrite E. cbn [r_links r_addrs r_routes r_neighs]. destruct (good_spec n) as (_ & Hnd & _). split_and!.
  - intros x. rewrite elem_kept, Z.eqb_eq. split; intros [H1 H2]; (split; [done|]); [congruence|]. intros Hi. apply H2. by apply (unique_by lk_Index (r_links (`n))).
  - intros i Hi. unfold addrs_of at 1. cbn [r_addrs]. by apply addrs_off.
  - done.
  - intros x. by rewrite elem_kept, Z.eqb_eq.
Qed.

#[export, refine] Instance laws : NetlinkLaws netlink := {|
  is_link := linked; addrs := fun n => addrs_of (`n); routes := fun n => r_routes (`n); neighs := fun n x => x ∈ r_neighs (`n) |}.
Proof.
  - intros n l l' Hl Hl' Hc. destruct (good_spec n) as (H1 & H2 & _). destruct Hc as [Hc|Hc]; [by apply (unique_by lk_Name (r_links (`n)))|by apply (unique_by lk_Index (r_links (`n)))].
  - intros n x Hx. destruct (good_spec n) as (_ & _ & H3 & _). specialize (H3 x Hx). unfold neighb in H3. rewrite !andb_true_iff, !orb_true_iff, !negb_true_iff, !Z.eqb_neq, !Nat.eqb_eq in H3.
    destruct H3 as [[[[K1 K2] K3] K4] K5]. split_and!; [by apply has_link_spec|by apply ipb_ok|by apply macb_ok|tauto|tauto].
  - intros n x Hx. destruct (good_spec n) as (_ & _ & _ & H4). specialize (H4 x Hx). unfold routeb in H4. rewrite !andb_true_iff in H4. destruct H4 as [[K1 K2] K3]. split_and!; [by apply has_link_spec|by apply ipb_ok|].
    intros dst Hd. rewrite Hd in K3. by apply netb_ok.
  - intros name n l E. pose proof (by_name_spec name n) as Hs. simpl in E. by rewrite E in Hs.
  - intros name n l E Hl. pose proof (by_name_spec name n) as Hs. simpl in E. rewrite E in Hs. by apply Hs.
  - intros i n l E. pose proof (by_index_spec i n) as Hs. simpl in E. by rewrite E in Hs.
  - intros l family n r Hl [= <-]. simpl. induction (List.filter _ (addrs_of _ _)) as [|a as' IH]; [done|]. simpl. f_equal. exact IH.
  - intros i tbl n r [= <-]. destruct (good_spec n) as (_ & _ & _ & H4). simpl.
    induction (r_routes (`n)) as [|x rs IH]; [done|]. simpl. pose proof (H4 x (list_elem_of_here _ _)) as Hx. specialize (IH (fun y Hy => H4 y (list_elem_of_further _ _ _ Hy))).
    destruct ((rk_LinkIndex x =? i) && (rk_Table x =? tbl)); [|exact IH]. simpl.
    unfold routeb in Hx. rewrite !andb_true_iff in Hx. destruct Hx as [[_ K1] K2]. unfold route_key at 1. cbn [nr_Dst nr_Gw nr_LinkIndex nr_Table].
    rewrite kernel_norm by (by apply ipb_ok). assert (E : norm_net <$> rk_Dst x = rk_Dst x) by (destruct (rk_Dst x); [simpl; f_equal; by apply kernel_norm_net, netb_ok|done]).
    rewrite E. destruct x. simpl. by apply perm_skip.
  - done.
  - intros i family n r x [= <-]. destruct (good_spec n) as (_ & _ & H3 & _). simpl. rewrite list_elem_of_fmap.
    assert (Hk : forall y, y ∈ r_neighs (`n) -> neigh_key (mkNeigh (nk_LinkIndex y) NDA_DST (nk_Family y) (nk_State y) (nk_Mac y) NTF_SELF (nk_IP y)) = y).
    { intros y Hy. specialize (H3 y Hy). unfold neighb in H3. rewrite !andb_true_iff in H3. destruct H3 as [[[[_ K2] _] _] _]. unfold neigh_key. simpl.
      rewrite kernel_norm by (by apply ipb_ok). by destruct y. }
    split.
    + intros (e & -> & He). apply list_elem_of_fmap in He as (y & -> & Hy). apply list_filter_spec in Hy as [Hy Hc]. rewrite Hk by done. split; [done|]. lia.
    + intros (Hx & H1 & H2). eexists. split; [symmetry; by apply Hk|]. apply list_elem_of_fmap. exists x. split; [done|]. apply list_filter_spec. split; [done|]. lia.
  - intros v n n' E. simpl in *. by apply add_link_spec.
  - intros l n n' Hl _ E. simpl in *. by apply del_link_spec.
  - intros name a n n' E. simpl in E. unfold add_addr in E. pose proof (by_name_spec name n) as Hs. destruct (by_name name n) as [l|]; [|done]. destruct Hs as [H1 H2].
    apply store_spec in E. exists l. unfold linked. simpl. rewrite E. split_and!; try done; [by rewrite addrs_app, Z.eqb_refl|].
    intros i Hi. rewrite addrs_app. destruct (Z.eqb_spec (lk_Index l) i); [congruence|]. by rewrite app_nil_r.
  - intros r n n' e [= <- <-] _. by split_and!.
  - intros r n n' E%store_spec. unfold linked. simpl. rewrite E. simpl. split_and!; try done. symmetry. apply Permutation_cons_append.
  - intros r n n' E. simpl in E. destruct (existsb _ _) eqn:Ex; [|done]. apply existsb_exists in Ex as (x & Hx & ->%bool_decide_eq_true). apply store_spec in E.
    exists (route_key r). unfold linked. simpl. rewrite E. simpl. split_and!; try done. apply drop_first_spec. by apply list_elem_of_In.
  - intros e n n' E%store_spec. unfold linked. simpl. rewrite E. simpl. split_and!; try done. intros x. rewrite elem_of_app, list_elem_of_singleton. tauto.
  - intros e n n' E%store_spec. unfold linked. simpl. rewrite E. simpl. split_and!; try done. intros x. rewrite elem_of_app, list_elem_of_singleton, elem_kept, same_place_spec. tauto.
  - intros e n n' E%store_spec. unfold linked. simpl. rewrite E. simpl. split_and!; try done. intros x. by rewrite elem_kept, named_spec.
Defined.

Lemma always_answers (n : t) : answers n.
Proof.
  split_and!.
  - intros name. simpl. unfold by_name. destruct (first _ _); [left; by eexists|by right].
  - intros l Hl. simpl. pose proof (by_index_spec (lk_Index l) n) as Hs. destruct (by_index (lk_Index l) n) as [l'|] eqn:E; [|by destruct (Hs l Hl)].
    destruct Hs as [H1 H2]. f_equal. destruct (good_spec n) as (_ & Hnd & _). by apply (unique_by lk_Index (r_links (`n))).
  - intros l family _. by eexists.
Qed.

End Nics.

Import Nics.
#[local] Existing Instance Mem.basic.

(** * Theorems *)

Section theorems.
  Context {N : Type} `{NetlinkLaws N}.

(** What the agent loads (ListNeigh of clusterlink/network/neigh.go) after it added a
neighbour or a forwarding entry is the entry and what it loaded before, less an entry of the
same address for a neighbour; after it deleted one, what it loaded before less the entry, or
less the neighbour of this address whatever its MAC address is. The other kind of entries
stays the same. The addresses are written as the code prints them, and the kernel answers
the lookups of devices and lists. *)
Theorem neighbours_read_back t ip mac dev n n' : canonical_ip ip -> canonical_mac mac -> dev ∈ vxlan_names -> answers n -> answers n' ->
  (AddNeigh ip mac t dev n = (n', None) -> forall r, r ∈ ListNeigh t n' <-> r = (ip, mac, dev) \/ r ∈ ListNeigh t n /\ ~ same_entry t r (ip, mac, dev)) /\
  (DeleteNeigh ip mac t dev n = (n', None) -> forall r, r ∈ ListNeigh t n' <-> r ∈ ListNeigh t n /\ ~ same_entry t r (ip, mac, dev)) /\
  (AddNeigh ip mac t dev n = (n', None) \/ DeleteNeigh ip mac t dev n = (n', None) -> forall t' r, t' <> t -> r ∈ ListNeigh t' n' <-> r ∈ ListNeigh t' n).
Proof.
  intros Cip Cmac Hv Hn Hn'. split_and!.
  - intros E. by apply add_listed.
  - intros E. by apply delete_listed.
  - intros [E|E]; [by apply add_listed in E as [_ E]|by apply delete_listed in E as [_ E]].
Qed.

(** The routes the agent loads (loadRoutes of clusterlink/network/route.go) after it added a
route are the route and those it loaded before; a route that it deleted was loaded before,
and the others stay. The network and the gateway are written as the code prints them. *)
Theorem routes_read_back r n n' l l' : route_ok r -> nl_loadRoutes n = inl l -> nl_loadRoutes n' = inl l' ->
  (nl_addRoute r n = (n', None) -> l' ≡ₚ r :: l) /\ (nl_deleteRoute r n = (n', None) -> l ≡ₚ r :: l').
Proof.
  intros (Cc & Cg & Hdev) El El'. pose proof Cg as (gw & Eg & _ & _ & Hgw). split; intros (l0 & ip & net & Hl & Ec & E)%on_route_spec; rewrite Eg in E; cbn [default] in E.
  - apply RouteAdd_law in E as (Hr & Hs & _). rewrite (load_one_more _ (rt_Dev r) l0 n n' l l' Hr Hs Hl eq_refl eq_refl Hdev El El').
    change (route_key _) with (mkRouteKey (Some (norm_net net)) (norm gw) (lk_Index l0) TABLE_ID). by rewrite (shown_record r ip net gw).
  - apply RouteDel_law in E as (x & E1 & E2 & E3 & E4 & Hr & Hs & _). cbn in E1, E2, E3, E4. specialize (E4 Hgw).
    assert (Ex : x = mkRouteKey (Some (norm_net net)) (norm gw) (lk_Index l0) TABLE_ID) by (destruct x; simpl in *; congruence).
    assert (Hs' : same_links n' n) by (intros k; split; apply Hs). pose proof (LinkByName_law _ _ _ Hl) as [A1 A2].
    assert (Hl' : LinkByName (rt_Dev r) n' = inl l0).
    { destruct (proj2 (load_routes_spec n' ALL_DEVICES l' El') (rt_Dev r) Hdev) as [[k Ek]|Ek].
      - rewrite Ek. f_equal. apply LinkByName_law in Ek as [B1 B2]. apply (links_unique n'); [done|by apply Hs|left; congruence].
      - exfalso. by apply (LinkByName_none _ _ l0 Ek); [apply Hs|]. }
    rewrite (load_one_more x (rt_Dev r) l0 n' n l' l Hr Hs' Hl') by (subst x; done). subst x. by rewrite (shown_record r ip net gw).
Qed.

(** The devices the agent loads (loadDevices of clusterlink/network/device.go) after it
added a device are the device and those it loaded before; after it deleted a device on which
no other link is built, those it loaded before less the ones of this name. Addresses are
written as the code prints them, the device has the family its name stands for, and the
kernel answers the lookups. *)
Theorem devices_read_back {T} `{Basic T} env d (h h' : Host N T) l l' : device_ok d -> answers (h_net h) -> answers (h_net h') ->
  nl_loadDevices (h_net h) = inl l -> nl_loadDevices (h_net h') = inl l' ->
  (nl_addDevice env d h = (h', None) -> forall x, x ∈ l' <-> x = d \/ x ∈ l) /\
  (on_net (nl_deleteDevice d) h = (h', None) -> (forall lk x, is_link (h_net h) lk -> lk_Name lk = dev_Name d -> is_link (h_net h) x -> lk_VtepDevIndex x <> lk_Index lk) ->
   forall x, x ∈ l' <-> x ∈ l /\ dev_Name x <> dev_Name d).
Proof.
  intros Hd Hn Hn' El El'. split.
  - intros (ip & net & hw & i & lb & deviceIP & E1 & E2 & E3 & E4 & E)%add_device_spec. intros x. rewrite (load_devices_elem _ Hn' _ _ El' x), (load_devices_elem _ Hn _ _ El x). exact (device_created d ip net hw i deviceIP lb _ _ Hd Hn Hn' E1 E2 E3 E4 E x).
  - intros E Htop. unfold on_net in E. destruct (nl_deleteDevice d (h_net h)) as [n1 e] eqn:Ed. injection E as <- ->. intros x. rewrite (load_devices_elem _ Hn' _ _ El' x), (load_devices_elem _ Hn _ _ El x). exact (device_deleted d _ _ Hn Hn' Htop Ed x).
Qed.

End theorems.

(** * A node *)

Definition ex_raw : raw := mkRaw [mkLink "eth0" 2 1500 "device" [2; 0; 0; 0; 0; 1] 0 0 0] [(2, mkIPNet [10; 0; 0; 5] (CIDRMask 24 4))] [] [].
Definition ex_net : t := exist _ ex_raw eq_refl.
Definition ex_tables : Mem.chains := {[ (ProtocolIPv4, "filter", "FORWARD") := [] ]}.
Definition ex_sys : Sysctl := mkSysctl {[ "/proc/sys/net/ipv4/conf/eth0/rp_filter" := "1"; "/proc/sys/net/ipv4/conf/vx-bridge/rp_filter" := "1" ]} [].
Definition ex_host : Host t Mem.chains := mkHost ex_net ex_tables ex_sys.
Definition ex_device : Device := mkDevice "vxlan" VXLAN_BRIDGE_NAME "220.0.0.5/8" "0a:bb:cc:dd:ee:ff" "eth0" VXLAN_BRIDGE_ID VXLAN_BRIDGE_PORT.
Definition ex_after : Host t Mem.chains := fst (nl_addDevice "" ex_device ex_host).
Definition ex_route : Route := mkRoute "10.244.0.0/16" "220.0.0.9" VXLAN_BRIDGE_NAME.
Definition ex_arp (mac : string) : t := fst (AddNeigh "220.0.0.9" mac NEIGH_ARP VXLAN_BRIDGE_NAME (h_net ex_after)).

Lemma ipb_canonical s ip : ParseIP s = Some ip -> IP_String ip = s -> ipb (norm ip) = true -> ip <> [] -> canonical_ip s.
Proof. intros H1 H2 H3 H4. exists ip. split_and!; [done|done|by apply ipb_ok|done]. Qed.

Lemma macb_canonical s hw : ParseMAC s = Some hw -> Mac_String hw = s -> macb hw = true -> hw <> [] -> canonical_mac s.
Proof. intros H1 H2 [->|H3]%macb_ok H4; [done|]. by exists hw. Qed.

Lemma devices_read_back_witness :
  nl_loadDevices (h_net ex_host) = inl [] /\ nl_loadDevices (h_net ex_after) = inl [ex_device] /\ forall x, x ∈ [ex_device] <-> x = ex_device \/ x ∈ [].
Proof.
  assert (E : nl_loadDevices (h_net ex_after) = inl [ex_device]) by (vm_compute; reflexivity). split; [reflexivity|]. split; [exact E|].
  apply (proj1 (devices_read_back "" ex_device ex_host ex_after [] [ex_device]
    ltac:(split; [reflexivity|]; split; [apply (macb_canonical _ [0x0a; 0xbb; 0xcc; 0xdd; 0xee; 0xff]); (reflexivity || discriminate)|];
          eexists _, _; split; [reflexivity|]; split; [vm_compute; reflexivity|]; apply list_elem_of_here)
    (always_answers _) (always_answers _) eq_refl E)).
  apply done_of. vm_compute. reflexivity.
Defined.

Lemma routes_read_back_witness :
  let n' := fst (nl_addRoute ex_route (h_net ex_after)) in nl_loadRoutes n' = inl [ex_route] /\ [ex_route] ≡ₚ ex_route :: [].
Proof.
  intros n'. assert (E : nl_loadRoutes n' = inl [ex_route]) by (vm_compute; reflexivity). split; [exact E|].
  apply (proj1 (routes_read_back ex_route (h_net ex_after) n' [] [ex_route]
    ltac:(split; [eexists _, _; split; [reflexivity|vm_compute; reflexivity]|]; split; [eapply ipb_canonical; [reflexivity|vm_compute; reflexivity|vm_compute; reflexivity|discriminate]|]; apply list_elem_of_here)
    ltac:(vm_compute; reflexivity) E)).
  apply done_of. vm_compute. reflexivity.
Defined.

Lemma neighbours_read_back_witness :
  let r := ("220.0.0.9", "0a:00:00:00:00:02", VXLAN_BRIDGE_NAME) in let n' := ex_arp "0a:00:00:00:00:02" in
  ListNeigh NEIGH_ARP n' = [r] /\ forall x, x ∈ ListNeigh NEIGH_ARP n' <-> x = r \/ x ∈ ListNeigh NEIGH_ARP (h_net ex_after) /\ ~ same_entry NEIGH_ARP x r.
Proof.
  intros r n'. split; [vm_compute; reflexivity|].
  apply (proj1 (neighbours_read_back NEIGH_ARP "220.0.0.9" "0a:00:00:00:00:02" VXLAN_BRIDGE_NAME (h_net ex_after) n'
    ltac:(eapply ipb_canonical; [reflexivity|vm_compute; reflexivity|vm_compute; reflexivity|discriminate])
    ltac:(apply (macb_canonical _ [0x0a; 0; 0; 0; 0; 2]); (reflexivity || discriminate)) ltac:(apply list_elem_of_here) (always_answers _) (always_answers _))).
  apply done_of. vm_compute. reflexivity.
Defined.

(** A neighbour is deleted by its address: an entry with another MAC address goes. *)
Example arp_deleted_by_address :
  let r := DeleteNeigh "220.0.0.9" "0a:00:00:00:00:03" NEIGH_ARP VXLAN_BRIDGE_NAME (ex_arp "0a:00:00:00:00:02") in
  snd r = None /\ ListNeigh NEIGH_ARP (fst r) = [].
Proof. vm_compute. done. Qed.

(** A network that is not written as it is printed is not read back as it was added. *)
Example host_bits_are_lost :
  let n' := fst (nl_addRoute (mkRoute "10.244.1.1/16" "220.0.0.9" VXLAN_BRIDGE_NAME) (h_net ex_after)) in nl_loadRoutes n' = inl [ex_route].
Proof. vm_compute. reflexivity. Qed.

(** A device whose address is of the other family than its name is shown without one. *)
Example other_family_not_shown :
  let d := mkDevice "vxlan" VXLAN_BRIDGE_NAME_6 "220.0.0.5/8" "0a:bb:cc:dd:ee:ff" "eth0" VXLAN_BRIDGE_ID VXLAN_BRIDGE_PORT in
  map dev_Addr <$> (match nl_loadDevices (h_net (fst (nl_addDevice "" d ex_host))) with inl l => Some l | inr _ => None end) = Some ["<nil>"].
Proof. vm_compute. reflexivity. Qed.
