(* ===== verification/KernelAgent.v ===== *)
(** The agent on the kernel: [DefaultNetWork] over the operations of [KernelLinks] and
[KernelTables], and what one synchronisation does to the links, routes, rules and entries
of the node. *)
From S2P Require Import Prelude GoStr GoNet GoNetFacts GoCIDR LinkApi LinkVxlan AgentDiff AgentNetwork AgentManager AgentController KernelTables KernelLinks KernelLoads KernelReadBack.
Import Nics.
#[local] Existing Instances Mem.basic Mem.laws.

(** * The operations of the node *)

(** The rule operations panic on lines that iptables does not write ([load_total],
[rule_total]). *)
Definition unless_panic {A} (d : A) (o : outcome A) : A := match o with Ret a => a | Panic => d end.

(** The networks that [UpdateCidr] sets are not read by any operation. *)
Definition host_ops {N T} `{Netlink N} `{Basic T} (AGENT_RP_FILTER_DEVICES : string) : KernelOps (Host N T) := mkKernelOps
  (fun h => nl_loadDevices (h_net h)) (fun h => nl_loadRoutes (h_net h)) (fun h => unless_panic (inr "panic") (tables_loadIptables (h_tables h)))
  (fun h => nl_loadFdbs (h_net h)) (fun h => nl_loadArps (h_net h))
  (fun x => on_net (nl_deleteArp x)) (fun x => on_net (nl_deleteFdb x))
  (fun x => on_tables (fun t => unless_panic (t, Some "panic") (tables_deleteIptable x t)))
  (fun x => on_net (nl_deleteRoute x)) (fun x => on_net (nl_deleteDevice x))
  (fun x => on_net (nl_addArp x)) (fun x => on_net (nl_addFdb x))
  (fun x => on_tables (fun t => unless_panic (t, Some "panic") (tables_addIptables x t)))
  (fun x => on_net (nl_addRoute x)) (nl_addDevice AGENT_RP_FILTER_DEVICES) (fun _ _ _ _ h => h).

(** * One item and then the rest *)

Lemma minus_arp_cons x l a b c : abs_eq b (with_arp a (minus (a_arp a) [x])) -> abs_eq c (with_arp b (minus (a_arp b) l)) -> abs_eq c (with_arp a (minus (a_arp a) (x :: l))).
Proof. abs_step. Qed.

Lemma plus_arp_cons x l a b c : abs_eq b (with_arp a (plus (a_arp a) [x])) -> abs_eq c (with_arp b (plus (a_arp b) l)) -> abs_eq c (with_arp a (plus (a_arp a) (x :: l))).
Proof. abs_step. Qed.

Lemma minus_fdb_cons x l a b c : abs_eq b (with_fdb a (minus (a_fdb a) [x])) -> abs_eq c (with_fdb b (minus (a_fdb b) l)) -> abs_eq c (with_fdb a (minus (a_fdb a) (x :: l))).
Proof. abs_step. Qed.

Lemma plus_fdb_cons x l a b c : abs_eq b (with_fdb a (plus (a_fdb a) [x])) -> abs_eq c (with_fdb b (plus (a_fdb b) l)) -> abs_eq c (with_fdb a (plus (a_fdb a) (x :: l))).
Proof. abs_step. Qed.

Lemma minus_ipt_cons x l a b c : abs_eq b (with_ipt a (minus (a_ipt a) [x])) -> abs_eq c (with_ipt b (minus (a_ipt b) l)) -> abs_eq c (with_ipt a (minus (a_ipt a) (x :: l))).
Proof. abs_step. Qed.

Lemma plus_ipt_cons x l a b c : abs_eq b (with_ipt a (plus (a_ipt a) [x])) -> abs_eq c (with_ipt b (plus (a_ipt b) l)) -> abs_eq c (with_ipt a (plus (a_ipt a) (x :: l))).
Proof. abs_step. Qed.

Lemma minus_route_cons x l a b c : abs_eq b (with_route a (minus (a_route a) [x])) -> abs_eq c (with_route b (minus (a_route b) l)) -> abs_eq c (with_route a (minus (a_route a) (x :: l))).
Proof. abs_step. Qed.

Lemma plus_route_cons x l a b c : abs_eq b (with_route a (plus (a_route a) [x])) -> abs_eq c (with_route b (plus (a_route b) l)) -> abs_eq c (with_route a (plus (a_route a) (x :: l))).
Proof. abs_step. Qed.

Lemma plus_dev_cons x l a b c : abs_eq b (with_dev a (plus (a_dev a) [x])) -> abs_eq c (with_dev b (plus (a_dev b) l)) -> abs_eq c (with_dev a (plus (a_dev a) (x :: l))).
Proof. abs_step. Qed.

Section tables.
  Context {T : Type} `{BasicLaws T}.

Lemma load_total (k : T) : tables_loadIptables k <> Panic.
Proof.
  unfold tables_loadIptables. assert (Hall : forall chains, (forall pc, pc ∈ chains -> pc ∈ link_chains) -> load_chains chains k <> Panic); [|by apply Hall].
  induction chains as [|[p c] chains IH]; intros Hin; simpl; [done|]. destruct (New p k); [done|]. destruct (ListRules p "nat" c k) as [lines|] eqn:El; [|done].
  apply List_law in El as (header & rules & _ & _ & ->). simpl. rewrite drop_0, loaded_rules_lines by (apply (link_chain_space p), Hin; by left). simpl.
  destruct (load_chains chains k) as [r|] eqn:Er; [done|]. exfalso. apply IH; [|done]. intros pc Hpc. apply Hin. by right.
Qed.

Lemma rule_total op i (k : T) : on_rule op i k <> Panic.
Proof.
  unfold on_rule. destruct (New (proto_of i) k); [done|]. unfold table_chain.
  assert (Hs : forall s t, exists a b l, Split "/" (s +:+ "/" +:+ t) = a :: b :: l); [|destruct (Hs (ipt_Table i) (translateChainName (ipt_Chain i) true)) as (a & b & l & ->); done].
  intros s t. induction s as [|c s IH].
  - change ("" +:+ "/" +:+ t) with (String "/" t). simpl. destruct (Split_cons "/" t) as (x & l & ->). by eexists _, _, _.
  - change (String c s +:+ "/" +:+ t) with (String c (s +:+ "/" +:+ t)). destruct IH as (a & b & l & E). simpl. rewrite E. by destruct (bool_decide _); eexists _, _, _.
Qed.

End tables.

(** * What is configured *)

Section host.
  Context {N T : Type} {NL : Netlink N} {NLL : NetlinkLaws NL} {BA : Basic T} {BAL : BasicLaws BA} (env : string).
  (** reads of links and neighbours do not fail *)
  Context (reliable : forall n : N, answers n).

#[local] Instance host_network : NetWork (Host N T) := DefaultNetWork (host_ops env).

Definition n_route (n : N) (r : Route) : Prop := exists lk x, is_link n lk /\ lk_Name lk ∈ map fst ALL_DEVICES /\ x ∈ routes n /\ of_link (lk_Index lk) x = true /\ r = shown_key (lk_Name lk) x.
Definition n_fdb (n : N) (f : Fdb) : Prop := (fdb_IP f, fdb_Mac f, fdb_Dev f) ∈ ListNeigh NEIGH_FDB n.
Definition n_arp (n : N) (a : Arp) : Prop := (arp_IP a, arp_Mac a, arp_Dev a) ∈ ListNeigh NEIGH_ARP n.
Definition t_ipt (t : T) (i : Iptables) : Prop := i ∈ flat_map (shown t) link_chains.

Definition h_abs (h : Host N T) : Abs := mkAbs (n_dev (h_net h)) (n_route (h_net h)) (t_ipt (h_tables h)) (n_fdb (h_net h)) (n_arp (h_net h)).

Lemma n_route_loaded n l r : nl_loadRoutes n = inl l -> r ∈ l <-> n_route n r.
Proof.
  intros [E Hlk]%load_routes_spec. rewrite E, list_elem_of_In, in_flat_map. split.
  - intros (dev & Hdev%list_elem_of_In & Hr). unfold index_of in Hr. destruct (LinkByName dev n) as [lk|] eqn:El; [|done]. apply LinkByName_law in El as [Hl <-].
    simpl in Hr. apply in_map_iff in Hr as (x & <- & Hx%list_elem_of_In). apply list_filter_spec in Hx as [Hx Ho]. by exists lk, x.
  - intros (lk & x & Hl & Hdev & Hx & Ho & ->). exists (lk_Name lk). split; [by apply list_elem_of_In|]. unfold index_of.
    destruct (Hlk _ Hdev) as [[lk' El]|El].
    + rewrite El. apply LinkByName_law in El as [Hl' Hn]. assert (lk' = lk) as -> by (apply (links_unique n); auto). simpl. apply in_map, list_elem_of_In, list_filter_spec. done.
    + by destruct (LinkByName_none _ _ lk El Hl).
Qed.

#[local, refine] Instance host_load : LoadLaws (Host N T) := {| abs := h_abs |}.
Proof.
  - intros h d d' (nm & f & lk & H1 & H2 & H3 & ->) (nm' & f' & lk' & H1' & H2' & H3' & ->). rewrite !device_at_name. intros E.
    assert (lk = lk') as <- by (apply (links_unique (h_net h)); auto). subst nm nm'. by rewrite (ALL_DEVICES_unique _ _ _ H1 H1').
  - intros h spec (d & r & i & f & a & Ed & Er & Ei & Ef & Ea & ->)%default_load. simpl in *. split_and!.
    + apply (load_devices_elem (h_net h) (reliable _) _ _ Ed).
    + intros x. by apply n_route_loaded.
    + intros x. destruct (tables_loadIptables (h_tables h)) as [r'|] eqn:El; [|done]. simpl in Ei. subst r'. apply load_chains_spec in El; [|done]. by subst i.
    + intros x. injection Ef as <-. unfold n_fdb. rewrite list_elem_of_In, in_map_iff. split.
      * intros ([[ip mac] dev] & <- & Hin%list_elem_of_In). done.
      * intros Hin%list_elem_of_In. eexists. split; [|exact Hin]. by destruct x.
    + intros x. injection Ea as <-. unfold n_arp. rewrite list_elem_of_In, in_map_iff. split.
      * intros ([[ip mac] dev] & <- & Hin%list_elem_of_In). done.
      * intros Hin%list_elem_of_In. eexists. split; [|exact Hin]. by destruct x.
Defined.

(** ** Frames *)

Lemma n_dev_same n n' : same_links n n' -> same_addrs n n' -> forall d, n_dev n' d <-> n_dev n d.
Proof.
  intros Hl Ha d. assert (Hd : forall lk f, device_at n' lk f = device_at n lk f) by (intros lk f; apply device_at_same; [done|done|apply Ha|intros b _; apply Hl]).
  split; intros (nm & f & lk & H1 & H2 & H3 & E); exists nm, f, lk; (split_and!; [done|by apply Hl|done|]); by rewrite E, Hd.
Qed.

Lemma n_route_same n n' : same_links n n' -> same_routes n n' -> forall r, n_route n' r <-> n_route n r.
Proof.
  intros Hl Hr r. split; intros (lk & x & H1 & H2 & H3 & H4 & E); exists lk, x; (split_and!; [by apply Hl|done| |done|done]).
  - by rewrite <- (Hr : _ ≡ₚ _).
  - by rewrite (Hr : _ ≡ₚ _).
Qed.

Lemma n_neigh_same n n' : same_links n n' -> same_neighs n n' -> forall t r, r ∈ ListNeigh t n' <-> r ∈ ListNeigh t n.
Proof.
  intros Hl Hn t [[ip mac] dev]. rewrite !ListNeigh_elem by done. apply and_iff_compat_l.
  split; intros (lk & x & H1 & H2 & H3 & H4); exists lk, x; (split_and!; [by apply Hl|done|by apply Hn|apply H4..]).
Qed.

Lemma on_net_spec f (h h' : Host N T) : on_net f h = (h', None) -> f (h_net h) = (h_net h', None) /\ h_tables h' = h_tables h.
Proof. unfold on_net. destruct (f (h_net h)) as [n e]. by intros [= <- ->]. Qed.

(** ** Neighbours and forwarding entries *)

Lemma del_neigh_frame t ip mac dev n n' : DeleteNeigh ip mac t dev n = (n', None) ->
  same_links n n' /\ same_addrs n n' /\ same_routes n n' /\ (exists ipA, ParseIP ip = Some ipA) /\ (exists hw, ParseMAC mac = Some hw).
Proof.
  unfold DeleteNeigh. destruct (parseIPMAC ip mac dev n) as [r|] eqn:Ep; [|done]. apply parseIPMAC_spec in Ep as (ipA & hw & l & -> & Pip & Pmac & _).
  unfold delEntryToNeigh, err_text. destruct (NeighDel _ n) as [n1 [e|]] eqn:En; [done|]. intros [= <-]. apply NeighDel_law in En as (_ & ? & ? & ?). split_and!; eauto.
Qed.

Lemma add_neigh_frame t ip mac dev n n' : AddNeigh ip mac t dev n = (n', None) -> same_links n n' /\ same_addrs n n' /\ same_routes n n'.
Proof.
  unfold AddNeigh. destruct (parseIPMAC ip mac dev n) as [[[ipA hw] l]|]; [|done]. unfold addEntryToNeigh, err_text. destruct t.
  - destruct (NeighAppend _ n) as [n1 [e|]] eqn:En; [done|]. intros [= <-]. by apply NeighAppend_law in En as (_ & ? & ? & ?).
  - destruct (NeighSet _ n) as [n1 [e|]] eqn:En; [done|]. intros [= <-]. by apply NeighSet_law in En as (_ & ? & ? & ?).
Qed.

(** What the code prints of the kernel is canonical when it can be parsed. *)
Definition printed_ip (s : string) : Prop := exists x, kernel_ip x /\ IP_String x = s.
Definition printed_mac (s : string) : Prop := exists x, (x = [] \/ mac_ok x) /\ Mac_String x = s.

Lemma printed_ip_canonical s ip : printed_ip s -> ParseIP s = Some ip -> canonical_ip s.
Proof.
  intros (x & Hx & <-) E. destruct (decide (x = [])) as [-> |Hne]; [done|]. destruct (ParseIP_print x Hx Hne) as (ip' & E' & Hn & Hne').
  exists ip'. split_and!; [done| |by rewrite Hn|done]. by rewrite <- IP_String_norm, Hn.
Qed.

Lemma printed_mac_canonical s hw : printed_mac s -> ParseMAC s = Some hw -> canonical_mac s.
Proof. intros (x & [-> |Hx] & <-) E; [done|]. exists x. split_and!; [by apply ParseMAC_print|done|done]. Qed.

Lemma listed_printed t n ip mac dev : (ip, mac, dev) ∈ ListNeigh t n -> printed_ip ip /\ printed_mac mac.
Proof.
  intros (_ & l & x & _ & _ & Hx & _ & _ & E1 & E2)%ListNeigh_elem; [|done]. destruct (neighs_ok n x Hx) as (_ & Hip & Hmac & _). split; [by exists (nk_IP x)|by exists (nk_Mac x)].
Qed.

(** Two neighbours with the same address and device. *)
Definition same_arp (x y : Arp) : Prop := arp_IP x = arp_IP y /\ arp_Dev x = arp_Dev y.

Lemma delArp_step x h h' : printed_ip (arp_IP x) -> printed_mac (arp_Mac x) -> (forall y, n_arp (h_net h) y -> same_arp y x -> y = x) -> deleteArp _ (host_ops env) x h = (h', None) ->
  abs_eq (h_abs h') (with_arp (h_abs h) (minus (n_arp (h_net h)) [x])).
Proof.
  intros Pip Pmac Hf [E Ht]%on_net_spec. unfold nl_deleteArp in E. destruct (del_neigh_frame _ _ _ _ _ _ E) as (F1 & F2 & F3 & [ip E1] & [hw E2]).
  destruct (delete_listed _ _ _ _ _ _ (printed_ip_canonical _ _ Pip E1) (printed_mac_canonical _ _ Pmac E2) (reliable _) (reliable _) E) as [D1 D2].
  split_and!; simpl; [by apply n_dev_same|by apply n_route_same|by rewrite Ht|intros y; by apply (D2 NEIGH_FDB)|].
  intros y. unfold minus, n_arp. rewrite D1, list_elem_of_singleton. simpl. split; intros [Hy Hn]; (split; [done|]).
  - intros ->. by apply Hn.
  - intros Hs. by apply Hn, Hf.
Qed.

Lemma addArp_step x h h' : canonical_ip (arp_IP x) -> canonical_mac (arp_Mac x) -> arp_Dev x ∈ vxlan_names -> (forall y, n_arp (h_net h) y -> same_arp y x -> y = x) ->
  addArp _ (host_ops env) x h = (h', None) -> abs_eq (h_abs h') (with_arp (h_abs h) (plus (n_arp (h_net h)) [x])).
Proof.
  intros Cip Cmac Hv Hf [E Ht]%on_net_spec. unfold nl_addArp in E. destruct (add_neigh_frame _ _ _ _ _ _ E) as (F1 & F2 & F3).
  destruct (add_listed _ _ _ _ _ _ Cip Cmac Hv (reliable _) (reliable _) E) as [D1 D2].
  split_and!; simpl; [by apply n_dev_same|by apply n_route_same|by rewrite Ht|intros y; by apply (D2 NEIGH_FDB)|].
  intros y. unfold plus, n_arp. rewrite D1, list_elem_of_singleton. simpl. split.
  - intros [[= E1 E2 E3]|[Hy _]]; [right|by left]. destruct x, y. simpl in *. by subst.
  - intros [Hy| ->]; [|by left]. destruct (decide (arp_IP y = arp_IP x /\ arp_Dev y = arp_Dev x)) as [Hs|Hs]; [|by right]. left. by rewrite (Hf y Hy Hs).
Qed.

Lemma delFdb_step x h h' : printed_ip (fdb_IP x) -> printed_mac (fdb_Mac x) -> deleteFdb _ (host_ops env) x h = (h', None) ->
  abs_eq (h_abs h') (with_fdb (h_abs h) (minus (n_fdb (h_net h)) [x])).
Proof.
  intros Pip Pmac [E Ht]%on_net_spec. unfold nl_deleteFdb in E. destruct (del_neigh_frame _ _ _ _ _ _ E) as (F1 & F2 & F3 & [ip E1] & [hw E2]).
  destruct (delete_listed _ _ _ _ _ _ (printed_ip_canonical _ _ Pip E1) (printed_mac_canonical _ _ Pmac E2) (reliable _) (reliable _) E) as [D1 D2].
  split_and!; simpl; [by apply n_dev_same|by apply n_route_same|by rewrite Ht| |intros y; by apply (D2 NEIGH_ARP)].
  intros y. unfold minus, n_fdb. rewrite D1, list_elem_of_singleton. simpl. apply and_iff_compat_l. split; intros Hn Hs; apply Hn; [by subst|]. destruct x, y. simpl in *. congruence.
Qed.

Lemma addFdb_step x h h' : canonical_ip (fdb_IP x) -> canonical_mac (fdb_Mac x) -> fdb_Dev x ∈ vxlan_names ->
  addFdb _ (host_ops env) x h = (h', None) -> abs_eq (h_abs h') (with_fdb (h_abs h) (plus (n_fdb (h_net h)) [x])).
Proof.
  intros Cip Cmac Hv [E Ht]%on_net_spec. unfold nl_addFdb in E. destruct (add_neigh_frame _ _ _ _ _ _ E) as (F1 & F2 & F3).
  destruct (add_listed _ _ _ _ _ _ Cip Cmac Hv (reliable _) (reliable _) E) as [D1 D2].
  split_and!; simpl; [by apply n_dev_same|by apply n_route_same|by rewrite Ht| |intros y; by apply (D2 NEIGH_ARP)].
  intros y. unfold plus, n_fdb. rewrite D1, list_elem_of_singleton. simpl. assert (Heq : (fdb_IP y, fdb_Mac y, fdb_Dev y) = (fdb_IP x, fdb_Mac x, fdb_Dev x) <-> y = x) by (destruct x, y; simpl; naive_solver).
  rewrite Heq. destruct (decide (y = x)); tauto.
Qed.

(** ** Routes *)

Lemma ParseCIDR_kernel dst : kernel_net dst -> exists ip, ParseCIDR (IPNet_String dst) = Some (ip, dst).
Proof.
  intros [Hok Hn]. assert (H16 : forall ip, norm ip = ip -> length ip = 16%nat -> To4 ip = None).
  { intros ip E Hl. unfold norm in E. destruct (To4 ip) as [p|] eqn:Et; [|done]. apply To4_length in Et. simpl in E. subst. lia. }
  destruct Hok as [a n Ha Hb Hle|a n Ha Hb Hle]; cbn [net_IP] in Hn.
  - exists (v4InV6Prefix ++ and_bytes a (CIDRMask n 4)). unfold ParseCIDR. rewrite print4; [by rewrite and_mask_idem| |by apply and_bytes_ok; [|apply CIDRMask_ok]|done].
    rewrite length_and_bytes, length_CIDRMask. lia.
  - assert (Hl : length (and_bytes a (CIDRMask n 16)) = 16%nat) by (rewrite length_and_bytes, length_CIDRMask; lia).
    exists (and_bytes a (CIDRMask n 16)). unfold ParseCIDR. rewrite print16; [by rewrite and_mask_idem|done|by apply and_bytes_ok; [|apply CIDRMask_ok]|done|by apply H16].
Qed.

(** A route of the kernel that has a gateway. *)
Definition kernel_route (x : RouteKey) : Prop := kernel_ip (rk_Gw x) /\ rk_Gw x <> [] /\ forall dst, rk_Dst x = Some dst -> kernel_net dst.

Lemma route_read dev x ip net gw : kernel_route x -> ParseCIDR (rt_CIDR (shown_key dev x)) = Some (ip, net) -> ParseIP (rt_Gw (shown_key dev x)) = Some gw ->
  rk_Dst x = Some net /\ norm_net net = net /\ rk_Gw x = norm gw.
Proof.
  intros (Hg & Hne & Hd) Ec Eg. unfold shown_key in Ec, Eg. cbn [rt_CIDR rt_Gw] in Ec, Eg. destruct (rk_Dst x) as [dst|]; [|done].
  destruct (ParseCIDR_kernel dst (Hd dst eq_refl)) as [ip' Ec']. rewrite Ec in Ec'. injection Ec' as -> ->. destruct (ParseIP_print _ Hg Hne) as (gw' & Eg' & Hn & _).
  rewrite Eg in Eg'. injection Eg' as ->. split_and!; [done| |done]. apply kernel_norm_net. by apply Hd.
Qed.

Lemma of_link_eq i x : of_link i x = true <-> rk_LinkIndex x = i /\ rk_Table x = TABLE_ID.
Proof. unfold of_link. by rewrite andb_true_iff, !Z.eqb_eq. Qed.

Lemma delRoute_step r h h' : NoDup (routes (h_net h)) -> (forall x, x ∈ routes (h_net h) -> kernel_route x) -> (exists dev x, kernel_route x /\ r = shown_key dev x) ->
  deleteRoute _ (host_ops env) r h = (h', None) ->
  abs_eq (h_abs h') (with_route (h_abs h) (minus (n_route (h_net h)) [r])) /\ NoDup (routes (h_net h')) /\ (forall x, x ∈ routes (h_net h') -> kernel_route x).
Proof.
  intros Hnd Hk (dev & x & Hx & ->) [E Ht]%on_net_spec. set (n := h_net h) in *. set (n' := h_net h') in *. apply on_route_spec in E as (l0 & ip & net & Hl & Ec & E).
  pose proof Hx as (Hxg & Hxne & _). destruct (ParseIP_print _ Hxg Hxne) as (gw & Eg & Hgn & Hgne). change (IP_String (rk_Gw x)) with (rt_Gw (shown_key dev x)) in Eg.
  rewrite Eg in E. cbn [default] in E. destruct (route_read dev x ip net gw Hx Ec Eg) as (R1 & R2 & R3).
  apply RouteDel_law in E as (y & Y1 & Y2 & Y3 & Y4 & Hr & Hs & Ha & Hne). cbn in Y1, Y2, Y3, Y4. specialize (Y4 Hgne). rewrite R2 in Y1. apply LinkByName_law in Hl as [Hl Hln].
  cbn [rt_Dev shown_key] in Hln. assert (Hnd' : NoDup (y :: routes n')) by (by rewrite <- (Hr : _ ≡ₚ _)). apply list.NoDup_cons in Hnd' as [Hy Hnd'].
  assert (Hin : forall z, z ∈ routes n <-> z = y \/ z ∈ routes n') by (intros z; rewrite (Hr : _ ≡ₚ _), elem_of_cons; done).
  assert (Hyr : of_link (lk_Index l0) y = true) by (by apply of_link_eq). assert (Hys : shown_key dev y = shown_key dev x) by (unfold shown_key; by rewrite Y1, Y4, R1, R3).
  split; [|split; [done|intros z Hz; apply Hk, Hin; by right]].
  split_and!; simpl; [by apply n_dev_same| |by rewrite Ht|intros z; by apply n_neigh_same|intros z; by apply n_neigh_same].
  intros r. unfold minus. rewrite list_elem_of_singleton. split.
  - intros (lk & z & H1 & H2 & H3 & H4 & ->). apply Hs in H1. split; [exists lk, z; split_and!; try done; apply Hin; by right|].
    intros Ez. assert (Edev : lk_Name lk = dev) by (by apply (f_equal rt_Dev) in Ez). assert (lk = l0) as -> by (apply (links_unique n); [done|done|left; congruence]).
    assert (Hzk : kernel_route z) by (apply Hk, Hin; by right). rewrite Edev in Ez. rewrite <- Ez in Ec, Eg. destruct (route_read dev z ip net gw Hzk Ec Eg) as (Z1 & _ & Z3).
    apply of_link_eq in H4 as [H4 H5]. assert (z = y) as -> by (destruct z, y; simpl in *; congruence). done.
  - intros [(lk & z & H1 & H2 & H3 & H4 & ->) Hne']. exists lk, z. split_and!; try done; [by apply Hs|]. apply Hin in H3 as [-> |H3]; [|done]. exfalso. apply Hne'.
    apply of_link_eq in H4 as [H4 _], Hyr as [Hyr _]. assert (lk = l0) as -> by (apply (links_unique n); [done|done|right; congruence]). rewrite Hln. exact Hys.
Qed.

Lemma addRoute_step r h h' : route_ok r -> addRoute _ (host_ops env) r h = (h', None) -> abs_eq (h_abs h') (with_route (h_abs h) (plus (n_route (h_net h)) [r])).
Proof.
  intros (Cc & Cg & Hdev) [E Ht]%on_net_spec. pose proof Cg as (gw & Eg & _). apply on_route_spec in E as (l0 & ip & net & Hl & Ec & E). rewrite Eg in E. cbn [default] in E.
  apply RouteAdd_law in E as (Hr & Hs & Ha & Hn). apply LinkByName_law in Hl as [Hl Hln]. change (route_key _) with (mkRouteKey (Some (norm_net net)) (norm gw) (lk_Index l0) TABLE_ID) in Hr.
  pose proof (shown_record r ip net gw (lk_Index l0) Cc Cg Ec Eg) as Hsh. set (key := mkRouteKey _ _ _ _) in *.
  split_and!; simpl; [by apply n_dev_same| |by rewrite Ht|intros z; by apply n_neigh_same|intros z; by apply n_neigh_same].
  intros r'. unfold plus. rewrite list_elem_of_singleton. split.
  - intros (lk & z & H1 & H2 & H3 & H4 & ->). apply Hs in H1. rewrite Hr in H3. apply elem_of_cons in H3 as [-> |H3]; [right|left; by exists lk, z].
    apply of_link_eq in H4 as [H4 _]. assert (lk = l0) as -> by (apply (links_unique (h_net h)); [done|done|right; by rewrite <- H4]). by rewrite Hln.
  - intros [(lk & z & H1 & H2 & H3 & H4 & ->)| ->].
    + exists lk, z. split_and!; try done; [by apply Hs|]. rewrite Hr. by right.
    + exists l0, key. split_and!; [by apply Hs|by rewrite Hln|rewrite Hr; by left|by apply of_link_eq|by rewrite Hln].
Qed.

(** ** Rules *)

Lemma on_tables_spec f (h h' : Host N T) : on_tables f h = (h', None) -> f (h_tables h) = (h_tables h', None) /\ h_net h' = h_net h.
Proof. unfold on_tables. destruct (f (h_tables h)) as [t e]. by intros [= <- ->]. Qed.

(** The rules are told apart and none is loaded twice. *)
Definition rules_tidy (t : T) : Prop := by_protocol t /\ NoDup (flat_map (shown t) link_chains).

Lemma delIpt_step x h h' : own_rule x -> rules_tidy (h_tables h) -> deleteIptable _ (host_ops env) x h = (h', None) ->
  abs_eq (h_abs h') (with_ipt (h_abs h) (minus (t_ipt (h_tables h)) [x])) /\ rules_tidy (h_tables h').
Proof.
  intros Hx [Hb Hnd] E. cbn [deleteIptable host_ops] in E. apply on_tables_spec in E as [E Hn]. destruct (tables_deleteIptable x (h_tables h)) as [r|] eqn:Ed; [|by destruct (rule_total _ _ _ Ed)]. simpl in E. subst r.
  pose proof (delete_rule_loaded x _ _ Hx Hb Ed) as Hl. pose proof (delete_rule_protocol x _ _ Hx Hb Ed) as Hb'.
  assert (Hs : (forall y, t_ipt (h_tables h') y <-> minus (t_ipt (h_tables h)) [x] y) /\ NoDup (flat_map (shown (h_tables h')) link_chains)).
  { unfold minus, t_ipt. destruct (bool_decide_reflect (x ∈ flat_map (shown (h_tables h)) link_chains)) as [Hin|Hin].
    - rewrite Hl in Hnd. apply list.NoDup_cons in Hnd as [Hni Hnd']. split; [|done]. intros y. rewrite Hl, elem_of_cons, list_elem_of_singleton. split; [|tauto]. intros Hy. split; [by right|]. by intros ->.
    - rewrite Hl. split; [|done]. intros y. rewrite list_elem_of_singleton. split; [|tauto]. intros Hy. split; [done|]. by intros ->. }
  destruct Hs as [Hs1 Hs2]. split; [|done]. split_and!; simpl; rewrite ?Hn; done.
Qed.

Lemma addIpt_step x h h' : own_rule x -> addIptables _ (host_ops env) x h = (h', None) -> abs_eq (h_abs h') (with_ipt (h_abs h) (plus (t_ipt (h_tables h)) [x])).
Proof.
  intros Hx E. cbn [addIptables host_ops] in E. apply on_tables_spec in E as [E Hn]. destruct (tables_addIptables x (h_tables h)) as [r|] eqn:Ea; [|by destruct (rule_total _ _ _ Ea)]. simpl in E. subst r.
  pose proof (add_rule_loaded x _ _ Hx Ea) as Hl. split_and!; simpl; rewrite ?Hn; try done. intros y. unfold plus, t_ipt. rewrite Hl, elem_of_cons, list_elem_of_singleton. tauto.
Qed.

(** ** Devices *)

(** No link is built on a device of the overlay. *)
Definition nothing_on_top (n : N) : Prop := forall lk x, is_link n lk -> lk_Name lk ∈ map fst ALL_DEVICES -> is_link n x -> lk_VtepDevIndex x <> lk_Index lk.

Lemma delDevice_step d h h' : dev_Name d ∈ map fst ALL_DEVICES -> nothing_on_top (h_net h) -> deleteDevice _ (host_ops env) d h = (h', None) ->
  del_devices [dev_Name d] (h_abs h) (h_abs h') /\ nothing_on_top (h_net h').
Proof.
  intros Hd Htop [E Ht]%on_net_spec.
  pose proof (device_deleted d _ _ (reliable _) (reliable _) (fun lk x H1 H2 => Htop lk x H1 (eq_ind_r (fun s => s ∈ map fst ALL_DEVICES) Hd H2)) E) as Hdev.
  set (n := h_net h) in *. set (n' := h_net h') in *. unfold nl_deleteDevice, err_text in E.
  assert (Hc : n' = n /\ (forall lk, is_link n lk -> lk_Name lk <> dev_Name d) \/ exists lk, is_link n lk /\ lk_Name lk = dev_Name d /\ LinkDel lk n = (n', None)).
  { destruct (link_of_name n (dev_Name d) (reliable n)) as [(lk & El & Hl & Hnm)|[El Hno]]; rewrite El in E; [right|left; by injection E as <-].
    exists lk. split_and!; [done|done|]. destruct (LinkDel lk n) as [n1 [e|]]; [done|]. by injection E as <-. }
  assert (Hsing : forall s, s ∉ [dev_Name d] <-> s <> dev_Name d) by (intros s; by rewrite list_elem_of_singleton).
  unfold del_devices, h_abs. cbn [a_dev a_route a_ipt a_fdb a_arp]. fold n n'. destruct Hc as [[En Hno]|(lk & Hl & Hnm & Ed)].
  - rewrite En, Ht in *. split; [|done]. split_and!; try done. intros x. rewrite Hsing. apply Hdev.
  - apply LinkDel_law in Ed as (A1 & A2 & A3 & A4); [|done|intros x Hx; apply Htop; [done|by rewrite Hnm|done]].
    assert (Hnei : forall t r, r ∈ ListNeigh t n' <-> r ∈ ListNeigh t n /\ snd r <> dev_Name d).
    { intros t [[ip mac] dev]. rewrite !ListNeigh_elem by done. cbn [snd]. split.
      - intros (Hv & k & x & H1 & H2 & H3 & H4 & H5). apply A1 in H1 as [H1 Hne]. apply A4 in H3 as [H3 _]. split; [split; [done|]; by exists k, x|].
        intros Hc. apply Hne, (links_unique n); [done|done|left; congruence].
      - intros [(Hv & k & x & H1 & H2 & H3 & H4 & H5) Hne]. split; [done|]. exists k, x. assert (k <> lk) by (intros ->; congruence). split_and!; try apply H5; try done; [by apply A1|].
        apply A4. split; [done|]. rewrite H4. intros Hi. by apply H, (links_unique n); [..|right]. }
    assert (Hrt : forall r, n_route n' r <-> n_route n r /\ rt_Dev r <> dev_Name d).
    { intros r. split.
      - intros (k & x & H1 & H2 & H3 & H4 & ->). apply A1 in H1 as [H1 Hne]. rewrite A3 in H3. apply list_filter_spec in H3 as [H3 _]. split; [by exists k, x|].
        simpl. intros Hc. apply Hne, (links_unique n); [done|done|left; congruence].
      - intros [(k & x & H1 & H2 & H3 & H4 & ->) Hne]. simpl in Hne. assert (Hk : k <> lk) by (intros ->; congruence). exists k, x. split_and!; try done; [by apply A1|].
        rewrite A3. apply list_filter_spec. split; [done|]. apply negb_true_iff, Z.eqb_neq. apply of_link_eq in H4 as [-> _]. intros Hi. by apply Hk, (links_unique n); [..|right]. }
    split; [|intros k x [Hk _]%A1 Hkn [Hx _]%A1; by apply Htop]. split_and!.
    + intros x. rewrite Hsing. apply Hdev.
    + intros x Hx. by apply Hrt in Hx as [Hx _].
    + intros x Hx Hne%Hsing. by apply Hrt.
    + by rewrite Ht.
    + intros x Hx. by apply Hnei in Hx as [Hx _].
    + intros x Hx Hne%Hsing. by apply Hnei.
    + intros x Hx. by apply Hnei in Hx as [Hx _].
    + intros x Hx Hne%Hsing. by apply Hnei.
Qed.

(** A new link has no routes and no entries. *)
Lemma created_frame name a id port hw i ip v n n' : createNewVxlanIface name a id port hw i ip v n = (n', None) ->
  (forall r, n_route n' r <-> n_route n r) /\ (forall t r, r ∈ ListNeigh t n' <-> r ∈ ListNeigh t n).
Proof.
  intros (lk & A1 & _ & _ & _ & _ & _ & A7 & A8 & _ & _ & Hr & Hn)%create_iface. split.
  - intros r. split; intros (k & x & H1 & H2 & H3 & H4 & ->); exists k, x; (split_and!; try done).
    + apply A8 in H1 as [-> |H1]; [|done]. exfalso. rewrite (Hr : _ ≡ₚ _) in H3. destruct (routes_ok n x H3) as [(b & Hb & Hbi) _]. apply of_link_eq in H4 as [H4 _].
      destruct (A7 b Hb) as (_ & Hne & _). congruence.
    + by rewrite <- (Hr : _ ≡ₚ _).
    + apply A8. by right.
    + by rewrite (Hr : _ ≡ₚ _).
  - intros t [[ip' mac] dev]. rewrite !ListNeigh_elem by done. apply and_iff_compat_l. split; intros (k & x & H1 & H2 & H3 & H4 & H5); exists k, x; (split_and!; try apply H5; try done).
    + apply A8 in H1 as [-> |H1]; [|done]. exfalso. apply Hn in H3. destruct (neighs_ok n x H3) as [(b & Hb & Hbi) _]. destruct (A7 b Hb) as (_ & Hne & _). congruence.
    + by apply Hn.
    + apply A8. by right.
    + by apply Hn.
Qed.

(** The rules for a device are in another table. *)
Definition nat_same (t t' : T) : Prop := forall p c, chain_of t' p "nat" c = chain_of t p "nat" c.
Definition keeps_nat (f : Host N T -> Host N T * option string) : Prop := forall h, nat_same (h_tables h) (h_tables (fst (f h))).

Lemma behaviour_nat p name : keeps_nat (on_tables (UpdateDefaultIPtablesBehavior p name)).
Proof.
  intros h. unfold on_tables, UpdateDefaultIPtablesBehavior. cbn [steps]. destruct (New p (h_tables h)); [done|].
  destruct (PrependUnique p "filter" "FORWARD" _ (h_tables h)) as [t e] eqn:E. intros q c. pose proof (prepend_other _ _ _ _ _ _ _ E q "nat" c) as Ho. destruct e; simpl; by rewrite Ho.
Qed.

Lemma sys_nat f : keeps_nat (on_sys f).
Proof. intros h. unfold on_sys. by destruct (f (h_sys h)). Qed.

Lemma then_nat f g : keeps_nat f -> keeps_nat g -> keeps_nat (and_then f g).
Proof. intros Hf Hg h. unfold and_then. specialize (Hf h). destruct (f h) as [h1 [e|]]; [done|]. intros p c. etransitivity; [apply Hg|apply Hf]. Qed.

Lemma relax_nat l (h : Host N T) : nat_same (h_tables h) (h_tables (foldl relax_nic h l)).
Proof.
  revert h. induction l as [|x l IH]; intros h; [done|]. simpl. intros p c. rewrite (IH _ p c). unfold relax_nic. destruct (String.length x =? 0)%nat; [done|].
  by rewrite (sys_nat _ _ p c), (behaviour_nat _ _ _ p c).
Qed.

Lemma device_config_nat name family : keeps_nat (updateDeviceConfig name family).
Proof. unfold updateDeviceConfig. destruct (family =? FAMILY_V6)%Z; apply then_nat; (apply behaviour_nat || apply sys_nat). Qed.

Lemma kernel_config_nat name family : keeps_nat (UpdateDefaultIptablesAndKernalConfig env name family).
Proof.
  unfold UpdateDefaultIptablesAndKernalConfig. apply then_nat.
  - destruct (family =? FAMILY_V6)%Z; [|done]. apply then_nat; [apply behaviour_nat|apply sys_nat].
  - destruct (family =? FAMILY_V4)%Z; [|done]. apply then_nat; [apply then_nat; [apply behaviour_nat|apply sys_nat]|]. intros h. apply relax_nat.
Qed.

Lemma add_device_nat d : keeps_nat (nl_addDevice env d).
Proof.
  intros h. unfold nl_addDevice. destruct (ParseCIDR (dev_Addr d)) as [[ip net]|]; [|done]. destruct (getIfaceIPByName _ _); [|done]. destruct (ParseMAC (dev_Mac d)); [|done].
  apply then_nat; [|apply then_nat; [apply kernel_config_nat|apply device_config_nat]]. intros h'. unfold on_net. by destruct (createNewVxlanIface _ _ _ _ _ _ _ _ _).
Qed.

Lemma addDevice_step d h h' : device_ok d -> addDevice _ (host_ops env) d h = (h', None) -> abs_eq (h_abs h') (with_dev (h_abs h) (plus (n_dev (h_net h)) [d])).
Proof.
  intros Hd E. cbn [addDevice host_ops] in E. pose proof (add_device_nat d h) as Hnat. rewrite E in Hnat. simpl in Hnat.
  apply add_device_spec in E as (ip & net & hw & i & lb & deviceIP & E1 & E2 & E3 & E4 & E). destruct (created_frame _ _ _ _ _ _ _ _ _ _ E) as [Hr Hn].
  pose proof (device_created d ip net hw i deviceIP lb _ _ Hd (reliable _) (reliable _) E1 E2 E3 E4 E) as Hdev.
  split_and!; simpl; [|exact Hr| |intros y; apply Hn|intros y; apply Hn].
  - intros x. unfold plus. rewrite (Hdev x), list_elem_of_singleton. tauto.
  - intros x. unfold t_ipt. rewrite (flat_map_ext (shown (h_tables h')) (shown (h_tables h))); [done|]. intros [p c]. unfold shown. simpl. by rewrite (Hnat p c).
Qed.

(** * The loops over the items *)

Lemma write1_if {X} (op : X -> Host N T -> Host N T * option string) msg (pre : list X -> Host N T -> Prop) (R : list X -> Host N T -> Host N T -> Prop) (s : slice X) h e h' :
  (forall h, R [] h h) ->
  (forall x l h h1 h2, pre (x :: l) h -> op x h = (h1, None) -> pre l h1 /\ (R l h1 h2 -> R (x :: l) h h2)) ->
  pre (elems s) h -> write1 s (each op msg) (h, e) = (h', None) -> R (elems s) h h'.
Proof.
  intros Hnil Hstep Hpre. destruct s as [l|]; simpl; [|by intros [= <- _]]. destruct (each op msg l h) as [h1 [err|]] eqn:E; [done|]. intros [= <- _].
  refine (each_None op msg (fun l h h' => pre l h -> R l h h') l h h1 _ _ E Hpre); [auto|]. intros x l' h0 h2 h3 Hop IH Hp. destruct (Hstep x l' h0 h2 h3 Hp Hop) as [Hp' HR]. auto.
Qed.

Lemma write1_ok {X} (s : slice X) (op : list X -> Host N T -> Host N T * option string) h e h' : write1 s op (h, e) = (h', None) -> e = None.
Proof. destruct s as [l|]; simpl; [|congruence]. destruct (op l h) as [h1 [err|]]; congruence. Qed.

(** What the deletions of entries leave alone. *)
Definition links_routes_tables (h h' : Host N T) : Prop := same_links (h_net h) (h_net h') /\ same_routes (h_net h) (h_net h') /\ h_tables h' = h_tables h.

Lemma frame_refl h : links_routes_tables h h.
Proof. split_and!; [intros l; tauto|apply Permutation_refl|done]. Qed.

Lemma frame_trans h1 h2 h3 : links_routes_tables h1 h2 -> links_routes_tables h2 h3 -> links_routes_tables h1 h3.
Proof.
  intros (A1 & A2 & A3) (B1 & B2 & B3). split_and!; [intros l; by rewrite (B1 l), (A1 l)| |congruence]. unfold same_routes in *. by rewrite B2, A2.
Qed.

Lemma entry_frame t ip mac dev h h' : on_net (DeleteNeigh ip mac t dev) h = (h', None) -> links_routes_tables h h'.
Proof. intros [E Ht]%on_net_spec. apply del_neigh_frame in E as (? & _ & ? & _). done. Qed.

Ltac no_items := intros; split_and!; intros y; simpl; unfold plus, minus; rewrite ?elem_of_nil; tauto.

Lemma DeleteArps_if s h e h' : (forall x, x ∈ elems s -> printed_ip (arp_IP x) /\ printed_mac (arp_Mac x) /\ forall y, n_arp (h_net h) y -> same_arp y x -> y = x) ->
  write1 s DeleteArps (h, e) = (h', None) -> abs_eq (h_abs h') (with_arp (h_abs h) (minus (a_arp (h_abs h)) (elems s))) /\ links_routes_tables h h'.
Proof.
  apply (write1_if _ _ (fun l h => forall x, x ∈ l -> printed_ip (arp_IP x) /\ printed_mac (arp_Mac x) /\ forall y, n_arp (h_net h) y -> same_arp y x -> y = x)
    (fun l h h' => abs_eq (h_abs h') (with_arp (h_abs h) (minus (a_arp (h_abs h)) l)) /\ links_routes_tables h h')).
  - intros h0. split; [no_items|apply frame_refl].
  - intros x l h0 h1 h2 Hpre Hop. destruct (Hpre x (list_elem_of_here _ _)) as (P1 & P2 & P3). pose proof (delArp_step x h0 h1 P1 P2 P3 Hop) as Hs. split.
    + intros z Hz. destruct (Hpre z (list_elem_of_further _ _ _ Hz)) as (Q1 & Q2 & Q3). split_and!; [done|done|]. intros y Hy. apply Q3. destruct Hs as (_ & _ & _ & _ & Ha). by apply Ha in Hy as [Hy _].
    + intros [He Hf]. split; [|exact (frame_trans _ _ _ (entry_frame NEIGH_ARP _ _ _ _ _ Hop) Hf)]. exact (minus_arp_cons _ _ _ _ _ Hs He).
Qed.

Lemma DeleteFdbs_if s h e h' : (forall x, x ∈ elems s -> printed_ip (fdb_IP x) /\ printed_mac (fdb_Mac x)) ->
  write1 s DeleteFdbs (h, e) = (h', None) -> abs_eq (h_abs h') (with_fdb (h_abs h) (minus (a_fdb (h_abs h)) (elems s))) /\ links_routes_tables h h'.
Proof.
  apply (write1_if _ _ (fun l h => forall x, x ∈ l -> printed_ip (fdb_IP x) /\ printed_mac (fdb_Mac x))
    (fun l h h' => abs_eq (h_abs h') (with_fdb (h_abs h) (minus (a_fdb (h_abs h)) l)) /\ links_routes_tables h h')).
  - intros h0. split; [no_items|apply frame_refl].
  - intros x l h0 h1 h2 Hpre Hop. destruct (Hpre x (list_elem_of_here _ _)) as (P1 & P2). pose proof (delFdb_step x h0 h1 P1 P2 Hop) as Hs. split.
    + intros z Hz. apply Hpre. by right.
    + intros [He Hf]. split; [|exact (frame_trans _ _ _ (entry_frame NEIGH_FDB _ _ _ _ _ Hop) Hf)]. exact (minus_fdb_cons _ _ _ _ _ Hs He).
Qed.

Lemma DeleteIptables_if s h e h' : (forall x, x ∈ elems s -> own_rule x) -> rules_tidy (h_tables h) ->
  write1 s DeleteIptables (h, e) = (h', None) -> abs_eq (h_abs h') (with_ipt (h_abs h) (minus (a_ipt (h_abs h)) (elems s))) /\ h_net h' = h_net h.
Proof.
  intros H1 H2. apply (write1_if _ _ (fun l h => (forall x, x ∈ l -> own_rule x) /\ rules_tidy (h_tables h))
    (fun l h h' => abs_eq (h_abs h') (with_ipt (h_abs h) (minus (a_ipt (h_abs h)) l)) /\ h_net h' = h_net h)); [| |done].
  - intros h0. split; [no_items|done].
  - intros x l h0 h1 h2 [Hpre Ht] Hop. destruct (delIpt_step x h0 h1 (Hpre x (list_elem_of_here _ _)) Ht Hop) as [Hs Ht']. split.
    + split; [intros z Hz; apply Hpre; by right|done].
    + intros [He Hf]. split; [|cbn [deleteIptable host_ops] in Hop; apply on_tables_spec in Hop as [_ Hop]; congruence]. exact (minus_ipt_cons _ _ _ _ _ Hs He).
Qed.

Lemma DeleteRoutes_if s h e h' : (forall x, x ∈ elems s -> exists dev k, kernel_route k /\ x = shown_key dev k) -> NoDup (routes (h_net h)) -> (forall x, x ∈ routes (h_net h) -> kernel_route x) ->
  write1 s DeleteRoutes (h, e) = (h', None) -> abs_eq (h_abs h') (with_route (h_abs h) (minus (a_route (h_abs h)) (elems s))) /\ same_links (h_net h) (h_net h').
Proof.
  intros H1 H2 H3. apply (write1_if _ _ (fun l h => (forall x, x ∈ l -> exists dev k, kernel_route k /\ x = shown_key dev k) /\ NoDup (routes (h_net h)) /\ (forall x, x ∈ routes (h_net h) -> kernel_route x))
    (fun l h h' => abs_eq (h_abs h') (with_route (h_abs h) (minus (a_route (h_abs h)) l)) /\ same_links (h_net h) (h_net h'))); [| |done].
  - intros h0. split; [no_items|intros l; tauto].
  - intros x l h0 h1 h2 (Hpre & Hnd & Hk) Hop. destruct (delRoute_step x h0 h1 Hnd Hk (Hpre x (list_elem_of_here _ _)) Hop) as (Hs & Hnd' & Hk'). split.
    + split_and!; [intros z Hz; apply Hpre; by right|done|done].
    + intros [He Hf]. split.
      * exact (minus_route_cons _ _ _ _ _ Hs He).
      * intros lk. rewrite (Hf lk). cbn [deleteRoute host_ops] in Hop. apply on_net_spec in Hop as [Hop _]. apply on_route_spec in Hop as (l0 & ip & net & _ & _ & Hop).
        apply RouteDel_law in Hop as (y & _ & _ & _ & _ & _ & Hsl & _). apply Hsl.
Qed.

Lemma DeleteDevices_if s h e h' : (forall d, d ∈ elems s -> dev_Name d ∈ map fst ALL_DEVICES) -> nothing_on_top (h_net h) ->
  write1 s DeleteDevices (h, e) = (h', None) -> del_devices (map dev_Name (elems s)) (h_abs h) (h_abs h').
Proof.
  intros H1 H2. apply (write1_if _ _ (fun l h => (forall d, d ∈ l -> dev_Name d ∈ map fst ALL_DEVICES) /\ nothing_on_top (h_net h))
    (fun l h h' => del_devices (map dev_Name l) (h_abs h) (h_abs h'))); [| |done].
  - intros h0. apply del_devices_nil.
  - intros x l h0 h1 h2 [Hpre Ht] Hop. destruct (delDevice_step x h0 h1 (Hpre x (list_elem_of_here _ _)) Ht Hop) as [Hs Ht']. split; [|by apply del_devices_cons].
    split; [intros z Hz; apply Hpre; by right|done].
Qed.

Lemma AddDevices_if s h e h' : (forall d, d ∈ elems s -> device_ok d) ->
  write1 s AddDevices (h, e) = (h', None) -> abs_eq (h_abs h') (with_dev (h_abs h) (plus (a_dev (h_abs h)) (elems s))).
Proof.
  apply (write1_if _ _ (fun l _ => forall d, d ∈ l -> device_ok d) (fun l h h' => abs_eq (h_abs h') (with_dev (h_abs h) (plus (a_dev (h_abs h)) l)))); [intros h0; no_items|].
  intros x l h0 h1 h2 Hpre Hop. split; [intros z Hz; apply Hpre; by right|]. apply plus_dev_cons, addDevice_step; [|done]. apply Hpre. by left.
Qed.

Definition arp_ok (x : Arp) : Prop := canonical_ip (arp_IP x) /\ canonical_mac (arp_Mac x) /\ arp_Dev x ∈ vxlan_names.
Definition fdb_ok (x : Fdb) : Prop := canonical_ip (fdb_IP x) /\ canonical_mac (fdb_Mac x) /\ fdb_Dev x ∈ vxlan_names.

Lemma AddArps_if s h e h' : (forall x, x ∈ elems s -> arp_ok x /\ forall y, n_arp (h_net h) y \/ y ∈ elems s -> same_arp y x -> y = x) ->
  write1 s AddArps (h, e) = (h', None) -> abs_eq (h_abs h') (with_arp (h_abs h) (plus (a_arp (h_abs h)) (elems s))).
Proof.
  apply (write1_if _ _ (fun l h => forall x, x ∈ l -> arp_ok x /\ forall y, n_arp (h_net h) y \/ y ∈ l -> same_arp y x -> y = x)
    (fun l h h' => abs_eq (h_abs h') (with_arp (h_abs h) (plus (a_arp (h_abs h)) l)))); [intros h0; no_items|].
  intros x l h0 h1 h2 Hpre Hop. destruct (Hpre x (list_elem_of_here _ _)) as ((C1 & C2 & C3) & Hf).
  pose proof (addArp_step x h0 h1 C1 C2 C3 (fun y Hy => Hf y (or_introl Hy)) Hop) as Hs. split; [|by apply plus_arp_cons].
  intros z Hz. destruct (Hpre z (list_elem_of_further _ _ _ Hz)) as (Cz & Hfz). split; [done|]. intros y Hy. apply Hfz. destruct Hs as (_ & _ & _ & _ & Ha).
  destruct Hy as [Hy|Hy]; [|right; by right]. apply Ha in Hy as [Hy|Hy]; [by left|]. apply list_elem_of_singleton in Hy as ->. right. by left.
Qed.

Lemma AddFdbs_if s h e h' : (forall x, x ∈ elems s -> fdb_ok x) ->
  write1 s AddFdbs (h, e) = (h', None) -> abs_eq (h_abs h') (with_fdb (h_abs h) (plus (a_fdb (h_abs h)) (elems s))).
Proof.
  apply (write1_if _ _ (fun l _ => forall x, x ∈ l -> fdb_ok x) (fun l h h' => abs_eq (h_abs h') (with_fdb (h_abs h) (plus (a_fdb (h_abs h)) l)))); [intros h0; no_items|].
  intros x l h0 h1 h2 Hpre Hop. split; [intros z Hz; apply Hpre; by right|]. destruct (Hpre x (list_elem_of_here _ _)) as (C1 & C2 & C3). by apply plus_fdb_cons, addFdb_step.
Qed.

Lemma AddIptables_if s h e h' : (forall x, x ∈ elems s -> own_rule x) ->
  write1 s AddIptables (h, e) = (h', None) -> abs_eq (h_abs h') (with_ipt (h_abs h) (plus (a_ipt (h_abs h)) (elems s))).
Proof.
  apply (write1_if _ _ (fun l _ => forall x, x ∈ l -> own_rule x) (fun l h h' => abs_eq (h_abs h') (with_ipt (h_abs h) (plus (a_ipt (h_abs h)) l)))); [intros h0; no_items|].
  intros x l h0 h1 h2 Hpre Hop. split; [intros z Hz; apply Hpre; by right|]. apply plus_ipt_cons, addIpt_step; [|done]. apply Hpre. by left.
Qed.

Lemma AddRoutes_if s h e h' : (forall x, x ∈ elems s -> route_ok x) ->
  write1 s AddRoutes (h, e) = (h', None) -> abs_eq (h_abs h') (with_route (h_abs h) (plus (a_route (h_abs h)) (elems s))).
Proof.
  apply (write1_if _ _ (fun l _ => forall x, x ∈ l -> route_ok x) (fun l h h' => abs_eq (h_abs h') (with_route (h_abs h) (plus (a_route (h_abs h)) l)))); [intros h0; no_items|].
  intros x l h0 h1 h2 Hpre Hop. split; [intros z Hz; apply Hpre; by right|]. apply plus_route_cons, addRoute_step; [|done]. apply Hpre. by left.
Qed.

(** * One synchronisation *)

(** The kernel of a node of the overlay: nothing is built on the overlay's devices, its routes
have gateways and none is there twice, nor is a rule; rules with a colon are of IPv6; an
address has one neighbour, and none has the broadcast MAC address. *)
Definition tidy (h : Host N T) : Prop :=
  nothing_on_top (h_net h) /\ NoDup (routes (h_net h)) /\ (forall x, x ∈ routes (h_net h) -> rk_Gw x <> []) /\ rules_tidy (h_tables h) /\
  (forall x y, n_arp (h_net h) x -> n_arp (h_net h) y -> same_arp x y -> x = y) /\ (forall x, n_arp (h_net h) x -> arp_Mac x <> BROADCAST_MAC).

(** A configuration written as the code prints it, with one neighbour for an address. *)
Definition fits (c : NodeConfigSpec) : Prop :=
  (forall d, d ∈ elems (spec_Devices c) -> device_ok d) /\ (forall r, r ∈ elems (spec_Routes c) -> route_ok r) /\ (forall i, i ∈ elems (spec_Iptables c) -> own_rule i) /\
  (forall f, f ∈ elems (spec_Fdbs c) -> fdb_ok f) /\ (forall a, a ∈ elems (spec_Arps c) -> arp_ok a) /\
  (forall a b, a ∈ elems (spec_Arps c) -> b ∈ elems (spec_Arps c) -> same_arp a b -> a = b).

Lemma shown_own t i : t_ipt t i -> own_rule i.
Proof.
  unfold t_ipt. rewrite list_elem_of_In, in_flat_map. intros ([p c] & Hpc%list_elem_of_In & Hi). unfold shown in Hi. apply in_map_iff in Hi as (r & <- & _). split; [done|]. cbn [fst snd ipt_Chain].
  unfold link_chains in Hpc. rewrite !elem_of_cons, elem_of_nil in Hpc. destruct Hpc as [E|[E|[E|[E|[]]]]]; injection E as -> ->; [by left|by right|by left|by right].
Qed.

Lemma on_top_same n n' : same_links n n' -> nothing_on_top n -> nothing_on_top n'.
Proof. intros Hs Ht lk x Hl Hn Hx. apply Ht; [by apply Hs|done|by apply Hs]. Qed.

Lemma host_written to (h h' : Host N T) from flag del cre : tidy h -> fits to -> LoadSysConfig h = (from, None) -> Diff from to = (flag, del, cre) -> WriteSys del cre h = (h', None) ->
  written del cre (h_abs h) (h_abs h').
Proof.
  intros (T1 & T2 & T3 & T4 & T5 & T6) (F1 & F2 & F3 & F4 & F5 & F6) Hl HD. destruct (load_law h from Hl) as (L1 & L2 & L3 & L4 & L5).
  destruct (Diff_spec _ _ _ _ _ HD) as (_ & _ & _ & _ & _ & Dd & Cd & Dr & Cr & Di & Ci & Df & Cf & Da & Ca). clear HD Hl.
  unfold WriteSys. destruct (write1 _ DeleteArps _) as [h1 e1] eqn:E1. destruct (write1 _ DeleteFdbs _) as [h2 e2] eqn:E2. destruct (write1 _ DeleteIptables _) as [h3 e3] eqn:E3.
  destruct (write1 _ DeleteRoutes _) as [h4 e4] eqn:E4. destruct (write1 _ DeleteDevices _) as [h5 e5] eqn:E5. destruct (write1 _ AddDevices _) as [h6 e6] eqn:E6.
  destruct (write1 _ AddArps _) as [h7 e7] eqn:E7. destruct (write1 _ AddFdbs _) as [h8 e8] eqn:E8. destruct (write1 _ AddIptables _) as [h9 e9] eqn:E9. intros E10.
  pose proof (write1_ok _ _ _ _ _ E10) as ->. pose proof (write1_ok _ _ _ _ _ E9) as ->. pose proof (write1_ok _ _ _ _ _ E8) as ->. pose proof (write1_ok _ _ _ _ _ E7) as ->.
  pose proof (write1_ok _ _ _ _ _ E6) as ->. pose proof (write1_ok _ _ _ _ _ E5) as ->. pose proof (write1_ok _ _ _ _ _ E4) as ->. pose proof (write1_ok _ _ _ _ _ E3) as ->.
  pose proof (write1_ok _ _ _ _ _ E2) as ->.
  apply DeleteArps_if in E1 as [A1 (G1 & G2 & G3)].
  2:{ intros x [Hx _]%Da. apply L5 in Hx. destruct (listed_printed _ _ _ _ _ Hx) as [P1 P2]. split_and!; [done|done|]. intros y Hy Hs. by apply T5. }
  apply DeleteFdbs_if in E2 as [A2 (G4 & G5 & G6)]; [|intros x [Hx _]%Df; apply L4 in Hx; exact (listed_printed _ _ _ _ _ Hx)].
  apply DeleteIptables_if in E3 as [A3 G7]; [|intros x [Hx _]%Di; apply L3 in Hx; exact (shown_own _ _ Hx)|by rewrite G6, G3].
  assert (Hr : routes (h_net h3) ≡ₚ routes (h_net h)) by (rewrite G7, (G5 : _ ≡ₚ _), (G2 : _ ≡ₚ _); done).
  assert (Hk : forall x, x ∈ routes (h_net h) -> kernel_route x) by (intros x Hx; destruct (routes_ok _ _ Hx) as (_ & K1 & K2); split_and!; auto).
  apply DeleteRoutes_if in E4 as [A4 G8]; [|intros x [(lk & k & _ & _ & Hx & _ & ->)%L2 _]%Dr; eauto|by rewrite Hr|intros x Hx; rewrite Hr in Hx; auto].
  assert (Hlinks : same_links (h_net h) (h_net h4)) by (intros lk; rewrite (G8 lk), G7, (G4 lk); apply G1).
  apply DeleteDevices_if in E5; [|intros d [(nm & f & lk & Hin & _ & <- & ->)%L1 _]%Dd; rewrite device_at_name; apply list_elem_of_fmap; by eexists (_, _)|exact (on_top_same _ _ Hlinks T1)].
  apply AddDevices_if in E6; [|intros d [Hd _]%Cd; auto].
  assert (Harp : forall y, n_arp (h_net h6) y -> y ∈ elems (spec_Arps to)).
  { intros y Hy. destruct E6 as (_ & _ & _ & _ & X6), E5 as (_ & _ & _ & _ & _ & _ & X5 & _), A4 as (_ & _ & _ & _ & X4), A3 as (_ & _ & _ & _ & X3), A2 as (_ & _ & _ & _ & X2), A1 as (_ & _ & _ & _ & X1).
    apply X6, X5, X4, X3, X2, X1 in Hy as [Hy Hn]. destruct (decide (y ∈ elems (spec_Arps to))) as [|Hto]; [done|]. exfalso. apply Hn, Da. split_and!; [by apply L5|done|by apply T6]. }
  apply AddArps_if in E7; [|intros x [Hx _]%Ca; split; [auto|]; intros y [Hy|[Hy _]%Ca] Hs; apply F6; auto].
  apply AddFdbs_if in E8; [|intros x [Hx _]%Cf; auto]. apply AddIptables_if in E9; [|intros x [Hx _]%Ci; auto]. apply AddRoutes_if in E10; [|intros x [Hx _]%Cr; auto].
  exact (written_steps del cre _ _ _ _ _ _ _ _ _ _ _ A1 A2 A3 A4 E5 E6 E7 E8 E9 E10).
Qed.

End host.

(** * Theorems *)


(** A node without an overlay, and its configuration. *)
Definition bare_tables : Mem.chains :=
  fst (CreateGlobalNetIptablesChains (<[(ProtocolIPv4, "nat", "PREROUTING") := []]> (<[(ProtocolIPv4, "nat", "POSTROUTING") := []]>
    (<[(ProtocolIPv6, "nat", "PREROUTING") := []]> (<[(ProtocolIPv6, "nat", "POSTROUTING") := []]> ex_tables))))).
Definition bare_host : Host t Mem.chains := mkHost ex_net bare_tables ex_sys.
Definition node_config : NodeConfigSpec :=
  mkSpec (Some [ex_device]) (Some [KernelReadBack.ex_route]) (Some [mkIptables "nat" "PREROUTING" "-d 10.244.0.0/16 -j DNAT"])
    (Some [mkFdb "10.0.0.9" "0a:00:00:00:00:02" VXLAN_BRIDGE_NAME]) (Some [mkArp "220.0.0.9" "0a:00:00:00:00:02" VXLAN_BRIDGE_NAME]).
Definition node_manager : NetworkManager (Host t Mem.chains) := mkNetworkManager bare_host node_config "" "".
Definition node_synced : NetworkManager (Host t Mem.chains) * string := @UpdateSync _ (DefaultNetWork (host_ops "")) node_manager.

Lemma bare_rules p c : (p, c) ∈ link_chains -> chain_of bare_tables p "nat" c = Some [].
Proof. unfold link_chains. rewrite !elem_of_cons, elem_of_nil. intros [E|[E|[E|[E|[]]]]]; injection E as -> ->; vm_compute; reflexivity. Qed.

Lemma bare_tidy : tidy bare_host.
Proof.
  assert (Hl : forall lk, is_link (h_net bare_host) lk -> lk_Name lk = "eth0") by (intros lk Hlk; change (lk ∈ r_links ex_raw) in Hlk; by apply list_elem_of_singleton in Hlk as ->).
  assert (Hn : forall x, ~ n_arp (h_net bare_host) x) by (intros x Hx; by apply elem_of_nil in Hx).
  split_and!.
  - intros lk x Hlk Hin. rewrite (Hl lk Hlk) in Hin. exfalso. revert Hin. refine (bool_decide_eq_false_1 _ _). by vm_compute.
  - change (NoDup (@nil RouteKey)). apply NoDup_nil_2.
  - intros x Hx. change (x ∈ @nil RouteKey) in Hx. by apply elem_of_nil in Hx.
  - split; [intros p c rules r Hpc Hc Hr; change (h_tables bare_host) with bare_tables in Hc; rewrite (bare_rules p c Hpc) in Hc; injection Hc as <-; by apply elem_of_nil in Hr|].
    change (h_tables bare_host) with bare_tables. assert (E : forall l, (forall pc, pc ∈ l -> pc ∈ link_chains) -> flat_map (shown bare_tables) l = []).
    { induction l as [|[p c] l IH]; intros Hin; [done|]. cbn [flat_map]. rewrite IH by (intros pc Hpc; apply Hin; by right). unfold shown. cbn [fst snd].
      by rewrite (bare_rules p c) by (apply Hin; by left). }
    rewrite E by done. apply NoDup_nil_2.
  - intros x y Hx. by destruct (Hn x).
  - intros x Hx. by destruct (Hn x).
Qed.

Lemma node_fits : fits node_config.
Proof.
  assert (Hmac : canonical_mac "0a:00:00:00:00:02") by (apply (macb_canonical _ [0x0a; 0; 0; 0; 0; 2]%Z); (reflexivity || discriminate)).
  split_and!; intros x Hx; try (apply list_elem_of_singleton in Hx as ->).
  - split; [reflexivity|]. split; [apply (macb_canonical _ [0x0a; 0xbb; 0xcc; 0xdd; 0xee; 0xff]%Z); (reflexivity || discriminate)|].
    eexists _, _. split; [reflexivity|]. split; [vm_compute; reflexivity|]. apply list_elem_of_here.
  - split; [eexists _, _; split; [reflexivity|vm_compute; reflexivity]|]. split; [eapply ipb_canonical; [reflexivity|vm_compute; reflexivity|vm_compute; reflexivity|discriminate]|apply list_elem_of_here].
  - split; [done|by left].
  - split_and!; [eapply ipb_canonical; [reflexivity|vm_compute; reflexivity|vm_compute; reflexivity|discriminate]|exact Hmac|apply list_elem_of_here].
  - split_and!; [eapply ipb_canonical; [reflexivity|vm_compute; reflexivity|vm_compute; reflexivity|discriminate]|exact Hmac|apply list_elem_of_here].
  - intros Ha Hb _. apply list_elem_of_singleton in Ha, Hb. congruence.
Qed.

Lemma synced_of {A} (r : A * string) s : snd r = s -> r = (fst r, s).
Proof. destruct r. by intros [= ->]. Qed.

