(* ===== verification/ProxyRequest.v ===== *)
(** Requests to the proxy of ClusterLink: reading the path of a request
(utils/lifted/requestinfo.go) and choosing who answers it (clusterlink/proxy/delegate, the
delegates cache and apiserver, Connect of clusterlink/proxy/controller/controller.go).

The REST mapper of the client library is a parameter. Handlers of HTTP requests are the
constructors of [handler]; what they answer is the client library's. *)
From S2P Require Import Prelude GoStr.

(** * Paths *)

(** [strings.Trim] of one byte, at the left and at the right. *)
Fixpoint TrimLeft (c : ascii) (s : string) : string :=
  match s with
  | EmptyString => EmptyString
  | String d s' => if bool_decide (d = c) then TrimLeft c s' else s
  end.

Fixpoint TrimRight (c : ascii) (s : string) : string :=
  match s with
  | EmptyString => EmptyString
  | String d s' =>
      match TrimRight c s' with
      | EmptyString => if bool_decide (d = c) then EmptyString else String d EmptyString
      | t => String d t
      end
  end.

Definition Trim (c : ascii) (s : string) : string := TrimRight c (TrimLeft c s).

Definition slash : ascii := "/".

Definition SplitPath (path : string) : list string :=
  let path := Trim slash path in
  if str_empty path then [] else Split slash path.

(** * Requests *)

(** [http.Request]: the method, [URL.Path] and the values of "watch" in the query. *)
Record Request := mkRequest { rq_Method : string; rq_Path : string; rq_Watch : list string }.

Record RequestInfo := mkInfo {
  ri_IsResourceRequest : bool; ri_Verb : string; ri_APIPrefix : string; ri_APIGroup : string; ri_APIVersion : string;
  ri_Namespace : string; ri_Resource : string; ri_Subresource : string; ri_Name : string; ri_Parts : list string }.

Definition member (l : list string) (s : string) : bool := bool_decide (s ∈ l).

Definition apiPrefixes : string -> bool := member ["apis"; "api"].
Definition grouplessAPIPrefixes : string -> bool := member ["api"].
Definition specialVerbsNoSubresources : string -> bool := member ["proxy"].
Definition namespaceSubresources : string -> bool := member ["status"; "finalize"].
Definition specialVerbs : string -> bool := member ["proxy"; "watch"].

Definition method_verb (method : string) : string :=
  if method =s "POST" then "create"
  else if (method =s "GET") || (method =s "HEAD") then "get"
  else if method =s "PUT" then "update"
  else if method =s "PATCH" then "patch"
  else if method =s "DELETE" then "delete"
  else "".

(** [opts.Watch] *)
Definition asks_watch (values : list string) : bool :=
  match values with [] => false | v :: _ => negb (member ["false"; "0"] (ToLower v)) end.

(** The namespace of the request and the parts from the resource on. *)
Definition namespace_parts (parts : list string) : string * list string :=
  match parts with
  | first :: namespace :: rest =>
      if first =s "namespaces" then
        match rest with
        | next :: _ => if negb (namespaceSubresources next) then (namespace, rest) else (namespace, parts)
        | [] => (namespace, parts)
        end
      else ("", parts)
  | _ => ("", parts)
  end.

(** The verb once it is known whether the request has a name. *)
Definition named_verb (verb name : string) (watch : list string) : string :=
  if str_empty name && (verb =s "get") then if asks_watch watch then "watch" else "list"
  else if str_empty name && (verb =s "delete") then "deletecollection"
  else verb.

Definition resource_info (req : Request) (prefix group version verb : string) (currentParts : list string) : outcome RequestInfo :=
  match currentParts with
  | [] => Panic
  | _ =>
      let '(namespace, parts) := namespace_parts currentParts in
      let subresource := if (3 <=? length parts) && negb (specialVerbsNoSubresources verb) then nth 2 parts "" else "" in
      let name := if 2 <=? length parts then nth 1 parts "" else "" in
      let resource := if 1 <=? length parts then nth 0 parts "" else "" in
      Ret (mkInfo true (named_verb verb name (rq_Watch req)) prefix group version namespace resource subresource name parts)
  end.

(** The part of [NewRequestInfo] from the version on. *)
Definition versioned_info (req : Request) (prefix group : string) (currentParts : list string) : outcome RequestInfo :=
  match currentParts with
  | version :: verb :: rest =>
      if specialVerbs verb then
        match rest with
        | [] => Ret (mkInfo true (ToLower (rq_Method req)) prefix group version "" "" "" "" [])
        | _ => resource_info req prefix group version verb rest
        end
      else resource_info req prefix group version (method_verb (rq_Method req)) (verb :: rest)
  | _ => Panic
  end.

Definition NewRequestInfo (req : Request) : outcome RequestInfo :=
  let plain := fun prefix => Ret (mkInfo false (ToLower (rq_Method req)) prefix "" "" "" "" "" "" []) in
  let currentParts := SplitPath (rq_Path req) in
  if length currentParts <? 3 then plain ""
  else match currentParts with
  | [] => Panic
  | prefix :: currentParts =>
      if negb (apiPrefixes prefix) then plain ""
      else if negb (grouplessAPIPrefixes prefix) then
        if length currentParts <? 3 then plain prefix
        else match currentParts with
             | [] => Panic
             | group :: currentParts => versioned_info req prefix group currentParts
             end
      else versioned_info req prefix "" currentParts
  end.

(** * Delegates *)

Definition gvr : Type := string * string * string.

Record ProxyRequest := mkProxyRequest { pr_Info : RequestInfo; pr_GVR : gvr; pr_ProxyPath : string }.

(** [ListResource(r, r, scope, forceWatch, ..)] and [GetResource(r, scope)] of the cache, the
proxy to the API server, and an answer with an error. *)
Inductive handler := ListResource (g : gvr) (forceWatch : bool) | GetResource (g : gvr) | UpgradeAware (path : string) | ErrorHandler (err : string).

Inductive Delegate := CacheDelegate | ApiserverDelegate.

Definition Order (d : Delegate) : Z := match d with CacheDelegate => 1000 | ApiserverDelegate => 3000 end%Z.

Definition before_delegate (d e : Delegate) : Prop := (Order d <= Order e)%Z.
#[export] Instance before_delegate_dec : RelDecision before_delegate := fun d e => Z.le_dec (Order d) (Order e).

Section proxy.
  (** [store.HasResource], and the errors of [restMapper.KindFor] with [RESTMapping]. *)
  Context (HasResource : gvr -> bool) (Mapping : gvr -> option string).

Definition SupportRequest (d : Delegate) (request : ProxyRequest) : bool :=
  match d with
  | CacheDelegate =>
      ri_IsResourceRequest (pr_Info request) && HasResource (pr_GVR request) && str_empty (ri_Subresource (pr_Info request)) &&
      ((ri_Verb (pr_Info request) =s "get") || (ri_Verb (pr_Info request) =s "list") || (ri_Verb (pr_Info request) =s "watch"))
  | ApiserverDelegate => true
  end.

Definition cache_Connect (request : ProxyRequest) : result handler :=
  match Mapping (pr_GVR request) with
  | Some err => inr err
  | None =>
      inl (if (ri_Verb (pr_Info request) =s "watch") || str_empty (ri_Name (pr_Info request))
           then ListResource (pr_GVR request) false else GetResource (pr_GVR request))
  end.

Definition delegate_Connect (d : Delegate) (request : ProxyRequest) : result handler :=
  match d with
  | CacheDelegate => cache_Connect request
  | ApiserverDelegate => inl (UpgradeAware (pr_ProxyPath request))
  end.

Definition newDelegates : list Delegate := [CacheDelegate; ApiserverDelegate].

Definition NewDelegateChain (delegateList : list Delegate) : list Delegate :=
  merge_sort before_delegate delegateList.

Definition selectDelegate (chain : list Delegate) (request : ProxyRequest) : result Delegate :=
  match first (fun d => SupportRequest d request) chain with
  | Some d => inl d
  | None => inr ("no plugin found for request: " +:+ ri_Verb (pr_Info request) +:+ " ")
  end.

Definition chain_Connect (chain : list Delegate) (request : ProxyRequest) : result handler :=
  match selectDelegate chain request with inl d => delegate_Connect d request | inr err => inr err end.

(** [ResourceCacheController.Connect]: the handler that serves [req] when the path behind
the proxy is [proxyPath]. *)
Definition Connect (proxyPath : string) (req : Request) : outcome (RequestInfo * handler) :=
  match NewRequestInfo (mkRequest (rq_Method req) proxyPath (rq_Watch req)) with
  | Panic => Panic
  | Ret info =>
      let g := (ri_APIGroup info, ri_APIVersion info, ri_Resource info) in
      Ret (info, match chain_Connect (NewDelegateChain newDelegates) (mkProxyRequest info g proxyPath) with
                 | inl h => h
                 | inr err => ErrorHandler err
                 end)
  end.

End proxy.

(** * Facts *)

Lemma TrimRight_id c s : c ∉ String.list_ascii_of_string s -> TrimRight c s = s.
Proof.
  induction s as [|d s IH]; intros H; simpl in *; [done|]. rewrite IH by set_solver.
  destruct s; [by rewrite bool_decide_false by set_solver|done].
Qed.

Lemma TrimRight_app c s t : TrimRight c t = t -> t <> EmptyString -> TrimRight c (s +:+ t) = s +:+ t.
Proof.
  intros Ht Hne. induction s as [|d s IH]; [by rewrite str_app_nil_l|]. rewrite str_app_cons. simpl. rewrite IH.
  destruct (s +:+ t) eqn:E; [|done]. destruct s, t; done.
Qed.

(** A part of a path. *)
Definition segment (s : string) : Prop := s <> EmptyString /\ slash ∉ String.list_ascii_of_string s.
#[export] Instance segment_dec s : Decision (segment s). Proof. unfold segment. apply _. Defined.

Lemma Join_trimmed l : l <> [] -> Forall segment l ->
  TrimRight slash (Join "/" l) = Join "/" l /\ Join "/" l <> EmptyString.
Proof.
  induction l as [|x l IH]; intros Hne Hf; [done|]. apply Forall_cons_iff in Hf as [[Hx Hs] Hf].
  destruct l as [|y l]; [simpl; split; [by apply TrimRight_id|done]|].
  destruct IH as [E Hj]; [done..|].
  change (Join "/" (x :: y :: l)) with (x +:+ ("/" +:+ Join "/" (y :: l))). rewrite <- str_app_assoc.
  split; [by apply TrimRight_app|by destruct x].
Qed.

(** The parts of a path that was put together from them. *)
Lemma SplitPath_Join l : l <> [] -> Forall segment l -> SplitPath ("/" +:+ Join "/" l) = l.
Proof.
  intros Hne Hf. destruct (Join_trimmed l) as [E Hj]; [done..|]. unfold SplitPath, Trim.
  assert (TrimLeft slash ("/" +:+ Join "/" l) = Join "/" l) as ->.
  { destruct l as [|x l]; [done|]. apply Forall_cons_iff in Hf as [[Hx Hs] _]. destruct x as [|c x]; [done|].
    destruct l; simpl; rewrite bool_decide_false by (simpl in Hs; set_solver); done. }
  rewrite E. apply str_empty_false in Hj as ->. apply (Split_Join slash); [done|].
  eapply Forall_impl; [|exact Hf]. by intros x [_ H].
Qed.

Lemma selected_cases HasResource request :
  selectDelegate HasResource (NewDelegateChain newDelegates) request =
  inl (if SupportRequest HasResource CacheDelegate request then CacheDelegate else ApiserverDelegate).
Proof. by unfold selectDelegate; simpl; destruct (_ && _ && _ && _). Qed.


(** ** What a path is about *)

(** A resource, an object of it or a part of the object; a cluster-wide one has no namespace. *)
Record target := mkTarget { t_Group : string; t_Version : string; t_Namespace : string; t_Resource : string; t_Name : string; t_Sub : string }.

Definition optional (s : string) : list string := if str_empty s then [] else [s].

Definition target_parts (t : target) : list string := t_Resource t :: optional (t_Name t) ++ optional (t_Sub t).

Definition target_segments (t : target) : list string :=
  (if str_empty (t_Group t) then ["api"] else ["apis"; t_Group t]) ++ [t_Version t] ++
  (if str_empty (t_Namespace t) then [] else ["namespaces"; t_Namespace t]) ++ target_parts t.

(** The path of a target, as the API documents it. *)
Definition target_path (t : target) : string := "/" +:+ Join "/" (target_segments t).

Definition target_gvr (t : target) : gvr := (t_Group t, t_Version t, t_Resource t).

(** Names without slashes, and no resource that the path would hide: a verb for the whole
cluster, a part of a namespace in a namespace. Of namespaces only their own parts. *)
Record well_formed (t : target) : Prop := {
  wf_segments : Forall segment (target_segments t);
  wf_named : t_Name t = "" -> t_Sub t = "";
  wf_cluster : t_Namespace t = "" -> t_Resource t <> "proxy" /\ t_Resource t <> "watch";
  wf_namespaced : t_Namespace t <> "" -> t_Resource t <> "status" /\ t_Resource t <> "finalize" /\ t_Resource t <> "namespaces";
  wf_namespace : t_Resource t = "namespaces" -> t_Sub t = "" \/ t_Sub t = "status" \/ t_Sub t = "finalize" }.

(** A namespace is in itself. *)
Definition target_namespace (t : target) : string :=
  if t_Resource t =s "namespaces" then t_Name t else t_Namespace t.

Definition read_method (method : string) : Prop := method = "GET" \/ method = "HEAD".


Lemma namespace_parts_cluster t : well_formed t -> t_Namespace t = "" ->
  namespace_parts (target_parts t) = (target_namespace t, target_parts t).
Proof.
  intros [_ Hn _ _ Hs] E. unfold target_namespace, target_parts. rewrite E.
  destruct (decide (t_Resource t = "namespaces")) as [Er|Er].
  - rewrite bool_decide_true by done. rewrite Er. unfold optional.
    destruct (t_Name t) as [|a n] eqn:En; [by rewrite Hn|].
    destruct (Hs Er) as [-> |[-> | ->]]; done.
  - rewrite bool_decide_false by done. unfold namespace_parts. rewrite bool_decide_false by done. by destruct (optional _ ++ _).
Qed.

Lemma namespace_parts_inside t : well_formed t -> t_Namespace t <> "" ->
  namespace_parts ("namespaces"%string :: t_Namespace t :: target_parts t) = (target_namespace t, target_parts t).
Proof.
  intros Hw E. destruct (wf_namespaced t Hw E) as (H1 & H2 & H3). unfold target_namespace. rewrite (bool_decide_false (_ = _)) by done.
  unfold namespace_parts. rewrite bool_decide_true by done. unfold target_parts at 1. unfold namespaceSubresources, member. by rewrite bool_decide_false by set_solver.
Qed.

Lemma read_parts t verb : well_formed t -> verb <> "proxy" ->
  let parts := target_parts t in
  (if (3 <=? length parts) && negb (specialVerbsNoSubresources verb) then nth 2 parts "" else "") = t_Sub t /\
  (if 2 <=? length parts then nth 1 parts "" else "") = t_Name t.
Proof.
  intros Hw Hv. unfold specialVerbsNoSubresources, member, target_parts, optional. rewrite bool_decide_false by set_solver.
  destruct (t_Name t) eqn:En; [rewrite (wf_named t Hw) by done; done|]. by destruct (t_Sub t).
Qed.

Lemma method_verb_plain method : method_verb method <> "proxy".
Proof. unfold method_verb. by repeat case_match. Qed.

(** The target is read back from its path. *)
Lemma target_read t method watch : well_formed t ->
  NewRequestInfo (mkRequest method (target_path t) watch) =
  Ret (mkInfo true (named_verb (method_verb method) (t_Name t) watch) (if str_empty (t_Group t) then "api" else "apis")
    (t_Group t) (t_Version t) (target_namespace t) (t_Resource t) (t_Sub t) (t_Name t) (target_parts t)).
Proof.
  intros Hw. unfold NewRequestInfo. simpl rq_Path. unfold target_path.
  rewrite SplitPath_Join; [|by unfold target_segments; destruct (str_empty (t_Group t))|apply Hw].
  set (rest := (if str_empty (t_Namespace t) then [] else ["namespaces"; t_Namespace t]) ++ target_parts t).
  assert (Hrest : exists x l, rest = x :: l) by (unfold rest, target_parts; destruct (str_empty (t_Namespace t)); eauto).
  assert (E : forall prefix, versioned_info (mkRequest method (target_path t) watch) prefix (t_Group t) (t_Version t :: rest) =
    Ret (mkInfo true (named_verb (method_verb method) (t_Name t) watch) prefix (t_Group t) (t_Version t) (target_namespace t)
      (t_Resource t) (t_Sub t) (t_Name t) (target_parts t))).
  { intros prefix. destruct (read_parts t (method_verb method) Hw (method_verb_plain _)) as [E1 E2].
    assert (En : namespace_parts rest = (target_namespace t, target_parts t)).
    { unfold rest. destruct (str_empty (t_Namespace t)) eqn:Es.
      - apply namespace_parts_cluster; [done|]. by apply str_empty_true.
      - apply namespace_parts_inside; [done|]. by apply str_empty_false. }
    assert (Hv : specialVerbs (hd "" rest) = false).
    { unfold specialVerbs, member, rest. apply bool_decide_eq_false. destruct (str_empty (t_Namespace t)) eqn:Es.
      - apply str_empty_true in Es. destruct (wf_cluster t Hw Es). simpl. set_solver.
      - simpl. set_solver. }
    destruct Hrest as (x & l & Er). rewrite Er in *. cbn [hd] in Hv. unfold versioned_info. rewrite Hv. unfold resource_info.
    rewrite En. cbv beta iota zeta. cbn [rq_Method rq_Watch]. rewrite E1, E2. done. }
  unfold target_segments. fold rest. destruct (t_Group t) as [|a g] eqn:Eg; simpl str_empty; cbn match.
  - destruct Hrest as (x & l & Er). rewrite Er in *. apply E.
  - destruct Hrest as (x & l & Er). rewrite Er in *. simpl. apply E.
Qed.

(** ** Every request *)

Lemma resource_info_total req prefix group version verb parts : parts <> [] ->
  exists info, resource_info req prefix group version verb parts = Ret info /\ ri_IsResourceRequest info = true.
Proof. destruct parts as [|p l]; [done|]. intros _. unfold resource_info. destruct (namespace_parts _). eauto. Qed.

Lemma versioned_total req prefix group parts : 2 <= length parts ->
  exists info, versioned_info req prefix group parts = Ret info /\ ri_IsResourceRequest info = true.
Proof.
  intros Hl. destruct parts as [|v [|x l]]; simpl in Hl; [lia..|]. unfold versioned_info.
  destruct (specialVerbs x); [destruct l; [eauto|]|]; by apply resource_info_total.
Qed.

(** No index is out of range: every path is read. *)
Lemma NewRequestInfo_total req : exists info, NewRequestInfo req = Ret info.
Proof.
  unfold NewRequestInfo. destruct (SplitPath _) as [|p [|q [|r l]]]; [by eexists..|].
  replace (length (p :: q :: r :: l) <? 3) with false by done.
  destruct (apiPrefixes p); [|by eexists]. simpl negb. destruct (grouplessAPIPrefixes p); simpl negb; cbn match.
  - destruct (versioned_total req p "" (q :: r :: l)) as (info & E & _); [simpl; lia|]. eauto.
  - destruct l as [|u l]; [by eexists|]. replace (length (q :: r :: u :: l) <? 3) with false by done.
    destruct (versioned_total req p q (r :: u :: l)) as (info & E & _); [simpl; lia|]. eauto.
Qed.

(** ** Who answers *)

Section routing.
  Context (HasResource : gvr -> bool) (Mapping : gvr -> option string).

Lemma Connect_cases path req : exists info,
  NewRequestInfo (mkRequest (rq_Method req) path (rq_Watch req)) = Ret info /\
  let request := mkProxyRequest info (ri_APIGroup info, ri_APIVersion info, ri_Resource info) path in
  Connect HasResource Mapping path req = Ret (info,
    if SupportRequest HasResource CacheDelegate request then
      match cache_Connect Mapping request with inl h => h | inr err => ErrorHandler err end
    else UpgradeAware path).
Proof.
  destruct (NewRequestInfo_total (mkRequest (rq_Method req) path (rq_Watch req))) as (info & E). exists info. split; [done|].
  unfold Connect. rewrite E. unfold chain_Connect. rewrite selected_cases. by destruct (SupportRequest _ CacheDelegate _).
Qed.

(** The cache answers reads only. *)
Lemma cached_verbs method name watch :
  let verb := named_verb (method_verb method) name watch in
  (verb =s "get") || (verb =s "list") || (verb =s "watch") = bool_decide (read_method method).
Proof.
  unfold read_method, method_verb, named_verb. destruct (decide (method = "GET")) as [-> |Hg]; [by destruct name, (asks_watch watch)|].
  destruct (decide (method = "HEAD")) as [-> |Hh]; [by destruct name, (asks_watch watch)|].
  rewrite (bool_decide_false (method = "GET" \/ _)) by naive_solver. rewrite !(bool_decide_false _ Hg), !(bool_decide_false _ Hh).
  destruct (method =s "POST"), (method =s "PUT"), (method =s "PATCH"), (method =s "DELETE"); by destruct name.
Qed.

Lemma get_watch method name watch : name <> "" -> named_verb (method_verb method) name watch =s "watch" = false.
Proof. intros Hn. unfold named_verb, method_verb. destruct name; [done|]. by repeat case_match. Qed.

(** C37: a request for something of the API is read as just that, and it is answered from the
cache exactly when it reads a cached kind of resource and not a part of an object: without a
name as a list, with one as an object. Every other request goes to the API server unchanged. *)
Theorem request_routed t method watch path : well_formed t ->
  exists info h, Connect HasResource Mapping (target_path t) (mkRequest method path watch) = Ret (info, h) /\
  (ri_APIGroup info, ri_APIVersion info, ri_Resource info) = target_gvr t /\
  ri_Namespace info = target_namespace t /\ ri_Name info = t_Name t /\ ri_Subresource info = t_Sub t /\
  (HasResource (target_gvr t) = true /\ t_Sub t = "" /\ read_method method ->
    h = match Mapping (target_gvr t) with
        | Some err => ErrorHandler err
        | None => if str_empty (t_Name t) then ListResource (target_gvr t) false else GetResource (target_gvr t)
        end) /\
  (~ (HasResource (target_gvr t) = true /\ t_Sub t = "" /\ read_method method) -> h = UpgradeAware (target_path t)).
Proof.
  intros Hw. destruct (Connect_cases (target_path t) (mkRequest method path watch)) as (info & Ei & Ec).
  cbn [rq_Method rq_Watch] in Ei. rewrite (target_read t method watch Hw) in Ei. injection Ei as <-.
  eexists _, _. split; [exact Ec|]. do 4 (split; [done|]).
  unfold SupportRequest. cbn [pr_Info pr_GVR ri_IsResourceRequest ri_APIGroup ri_APIVersion ri_Resource ri_Subresource ri_Verb].
  rewrite cached_verbs. fold (target_gvr t). split.
  - intros (H1 & H2 & H3). rewrite H1, H2. rewrite bool_decide_true by done. simpl andb. cbn match. unfold cache_Connect. cbn [pr_GVR pr_Info ri_Verb ri_Name].
    destruct (Mapping (target_gvr t)); [done|]. destruct (str_empty (t_Name t)) eqn:En; [by rewrite orb_true_r|].
    apply str_empty_false in En as Hn. rewrite get_watch by done. done.
  - intros Hn. destruct (HasResource (target_gvr t)) eqn:E1; [|done]. destruct (str_empty (t_Sub t)) eqn:E2; [|done].
    apply str_empty_true in E2. rewrite bool_decide_false by naive_solver. done.
Qed.

End routing.

(** * Examples *)

Definition ex_target : target := mkTarget "apps" "v1" "shop" "deployments" "web" "".
Definition ex_cached (g : gvr) : bool := bool_decide (g = ("apps", "v1", "deployments") \/ g = ("", "v1", "pods")).

Lemma request_routed_witness : exists info,
  Connect ex_cached (fun _ => None) "/apis/apps/v1/namespaces/shop/deployments/web" (mkRequest "GET" "" []) =
    Ret (info, GetResource ("apps", "v1", "deployments")) /\ ri_Namespace info = "shop".
Proof.
  assert (Hw : well_formed ex_target).
  { constructor; try done. refine (bool_decide_eq_true_1 _ _); by vm_compute. }
  destruct (request_routed ex_cached (fun _ => None) ex_target "GET" [] "" Hw) as (info & h & E & _ & Hn & _ & _ & Hh & _).
  rewrite Hh in E by (repeat split; by left). exists info. split; [exact E|exact Hn].
Defined.

(** A path with the verb "watch" is read as a watch and answered with a list, since the
query alone asks the handler to watch. *)
Example watch_path_is_listed : exists info,
  Connect ex_cached (fun _ => None) "/api/v1/watch/pods" (mkRequest "GET" "" []) =
    Ret (info, ListResource ("", "v1", "pods") false) /\ ri_Verb info = "watch".
Proof. eexists. by vm_compute. Qed.

(** The log of a pod is not read from the cache, and a short path is none of a resource. *)
Example log_is_proxied : exists info,
  Connect ex_cached (fun _ => None) "/api/v1/namespaces/shop/pods/web-0/log" (mkRequest "GET" "" []) =
    Ret (info, UpgradeAware "/api/v1/namespaces/shop/pods/web-0/log").
Proof. eexists. by vm_compute. Qed.

Example version_is_no_resource : NewRequestInfo (mkRequest "GET" "/apis/apps/v1" []) =
  Ret (mkInfo false "get" "apis" "" "" "" "" "" "" []).
Proof. done. Qed.
