(* ===== verification/ProxyStore.v ===== *)
(** The cache of resources behind the proxy of ClusterLink: clusterlink/proxy/store
(store.go, cluster_cache.go, resource_cache.go, conversion.go), [MultiNamespace] of
utils/utils.go, and syncResourceCache with the queue of clusterlink/proxy/controller/controller.go.

The dynamic client, the REST mapper and the generic registry of the API machinery are
parameters. A running cache of a resource is known by a number, so that stopping one and
starting another in its place can be told apart. *)
From S2P Require Import Prelude GoStr PodProg ProxyRequest.

(** * Sets of namespaces *)

(** A nil set of names reads as an empty one, and it is written only when [IsAll] is false,
when the set is not nil. *)
Record MultiNamespace := mkMulti { IsAll : bool; namespaces : gset string }.

Definition NewMultiNamespace : MultiNamespace := mkMulti false ∅.

Definition HasAll (s : gset string) (items : list string) : bool := forallb (fun item => bool_decide (item ∈ s)) items.

Definition Multi_Add (ns : list string) (n : MultiNamespace) : MultiNamespace :=
  match ns with
  | [] => mkMulti true ∅
  | _ => if IsAll n || HasAll (namespaces n) ns then n else mkMulti false (list_to_set ns ∪ namespaces n)
  end.

Definition Multi_Contains (n : MultiNamespace) (ns : list string) : bool := IsAll n || HasAll (namespaces n) ns.

(** With one element the first of the sorted list is that element. *)
Definition Multi_Single (n : MultiNamespace) : option string :=
  if IsAll n || negb (bool_decide (size (namespaces n) = 1)) then None else head (elements (namespaces n)).

Definition Multi_Equal (n another : MultiNamespace) : bool :=
  if negb (Bool.eqb (IsAll n) (IsAll another)) then false
  else if IsAll n && IsAll another then true
  else bool_decide (namespaces n = namespaces another).

(** * Reading one kind of resource *)

(** An object of the cluster; [po_Managed] are the managed fields. *)
Record ProxyObject := mkProxyObject { po_Namespace : string; po_Name : string; po_Managed : option string; po_Body : string }.

(** What the accessors of metadata are given: only a pointer to an object has them. *)
Inductive any_object := Pointer (o : ProxyObject) | Value (o : ProxyObject) | StatusObject (message : string).

Definition Accessor (o : any_object) : option ProxyObject := match o with Pointer o => Some o | _ => None end.

Definition setEmptyManagedFields (obj : any_object) : any_object :=
  match Accessor obj with
  | Some o => if bool_decide (is_Some (po_Managed o)) then Pointer (mkProxyObject (po_Namespace o) (po_Name o) None (po_Body o)) else obj
  | None => obj
  end.

Definition objectFilter (ns : MultiNamespace) (o : any_object) : bool :=
  match Accessor o with None => true | Some accessor => Multi_Contains ns [po_Namespace accessor] end.

(** The namespace to ask for, the filter if there is one; nothing when nothing is cached. *)
Definition filterNS (cached : MultiNamespace) (request : string) : option (string * option (any_object -> bool)) :=
  if IsAll cached then Some (request, None)
  else match Multi_Single cached with
  | Some ns => if str_empty request || (request =s ns) then Some (ns, None) else None
  | None =>
      if str_empty request then Some ("", Some (objectFilter cached))
      else if Multi_Contains cached [request] then Some (request, None)
      else None
  end.

(** The options of a list, as the storage has them and as the client wants them; selectors
are printed. *)
Record SelectionPredicate := mkPredicate { sp_Label : string; sp_Field : string; sp_Bookmarks : bool; sp_Limit : Z; sp_Continue : string }.
Record StorageListOptions := mkStorageList { sl_ResourceVersion : string; sl_Match : string; sl_Predicate : SelectionPredicate }.
Record ListOptions := mkListOptions {
  lo_LabelSelector : string; lo_FieldSelector : string; lo_AllowWatchBookmarks : bool; lo_ResourceVersion : string;
  lo_ResourceVersionMatch : string; lo_Limit : Z; lo_Continue : string }.

Definition convertToMetaV1ListOptions (o : StorageListOptions) : ListOptions :=
  mkListOptions (sp_Label (sl_Predicate o)) (sp_Field (sl_Predicate o)) (sp_Bookmarks (sl_Predicate o)) (sl_ResourceVersion o)
    (sl_Match o) (sp_Limit (sl_Predicate o)) (sp_Continue (sl_Predicate o)).

(** The dynamic client of a resource: [newClientFunc], and reads in a namespace or, for the
empty one, in all. A watch delivers events with their types. *)
Record DynamicClient := mkClient {
  newClientFunc : option string;
  client_Get : string -> string -> string -> ProxyObject + apierr;
  client_List : string -> ListOptions -> list ProxyObject + apierr;
  client_Watch : string -> ListOptions -> list (string * any_object) + apierr }.

Record store := mkStore { st_gvr : gvr; st_namespace : MultiNamespace; st_client : DynamicClient; st_prefix : string }.

Definition splitKey (s : store) (key : string) : string * string :=
  let k := TrimPrefix key (st_prefix s) in
  let k := TrimPrefix k "/" in
  match cut "/" k with Some (part0, part1) => (part0, part1) | None => (k, "") end.

(** [client]; the namespace goes with the reads. *)
Definition store_client (s : store) : unit + apierr :=
  match newClientFunc (st_client s) with Some err => inr (OtherError err) | None => inl tt end.

Definition store_Get (s : store) (key resourceVersion : string) : ProxyObject + apierr :=
  let '(part1, part2) := splitKey s key in
  let '(namespace, name) := if str_empty part2 then ("", part1) else (part1, part2) in
  if negb (str_empty namespace) && negb (Multi_Contains (st_namespace s) [namespace]) then inr (IsNotFound name)
  else match store_client s with
  | inr err => inr err
  | inl _ =>
      match client_Get (st_client s) namespace name resourceVersion with
      | inr err => inr err
      | inl obj => match setEmptyManagedFields (Pointer obj) with Pointer o | Value o => inl o | StatusObject _ => inl obj end
      end
  end.

(** The loop of [List]: every item is an object and not a pointer to one, but the filter gets
a pointer. *)
Fixpoint filter_items (objFilter : option (any_object -> bool)) (items : list ProxyObject) : list ProxyObject :=
  match items with
  | [] => []
  | obj :: rest =>
      let obj := match setEmptyManagedFields (Value obj) with Pointer o | Value o => o | StatusObject _ => obj end in
      match objFilter with
      | Some f => if f (Pointer obj) then obj :: filter_items objFilter rest else filter_items objFilter rest
      | None => filter_items objFilter rest
      end
  end.

Definition store_List (s : store) (key : string) (opts : StorageListOptions) : list ProxyObject + apierr :=
  let '(namespace, _) := splitKey s key in
  match filterNS (st_namespace s) namespace with
  | None => inl []
  | Some (reqNS, objFilter) =>
      match store_client s with
      | inr err => inr err
      | inl _ =>
          match client_List (st_client s) reqNS (convertToMetaV1ListOptions opts) with
          | inr (IsNotFound _) => inl []
          | inr err => inr err
          | inl items =>
              let filteredItems := filter_items objFilter items in
              inl (if 0 <? length filteredItems then filteredItems else items)
          end
      end
  end.

Definition watch_event (objFilter : option (any_object -> bool)) (ev : string * any_object) : option (string * any_object) :=
  let ev := (fst ev, setEmptyManagedFields (snd ev)) in
  match objFilter with Some f => if f (snd ev) then Some ev else None | None => Some ev end.

Definition store_Watch (s : store) (key : string) (opts : StorageListOptions) : list (string * any_object) + apierr :=
  let '(namespace, _) := splitKey s key in
  match filterNS (st_namespace s) namespace with
  | None => inl []
  | Some (reqNS, objFilter) =>
      match store_client s with
      | inr err => inr err
      | inl _ =>
          match client_Watch (st_client s) reqNS (convertToMetaV1ListOptions opts) with
          | inr err => inr err
          | inl events => inl (collect (watch_event objFilter) events)
          end
      end
  end.

Definition store_Create : option string := Some "create is not suppported in proxy store".
Definition store_Delete : option string := Some "delete is not suppported in proxy store".
Definition store_GuaranteedUpdate : option string := Some "update is not suppported in proxy store".
Definition store_Count : Z * option string := (0%Z, Some "count is not suppported in proxy store").

(** [getAttrsFunc]: labels are the object's; the fields that can be selected. *)
Definition getAttrs (namespaced : bool) (o : ProxyObject) : list (string * string) :=
  if namespaced then [("metadata.name", po_Name o); ("metadata.namespace", po_Namespace o)] else [("metadata.name", po_Name o)].

(** * All caches *)

Record resourceCache := mkResourceCache { rc_id : nat; rc_namespaced : bool; rc_namespaces : MultiNamespace }.

(** [cc_next] caches were started so far; [cc_stopped] were stopped. *)
Record ClusterCache := mkClusterCache { cc_next : nat; cc_cache : gmap gvr resourceCache; cc_stopped : list nat }.

(** A selector of a ResourceCache. *)
Record ResourceCacheSelector := mkSelector { rs_APIVersion : string; rs_Kind : string; rs_Namespace : list string }.

Section caches.
  (** Scope of a resource by [KindFor] and [RESTMapping]; [CompleteWithOptions]; the resource
  of an API version and kind. *)
  Context (scope_of : gvr -> result bool) (CompleteWithOptions : gvr -> option string).
  Context (getGroupVersionResource : string -> string -> result gvr).
  (** The order of iteration over a map. *)
  Context (range : forall V : Type, gmap gvr V -> list (gvr * V)).

Definition newResourceCache (g : gvr) (namespaced : bool) (multiNS : MultiNamespace) (c : ClusterCache) : ClusterCache * result resourceCache :=
  match CompleteWithOptions g with
  | Some err => (c, inr err)
  | None => (mkClusterCache (S (cc_next c)) (cc_cache c) (cc_stopped c), inl (mkResourceCache (cc_next c) namespaced multiNS))
  end.

Definition remove_cache (resources : gmap gvr MultiNamespace) (c : ClusterCache) (e : gvr * resourceCache) : ClusterCache :=
  let '(g, rc) := e in
  let wanted := match resources !! g with Some namespaces => Multi_Equal (rc_namespaces rc) namespaces | None => false end in
  if wanted then c else mkClusterCache (cc_next c) (delete g (cc_cache c)) (rc_id rc :: cc_stopped c).

Fixpoint add_caches (resources : list (gvr * MultiNamespace)) (c : ClusterCache) : ClusterCache * option string :=
  match resources with
  | [] => (c, None)
  | (g, namespaces) :: rest =>
      match cc_cache c !! g with
      | Some _ => add_caches rest c
      | None =>
          match scope_of g with
          | inr err => (c, Some err)
          | inl namespaced =>
              match newResourceCache g namespaced namespaces c with
              | (c, inr err) => (c, Some err)
              | (c, inl cache) => add_caches rest (mkClusterCache (cc_next c) (<[g := cache]> (cc_cache c)) (cc_stopped c))
              end
          end
      end
  end.

Definition UpdateCache (resources : gmap gvr MultiNamespace) (c : ClusterCache) : ClusterCache * option string :=
  let c := fold_left (remove_cache resources) (range _ (cc_cache c)) c in
  add_caches (range _ resources) c.

Definition Cache_Stop (c : ClusterCache) : ClusterCache :=
  mkClusterCache (cc_next c) (cc_cache c) (map (fun e => rc_id (snd e)) (range _ (cc_cache c)) ++ cc_stopped c).

Definition Cache_HasResource (c : ClusterCache) (g : gvr) : bool := bool_decide (is_Some (cc_cache c !! g)).

(** [Get], [List] and [Watch] of the generic registry of a cache are parameters of these. *)
Definition Cache_Get {A} (c : ClusterCache) (g : gvr) (rc_Get : resourceCache -> result A) : result A :=
  match cc_cache c !! g with None => inr "can not find gvr" | Some rc => rc_Get rc end.

Definition Cache_List {A} (c : ClusterCache) (g : gvr) (resourceVersion : string) (rc_List : resourceCache -> string -> result A) : result A :=
  match cc_cache c !! g with
  | None => inr "can not find target gvr"
  | Some rc => rc_List rc (if str_empty resourceVersion then "0" else resourceVersion)
  end.

Definition Cache_Watch {A} (c : ClusterCache) (g : gvr) (resourceVersion : string) (rc_Watch : resourceCache -> string -> result A) : result A :=
  match cc_cache c !! g with None => inr "can not find target gvr" | Some rc => rc_Watch rc resourceVersion end.

(** * The controller *)

Definition select_resource (cachedResources : gmap gvr MultiNamespace) (selector : ResourceCacheSelector) : gmap gvr MultiNamespace :=
  match getGroupVersionResource (rs_APIVersion selector) (rs_Kind selector) with
  | inr _ => cachedResources
  | inl g =>
      let nsSelector := default NewMultiNamespace (cachedResources !! g) in
      <[g := Multi_Add (rs_Namespace selector) nsSelector]> cachedResources
  end.

(** The ResourceCaches of the lister, with the selectors of each. *)
Definition syncResourceCache (lister : result (list (list ResourceCacheSelector))) (c : ClusterCache) : ClusterCache * option string :=
  match lister with
  | inr err => (c, Some err)
  | inl resourcesCaches => UpdateCache (fold_left (fun m selectors => fold_left select_resource selectors m) resourcesCaches ∅) c
  end.

End caches.

(** ** The queue of the controller *)

Definition maxRetries : nat := 15.

(** What is done with a key after its synchronisation, by the number of times it was put back. *)
Inductive queue_action := Forget | AddRateLimited.

Definition handleErr (err : option string) (terminating : string -> bool) (requeues : nat) : queue_action :=
  match err with
  | None => Forget
  | Some e => if terminating e then Forget else if requeues <? maxRetries then AddRateLimited else Forget
  end.

(** [processNextWorkItem] for one key as long as it comes back: the number of
synchronisations until it is forgotten, with [fuel] of them looked at. *)
Fixpoint process_key {S} (syncHandler : S -> S * option string) (terminating : string -> bool) (fuel requeues : nat) (s : S) : S * option nat :=
  match fuel with
  | 0 => (s, None)
  | Datatypes.S fuel =>
      let '(s, err) := syncHandler s in
      match handleErr err terminating requeues with
      | Forget => (s, Some (Datatypes.S requeues))
      | AddRateLimited => process_key syncHandler terminating fuel (Datatypes.S requeues) s
      end
  end.

(** * Facts: namespaces *)

Lemma HasAll_spec s l : HasAll s l = true <-> forall x, x ∈ l -> x ∈ s.
Proof.
  unfold HasAll. rewrite forallb_forall. split.
  - intros H x Hx. apply list_elem_of_In, H in Hx. by breflect.
  - intros H x Hx%list_elem_of_In. by apply bool_decide_eq_true, H.
Qed.

(** A namespace is in a set. *)
Definition in_multi (n : MultiNamespace) (ns : string) : Prop := IsAll n = true \/ ns ∈ namespaces n.

Lemma Contains_one n ns : Multi_Contains n [ns] = true <-> in_multi n ns.
Proof. unfold Multi_Contains, in_multi. rewrite orb_true_iff, HasAll_spec. set_solver. Qed.

Lemma Add_spec l n : (IsAll n = true -> namespaces n = ∅) ->
  let m := Multi_Add l n in
  (IsAll m = true <-> IsAll n = true \/ l = []) /\ (IsAll m = true -> namespaces m = ∅) /\
  (IsAll m = false -> namespaces m = list_to_set l ∪ namespaces n).
Proof.
  intros Hc. destruct l as [|x l]; [simpl; split_and!; [split; by eauto|done|done]|]. unfold Multi_Add.
  destruct (IsAll n) eqn:Ea; cbv [orb].
  - rewrite Ea. split_and!; [by split; eauto|done|done].
  - assert (H0 : false = true <-> false = true \/ x :: l = []) by (split; [by left|by intros []]).
    destruct (HasAll (namespaces n) (x :: l)) eqn:Eh; cbv iota; [rewrite Ea|simpl IsAll]; (split_and!; [exact H0|done|]); intros _; [|done].
    rewrite HasAll_spec in Eh. apply leibniz_equiv. set_solver.
Qed.

Lemma Single_spec n ns : Multi_Single n = Some ns -> IsAll n = false /\ namespaces n = {[ ns ]}.
Proof.
  unfold Multi_Single. destruct (IsAll n); [done|]. simpl. case_bool_decide as Hs; [|done]. simpl. intros E. split; [done|].
  apply size_1_elem_of in Hs as [x Hx]. apply leibniz_equiv in Hx. rewrite Hx in *. rewrite elements_singleton in E. by simplify_eq/=.
Qed.

Lemma Equal_spec n m : Multi_Equal n m = true <->
  IsAll n = IsAll m /\ (IsAll n = false -> namespaces n = namespaces m).
Proof.
  unfold Multi_Equal. destruct (IsAll n), (IsAll m); simpl; try naive_solver. rewrite bool_decide_eq_true. naive_solver.
Qed.

(** ** Reads *)

(** An object that a reader of [request] ("" for all) may see. *)
Definition visible (cached : MultiNamespace) (request : string) (o : ProxyObject) : Prop :=
  (request = "" \/ po_Namespace o = request) /\ in_multi cached (po_Namespace o).
#[export] Instance visible_dec cached request o : Decision (visible cached request o).
Proof. unfold visible, in_multi. apply _. Defined.

(** What the client answers for a namespace. *)
Definition asked (ns : string) (o : ProxyObject) : Prop := ns = "" \/ po_Namespace o = ns.
#[export] Instance asked_dec ns o : Decision (asked ns o).
Proof. unfold asked. apply _. Defined.

Definition bare (o : ProxyObject) : ProxyObject := mkProxyObject (po_Namespace o) (po_Name o) None (po_Body o).

Lemma bare_pointer o : setEmptyManagedFields (Pointer o) = Pointer (bare o).
Proof. unfold setEmptyManagedFields, bare. simpl. case_bool_decide as H; [done|]. destruct o as [? ? [f|] ?]; [by destruct H|done]. Qed.

(** Which objects a request with [filterNS] is about, and that a filter is needed only for
several namespaces at once. *)
Lemma filterNS_spec cached request : "" ∉ namespaces cached ->
  match filterNS cached request with
  | None => request <> "" /\ forall o, ~ visible cached request o
  | Some (reqNS, None) =>
      (request = "" -> IsAll cached = true \/ exists ns, namespaces cached = {[ ns ]}) /\ forall o, visible cached request o <-> asked reqNS o
  | Some (reqNS, Some f) =>
      reqNS = "" /\ request = "" /\ IsAll cached = false /\ (forall ns, namespaces cached <> {[ ns ]}) /\
      (forall o, f (Pointer o) = true <-> visible cached request o) /\ (forall msg, f (StatusObject msg) = true)
  end.
Proof.
  intros He. unfold filterNS, visible, asked. destruct (IsAll cached) eqn:Ea; [split; [by left|]; intros o; unfold in_multi; naive_solver|].
  destruct (Multi_Single cached) as [ns|] eqn:Es.
  - apply Single_spec in Es as [_ Es]. unfold in_multi. rewrite Ea, Es in *. destruct (str_empty request) eqn:Er.
    + apply str_empty_true in Er as ->. simpl. split; [eauto|]. set_solver.
    + apply str_empty_false in Er. simpl. case_bool_decide as Hn; [subst|]; split; [done|set_solver|done|set_solver].
  - destruct (str_empty request) eqn:Er.
    + apply str_empty_true in Er as ->. split_and!; [done..| | |done].
      * intros ns E. unfold Multi_Single in Es. rewrite Ea, E, size_singleton, elements_singleton in Es. done.
      * intros o. unfold objectFilter. simpl. rewrite Contains_one. naive_solver.
    + apply str_empty_false in Er. destruct (Multi_Contains cached [request]) eqn:Ec.
      * apply Contains_one in Ec. naive_solver.
      * assert (~ in_multi cached request) by (rewrite <- Contains_one; congruence). naive_solver.
Qed.

Lemma filter_items_None items : filter_items None items = [].
Proof. by induction items. Qed.

Lemma filter_items_Some f items : filter_items (Some f) items = List.filter (fun o => f (Pointer o)) items.
Proof. induction items as [|o l IH]; simpl; [done|]. by rewrite IH. Qed.

Lemma bool_decides (b : bool) (P : Prop) `{!Decision P} : (b = true <-> P) -> b = bool_decide P.
Proof. intros HP. destruct b; symmetry; [apply bool_decide_eq_true|apply bool_decide_eq_false]; naive_solver. Qed.

Lemma filter_iff {A} (P Q : A -> Prop) `{!forall x, Decision (P x)} `{!forall x, Decision (Q x)} l :
  (forall x, P x <-> Q x) -> List.filter (fun x => bool_decide (P x)) l = List.filter (fun x => bool_decide (Q x)) l.
Proof. intros HPQ. apply filter_ext. intros x. by apply bool_decide_ext. Qed.

(** ** Keys *)

Lemma slash_prefix s : slash ∉ String.list_ascii_of_string s -> HasPrefix s "/" = false.
Proof. destruct s as [|c s]; intros H; [done|]. simpl in *. rewrite bool_decide_false by set_solver. done. Qed.

Lemma cut_none s : slash ∉ String.list_ascii_of_string s -> cut "/" s = None.
Proof.
  induction s as [|c s IH]; intros H; [done|]. pose proof (slash_prefix _ H) as Hp. simpl in *. rewrite Hp. rewrite IH by set_solver. done.
Qed.

Lemma cut_slash s t : slash ∉ String.list_ascii_of_string s -> cut "/" (s +:+ "/" +:+ t) = Some (s, t).
Proof.
  induction s as [|c s IH]; intros H.
  { rewrite str_app_nil_l. pose proof (HasPrefix_app "/" t) as E1. pose proof (drop_prefix_app "/" t) as E2.
    change ("/" +:+ t) with (String slash t) in *. cbn [cut]. by rewrite E1, E2. }
  rewrite str_app_cons. cbn [cut].
  assert (HasPrefix (String c (s +:+ "/" +:+ t)) "/" = false) as ->
    by (simpl in *; rewrite bool_decide_false by set_solver; done).
  rewrite IH by (simpl in H; set_solver). done.
Qed.

Lemma TrimPrefix_self s : TrimPrefix s s = "".
Proof. rewrite <- (str_app_nil_r s) at 1. apply TrimPrefix_app. Qed.

(** The keys of the storage: a kind, a namespace of it, an object in a namespace. *)
Definition list_key (s : store) (request : string) : string :=
  if str_empty request then st_prefix s else st_prefix s +:+ "/" +:+ request.
Definition object_key (s : store) (ns name : string) : string := st_prefix s +:+ "/" +:+ ns +:+ "/" +:+ name.

Lemma splitKey_list s request : slash ∉ String.list_ascii_of_string request -> splitKey s (list_key s request) = (request, "").
Proof.
  intros H. unfold splitKey, list_key. destruct (str_empty request) eqn:E.
  - apply str_empty_true in E as ->. by rewrite TrimPrefix_self.
  - rewrite !TrimPrefix_app. by rewrite cut_none.
Qed.

Lemma splitKey_object s ns name : segment ns -> splitKey s (object_key s ns name) = (ns, name).
Proof. intros [_ H]. unfold splitKey, object_key. rewrite !TrimPrefix_app. by rewrite cut_slash. Qed.

(** ** A client of a cluster *)

(** The cluster has [objects] for the options of a list and reports [events]. *)
Record serves (cl : DynamicClient) (objects : ListOptions -> list ProxyObject) (events : ListOptions -> list (string * ProxyObject)) : Prop := {
  serves_client : newClientFunc cl = None;
  serves_list : forall ns opts, client_List cl ns opts = inl (List.filter (fun o => bool_decide (asked ns o)) (objects opts));
  serves_watch : forall ns opts, client_Watch cl ns opts =
    inl (map (fun ev => (fst ev, Pointer (snd ev))) (List.filter (fun ev => bool_decide (asked ns (snd ev))) (events opts))) }.

Lemma filter_all {A} (p : A -> bool) l : (forall x, p x = true) -> List.filter p l = l.
Proof. intros H. induction l as [|x l IH]; simpl; [done|]. by rewrite H, IH. Qed.

Lemma filter_none {A} (p : A -> bool) l : (forall x, x ∈ l -> p x = false) -> List.filter p l = [].
Proof. intros H. induction l as [|x l IH]; simpl; [done|]. rewrite H by by left. apply IH. intros y Hy. apply H. by right. Qed.

Lemma collect_pointers f l :
  collect (watch_event f) (map (fun ev => (fst ev, Pointer (snd ev))) l) =
  map (fun ev => (fst ev, Pointer (bare (snd ev))))
    (List.filter (fun ev => match f with Some f => f (Pointer (bare (snd ev))) | None => true end) l).
Proof.
  induction l as [|[ty o] l IH]; [done|]. cbn [map collect List.filter fst snd]. unfold watch_event at 1. cbn [fst snd].
  rewrite bare_pointer. destruct f as [f|]; [destruct (f (Pointer (bare o)))|]; simpl; by rewrite IH.
Qed.

Lemma visible_bare cached request o : visible cached request (bare o) <-> visible cached request o.
Proof. done. Qed.

(** The cases in which [List] has to filter and finds nothing. *)
Definition lists_nothing (cached : MultiNamespace) (request : string) (objects : list ProxyObject) : Prop :=
  request = "" /\ IsAll cached = false /\ (forall ns, namespaces cached <> {[ ns ]}) /\ forall o, o ∈ objects -> ~ in_multi cached (po_Namespace o).

Lemma store_List_spec s request objects events opts :
  "" ∉ namespaces (st_namespace s) -> slash ∉ String.list_ascii_of_string request -> serves (st_client s) objects events ->
  let l := objects (convertToMetaV1ListOptions opts) in
  (~ lists_nothing (st_namespace s) request l ->
     store_List s (list_key s request) opts = inl (List.filter (fun o => bool_decide (visible (st_namespace s) request o)) l)) /\
  (lists_nothing (st_namespace s) request l -> store_List s (list_key s request) opts = inl l).
Proof.
  intros He Hs Hc. intros l. unfold store_List. rewrite splitKey_list by done.
  pose proof (filterNS_spec (st_namespace s) request He) as Hf. destruct (filterNS (st_namespace s) request) as [[reqNS [f|]]|] eqn:E.
  - destruct Hf as (-> & -> & Ha & Hn & Hv & _). unfold store_client. rewrite (serves_client _ _ _ Hc), (serves_list _ _ _ Hc).
    rewrite filter_all by (intros o; apply bool_decide_eq_true; by left). rewrite filter_items_Some. fold l.
    assert (Ef : List.filter (fun o => f (Pointer o)) l = List.filter (fun o => bool_decide (visible (st_namespace s) "" o)) l).
    { apply filter_ext. intros o. apply bool_decides, Hv. }
    rewrite Ef. clear Ef. split.
    + intros Hln. destruct (List.filter _ l) as [|o fl] eqn:El; [|done]. exfalso. apply Hln. split_and!; [done..|].
      intros o Ho Hi. assert (Hx : o ∈ List.filter (fun o => bool_decide (visible (st_namespace s) "" o)) l)
        by (apply list_filter_spec; split; [done|]; apply bool_decide_eq_true; split; [by left|done]).
      rewrite El in Hx. by apply not_elem_of_nil in Hx.
    + intros (_ & _ & _ & Hno). rewrite filter_none; [done|]. intros o Ho. apply bool_decide_eq_false. intros [_ Hi]. by apply (Hno o).
  - unfold store_client. rewrite (serves_client _ _ _ Hc), (serves_list _ _ _ Hc), filter_items_None. simpl. fold l.
    destruct Hf as [Hr Hf]. rewrite (filter_iff _ _ l (fun o => iff_sym (Hf o))). split; [done|]. intros (-> & Ha & Hn & _).
    destruct Hr as [?|[ns ?]]; [done|congruence|]. by destruct (Hn ns).
  - destruct Hf as [Hr Hf]. split; [|by intros [? _]]. intros _. f_equal. symmetry. apply filter_none. intros o _. by apply bool_decide_eq_false.
Qed.

Lemma store_Watch_spec s request objects events opts :
  "" ∉ namespaces (st_namespace s) -> slash ∉ String.list_ascii_of_string request -> serves (st_client s) objects events ->
  store_Watch s (list_key s request) opts =
  inl (map (fun ev => (fst ev, Pointer (bare (snd ev))))
    (List.filter (fun ev => bool_decide (visible (st_namespace s) request (snd ev))) (events (convertToMetaV1ListOptions opts)))).
Proof.
  intros He Hs Hc. unfold store_Watch. rewrite splitKey_list by done.
  pose proof (filterNS_spec (st_namespace s) request He) as Hf. destruct (filterNS (st_namespace s) request) as [[reqNS [f|]]|] eqn:E.
  - destruct Hf as (-> & -> & _ & _ & Hv & _). unfold store_client. rewrite (serves_client _ _ _ Hc), (serves_watch _ _ _ Hc), collect_pointers.
    rewrite (filter_all (fun ev => bool_decide (asked "" _))) by (intros o; apply bool_decide_eq_true; by left).
    do 2 f_equal. apply filter_ext. intros ev. apply bool_decides. rewrite Hv. apply visible_bare.
  - destruct Hf as [_ Hf]. unfold store_client. rewrite (serves_client _ _ _ Hc), (serves_watch _ _ _ Hc), collect_pointers, filter_all by done.
    do 2 f_equal. apply filter_ext. intros ev. by apply bool_decide_ext.
  - destruct Hf as [_ Hf]. rewrite filter_none; [done|]. intros ev _. by apply bool_decide_eq_false.
Qed.

(** C38: a reader of the store sees what is cached: an object of a cached namespace without its
managed fields and no other one; the events about exactly the objects of cached namespaces
that were asked for; and a list of exactly these objects, but for one case. When several
namespaces are cached, all are asked for and none of them has an object, the list is that of
the whole cluster. *)
Theorem store_reads s objects events request ns name rv opts :
  "" ∉ namespaces (st_namespace s) -> slash ∉ String.list_ascii_of_string request -> segment ns -> segment name ->
  serves (st_client s) objects events ->
  store_Get s (object_key s ns name) rv =
    (if bool_decide (in_multi (st_namespace s) ns)
     then match client_Get (st_client s) ns name rv with inl o => inl (bare o) | inr err => inr err end
     else inr (IsNotFound name)) /\
  store_Watch s (list_key s request) opts =
    inl (map (fun ev => (fst ev, Pointer (bare (snd ev))))
      (List.filter (fun ev => bool_decide (visible (st_namespace s) request (snd ev))) (events (convertToMetaV1ListOptions opts)))) /\
  (~ lists_nothing (st_namespace s) request (objects (convertToMetaV1ListOptions opts)) ->
     store_List s (list_key s request) opts =
       inl (List.filter (fun o => bool_decide (visible (st_namespace s) request o)) (objects (convertToMetaV1ListOptions opts)))) /\
  (lists_nothing (st_namespace s) request (objects (convertToMetaV1ListOptions opts)) ->
     store_List s (list_key s request) opts = inl (objects (convertToMetaV1ListOptions opts))).
Proof.
  intros He Hs Hn Hm Hc. split_and!; [|by eapply store_Watch_spec|by eapply store_List_spec|by eapply store_List_spec].
  unfold store_Get. rewrite splitKey_object by done. destruct Hn as [Hn _], Hm as [Hm _].
  apply str_empty_false in Hn as En, Hm as Em. rewrite Em. cbv iota beta. rewrite En. unfold store_client. rewrite (serves_client _ _ _ Hc).
  rewrite <- (bool_decides _ _ (Contains_one (st_namespace s) ns)). destruct (Multi_Contains (st_namespace s) [ns]); [|done].
  simpl. destruct (client_Get _ _ _ _) as [o|err]; [|done]. by rewrite bare_pointer.
Qed.

(** ** The caches follow the selectors *)

(** Every cache that was started is either in the map, at one place, or was stopped once. *)
Record consistent (c : ClusterCache) : Prop := {
  cons_ids : forall id, id < cc_next c <-> (exists g rc, cc_cache c !! g = Some rc /\ rc_id rc = id) \/ id ∈ cc_stopped c;
  cons_once : NoDup (cc_stopped c);
  cons_live : forall g rc, cc_cache c !! g = Some rc -> rc_id rc ∉ cc_stopped c;
  cons_place : forall g1 g2 rc1 rc2, cc_cache c !! g1 = Some rc1 -> cc_cache c !! g2 = Some rc2 -> rc_id rc1 = rc_id rc2 -> g1 = g2 }.

Lemma consistent_stop c g rc : consistent c -> cc_cache c !! g = Some rc ->
  consistent (mkClusterCache (cc_next c) (delete g (cc_cache c)) (rc_id rc :: cc_stopped c)).
Proof.
  intros [Hi Ho Hl Hp] Hg. split; simpl.
  - intros id. rewrite Hi, elem_of_cons. split.
    + intros [(g' & rc' & H & <-)|H]; [|by do 2 right]. destruct (decide (g' = g)) as [-> |Hn]; [by simplify_eq; right; left|].
      left. exists g', rc'. by rewrite lookup_delete_ne.
    + intros [(g' & rc' & H & <-)|[-> |H]]; [|left; by eauto|by right]. apply lookup_delete_Some in H as [_ H]. left. eauto.
  - constructor; [by eapply Hl|done].
  - intros g' rc' [Hn H]%lookup_delete_Some. rewrite elem_of_cons. intros [E|H']; [|by eapply Hl]. by destruct Hn; eapply Hp.
  - intros g1 g2 rc1 rc2 [_ H1]%lookup_delete_Some [_ H2]%lookup_delete_Some. by apply Hp.
Qed.

Lemma consistent_start c g b n : consistent c -> cc_cache c !! g = None ->
  consistent (mkClusterCache (S (cc_next c)) (<[g := mkResourceCache (cc_next c) b n]> (cc_cache c)) (cc_stopped c)).
Proof.
  intros [Hi Ho Hl Hp] Hg.
  assert (Hlt : forall g' rc', cc_cache c !! g' = Some rc' -> rc_id rc' < cc_next c) by (intros; apply Hi; eauto).
  assert (Hst : forall id, id ∈ cc_stopped c -> id < cc_next c) by (intros; apply Hi; eauto).
  split; simpl; [|done| |].
  - intros id. split.
    + intros H. destruct (decide (id = cc_next c)) as [-> |Hn]; [left; exists g; eexists; by rewrite lookup_insert_eq|].
      destruct (proj1 (Hi id)) as [(g' & rc' & H' & <-)|H']; [lia| |by right]. left. exists g', rc'. rewrite lookup_insert_ne; [done|congruence].
    + intros [(g' & rc' & H & <-)|H]; [|apply Hst in H; lia]. apply lookup_insert_Some in H as [[_ <-]|[_ H]]; simpl; [lia|]. apply Hlt in H. lia.
  - intros g' rc' [[_ <-]|[_ H]]%lookup_insert_Some; [|by eapply Hl]. simpl. intros H. apply Hst in H. lia.
  - intros g1 g2 rc1 rc2 H1 H2 E. apply lookup_insert_Some in H1 as [[<- <-]|[N1 H1]], H2 as [[<- <-]|[N2 H2]]; [done| | |by eapply Hp].
    + apply Hlt in H2. simpl in E. lia.
    + apply Hlt in H1. simpl in E. lia.
Qed.

Definition kept (resources : gmap gvr MultiNamespace) (g : gvr) (rc : resourceCache) : Prop :=
  exists n, resources !! g = Some n /\ Multi_Equal (rc_namespaces rc) n = true.

Lemma remove_cache_cases resources c g rc : cc_cache c !! g = Some rc ->
  (kept resources g rc /\ remove_cache resources c (g, rc) = c) \/
  (~ kept resources g rc /\ remove_cache resources c (g, rc) = mkClusterCache (cc_next c) (delete g (cc_cache c)) (rc_id rc :: cc_stopped c)).
Proof.
  intros Hg. unfold remove_cache, kept. destruct (resources !! g) as [n|]; [|right; split; [by intros (? & ? & _)|done]].
  destruct (Multi_Equal (rc_namespaces rc) n) eqn:E; [left; eauto|]. right. split; [|done]. intros (m & ? & ?). congruence.
Qed.

Lemma remove_caches resources l c : consistent c -> NoDup l.*1 -> (forall g rc, (g, rc) ∈ l -> cc_cache c !! g = Some rc) ->
  let c' := fold_left (remove_cache resources) l c in
  consistent c' /\ cc_next c' = cc_next c /\
  forall g rc, cc_cache c' !! g = Some rc <-> cc_cache c !! g = Some rc /\ (kept resources g rc \/ g ∉ l.*1).
Proof.
  revert c. induction l as [|[g rc] l IH]; intros c Hc Hnd Hl; simpl.
  - split; [done|]. split; [done|]. intros g rc. split; [intros H; split; [done|right; apply not_elem_of_nil]|by intros [? _]].
  - apply list.NoDup_cons in Hnd as [Hg Hnd]. assert (Hgc : cc_cache c !! g = Some rc) by (apply Hl; left).
    destruct (remove_cache_cases resources c g rc Hgc) as [[Hk E]|[Hk E]].
    + unfold remove_cache in E |- *. rewrite E. destruct (IH c Hc Hnd) as (H1 & H0 & H2); [intros; apply Hl; by right|].
      split; [done|]. split; [done|]. intros g' rc'. rewrite H2, elem_of_cons. destruct (decide (g' = g)) as [-> |Hn]; [|naive_solver].
      split; intros [H' _]; (split; [done|]); simplify_eq; by left.
    + unfold remove_cache in E |- *. rewrite E. destruct (IH _ (consistent_stop c g rc Hc Hgc) Hnd) as (H1 & H0 & H2).
      { intros g' rc' H. simpl. rewrite lookup_delete_ne; [apply Hl; by right|]. intros ->. apply Hg. apply list_elem_of_fmap. by exists (g', rc'). }
      split; [done|]. split; [done|]. intros g' rc'. rewrite H2. simpl. rewrite lookup_delete_Some, elem_of_cons.
      destruct (decide (g' = g)) as [-> |Hn]; [|naive_solver]. split; [by intros [[? _] _]|]. intros [H' [H''|H'']]; [simplify_eq; done|]. destruct H''. by left.
Qed.

Section sync.
  Context (scope_of : gvr -> result bool) (CompleteWithOptions : gvr -> option string).
  Context (getGroupVersionResource : string -> string -> result gvr).
  Context (range : forall V : Type, gmap gvr V -> list (gvr * V)).
  Context (range_perm : forall V m, range V m ≡ₚ map_to_list m).

(** A resource cannot be cached. *)
Definition refused (g : gvr) : Prop := (exists err, scope_of g = inr err) \/ is_Some (CompleteWithOptions g).

Lemma add_caches_spec l c : consistent c ->
  let '(c', err) := add_caches scope_of CompleteWithOptions l c in
  consistent c' /\ cc_next c <= cc_next c' /\
  (forall g rc, cc_cache c !! g = Some rc -> cc_cache c' !! g = Some rc) /\
  (forall g rc, cc_cache c' !! g = Some rc -> cc_cache c !! g = Some rc \/ cc_next c <= rc_id rc /\ (g, rc_namespaces rc) ∈ l) /\
  match err with
  | None => forall g n, (g, n) ∈ l -> is_Some (cc_cache c' !! g)
  | Some _ => exists g n, (g, n) ∈ l /\ refused g
  end.
Proof.
  revert c. induction l as [|[g n] l IH]; intros c Hc; simpl.
  { split_and!; [done|done|done|by left|]. by intros g n ?%not_elem_of_nil. }
  destruct (cc_cache c !! g) as [rc|] eqn:Eg.
  - specialize (IH c Hc). destruct (add_caches _ _ l c) as [c' err]. destruct IH as (H1 & H0 & H2 & H3 & H4). split_and!; [done|done|done| |].
    + intros g' rc' H. destruct (H3 g' rc' H) as [?|[? ?]]; [by left|]. right. split; [done|by right].
    + destruct err; [destruct H4 as (g' & n' & ? & ?); exists g', n'; split; [by right|done]|].
      intros g' n' [E|H]%elem_of_cons; [simplify_eq; eauto|eauto].
  - destruct (scope_of g) as [b|err] eqn:Es.
    2: { split_and!; [done|done|done|by left|]. exists g, n. split; [left|]. left. eauto. }
    unfold newResourceCache. destruct (CompleteWithOptions g) as [err|] eqn:Ec.
    { split_and!; [done|done|done|by left|]. exists g, n. split; [left|]. right. by rewrite Ec. }
    simpl. specialize (IH _ (consistent_start c g b n Hc Eg)). destruct (add_caches _ _ l _) as [c' err].
    destruct IH as (H1 & H0 & H2 & H3 & H4). simpl in *. split_and!; [done|lia| | |].
    + intros g' rc' H. apply H2. rewrite lookup_insert_ne; [done|congruence].
    + intros g' rc' H. destruct (H3 g' rc' H) as [H'|[? ?]]; [|right; split; [lia|by right]].
      apply lookup_insert_Some in H' as [[<- <-]|[_ H']]; [right; simpl; split; [done|left]|by left].
    + destruct err; [destruct H4 as (g' & n' & ? & ?); exists g', n'; split; [by right|done]|].
      intros g' n' [E|H]%elem_of_cons; [|eauto]. simplify_eq. eexists. apply H2, lookup_insert_eq.
Qed.

(** A selector is about a resource. *)
Definition selects (selectors : list ResourceCacheSelector) (g : gvr) (ns : list string) : Prop :=
  exists sel, sel ∈ selectors /\ getGroupVersionResource (rs_APIVersion sel) (rs_Kind sel) = inl g /\ rs_Namespace sel = ns.

(** [n] are the namespaces that the selectors of [g] ask for: all, when one has none. *)
Definition asks (selectors : list ResourceCacheSelector) (g : gvr) (n : MultiNamespace) : Prop :=
  (IsAll n = true <-> selects selectors g []) /\
  (IsAll n = false -> forall x, x ∈ namespaces n <-> exists l, selects selectors g l /\ x ∈ l).

Definition asked_for (selectors : list ResourceCacheSelector) (g : gvr) (n : MultiNamespace) : Prop :=
  (exists l, selects selectors g l) /\ asks selectors g n.

Lemma selects_app l1 l2 g ns : selects (l1 ++ l2) g ns <-> selects l1 g ns \/ selects l2 g ns.
Proof. unfold selects. setoid_rewrite elem_of_app. naive_solver. Qed.

Lemma selects_one sel g ns : selects [sel] g ns <->
  getGroupVersionResource (rs_APIVersion sel) (rs_Kind sel) = inl g /\ rs_Namespace sel = ns.
Proof. unfold selects. setoid_rewrite list_elem_of_singleton. naive_solver. Qed.

Lemma asks_add selectors sel g n : getGroupVersionResource (rs_APIVersion sel) (rs_Kind sel) = inl g ->
  (IsAll n = true -> namespaces n = ∅) -> asks selectors g n -> asks (selectors ++ [sel]) g (Multi_Add (rs_Namespace sel) n).
Proof.
  intros Eg H2 (H1 & H3). destruct (Add_spec (rs_Namespace sel) n H2) as (A1 & A2 & A3). split.
  - rewrite A1, H1, selects_app, selects_one. naive_solver.
  - intros Hf x. rewrite (A3 Hf), elem_of_union, elem_of_list_to_set.
    assert (En : IsAll n = false) by (destruct (IsAll n); [rewrite (proj2 A1) in Hf; [done|by left]|done]).
    rewrite (H3 En). setoid_rewrite selects_app. setoid_rewrite selects_one. naive_solver.
Qed.

Lemma asks_other selectors sel g n : getGroupVersionResource (rs_APIVersion sel) (rs_Kind sel) <> inl g ->
  asks (selectors ++ [sel]) g n <-> asks selectors g n.
Proof.
  intros Hn. assert (E : forall l, selects (selectors ++ [sel]) g l <-> selects selectors g l).
  { intros l. rewrite selects_app, selects_one. naive_solver. }
  unfold asks. rewrite E. setoid_rewrite E. done.
Qed.

(** The resources collected from selectors. *)
Lemma select_resources selectors :
  let m := fold_left (select_resource getGroupVersionResource) selectors ∅ in
  forall g, (is_Some (m !! g) <-> exists l, selects selectors g l) /\ forall n, m !! g = Some n -> (IsAll n = true -> namespaces n = ∅) /\ asks selectors g n.
Proof.
  induction selectors as [|sel selectors IH] using rev_ind; intros m g.
  { unfold m. simpl. rewrite lookup_empty. split; [|done]. split; [by intros []|]. by intros (l & s & ?%not_elem_of_nil & _). }
  unfold m. rewrite fold_left_app. simpl. set (m0 := fold_left _ selectors ∅) in *. specialize (IH g) as [I1 I2].
  setoid_rewrite selects_app. setoid_rewrite selects_one. unfold select_resource.
  destruct (getGroupVersionResource (rs_APIVersion sel) (rs_Kind sel)) as [g'|err] eqn:Eg.
  - destruct (decide (g' = g)) as [-> |Hn].
    + rewrite lookup_insert_eq. split; [split; [intros _; eauto|by eexists]|]. intros n E. injection E as <-.
      assert (H0 : let n := default NewMultiNamespace (m0 !! g) in (IsAll n = true -> namespaces n = ∅) /\ asks selectors g n).
      { destruct (m0 !! g) as [n|] eqn:E0; [by apply I2|]. simpl.
        assert (Hno : forall l, ~ selects selectors g l) by (intros l Hl; destruct (proj2 I1) as [? ?]; [eauto|congruence]).
        split_and!; [done|]. split; simpl; [split; [done|by intros ?%Hno]|]. intros _ x. rewrite elem_of_empty. split; [done|]. by intros (l & ?%Hno & _). }
      destruct H0 as [H0 H0']. split; [by apply Add_spec|by apply asks_add].
    + rewrite lookup_insert_ne by done. split; [rewrite I1; naive_solver|]. intros n E. rewrite asks_other by congruence. by apply I2.
  - split; [rewrite I1; naive_solver|]. intros n E. rewrite asks_other by congruence. by apply I2.
Qed.

Lemma fold_left_concat {A B} (f : A -> B -> A) ll a : fold_left (fun a l => fold_left f l a) ll a = fold_left f (concat ll) a.
Proof. revert a. induction ll as [|l ll IH]; intros a; simpl; [done|]. by rewrite fold_left_app, IH. Qed.

Lemma asks_equal selectors g n m : asks selectors g n -> Multi_Equal m n = true <-> asks selectors g m.
Proof.
  intros (H1 & H3). unfold asks. rewrite Equal_spec, <- H1. split.
  - intros [Ea En]. rewrite Ea. split; [done|]. intros Hf x. rewrite Ea in En. rewrite (En Hf). by apply H3.
  - intros [Ea En]. assert (E : IsAll m = IsAll n) by (destruct (IsAll m), (IsAll n); naive_solver). split; [done|].
    intros Hf. apply set_eq. intros x. rewrite (En Hf). rewrite E in Hf. by rewrite (H3 Hf).
Qed.

Lemma elem_of_ranged {V} (m : gmap gvr V) g v : (g, v) ∈ range V m <-> m !! g = Some v.
Proof. rewrite range_perm. apply elem_of_map_to_list. Qed.

(** C13: after a synchronisation with the ResourceCaches the store caches only what a selector asks
for, in just the namespaces that the selectors of the resource ask for together. A cache that
is asked for as it is goes on; every other one is stopped, and no cache runs that is not in
the store. Without an error everything asked for is cached; an error says that something asked
for cannot be. *)
Theorem caches_synced resourceCaches c : consistent c ->
  let selectors := concat resourceCaches in
  let '(c', err) := syncResourceCache scope_of CompleteWithOptions getGroupVersionResource range (inl resourceCaches) c in
  consistent c' /\
  (forall g rc, cc_cache c' !! g = Some rc -> asked_for selectors g (rc_namespaces rc)) /\
  (forall g rc, cc_cache c !! g = Some rc ->
     asked_for selectors g (rc_namespaces rc) /\ cc_cache c' !! g = Some rc \/
     ~ asked_for selectors g (rc_namespaces rc) /\ rc_id rc ∈ cc_stopped c') /\
  match err with
  | None => forall g l, selects selectors g l -> is_Some (cc_cache c' !! g)
  | Some _ => exists g l, selects selectors g l /\ refused g
  end.
Proof.
  intros Hc selectors. unfold syncResourceCache, UpdateCache. rewrite fold_left_concat. fold selectors.
  pose proof (select_resources selectors) as Hm. cbv zeta in Hm. set (m := fold_left _ selectors ∅) in *.
  assert (Hk : forall g rc, kept m g rc <-> asked_for selectors g (rc_namespaces rc)).
  { intros g rc. destruct (Hm g) as [M1 M2]. split.
    - intros (n & En & Ee). destruct (M2 n En) as [_ Ha]. split; [apply M1; eauto|]. by eapply asks_equal.
    - intros [Hs Ha]. apply M1 in Hs as [n En]. exists n. split; [done|]. by apply (asks_equal selectors g n); [apply M2|]. }
  destruct (remove_caches m (range _ (cc_cache c)) c) as (C1 & N1 & K1); [done| |intros g rc; apply elem_of_ranged|].
  { rewrite range_perm. apply NoDup_fst_map_to_list. }
  set (c1 := fold_left _ _ c) in *.
  assert (K2 : forall g rc, cc_cache c1 !! g = Some rc <-> cc_cache c !! g = Some rc /\ kept m g rc).
  { intros g rc. rewrite K1. split; [|naive_solver]. intros [Hg [Hk'|Hn]]; [done|]. destruct Hn. apply list_elem_of_fmap.
    exists (g, rc). split; [done|]. by apply elem_of_ranged. }
  pose proof (add_caches_spec (range _ m) c1 C1) as H. destruct (add_caches _ _ (range _ m) c1) as [c' err].
  destruct H as (C2 & N2 & A1 & A2 & A3). split_and!; [done| | |].
  - intros g rc Hg. destruct (A2 g rc Hg) as [Hg'|[_ Hg']]; [by apply Hk; apply K2 in Hg' as [_ ?]|]. apply elem_of_ranged in Hg'.
    destruct (Hm g) as [M1 M2]. split; [apply M1; eauto|]. by apply M2.
  - intros g rc Hg. assert (D : kept m g rc \/ ~ kept m g rc) by (destruct (remove_cache_cases m c g rc Hg) as [[? _]|[? _]]; eauto).
    rewrite <- Hk. destruct D as [D|D]; [left; split; [done|]; by apply A1, K2|]. right. split; [done|].
    assert (Hid : rc_id rc < cc_next c) by (apply (cons_ids c Hc); eauto).
    destruct (proj1 (cons_ids c' C2 (rc_id rc))) as [(g' & rc' & Hg' & E)|H]; [lia| |done].
    destruct (A2 g' rc' Hg') as [H|[H _]]; [|lia]. apply K2 in H as [H Hk']. assert (g' = g) as -> by (by eapply (cons_place c Hc g' g rc' rc)). by simplify_eq.
  - destruct err as [e|].
    + destruct A3 as (g & n & Hg & Hr). apply elem_of_ranged in Hg. destruct (proj1 (proj1 (Hm g))) as [l Hl]; eauto.
    + intros g l Hl. destruct (proj2 (proj1 (Hm g))) as [n En]; [eauto|]. eapply A3. by apply elem_of_ranged.
Qed.

End sync.

(** ** Retries *)

(** A key that never synchronises is tried sixteen times and then forgotten. *)
Lemma process_key_ends {S} (syncHandler : S -> S * option string) terminating fuel s :
  maxRetries < fuel -> exists s' n, process_key syncHandler terminating fuel 0 s = (s', Some n) /\ 1 <= n <= Datatypes.S maxRetries.
Proof.
  enough (forall k fuel s, maxRetries - k < fuel -> k <= maxRetries ->
    exists s' n, process_key syncHandler terminating fuel k s = (s', Some n) /\ 1 <= n <= Datatypes.S maxRetries) as H by (intros; apply H; lia).
  clear. intros k fuel s. remember (maxRetries - k) as d eqn:Ed. revert k fuel s Ed.
  induction d as [|d IH]; intros k [|fuel] s Ed Hf Hk; [lia| |lia|]; simpl; destruct (syncHandler s) as [s' err]; unfold handleErr.
  - destruct err as [e|]; [destruct (terminating e)|]; [eexists _, _; split; [done|lia]| |eexists _, _; split; [done|lia]].
    destruct (Nat.ltb_spec k maxRetries); [lia|]. eexists _, _. split; [done|lia].
  - destruct err as [e|]; [destruct (terminating e)|]; [eexists _, _; split; [done|lia]| |eexists _, _; split; [done|lia]].
    destruct (Nat.ltb_spec k maxRetries); [|eexists _, _; split; [done|lia]]. apply IH; lia.
Qed.

(** * Examples *)

Definition pods : gvr := ("", "v1", "pods").
Definition ex_gvr (apiVersion kind : string) : result gvr :=
  if kind =s "Pod" then inl pods else if kind =s "Deployment" then inl ("apps", "v1", "deployments") else inr "no matches for kind".

Definition ex_range (V : Type) (m : gmap gvr V) : list (gvr * V) := map_to_list m.

Definition ex_cache : ClusterCache :=
  mkClusterCache 2 {[ pods := mkResourceCache 0 true (mkMulti false {[ "a" ]}); ("", "v1", "nodes") := mkResourceCache 1 false (mkMulti true ∅) ]} [].

Definition ex_selectors : list (list ResourceCacheSelector) :=
  [[mkSelector "v1" "Pod" ["a"]]; [mkSelector "v1" "Job" []; mkSelector "apps/v1" "Deployment" []; mkSelector "v1" "Pod" ["a"; "a"]]].

Definition ex_sync : ClusterCache * option string :=
  syncResourceCache (fun _ => inl true) (fun _ => None) ex_gvr ex_range (inl ex_selectors) ex_cache.

Lemma ex_cache_consistent : consistent ex_cache.
Proof.
  assert (Hc : forall g rc, cc_cache ex_cache !! g = Some rc -> g = pods /\ rc_id rc = 0 \/ g = ("", "v1", "nodes") /\ rc_id rc = 1).
  { intros g rc H. unfold ex_cache in H. cbn [cc_cache] in H. apply lookup_insert_Some in H as [[<- <-]|[_ H]]; [by left|].
    apply lookup_singleton_Some in H as [<- <-]. by right. }
  split.
  - intros id. simpl. split.
    + intros H. left. destruct id as [|[|id]]; [exists pods; by eexists|exists ("", "v1", "nodes"); by eexists|lia].
    + intros [(g & rc & H & <-)|H%not_elem_of_nil]; [|done]. destruct (Hc g rc H) as [[_ ->]|[_ ->]]; lia.
  - constructor.
  - intros g rc _. apply not_elem_of_nil.
  - intros g1 g2 rc1 rc2 H1 H2. intros E. destruct (Hc g1 rc1 H1) as [[-> E1]|[-> E1]], (Hc g2 rc2 H2) as [[-> E2]|[-> E2]]; done || congruence.
Qed.

(** The cache of pods goes on, that of nodes is stopped, and deployments are cached. *)
Lemma caches_synced_witness :
  consistent (fst ex_sync) /\ snd ex_sync = None /\ cc_stopped (fst ex_sync) = [1] /\
  (rc_id <$> cc_cache (fst ex_sync) !! pods) = Some 0 /\ (rc_id <$> cc_cache (fst ex_sync) !! ("apps", "v1", "deployments")) = Some 2.
Proof.
  split; [|by vm_compute].
  pose proof (caches_synced (fun _ => inl true) (fun _ => None) ex_gvr ex_range (fun V m => Permutation_refl _) ex_selectors ex_cache ex_cache_consistent) as H.
  unfold ex_sync. destruct (syncResourceCache _ _ _ _ _ _) as [c err]. apply H.
Defined.

(** ** Reads of an example *)

Definition pod (ns name : string) : ProxyObject := mkProxyObject ns name (Some "kubectl") "spec".
Definition ex_opts : StorageListOptions := mkStorageList "0" "" (mkPredicate "" "" true 0 "").

(** A cluster with the pods [l]. *)
Definition pod_client (l : list ProxyObject) : DynamicClient := mkClient None
  (fun ns name _ => match first (fun o => (po_Namespace o =s ns) && (po_Name o =s name)) l with Some o => inl o | None => inr (IsNotFound name) end)
  (fun ns _ => inl (List.filter (fun o => bool_decide (asked ns o)) l))
  (fun ns _ => inl (map (fun ev => (fst ev, Pointer (snd ev)))
    (List.filter (fun ev => bool_decide (asked ns (snd ev))) (map (fun o => ("ADDED", o)) l)))).

Lemma pod_client_serves l : serves (pod_client l) (fun _ => l) (fun _ => map (fun o => ("ADDED"%string, o)) l).
Proof. by split. Qed.

Definition pod_store (names : list string) (l : list ProxyObject) : store :=
  mkStore pods (mkMulti false (list_to_set names)) (pod_client l) "/pods".

Lemma store_reads_witness :
  let s := pod_store ["a"; "b"] [pod "a" "x"; pod "c" "y"] in
  store_Get s "/pods/a/x" "" = inl (bare (pod "a" "x")) /\
  store_Watch s "/pods" ex_opts = inl [("ADDED"%string, Pointer (bare (pod "a" "x")))] /\
  store_List s "/pods" ex_opts = inl [pod "a" "x"].
Proof.
  destruct (store_reads (pod_store ["a"; "b"] [pod "a" "x"; pod "c" "y"]) (fun _ => [pod "a" "x"; pod "c" "y"])
    (fun _ => map (fun o => ("ADDED"%string, o)) [pod "a" "x"; pod "c" "y"]) "" "a" "x" "" ex_opts) as (H1 & H2 & H3 & _).
  1-4: refine (bool_decide_eq_true_1 _ _); by vm_compute.
  { apply pod_client_serves. }
  split_and!; [exact H1|exact H2|]. apply H3. intros (_ & _ & _ & H). apply (H (pod "a" "x")); [by left|].
  refine (bool_decide_eq_true_1 _ _). by vm_compute.
Defined.

(** None of the two cached namespaces has a pod: the list shows the pods of another one. *)
Example uncached_objects_are_listed :
  let s := pod_store ["a"; "b"] [pod "c" "y"] in
  store_List s "/pods" ex_opts = inl [pod "c" "y"] /\ store_Get s "/pods/c/y" "" = inr (IsNotFound "y") /\ store_Watch s "/pods" ex_opts = inl [].
Proof. by vm_compute. Qed.

(** The managed fields stay in lists. *)
Example listed_managed_fields : exists o, store_List (pod_store ["a"] [pod "a" "x"]) "/pods" ex_opts = inl [o] /\ po_Managed o = Some "kubectl"%string.
Proof. by eexists. Qed.

(** Bookmarks carry no namespace and are filtered out when several namespaces are cached. *)
Example bookmarks_are_dropped : watch_event (Some (objectFilter (mkMulti false {[ "a"; "b" ]}))) ("BOOKMARK", Pointer (mkProxyObject "" "" None "")) = None.
Proof. by vm_compute. Qed.
