(* ===== verification/SetupApi.v ===== *)
(** What the programs that set Kosmos up share: the objects they create and delete on API
servers (clusterlink/clusterlink-operator, kosmosctl/install, uninstall, join and unjoin), and
the helpers of clusterlink-operator/utils/idempotency.go.

A [Site] holds the objects of all servers and the Clusters of the control plane. A call may
fail without effect when [faults] says so. Manifests are templates of the sources: an object
is known by its template and the values put into it; rendering may fail, as [Generate] says. *)
From S2P Require Import Prelude GoStr PodProg Calls Tables.

(** A server, a kind, a namespace ("" for none) and a name. *)
Definition okey : Type := string * string * string * string.

Inductive content := Rendered (template : string) (values : list (string * string)) | Literal (data : list (string * string)).

Record LinkSpec := mkLinkSpec {
  ls_Enable : bool; ls_CNI : string; ls_NetworkType : string; ls_IPFamily : string; ls_Local : string * string; ls_Bridge : string * string; ls_NIC : string }.

Record TreeSpec := mkTreeSpec { ts_Enable : bool; ts_LeafModels : list string }.

(** A Cluster of the control plane as the programs write it. *)
Record SiteCluster := mkSiteCluster {
  sc_Finalizers : list string; sc_Deleting : bool; sc_Annotations : list (string * string); sc_Kubeconfig : string; sc_Namespace : string;
  sc_ImageRepository : string; sc_Link : option LinkSpec; sc_Tree : option TreeSpec }.

(** [si_instances] counts the objects of custom kinds. *)
Record Site := mkSite { si_calls : nat; si_objects : gmap okey content; si_clusters : gmap string SiteCluster; si_instances : gmap string nat }.

Definition site_tick (w : Site) : Site := mkSite (S (si_calls w)) (si_objects w) (si_clusters w) (si_instances w).
#[export] Instance Site_server : Server Site := mkServer _ si_calls site_tick.

Abbreviation SM := (Calls.M Site apierr).

Definition objects : Table Site okey content := mkTable Site okey _ _ _ si_objects
  (fun m w => mkSite (si_calls w) m (si_clusters w) (si_instances w)) (fun w => mkSite 0 ∅ (si_clusters w) (si_instances w)).
Definition clusters : Table Site string SiteCluster := mkTable Site string _ _ _ si_clusters
  (fun m w => mkSite (si_calls w) (si_objects w) m (si_instances w)) (fun w => mkSite 0 (si_objects w) ∅ (si_instances w)).

#[export] Instance objects_laws : TableLaws objects. Proof. by split. Qed.
#[export] Instance clusters_laws : TableLaws clusters. Proof. by split. Qed.

Section setup.
  Context (faults : nat -> option fault) (Generate : string -> list (string * string) -> option string).

(** * Helpers of the operator *)

(** The created or updated object; an update takes the version that is there. *)
Definition create_or_update (k : okey) (v : content) : SM unit :=
  mtry (Create faults objects k v) mok (fun err =>
    match err with
    | IsAlreadyExists _ => do! _ := Get faults objects k in Update faults objects k v
    | _ => merr err
    end).

Definition CreateOrUpdateSecret := create_or_update.
Definition CreateOrUpdateDeployment := create_or_update.
Definition CreateOrUpdateClusterRole := create_or_update.
Definition CreateOrUpdateClusterRoleBinding := create_or_update.
Definition CreateOrUpdateNamespace := create_or_update.
Definition CreateOrUpdateDaemonSet := create_or_update.
Definition CreateOrUpdateServiceAccount := create_or_update.

Definition CreateOrUpdateService (k : okey) (v : content) : SM unit :=
  mtry (Get faults objects k) (fun _ => Update faults objects k v) (fun err =>
    match err with IsNotFound _ => Create faults objects k v | _ => merr err end).

(** * Steps of a plan *)

Definition render (v : content) : SM unit :=
  match v with
  | Rendered template values => match Generate template values with Some err => merr (OtherError err) | None => mok tt end
  | Literal _ => mok tt
  end.

(** An object that is made from its manifest and created; one that is there is left alone. *)
Definition create_object (kv : okey * content) : SM unit :=
  do! _ := render (snd kv) in unless_exists (Create faults objects (fst kv) (snd kv)).

(** An object that is deleted; its name comes from a manifest, which is made with the values at
hand. One that is gone already is no error. *)
Definition delete_object (kv : okey * content) : SM unit :=
  do! _ := render (snd kv) in unless_gone (Delete faults objects (fst kv)).

Fixpoint each {A} (f : A -> SM unit) (l : list A) : SM unit :=
  match l with [] => mok tt | x :: rest => do! _ := f x in each f rest end.

Definition create_all : list (okey * content) -> SM unit := each create_object.
Definition delete_all : list (okey * content) -> SM unit := each delete_object.

(** * What they do *)

(** Something was not made: a call failed or a manifest. *)
Definition troubled : Prop := faulty faults \/ exists t vs err, Generate t vs = Some err.

Lemma runs_render v w (X : Site -> Prop) (Q : unit -> Site -> Prop) : (troubled -> X w) -> Q tt w -> runs (render v) w X Q.
Proof.
  intros HX HQ. unfold render. destruct v as [t vs|]; [|done]. destruct (Generate t vs) as [err|] eqn:E; [|done].
  apply HX. right. eauto.
Qed.

Lemma runs_create_or_update k v w (X : Site -> Prop) (Q : unit -> Site -> Prop) :
  (forall w', faulty faults -> writes objects w w' (rows objects w) -> X w') ->
  (forall w', writes objects w w' (<[k := v]> (rows objects w)) -> Q tt w') -> runs (create_or_update k v) w X Q.
Proof.
  intros HX HQ. unfold runs, create_or_update, mtry.
  assert (Hfault : forall w1 ft, faults (calls_made w1) = Some ft -> writes objects w w1 (rows objects w) -> X (next_call w1)).
  { intros w1 ft Hft Hw. apply HX; [by exists (calls_made w1), ft|]. destruct Hw as [E1 E2]. split; [by rewrite rows_tick|by rewrite rest_tick]. }
  destruct (Create_cases faults objects k v w) as [(ft & Hft & ->)|[[[v0 Hs] ->]|[Hn ->]]].
  - pose proof (Hfault w ft Hft (writes_same objects w)). by destruct ft.
  - pose proof (writes_tick objects w) as Ht1. unfold mseq.
    destruct (Get_cases faults objects k (next_call w)) as [(ft & Hft & ->)| ->]; [by apply (Hfault (next_call w) ft)|].
    rewrite rows_tick, Hs. set (w2 := next_call (next_call w)).
    assert (Hw2 : writes objects w w2 (rows objects w)) by (eapply writes_trans; [done|]; rewrite <- (rows_tick (t := objects) w); apply (writes_tick objects)).
    destruct (Update_cases faults objects k v w2) as [(ft & Hft & ->)|[[Hn ->]|[_ ->]]]; [by apply (Hfault w2 ft)| |].
    + destruct Hw2 as [E _]. rewrite E in Hn. congruence.
    + apply HQ. eapply writes_trans; [exact Hw2|]. destruct Hw2 as [<- _]. apply (writes_set objects).
  - apply HQ, (writes_set objects).
Qed.

Lemma runs_create_or_update_service k v w (X : Site -> Prop) (Q : unit -> Site -> Prop) :
  (forall w', faulty faults -> writes objects w w' (rows objects w) -> X w') ->
  (forall w', writes objects w w' (<[k := v]> (rows objects w)) -> Q tt w') -> runs (CreateOrUpdateService k v) w X Q.
Proof.
  intros HX HQ. unfold CreateOrUpdateService. apply (runs_read faults objects); [intros Hf; apply HX; [done|apply (writes_tick objects)]| |].
  - intros v0 Hv. apply (runs_Update faults objects).
    + intros Hf. apply HX; [done|]. eapply writes_trans; [apply (writes_tick objects)|]. rewrite <- (rows_tick (t := objects) w). apply (writes_tick objects).
    + rewrite rows_tick. congruence.
    + intros w' Hw. apply HQ. rewrite rows_tick in Hw. eapply writes_trans; [apply (writes_tick objects)|done].
  - intros Hn. apply (runs_Create faults objects).
    + intros Hf. apply HX; [done|]. eapply writes_trans; [apply (writes_tick objects)|]. rewrite <- (rows_tick (t := objects) w). apply (writes_tick objects).
    + rewrite rows_tick. intros [? ?]. congruence.
    + intros w' _ Hw. apply HQ. rewrite rows_tick in Hw. eapply writes_trans; [apply (writes_tick objects)|done].
Qed.

End setup.

(** ** Programs that write and delete objects *)

(** An object is written, created unless it is there, or deleted. *)
Inductive change := Put (v : content) | Ensure (v : content) | Drop.

Definition edit (m : gmap okey content) (e : okey * change) : gmap okey content :=
  match snd e with
  | Put v => <[fst e := v]> m
  | Ensure v => <[fst e := default v (m !! fst e)]> m
  | Drop => delete (fst e) m
  end.

Definition edited (l : list (okey * change)) (m : gmap okey content) : gmap okey content := fold_left edit l m.

Definition puts (l : list (okey * content)) : list (okey * change) := map (fun kv => (fst kv, Put (snd kv))) l.
Definition ensures (l : list (okey * content)) : list (okey * change) := map (fun kv => (fst kv, Ensure (snd kv))) l.
Definition drops (l : list okey) : list (okey * change) := map (fun k => (k, Drop)) l.

(** What is there after a change. *)
Definition outcome_of (c : change) (old : option content) : option content :=
  match c with Put v => Some v | Ensure v => Some (default v old) | Drop => None end.

(** [p] makes the changes [l] when it starts in [w], or fails after some of them for a reason that
[trouble] names; it does nothing else. *)
Definition edits_at (trouble : Prop) (w : Site) (p : SM unit) (l : list (okey * change)) : Prop :=
  forall (X : Site -> Prop) (Q : unit -> Site -> Prop),
  (forall l1 l2 w', l = l1 ++ l2 -> trouble -> writes objects w w' (edited l1 (rows objects w)) -> X w') ->
  (forall w', writes objects w w' (edited l (rows objects w)) -> Q tt w') -> runs p w X Q.

Definition edits (trouble : Prop) (p : SM unit) (l : list (okey * change)) : Prop := forall w, edits_at trouble w p l.

Section edits.
  Context (trouble : Prop).

Lemma edits_at_seq w p q l1 l2 : edits_at trouble w p l1 ->
  (forall w', writes objects w w' (edited l1 (rows objects w)) -> edits_at trouble w' q l2) -> edits_at trouble w (do! _ := p in q) (l1 ++ l2).
Proof.
  intros Hp Hq X Q HX HQ. apply runs_seq, Hp.
  - intros a b w' -> Ht Hw. apply (HX a (b ++ l2) w'); [by rewrite <- app_assoc|done|done].
  - intros w1 H1. pose proof H1 as [E _]. apply (Hq w1 H1); rewrite E.
    + intros a b w' -> Ht Hw. apply (HX (l1 ++ a) b w'); [by rewrite <- app_assoc|done|]. unfold edited. rewrite fold_left_app. by eapply writes_trans.
    + intros w' Hw. apply HQ. unfold edited. rewrite fold_left_app. by eapply writes_trans.
Qed.

Lemma edits_ok : edits trouble (mok tt) [].
Proof. intros w X Q _ HQ. apply HQ, writes_same. Qed.

Lemma edits_seq p q l1 l2 : edits trouble p l1 -> edits trouble q l2 -> edits trouble (do! _ := p in q) (l1 ++ l2).
Proof. intros Hp Hq w. apply edits_at_seq; [apply Hp|intros w' _; apply Hq]. Qed.

Lemma edits_cons p q e l : edits trouble p [e] -> edits trouble q l -> edits trouble (do! _ := p in q) (e :: l).
Proof. intros Hp Hq. by apply (edits_seq p q [e] l). Qed.

Lemma edits_if (b : bool) p l : edits trouble p l -> edits trouble (if b then p else mok tt) (if b then l else []).
Proof. destruct b; [done|]. intros _. apply edits_ok. Qed.

Lemma edits_each {A} (f : A -> SM unit) (g : A -> list (okey * change)) l : (forall x, edits trouble (f x) (g x)) -> edits trouble (each f l) (flat_map g l).
Proof. intros Hf. induction l as [|x l IH]; simpl; [apply edits_ok|by apply edits_seq]. Qed.

Lemma edits_each_one {A} (f : A -> SM unit) (g : A -> okey * change) l : (forall x, edits trouble (f x) [g x]) -> edits trouble (each f l) (map g l).
Proof. intros Hf. induction l as [|x l IH]; simpl; [apply edits_ok|by apply edits_cons]. Qed.

Lemma edits_failed err l : trouble -> edits trouble (merr err) l.
Proof. intros Ht w X Q HX _. apply (HX [] l w); [done|done|apply writes_same]. Qed.

Context (faults : nat -> option fault) (Generate : string -> list (string * string) -> option string).
Context (Htrouble : troubled faults Generate -> trouble).

Lemma edits_put k v : edits trouble (create_or_update faults k v) [(k, Put v)].
Proof. intros w X Q HX HQ. apply (runs_create_or_update faults); [|done]. intros w' Hf Hw. apply (HX [] [(k, Put v)] w'); [done|by apply Htrouble; left|done]. Qed.

Lemma edits_service k v : edits trouble (CreateOrUpdateService faults k v) [(k, Put v)].
Proof. intros w X Q HX HQ. apply (runs_create_or_update_service faults); [|done]. intros w' Hf Hw. apply (HX [] [(k, Put v)] w'); [done|by apply Htrouble; left|done]. Qed.

Lemma edits_remove k : edits trouble (unless_gone (Delete faults objects k)) [(k, Drop)].
Proof.
  intros w X Q HX HQ. apply (runs_delete_once faults objects); [|done]. intros Hf.
  apply (HX [] [(k, Drop)]); [done|by apply Htrouble; left|apply (writes_tick objects)].
Qed.

Lemma edits_ensure k v : edits trouble (unless_exists (Create faults objects k v)) [(k, Ensure v)].
Proof.
  intros w X Q HX HQ. apply (runs_create_once faults objects); [|done]. intros Hf.
  apply (HX [] [(k, Ensure v)]); [done|by apply Htrouble; left|apply (writes_tick objects)].
Qed.

Lemma edits_render p v l : edits trouble p l -> edits trouble (do! _ := render Generate v in p) l.
Proof.
  intros Hp w X Q HX HQ. apply runs_seq, (runs_render faults Generate); [|by apply Hp]. intros Ht. apply (HX [] l w); [done|by apply Htrouble|apply writes_same].
Qed.

Lemma edits_create kv : edits trouble (create_object faults Generate kv) [(fst kv, Ensure (snd kv))].
Proof. apply edits_render, edits_ensure. Qed.

Lemma edits_delete kv : edits trouble (delete_object faults Generate kv) [(fst kv, Drop)].
Proof. apply edits_render, edits_remove. Qed.

Lemma edits_create_all l : edits trouble (create_all faults Generate l) (ensures l).
Proof. apply (edits_each_one (create_object faults Generate)), edits_create. Qed.

Lemma edits_delete_all l : edits trouble (delete_all faults Generate l) (drops l.*1).
Proof.
  induction l as [|kv l IH]; [apply edits_ok|]. apply (edits_cons _ _ (fst kv, Drop)); [apply edits_delete|exact IH].
Qed.

Lemma edits_renders l p es : edits trouble p es -> edits trouble (do! _ := each (fun kv : okey * content => render Generate (snd kv)) l in p) es.
Proof.
  intros Hp. apply (edits_seq _ _ [] es); [|done]. induction l as [|kv l IH]; [apply edits_ok|]. by apply edits_render.
Qed.

End edits.

(** ** Objects after changes *)

Lemma edit_other l m k : k ∉ l.*1 -> edited l m !! k = m !! k.
Proof.
  revert m. induction l as [|e l IH]; intros m Hk; simpl; [done|]. rewrite IH by (simpl in Hk; set_solver).
  unfold edit. assert (fst e <> k) by (simpl in Hk; set_solver).
  destruct (snd e); [by rewrite lookup_insert_ne|by rewrite lookup_insert_ne|by rewrite lookup_delete_ne].
Qed.

Lemma edit_done l m k c : NoDup l.*1 -> (k, c) ∈ l -> edited l m !! k = outcome_of c (m !! k).
Proof.
  revert m. induction l as [|e l IH]; intros m Hnd Hin; [by apply not_elem_of_nil in Hin|]. simpl in *.
  apply list.NoDup_cons in Hnd as [Hn Hnd]. apply elem_of_cons in Hin as [<-|Hin].
  - simpl in Hn. rewrite edit_other by done. unfold edit. simpl. destruct c; [apply lookup_insert_eq|apply lookup_insert_eq|apply lookup_delete_eq].
  - rewrite IH by done. f_equal. assert (fst e <> k) by (intros E; apply Hn; rewrite E; apply list_elem_of_fmap; by exists (k, c)).
    unfold edit. destruct (snd e); [by rewrite lookup_insert_ne|by rewrite lookup_insert_ne|by rewrite lookup_delete_ne].
Qed.

Lemma edited_app l1 l2 m : edited (l1 ++ l2) m = edited l2 (edited l1 m).
Proof. apply fold_left_app. Qed.

Lemma puts_keys l : (puts l).*1 = l.*1.
Proof. unfold puts. induction l as [|kv l IH]; [done|]. exact (f_equal (cons (fst kv)) IH). Qed.
Lemma ensures_keys l : (ensures l).*1 = l.*1.
Proof. unfold ensures. induction l as [|kv l IH]; [done|]. exact (f_equal (cons (fst kv)) IH). Qed.
Lemma drops_keys l : (drops l).*1 = l.
Proof. unfold drops. induction l as [|k l IH]; [done|]. exact (f_equal (cons k) IH). Qed.

Lemma elem_of_puts k v l : (k, v) ∈ l -> (k, Put v) ∈ puts l.
Proof. unfold puts. rewrite !list_elem_of_In, in_map_iff. intros H. by exists (k, v). Qed.
Lemma elem_of_ensures k v l : (k, v) ∈ l -> (k, Ensure v) ∈ ensures l.
Proof. unfold ensures. rewrite !list_elem_of_In, in_map_iff. intros H. by exists (k, v). Qed.
Lemma elem_of_drops k l : k ∈ l -> (k, Drop) ∈ drops l.
Proof. unfold drops. rewrite !list_elem_of_In, in_map_iff. intros H. by exists k. Qed.

(** Deleting objects, in any order and any number of times. *)
Lemma dropped l m k : edited (drops l) m !! k = if bool_decide (k ∈ l) then None else m !! k.
Proof.
  case_bool_decide as Hk; [|apply edit_other; by rewrite drops_keys]. revert m. induction l as [|x l IH]; intros m; [by apply not_elem_of_nil in Hk|].
  simpl. destruct (decide (k ∈ l)) as [Hl|Hl]; [by apply IH|]. apply elem_of_cons in Hk as [-> |?]; [|done].
  fold (edited (drops l)). rewrite edit_other by (by rewrite drops_keys). apply lookup_delete_eq.
Qed.

(** Creating objects leaves those that are there. *)
Lemma ensured_old l m k v : m !! k = Some v -> edited (ensures l) m !! k = Some v.
Proof.
  revert m. induction l as [|kv l IH]; intros m Hk; simpl; [done|]. apply IH. unfold edit. simpl.
  destruct (decide (fst kv = k)) as [<-|Hn]; [by rewrite lookup_insert_eq, Hk|by rewrite lookup_insert_ne].
Qed.

Lemma ensured_there l m k : k ∈ l.*1 -> is_Some (edited (ensures l) m !! k).
Proof.
  revert m. induction l as [|kv l IH]; intros m Hin; [by apply not_elem_of_nil in Hin|]. simpl in *.
  destruct (decide (k ∈ l.*1)) as [Hl|Hl]; [by apply IH|]. apply elem_of_cons in Hin as [-> |Hin]; [|done].
  fold (edited (ensures l)). rewrite edit_other by (by rewrite ensures_keys). unfold edit. simpl. rewrite lookup_insert_eq. eauto.
Qed.

(** ** Parts of a site *)

Lemma writes_objects w w' m : writes objects w w' m ->
  si_objects w' = m /\ si_clusters w' = si_clusters w /\ si_instances w' = si_instances w.
Proof. intros [E1 E2]. unfold rest_of in E2. simpl in E2. injection E2 as E3 E4. done. Qed.

Lemma writes_clusters w w' m : writes clusters w w' m ->
  si_clusters w' = m /\ si_objects w' = si_objects w /\ si_instances w' = si_instances w.
Proof. intros [E1 E2]. unfold rest_of in E2. simpl in E2. injection E2 as E3 E4. done. Qed.

(** Only objects of [keys] were touched, and the Clusters are as they were. *)
Definition only_objects (keys : list okey) (w w' : Site) : Prop :=
  si_clusters w' = si_clusters w /\ si_instances w' = si_instances w /\ forall k, k ∉ keys -> si_objects w' !! k = si_objects w !! k.

Lemma edits_only l1 l2 w w' : writes objects w w' (edited l1 (rows objects w)) -> only_objects (l1 ++ l2).*1 w w'.
Proof.
  intros Hw. apply writes_objects in Hw as (E1 & E2 & E3). split_and!; [done|done|]. intros k Hk. rewrite E1. apply edit_other.
  rewrite fmap_app in Hk. intros H. by apply Hk, elem_of_app; left.
Qed.

(** Keys of a plan that differ in kind or name. *)
Ltac distinct_keys := repeat (apply list.NoDup_cons; split; [rewrite ?elem_of_cons; intros ?; destruct_or?; try done; by eapply not_elem_of_nil|]); apply NoDup_nil_2.

(** ** Creations *)

Lemma ensures_app l1 l2 : ensures (l1 ++ l2) = ensures l1 ++ ensures l2.
Proof. apply map_app. Qed.

Lemma drops_app l1 l2 : drops (l1 ++ l2) = drops l1 ++ drops l2.
Proof. apply map_app. Qed.

Lemma ensures_prefix l l1 l2 : ensures l = l1 ++ l2 -> exists a b, l = a ++ b /\ l1 = ensures a.
Proof.
  intros E. exists (take (length l1) l), (drop (length l1) l). split; [by rewrite take_drop|].
  unfold ensures in *. rewrite <- firstn_map, E. by rewrite take_app_length.
Qed.

(** An object that was not there is one of the plan. *)
Lemma ensured_new l m k : m !! k = None -> k ∈ l.*1 -> exists v, (k, v) ∈ l /\ edited (ensures l) m !! k = Some v.
Proof.
  revert m. induction l as [|kv l IH]; intros m Hm Hin; [by apply not_elem_of_nil in Hin|]. simpl.
  destruct (decide (fst kv = k)) as [<-|Hn].
  - exists (snd kv). split; [destruct kv; left|]. apply (ensured_old l). unfold edit. simpl. by rewrite Hm, lookup_insert_eq.
  - simpl in Hin. apply elem_of_cons in Hin as [-> |Hin]; [done|]. destruct (IH (edit m (fst kv, Ensure (snd kv)))) as (v & Hv & E).
    + unfold edit. simpl. by rewrite lookup_insert_ne.
    + done.
    + exists v. split; [by right|done].
Qed.

(** Since [w] the objects [l] were ensured, and nothing else was done. *)
Definition ensured (w : Site) (l : list (okey * content)) (w' : Site) : Prop :=
  si_objects w' = edited (ensures l) (si_objects w) /\ si_clusters w' = si_clusters w /\ si_instances w' = si_instances w.

Lemma ensured_writes w l w1 a w' : ensured w l w1 -> writes objects w1 w' (edited (ensures a) (rows objects w1)) -> ensured w (l ++ a) w'.
Proof.
  intros (E1 & E2 & E3) (F1 & F2 & F3)%writes_objects. change (rows objects w1) with (si_objects w1) in F1. split_and!; [|congruence..].
  by rewrite F1, E1, ensures_app, edited_app.
Qed.

Lemma ensured_step_at (trouble : Prop) w l l2 p w1 (X : Site -> Prop) (Q : unit -> Site -> Prop) : edits_at trouble w1 p (ensures l2) -> ensured w l w1 ->
  (forall w' a b, trouble -> l2 = a ++ b -> ensured w (l ++ a) w' -> X w') -> (forall w', ensured w (l ++ l2) w' -> Q tt w') -> runs p w1 X Q.
Proof.
  intros Hp He HX HQ. apply Hp; [|intros w' Hw; by eapply HQ, ensured_writes]. intros l1 l3 w' E Ht Hw.
  destruct (ensures_prefix l2 l1 l3 E) as (a & b & Eab & ->). apply (HX w' a b); [done|done|by eapply ensured_writes].
Qed.

Lemma ensured_step (trouble : Prop) w l l2 p w1 (X : Site -> Prop) (Q : unit -> Site -> Prop) : edits trouble p (ensures l2) -> ensured w l w1 ->
  (forall w' a b, trouble -> l2 = a ++ b -> ensured w (l ++ a) w' -> X w') -> (forall w', ensured w (l ++ l2) w' -> Q tt w') -> runs p w1 X Q.
Proof. intros Hp. apply ensured_step_at, Hp. Qed.
