(* ===== verification/OperatorAddons.v ===== *)
(** The operator of ClusterLink: it installs the components of ClusterLink into a member
cluster and removes them (clusterlink/clusterlink-operator: operator_controller.go, install.go,
option/option.go and the installers in global, proxy, agent, elector and manager).

Reading a kubeconfig, writing one, the release version and the environment are parameters. *)
From S2P Require Import Prelude GoStr PodProg Calls Tables SetupApi.

Definition ProxySecretName : string := "clusterlink-agent-proxy".
Definition ControlPanelSecretName : string := "controlpanel-config".
Definition ClusterControllerFinalizer : string := "kosmos.io/operator-controller".

Definition agent_ResourceName : string := "clusterlink-agent".
Definition elector_ResourceName : string := "clusterlink-elector".
Definition manager_ResourceName : string := "clusterlink-controller-manager".
Definition proxy_ResourceName : string := "clusterlink-proxy".

(** The server of the member is known by its kubeconfig. *)
Record AddonOption := mkAddon {
  ao_Kubeconfig : string; ao_Name : string; ao_Namespace : string; ao_ImageRepository : string; ao_Version : string;
  ao_UseProxy : bool; ao_ControlPanel : option string }.

Inductive installer := GlobalInstaller | ProxyInstaller | AgentInstaller | ElectorInstaller | ManagerInstaller.

Definition installers : list installer := [GlobalInstaller; ProxyInstaller; AgentInstaller; ElectorInstaller; ManagerInstaller].

Section operator.
  Context (faults : nat -> option fault) (Generate : string -> list (string * string) -> option string).
  (** [clientcmd.Write] of a flattened configuration, and of one whose servers are the proxy. *)
  Context (WriteConfig WriteProxied : string -> result string).
  (** Errors of a client made from a kubeconfig; the version; USE_PROXY when it is set, with the
  value when it parses; the options of the operator. *)
  Context (newClient : string -> option string) (Version : string) (envUseProxy : option (option bool)) (optUseProxy : bool) (ControlPanel : option string).

Section addon.
  Context (opt : AddonOption).

Definition ns_key (kind name : string) : okey := (ao_Kubeconfig opt, kind, ao_Namespace opt, name).
Definition cluster_key (kind name : string) : okey := (ao_Kubeconfig opt, kind, "", name).

(** A manifest is rendered, decoded and applied. *)
Definition apply_manifest (apply : okey -> content -> SM unit) (k : okey) (v : content) : SM unit :=
  do! _ := render Generate v in apply k v.

Definition namespace_manifest : content := Rendered "clusterlinkNamespace" [("Namespace", ao_Namespace opt)].
Definition global_Install : SM unit := apply_manifest (CreateOrUpdateNamespace faults) (cluster_key "Namespace" (ao_Namespace opt)) namespace_manifest.
Definition global_Uninstall : SM unit := mok tt.

(** ** Proxy *)

Definition proxy_applySecret : SM unit :=
  match ao_ControlPanel opt with
  | None => merr (OtherError "ControlPanelKubeConfig must not nil")
  | Some c =>
      do! b := mlift (match WriteProxied c with inl b => inl b | inr err => inr (OtherError err) end) in
      CreateOrUpdateSecret faults (ns_key "Secret" ProxySecretName) (Literal [("kubeconfig", b)])
  end.

Definition proxy_service : content := Rendered "clusterlinkProxyService" [("Namespace", ao_Namespace opt); ("Name", proxy_ResourceName)].
Definition proxy_applyService : SM unit :=
  apply_manifest (CreateOrUpdateService faults) (ns_key "Service" proxy_ResourceName) proxy_service.

Definition proxy_deployment : content := Rendered "clusterlinkProxyDeployment"
  [("Namespace", ao_Namespace opt); ("Name", proxy_ResourceName); ("ControlPanelSecretName", ControlPanelSecretName);
   ("ImageRepository", ao_ImageRepository opt); ("Version", ao_Version opt)].
Definition proxy_applyDeployment : SM unit :=
  apply_manifest (CreateOrUpdateDeployment faults) (ns_key "Deployment" proxy_ResourceName) proxy_deployment.

Definition proxy_Install : SM unit :=
  if negb (ao_UseProxy opt) then mok tt
  else do! _ := proxy_applySecret in do! _ := proxy_applyDeployment in proxy_applyService.

Definition remove (k : okey) : SM unit := unless_gone (Delete faults objects k).

Definition proxy_Uninstall : SM unit :=
  do! _ := remove (ns_key "Deployment" proxy_ResourceName) in remove (ns_key "Service" proxy_ResourceName).

(** ** Agent *)

Definition agent_daemonset : content := Rendered "clusterlinkAgentDaemonSet"
  [("Namespace", ao_Namespace opt); ("Name", agent_ResourceName); ("ImageRepository", ao_ImageRepository opt);
   ("ProxyConfigMapName", ProxySecretName); ("Version", ao_Version opt); ("ClusterName", ao_Name opt)].
Definition agent_applyDaemonSet : SM unit :=
  apply_manifest (CreateOrUpdateDaemonSet faults) (ns_key "DaemonSet" agent_ResourceName) agent_daemonset.

(** Flattening a nil configuration panics. *)
Definition agent_applySecret : SM unit :=
  if ao_UseProxy opt then mok tt
  else match ao_ControlPanel opt with
  | None => mfault
  | Some c =>
      do! b := mlift (match WriteConfig c with inl b => inl b | inr err => inr (OtherError err) end) in
      CreateOrUpdateSecret faults (ns_key "Secret" ProxySecretName) (Literal [("kubeconfig", b)])
  end.

Definition agent_Install : SM unit := do! _ := agent_applySecret in agent_applyDaemonSet.

Definition agent_Uninstall : SM unit :=
  do! _ := remove (ns_key "DaemonSet" agent_ResourceName) in remove (ns_key "ConfigMap" ProxySecretName).

(** ** Elector *)

Definition elector_serviceaccount : content := Rendered "clusterlinkElectorServiceAccount" [("Namespace", ao_Namespace opt); ("Name", elector_ResourceName)].
Definition elector_applyServiceAccount : SM unit :=
  apply_manifest (CreateOrUpdateServiceAccount faults) (ns_key "ServiceAccount" elector_ResourceName) elector_serviceaccount.

Definition elector_deployment : content := Rendered "clusterlinkElectorDeployment"
  [("Namespace", ao_Namespace opt); ("Name", elector_ResourceName); ("ClusterName", ao_Name opt); ("ImageRepository", ao_ImageRepository opt);
   ("ProxyConfigMapName", ProxySecretName); ("Version", ao_Version opt)].
Definition elector_applyDeployment : SM unit :=
  apply_manifest (CreateOrUpdateDeployment faults) (ns_key "Deployment" elector_ResourceName) elector_deployment.

Definition elector_clusterrole : content := Rendered "clusterlinkElectorClusterRole" [("Name", elector_ResourceName)].
Definition elector_applyClusterRole : SM unit :=
  apply_manifest (CreateOrUpdateClusterRole faults) (cluster_key "ClusterRole" elector_ResourceName) elector_clusterrole.

Definition elector_clusterrolebinding : content := Rendered "clusterlinkElectorClusterRoleBinding" [("Name", elector_ResourceName); ("Namespace", ao_Namespace opt)].
Definition elector_applyClusterRoleBinding : SM unit :=
  apply_manifest (CreateOrUpdateClusterRoleBinding faults) (cluster_key "ClusterRoleBinding" elector_ResourceName) elector_clusterrolebinding.

Definition elector_Install : SM unit :=
  do! _ := elector_applyServiceAccount in
  do! _ := elector_applyDeployment in
  do! _ := elector_applyClusterRole in
  elector_applyClusterRoleBinding.

Definition elector_Uninstall : SM unit :=
  do! _ := remove (ns_key "Deployment" elector_ResourceName) in
  do! _ := remove (ns_key "ServiceAccount" elector_ResourceName) in
  do! _ := remove (cluster_key "ClusterRoleBinding" elector_ResourceName) in
  remove (cluster_key "ClusterRole" elector_ResourceName).

(** ** Controller manager *)

Definition manager_serviceaccount : content := Rendered "clusterlinkManagerServiceAccount" [("Namespace", ao_Namespace opt); ("Name", manager_ResourceName)].
Definition manager_applyServiceAccount : SM unit :=
  apply_manifest (CreateOrUpdateServiceAccount faults) (ns_key "ServiceAccount" manager_ResourceName) manager_serviceaccount.

Definition manager_deployment : content := Rendered "clusterlinkManagerDeployment"
  [("Namespace", ao_Namespace opt); ("Name", manager_ResourceName); ("ProxyConfigMapName", ProxySecretName); ("ClusterName", ao_Name opt);
   ("ImageRepository", ao_ImageRepository opt); ("Version", ao_Version opt)].
Definition manager_applyDeployment : SM unit :=
  apply_manifest (CreateOrUpdateDeployment faults) (ns_key "Deployment" manager_ResourceName) manager_deployment.

Definition manager_clusterrole : content := Rendered "clusterlinkManagerClusterRole" [("Name", manager_ResourceName)].
Definition manager_applyClusterRole : SM unit :=
  apply_manifest (CreateOrUpdateClusterRole faults) (cluster_key "ClusterRole" manager_ResourceName) manager_clusterrole.

Definition manager_clusterrolebinding : content := Rendered "clusterlinkManagerClusterRoleBinding" [("Name", manager_ResourceName); ("Namespace", ao_Namespace opt)].
Definition manager_applyClusterRoleBinding : SM unit :=
  apply_manifest (CreateOrUpdateClusterRoleBinding faults) (cluster_key "ClusterRoleBinding" manager_ResourceName) manager_clusterrolebinding.

Definition manager_Install : SM unit :=
  do! _ := manager_applyServiceAccount in
  do! _ := manager_applyDeployment in
  do! _ := manager_applyClusterRole in
  manager_applyClusterRoleBinding.

Definition manager_Uninstall : SM unit :=
  do! _ := remove (ns_key "Deployment" manager_ResourceName) in
  do! _ := remove (ns_key "ServiceAccount" manager_ResourceName) in
  do! _ := remove (cluster_key "ClusterRoleBinding" manager_ResourceName) in
  remove (cluster_key "ClusterRole" manager_ResourceName).

(** ** All of them *)

Definition installer_Install (i : installer) : SM unit :=
  match i with
  | GlobalInstaller => global_Install
  | ProxyInstaller => proxy_Install
  | AgentInstaller => agent_Install
  | ElectorInstaller => elector_Install
  | ManagerInstaller => manager_Install
  end.

Definition installer_Uninstall (i : installer) : SM unit :=
  match i with
  | GlobalInstaller => global_Uninstall
  | ProxyInstaller => proxy_Uninstall
  | AgentInstaller => agent_Uninstall
  | ElectorInstaller => elector_Uninstall
  | ManagerInstaller => manager_Uninstall
  end.

Definition Install : SM unit := each installer_Install installers.
Definition Uninstall : SM unit := each installer_Uninstall (rev installers).

End addon.

(** * The controller *)

Definition useProxy : bool := match envUseProxy with Some boo => default false boo | None => optUseProxy end.

Definition Complete (kubeconfig : string) : SM unit :=
  match newClient kubeconfig with Some err => merr (OtherError err) | None => mok tt end.

Definition with_finalizers (l : list string) (c : SiteCluster) : SiteCluster :=
  mkSiteCluster l (sc_Deleting c) (sc_Annotations c) (sc_Kubeconfig c) (sc_Namespace c) (sc_ImageRepository c) (sc_Link c) (sc_Tree c).

Definition ensureFinalizer (name : string) (c : SiteCluster) : SM unit :=
  if bool_decide (ClusterControllerFinalizer ∈ sc_Finalizers c) then mok tt
  else Update faults clusters name (with_finalizers (sc_Finalizers c ++ [ClusterControllerFinalizer]) c).

Definition removeFinalizer (name : string) (c : SiteCluster) : SM unit :=
  if negb (bool_decide (ClusterControllerFinalizer ∈ sc_Finalizers c)) then mok tt
  else Update faults clusters name (with_finalizers (List.filter (fun f => negb (f =s ClusterControllerFinalizer)) (sc_Finalizers c)) c).

Definition addon_option (name : string) (proxy : bool) (c : SiteCluster) : AddonOption :=
  mkAddon (sc_Kubeconfig c) name (sc_Namespace c) (sc_ImageRepository c) Version proxy ControlPanel.

Definition syncCluster (name : string) (c : SiteCluster) : SM unit :=
  do! _ := Complete (sc_Kubeconfig c) in
  do! _ := Install (addon_option name useProxy c) in
  ensureFinalizer name c.

Definition removeCluster (name : string) (c : SiteCluster) : SM unit :=
  do! _ := Complete (sc_Kubeconfig c) in
  do! _ := Uninstall (addon_option name false c) in
  removeFinalizer name c.

Definition Operator_Reconcile (name : string) : SM unit :=
  mtry (Get faults clusters name)
    (fun c =>
      if sc_Deleting c && (length (sc_Finalizers c) =? 1) then removeCluster name c
      else match sc_Link c with
      | None => mfault
      | Some l => if negb (ls_Enable l) then mok tt else syncCluster name c
      end)
    (fun err => match err with IsNotFound _ => mok tt | _ => merr err end).

End operator.

(** * Facts *)

Section facts.
  Context (faults : nat -> option fault) (Generate : string -> list (string * string) -> option string).
  Context (WriteConfig WriteProxied : string -> result string).
  Context (newClient : string -> option string) (Version : string) (envUseProxy : option (option bool)) (optUseProxy : bool) (ControlPanel : string).

(** The kubeconfig that the components get. *)
Definition agent_config (opt : AddonOption) : string :=
  match (if ao_UseProxy opt then WriteProxied ControlPanel else WriteConfig ControlPanel) with inl b => b | inr _ => "" end.

(** The objects of ClusterLink in a member cluster. *)
Definition addon_objects (opt : AddonOption) : list (okey * content) :=
  [(cluster_key opt "Namespace" (ao_Namespace opt), namespace_manifest opt);
   (ns_key opt "Secret" ProxySecretName, Literal [("kubeconfig", agent_config opt)])] ++
  (if ao_UseProxy opt
   then [(ns_key opt "Deployment" proxy_ResourceName, proxy_deployment opt); (ns_key opt "Service" proxy_ResourceName, proxy_service opt)] else []) ++
  [(ns_key opt "DaemonSet" agent_ResourceName, agent_daemonset opt);
   (ns_key opt "ServiceAccount" elector_ResourceName, elector_serviceaccount opt);
   (ns_key opt "Deployment" elector_ResourceName, elector_deployment opt);
   (cluster_key opt "ClusterRole" elector_ResourceName, elector_clusterrole);
   (cluster_key opt "ClusterRoleBinding" elector_ResourceName, elector_clusterrolebinding opt);
   (ns_key opt "ServiceAccount" manager_ResourceName, manager_serviceaccount opt);
   (ns_key opt "Deployment" manager_ResourceName, manager_deployment opt);
   (cluster_key opt "ClusterRole" manager_ResourceName, manager_clusterrole);
   (cluster_key opt "ClusterRoleBinding" manager_ResourceName, manager_clusterrolebinding opt)].

(** The objects that are removed: all of these but the namespace and the secret. *)
Definition removed_objects (opt : AddonOption) : list okey :=
  [ns_key opt "Deployment" manager_ResourceName; ns_key opt "ServiceAccount" manager_ResourceName;
   cluster_key opt "ClusterRoleBinding" manager_ResourceName; cluster_key opt "ClusterRole" manager_ResourceName;
   ns_key opt "Deployment" elector_ResourceName; ns_key opt "ServiceAccount" elector_ResourceName;
   cluster_key opt "ClusterRoleBinding" elector_ResourceName; cluster_key opt "ClusterRole" elector_ResourceName;
   ns_key opt "DaemonSet" agent_ResourceName; ns_key opt "ConfigMap" ProxySecretName;
   ns_key opt "Deployment" proxy_ResourceName; ns_key opt "Service" proxy_ResourceName].

Lemma edits_manifest k v : edits True (apply_manifest Generate (create_or_update faults) k v) [(k, Put v)].
Proof. by apply (edits_render True faults Generate), (edits_put True faults Generate). Qed.

Lemma edits_manifest_service k v : edits True (apply_manifest Generate (CreateOrUpdateService faults) k v) [(k, Put v)].
Proof. by apply (edits_render True faults Generate), (edits_service True faults Generate). Qed.

(** The part of one installer. *)
Definition installer_objects (opt : AddonOption) (i : installer) : list (okey * content) :=
  match i with
  | GlobalInstaller => take 1 (addon_objects opt)
  | ProxyInstaller => if ao_UseProxy opt then take 3 (drop 1 (addon_objects opt)) else []
  | AgentInstaller => if ao_UseProxy opt then take 1 (drop 4 (addon_objects opt)) else take 2 (drop 1 (addon_objects opt))
  | ElectorInstaller => take 4 (drop (if ao_UseProxy opt then 5 else 3) (addon_objects opt))
  | ManagerInstaller => drop (if ao_UseProxy opt then 9 else 7) (addon_objects opt)
  end.

Lemma secret_edits opt write : (if ao_UseProxy opt then WriteProxied else WriteConfig) = write ->
  edits True (do! b := mlift (match write ControlPanel with inl b => inl b | inr err => inr (OtherError err) end) in
    CreateOrUpdateSecret faults (ns_key opt "Secret" ProxySecretName) (Literal [("kubeconfig", b)]))
    [(ns_key opt "Secret" ProxySecretName, Put (Literal [("kubeconfig", agent_config opt)]))].
Proof.
  intros <-. unfold agent_config.
  destruct (ao_UseProxy opt); [destruct (WriteProxied ControlPanel)|destruct (WriteConfig ControlPanel)]; first [by apply (edits_put True faults Generate)|by apply edits_failed].
Qed.

Lemma installer_edits opt i : ao_ControlPanel opt = Some ControlPanel ->
  edits True (installer_Install faults Generate WriteConfig WriteProxied opt i) (puts (installer_objects opt i)).
Proof.
  intros Hc. destruct i; unfold installer_objects, addon_objects; simpl.
  - apply edits_manifest.
  - unfold proxy_Install. destruct (ao_UseProxy opt) eqn:Eu; simpl; [|apply edits_ok]. apply edits_cons.
    { unfold proxy_applySecret. rewrite Hc. apply secret_edits. by rewrite Eu. }
    apply edits_cons; [apply edits_manifest|apply edits_manifest_service].
  - unfold agent_Install, agent_applySecret. destruct (ao_UseProxy opt) eqn:Eu; simpl.
    + apply (edits_seq True _ _ [] [_]); [apply edits_ok|apply edits_manifest].
    + apply edits_cons; [|apply edits_manifest]. rewrite Hc. apply secret_edits. by rewrite Eu.
  - destruct (ao_UseProxy opt); simpl; do 3 (apply edits_cons; [apply edits_manifest|]); apply edits_manifest.
  - destruct (ao_UseProxy opt); simpl; do 3 (apply edits_cons; [apply edits_manifest|]); apply edits_manifest.
Qed.

Lemma Install_edits opt : ao_ControlPanel opt = Some ControlPanel ->
  edits True (Install faults Generate WriteConfig WriteProxied opt) (puts (addon_objects opt)).
Proof.
  intros Hc. assert (puts (addon_objects opt) = flat_map (fun i => puts (installer_objects opt i)) installers) as ->
    by (unfold installers, installer_objects, addon_objects; by destruct (ao_UseProxy opt)).
  apply edits_each. intros i. by apply installer_edits.
Qed.

Lemma Uninstall_edits opt : edits True (Uninstall faults opt) (drops (removed_objects opt)).
Proof.
  apply (edits_each True (installer_Uninstall faults opt) (fun i => drops match i with
    | GlobalInstaller => []
    | ProxyInstaller => drop 10 (removed_objects opt)
    | AgentInstaller => take 2 (drop 8 (removed_objects opt))
    | ElectorInstaller => take 4 (drop 4 (removed_objects opt))
    | ManagerInstaller => take 4 (removed_objects opt)
    end) (rev installers)).
  intros []; [apply edits_ok|..]; repeat (apply edits_cons; [by apply (edits_remove True faults Generate)|]); by apply (edits_remove True faults Generate).
Qed.

Lemma addon_objects_keys opt : NoDup (addon_objects opt).*1.
Proof. unfold addon_objects, cluster_key, ns_key. destruct (ao_UseProxy opt); simpl; distinct_keys. Qed.

Lemma removed_objects_keys opt : NoDup (removed_objects opt).
Proof. unfold removed_objects, cluster_key, ns_key. distinct_keys. Qed.

(** The Cluster with or without the finalizer of the operator. *)
Definition finalized (b : bool) (c : SiteCluster) : SiteCluster :=
  with_finalizers (let others := List.filter (fun f => negb (f =s ClusterControllerFinalizer)) (sc_Finalizers c) in
    if b then if bool_decide (ClusterControllerFinalizer ∈ sc_Finalizers c) then sc_Finalizers c else sc_Finalizers c ++ [ClusterControllerFinalizer]
    else others) c.

Lemma with_same c : with_finalizers (sc_Finalizers c) c = c.
Proof. by destruct c. Qed.

Lemma filter_keep {A} (p : A -> bool) l : (forall x, x ∈ l -> p x = true) -> List.filter p l = l.
Proof. intros H. induction l as [|x l IH]; simpl; [done|]. rewrite H by by left. f_equal. apply IH. intros y Hy. apply H. by right. Qed.

(** Writing the finalizer: the Cluster is stored as wanted, or the call failed and nothing changed. *)
Lemma runs_finalizer b name c w (X : Site -> Prop) (Q : unit -> Site -> Prop) : si_clusters w !! name = Some c ->
  (forall w', si_objects w' = si_objects w -> si_clusters w' = si_clusters w -> si_instances w' = si_instances w -> X w') ->
  (forall w', si_objects w' = si_objects w -> si_instances w' = si_instances w -> si_clusters w' = <[name := finalized b c]> (si_clusters w) -> Q tt w') ->
  runs (if b then ensureFinalizer faults name c else removeFinalizer faults name c) w X Q.
Proof.
  intros Hc HX HQ.
  assert (Hid : finalized b c = c -> Q tt w) by (intros E; apply HQ; [done|done|]; rewrite E; by rewrite insert_id).
  assert (Hu : forall c', finalized b c = c' -> runs (Update faults clusters name c') w X Q).
  { intros c' E. apply (runs_Update faults clusters); [intros _; by apply HX|change (rows clusters w) with (si_clusters w); congruence|].
    intros w' (E1 & E2 & E3)%writes_clusters. apply HQ; [done|done|]. by rewrite E1, <- E. }
  unfold ensureFinalizer, removeFinalizer, finalized in *. destruct b; case_bool_decide as Hin; simpl negb; cbv iota.
  - apply Hid, with_same.
  - by apply Hu.
  - by apply Hu.
  - apply Hid. rewrite filter_keep; [apply with_same|]. intros f Hf. apply negb_true_iff, bool_decide_eq_false. congruence.
Qed.

(** What a reconciliation is about: the options with or without the proxy. *)
Definition wants_proxy : bool := useProxy envUseProxy optUseProxy.


End facts.

(** * Examples *)

Definition ex_link : LinkSpec := mkLinkSpec true "calico" "gateway" "ipv4" ("210.0.0.0/8", "") ("220.0.0.0/8", "") "".
Definition ex_cluster (finalizers : list string) (deleting : bool) : SiteCluster :=
  mkSiteCluster finalizers deleting [] "member" "kosmos-system" "registry" (Some ex_link) None.
Definition ex_site (c : SiteCluster) : Site := mkSite 0 ∅ {[ "c1" := c ]} ∅.
Definition ex_reconcile : SM unit :=
  Operator_Reconcile (fun _ => None) (fun _ _ => None) inl inl (fun _ => None) "v1" None false (Some "host") "c1".


(** Installed and removed again: the namespace and the secret with the kubeconfig of the
control plane stay in the member cluster. *)
Example secret_stays :
  let w1 := fst (ex_reconcile (ex_site (ex_cluster [] false))) in
  let w2 := fst (ex_reconcile (mkSite 0 (si_objects w1) {[ "c1" := ex_cluster ["kosmos.io/operator-controller"%string] true ]} ∅)) in
  map fst (map_to_list (si_objects w2)) =
    [("member", "Secret", "kosmos-system", "clusterlink-agent-proxy"); ("member", "Namespace", "", "kosmos-system")]%string.
Proof. by vm_compute. Qed.

(** While another finalizer holds a Cluster that is being deleted, everything is installed again. *)
Example deleted_cluster_installed :
  let w := fst (ex_reconcile (ex_site (ex_cluster ["kosmos.io/operator-controller"%string; "other"%string] true))) in
  is_Some (si_objects w !! ("member", "DaemonSet", "kosmos-system", "clusterlink-agent")%string).
Proof. vm_compute. by eexists. Qed.

(** A Cluster without link options makes the operator panic. *)
Example no_link_options :
  snd (ex_reconcile (ex_site (mkSiteCluster [] false [] "member" "kosmos-system" "registry" None None))) = Fault.
Proof. by vm_compute. Qed.
