(* ===== verification/CtlJoin.v ===== *)
(** The commands join and unjoin of kosmosctl (kosmosctl/join/join.go, kosmosctl/unjoin/unjoin.go):
registering a cluster with the control plane and removing it.

Reading kubeconfigs and making clients from them is not modelled; the server of the member
cluster is known by a name. What other programs do to Clusters while unjoin waits is a
parameter. *)
From S2P Require Import Prelude GoStr PodProg Calls Tables SetupApi OperatorAddons.

Definition DefaultClusterName : string := "kosmos-control-cluster".
Definition OperatorName : string := "clusterlink-operator".
Definition ClusterLinkName : string := "clusterlink".
Definition RootClusterAnnotation : string * string := ("kosmos.io/cluster-role", "root").

Record CommandJoinOptions := mkJoin {
  jo_Server : string; jo_Name : string; jo_Namespace : string; jo_ImageRegistry : string;
  jo_KubeConfigStream : string; jo_InnerKubeconfigStream : string; jo_HostKubeConfigStream : string; jo_RootFlag : bool;
  jo_EnableAll : bool; jo_EnableLink : bool; jo_CNI : string; jo_DefaultNICName : string; jo_NetworkType : string; jo_IPFamily : string;
  jo_EnableTree : bool; jo_LeafModel : string }.

Definition with_modules (all link tree : bool) (network family : string) (o : CommandJoinOptions) : CommandJoinOptions :=
  mkJoin (jo_Server o) (jo_Name o) (jo_Namespace o) (jo_ImageRegistry o) (jo_KubeConfigStream o) (jo_InnerKubeconfigStream o)
    (jo_HostKubeConfigStream o) (jo_RootFlag o) all link (jo_CNI o) (jo_DefaultNICName o) network family tree (jo_LeafModel o).

(** The modules that the flags ask for, at the end of [Complete]. *)
Definition Complete_modules (o : CommandJoinOptions) : CommandJoinOptions :=
  let '(all, link, tree) :=
    if negb (jo_EnableAll o) && negb (jo_EnableTree o) && negb (jo_EnableLink o) then
      let link := negb (str_empty (jo_NetworkType o)) || negb (str_empty (jo_IPFamily o)) in
      let tree := negb (str_empty (jo_LeafModel o)) in
      (negb tree && negb link, link, tree)
    else (jo_EnableAll o, jo_EnableLink o, jo_EnableTree o) in
  let '(link, tree) := if all then (true, true) else (link, tree) in
  with_modules all link tree
    (if str_empty (jo_NetworkType o) then "gateway" else jo_NetworkType o)
    (if str_empty (jo_IPFamily o) then "ipv4" else jo_IPFamily o) o.

Section commands.
  Context (faults : nat -> option fault) (Generate : string -> list (string * string) -> option string).

(** * Join *)

Section join.
  Context (o : CommandJoinOptions).

(** A Get that reports "already exists" refuses the cluster; no Get does. *)
Definition Validate : SM unit :=
  if str_empty (jo_Name o) then merr (OtherError "kosmosctl join validate error, name is not valid")
  else if str_empty (jo_Namespace o) then merr (OtherError "kosmosctl join validate error, namespace is not valid")
  else if negb (jo_EnableAll o) && negb (jo_EnableTree o) && negb (jo_EnableLink o)
  then merr (OtherError "kosmosctl join validate error, need at least one of enable-all,enable-tree,enable-link")
  else mtry (Get faults clusters (jo_Name o)) (fun _ => mok tt) (fun err =>
    match err with IsAlreadyExists _ => merr err | _ => mok tt end).

Definition member_key (kind name : string) : okey := (jo_Server o, kind, jo_Namespace o, name).
Definition scope_key (kind name : string) : okey := (jo_Server o, kind, "", name).
Definition in_namespace : list (string * string) := [("Namespace", jo_Namespace o)].

Definition tree_crds : list (okey * content) :=
  [(scope_key "CRD" "serviceexports.multicluster.x-k8s.io", Rendered "ServiceExport" []);
   (scope_key "CRD" "serviceimports.multicluster.x-k8s.io", Rendered "ServiceImport" []);
   (scope_key "CRD" "clusterpodconvertpolicies.kosmos.io", Rendered "ClusterPodConvert" []);
   (scope_key "CRD" "podconvertpolicies.kosmos.io", Rendered "PodConvert" [])].

Definition CreateTreeRelatedCRDs : SM unit := create_all faults Generate tree_crds.

Definition network_type (s : string) : string := if s =s "p2p" then "p2p" else "gateway".
Definition ip_family (s : string) : string := if s =s "ipv4" then "ipv4" else if s =s "ipv6" then "ipv6" else "all".

(** The Cluster that is registered; [leafModels] are the nodes of a one-to-one cluster. *)
Definition joined_cluster (leafModels : list string) : SiteCluster :=
  mkSiteCluster [] false (if jo_RootFlag o then [RootClusterAnnotation] else [])
    (if str_empty (jo_InnerKubeconfigStream o) then jo_KubeConfigStream o else jo_InnerKubeconfigStream o)
    (jo_Namespace o) (jo_ImageRegistry o)
    (Some (mkLinkSpec (jo_EnableLink o) (if jo_EnableLink o then jo_CNI o else "")
      (if jo_EnableLink o then network_type (jo_NetworkType o) else "gateway") (if jo_EnableLink o then ip_family (jo_IPFamily o) else "ipv4")
      ("210.0.0.0/8", "9470::0/16") ("220.0.0.0/8", "9480::0/16") (if jo_EnableLink o then jo_DefaultNICName o else "")))
    (Some (mkTreeSpec (jo_EnableTree o) leafModels)).

Definition operator_account : okey * content := (member_key "ServiceAccount" OperatorName, Rendered "ClusterlinkOperatorServiceAccount" in_namespace).
Definition control_account : okey * content := (member_key "ServiceAccount" "kosmos-control", Rendered "KosmosControlServiceAccount" in_namespace).
Definition kosmos_role : okey * content := (scope_key "ClusterRole" "kosmos", Rendered "KosmosClusterRole" []).
Definition kosmos_binding : okey * content := (scope_key "ClusterRoleBinding" "kosmos", Rendered "KosmosClusterRoleBinding" in_namespace).
Definition control_secret : okey * content := (member_key "Secret" ControlPanelSecretName, Literal [("kubeconfig", jo_HostKubeConfigStream o)]).
Definition member_namespace : okey * content := (scope_key "Namespace" (jo_Namespace o), Literal []).

(** The labelled nodes of the member cluster. *)
Context (join_nodes : list string).

Definition leaf_models : SM (list string) :=
  if jo_LeafModel o =s "one-to-one" then Calls.call (oracle faults) (fun w => (w, Good join_nodes)) else mok [].

Definition runCluster : SM unit :=
  do! _ := create_object faults Generate member_namespace in
  do! _ := (if jo_EnableLink o then create_object faults Generate operator_account else mok tt) in
  do! leafModels := (if jo_EnableTree o then do! _ := CreateTreeRelatedCRDs in leaf_models else mok []) in
  do! _ := Create faults clusters (jo_Name o) (joined_cluster leafModels) in
  create_all faults Generate [control_account; control_secret; kosmos_role; kosmos_binding].

End join.

(** * Unjoin *)

Record CommandUnJoinOptions := mkUnjoin { uo_Server : string; uo_Name : string; uo_Namespace : string }.

Section unjoin.
  Context (u : CommandUnJoinOptions) (others : Site -> Site).

(** The names in the manifests are those of join. *)
Definition leaving : CommandJoinOptions := mkJoin (uo_Server u) (uo_Name u) (uo_Namespace u) "" "" "" "" false false false "" "" "" "" false "".

(** Deleting a Cluster: with finalizers it is only marked. *)
Definition DeleteCluster (name : string) : SM unit := Calls.call (oracle faults) (fun w =>
  match si_clusters w !! name with
  | None => (w, Bad (IsNotFound "not found"))
  | Some c =>
      match sc_Finalizers c with
      | [] => (mkSite (si_calls w) (si_objects w) (delete name (si_clusters w)) (si_instances w), Good tt)
      | l => (mkSite (si_calls w) (si_objects w) (<[name := mkSiteCluster l true (sc_Annotations c) (sc_Kubeconfig c) (sc_Namespace c)
                (sc_ImageRepository c) (sc_Link c) (sc_Tree c)]> (si_clusters w)) (si_instances w), Good tt)
      end
  end).

Definition sleep : SM unit := fun w => (others w, Good tt).

(** The loop until the Cluster is gone: at most [fuel] deletions; whether it ended. *)
Fixpoint delete_cluster (fuel : nat) (name : string) : SM bool :=
  match fuel with
  | 0 => mok false
  | S fuel =>
      mtry (DeleteCluster name) (fun _ => do! _ := sleep in delete_cluster fuel name)
        (fun err => match err with IsNotFound _ => mok true | _ => merr err end)
  end.

Definition remove_key (k : okey) : SM unit := unless_gone (Delete faults objects k).

(** The manifests of all CRDs are made before the first is deleted. *)
Definition delete_tree_crds (crds : list (okey * content)) : SM unit :=
  do! _ := each (fun kv => render Generate (snd kv)) crds in
  each (fun kv => remove_key (fst kv)) crds.

Definition unjoin_crds : list (okey * content) :=
  match tree_crds leaving with
  | [serviceExport; serviceImport; clusterPodConvert; podConvert] => [serviceImport; serviceExport; clusterPodConvert; podConvert]
  | l => l
  end.

(** What unjoin removes after the Cluster; the Cluster as it was read. *)
Definition remove_objects (c : SiteCluster) : SM unit :=
  match sc_Tree c with
  | None => mfault
  | Some tree =>
      do! _ := (if ts_Enable tree then delete_tree_crds unjoin_crds else mok tt) in
      do! _ := remove_key (fst (control_secret leaving)) in
      do! _ := delete_object faults Generate (kosmos_role leaving) in
      do! _ := delete_object faults Generate (kosmos_binding leaving) in
      do! _ := delete_object faults Generate (control_account leaving) in
      match sc_Link c with
      | None => mfault
      | Some link =>
          do! _ := (if ls_Enable link then
                      do! _ := remove_key (scope_key leaving "ClusterRole" ClusterLinkName) in
                      do! _ := remove_key (scope_key leaving "ClusterRoleBinding" ClusterLinkName) in
                      remove_key (fst (operator_account leaving))
                    else mok tt) in
          if uo_Name u =s DefaultClusterName then mok tt else remove_key (fst (member_namespace leaving))
      end
  end.

(** A failed read that does not say "not found" leaves an empty Cluster. *)
Definition empty_cluster : SiteCluster := mkSiteCluster [] false [] "" "" "" None None.

Definition unjoin_after (fuel : nat) (c : SiteCluster) : SM bool :=
  do! ended := delete_cluster fuel (uo_Name u) in
  if ended then do! _ := remove_objects c in mok true else mok false.

Definition unjoin_runCluster (fuel : nat) : SM bool :=
  mtry (Get faults clusters (uo_Name u)) (unjoin_after fuel) (fun err =>
    match err with IsNotFound _ => merr err | _ => unjoin_after fuel empty_cluster end).

End unjoin.
End commands.

(** * Facts *)

Section facts.
  Context (faults : nat -> option fault) (Generate : string -> list (string * string) -> option string).
  Abbreviation trouble := (troubled faults Generate).

(** ** Join *)

(** The objects that join creates in the member cluster, in their order. *)
Definition join_objects (o : CommandJoinOptions) : list (okey * content) :=
  [member_namespace o] ++ (if jo_EnableLink o then [operator_account o] else []) ++ (if jo_EnableTree o then tree_crds o else []) ++
  [control_account o; control_secret o; kosmos_role o; kosmos_binding o].

Lemma join_objects_keys o : NoDup (join_objects o).*1.
Proof. unfold join_objects. destruct (jo_EnableLink o), (jo_EnableTree o); simpl; unfold member_key, scope_key; distinct_keys. Qed.

Definition models (o : CommandJoinOptions) (nodes : list string) : list string :=
  if jo_EnableTree o && (jo_LeafModel o =s "one-to-one") then nodes else [].

(** Some of the objects were created and the Cluster perhaps. *)
Definition partly_joined (o : CommandJoinOptions) (nodes : list string) (w w' : Site) : Prop :=
  (exists l1 l2, join_objects o = l1 ++ l2 /\ si_objects w' = edited (ensures l1) (si_objects w)) /\
  (si_clusters w' = si_clusters w \/ si_clusters w' = <[jo_Name o := joined_cluster o (models o nodes)]> (si_clusters w)).

Lemma runCluster_spec o nodes w (X : Site -> Prop) (Q : unit -> Site -> Prop) :
  (forall w', trouble \/ is_Some (si_clusters w !! jo_Name o) -> partly_joined o nodes w w' -> X w') ->
  (forall w', si_clusters w !! jo_Name o = None -> si_instances w' = si_instances w ->
    si_clusters w' = <[jo_Name o := joined_cluster o (models o nodes)]> (si_clusters w) ->
    si_objects w' = edited (ensures (join_objects o)) (si_objects w) -> Q tt w') ->
  runs (runCluster faults Generate o nodes) w X Q.
Proof.
  intros HX HQ.
  assert (Hpart : forall w' a b, trouble \/ is_Some (si_clusters w !! jo_Name o) -> join_objects o = a ++ b -> ensured w a w' -> X w').
  { intros w' a b Ht E (E1 & E2 & E3). apply HX; [done|]. split; [by exists a, b|by left]. }
  unfold join_objects in *. set (link := if jo_EnableLink o then [operator_account o] else []) in *.
  set (tree := if jo_EnableTree o then tree_crds o else []) in *. set (rest := [control_account o; control_secret o; kosmos_role o; kosmos_binding o]) in *.
  unfold runCluster. apply runs_seq, (ensured_step trouble w [] [member_namespace o]); [by apply (edits_create trouble)|done| |].
  { intros w' a b Ht E He. apply (Hpart w' a (b ++ link ++ tree ++ rest)); [by left| |done]. by rewrite E, <- app_assoc. }
  intros w1 H1. apply runs_seq, (ensured_step trouble w [member_namespace o] link); [|exact H1| |].
  { unfold link. destruct (jo_EnableLink o); [by apply (edits_create trouble)|apply edits_ok]. }
  { intros w' a b Ht E He. apply (Hpart w' ([member_namespace o] ++ a) (b ++ tree ++ rest)); [by left| |done]. by rewrite E, <- !app_assoc. }
  clear w1 H1. intros w1 H1. apply runs_seq.
  assert (Hleaf : forall w2, ensured w (([member_namespace o] ++ link) ++ tree) w2 -> forall (Q' : list string -> Site -> Prop),
    (forall w', ensured w (([member_namespace o] ++ link) ++ tree) w' -> Q' (models o nodes) w') ->
    runs (if jo_EnableTree o then leaf_models faults o nodes else mok []) w2 X Q').
  { intros w2 H2 Q' HQ'. unfold leaf_models, models in *. destruct (jo_EnableTree o); simpl in *; [|by apply HQ'].
    case_bool_decide; [|by apply HQ']. apply runs_call; [|by apply HQ'].
    intros Hf%call_faulty. apply (Hpart _ (([member_namespace o] ++ link) ++ tree) rest); [by left; left|by rewrite <- !app_assoc|done]. }
  assert (Htree : runs (if jo_EnableTree o then do! _ := CreateTreeRelatedCRDs faults Generate o in leaf_models faults o nodes else mok []) w1 X
    (fun l w' => l = models o nodes /\ ensured w (([member_namespace o] ++ link) ++ tree) w')).
  { destruct (jo_EnableTree o) eqn:Et.
    - apply runs_seq, (ensured_step trouble w ([member_namespace o] ++ link) tree); [by apply (edits_create_all trouble)|exact H1| |].
      + intros w' a b Ht E He. apply (Hpart w' (([member_namespace o] ++ link) ++ a) (b ++ rest)); [by left| |done]. by rewrite E, <- !app_assoc.
      + intros w2 H2. apply (Hleaf w2 H2). intros w' Hw. done.
    - unfold models. rewrite Et. simpl. split; [done|]. by rewrite app_nil_r. }
  eapply runs_mono; [exact Htree|done|]. intros l w2 [-> H2]. pose proof H2 as (E1 & E2 & E3). apply runs_seq, (runs_Create faults clusters).
  - intros Hf. apply (Hpart _ (([member_namespace o] ++ link) ++ tree) rest); [by left; left|by rewrite <- !app_assoc|done].
  - change (rows clusters w2) with (si_clusters w2). rewrite E2. intros Hs. apply (Hpart _ (([member_namespace o] ++ link) ++ tree) rest); [by right|by rewrite <- !app_assoc|done].
  - intros w3 Hn (F1 & F2 & F3)%writes_clusters. change (rows clusters w2) with (si_clusters w2) in *. rewrite E2 in Hn, F1.
    apply (edits_create_all trouble faults Generate (fun x => x) rest).
    + intros l1 l2 w' E Ht (G1 & G2 & G3)%writes_objects. destruct (ensures_prefix rest l1 l2 E) as (a & b & Eab & ->). apply HX; [by left|]. split.
      * exists ((([member_namespace o] ++ link) ++ tree) ++ a), b. split; [change (join_objects o) with ([member_namespace o] ++ link ++ tree ++ rest); by rewrite Eab, <- !app_assoc|].
        rewrite ensures_app, edited_app, G1. change (rows objects w3) with (si_objects w3). by rewrite F2, E1.
      * right. congruence.
    + intros w' (G1 & G2 & G3)%writes_objects. apply HQ; [done|congruence|congruence|]. rewrite G1. change (rows objects w3) with (si_objects w3).
      rewrite F2, E1. rewrite !app_assoc. by rewrite (ensures_app _ rest), edited_app.
Qed.

(** ** Unjoin *)

(** The programs that hold a Cluster with finalizers: while unjoin sleeps they leave objects and
other Clusters alone, and of one that is being deleted they remove a finalizer or the last. *)
Record releases (others : Site -> Site) (name : string) : Prop := {
  rel_objects : forall w, si_objects (others w) = si_objects w;
  rel_instances : forall w, si_instances (others w) = si_instances w;
  rel_clusters : forall w n, n <> name -> si_clusters (others w) !! n = si_clusters w !! n;
  rel_gone : forall w, si_clusters w !! name = None -> si_clusters (others w) !! name = None;
  rel_fewer : forall w c, si_clusters w !! name = Some c -> sc_Deleting c = true ->
    match si_clusters (others w) !! name with
    | None => True
    | Some c' => sc_Deleting c' = true /\ length (sc_Finalizers c') < length (sc_Finalizers c)
    end }.

(** Deletions until the Cluster is gone. *)
Definition deletions (c : option SiteCluster) : nat := match c with None => 1 | Some c => 2 + length (sc_Finalizers c) end.

(** Since [w] only the Cluster may have changed. *)
Definition apart_from (name : string) (w w' : Site) : Prop :=
  si_objects w' = si_objects w /\ si_instances w' = si_instances w /\ forall n, n <> name -> si_clusters w' !! n = si_clusters w !! n.

Lemma apart_trans name w1 w2 w3 : apart_from name w1 w2 -> apart_from name w2 w3 -> apart_from name w1 w3.
Proof. intros (A1 & A2 & A3) (B1 & B2 & B3). split_and!; [congruence|congruence|]. intros n Hn. by rewrite B3, A3. Qed.

Lemma delete_cluster_spec others name : releases others name -> forall fuel w (X : Site -> Prop) (Q : bool -> Site -> Prop),
  deletions (si_clusters w !! name) <= fuel -> (forall w', faulty faults -> apart_from name w w' -> X w') ->
  (forall w', apart_from name w w' -> si_clusters w' !! name = None -> Q true w') -> runs (delete_cluster faults others fuel name) w X Q.
Proof.
  intros Hr. induction fuel as [|fuel IH]; intros w X Q Hf HX HQ; [destruct (si_clusters w !! name); simpl in Hf; lia|].
  assert (Hsleep : forall w1, apart_from name w w1 -> deletions (si_clusters (others w1) !! name) <= fuel ->
    runs (do! _ := sleep others in delete_cluster faults others fuel name) w1 X Q).
  { intros w1 Ha Hd. assert (Ha' : apart_from name w (others w1)).
    { eapply apart_trans; [exact Ha|]. split_and!; [apply (rel_objects _ _ Hr)|apply (rel_instances _ _ Hr)|apply (rel_clusters _ _ Hr)]. }
    unfold runs, mseq, sleep. apply (IH (others w1) X Q Hd); intros w' *; [intros ?|]; intros Hw; [apply HX|apply HQ]; try done; by eapply apart_trans. }
  cbn [delete_cluster]. unfold runs, mtry. destruct (call_cases faults (fun w => match si_clusters w !! name with
    | None => (w, Bad (IsNotFound "not found"))
    | Some c => match sc_Finalizers c with
      | [] => (mkSite (si_calls w) (si_objects w) (delete name (si_clusters w)) (si_instances w), Good tt)
      | l => (mkSite (si_calls w) (si_objects w) (<[name := mkSiteCluster l true (sc_Annotations c) (sc_Kubeconfig c) (sc_Namespace c)
                (sc_ImageRepository c) (sc_Link c) (sc_Tree c)]> (si_clusters w)) (si_instances w), Good tt)
      end end) w) as [(ft & Hft & E)|E]; unfold DeleteCluster; rewrite E.
  { assert (X (next_call w)) by (apply HX; [by exists (calls_made w), ft|done]). by destruct ft. }
  change (si_clusters (next_call w)) with (si_clusters w). destruct (si_clusters w !! name) as [c|] eqn:Ec; [|by apply HQ].
  destruct (sc_Finalizers c) as [|f l] eqn:Efin.
  - apply Hsleep; [split_and!; [done..|]; intros n Hn; simpl; by rewrite lookup_delete_ne|].
    rewrite (rel_gone _ _ Hr) by apply lookup_delete_eq. simpl in *. lia.
  - apply Hsleep; [split_and!; [done..|]; intros n Hn; simpl; by rewrite lookup_insert_ne|].
    set (w1 := mkSite _ _ _ _). pose proof (rel_fewer _ _ Hr w1 _ (lookup_insert_eq _ _ _) eq_refl) as Hd.
    destruct (si_clusters (others w1) !! name) as [c'|]; simpl in *; rewrite ?Efin in Hf; simpl in Hf; lia.
Qed.

(** The objects that unjoin removes. *)
Definition unjoin_keys (u : CommandUnJoinOptions) (link tree : bool) : list okey :=
  (if tree then (unjoin_crds u).*1 else []) ++
  [fst (control_secret (leaving u)); fst (kosmos_role (leaving u)); fst (kosmos_binding (leaving u)); fst (control_account (leaving u))] ++
  (if link then [scope_key (leaving u) "ClusterRole" ClusterLinkName; scope_key (leaving u) "ClusterRoleBinding" ClusterLinkName; fst (operator_account (leaving u))] else []) ++
  (if uo_Name u =s DefaultClusterName then [] else [fst (member_namespace (leaving u))]).

Lemma remove_objects_edits u c link tree : sc_Link c = Some link -> sc_Tree c = Some tree ->
  edits trouble (remove_objects faults Generate u c) (drops (unjoin_keys u (ls_Enable link) (ts_Enable tree))).
Proof.
  intros El Et. unfold remove_objects, unjoin_keys. rewrite El, Et, !drops_app.
  assert (Hk : forall k, edits trouble (remove_key faults k) [(k, Drop)]) by (intros k; by apply (edits_remove trouble faults Generate)).
  assert (Hd : forall kv, edits trouble (delete_object faults Generate kv) [(fst kv, Drop)]) by (intros kv; by apply edits_delete).
  apply edits_seq.
  { destruct (ts_Enable tree); [|apply edits_ok]. apply (edits_renders trouble faults Generate (fun x => x)).
    apply (edits_each_one trouble (fun kv => remove_key faults (fst kv)) (fun kv => (fst kv, Drop)) (unjoin_crds u)). intros kv. apply Hk. }
  do 2 (apply edits_cons; [apply Hk || apply Hd|]). do 2 (apply edits_cons; [apply Hd|]). apply edits_seq.
  { destruct (ls_Enable link); [|apply edits_ok]. do 2 (apply edits_cons; [apply Hk|]). apply Hk. }
  case_bool_decide; [apply edits_ok|apply Hk].
Qed.

Lemma unjoin_spec u others fuel w c link tree (X : Site -> Prop) (Q : bool -> Site -> Prop) : releases others (uo_Name u) ->
  si_clusters w !! uo_Name u = Some c -> sc_Link c = Some link -> sc_Tree c = Some tree -> faults (calls_made w) = None -> deletions (Some c) <= fuel ->
  (forall w', trouble -> X w') ->
  (forall w', si_objects w' = edited (drops (unjoin_keys u (ls_Enable link) (ts_Enable tree))) (si_objects w) ->
    si_clusters w' !! uo_Name u = None -> (forall n, n <> uo_Name u -> si_clusters w' !! n = si_clusters w !! n) -> Q true w') ->
  runs (unjoin_runCluster faults Generate u others fuel) w X Q.
Proof.
  intros Hr Hc El Et Hnf Hf HX HQ. unfold unjoin_runCluster, runs, mtry.
  destruct (Get_cases faults clusters (uo_Name u) w) as [(ft & Hft & _)|E]; [congruence|].
  rewrite E. change (rows clusters w) with (si_clusters w). rewrite Hc. unfold unjoin_after. apply runs_seq.
  apply (delete_cluster_spec others (uo_Name u) Hr); [change (si_clusters (next_call w)) with (si_clusters w); by rewrite Hc|intros w' Hf' _; apply HX; by left|].
  intros w1 (A1 & A2 & A3) Hgone. apply runs_seq, (remove_objects_edits u c link tree El Et); [intros l1 l2 w' _ Ht _; by apply HX|].
  intros w' (B1 & B2 & B3)%writes_objects. apply HQ; [by rewrite B1; change (rows objects w1) with (si_objects w1); rewrite A1| |].
  - by rewrite B2.
  - intros n Hn. rewrite B2. by apply A3.
Qed.

(** ** There and back *)

Definition leaves (o : CommandJoinOptions) : CommandUnJoinOptions := mkUnjoin (jo_Server o) (jo_Name o) (jo_Namespace o).

Definition link_roles (o : CommandJoinOptions) : list okey :=
  [scope_key o "ClusterRole" ClusterLinkName; scope_key o "ClusterRoleBinding" ClusterLinkName].

(** Unjoin removes what join created, but the namespace of the control cluster. *)
Lemma unjoin_keys_spec o k : k ∈ unjoin_keys (leaves o) (jo_EnableLink o) (jo_EnableTree o) <->
  k ∈ (join_objects o).*1 /\ ~ (jo_Name o = DefaultClusterName /\ k = fst (member_namespace o)) \/ jo_EnableLink o = true /\ k ∈ link_roles o.
Proof.
  unfold unjoin_keys, join_objects, unjoin_crds, tree_crds, link_roles. simpl uo_Name.
  destruct (decide (jo_Name o = DefaultClusterName)) as [En|En]; [rewrite bool_decide_true by done|rewrite bool_decide_false by done];
  destruct (jo_EnableLink o), (jo_EnableTree o); simpl; unfold leaves, leaving, member_key, scope_key, in_namespace; simpl;
  rewrite ?elem_of_cons, ?elem_of_nil; split; intros H; repeat (destruct_or? H || destruct_and? H); subst; try done; try tauto;
  try (left; split; [tauto|intros [_ ?]; done]).
Qed.

(** The programs of the control plane give the Cluster at most [n] finalizers meanwhile. *)
Record holds (between : Site -> Site) (name : string) (n : nat) : Prop := {
  hold_objects : forall w, si_objects (between w) = si_objects w;
  hold_clusters : forall w m, m <> name -> si_clusters (between w) !! m = si_clusters w !! m;
  hold_cluster : forall w c, si_clusters w !! name = Some c -> exists l, length l <= n /\ si_clusters (between w) !! name = Some (with_finalizers l c) }.

(** C21: a cluster that joins and is later removed again leaves no trace: after unjoin the member
cluster has the objects it had before join and the control plane its Clusters, however many
finalizers the Cluster had got. (With ClusterLink the roles "clusterlink" are gone as well, and
the control cluster keeps the namespace.) Without failed calls only a manifest that cannot be
made stops the two, and the deletion of the Cluster ends after one attempt more than it has
finalizers, and another. *)
Theorem join_unjoin o nodes between others n fuel w :
  ~ faulty faults -> (forall k, k ∈ (join_objects o).*1 -> si_objects w !! k = None) -> si_clusters w !! jo_Name o = None ->
  holds between (jo_Name o) n -> releases others (jo_Name o) -> 2 + n <= fuel ->
  runs (do! _ := runCluster faults Generate o nodes in do! _ := sleep between in unjoin_runCluster faults Generate (leaves o) others fuel) w
    (fun _ => exists template values err, Generate template values = Some err)
    (fun ended w' => ended = true /\ si_clusters w' = si_clusters w /\
      forall k, si_objects w' !! k =
        if bool_decide (jo_Name o = DefaultClusterName /\ k = fst (member_namespace o)) then Some (Literal [])
        else if bool_decide (jo_EnableLink o = true /\ k ∈ link_roles o) then None
        else si_objects w !! k).
Proof.
  intros Hnf Hnew Hnc Hh Hr Hfuel.
  assert (Hman : trouble -> exists template values err, Generate template values = Some err) by (by intros [?|?]).
  apply runs_seq, runCluster_spec; [intros w' [Ht|[? ?]] _; [by apply Hman|congruence]|].
  intros w1 _ _ Ec1 Eo1. apply runs_seq. unfold runs, sleep.
  destruct (hold_cluster _ _ _ Hh w1 (joined_cluster o (models o nodes))) as (l & Hl & Ec); [by rewrite Ec1, lookup_insert_eq|].
  eapply (unjoin_spec (leaves o) others fuel (between w1)); [done|exact Ec|done|done| |simpl; lia|by intros w' Ht; apply Hman|].
  { destruct (faults _) as [ft|] eqn:Ef; [|done]. destruct Hnf. eauto. exists (calls_made (between w1)), ft. done. }
  intros w' Eo' Hgone Hother. split_and!; [done| |].
  - apply map_eq. intros m. destruct (decide (m = jo_Name o)) as [-> |Hm]; [by rewrite Hnc|].
    rewrite Hother by done. rewrite (hold_clusters _ _ _ Hh), Ec1 by done. by rewrite lookup_insert_ne.
  - intros k. rewrite Eo', (hold_objects _ _ _ Hh), Eo1, dropped. cbn [ls_Enable ts_Enable joined_cluster]. pose proof (unjoin_keys_spec o k) as Hk.
    case_bool_decide as Hu.
    + apply Hk in Hu. case_bool_decide as Hd; [destruct Hd as [Hd1 ->]|].
      * exfalso. destruct Hu as [[_ Hu]|[_ Hu]]; [by apply Hu|]. unfold link_roles in Hu. rewrite !elem_of_cons, elem_of_nil in Hu. by destruct_or? Hu.
      * case_bool_decide as Hr'; [done|]. destruct Hu as [[Hu _]|Hu]; [by rewrite Hnew|by destruct Hr'].
    + case_bool_decide as Hd; [destruct Hd as [Hd1 ->]|].
      * rewrite (edit_done _ _ _ (Ensure (Literal []))); [|rewrite ensures_keys; apply join_objects_keys|apply elem_of_ensures; left].
        cbn [outcome_of]. rewrite Hnew; [done|left].
      * rewrite bool_decide_false by (intros Hr'; by apply Hu, Hk; right).
        apply edit_other. rewrite ensures_keys. intros Hj. apply Hu, Hk. by left.
Qed.

End facts.

(** * Examples *)

Definition ex_join (link tree : bool) : CommandJoinOptions :=
  mkJoin "member" "c1" "kosmos-system" "registry" "config" "" "" false false link "calico" "" "p2p" "all" tree "".

Definition empty_site : Site := mkSite 0 ∅ ∅ ∅.

(** The operator and the cluster manager put a finalizer each, and take them away one by one. *)
Definition two_finalizers (name : string) (w : Site) : Site :=
  mkSite (si_calls w) (si_objects w) (alter (with_finalizers ["a"; "b"]) name (si_clusters w)) (si_instances w).
Definition one_less (name : string) (w : Site) : Site :=
  mkSite (si_calls w) (si_objects w)
    (partial_alter (fun o => c ← o; match sc_Finalizers c with [] | [_] => None | _ :: l => Some (with_finalizers l c) end) name (si_clusters w)) (si_instances w).

Lemma two_finalizers_hold name : holds (two_finalizers name) name 2.
Proof.
  split; [done| |]; unfold two_finalizers; simpl.
  - intros w m Hm. by rewrite lookup_alter_ne.
  - intros w c Hc. exists ["a"; "b"]. rewrite lookup_alter_eq, Hc. by split; [simpl; lia|].
Qed.

Lemma one_less_releases name : releases (one_less name) name.
Proof.
  split; [done|done| | |]; unfold one_less; simpl.
  - intros w n Hn. by rewrite lookup_partial_alter_ne.
  - intros w Hn. by rewrite lookup_partial_alter_eq, Hn.
  - intros w c Hc Hd. rewrite lookup_partial_alter_eq, Hc. simpl. destruct (sc_Finalizers c) as [|f [|g l]]; [done|done|]. simpl. split; [done|lia].
Qed.

Lemma join_unjoin_witness :
  let p := do! _ := runCluster (fun _ => None) (fun _ _ => None) (ex_join true true) [] in
    do! _ := sleep (two_finalizers "c1") in unjoin_runCluster (fun _ => None) (fun _ _ => None) (leaves (ex_join true true)) (one_less "c1") 4 in
  exists w, p empty_site = (w, Good true) /\ forall k, si_objects w !! k = None.
Proof.
  pose proof (join_unjoin (fun _ => None) (fun _ _ => None) (ex_join true true) [] (two_finalizers "c1") (one_less "c1") 2 4 empty_site) as H.
  assert (H' := H (fun '(ex_intro _ n (ex_intro _ ft E)) => match E with end) (fun k _ => lookup_empty k) eq_refl (two_finalizers_hold "c1") (one_less_releases "c1") (le_n 4)).
  clear H. intros p. unfold runs in H'. fold p in H'. destruct (p empty_site) as [w [ended|err|]]; [|by destruct H' as (? & ? & ? & ?)|done].
  destruct H' as (-> & _ & H). exists w. split; [done|]. intros k. rewrite H. rewrite bool_decide_false by (by intros [? _]).
  by destruct (bool_decide _).
Defined.

(** Join refuses a name that is taken only when it creates the Cluster, after the namespace, the
account and the CRDs were created; its validation lets it pass. *)
Example taken_name :
  let w := mkSite 0 ∅ {[ "c1" := empty_cluster ]} ∅ in
  snd (Validate (fun _ => None) (ex_join true true) w) = Good tt /\
  snd (runCluster (fun _ => None) (fun _ _ => None) (ex_join true true) [] w) = Bad (IsAlreadyExists "already exists") /\
  size (si_objects (fst (runCluster (fun _ => None) (fun _ _ => None) (ex_join true true) [] w))) = 6.
Proof. by vm_compute. Qed.

(** The secret for the control plane has no kubeconfig: join never reads the one of the host. *)
Example empty_secret :
  si_objects (fst (runCluster (fun _ => None) (fun _ _ => None) (ex_join true true) [] empty_site)) !!
    ("member", "Secret", "kosmos-system", "controlpanel-config")%string = Some (Literal [("kubeconfig", ""%string)]).
Proof. by vm_compute. Qed.

(** A read that fails for the moment: the Cluster is deleted, then unjoin panics. *)
Example failed_read_panics :
  let w := mkSite 0 ∅ {[ "c1" := joined_cluster (ex_join true true) [] ]} ∅ in
  let r := unjoin_runCluster (fun n => if n =? 0 then Some (Fails "timeout") else None) (fun _ _ => None) (leaves (ex_join true true)) (fun w => w) 4 w in
  snd r = Fault /\ si_clusters (fst r) = ∅.
Proof. by vm_compute. Qed.

(** A finalizer that nobody removes: unjoin never ends. *)
Lemma held_cluster_waits fuel l : l <> [] ->
  let w := mkSite 0 ∅ {[ "c1" := with_finalizers l empty_cluster ]} ∅ in
  snd (delete_cluster (fun _ => None) (fun w => w) fuel "c1" w) = Good false.
Proof.
  intros Hl w. assert (H : forall w, (exists c, si_clusters w !! "c1" = Some c /\ sc_Finalizers c = l) -> snd (delete_cluster (fun _ => None) (fun w => w) fuel "c1" w) = Good false).
  { clear w. induction fuel as [|fuel IH]; intros w (c & Hc & Hf); [done|]. simpl. unfold mtry, DeleteCluster, Calls.call. simpl.
    rewrite Hc, Hf. destruct l as [|f l]; [done|]. unfold mseq, sleep. apply IH. eexists. simpl. rewrite lookup_insert_eq. by split. }
  apply H. eexists. split; [apply lookup_singleton_eq|done].
Qed.
