(* ===== verification/CtlInstall.v ===== *)
(** The commands install and uninstall of kosmosctl (kosmosctl/install/install.go,
kosmosctl/uninstall/uninstall.go): the modules of the control plane.

Reading kubeconfigs and making clients from them is not modelled; the server of the control
plane is known by a name. Waiting for pods to be ready (kosmosctl/util/verify.go) is the
parameter [WaitReady]: the error of a wait for a deployment in a state. *)
From S2P Require Import Prelude GoStr PodProg Calls Tables SetupApi OperatorAddons CtlJoin.

Definition HostKubeConfigName : string := "host-kubeconfig".

Inductive module := CoreDNS | ClusterLink | ClusterTree | Scheduler | AllModules.

Record CommandInstallOptions := mkInstall {
  io_Server : string; io_Namespace : string; io_ImageRegistry : string; io_Version : string; io_Module : module;
  io_HostKubeConfigStream : string; io_InnerKubeConfigStream : string; io_CNI : string; io_DefaultNICName : string;
  io_NetworkType : string; io_IPFamily : string; io_UseProxy : string; io_CertEncode : string; io_KeyEncode : string }.

(** ** Objects of the modules *)

Section objects.
  Context (server namespace : string).

Definition host_key (kind name : string) : okey := (server, kind, namespace, name).
Definition host_scope (kind name : string) : okey := (server, kind, "", name).
Definition crd_key (name : string) : okey := host_scope "CRD" name.
Definition deployment_key (name : string) : okey := host_key "Deployment" name.

Definition network_manager : string := "clusterlink-network-manager".
Definition cluster_manager : string := "clustertree-cluster-manager".

(** A manifest that takes the namespace, and one without values. *)
Definition spaced (template : string) : content := Rendered template [("Namespace", namespace)].
Definition bare_manifest (template : string) : content := Rendered template [].

End objects.

Section install.
  Context (faults : nat -> option fault) (Generate : string -> list (string * string) -> option string).
  Context (WaitReady : Site -> string -> option string).

Definition wait_ready (name : string) : SM unit := fun w =>
  match WaitReady w name with Some err => (w, Bad (OtherError err)) | None => (w, Good tt) end.

(** Objects whose manifests are all made before the first is created. *)
Definition create_crds (crds : list (okey * content)) : SM unit :=
  do! _ := each (fun kv => render Generate (snd kv)) crds in
  each (fun kv => unless_exists (Create faults objects (fst kv) (snd kv))) crds.

(** * Install *)

Section command.
  Context (o : CommandInstallOptions).
  Abbreviation server := (io_Server o).
  Abbreviation ns := (io_Namespace o).

(** [InnerKubeConfigStream], or else [HostKubeConfigStream]. *)
Definition kubeconfig : string := if str_empty (io_InnerKubeConfigStream o) then io_HostKubeConfigStream o else io_InnerKubeConfigStream o.

Definition kosmos_namespace : okey * content := (host_scope server "Namespace" ns, Literal []).

Definition deployment (template name : string) (more : list (string * string)) : okey * content :=
  (deployment_key server ns name, Rendered template ([("Namespace", ns); ("ImageRepository", io_ImageRegistry o)] ++ more)).

Definition operator_objects : list (okey * content) :=
  [deployment "ClusterlinkOperatorDeployment" OperatorName [("Version", io_Version o); ("UseProxy", io_UseProxy o)];
   (host_key server ns "Secret" ControlPanelSecretName, Literal [("kubeconfig", kubeconfig)]);
   (host_scope server "ClusterRole" "kosmos", bare_manifest "KosmosClusterRole");
   (host_scope server "ClusterRoleBinding" "kosmos", spaced ns "KosmosClusterRoleBinding");
   (host_key server ns "ServiceAccount" OperatorName, spaced ns "ClusterlinkOperatorServiceAccount")].

Definition createOperator : SM unit :=
  do! _ := create_all faults Generate operator_objects in wait_ready OperatorName.

Definition link_rbac : list (okey * content) :=
  [kosmos_namespace;
   (host_key server ns "ServiceAccount" network_manager, spaced ns "ClusterlinkNetworkManagerServiceAccount");
   (host_scope server "ClusterRole" network_manager, bare_manifest "ClusterlinkNetworkManagerClusterRole");
   (host_scope server "ClusterRoleBinding" network_manager, spaced ns "ClusterlinkNetworkManagerClusterRoleBinding")].

Definition link_crds : list (okey * content) :=
  [(crd_key server "clusters.kosmos.io", spaced ns "Cluster");
   (crd_key server "clusternodes.kosmos.io", bare_manifest "ClusterlinkClusterNode");
   (crd_key server "nodeconfigs.kosmos.io", bare_manifest "ClusterlinkNodeConfig")].

Definition link_deployment : okey * content := deployment "ClusterlinkNetworkManagerDeployment" network_manager [("Version", io_Version o)].

Definition ensure_operator : SM unit :=
  do! _ := render Generate (snd (deployment "ClusterlinkOperatorDeployment" OperatorName [("Version", io_Version o); ("UseProxy", io_UseProxy o)])) in
  mtry (Get faults objects (deployment_key server ns OperatorName)) (fun _ => mok tt) (fun err =>
    match err with IsNotFound _ => createOperator | _ => merr err end).

Definition runClusterlink : SM unit :=
  do! _ := create_all faults Generate link_rbac in
  do! _ := create_crds link_crds in
  do! _ := create_object faults Generate link_deployment in
  do! _ := wait_ready network_manager in
  ensure_operator.

Definition tree_objects : list (okey * content) :=
  [kosmos_namespace;
   (host_key server ns "ServiceAccount" "clustertree", spaced ns "ClusterTreeServiceAccount");
   (host_scope server "ClusterRole" "clustertree", bare_manifest "ClusterTreeClusterRole");
   (host_scope server "ClusterRoleBinding" "clustertree", spaced ns "ClusterTreeClusterRoleBinding");
   (crd_key server "clusters.kosmos.io", bare_manifest "Cluster");
   (host_key server ns "ConfigMap" HostKubeConfigName, Literal [("kubeconfig", kubeconfig)]);
   (host_key server ns "Secret" cluster_manager,
     Rendered "ClusterTreeClusterManagerSecret" [("Namespace", ns); ("Cert", io_CertEncode o); ("Key", io_KeyEncode o)]);
   deployment "ClusterTreeClusterManagerDeployment" cluster_manager [("Version", io_Version o)]].

Definition runClustertree : SM unit := do! _ := create_all faults Generate tree_objects in wait_ready cluster_manager.

Definition scheduler_first : list (okey * content) :=
  [kosmos_namespace;
   (host_key server ns "ServiceAccount" "kosmos-scheduler", spaced ns "SchedulerServiceAccount");
   (host_scope server "ClusterRole" "kosmos-scheduler", bare_manifest "SchedulerClusterRole");
   (host_scope server "ClusterRoleBinding" "kosmos-scheduler", spaced ns "SchedulerClusterRoleBinding");
   (host_key server ns "ConfigMap" "scheduler-config", spaced ns "SchedulerConfigmap");
   (host_key server ns "ConfigMap" HostKubeConfigName, Literal [("kubeconfig", kubeconfig)])].

Definition scheduler_crds : list (okey * content) :=
  [(crd_key server "clusterdistributionpolicies.kosmos.io", spaced ns "SchedulerClusterDistributionPolicies");
   (crd_key server "distributionpolicies.kosmos.io", bare_manifest "SchedulerDistributionPolicies")].

Definition scheduler_deployment : okey * content := deployment "SchedulerDeployment" "kosmos-scheduler" [("Version", io_Version o)].

Definition runScheduler : SM unit :=
  do! _ := create_all faults Generate scheduler_first in
  do! _ := create_crds scheduler_crds in
  do! _ := create_object faults Generate scheduler_deployment in
  wait_ready "kosmos-scheduler".

Definition coredns_objects : list (okey * content) :=
  [kosmos_namespace;
   (host_key server ns "ServiceAccount" "coredns", spaced ns "CorednsServiceAccount");
   (host_scope server "ClusterRole" "kosmos-coredns", bare_manifest "CorednsClusterRole");
   (host_scope server "ClusterRoleBinding" "kosmos-coredns", spaced ns "CorednsClusterRoleBinding");
   (host_key server ns "ConfigMap" "coredns", spaced ns "CorednsCorefile");
   (host_key server ns "ConfigMap" "coredns-customer-hosts", spaced ns "CorednsCustomerHosts");
   (crd_key server "clusters.kosmos.io", spaced ns "Cluster");
   deployment "CorednsDeployment" "coredns" []].

Definition coredns_service : okey * content := (host_key server ns "Service" "coredns", spaced ns "CorednsService").

Definition runCoreDNS : SM unit :=
  do! _ := create_all faults Generate coredns_objects in
  do! _ := wait_ready "coredns" in
  create_object faults Generate coredns_service.

(** ** The control cluster *)

Definition control_join (link tree : bool) : CommandJoinOptions :=
  mkJoin server DefaultClusterName ns (io_ImageRegistry o) (io_HostKubeConfigStream o) (io_InnerKubeConfigStream o) "" true
    false link (if link then io_CNI o else "") (if link then io_DefaultNICName o else "") (if link then io_NetworkType o else "")
    (if link then io_IPFamily o else "") tree "".

Definition enable_link (l : LinkSpec) : LinkSpec :=
  mkLinkSpec true (io_CNI o)
    (if io_NetworkType o =s "gateway" then "gateway" else if io_NetworkType o =s "p2p" then "p2p" else ls_NetworkType l)
    (if io_IPFamily o =s "ipv4" then "ipv4" else if io_IPFamily o =s "ipv6" then "ipv6" else ls_IPFamily l)
    (ls_Local l) (ls_Bridge l) (io_DefaultNICName o).

Definition enable_tree (t : TreeSpec) : TreeSpec := mkTreeSpec true (ts_LeafModels t).

Definition with_specs (link : LinkSpec) (tree : TreeSpec) (c : SiteCluster) : SiteCluster :=
  mkSiteCluster (sc_Finalizers c) (sc_Deleting c) (sc_Annotations c) (sc_Kubeconfig c) (sc_Namespace c) (sc_ImageRepository c) (Some link) (Some tree).

Definition set_link (l : LinkSpec) (c : SiteCluster) : SiteCluster :=
  mkSiteCluster (sc_Finalizers c) (sc_Deleting c) (sc_Annotations c) (sc_Kubeconfig c) (sc_Namespace c) (sc_ImageRepository c) (Some l) (sc_Tree c).
Definition set_tree (t : TreeSpec) (c : SiteCluster) : SiteCluster :=
  mkSiteCluster (sc_Finalizers c) (sc_Deleting c) (sc_Annotations c) (sc_Kubeconfig c) (sc_Namespace c) (sc_ImageRepository c) (sc_Link c) (Some t).

(** The control cluster is read; when there is none it joins. *)
Definition with_control_cluster (link tree : bool) (f : SiteCluster -> SM unit) : SM unit :=
  mtry (Get faults clusters DefaultClusterName) f (fun err =>
    match err with IsNotFound _ => CtlJoin.runCluster faults Generate (control_join link tree) [] | _ => merr err end).

Definition write_control (c : SiteCluster) : SM unit := Update faults clusters DefaultClusterName c.

Definition createControlCluster : SM unit :=
  match io_Module o with
  | ClusterLink => with_control_cluster true false (fun c =>
      match sc_Link c with
      | None => mfault
      | Some l => if negb (ls_Enable l) then write_control (set_link (enable_link l) c) else mok tt
      end)
  | ClusterTree => with_control_cluster false true (fun c =>
      do! _ := CreateTreeRelatedCRDs faults Generate (control_join false true) in
      match sc_Tree c with
      | None => mfault
      | Some t => if negb (ts_Enable t) then write_control (set_tree (enable_tree t) c) else mok tt
      end)
  | AllModules => with_control_cluster true true (fun c =>
      match sc_Tree c, sc_Link c with
      | None, _ => mfault
      | Some t, None => mfault
      | Some t, Some l =>
          if negb (ts_Enable t) || negb (ls_Enable l) then write_control (with_specs (enable_link l) (enable_tree t) c) else mok tt
      end)
  | _ => mok tt
  end.

Definition install_Run : SM unit :=
  match io_Module o with
  | CoreDNS => runCoreDNS
  | ClusterLink => do! _ := runClusterlink in createControlCluster
  | ClusterTree => do! _ := runClustertree in createControlCluster
  | Scheduler => do! _ := runScheduler in createControlCluster
  | AllModules => do! _ := runClusterlink in do! _ := runClustertree in createControlCluster
  end.

End command.

(** * Uninstall *)

Record CommandUninstallOptions := mkUninstall { un_Server : string; un_Namespace : string; un_Version : string; un_Module : module }.

Section remove.
  Context (u : CommandUninstallOptions).
  Abbreviation server := (un_Server u).
  Abbreviation ns := (un_Namespace u).

(** The list of a custom kind: not found without its CRD. *)
Definition list_instances (crd : string) (count : Site -> nat) : SM nat := Calls.call (oracle faults) (fun w =>
  match si_objects w !! crd_key server crd with Some _ => (w, Good (count w)) | None => (w, Bad (IsNotFound "not found")) end).

Definition count_clusters (w : Site) : nat := size (si_clusters w).
Definition count_of (kind : string) (w : Site) : nat := default 0 (si_instances w !! kind).

(** A CRD is removed unless it has instances. *)
Definition remove_crd (crd template : string) (count : Site -> nat) : SM unit :=
  mtry (list_instances crd count)
    (fun n => if 0 <? n then mok tt else delete_object faults Generate (crd_key server crd, bare_manifest template))
    (fun err => match err with IsNotFound _ => mok tt | _ => merr err end).

Definition versioned : list (string * string) := [("Namespace", ns); ("Version", un_Version u)].

(** The operator goes with the last of the two modules; an error of the read is ignored. *)
Definition remove_operator (other template : string) : SM unit :=
  do! _ := render Generate (bare_manifest template) in
  mtry (Get faults objects (deployment_key server ns other)) (fun _ => mok tt) (fun err =>
    match err with
    | IsNotFound _ => delete_object faults Generate (deployment_key server ns OperatorName, Rendered "ClusterlinkOperatorDeployment" versioned)
    | _ => mok tt
    end).

Definition uninstall_runClusterlink : SM unit :=
  do! _ := delete_object faults Generate (deployment_key server ns network_manager, Rendered "ClusterlinkNetworkManagerDeployment" versioned) in
  do! _ := remove_crd "clusters.kosmos.io" "Cluster" count_clusters in
  do! _ := remove_crd "clusternodes.kosmos.io" "ClusterlinkClusterNode" (count_of "clusternodes") in
  do! _ := remove_crd "nodeconfigs.kosmos.io" "ClusterlinkNodeConfig" (count_of "nodeconfigs") in
  do! _ := delete_all faults Generate
    [(host_scope server "ClusterRoleBinding" network_manager, bare_manifest "ClusterlinkNetworkManagerClusterRoleBinding");
     (host_scope server "ClusterRole" network_manager, bare_manifest "ClusterlinkNetworkManagerClusterRole");
     (host_key server ns "ServiceAccount" network_manager, bare_manifest "ClusterlinkNetworkManagerServiceAccount")] in
  remove_operator cluster_manager "ClusterTreeClusterManagerDeployment".

(** The secret is deleted only when the deployment was there. *)
Definition remove_tree_deployment : SM unit :=
  do! _ := render Generate (Rendered "ClusterTreeClusterManagerDeployment" versioned) in
  mtry (Delete faults objects (deployment_key server ns cluster_manager))
    (fun _ => delete_object faults Generate (host_key server ns "Secret" cluster_manager,
      Rendered "ClusterTreeClusterManagerSecret" [("Namespace", ns); ("Cert", ""); ("Key", "")]))
    (fun err => match err with IsNotFound _ => mok tt | _ => merr err end).

Definition uninstall_runClustertree : SM unit :=
  do! _ := remove_tree_deployment in
  do! _ := remove_crd "clusters.kosmos.io" "Cluster" count_clusters in
  do! _ := unless_gone (Delete faults objects (host_key server ns "ConfigMap" HostKubeConfigName)) in
  do! _ := delete_all faults Generate
    [(host_scope server "ClusterRoleBinding" "clustertree", bare_manifest "ClusterTreeClusterRoleBinding");
     (host_scope server "ClusterRole" "clustertree", bare_manifest "ClusterTreeClusterRole");
     (host_key server ns "ServiceAccount" "clustertree", bare_manifest "ClusterTreeServiceAccount")] in
  remove_operator network_manager "ClusterlinkNetworkManagerDeployment".

Definition uninstall_runScheduler : SM unit :=
  do! _ := delete_all faults Generate
    [(deployment_key server ns "kosmos-scheduler", Rendered "SchedulerDeployment" versioned);
     (host_key server ns "ConfigMap" "scheduler-config", bare_manifest "SchedulerConfigmap");
     (host_scope server "ClusterRoleBinding" "kosmos-scheduler", bare_manifest "SchedulerClusterRoleBinding");
     (host_scope server "ClusterRole" "kosmos-scheduler", bare_manifest "SchedulerClusterRole");
     (host_key server ns "ServiceAccount" "kosmos-scheduler", bare_manifest "SchedulerServiceAccount")] in
  remove_crd "clusterdistributionpolicies.kosmos.io" "SchedulerClusterDistributionPolicies" (count_of "clusterdistributionpolicies").

(** Here the list of the dynamic client is nil when there is no CRD, and its length is asked for;
the error of the manifest is dropped, and the name of a nil CRD asked for. *)
Definition remove_crd_dynamic : SM unit :=
  mtry (list_instances "clusters.kosmos.io" count_clusters)
    (fun n =>
      if 0 <? n then mok tt
      else match Generate "Cluster" [] with
      | Some _ => mfault
      | None => unless_gone (Delete faults objects (crd_key server "clusters.kosmos.io"))
      end)
    (fun err => match err with IsNotFound _ => mfault | _ => merr err end).

Definition uninstall_runCoredns : SM unit :=
  do! _ := delete_all faults Generate
    [(deployment_key server ns "coredns", bare_manifest "CorednsDeployment");
     (host_key server ns "Service" "coredns", bare_manifest "CorednsService");
     (host_key server ns "ConfigMap" "coredns", bare_manifest "CorednsCorefile");
     (host_key server ns "ConfigMap" "coredns-customer-hosts", bare_manifest "CorednsCustomerHosts")] in
  do! _ := remove_crd_dynamic in
  delete_all faults Generate
    [(host_scope server "ClusterRoleBinding" "kosmos-coredns", bare_manifest "CorednsClusterRoleBinding");
     (host_scope server "ClusterRole" "kosmos-coredns", bare_manifest "CorednsClusterRole");
     (host_key server ns "ServiceAccount" "coredns", bare_manifest "CorednsServiceAccount")].

Definition uninstall_Run : SM unit :=
  match un_Module u with
  | CoreDNS => uninstall_runCoredns
  | ClusterLink => uninstall_runClusterlink
  | ClusterTree => uninstall_runClustertree
  | Scheduler => uninstall_runScheduler
  | AllModules =>
      do! _ := uninstall_runClusterlink in
      do! _ := uninstall_runClustertree in
      unless_gone (Delete faults objects (host_scope server "Namespace" ns))
  end.

End remove.
End install.

(** * Facts: install *)

Section facts.
  Context (faults : nat -> option fault) (Generate : string -> list (string * string) -> option string).
  Context (WaitReady : Site -> string -> option string).

(** A call, a manifest or a deployment failed. *)
Definition install_trouble : Prop := troubled faults Generate \/ exists w name err, WaitReady w name = Some err.

Lemma troubled_install : troubled faults Generate -> install_trouble.
Proof. by left. Qed.

Lemma edits_wait name : edits install_trouble (wait_ready WaitReady name) [].
Proof.
  intros w X Q HX HQ. unfold runs, wait_ready. destruct (WaitReady w name) as [err|] eqn:E.
  - apply (HX [] []); [done|right; eauto|apply writes_same].
  - apply HQ, writes_same.
Qed.

Lemma edits_create_crds l : edits install_trouble (create_crds faults Generate l) (ensures l).
Proof.
  apply (edits_renders install_trouble faults Generate troubled_install).
  apply (edits_each_one install_trouble (fun kv => unless_exists (Create faults objects (fst kv) (snd kv))) (fun kv => (fst kv, Ensure (snd kv)))).
  intros kv. apply (edits_ensure install_trouble faults Generate troubled_install).
Qed.

Lemma edits_then_wait p l name : edits install_trouble p l -> edits install_trouble (do! _ := p in wait_ready WaitReady name) l.
Proof. intros Hp. rewrite <- (app_nil_r l). apply edits_seq; [done|apply edits_wait]. Qed.

Section module.
  Context (o : CommandInstallOptions).

Definition operator_key : okey := deployment_key (io_Server o) (io_Namespace o) OperatorName.

(** What runClusterlink creates; the operator when it is not there. *)
Definition link_objects (operator : bool) : list (okey * content) :=
  link_rbac o ++ link_crds o ++ [link_deployment o] ++ (if operator then [] else operator_objects o).

Definition has_operator (w : Site) : bool := bool_decide (is_Some (si_objects w !! operator_key)).
Definition has_control (w : Site) : bool := bool_decide (is_Some (si_clusters w !! DefaultClusterName)).

Lemma edits_createOperator : edits install_trouble (createOperator faults Generate WaitReady o) (ensures (operator_objects o)).
Proof. apply edits_then_wait. apply (edits_create_all install_trouble faults Generate troubled_install). Qed.

Lemma edits_ensure_operator w :
  edits_at install_trouble w (ensure_operator faults Generate WaitReady o) (ensures (if has_operator w then [] else operator_objects o)).
Proof.
  intros X Q HX HQ. unfold ensure_operator. apply runs_seq, (runs_render faults Generate).
  { intros Ht. apply (HX [] (ensures (if has_operator w then [] else operator_objects o))); [done|by left|apply writes_same]. }
  unfold has_operator in *. apply (runs_read faults objects).
  - intros Hf. eapply (HX [] _); [done|by left; left|apply (writes_tick objects)].
  - change (rows objects w) with (si_objects w). intros v Hv. apply runs_ok. apply HQ. fold operator_key in Hv. rewrite Hv. rewrite bool_decide_true by eauto. apply (writes_tick objects).
  - change (rows objects w) with (si_objects w). intros Hn. fold operator_key in Hn. rewrite Hn in *. rewrite bool_decide_false in * by (by intros [? ?]).
    apply edits_createOperator.
    + intros l1 l2 w' E Ht Hw. apply (HX l1 l2); [done|done|]. rewrite rows_tick in Hw. eapply writes_trans; [apply (writes_tick objects)|done].
    + intros w' Hw. apply HQ. rewrite rows_tick in Hw. eapply writes_trans; [apply (writes_tick objects)|done].
Qed.

Lemma edits_runClusterlink w :
  edits_at install_trouble w (runClusterlink faults Generate WaitReady o) (ensures (link_objects (has_operator w))).
Proof.
  unfold runClusterlink, link_objects. rewrite !ensures_app. apply edits_at_seq; [apply (edits_create_all install_trouble faults Generate troubled_install)|]. intros w1 H1.
  apply edits_at_seq; [apply edits_create_crds|]. intros w2 H2. apply edits_at_seq; [apply (edits_create install_trouble faults Generate troubled_install)|]. intros w3 H3.
  apply (edits_at_seq install_trouble w3 _ _ []); [apply edits_wait|]. intros w4 H4.
  assert (has_operator w4 = has_operator w) as <-; [|apply edits_ensure_operator].
  apply writes_objects in H1 as (E1 & _), H2 as (E2 & _), H3 as (E3 & _), H4 as (E4 & _). unfold has_operator.
  change (rows objects w) with (si_objects w) in E1. change (rows objects w1) with (si_objects w1) in E2.
  change (rows objects w2) with (si_objects w2) in E3. change (rows objects w3) with (si_objects w3) in E4. simpl in E4.
  rewrite E4, E3, edit_other, E2, edit_other, E1, edit_other; [done|..]; rewrite ?ensures_keys; simpl; rewrite ?elem_of_cons, ?elem_of_nil;
    intros ?; destruct_or?; try done.
Qed.

Lemma edits_runClustertree : edits install_trouble (runClustertree faults Generate WaitReady o) (ensures (tree_objects o)).
Proof. apply edits_then_wait. apply (edits_create_all install_trouble faults Generate troubled_install). Qed.

Lemma edits_runScheduler : edits install_trouble (runScheduler faults Generate WaitReady o)
  (ensures (scheduler_first o ++ scheduler_crds o ++ [scheduler_deployment o])).
Proof.
  rewrite !ensures_app. apply edits_seq; [apply (edits_create_all install_trouble faults Generate troubled_install)|]. apply edits_seq; [apply edits_create_crds|].
  apply edits_then_wait. apply (edits_create install_trouble faults Generate troubled_install).
Qed.

Lemma edits_runCoreDNS : edits install_trouble (runCoreDNS faults Generate WaitReady o) (ensures (coredns_objects o ++ [coredns_service o])).
Proof.
  rewrite ensures_app. apply edits_seq; [apply (edits_create_all install_trouble faults Generate troubled_install)|].
  apply (edits_seq install_trouble _ _ []); [apply edits_wait|apply (edits_create install_trouble faults Generate troubled_install)].
Qed.

(** ** The control cluster *)

Definition asks_link : bool := match io_Module o with ClusterLink | AllModules => true | _ => false end.
Definition asks_tree : bool := match io_Module o with ClusterTree | AllModules => true | _ => false end.

(** The objects that go with the control cluster; [control] says that it was there. *)
Definition control_objects (control : bool) : list (okey * content) :=
  match io_Module o with
  | ClusterLink => if control then [] else join_objects (control_join o true false)
  | ClusterTree => if control then tree_crds (control_join o false true) else join_objects (control_join o false true)
  | AllModules => if control then [] else join_objects (control_join o true true)
  | _ => []
  end.

(** The modules asked for are enabled in the control cluster. *)
Definition modules_enabled (w : Site) : Prop :=
  (asks_link = true -> exists c l, si_clusters w !! DefaultClusterName = Some c /\ sc_Link c = Some l /\ ls_Enable l = true) /\
  (asks_tree = true -> exists c t, si_clusters w !! DefaultClusterName = Some c /\ sc_Tree c = Some t /\ ts_Enable t = true).

(** Since [w] the objects [l] were ensured and only the control cluster may have changed. *)
Definition set_up (w : Site) (l : list (okey * content)) (w' : Site) : Prop :=
  si_objects w' = edited (ensures l) (si_objects w) /\ forall n, n <> DefaultClusterName -> si_clusters w' !! n = si_clusters w !! n.

Lemma ensured_set_up w l w' : ensured w l w' -> set_up w l w'.
Proof. intros (E1 & E2 & _). split; [done|]. intros n _. by rewrite E2. Qed.

(** A join of the control cluster. *)
Lemma join_control link tree w l w1 (X : Site -> Prop) (Q : unit -> Site -> Prop) : ensured w l w1 -> si_clusters w !! DefaultClusterName = None ->
  (forall w' a b, install_trouble -> join_objects (control_join o link tree) = a ++ b -> set_up w (l ++ a) w' -> X w') ->
  (forall w', set_up w (l ++ join_objects (control_join o link tree)) w' ->
    si_clusters w' !! DefaultClusterName = Some (joined_cluster (control_join o link tree) []) -> Q tt w') ->
  runs (CtlJoin.runCluster faults Generate (control_join o link tree) []) w1 X Q.
Proof.
  intros (E1 & E2 & E3) Hn HX HQ. apply runCluster_spec; cbn [jo_Name control_join].
  - intros w' Ht [(a & b & Eab & Eo) Hc]. apply (HX w' a b); [|done|].
    + destruct Ht as [Ht|[c Hs]]; [by left|]. rewrite E2, Hn in Hs. done.
    + split; [by rewrite Eo, E1, ensures_app, edited_app|]. intros n Hd. destruct Hc as [-> | ->]; [by rewrite E2|]. by rewrite lookup_insert_ne, E2.
  - intros w' _ _ Hc Ho. apply HQ.
    + split; [by rewrite Ho, E1, ensures_app, edited_app|]. intros n Hd. by rewrite Hc, lookup_insert_ne, E2.
    + rewrite Hc, lookup_insert_eq. by destruct tree.
Qed.

(** The control cluster that is there is written, or was as it should be. *)
Lemma write_control_spec (need : bool) w l w1 c c' (X : Site -> Prop) (Q : unit -> Site -> Prop) : ensured w l w1 -> si_clusters w !! DefaultClusterName = Some c ->
  (forall w', install_trouble -> set_up w l w' -> X w') ->
  (forall w', set_up w l w' -> si_clusters w' !! DefaultClusterName = Some (if need then c' else c) -> Q tt w') ->
  runs (if need then write_control faults c' else mok tt) w1 X Q.
Proof.
  intros He Hc HX HQ. pose proof He as (E1 & E2 & _). destruct need; [|apply runs_ok, HQ; [by apply ensured_set_up|by rewrite E2]].
  apply (runs_Update faults clusters); change (rows clusters w1) with (si_clusters w1).
  - intros Hf. apply HX; [by left; left|by apply ensured_set_up].
  - rewrite E2. congruence.
  - intros w' (F1 & F2 & _)%writes_clusters. rewrite E2 in F1. apply HQ; [split; [congruence|]|by rewrite F1, lookup_insert_eq].
    intros n Hn. by rewrite F1, lookup_insert_ne.
Qed.

Lemma with_control_spec link tree f w l w1 (X : Site -> Prop) (Q : unit -> Site -> Prop) : ensured w l w1 ->
  (forall w', install_trouble -> set_up w l w' -> X w') ->
  (forall c w2, si_clusters w !! DefaultClusterName = Some c -> ensured w l w2 -> runs (f c) w2 X Q) ->
  (si_clusters w !! DefaultClusterName = None ->
    (forall w' a b, install_trouble -> join_objects (control_join o link tree) = a ++ b -> set_up w (l ++ a) w' -> X w') /\
    (forall w', set_up w (l ++ join_objects (control_join o link tree)) w' ->
      si_clusters w' !! DefaultClusterName = Some (joined_cluster (control_join o link tree) []) -> Q tt w')) ->
  runs (with_control_cluster faults Generate o link tree f) w1 X Q.
Proof.
  intros He HX Hf Hn. pose proof He as (E1 & E2 & E3). unfold with_control_cluster.
  apply (runs_read faults clusters); change (rows clusters w1) with (si_clusters w1); rewrite ?E2.
  - intros Hfa. apply HX; [by left; left|]. by apply (ensured_set_up w l w1).
  - intros c Hc. by apply Hf.
  - intros Hc. destruct (Hn Hc). by apply (join_control link tree w l).
Qed.

Lemma createControlCluster_spec w l w1 (X : Site -> Prop) (Q : unit -> Site -> Prop) : ensured w l w1 ->
  (forall c, si_clusters w !! DefaultClusterName = Some c -> is_Some (sc_Link c) /\ is_Some (sc_Tree c)) ->
  (forall w' a b, install_trouble -> control_objects (has_control w) = a ++ b -> set_up w (l ++ a) w' -> X w') ->
  (forall w', set_up w (l ++ control_objects (has_control w)) w' -> modules_enabled w' -> Q tt w') ->
  runs (createControlCluster faults Generate o) w1 X Q.
Proof.
  intros He Hspec HX HQ. unfold createControlCluster, modules_enabled, asks_link, asks_tree, control_objects, has_control in *.
  destruct (io_Module o) eqn:Em.
  1, 4: (apply runs_ok, HQ; [rewrite app_nil_r; by apply ensured_set_up|by split]).
  - apply (with_control_spec true false _ w l); [done|intros w' Ht Hs; apply (HX w' [] _ Ht eq_refl); by rewrite app_nil_r| |].
    + intros c w2 Hc H2. destruct (Hspec c Hc) as [[lk El] _]. rewrite El. rewrite Hc, bool_decide_true in * by eauto.
      apply (write_control_spec _ w l w2 c); [done|done|intros w' Ht Hs; apply (HX w' [] [] Ht eq_refl); by rewrite app_nil_r|].
      intros w' Hs Hc'. apply HQ; [by rewrite app_nil_r|]. split; [|done]. intros _. destruct (ls_Enable lk) eqn:Een; simpl in Hc'; eauto 6.
    + intros Hn. rewrite Hn, bool_decide_false in * by (by intros [? ?]). split; [done|]. intros w' Hs Hc'. apply HQ; [done|]. split; [|done].
      intros _. eexists _, _. by split_and!.
  - apply (with_control_spec false true _ w l); [done|intros w' Ht Hs; apply (HX w' [] _ Ht eq_refl); by rewrite app_nil_r| |].
    + intros c w2 Hc H2. destruct (Hspec c Hc) as [_ [tr Et]]. rewrite Et. rewrite Hc, bool_decide_true in * by eauto.
      apply runs_seq, (ensured_step install_trouble w l (tree_crds (control_join o false true))); [apply (edits_create_all install_trouble faults Generate troubled_install)|done| |].
      { intros w' a b Ht E Hs. apply (HX w' a b Ht E). by apply ensured_set_up. }
      intros w3 H3. apply (write_control_spec _ w (l ++ tree_crds (control_join o false true)) w3 c); [done|done| |].
      { intros w' Ht Hs. apply (HX w' (tree_crds (control_join o false true)) [] Ht); [by rewrite app_nil_r|done]. }
      intros w' Hs Hc'. apply HQ; [done|]. split; [done|]. intros _. destruct (ts_Enable tr) eqn:Een; simpl in Hc'; eauto 6.
    + intros Hn. rewrite Hn, bool_decide_false in * by (by intros [? ?]). split; [done|]. intros w' Hs Hc'. apply HQ; [done|]. split; [done|].
      intros _. eexists _, _. by split_and!.
  - apply (with_control_spec true true _ w l); [done|intros w' Ht Hs; apply (HX w' [] _ Ht eq_refl); by rewrite app_nil_r| |].
    + intros c w2 Hc H2. destruct (Hspec c Hc) as [[lk El] [tr Et]]. rewrite El, Et. rewrite Hc, bool_decide_true in * by eauto.
      apply (write_control_spec _ w l w2 c); [done|done|intros w' Ht Hs; apply (HX w' [] [] Ht eq_refl); by rewrite app_nil_r|].
      intros w' Hs Hc'. apply HQ; [by rewrite app_nil_r|].
      destruct (ts_Enable tr) eqn:Een1, (ls_Enable lk) eqn:Een2; simpl in Hc'; split; intros _; eauto 6.
    + intros Hn. rewrite Hn, bool_decide_false in * by (by intros [? ?]). split; [done|]. intros w' Hs Hc'. apply HQ; [done|].
      split; intros _; eexists _, _; by split_and!.
Qed.

(** ** All modules *)

Definition install_objects (w : Site) : list (okey * content) :=
  match io_Module o with
  | CoreDNS => coredns_objects o ++ [coredns_service o]
  | ClusterLink => link_objects (has_operator w)
  | ClusterTree => tree_objects o
  | Scheduler => scheduler_first o ++ scheduler_crds o ++ [scheduler_deployment o]
  | AllModules => link_objects (has_operator w) ++ tree_objects o
  end ++ control_objects (has_control w).


End module.
(** * Facts: uninstall *)

Section uninstalled.
  Context (u : CommandUninstallOptions).
  Abbreviation server := (un_Server u).
  Abbreviation ns := (un_Namespace u).
  Abbreviation trouble := (troubled faults Generate).

Definition the_operator : okey := deployment_key server ns OperatorName.
Definition there (w : Site) (name : string) : bool := bool_decide (is_Some (si_objects w !! deployment_key server ns name)).

Definition crd_gone (crd : string) (n : nat) : list okey := if 0 <? n then [] else [crd_key server crd].

(** What each module takes away; [tree] and [link] say whether its deployment is there. *)
Definition link_gone (w : Site) (tree : bool) : list okey :=
  [deployment_key server ns network_manager] ++ crd_gone "clusters.kosmos.io" (count_clusters w) ++
  crd_gone "clusternodes.kosmos.io" (count_of "clusternodes" w) ++ crd_gone "nodeconfigs.kosmos.io" (count_of "nodeconfigs" w) ++
  [host_scope server "ClusterRoleBinding" network_manager; host_scope server "ClusterRole" network_manager; host_key server ns "ServiceAccount" network_manager] ++
  (if tree then [] else [the_operator]).
Definition tree_gone (w : Site) (tree link : bool) : list okey :=
  (deployment_key server ns cluster_manager :: if tree then [host_key server ns "Secret" cluster_manager] else []) ++
  crd_gone "clusters.kosmos.io" (count_clusters w) ++ [host_key server ns "ConfigMap" HostKubeConfigName] ++
  [host_scope server "ClusterRoleBinding" "clustertree"; host_scope server "ClusterRole" "clustertree"; host_key server ns "ServiceAccount" "clustertree"] ++
  (if link then [] else [the_operator]).
Definition scheduler_gone (w : Site) : list okey :=
  [deployment_key server ns "kosmos-scheduler"; host_key server ns "ConfigMap" "scheduler-config"; host_scope server "ClusterRoleBinding" "kosmos-scheduler";
   host_scope server "ClusterRole" "kosmos-scheduler"; host_key server ns "ServiceAccount" "kosmos-scheduler"] ++
  crd_gone "clusterdistributionpolicies.kosmos.io" (count_of "clusterdistributionpolicies" w).
Definition coredns_gone (w : Site) : list okey :=
  [deployment_key server ns "coredns"; host_key server ns "Service" "coredns"; host_key server ns "ConfigMap" "coredns";
   host_key server ns "ConfigMap" "coredns-customer-hosts"] ++ crd_gone "clusters.kosmos.io" (count_clusters w) ++
  [host_scope server "ClusterRoleBinding" "kosmos-coredns"; host_scope server "ClusterRole" "kosmos-coredns"; host_key server ns "ServiceAccount" "coredns"].

Definition removed (w : Site) : list okey :=
  match un_Module u with
  | CoreDNS => coredns_gone w
  | ClusterLink => link_gone w (there w cluster_manager)
  | ClusterTree => tree_gone w (there w cluster_manager) (there w network_manager)
  | Scheduler => scheduler_gone w
  | AllModules => link_gone w (there w cluster_manager) ++ tree_gone w (there w cluster_manager) false ++ [host_scope server "Namespace" ns]
  end.

(** The objects [l] were deleted and nothing else was done. *)
Definition shed (l : list okey) (w w' : Site) : Prop := writes objects w w' (edited (drops l) (rows objects w)).

(** All of [l], up to the operator when a call failed. *)
Definition nearly (l' l : list okey) : Prop := l' ⊆ l /\ forall k, k ∈ l -> k ∈ l' \/ k = the_operator /\ trouble.

Definition sheds (w : Site) (p : SM unit) (l : list okey) : Prop := forall (X : Site -> Prop) (Q : unit -> Site -> Prop),
  (forall l' w', l' ⊆ l -> trouble -> shed l' w w' -> X w') -> (forall l' w', nearly l' l -> shed l' w w' -> Q tt w') -> runs p w X Q.

Lemma nearly_all l : nearly l l.
Proof. split; [done|auto]. Qed.

Lemma sub_app (a b c d : list okey) : a ⊆ b -> c ⊆ d -> a ++ c ⊆ b ++ d.
Proof. intros Hab Hcd k. rewrite !elem_of_app. intros [?|?]; [left; by apply Hab|right; by apply Hcd]. Qed.

Lemma nearly_app l1' l1 l2' l2 : nearly l1' l1 -> nearly l2' l2 -> nearly (l1' ++ l2') (l1 ++ l2).
Proof.
  intros [H1 H2] [H3 H4]. split; [by apply sub_app|].
  intros k [Hk|Hk]%elem_of_app; [apply H2 in Hk as [?|?]|apply H4 in Hk as [?|?]]; rewrite ?elem_of_app; auto.
Qed.

Lemma shed_lookup l w w' k : shed l w w' -> si_objects w' !! k = if bool_decide (k ∈ l) then None else si_objects w !! k.
Proof. intros (E & _)%writes_objects. rewrite E. apply dropped. Qed.

Lemma shed_kept l w w' : shed l w w' -> si_clusters w' = si_clusters w /\ si_instances w' = si_instances w.
Proof. by intros (_ & ? & ?)%writes_objects. Qed.

Lemma shed_trans l1 l2 w w1 w2 : shed l1 w w1 -> shed l2 w1 w2 -> shed (l1 ++ l2) w w2.
Proof. intros H1 H2. unfold shed. rewrite drops_app, edited_app. eapply writes_trans; [exact H1|]. destruct H1 as [E _]. by rewrite <- E. Qed.

Lemma sheds_seq w p q l1 l2 : sheds w p l1 -> (forall l1' w', nearly l1' l1 -> shed l1' w w' -> sheds w' q l2) -> sheds w (do! _ := p in q) (l1 ++ l2).
Proof.
  intros Hp Hq X Q HX HQ. apply runs_seq, Hp.
  - intros l' w' Hl. apply HX. by apply list_subseteq_app_l.
  - intros l1' w1 Hn H1. apply (Hq l1' w1 Hn H1).
    + intros l' w' Hl Ht H2. apply (HX (l1' ++ l')); [|done|by eapply shed_trans]. destruct Hn as [Hn _]. by apply sub_app.
    + intros l' w' Hl H2. apply (HQ (l1' ++ l')); [by apply nearly_app|by eapply shed_trans].
Qed.

Lemma sheds_edits w p l : edits trouble p (drops l) -> sheds w p l.
Proof.
  intros Hp X Q HX HQ. apply Hp; [|intros w'; apply HQ, nearly_all]. intros l1 l2 w' E Ht Hw.
  assert (l1 = drops (take (length l1) l)) as El by (unfold drops in *; rewrite <- firstn_map, E; by rewrite take_app_length).
  rewrite El in Hw. apply (HX (take (length l1) l)); [|done|done]. intros k Hk. rewrite <- (take_drop (length l1) l). apply elem_of_app. by left.
Qed.

(** After a call without effect. *)
Lemma sheds_next w p l (X : Site -> Prop) (Q : unit -> Site -> Prop) : sheds (next_call w) p l ->
  (forall l' w', l' ⊆ l -> trouble -> shed l' w w' -> X w') -> (forall l' w', nearly l' l -> shed l' w w' -> Q tt w') -> runs p (next_call w) X Q.
Proof.
  intros Hp HX HQ. apply Hp; intros l' w' Hl.
  - intros Ht Hw. apply (HX l'); [done|done|]. unfold shed in *. rewrite rows_tick in Hw. eapply writes_trans; [apply (writes_tick objects)|done].
  - intros Hw. apply (HQ l'); [done|]. unfold shed in *. rewrite rows_tick in Hw. eapply writes_trans; [apply (writes_tick objects)|done].
Qed.

Lemma sheds_none w : sheds w (mok tt) [].
Proof. intros X Q _ HQ. apply (HQ []); [apply nearly_all|apply writes_same]. Qed.

Lemma sheds_render w v p l : sheds w p l -> sheds w (do! _ := render Generate v in p) l.
Proof.
  intros Hp X Q HX HQ. apply runs_seq, (runs_render faults Generate); [|by apply Hp].
  intros Ht. apply (HX []); [apply list_subseteq_nil|done|apply writes_same].
Qed.

Lemma sheds_delete_all w l : sheds w (delete_all faults Generate l) l.*1.
Proof. apply sheds_edits, (edits_delete_all trouble faults Generate). done. Qed.

Lemma sheds_delete w kv : sheds w (delete_object faults Generate kv) [fst kv].
Proof. apply sheds_edits, (edits_delete trouble faults Generate). done. Qed.

Lemma sheds_remove w k : sheds w (unless_gone (Delete faults objects k)) [k].
Proof. apply sheds_edits, (edits_remove trouble faults Generate). done. Qed.

(** A call that fails without effect. *)
Lemma sheds_failed w l err (X : Site -> Prop) Q ft : faults (calls_made w) = Some ft -> (forall l' w', l' ⊆ l -> trouble -> shed l' w w' -> X w') ->
  runs (merr err : SM unit) (next_call w) X Q.
Proof. intros Hft HX. apply (HX []); [apply list_subseteq_nil|left; by eexists _, _|apply (writes_tick objects)]. Qed.

Lemma sheds_crd w crd template count n : count (next_call w) = n -> sheds w (remove_crd faults Generate u crd template count) (crd_gone crd n).
Proof.
  intros Hc X Q HX HQ. unfold runs, remove_crd, mtry, list_instances.
  destruct (call_cases faults (fun w => match si_objects w !! crd_key server crd with Some _ => (w, Good (count w)) | None => (w, Bad (IsNotFound "not found")) end) w)
    as [(ft & Hft & ->)| ->].
  - pose proof (fun err => sheds_failed w (crd_gone crd n) err X Q ft Hft HX) as HF. by destruct ft; apply (HF (OtherError "")).
  - change (si_objects (next_call w)) with (si_objects w). destruct (si_objects w !! crd_key server crd) eqn:E.
    + rewrite Hc. unfold crd_gone in *. destruct (0 <? n); [apply (sheds_next w (mok tt) []); [apply sheds_none|done|done]|].
      change (runs (delete_object faults Generate (crd_key server crd, bare_manifest template)) (next_call w) X Q).
      apply (sheds_next w _ [crd_key server crd]); [apply sheds_delete|done|done].
    + apply (HQ (crd_gone crd n)); [apply nearly_all|]. unfold crd_gone, shed. destruct (0 <? n); [apply (writes_tick objects)|].
      unfold edited, edit. simpl. rewrite delete_id by done. apply (writes_tick objects).
Qed.

Lemma sheds_operator w other template : sheds w (remove_operator faults Generate u other template) (if there w other then [] else [the_operator]).
Proof.
  apply sheds_render. intros X Q HX HQ. unfold runs, mtry. destruct (Get_cases faults objects (deployment_key server ns other) w) as [(ft & Hft & ->)| ->].
  - assert (trouble) as Ht by (left; by eexists _, _). assert (Q tt (next_call w)) as HQ'; [|by destruct ft].
    apply (HQ []); [|apply (writes_tick objects)]. split; [apply list_subseteq_nil|]. intros k Hk. destruct (there w other); [by apply not_elem_of_nil in Hk|].
    apply list_elem_of_singleton in Hk as ->. by right.
  - change (rows objects w) with (si_objects w). unfold there in *. destruct (si_objects w !! deployment_key server ns other) eqn:E.
    + rewrite bool_decide_true in * by eauto. apply (HQ []); [apply nearly_all|apply (writes_tick objects)].
    + rewrite bool_decide_false in * by (by intros [? ?]).
      match goal with |- context [delete_object faults Generate ?kv ?w1] => change (runs (delete_object faults Generate kv) w1 X Q) end.
      apply (sheds_next w _ [the_operator]); [apply sheds_delete|done|done].
Qed.

Lemma sheds_tree_deployment w : sheds w (remove_tree_deployment faults Generate u)
  (deployment_key server ns cluster_manager :: if there w cluster_manager then [host_key server ns "Secret" cluster_manager] else []).
Proof.
  set (secret := if there w cluster_manager then _ else _). apply sheds_render. intros X Q HX HQ. unfold runs, mtry.
  destruct (Delete_cases faults objects (deployment_key server ns cluster_manager) w) as [(ft & Hft & ->)|[[Hn ->]|[Hs ->]]].
  - pose proof (fun err => sheds_failed w _ err X Q ft Hft HX) as HF. by destruct ft; apply (HF (OtherError "")).
  - eapply HQ; [apply nearly_all|]. unfold secret, there. change (rows objects w) with (si_objects w) in Hn. rewrite Hn, bool_decide_false by (by intros [? ?]).
    unfold shed, edited, edit. simpl. rewrite delete_id by done. apply (writes_tick objects).
  - match goal with |- context [delete_object faults Generate ?kv ?w1] => change (runs (delete_object faults Generate kv) w1 X Q); set (w2 := w1) in * end.
    assert (shed [deployment_key server ns cluster_manager] w w2) as H1 by apply (writes_set objects).
    unfold secret, there in *. change (rows objects w) with (si_objects w) in Hs. rewrite bool_decide_true in * by done.
    set (k := deployment_key server ns cluster_manager) in *. apply sheds_delete.
    + intros l' w' Hl Ht H2. apply (HX ([k] ++ l')); [by apply (sub_app [k] [k])|done|]. by apply (shed_trans [k] l' w w2).
    + intros l' w' Hl H2. apply (HQ ([k] ++ l')); [apply (nearly_app [k] [k]); [apply nearly_all|done]|]. by apply (shed_trans [k] l' w w2).
Qed.

(** With the CRD there and its manifest made the list is not nil. *)
Lemma sheds_dynamic w : is_Some (si_objects w !! crd_key server "clusters.kosmos.io") -> Generate "Cluster" [] = None ->
  sheds w (remove_crd_dynamic faults Generate u) (crd_gone "clusters.kosmos.io" (count_clusters w)).
Proof.
  intros [v Hv] Hg X Q HX HQ. unfold runs, remove_crd_dynamic, mtry, list_instances.
  destruct (call_cases faults (fun w => match si_objects w !! crd_key server "clusters.kosmos.io" with Some _ => (w, Good (count_clusters w)) | None => (w, Bad (IsNotFound "not found")) end) w)
    as [(ft & Hft & ->)| ->].
  - pose proof (fun err => sheds_failed w _ err X Q ft Hft HX) as HF. by destruct ft; apply (HF (OtherError "")).
  - change (si_objects (next_call w)) with (si_objects w). rewrite Hv, Hg. change (count_clusters (next_call w)) with (count_clusters w).
    unfold crd_gone in *. destruct (0 <? count_clusters w); [by apply (sheds_next w (mok tt) []); [apply sheds_none| |]|].
    match goal with |- context [unless_gone ?p ?w1] => change (runs (unless_gone p) w1 X Q) end.
    by apply (sheds_next w _ [crd_key server "clusters.kosmos.io"]); [apply sheds_remove| |].
Qed.

Lemma there_kept l' l w w' name : nearly l' l -> shed l' w w' -> deployment_key server ns name ∉ l -> there w' name = there w name.
Proof. intros [Hl _] Hs Hn. unfold there. rewrite (shed_lookup l' w w') by done.
  by rewrite (bool_decide_false (deployment_key server ns name ∈ l')) by (intros H; by apply Hn, Hl).
Qed.

Lemma counts_kept l w w' : shed l w w' -> count_clusters w' = count_clusters w /\ forall kind, count_of kind w' = count_of kind w.
Proof. intros [E1 E2]%shed_kept. unfold count_clusters, count_of. by rewrite E1, E2. Qed.

(** The count of a list is read after other steps. *)
Ltac later_counts := match goal with
  | |- count_clusters (next_call ?w) = ?n => change (count_clusters w = n)
  | |- count_of ?k (next_call ?w) = ?n => change (count_of k w = n)
  end; repeat match goal with H : shed _ _ _ |- _ => apply counts_kept in H as [? ?] end; congruence.

(** Keys that a plan does not have. *)
Ltac not_planned := unfold crd_gone; repeat destruct (0 <? _); simpl; rewrite ?elem_of_cons, ?elem_of_nil; intros ?; destruct_or?; done.

Lemma sheds_link w : sheds w (uninstall_runClusterlink faults Generate u) (link_gone w (there w cluster_manager)).
Proof.
  apply sheds_seq; [apply sheds_delete|intros l1 w1 N1 H1]. apply sheds_seq; [apply sheds_crd; later_counts|intros l2 w2 N2 H2].
  apply sheds_seq; [apply sheds_crd; later_counts|intros l3 w3 N3 H3]. apply sheds_seq; [apply sheds_crd; later_counts|intros l4 w4 N4 H4].
  apply sheds_seq; [apply sheds_delete_all|intros l5 w5 N5 H5].
  assert (there w cluster_manager = there w5 cluster_manager) as ->; [|apply sheds_operator].
  rewrite (there_kept _ _ _ _ _ N5 H5), (there_kept _ _ _ _ _ N4 H4), (there_kept _ _ _ _ _ N3 H3), (there_kept _ _ _ _ _ N2 H2), (there_kept _ _ _ _ _ N1 H1);
    [done|not_planned..].
Qed.

Lemma sheds_tree w : sheds w (uninstall_runClustertree faults Generate u) (tree_gone w (there w cluster_manager) (there w network_manager)).
Proof.
  apply sheds_seq; [apply sheds_tree_deployment|intros l1 w1 N1 H1]. apply sheds_seq; [apply sheds_crd; later_counts|intros l2 w2 N2 H2].
  apply sheds_seq; [apply sheds_remove|intros l3 w3 N3 H3]. apply sheds_seq; [apply sheds_delete_all|intros l4 w4 N4 H4].
  assert (there w network_manager = there w4 network_manager) as ->; [|apply sheds_operator].
  rewrite (there_kept _ _ _ _ _ N4 H4), (there_kept _ _ _ _ _ N3 H3), (there_kept _ _ _ _ _ N2 H2), (there_kept _ _ _ _ _ N1 H1);
    [done| |not_planned..]. destruct (there w cluster_manager); not_planned.
Qed.


End uninstalled.
End facts.

(** * Examples *)

Definition no_faults : nat -> option fault := fun _ => None.
Definition all_made : string -> list (string * string) -> option string := fun _ _ => None.
Definition all_ready : Site -> string -> option string := fun _ _ => None.

Definition ex_install (m : module) : CommandInstallOptions :=
  mkInstall "host" "kosmos-system" "ghcr.io/kosmos-io" "v1" m "kubeconfig" "" "calico" "eth0" "gateway" "all" "false" "" "".
Definition ex_uninstall (m : module) : CommandUninstallOptions := mkUninstall "host" "kosmos-system" "v1" m.
Definition bare_site : Site := mkSite 0 ∅ ∅ ∅.

Definition after {A} (p : SM A) (w : Site) : Site := fst (p w).
Definition installed (m : module) : Site -> Site := after (install_Run no_faults all_made all_ready (ex_install m)).
Definition without_modules (m : module) : Site -> Site := after (uninstall_Run no_faults all_made (ex_uninstall m)).

Lemma no_setup_trouble : ~ troubled no_faults all_made.
Proof. intros [(n & ft & E)|(t & vs & err & E)]; discriminate E. Qed.

Lemma no_install_trouble : ~ install_trouble no_faults all_made all_ready.
Proof. intros [Ht|(w & name & err & E)]; [by apply no_setup_trouble|discriminate E]. Qed.



(** Once a control cluster is there, installing all modules makes no CRDs of the tree, which
installing clustertree does. *)
Example no_tree_crds :
  let crd := crd_key "host" "podconvertpolicies.kosmos.io" in
  si_objects (installed AllModules (installed ClusterLink bare_site)) !! crd = None /\
  is_Some (si_objects (installed ClusterTree (installed ClusterLink bare_site)) !! crd) /\
  modules_enabled (ex_install AllModules) (installed AllModules (installed ClusterLink bare_site)).
Proof. vm_compute. split; [done|]. split; [by eexists|]. split; intros _; by eexists _, _. Qed.

(** Without the CRD of clusters the uninstallation of coredns panics; of the other modules it succeeds. *)
Example coredns_panics :
  map (fun m => snd (uninstall_Run no_faults all_made (ex_uninstall m) bare_site)) [CoreDNS; ClusterLink; ClusterTree; Scheduler; AllModules] =
  [Fault; Good tt; Good tt; Good tt; Good tt].
Proof. by vm_compute. Qed.

(** What uninstalling all modules leaves: the account of the operator, the objects that join made,
and the CRDs of the tree, which no command removes but unjoin. *)
Example left_over : (map fst (map_to_list (si_objects (without_modules AllModules (installed AllModules bare_site)))) =
  [host_key "host" "kosmos-system" "ServiceAccount" "kosmos-control"; host_key "host" "kosmos-system" "Secret" "controlpanel-config";
   host_key "host" "kosmos-system" "ServiceAccount" "clusterlink-operator"; host_scope "host" "ClusterRoleBinding" "kosmos"; host_scope "host" "ClusterRole" "kosmos";
   crd_key "host" "serviceexports.multicluster.x-k8s.io"; crd_key "host" "serviceimports.multicluster.x-k8s.io"; crd_key "host" "clusters.kosmos.io";
   crd_key "host" "clusterpodconvertpolicies.kosmos.io"; crd_key "host" "podconvertpolicies.kosmos.io"])%string.
Proof. by vm_compute. Qed.

(** The family [all] is kept by the first installation and ignored by one that finds the cluster. *)
Example family_ignored : let family w := c ← si_clusters w !! DefaultClusterName; ls_IPFamily <$> sc_Link c in
  family (installed AllModules bare_site) = Some "all"%string /\
  family (installed AllModules (installed ClusterTree bare_site)) <> Some "all"%string.
Proof. by vm_compute. Qed.
