(* ===== verification/CtlNetMap.v ===== *)
(** Mapping of addresses between networks (kosmosctl/floater/netmap/netmap.go).

The map of CIDRs is the list of its entries in the order of an iteration. The calculation is
the one of the addresses of VXLAN devices (LinkVxlan), of which only the address is kept. *)
From S2P Require Import Prelude GoNet GoNetFacts GoCIDR LinkVxlan.
Local Open Scope Z_scope.

Definition changeIPv4 (ip : IP) (destNet : IPNet) : outcome IP := net ← changeIPNetIPV4 ip destNet; Ret (net_IP net).
Definition changeIPv6 (ip : IP) (destNet : IPNet) : outcome IP := net ← changeIPNetIPV6 ip destNet; Ret (net_IP net).

Definition cidr_error (s : string) : string := "invalid CIDR address: " +:+ s.

Fixpoint map_entries (ipStr : string) (ip : IP) (entries : list (string * string)) : outcome (result string) :=
  match entries with
  | [] => Ret (inl (IP_String ip))
  | (src, dest) :: rest =>
      match ParseCIDR src with
      | None => Ret (inr (cidr_error src))
      | Some (_, srcNet) =>
          if negb (bool_decide (GetIPType ipStr = GetIPType src)) then map_entries ipStr ip rest
          else if negb (Contains srcNet ip) then map_entries ipStr ip rest
          else match ParseCIDR dest with
          | None => Ret (inr (cidr_error dest))
          | Some (_, destNet) =>
              if negb (Mask_Size (net_Mask srcNet) =? Mask_Size (net_Mask destNet))%nat
              then Ret (inr "the subnet masks of srcCIDR and destCIDR of CIDRsMap need to be the same")
              else
                newIP ← (if bool_decide (GetIPType ipStr = IPV4) then changeIPv4 ip destNet else changeIPv6 ip destNet);
                Ret (inl (IP_String newIP))
          end
      end
  end.

Definition NetMap (ipStr : string) (cidrsMap : list (string * string)) : outcome (result string) :=
  match ParseIP ipStr with None => Ret (inl ipStr) | Some ip => map_entries ipStr ip cidrsMap end.

(** * Facts *)

(** Entries that do not apply to an address. *)
Definition passed_over (ipStr : string) (ip : IP) (entries : list (string * string)) : Prop :=
  forall e, e ∈ entries -> exists a net, ParseCIDR (fst e) = Some (a, net) /\ (GetIPType ipStr <> GetIPType (fst e) \/ Contains net ip = false).

Lemma map_entries_app ipStr ip l1 l2 : passed_over ipStr ip l1 -> map_entries ipStr ip (l1 ++ l2) = map_entries ipStr ip l2.
Proof.
  induction l1 as [|[src dst] l1 IH]; [done|]. intros H. simpl. destruct (H (src, dst)) as (a & net & Hp & Hc); [by left|]. simpl in Hp, Hc. rewrite Hp.
  assert (map_entries ipStr ip (l1 ++ l2) = map_entries ipStr ip l2) as E by (apply IH; intros e He; apply H; by right).
  case_bool_decide; simpl; [|done]. destruct Hc as [?|Hc]; [done|]. by rewrite Hc.
Qed.

(** The bytes of an address that belong to its family. *)
Definition family_bytes (ipStr : string) (ip : IP) : IP := if bool_decide (GetIPType ipStr = IPV4) then drop 12 ip else ip.

Lemma ParseIP_family ipStr ip : ParseIP ipStr = Some ip ->
  (GetIPType ipStr = IPV4 /\ exists a, ip = v4InV6Prefix ++ a /\ length a = 4%nat /\ Forall byte_ok a) \/
  (GetIPType ipStr = IPV6 /\ length ip = 16%nat /\ Forall byte_ok ip).
Proof.
  unfold ParseIP. rewrite ParseIP_scan_type. destruct (GetIPType ipStr); [|intros H|done].
  - intros H%parseIPv4_ok. by left.
  - apply parseIPv6_ok in H. by right.
Qed.

(** The address in a network of its family: the network part is that of the network, the host
part is kept. *)
Lemma change_net_spec ipStr ip dst b dnet : ParseIP ipStr = Some ip -> ParseCIDR dst = Some (b, dnet) -> GetIPType dst = GetIPType ipStr ->
  let host := 2 ^ (8 * Z.of_nat (length (net_Mask dnet)) - Z.of_nat (Mask_Size (net_Mask dnet))) in
  exists new, (if bool_decide (GetIPType ipStr = IPV4) then changeIPv4 ip dnet else changeIPv6 ip dnet) = Ret new /\
    and_bytes new (net_Mask dnet) = net_IP dnet /\ be new mod host = be (family_bytes ipStr ip) mod host.
Proof.
  intros Hip Hd Ht host. unfold family_bytes, changeIPv4, changeIPv6. destruct (ParseIP_family _ _ Hip) as [(E & i & -> & Li & Hi)|(E & Li & Hi)];
    destruct (ParseCIDR_type _ _ _ _ Hd) as [(E2 & a & n & La & Ha & Hn & _ & ->)|(E2 & n & La & Ha & Hn & ->)]; try congruence.
  - rewrite E. destruct (changeIPNetIPV4_spec a i n La Ha Li Hi Hn) as (x & Ex & Lx & Hx & Bx). exists x. rewrite bool_decide_true, Ex by done.
    unfold host. cbn [net_Mask net_IP]. unfold Mask_Size. rewrite simpleMaskLength_CIDRMask, length_CIDRMask by auto. cbn [default id]. change (8 * Z.of_nat 4) with 32.
    split_and!; [done| |rewrite Bx; by apply vxlan_addr_host; lia]. pose proof (masked_net_be _ n Ha) as Hm. rewrite La in Hm. apply Hm; [lia|done|done|].
    rewrite Bx. apply vxlan_addr_net. lia.
  - rewrite E. destruct (changeIPNetIPV6_spec b ip n La Ha Li Hi Hn) as (x & Ex & Lx & Hx & Bx). exists x. rewrite bool_decide_false, Ex by done.
    unfold host. cbn [net_Mask net_IP]. unfold Mask_Size. rewrite simpleMaskLength_CIDRMask, length_CIDRMask by auto. cbn [default id]. change (8 * Z.of_nat 16) with 128.
    split_and!; [done| |rewrite Bx; by apply vxlan_addr_host; lia]. pose proof (masked_net_be _ n Ha) as Hm. rewrite La in Hm. apply Hm; [lia|done|done|].
    rewrite Bx. apply vxlan_addr_net. lia.
Qed.

(** An address in the source of an entry is moved to its destination, a network of the same family
and size: the network part becomes that of the destination and the host part is kept. Entries
before it that do not apply are passed over; an address to which none applies is printed as it is. *)
Theorem address_mapped ipStr ip : ParseIP ipStr = Some ip ->
  (forall entries, passed_over ipStr ip entries -> NetMap ipStr entries = Ret (inl (IP_String ip))) /\
  forall l1 src dst l2 a b snet dnet, passed_over ipStr ip l1 ->
    ParseCIDR src = Some (a, snet) -> ParseCIDR dst = Some (b, dnet) -> GetIPType src = GetIPType ipStr -> Contains snet ip = true ->
    GetIPType dst = GetIPType ipStr -> Mask_Size (net_Mask snet) = Mask_Size (net_Mask dnet) ->
    let host := 2 ^ (8 * Z.of_nat (length (net_Mask dnet)) - Z.of_nat (Mask_Size (net_Mask dnet))) in
    exists new, NetMap ipStr (l1 ++ (src, dst) :: l2) = Ret (inl (IP_String new)) /\
      and_bytes new (net_Mask dnet) = net_IP dnet /\ be new mod host = be (family_bytes ipStr ip) mod host.
Proof.
  intros Hip. unfold NetMap. rewrite Hip. split.
  - intros entries He. rewrite <- (app_nil_r entries). by rewrite map_entries_app.
  - intros l1 src dst l2 a b snet dnet Hl1 Hs Hd Ht Hc Htd Hsize.
    destruct (change_net_spec ipStr ip dst b dnet Hip Hd Htd) as (new & E & Hnet & Hhost). exists new. split_and!; [|done|done].
    rewrite map_entries_app by done. simpl. rewrite Hs, Hd, Ht, Hc, Hsize, bool_decide_true, Nat.eqb_refl by done. simpl. by rewrite E.
Qed.

Lemma address_mapped_witness : exists new, NetMap "10.1.2.3" [("fd00::/8", "fd01::/8"); ("10.1.0.0/16", "172.20.0.0/16")] = Ret (inl (IP_String new)) /\
  and_bytes new [0xff; 0xff; 0; 0] = [172; 20; 0; 0] /\ be new mod 2 ^ 16 = 0x203.
Proof.
  destruct (address_mapped "10.1.2.3" (v4InV6Prefix ++ [10; 1; 2; 3]) eq_refl) as [_ H].
  destruct (H [("fd00::/8"%string, "fd01::/8"%string)] "10.1.0.0/16"%string "172.20.0.0/16"%string [] (v4InV6Prefix ++ [10; 1; 0; 0]) (v4InV6Prefix ++ [172; 20; 0; 0])
    (mkIPNet [10; 1; 0; 0] [0xff; 0xff; 0; 0]) (mkIPNet [172; 20; 0; 0] [0xff; 0xff; 0; 0])) as (new & E & H1 & H2); [|by vm_compute..|].
  - intros e He. apply list_elem_of_singleton in He as ->. exists ([0xfd] ++ replicate 15 0), (mkIPNet ([0xfd] ++ replicate 15 0) (0xff :: replicate 15 0)).
    split; [by vm_compute|]. left. by vm_compute.
  - by exists new.
Defined.

(** A destination of the other family whose size is the same: there is no 4-byte form of its
address, and no byte of the mask for every byte of the address. *)
Example other_family_panics :
  NetMap "10.1.2.3" [("10.1.0.0/16", "fd00::/16")] = Panic /\ NetMap "fd00::1" [("fd00::/16", "10.1.0.0/16")] = Panic.
Proof. by vm_compute. Qed.

(** What is not an address is given back; the result of an address is in the canonical form. *)
Example mapped_addresses :
  map (fun s => NetMap s [("10.0.0.0/8", "11.0.0.0/8"); ("fd00::/16", "fe00::/16")]) ["host"; "10.1.2.3"; "12.1.2.3"; "fd00:0::1:2"] =
  map (fun s => Ret (inl s)) ["host"; "11.1.2.3"; "12.1.2.3"; "fe00::1:2"].
Proof. by vm_compute. Qed.
