(* ===== verification/CtlVerify.v ===== *)
(** Waiting for pods and deployments to be ready (kosmosctl/util/verify.go).

What a read of the API server shows at the n-th check is a parameter ([Seen]). The package
[wait] checks at once and then at every tick until the time is up; how many checks that are
is a parameter too, at least one. *)
From S2P Require Import Prelude GoStr.

(** The state of a container, when it waits its reason. *)
Record WaitPod := mkWaitPod {
  wp_Name : string; wp_Phase : string; wp_Deleting : bool; wp_Waiting : list (option string); wp_Conditions : list (string * string) }.

(** The last line takes the reason of the first container, which must be there and waiting. *)
Definition podStatus (pod : WaitPod) : outcome string :=
  (fix scan (l : list (option string)) : outcome string :=
    match l with
    | [] => match wp_Waiting pod with Some reason :: _ => Ret reason | _ => Panic end
    | value :: rest =>
        if wp_Phase pod =s "Running" then Ret (match value with Some reason => reason | None => "Running" end)
        else if wp_Deleting pod then Ret "Terminating"
        else scan rest
    end) (wp_Waiting pod).

(** The status is asked for the log, ready or not. *)
Definition pod_condition (pod : WaitPod) : outcome bool :=
  if (wp_Phase pod =s "Pending") && bool_decide (wp_Waiting pod = []) then Ret false
  else (fix scan (l : list (string * string)) : outcome bool :=
    match l with
    | [] => Ret false
    | (ty, status) :: rest =>
        if ty =s "Ready" then _ ← podStatus pod; Ret (status =s "True")
        else scan rest
    end) (wp_Conditions pod).

Section wait.
  Context (Seen : nat -> string -> result WaitPod) (checks : nat).

Definition isPodReady (n : nat) (name : string) : outcome (result bool) :=
  match Seen n name with inr err => Ret (inr err) | inl pod => done ← pod_condition pod; Ret (inl done) end.

(** [wait.PollImmediate] from the check [n] on: the next check and the error. *)
Fixpoint PollImmediate (k n : nat) (condition : nat -> outcome (result bool)) : outcome (nat * option string) :=
  match k with
  | 0 => Ret (n, Some "timed out waiting for the condition")
  | S k =>
      r ← condition n;
      match r with
      | inr err => Ret (S n, Some err)
      | inl true => Ret (S n, None)
      | inl false => PollImmediate k (S n) condition
      end
  end.

Definition waitPodReady (n : nat) (name : string) : outcome (nat * option string) :=
  PollImmediate checks n (fun n => isPodReady n name).

Fixpoint wait_all (n : nat) (names : list string) : outcome (nat * option string) :=
  match names with
  | [] => Ret (n, None)
  | name :: rest =>
      r ← waitPodReady n name;
      match r with (n, Some err) => Ret (n, Some err) | (n, None) => wait_all n rest end
  end.

(** [listed]: the pods the selector gives, by name. *)
Definition WaitPodReady (namespace selector : string) (listed : result (list string)) : outcome (option string) :=
  match listed with
  | inr err => Ret (Some err)
  | inl [] => Ret (Some ("no pods in " +:+ namespace +:+ " with selector " +:+ selector))
  | inl names => r ← wait_all 0 names; Ret (snd r)
  end.

End wait.

(** ** Deployments *)

Record WaitDeployment := mkWaitDeployment {
  wd_Generation : Z; wd_ObservedGeneration : Z; wd_Replicas : option Z; wd_UpdatedReplicas : Z; wd_AvailableReplicas : Z }.

(** The number compared with is that of the deployment given, which may have none. *)
Definition deployment_condition (replicas : option Z) (deploy : WaitDeployment) : outcome bool :=
  if negb (wd_Generation deploy =? wd_ObservedGeneration deploy)%Z then Ret false
  else
    few ← match wd_Replicas deploy with None => Ret false | Some _ => match replicas with None => Panic | Some r => Ret (wd_UpdatedReplicas deploy <? r)%Z end end;
    if (few : bool) then Ret false
    else if (wd_AvailableReplicas deploy <? wd_UpdatedReplicas deploy)%Z then Ret false
    else Ret true.

Section wait_deployment.
  Context (Read : nat -> result WaitDeployment) (checks : nat).

(** Errors of the read are kept for the message and the wait goes on. *)
Definition isDeploymentReady (replicas : option Z) (n : nat) : outcome (result bool) :=
  match Read n with inr _ => Ret (inl false) | inl deploy => done ← deployment_condition replicas deploy; Ret (inl done) end.

Definition WaitDeploymentReady (replicas : option Z) : outcome (option string) :=
  r ← PollImmediate checks 0 (isDeploymentReady replicas); Ret (snd r).

End wait_deployment.

(** * Facts *)

Definition pod_ready (pod : WaitPod) : Prop := pod_condition pod = Ret true.

(** A pod that has no container to ask, or that neither runs nor is deleted while its first
container does not wait. *)
Definition unknown_status (pod : WaitPod) : Prop :=
  wp_Waiting pod = [] \/ wp_Phase pod <> "Running" /\ wp_Deleting pod = false /\ head (wp_Waiting pod) = Some None.

Lemma podStatus_panics pod : podStatus pod = Panic <-> unknown_status pod.
Proof.
  unfold podStatus, unknown_status. destruct (wp_Phase pod =s "Running") eqn:Er.
  - apply bool_decide_eq_true in Er. destruct (wp_Waiting pod) as [|v l]; [by split; [left|]|]. split; [done|]. intros [?|(Hn & _)]; [done|by rewrite Er in Hn].
  - apply bool_decide_eq_false in Er. destruct (wp_Deleting pod).
    + destruct (wp_Waiting pod) as [|v l]; [by split; [left|]|]. split; [done|]. intros [?|(_ & ? & _)]; done.
    + set (o := match wp_Waiting pod with Some reason :: _ => _ | _ => _ end).
      match goal with |- ?f (wp_Waiting pod) = _ <-> _ => assert (forall l, f l = o) as Hs by (intros l; induction l as [|v l IH]; [done|exact IH]) end.
      rewrite Hs. unfold o. destruct (wp_Waiting pod) as [|[r|] l]; [by split; [left|]|split; [done|]; intros [?|(_ & _ & ?)]; done|]. split; [|done]. by right.
Qed.

Lemma pod_condition_panics pod : pod_condition pod = Panic -> unknown_status pod.
Proof.
  rewrite <- podStatus_panics. unfold pod_condition. destruct (_ && _); [done|]. induction (wp_Conditions pod) as [|[ty status] l IH]; [done|].
  destruct (ty =s "Ready"); [|done]. by destruct (podStatus pod).
Qed.

Section wait_facts.
  Context (Seen : nat -> string -> result WaitPod) (checks : nat).

(** A wait that ends well saw the condition hold; a panic is one of the condition. *)
Lemma poll_spec condition k n :
  match PollImmediate k n condition with
  | Ret (n', None) => exists m, n <= m < n + k /\ n' = S m /\ condition m = Ret (inl true)
  | Ret (n', Some _) => n <= n' <= n + k
  | Panic => exists m, condition m = Panic
  end.
Proof.
  revert n. induction k as [|k IH]; intros n; simpl; [lia|]. destruct (condition n) as [[[]|err]|] eqn:E; cbn [mbind outcome_bind].
  - exists n. split_and!; [lia|lia|done|done].
  - specialize (IH (S n)). destruct (PollImmediate k (S n) condition) as [[n' [err|]]|]; [lia| |done]. destruct IH as (m & ? & ? & ?). exists m. split_and!; [lia|lia|done|done].
  - lia.
  - by exists n.
Qed.

(** A condition that holds at a check in reach, and does not fail before it. *)
Lemma poll_reaches condition k n m : n <= m < n + k -> condition m = Ret (inl true) ->
  (forall i, n <= i < m -> exists b, condition i = Ret (inl b)) -> exists n', PollImmediate k n condition = Ret (n', None).
Proof.
  revert n. induction k as [|k IH]; intros n Hm Ht Hb; [lia|]. simpl. destruct (decide (n = m)) as [->|Hn]; [rewrite Ht; by eexists|].
  destruct (Hb n) as [b ->]; [lia|]. simpl. destruct b; [by eexists|]. apply IH; [lia|done|]. intros i Hi. apply Hb. lia.
Qed.

(** A wait for pods that ends without an error saw every pod of a list that is not empty ready.
It ends so when every pod is ready from its check [late] on and the reads show it till then. It
panics only when it sees a pod of unknown status: one without containers or one that neither runs
nor is deleted and whose first container is not waiting, such as a pod that failed. *)
Theorem pods_awaited namespace selector listed :
  match WaitPodReady Seen checks namespace selector listed with
  | Ret None => exists names, listed = inl names /\ names <> [] /\
      forall name, name ∈ names -> exists n pod, Seen n name = inl pod /\ pod_ready pod
  | Ret (Some _) => True
  | Panic => exists n name pod, Seen n name = inl pod /\ unknown_status pod
  end /\
  forall names late, listed = inl names -> names <> [] -> late < checks ->
    (forall name n, name ∈ names -> exists pod b, Seen n name = inl pod /\ pod_condition pod = Ret b) ->
    (forall name n pod, name ∈ names -> late <= n -> Seen n name = inl pod -> pod_ready pod) ->
    WaitPodReady Seen checks namespace selector listed = Ret None.
Proof.
  split.
  - assert (H : forall names n, match wait_all Seen checks n names with
      | Ret (_, None) => forall name, name ∈ names -> exists n pod, Seen n name = inl pod /\ pod_ready pod
      | Ret (_, Some _) => True
      | Panic => exists n name pod, Seen n name = inl pod /\ unknown_status pod end).
    { induction names as [|name names IH]; intros n; simpl; [intros name Hin; by apply not_elem_of_nil in Hin|].
      pose proof (poll_spec (fun n => isPodReady Seen n name) checks n) as Hp. unfold waitPodReady. destruct (PollImmediate _ _ _) as [[n' [err|]]|]; [done| |].
      - destruct Hp as (m & _ & _ & Hm). simpl. specialize (IH n'). destruct (wait_all _ _ _ _) as [[? [err|]]|]; [done| |done].
        intros x [-> |Hx]%elem_of_cons; [|by apply IH]. unfold isPodReady in Hm. destruct (Seen m name) as [pod|err] eqn:Es; [|done].
        exists m, pod. split; [done|]. unfold pod_ready. destruct (pod_condition pod); [|done]. by injection Hm as ->.
      - destruct Hp as (m & Hm). unfold isPodReady in Hm. destruct (Seen m name) as [pod|err] eqn:Es; [|done]. exists m, name, pod. split; [done|].
        apply pod_condition_panics. by destruct (pod_condition pod). }
    unfold WaitPodReady. destruct listed as [[|x names]|err]; [done| |done]. specialize (H (x :: names) 0). destruct (wait_all _ _ 0 _) as [[n [err|]]|]; [done| |done].
    by exists (x :: names).
  - intros names late -> Hne Hlate Hseen Hready. unfold WaitPodReady. destruct names as [|x names]; [done|].
    assert (H : forall l n, l ⊆ x :: names -> exists n', wait_all Seen checks n l = Ret (n', None)).
    { induction l as [|y l IH]; intros n Hl; [by eexists|]. assert (Hy : y ∈ x :: names) by (apply Hl; by left). simpl. unfold waitPodReady.
      destruct (poll_reaches (fun n => isPodReady Seen n y) checks n (n `max` late)) as [n' ->].
      - destruct (decide (late <= n)); [rewrite Nat.max_l by lia; lia|lia].
      - unfold isPodReady. destruct (Hseen y (n `max` late) Hy) as (pod & b & E & _). rewrite E. by rewrite (Hready y (n `max` late) pod Hy ltac:(lia) E).
      - intros i _. unfold isPodReady. destruct (Hseen y i Hy) as (pod & b & -> & ->). by exists b.
      - apply IH. intros z Hz. apply Hl. by right. }
    destruct (H (x :: names) 0) as [n' ->]; [done|done].
Qed.

End wait_facts.

Definition ex_pod (phase : string) (ready : string) (waiting : list (option string)) : WaitPod := mkWaitPod "web" phase false waiting [("Ready", ready)].

(** Pending for three checks, running from then on. *)
Definition ex_seen (n : nat) (name : string) : result WaitPod :=
  inl (if Nat.ltb n 3 then ex_pod "Pending" "False" [Some "ContainerCreating"] else ex_pod "Running" "True" [None])%string.

Lemma pods_awaited_witness : WaitPodReady ex_seen 5 "kosmos-system" "app=web" (inl ["web"; "web2"]) = Ret None.
Proof.
  apply (proj2 (pods_awaited ex_seen 5 "kosmos-system" "app=web" (inl ["web"; "web2"]%string)) ["web"; "web2"]%string 3); [done|done|lia| |].
  - intros name n _. unfold ex_seen. destruct (Nat.ltb n 3); by eexists _, _.
  - intros name n pod _ Hn. unfold ex_seen. rewrite (proj2 (Nat.ltb_ge n 3) Hn). by intros [= <-].
Defined.

(** A pod that failed is not waited for: its status is asked for and the command panics. *)
Example failed_pod_panics : WaitPodReady (fun _ _ => inl (ex_pod "Failed" "False" [None])) 5 "ns" "app=web" (inl ["web"]) = Panic.
Proof. by vm_compute. Qed.

(** Three checks are not enough for a pod that is ready at the fourth. *)
Example too_few_checks : WaitPodReady ex_seen 3 "ns" "app=web" (inl ["web"]) = Ret (Some "timed out waiting for the condition").
Proof. by vm_compute. Qed.

Lemma deployment_awaited Read checks replicas :
  match WaitDeploymentReady Read checks replicas with
  | Ret None => exists n d, Read n = inl d /\ deployment_condition replicas d = Ret true
  | Ret (Some _) => True
  | Panic => replicas = None
  end.
Proof.
  unfold WaitDeploymentReady. pose proof (poll_spec (isDeploymentReady Read replicas) checks 0) as H.
  destruct (PollImmediate _ _ _) as [[n' [err|]]|]; [done| |].
  - destruct H as (m & _ & _ & Hm). unfold isDeploymentReady in Hm. destruct (Read m) as [d|] eqn:E; [|done]. exists m, d. split; [done|].
    destruct (deployment_condition replicas d); [|done]. by injection Hm as ->.
  - destruct H as (m & Hm). unfold isDeploymentReady in Hm. destruct (Read m) as [d|] eqn:E; [|done]. unfold deployment_condition in Hm.
    destruct (negb _); [done|]. destruct (wd_Replicas d); [|by destruct (_ <? _)%Z]. destruct replicas; [|done]. simpl in Hm. by repeat case_match.
Qed.
