(* ===== verification/CtlFloater.v ===== *)
(** The connectivity check of kosmosctl (kosmosctl/floater/floater.go, kosmosctl/floater/check.go
and kosmosctl/floater/command).

Pods named floater run on the nodes of the source cluster and of the destination; every source
pings the addresses of every destination. The execution of a command in a pod and the pods that
the API server lists are parameters. The analysis of node configurations is not modelled. *)
From S2P Require Import Prelude GoStr PodProg Calls Tables SetupApi CtlJoin CtlInstall CtlNetMap.

Definition DefaultNamespace : string := "kosmos-system".
Definition DefaultFloaterName : string := "clusterlink-floater".

Record FloatInfo := mkFloat { fi_NodeName : string; fi_NodeIPs : list string; fi_PodName : string; fi_PodIPs : list string }.

Record Floater := mkFloater {
  fl_Server : string; fl_Namespace : string; fl_Name : string; fl_ImageRepository : string; fl_Version : string; fl_Port : string;
  fl_EnableHostNetwork : bool; fl_EnableAnalysis : bool; fl_CIDRsMap : list (string * string) }.

(** ** Commands *)

Inductive status := ExecError | CommandSuccessed | CommandFailed.
Record Result := mkResult { r_Status : status; r_ResultStr : string }.

Definition ParseError (err : string) : Result := mkResult ExecError ("exec error: " +:+ err).

Definition PrintStatus (s : status) : string :=
  match s with ExecError => "EXCEPTION" | CommandSuccessed => "SUCCESSED" | CommandFailed => "FAILED" end.

Definition ping_command (TargetIP : string) : string := "ping -c 1 " +:+ TargetIP.

(** White space of a regular expression. *)
Definition is_space (c : ascii) : bool := existsb (fun n => Nat.eqb (Ascii.nat_of_ascii c) n) [9; 10; 12; 13; 32].

(** The words of the pattern at the start of a text, one white space between two of them. *)
Fixpoint words_at (words : list string) (s : string) : bool :=
  match words with
  | [] => true
  | [w] => String.prefix w s
  | w :: rest =>
      String.prefix w s &&
      match String.substring (String.length w) (String.length s - String.length w) s with
      | EmptyString => false
      | String c t => is_space c && words_at rest t
      end
  end.

Fixpoint somewhere (p : string -> bool) (s : string) : bool :=
  p s || match s with EmptyString => false | String _ t => somewhere p t end.

Definition ping_words : list string := ["1"; "packets"; "transmitted,"; "1"; "packets"; "received,"; "0%"; "packet"; "loss"]%string.

(** [pingReg]: PING, and some time after it the words of a reply. *)
Definition ping_matches (s : string) : bool :=
  somewhere (fun t => String.prefix "PING" t && somewhere (words_at ping_words) (String.substring 4 (String.length t - 4) t)) s.

Definition ping_ParseResult (result : string) : Result :=
  mkResult (if ping_matches result then CommandSuccessed else CommandFailed) result.

Definition curl_command (isIPv6 : string -> bool) (TargetIP : string) : string :=
  if isIPv6 TargetIP then "curl -k https://[" +:+ TargetIP +:+ "]:8889/" else "curl -k https://" +:+ TargetIP +:+ ":8889/".
Definition curl_ParseResult (result : string) : Result :=
  mkResult (if result =s "OK" then CommandSuccessed else CommandFailed) result.

(** ** Pods of the floater *)

Section floater.
  Context (faults : nat -> option fault) (Generate : string -> list (string * string) -> option string).
  Context (WaitReady : Site -> string -> option string).
  (** The pods of a floater: name, node and addresses; the nodes with their internal addresses. *)
  Context (PodsOf : Site -> Floater -> list (string * string * list string)) (NodesOf : Site -> string -> list (string * list string)).
  (** Output of a command in a pod, or its error. *)
  Context (Exec : Site -> Floater -> string -> string -> result string).

Section one.
  Context (f : Floater).
  Abbreviation server := (fl_Server f).
  Abbreviation ns := (fl_Namespace f).

Definition floater_account : okey * content := (host_key server ns "ServiceAccount" DefaultFloaterName, spaced ns "ClusterlinkFloaterServiceAccount").
Definition floater_role : okey * content := (host_scope server "ClusterRole" DefaultFloaterName, bare_manifest "ClusterlinkFloaterClusterRole").
Definition floater_binding : okey * content := (host_scope server "ClusterRoleBinding" DefaultFloaterName, spaced ns "ClusterlinkFloaterClusterRoleBinding").
Definition floater_daemonset : okey * content := (host_key server ns "DaemonSet" DefaultFloaterName, Rendered "ClusterlinkFloaterDaemonSet"
  [("Namespace", ns); ("Name", fl_Name f); ("Version", fl_Version f); ("ImageRepository", fl_ImageRepository f); ("Port", fl_Port f);
   ("EnableHostNetwork", if fl_EnableHostNetwork f then "true" else "false"); ("EnableAnalysis", if fl_EnableAnalysis f then "true" else "false")]).
Definition floater_namespace : okey * content := (host_scope server "Namespace" ns, Literal []).

Definition applyServiceAccount : SM unit := create_object faults Generate floater_account.
Definition applyClusterRole : SM unit := create_object faults Generate floater_role.
Definition applyClusterRoleBinding : SM unit := create_object faults Generate floater_binding.

(** A wait that fails is only logged. *)
Definition applyDaemonSet : SM unit :=
  do! _ := create_object faults Generate floater_daemonset in
  mtry (wait_ready WaitReady (fl_Name f)) (fun _ => mok tt) (fun _ => mok tt).

Definition CreateFloater : SM unit :=
  do! _ := create_object faults Generate floater_namespace in
  do! _ := applyServiceAccount in do! _ := applyClusterRole in do! _ := applyClusterRoleBinding in applyDaemonSet.

Definition remove_floater_object (kind_key : okey) : SM unit := unless_gone (Delete faults objects kind_key).

Definition RemoveFloater : SM unit :=
  do! _ := remove_floater_object (host_key server ns "DaemonSet" (fl_Name f)) in
  do! _ := remove_floater_object (host_scope server "ClusterRoleBinding" (fl_Name f)) in
  do! _ := remove_floater_object (host_scope server "ClusterRole" (fl_Name f)) in
  do! _ := remove_floater_object (host_key server ns "ServiceAccount" (fl_Name f)) in
  if negb (ns =s DefaultNamespace) then remove_floater_object (host_scope server "Namespace" ns) else mok tt.

(** A list is a call that reads the site. *)
Definition list_of {A} (read : Site -> list A) : SM (list A) := Calls.call (oracle faults) (fun w => (w, Good (read w))).

Definition no_pods : apierr := OtherError ("no pods in " +:+ ns +:+ " with selector app=" +:+ fl_Name f).

Definition GetPodInfo : SM (list FloatInfo) :=
  do! pods := list_of (fun w => PodsOf w f) in
  if bool_decide (pods = []) then merr no_pods
  else mok (map (fun '(name, node, ips) => mkFloat node [] name ips) pods).

Definition on_nodes (pods : list (string * string * list string)) (nodes : list (string * list string)) : list FloatInfo :=
  flat_map (fun '(name, node, _) => flat_map (fun '(n, ips) => if node =s n then [mkFloat n ips name []] else []) nodes) pods.

Definition GetNodesInfo : SM (list FloatInfo) :=
  do! pods := list_of (fun w => PodsOf w f) in
  if bool_decide (pods = []) then merr no_pods
  else
    do! nodes := list_of (fun w => NodesOf w server) in
    if bool_decide (nodes = []) then merr (OtherError "unable to list any node")
    else mok (on_nodes pods nodes).

Definition CommandExec (fInfo : FloatInfo) (cmd : string) (ParseResult : string -> Result) (w : Site) : Result :=
  match Exec w f (fi_PodName fInfo) cmd with inr err => ParseError err | inl out => ParseResult out end.

End one.

(** ** The check *)

Record CommandCheckOptions := mkCheck { co_SrcFloater : Floater; co_DstFloater : option Floater }.

Record CheckFlags := mkFlags {
  cf_Namespace : string; cf_ImageRepository : string; cf_DstImageRepository : string; cf_Version : string; cf_Port : string; cf_HostNetwork : bool;
  cf_Src : string; cf_Dst : option string }.

(** No flag gives the map of CIDRs. *)
Definition NewCheckFloater (flags : CheckFlags) (isDst : bool) (server : string) : Floater :=
  let imageRepository := if isDst then cf_DstImageRepository flags else cf_ImageRepository flags in
  mkFloater server (cf_Namespace flags) DefaultFloaterName imageRepository (cf_Version flags) (cf_Port flags) (cf_HostNetwork flags) false [].

Definition check_Complete (flags : CheckFlags) : CommandCheckOptions :=
  let flags := if str_empty (cf_DstImageRepository flags)
    then mkFlags (cf_Namespace flags) (cf_ImageRepository flags) (cf_ImageRepository flags) (cf_Version flags) (cf_Port flags) (cf_HostNetwork flags) (cf_Src flags) (cf_Dst flags)
    else flags in
  mkCheck (NewCheckFloater flags false (cf_Src flags)) (NewCheckFloater flags true <$> cf_Dst flags).

(** Nodes are objects with their labels; those with the role of an agent are labelled for
exclusion, unless they are. *)
Definition KosmosExcludeNodeLabel : string * string := ("kosmos.io/exclude", "true").
Definition agent_role : string * string := ("kubernetes.io/role", "agent").

Definition agent_nodes (server : string) (w : Site) : list (okey * list (string * string)) :=
  omap (fun kv => match kv with
    | ((s, "Node", "", name), Literal labels) => if (s =s server) && bool_decide (agent_role ∈ labels) then Some ((s, "Node", "", name), labels) else None
    | _ => None end%string) (map_to_list (si_objects w)).

Definition exclude_node (node : okey * list (string * string)) : SM unit :=
  if bool_decide (KosmosExcludeNodeLabel ∈ snd node) then mok tt
  else Update faults objects (fst node) (Literal (List.filter (fun l => negb (fst l =s fst KosmosExcludeNodeLabel)) (snd node) ++ [KosmosExcludeNodeLabel])).

Definition exclude_nodes (server : string) : SM unit :=
  do! nodes := list_of (agent_nodes server) in each exclude_node nodes.

Definition check_Validate (o : CommandCheckOptions) : SM unit :=
  if str_empty (fl_Namespace (co_SrcFloater o)) then merr (OtherError "kosmosctl check validate error, namespace must be specified")
  else
    do! _ := exclude_nodes (fl_Server (co_SrcFloater o)) in
    match co_DstFloater o with Some dst => exclude_nodes (fl_Server dst) | None => mok tt end.

Record PrintCheckData := mkData { pd_Result : Result; pd_Src : string; pd_Dst : string; pd_TargetIP : string }.

Section check.
  Context (o : CommandCheckOptions).
  Abbreviation src := (co_SrcFloater o).

(** The result and the target for one address of a destination. *)
Definition range_ping (iPodInfo : FloatInfo) (ip : string) (w : Site) : outcome (Result * string) :=
  target ← match co_DstFloater o with Some dst => NetMap ip (fl_CIDRsMap dst) | None => Ret (inl ip) end;
  match target with
  | inr err => Ret (ParseError err, EmptyString)
  | inl targetIP => Ret (CommandExec src iPodInfo (ping_command targetIP) ping_ParseResult w, targetIP)
  end.

Definition range_rows (w : Site) (i j : FloatInfo) (rows : list PrintCheckData) : outcome (list PrintCheckData) :=
  foldM (fun rows ip => '(r, targetIP) ← range_ping i ip w; Ret (rows ++ [mkData r (fi_NodeName i) (fi_NodeName j) targetIP])) (fi_PodIPs j) rows.

Definition RunRange (w : Site) (iPodInfos jPodInfos : list FloatInfo) : outcome (list PrintCheckData) :=
  foldM (fun rows i => foldM (fun rows j => range_rows w i j rows) jPodInfos rows) iPodInfos [].

Definition RunNative (w : Site) (iNodeInfos jNodeInfos : list FloatInfo) : list PrintCheckData :=
  flat_map (fun i => flat_map (fun j => map (fun ip =>
    mkData (CommandExec src i (ping_command ip) ping_ParseResult w) (fi_NodeName i) (fi_NodeName j) ip) (fi_NodeIPs j)) jNodeInfos) iNodeInfos.

(** The rows of the two tables with their numbers: results and exceptions. *)
Definition PrintResult (resultData : list PrintCheckData) : list (nat * PrintCheckData) * list (nat * PrintCheckData) :=
  let rows := zip (seq 1 (length resultData)) resultData in
  (List.filter (fun r => match r_Status (pd_Result (snd r)) with ExecError => false | _ => true end) rows,
   List.filter (fun r => match r_Status (pd_Result (snd r)) with ExecError => true | _ => false end) rows).

Definition at_site {A} (p : Site -> outcome A) : SM A := fun w => match p w with Ret a => (w, Good a) | Panic => (w, Fault) end.

(** Infos of the source, of the destination after its floater was made, and their pings. *)
Definition check_pairs (host : bool) : SM (list PrintCheckData) :=
  let infos f := if host then GetNodesInfo f else GetPodInfo f in
  do! srcInfos := infos src in
  do! dstInfos := match co_DstFloater o with
    | None => mok srcInfos
    | Some dst => do! _ := CreateFloater dst in infos dst
    end in
  at_site (fun w => if host then Ret (RunNative w srcInfos dstInfos) else RunRange w srcInfos dstInfos).

Definition check_Run : SM (list PrintCheckData) :=
  do! _ := CreateFloater src in
  do! rows := check_pairs (fl_EnableHostNetwork (default src (co_DstFloater o))) in
  do! _ := RemoveFloater src in
  do! _ := match co_DstFloater o with Some dst => RemoveFloater dst | None => mok tt end in
  mok rows.

End check.
End floater.

(** * Facts *)

Section facts.
  Context (faults : nat -> option fault) (Generate : string -> list (string * string) -> option string) (WaitReady : Site -> string -> option string).
  Context (PodsOf : Site -> Floater -> list (string * string * list string)) (NodesOf : Site -> string -> list (string * list string)).
  Context (Exec : Site -> Floater -> string -> string -> result string).
  Abbreviation trouble := (troubled faults Generate).

Definition floater_objects (f : Floater) : list (okey * content) := [floater_namespace f; floater_account f; floater_role f; floater_binding f; floater_daemonset f].

Lemma edits_CreateFloater f : edits trouble (CreateFloater faults Generate WaitReady f) (ensures (floater_objects f)).
Proof.
  repeat (apply (edits_cons trouble); [apply (edits_create trouble faults Generate id)|]).
  intros w X Q HX HQ. unfold runs, mtry, wait_ready. destruct (WaitReady w (fl_Name f)); apply HQ, writes_same.
Qed.

Definition floater_keys (f : Floater) : list okey :=
  [host_key (fl_Server f) (fl_Namespace f) "DaemonSet" (fl_Name f); host_scope (fl_Server f) "ClusterRoleBinding" (fl_Name f);
   host_scope (fl_Server f) "ClusterRole" (fl_Name f); host_key (fl_Server f) (fl_Namespace f) "ServiceAccount" (fl_Name f)] ++
  if negb (fl_Namespace f =s DefaultNamespace) then [host_scope (fl_Server f) "Namespace" (fl_Namespace f)] else [].

Lemma edits_RemoveFloater f : edits trouble (RemoveFloater faults f) (drops (floater_keys f)).
Proof.
  repeat (apply (edits_cons trouble); [apply (edits_remove trouble faults Generate id)|]).
  destruct (negb _); [apply (edits_remove trouble faults Generate id)|apply (edits_ok trouble)].
Qed.

(** ** What a step leaves alone *)

Lemma only_edits keys l1 l2 w w' : (l1 ++ l2).*1 ⊆ keys -> writes objects w w' (edited l1 (rows objects w)) -> only_objects keys w w'.
Proof.
  intros Hk (E1 & E2 & E3)%(edits_only l1 l2). split_and!; [done|done|]. intros k Hn. apply E3. intros H. by apply Hn, Hk.
Qed.

Lemma only_same keys w : only_objects keys w w.
Proof. by split_and!. Qed.

Lemma only_trans keys w w1 w2 : only_objects keys w w1 -> only_objects keys w1 w2 -> only_objects keys w w2.
Proof. intros (E1 & E2 & E3) (F1 & F2 & F3). split_and!; [congruence|congruence|]. intros k Hk. by rewrite F3, E3. Qed.

Lemma only_tick keys w : only_objects keys w (next_call w).
Proof. by split_and!. Qed.

(** Reads change nothing; they fail when a call does or when nothing is listed. *)
Definition unlisted : Prop := exists w f, PodsOf w f = [] \/ NodesOf w (fl_Server f) = [].

Lemma runs_list {A} (read : Site -> list A) w (X : Site -> Prop) Q : (faulty faults -> X (next_call w)) -> Q (read (next_call w)) (next_call w) -> runs (list_of faults read) w X Q.
Proof. intros HX HQ. unfold list_of. apply runs_call; [intros ?; by apply HX, call_faulty|done]. Qed.

(** What the floater [f] shows of its pods or nodes, read when its DaemonSet was there, in states
that differ from [w] in [keys] at most. *)
Definition shown (host : bool) (keys : list okey) (w : Site) (f : Floater) (infos : list FloatInfo) : Prop := exists w1 w2,
  only_objects keys w w1 /\ only_objects keys w w2 /\ is_Some (si_objects w1 !! fst (floater_daemonset f)) /\ PodsOf w1 f <> [] /\
  infos = if host then on_nodes (PodsOf w1 f) (NodesOf w2 (fl_Server f)) else map (fun '(name, node, ips) => mkFloat node [] name ips) (PodsOf w1 f).

Lemma runs_infos (host : bool) f keys w w0 (X : Site -> Prop) (Q : list FloatInfo -> Site -> Prop) : only_objects keys w w0 -> is_Some (si_objects w0 !! fst (floater_daemonset f)) ->
  (forall w', trouble \/ unlisted -> only_objects keys w w' -> X w') -> (forall infos w', only_objects keys w w' -> shown host keys w f infos -> Q infos w') ->
  runs (if host then GetNodesInfo faults PodsOf NodesOf f else GetPodInfo faults PodsOf f) w0 X Q.
Proof.
  intros Ho Hs HX HQ. assert (H1 : only_objects keys w (next_call w0)) by (eapply only_trans, only_tick; done).
  assert (H2 : only_objects keys w (next_call (next_call w0))) by (eapply only_trans, only_tick; done). destruct host.
  - apply runs_seq, runs_list; [intros Hf; apply HX; [by left; left|done]|]. case_bool_decide as E; [apply HX; [right; by eexists _, f; left|done]|].
    apply runs_seq, runs_list; [intros Hf; apply HX; [by left; left|done]|].
    case_bool_decide as E2; [apply HX; [right; by eexists _, f; right|done]|]. apply runs_ok, HQ; [done|]. by exists (next_call w0), (next_call (next_call w0)).
  - apply runs_seq, runs_list; [intros Hf; apply HX; [by left; left|done]|]. case_bool_decide as E; [apply HX; [right; by eexists _, f; left|done]|].
    apply runs_ok, HQ; [done|]. by exists (next_call w0), (next_call w0).
Qed.

(** ** The rows *)

(** Without a map of CIDRs an address is only brought into its canonical form, and only when
there is a destination cluster. *)
Definition target_ip (o : CommandCheckOptions) (ip : string) : string :=
  match co_DstFloater o, GoNet.ParseIP ip with Some _, Some a => GoNet.IP_String a | _, _ => ip end.

(** Every source pings every address of every destination, in this order. *)
Definition expected_rows (o : CommandCheckOptions) (host : bool) (w : Site) (sources targets : list FloatInfo) : list PrintCheckData :=
  flat_map (fun i => flat_map (fun j => map (fun ip =>
    let targetIP := if host then ip else target_ip o ip in
    mkData (CommandExec Exec (co_SrcFloater o) i (ping_command targetIP) ping_ParseResult w) (fi_NodeName i) (fi_NodeName j) targetIP)
    (if host then fi_NodeIPs j else fi_PodIPs j)) targets) sources.

Definition unmapped (o : CommandCheckOptions) : Prop := match co_DstFloater o with Some dst => fl_CIDRsMap dst = [] | None => True end.

Lemma range_ping_spec o i ip w : unmapped o -> range_ping Exec o i ip w =
  Ret (CommandExec Exec (co_SrcFloater o) i (ping_command (target_ip o ip)) ping_ParseResult w, target_ip o ip).
Proof.
  unfold unmapped, range_ping, target_ip, NetMap. destruct (co_DstFloater o) as [dst|]; [|done]. intros ->. by destruct (GoNet.ParseIP ip).
Qed.

Lemma RunRange_spec o w sources targets : unmapped o -> RunRange Exec o w sources targets = Ret (expected_rows o false w sources targets).
Proof.
  intros Hu. unfold RunRange, expected_rows. rewrite (foldM_append (fun i => flat_map (fun j => map (fun ip =>
    mkData (CommandExec Exec (co_SrcFloater o) i (ping_command (target_ip o ip)) ping_ParseResult w) (fi_NodeName i) (fi_NodeName j) (target_ip o ip)) (fi_PodIPs j)) targets)); [done|].
  intros acc i _. apply foldM_append. intros acc' j _. unfold range_rows. 
  rewrite (foldM_append (fun ip => [mkData (CommandExec Exec (co_SrcFloater o) i (ping_command (target_ip o ip)) ping_ParseResult w) (fi_NodeName i) (fi_NodeName j) (target_ip o ip)]));
    [|intros acc'' ip _; by rewrite range_ping_spec]. by do 2 f_equal.
Qed.

Lemma RunNative_spec o w sources targets : RunNative Exec o w sources targets = expected_rows o true w sources targets.
Proof. done. Qed.

(** ** The whole check *)

Definition floaters (o : CommandCheckOptions) : list Floater := co_SrcFloater o :: match co_DstFloater o with Some dst => [dst] | None => [] end.

Definition check_keys (o : CommandCheckOptions) : list okey := flat_map (fun f => (floater_objects f).*1) (floaters o).

Lemma floater_keys_sub f : fl_Name f = DefaultFloaterName -> floater_keys f ⊆ (floater_objects f).*1.
Proof.
  intros E k. unfold floater_keys, floater_objects. rewrite E. cbn [fmap list_fmap floater_namespace floater_account floater_role floater_binding floater_daemonset fst].
  destruct (negb _); simpl; rewrite !elem_of_cons, ?elem_of_nil; tauto.
Qed.

Lemma check_keys_sub o f : f ∈ floaters o -> (floater_objects f).*1 ⊆ check_keys o.
Proof.
  intros Hf k Hk. unfold check_keys. apply list_elem_of_In, in_flat_map. exists f. by rewrite <- !list_elem_of_In.
Qed.

(** One step of the check in a state that differs from [w] in the objects [keys] at most. *)
Lemma only_step (P : Prop) keys w w1 p l (X : Site -> Prop) (Q : unit -> Site -> Prop) : edits P p l -> only_objects keys w w1 -> l.*1 ⊆ keys ->
  (forall w', P -> only_objects keys w w' -> X w') -> (forall w', only_objects keys w w' -> writes objects w1 w' (edited l (rows objects w1)) -> Q tt w') -> runs p w1 X Q.
Proof.
  intros Hp Ho Hl HX HQ. apply Hp.
  - intros l1 l2 w' -> HP Hw. apply HX; [done|]. eapply only_trans; [exact Ho|]. by apply (only_edits keys l1 l2).
  - intros w' Hw. apply HQ; [|done]. eapply only_trans; [exact Ho|]. apply (only_edits keys l []); [by rewrite app_nil_r|done].
Qed.

Lemma ensures_floater f : (ensures (floater_objects f)).*1 = (floater_objects f).*1. Proof. apply ensures_keys. Qed.

(** The removal of all floaters. *)
Definition removed_all (o : CommandCheckOptions) (w' : Site) : Prop := forall f k, f ∈ floaters o -> k ∈ floater_keys f -> si_objects w' !! k = None.

Lemma writes_drops l w w' k : writes objects w w' (edited (drops l) (rows objects w)) -> si_objects w' !! k = if bool_decide (k ∈ l) then None else si_objects w !! k.
Proof. intros (E & _)%writes_objects. rewrite E. apply dropped. Qed.

(** What the options say of their floaters. *)
Lemma check_floaters flags : let o := check_Complete flags in
  (forall f, f ∈ floaters o -> fl_Name f = DefaultFloaterName) /\ unmapped o /\ fl_EnableHostNetwork (default (co_SrcFloater o) (co_DstFloater o)) = cf_HostNetwork flags.
Proof.
  unfold check_Complete, unmapped, floaters. split_and!; [|by destruct (str_empty _), (cf_Dst flags)..]. intros f Hf. simpl in Hf.
  apply elem_of_cons in Hf as [-> |Hf]; [by destruct (str_empty _)|].
  destruct (str_empty _), (cf_Dst flags); simpl in Hf; try (by apply not_elem_of_nil in Hf); by apply list_elem_of_singleton in Hf as ->.
Qed.

Section check_steps.
  Context (o : CommandCheckOptions) (w : Site) (X : Site -> Prop) (Hname : forall f, f ∈ floaters o -> fl_Name f = DefaultFloaterName).
  Context (HX : forall w', trouble \/ unlisted -> only_objects (check_keys o) w w' -> X w').

Lemma runs_CreateFloater f w1 (Q : unit -> Site -> Prop) : f ∈ floaters o -> only_objects (check_keys o) w w1 ->
  (forall w', only_objects (check_keys o) w w' -> is_Some (si_objects w' !! fst (floater_daemonset f)) -> Q tt w') -> runs (CreateFloater faults Generate WaitReady f) w1 X Q.
Proof.
  intros Hf H1 HQ. apply (only_step trouble (check_keys o) w w1 _ _ _ _ (edits_CreateFloater f) H1).
  - rewrite ensures_keys. by apply check_keys_sub.
  - intros w' Ht. apply HX. by left.
  - intros w' Ho (E & _)%writes_objects. apply HQ; [done|]. rewrite E. apply ensured_there. apply list_elem_of_fmap. exists (floater_daemonset f). split; [done|]. by do 4 right; left.
Qed.

Lemma runs_RemoveFloater f w1 (Q : unit -> Site -> Prop) : f ∈ floaters o -> only_objects (check_keys o) w w1 ->
  (forall w', only_objects (check_keys o) w w' -> (forall k, si_objects w' !! k = if bool_decide (k ∈ floater_keys f) then None else si_objects w1 !! k) -> Q tt w') ->
  runs (RemoveFloater faults f) w1 X Q.
Proof.
  intros Hf H1 HQ. apply (only_step trouble (check_keys o) w w1 _ _ _ _ (edits_RemoveFloater f) H1).
  - rewrite drops_keys. etransitivity; [by apply floater_keys_sub, Hname|by apply check_keys_sub].
  - intros w' Ht. apply HX. by left.
  - intros w' Ho Hw. apply HQ; [done|]. intros k. by apply (writes_drops (floater_keys f)).
Qed.

(** The end of the check: all floaters are removed. *)
Lemma runs_remove_all {A} (a : A) w1 (Q : A -> Site -> Prop) : only_objects (check_keys o) w w1 ->
  (forall w', only_objects (check_keys o) w w' -> removed_all o w' -> Q a w') ->
  runs (do! _ := RemoveFloater faults (co_SrcFloater o) in
    do! _ := match co_DstFloater o with Some dst => RemoveFloater faults dst | None => mok tt end in mok a) w1 X Q.
Proof.
  intros H1 HQ. apply runs_seq, runs_RemoveFloater; [by left|done|]. intros w2 H2 E2. apply runs_seq. unfold removed_all in HQ. 
  destruct (co_DstFloater o) as [dst|] eqn:Ed.
  - apply runs_RemoveFloater; [unfold floaters; rewrite Ed; right; by left|done|]. intros w3 H3 E3. apply runs_ok, HQ; [done|]. intros f k Hf Hk.
    unfold floaters in Hf. rewrite Ed in Hf. rewrite E3. case_bool_decide; [done|]. rewrite E2.
    apply elem_of_cons in Hf as [-> |Hf]; [by rewrite bool_decide_true|]. by apply list_elem_of_singleton in Hf as ->.
  - apply runs_ok, runs_ok, HQ; [done|]. intros f k Hf Hk. unfold floaters in Hf. rewrite Ed in Hf. apply list_elem_of_singleton in Hf as ->. by rewrite E2, bool_decide_true.
Qed.

Lemma runs_pings (host : bool) sources targets w1 (Q : list PrintCheckData -> Site -> Prop) : unmapped o -> Q (expected_rows o host w1 sources targets) w1 ->
  runs (at_site (fun w => if host then Ret (RunNative Exec o w sources targets) else RunRange Exec o w sources targets)) w1 X Q.
Proof. intros Hu HQ. unfold runs, at_site. destruct host; [done|by rewrite RunRange_spec]. Qed.

End check_steps.


End facts.

(** * Examples *)

Definition ex_flags (dst : option string) : CheckFlags := mkFlags "kosmos-system" "ghcr.io/kosmos-io" "" "v1" "8889" false "src" dst.
Definition ex_pods (w : Site) (f : Floater) : list (string * string * list string) :=
  if (fl_Server f =s "src") then [("f1", "node1", ["10.0.0.1"]); ("f2", "node2", ["10.0.0.2"])]%string else [("g1", "other", ["10.8.0.1"; "fd00:0::1"])]%string.
Definition ex_reply (ip : string) : string := "PING " +:+ ip +:+ ": 56 data bytes; 1 packets transmitted, 1 packets received, 0% packet loss".
Definition ex_exec (w : Site) (f : Floater) (pod cmd : string) : result string :=
  if (cmd =s "ping -c 1 10.8.0.1") then inl (ex_reply "10.8.0.1") else if (pod =s "f1") then inl "no answer"%string else inr "timeout"%string.
Definition ex_check (flags : CheckFlags) (w : Site) : Site * answer apierr (list PrintCheckData) :=
  check_Run no_faults all_made all_ready ex_pods (fun _ _ => []) ex_exec (check_Complete flags) w.

(** Two sources and two addresses give four rows, in the canonical form of the address; the default
namespace stays in both clusters. *)
Example check_two_clusters :
  (match snd (ex_check (ex_flags (Some "dst")) bare_site) with
   | Good rows => Some (map (fun d => (pd_Src d, pd_Dst d, pd_TargetIP d, PrintStatus (r_Status (pd_Result d)))) rows)
   | _ => None end) =
  Some [("node1", "other", "10.8.0.1", "SUCCESSED"); ("node1", "other", "fd00::1", "FAILED");
        ("node2", "other", "10.8.0.1", "SUCCESSED"); ("node2", "other", "fd00::1", "EXCEPTION")]%string /\
  map fst (map_to_list (si_objects (fst (ex_check (ex_flags (Some "dst")) bare_site)))) =
  [("src", "Namespace", "", "kosmos-system"); ("dst", "Namespace", "", "kosmos-system")]%string.
Proof. by vm_compute. Qed.

(** A namespace that was there before, other than the default one, is removed with the floater. *)
Example foreign_namespace_removed :
  let k := host_scope "src" "Namespace" "shop" in
  let flags := mkFlags "shop" "r" "" "v1" "8889" false "src" None in
  si_objects (fst (ex_check flags (mkSite 0 {[ k := Literal [] ]} ∅ ∅))) !! k = None.
Proof. by vm_compute. Qed.

(** Without pods the check ends with an error and the floater stays. *)
Example floater_stays :
  let r := check_Run no_faults all_made all_ready (fun _ _ => []) (fun _ _ => []) ex_exec (check_Complete (ex_flags None)) bare_site in
  snd r = Bad (OtherError "no pods in kosmos-system with selector app=clusterlink-floater") /\ size (si_objects (fst r)) = 5.
Proof. by vm_compute. Qed.

(** The reply of a ping that says "1 received" is taken for a failure. *)
Example reply_of_iputils : ping_matches "PING 10.8.0.1 56(84) bytes of data. 1 packets transmitted, 1 received, 0% packet loss, time 0ms" = false.
Proof. by vm_compute. Qed.
