(* ===== verification/QueueWorker.v ===== *)
(** The workers every controller of ClusterLink and of the daemon sets runs on
(utils/lifted/worker.go, utils/lifted/ratelimiterflag.go, utils/controllers/controller_util.go)
and the keys they are given (utils/keys/keys.go).

The queue is that of k8s.io/client-go/util/workqueue. Time is left out of it: a key added with a
delay is in [q_waiting] until the event [EReady] takes it, at any time. Each call that takes the
lock of the queue is one step, and the steps of the workers and of their clients interleave in
every order ([pool_exec], [pool_run]); what a reconcile returns is chosen by the event. [reconcileFunc]
itself is a parameter of the sequential [worker_once], which [worker_solo] relates to the steps. *)
From stdpp Require Import gmultiset.
From S2P Require Import Prelude GoStr.

(** ** The rate limiter *)

(** Durations in nanoseconds. *)
Record RateLimitOptions := mkLimits {
  RateLimiterBaseDelay : Z; RateLimiterMaxDelay : Z; RateLimiterQPS : Z; RateLimiterBucketSize : Z }.

Definition Millisecond : Z := 1000000.
Definition Second : Z := 1000000000.

(** [DefaultControllerRateLimiter]: the options the two limiters are made of. *)
Definition limiter_defaults (opts : RateLimitOptions) : RateLimitOptions :=
  mkLimits
    (if (RateLimiterBaseDelay opts <=? 0)%Z then 5 * Millisecond else RateLimiterBaseDelay opts)%Z
    (if (RateLimiterMaxDelay opts <=? 0)%Z then 1000 * Second else RateLimiterMaxDelay opts)%Z
    (if (RateLimiterQPS opts <=? 0)%Z then 10 else RateLimiterQPS opts)%Z
    (if (RateLimiterBucketSize opts <=? 0)%Z then 100 else RateLimiterBucketSize opts)%Z.

(** [ItemExponentialFailureRateLimiter.When] after [exp] failures. The product is taken as a
float64 there, exact for a base below 2^53 ns (104 days). *)
Definition backoff (base max : Z) (exp : nat) : Z :=
  let delay := (base * 2 ^ Z.of_nat exp)%Z in
  if (2 ^ 63 - 1 <? delay)%Z then max else if (max <? delay)%Z then max else delay.

(** [MaxOfRateLimiter.When]: [bucket] is what the token bucket says. *)
Definition limiter_delay (opts : RateLimitOptions) (bucket : Z) (exp : nat) : Z :=
  Z.max (backoff (RateLimiterBaseDelay (limiter_defaults opts)) (RateLimiterMaxDelay (limiter_defaults opts)) exp) bucket.

Definition maxRetries : nat := 15.

Section queue.
  Context {K : Type} `{Countable K}.

(** ** The queue *)

Record Queue := mkQueue {
  q_queue : list K; q_dirty : gset K; q_processing : gset K; q_shuttingDown : bool;
  q_waiting : gmultiset K; q_failures : gmap K nat }.

Definition new_queue : Queue := mkQueue [] ∅ ∅ false ∅ ∅.

Definition with_waiting (q : Queue) (w : gmultiset K) : Queue :=
  mkQueue (q_queue q) (q_dirty q) (q_processing q) (q_shuttingDown q) w (q_failures q).
Definition with_failures (q : Queue) (f : gmap K nat) : Queue :=
  mkQueue (q_queue q) (q_dirty q) (q_processing q) (q_shuttingDown q) (q_waiting q) f.

Definition queue_add (k : K) (q : Queue) : Queue :=
  if q_shuttingDown q then q
  else if bool_decide (k ∈ q_dirty q) then q
  else mkQueue (if bool_decide (k ∈ q_processing q) then q_queue q else q_queue q ++ [k])
         ({[k]} ∪ q_dirty q) (q_processing q) false (q_waiting q) (q_failures q).

(** [None]: the call blocks; [Some None]: the queue is empty and shut down. *)
Definition queue_get (q : Queue) : option (option (K * Queue)) :=
  match q_queue q with
  | [] => if q_shuttingDown q then Some None else None
  | k :: rest =>
      Some (Some (k, mkQueue rest (q_dirty q ∖ {[k]}) ({[k]} ∪ q_processing q) (q_shuttingDown q) (q_waiting q) (q_failures q)))
  end.

(** A key that became dirty meanwhile is queued again, even when the queue shuts down. *)
Definition queue_done (k : K) (q : Queue) : Queue :=
  mkQueue (if bool_decide (k ∈ q_dirty q) then q_queue q ++ [k] else q_queue q)
    (q_dirty q) (q_processing q ∖ {[k]}) (q_shuttingDown q) (q_waiting q) (q_failures q).

Definition queue_shutdown (q : Queue) : Queue :=
  mkQueue (q_queue q) (q_dirty q) (q_processing q) true (q_waiting q) (q_failures q).

Definition queue_add_after (k : K) (delay : Z) (q : Queue) : Queue :=
  if q_shuttingDown q then q
  else if (delay <=? 0)%Z then queue_add k q
  else with_waiting q (q_waiting q ⊎ {[+ k +]}).

(** The waiting loop: a key whose time has come, and a key that waits already. *)
Definition queue_ready (k : K) (q : Queue) : option Queue :=
  if bool_decide (k ∈ q_waiting q) then Some (queue_add k (with_waiting q (q_waiting q ∖ {[+ k +]}))) else None.
Definition queue_merge (k : K) (q : Queue) : option Queue :=
  if 2 <=? multiplicity k (q_waiting q) then Some (with_waiting q (q_waiting q ∖ {[+ k +]})) else None.

Definition NumRequeues (k : K) (q : Queue) : nat := default 0 (q_failures q !! k).
Definition queue_forget (k : K) (q : Queue) : Queue := with_failures q (delete k (q_failures q)).

Definition queue_add_limited (opts : RateLimitOptions) (bucket : Z) (k : K) (q : Queue) : Queue :=
  queue_add_after k (limiter_delay opts bucket (NumRequeues k q))
    (with_failures q (<[k := S (NumRequeues k q)]> (q_failures q))).

(** ** One worker, step by step *)

(** Where a worker is in [worker] (or [processNextItem]) and [handleError]. *)
Inductive phase :=
  | PIdle
  | PReconciling (k : K)
  | PFailed (k : K)
  | PRetrying (k : K)
  | PForgetting (k : K)
  | PFinishing (k : K)
  | PExited.

Definition phase_key (p : phase) : option K :=
  match p with
  | PIdle | PExited => None
  | PReconciling k | PFailed k | PRetrying k | PForgetting k | PFinishing k => Some k
  end.

Record Pool := mkPool { p_q : Queue; p_workers : list phase; p_stopped : bool }.

(** [Run]: the workers that are started. *)
Definition Run (q : Queue) (workerNumber : Z) : Pool :=
  mkPool q (replicate (Z.to_nat workerNumber) PIdle) false.

Definition with_q (s : Pool) (q : Queue) : Pool := mkPool q (p_workers s) (p_stopped s).
Definition goto (s : Pool) (i : nat) (p : phase) : Pool := mkPool (p_q s) (<[i := p]> (p_workers s)) (p_stopped s).

(** [ELimited] is [EnqueueRateLimited], which only the second worker offers; [ERetry] is the
[AddRateLimited] of [handleError]. *)
Inductive worker_event :=
  | EAdd (k : K) | EAddAfter (k : K) (delay : Z) | EForget (k : K) | ELimited (k : K) (bucket : Z)
  | EReady (k : K) | EMerge (k : K)
  | EGet (i : nat) | EReconciled (i : nat) (err : option string) | ECheck (i : nat)
  | ERetry (i : nat) (bucket : Z) | EForgot (i : nat) | EDone (i : nat)
  | EStop | EShutDown | EExit (i : nat).

  Context (opts : RateLimitOptions).

(** [None]: the event cannot happen in this state. *)
Definition pool_exec (e : worker_event) (s : Pool) : option Pool :=
  match e with
  | EAdd k => Some (with_q s (queue_add k (p_q s)))
  | EAddAfter k delay => Some (with_q s (queue_add_after k delay (p_q s)))
  | EForget k => Some (with_q s (queue_forget k (p_q s)))
  | ELimited k bucket => Some (with_q s (queue_add_limited opts bucket k (p_q s)))
  | EReady k => with_q s <$> queue_ready k (p_q s)
  | EMerge k => with_q s <$> queue_merge k (p_q s)
  | EGet i =>
      match p_workers s !! i with
      | Some PIdle =>
          match queue_get (p_q s) with
          | None => None
          | Some None => Some s
          | Some (Some (k, q)) => Some (goto (with_q s q) i (PReconciling k))
          end
      | _ => None
      end
  | EReconciled i err =>
      match p_workers s !! i with
      | Some (PReconciling k) => Some (goto s i (match err with None => PForgetting k | Some _ => PFailed k end))
      | _ => None
      end
  | ECheck i =>
      match p_workers s !! i with
      | Some (PFailed k) =>
          Some (goto s i (if NumRequeues k (p_q s) <? maxRetries then PRetrying k else PForgetting k))
      | _ => None
      end
  | ERetry i bucket =>
      match p_workers s !! i with
      | Some (PRetrying k) => Some (goto (with_q s (queue_add_limited opts bucket k (p_q s))) i (PFinishing k))
      | _ => None
      end
  | EForgot i =>
      match p_workers s !! i with
      | Some (PForgetting k) => Some (goto (with_q s (queue_forget k (p_q s))) i (PFinishing k))
      | _ => None
      end
  | EDone i =>
      match p_workers s !! i with
      | Some (PFinishing k) => Some (goto (with_q s (queue_done k (p_q s))) i PIdle)
      | _ => None
      end
  | EStop => Some (mkPool (p_q s) (p_workers s) true)
  | EShutDown => if p_stopped s then Some (with_q s (queue_shutdown (p_q s))) else None
  | EExit i =>
      match p_workers s !! i with
      | Some PIdle => if p_stopped s then Some (goto s i PExited) else None
      | _ => None
      end
  end.

Fixpoint pool_run (evs : list worker_event) (s : Pool) : option Pool :=
  match evs with
  | [] => Some s
  | e :: evs => match pool_exec e s with Some s => pool_run evs s | None => None end
  end.

(** ** The code of the workers *)

(** [asyncWorker.Add], [AddAfter]: a nil item is left out. *)
Definition async_add (item : option K) (q : Queue) : Queue :=
  match item with None => q | Some k => queue_add k q end.
Definition async_add_after (item : option K) (delay : Z) (q : Queue) : Queue :=
  match item with None => q | Some k => queue_add_after k delay q end.

(** [asyncWorker.Enqueue]; [keyFunc] gives a key, nil, or an error. *)
Definition async_enqueue {A} (keyFunc : A -> result (option K)) (obj : A) (q : Queue) : Queue :=
  match keyFunc obj with inr _ => q | inl None => q | inl (Some k) => async_add (Some k) q end.

Definition handleError (bucket : Z) (err : option string) (k : K) (q : Queue) : Queue :=
  match err with
  | None => queue_forget k q
  | Some _ => if NumRequeues k q <? maxRetries then queue_add_limited opts bucket k q else queue_forget k q
  end.

(** [asyncWorker.worker]: [None] when it waits for an item. [true] when an item was handled. *)
Definition worker_once (reconcileFunc : K -> option string) (bucket : Z) (q : Queue) : option (Queue * bool) :=
  match queue_get q with
  | None => None
  | Some None => Some (q, false)
  | Some (Some (k, q)) => Some (queue_done k (handleError bucket (reconcileFunc k) k q), true)
  end.

(** The methods of [controllers.worker], which repeats the code of the other one. *)
Definition ctl_handleErr (bucket : Z) (err : option string) (k : K) (q : Queue) : Queue := handleError bucket err k q.
Definition processNextItem (reconcile : K -> option string) (bucket : Z) (q : Queue) : option (Queue * bool) :=
  match queue_get q with
  | None => None
  | Some None => Some (q, false)
  | Some (Some (k, q)) => Some (queue_done k (ctl_handleErr bucket (reconcile k) k q), true)
  end.
Definition ctl_enqueue {A} (keyFunc : A -> result K) (obj : A) (q : Queue) : Queue :=
  match keyFunc obj with inr _ => q | inl k => queue_add k q end.
Definition ctl_enqueue_limited {A} (keyFunc : A -> result K) (bucket : Z) (obj : A) (q : Queue) : Queue :=
  match keyFunc obj with inr _ => q | inl k => queue_add_limited opts bucket k q end.
Definition ctl_enqueue_after {A} (keyFunc : A -> result K) (obj : A) (delay : Z) (q : Queue) : Queue :=
  match keyFunc obj with inr _ => q | inl k => queue_add_after k delay q end.
Definition ctl_forget {A} (keyFunc : A -> result K) (obj : A) (q : Queue) : Queue :=
  match keyFunc obj with inr _ => q | inl k => queue_forget k q end.

(** [GetFirst] asserts the type of the item, which is nil once the queue is shut down. *)
Definition GetFirst (q : Queue) : option (outcome (K * Queue)) :=
  match queue_get q with None => None | Some None => Some Panic | Some (Some r) => Some (Ret r) end.

(** ** The invariant of the queue *)

(** A key is in the list when it is dirty and no worker has it. *)
Definition queue_ok (q : Queue) : Prop :=
  NoDup (q_queue q) /\ forall k, k ∈ q_queue q <-> k ∈ q_dirty q /\ k ∉ q_processing q.

Definition keeps (q q' : Queue) : Prop :=
  q_processing q' = q_processing q /\ (queue_ok q -> queue_ok q').

Lemma keeps_refl q : keeps q q.
Proof. done. Qed.
Lemma keeps_trans q1 q2 q3 : keeps q1 q2 -> keeps q2 q3 -> keeps q1 q3.
Proof. intros [E1 H1] [E2 H2]. split; [congruence|auto]. Qed.
Lemma keeps_waiting q w : keeps q (with_waiting q w).
Proof. done. Qed.
Lemma keeps_failures q f : keeps q (with_failures q f).
Proof. done. Qed.

Lemma keeps_add k q : keeps q (queue_add k q).
Proof.
  unfold queue_add. destruct (q_shuttingDown q); [done|].
  case_bool_decide as Hd; [done|]. split; [done|]. intros [Hn Hq].
  case_bool_decide as Hp; split; simpl; [done|set_solver| |set_solver].
  apply list.NoDup_app. split; [done|]. split; [|apply list.NoDup_singleton].
  intros x Hx ->%list_elem_of_singleton. apply Hq in Hx as [? _]. done.
Qed.

Lemma keeps_add_after k d q : keeps q (queue_add_after k d q).
Proof. unfold queue_add_after. repeat destr_match; auto using keeps_refl, keeps_add, keeps_waiting. Qed.

Lemma keeps_add_limited b k q : keeps q (queue_add_limited opts b k q).
Proof. eapply keeps_trans, keeps_add_after. apply keeps_failures. Qed.

Lemma keeps_ready k q q' : queue_ready k q = Some q' -> keeps q q'.
Proof.
  unfold queue_ready. case_bool_decide; [|done]. intros [= <-].
  eapply keeps_trans, keeps_add. apply keeps_waiting.
Qed.

Lemma keeps_merge k q q' : queue_merge k q = Some q' -> keeps q q'.
Proof. unfold queue_merge. destr_match; [|done]. intros [= <-]. apply keeps_waiting. Qed.

Lemma queue_get_ok k q q' : queue_ok q -> queue_get q = Some (Some (k, q')) ->
  queue_ok q' /\ k ∉ q_processing q /\ q_processing q' = {[k]} ∪ q_processing q.
Proof.
  intros [Hn Hq]. unfold queue_get. destruct (q_queue q) as [|x rest] eqn:E; [by destr_match|].
  intros [= <- <-]. apply list.NoDup_cons in Hn as [Hx Hn].
  split; [split; simpl; [done|]|split; [|done]].
  - intros y. specialize (Hq y). set_solver.
  - apply (Hq x). by left.
Qed.

Lemma queue_done_ok k q : queue_ok q -> k ∈ q_processing q -> queue_ok (queue_done k q).
Proof.
  intros [Hn Hq] Hp. unfold queue_done. case_bool_decide as Hd; split; simpl.
  - apply list.NoDup_app. split; [done|]. split; [|apply list.NoDup_singleton].
    intros x Hx ->%list_elem_of_singleton. by apply Hq in Hx as [_ ?].
  - intros x. specialize (Hq x). destruct (decide (x = k)); set_solver.
  - done.
  - intros x. specialize (Hq x). destruct (decide (x = k)); set_solver.
Qed.

(** ** The invariant of the pool *)

Definition held (s : Pool) (i : nat) (k : K) : Prop := p_workers s !! i ≫= phase_key = Some k.

(** The keys being processed are those the workers have, each of them at one worker. *)
Definition pool_ok (s : Pool) : Prop :=
  queue_ok (p_q s) /\ (forall k, k ∈ q_processing (p_q s) <-> exists i, held s i k) /\
  (forall i j k, held s i k -> held s j k -> i = j).

Lemma held_goto s i p p' j k : p_workers s !! i = Some p ->
  held (goto s i p') j k <-> (j = i /\ phase_key p' = Some k) \/ (j <> i /\ held s j k).
Proof.
  intros Hi. unfold held, goto; simpl. destruct (decide (j = i)) as [->|Hj].
  - rewrite list_lookup_insert_eq by (by eapply lookup_lt_Some). simpl. naive_solver.
  - rewrite list_lookup_insert_ne by done. naive_solver.
Qed.

Lemma pool_ok_with_q s q : keeps (p_q s) q -> pool_ok s -> pool_ok (with_q s q).
Proof.
  intros [E Hk] (Hq & Hp & Hu). split; [auto|]. split; [|done].
  intros k. simpl. rewrite E. apply Hp.
Qed.

(** A step of a worker that goes on with the same key. *)
Lemma pool_ok_goto s i p p' : p_workers s !! i = Some p -> phase_key p' = phase_key p ->
  pool_ok s -> pool_ok (goto s i p').
Proof.
  intros Hi Ep (Hq & Hp & Hu).
  assert (Hh : forall j k, held (goto s i p') j k <-> held s j k).
  { intros j k. rewrite held_goto by done. rewrite Ep. unfold held.
    destruct (decide (j = i)) as [->|]; [rewrite Hi; simpl|]; naive_solver. }
  split; [done|]. split; [intros k; rewrite Hp; by setoid_rewrite Hh|].
  intros j j' k. rewrite !Hh. apply Hu.
Qed.

Lemma pool_ok_get s i k q : pool_ok s -> p_workers s !! i = Some PIdle ->
  queue_get (p_q s) = Some (Some (k, q)) -> pool_ok (goto (with_q s q) i (PReconciling k)).
Proof.
  intros (Hq & Hp & Hu) Hi Hg. destruct (queue_get_ok _ _ _ Hq Hg) as (Hq' & Hk & E).
  assert (Hfree : forall j, ~ held s j k) by (intros j Hj; apply Hk, Hp; by exists j).
  assert (Hidle : forall k, ~ held s i k) by (intros x; unfold held; rewrite Hi; done).
  assert (Hh : forall j x, held (goto (with_q s q) i (PReconciling k)) j x <->
    (j = i /\ x = k) \/ held s j x).
  { intros j x. rewrite (held_goto (with_q s q) i PIdle) by done. simpl.
    change (held (with_q s q) j x) with (held s j x). specialize (Hidle x). naive_solver. }
  split; [done|]. split.
  - intros x. simpl. rewrite E. setoid_rewrite Hh. specialize (Hp x). set_solver.
  - intros j j' x. rewrite !Hh. naive_solver.
Qed.

Lemma pool_ok_done s i k : pool_ok s -> p_workers s !! i = Some (PFinishing k) ->
  pool_ok (goto (with_q s (queue_done k (p_q s))) i PIdle).
Proof.
  intros (Hq & Hp & Hu) Hi. assert (Hik : held s i k) by (unfold held; by rewrite Hi).
  assert (Hh : forall j x, held (goto (with_q s (queue_done k (p_q s))) i PIdle) j x <-> j <> i /\ held s j x).
  { intros j x. rewrite (held_goto (with_q s _) i (PFinishing k)) by done. simpl.
    change (held (with_q s _) j x) with (held s j x). naive_solver. }
  split; [|split].
  - apply queue_done_ok; [done|]. apply Hp. by exists i.
  - intros x. simpl. setoid_rewrite Hh. rewrite elem_of_difference, Hp, elem_of_singleton. split.
    + intros [(j & Hj) Hx]. exists j. split; [|done]. intros ->. unfold held in *. congruence.
    + intros (j & Hj & Hx). split; [by exists j|]. intros ->. by apply Hj, (Hu j i k).
  - intros j j' x. rewrite !Hh. naive_solver.
Qed.

Lemma exec_ok e s s' : pool_exec e s = Some s' -> pool_ok s -> pool_ok s'.
Proof.
  intros He Hs. destruct e; simpl in He;
    try (destruct (p_workers s !! i) as [[]|] eqn:Hi; try done);
    try (apply fmap_Some in He as (? & ? & ->));
    repeat (destr_match; try done); simplify_eq;
    eauto using pool_ok_with_q, keeps_add, keeps_add_after, keeps_add_limited, keeps_ready, keeps_merge,
      pool_ok_get, pool_ok_done, pool_ok_goto, keeps_failures.
  all: try (eapply (pool_ok_goto (with_q s _)); [done|done|]);
    try (apply pool_ok_with_q; [|done]); auto using keeps_add_limited, keeps_failures.
Qed.

Lemma run_inv (I : Pool -> Prop) (P : worker_event -> Prop) evs s s' :
  (forall e s s', P e -> pool_exec e s = Some s' -> I s -> I s') ->
  Forall P evs -> pool_run evs s = Some s' -> I s -> I s'.
Proof.
  intros Hstep HP. revert s. induction HP as [|e evs He _ IH]; intros s; simpl; [congruence|].
  destruct (pool_exec e s) as [s1|] eqn:E; [|done]. eauto.
Qed.

Lemma pool_ok_start n : pool_ok (Run new_queue n).
Proof.
  assert (Hno : forall i k, ~ held (Run new_queue n) i k).
  { intros i k. unfold held, Run; simpl. destruct (replicate _ _ !! i) eqn:E; [|done].
    by apply lookup_replicate in E as [-> _]. }
  split; [split; [constructor|set_solver]|]. split; [set_solver|]. intros i j k Hi. by apply Hno in Hi.
Qed.

(** ** Retries *)

(** Clients of [asyncWorker] have no rate limited way to add a key. *)
Definition unlimited (e : worker_event) : Prop := match e with ELimited _ _ => False | _ => True end.

(** The check of [handleError] and the call it guards are two steps; the check still holds at
the call. *)
Definition retry_ok (s : Pool) : Prop :=
  (forall k, NumRequeues k (p_q s) <= maxRetries) /\
  (forall i k, p_workers s !! i = Some (PRetrying k) -> NumRequeues k (p_q s) < maxRetries).

Lemma failures_add k q : q_failures (queue_add k q) = q_failures q.
Proof. unfold queue_add. by repeat destr_match. Qed.
Lemma failures_add_after k d q : q_failures (queue_add_after k d q) = q_failures q.
Proof. unfold queue_add_after. repeat destr_match; [done|apply failures_add|done]. Qed.
Lemma failures_ready k q q' : queue_ready k q = Some q' -> q_failures q' = q_failures q.
Proof. unfold queue_ready. destr_match; [|done]. intros [= <-]. apply (failures_add k (with_waiting q _)). Qed.
Lemma failures_merge k q q' : queue_merge k q = Some q' -> q_failures q' = q_failures q.
Proof. unfold queue_merge. destr_match; [|done]. by intros [= <-]. Qed.
Lemma failures_get k q q' : queue_get q = Some (Some (k, q')) -> q_failures q' = q_failures q.
Proof. unfold queue_get. repeat destr_match; try done. by intros [= _ <-]. Qed.

Lemma requeues_limited b k q k' :
  NumRequeues k' (queue_add_limited opts b k q) = if decide (k' = k) then S (NumRequeues k q) else NumRequeues k' q.
Proof.
  unfold queue_add_limited, NumRequeues at 1. rewrite failures_add_after. simpl.
  destruct (decide (k' = k)) as [->|]; [by rewrite lookup_insert_eq|by rewrite lookup_insert_ne].
Qed.
Lemma requeues_forget k q k' :
  NumRequeues k' (queue_forget k q) = if decide (k' = k) then 0 else NumRequeues k' q.
Proof.
  unfold NumRequeues; simpl. destruct (decide (k' = k)) as [->|]; [by rewrite lookup_delete_eq|by rewrite lookup_delete_ne].
Qed.

Lemma requeues_eq q q' k : q_failures q' = q_failures q -> NumRequeues k q' = NumRequeues k q.
Proof. unfold NumRequeues. by intros ->. Qed.

Lemma retry_with_q s q : (forall k, NumRequeues k q <= NumRequeues k (p_q s)) -> retry_ok s -> retry_ok (with_q s q).
Proof.
  intros Hq [H1 H2]. split; simpl; [intros k; specialize (Hq k); specialize (H1 k); lia|].
  intros i k Hi. specialize (Hq k). specialize (H2 i k Hi). lia.
Qed.

Lemma retry_failures s q : q_failures q = q_failures (p_q s) -> retry_ok s -> retry_ok (with_q s q).
Proof. intros E. apply retry_with_q. intros k. by rewrite (requeues_eq _ _ k E). Qed.

Lemma retry_forget s k : retry_ok s -> retry_ok (with_q s (queue_forget k (p_q s))).
Proof. apply retry_with_q. intros x. rewrite requeues_forget. destruct (decide _); lia. Qed.

Lemma retry_goto s i p : (forall k, p = PRetrying k -> NumRequeues k (p_q s) < maxRetries) ->
  retry_ok s -> retry_ok (goto s i p).
Proof.
  intros Hp [H1 H2]. split; [done|]. intros j k. unfold goto; simpl. intros Hj.
  apply list_lookup_insert_Some in Hj as [(-> & -> & _)|[_ Hj]]; eauto.
Qed.

Lemma retry_retry s i k b : pool_ok s -> retry_ok s -> p_workers s !! i = Some (PRetrying k) ->
  retry_ok (goto (with_q s (queue_add_limited opts b k (p_q s))) i (PFinishing k)).
Proof.
  intros (_ & _ & Hu) [H1 H2] Hi. split; simpl.
  - intros x. rewrite requeues_limited. destruct (decide (x = k)); [|done]. specialize (H2 i k Hi). lia.
  - intros j x Hj. apply list_lookup_insert_Some in Hj as [(_ & ? & _)|[Hne Hj]]; [done|].
    rewrite requeues_limited. destruct (decide (x = k)) as [->|]; [|eauto].
    destruct Hne. apply (Hu i j k); unfold held; [by rewrite Hi|by rewrite Hj].
Qed.

Lemma exec_retry e s s' : unlimited e -> pool_exec e s = Some s' -> pool_ok s /\ retry_ok s -> pool_ok s' /\ retry_ok s'.
Proof.
  intros Hu He [Hs Hr]. split; [by eapply exec_ok|].
  destruct e; simpl in He; try done;
    try (destruct (p_workers s !! i) as [[]|] eqn:Hi; try done);
    try (apply fmap_Some in He as (? & ? & ->)); repeat (destr_match; try done); simplify_eq;
    repeat first [ done | by eapply retry_retry | by apply retry_forget
                 | apply retry_goto; [intros ? [=]; subst; by apply Nat.ltb_lt|]
                 | apply retry_failures; [simpl; eauto using failures_add, failures_add_after,
                     failures_ready, failures_merge, failures_get|] ].
Qed.

(** ** Attempts at a key that always fails *)

Definition one (b : bool) : nat := if b then 1 else 0.

(** The entries of [k] in the queue, waiting or dirty. *)
Definition entries (k : K) (q : Queue) : nat := multiplicity k (q_waiting q) + one (bool_decide (k ∈ q_dirty q)).

(** A worker that may still put [k] back, or forget it. *)
Definition phase_tokens (k : K) (p : phase) : nat :=
  match p with
  | PReconciling x | PFailed x | PRetrying x | PForgetting x => one (bool_decide (x = k))
  | _ => 0
  end.

(** The attempts at [k] a worker and what it puts back can still lead to, after [f] failures. *)
Definition phase_load (k : K) (f : nat) (p : phase) : nat :=
  match p with
  | PReconciling x => one (bool_decide (x = k)) * (S maxRetries - f)
  | PFailed x | PRetrying x => one (bool_decide (x = k)) * (maxRetries - f)
  | _ => 0
  end.

Definition tokens (k : K) (s : Pool) : nat := entries k (p_q s) + sum_list (phase_tokens k <$> p_workers s).
Definition load (k : K) (s : Pool) : nat :=
  entries k (p_q s) * (S maxRetries - NumRequeues k (p_q s)) +
  sum_list (phase_load k (NumRequeues k (p_q s)) <$> p_workers s).

(** No client adds or forgets [k], and no reconcile of it succeeds. *)
Definition quiet (k : K) (s : Pool) (e : worker_event) : bool :=
  match e with
  | EAdd x | EAddAfter x _ | EForget x => bool_decide (x <> k)
  | ELimited _ _ => false
  | EReconciled i None => negb (bool_decide (p_workers s !! i ≫= phase_key = Some k))
  | _ => true
  end.

Definition attempt (k : K) (s : Pool) (e : worker_event) : nat :=
  match e with EReconciled i _ => one (bool_decide (p_workers s !! i ≫= phase_key = Some k)) | _ => 0 end.

Fixpoint all_quiet (k : K) (evs : list worker_event) (s : Pool) : bool :=
  match evs with
  | [] => true
  | e :: evs => quiet k s e && match pool_exec e s with Some s => all_quiet k evs s | None => true end
  end.

Fixpoint attempts (k : K) (evs : list worker_event) (s : Pool) : nat :=
  match evs with
  | [] => 0
  | e :: evs => attempt k s e + match pool_exec e s with Some s => attempts k evs s | None => 0 end
  end.

Lemma sum_insert {A} (f : A -> nat) l i x y : l !! i = Some x ->
  sum_list (f <$> <[i := y]> l) + f x = sum_list (f <$> l) + f y.
Proof.
  revert i. induction l as [|z l IH]; intros [|i]; csimpl; try done.
  - intros [= ->]. lia.
  - intros Hi. specialize (IH i Hi). lia.
Qed.

Lemma multiplicity_one (k x : K) : multiplicity k {[+ x +]} = one (bool_decide (x = k)).
Proof. rewrite multiplicity_singleton. case_decide; case_bool_decide; naive_solver. Qed.

Lemma entries_add k x q : entries k (queue_add x q) <= entries k q + one (bool_decide (x = k)).
Proof.
  unfold queue_add. destruct (q_shuttingDown q); [lia|]. case_bool_decide as Hd; [lia|].
  unfold entries; simpl. destruct (decide (x = k)) as [->|Hx].
  - rewrite (bool_decide_true (k ∈ {[k]} ∪ _)) by set_solver. rewrite (bool_decide_true (k = k)) by done. simpl. lia.
  - rewrite (bool_decide_ext (k ∈ {[x]} ∪ q_dirty q) (k ∈ q_dirty q)) by set_solver. lia.
Qed.

Lemma entries_add_after k x d q : entries k (queue_add_after x d q) <= entries k q + one (bool_decide (x = k)).
Proof.
  unfold queue_add_after. destruct (q_shuttingDown q); [lia|]. destruct (d <=? 0)%Z; [apply entries_add|].
  unfold entries; simpl. rewrite multiplicity_disj_union, multiplicity_one. lia.
Qed.

Lemma entries_limited k b x q : entries k (queue_add_limited opts b x q) <= entries k q + one (bool_decide (x = k)).
Proof. apply (entries_add_after k x _ (with_failures q _)). Qed.

Lemma entries_ready k x q q' : queue_ready x q = Some q' -> entries k q' <= entries k q.
Proof.
  unfold queue_ready. case_bool_decide as Hx; [|done]. intros [= <-].
  etrans; [apply entries_add|]. unfold entries; simpl.
  rewrite multiplicity_difference, multiplicity_one. pose proof (proj1 (elem_of_multiplicity _ _) Hx).
  destruct (decide (x = k)) as [->|]; [rewrite (bool_decide_true (k = k)) by done|
    rewrite (bool_decide_false (x = k)) by done]; simpl; lia.
Qed.

Lemma entries_merge k x q q' : queue_merge x q = Some q' -> entries k q' <= entries k q.
Proof.
  unfold queue_merge. destr_match; [|done]. intros [= <-]. unfold entries; simpl.
  rewrite multiplicity_difference. lia.
Qed.

Lemma entries_get k x q q' : queue_ok q -> queue_get q = Some (Some (x, q')) ->
  entries k q' + one (bool_decide (x = k)) = entries k q.
Proof.
  intros [_ Hq]. unfold queue_get. destruct (q_queue q) as [|y rest] eqn:E; [by destr_match|].
  intros [= -> <-]. assert (Hx : x ∈ q_dirty q) by (apply (Hq x); by left). unfold entries; simpl.
  destruct (decide (x = k)) as [->|Hk].
  - rewrite (bool_decide_false (k ∈ _ ∖ _)), (bool_decide_true (k = k)), (bool_decide_true (k ∈ _)) by set_solver. simpl. lia.
  - rewrite (bool_decide_ext (k ∈ q_dirty q ∖ {[x]}) (k ∈ q_dirty q)) by set_solver.
    rewrite (bool_decide_false (x = k)) by done. simpl. lia.
Qed.

Lemma tokens_goto k s i p p' : p_workers s !! i = Some p ->
  tokens k (goto s i p') + phase_tokens k p = tokens k s + phase_tokens k p'.
Proof. intros Hi. pose proof (sum_insert (phase_tokens k) _ _ _ p' Hi). unfold tokens; simpl. lia. Qed.

Lemma load_goto k s i p p' : p_workers s !! i = Some p ->
  load k (goto s i p') + phase_load k (NumRequeues k (p_q s)) p =
  load k s + phase_load k (NumRequeues k (p_q s)) p'.
Proof.
  intros Hi. pose proof (sum_insert (phase_load k (NumRequeues k (p_q s))) _ _ _ p' Hi).
  unfold load; simpl. lia.
Qed.

Lemma phase_load_tokens k f l : sum_list (phase_load k f <$> l) <= S maxRetries * sum_list (phase_tokens k <$> l).
Proof.
  unfold maxRetries. induction l as [|p l IH]; csimpl; [done|].
  enough (phase_load k f p <= 16 * phase_tokens k p) by lia.
  unfold phase_load, phase_tokens, one, maxRetries. destruct p; try lia; destruct (bool_decide _); lia.
Qed.

Lemma phase_load_mono k f l : sum_list (phase_load k (S f) <$> l) <= sum_list (phase_load k f <$> l).
Proof.
  induction l as [|p l IH]; csimpl; [done|]. apply Nat.add_le_mono; [|done].
  unfold phase_load, one, maxRetries. destruct p; try lia; destruct (bool_decide _); lia.
Qed.

Lemma load_tokens k s : load k s <= S maxRetries * tokens k s.
Proof.
  unfold load, tokens. pose proof (phase_load_tokens k (NumRequeues k (p_q s)) (p_workers s)).
  rewrite Nat.mul_add_distr_l. apply Nat.add_le_mono; [|done]. rewrite Nat.mul_comm. apply Nat.mul_le_mono_r. lia.
Qed.

(** What a step does to the entries, the tokens and the load of [k]; [c] attempts are made. *)
Definition spends (k : K) (c : nat) (s s' : Pool) : Prop :=
  tokens k s' <= tokens k s /\ load k s' + c <= load k s.

Lemma spends_with_q k s q : entries k q <= entries k (p_q s) -> NumRequeues k q = NumRequeues k (p_q s) ->
  spends k 0 s (with_q s q).
Proof.
  intros He Hf. split; [unfold tokens; simpl; lia|]. unfold load; simpl. rewrite Hf.
  pose proof (Nat.mul_le_mono_r _ _ (S maxRetries - NumRequeues k (p_q s)) He). lia.
Qed.

Lemma spends_goto k c s i p p' : p_workers s !! i = Some p ->
  phase_tokens k p' <= phase_tokens k p ->
  phase_load k (NumRequeues k (p_q s)) p' + c <= phase_load k (NumRequeues k (p_q s)) p ->
  spends k c s (goto s i p').
Proof.
  intros Hi Ht Hl. pose proof (tokens_goto k s i p p' Hi). pose proof (load_goto k s i p p' Hi).
  unfold spends. lia.
Qed.

Lemma spends_get k s i x q : pool_ok s -> p_workers s !! i = Some PIdle ->
  queue_get (p_q s) = Some (Some (x, q)) -> spends k 0 s (goto (with_q s q) i (PReconciling x)).
Proof.
  intros (Hq & _) Hi Hg. pose proof (entries_get k x _ _ Hq Hg) as He.
  pose proof (requeues_eq _ _ k (failures_get _ _ _ Hg)) as Hf.
  pose proof (tokens_goto k (with_q s q) i PIdle (PReconciling x) Hi) as Ht.
  pose proof (load_goto k (with_q s q) i PIdle (PReconciling x) Hi) as Hl.
  unfold spends. revert Ht Hl. unfold tokens at 2 4, load at 2 4. simpl. rewrite Hf, <- He.
  rewrite Nat.mul_add_distr_r. lia.
Qed.

Lemma spends_retry k s i x b : retry_ok s -> p_workers s !! i = Some (PRetrying x) ->
  spends k 0 s (goto (with_q s (queue_add_limited opts b x (p_q s))) i (PFinishing x)).
Proof.
  intros [_ Hr] Hi. specialize (Hr i x Hi).
  pose proof (entries_limited k b x (p_q s)) as He. pose proof (requeues_limited b x (p_q s) k) as Hf.
  pose proof (sum_insert (phase_tokens k) _ _ _ (PFinishing x) Hi) as Ht.
  pose proof (sum_insert (phase_load k (NumRequeues k (p_q s))) _ _ _ (PFinishing x) Hi) as Hl.
  unfold spends, tokens, load. simpl in *. rewrite Hf.
  destruct (decide (k = x)) as [->|Hx].
  - rewrite (bool_decide_true (x = x)) in * by done.
    pose proof (phase_load_mono x (NumRequeues x (p_q s)) (<[i := PFinishing x]> (p_workers s))).
    split; [simpl in *; lia|]. rewrite Nat.add_0_r. simpl in Hl.
    pose proof (Nat.mul_le_mono_r _ _ (S maxRetries - S (NumRequeues x (p_q s))) He) as Hm.
    revert Hm. simpl one. rewrite Nat.mul_add_distr_r.
    pose proof (Nat.mul_le_mono_l (S maxRetries - S (NumRequeues x (p_q s))) (S maxRetries - NumRequeues x (p_q s))
      (entries x (p_q s)) ltac:(lia)). simpl in *. lia.
  - rewrite (bool_decide_false (x = k)) in * by done. simpl in *. split; [lia|].
    pose proof (Nat.mul_le_mono_r _ _ (S maxRetries - NumRequeues k (p_q s)) He). simpl in *. lia.
Qed.

Lemma spends_forgot k s i x : tokens k s <= 1 -> p_workers s !! i = Some (PForgetting x) ->
  spends k 0 s (goto (with_q s (queue_forget x (p_q s))) i (PFinishing x)).
Proof.
  intros H1 Hi. pose proof (tokens_goto k (with_q s (queue_forget x (p_q s))) i _ (PFinishing x) Hi) as Ht.
  change (tokens k (with_q s (queue_forget x (p_q s)))) with (tokens k s) in Ht. simpl in Ht.
  destruct (decide (x = k)) as [->|Hx].
  - rewrite bool_decide_true in Ht by done. simpl in Ht. split; [lia|].
    pose proof (load_tokens k (goto (with_q s (queue_forget k (p_q s))) i (PFinishing k))). unfold maxRetries in *. lia.
  - rewrite bool_decide_false in Ht by done. split; [simpl in Ht; lia|].
    pose proof (load_goto k (with_q s (queue_forget x (p_q s))) i _ (PFinishing x) Hi) as Hl.
    assert (load k (with_q s (queue_forget x (p_q s))) = load k s) as El.
    { unfold load; simpl. by rewrite requeues_forget, decide_False by congruence. }
    rewrite El in Hl. simpl in Hl. lia.
Qed.

Lemma exec_spends k e s s' : quiet k s e = true -> pool_exec e s = Some s' -> pool_ok s -> retry_ok s ->
  tokens k s <= 1 -> spends k (attempt k s e) s s'.
Proof.
  intros Hq He Hs Hr Ht. pose proof (proj1 Hr k) as Hf.
  assert (Hadd : forall x n, bool_decide (x <> k) = true -> n + one (bool_decide (x = k)) = n).
  { intros x n ?%bool_decide_eq_true. rewrite bool_decide_false by done. simpl. lia. }
  destruct e; simpl in He, Hq |- *; try done;
    try (destruct (p_workers s !! i) as [p|] eqn:Hi; [|done]; destruct p; try done);
    try (apply fmap_Some in He as (q & Hg & ->)).
  - injection He as <-. apply spends_with_q; [rewrite <- (Hadd k0 (entries k (p_q s))) by done; apply entries_add|].
    apply requeues_eq, failures_add.
  - injection He as <-. apply spends_with_q; [rewrite <- (Hadd k0 (entries k (p_q s))) by done; apply entries_add_after|].
    apply requeues_eq, failures_add_after.
  - injection He as <-. apply spends_with_q; [done|]. rewrite requeues_forget, decide_False; [done|].
    apply bool_decide_eq_true in Hq. congruence.
  - apply spends_with_q; [by eapply entries_ready|]. by eapply requeues_eq, failures_ready.
  - apply spends_with_q; [by eapply entries_merge|]. by eapply requeues_eq, failures_merge.
  - destruct (queue_get (p_q s)) as [[[x q]|]|] eqn:Hg; simplify_eq; [by apply spends_get|].
    by split; rewrite ?Nat.add_0_r.
  - injection He as <-. eapply spends_goto; [done| |].
    + destruct err; simpl; lia.
    + unfold phase_load. simpl in Hq |- *.
      repeat case_bool_decide; simplify_eq; destruct err; unfold one; try done; repeat case_bool_decide; try done; lia.
  - injection He as <-. eapply spends_goto; [done|destruct (_ <? _); simpl; lia|].
    rewrite Nat.add_0_r. destruct (_ <? _); [done|apply Nat.le_0_l].
  - injection He as <-. by apply spends_retry.
  - injection He as <-. by apply spends_forgot.
  - injection He as <-. set (s1 := with_q s (queue_done k0 (p_q s))). change (spends k 0 s1 (goto s1 i PIdle)).
    by apply (spends_goto k 0 s1 i (PFinishing k0)).
  - injection He as <-. by split; rewrite ?Nat.add_0_r.
  - destr_match; [|done]. injection He as <-. by apply spends_with_q.
  - destr_match; [|done]. injection He as <-. by eapply spends_goto; [|simpl; lia..].
Qed.

Lemma run_spends k evs s s' : pool_run evs s = Some s' -> all_quiet k evs s = true ->
  pool_ok s -> retry_ok s -> tokens k s <= 1 ->
  retry_ok s' /\ attempts k evs s + load k s' <= load k s.
Proof.
  revert s. induction evs as [|e evs IH]; intros s; simpl; [intros [= ->]; auto with lia|].
  destruct (pool_exec e s) as [s1|] eqn:He; [|done]. intros Hrun [Hq Hall]%andb_true_iff Hs Hr Ht.
  destruct (exec_spends k e s s1 Hq He Hs Hr Ht) as [Ht1 Hl1].
  assert (unlimited e) by (by destruct e).
  destruct (exec_retry e s s1) as [Hs1 Hr1]; [done..|].
  destruct (IH s1) as [Hr' Hl]; try done; [lia|]. split; [done|lia].
Qed.

(** ** One worker by itself *)

(** The steps of a worker that takes [k], of which [f] failures are known. *)
Definition solo (i : nat) (err : option string) (bucket : Z) (f : nat) : list worker_event :=
  EGet i :: EReconciled i err ::
    match err with
    | None => [EForgot i; EDone i]
    | Some _ => [ECheck i; if f <? maxRetries then ERetry i bucket else EForgot i; EDone i]
    end.

Lemma exec_dirty e s s' k : pool_exec e s = Some s' -> k ∈ q_dirty (p_q s) ->
  k ∈ q_dirty (p_q s') \/ exists i, e = EGet i /\ p_workers s' !! i = Some (PReconciling k).
Proof.
  assert (Hadd : forall x q, k ∈ q_dirty q -> k ∈ q_dirty (queue_add x q)).
  { intros x q. unfold queue_add. repeat destr_match; set_solver. }
  assert (Hafter : forall x d q, k ∈ q_dirty q -> k ∈ q_dirty (queue_add_after x d q)).
  { intros x d q. unfold queue_add_after. repeat destr_match; auto. }
  intros He Hk. destruct e; simpl in He;
    try (destruct (p_workers s !! i) as [p|] eqn:Hi; [|done]; destruct p; try done);
    try (apply fmap_Some in He as (q & Hg & ->)); simplify_eq; simpl; eauto.
  - left. unfold queue_ready in Hg. case_bool_decide; simplify_eq. by apply (Hadd _ (with_waiting _ _)).
  - left. unfold queue_merge in Hg. destr_match; by simplify_eq.
  - unfold queue_get in He. destruct (q_queue (p_q s)) as [|x rest]; [destruct (q_shuttingDown _); simplify_eq; by left|].
    simplify_eq. simpl. destruct (decide (x = k)) as [->|]; [|left; set_solver].
    right. exists i. split; [done|]. apply list_lookup_insert_eq. by eapply lookup_lt_Some.
  - destr_match; [|done]. simplify_eq. by left.
  - destr_match; [|done]. simplify_eq. by left.
Qed.

Lemma run_dirty evs s s' k : pool_run evs s = Some s' -> k ∈ q_dirty (p_q s) ->
  k ∈ q_dirty (p_q s') \/ exists evs1 i evs2 s1 s2, evs = evs1 ++ EGet i :: evs2 /\
    pool_run evs1 s = Some s1 /\ pool_exec (EGet i) s1 = Some s2 /\ p_workers s2 !! i = Some (PReconciling k).
Proof.
  revert s. induction evs as [|e evs IH]; intros s Hrun Hk; [injection Hrun as <-; by left|].
  cbn [pool_run] in Hrun. destruct (pool_exec e s) as [s1|] eqn:He; [|done].
  destruct (exec_dirty e s s1 k He Hk) as [Hk1|(i & -> & Hi)].
  - destruct (IH s1 Hrun Hk1) as [|(evs1 & i & evs2 & s2 & s3 & -> & H1 & H2 & H3)]; [by left|right].
    exists (e :: evs1), i, evs2, s2, s3. split; [done|]. split; [cbn [pool_run]; by rewrite He|done].
  - right. by exists [], i, evs, s, s1.
Qed.

Lemma reachable_ok n evs s : pool_run evs (Run new_queue n) = Some s -> pool_ok s.
Proof.
  intros Hrun. apply (run_inv pool_ok (fun _ => True) evs _ s) in Hrun; [done| |by apply Forall_true|apply pool_ok_start].
  intros e s1 s2 _. apply exec_ok.
Qed.

Lemma retry_ok_start n : retry_ok (Run new_queue n).
Proof.
  split; [intros k; unfold NumRequeues; simpl; rewrite lookup_empty; simpl; lia|].
  intros i k Hi. simpl in Hi. by apply lookup_replicate in Hi as [? _].
Qed.

Lemma tokens_added n k : tokens k (with_q (Run new_queue n) (queue_add k new_queue)) <= 1.
Proof.
  assert (entries k new_queue = 0) as E0.
  { unfold entries, new_queue, q_waiting, q_dirty. rewrite multiplicity_empty, bool_decide_false by set_solver. done. }
  pose proof (entries_add k k new_queue) as He. rewrite bool_decide_true, E0 in He by done.
  unfold tokens, with_q, Run, p_q, p_workers.
  enough (forall m, sum_list (phase_tokens k <$> replicate m PIdle) = 0) as -> by (simpl in He; lia).
  induction m; csimpl; lia.
Qed.

(** A worker that no other step interrupts does what the code of [worker] does from top to
bottom. *)
Lemma worker_solo reconcileFunc bucket s i q : p_workers s !! i = Some PIdle ->
  worker_once reconcileFunc bucket (p_q s) = Some (q, true) ->
  exists k, pool_run (solo i (reconcileFunc k) bucket (NumRequeues k (p_q s))) s = Some (with_q s q).
Proof.
  unfold worker_once. intros Hi. destruct (queue_get (p_q s)) as [[[k q1]|]|] eqn:Hg; [|done..].
  intros [= <-]. exists k. pose proof (requeues_eq _ _ k (failures_get _ _ _ Hg)) as Hf.
  set (st q p := goto (with_q s q) i p).
  assert (Hat : forall q p, p_workers (st q p) !! i = Some p).
  { intros q p. apply list_lookup_insert_eq. by eapply lookup_lt_Some. }
  assert (Hgo : forall q p p', goto (st q p) i p' = st q p').
  { intros q p p'. unfold st, goto; simpl. by rewrite list_insert_insert_eq. }
  assert (Hgoq : forall q p q' p', goto (with_q (st q p) q') i p' = st q' p').
  { intros q p q' p'. unfold st, goto, with_q; simpl. by rewrite list_insert_insert_eq. }
  assert (Hend : forall q, st q PIdle = with_q s q).
  { intros q. unfold st, goto, with_q; simpl. by rewrite list_insert_id. }
  unfold solo, handleError. rewrite <- Hf.
  destruct (reconcileFunc k), (NumRequeues k q1 <? maxRetries) eqn:E; cbn [pool_run pool_exec]; rewrite Hi, Hg;
    fold (st q1 (PReconciling k)); repeat (rewrite Hat, ?Hgo, ?Hgoq; change (p_q (st q1 (PFailed k))) with q1; rewrite ?E; cbn [pool_exec]);
    by rewrite Hend.
Qed.

(** C15: in every interleaving of any number of workers and of the clients of their queue, two
workers never have the same key; the list of the queue has each key once, and has it exactly when it
is dirty and no worker has it. When no client adds keys rate limited, which [asyncWorker] has
no method for, no key is counted more than [maxRetries] times, although the check and the
counting are two calls. *)
Theorem workers_exclusive n evs s : pool_run evs (Run new_queue n) = Some s ->
  (forall i j k, held s i k -> held s j k -> i = j) /\
  NoDup (q_queue (p_q s)) /\
  (forall k, k ∈ q_queue (p_q s) <-> k ∈ q_dirty (p_q s) /\ ~ exists i, held s i k) /\
  (Forall unlimited evs -> forall k, NumRequeues k (p_q s) <= maxRetries).
Proof.
  intros Hrun. destruct (reachable_ok n evs s Hrun) as ([Hn Hq] & Hp & Hu).
  split; [done|]. split; [done|]. split.
  - intros k. by rewrite <- Hp.
  - intros Hl. apply (run_inv _ unlimited evs (Run new_queue n) s exec_retry Hl Hrun).
    split; [apply pool_ok_start|apply retry_ok_start].
Qed.

(** C16: a key that is added is not lost. In every interleaving after the [Add], as long as the
queue was not shut down before it, either a worker took the key after the [Add], so that it
reconciles a state at least as new, or the key is still in the list, or it is dirty and the worker
that has it from before will put it back. *)
Theorem work_kept n pre evs k s s' : pool_run pre (Run new_queue n) = Some s ->
  q_shuttingDown (p_q s) = false -> pool_run (EAdd k :: evs) s = Some s' ->
  k ∈ q_queue (p_q s') \/
  (exists i, held s' i k /\ k ∈ q_dirty (p_q s')) \/
  (exists evs1 i evs2 s1 s2, evs = evs1 ++ EGet i :: evs2 /\ pool_run (EAdd k :: evs1) s = Some s1 /\
    pool_exec (EGet i) s1 = Some s2 /\ p_workers s2 !! i = Some (PReconciling k)).
Proof.
  intros Hpre Hsd Hrun. assert (Hs : pool_ok s) by (by eapply reachable_ok).
  cbn [pool_run pool_exec] in Hrun |- *. set (s0 := with_q s (queue_add k (p_q s))) in *.
  assert (Hd : k ∈ q_dirty (p_q s0)).
  { simpl. unfold queue_add. rewrite Hsd. case_bool_decide; set_solver. }
  assert (Hs' : pool_ok s').
  { assert (pool_ok s0) as Hs0 by (by apply (exec_ok (EAdd k) s)).
    apply (run_inv pool_ok (fun _ => True) evs s0 s') in Hrun; [done| |by apply Forall_true|done].
    intros e s1 s2 _. apply exec_ok. }
  destruct (run_dirty evs s0 s' k Hrun Hd) as [Hk|(evs1 & i & evs2 & s1 & s2 & -> & H1 & H2 & H3)].
  - destruct Hs' as ([_ Hq] & Hp & _). destruct (decide (k ∈ q_processing (p_q s'))) as [Hin|Hout].
    + apply Hp in Hin as [i Hi]. right. left. by exists i.
    + left. by apply Hq.
  - right. right. by exists evs1, i, evs2, s1, s2.
Qed.

(** C17: a key that is added once and whose reconciles all fail is tried at most sixteen times, in every
interleaving with other keys and workers; once it was tried so often, it is nowhere in the
queue and no worker reconciles it: it was dropped. *)
Theorem attempts_bounded n k evs s' :
  let s := with_q (Run new_queue n) (queue_add k new_queue) in
  pool_run evs s = Some s' -> all_quiet k evs s = true ->
  attempts k evs s <= S maxRetries /\
  (attempts k evs s = S maxRetries ->
    k ∉ q_waiting (p_q s') /\ k ∉ q_dirty (p_q s') /\ forall i, p_workers s' !! i <> Some (PReconciling k)).
Proof.
  intros s Hrun Hq. pose proof (tokens_added n k) as Ht.
  assert (Hs : pool_ok s /\ retry_ok s).
  { apply (exec_retry (EAdd k) (Run new_queue n)); [done..|]. split; [apply pool_ok_start|apply retry_ok_start]. }
  destruct (run_spends k evs s s' Hrun Hq) as [Hr Hl]; [apply Hs|apply Hs|done|].
  pose proof (load_tokens k s) as Hb. fold s in Ht. apply (Nat.mul_le_mono_l _ _ (S maxRetries)) in Ht. rewrite Nat.mul_1_r in Ht.
  split; [lia|]. intros Ha. assert (load k s' = 0) as H0 by lia. revert H0. unfold load.
  pose proof (proj1 Hr k). intros [He Hw]%Nat.eq_add_0. assert (entries k (p_q s') = 0) as Hz by nia.
  unfold entries in Hz. split; [|split].
  - rewrite elem_of_multiplicity. lia.
  - intros Hd. rewrite bool_decide_true in Hz by done. simpl in Hz. lia.
  - intros i Hi. pose proof (sum_insert (phase_load k (NumRequeues k (p_q s'))) _ _ _ PIdle Hi) as Hsum.
    rewrite Hw in Hsum. unfold phase_load at 2 3 in Hsum. rewrite bool_decide_true in Hsum by done. unfold one in Hsum. lia.
Qed.

End queue.

(** ** The delays *)

Lemma backoff_pos base max exp : (0 < base)%Z -> (0 < max)%Z -> (0 < backoff base max exp <= max)%Z.
Proof.
  intros Hb Hm. unfold backoff. pose proof (Z.pow_pos_nonneg 2 (Z.of_nat exp) ltac:(lia) ltac:(lia)).
  assert (0 < base * 2 ^ Z.of_nat exp)%Z by (apply Z.mul_pos_pos; lia).
  destruct (Z.ltb_spec (2 ^ 63 - 1) (base * 2 ^ Z.of_nat exp)); [lia|].
  destruct (Z.ltb_spec max (base * 2 ^ Z.of_nat exp)); lia.
Qed.

(** Whatever the options, a retry never goes to the list at once: it waits. *)
Theorem retry_waits {K} `{Countable K} opts bucket (k : K) q : q_shuttingDown q = false ->
  let q' := queue_add_limited opts bucket k q in
  q_queue q' = q_queue q /\ q_waiting q' = q_waiting q ⊎ {[+ k +]} /\ NumRequeues k q' = S (NumRequeues k q).
Proof.
  intros Hs. unfold queue_add_limited, queue_add_after. simpl. rewrite Hs.
  assert (0 < limiter_delay opts bucket (NumRequeues k q))%Z as Hd.
  { unfold limiter_delay. destruct (backoff_pos (RateLimiterBaseDelay (limiter_defaults opts))
      (RateLimiterMaxDelay (limiter_defaults opts)) (NumRequeues k q)); [| |lia].
    - unfold limiter_defaults; simpl. destruct (Z.leb_spec (RateLimiterBaseDelay opts) 0); unfold Millisecond; lia.
    - unfold limiter_defaults; simpl. destruct (Z.leb_spec (RateLimiterMaxDelay opts) 0); unfold Second; lia. }
  destruct (Z.leb_spec (limiter_delay opts bucket (NumRequeues k q)) 0); [lia|].
  split; [done|]. split; [done|]. unfold NumRequeues; simpl. by rewrite lookup_insert_eq.
Qed.

Definition no_options : RateLimitOptions := mkLimits 0 0 0 0.

(** The fifteen delays the comment of [maxRetries] lists, in milliseconds. *)
Example default_backoffs :
  map (fun exp => limiter_delay no_options 0 exp / Millisecond)%Z (seq 0 15) =
  [5; 10; 20; 40; 80; 160; 320; 640; 1280; 2560; 5120; 10240; 20480; 40960; 81920]%Z.
Proof. vm_compute. reflexivity. Qed.

(** ** Runs *)

Definition failing_round (k : string) : list worker_event :=
  [EGet 0; EReconciled 0 (Some "conflict"); ECheck 0; ERetry 0 0; EDone 0; EReady k].

(** Sixteen attempts, the last of which drops the key. *)
Definition failing_run (k : string) : list worker_event :=
  concat (replicate 15 (failing_round k)) ++ [EGet 0; EReconciled 0 (Some "conflict"); ECheck 0; EForgot 0; EDone 0].

Definition reach (evs : list worker_event) (s : Pool (K := string)) : Pool := default s (pool_run no_options evs s).

Lemma attempts_bounded_witness :
  let s := with_q (Run new_queue 2) (queue_add "a" new_queue) in
  let s' := reach (failing_run "a") s in
  attempts no_options "a" (failing_run "a") s = 16 /\
  ("a" ∉ q_waiting (p_q s') /\ "a" ∉ q_dirty (p_q s') /\ forall i, p_workers s' !! i <> Some (PReconciling "a")).
Proof.
  intros s s'. assert (Ha : attempts no_options "a" (failing_run "a") s = 16) by (vm_compute; reflexivity).
  split; [exact Ha|].
  destruct (attempts_bounded no_options 2 "a" (failing_run "a") s') as [_ Hd];
    [vm_compute; reflexivity | vm_compute; reflexivity | exact (Hd Ha)].
Defined.

(** Two workers and a key that is added again while the first worker has it. *)
Definition busy_run : list worker_event :=
  [EAdd "a"; EAdd "b"; EGet 0; EAdd "a"; EGet 1; EReconciled 0 None; EForgot 0].

Lemma workers_exclusive_witness :
  let s := reach busy_run (Run new_queue 2) in
  (held s 0 "a" /\ held s 1 "b") /\ q_queue (p_q s) = [] /\ "a" ∈ q_dirty (p_q s) /\
  (forall i j k, held s i k -> held s j k -> i = j) /\ NumRequeues "a" (p_q s) <= maxRetries.
Proof.
  intros s. destruct (workers_exclusive no_options 2 busy_run s) as (Hu & _ & _ & Hr); [vm_compute; reflexivity|].
  split; [split; vm_compute; reflexivity|]. split; [vm_compute; reflexivity|].
  split; [vm_compute; reflexivity|]. split; [exact Hu|]. apply Hr. repeat constructor.
Defined.

Lemma work_kept_witness :
  let s := reach [EAdd "a"; EGet 0] (Run new_queue 1) in
  let s' := reach [EAdd "a"; EReconciled 0 None; EForgot 0] s in
  "a" ∈ q_queue (p_q s') \/ (exists i, held s' i "a" /\ "a" ∈ q_dirty (p_q s')) \/
  (exists evs1 i evs2 s1 s2, [EReconciled 0 None; EForgot 0] = evs1 ++ EGet i :: evs2 /\
    pool_run no_options (EAdd "a" :: evs1) s = Some s1 /\ pool_exec no_options (EGet i) s1 = Some s2 /\
    p_workers s2 !! i = Some (PReconciling "a")).
Proof.
  intros s s'. apply (work_kept no_options 1 [EAdd "a"; EGet 0] [EReconciled 0 None; EForgot 0] "a" s s');
    vm_compute; reflexivity.
Defined.

(** A client of the second worker that adds a key rate limited counts as a failure: the next failure
of the key finds the limit reached and drops it. *)
Example limited_clients_count :
  let s := reach (EAdd "a" :: replicate 16 (ELimited "a" 0) ++
    [EGet 0; EReconciled 0 (Some "conflict"); ECheck 0]) (Run new_queue 1) in
  p_workers s = [PForgetting "a"].
Proof. vm_compute. reflexivity. Qed.

(** Shutting down hands out what is left, and then tells the workers to end. *)
Example shutdown_drains :
  pool_run no_options [EAdd "a"; EStop; EShutDown; EAdd "b"; EGet 0] (Run new_queue 1) <> None /\
  q_queue (p_q (reach [EAdd "a"; EStop; EShutDown; EAdd "b"; EGet 0] (Run new_queue 1))) = [] /\
  GetFirst (queue_shutdown (new_queue (K := string))) = Some Panic.
Proof. vm_compute. done. Qed.

(** ** Keys *)

Record ClusterWideKey := mkKey {
  key_Group : string; key_Version : string; key_Kind : string; key_Namespace : string; key_Name : string }.

#[export] Instance ClusterWideKey_eq_dec : EqDecision ClusterWideKey.
Proof. solve_decision. Defined.
#[export] Program Instance ClusterWideKey_countable : Countable ClusterWideKey :=
  inj_countable' (fun k => (key_Group k, key_Version k, key_Kind k, key_Namespace k, key_Name k))
    (fun '(g, v, kd, ns, n) => mkKey g v kd ns n) _.
Next Obligation. by intros []. Qed.

Definition no_key : ClusterWideKey := mkKey "" "" "" "" "".

Definition NamespaceKey (k : ClusterWideKey) : string :=
  if 0 <? String.length (key_Namespace k) then key_Namespace k +:+ "/" +:+ key_Name k else key_Name k.

(** [schema.GroupVersion.String] *)
Definition group_version (k : ClusterWideKey) : string :=
  if 0 <? String.length (key_Group k) then key_Group k +:+ "/" +:+ key_Version k else key_Version k.

Definition key_String (k : ClusterWideKey) : string :=
  group_version k +:+ ", kind=" +:+ key_Kind k +:+ ", " +:+ NamespaceKey k.

(** An [interface{}]: the group, version and kind of a [runtime.Object], and the namespace and
name [meta.Accessor] finds, or its error. *)
Record AnyObject := mkAny { any_Runtime : option (string * string * string); any_Meta : result (string * string) }.

(** The key with the error, as the code returns both. *)
Definition ClusterWideKeyFunc (obj : AnyObject) : ClusterWideKey * option string :=
  match any_Runtime obj with
  | None => (no_key, Some "not runtime object")
  | Some (group, version, kind) =>
      match any_Meta obj with
      | inr err => (no_key, Some ("object has no meta: " +:+ err))
      | inl (namespace, name) => (mkKey group version kind namespace name, None)
      end
  end.

Definition NamespaceWideKeyFunc (obj : AnyObject) : ClusterWideKey * option string :=
  match any_Meta obj with
  | inr err => (no_key, Some ("object has no meta: " +:+ err))
  | inl (namespace, name) => (mkKey "" "" "" namespace name, None)
  end.

Record FederatedKey := mkFederated { fed_Cluster : string; fed_Key : ClusterWideKey }.

Definition federated_String (f : FederatedKey) : string :=
  "cluster=" +:+ fed_Cluster f +:+ ", " +:+ key_String (fed_Key f).

Definition FederatedKeyFunc (cluster : string) (obj : AnyObject) : FederatedKey * option string :=
  if String.length cluster =? 0 then (mkFederated "" no_key, Some "empty cluster name is not allowed")
  else match ClusterWideKeyFunc obj with
  | (_, Some err) => (mkFederated "" no_key, Some err)
  | (cwk, None) => (mkFederated cluster cwk, None)
  end.

(** [MetaNamespaceKeyFunc] of the package [lifted], over that of [cache]; nil with an error. *)
Definition lifted_MetaNamespaceKeyFunc (obj : AnyObject) : result (option string) :=
  match any_Meta obj with
  | inr err => inr ("object has no meta: " +:+ err)
  | inl (namespace, name) => inl (Some (NamespaceKey (mkKey "" "" "" namespace name)))
  end.

(** [SplitKey]: [cache.SplitMetaNamespaceKey]. *)
Definition SplitKey (key : string) : string * string * option string :=
  match Split "/" key with
  | [name] => ("", name, None)
  | [namespace; name] => (namespace, name, None)
  | _ => ("", "", Some ("unexpected key format: " +:+ Quote key))
  end.

(** A key of either function, printed and split, gives the namespace and the name back. *)
Theorem key_read_back k : let slash := "/"%char in
  slash ∉ String.list_ascii_of_string (key_Namespace k) -> slash ∉ String.list_ascii_of_string (key_Name k) ->
  SplitKey (NamespaceKey k) = (key_Namespace k, key_Name k, None).
Proof.
  intros slash Hns Hn. unfold NamespaceKey, SplitKey. destruct (key_Namespace k) as [|c ns] eqn:E.
  - simpl. by rewrite Split_no_sep.
  - change (0 <? String.length (String c ns)) with true. cbn [negb].
    change (String c ns +:+ "/" +:+ key_Name k) with (String c ns +:+ String slash (key_Name k)).
    by rewrite Split_app, Split_no_sep.
Qed.

(** Queues keyed by objects: two objects share a key when all five parts agree, so an enqueue of
one is an enqueue of the other. *)
Theorem key_of_object obj1 obj2 k : ClusterWideKeyFunc obj1 = (k, None) -> ClusterWideKeyFunc obj2 = (k, None) ->
  any_Runtime obj1 = any_Runtime obj2 /\ any_Meta obj1 = any_Meta obj2.
Proof.
  unfold ClusterWideKeyFunc. destruct obj1 as [[[[g1 v1] k1]|] [[ns1 n1]|]], obj2 as [[[[g2 v2] k2]|] [[ns2 n2]|]]; naive_solver.
Qed.

Example keys_of_pod :
  let pod := mkAny (Some ("", "v1", "Pod")) (inl ("kube-system", "dns")) in
  key_String (fst (ClusterWideKeyFunc pod)) = "v1, kind=Pod, kube-system/dns" /\
  federated_String (fst (FederatedKeyFunc "leaf" pod)) = "cluster=leaf, v1, kind=Pod, kube-system/dns" /\
  snd (FederatedKeyFunc "" pod) = Some "empty cluster name is not allowed" /\
  snd (SplitKey "a/b/c") = Some (String.append "unexpected key format: " (Quote "a/b/c")).
Proof. vm_compute. done. Qed.
